(* ===== verification/_CoqProject ===== *)
-Q . S2P
Prelude.v
Machine.v
Text.v
Decimal.v
Hash.v
Classify.v
Cas.v
Schema.v
Scan.v
Rules.v
Triggers.v
Hunts.v
Workers.v
Fuzzy.v
SimModel.v
Features.v
Functions.v
Variants.v
Lifecycle.v
Ingest.v
AgentState.v
Spool.v
Sensors.v
Capture.v
Delivery.v
Progress.v
Pool.v
Access.v
Merlin.v
Neighborhood.v
Intel.v
Detonate.v
Report.v
Feeds.v
Sandbox.v
Export.v
Mcp.v
Isolation.v
Routes.v
Reading.v
AgentLoop.v
Client.v
Command.v
Startup.v
Sources.v
AgentStart.v
