(* ===== verification/Prelude.v ===== *)
(** * Corpus: a verification library for the Corpus control plane and agent

    Corpus keeps the executables of a fleet of hosts.  Agents capture files, an
    ingestion API stores them once per tenant under their SHA-256, YARA rules
    are compiled into immutable bundles and run over the whole corpus ("retro
    hunts") and over each new file ("forward scans"), and a similarity engine
    groups variants.  This library models that program, file by file, as Rocq
    functions and proves what makes it correct.

    ** How the parts fit

    An agent ([corpus-agent/src]) watches its host ([Sensors]), queues paths in a
    SQLite database ([AgentState]), copies each file into an encrypted spool while
    hashing it ([Spool]) and drives it through announce, upload and finalize
    ([Capture]).  The server ([corpus-server/src/main.rs], [Routes]) authenticates
    each request ([Access]) and calls the handlers of [corpus-core/src]: ingestion
    ([Ingest]) over the object store ([Cas]) and the tables ([Schema]); on commit
    the forward scan ([Hunts], [Scan], [Rules]) and the similarity analysis
    ([Features], [Functions], [Fuzzy], [SimModel], [Variants]); retention
    ([Lifecycle]), graph queries and their export ([Neighborhood], [Export]),
    analyst actions ([Triggers]), searches, blast radius reports and
    investigations ([Report]), intelligence and re-analysis ([Intel]), host
    telemetry ([Merlin]), sandboxes ([Detonate]) and the tools offered to language
    models ([Mcp]).

    ** Files, in dependency order

    - [Prelude]: errors and outcomes, the state-and-failure monad [Op], its
      invariants ([keeps], [yields], [preserves]), stable sorting, tactics.
      [Machine]: machine words, slices, binary64.  [Text], [Decimal]: the string
      methods and number parsers.
    - [Hash] ([hash.rs]), [Classify] ([classify.rs]), [Cas] ([cas.rs]: the trait
      as a class with laws, and both backends).
    - [Schema] ([migrations/*.sql]): one [Record] per table, the state [Srv], the
      SQL statements as operations on it and the lemmas on each statement.
    - [Scan] ([scan.rs], [sandbox.rs]), [Rules] ([rules.rs], [registry.rs]),
      [Triggers] ([triggers.rs], [detect.rs], [opinions.rs]), [Hunts]
      ([hunts.rs]).
    - [Fuzzy] ([similarity/fuzzy.rs], [lsh.rs]), [SimModel] ([model.rs],
      [analyzers.rs], [receipts.rs]), [Features] ([extract.rs]), [Functions]
      ([semantic/*.rs]), [Variants] ([similarity/edges.rs], [semantic/edges.rs]),
      [Lifecycle] ([lifecycle.rs], [invalidation.rs]).
    - [Ingest] ([ingest.rs]).
    - [AgentState] ([state.rs]), [Spool] ([spool_crypto.rs], [stable_read.rs]),
      [Sensors] ([sensors/usn.rs], [rdcw_parse.rs], [config.rs], [baseline.rs]),
      [Capture] ([capture.rs]), [Delivery] ([uploader.rs] over [Ingest]),
      [Progress] (what a pass of [Capture] achieves), [Pool] ([worker_loop]: the
      workers together, as a machine of interleaved turns).
    - [Access] ([auth.rs], [tenant.rs], [agents.rs]), [Merlin] ([merlin.rs]),
      [Neighborhood] ([similarity/neighborhood.rs]), [Intel] ([intel.rs],
      [continuous.rs]), [Detonate] ([detonate.rs]), [Report] ([analyst.rs],
      [report.rs], [investigate.rs], [metrics.rs]), [Export]
      ([similarity/export.rs]), [Mcp] (module [mcp] of [main.rs]).
    - [Workers] (the loops of [corpus-server/src/main.rs]): the delivery sweep and
      the durable hunt worker.  [AgentLoop] ([corpus-agent/src/main.rs],
      [heartbeat.rs], [sensors/fanotify.rs]): enrollment, the boot identity, the
      loop that reports coverage gaps, the heartbeat, the fanotify sensor; the
      server behind them is an interface, discharged with [Routes].
    - [Isolation]: no code of its own; for every handler above, that it writes
      rows of its tenant only.
    - [Routes] ([corpus-server/src/main.rs], [mtls.rs]): routing table, gate,
      handlers, and the agents' listener.
    - [Reading]: no code of its own; for every query above, that its answer is the
      one computed from the tenant's rows alone.
    - [Feeds] ([oci.rs], the clients of [intel.rs]): image references, the registry
      client, layers, saved images, TAXII, MalwareBazaar.  [Client]
      ([corpusctl/src/main.rs]): the imports and the wait for a hunt, against an
      interface ([Api], with its laws) that [Client] discharges with [Routes].
      [Command] (the same file): every subcommand, the request it writes and
      [main]; and how the server's extractors read such a request.
    - [Sandbox] ([sandbox.rs], [corpus-scanner/src/main.rs]): the scanner's parent,
      the gVisor variant and the child, as an instance of the host [Scan] asks for.
    - [Startup] ([corpus-server/src/main.rs], [db.rs], [mtls.rs], [auth.rs]): the
      listen address, the retried connection, the files of the authority and what
      it signs, both TLS configurations, [main] and the agents' accept loop.
      [Sources] ([corpus-agent/src/sensors/], [fileid.rs]): mounts and marks of
      fanotify, directory changes, the journal and the streams of Windows, the
      poll loop.  [AgentStart] ([corpus-agent/src/main.rs], [config.rs],
      [spool_crypto.rs], [win32_dpapi.rs]): configuration, the spool's key, the
      boot's identity and [run].
    ** What the theorems show

    - Storage: the two backends refine one reference store; ingestion is content-addressed over every sequence of requests; a digest
      mismatch commits nothing; sessions close once.
    - Rules and hunts: bundle digests are canonical and bundles immutable; a
      finished hunt accounts for its whole plan, is replayed from the cache and
      its jobs are handed out once, until the queue is empty.
    - Similarity: variant groups are the components of strong edges; the edit
      distance is the least; a fuzzy digest is the one the positions of its data define,
      and reads back; cleanup erases what it should.
    - Agent: at most one active candidate per path, no candidate or file in two
      workers' hands; a
      stable read is about an unchanged file; the spool format and the journal
      parser round-trip; the baseline covers the tree, killed between any two of its
      database calls; a pass over a candidate is bounded, leaves it settled or
      rescheduled at the times documented, and a completed candidate's bytes are on the server, first
      against the [Uploader] interface and then, in [Delivery], for the handlers
      themselves over a lossy network, with crashes at any step.  Coverage gaps
      are never lost and arrive once, in order, while the server answers;
      occurrence keys do not repeat; fanotify's marks cover the watched paths, the
      kernel's mounts being given as records, and its records are all observed; the journal is read in order; a restarted agent
      is the agent it was.
    - Reports: the blast radius of a digest or a hunt lists what the tables hold, an
      attested absence is about a plan that was scanned, searches and dropper leads
      are complete up to their limit, exports read back, and the MCP endpoint is
      read-only and answers every request but one.
    - Server: no request changes another tenant's rows or reads them; without a credential
      nothing changes but through three named routes; tokens enroll once; the
      start-up refuses open configurations and opens its listeners last; the
      authority survives interrupted writes and its certificates name their agents;
      telemetry is stored once per event;
      the neighborhood query is the ball it says; no sample leaves unannounced.
    - Client: an import prints the truth about every file, of a directory or of a
      saved image, over a lossy link and with other clients in between; image
      references have one reading; every other command is read by the server as
      its help promises, one contradiction of the cleanup options apart.
    - Sandbox: a scan in a process of its own settles, unless the program's input
      stays held; it believes only what was printed in time, and answers what a
      scan in the server would.
    - Where the code does not do what it means to, a theorem exhibits the case
      (for instance [Cas.read_range_wraps], [Detonate.detonate_again_fails],
      [Routes.mcp_unreachable]).

    ** Modelling decisions

    - A handler is one atomic operation [Op S A] := S -> outcome A * S; two handlers run one
      after the other.  An error keeps the writes made before it, as the code
      does outside a transaction; [db_transaction] restores the tables.  A Rust
      panic is the outcome [Panic].
    - [Uuid] is [N]; identifiers and clock readings are drawn from streams in the
      state, arbitrary unless a theorem says otherwise.  Timestamps are [Z]
      seconds.  [usize] is 64 bits.  [anyhow] errors are [Db], [BadRequest]
      or [Io]; messages keep the literal text of their format strings.
    - Tables are lists in insertion order; [ORDER BY] is a stable sort; a unique
      violation is [Fail (Db _)].  Foreign keys are checked only where a handler
      depends on one.
    - Third-party code (sha2, hex, YARA-X, goblin, iced-x86, chacha20, chrono,
      reqwest, axum's router, x509-parser, rcgen, rustls, tar, flate2, zip, serde_yaml,
      serde_json's text) is a class each,
      its documented laws a separate class, and each has a reference instance
      with which the witnesses are evaluated.  The network and the file system
      are oracles: [Link] in [Delivery] and [Client], [Net] in
      [Detonate], [Web] in [Feeds], [Attempt] in [Spool], [ScannerOs] in [Sandbox],
      [CaHost] in [Startup], [Machine] and [KeyHost] in [AgentStart].
    - A crash of the agent is a step counter: an operation runs its first k
      statements.  The baseline is a [Thread] of [Prelude]: its calls on the database
      are separate steps, between which others act or the agent dies.
    - A specification does not reuse the code's own functions: variant groups are
      compared with connectivity, neighborhoods with walks, fuzzy digests with
      positions of the data, mounts with the kernel's records, saved images with
      the members of their archive, object stores with a pair of maps.
    - [to_lowercase] is that of ASCII.

    ** Fuel and bounds

    Recursion that is not structural carries fuel, with a theorem that it is
    enough: 30 doublings of the fuzzy block size for inputs up to 2^36 bytes, the
    length of the text plus one for the comment stripper, the length of the
    buffer plus one for the spool and journal parsers, 26 steps for a pass over a
    candidate, the applied node bound for the neighborhood walk, the configured
    number of polls for a detonation, 32 pages of the journal (the code's own bound).  [show_f64] prints with 1500 digits of
    fuel, more than any finite binary64 needs.

    ** Not modelled

    The migrations' SQL (the tables they end in are [Schema]); argument parsing
    (clap) and the layout of what [corpusctl] prints; logging; the bodies of system
    calls, TLS, HTTP and the parsers named above, which are parameters; the code
    of the test suite ([testutil.rs], [contract_tests.rs], [fixtures.rs]).
    Failures of a database call in the middle of a handler, other than the errors
    the statements themselves give, are not modelled: the statements of an analysis
    ([Variants.insert_edge], two of them without a transaction) all run, and a
    call of the baseline that failed would end it as a kill does.  The agent passes
    over an error of removing a spool file; [Spool.remove_spool] always removes it.
    In [Pool] the renewal of a lease does not fall between a task's last statement
    and the end of its watchdog.

    ** Plan

    Every part of the program that acts is modelled.  What a later version could
    refine is the grain: handlers are atomic here, while PostgreSQL interleaves
    the statements of two of them where the code opens no transaction. *)

From stdpp Require Export base gmap list strings.
From Stdlib Require Export ZArith Lia.
From Stdlib Require Import Sorting.Permutation Sorting.Sorted.

(** ** Errors and outcomes *)

(** [corpus_core::error::Error].  A payload is the message the code formats;
    where the code interpolates run-time values into the text the model keeps
    the literal part of the format string. *)
Inductive Error : Type :=
  | Db (m : string)
  | Io (m : string)
  | Migrate (m : string)
  | HashMismatch (announced recomputed : string)
  | RuleCompile (m : string)
  | RuleParse (m : string)
  | NotFound (m : string)
  | Conflict (m : string)
  | Unauthorized (m : string)
  | BadRequest (m : string)
  | Forbidden (m : string).

(** The [Display] form ([#[error("...")]]). *)
Definition error_text (e : Error) : string :=
  match e with
  | Db m => "database error: " +:+ m
  | Io m => "io error: " +:+ m
  | Migrate m => "migration error: " +:+ m
  | HashMismatch a r => "sha256 mismatch: announced " +:+ (a +:+ (", recomputed " +:+ r))
  | RuleCompile m => "rule compile error: " +:+ m
  | RuleParse m => "invalid rule source: " +:+ m
  | NotFound m => "not found: " +:+ m
  | Conflict m => "conflict: " +:+ m
  | Unauthorized m => "unauthorized: " +:+ m
  | BadRequest m => "bad request: " +:+ m
  | Forbidden m => "forbidden: " +:+ m
  end.

(** The result of running Rust code: a value, an [Err] or a panic (a failed
    [assert!], an [unwrap] of [None], an index out of range). *)
Inductive outcome (A : Type) : Type :=
  | Ret (a : A)
  | Fail (e : Error)
  | Panic.
Arguments Ret {A} _.
Arguments Fail {A} _.
Arguments Panic {A}.

Definition is_ret {A} (o : outcome A) : bool :=
  match o with Ret _ => true | _ => false end.

Global Instance outcome_mret : MRet outcome := fun A a => Ret a.
Global Instance outcome_mbind : MBind outcome := fun A B f o =>
  match o with Ret a => f a | Fail e => Fail e | Panic => Panic end.

(** [unwrap], indexing and slicing: [None] is a panic. *)
Definition or_panic {A} (o : option A) : outcome A :=
  match o with Some a => Ret a | None => Panic end.

(** [ok_or]: [None] is an error. *)
Definition or_fail {A} (e : Error) (o : option A) : outcome A :=
  match o with Some a => Ret a | None => Fail e end.

(** ** State-passing operations *)

(** An operation over a state [S]: the state is kept when it fails, as a
    statement that was already executed stays executed. *)
Definition Op (S A : Type) : Type := S -> outcome A * S.

Global Instance op_mret {S} : MRet (Op S) := fun A a s => (Ret a, s).
Global Instance op_mbind {S} : MBind (Op S) := fun A B f m s =>
  match m s with
  | (Ret a, s') => f a s'
  | (Fail e, s') => (Fail e, s')
  | (Panic, s') => (Panic, s')
  end.

Definition throw {S A} (e : Error) : Op S A := fun s => (Fail e, s).
Definition panic {S A} : Op S A := fun s => (Panic, s).
Definition gets {S A} (f : S -> A) : Op S A := fun s => (Ret (f s), s).
Definition modify {S} (f : S -> S) : Op S unit := fun s => (Ret tt, f s).
Definition lift_outcome {S A} (o : outcome A) : Op S A := fun s => (o, s).

(** [ok_or_else]: a missing value is an error. *)
Definition or_throw {S A} (e : Error) (o : option A) : Op S A :=
  match o with Some a => mret a | None => throw e end.

(** [.ok()], [let _ =], [if let Err(e) = ...]: run [m] and go on with its
    outcome unless it panicked. *)
Definition attempt {S A} (m : Op S A) : Op S (Error + A) := fun s =>
  match m s with
  | (Ret a, s') => (Ret (inr a), s')
  | (Fail e, s') => (Ret (inl e), s')
  | (Panic, s') => (Panic, s')
  end.

(** A database transaction: the state is rolled back (by [undo old new])
    unless the body returns. *)
Definition transaction {S A} (undo : S -> S -> S) (m : Op S A) : Op S A := fun s =>
  match m s with
  | (Ret a, s') => (Ret a, s')
  | (o, s') => (o, undo s s')
  end.

(** [for x in l { f(x)?; }] *)
Fixpoint op_for {S A} (l : list A) (f : A -> Op S unit) : Op S unit :=
  match l with
  | [] => mret tt
  | x :: l' => f x ;; op_for l' f
  end.

(** [for x in l { acc = f(acc, x)?; }] *)
Fixpoint op_fold {S A B} (l : list A) (acc : B) (f : B -> A -> Op S B) : Op S B :=
  match l with
  | [] => mret acc
  | x :: l' => acc' ← f acc x; op_fold l' acc' f
  end.

(** ** Threads over a shared store

    A thread that shares its store with others: it has finished, or its next call
    on the store is [op] and [k] is what it does with the answer.  Between two
    calls the others may do anything to the store, and the thread may be
    killed. *)
Inductive Thread (S A : Type) : Type :=
  | Finished (a : A)
  | Step {X : Type} (op : Op S X) (k : X -> Thread S A).
Arguments Finished {S A} _.
Arguments Step {S A X} _ _.

(** One call. *)
Definition call {S A} (op : Op S A) : Thread S A := Step op Finished.

Fixpoint thread_bind {S A B} (f : A -> Thread S B) (p : Thread S A) : Thread S B :=
  match p with
  | Finished a => f a
  | Step op k => Step op (fun x => thread_bind f (k x))
  end.

Global Instance thread_mret {S} : MRet (Thread S) := fun A a => Finished a.
Global Instance thread_mbind {S} : MBind (Thread S) := fun A B f p => thread_bind f p.

(** [for x in l { acc = f(acc, x)?; }] *)
Fixpoint thread_fold {S A B} (l : list A) (acc : B) (f : B -> A -> Thread S B) : Thread S B :=
  match l with
  | [] => mret acc
  | x :: l' => acc' ← f acc x; thread_fold l' acc' f
  end.

(** The thread run to its end with nobody else at work. *)
Fixpoint thread_run {S A} (p : Thread S A) : Op S A :=
  match p with
  | Finished a => mret a
  | Step op k => x ← op; thread_run (k x)
  end.

(** ** State predicates kept by an operation

    [keeps I m]: from a state of [I], [m] ends in a state of [I], whether it
    returns, fails or panics.  The lemmas below follow the structure of an
    operation, so [keeps_tac] proves an invariant handler by handler. *)
Definition keeps {S A} (I : S -> Prop) (m : Op S A) : Prop :=
  forall s, I s -> I (snd (m s)).

(** [frames v m]: the part [v] of the state is untouched by [m]. *)
Definition frames {S A B} (v : S -> B) (m : Op S A) : Prop :=
  forall s, v (snd (m s)) = v s.

(** ** Stable sorting

    [slice::sort_by] is stable; [le x y] is [cmp x y != Greater]. *)
Section sorting.
  Context {A : Type} (le : A -> A -> bool).

Fixpoint insert_by (x : A) (l : list A) : list A :=
  match l with
  | [] => [x]
  | y :: l' => if le x y then x :: l else y :: insert_by x l'
  end.

Definition sort_by (l : list A) : list A := foldr insert_by [] l.

Definition le_total : Prop := forall x y, le x y = true \/ le y x = true.
Definition le_trans : Prop := forall x y z, le x y = true -> le y z = true -> le x z = true.

Lemma insert_by_perm x l : Permutation (insert_by x l) (x :: l).
Proof.
  induction l as [|y l IH]; simpl; [done|].
  destruct (le x y); [done|]. rewrite IH. constructor.
Qed.

Lemma sort_by_perm l : Permutation (sort_by l) l.
Proof.
  induction l as [|x l IH]; simpl; [done|]. by rewrite insert_by_perm, IH.
Qed.

Lemma sort_by_length l : length (sort_by l) = length l.
Proof. apply Permutation_length, sort_by_perm. Qed.

Lemma sort_by_in l x : In x (sort_by l) <-> In x l.
Proof.
  split; apply Permutation_in; [|symmetry]; apply sort_by_perm.
Qed.

Lemma insert_by_sorted x l :
  le_total -> le_trans ->
  StronglySorted (fun a b => le a b = true) l ->
  StronglySorted (fun a b => le a b = true) (insert_by x l).
Proof.
  intros Htot Htr. induction 1 as [|y l Hl IH Hy]; simpl.
  { repeat constructor. }
  destruct (le x y) eqn:Hxy.
  - constructor; [by constructor|]. constructor; [done|].
    eapply Forall_impl; [done|]. simpl. eauto.
  - constructor; [done|].
    assert (Hyx : le y x = true) by (destruct (Htot x y) as [?|?]; congruence).
    apply List.Forall_forall. intros z Hz.
    apply (Permutation_in _ (insert_by_perm x l)) in Hz.
    destruct Hz as [<-|Hz]; [done|]. rewrite List.Forall_forall in Hy. auto.
Qed.

Lemma sort_by_sorted l :
  le_total -> le_trans -> StronglySorted (fun a b => le a b = true) (sort_by l).
Proof.
  intros Htot Htr. induction l; simpl; [constructor|]. by apply insert_by_sorted.
Qed.

(** A sorted list is a fixed point: sorting is idempotent. *)
Lemma sort_by_id l : StronglySorted (fun a b => le a b = true) l -> sort_by l = l.
Proof.
  induction 1 as [|x l Hl IH Hx]; simpl; [done|]. rewrite IH.
  destruct l as [|y l]; simpl; [done|].
  inversion Hx as [|? ? Hxy]; subst. by rewrite Hxy.
Qed.

(** With an antisymmetric order the result depends on the multiset only. *)
Lemma sorted_perm_unique l1 l2 :
  (forall x y, In x l1 -> In y l1 -> le x y = true -> le y x = true -> x = y) ->
  StronglySorted (fun a b => le a b = true) l1 ->
  StronglySorted (fun a b => le a b = true) l2 ->
  Permutation l1 l2 -> l1 = l2.
Proof.
  intros Hanti Hl1. revert l2. induction Hl1 as [|x l1 Hl1 IH Hx]; intros l2 Hl2 Hp.
  { by apply Permutation_nil_l in Hp. }
  destruct Hl2 as [|y l2 Hl2 Hy].
  { apply Permutation_nil_r in Hp. done. }
  assert (x = y) as ->.
  { rewrite List.Forall_forall in Hx, Hy.
    assert (Hin : In y (x :: l1)) by (eapply Permutation_in; [by symmetry|by left]).
    assert (Hin' : In x (y :: l2)) by (eapply Permutation_in; [done|by left]).
    destruct Hin as [?|Hin]; [done|]. destruct Hin' as [?|Hin']; [done|].
    apply Hanti; [by left|by right|by apply Hx|by apply Hy]. }
  f_equal. apply IH; [|done|by eapply Permutation_cons_inv].
  intros a b Ha Hb. apply Hanti; by right.
Qed.
End sorting.

(** ** Lists *)

(** [Vec::truncate], [iter().take(n)]. *)
Definition truncate {A} (n : nat) (l : list A) : list A := take n l.

(** [iter().enumerate()]. *)
Definition enumerate {A} (l : list A) : list (nat * A) := zip (seq 0 (length l)) l.

(** [slice::windows(n)]: all contiguous runs of length [n], for [n > 0]. *)
Fixpoint windows {A} (n : nat) (l : list A) : list (list A) :=
  match l with
  | [] => []
  | _ :: l' => if decide (n <= length l)%nat then take n l :: windows n l' else []
  end.

(** [Vec::dedup]: drop consecutive repetitions. *)
Fixpoint dedup {A} `{EqDecision A} (l : list A) : list A :=
  match l with
  | [] => []
  | x :: l' =>
      match dedup l' with
      | y :: r => if decide (x = y) then y :: r else x :: y :: r
      | [] => [x]
      end
  end.

(** ** Lemmas *)

Lemma keeps_mret {S A} (I : S -> Prop) (a : A) : keeps I (mret a : Op S A).
Proof. by intros s Hs. Qed.

Lemma keeps_throw {S A} (I : S -> Prop) e : keeps I (throw e : Op S A).
Proof. by intros s Hs. Qed.

Lemma keeps_panic {S A} (I : S -> Prop) : keeps I (panic : Op S A).
Proof. by intros s Hs. Qed.

Lemma keeps_gets {S A} (I : S -> Prop) (f : S -> A) : keeps I (gets f).
Proof. by intros s Hs. Qed.

Lemma keeps_lift {S A} (I : S -> Prop) (o : outcome A) : keeps I (lift_outcome o : Op S A).
Proof. by intros s Hs. Qed.

Lemma keeps_or_throw {S A} (I : S -> Prop) e (o : option A) : keeps I (or_throw e o : Op S A).
Proof. destruct o; [apply keeps_mret|apply keeps_throw]. Qed.

Lemma keeps_modify {S} (I : S -> Prop) (f : S -> S) :
  (forall s, I s -> I (f s)) -> keeps I (modify f).
Proof. intros H s Hs. by apply H. Qed.

Lemma keeps_bind {S A B} (I : S -> Prop) (m : Op S A) (f : A -> Op S B) :
  keeps I m -> (forall a, keeps I (f a)) -> keeps I (m ≫= f).
Proof.
  intros Hm Hf s Hs. unfold mbind, op_mbind. specialize (Hm s Hs).
  destruct (m s) as [[a|e|] s']; simpl in *; [by apply Hf|done|done].
Qed.

Lemma keeps_attempt {S A} (I : S -> Prop) (m : Op S A) : keeps I m -> keeps I (attempt m).
Proof.
  intros Hm s Hs. unfold attempt. specialize (Hm s Hs). by destruct (m s) as [[a|e|] s'].
Qed.

Lemma keeps_transaction {S A} (I : S -> Prop) undo (m : Op S A) :
  (forall old new, I old -> I new -> I (undo old new)) ->
  keeps I m -> keeps I (transaction undo m).
Proof.
  intros Hu Hm s Hs. unfold transaction. specialize (Hm s Hs).
  destruct (m s) as [[a|e|] s']; simpl in *; auto.
Qed.

Lemma keeps_for {S A} (I : S -> Prop) (l : list A) (f : A -> Op S unit) :
  (forall x, In x l -> keeps I (f x)) -> keeps I (op_for l f).
Proof.
  induction l as [|x l IH]; intros Hf; simpl; [apply keeps_mret|].
  apply keeps_bind; [apply Hf; by left|]. intros _. apply IH. intros y Hy. apply Hf. by right.
Qed.

Lemma keeps_fold {S A B} (I : S -> Prop) (l : list A) (f : B -> A -> Op S B) acc :
  (forall b x, In x l -> keeps I (f b x)) -> keeps I (op_fold l acc f).
Proof.
  revert acc. induction l as [|x l IH]; intros acc Hf; simpl; [apply keeps_mret|].
  apply keeps_bind; [apply Hf; by left|]. intros b. apply IH. intros c y Hy. apply Hf. by right.
Qed.

Lemma keeps_and {S A} (I J : S -> Prop) (m : Op S A) :
  keeps I m -> keeps J m -> keeps (fun s => I s /\ J s) m.
Proof. intros HI HJ s [Hi Hj]. split; auto. Qed.

Lemma frames_keeps {S A B} (v : S -> B) (m : Op S A) :
  frames v m <-> forall b, keeps (fun s => v s = b) m.
Proof.
  split; [intros H b s <-; apply H|]. intros H s. by apply (H (v s) s).
Qed.

(** A framed view carries every predicate of that view. *)
Lemma frames_keeps_view {S A B} (v : S -> B) (P : B -> Prop) (m : Op S A) :
  frames v m -> keeps (fun s => P (v s)) m.
Proof. intros H s Hs. by rewrite H. Qed.

Lemma frames_bind {S A B C} (v : S -> C) (m : Op S A) (f : A -> Op S B) :
  frames v m -> (forall a, frames v (f a)) -> frames v (m ≫= f).
Proof.
  intros Hm Hf. apply frames_keeps. intros b. apply keeps_bind.
  - by apply frames_keeps.
  - intros a. by apply frames_keeps.
Qed.

Lemma frames_attempt {S A C} (v : S -> C) (m : Op S A) : frames v m -> frames v (attempt m).
Proof. intros Hm s. unfold attempt. specialize (Hm s). by destruct (m s) as [[a|e|] s']. Qed.

Lemma frames_for {S A C} (v : S -> C) (l : list A) (f : A -> Op S unit) :
  (forall x, frames v (f x)) -> frames v (op_for l f).
Proof.
  intros Hf. induction l; simpl; [done|]. apply frames_bind; [done|]. by intros [].
Qed.

Lemma frames_fold {S A B C} (v : S -> C) (l : list A) (f : B -> A -> Op S B) acc :
  (forall b x, frames v (f b x)) -> frames v (op_fold l acc f).
Proof.
  intros Hf. revert acc. induction l; intros acc; simpl; [done|]. by apply frames_bind.
Qed.

Lemma frames_or_throw {S A C} (v : S -> C) e (o : option A) : frames v (or_throw e o : Op S A).
Proof. by destruct o. Qed.

Lemma frames_pure {S A C} (v : S -> C) (m : Op S A) : (forall s, snd (m s) = s) -> frames v m.
Proof. intros H s. by rewrite H. Qed.

(** Bind inversion: a run of [m ≫= f] that returns went through both. *)
Lemma bind_ret {S A B} (m : Op S A) (f : A -> Op S B) s b s' :
  (m ≫= f) s = (Ret b, s') <-> exists a s1, m s = (Ret a, s1) /\ f a s1 = (Ret b, s').
Proof.
  unfold mbind, op_mbind. split.
  - destruct (m s) as [[a|e|] s1]; [|done|done]. eauto.
  - by intros (a & s1 & -> & ->).
Qed.

Lemma thread_run_bind {S A B} (p : Thread S A) (f : A -> Thread S B) s :
  thread_run (p ≫= f) s = (x ← thread_run p; thread_run (f x)) s.
Proof.
  revert s. induction p as [a|X op k IH]; intros s; [done|].
  change (thread_run (Step op k ≫= f)) with (x ← op; thread_run (k x ≫= f)). cbn [thread_run]. unfold mbind at 1 2 3, op_mbind.
  destruct (op s) as [[x|e|] s1] eqn:E; unfold mbind, op_mbind; rewrite E; [|done|done]. apply IH.
Qed.

Lemma thread_run_ret {S A B} (p : Thread S A) (f : A -> Thread S B) s a s1 :
  thread_run p s = (Ret a, s1) -> thread_run (p ≫= f) s = thread_run (f a) s1.
Proof. intros E. rewrite thread_run_bind. unfold mbind, op_mbind. by rewrite E. Qed.

(** Runs an operation symbolically, one primitive at a time. *)
Ltac op_unfold :=
  cbv beta iota delta [mbind op_mbind mret op_mret outcome_mbind outcome_mret throw panic gets
    modify lift_outcome or_throw attempt or_panic or_fail fst snd].

Create HintDb corpus.
#[export] Hint Resolve keeps_mret keeps_throw keeps_panic keeps_gets keeps_lift
  keeps_or_throw keeps_attempt : corpus.

(** One structural step of a [keeps] goal. *)
Ltac keeps_step :=
  match goal with
  | |- keeps _ (mbind _ _) => apply keeps_bind; [|intros ?]
  | |- keeps _ (attempt _) => apply keeps_attempt
  | |- keeps _ (op_for _ _) => apply keeps_for; intros ? ?
  | |- keeps _ (op_fold _ _ _) => apply keeps_fold; intros ? ? ?
  | |- keeps _ (match ?x with _ => _ end) => destruct x eqn:?
  | |- keeps _ (if ?x then _ else _) => destruct x eqn:?
  | |- keeps _ (let _ := _ in _) => cbv zeta
  end.

Ltac keeps_tac := repeat first [ solve [ eauto 3 with corpus ] | keeps_step ].

Lemma windows_length {A} n (l : list A) w : In w (windows n l) -> length w = n.
Proof.
  induction l as [|x l IH]; simpl; [done|]. case_decide; [|done].
  intros [<-|Hin]; [|auto]. rewrite length_take. simpl. lia.
Qed.

(** A window is a contiguous infix. *)
Lemma windows_infix {A} n (l : list A) w :
  (0 < n)%nat ->
  In w (windows n l) <-> length w = n /\ exists l1 l2, l = l1 ++ w ++ l2.
Proof.
  intros Hn. split.
  - intros Hin. split; [by eapply windows_length|].
    induction l as [|x l IH]; simpl in Hin; [done|].
    case_decide; [|done]. destruct Hin as [<-|Hin].
    + exists [], (drop n (x :: l)). by rewrite app_nil_l, take_drop.
    + destruct (IH Hin) as (l1 & l2 & ->). by exists (x :: l1), l2.
  - intros (Hw & l1 & l2 & ->). induction l1 as [|x l1 IH]; simpl.
    + destruct w as [|y w]; simpl in *; [lia|].
      rewrite decide_True by (rewrite length_app; lia). left.
      destruct n as [|n]; simpl; [lia|]. f_equal. apply take_app_length'. lia.
    + rewrite decide_True by (rewrite !length_app; lia). by right.
Qed.

Lemma enumerate_lookup {A} (l : list A) i x :
  In (i, x) (enumerate l) <-> l !! i = Some x.
Proof.
  unfold enumerate. rewrite <- list_elem_of_In, list_elem_of_lookup. split.
  - intros (k & Hk). apply lookup_zip_Some in Hk as [Hk1 Hk2].
    apply lookup_seq in Hk1 as [-> _]. by simplify_eq/=.
  - intros Hx. exists i. apply lookup_zip_Some. split; [|done].
    apply lookup_seq. split; [done|]. by eapply lookup_lt_Some.
Qed.

Lemma dedup_in {A} `{EqDecision A} (l : list A) x : In x (dedup l) <-> In x l.
Proof.
  induction l as [|y l IH]; simpl; [done|].
  destruct (dedup l) as [|z r] eqn:E; simpl in *; [naive_solver|].
  case_decide; subst; simpl; naive_solver.
Qed.

Lemma dedup_sorted_nodup {A} `{EqDecision A} (lt : A -> A -> Prop) (l : list A) :
  (forall x, ~ lt x x) -> (forall x y z, lt x y -> lt y z -> lt x z) ->
  StronglySorted (fun a b => lt a b \/ a = b) l -> StronglySorted lt (dedup l).
Proof.
  intros Hirr Htr. induction 1 as [|x l Hl IH Hx]; simpl; [constructor|].
  assert (Hall : Forall (fun b => lt x b \/ x = b) (dedup l)).
  { rewrite List.Forall_forall in *. intros b Hb. apply Hx. by apply dedup_in. }
  destruct (dedup l) as [|z r] eqn:E; [repeat constructor|].
  case_decide; [done|].
  inversion Hall as [|? ? Hz Hr]; subst. destruct Hz as [Hz|]; [|done].
  constructor; [done|]. constructor; [done|].
  inversion IH as [|? ? _ Hzr]; subst. eapply Forall_impl; [exact Hzr|]. simpl. eauto.
Qed.

Lemma existsb_false_forall {A} (p : A -> bool) l :
  existsb p l = false <-> forall x, In x l -> p x = false.
Proof.
  induction l as [|y l IH]; simpl; [naive_solver|].
  rewrite orb_false_iff, IH. naive_solver.
Qed.

Lemma head_filter_in {A} (p : A -> bool) l r : head (List.filter p l) = Some r -> In r l /\ p r = true.
Proof.
  intros Hh. assert (Hin : In r (List.filter p l)) by (destruct (List.filter p l); simplify_eq/=; by left).
  by apply filter_In in Hin.
Qed.

Lemma head_filter_none {A} (p : A -> bool) l : head (List.filter p l) = None -> forall x, In x l -> p x = false.
Proof.
  intros Hh x Hx. destruct (p x) eqn:E; [|done].
  assert (Hin : In x (List.filter p l)) by by apply filter_In.
  by destruct (List.filter p l).
Qed.

Lemma filter_filter_negb {A} (p : A -> bool) (l : list A) : List.filter p (List.filter (fun x => negb (p x)) l) = [].
Proof. induction l as [|x l IH]; [done|]. simpl. destruct (p x) eqn:E; simpl; [done|]. by rewrite E. Qed.

Lemma nodup_map_filter {A K} (f : A -> K) p (l : list A) : NoDup (map f l) -> NoDup (map f (List.filter p l)).
Proof.
  induction l as [|x l IH]; simpl; [done|]. intros [Hx Hl]%NoDup_cons. destruct (p x); [|auto].
  simpl. apply NoDup_cons. split; [|auto]. rewrite list_elem_of_In, in_map_iff in *.
  intros (y & Hy & Hin). apply Hx. apply filter_In in Hin as [? _]. eauto.
Qed.

Lemma filter_nil_forall {A} (p : A -> bool) (l : list A) : (forall x, In x l -> p x = false) -> List.filter p l = [].
Proof.
  induction l as [|x l IH]; intros Hp; [done|]. simpl. rewrite Hp by by left. apply IH. intros y Hy. apply Hp. by right.
Qed.

Lemma dedup_length {A} `{EqDecision A} (l : list A) : (length (dedup l) <= length l)%nat.
Proof.
  induction l as [|x l IH]; simpl; [lia|]. destruct (dedup l) as [|y r]; simpl in *; [lia|]. case_decide; simpl; lia.
Qed.

Lemma nodup_list_filter {A} p (l : list A) : NoDup l -> NoDup (List.filter p l).
Proof. intros Hl. pose proof (nodup_map_filter (fun x => x) p l) as H. rewrite !map_id in H. auto. Qed.

Lemma sorted_lt_nodup (l : list Z) : StronglySorted Z.lt l -> NoDup l.
Proof.
  induction 1 as [|x l Hl IH Hx]; [by apply NoDup_nil_2|]. apply NoDup_cons. split; [|done].
  intros Hin. apply list_elem_of_In in Hin. rewrite List.Forall_forall in Hx. specialize (Hx x Hin). lia.
Qed.

(** A bind whose first part is known to return. *)
Lemma bind_run {S A B} (m : Op S A) (f : A -> Op S B) s a s' : m s = (Ret a, s') -> (m ≫= f) s = f a s'.
Proof. intros H. unfold mbind, op_mbind. by rewrite H. Qed.

Lemma bind_fail {S A B} (m : Op S A) (f : A -> Op S B) s e s' : m s = (Fail e, s') -> (m ≫= f) s = (Fail e, s').
Proof. intros H. unfold mbind, op_mbind. by rewrite H. Qed.

Lemma bind_assoc_run {S A B C} (m : Op S A) (f : A -> Op S B) (g : B -> Op S C) s :
  ((m ≫= f) ≫= g) s = (m ≫= fun x => f x ≫= g) s.
Proof. unfold mbind, op_mbind. by destruct (m s) as [[a|e|] s']. Qed.

(** ** Operations that do not panic *)

Definition never_panics {S A} (m : Op S A) : Prop := forall s, fst (m s) <> Panic.

Lemma never_panics_bind {S A B} (m : Op S A) (f : A -> Op S B) : never_panics m -> (forall a, never_panics (f a)) -> never_panics (m ≫= f).
Proof.
  intros Hm Hf s. unfold mbind, op_mbind. specialize (Hm s). destruct (m s) as [[a|e|] s1]; [apply Hf|done|by destruct Hm].
Qed.

Lemma never_panics_fold {S A B} (l : list A) (acc : B) (f : B -> A -> Op S B) :
  (forall b x, never_panics (f b x)) -> never_panics (op_fold l acc f).
Proof. intros Hf. revert acc. induction l as [|x l IH]; intros acc; [by intros s|]. by apply never_panics_bind. Qed.

Lemma never_panics_for {S A} (l : list A) (f : A -> Op S unit) : (forall x, never_panics (f x)) -> never_panics (op_for l f).
Proof. intros Hf. induction l as [|x l IH]; [by intros s|]. by apply never_panics_bind. Qed.

Lemma never_panics_attempt {S A} (m : Op S A) : never_panics m -> never_panics (attempt m).
Proof. intros Hm s. specialize (Hm s). unfold attempt. by destruct (m s) as [[a|e|] s1]. Qed.

Lemma perm_list_filter {A} p (l k : list A) : Permutation l k -> Permutation (List.filter p l) (List.filter p k).
Proof.
  induction 1 as [|x l k _ IH|x y l|l k m _ IH1 _ IH2]; cbn [List.filter]; [done| | |by etransitivity].
  - destruct (p x); [by constructor|done].
  - destruct (p x), (p y); try done. apply perm_swap.
Qed.

Lemma list_filter_all {A} p (l : list A) : (forall x, In x l -> p x = true) -> List.filter p l = l.
Proof.
  induction l as [|x l IH]; intros H; [done|]. cbn [List.filter]. rewrite H by (by left). f_equal. apply IH. intros y Hy. apply H. by right.
Qed.

(** A key determines its row. *)
Lemma nodup_map_inj {A K} (f : A -> K) l x y : NoDup (map f l) -> In x l -> In y l -> f x = f y -> x = y.
Proof.
  induction l as [|z l IH]; [done|]. cbn [map]. intros [Hz Hn]%NoDup_cons Hx Hy E.
  assert (Hout : forall w, In w l -> f w <> f z).
  { intros w Hw Ew. apply Hz. rewrite <- Ew. apply list_elem_of_In, in_map_iff. by exists w. }
  destruct Hx as [->|Hx], Hy as [->|Hy]; [done|by destruct (Hout y Hy)|by destruct (Hout x Hx)|by apply IH].
Qed.
