(* ===== verification/Machine.v ===== *)
(** * Machine integers, byte strings and binary64

    Rust's [u8] is [Byte.byte]; a wider unsigned integer is a [Z] in its range,
    with the wrap-around of an operation written out where it can happen;
    [usize] is 64 bits wide.  A byte slice is a [list byte], indexed by [Z]:
    [slice] fails exactly where Rust's [&l[i..j]] panics.  [f64] is IEEE
    binary64, computed by the Standard Library's [SpecFloat]. *)

From S2P Require Import Prelude.
From Stdlib Require Import Strings.Byte SpecFloat.

Open Scope Z_scope.

Abbreviation byte := Byte.byte.
Abbreviation bytes := (list Byte.byte).

Global Instance byte_eq_dec : EqDecision byte := Byte.byte_eq_dec.

(** ** Bytes *)

Definition u8 (b : byte) : Z := Z.of_N (Byte.to_N b).
Definition byte_of_Z (z : Z) : byte := default x00 (Byte.of_N (Z.to_N (z mod 256))).

Definition len {A} (l : list A) : Z := Z.of_nat (length l).

(** [&l[i..j]]: [None] is the panic of an out-of-range slice. *)
Definition slice {A} (l : list A) (i j : Z) : option (list A) :=
  if (0 <=? i) && (i <=? j) && (j <=? len l)
  then Some (take (Z.to_nat (j - i)) (drop (Z.to_nat i) l))
  else None.

(** [l[i]]: [None] is the panic of an out-of-range index. *)
Definition index {A} (l : list A) (i : Z) : option A :=
  if 0 <=? i then l !! Z.to_nat i else None.

(** [l.starts_with(p)] *)
Definition starts_with (p l : bytes) : bool := bool_decide (take (length p) l = p).

(** ** Little-endian integers *)

(** [uN::from_le_bytes] *)
Fixpoint from_le (l : bytes) : Z :=
  match l with
  | [] => 0
  | b :: l' => u8 b + 256 * from_le l'
  end.

(** [x.to_le_bytes()] for an [n]-byte integer. *)
Fixpoint to_le (n : nat) (z : Z) : bytes :=
  match n with
  | O => []
  | S n' => byte_of_Z z :: to_le n' (z / 256)
  end.

(** [as iN]: the two's complement reading of an [n]-bit word. *)
Definition signed (n : Z) (z : Z) : Z := if z <? 2 ^ (n - 1) then z else z - 2 ^ n.

Definition wrap (n : Z) (z : Z) : Z := z mod 2 ^ n.
Definition u32_wrap : Z -> Z := wrap 32.
Definition u64_wrap : Z -> Z := wrap 64.

(** ** binary64 *)

Abbreviation f64 := spec_float.

(** [z as f64]: correctly rounded. *)
Definition f64_of_Z (z : Z) : f64 := binary_normalize 53 1024 z 0 false.
Definition f64_add : f64 -> f64 -> f64 := SFadd 53 1024.
Definition f64_sub : f64 -> f64 -> f64 := SFsub 53 1024.
Definition f64_mul : f64 -> f64 -> f64 := SFmul 53 1024.
Definition f64_div : f64 -> f64 -> f64 := SFdiv 53 1024.

(** [partial_cmp]; [None] when an operand is a NaN. *)
Definition f64_cmp : f64 -> f64 -> option comparison := SFcompare.
Definition f64_lt (x y : f64) : bool := match f64_cmp x y with Some Lt => true | _ => false end.
Definition f64_le (x y : f64) : bool :=
  match f64_cmp x y with Some Lt | Some Eq => true | _ => false end.
Definition f64_gt (x y : f64) : bool := f64_lt y x.
Definition f64_ge (x y : f64) : bool := f64_le y x.

(** The literal [n/d] (such as 0.35 = 35/100), correctly rounded. *)
Definition f64_lit (n d : Z) : f64 := f64_div (f64_of_Z n) (f64_of_Z d).

(** [x.abs()], [-x], [x.max(y)] (a NaN operand is ignored) *)
Definition f64_abs : f64 -> f64 := SFabs.
Definition f64_neg : f64 -> f64 := SFopp.
Definition f64_max (x y : f64) : f64 :=
  match f64_cmp x y with
  | Some Lt => y
  | Some _ => x
  | None => match x with S754_nan => y | _ => x end
  end.

(** The binary64 nearest to [n / d], for [d > 0]: [n * 2^1200 / d] with a sticky
    bit keeps what rounding needs. *)
Definition f64_ratio (n d : Z) : f64 :=
  let q := n * 2 ^ 1200 / d in
  let r := n * 2 ^ 1200 mod d in
  binary_normalize 53 1024 (2 * q + (if r =? 0 then 0 else 1)) (-1201) false.

(** A finite magnitude [m * 2^e] as a ratio. *)
Definition f64_magnitude (m : positive) (e : Z) : Z * Z :=
  if 0 <=? e then (Zpos m * 2 ^ e, 1) else (Zpos m, 2 ^ (- e)).

(** [n / d] to the nearest integer, ties to even. *)
Definition div_half_even (n d : Z) : Z :=
  let q := n / d in
  let r := n mod d in
  if 2 * r <? d then q else if d <? 2 * r then q + 1 else if Z.even q then q else q + 1.

(** ** Lemmas *)

Lemma u8_range b : 0 <= u8 b < 256.
Proof.
  unfold u8. pose proof (Byte.to_N_bounded b). lia.
Qed.

Lemma byte_of_Z_u8 b : byte_of_Z (u8 b) = b.
Proof. by destruct b. Qed.

Lemma u8_byte_of_Z z : u8 (byte_of_Z z) = z mod 256.
Proof.
  pose proof (Z.mod_pos_bound z 256 eq_refl) as Hz.
  unfold byte_of_Z. destruct (Byte.of_N (Z.to_N (z mod 256))) as [b|] eqn:E; simpl.
  - apply Byte.to_of_N in E. unfold u8. rewrite E. lia.
  - apply Byte.of_N_None_iff in E. lia.
Qed.

Lemma u8_inj a b : u8 a = u8 b -> a = b.
Proof. intros H. by rewrite <- (byte_of_Z_u8 a), H, byte_of_Z_u8. Qed.

Lemma len_nonneg {A} (l : list A) : 0 <= len l.
Proof. unfold len. lia. Qed.

Lemma len_app {A} (l k : list A) : len (l ++ k) = len l + len k.
Proof. unfold len. rewrite length_app. lia. Qed.

Lemma slice_some {A} (l : list A) i j :
  0 <= i <= j -> j <= len l ->
  slice l i j = Some (take (Z.to_nat (j - i)) (drop (Z.to_nat i) l)).
Proof.
  intros ? ?. unfold slice. by rewrite !(proj2 (Z.leb_le _ _)) by lia.
Qed.

Lemma slice_is_some {A} (l : list A) i j :
  0 <= i <= j -> j <= len l -> exists k, slice l i j = Some k /\ len k = j - i.
Proof.
  intros Hi Hj. eexists. split; [by apply slice_some|].
  unfold len in *. rewrite length_take, length_drop. lia.
Qed.

Lemma slice_length {A} (l k : list A) i j : slice l i j = Some k -> len k = j - i.
Proof.
  unfold slice. destruct (_ && _) eqn:E; [|done]. intros [= <-].
  rewrite !andb_true_iff, !Z.leb_le in E.
  unfold len in *. rewrite length_take, length_drop. lia.
Qed.

Lemma slice_none {A} (l : list A) i j :
  slice l i j = None <-> ~ (0 <= i /\ i <= j /\ j <= len l).
Proof.
  unfold slice. destruct (_ && _) eqn:E.
  - rewrite !andb_true_iff, !Z.leb_le in E. split; [done|lia].
  - rewrite !andb_false_iff, !Z.leb_gt in E. split; [lia|done].
Qed.

(** A slice inside the first part of an appended buffer ignores the rest. *)
Lemma slice_app_l {A} (l k : list A) i j :
  j <= len l -> slice (l ++ k) i j = slice l i j.
Proof.
  intros Hj. unfold slice. rewrite len_app. pose proof (len_nonneg k).
  destruct (0 <=? i) eqn:Ei; [|done]. destruct (i <=? j) eqn:Eij; [|done]. simpl.
  rewrite !(proj2 (Z.leb_le _ _)) by lia. f_equal.
  apply Z.leb_le in Ei, Eij. unfold len in *.
  rewrite drop_app_le by lia. rewrite take_app_le; [done|]. rewrite length_drop. lia.
Qed.

Lemma slice_take {A} (l : list A) n i j :
  j <= Z.of_nat n -> j <= len l -> slice (take n l) i j = slice l i j.
Proof.
  intros Hn Hj. rewrite <- (take_drop n l) at 2. symmetry. apply slice_app_l.
  unfold len in *. rewrite length_take. lia.
Qed.

Lemma starts_with_spec p l : starts_with p l = true <-> exists k, l = p ++ k.
Proof.
  unfold starts_with. rewrite bool_decide_eq_true. split.
  - intros H. exists (drop (length p) l). by rewrite <- H at 1; rewrite take_drop.
  - intros (k & ->). by rewrite take_app_length.
Qed.

Lemma from_le_range l : 0 <= from_le l < 256 ^ len l.
Proof.
  induction l as [|b l IH]; [by vm_compute|].
  change (from_le (b :: l)) with (u8 b + 256 * from_le l).
  replace (len (b :: l)) with (1 + len l) by (unfold len; simpl; lia).
  rewrite Z.pow_add_r by (unfold len; lia). pose proof (u8_range b). lia.
Qed.

Lemma to_le_length n z : length (to_le n z) = n.
Proof. revert z. induction n; intros; simpl; auto. Qed.

Lemma from_to_le n z : from_le (to_le n z) = z mod 256 ^ Z.of_nat n.
Proof.
  revert z. induction n as [|n IH]; intros z; [by rewrite Z.mod_1_r|].
  cbn [to_le from_le]. rewrite u8_byte_of_Z, IH.
  rewrite Nat2Z.inj_succ, <- Z.add_1_l, Z.pow_add_r by lia. change (256 ^ 1) with 256.
  rewrite Z.rem_mul_r by lia. done.
Qed.

Lemma to_from_le l : to_le (length l) (from_le l) = l.
Proof.
  induction l as [|b l IH]; [done|]. cbn [length to_le from_le].
  pose proof (u8_range b). f_equal.
  - apply u8_inj. rewrite u8_byte_of_Z, Z.mul_comm, Z_mod_plus_full. apply Z.mod_small. lia.
  - rewrite Z.mul_comm, Z.div_add by lia. rewrite Z.div_small by lia. by rewrite Z.add_0_l.
Qed.

Lemma to_le_inj n x y :
  0 <= x < 256 ^ Z.of_nat n -> 0 <= y < 256 ^ Z.of_nat n -> to_le n x = to_le n y -> x = y.
Proof.
  intros Hx Hy H. apply (f_equal from_le) in H. rewrite !from_to_le in H.
  by rewrite !Z.mod_small in H.
Qed.

Lemma len_to_le n z : len (to_le n z) = Z.of_nat n.
Proof. unfold len. by rewrite to_le_length. Qed.

(** *** Fields of packed records *)

Lemma slice_skip {A} (a l : list A) i j : len a <= i -> slice (a ++ l) i j = slice l (i - len a) (j - len a).
Proof.
  intros Hi. unfold slice. rewrite len_app. pose proof (len_nonneg a).
  destruct (Z.leb_spec 0 i); [|lia]. rewrite (proj2 (Z.leb_le 0 (i - len a))) by lia. cbn [andb].
  destruct (Z.leb_spec i j) as [Hij|Hij].
  2: { by rewrite (proj2 (Z.leb_gt (i - len a) (j - len a))) by lia. }
  rewrite (proj2 (Z.leb_le (i - len a) (j - len a))) by lia. cbn [andb].
  destruct (Z.leb_spec j (len a + len l)) as [Hj|Hj].
  2: { by rewrite (proj2 (Z.leb_gt (j - len a) (len l))) by lia. }
  rewrite (proj2 (Z.leb_le (j - len a) (len l))) by lia. f_equal. replace (j - len a - (i - len a)) with (j - i) by lia. f_equal.
  rewrite drop_app_ge by (unfold len in *; lia). f_equal. unfold len in *. lia.
Qed.

Lemma slice_here {A} (f l : list A) j : j = len f -> slice (f ++ l) 0 j = Some f.
Proof.
  intros ->. rewrite slice_some by (rewrite ?len_app; pose proof (len_nonneg f); pose proof (len_nonneg l); lia).
  change (Z.to_nat 0) with 0%nat. rewrite drop_0. unfold len. by rewrite Z.sub_0_r, Nat2Z.id, take_app_length.
Qed.

(** [slice (f1 ++ f2 ++ ...) i j], skipping to the field at [i]. *)
Ltac slice_field :=
  repeat (rewrite slice_skip by (rewrite ?len_to_le; lia));
  rewrite ?len_to_le, ?Z.sub_diag, ?Z.sub_0_r;
  lazymatch goal with |- context [slice (?f ++ _) ?i ?j] => replace i with 0 by lia; rewrite (slice_here f) by (rewrite ?len_to_le; lia) end.

Lemma wrap_range n z : 0 <= n -> 0 <= wrap n z < 2 ^ n.
Proof. intros ?. apply Z.mod_pos_bound. lia. Qed.

Lemma f64_cmp_refl_finite s m e : f64_cmp (S754_finite s m e) (S754_finite s m e) = Some Eq.
Proof.
  unfold f64_cmp, SFcompare. destruct s; rewrite Z.compare_refl, Pos.compare_cont_refl; done.
Qed.

Create Rewrite HintDb corpus.
#[export] Hint Rewrite @len_app @to_le_length from_to_le : corpus.
#[export] Hint Resolve len_nonneg u8_range : corpus.

(** ** Collecting distinct values up to a cap

    [if seen.insert(id) { out.push(id) }; if out.len() >= cap { return Ok(out) }]
    over the answers of several queries, each with [LIMIT cap]. *)
Section collecting.
  Context {A : Type} `{EqDecision A} (cap : Z).

(** One answer; [inr] is the early return. *)
Fixpoint collect (ids : list A) (out : list A) : list A + list A :=
  match ids with
  | [] => inl out
  | id :: ids' =>
      let out := if bool_decide (id ∈ out) then out else out ++ [id] in
      if cap <=? len out then inr out else collect ids' out
  end.

Fixpoint collect_all (answers : list (list A)) (out : list A) : list A :=
  match answers with
  | [] => out
  | ids :: answers' =>
      match collect (take (Z.to_nat cap) ids) out with
      | inr out => out
      | inl out => collect_all answers' out
      end
  end.

(** One answer: what was collected stays, the result has no repetition, and
    short of the cap every identifier is in it. *)
Lemma collect_spec ids out :
  NoDup out -> len out < cap ->
  match collect ids out with
  | inr out' => NoDup out' /\ len out' = cap /\ (forall x, In x out' -> In x out \/ In x ids)
  | inl out' => NoDup out' /\ len out' < cap /\ (forall x, In x out' <-> In x out \/ In x ids)
  end.
Proof.
  revert out. induction ids as [|id ids IH]; intros out Hnd Hlen; cbn [collect].
  { split; [done|]. split; [done|]. intros x. cbn. tauto. }
  set (out1 := if bool_decide (id ∈ out) then out else out ++ [id]).
  assert (H1 : NoDup out1 /\ len out1 <= len out + 1 /\ (forall x, In x out1 <-> In x out \/ id = x)).
  { unfold out1. case_bool_decide as Hin.
    - split; [done|]. split; [lia|]. intros x. apply list_elem_of_In in Hin. split; [tauto|]. by intros [?|<-].
    - split; [|split].
      + apply NoDup_app. split; [done|]. split; [|apply NoDup_singleton]. intros x Hx Hx1.
        apply list_elem_of_singleton in Hx1 as ->. done.
      + rewrite len_app. change (len [id]) with 1. lia.
      + intros x. rewrite in_app_iff. cbn. tauto. }
  destruct H1 as (N1 & L1 & M1). cbv zeta.
  destruct (Z.leb_spec cap (len out1)) as [Hc|Hc].
  - split; [done|]. split; [lia|]. intros x Hx. apply M1 in Hx as [?|<-]; cbn; tauto.
  - specialize (IH out1 N1 Hc). destruct (collect ids out1) as [o|o]; destruct IH as (B1 & B2 & B3); split; try done; split; try done;
      intros x; specialize (B3 x); specialize (M1 x); cbn; tauto.
Qed.

(** All answers, none with repetitions: no repetition, at most the cap, only
    answered identifiers, and all of those when the cap was not reached. *)
Lemma collect_all_spec answers out :
  Forall NoDup answers -> NoDup out -> len out < cap ->
  let out' := collect_all answers out in
  NoDup out' /\ len out' <= cap /\ (forall x, In x out' -> In x out \/ exists l, In l answers /\ In x l) /\
  (len out' < cap -> forall x, In x out \/ (exists l, In l answers /\ In x l) -> In x out').
Proof.
  intros Hall. revert out. induction Hall as [|l answers Hl Hall IH]; intros out Hnd Hlen; cbn zeta; cbn [collect_all].
  { split; [done|]. split; [lia|]. split; [tauto|]. intros _ x [?|(l & [] & _)]. done. }
  pose proof (collect_spec (take (Z.to_nat cap) l) out Hnd Hlen) as Hc.
  assert (Hcut : forall x, In x (take (Z.to_nat cap) l) -> In x l).
  { intros x Hx. rewrite <- (take_drop (Z.to_nat cap) l). apply in_or_app. by left. }
  destruct (collect _ out) as [o|o]; destruct Hc as (N & L & M).
  - destruct (IH o N L) as (B1 & B2 & B3 & B4). split; [done|]. split; [done|]. split.
    + intros x Hx. apply B3 in Hx as [Hx|(k & ? & ?)]; [|right; exists k; cbn; auto].
      apply M in Hx as [?|Hx]; [by left|]. right. exists l. cbn. auto.
    + intros Hsmall x Hx. apply B4; [done|]. destruct Hx as [Hx|(k & [<-|Hk] & Hx)]; [| |right; eauto].
      * left. apply M. by left.
      * left. apply M. right. rewrite take_ge; [done|].
        (* were the answer cut, [cap] distinct identifiers would have been collected *)
        destruct (decide (length l <= Z.to_nat cap)%nat) as [|Hbig]; [done|]. exfalso.
        assert (Hsub : incl (take (Z.to_nat cap) l) o) by (intros y Hy; apply M; by right).
        apply NoDup_incl_length in Hsub.
        -- rewrite length_take in Hsub. unfold len in *. lia.
        -- apply NoDup_ListNoDup. eapply sublist_NoDup; [exact Hl|]. apply sublist_take.
  - split; [done|]. split; [lia|]. split; [|lia]. intros x Hx. apply M in Hx as [?|Hx]; [by left|].
    right. exists l. cbn. auto.
Qed.
End collecting.
