(* ===== verification/Text.v ===== *)
(** * Strings

    A Rust [String] is a Rocq [string], one [ascii] per byte.  The functions
    below are the [str] methods the sources call.  Case mapping is the ASCII
    one ([to_ascii_lowercase]); [to_lowercase] is used by the sources on
    symbol names, which the model takes to be ASCII. *)

From S2P Require Import Prelude Machine.
From Stdlib Require Import Strings.Ascii Strings.String Strings.Byte SpecFloat.
From stdpp Require Import pretty.

Open Scope Z_scope.

Global Arguments String.append !_ _ / : simpl nomatch.

(** ** Bytes of a string *)

Definition str_bytes (s : string) : bytes := list_byte_of_string s.
Definition str_len (s : string) : Z := Z.of_nat (String.length s).

Definition ascii_Z (c : ascii) : Z := Z.of_N (N_of_ascii c).

(** ** Character classes *)

Definition in_range (lo hi : Z) (c : ascii) : bool := (lo <=? ascii_Z c) && (ascii_Z c <=? hi).
Definition is_ascii_digit (c : ascii) : bool := in_range 48 57 c.
Definition is_ascii_upper (c : ascii) : bool := in_range 65 90 c.
Definition is_ascii_lower (c : ascii) : bool := in_range 97 122 c.
Definition is_ascii_alphabetic (c : ascii) : bool := is_ascii_upper c || is_ascii_lower c.
Definition is_ascii_alphanumeric (c : ascii) : bool := is_ascii_alphabetic c || is_ascii_digit c.
Definition is_ascii_hexdigit (c : ascii) : bool :=
  is_ascii_digit c || in_range 65 70 c || in_range 97 102 c.

Definition lower_char (c : ascii) : ascii :=
  if is_ascii_upper c then ascii_of_N (N_of_ascii c + 32) else c.

(** ** Mapping and testing *)

Fixpoint str_map (f : ascii -> ascii) (s : string) : string :=
  match s with
  | EmptyString => EmptyString
  | String c s' => String (f c) (str_map f s')
  end.

Fixpoint str_all (p : ascii -> bool) (s : string) : bool :=
  match s with
  | EmptyString => true
  | String c s' => p c && str_all p s'
  end.

(** [to_ascii_lowercase] *)
Definition str_lower (s : string) : string := str_map lower_char s.

(** [eq_ignore_ascii_case] *)
Definition eq_ignore_case (s t : string) : bool := String.eqb (str_lower s) (str_lower t).

(** [s.starts_with(p)], [s.ends_with(p)], [s.contains(p)] *)
Fixpoint str_starts_with (p s : string) : bool :=
  match p, s with
  | EmptyString, _ => true
  | String a p', String b s' => Ascii.eqb a b && str_starts_with p' s'
  | String _ _, EmptyString => false
  end.

Fixpoint str_ends_with (p s : string) : bool :=
  String.eqb s p || match s with EmptyString => false | String _ s' => str_ends_with p s' end.

Fixpoint str_contains (p s : string) : bool :=
  str_starts_with p s || match s with EmptyString => false | String _ s' => str_contains p s' end.

(** [s.strip_prefix(c)] and [s.strip_suffix(c)] for a character. *)
Definition strip_prefix_char (c : ascii) (s : string) : option string :=
  match s with
  | String d s' => if Ascii.eqb c d then Some s' else None
  | EmptyString => None
  end.

Fixpoint strip_suffix_char (c : ascii) (s : string) : option string :=
  match s with
  | EmptyString => None
  | String d EmptyString => if Ascii.eqb c d then Some EmptyString else None
  | String d s' => String d <$> strip_suffix_char c s'
  end.

(** [split(p).filter(|t| !t.is_empty())]: the maximal runs of characters that
    do not satisfy [p]. *)
Fixpoint split_tokens (p : ascii -> bool) (s : string) (acc : string) : list string :=
  let flush := if String.eqb acc "" then [] else [acc] in
  match s with
  | EmptyString => flush
  | String c s' =>
      if p c then flush ++ split_tokens p s' ""
      else split_tokens p s' (acc +:+ String c "")
  end.

(** [s.split_once(c)] *)
Fixpoint split_once (c : ascii) (s : string) : option (string * string) :=
  match s with
  | EmptyString => None
  | String d s' =>
      if Ascii.eqb c d then Some (""%string, s')
      else match split_once c s' with Some (a, b) => Some (String d a, b) | None => None end
  end.

(** [format!("{n}")] for an integer. *)
Definition show_Z (z : Z) : string := pretty z.

Definition hex_digit (n : Z) : ascii :=
  ascii_of_N (Z.to_N (if n <? 10 then 48 + n else 87 + n)).

(** [format!("{:0wx}")] for [0 <= z < 16^w]. *)
Fixpoint show_hex (w : nat) (z : Z) : string :=
  match w with
  | O => EmptyString
  | S w' => show_hex w' (z / 16) +:+ String (hex_digit (z mod 16)) EmptyString
  end.

(** [format!("{:x}")] of a non-negative integer. *)
Fixpoint hex_digits (fuel : nat) (z : Z) : nat :=
  match fuel with O => 1 | S f => if z <? 16 then 1 else S (hex_digits f (z / 16)) end.
Definition show_x (z : Z) : string := show_hex (hex_digits 64 z) z.

(** [s.trim_end_matches(c)], [s.trim_start_matches(c)], for a class of characters *)
Fixpoint trim_start (p : ascii -> bool) (s : string) : string :=
  match s with
  | EmptyString => EmptyString
  | String c s' => if p c then trim_start p s' else s
  end.
Fixpoint trim_end (p : ascii -> bool) (s : string) : string :=
  match s with
  | EmptyString => EmptyString
  | String c s' =>
      match trim_end p s' with
      | EmptyString => if p c then EmptyString else String c EmptyString
      | t => String c t
      end
  end.
Definition is_nul (c : ascii) : bool := Ascii.eqb c "000".
(** [char::is_whitespace] on ASCII. *)
Definition is_space (c : ascii) : bool := in_range 9 13 c || Ascii.eqb c " ".
Definition trim (s : string) : string := trim_end is_space (trim_start is_space s).

(** [String::from_utf8_lossy]: every maximal ill-formed part becomes U+FFFD.
    [utf8_part l] is the length of the first part and whether it is well-formed. *)
Definition cont_in (lo hi : Z) (l : bytes) : bool :=
  match l with b :: _ => (lo <=? u8 b) && (u8 b <=? hi) | [] => false end.
Definition utf8_part (b : byte) (rest : bytes) : bool * nat :=
  let c := u8 b in
  let tail2 lo hi :=
    if cont_in lo hi rest then (if cont_in 0x80 0xbf (drop 1 rest) then (true, 3%nat) else (false, 2%nat)) else (false, 1%nat) in
  let tail3 lo hi :=
    if cont_in lo hi rest then
      if cont_in 0x80 0xbf (drop 1 rest) then
        if cont_in 0x80 0xbf (drop 2 rest) then (true, 4%nat) else (false, 3%nat)
      else (false, 2%nat)
    else (false, 1%nat) in
  if c <? 0x80 then (true, 1%nat)
  else if (0xc2 <=? c) && (c <=? 0xdf) then (if cont_in 0x80 0xbf rest then (true, 2%nat) else (false, 1%nat))
  else if c =? 0xe0 then tail2 0xa0 0xbf
  else if c =? 0xed then tail2 0x80 0x9f
  else if (0xe1 <=? c) && (c <=? 0xef) then tail2 0x80 0xbf
  else if c =? 0xf0 then tail3 0x90 0xbf
  else if c =? 0xf4 then tail3 0x80 0x8f
  else if (0xf1 <=? c) && (c <=? 0xf3) then tail3 0x80 0xbf
  else (false, 1%nat).
Definition replacement : bytes := [xef; xbf; xbd].
Fixpoint utf8_lossy (fuel : nat) (l : bytes) : bytes :=
  match fuel, l with
  | S fuel', b :: rest =>
      let '(ok, n) := utf8_part b rest in
      (if ok then take n l else replacement) ++ utf8_lossy fuel' (drop n l)
  | _, _ => []
  end.
Definition bytes_str (l : bytes) : string := string_of_list_byte l.
Definition from_utf8_lossy (l : bytes) : string := bytes_str (utf8_lossy (length l) l).

(** A non-negative decimal [q / 10^d]; for [d < 0] the digits of [q] and zeros. *)
Fixpoint pad_left (n : nat) (s : string) : string :=
  match n with O => s | S n' => pad_left n' (String "0" s) end.
Definition show_decimal (q : Z) (d : Z) : string :=
  if d <=? 0 then show_Z (q * 10 ^ (- d))
  else
    let frac := show_Z (q mod 10 ^ d) in
    show_Z (q / 10 ^ d) +:+ ("." +:+ pad_left (Z.to_nat d - String.length frac) frac).

(** [format!("{x:.d}")] of an [f64]: its exact value rounded to [d] decimals,
    ties to even. *)
Definition show_f64_fixed (d : Z) (x : f64) : string :=
  match x with
  | S754_zero s => (if s then "-" else "") +:+ show_decimal 0 d
  | S754_infinity s => if s then "-inf" else "inf"
  | S754_nan => "NaN"
  | S754_finite s m e =>
      let '(n, k) := f64_magnitude m e in
      (if s then "-" else "") +:+ show_decimal (div_half_even (n * 10 ^ d) k) d
  end%string.

(** The decimal with the fewest fractional digits, from [d] on, that reads back
    as [m * 2^e]. *)
Fixpoint shortest_from (fuel : nat) (m : positive) (e : Z) (d : Z) : string :=
  let '(n, k) := f64_magnitude m e in
  let q := if 0 <=? d then div_half_even (n * 10 ^ d) k else div_half_even n (k * 10 ^ (- d)) in
  let back := if 0 <=? d then f64_ratio q (10 ^ d) else f64_ratio (q * 10 ^ (- d)) 1 in
  match fuel with
  | O => show_decimal q d
  | S fuel' =>
      match f64_cmp back (S754_finite false m e) with
      | Some Eq => show_decimal q d
      | _ => shortest_from fuel' m e (d + 1)
      end
  end.

(** [format!("{x}")] of an [f64]: the shortest decimal that reads back as [x];
    no binary64 needs more than 1100 places. *)
Definition show_f64 (x : f64) : string :=
  match x with
  | S754_zero s => (if s then "-0" else "0")
  | S754_infinity s => if s then "-inf" else "inf"
  | S754_nan => "NaN"
  | S754_finite s m e =>
      let '(n, k) := f64_magnitude m e in
      (if s then "-" else "") +:+ shortest_from 1500 m e (- Z.of_nat (String.length (show_Z (n / k))))
  end%string.

Definition quote : string := String "034"%char EmptyString.

(** [{:?}] of a string, for the characters error texts are made of. *)
Fixpoint debug_chars (s : string) : string :=
  match s with
  | EmptyString => EmptyString
  | String c s' =>
      (if Ascii.eqb c "034"%char then "\" +:+ quote
       else if Ascii.eqb c "\"%char then "\\"
       else if Ascii.eqb c "010"%char then "\n"
       else if Ascii.eqb c "013"%char then "\r"
       else if Ascii.eqb c "009"%char then "\t"
       else String c EmptyString) +:+ debug_chars s'
  end.

Definition debug_str (s : string) : string := quote +:+ (debug_chars s +:+ quote).

(** [Vec<String>::join(sep)] *)
Definition str_join (sep : string) (l : list string) : string := String.concat sep l.

(** Lexicographic order of [str] (that of the bytes). *)
Fixpoint str_leb (s t : string) : bool :=
  match s, t with
  | EmptyString, _ => true
  | String _ _, EmptyString => false
  | String a s', String b t' =>
      (ascii_Z a <? ascii_Z b) || ((ascii_Z a =? ascii_Z b) && str_leb s' t')
  end.

(** The UTF-8 encodings of the white space of [str::trim]. *)
Definition white_space : list bytes :=
  map (fun c => [byte_of_Z c]) [9; 10; 11; 12; 13; 32] ++ [[xc2; x85]; [xc2; xa0]; [xe1; x9a; x80]] ++
  map (fun c => [xe2; x80; byte_of_Z c]) [128; 129; 130; 131; 132; 133; 134; 135; 136; 137; 138; 168; 169; 175] ++
  [[xe2; x81; x9f]; [xe3; x80; x80]].

Fixpoint strip_front (l b : bytes) : option bytes :=
  match l, b with
  | [], _ => Some b
  | x :: l', y :: b' => if Byte.eqb x y then strip_front l' b' else None
  | _, [] => None
  end.

(** One white space less at the front, of any of the spellings. *)
Definition strip_space (spaces : list bytes) (b : bytes) : option bytes := head (omap (fun w => strip_front w b) spaces).

Fixpoint strip_spaces (fuel : nat) (spaces : list bytes) (b : bytes) : bytes :=
  match fuel with
  | O => b
  | S fuel' => match strip_space spaces b with Some b' => strip_spaces fuel' spaces b' | None => b end
  end.

Definition trim_front (spaces : list bytes) (b : bytes) : bytes := strip_spaces (length b) spaces b.

(** [str::trim] *)
Definition str_trim (s : string) : string :=
  let front := trim_front white_space (str_bytes s) in
  bytes_str (rev (trim_front (map (@rev byte) white_space) (rev front))).

(** ** Lemmas *)

Lemma ascii_Z_inj a b : ascii_Z a = ascii_Z b -> a = b.
Proof.
  intros H. unfold ascii_Z in H. apply N2Z.inj in H.
  by rewrite <- (ascii_N_embedding a), H, ascii_N_embedding.
Qed.

Lemma str_map_length f s : String.length (str_map f s) = String.length s.
Proof. induction s; simpl; auto. Qed.

Lemma lower_char_idem c : lower_char (lower_char c) = lower_char c.
Proof. by destruct c as [[] [] [] [] [] [] [] []]. Qed.

Lemma str_lower_idem s : str_lower (str_lower s) = str_lower s.
Proof. unfold str_lower. induction s; simpl; [done|]. by rewrite lower_char_idem, IHs. Qed.

Lemma eq_ignore_case_refl s : eq_ignore_case s s = true.
Proof. apply String.eqb_refl. Qed.

Lemma str_leb_total s t : str_leb s t = true \/ str_leb t s = true.
Proof.
  revert t. induction s as [|a s IH]; intros [|b t]; simpl; auto.
  destruct (Z.lt_trichotomy (ascii_Z a) (ascii_Z b)) as [H|[H|H]].
  - left. by rewrite (proj2 (Z.ltb_lt _ _) H).
  - rewrite H, Z.ltb_irrefl, Z.eqb_refl. simpl. apply IH.
  - right. by rewrite (proj2 (Z.ltb_lt _ _) H).
Qed.

Lemma str_leb_cons a s b t :
  str_leb (String a s) (String b t) = true <->
  ascii_Z a < ascii_Z b \/ (a = b /\ str_leb s t = true).
Proof.
  simpl. rewrite orb_true_iff, andb_true_iff, Z.ltb_lt, Z.eqb_eq.
  split; (intros [H|[H1 H2]]; [by left|right]); split; auto.
  - by apply ascii_Z_inj.
  - by rewrite H1.
Qed.

Lemma str_leb_trans s t u : str_leb s t = true -> str_leb t u = true -> str_leb s u = true.
Proof.
  revert t u. induction s as [|a s IH]; intros [|b t] [|c u]; try done.
  rewrite !str_leb_cons. intros [H1|[-> H1]] [H2|[-> H2]].
  - left. lia.
  - by left.
  - by left.
  - right. eauto.
Qed.

Lemma str_leb_antisym s t : str_leb s t = true -> str_leb t s = true -> s = t.
Proof.
  revert t. induction s as [|a s IH]; intros [|b t]; try done.
  rewrite !str_leb_cons. intros [H1|[-> H1]] [H2|[H2 H3]]; subst; try lia.
  f_equal. auto.
Qed.

Lemma string_app_assoc (a b c : string) : (a +:+ b) +:+ c = a +:+ (b +:+ c).
Proof. induction a; simpl; [done|]. congruence. Qed.

Lemma string_app_length a b : String.length (a +:+ b) = (String.length a + String.length b)%nat.
Proof. induction a; simpl; auto. Qed.

Lemma str_all_app p a b : str_all p (a +:+ b) = str_all p a && str_all p b.
Proof. induction a as [|x a IH]; [done|]. change (String x a +:+ b) with (String x (a +:+ b)). cbn [str_all]. by rewrite IH, andb_assoc. Qed.

Lemma string_app_nil_r a : a +:+ "" = a.
Proof. induction a; simpl; [done|]. congruence. Qed.

Lemma string_app_inj_l p a b : p +:+ a = p +:+ b -> a = b.
Proof. induction p; simpl; [done|]. intros [= H]. auto. Qed.

Lemma string_app_inj_len a b c d :
  String.length a = String.length c -> a +:+ b = c +:+ d -> a = c /\ b = d.
Proof.
  revert c. induction a as [|x a IH]; intros [|y c]; simpl; try done.
  intros [= Hl] [= -> H]. by destruct (IH c Hl H) as [-> ->].
Qed.

Lemma prefix_spec p s : str_starts_with p s = true <-> exists t, s = p +:+ t.
Proof.
  revert s. induction p as [|a p IH]; intros s; simpl.
  { split; [|by destruct s]. intros _. by exists s. }
  destruct s as [|b s]; [by split; [|intros [t Ht]]|].
  rewrite andb_true_iff, Ascii.eqb_eq, IH. split.
  - intros [-> [t ->]]. by exists t.
  - intros [t Ht]. simpl in Ht. injection Ht as -> ->. eauto.
Qed.

(** [contains] finds exactly the contiguous substrings. *)
Lemma str_contains_spec p s : str_contains p s = true <-> exists a b, s = a +:+ (p +:+ b).
Proof.
  induction s as [|c s IH]; cbn [str_contains]; rewrite orb_true_iff, prefix_spec.
  - split.
    + intros [[t Ht]|]; [|done]. exists ""%string, t. done.
    + intros (a & b & H). left. destruct a; [by exists b|done].
  - rewrite IH. split.
    + intros [[t Ht]|(a & b & ->)]; [by exists ""%string, t|by exists (String c a), b].
    + intros ([|x a] & b & H); simpl in H; [left; by exists b|right].
      injection H as -> ->. by exists a, b.
Qed.

Lemma show_hex_length w z : String.length (show_hex w z) = w.
Proof.
  revert z. induction w as [|w IH]; intros z; simpl; [done|].
  rewrite string_app_length, IH. simpl. lia.
Qed.

Lemma hex_digit_inj x y : 0 <= x < 16 -> 0 <= y < 16 -> hex_digit x = hex_digit y -> x = y.
Proof.
  intros Hx Hy H.
  assert (Hx' : exists n, x = Z.of_nat n /\ (n < 16)%nat) by (exists (Z.to_nat x); lia).
  assert (Hy' : exists n, y = Z.of_nat n /\ (n < 16)%nat) by (exists (Z.to_nat y); lia).
  destruct Hx' as (n & -> & Hn), Hy' as (m & -> & Hm).
  do 16 (destruct n as [|n]; [do 16 (destruct m as [|m]; [first [done|discriminate]|]); lia|]). lia.
Qed.

(** Fixed-width hexadecimal is injective on the integers it can hold. *)
Lemma show_hex_inj w x y :
  0 <= x < 16 ^ Z.of_nat w -> 0 <= y < 16 ^ Z.of_nat w -> show_hex w x = show_hex w y -> x = y.
Proof.
  revert x y. induction w as [|w IH]; intros x y Hx Hy H.
  { change (16 ^ Z.of_nat 0) with 1 in *. lia. }
  rewrite Nat2Z.inj_succ, Z.pow_succ_r in Hx, Hy by lia. cbn [show_hex] in H.
  apply string_app_inj_len in H as [H1 H2]; [|by rewrite !show_hex_length].
  injection H2 as H2.
  pose proof (Z.mod_pos_bound x 16 eq_refl). pose proof (Z.mod_pos_bound y 16 eq_refl).
  apply hex_digit_inj in H2; [|lia..].
  apply IH in H1; [|split; [apply Z.div_pos; lia|apply Z.div_lt_upper_bound; lia]..].
  rewrite (Z.div_mod x 16), (Z.div_mod y 16) by lia. lia.
Qed.

(** The first slash splits a string in one way. *)
Lemma slash_split a b a' b' :
  str_contains "/" a = false -> str_contains "/" a' = false ->
  a +:+ ("/" +:+ b) = a' +:+ ("/" +:+ b') -> a = a' /\ b = b'.
Proof.
  revert a'. induction a as [|c a IH]; intros [|c' a'] Ha Ha' E; simpl in E.
  - by injection E as ->.
  - injection E as <- E. by destruct a'.
  - injection E as -> E. by destruct a.
  - injection E as -> E. cbn [str_contains] in Ha, Ha'.
    apply orb_false_iff in Ha as [_ Ha], Ha' as [_ Ha'].
    by destruct (IH a' Ha Ha' E) as [-> ->].
Qed.

(** [str::parse] of an unsigned integer: an optional plus sign and decimal
    digits, below [bound]. *)
Fixpoint parse_digits (bound : Z) (s : string) (acc : Z) : option Z :=
  match s with
  | EmptyString => Some acc
  | String c s' =>
      if is_ascii_digit c then
        let v := acc * 10 + (ascii_Z c - 48) in
        if v <? bound then parse_digits bound s' v else None
      else None
  end.
Definition parse_uint (bound : Z) (s : string) : option Z :=
  let digits := match s with String "+" s' => s' | _ => s end in
  if String.eqb digits "" then None else parse_digits bound digits 0.
Definition parse_u32 : string -> option Z := parse_uint (2 ^ 32).
Definition parse_u64 : string -> option Z := parse_uint (2 ^ 64).

Lemma parse_digits_range bound s acc v : 0 <= acc < bound -> parse_digits bound s acc = Some v -> 0 <= v < bound.
Proof.
  revert acc. induction s as [|c s IH]; intros acc Ha; cbn [parse_digits]; [by intros [= <-]|].
  destruct (is_ascii_digit c) eqn:Ec; [|done]. destruct (_ <? _) eqn:El; [|done].
  apply Z.ltb_lt in El. apply IH. unfold is_ascii_digit, in_range in Ec.
  apply andb_true_iff in Ec as [E1 E2]. apply Z.leb_le in E1, E2. lia.
Qed.

Lemma parse_u32_range s v : parse_u32 s = Some v -> 0 <= v < 2 ^ 32.
Proof. unfold parse_u32, parse_uint. destruct (String.eqb _ _); [done|]. by apply parse_digits_range. Qed.

Lemma str_bytes_inj s t : str_bytes s = str_bytes t -> s = t.
Proof.
  intros H. apply (f_equal string_of_list_byte) in H. unfold str_bytes in H.
  by rewrite !string_of_list_byte_of_string in H.
Qed.
