(* ===== verification/Decimal.v ===== *)
(** * Decimal integers as text

    [str::parse] and [to_string] of the 64-bit integers, and SQLite's
    [CAST(... AS INTEGER)], with the round trips the agent's state relies on. *)

From S2P Require Import Prelude Machine Text.
From stdpp Require Import pretty.
From Stdlib Require Import Strings.Ascii.

Open Scope Z_scope.

(** Decimal digits to the end, continuing from [acc]. *)
Fixpoint digits_value (s : string) (acc : Z) : option Z :=
  match s with
  | EmptyString => Some acc
  | String c s' => if is_ascii_digit c then digits_value s' (acc * 10 + (ascii_Z c - 48)) else None
  end.

Definition nonempty_digits (s : string) : option Z := if String.eqb s "" then None else digits_value s 0.

(** A leading sign, and what follows it: whether it is [-]. *)
Definition split_sign (s : string) : bool * string :=
  match s with
  | String "-" s' => (true, s')
  | String "+" s' => (false, s')
  | _ => (false, s)
  end.

(** [str::parse] of an integer type with the given range: an optional sign
    ([-] only for signed types), decimal digits, and a value in range. *)
Definition parse_int (lo hi : Z) (s : string) : option Z :=
  let '(neg, digits) := split_sign s in
  n ← nonempty_digits digits;
  if (neg : bool) && negb (lo <? 0) then None
  else
    let v := if neg then - n else n in
    if (lo <=? v) && (v <=? hi) then Some v else None.

Definition I64_MAX : Z := 2 ^ 63 - 1.
Definition parse_i64 : string -> option Z := parse_int (- 2 ^ 63) I64_MAX.
Definition parse_u64 : string -> option Z := parse_int 0 (2 ^ 64 - 1).

(** The longest prefix of digits. *)
Fixpoint digit_prefix (s : string) (acc : Z) : Z :=
  match s with
  | String c s' => if is_ascii_digit c then digit_prefix s' (acc * 10 + (ascii_Z c - 48)) else acc
  | EmptyString => acc
  end.

Definition clamp_i64 (z : Z) : Z := Z.max (- 2 ^ 63) (Z.min z I64_MAX).

(** [CAST(s AS INTEGER)]: spaces, a sign, the longest prefix of digits; 0
    without one, the nearest 64-bit integer when out of range. *)
Definition sqlite_cast_int (s : string) : Z :=
  let '(neg, digits) := split_sign (trim_start is_space s) in
  clamp_i64 (if (neg : bool) then - digit_prefix digits 0 else digit_prefix digits 0).

(** ** Round trips *)

Lemma pretty_digit n : (n < 10)%N ->
  is_ascii_digit (pretty_N_char n) = true /\ ascii_Z (pretty_N_char n) = 48 + Z.of_N n.
Proof.
  intros Hn. assert (Hc : exists m, n = N.of_nat m /\ (m < 10)%nat) by (exists (N.to_nat n); lia).
  destruct Hc as (m & -> & Hm). do 10 (destruct m as [|m]; [by vm_compute|]). lia.
Qed.

(** The printed digits of [n] followed by [s] read as [n], then [s]. *)
Lemma digits_value_go n s : digits_value (pretty_N_go n s) 0 = digits_value s (Z.of_N n).
Proof.
  revert s. induction (N.lt_wf_0 n) as [n _ IH]. intros s.
  destruct (decide (0 < n)%N) as [Hpos|Hz]; [|replace n with 0%N by lia; by rewrite pretty_N_go_0].
  rewrite pretty_N_go_step by done. rewrite IH by (apply N.div_lt; lia).
  destruct (pretty_digit (n `mod` 10)%N) as [H1 H2]; [apply N.mod_lt; lia|]. cbn [digits_value]. rewrite H1, H2.
  assert (Hd : Z.of_N n = Z.of_N (n `div` 10) * 10 + Z.of_N (n `mod` 10)).
  { rewrite N2Z.inj_div, N2Z.inj_mod. pose proof (Z.div_mod (Z.of_N n) 10 ltac:(lia)). lia. }
  f_equal. lia.
Qed.

Lemma pretty_go_head n s : (0 < n)%N -> exists c s', pretty_N_go n s = String c s' /\ is_ascii_digit c = true.
Proof.
  revert s. induction (N.lt_wf_0 n) as [n _ IH]. intros s Hn. rewrite pretty_N_go_step by done.
  destruct (decide (0 < n `div` 10)%N) as [Hd|Hd]; [apply IH; [apply N.div_lt; lia|done]|].
  assert (E : (n `div` 10)%N = 0%N) by (destruct (n `div` 10)%N; [done|by destruct Hd]). rewrite E, pretty_N_go_0. do 2 eexists. split; [reflexivity|].
  apply pretty_digit, N.mod_lt. lia.
Qed.

(** What [to_string] prints: a sign for negative numbers, and a nonempty run of
    digits with the absolute value. *)
Lemma show_Z_digits z : exists c s, is_ascii_digit c = true /\ digits_value (String c s) 0 = Some (Z.abs z) /\
  show_Z z = if z <? 0 then String "-" (String c s) else String c s.
Proof.
  destruct z as [|p|p].
  - by exists "0"%char, ""%string.
  - destruct (pretty_go_head (Npos p) "") as (c & s & E & Hc); [lia|]. exists c, s. split; [done|].
    assert (Hs : show_Z (Zpos p) = pretty_N_go (Npos p) "") by done. rewrite Hs, <- E. by rewrite digits_value_go.
  - destruct (pretty_go_head (Npos p) "") as (c & s & E & Hc); [lia|]. exists c, s. split; [done|].
    assert (Hs : show_Z (Zneg p) = String "-" (pretty_N_go (Npos p) "")) by done. rewrite Hs, <- E. by rewrite digits_value_go.
Qed.

Lemma digit_not_sign c : is_ascii_digit c = true -> c <> "+"%char /\ c <> "-"%char /\ is_space c = false.
Proof. intros H. split; [|split]; [intros ->; discriminate..|]. destruct c as [[] [] [] [] [] [] [] []]; done. Qed.

Lemma split_sign_digit c s : is_ascii_digit c = true -> split_sign (String c s) = (false, String c s).
Proof. intros H. destruct (digit_not_sign c H) as (H1 & H2 & _). destruct c as [[] [] [] [] [] [] [] []]; done. Qed.

Lemma nonempty_digits_cons c s : nonempty_digits (String c s) = digits_value (String c s) 0.
Proof. done. Qed.

Lemma parse_int_show lo hi z : lo <= z <= hi -> parse_int lo hi (show_Z z) = Some z.
Proof.
  intros Hz. destruct (show_Z_digits z) as (c & s & Hc & Hv & E). rewrite E. unfold parse_int.
  assert (Hr : (lo <=? z) && (z <=? hi) = true) by (apply andb_true_iff; split; apply Z.leb_le; lia).
  destruct (Z.ltb_spec z 0).
  - cbn [split_sign]. rewrite nonempty_digits_cons, Hv. cbn -[Z.ltb Z.leb]. rewrite (proj2 (Z.ltb_lt lo 0)) by lia. cbn -[Z.leb].
    replace (- Z.abs z) with z by lia. by rewrite Hr.
  - rewrite split_sign_digit, nonempty_digits_cons, Hv by done. cbn -[Z.leb]. replace (Z.abs z) with z by lia. by rewrite Hr.
Qed.

Lemma digit_prefix_value s acc v : digits_value s acc = Some v -> digit_prefix s acc = v.
Proof. revert acc. induction s as [|c s IH]; cbn; intros acc; [by intros [= ->]|]. destruct (is_ascii_digit c); [apply IH|done]. Qed.

Lemma sqlite_cast_show z : - 2 ^ 63 <= z <= I64_MAX -> sqlite_cast_int (show_Z z) = z.
Proof.
  intros Hz. assert (Hcl : clamp_i64 z = z) by (unfold clamp_i64; lia).
  destruct (show_Z_digits z) as (c & s & Hc & Hv & E). rewrite E. apply digit_prefix_value in Hv. unfold sqlite_cast_int.
  destruct (Z.ltb_spec z 0).
  - cbn [trim_start]. change (is_space "-") with false. cbn [split_sign]. rewrite Hv. by replace (- Z.abs z) with z by lia.
  - cbn [trim_start]. destruct (digit_not_sign c Hc) as (_ & _ & ->). rewrite split_sign_digit by done.
    rewrite Hv. by replace (Z.abs z) with z by lia.
Qed.
