(* ===== verification/Hash.v ===== *)
(** * SHA-256 identity of artifacts ([corpus-core/src/hash.rs])

    The digest and the hexadecimal codec come from the [sha2] and [hex] crates:
    they are operations of the classes [Sha256] and [HexCodec], with what the
    crates document as the laws [HexLaws] and [Sha256Laws].  [ReferenceHash]
    at the end is one pair of instances, used to evaluate witnesses. *)

From S2P Require Import Prelude Machine Text.
From Stdlib Require Import Strings.Byte Strings.Ascii.

Open Scope Z_scope.

(** [Sha256::digest] *)
Class Sha256 : Type := sha256_digest : bytes -> bytes.

(** A SHA-256 digest is 32 bytes. *)
Class Sha256Laws `{Sha256} : Prop := sha256_length : forall b, length (sha256_digest b) = 32%nat.

(** [hex::encode], [hex::decode] *)
Class HexCodec : Type := {
  hex_encode : bytes -> string;
  hex_decode : string -> option bytes
}.

(** [encode] writes two lower-case digits per byte; [decode] inverts it and
    ignores the case of the digits. *)
Class HexLaws `{HexCodec} : Prop := {
  hex_decode_encode : forall b, hex_decode (hex_encode b) = Some b;
  hex_decode_case : forall s, hex_decode (str_lower s) = hex_decode s;
  hex_encode_lower : forall b, str_lower (hex_encode b) = hex_encode b;
  hex_encode_length : forall b, String.length (hex_encode b) = (2 * length b)%nat;
  hex_encode_digits : forall b, str_all is_ascii_hexdigit (hex_encode b) = true
}.

Section hash.
  Context {SHA : Sha256} {HEX : HexCodec}.

Definition sha256_hex (b : bytes) : string := hex_encode (sha256_digest b).

Definition sha256_raw (b : bytes) : bytes := sha256_digest b.

Definition hex_to_raw (s : string) : option bytes := hex_decode s.

Definition verify_upload (b : bytes) (announced_sha256_hex : string) : outcome bytes :=
  let recomputed := sha256_hex b in
  if eq_ignore_case recomputed announced_sha256_hex
  then Ret (sha256_raw b)
  else Fail (HashMismatch announced_sha256_hex recomputed).

  Context {HEXL : HexLaws}.

Lemma hex_encode_inj a b : hex_encode a = hex_encode b -> a = b.
Proof. intros H. apply (f_equal hex_decode) in H. rewrite !hex_decode_encode in H. by simplify_eq. Qed.

(** A digest round-trips through its hexadecimal form. *)
Lemma hex_to_raw_sha256_hex b : hex_to_raw (sha256_hex b) = Some (sha256_raw b).
Proof. apply hex_decode_encode. Qed.

Lemma eq_ignore_case_decode s t : eq_ignore_case s t = true -> hex_decode s = hex_decode t.
Proof.
  intros H. apply String.eqb_eq in H. by rewrite <- hex_decode_case, H, hex_decode_case.
Qed.

Lemma verify_upload_accepts b a : eq_ignore_case (sha256_hex b) a = true -> verify_upload b a = Ret (sha256_raw b).
Proof. intros H. unfold verify_upload. by rewrite H. Qed.
End hash.

(** ** Reference instances *)
Module ReferenceHash.

Definition hex_digit_value (c : ascii) : option Z :=
  if is_ascii_digit c then Some (ascii_Z c - 48)
  else if in_range 97 102 c then Some (ascii_Z c - 87)
  else if in_range 65 70 c then Some (ascii_Z c - 55)
  else None.

Fixpoint encode (b : bytes) : string :=
  match b with
  | [] => EmptyString
  | x :: b' => String (hex_digit (u8 x / 16)) (String (hex_digit (u8 x mod 16)) (encode b'))
  end.

Fixpoint decode (s : string) : option bytes :=
  match s with
  | EmptyString => Some []
  | String c EmptyString => None
  | String c (String d s') =>
      h ← hex_digit_value c; l ← hex_digit_value d; r ← decode s'; Some (byte_of_Z (16 * h + l) :: r)
  end.

(** A 32-byte stand-in for the digest: the input, padded and cut. *)
Definition digest (b : bytes) : bytes := take 32 (b ++ repeat x00 32).

Definition sha : Sha256 := digest.
Definition hex : HexCodec := {| hex_encode := encode; hex_decode := decode |}.

Lemma sha_laws : @Sha256Laws sha.
Proof.
  intros b. unfold sha256_digest, sha, digest. rewrite length_take, length_app, repeat_length. lia.
Qed.

Lemma two_digits x : hex_digit_value (hex_digit (u8 x / 16)) = Some (u8 x / 16) /\
  hex_digit_value (hex_digit (u8 x mod 16)) = Some (u8 x mod 16) /\
  lower_char (hex_digit (u8 x / 16)) = hex_digit (u8 x / 16) /\
  lower_char (hex_digit (u8 x mod 16)) = hex_digit (u8 x mod 16) /\
  is_ascii_hexdigit (hex_digit (u8 x / 16)) = true /\
  is_ascii_hexdigit (hex_digit (u8 x mod 16)) = true.
Proof. destruct x; vm_compute; repeat split. Qed.

Lemma digit_value_lower c : hex_digit_value (lower_char c) = hex_digit_value c.
Proof. destruct c as [[] [] [] [] [] [] [] []]; reflexivity. Qed.

Lemma decode_lower n s : (String.length s <= n)%nat -> decode (str_lower s) = decode s.
Proof.
  unfold str_lower. revert s. induction n as [|n IH]; intros s Hs.
  { by destruct s; [|simpl in Hs; lia]. }
  destruct s as [|c [|d s]]; [done..|]. cbn [str_map decode].
  rewrite !digit_value_lower, IH; [done|]. simpl in Hs. lia.
Qed.

Lemma hex_laws : @HexLaws hex.
Proof.
  split; simpl.
  - induction b as [|x b IH]; [done|]. cbn [encode decode].
    destruct (two_digits x) as (-> & -> & _). simpl. rewrite IH. simpl.
    rewrite <- Z.div_mod by done. by rewrite byte_of_Z_u8.
  - intros s. by apply (decode_lower (String.length s)).
  - unfold str_lower. induction b as [|x b IH]; [done|]. cbn [encode str_map].
    destruct (two_digits x) as (_ & _ & -> & -> & _). by rewrite IH.
  - induction b as [|x b IH]; [done|]. cbn [encode String.length length]. rewrite IH. lia.
  - induction b as [|x b IH]; [done|]. cbn [encode str_all].
    destruct (two_digits x) as (_ & _ & _ & _ & -> & ->). by rewrite IH.
Qed.
End ReferenceHash.

(** ** Properties *)

Section properties.
  Context {SHA : Sha256} {HEX : HexCodec} {HEXL : HexLaws}.

(** Core invariant #1: an upload is accepted exactly when the recomputed digest
    equals the announced one up to the case of the hexadecimal digits; it then
    returns the digest the client announced, and otherwise reports both
    digests. *)
Theorem verify_upload_spec b announced :
  match verify_upload b announced with
  | Ret raw => raw = sha256_digest b /\ hex_to_raw announced = Some raw
  | Fail e => e = HashMismatch announced (sha256_hex b) /\ str_lower announced <> sha256_hex b
  | Panic => False
  end.
Proof.
  unfold verify_upload. destruct (eq_ignore_case _ _) eqn:E.
  - split; [done|]. unfold hex_to_raw. rewrite <- (eq_ignore_case_decode _ _ E).
    apply hex_decode_encode.
  - split; [done|]. intros H. apply String.eqb_neq in E. apply E.
    unfold sha256_hex in *. by rewrite hex_encode_lower.
Qed.
End properties.

Lemma verify_upload_spec_witness :
  match @verify_upload ReferenceHash.sha ReferenceHash.hex [x4d; x5a] "4D5A" with
  | Ret raw => raw = @sha256_digest ReferenceHash.sha [x4d; x5a]
  | Fail e => e = HashMismatch "4D5A" (@sha256_hex ReferenceHash.sha ReferenceHash.hex [x4d; x5a])
  | Panic => False
  end.
Proof.
  pose proof (@verify_upload_spec ReferenceHash.sha ReferenceHash.hex ReferenceHash.hex_laws
    [x4d; x5a] "4D5A") as H.
  destruct (verify_upload _ _); [exact (proj1 H)..|exact H].
Defined.
