(* ===== verification/Classify.v ===== *)
(** * File classification by magic bytes ([corpus-core/src/classify.rs])

    [classify] is written with the slices the source takes, so that a slice
    out of range would be a [Panic]; the theorems show that none is. *)

From S2P Require Import Prelude Machine.
From Stdlib Require Import Strings.Byte.

Open Scope Z_scope.

Inductive ArtifactClass : Type := Pe | Elf | MachO | MachOFat | Script | Unknown.

Global Instance artifact_class_eq_dec : EqDecision ArtifactClass.
Proof. solve_decision. Defined.

(** [ArtifactClass::as_str] *)
Definition class_str (c : ArtifactClass) : string :=
  match c with
  | Pe => "pe"
  | Elf => "elf"
  | MachO => "macho"
  | MachOFat => "macho_fat"
  | Script => "script"
  | Unknown => "unknown"
  end.

(** The four-byte magics ([match bytes[..4]]). *)
Definition classify_magic (m : bytes) : option ArtifactClass :=
  match m with
  | [x7f; x45; x4c; x46] => Some Elf
  | [xfe; xed; xfa; xce] | [xfe; xed; xfa; xcf]
  | [xce; xfa; xed; xfe] | [xcf; xfa; xed; xfe] => Some MachO
  | [xca; xfe; xba; xbe] | [xbe; xba; xfe; xca] => Some MachOFat
  | _ => None
  end.

(** [e_lfanew + 4 <= len && bytes[e_lfanew..e_lfanew + 4] == PE\0\0]; [&&]
    evaluates its right side only when the left one holds. *)
Definition pe_signature_at (bs : bytes) (e_lfanew : Z) : outcome bool :=
  if e_lfanew + 4 <=? len bs
  then sig ← or_panic (slice bs e_lfanew (e_lfanew + 4)); mret (bool_decide (sig = [x50; x45; x00; x00]))
  else mret false.

Definition classify_first (bs : bytes) : outcome (option ArtifactClass) :=
  if 4 <=? len bs
  then m ← or_panic (slice bs 0 4); mret (classify_magic m)
  else mret None.

Definition classify (bs : bytes) : outcome ArtifactClass :=
  early ← classify_first bs;
  match early with
  | Some c => mret c
  | None =>
      is_pe ← (if (0x40 <=? len bs) && starts_with [x4d; x5a] bs
               then w ← or_panic (slice bs 0x3c 0x40); pe_signature_at bs (from_le w)
               else mret false);
      if (is_pe : bool) then mret Pe
      else if starts_with [x23; x21] bs then mret Script
      else mret Unknown
  end.

(** [classify_path] on a file with contents [content], for a [read] that
    returned the first [n] bytes into the 4096-byte buffer. *)
Definition classify_path (content : bytes) (n : nat) : outcome ArtifactClass :=
  classify (take (n `min` 4096) content).

(** ** What a class means *)

(** The declarative reading of [classify]: which bytes make each class. *)
Definition pe_header (bs : bytes) : Prop :=
  0x40 <= len bs /\ starts_with [x4d; x5a] bs = true /\
  exists w, slice bs 0x3c 0x40 = Some w /\
            slice bs (from_le w) (from_le w + 4) = Some [x50; x45; x00; x00].

Definition has_class (bs : bytes) (c : ArtifactClass) : Prop :=
  match classify_magic (take 4 bs) with
  | Some m => c = m
  | None =>
      (pe_header bs /\ c = Pe) \/
      (~ pe_header bs /\ c = if starts_with [x23; x21] bs then Script else Unknown)
  end.

(** ** Lemmas *)

Lemma classify_magic_length m c : classify_magic m = Some c -> length m = 4%nat.
Proof.
  intros H.
  do 4 (destruct m as [|a m]; [discriminate H|]; destruct a; try discriminate H).
  all: by destruct m.
Qed.

Lemma pe_signature_at_spec bs e :
  0 <= e ->
  exists b, pe_signature_at bs e = Ret b /\
            (b = true <-> slice bs e (e + 4) = Some [x50; x45; x00; x00]).
Proof.
  intros He. unfold pe_signature_at. destruct (e + 4 <=? len bs) eqn:E.
  - apply Z.leb_le in E. destruct (slice_is_some bs e (e + 4)) as (k & Hk & _); [lia..|].
    rewrite Hk. simpl. eexists. split; [done|]. rewrite bool_decide_eq_true. naive_solver.
  - exists false. split; [done|]. apply Z.leb_gt in E.
    rewrite (proj2 (slice_none bs e (e + 4))) by lia. done.
Qed.

Lemma classify_early bs :
  classify_first bs = Ret (classify_magic (take 4 bs)).
Proof.
  unfold classify_first.
  destruct (4 <=? len bs) eqn:E.
  - apply Z.leb_le in E. by rewrite (slice_some bs 0 4) by lia.
  - apply Z.leb_gt in E. unfold mret, outcome_mret. f_equal.
    destruct (classify_magic (take 4 bs)) as [c|] eqn:Ec; [|done].
    apply classify_magic_length in Ec. rewrite length_take in Ec. unfold len in E. lia.
Qed.

Lemma has_class_functional bs c d : has_class bs c -> has_class bs d -> c = d.
Proof. unfold has_class. destruct (classify_magic _); naive_solver. Qed.

Lemma classify_has_class bs : exists c, classify bs = Ret c /\ has_class bs c.
Proof.
  unfold classify, has_class. rewrite classify_early. simpl.
  destruct (classify_magic (take 4 bs)) as [m|] eqn:Em; [by eexists|].
  destruct ((0x40 <=? len bs) && starts_with [x4d; x5a] bs) eqn:Eg.
  - apply andb_true_iff in Eg as [E1 E2]. apply Z.leb_le in E1.
    destruct (slice_is_some bs 0x3c 0x40) as (w & Hw & _); [lia..|].
    rewrite Hw. simpl. pose proof (from_le_range w) as [Hw0 _].
    destruct (pe_signature_at_spec bs (from_le w) Hw0) as (b & -> & Hb). simpl.
    destruct b.
    + exists Pe. split; [done|]. left. split; [|done]. unfold pe_header. naive_solver.
    + assert (Hn : ~ pe_header bs).
      { intros (_ & _ & w' & Hw' & Hs). simplify_eq. by apply Hb in Hs. }
      destruct (starts_with [x23; x21] bs); eexists; (split; [done|by right]).
  - assert (Hn : ~ pe_header bs).
    { intros (H1 & H2 & _). rewrite H2, (proj2 (Z.leb_le _ _) H1) in Eg. done. }
    simpl. destruct (starts_with [x23; x21] bs); eexists; (split; [done|by right]).
Qed.

Lemma starts_with_take p n bs :
  (length p <= n)%nat -> starts_with p (take n bs) = starts_with p bs.
Proof. intros H. unfold starts_with. rewrite take_take. by rewrite Nat.min_l by lia. Qed.

(** ** Properties *)

(** [classify] never panics and computes exactly the class the magic bytes and
    the PE header determine, for every input. *)
Theorem classify_correct bs c : classify bs = Ret c <-> has_class bs c.
Proof.
  destruct (classify_has_class bs) as (d & Hd & Hc). rewrite Hd. split.
  - by intros [= ->].
  - intros H. by rewrite (has_class_functional bs c d).
Qed.

(** The agent classifies from a prefix: the answer is the server's for every
    class but [Pe], and for [Pe] when the prefix reaches past the signature. *)
Theorem classify_path_agrees content n c :
  (64 <= n)%nat ->
  classify content = Ret c ->
  (c = Pe -> forall w, slice content 0x3c 0x40 = Some w -> from_le w + 4 <= Z.of_nat (n `min` 4096)) ->
  classify_path content n = Ret c.
Proof.
  intros Hn Hc Hpe. unfold classify_path. set (k := (n `min` 4096)%nat) in *.
  assert (Hk : (64 <= k)%nat) by lia.
  apply classify_correct in Hc. apply classify_correct. unfold has_class in *.
  rewrite take_take, Nat.min_l by lia.
  destruct (classify_magic (take 4 content)); [done|].
  rewrite starts_with_take by (simpl; lia).
  assert (Hback : pe_header (take k content) -> pe_header content).
  { intros (H1 & H2 & w & Hw & Hs). unfold len in H1. rewrite length_take in H1.
    assert (len content >= 64) by (unfold len; lia).
    rewrite starts_with_take in H2 by (simpl; lia).
    split; [lia|]. split; [done|]. exists w. rewrite slice_take in Hw by lia. split; [done|].
    pose proof Hs as Hs'. unfold slice in Hs'. destruct (_ && _) eqn:E; [|done].
    rewrite !andb_true_iff, !Z.leb_le in E. unfold len in E. rewrite length_take in E.
    rewrite slice_take in Hs by (unfold len; lia). done. }
  destruct Hc as [[Hh ->]|[Hh ->]].
  - left. split; [|done]. destruct Hh as (H1 & H2 & w & Hw & Hs).
    specialize (Hpe eq_refl w Hw).
    unfold pe_header. rewrite starts_with_take by (simpl; lia).
    split; [unfold len in *; rewrite length_take; lia|]. split; [done|]. exists w.
    rewrite slice_take by lia. split; [done|].
    pose proof (slice_length _ _ _ _ Hs) as Hl.
    rewrite slice_take; [done|lia|]. unfold slice in Hs. destruct (_ && _) eqn:E; [|done].
    rewrite !andb_true_iff, !Z.leb_le in E. lia.
  - right. split; [|done]. by intros H%Hback.
Qed.

(** A PE file whose header lies beyond the agent's buffer: MZ, [e_lfanew]
    0x2000, the signature there. *)
Definition far_pe : bytes :=
  [x4d; x5a] ++ repeat x00 58 ++ [x00; x20; x00; x00] ++ repeat x00 (Z.to_nat 8128) ++ [x50; x45; x00; x00].

(** The two classifications do differ on such a file: the server sees a PE
    file, the agent an unknown one. *)
Theorem classify_path_far_pe : classify far_pe = Ret Pe /\ classify_path far_pe (Z.to_nat 4096) = Ret Unknown.
Proof. split; vm_compute; reflexivity. Qed.

Lemma classify_path_agrees_witness : classify_path [x7f; x45; x4c; x46; x02] 4096 = Ret Elf.
Proof. apply classify_path_agrees; [lia|reflexivity|discriminate]. Defined.
