(* ===== verification/Cas.v ===== *)
(** * Content-addressed storage ([corpus-core/src/cas.rs])

    [CasBackend] is the trait, its default methods included; [CasLaws] is the
    abstract specification every backend promises, over the contents of the
    staging area ([staged]) and of the object tree ([stored]).  [FsCas] and
    [MemoryCas] are the two backends, each proved to satisfy the laws, and the
    source's own [conformance_suite] is proved to pass for every backend that
    does.

    The file system under the root is a map from paths (relative to the root)
    to contents; directories are implicit, and a [rename] may be refused
    (staging and objects on different devices), in which case the source falls
    back to copying. *)

From S2P Require Import Prelude Machine Text Hash.
From Stdlib Require Import Strings.Byte Strings.Ascii.
From stdpp Require Import pretty.

Open Scope Z_scope.
Local Arguments String.append : simpl never.

(** ** Keys *)

(** The [Display] form of a [Uuid]: hyphenated lower-case hexadecimal. *)
Class UuidDisplay : Type := uuid_to_string : N -> string.

(** [Uuid::parse_str] (the uuid crate). *)
Class UuidParse : Type := uuid_parse : string -> option N.

Class UuidLaws `{UuidDisplay} : Prop := {
  uuid_to_string_inj : forall u v, uuid_to_string u = uuid_to_string v -> u = v;
  uuid_to_string_plain : forall u,
    str_contains "/" (uuid_to_string u) = false /\ str_contains ".." (uuid_to_string u) = false
}.

Definition Uuid : Type := N.
Global Instance uuid_eq_dec : EqDecision Uuid := N.eq_dec.

Definition object_key `{UuidDisplay} (tenant_id : Uuid) (sha256_hex : string) : string :=
  "objects/" +:+ (uuid_to_string tenant_id +:+ ("/" +:+ sha256_hex)).

Definition verify_digest `{Sha256, HexCodec} (b : bytes) (declared_sha256_hex : string) : outcome unit :=
  let recomputed := sha256_hex b in
  if String.eqb recomputed declared_sha256_hex
  then Ret tt
  else Fail (HashMismatch declared_sha256_hex recomputed).

(** ** The trait *)

Class CasBackend (C : Type) : Type := {
  stage : string -> bytes -> Op C unit;
  commit : string -> string -> Op C unit;
  discard_staging : string -> Op C unit;
  read : string -> Op C bytes;
  exists_ : string -> Op C bool;
  delete : string -> Op C unit
}.

Section defaults.
  Context {C : Type} `{!CasBackend C} {SHA : Sha256} {HEX : HexCodec}.

(** [read_range]: [start + len] is 64-bit and wraps in a release build; the
    slice panics when it wrapped below [start]. *)
Definition read_range (key : string) (offset l : Z) : Op C bytes :=
  all ← read key;
  let start := offset in
  if len all <=? start then mret []
  else
    let end_ := Z.min (u64_wrap (start + l)) (len all) in
    lift_outcome (or_panic (slice all start end_)).

Definition metadata (key : string) : Op C (option (Z * string)) :=
  present ← exists_ key;
  if (present : bool) then b ← read key; mret (Some (len b, sha256_hex b))
  else mret None.

Definition op_assert (b : bool) : Op C unit := if b then mret tt else panic.

Definition conformance_payload : bytes := str_bytes "conformance-payload-v1".

(** [conformance_suite]: every [assert!] is an [op_assert]. *)
Definition conformance_suite `{UuidDisplay} : Op C unit :=
  let tenant : Uuid := 42%N in
  let payload := conformance_payload in
  let sha := sha256_hex payload in
  lift_outcome (verify_digest payload sha) ;;
  let key := object_key tenant sha in
  stage "conf-1" payload ;;
  commit "conf-1" key ;;
  e1 ← exists_ key; op_assert e1 ;;
  r1 ← read key; op_assert (bool_decide (r1 = payload)) ;;
  r2 ← read_range key 0 4; op_assert (bool_decide (r2 = str_bytes "conf")) ;;
  meta ← metadata key;
  match meta with
  | None => panic
  | Some (n, s) =>
      op_assert (n =? len payload) ;;
      op_assert (String.eqb s sha) ;;
      stage "conf-2" payload ;;
      commit "conf-2" key ;;
      r3 ← read key; op_assert (bool_decide (r3 = payload)) ;;
      delete key ;;
      e2 ← exists_ key; op_assert (negb e2)
  end.
End defaults.

(** ** The abstract specification *)

(** [assert!(!staging_key.contains('/') && !staging_key.contains(".."))] *)
Definition valid_staging_key (k : string) : bool :=
  negb (str_contains "/" k) && negb (str_contains ".." k).

(** Keys under the object tree. *)
Definition is_object_key (k : string) : bool := str_starts_with "objects/" k.

Global Arguments valid_staging_key : simpl never.
Global Arguments is_object_key : simpl never.
Global Arguments object_key : simpl never.

(** What a backend holds: the staging area and the object tree. *)
Class CasView (C : Type) : Type := {
  staged : C -> string -> option bytes;
  stored : C -> string -> option bytes
}.

(** The contract of the trait's documentation: staging hygiene, put-if-absent
    and create-if-absent commits, reads of what was committed. *)
Class CasLaws (C : Type) `{CasBackend C, CasView C} : Prop := {
  law_stage : forall k b c, valid_staging_key k = true ->
    exists c', stage k b c = (Ret tt, c') /\
      (forall k', valid_staging_key k' = true -> staged c' k' = if decide (k' = k) then Some b else staged c k') /\
      (forall o, is_object_key o = true -> stored c' o = stored c o);
  law_stage_invalid : forall k b c, valid_staging_key k = false -> stage k b c = (Panic, c);
  law_commit : forall k o c b, valid_staging_key k = true -> is_object_key o = true ->
    staged c k = Some b ->
    exists c', commit k o c = (Ret tt, c') /\
      (forall k', valid_staging_key k' = true -> staged c' k' = if decide (k' = k) then None else staged c k') /\
      (forall o', is_object_key o' = true ->
         stored c' o' = if decide (o' = o) then Some (default b (stored c o)) else stored c o');
  law_commit_missing : forall k o c, valid_staging_key k = true -> is_object_key o = true ->
    staged c k = None ->
    is_ret (fst (commit k o c)) = false \/ is_Some (stored c o);
  law_commit_missing_frame : forall k o c, valid_staging_key k = true -> is_object_key o = true ->
    staged c k = None ->
    (forall k', valid_staging_key k' = true -> staged (snd (commit k o c)) k' = staged c k') /\
    (forall o', is_object_key o' = true -> stored (snd (commit k o c)) o' = stored c o');
  law_discard : forall k c, valid_staging_key k = true ->
    exists c', discard_staging k c = (Ret tt, c') /\
      (forall k', valid_staging_key k' = true -> staged c' k' = if decide (k' = k) then None else staged c k') /\
      (forall o, is_object_key o = true -> stored c' o = stored c o);
  law_read : forall o c, is_object_key o = true ->
    match stored c o with
    | Some b => read o c = (Ret b, c)
    | None => exists e, read o c = (Fail e, c)
    end;
  law_exists : forall o c, is_object_key o = true ->
    exists_ o c = (Ret (bool_decide (is_Some (stored c o))), c);
  law_delete : forall o c, is_object_key o = true ->
    exists c', delete o c = (Ret tt, c') /\
      (forall k, valid_staging_key k = true -> staged c' k = staged c k) /\
      (forall o', is_object_key o' = true -> stored c' o' = if decide (o' = o) then None else stored c o')
}.

(** ** Filesystem backend *)

Record FsCas : Type := mkFsCas {
  fs_files : gmap string bytes;
  (** [rename(2)] from staging to objects is refused *)
  fs_cross_device : bool
}.

Module Fs.

Definition set_files (f : gmap string bytes -> gmap string bytes) (c : FsCas) : FsCas :=
  mkFsCas (f (fs_files c)) (fs_cross_device c).

(** [std::fs] *)
Definition path_exists (p : string) : Op FsCas bool := gets (fun c => bool_decide (is_Some (fs_files c !! p))).
Definition write (p : string) (b : bytes) : Op FsCas unit := modify (set_files <[p := b]>).
Definition read_file (p : string) : Op FsCas bytes := fun c =>
  match fs_files c !! p with
  | Some b => (Ret b, c)
  | None => (Fail (Io "No such file or directory"), c)
  end.
Definition remove_file (p : string) : Op FsCas unit := fun c =>
  match fs_files c !! p with
  | Some _ => (Ret tt, set_files (base.delete p) c)
  | None => (Fail (Io "No such file or directory"), c)
  end.
Definition rename (p q : string) : Op FsCas unit := fun c =>
  match fs_files c !! p with
  | Some b =>
      if fs_cross_device c then (Fail (Io "Invalid cross-device link"), c)
      else (Ret tt, set_files (fun m => <[q := b]> (base.delete p m)) c)
  | None => (Fail (Io "No such file or directory"), c)
  end.
Definition copy (p q : string) : Op FsCas unit := b ← read_file p; write q b.

(** [staging_path] *)
Definition staging_path (staging_key : string) : Op FsCas string :=
  if valid_staging_key staging_key then mret ("staging/" +:+ staging_key) else panic.

Definition stage (staging_key : string) (b : bytes) : Op FsCas unit :=
  path ← staging_path staging_key;
  write path b.

Definition commit (staging_key object_key : string) : Op FsCas unit :=
  staging ← staging_path staging_key;
  let dest := object_key in
  present ← path_exists dest;
  if (present : bool) then
    attempt (remove_file staging) ;; mret tt
  else
    r ← attempt (rename staging dest);
    match r with
    | inr _ => mret tt
    | inl _ => copy staging dest ;; remove_file staging ;; mret tt
    end.

Definition discard_staging (staging_key : string) : Op FsCas unit :=
  path ← staging_path staging_key;
  attempt (remove_file path) ;; mret tt.

Definition read (object_key : string) : Op FsCas bytes := read_file object_key.

Definition exists_ (object_key : string) : Op FsCas bool := path_exists object_key.

Definition delete (object_key : string) : Op FsCas unit :=
  let path := object_key in
  present ← path_exists path;
  if (present : bool) then remove_file path ;; mret tt else mret tt.
End Fs.

Global Instance FsCas_backend : CasBackend FsCas := {|
  stage := Fs.stage; commit := Fs.commit; discard_staging := Fs.discard_staging;
  read := Fs.read; exists_ := Fs.exists_; delete := Fs.delete
|}.

Global Instance FsCas_view : CasView FsCas := {|
  staged c k := fs_files c !! ("staging/" +:+ k);
  stored c o := fs_files c !! o
|}.

(** ** In-memory backend *)

Record MemoryCas : Type := mkMemoryCas {
  mem_staging : gmap string bytes;
  mem_objects : gmap string bytes
}.

Module Mem.

Definition stage (staging_key : string) (b : bytes) : Op MemoryCas unit :=
  if valid_staging_key staging_key
  then modify (fun g => mkMemoryCas (<[staging_key := b]> (mem_staging g)) (mem_objects g))
  else panic.

Definition commit (staging_key object_key : string) : Op MemoryCas unit := fun g =>
  match mem_staging g !! staging_key with
  | None => (Fail (NotFound "staging "), g)
  | Some b =>
      let g' := mkMemoryCas (base.delete staging_key (mem_staging g)) (mem_objects g) in
      (Ret tt, match mem_objects g' !! object_key with
               | Some _ => g'
               | None => mkMemoryCas (mem_staging g') (<[object_key := b]> (mem_objects g'))
               end)
  end.

Definition discard_staging (staging_key : string) : Op MemoryCas unit :=
  modify (fun g => mkMemoryCas (base.delete staging_key (mem_staging g)) (mem_objects g)).

Definition read (object_key : string) : Op MemoryCas bytes := fun g =>
  match mem_objects g !! object_key with
  | Some b => (Ret b, g)
  | None => (Fail (NotFound "object "), g)
  end.

Definition exists_ (object_key : string) : Op MemoryCas bool :=
  gets (fun g => bool_decide (is_Some (mem_objects g !! object_key))).

Definition delete (object_key : string) : Op MemoryCas unit :=
  modify (fun g => mkMemoryCas (mem_staging g) (base.delete object_key (mem_objects g))).
End Mem.

Global Instance MemoryCas_backend : CasBackend MemoryCas := {|
  stage := Mem.stage; commit := Mem.commit; discard_staging := Mem.discard_staging;
  read := Mem.read; exists_ := Mem.exists_; delete := Mem.delete
|}.

Global Instance MemoryCas_view : CasView MemoryCas := {|
  staged c k := mem_staging c !! k;
  stored c o := mem_objects c !! o
|}.

(** ** Lemmas *)

Lemma staging_path_inj k k' : "staging/" +:+ k = "staging/" +:+ k' -> k = k'.
Proof. apply string_app_inj_l. Qed.

Lemma staging_not_object k : is_object_key ("staging/" +:+ k) = false.
Proof. done. Qed.

Lemma object_key_is_object `{UuidDisplay} t s : is_object_key (object_key t s) = true.
Proof. apply prefix_spec. by eexists. Qed.

(** Object keys separate tenants and digests. *)
Lemma object_key_inj `{UuidLaws} t s t' s' : object_key t s = object_key t' s' -> t = t' /\ s = s'.
Proof.
  unfold object_key. intros E. apply string_app_inj_l in E.
  apply slash_split in E as [E1 E2]; [|apply uuid_to_string_plain..].
  split; [by apply uuid_to_string_inj|done].
Qed.

Lemma fs_path_ne k o : is_object_key o = true -> "staging/" +:+ k <> o.
Proof. intros Ho <-. by rewrite staging_not_object in Ho. Qed.

(** Decides the lookups of an updated store at a staging or object path. *)
Ltac fs_lookup :=
  repeat match goal with
  | H : is_object_key ?o = true |- context [<["staging/" +:+ ?k := _]> _ !! ?o] =>
      rewrite (lookup_insert_ne _ ("staging/" +:+ k) o) by (by apply fs_path_ne)
  | H : is_object_key ?o = true |- context [base.delete ("staging/" +:+ ?k) _ !! ?o] =>
      rewrite (lookup_delete_ne _ ("staging/" +:+ k) o) by (by apply fs_path_ne)
  | H : is_object_key ?o = true |- context [<[?o := _]> _ !! ("staging/" +:+ ?k)] =>
      rewrite (lookup_insert_ne _ o ("staging/" +:+ k)) by (apply not_eq_sym; by apply fs_path_ne)
  | H : is_object_key ?o = true |- context [base.delete ?o _ !! ("staging/" +:+ ?k)] =>
      rewrite (lookup_delete_ne _ o ("staging/" +:+ k)) by (apply not_eq_sym; by apply fs_path_ne)
  | |- context [decide (?x = ?y)] => destruct (decide (x = y)) as [->|]
  | |- context [<[?k := _]> _ !! ?k] => rewrite lookup_insert_eq
  | |- context [base.delete ?k _ !! ?k] => rewrite lookup_delete_eq
  | |- context [<[_ := _]> _ !! _] => rewrite lookup_insert_ne by (first [done | by intros ?%staging_path_inj])
  | |- context [base.delete _ _ !! _] => rewrite lookup_delete_ne by (first [done | by intros ?%staging_path_inj])
  end.

Ltac fs_run :=
  unfold Fs.stage, Fs.commit, Fs.discard_staging, Fs.read, Fs.exists_, Fs.delete, Fs.staging_path,
    Fs.path_exists, Fs.copy, Fs.rename, Fs.read_file, Fs.remove_file, Fs.write;
  op_unfold; repeat match goal with
  | H : valid_staging_key _ = _ |- _ => rewrite H; op_unfold
  end.

Lemma fs_commit_spec k o c b :
  valid_staging_key k = true -> is_object_key o = true ->
  fs_files c !! ("staging/" +:+ k) = Some b ->
  Fs.commit k o c =
    (Ret tt, Fs.set_files (fun m => match m !! o with
                                    | Some _ => base.delete ("staging/" +:+ k) m
                                    | None => <[o := b]> (base.delete ("staging/" +:+ k) m)
                                    end) c).
Proof.
  intros Hk Ho Hb. fs_run. destruct c as [m dev]. cbn in *.
  unfold Fs.set_files. cbn.
  destruct (m !! o) as [b'|] eqn:Eo; cbn; rewrite Hb; [done|].
  destruct dev; cbn; rewrite ?Eo; [|done]. rewrite Hb. cbn.
  rewrite lookup_insert_ne by (apply not_eq_sym; by apply fs_path_ne). rewrite Hb. cbn.
  do 2 f_equal. rewrite delete_insert_ne; [done|]. by apply fs_path_ne.
Qed.

Lemma fs_commit_missing_spec k o c :
  valid_staging_key k = true -> is_object_key o = true ->
  fs_files c !! ("staging/" +:+ k) = None ->
  Fs.commit k o c =
    (match fs_files c !! o with
     | Some _ => Ret tt
     | None => Fail (Io "No such file or directory")
     end, c).
Proof.
  intros Hk Ho Hb. fs_run.
  destruct (fs_files c !! o) as [b'|] eqn:Eo; cbn; rewrite Hb; cbn; [done|]. by rewrite Hb.
Qed.

Global Instance FsCas_laws : CasLaws FsCas.
Proof.
  split; cbn.
  - intros k b c Hk. fs_run. eexists. split; [done|]. split; intros; cbn; fs_lookup; done.
  - intros k b c Hk. by fs_run.
  - intros k o c b Hk Ho Hb. eexists. split; [by apply fs_commit_spec|].
    split; intros; cbn; destruct (fs_files c !! o) as [b'|] eqn:Eo; cbn; fs_lookup; done.
  - intros k o c Hk Ho Hb. rewrite fs_commit_missing_spec by done.
    destruct (fs_files c !! o); [right; by eexists|by left].
  - intros k o c Hk Ho Hb. by rewrite fs_commit_missing_spec by done.
  - intros k c Hk. fs_run. destruct (fs_files c !! _) as [b|] eqn:Eb.
    + eexists. split; [done|]. split; intros; cbn; fs_lookup; done.
    + eexists. split; [done|]. split; intros; cbn; [|done]. by case_decide; subst.
  - intros o c Ho. fs_run. destruct (fs_files c !! o); eauto.
  - done.
  - intros o c Ho. fs_run. destruct (fs_files c !! o) as [b|] eqn:Eo; cbn; rewrite ?Eo.
    + eexists. split; [done|]. split; intros; cbn; fs_lookup; done.
    + eexists. split; [done|]. split; intros; [done|]. by case_decide; subst.
Qed.

Global Instance MemoryCas_laws : CasLaws MemoryCas.
Proof.
  split; cbn.
  - intros k b c Hk. unfold Mem.stage. rewrite Hk.
    eexists. split; [done|]. split; intros; cbn; fs_lookup; done.
  - intros k b c Hk. unfold Mem.stage. by rewrite Hk.
  - intros k o c b Hk Ho Hb. unfold Mem.commit. rewrite Hb. cbn. eexists. split; [done|].
    split; intros; cbn; destruct (mem_objects c !! o) as [b'|] eqn:Eo; cbn; fs_lookup; done.
  - intros k o c Hk Ho Hb. unfold Mem.commit. rewrite Hb. by left.
  - intros k o c Hk Ho Hb. unfold Mem.commit. by rewrite Hb.
  - intros k c Hk. eexists. split; [done|]. split; intros; cbn; fs_lookup; done.
  - intros o c Ho. unfold Mem.read. destruct (mem_objects c !! o); eauto.
  - done.
  - intros o c Ho. eexists. split; [done|]. split; intros; cbn; fs_lookup; done.
Qed.

(** ** Clients of the contract *)

(** A request to a backend, and what the caller sees of the answer. *)
Inductive CasOp : Type :=
  | OpStage (k : string) (b : bytes)
  | OpCommit (k o : string)
  | OpDiscard (k : string)
  | OpRead (o : string)
  | OpExists (o : string)
  | OpDelete (o : string).

Inductive CasObs : Type := ObsUnit | ObsBytes (b : bytes) | ObsBool (b : bool) | ObsError | ObsPanic.

Definition observe {A} (f : A -> CasObs) (o : outcome A) : CasObs :=
  match o with Ret a => f a | Fail _ => ObsError | Panic => ObsPanic end.

Definition cas_step {C} `{CasBackend C} (op : CasOp) (c : C) : CasObs * C :=
  match op with
  | OpStage k b => let '(r, c') := stage k b c in (observe (fun _ => ObsUnit) r, c')
  | OpCommit k o => let '(r, c') := commit k o c in (observe (fun _ => ObsUnit) r, c')
  | OpDiscard k => let '(r, c') := discard_staging k c in (observe (fun _ => ObsUnit) r, c')
  | OpRead o => let '(r, c') := read o c in (observe ObsBytes r, c')
  | OpExists o => let '(r, c') := exists_ o c in (observe ObsBool r, c')
  | OpDelete o => let '(r, c') := delete o c in (observe (fun _ => ObsUnit) r, c')
  end.

Fixpoint cas_run {C} `{CasBackend C} (ops : list CasOp) (c : C) : list CasObs * C :=
  match ops with
  | [] => ([], c)
  | op :: ops' =>
      let '(o, c') := cas_step op c in
      let '(os, c'') := cas_run ops' c' in (o :: os, c'')
  end.

Section clients.
  Context {C : Type} `{CasBackend C} `{!CasView C} `{!CasLaws C}.

(** The callers' discipline: keys of the right shape, and a commit only of a
    key that is staged. *)
Definition op_allowed (c : C) (op : CasOp) : Prop :=
  match op with
  | OpStage k _ | OpDiscard k => valid_staging_key k = true
  | OpCommit k o => valid_staging_key k = true /\ is_object_key o = true /\ is_Some (staged c k)
  | OpRead o | OpExists o | OpDelete o => is_object_key o = true
  end.

Fixpoint ops_allowed (ops : list CasOp) (c : C) : Prop :=
  match ops with
  | [] => True
  | op :: ops' => op_allowed c op /\ ops_allowed ops' (snd (cas_step op c))
  end.

(** What the contract says each request does to the two areas. *)
Definition spec_staged (op : CasOp) (f : string -> option bytes) (k : string) : option bytes :=
  match op with
  | OpStage k' b => if decide (k = k') then Some b else f k
  | OpCommit k' _ | OpDiscard k' => if decide (k = k') then None else f k
  | _ => f k
  end.

Definition spec_stored (op : CasOp) (f g : string -> option bytes) (o : string) : option bytes :=
  match op with
  | OpCommit k o' => if decide (o = o') then (match g o' with Some b => Some b | None => f k end) else g o
  | OpDelete o' => if decide (o = o') then None else g o
  | _ => g o
  end.

Definition spec_obs (op : CasOp) (g : string -> option bytes) : CasObs :=
  match op with
  | OpStage _ _ | OpCommit _ _ | OpDiscard _ | OpDelete _ => ObsUnit
  | OpRead o => match g o with Some b => ObsBytes b | None => ObsError end
  | OpExists o => ObsBool (bool_decide (is_Some (g o)))
  end.

Lemma cas_step_spec op c :
  op_allowed c op ->
  fst (cas_step op c) = spec_obs op (stored c) /\
  (forall k, valid_staging_key k = true -> staged (snd (cas_step op c)) k = spec_staged op (staged c) k) /\
  (forall o, is_object_key o = true -> stored (snd (cas_step op c)) o = spec_stored op (staged c) (stored c) o).
Proof.
  destruct op as [k b|k o|k|o|o|o]; cbn.
  - intros Hk. destruct (law_stage k b c Hk) as (c' & -> & H1 & H2). auto.
  - intros (Hk & Ho & b & Hb). destruct (law_commit k o c b Hk Ho Hb) as (c' & -> & H1 & H2).
    split; [done|]. split; [done|]. cbn. intros o' Ho'. rewrite H2, Hb by done.
    case_decide; [|done]. by destruct (stored c o).
  - intros Hk. destruct (law_discard k c Hk) as (c' & -> & H1 & H2). auto.
  - intros Ho. pose proof (law_read o c Ho) as Hr.
    destruct (stored c o); [rewrite Hr|destruct Hr as (e & ->)]; auto.
  - intros Ho. by rewrite (law_exists o c Ho).
  - intros Ho. destruct (law_delete o c Ho) as (c' & -> & H1 & H2). auto.
Qed.
End clients.

(** *** The reference store

    Two maps, of what is staged and of what is stored, and what each request
    answers and does to them: no paths, no renames, no copies. *)
Definition Contents : Type := string -> option bytes.

Fixpoint reference_run (ops : list CasOp) (f g : Contents) : list CasObs * Contents * Contents :=
  match ops with
  | [] => ([], f, g)
  | op :: ops' =>
      let '(answers, f', g') := reference_run ops' (spec_staged op f) (spec_stored op f g) in (spec_obs op g :: answers, f', g')
  end.

(** The callers' discipline, read off the reference. *)
Fixpoint disciplined (ops : list CasOp) (f : Contents) : Prop :=
  match ops with
  | [] => True
  | op :: ops' =>
      match op with
      | OpStage k _ | OpDiscard k => valid_staging_key k = true
      | OpCommit k o => valid_staging_key k = true /\ is_object_key o = true /\ is_Some (f k)
      | OpRead o | OpExists o | OpDelete o => is_object_key o = true
      end /\ disciplined ops' (spec_staged op f)
  end.

(** The store holds these contents, under the keys of the right shape. *)
Definition holds {C} `{CasView C} (c : C) (f g : Contents) : Prop :=
  (forall k, valid_staging_key k = true -> staged c k = f k) /\ (forall o, is_object_key o = true -> stored c o = g o).

(** One request to a backend that keeps the contract, against the reference. *)
Lemma cas_step_holds {C} `{CasLaws C} op (c : C) f g : holds c f g -> op_allowed c op ->
  fst (cas_step op c) = spec_obs op g /\ holds (snd (cas_step op c)) (spec_staged op f) (spec_stored op f g).
Proof.
  intros [Hs Ho] Ha. destruct (cas_step_spec op c Ha) as (Hc1 & Hc2 & Hc3). split; [|split].
  - rewrite Hc1. destruct op; cbn in *; try done; by rewrite Ho.
  - intros k Hk. rewrite Hc2 by done. destruct op; cbn; by rewrite ?(Hs k Hk).
  - intros o Hk. rewrite Hc3 by done. destruct op; cbn in *; try (by rewrite (Ho o Hk)).
    destruct Ha as (? & ? & ?). case_decide; [by rewrite Ho, Hs|by apply Ho].
Qed.

(** Every backend that keeps the contract refines the reference. *)
Lemma refines_reference {C} `{CasLaws C} ops : forall (c : C) f g, holds c f g -> disciplined ops f ->
  fst (cas_run ops c) = fst (fst (reference_run ops f g)) /\
  holds (snd (cas_run ops c)) (snd (fst (reference_run ops f g))) (snd (reference_run ops f g)).
Proof.
  induction ops as [|op ops IH]; intros c f g Hh; cbn [disciplined cas_run reference_run]; [done|]. intros [Ha Hr].
  assert (Hop : op_allowed c op).
  { destruct op; cbn in *; try done. destruct Ha as (? & ? & ?). split; [done|]. split; [done|]. by rewrite (proj1 Hh). }
  destruct (cas_step_holds op c f g Hh Hop) as [Ho Hh']. destruct (cas_step op c) as [o1 c1]. cbn [fst snd] in *.
  destruct (IH c1 _ _ Hh' Hr) as [Hos Hes]. destruct (cas_run ops c1) as [os c2].
  destruct (reference_run ops _ _) as [[answers f'] g']. cbn [fst snd] in *. by subst.
Qed.

Lemma read_stored {C} `{CasLaws C} o (c : C) b :
  is_object_key o = true -> stored c o = Some b -> read o c = (Ret b, c).
Proof. intros Ho Hb. pose proof (law_read o c Ho) as Hr. by rewrite Hb in Hr. Qed.

(** ** Properties *)

(** C33. Refinement: the filesystem backend, whatever [rename] does, and the
    in-memory one both refine the reference store.  Started with the same
    contents, on every disciplined sequence of requests (keys of the right shape,
    a commit of a key that is staged) each gives exactly the reference's answers
    and ends with exactly its contents: staging replaces, a commit stores the
    staged bytes unless the object is there and unstages either way, a read
    returns what is stored. *)
Theorem backends_equivalent ops (fs : FsCas) (mem : MemoryCas) f g :
  holds fs f g -> holds mem f g -> disciplined ops f ->
  let '(answers, f', g') := reference_run ops f g in
  (fst (cas_run ops fs) = answers /\ holds (snd (cas_run ops fs)) f' g') /\
  (fst (cas_run ops mem) = answers /\ holds (snd (cas_run ops mem)) f' g').
Proof.
  intros Hf Hm Hd. pose proof (refines_reference ops fs f g Hf Hd) as H1. pose proof (refines_reference ops mem f g Hm Hd) as H2.
  by destruct (reference_run ops f g) as [[answers f'] g'].
Qed.

(** Put-if-absent: an object that is stored keeps its bytes through every
    disciplined sequence of requests that does not delete it, re-commits of
    the same key with other bytes included. *)
Theorem committed_objects_immutable {C} `{CasLaws C} ops (c : C) o b :
  is_object_key o = true -> stored c o = Some b ->
  ops_allowed ops c -> ~ In (OpDelete o) ops ->
  stored (snd (cas_run ops c)) o = Some b.
Proof.
  intros Ho. revert c. induction ops as [|op ops IH]; intros c Hb; cbn; [done|].
  intros [Ha Hr] Hn. destruct (cas_step_spec op c Ha) as (_ & _ & Hs). specialize (Hs o Ho).
  destruct (cas_step op c) as [o1 c1]. cbn in *.
  specialize (IH c1). destruct (cas_run ops c1). cbn in *. apply IH; [|done|naive_solver].
  rewrite Hs. destruct op; cbn; rewrite ?Hb; try done.
  - case_decide; [subst; by rewrite Hb|done].
  - rewrite decide_False; [done|]. intros ->. naive_solver.
Qed.

Section default_methods.
  Context {C : Type} `{CasBackend C} `{!CasView C} `{!CasLaws C}.
  Context {SHA : Sha256} {HEX : HexCodec}.

(** A range read of a stored object returns the bytes of the range that exist,
    the empty vector past the end, as long as [offset + len] fits in 64 bits. *)
Theorem read_range_spec o offset l (c : C) b :
  is_object_key o = true -> stored c o = Some b ->
  0 <= offset -> 0 <= l -> offset + l < 2 ^ 64 ->
  read_range o offset l c = (Ret (take (Z.to_nat l) (drop (Z.to_nat offset) b)), c).
Proof.
  intros Ho Hb H0 H1 Hlt. unfold read_range. op_unfold. rewrite (read_stored o c b) by done.
  destruct (len b <=? offset) eqn:E.
  - apply Z.leb_le in E. unfold len in E. rewrite drop_ge by lia. by rewrite take_nil.
  - apply Z.leb_gt in E. unfold u64_wrap, wrap. rewrite Z.mod_small by lia.
    rewrite slice_some by lia. do 2 f_equal.
    destruct (Z.min_spec (offset + l) (len b)) as [[Hm ->]|[Hm ->]]; [f_equal; lia|].
    unfold len in *. rewrite !take_ge; [done|rewrite length_drop; lia..].
Qed.

(** A range whose end wraps around 2^64 below a start inside the object makes
    the slice panic. *)
Theorem read_range_wraps o (c : C) b :
  is_object_key o = true -> stored c o = Some b -> 1 < len b ->
  fst (read_range o 1 (2 ^ 64 - 1) c) = Panic.
Proof.
  intros Ho Hb Hl. unfold read_range. op_unfold. rewrite (read_stored o c b) by done.
  rewrite (proj2 (Z.leb_gt (len b) 1)) by lia. unfold u64_wrap, wrap. cbn [fst].
  change ((1 + (2 ^ 64 - 1)) mod 2 ^ 64) with 0. rewrite Z.min_l by lia.
  by rewrite (proj2 (slice_none b 1 0)) by lia.
Qed.

(** The metadata of an object is the size and digest of its contents, and
    [None] for a key that holds nothing. *)
Theorem metadata_spec o (c : C) :
  is_object_key o = true ->
  metadata o c = (Ret ((fun b => (len b, sha256_hex b)) <$> stored c o), c).
Proof.
  intros Ho. unfold metadata. op_unfold. rewrite law_exists by done.
  pose proof (law_read o c Ho) as Hr. destruct (stored c o) as [b|]; cbn; [by rewrite Hr|done].
Qed.

(** The source's conformance suite passes on every backend that keeps the
    contract, unless the suite's key already holds other bytes; the key is
    gone afterwards. *)
Theorem conformance_suite_passes `{UuidDisplay} (c : C) :
  let key := object_key 42%N (sha256_hex conformance_payload) in
  default conformance_payload (stored c key) = conformance_payload ->
  exists c', conformance_suite c = (Ret tt, c') /\ stored c' key = None.
Proof.
  intros key Hk. assert (Ho : is_object_key key = true) by apply object_key_is_object.
  unfold conformance_suite. change (object_key 42%N _) with key. clearbody key.
  unfold verify_digest. rewrite String.eqb_refl. unfold op_assert. op_unfold.
  destruct (law_stage "conf-1" conformance_payload c eq_refl) as (c1 & -> & S1 & T1).
  specialize (S1 "conf-1" eq_refl). rewrite decide_True in S1 by done.
  destruct (law_commit "conf-1" key c1 _ eq_refl Ho S1) as (c2 & -> & S2 & T2).
  specialize (T2 key Ho). rewrite decide_True, (T1 key Ho), Hk in T2 by done.
  rewrite law_exists, T2 by done. rewrite bool_decide_true by by eexists.
  rewrite (read_stored key c2 _ Ho T2), bool_decide_true by done.
  rewrite (read_range_spec key 0 4 c2 _ Ho T2) by (done || vm_compute; done).
  rewrite bool_decide_true by done.
  rewrite (metadata_spec key c2 Ho), T2. cbn [fmap option_fmap option_map].
  rewrite Z.eqb_refl, String.eqb_refl.
  destruct (law_stage "conf-2" conformance_payload c2 eq_refl) as (c3 & -> & S3 & T3).
  specialize (S3 "conf-2" eq_refl). rewrite decide_True in S3 by done.
  destruct (law_commit "conf-2" key c3 _ eq_refl Ho S3) as (c4 & -> & S4 & T4).
  specialize (T4 key Ho). rewrite decide_True, (T3 key Ho), T2 in T4 by done. cbn [default] in T4.
  rewrite (read_stored key c4 _ Ho T4), bool_decide_true by done.
  destruct (law_delete key c4 Ho) as (c5 & -> & _ & T5).
  specialize (T5 key Ho). rewrite decide_True in T5 by done.
  rewrite law_exists, T5 by done. exists c5. split; [|done].
  by rewrite bool_decide_false by (by intros [? ?]).
Qed.
End default_methods.

(** ** Witnesses *)

(** A concrete display of identifiers: their decimal form. *)
Module ReferenceUuid.

Definition display : UuidDisplay := fun u => pretty u.

Fixpoint digits_only (s : string) : bool :=
  match s with
  | EmptyString => true
  | String c s' => (is_ascii_digit c) && digits_only s'
  end.

Lemma digits_only_app a b : digits_only (a +:+ b) = digits_only a && digits_only b.
Proof.
  induction a as [|c a IH]; [done|].
  change (String c a +:+ b) with (String c (a +:+ b)). cbn [digits_only]. by rewrite IH, andb_assoc.
Qed.

Lemma pretty_N_go_digits (n : N) s : digits_only s = true -> digits_only (pretty_N_go n s) = true.
Proof.
  revert s. induction (N.lt_wf_0 n) as [n _ IH]. intros s Hs.
  destruct (decide (0 < n)%N) as [Hn|Hn].
  - rewrite pretty_N_go_step by done. apply IH.
    + apply N.div_lt; lia.
    + cbn [digits_only]. rewrite Hs, andb_true_r.
      assert (Hd : (n `mod` 10 < 10)%N) by (apply N.mod_lt; lia).
      unfold pretty_N_char. destruct (n `mod` 10)%N as [|[[[|[]|]|[[]|[]|]|]|[[|[]|]|[[]|[]|]|]|]]; done || lia.
  - replace n with 0%N by lia. by rewrite pretty_N_go_0.
Qed.

Lemma pretty_digits (n : N) : digits_only (pretty n) = true.
Proof.
  unfold pretty, pretty_N. case_decide; [done|]. by apply pretty_N_go_digits.
Qed.

Lemma digits_no_slash s p : digits_only s = true -> digits_only p = false -> str_contains p s = false.
Proof.
  intros Hs Hp. destruct (str_contains p s) eqn:E; [|done].
  apply str_contains_spec in E as (a & b & ->).
  rewrite !digits_only_app, Hp, andb_false_r in Hs. done.
Qed.

Global Instance laws : @UuidLaws display.
Proof.
  split.
  - intros u v H. by apply (inj pretty) in H.
  - intros u. split; by apply digits_no_slash; [apply pretty_digits|].
Qed.
End ReferenceUuid.

Section witnesses.
  Local Existing Instance ReferenceHash.sha.
  Local Existing Instance ReferenceHash.hex.
  Local Existing Instance ReferenceUuid.display.

Definition sample_ops : list CasOp :=
  [OpStage "a" [x01; x02]; OpCommit "a" "objects/1/f"; OpStage "b" [x03];
   OpCommit "b" "objects/1/f"; OpRead "objects/1/f"; OpExists "objects/2/f"].

Definition empty_fs : FsCas := mkFsCas ∅ true.
Definition empty_mem : MemoryCas := mkMemoryCas ∅ ∅.
Definition one_object : FsCas := mkFsCas {[ "objects/1/f"%string := [x01; x02] ]} false.

Definition nothing : Contents := fun _ => None.

Lemma backends_equivalent_witness :
  fst (cas_run sample_ops empty_fs) = [ObsUnit; ObsUnit; ObsUnit; ObsUnit; ObsBytes [x01; x02]; ObsBool false] /\
  fst (cas_run sample_ops empty_mem) = [ObsUnit; ObsUnit; ObsUnit; ObsUnit; ObsBytes [x01; x02]; ObsBool false].
Proof.
  assert (H1 : holds empty_fs nothing nothing) by (split; intros; reflexivity).
  assert (H2 : holds empty_mem nothing nothing) by (split; intros; reflexivity).
  assert (Hd : disciplined sample_ops nothing) by (vm_compute; repeat split; eauto).
  pose proof (backends_equivalent sample_ops empty_fs empty_mem nothing nothing H1 H2 Hd) as H.
  destruct (reference_run sample_ops nothing nothing) as [[answers f'] g'] eqn:E. destruct H as [[-> _] [-> _]].
  assert (Ea : answers = fst (fst (reference_run sample_ops nothing nothing))) by (by rewrite E). rewrite Ea. split; vm_compute; reflexivity.
Defined.

Lemma committed_objects_immutable_witness :
  stored (snd (cas_run [OpStage "b" [x03]; OpCommit "b" "objects/1/f"] one_object)) "objects/1/f" = Some [x01; x02].
Proof.
  apply (committed_objects_immutable [OpStage "b" [x03]; OpCommit "b" "objects/1/f"] one_object).
  - reflexivity.
  - reflexivity.
  - vm_compute. repeat split; eauto.
  - intros [H|[H|[]]]; discriminate H.
Defined.

Lemma read_range_spec_witness :
  read_range "objects/1/f" 1 5 one_object = (Ret [x02], one_object).
Proof. exact (read_range_spec "objects/1/f" 1 5 one_object [x01; x02] eq_refl eq_refl ltac:(lia) ltac:(lia) ltac:(lia)). Defined.

Lemma read_range_wraps_witness : fst (read_range "objects/1/f" 1 (2 ^ 64 - 1) one_object) = Panic.
Proof. apply (read_range_wraps "objects/1/f" one_object [x01; x02]); [reflexivity|reflexivity|vm_compute; reflexivity]. Defined.

Lemma metadata_spec_witness :
  metadata "objects/1/f" one_object = (Ret (Some (2, sha256_hex [x01; x02])), one_object).
Proof. exact (metadata_spec "objects/1/f" one_object eq_refl). Defined.

Lemma conformance_suite_passes_witness :
  exists c', conformance_suite empty_fs = (Ret tt, c') /\
             stored c' (object_key 42%N (sha256_hex conformance_payload)) = None.
Proof. apply (conformance_suite_passes empty_fs). reflexivity. Defined.
End witnesses.
