(* ===== verification/Schema.v ===== *)
(** * The server's state ([migrations/*.sql])

    The PostgreSQL tables the server keeps, one [Record] per table, and the
    SQL statements the sources issue, as operations on a [Srv]: the tables, the
    object store, the sequence behind [BIGSERIAL] columns, and the outside
    supplies of fresh identifiers and of the clock.  A table is the list of its
    rows in insertion order; a primary key or unique constraint appears as the
    key of the [insert_on_conflict] and [upsert] statements. *)

From S2P Require Import Prelude Machine Text Hash Cas.
From Stdlib Require Import Strings.Byte.

Open Scope Z_scope.

(** ** JSON ([serde_json::Value]) *)

#[warnings="-register-all"] Inductive Json : Type :=
  | JNull
  | JBool (b : bool)
  | JInt (z : Z)
  | JFloat (x : f64)
  | JStr (s : string)
  | JArr (l : list Json)
  | JObj (l : list (string * Json)).

(** [v.get(key)], [v.as_str()], [v.as_i64()], [v.as_bool()], [v.as_array()] *)
Fixpoint assoc {A} (k : string) (l : list (string * A)) : option A :=
  match l with
  | [] => None
  | (k', v) :: l' => if String.eqb k k' then Some v else assoc k l'
  end.
Definition json_get (k : string) (j : Json) : option Json :=
  match j with JObj l => assoc k l | _ => None end.
Definition json_str (j : Json) : option string := match j with JStr s => Some s | _ => None end.
Definition json_int (j : Json) : option Z := match j with JInt z => Some z | _ => None end.
Definition json_bool (j : Json) : option bool := match j with JBool b => Some b | _ => None end.
Definition json_arr (j : Json) : option (list Json) := match j with JArr l => Some l | _ => None end.
Definition json_get_str (k : string) (j : Json) : option string := v ← json_get k j; json_str v.

(** [serde_json::Value::to_string] *)
Class JsonText : Type := json_to_string : Json -> string.

Definition Time : Type := Z.

(** ** Rows *)

Record Tenant := mkTenant {
  tn_id : Uuid; tn_slug : string; tn_name : string; tn_status : string; tn_created_at : Time }.

Record Artifact := mkArtifact {
  art_id : Uuid; art_tenant : Uuid; art_seq : Z; art_sha256 : bytes; art_size_bytes : Z;
  art_class : string; art_storage_state : string; art_object_key : string;
  art_first_committed_at : Time; art_scope : string; art_provenance : Json }.

Record UploadSession := mkUploadSession {
  us_id : Uuid; us_tenant : Uuid; us_announced_sha256 : bytes; us_announced_size : Z;
  us_staging_key : string; us_state : string; us_created_at : Time }.

Record Occurrence := mkOccurrence {
  oc_id : Uuid; oc_tenant : Uuid; oc_host_name : string; oc_agent_id : Uuid; oc_boot_id : Uuid;
  oc_agent_sequence : Z; oc_artifact_id : option Uuid; oc_artifact_sha256 : option bytes;
  oc_event_type : string; oc_capture_reason : string; oc_observed_at : Time; oc_received_at : Time;
  oc_path : option string; oc_file_size : option Z; oc_file_mtime : option Time;
  oc_process_evidence : option Json }.

Record CaptureAttempt := mkCaptureAttempt {
  ca_id : Uuid; ca_tenant : Uuid; ca_host_name : string; ca_agent_id : Uuid; ca_observed_at : Time;
  ca_capture_reason : string; ca_terminal_outcome : string; ca_artifact_sha256 : option bytes;
  ca_path : option string; ca_detail_code : option string; ca_detail : Json }.

Record Rule := mkRule {
  ru_id : Uuid; ru_tenant : Uuid; ru_namespace : string; ru_stable_id : string; ru_source : string;
  ru_state : string; ru_created_at : Time; ru_updated_at : Time }.

Record RuleBundle := mkRuleBundle {
  rb_id : Uuid; rb_tenant : Uuid; rb_digest : string; rb_scope : string; rb_engine_version : string;
  rb_active : bool; rb_created_at : Time }.

Record RuleBundleRule := mkRuleBundleRule {
  rbr_bundle_id : Uuid; rbr_rule_id : Uuid; rbr_position : Z }.

Record Hunt := mkHunt {
  hu_id : Uuid; hu_tenant : Uuid; hu_kind : string; hu_bundle_id : Uuid; hu_bundle_digest : string;
  hu_state : string; hu_corpus_watermark : option Z; hu_planned_artifacts : Z; hu_scanned : Z;
  hu_cache_hits : Z; hu_matched : Z; hu_timed_out : Z; hu_failed : Z; hu_error : option string;
  hu_created_at : Time; hu_started_at : option Time; hu_completed_at : option Time }.

Record HuntMatch := mkHuntMatch {
  hm_hunt_id : Uuid; hm_tenant : Uuid; hm_artifact_id : Uuid; hm_rule_id : string;
  hm_engine_version : string; hm_match_summary : Json; hm_created_at : Time }.

Record HuntJob := mkHuntJob {
  hj_hunt_id : Uuid; hj_tenant : Uuid; hj_enqueued_at : Time; hj_claimed_at : option Time;
  hj_claimed_by : option string; hj_finished_at : option Time; hj_last_error : option string }.

Record ScanCache := mkScanCache {
  sc_tenant : Uuid; sc_artifact_sha256 : bytes; sc_bundle_digest : string; sc_engine_version : string;
  sc_config_digest : string; sc_status : string; sc_matched_rule_ids : list string;
  sc_duration_ms : Z; sc_error_code : option string; sc_created_at : Time }.

Record Agent := mkAgent {
  ag_id : Uuid; ag_tenant : Uuid; ag_host_name : string; ag_token_sha256 : bytes; ag_version : string;
  ag_enrolled_at : Time; ag_last_heartbeat_at : option Time; ag_last_upload_at : option Time; ag_policy_digest : option string;
  ag_baseline_state : option string; ag_baseline_percent : option f64; ag_queue_depth : option Z; ag_spool_bytes : option Z;
  ag_oldest_pending_secs : option Z; ag_sensor : option string; ag_outcome_counts : Json; ag_clock_offset_ms : option Z }.

Record EnrollmentToken := mkEnrollmentToken {
  et_token_sha256 : bytes; et_tenant : Uuid; et_label : string; et_created_at : Time;
  et_expires_at : option Time; et_consumed_by : option Uuid; et_consumed_at : option Time }.

Record SimFeature := mkSimFeature {
  sf_tenant : Uuid; sf_artifact_id : Uuid; sf_family : string; sf_name : string; sf_version : string;
  sf_value : Json; sf_created_at : Time }.

Record SimEdge := mkSimEdge {
  se_tenant : Uuid; se_src : Uuid; se_dst : Uuid; se_edge_type : string; se_model_version : string;
  se_score : f64; se_evidence : Json; se_created_at : Time }.

Record VariantGroup := mkVariantGroup { vg_id : Uuid; vg_tenant : Uuid; vg_created_at : Time }.

Record VariantMember := mkVariantMember { vm_tenant : Uuid; vm_group_id : Uuid; vm_artifact_id : Uuid }.

Record SimFunction := mkSimFunction {
  fn_tenant : Uuid; fn_artifact_id : Uuid; fn_offset : Z; fn_size : Z; fn_name : option string;
  fn_insn_count : Z; fn_sig : bytes; fn_version : string; fn_created_at : Time }.

Record LshBand := mkLshBand {
  lb_tenant : Uuid; lb_artifact_id : Uuid; lb_band_idx : Z; lb_band_key : string }.

Record FunctionBand := mkFunctionBand {
  fb_tenant : Uuid; fb_artifact_id : Uuid; fb_version : string; fb_band_idx : Z; fb_band_key : string;
  fb_func_offset : Z }.

Record AnalysisReceiptRow := mkAnalysisReceiptRow {
  ar_id : string; ar_tenant : Uuid; ar_artifact_id : Uuid; ar_analyzer_name : string;
  ar_analyzer_version : string; ar_model_version : string; ar_config_digest : string;
  ar_status : string; ar_body : Json; ar_created_at : Time }.

Record CleanupLog := mkCleanupLog {
  cl_tenant : Uuid; cl_artifact_id : Uuid; cl_dry_run : bool; cl_counts : Json; cl_created_at : Time }.

Record Opinion := mkOpinion {
  op_id : Uuid; op_tenant : Uuid; op_artifact_id : Uuid; op_opinion : string; op_actor : string;
  op_reason : string; op_created_at : Time; op_superseded_by : option Uuid }.

Record TriggerRule := mkTriggerRule {
  tr_id : Uuid; tr_tenant : Uuid; tr_name : string; tr_condition : string; tr_webhook_url : string;
  tr_hmac_secret : string; tr_enabled : bool; tr_created_at : Time }.

Record Outbox := mkOutbox {
  ob_id : Uuid; ob_tenant : Uuid; ob_trigger_id : Uuid; ob_event : Json; ob_attempts : Z;
  ob_next_attempt_at : Time; ob_delivered_at : option Time; ob_last_error : option string;
  ob_created_at : Time }.

Record Detection := mkDetection {
  de_id : Uuid; de_tenant : Uuid; de_artifact_id : Uuid; de_source : string; de_severity : string;
  de_title : string; de_detail : Json; de_mitre : list string; de_created_at : Time }.

Record AuditEvent := mkAuditEvent {
  ae_id : Uuid; ae_tenant : Uuid; ae_actor : string; ae_action : string; ae_target : string;
  ae_detail : Json; ae_created_at : Time }.

Record IntelIndicator := mkIntelIndicator {
  ii_id : Uuid; ii_tenant : Uuid; ii_source : string; ii_ioc_type : string; ii_value : string; ii_raw : Json;
  ii_first_seen : Time; ii_last_seen : Time }.

Record AnalysisRun := mkAnalysisRun {
  an_run_id : Uuid; an_run_tenant : Uuid; an_run_artifact_id : Uuid; an_run_analyzer_name : string; an_run_analyzer_version : string;
  an_run_image_digest : bytes; an_run_config_digest : bytes; an_run_support_data_digest : bytes; an_run_status : string;
  an_run_started_at : option Time; an_run_completed_at : option Time }.

Record Finding := mkFinding {
  fi_id : Uuid; fi_tenant : Uuid; fi_artifact_id : Uuid; fi_analysis_run_id : Uuid; fi_evidence_type : string; fi_category : string;
  fi_summary : string; fi_detail : Json; fi_created_at : Time }.

Record Reanalysis := mkReanalysis {
  re_id : Uuid; re_tenant : Uuid; re_trigger_kind : string; re_trigger_ref : option string; re_hunt_id : option Uuid;
  re_state : string; re_detail : Json; re_created_at : Time }.

Record MerlinSegment := mkMerlinSegment {
  ms_id : Uuid; ms_tenant : Uuid; ms_host_name : string; ms_segment : string; ms_segment_sha256 : string; ms_schema_version : Z;
  ms_received_at : Time; ms_event_count : Z }.

Record MerlinObservation := mkMerlinObservation {
  mo_id : Uuid; mo_tenant : Uuid; mo_segment_id : Uuid; mo_host_name : string; mo_segment : string; mo_event_id : string;
  mo_boot_id : string; mo_source_seq : option Z; mo_kind : string; mo_process_key : option string;
  mo_artifact_sha256 : option string; mo_observed_at : option Time; mo_received_at : Time; mo_payload : Json }.

(** ** The database *)

Inductive table : Type :=
  | TTenant | TArtifact | TSession | TOccurrence | TAttempt | TRule | TBundle | TBundleRule
  | THunt | TMatch | TJob | TCache | TAgent | TToken | TFeature | TEdge | TGroup | TMember
  | TFunction | TLsh | TFband | TReceipt | TCleanup | TOpinion | TTrigger | TOutbox
  | TDetection | TAudit | TIndicator | TRun | TFinding | TReanalysis | TSegment | TObservation.

Global Instance table_eq_dec : EqDecision table.
Proof. solve_decision. Defined.

Definition row (t : table) : Type :=
  match t with
  | TTenant => Tenant | TArtifact => Artifact | TSession => UploadSession | TOccurrence => Occurrence
  | TAttempt => CaptureAttempt | TRule => Rule | TBundle => RuleBundle | TBundleRule => RuleBundleRule
  | THunt => Hunt | TMatch => HuntMatch | TJob => HuntJob | TCache => ScanCache | TAgent => Agent
  | TToken => EnrollmentToken | TFeature => SimFeature | TEdge => SimEdge | TGroup => VariantGroup
  | TMember => VariantMember | TFunction => SimFunction | TLsh => LshBand | TFband => FunctionBand
  | TReceipt => AnalysisReceiptRow | TCleanup => CleanupLog | TOpinion => Opinion
  | TTrigger => TriggerRule | TOutbox => Outbox | TDetection => Detection | TAudit => AuditEvent
  | TIndicator => IntelIndicator | TRun => AnalysisRun | TFinding => Finding | TReanalysis => Reanalysis
  | TSegment => MerlinSegment | TObservation => MerlinObservation
  end.

Definition Database : Type := forall t : table, list (row t).

Definition db_empty : Database := fun _ => [].

Definition db_set (t : table) (l : list (row t)) (db : Database) : Database := fun t' =>
  match decide (t = t') with
  | left e => eq_rect t (fun t => list (row t)) l t' e
  | right _ => db t'
  end.

(** The server: its database, its object store, the sequence of [BIGSERIAL]
    columns, and the supplies of [Uuid::new_v4] and of [Utc::now]. *)
Record Srv := mkSrv {
  srv_db : Database;
  srv_cas : FsCas;
  srv_seq : Z;
  srv_uuids : nat -> Uuid;
  srv_uuid_next : nat;
  srv_clock : nat -> Time;
  srv_clock_next : nat
}.

Definition rows (t : table) (s : Srv) : list (row t) := srv_db s t.
Definition set_db (db : Database) (s : Srv) : Srv :=
  mkSrv db (srv_cas s) (srv_seq s) (srv_uuids s) (srv_uuid_next s) (srv_clock s) (srv_clock_next s).
Definition set_cas (c : FsCas) (s : Srv) : Srv :=
  mkSrv (srv_db s) c (srv_seq s) (srv_uuids s) (srv_uuid_next s) (srv_clock s) (srv_clock_next s).
Definition set_rows (t : table) (l : list (row t)) (s : Srv) : Srv := set_db (db_set t l (srv_db s)) s.

Global Arguments rows : simpl never.
Global Arguments set_rows : simpl never.

(** ** Statements *)

(** [Uuid::new_v4()] *)
Definition new_v4 : Op Srv Uuid := fun s =>
  (Ret (srv_uuids s (srv_uuid_next s)),
   mkSrv (srv_db s) (srv_cas s) (srv_seq s) (srv_uuids s) (S (srv_uuid_next s)) (srv_clock s) (srv_clock_next s)).

(** [Utc::now()] *)
Definition now : Op Srv Time := fun s =>
  (Ret (srv_clock s (srv_clock_next s)),
   mkSrv (srv_db s) (srv_cas s) (srv_seq s) (srv_uuids s) (srv_uuid_next s) (srv_clock s) (S (srv_clock_next s))).

(** [nextval] of a [BIGSERIAL] column. *)
Definition nextval : Op Srv Z := fun s =>
  (Ret (srv_seq s + 1),
   mkSrv (srv_db s) (srv_cas s) (srv_seq s + 1) (srv_uuids s) (srv_uuid_next s) (srv_clock s) (srv_clock_next s)).

(** A call on the object store. *)
Definition with_cas {A} (m : Op FsCas A) : Op Srv A := fun s =>
  let '(o, c) := m (srv_cas s) in (o, set_cas c s).

(** [SELECT ... WHERE p] *)
Definition select (t : table) (p : row t -> bool) : Op Srv (list (row t)) :=
  gets (fun s => List.filter p (rows t s)).

(** [fetch_optional] *)
Definition select_optional (t : table) (p : row t -> bool) : Op Srv (option (row t)) :=
  gets (fun s => head (List.filter p (rows t s))).

(** [SELECT count( * )] *)
Definition select_count (t : table) (p : row t -> bool) : Op Srv Z :=
  gets (fun s => len (List.filter p (rows t s))).

(** [INSERT] *)
Definition insert_row (t : table) (r : row t) : Op Srv unit :=
  modify (fun s => set_rows t (rows t s ++ [r]) s).

Section conflict.
  Context {K : Type} `{EqDecision K}.

(** [INSERT ... ON CONFLICT (key) DO NOTHING]: whether a row was inserted. *)
Definition insert_on_conflict (t : table) (key : row t -> K) (r : row t) : Op Srv bool := fun s =>
  if existsb (fun x => bool_decide (key x = key r)) (rows t s)
  then (Ret false, s)
  else (Ret true, set_rows t (rows t s ++ [r]) s).

(** [INSERT ... ON CONFLICT (key) DO UPDATE SET ...]: [f] is the assignment. *)
Definition upsert (t : table) (key : row t -> K) (r : row t) (f : row t -> row t) : Op Srv unit := fun s =>
  if existsb (fun x => bool_decide (key x = key r)) (rows t s)
  then (Ret tt, set_rows t (map (fun x => if bool_decide (key x = key r) then f x else x) (rows t s)) s)
  else (Ret tt, set_rows t (rows t s ++ [r]) s).
End conflict.

(** A violated unique constraint is a database error. *)
Definition insert_unique {K} `{EqDecision K} (t : table) (key : row t -> K) (r : row t) : Op Srv unit :=
  fresh ← insert_on_conflict t key r;
  if (fresh : bool) then mret tt else throw (Db "duplicate key value violates unique constraint").

(** [UPDATE ... WHERE p]: the number of rows affected. *)
Definition update_rows (t : table) (p : row t -> bool) (f : row t -> row t) : Op Srv Z := fun s =>
  (Ret (len (List.filter p (rows t s))),
   set_rows t (map (fun x => if p x then f x else x) (rows t s)) s).

(** [DELETE ... WHERE p]: the number of rows affected. *)
Definition delete_rows (t : table) (p : row t -> bool) : Op Srv Z := fun s =>
  (Ret (len (List.filter p (rows t s))),
   set_rows t (List.filter (fun x => negb (p x)) (rows t s)) s).

(** [pool.begin() ... tx.commit()]: the tables roll back unless the body
    returns; identifiers, the clock, the sequence and the object store do not. *)
Definition db_transaction {A} (m : Op Srv A) : Op Srv A :=
  transaction (fun old new => set_db (srv_db old) new) m.

(** ** Lemmas *)

Lemma db_set_eq t l db : db_set t l db t = l.
Proof.
  unfold db_set. destruct (decide (t = t)) as [e|]; [|done].
  by rewrite (proof_irrel e eq_refl).
Qed.

Lemma db_set_ne t t' l db : t <> t' -> db_set t l db t' = db t'.
Proof. intros H. unfold db_set. by destruct (decide (t = t')). Qed.

Lemma rows_set_rows_eq t l s : rows t (set_rows t l s) = l.
Proof. apply db_set_eq. Qed.

Lemma rows_set_rows_ne t t' l s : t <> t' -> rows t' (set_rows t l s) = rows t' s.
Proof. apply db_set_ne. Qed.

(** *** Frames: a statement touches its own table only. *)

Lemma frames_transaction {A} t (m : Op Srv A) : frames (rows t) m -> frames (rows t) (db_transaction m).
Proof.
  intros Hm s. unfold db_transaction, transaction. specialize (Hm s).
  by destruct (m s) as [[a|e|] s'].
Qed.

Lemma frames_with_cas {A} t (m : Op FsCas A) : frames (rows t) (with_cas m).
Proof. intros s. unfold with_cas. by destruct (m (srv_cas s)). Qed.

Section frames_statements.
  Context (t t' : table) (Hne : t <> t').

Lemma frames_insert_row r : frames (rows t') (insert_row t r).
Proof. intros s. by apply rows_set_rows_ne. Qed.

Lemma frames_update_rows p f : frames (rows t') (update_rows t p f).
Proof. intros s. by apply rows_set_rows_ne. Qed.

Lemma frames_delete_rows p : frames (rows t') (delete_rows t p).
Proof. intros s. by apply rows_set_rows_ne. Qed.

Lemma frames_insert_on_conflict `{EqDecision K} (key : row t -> K) r :
  frames (rows t') (insert_on_conflict t key r).
Proof. intros s. unfold insert_on_conflict. case_match; [done|]. by apply rows_set_rows_ne. Qed.

Lemma frames_upsert `{EqDecision K} (key : row t -> K) r f : frames (rows t') (upsert t key r f).
Proof. intros s. unfold upsert. case_match; by apply rows_set_rows_ne. Qed.
End frames_statements.

Ltac frames_step :=
  lazymatch goal with
  | |- frames _ (mbind _ _) => apply frames_bind; [|intros ?]
  | |- frames _ (attempt _) => apply frames_attempt
  | |- frames _ (op_for _ _) => apply frames_for; intros ?
  | |- frames _ (op_fold _ _ _) => apply frames_fold; intros ? ?
  | |- frames _ (or_throw _ _) => apply frames_or_throw
  | |- frames _ (db_transaction _) => apply frames_transaction
  | |- frames _ (with_cas _) => apply frames_with_cas
  | |- frames _ (insert_row _ _) => apply frames_insert_row; discriminate
  | |- frames _ (update_rows _ _ _) => apply frames_update_rows; discriminate
  | |- frames _ (delete_rows _ _) => apply frames_delete_rows; discriminate
  | |- frames _ (insert_on_conflict _ _ _) => apply frames_insert_on_conflict; discriminate
  | |- frames _ (upsert _ _ _ _) => apply frames_upsert; discriminate
  | |- frames _ (match ?x with _ => _ end) => destruct x
  | |- frames _ (let _ := _ in _) => cbv zeta
  | |- frames _ _ => intros ?; reflexivity
  end.

Create HintDb frame.
Ltac frames_tac := repeat first [ solve [ eauto 2 with frame nocore ] | frames_step ].

(** *** Row invariants and keys *)

Definition all_rows (t : table) (P : row t -> Prop) (s : Srv) : Prop := Forall P (rows t s).
Definition unique_key {K} (t : table) (key : row t -> K) (s : Srv) : Prop := NoDup (map key (rows t s)).

Lemma existsb_key {K A} `{EqDecision K} (key : A -> K) (r : A) l :
  existsb (fun x => bool_decide (key x = key r)) l = true <-> key r ∈ map key l.
Proof.
  rewrite existsb_exists, list_elem_of_In, in_map_iff. split.
  - intros (x & Hx & E). apply bool_decide_eq_true in E. eauto.
  - intros (x & E & Hx). exists x. split; [done|]. by apply bool_decide_eq_true.
Qed.

Lemma upsert_new {K} `{EqDecision K} t (key : row t -> K) r f s :
  key r ∉ map key (rows t s) -> upsert t key r f s = (Ret tt, set_rows t (rows t s ++ [r]) s).
Proof.
  intros Hn. unfold upsert. case_match eqn:E; [|done]. by apply existsb_key in E.
Qed.

Lemma upsert_old {K} `{EqDecision K} t (key : row t -> K) r f s :
  key r ∈ map key (rows t s) ->
  upsert t key r f s =
  (Ret tt, set_rows t (map (fun x => if bool_decide (key x = key r) then f x else x) (rows t s)) s).
Proof. intros Hn. unfold upsert. apply existsb_key in Hn. by rewrite Hn. Qed.

Lemma insert_on_conflict_new {K} `{EqDecision K} t (key : row t -> K) r s :
  key r ∉ map key (rows t s) -> insert_on_conflict t key r s = (Ret true, set_rows t (rows t s ++ [r]) s).
Proof.
  intros Hn. unfold insert_on_conflict. case_match eqn:E; [|done]. by apply existsb_key in E.
Qed.

Lemma insert_on_conflict_old {K} `{EqDecision K} t (key : row t -> K) r s :
  key r ∈ map key (rows t s) -> insert_on_conflict t key r s = (Ret false, s).
Proof. intros Hn. unfold insert_on_conflict. apply existsb_key in Hn. by rewrite Hn. Qed.

Section row_invariants.
  Context (t : table).

Lemma keeps_all_rows_insert P r : P r -> keeps (all_rows t P) (insert_row t r).
Proof.
  intros Hr s Hs. unfold all_rows. simpl. rewrite rows_set_rows_eq. apply Forall_app. auto.
Qed.

Lemma keeps_all_rows_update P p f :
  (forall x, p x = true -> P x -> P (f x)) -> keeps (all_rows t P) (update_rows t p f).
Proof.
  intros Hf s Hs. unfold all_rows. simpl. rewrite rows_set_rows_eq.
  apply Forall_map. eapply Forall_impl; [exact Hs|]. intros x Hx. simpl.
  destruct (p x) eqn:E; auto.
Qed.

Lemma keeps_all_rows_delete P p : keeps (all_rows t P) (delete_rows t p).
Proof.
  intros s Hs. unfold all_rows. simpl. rewrite rows_set_rows_eq.
  apply List.Forall_forall. intros x Hx. apply filter_In in Hx as [Hx _].
  unfold all_rows in Hs. rewrite List.Forall_forall in Hs. auto.
Qed.

Lemma keeps_all_rows_insert_on_conflict `{EqDecision K} P (key : row t -> K) r :
  P r -> keeps (all_rows t P) (insert_on_conflict t key r).
Proof.
  intros Hr s Hs. unfold insert_on_conflict. case_match; [done|].
  unfold all_rows. simpl. rewrite rows_set_rows_eq. apply Forall_app. auto.
Qed.

Lemma keeps_all_rows_upsert `{EqDecision K} P (key : row t -> K) r f :
  P r -> (forall x, key x = key r -> P x -> P (f x)) -> keeps (all_rows t P) (upsert t key r f).
Proof.
  intros Hr Hf s Hs. unfold upsert, all_rows. case_match; simpl; rewrite rows_set_rows_eq.
  - apply Forall_map. eapply Forall_impl; [exact Hs|]. intros x Hx. simpl. case_bool_decide; auto.
  - apply Forall_app. auto.
Qed.

Context {K : Type} `{EqDecision K} (key : row t -> K).

Lemma keeps_unique_insert_on_conflict r : keeps (unique_key t key) (insert_on_conflict t key r).
Proof.
  intros s Hs. unfold insert_on_conflict. case_match eqn:E; [done|].
  unfold unique_key in *. simpl. rewrite rows_set_rows_eq, map_app. simpl.
  apply NoDup_app. split; [done|]. split; [|apply NoDup_singleton].
  intros k Hk Hr. apply list_elem_of_singleton in Hr as ->.
  apply existsb_key in Hk. congruence.
Qed.

Lemma keeps_unique_upsert r f :
  (forall x, key x = key r -> key (f x) = key x) -> keeps (unique_key t key) (upsert t key r f).
Proof.
  intros Hf s Hs. unfold upsert. case_match eqn:E; simpl; unfold unique_key in *;
    rewrite rows_set_rows_eq.
  - rewrite map_map. erewrite map_ext; [done|]. intros x. simpl. case_bool_decide; auto.
  - rewrite map_app. apply NoDup_app. split; [done|]. split; [|apply NoDup_singleton].
    intros k Hk Hr. apply list_elem_of_singleton in Hr as ->. apply existsb_key in Hk. congruence.
Qed.

Lemma keeps_unique_update p f :
  (forall x, key (f x) = key x) -> keeps (unique_key t key) (update_rows t p f).
Proof.
  intros Hf s Hs. unfold unique_key in *. simpl. rewrite rows_set_rows_eq, map_map.
  erewrite map_ext; [done|]. intros x. simpl. by destruct (p x).
Qed.

Lemma keeps_unique_delete p : keeps (unique_key t key) (delete_rows t p).
Proof.
  intros s Hs. unfold unique_key in *. simpl. rewrite rows_set_rows_eq.
  induction (rows t s) as [|x l IH]; simpl in *; [done|].
  apply NoDup_cons in Hs as [Hx Hl]. destruct (p x); simpl; [auto|].
  apply NoDup_cons. split; [|auto]. intros Hin. apply Hx.
  rewrite list_elem_of_In, in_map_iff in *. destruct Hin as (y & Hy & Hin).
  apply filter_In in Hin as [Hin _]. eauto.
Qed.
End row_invariants.

(** An invariant of some tables is kept by what frames those tables. *)
Lemma keeps_rows {A} (t : table) (P : list (row t) -> Prop) (m : Op Srv A) :
  frames (rows t) m -> keeps (fun s => P (rows t s)) m.
Proof. apply frames_keeps_view. Qed.

Lemma undo_all_rows t P old new : all_rows t P old -> all_rows t P new -> all_rows t P (set_db (srv_db old) new).
Proof. by intros H _. Qed.

Lemma keeps_db_transaction {A} (I : Srv -> Prop) (m : Op Srv A) :
  (forall old new, I old -> I new -> I (set_db (srv_db old) new)) ->
  keeps I m -> keeps I (db_transaction m).
Proof. apply keeps_transaction. Qed.

(** *** Values an operation yields under an invariant *)

(** From a state of [I], [m] ends in a state of [I], and what it returns
    satisfies [Q]. *)
Definition yields {S A} (I : S -> Prop) (Q : A -> Prop) (m : Op S A) : Prop :=
  forall s, I s -> I (snd (m s)) /\ forall a, fst (m s) = Ret a -> Q a.

Lemma yields_keeps {S A} (I : S -> Prop) Q (m : Op S A) : yields I Q m -> keeps I m.
Proof. intros H s Hs. by apply H. Qed.

Lemma keeps_bind_yields {S A B} (I : S -> Prop) (Q : A -> Prop) (m : Op S A) (f : A -> Op S B) :
  yields I Q m -> (forall a, Q a -> keeps I (f a)) -> keeps I (m ≫= f).
Proof.
  intros Hm Hf s Hs. destruct (Hm s Hs) as [H1 H2]. unfold mbind, op_mbind.
  destruct (m s) as [[a|e|] s']; simpl in *; [by apply Hf; auto|done|done].
Qed.

Lemma yields_bind {S A B} (I : S -> Prop) (Q : A -> Prop) (R : B -> Prop) (m : Op S A) (f : A -> Op S B) :
  yields I Q m -> (forall a, Q a -> yields I R (f a)) -> yields I R (m ≫= f).
Proof.
  intros Hm Hf s Hs. destruct (Hm s Hs) as [H1 H2]. unfold mbind, op_mbind.
  destruct (m s) as [[a|e|] s']; simpl in *; [by apply Hf; auto|done|done].
Qed.

Lemma yields_mret {S A} (I : S -> Prop) (Q : A -> Prop) (a : A) : Q a -> yields I Q (mret a : Op S A).
Proof. intros Ha s Hs. split; [done|]. by intros b [= <-]. Qed.

Lemma yields_throw {S A} (I : S -> Prop) (Q : A -> Prop) e : yields I Q (throw e : Op S A).
Proof. by intros s Hs. Qed.

Lemma keeps_yields {S A} (I : S -> Prop) (m : Op S A) : keeps I m -> yields I (fun _ => True) m.
Proof. intros H s Hs. split; [by apply H|done]. Qed.

(** Identifiers still to come differ from [b]. *)
Definition fresh_for (b : Uuid) (s : Srv) : Prop := forall n, (srv_uuid_next s <= n)%nat -> srv_uuids s n <> b.

Lemma new_v4_fresh (I : Srv -> Prop) b :
  (forall s, I s -> fresh_for b s) -> keeps I new_v4 -> yields I (fun a => a <> b) new_v4.
Proof.
  intros Hf Hk s Hs. split; [by apply Hk|]. intros a [= <-]. by apply Hf.
Qed.

Lemma fresh_for_db b db s : fresh_for b (set_db db s) <-> fresh_for b s.
Proof. done. Qed.

Lemma fresh_for_rows b t l s : fresh_for b (set_rows t l s) <-> fresh_for b s.
Proof. done. Qed.

Lemma keeps_unique_frame {A K} t (key : row t -> K) (m : Op Srv A) :
  frames (rows t) m -> keeps (unique_key t key) m.
Proof. apply (frames_keeps_view (rows t) (fun l => NoDup (map key l))). Qed.

Lemma keeps_all_rows_frame {A} t P (m : Op Srv A) : frames (rows t) m -> keeps (all_rows t P) m.
Proof. apply (frames_keeps_view (rows t) (Forall P)). Qed.

(** *** Unique constraints *)

Lemma keeps_insert_unique {K} `{EqDecision K} (I : Srv -> Prop) t (key : row t -> K) r :
  keeps I (insert_on_conflict t key r) -> keeps I (insert_unique t key r).
Proof. intros H0. unfold insert_unique. apply keeps_bind; [done|]. intros []; auto with corpus. Qed.

Lemma frames_insert_unique {K} `{EqDecision K} t t' (key : row t -> K) r :
  t <> t' -> frames (rows t') (insert_unique t key r).
Proof.
  intros Hne. unfold insert_unique. apply frames_bind; [by apply frames_insert_on_conflict|]. by intros [].
Qed.

#[export] Hint Extern 1 (frames _ (insert_unique _ _ _)) => apply frames_insert_unique; discriminate : frame.

(** *** Queries change nothing *)

Lemma keeps_select (I : Srv -> Prop) t p : keeps I (select t p).
Proof. apply keeps_gets. Qed.

Lemma keeps_select_optional (I : Srv -> Prop) t p : keeps I (select_optional t p).
Proof. apply keeps_gets. Qed.

Lemma keeps_select_count (I : Srv -> Prop) t p : keeps I (select_count t p).
Proof. apply keeps_gets. Qed.

#[export] Hint Extern 1 (keeps _ (select _ _)) => (intros ? HI; exact HI) : corpus.
#[export] Hint Extern 1 (keeps _ (select_optional _ _)) => (intros ? HI; exact HI) : corpus.
#[export] Hint Extern 1 (keeps _ (select_count _ _)) => (intros ? HI; exact HI) : corpus.
#[export] Hint Extern 1 (keeps _ (gets _)) => apply keeps_gets : corpus.

(** *** Tables that only grow *)

(** [appends t m]: [m] adds rows to [t] and changes none. *)
Definition appends {A} (t : table) (m : Op Srv A) : Prop :=
  forall s, exists l, rows t (snd (m s)) = rows t s ++ l.

Lemma appends_frame {A} t (m : Op Srv A) : frames (rows t) m -> appends t m.
Proof. intros H s. exists []. by rewrite H, app_nil_r. Qed.

Lemma appends_bind {A B} t (m : Op Srv A) (f : A -> Op Srv B) :
  appends t m -> (forall a, appends t (f a)) -> appends t (m ≫= f).
Proof.
  intros Hm Hf s. unfold mbind, op_mbind. destruct (Hm s) as [l Hl].
  destruct (m s) as [[a|e|] s']; cbn [snd] in *; [|by exists l..].
  destruct (Hf a s') as [l' Hl']. exists (l ++ l'). by rewrite Hl', Hl, app_assoc.
Qed.

Lemma appends_insert_on_conflict {K} `{EqDecision K} t (key : row t -> K) r : appends t (insert_on_conflict t key r).
Proof.
  intros s. unfold insert_on_conflict. case_match; cbn [snd]; [exists []; by rewrite app_nil_r|].
  exists [r]. by rewrite rows_set_rows_eq.
Qed.

Lemma appends_attempt {A} t (m : Op Srv A) : appends t m -> appends t (attempt m).
Proof. intros Hm s. unfold attempt. specialize (Hm s). by destruct (m s) as [[a|e|] s']. Qed.

Lemma appends_for {A} t (l : list A) f : (forall x, appends t (f x)) -> appends t (op_for l f).
Proof. intros Hf. induction l; cbn [op_for]; [by apply appends_frame|]. by apply appends_bind. Qed.

Lemma appends_fold {A B} t (l : list A) (f : B -> A -> Op Srv B) acc :
  (forall b x, appends t (f b x)) -> appends t (op_fold l acc f).
Proof. intros Hf. revert acc. induction l; intros acc; cbn [op_fold]; [by apply appends_frame|]. by apply appends_bind. Qed.

Lemma appends_insert_unique {K} `{EqDecision K} t (key : row t -> K) r : appends t (insert_unique t key r).
Proof.
  apply appends_bind; [apply appends_insert_on_conflict|]. intros []; by apply appends_frame.
Qed.

Create HintDb append.
Ltac appends_step :=
  lazymatch goal with
  | |- appends ?t (insert_on_conflict ?t _ _) => apply appends_insert_on_conflict
  | |- appends ?t (insert_unique ?t _ _) => apply appends_insert_unique
  | |- appends _ (mbind _ _) => apply appends_bind; [|intros ?]
  | |- appends _ (attempt _) => apply appends_attempt
  | |- appends _ (op_for _ _) => apply appends_for; intros ?
  | |- appends _ (op_fold _ _ _) => apply appends_fold; intros ? ?
  | |- appends _ (match ?x with _ => _ end) => destruct x
  | |- appends _ (let _ := _ in _) => cbv zeta
  | |- appends _ _ => apply appends_frame; solve [frames_tac]
  end.
Ltac appends_tac := repeat first [ solve [ eauto 2 with append nocore ] | appends_step ].

(** *** Rows that stay *)

(** A row of [t] that satisfies [P]. *)
Definition has_row (t : table) (P : row t -> Prop) (s : Srv) : Prop := exists r, In r (rows t s) /\ P r.

Lemma keeps_has_row_appends {A} t P (m : Op Srv A) : appends t m -> keeps (has_row t P) m.
Proof. intros Hm s (r & Hr & HP). destruct (Hm s) as [l Hl]. exists r. split; [|done]. rewrite Hl. apply in_app_iff. by left. Qed.

Lemma keeps_has_row_update t P p f : (forall x, P x -> P (f x)) -> keeps (has_row t P) (update_rows t p f).
Proof.
  intros Hf s (r & Hr & HP). unfold has_row. cbn [update_rows snd]. rewrite rows_set_rows_eq.
  exists (if p r then f r else r). split; [|destruct (p r); auto]. apply in_map_iff. eauto.
Qed.

Lemma keeps_has_row_frame {A} t P (m : Op Srv A) : frames (rows t) m -> keeps (has_row t P) m.
Proof. intros Hm. apply keeps_has_row_appends. by apply appends_frame. Qed.

Lemma keeps_unique_insert_unique {K} `{EqDecision K} t (key : row t -> K) r : keeps (unique_key t key) (insert_unique t key r).
Proof. apply keeps_insert_unique, keeps_unique_insert_on_conflict. Qed.

(** *** What an operation leaves alone *)

(** [aside P m]: [m] changes neither the object store nor a table of [P]. *)
Definition agree (P : table -> bool) (s s' : Srv) : Prop :=
  srv_cas s' = srv_cas s /\ forall t, P t = true -> rows t s' = rows t s.

Definition aside {A} (P : table -> bool) (m : Op Srv A) : Prop := forall s, agree P s (snd (m s)).

Lemma agree_refl P s : agree P s s.
Proof. done. Qed.

Lemma agree_trans P s1 s2 s3 : agree P s1 s2 -> agree P s2 s3 -> agree P s1 s3.
Proof. intros [H1 H2] [H3 H4]. split; [congruence|]. intros t Ht. rewrite H4, H2; done. Qed.

Section aside_lemmas.
  Context (P : table -> bool).

Lemma aside_bind {A B} (m : Op Srv A) (f : A -> Op Srv B) : aside P m -> (forall a, aside P (f a)) -> aside P (m ≫= f).
Proof.
  intros Hm Hf s. unfold mbind, op_mbind. specialize (Hm s). destruct (m s) as [[a|e|] s']; [|done..].
  eapply agree_trans; [exact Hm|apply Hf].
Qed.

Lemma aside_attempt {A} (m : Op Srv A) : aside P m -> aside P (attempt m).
Proof. intros Hm s. unfold attempt. specialize (Hm s). by destruct (m s) as [[a|e|] s']. Qed.

Lemma aside_for {A} (l : list A) f : (forall x, aside P (f x)) -> aside P (op_for l f).
Proof. intros Hf. induction l; cbn [op_for]; [by intros s|]. by apply aside_bind. Qed.

Lemma aside_fold {A B} (l : list A) (f : B -> A -> Op Srv B) acc : (forall b x, aside P (f b x)) -> aside P (op_fold l acc f).
Proof. intros Hf. revert acc. induction l; intros acc; cbn [op_fold]; [by intros s|]. by apply aside_bind. Qed.

Lemma aside_transaction {A} (m : Op Srv A) : aside P m -> aside P (db_transaction m).
Proof.
  intros Hm s. unfold db_transaction, transaction. specialize (Hm s). destruct (m s) as [[a|e|] s']; [done|..];
    destruct Hm as [H1 _]; by split.
Qed.

Lemma aside_pure {A} (m : Op Srv A) : (forall s, srv_db (snd (m s)) = srv_db s) -> (forall s, srv_cas (snd (m s)) = srv_cas s) -> aside P m.
Proof. intros H1 H2 s. split; [done|]. intros t _. unfold rows. by rewrite H1. Qed.

Lemma aside_or_throw {A} e (o : option A) : aside P (or_throw e o : Op Srv A).
Proof. by destruct o. Qed.

Context (t : table) (Ht : P t = false).

Lemma agree_set_rows l s : agree P s (set_rows t l s).
Proof. split; [done|]. intros t' Ht'. apply rows_set_rows_ne. congruence. Qed.

Lemma aside_insert_row r : aside P (insert_row t r).
Proof. intros s. apply agree_set_rows. Qed.

Lemma aside_update_rows p f : aside P (update_rows t p f).
Proof. intros s. apply agree_set_rows. Qed.

Lemma aside_delete_rows p : aside P (delete_rows t p).
Proof. intros s. apply agree_set_rows. Qed.

Lemma aside_insert_on_conflict `{EqDecision K} (key : row t -> K) r : aside P (insert_on_conflict t key r).
Proof. intros s. unfold insert_on_conflict. case_match; [done|]. apply agree_set_rows. Qed.

Lemma aside_upsert `{EqDecision K} (key : row t -> K) r f : aside P (upsert t key r f).
Proof. intros s. unfold upsert. case_match; apply agree_set_rows. Qed.

Lemma aside_insert_unique `{EqDecision K} (key : row t -> K) r : aside P (insert_unique t key r).
Proof. apply aside_bind; [apply aside_insert_on_conflict|]. by intros []. Qed.
End aside_lemmas.

Create HintDb aside.
Ltac aside_step :=
  lazymatch goal with
  | |- aside _ (mbind _ _) => apply aside_bind; [|intros ?]
  | |- aside _ (attempt _) => apply aside_attempt
  | |- aside _ (op_for _ _) => apply aside_for; intros ?
  | |- aside _ (op_fold _ _ _) => apply aside_fold; intros ? ?
  | |- aside _ (db_transaction _) => apply aside_transaction
  | |- aside _ (or_throw _ _) => apply aside_or_throw
  | |- aside _ (insert_row _ _) => apply aside_insert_row; reflexivity
  | |- aside _ (update_rows _ _ _) => apply aside_update_rows; reflexivity
  | |- aside _ (delete_rows _ _) => apply aside_delete_rows; reflexivity
  | |- aside _ (insert_on_conflict _ _ _) => apply aside_insert_on_conflict; reflexivity
  | |- aside _ (upsert _ _ _ _) => apply aside_upsert; reflexivity
  | |- aside _ (insert_unique _ _ _) => apply aside_insert_unique; reflexivity
  | |- aside _ (match ?x with _ => _ end) => destruct x
  | |- aside _ (let _ := _ in _) => cbv zeta
  | |- aside _ _ => apply aside_pure; intros ?; reflexivity
  end.
Ltac aside_tac := repeat first [ solve [ eauto 1 with aside nocore ] | aside_step ].

(** ** A concrete server, for evaluation *)
Module ReferenceServer.

Definition empty : Srv := mkSrv db_empty (mkFsCas ∅ false) 0 (fun n => N.of_nat n + 100)%N 0 (fun n => Z.of_nat n) 0.

Lemma fresh_small b s : srv_uuids s = srv_uuids empty -> (b < 100)%N -> fresh_for b s.
Proof. intros Hu Hb n _. rewrite Hu. cbn. lia. Qed.
End ReferenceServer.
