(* ===== verification/Scan.v ===== *)
(** * Scanning ([corpus-core/src/scan.rs], [corpus-core/src/sandbox.rs])

    The YARA-X engine, the sandboxed scanner process and gVisor are operations
    of the classes [YaraX] and [ScannerHost]; what the sources do with their
    answers (statuses, evidence caps, tier policy, decoding of the scanner's
    JSON) is modelled here. *)

From S2P Require Import Prelude Machine Text Hash Cas Schema.
From Stdlib Require Import Strings.Byte Strings.Ascii.

Open Scope Z_scope.

(** ** The engine *)

(** One pattern of a matching rule, with the ranges of its matches. *)
Record YaraPattern := mkYaraPattern { yp_identifier : string; yp_matches : list (Z * Z) }.
Record YaraMatch := mkYaraMatch { ym_identifier : string; ym_namespace : string; ym_patterns : list YaraPattern }.

(** [yara_x]: a compiler holds the (namespace, source) pairs added so far;
    [add_source] answers with its diagnostics when it refuses a source. *)
Class YaraX : Type := {
  YaraRules : Type;
  yara_x_version : string;
  yara_add_source : list (string * string) -> string * string -> option string;
  yara_build : list (string * string) -> YaraRules;
  yara_scan : YaraRules -> bytes -> string + list YaraMatch
}.

Definition ENGINE_VERSION `{YaraX} : string := "yara-x-" +:+ yara_x_version.

(** ** scan.rs *)

Definition SCAN_CONFIG : string := "corpus-scan-config:v1:timeout_ms=10000:max_match_evidence=64".

Definition scan_config_digest `{Sha256, HexCodec} : string := hex_encode (sha256_digest (str_bytes SCAN_CONFIG)).

Record ScanCacheKey := mkScanCacheKey {
  ck_tenant : Uuid; ck_artifact_sha256 : bytes; ck_bundle_digest : string;
  ck_engine_version : string; ck_config_digest : string }.

Global Instance scan_cache_key_eq_dec : EqDecision ScanCacheKey.
Proof. solve_decision. Defined.

(** [ScanCacheKey::new] *)
Definition cache_key `{YaraX, Sha256, HexCodec} (tenant : Uuid) (sha : bytes) (digest : string) : ScanCacheKey :=
  mkScanCacheKey tenant sha digest ENGINE_VERSION scan_config_digest.

Record PatternEvidence := mkPatternEvidence { pe_identifier : string; pe_offset : Z; pe_length : Z }.
Record RuleMatchEvidence := mkRuleMatchEvidence {
  me_rule_id : string; me_namespace : string; me_patterns : list PatternEvidence }.

Inductive ScanStatus : Type := Clean | Matched | Timeout | ScanError.

Global Instance scan_status_eq_dec : EqDecision ScanStatus.
Proof. solve_decision. Defined.

Definition status_str (s : ScanStatus) : string :=
  match s with Clean => "clean" | Matched => "matched" | Timeout => "timeout" | ScanError => "error" end.

Record ScanOutcome := mkScanOutcome {
  so_status : ScanStatus; so_matches : list RuleMatchEvidence; so_duration_ms : Z;
  so_error_code : option string }.

Section scan.
  Context {YX : YaraX}.

Fixpoint compile_from (added sources : list (string * string)) : string + YaraRules :=
  match sources with
  | [] => inr (yara_build added)
  | src :: rest =>
      match yara_add_source added src with
      | Some e => inl e
      | None => compile_from (added ++ [src]) rest
      end
  end.

Definition compile_bundle (sources : list (string * string)) : string + YaraRules := compile_from [] sources.

Definition match_evidence (m : YaraMatch) : RuleMatchEvidence :=
  mkRuleMatchEvidence (ym_identifier m) (ym_namespace m)
    (flat_map (fun pat => map (fun r => mkPatternEvidence (yp_identifier pat) (fst r) (snd r - fst r))
                              (take 64 (yp_matches pat)))
              (ym_patterns m)).

(** [scan_bytes]; [elapsed] is the time the scan took. *)
Definition scan_bytes (rules : YaraRules) (b : bytes) (elapsed : Z) : ScanOutcome :=
  match yara_scan rules b with
  | inr results =>
      let matches := map match_evidence results in
      mkScanOutcome (match matches with [] => Clean | _ => Matched end) matches elapsed None
  | inl msg =>
      mkScanOutcome (if str_contains "timeout" (str_lower msg) then Timeout else ScanError) [] elapsed (Some msg)
  end.
End scan.

(** ** sandbox.rs *)

Inductive ScannerTier : Type := InProcess | Subprocess | Gvisor.

Global Instance scanner_tier_eq_dec : EqDecision ScannerTier.
Proof. solve_decision. Defined.

(** The process environment and the two isolated scanners: each takes the rule
    sources and the sample's path and bytes, and answers with the scanner's
    JSON or an error text. *)
Class ScannerHost : Type := {
  env_scanner_tier : option string;
  env_min_scanner_tier : option string;
  scan_subprocess : list (string * string) -> string -> bytes -> string + Json;
  scan_gvisor : list (string * string) -> string -> bytes -> string + Json;
  scan_elapsed : bytes -> Z
}.

Definition tier_from_env `{ScannerHost} : ScannerTier :=
  match env_scanner_tier with
  | Some "inprocess"%string => InProcess
  | Some "gvisor"%string => Gvisor
  | _ => Subprocess
  end.

Definition min_tier_from_env `{ScannerHost} : option ScannerTier :=
  match env_min_scanner_tier with
  | Some "gvisor"%string => Some Gvisor
  | Some "subprocess"%string => Some Subprocess
  | _ => None
  end.

Definition check_min_tier `{ScannerHost} (tier : ScannerTier) : option string :=
  match min_tier_from_env with
  | Some Gvisor =>
      if decide (tier = Gvisor) then None
      else Some "CORPUS_MIN_SCANNER_TIER=gvisor requires CORPUS_SCANNER_TIER=gvisor (subprocess/seatbelt is not a hostile-malware boundary)"%string
  | Some Subprocess =>
      if decide (tier = InProcess) then Some "CORPUS_MIN_SCANNER_TIER=subprocess rejects inprocess scans"%string
      else None
  | _ => None
  end.

Definition error_outcome (msg : string) : ScanOutcome := mkScanOutcome ScanError [] 0 (Some msg).

(** The derived [Deserialize] of [PatternEvidence] and [RuleMatchEvidence]. *)
Definition u64_field (k : string) (j : Json) : option Z :=
  v ← json_get k j; z ← json_int v; if (0 <=? z) && (z <? 2 ^ 64) then Some z else None.

Definition pattern_from_json (j : Json) : option PatternEvidence :=
  i ← json_get_str "identifier" j; o ← u64_field "offset" j; l ← u64_field "length" j;
  Some (mkPatternEvidence i o l).

Definition match_from_json (j : Json) : option RuleMatchEvidence :=
  r ← json_get_str "rule_id" j; n ← json_get_str "namespace" j;
  ps ← json_get "patterns" j; l ← json_arr ps; pats ← mapM pattern_from_json l;
  Some (mkRuleMatchEvidence r n pats).

Definition outcome_from_json (v : Json) : ScanOutcome :=
  let status :=
    match json_get_str "status" v with
    | Some "matched"%string => Matched
    | Some "clean"%string => Clean
    | Some "timeout"%string => Timeout
    | _ => ScanError
    end in
  let matches :=
    match json_get "matches" v ≫= json_arr with
    | Some arr => omap match_from_json arr
    | None => []
    end in
  mkScanOutcome status matches
    (default 0 (json_get "duration_ms" v ≫= json_int))
    (json_get_str "error_code" v).

(** [scan_with_tier]: the [expect] of the in-process tier is a panic. *)
Definition scan_with_tier `{YaraX, ScannerHost} (tier : ScannerTier) (sources : list (string * string))
    (compiled : option YaraRules) (b : bytes) (sample_path : option string) : outcome ScanOutcome :=
  match tier with
  | InProcess => rules ← or_panic compiled; mret (scan_bytes rules b (scan_elapsed b))
  | Subprocess =>
      match sample_path with
      | None => mret (error_outcome "subprocess tier requires a sample path")
      | Some path =>
          match scan_subprocess sources path b with
          | inr v => mret (outcome_from_json v)
          | inl e => mret (error_outcome ("sandbox spawn: " +:+ e))
          end
      end
  | Gvisor =>
      match sample_path with
      | None => mret (error_outcome "gvisor tier requires a sample path")
      | Some path =>
          match scan_gvisor sources path b with
          | inr v => mret (outcome_from_json v)
          | inl e => mret (error_outcome e)
          end
      end
  end.

(** ** Lemmas *)

Lemma compile_from_spec `{YaraX} added sources :
  match compile_from added sources with
  | inr r => r = yara_build (added ++ sources) /\
             forall i src, sources !! i = Some src -> yara_add_source (added ++ take i sources) src = None
  | inl e => exists i src, sources !! i = Some src /\ yara_add_source (added ++ take i sources) src = Some e
  end.
Proof.
  revert added. induction sources as [|src rest IH]; intros added; simpl.
  { by rewrite app_nil_r. }
  destruct (yara_add_source added src) as [e|] eqn:E.
  { exists 0%nat, src. simpl. by rewrite app_nil_r. }
  specialize (IH (added ++ [src])). destruct (compile_from (added ++ [src]) rest) as [e|r].
  - destruct IH as (i & s & Hi & Hs). exists (S i), s. simpl. by rewrite <- app_assoc in Hs.
  - destruct IH as [-> Hall]. split; [by rewrite <- app_assoc|]. intros [|i] s Hi; simpl in *.
    + simplify_eq. by rewrite app_nil_r.
    + specialize (Hall i s Hi). by rewrite <- app_assoc in Hall.
Qed.

(** The status strings identify the statuses. *)
Lemma status_str_inj a b : status_str a = status_str b -> a = b.
Proof. by destruct a, b. Qed.

Lemma scan_with_tier_returns `{YaraX, ScannerHost} tier sources rules b path :
  exists o, scan_with_tier tier sources (Some rules) b path = Ret o.
Proof. unfold scan_with_tier. destruct tier, path; simpl; repeat case_match; eauto. Qed.

(** ** Properties *)

Section properties.
  Context {YX : YaraX} {SH : ScannerHost}.

(** A scan the policy accepts is at least as isolated as the configured
    minimum, and an in-process scan is accepted only when no minimum is set. *)
Theorem check_min_tier_sound tier :
  check_min_tier tier = None ->
  (env_min_scanner_tier = Some "gvisor"%string -> tier = Gvisor) /\
  (env_min_scanner_tier = Some "subprocess"%string -> tier <> InProcess).
Proof.
  unfold check_min_tier, min_tier_from_env. intros Hc. split; intros E; rewrite E in Hc; cbn in Hc;
    by case_decide.
Qed.

(** Evidence kept per scan is bounded: each pattern contributes at most 64
    ranges, a scan that returns matches is [Matched] and one that returns none
    is [Clean], and an engine error yields no evidence. *)
Theorem scan_bytes_evidence rules b elapsed :
  let o := scan_bytes rules b elapsed in
  (so_status o = Matched <-> so_matches o <> []) /\
  (so_error_code o = None <-> so_status o = Clean \/ so_status o = Matched) /\
  forall m, In m (so_matches o) -> exists y, me_rule_id m = ym_identifier y /\
    (length (me_patterns m) <= 64 * length (ym_patterns y))%nat.
Proof.
  unfold scan_bytes. destruct (yara_scan rules b) as [msg|results]; cbn.
  - split; [|split].
    + split; [by destruct (str_contains _ _)|done].
    + split; [done|]. by destruct (str_contains _ _); intros [].
    + done.
  - split; [by destruct results|]. split; [split; [|done]; by destruct results; auto|].
    intros m Hm. apply in_map_iff in Hm as (y & <- & _). exists y. split; [done|]. cbn.
    induction (ym_patterns y) as [|p l IH]; cbn; [lia|].
    rewrite length_app, length_map, length_take. lia.
Qed.
End properties.

(** A concrete engine for the witnesses: a rule matches the bytes that contain
    its own source; the sources ["bad"] and ["slow"] do not compile and do not
    finish. *)
Module ReferenceYara.

Definition engine : YaraX := {|
  YaraRules := list (string * string);
  yara_x_version := "1.0";
  yara_add_source := fun _ src => if String.eqb (snd src) "bad" then Some "syntax error"%string else None;
  yara_build := fun l => l;
  yara_scan := fun l b =>
    if existsb (fun src => String.eqb (snd src) "slow") l then inl "Timeout reached"%string
    else inr (map (fun src => mkYaraMatch (snd src) (fst src) [mkYaraPattern "$a" [(0, 1)]])
                  (List.filter (fun src => bool_decide (str_bytes (snd src) = b)) l))
|}.

Definition host : ScannerHost := {|
  env_scanner_tier := Some "inprocess"%string;
  env_min_scanner_tier := None;
  scan_subprocess := fun _ _ _ => inl "not available"%string;
  scan_gvisor := fun _ _ _ => inl "not available"%string;
  scan_elapsed := fun _ => 1
|}.
End ReferenceYara.

Lemma check_min_tier_sound_witness :
  let SH := {| env_scanner_tier := None; env_min_scanner_tier := Some "subprocess"%string;
               scan_subprocess := fun _ _ _ => inl ""%string; scan_gvisor := fun _ _ _ => inl ""%string;
               scan_elapsed := fun _ => 0 |} : ScannerHost in
  check_min_tier Subprocess = None /\ Subprocess <> InProcess.
Proof.
  intros SH. split; [reflexivity|].
  exact (proj2 (check_min_tier_sound Subprocess eq_refl) eq_refl).
Defined.
