(* ===== verification/Rules.v ===== *)
(** * Rules and bundles ([corpus-core/src/rules.rs], [corpus-core/src/registry.rs])

    The rule-name parser with its comment stripper, the canonical bundle
    digest, and the registry handlers that store rules and publish immutable
    bundles. *)

From S2P Require Import Prelude Machine Text Hash Cas Schema Scan.
From Stdlib Require Import Strings.Byte Strings.Ascii Sorting.Permutation Sorting.Sorted.

Open Scope Z_scope.

(** ** rules.rs *)

Definition slash : byte := x2f.
Definition star : byte := x2a.
Definition newline : byte := x0a.

(** The inner loop of a [//] comment: stop at the newline. *)
Fixpoint skip_line (l : bytes) : bytes :=
  match l with
  | [] => []
  | b :: l' => if Byte.eqb b newline then l else skip_line l'
  end.

(** The inner loop of a block comment, [i + 1 < len] included: it stops at the
    star of the terminator, or with at most one byte left. *)
Fixpoint skip_block (l : bytes) : bytes :=
  match l with
  | b :: ((c :: _) as l') => if Byte.eqb b star && Byte.eqb c slash then l else skip_block l'
  | _ => l
  end.

(** [strip_comments]: [l] is [bytes[i..]]; [fuel] bounds the outer loop. *)
Fixpoint strip_loop (fuel : nat) (l : bytes) : option bytes :=
  match fuel with
  | O => None
  | S fuel =>
      match l with
      | [] => Some []
      | b :: l' =>
          match l' with
          | c :: l'' =>
              if Byte.eqb b slash && Byte.eqb c slash then strip_loop fuel (skip_line l)
              else if Byte.eqb b slash && Byte.eqb c star then strip_loop fuel (drop 2 (skip_block l''))
              else cons b <$> strip_loop fuel l'
          | [] => cons b <$> strip_loop fuel l'
          end
      end
  end.

Definition strip_comments (src : bytes) : option bytes := strip_loop (S (length src)) src.

Definition is_word_char (c : ascii) : bool := is_ascii_alphanumeric c || Ascii.eqb c "_".

(** [out.push(byte as char)]: a byte above 0x7f becomes a character outside
    the word characters, as it does here. *)
Definition tokens_of (b : bytes) : list string :=
  split_tokens (fun c => negb (is_word_char c)) (String.string_of_list_byte b) "".

Definition parse_rule_name (source : string) : outcome string :=
  clean ← or_panic (strip_comments (str_bytes source));
  let tokens := tokens_of clean in
  let positions := map fst (List.filter (fun p => String.eqb (snd p) "rule") (enumerate tokens)) in
  match positions with
  | [p] =>
      name ← or_panic (tokens !! S p);
      match name with
      | String c _ =>
          if is_ascii_alphabetic c || Ascii.eqb c "_" then mret name
          else Fail (RuleParse "invalid rule identifier ")
      | EmptyString => Fail (RuleParse "invalid rule identifier ")
      end
  | [] => Fail (RuleParse "no `rule` definition found")
  | _ => Fail (RuleParse "expected exactly one rule per file, found ")
  end.

Definition compile_validate `{YaraX} (source : string) : outcome unit :=
  match yara_add_source [] ("default"%string, source) with
  | Some e => Fail (RuleCompile e)
  | None => mret tt
  end.

Definition COMPILER_CONFIG `{YaraX} : string := "yara-x-compiler:v1;engine=" +:+ yara_x_version.

Definition stable_id_le (a b : string * string) : bool := str_leb (fst a) (fst b).

(** The bytes the digest is computed over. *)
Definition bundle_preimage (rules : list (string * string)) (compiler_config : string) : bytes :=
  str_bytes "corpus-rule-bundle-v1" ++ [x00] ++
  flat_map (fun r => str_bytes (fst r) ++ [x00] ++ str_bytes (snd r) ++ [x00]) (sort_by stable_id_le rules) ++
  str_bytes compiler_config.

Definition bundle_digest `{Sha256, HexCodec} (rules : list (string * string)) (compiler_config : string) : string :=
  hex_encode (sha256_digest (bundle_preimage rules compiler_config)).

(** ** registry.rs *)

Section registry.
  Context {YX : YaraX} {SHA : Sha256} {HEX : HexCodec}.

Record RuleResponse := mkRuleResponse {
  rr_id : Uuid; rr_namespace : string; rr_stable_id : string; rr_state : string; rr_created_at : Time }.

(** [RuleRow::into_response] *)
Definition rule_response (r : Rule) : RuleResponse :=
  mkRuleResponse (ru_id r) (ru_namespace r) (ru_stable_id r) (ru_state r) (ru_created_at r).

Definition get_rule_by_stable_id (tenant : Uuid) (stable_id : string) : Op Srv (option Rule) :=
  select_optional TRule (fun r => bool_decide (ru_tenant r = tenant) && String.eqb (ru_stable_id r) stable_id).

Definition rule_key (r : Rule) : Uuid * string * string := (ru_tenant r, ru_namespace r, ru_stable_id r).

Definition create_rule (tenant : Uuid) (source : string) : Op Srv RuleResponse :=
  stable_id ← lift_outcome (parse_rule_name source);
  lift_outcome (compile_validate source) ;;
  existing ← get_rule_by_stable_id tenant stable_id;
  match existing with
  | Some r =>
      if String.eqb (ru_source r) source then mret (rule_response r)
      else throw (Conflict "rule already exists with different source; revoke it first")
  | None =>
      id ← new_v4;
      t ← now;
      let r := mkRule id tenant "default" stable_id source "VALIDATED" t t in
      insert_unique TRule rule_key r ;;
      mret (rule_response r)
  end.

(** The two columns Postgres orders the listing by are ASCII identifiers. *)
Definition list_rules (tenant : Uuid) : Op Srv (list RuleResponse) :=
  rs ← select TRule (fun r => bool_decide (ru_tenant r = tenant));
  mret (map rule_response (sort_by (fun a b => str_leb (ru_stable_id a) (ru_stable_id b)) rs)).

Record BundleResponse := mkBundleResponse {
  br_id : Uuid; br_digest : string; br_scope : string; br_engine_version : string; br_active : bool;
  br_rule_count : Z; br_created_at : Time }.

Definition bundle_response (b : RuleBundle) (members : list RuleBundleRule) : BundleResponse :=
  mkBundleResponse (rb_id b) (rb_digest b) (rb_scope b) (rb_engine_version b) (rb_active b)
    (len (List.filter (fun m => bool_decide (rbr_bundle_id m = rb_id b)) members)) (rb_created_at b).

Definition bundle_is (tenant : Uuid) (digest : string) (b : RuleBundle) : bool :=
  bool_decide (rb_tenant b = tenant) && String.eqb (rb_digest b) digest.

Definition get_bundle (tenant : Uuid) (digest : string) : Op Srv BundleResponse :=
  row ← select_optional TBundle (bundle_is tenant digest);
  b ← or_throw (NotFound "bundle ") row;
  members ← gets (rows TBundleRule);
  mret (bundle_response b members).

Definition list_bundles (tenant : Uuid) : Op Srv (list BundleResponse) :=
  bs ← select TBundle (fun b => bool_decide (rb_tenant b = tenant));
  members ← gets (rows TBundleRule);
  mret (map (fun b => bundle_response b members)
            (sort_by (fun a b => rb_created_at a <=? rb_created_at b) bs)).

(** The join of [bundle_sources]: the rules of the bundle, by position. *)
Definition bundle_members (tenant bundle_id : Uuid) (s : Srv) : list Rule :=
  let links := sort_by (fun a b => rbr_position a <=? rbr_position b)
                 (List.filter (fun l => bool_decide (rbr_bundle_id l = bundle_id)) (rows TBundleRule s)) in
  flat_map (fun l => List.filter (fun r => bool_decide (ru_id r = rbr_rule_id l) && bool_decide (ru_tenant r = tenant))
                                 (rows TRule s)) links.

Definition bundle_sources (tenant bundle_id : Uuid) : Op Srv (list (string * string)) :=
  rs ← gets (bundle_members tenant bundle_id);
  mret (map (fun r => (ru_namespace r, ru_source r)) rs).

(** The member lookup of [publish_bundle]. *)
Definition publish_member (tenant id : Uuid) : Op Srv Rule :=
  row ← select_optional TRule (fun r => bool_decide (ru_tenant r = tenant) && bool_decide (ru_id r = id));
  rule ← or_throw (NotFound "rule ") row;
  if String.eqb (ru_state rule) "REVOKED" then throw (BadRequest "rule is REVOKED") else mret rule.

Definition rule_by_stable_id (a b : Rule) : bool := str_leb (ru_stable_id a) (ru_stable_id b).

Definition membership_key (m : RuleBundleRule) : Uuid * Uuid := (rbr_bundle_id m, rbr_rule_id m).
Definition bundle_key (b : RuleBundle) : Uuid * string := (rb_tenant b, rb_digest b).

Definition activate_bundle (id : Uuid) : Op Srv Z :=
  update_rows TBundle (fun b => bool_decide (rb_id b = id))
    (fun b => mkRuleBundle (rb_id b) (rb_tenant b) (rb_digest b) (rb_scope b) (rb_engine_version b) true (rb_created_at b)).

(** [UPDATE rule SET state = 'ACTIVE' ... AND state IN ('DRAFT','VALIDATED')] *)
Definition activate_rule (id : Uuid) (t : Time) : Op Srv Z :=
  update_rows TRule
    (fun r => bool_decide (ru_id r = id) && (String.eqb (ru_state r) "DRAFT" || String.eqb (ru_state r) "VALIDATED"))
    (fun r => mkRule (ru_id r) (ru_tenant r) (ru_namespace r) (ru_stable_id r) (ru_source r) "ACTIVE" (ru_created_at r) t).

(** A row of [hunt] as the bundle publication inserts it. *)
Definition new_hunt (id tenant : Uuid) (kind : string) (bundle_id : Uuid) (digest state : string) (t : Time) : Hunt :=
  mkHunt id tenant kind bundle_id digest state None 0 0 0 0 0 0 None t None None.

Definition forward_hunt_is (tenant bundle_id : Uuid) (h : Hunt) : bool :=
  bool_decide (hu_tenant h = tenant) && bool_decide (hu_bundle_id h = bundle_id) && String.eqb (hu_kind h) "forward".

(** The body of the publication transaction; returns the bundle's id. *)
Definition publish_tx (tenant : Uuid) (members : list Rule) (digest : string) (activate : bool) : Op Srv Uuid :=
  existing ← select_optional TBundle (bundle_is tenant digest);
  bundle_id ← (match existing with
    | Some b =>
        (if activate then activate_bundle (rb_id b) ;; mret tt else mret tt) ;;
        mret (rb_id b)
    | None =>
        id ← new_v4;
        t ← now;
        insert_unique TBundle bundle_key (mkRuleBundle id tenant digest "tenant" ENGINE_VERSION activate t) ;;
        op_for (enumerate members) (fun '(pos, rule) =>
          insert_unique TBundleRule membership_key (mkRuleBundleRule id (ru_id rule) (Z.of_nat pos))) ;;
        mret id
    end);
  op_for members (fun rule => t ← now; activate_rule (ru_id rule) t ;; mret tt) ;;
  (if activate then
     forward_exists ← select_optional THunt (forward_hunt_is tenant bundle_id);
     match forward_exists with
     | Some _ => mret tt
     | None => hid ← new_v4; t ← now; insert_unique THunt hu_id (new_hunt hid tenant "forward" bundle_id digest "ACTIVE_FORWARD" t)
     end
   else mret tt) ;;
  mret bundle_id.

Definition publish_bundle (tenant : Uuid) (rule_ids : list Uuid) (activate : bool) : Op Srv BundleResponse :=
  match rule_ids with
  | [] => throw (BadRequest "bundle requires at least one rule")
  | _ =>
      found ← op_fold rule_ids [] (fun acc id => r ← publish_member tenant id; mret (acc ++ [r]));
      let members := sort_by rule_by_stable_id found in
      match compile_bundle (map (fun r => (ru_namespace r, ru_source r)) members) with
      | inl e => throw (RuleCompile e)
      | inr _ =>
          let digest := bundle_digest (map (fun r => (ru_stable_id r, ru_source r)) members) COMPILER_CONFIG in
          db_transaction (publish_tx tenant members digest activate) ;;
          get_bundle tenant digest
      end
  end.
End registry.

(** ** Reference lexer *)

(** The comment stripper as an automaton over the bytes. *)
Inductive lex_mode : Type := Code | Line | Block.

Fixpoint strip_spec (m : lex_mode) (l : bytes) : bytes :=
  match l with
  | [] => []
  | b :: l' =>
      match m with
      | Code =>
          match l' with
          | c :: l'' =>
              if Byte.eqb b slash && Byte.eqb c slash then strip_spec Line l'
              else if Byte.eqb b slash && Byte.eqb c star then strip_spec Block l''
              else b :: strip_spec Code l'
          | [] => [b]
          end
      | Line => if Byte.eqb b newline then b :: strip_spec Code l' else strip_spec Line l'
      | Block =>
          match l' with
          | c :: l'' => if Byte.eqb b star && Byte.eqb c slash then strip_spec Code l'' else strip_spec Block l'
          | [] => []
          end
      end
  end.

Definition rule_tokens (source : string) : list string := tokens_of (strip_spec Code (str_bytes source)).

Definition is_identifier (s : string) : Prop :=
  str_all is_word_char s = true /\
  exists c s', s = String c s' /\ (is_ascii_alphabetic c || Ascii.eqb c "_") = true.

(** ** Lemmas *)

Lemma strip_spec_line l : strip_spec Line l = strip_spec Code (skip_line l).
Proof.
  induction l as [|b l IH]; [done|]. cbn [strip_spec skip_line].
  destruct (Byte.eqb b newline) eqn:E; [|done].
  apply Byte.byte_dec_bl in E as ->. by destruct l as [|c l].
Qed.

Lemma strip_spec_block l : strip_spec Block l = strip_spec Code (drop 2 (skip_block l)).
Proof.
  induction l as [|b l IH]; [done|]. destruct l as [|c l]; [done|].
  change (strip_spec Block (b :: c :: l)) with
    (if Byte.eqb b star && Byte.eqb c slash then strip_spec Code l else strip_spec Block (c :: l)).
  change (skip_block (b :: c :: l)) with
    (if Byte.eqb b star && Byte.eqb c slash then b :: c :: l else skip_block (c :: l)).
  by destruct (Byte.eqb b star && Byte.eqb c slash).
Qed.

Lemma skip_line_length l : (length (skip_line l) <= length l)%nat.
Proof. induction l as [|b l IH]; simpl; [lia|]. case_match; simpl; lia. Qed.

Lemma skip_block_length l : (length (skip_block l) <= length l)%nat.
Proof.
  induction l as [|b [|c l] IH]; simpl; [lia..|]. case_match; simpl in *; lia.
Qed.

(** Fuel for one byte more than the input is enough. *)
Lemma strip_loop_spec fuel l : (length l < fuel)%nat -> strip_loop fuel l = Some (strip_spec Code l).
Proof.
  revert l. induction fuel as [|fuel IH]; intros l Hl; [lia|].
  destruct l as [|b [|c l]]; [done|..].
  - cbn [strip_loop]. by rewrite IH by (simpl in *; lia).
  - cbn [strip_loop].
    change (strip_spec Code (b :: c :: l)) with
      (if Byte.eqb b slash && Byte.eqb c slash then strip_spec Line (c :: l)
       else if Byte.eqb b slash && Byte.eqb c star then strip_spec Block l
       else b :: strip_spec Code (c :: l)).
    destruct (Byte.eqb b slash && Byte.eqb c slash) eqn:E1.
    + apply andb_true_iff in E1 as [E1 _]. apply Byte.byte_dec_bl in E1 as ->.
      change (skip_line (slash :: c :: l)) with (skip_line (c :: l)).
      pose proof (skip_line_length (c :: l)). rewrite strip_spec_line, IH; [done|simpl in *; lia].
    + destruct (Byte.eqb b slash && Byte.eqb c star).
      * pose proof (skip_block_length l).
        rewrite strip_spec_block, IH; [done|]. rewrite length_drop. simpl in *. lia.
      * by rewrite IH by (simpl in *; lia).
Qed.

Lemma split_tokens_chars p s acc t :
  str_all (fun c => negb (p c)) acc = true ->
  In t (split_tokens p s acc) -> t <> ""%string /\ str_all (fun c => negb (p c)) t = true.
Proof.
  assert (Happ : forall a b q, str_all q (a +:+ b) = str_all q a && str_all q b).
  { intros a b q. induction a as [|x a IH]; simpl; [done|]. by rewrite IH, andb_assoc. }
  revert acc. induction s as [|c s IH]; intros acc Hacc; cbn [split_tokens].
  - destruct (String.eqb acc "") eqn:E; [done|]. intros [<-|[]].
    split; [|done]. by apply String.eqb_neq.
  - destruct (p c) eqn:Ep.
    + intros Hin. apply in_app_or in Hin as [Hin|Hin]; [|by apply (IH "")].
      destruct (String.eqb acc "") eqn:E; [done|]. destruct Hin as [<-|[]].
      split; [|done]. by apply String.eqb_neq.
    + apply IH. rewrite Happ, Hacc. simpl. by rewrite Ep.
Qed.

Lemma rule_tokens_chars source t :
  In t (rule_tokens source) -> t <> ""%string /\ str_all is_word_char t = true.
Proof.
  intros Hin. apply split_tokens_chars in Hin as [H1 H2]; [|done]. split; [done|].
  clear H1. induction t as [|c t IH]; simpl in *; [done|].
  rewrite negb_involutive in H2. apply andb_true_iff in H2 as [-> H2]. auto.
Qed.

(** Positions of a token, and the split of the list they describe. *)
Lemma positions_spec (l : list string) (x : string) n :
  let ps := map fst (List.filter (fun p => String.eqb (snd p) x) (zip (seq n (length l)) l)) in
  match ps with
  | [] => ~ In x l
  | [p] => exists pre post, l = pre ++ x :: post /\ ~ In x pre /\ ~ In x post /\ p = (n + length pre)%nat
  | _ => exists pre mid post, l = pre ++ x :: mid ++ x :: post
  end.
Proof.
  revert n. induction l as [|y l IH]; intros n; cbn [length seq zip zip_with List.filter map]; [by intros []|].
  cbn [snd]. specialize (IH (S n)). cbn zeta in IH.
  destruct (String.eqb y x) eqn:E.
  - apply String.eqb_eq in E as ->. cbn [map fst].
    destruct (map fst _) as [|p [|q ps]].
    + exists [], l. simpl. repeat split; [intros []|done|lia].
    + destruct IH as (pre & post & -> & _). exists [], pre, post. done.
    + destruct IH as (pre & mid & post & ->). exists [], pre, (mid ++ x :: post). done.
  - apply String.eqb_neq in E.
    destruct (map fst _) as [|p [|q ps]].
    + intros [?|?]; [done|auto].
    + destruct IH as (pre & post & -> & H1 & H2 & ->). exists (y :: pre), post.
      repeat split; [intros [?|?]; auto|done|simpl; lia].
    + destruct IH as (pre & mid & post & ->). by exists (y :: pre), mid, post.
Qed.

(** ** The name parser *)

(** The stripper terminates on every input and computes the automaton. *)
Theorem strip_comments_correct src : strip_comments src = Some (strip_spec Code src).
Proof. apply strip_loop_spec. lia. Qed.

(** Every outcome of the name parser, in terms of the tokens outside comments:
    a name exactly when one [rule] keyword is followed by an identifier; the
    slice [tokens[positions[0] + 1]] panics exactly when the only [rule]
    keyword is the last token. *)
Theorem parse_rule_name_spec source :
  match parse_rule_name source with
  | Ret name => exists pre post, rule_tokens source = pre ++ "rule"%string :: name :: post /\
      ~ In "rule"%string pre /\ ~ In "rule"%string (name :: post) /\ is_identifier name
  | Fail (RuleParse _) =>
      ~ In "rule"%string (rule_tokens source) \/
      (exists pre mid post, rule_tokens source = pre ++ "rule"%string :: mid ++ "rule"%string :: post) \/
      (exists pre name post, rule_tokens source = pre ++ "rule"%string :: name :: post /\ ~ is_identifier name)
  | Fail _ => False
  | Panic => exists pre, rule_tokens source = pre ++ ["rule"%string] /\ ~ In "rule"%string pre
  end.
Proof.
  unfold parse_rule_name. rewrite strip_comments_correct. cbn [or_panic mbind outcome_mbind].
  fold (rule_tokens source). pose proof (positions_spec (rule_tokens source) "rule" 0) as Hp.
  cbn zeta in Hp. unfold enumerate.
  destruct (map fst _) as [|p [|q ps]]; [by left| |right; by left].
  destruct Hp as (pre & post & Ht & H1 & H2 & ->). rewrite Ht. cbn [Nat.add].
  rewrite lookup_app_r by lia. replace (S (length pre) - length pre)%nat with 1%nat by lia. cbn.
  destruct post as [|name post]; cbn; [by eauto|].
  assert (Hname : In name (rule_tokens source)).
  { rewrite Ht. apply in_or_app. right. right. by left. }
  apply rule_tokens_chars in Hname as [Hne Hw].
  destruct name as [|c s]; [done|].
  destruct (is_ascii_alphabetic c || Ascii.eqb c "_") eqn:Ec.
  - exists pre, post. do 4 (split; [done|]). eauto.
  - right. right. exists pre, (String c s), post. split; [done|].
    intros (_ & c' & s' & [= <- <-] & Hc). congruence.
Qed.

(** A rule file that ends at its keyword panics the parser. *)
Theorem parse_rule_name_panics : parse_rule_name "rule" = Panic /\ parse_rule_name "private rule // x" = Panic.
Proof. split; reflexivity. Qed.

(** ** The bundle digest *)

Definition nul_free (s : string) : Prop := x00 ∉ str_bytes s.
Definition nul_free_rule (r : string * string) : Prop := nul_free (fst r) /\ nul_free (snd r).

Lemma nul_split (a a' r r' : bytes) :
  x00 ∉ a -> x00 ∉ a' -> a ++ x00 :: r = a' ++ x00 :: r' -> a = a' /\ r = r'.
Proof.
  revert a'. induction a as [|b a IH]; intros [|b' a'] Ha Ha' E; simplify_eq/=; [done|set_solver..|].
  destruct (IH a') as [-> ->]; set_solver.
Qed.

Definition rule_frame (r : string * string) : bytes := str_bytes (fst r) ++ [x00] ++ str_bytes (snd r) ++ [x00].

Lemma frames_inj l l' c c' :
  Forall nul_free_rule l -> Forall nul_free_rule l' -> x00 ∉ c -> x00 ∉ c' ->
  flat_map rule_frame l ++ c = flat_map rule_frame l' ++ c' -> l = l' /\ c = c'.
Proof.
  revert l'. induction l as [|[i s] l IH]; intros [|[i' s'] l'] Hl Hl' Hc Hc';
    cbn [flat_map rule_frame app]; unfold rule_frame; cbn [fst snd]; rewrite <- ?app_assoc; cbn [app].
  - done.
  - intros ->. exfalso. apply Hc. set_solver.
  - intros <-. exfalso. apply Hc'. set_solver.
  - apply Forall_cons in Hl as [[H1 H2] Hl], Hl' as [[H1' H2'] Hl'].
    intros E. apply nul_split in E as [Ei E]; [|done..].
    apply nul_split in E as [Es E]; [|done..].
    apply str_bytes_inj in Ei, Es. subst.
    by destruct (IH l' Hl Hl' Hc Hc' E) as [-> ->].
Qed.

Lemma stable_id_le_total : le_total stable_id_le.
Proof. intros a b. apply str_leb_total. Qed.

Lemma stable_id_le_trans : le_trans stable_id_le.
Proof. intros a b c. apply str_leb_trans. Qed.

Lemma nodup_fst_inj {A B} (l : list (A * B)) x y :
  NoDup (map fst l) -> In x l -> In y l -> fst x = fst y -> x = y.
Proof.
  induction l as [|z l IH]; simpl; [done|]. intros [Hz Hl]%NoDup_cons Hx Hy E.
  destruct Hx as [->|Hx], Hy as [->|Hy]; [done| | |auto].
  - exfalso. apply Hz. rewrite E. apply list_elem_of_In, in_map, Hy.
  - exfalso. apply Hz. rewrite <- E. apply list_elem_of_In, in_map, Hx.
Qed.

(** Canonical ordering: the member list only matters up to its order. *)
Lemma sort_rules_perm rules rules' :
  NoDup (map fst rules) -> Permutation rules rules' ->
  sort_by stable_id_le rules = sort_by stable_id_le rules'.
Proof.
  intros Hnd Hp. apply (sorted_perm_unique stable_id_le).
  - intros x y Hx Hy H1 H2. apply sort_by_in in Hx, Hy.
    apply (nodup_fst_inj rules); [done..|]. by apply str_leb_antisym.
  - apply sort_by_sorted; [apply stable_id_le_total|apply stable_id_le_trans].
  - apply sort_by_sorted; [apply stable_id_le_total|apply stable_id_le_trans].
  - by rewrite !sort_by_perm.
Qed.

(** The bytes under a bundle digest are canonical: two publications have the
    same ones exactly when they have the same members, in any order, and the
    same compiler configuration; so distinct bundles can only share a digest
    through a SHA-256 collision. *)
Theorem bundle_preimage_canonical rules rules' c c' :
  NoDup (map fst rules) ->
  Forall nul_free_rule rules -> Forall nul_free_rule rules' -> nul_free c -> nul_free c' ->
  bundle_preimage rules c = bundle_preimage rules' c' <-> Permutation rules rules' /\ c = c'.
Proof.
  intros Hnd Hr Hr' Hc Hc'. unfold bundle_preimage. fold rule_frame. split.
  - intros E. apply (app_inv_head) in E. cbn [app] in E. injection E as E.
    apply frames_inj in E as [E1 E2]; [| | |done|done].
    + apply str_bytes_inj in E2. split; [|done].
      by rewrite <- (sort_by_perm stable_id_le rules), E1, sort_by_perm.
    + by rewrite sort_by_perm.
    + by rewrite sort_by_perm.
  - intros [Hp ->]. by rewrite (sort_rules_perm rules rules').
Qed.

(** Publishing the members in another order gives the same digest. *)
Theorem bundle_digest_order_independent `{Sha256, HexCodec} rules rules' c :
  NoDup (map fst rules) -> Permutation rules rules' -> bundle_digest rules c = bundle_digest rules' c.
Proof.
  intros Hnd Hp. unfold bundle_digest, bundle_preimage. by rewrite (sort_rules_perm rules rules').
Qed.

(** ** The registry *)

(** The unique constraints of the three registry tables. *)
Definition registry_wf (s : Srv) : Prop :=
  unique_key TRule rule_key s /\ unique_key TBundle bundle_key s /\ unique_key TBundleRule membership_key s.

Section registry_lemmas.
  Context {YX : YaraX} {SHA : Sha256} {HEX : HexCodec}.

Lemma publish_tx_wf tenant members digest activate : keeps registry_wf (publish_tx tenant members digest activate).
Proof.
  unfold registry_wf, publish_tx, activate_bundle, activate_rule.
  apply keeps_and; [|apply keeps_and].
  - repeat first [ apply keeps_unique_update; done | keeps_step
                 | apply (keeps_unique_frame TRule); frames_tac; fail ].
  - repeat first [ apply keeps_unique_update; done | apply keeps_insert_unique, keeps_unique_insert_on_conflict
                 | keeps_step | apply (keeps_unique_frame TBundle); frames_tac; fail ].
  - repeat first [ apply keeps_insert_unique, keeps_unique_insert_on_conflict
                 | keeps_step | apply (keeps_unique_frame TBundleRule); frames_tac; fail ].
Qed.

(** A failed publication leaves no trace in the database. *)
Lemma publish_member_pure tenant id s : snd (publish_member tenant id s) = s.
Proof. unfold publish_member. op_unfold. unfold select_optional, gets. by repeat case_match; simplify_eq/=. Qed.

Lemma op_fold_pure {S A B} (l : list A) (f : B -> A -> Op S B) acc s :
  (forall b x, snd (f b x s) = s) -> snd (op_fold l acc f s) = s.
Proof.
  intros Hf. revert acc. induction l as [|x l IH]; intros acc; cbn; [done|].
  unfold mbind, op_mbind. specialize (Hf acc x). destruct (f acc x s) as [[a|e|] s'] eqn:E; cbn in *; subst; auto.
Qed.

Lemma members_pure tenant rule_ids s :
  snd (op_fold rule_ids [] (fun acc id => r ← publish_member tenant id; mret (acc ++ [r])) s) = s.
Proof.
  apply op_fold_pure. intros b x. unfold mbind, op_mbind, mret, op_mret.
  pose proof (publish_member_pure tenant x s). by destruct (publish_member tenant x s) as [[]].
Qed.

(** The links of one bundle, and what [bundle_sources] reads of the rules. *)
Definition bundle_links (b : Uuid) (s : Srv) : list RuleBundleRule :=
  List.filter (fun l => bool_decide (rbr_bundle_id l = b)) (rows TBundleRule s).
Definition rule_view (r : Rule) : Uuid * Uuid * string * string := (ru_id r, ru_tenant r, ru_namespace r, ru_source r).
Definition rule_views (s : Srv) : list (Uuid * Uuid * string * string) := map rule_view (rows TRule s).

Definition sources_of (tenant b : Uuid) (s : Srv) : list (string * string) :=
  map (fun r => (ru_namespace r, ru_source r)) (bundle_members tenant b s).

Definition sources_of_views (tenant : Uuid) (links : list RuleBundleRule) (views : list (Uuid * Uuid * string * string)) :=
  flat_map (fun l => map (fun v => (v.1.2, v.2))
              (List.filter (fun v => bool_decide (v.1.1.1 = rbr_rule_id l) && bool_decide (v.1.1.2 = tenant)) views))
    (sort_by (fun a b => rbr_position a <=? rbr_position b) links).

Lemma sources_of_eq tenant b s : sources_of tenant b s = sources_of_views tenant (bundle_links b s) (rule_views s).
Proof.
  unfold sources_of, bundle_members, sources_of_views. fold (bundle_links b s).
  induction (sort_by _ _) as [|l ls IH]; [done|]. cbn [flat_map]. rewrite map_app, IH. f_equal.
  unfold rule_views. clear IH. induction (rows TRule s) as [|r rs IHr]; [done|]. cbn.
  by destruct (_ && _); cbn; rewrite IHr.
Qed.

(** What a publication keeps of an existing bundle. *)
Definition bundle_frozen (b : Uuid) (links : list RuleBundleRule) (views : list (Uuid * Uuid * string * string)) (s : Srv) : Prop :=
  fresh_for b s /\ bundle_links b s = links /\ rule_views s = views.

Lemma frozen_other {A} b links views (m : Op Srv A) :
  frames (rows TRule) m -> frames (rows TBundleRule) m -> keeps (fresh_for b) m ->
  keeps (bundle_frozen b links views) m.
Proof.
  intros H1 H2 H3 s (Hf & Hl & Hv). split; [by apply H3|].
  unfold bundle_links, rule_views in *. by rewrite H1, H2.
Qed.

Lemma keeps_fresh_insert b t K (EK : EqDecision K) (key : row t -> K) r : keeps (fresh_for b) (insert_on_conflict t key r).
Proof. intros s Hs. unfold insert_on_conflict. by case_match. Qed.

Lemma keeps_fresh_new_v4 b : keeps (fresh_for b) new_v4.
Proof. intros s Hs n Hn. apply Hs. simpl in Hn. lia. Qed.

Lemma frozen_insert_link b links views id rid pos :
  id <> b -> keeps (bundle_frozen b links views) (insert_unique TBundleRule membership_key (mkRuleBundleRule id rid pos)).
Proof.
  intros Hid. apply keeps_insert_unique. intros s (Hf & Hl & Hv). unfold insert_on_conflict.
  case_match; [done|]. cbn [snd]. split; [done|]. split; [|done].
  unfold bundle_links in *. rewrite rows_set_rows_eq.
  etransitivity; [apply (List.filter_app (A := RuleBundleRule))|]. rewrite Hl. cbn.
  by rewrite bool_decide_false, app_nil_r by done.
Qed.

Lemma frozen_activate_rule b links views id t : keeps (bundle_frozen b links views) (activate_rule id t).
Proof.
  intros s (Hf & Hl & Hv). split; [done|]. split; [done|].
  unfold rule_views in *. cbn [snd activate_rule update_rows]. rewrite rows_set_rows_eq, map_map, <- Hv.
  apply map_ext. intros r. by destruct (_ && _).
Qed.

Ltac frozen_other_tac :=
  apply frozen_other; [frames_tac; fail|frames_tac; fail|
    first [apply keeps_fresh_new_v4 | apply keeps_insert_unique, keeps_fresh_insert | by intros ? ?]].

Lemma publish_tx_frozen b links views tenant members digest activate :
  keeps (bundle_frozen b links views) (publish_tx tenant members digest activate).
Proof.
  unfold publish_tx, activate_bundle. apply keeps_bind; [by auto with corpus|]. intros existing.
  apply keeps_bind.
  { destruct existing as [row|].
    - apply keeps_bind; [|auto with corpus]. destruct activate; [|auto with corpus].
      apply keeps_bind; [frozen_other_tac|auto with corpus].
    - eapply keeps_bind_yields.
      { apply (new_v4_fresh _ b); [by intros s (? & _)|frozen_other_tac]. }
      intros id Hid. apply keeps_bind; [frozen_other_tac|]. intros t.
      apply keeps_bind; [frozen_other_tac|]. intros _. apply keeps_bind; [|auto with corpus].
      apply keeps_for. intros [pos rule] _. by apply frozen_insert_link. }
  intros id. apply keeps_bind.
  { apply keeps_for. intros rule _. apply keeps_bind; [frozen_other_tac|]. intros t.
    apply keeps_bind; [apply frozen_activate_rule|auto with corpus]. }
  intros _. apply keeps_bind; [|auto with corpus]. destruct activate; [|auto with corpus].
  apply keeps_bind; [auto with corpus|]. intros [h|]; [auto with corpus|].
  apply keeps_bind; [frozen_other_tac|]. intros hid. apply keeps_bind; [frozen_other_tac|]. intros t.
  frozen_other_tac.
Qed.

Lemma publish_bundle_frozen b links views tenant rule_ids activate :
  keeps (bundle_frozen b links views) (publish_bundle tenant rule_ids activate).
Proof.
  unfold publish_bundle. destruct rule_ids as [|i ids]; [auto with corpus|].
  apply keeps_bind.
  { intros s Hs. by rewrite members_pure. }
  intros found. cbv zeta. destruct (compile_bundle _); [auto with corpus|].
  apply keeps_bind; [|intros _; unfold get_bundle; keeps_tac].
  apply keeps_db_transaction; [|apply publish_tx_frozen].
  intros old new (_ & H1 & H2) (H3 & _). done.
Qed.
End registry_lemmas.

(** ** Properties of the registry *)

(** What may happen to the registry. *)
Inductive registry_step `{YaraX, Sha256, HexCodec} (s : Srv) : Srv -> Prop :=
  | step_create_rule tenant source : registry_step s (snd (create_rule tenant source s))
  | step_publish tenant rule_ids activate : registry_step s (snd (publish_bundle tenant rule_ids activate s)).

(** Identifiers to come differ from the bundle and from the rules it links. *)
Definition bundle_ids_fresh (b : Uuid) (s : Srv) : Prop :=
  fresh_for b s /\ forall l, In l (bundle_links b s) -> fresh_for (rbr_rule_id l) s.

Section registry_properties.
  Context {YX : YaraX} {SHA : Sha256} {HEX : HexCodec}.

Lemma create_rule_wf tenant source : keeps registry_wf (create_rule tenant source).
Proof.
  unfold registry_wf, create_rule, get_rule_by_stable_id. apply keeps_and; [|apply keeps_and].
  - repeat first [ apply keeps_insert_unique, keeps_unique_insert_on_conflict | solve [eauto 2 with corpus]
                 | apply (keeps_unique_frame TRule); frames_tac; fail | keeps_step ].
  - apply (keeps_unique_frame TBundle). frames_tac.
  - apply (keeps_unique_frame TBundleRule). frames_tac.
Qed.

Lemma publish_bundle_wf tenant rule_ids activate : keeps registry_wf (publish_bundle tenant rule_ids activate).
Proof.
  unfold publish_bundle. destruct rule_ids as [|i ids]; [auto with corpus|]. apply keeps_bind.
  { intros s Hs. by rewrite members_pure. }
  intros found. cbv zeta. destruct (compile_bundle _); [auto with corpus|].
  apply keeps_bind; [|intros _; unfold get_bundle; keeps_tac].
  apply keeps_db_transaction; [done|apply publish_tx_wf].
Qed.

(** [create_rule] adds at most one rule, under a new identifier. *)
Lemma create_rule_rows tenant source s :
  let s' := snd (create_rule tenant source s) in
  (forall t, t <> TRule -> rows t s' = rows t s) /\
  (srv_uuids s' = srv_uuids s /\ (srv_uuid_next s <= srv_uuid_next s')%nat) /\
  (rows TRule s' = rows TRule s \/
   exists r, rows TRule s' = rows TRule s ++ [r] /\ ru_id r = srv_uuids s (srv_uuid_next s)).
Proof.
  unfold create_rule. op_unfold.
  destruct (parse_rule_name source) as [stable_id|e|]; cbn -[rows set_rows]; [|by auto..].
  unfold compile_validate. destruct (yara_add_source _ _); cbn -[rows set_rows]; [by auto|].
  unfold get_rule_by_stable_id, select_optional, gets.
  destruct (head _) as [r|]; cbn -[rows set_rows].
  { by destruct (String.eqb _ _); auto. }
  unfold insert_unique, insert_on_conflict. op_unfold.
  destruct (existsb _ _); cbn -[rows set_rows].
  - split; [done|]. split; [by split; [|lia]|]. by left.
  - split; [intros t Ht; by rewrite rows_set_rows_ne|]. split; [split; [done|unfold set_rows, set_db; cbn; lia]|].
    right. eexists. by rewrite rows_set_rows_eq.
Qed.

Lemma sources_of_views_app tenant links views v :
  (forall l, In l links -> v.1.1.1 <> rbr_rule_id l) ->
  sources_of_views tenant links (views ++ [v]) = sources_of_views tenant links views.
Proof.
  intros Hv. unfold sources_of_views.
  assert (Hs : forall l, In l (sort_by (fun a b => rbr_position a <=? rbr_position b) links) -> v.1.1.1 <> rbr_rule_id l).
  { intros l Hl. apply sort_by_in in Hl. auto. }
  induction (sort_by _ _) as [|l ls IH]; [done|]. cbn [flat_map]. rewrite IH by (intros; apply Hs; by right).
  f_equal. rewrite List.filter_app, map_app. cbn [List.filter].
  rewrite bool_decide_false by (apply Hs; by left). cbn. by rewrite app_nil_r.
Qed.

Lemma registry_step_frozen tenant b s s' :
  bundle_ids_fresh b s -> registry_step s s' ->
  sources_of tenant b s' = sources_of tenant b s /\ bundle_ids_fresh b s'.
Proof.
  intros [Hb Hl] Hstep. rewrite !sources_of_eq. inversion Hstep as [t0 source|t0 ids act]; subst; clear Hstep.
  - pose proof (create_rule_rows t0 source s) as (Ht & (Hu & Hn) & Hr). cbn zeta in *.
    set (s1 := snd (create_rule t0 source s)) in *.
    assert (Hlinks : bundle_links b s1 = bundle_links b s) by (unfold bundle_links; by rewrite Ht).
    assert (Hfr : forall x, fresh_for x s -> fresh_for x s1).
    { intros x Hx n Hge. rewrite Hu. apply Hx. lia. }
    split; [|split; [by apply Hfr|rewrite Hlinks; intros l Hin; by apply Hfr, Hl]].
    rewrite Hlinks. unfold rule_views. destruct Hr as [->|(r & -> & Hr)]; [done|].
    rewrite map_app. cbn [map]. apply sources_of_views_app. intros l Hin. cbn. rewrite Hr.
    apply (Hl l Hin). lia.
  - pose proof (publish_bundle_frozen b (bundle_links b s) (rule_views s) t0 ids act s) as (Hf & H1 & H2).
    { done. }
    rewrite H1, H2. split; [done|]. split; [done|]. rewrite H1. intros l Hin.
    apply (publish_bundle_frozen (rbr_rule_id l) (bundle_links (rbr_rule_id l) s) (rule_views s) t0 ids act s).
    split; [by apply Hl|done].
Qed.

(** Bundles are immutable: whatever rules are added and bundles published
    afterwards, re-publications of the same members included, the ordered
    sources a bundle is compiled from never change.  Identifiers to come are
    assumed not to repeat the bundle's or its rules'. *)
Theorem bundle_sources_immutable tenant b s s' :
  bundle_ids_fresh b s -> rtc registry_step s s' ->
  fst (bundle_sources tenant b s') = fst (bundle_sources tenant b s).
Proof.
  intros Hf Hr. change (Ret (sources_of tenant b s') = Ret (sources_of tenant b s)). f_equal.
  induction Hr as [s|s s1 s2 H1 H2 IH]; [done|].
  destruct (registry_step_frozen tenant b s s1 Hf H1) as [<- Hf']. auto.
Qed.

(** The unique constraints hold in every reachable state of the registry. *)
Theorem registry_wf_reachable s s' : registry_wf s -> rtc registry_step s s' -> registry_wf s'.
Proof.
  intros Hs Hr. induction Hr as [s|s s1 s2 H1 H2 IH]; [done|]. apply IH. inversion H1; subst.
  - by apply create_rule_wf.
  - by apply publish_bundle_wf.
Qed.

Definition has_bundle (tenant : Uuid) (digest : string) (s : Srv) : Prop :=
  exists b, In b (rows TBundle s) /\ bundle_is tenant digest b = true.

Lemma has_bundle_frame {A} tenant digest (m : Op Srv A) :
  frames (rows TBundle) m -> keeps (has_bundle tenant digest) m.
Proof.
  apply (frames_keeps_view (rows TBundle) (fun l => exists b, In b l /\ bundle_is tenant digest b = true)).
Qed.

Lemma activate_has_bundle tenant digest id : keeps (has_bundle tenant digest) (activate_bundle id).
Proof.
  intros s (b & Hb & Hd). unfold has_bundle. cbn [snd activate_bundle update_rows]. rewrite rows_set_rows_eq.
  eexists. split; [apply in_map; exact Hb|]. by destruct (bool_decide _).
Qed.

Lemma bundle_is_key tenant digest b : rb_tenant b = tenant -> rb_digest b = digest -> bundle_is tenant digest b = true.
Proof. intros <- <-. unfold bundle_is. by rewrite bool_decide_true, String.eqb_refl. Qed.

Lemma publish_tx_has_bundle tenant members digest activate s id s' :
  publish_tx tenant members digest activate s = (Ret id, s') -> has_bundle tenant digest s'.
Proof.
  unfold publish_tx. rewrite bind_ret. intros (existing & s0 & [= <- <-] & Hr).
  rewrite bind_ret in Hr. destruct Hr as (bid & s1 & H1 & H2).
  assert (Hs1 : has_bundle tenant digest s1).
  { destruct (head _) as [b|] eqn:Eh.
    - apply head_filter_in in Eh as [Hin Hb].
      assert (Hk : keeps (has_bundle tenant digest)
        ((if activate then activate_bundle (rb_id b) ;; mret tt else mret tt) ;; mret (rb_id b))).
      { apply keeps_bind; [|auto with corpus]. destruct activate; [|auto with corpus].
        apply keeps_bind; [apply activate_has_bundle|auto with corpus]. }
      specialize (Hk s). rewrite H1 in Hk. apply Hk. by exists b.
    - do 2 (rewrite bind_ret in H1; destruct H1 as (? & ? & [= <- <-] & H1)).
      rewrite bind_ret in H1. destruct H1 as ([] & s2 & Hi & H1).
      assert (Hs2 : has_bundle tenant digest s2).
      { unfold insert_unique in Hi. rewrite bind_ret in Hi. destruct Hi as (fresh & s3 & Hi & Ht).
        destruct fresh; [|done]. injection Ht as <-. unfold insert_on_conflict in Hi.
        destruct (existsb _ _); [done|]. injection Hi as <-. unfold has_bundle. rewrite rows_set_rows_eq.
        eexists. split; [apply in_or_app; right; by left|]. by apply bundle_is_key. }
      assert (Hk : keeps (has_bundle tenant digest)
        (op_for (enumerate members) (fun '(pos, rule) =>
           insert_unique TBundleRule membership_key (mkRuleBundleRule (srv_uuids s (srv_uuid_next s)) (ru_id rule) (Z.of_nat pos))) ;;
         mret (srv_uuids s (srv_uuid_next s)))).
      { apply has_bundle_frame. frames_tac. }
      specialize (Hk s2 Hs2). by rewrite H1 in Hk. }
  match type of H2 with ?m s1 = _ => assert (Hk : keeps (has_bundle tenant digest) m) end.
  { apply has_bundle_frame. unfold activate_rule. frames_tac. }
  specialize (Hk s1 Hs1). by rewrite H2 in Hk.
Qed.

Lemma get_bundle_returns tenant digest s :
  has_bundle tenant digest s -> exists r, get_bundle tenant digest s = (Ret r, s) /\ br_digest r = digest.
Proof.
  intros (b & Hb & Hd). unfold get_bundle. op_unfold. unfold select_optional, gets. cbn -[rows].
  destruct (head (List.filter (bundle_is tenant digest) (rows TBundle s))) as [b'|] eqn:E.
  - apply head_filter_in in E as [_ Hb']. eexists. split; [done|]. cbn.
    unfold bundle_is in Hb'. apply andb_true_iff in Hb' as [_ Hb']. by apply String.eqb_eq in Hb'.
  - assert (Hin : In b (List.filter (bundle_is tenant digest) (rows TBundle s))) by by apply filter_In.
    by destruct (List.filter _ _).
Qed.

(** Publication is atomic: either it returns the bundle with the digest of the
    requested members, or no table has changed. *)
Theorem publish_bundle_atomic tenant rule_ids activate s :
  match publish_bundle tenant rule_ids activate s with
  | (Ret r, s') => has_bundle tenant (br_digest r) s'
  | (_, s') => srv_db s' = srv_db s
  end.
Proof.
  unfold publish_bundle. destruct rule_ids as [|i ids]; [done|].
  pose proof (members_pure tenant (i :: ids) s) as Hp. unfold mbind at 1, op_mbind at 1.
  destruct (op_fold _ _ _ s) as [[found|e|] s0]; cbn [snd] in Hp; subst s0; [|done..].
  cbv zeta. destruct (compile_bundle _); [done|].
  set (members := sort_by _ _). set (digest := bundle_digest _ _).
  unfold mbind, op_mbind, db_transaction, transaction.
  destruct (publish_tx tenant members digest activate s) as [[id|e|] s'] eqn:Et; [|done..].
  apply publish_tx_has_bundle in Et.
  destruct (get_bundle_returns tenant digest s' Et) as (r & -> & ->). done.
Qed.
End registry_properties.

(** ** Witnesses *)

Section witnesses.
  Local Existing Instance ReferenceYara.engine.
  Local Existing Instance ReferenceHash.sha.
  Local Existing Instance ReferenceHash.hex.

(** A rule, published in a bundle. *)
Definition one_rule : Srv := snd (create_rule 7%N "rule a { condition: true }" ReferenceServer.empty).
Definition one_bundle : Srv := snd (publish_bundle 7%N [100%N] true one_rule).

(** The bundle that was published has identifier 101. *)
Definition the_bundle : Uuid := 101%N.

Lemma bundle_preimage_canonical_witness :
  bundle_preimage [("b", "x"); ("a", "y")]%string "c" = bundle_preimage [("a", "y"); ("b", "x")]%string "c".
Proof.
  apply (bundle_preimage_canonical [("b", "x"); ("a", "y")]%string [("a", "y"); ("b", "x")]%string "c" "c").
  - refine (bool_decide_unpack _ _). vm_compute. exact I.
  - unfold nul_free_rule, nul_free. refine (bool_decide_unpack _ _). vm_compute. exact I.
  - unfold nul_free_rule, nul_free. refine (bool_decide_unpack _ _). vm_compute. exact I.
  - unfold nul_free. refine (bool_decide_unpack _ _). vm_compute. exact I.
  - unfold nul_free. refine (bool_decide_unpack _ _). vm_compute. exact I.
  - split; [apply perm_swap|reflexivity].
Defined.

Lemma bundle_digest_order_independent_witness :
  bundle_digest [("b", "x"); ("a", "y")]%string "c" = bundle_digest [("a", "y"); ("b", "x")]%string "c".
Proof.
  apply bundle_digest_order_independent; [|apply perm_swap]. refine (bool_decide_unpack _ _). vm_compute. exact I.
Defined.

Lemma one_bundle_uuids : srv_uuids one_bundle = srv_uuids ReferenceServer.empty /\ srv_uuid_next one_bundle = 3%nat.
Proof. split; vm_compute; reflexivity. Qed.

Lemma one_bundle_fresh : bundle_ids_fresh the_bundle one_bundle.
Proof.
  destruct one_bundle_uuids as [Hu Hn]. split.
  - intros n Hge. rewrite Hu. cbn. unfold the_bundle. lia.
  - intros l Hl. assert (Hr : rbr_rule_id l = 100%N) by (vm_compute in Hl; by destruct Hl as [<-|[]]).
    intros n Hge. rewrite Hu, Hr. cbn. lia.
Qed.

Lemma bundle_sources_immutable_witness :
  fst (bundle_sources 7%N the_bundle (snd (create_rule 7%N "rule b { condition: true }" one_bundle)))
  = Ret [("default", "rule a { condition: true }")]%string.
Proof.
  rewrite (bundle_sources_immutable 7%N the_bundle one_bundle).
  - vm_compute. reflexivity.
  - exact one_bundle_fresh.
  - apply rtc_once. constructor.
Defined.

Lemma registry_wf_reachable_witness : registry_wf one_bundle.
Proof.
  apply (registry_wf_reachable ReferenceServer.empty).
  - split; [|split]; apply NoDup_nil_2.
  - eapply rtc_l; [apply step_create_rule|]. apply rtc_once. apply step_publish.
Defined.
End witnesses.
