(* ===== verification/Triggers.v ===== *)
(** * Triggers, detections and opinions

    [corpus-core/src/triggers.rs] (webhook rules and the delivery outbox),
    [corpus-core/src/detect.rs] (detection events) and
    [corpus-core/src/opinions.rs] (analyst verdicts).  The HTTP client and the
    JSON printer are the classes [Webhook] and [JsonText]. *)

From S2P Require Import Prelude Machine Text Hash Cas Schema.
From Stdlib Require Import Strings.Byte Strings.Ascii.

Open Scope Z_scope.

(** One [POST]: the outbox row and its attempt count identify the request;
    the answer is a status code or a transport error. *)
Class Webhook : Type := http_post : Uuid -> Z -> string -> string -> string -> string + Z.

(** ** triggers.rs *)

Definition CONDITION_HUNT_MATCH : string := "hunt_match".
Definition CONDITION_MALICIOUS_VERDICT : string := "malicious_verdict".
Definition CONDITION_VARIANT_JOIN : string := "variant_join".

Definition CONDITIONS : list string :=
  [CONDITION_HUNT_MATCH; CONDITION_MALICIOUS_VERDICT; CONDITION_VARIANT_JOIN].

(** [Uuid::into_bytes]: big-endian. *)
Definition uuid_bytes (u : Uuid) : bytes := rev (to_le 16 (Z.of_N u)).

Definition create_trigger `{HexCodec} (tenant : Uuid) (name condition webhook_url : string) (secret : option string) :
    Op Srv (TriggerRule * string) :=
  if negb (existsb (String.eqb condition) CONDITIONS)
  then throw (BadRequest "invalid condition")
  else if negb (str_starts_with "http://" webhook_url || str_starts_with "https://" webhook_url)
  then throw (BadRequest "webhook_url must be http(s)")
  else
    id ← new_v4;
    secret ← (match secret with
              | Some s => mret s
              | None => u ← new_v4; mret (hex_encode (uuid_bytes u))
              end);
    t ← now;
    let r := mkTriggerRule id tenant name condition webhook_url secret true t in
    insert_unique TTrigger tr_id r ;;
    mret (r, secret).

Definition list_triggers (tenant : Uuid) : Op Srv (list TriggerRule) :=
  l ← select TTrigger (fun t => bool_decide (tr_tenant t = tenant));
  mret (sort_by (fun a b => tr_created_at a <=? tr_created_at b) l).

Definition fires (tenant : Uuid) (condition : string) (t : TriggerRule) : bool :=
  bool_decide (tr_tenant t = tenant) && String.eqb (tr_condition t) condition && tr_enabled t.

Definition fire (tenant : Uuid) (condition : string) (event : Json) : Op Srv Z :=
  triggers ← select TTrigger (fires tenant condition);
  op_for triggers (fun t =>
    id ← new_v4;
    n ← now;
    insert_unique TOutbox ob_id (mkOutbox id tenant (tr_id t) event 0 n None None n)) ;;
  mret (len triggers).

Definition HMAC_BLOCK : Z := 64.

Definition xor_byte (m : Z) (b : byte) : byte := byte_of_Z (Z.lxor (u8 b) m).

(** [key.resize(BLOCK, 0)] *)
Definition resize (n : nat) (l : bytes) : bytes := take n (l ++ repeat x00 n).

Definition hmac_key `{Sha256} (secret : string) : bytes :=
  let key := str_bytes secret in
  let key := if HMAC_BLOCK <? len key then sha256_digest key else key in
  resize (Z.to_nat HMAC_BLOCK) key.

Definition hmac_signature `{Sha256, HexCodec} (secret : string) (body : bytes) : string :=
  let key := hmac_key secret in
  let ipad := map (xor_byte 0x36) key in
  let opad := map (xor_byte 0x5c) key in
  let inner_hash := sha256_digest (ipad ++ body) in
  hex_encode (sha256_digest (opad ++ inner_hash)).

Record DueRow := mkDueRow {
  du_id : Uuid; du_trigger : Uuid; du_url : string; du_secret : string; du_event : Json; du_attempts : Z }.

(** The join of an outbox row with its trigger rule. *)
Definition due_row (rules : list TriggerRule) (o : Outbox) : option DueRow :=
  t ← head (List.filter (fun t => bool_decide (tr_id t = ob_trigger_id o)) rules);
  Some (mkDueRow (ob_id o) (ob_trigger_id o) (tr_webhook_url t) (tr_hmac_secret t) (ob_event o) (ob_attempts o)).

Definition is_due (n : Time) (o : Outbox) : bool :=
  (match ob_delivered_at o with None => true | Some _ => false end) && (ob_next_attempt_at o <=? n).

Definition due_rows (n : Time) (outbox : list Outbox) (rules : list TriggerRule) : list DueRow :=
  take 20 (omap (due_row rules)
    (sort_by (fun a b => ob_next_attempt_at a <=? ob_next_attempt_at b) (List.filter (is_due n) outbox))).

Definition is_success (status : Z) : bool := (200 <=? status) && (status <? 300).

(** [(5i64 * 2i64.pow(attempts as u32)).min(300)] *)
Definition backoff (attempts : Z) : Z := Z.min (5 * 2 ^ attempts) 300.

Definition ob_set (o : Outbox) (attempts : Z) (next : Time) (delivered : option Time) (err : option string) : Outbox :=
  mkOutbox (ob_id o) (ob_tenant o) (ob_trigger_id o) (ob_event o) attempts next delivered err (ob_created_at o).

Section delivery.
  Context {SHA : Sha256} {HEX : HexCodec} {JT : JsonText} {WH : Webhook}.

(** One row of the sweep; returns whether it was delivered. *)
Definition deliver_one (d : DueRow) : Op Srv Z :=
  let body := json_to_string (du_event d) in
  let sig := hmac_signature (du_secret d) (str_bytes body) in
  let is_row := fun o : Outbox => bool_decide (ob_id o = du_id d) in
  let failed (err : string) :=
    if 8 <=? du_attempts d + 1 then
      n ← now;
      update_rows TOutbox is_row (fun o => ob_set o (ob_attempts o + 1) (ob_next_attempt_at o) (Some n) (Some err)) ;;
      mret 0
    else
      n ← now;
      update_rows TOutbox is_row
        (fun o => ob_set o (ob_attempts o + 1) (n + backoff (du_attempts d)) (ob_delivered_at o) (Some err)) ;;
      mret 0 in
  match http_post (du_id d) (du_attempts d) (du_url d) ("sha256=" +:+ sig) body with
  | inr status =>
      if is_success status then
        n ← now;
        update_rows TOutbox is_row
          (fun o => ob_set o (ob_attempts o) (ob_next_attempt_at o) (Some n) (ob_last_error o)) ;;
        mret 1
      else failed ("http " +:+ show_Z status)
  | inl e => failed e
  end.

Definition deliver_pending : Op Srv Z :=
  n ← now;
  due ← gets (fun s => due_rows n (rows TOutbox s) (rows TTrigger s));
  op_fold due 0 (fun delivered d => k ← deliver_one d; mret (delivered + k)).
End delivery.

(** ** detect.rs *)

Record DetectionInput := mkDetectionInput {
  di_source : string; di_severity : string; di_title : string; di_detail : Json; di_mitre : list string }.

(** [record] *)
Definition record_detection (tenant artifact : Uuid) (input : DetectionInput) : Op Srv Uuid :=
  id ← new_v4;
  t ← now;
  insert_unique TDetection de_id
    (mkDetection id tenant artifact (di_source input) (di_severity input) (di_title input)
                 (di_detail input) (di_mitre input) t) ;;
  mret id.

Definition newest_first (a b : Detection) : bool := de_created_at b <=? de_created_at a.

(** [for_artifact] and [recent] *)
Definition detections_for_artifact (tenant artifact : Uuid) (limit : Z) : Op Srv (list Detection) :=
  l ← select TDetection (fun d => bool_decide (de_tenant d = tenant) && bool_decide (de_artifact_id d = artifact));
  mret (take (Z.to_nat limit) (sort_by newest_first l)).

Definition detections_recent (tenant : Uuid) (limit : Z) : Op Srv (list Detection) :=
  l ← select TDetection (fun d => bool_decide (de_tenant d = tenant));
  mret (take (Z.to_nat limit) (sort_by newest_first l)).

Definition push_unique (out : list string) (tech : string) : list string :=
  if existsb (fun t => String.eqb t tech) out then out else out ++ [tech].

(** The label fragments of [heuristic_mitre] and the technique each adds. *)
Definition mitre_table : list (list string * string) :=
  [ (["inject"; "process_hollow"], "T1055");
    (["persist"; "runkey"; "scheduled"], "T1547");
    (["ransom"; "encrypt"], "T1486");
    (["c2"; "beacon"; "backdoor"], "T1071");
    (["steal"; "credential"; "mimikatz"], "T1003");
    (["dropper"; "downloader"], "T1105");
    (["pack"; "obfus"], "T1027") ]%string.

Definition mitre_label (out : list string) (l : string) : list string :=
  let lower := str_lower l in
  foldl (fun out e => if existsb (fun frag => str_contains frag lower) (fst e) then push_unique out (snd e) else out)
        out mitre_table.

Definition heuristic_mitre (labels : list string) : list string := foldl mitre_label [] labels.

(** ** opinions.rs *)

Definition OPINIONS : list string := ["trusted"; "grayware"; "vulnerable"; "malicious"; "suspicious"]%string.

Definition opinion_newest (a b : Opinion) : bool := op_created_at b <=? op_created_at a.

Definition is_current (tenant artifact : Uuid) (o : Opinion) : bool :=
  bool_decide (op_tenant o = tenant) && bool_decide (op_artifact_id o = artifact) &&
  match op_superseded_by o with None => true | Some _ => false end.

Definition current_opinion (tenant artifact : Uuid) : Op Srv (option Opinion) :=
  l ← select TOpinion (is_current tenant artifact);
  mret (head (sort_by opinion_newest l)).

Definition opinion_history (tenant artifact : Uuid) : Op Srv (list Opinion) :=
  l ← select TOpinion (fun o => bool_decide (op_tenant o = tenant) && bool_decide (op_artifact_id o = artifact));
  mret (sort_by (fun a b => op_created_at a <=? op_created_at b) l).

Definition supersede_opinion (prev by_ : Uuid) (o : Opinion) : Opinion :=
  mkOpinion (op_id o) (op_tenant o) (op_artifact_id o) (op_opinion o) (op_actor o) (op_reason o)
            (op_created_at o) (Some by_).

(** The transaction of [set_opinion]. *)
Definition set_opinion_tx `{UuidDisplay} (tenant artifact id : Uuid) (opinion actor reason : string) : Op Srv unit :=
  previous ← current_opinion tenant artifact;
  (match previous with
   | Some p => update_rows TOpinion (fun o => bool_decide (op_tenant o = tenant) && bool_decide (op_id o = op_id p))
                 (supersede_opinion (op_id p) id) ;; mret tt
   | None => mret tt
   end) ;;
  t ← now;
  insert_unique TOpinion op_id (mkOpinion id tenant artifact opinion actor reason t None) ;;
  aid ← new_v4;
  t2 ← now;
  insert_unique TAudit ae_id
    (mkAuditEvent aid tenant actor "opinion.set" (uuid_to_string artifact)
       (JObj [("opinion", JStr opinion); ("reason", JStr reason); ("opinion_id", JStr (uuid_to_string id))]%string) t2).

Definition set_opinion `{UuidDisplay} (tenant artifact : Uuid) (opinion actor reason : string) : Op Srv Uuid :=
  let opinion := str_lower opinion in
  if negb (existsb (String.eqb opinion) OPINIONS) then throw (BadRequest "invalid opinion")
  else
    id ← new_v4;
    db_transaction (set_opinion_tx tenant artifact id opinion actor reason) ;;
    (if String.eqb opinion "malicious" || String.eqb opinion "suspicious" then
       fire tenant CONDITION_MALICIOUS_VERDICT
         (JObj [("type", JStr "malicious_verdict"); ("artifact_id", JStr (uuid_to_string artifact));
                ("opinion", JStr opinion); ("actor", JStr actor); ("reason", JStr reason)]%string) ;;
       mret tt
     else mret tt) ;;
    mret id.

Definition artifact_for_sha `{HexCodec} (tenant : Uuid) (sha256_hex : string) : Op Srv (option Uuid) :=
  match hex_to_raw sha256_hex with
  | None => throw (BadRequest "invalid sha256 hex")
  | Some raw =>
      a ← select_optional TArtifact (fun a => bool_decide (art_tenant a = tenant) && bool_decide (art_sha256 a = raw));
      mret (art_id <$> a)
  end.

(** ** The delivery outbox *)

(** A row is sent at most eight times, and the eighth failure closes it. *)
Definition outbox_row_wf (o : Outbox) : Prop :=
  0 <= ob_attempts o <= 8 /\ (ob_attempts o = 8 -> is_Some (ob_delivered_at o)).

Definition outbox_wf (s : Srv) : Prop := unique_key TOutbox ob_id s /\ all_rows TOutbox outbox_row_wf s.

(** The rows a sweep still has to process are as they were read. *)
Definition due_current (rest : list DueRow) (s : Srv) : Prop :=
  forall d o, In d rest -> In o (rows TOutbox s) -> ob_id o = du_id d ->
    ob_attempts o = du_attempts d /\ ob_delivered_at o = None.

Section outbox_lemmas.
  Context {SHA : Sha256} {HEX : HexCodec} {JT : JsonText} {WH : Webhook}.

(** A delivery rewrites the row it was read from, keeping the bounds. *)
Lemma deliver_one_rows d s :
  exists g, rows TOutbox (snd (deliver_one d s)) =
              map (fun o => if bool_decide (ob_id o = du_id d) then g o else o) (rows TOutbox s) /\
            (forall o, ob_id (g o) = ob_id o) /\
            (forall o, outbox_row_wf o -> ob_attempts o = du_attempts d -> ob_delivered_at o = None -> outbox_row_wf (g o)) /\
            is_ret (fst (deliver_one d s)) = true.
Proof.
  unfold deliver_one. op_unfold.
  assert (Hfail : forall err, exists g,
    rows TOutbox (snd ((if 8 <=? du_attempts d + 1 then
      n ← now; update_rows TOutbox (fun o => bool_decide (ob_id o = du_id d))
        (fun o => ob_set o (ob_attempts o + 1) (ob_next_attempt_at o) (Some n) (Some err)) ;; mret 0
    else
      n ← now; update_rows TOutbox (fun o => bool_decide (ob_id o = du_id d))
        (fun o => ob_set o (ob_attempts o + 1) (n + backoff (du_attempts d)) (ob_delivered_at o) (Some err)) ;; mret 0) s)) =
      map (fun o => if bool_decide (ob_id o = du_id d) then g o else o) (rows TOutbox s) /\
    (forall o, ob_id (g o) = ob_id o) /\
    (forall o, outbox_row_wf o -> ob_attempts o = du_attempts d -> ob_delivered_at o = None -> outbox_row_wf (g o))).
  { intros err. destruct (8 <=? du_attempts d + 1) eqn:E; op_unfold; cbn [fst snd];
      eexists; (split; [apply rows_set_rows_eq|]); (split; [done|]).
    - intros o [[H1 H2] H3] Ha Hd. split; cbn; [|by eexists].
      assert (ob_attempts o <> 8) by (intros Heq; rewrite Hd in H3; by destruct (H3 Heq)). lia.
    - intros o [[H1 H2] H3] Ha Hd. apply Z.leb_gt in E. split; cbn; [lia|]. intros ?. lia. }
  destruct (http_post _ _ _ _ _) as [e|status].
  - destruct (Hfail e) as (g & H1 & H2 & H3). exists g. repeat split; [exact H1|done|by apply H3..|].
    by destruct (8 <=? _).
  - destruct (is_success status).
    + eexists. split; [apply rows_set_rows_eq|]. split; [done|]. split; [|done].
      intros o [H1 H2] Ha Hd. split; cbn; [done|by eexists].
    + destruct (Hfail ("http " +:+ show_Z status)) as (g & H1 & H2 & H3). exists g.
      repeat split; [exact H1|done|by apply H3..|]. by destruct (8 <=? _).
Qed.

Lemma deliver_one_keeps d rest s :
  ~ In (du_id d) (map du_id rest) ->
  outbox_wf s -> due_current (d :: rest) s ->
  outbox_wf (snd (deliver_one d s)) /\ due_current rest (snd (deliver_one d s)).
Proof.
  intros Hnd [Hu Hw] Hc. destruct (deliver_one_rows d s) as (g & Hr & Hid & Hg & _).
  unfold outbox_wf, unique_key, all_rows, due_current. rewrite Hr. split; [split|].
  - rewrite map_map. erewrite map_ext; [exact Hu|]. intros o. cbn. by case_bool_decide.
  - unfold all_rows in Hw. rewrite List.Forall_forall in *. intros o' Ho'.
    apply in_map_iff in Ho' as (o & <- & Ho). case_bool_decide as Hd; [|auto].
    destruct (Hc d o) as [Ha Hdel]; [by left|done|done|]. auto.
  - intros d' o' Hd' Ho'. apply in_map_iff in Ho' as (o & <- & Ho). case_bool_decide as Hd.
    + rewrite Hid, Hd. intros Heq. exfalso. apply Hnd. rewrite Heq. by apply in_map.
    + intros Heq. apply (Hc d' o); [by right|done|done].
Qed.

Lemma deliver_fold_keeps due acc s :
  List.NoDup (map du_id due) -> outbox_wf s -> due_current due s ->
  outbox_wf (snd (op_fold due acc (fun delivered d => k ← deliver_one d; mret (delivered + k)) s)) /\
  is_ret (fst (op_fold due acc (fun delivered d => k ← deliver_one d; mret (delivered + k)) s)) = true.
Proof.
  revert acc s. induction due as [|d rest IH]; intros acc s Hnd Hw Hc; cbn [op_fold]; [by split|].
  inversion Hnd as [|? ? Hd Hrest]; subst. destruct (deliver_one_keeps d rest s Hd Hw Hc) as [Hw' Hc'].
  destruct (deliver_one_rows d s) as (_ & _ & _ & _ & Hret).
  unfold mbind at 1 3, op_mbind at 1 3. unfold mbind, op_mbind, mret, op_mret at 1 3.
  destruct (deliver_one d s) as [[k|e|] s']; [|done..]. by apply IH.
Qed.

Lemma due_row_fields rules o d :
  due_row rules o = Some d -> du_id d = ob_id o /\ du_attempts d = ob_attempts o.
Proof. unfold due_row. destruct (head _); cbn; [|done]. by intros [= <-]. Qed.

Lemma nodup_omap_ids rules (l : list Outbox) :
  List.NoDup (map ob_id l) -> List.NoDup (map du_id (omap (due_row rules) l)).
Proof.
  induction l as [|o l IH]; cbn; [constructor|]. intros Hnd. inversion Hnd as [|? ? Ho Hl]; subst.
  destruct (due_row rules o) as [d|] eqn:E; [|auto]. apply due_row_fields in E as [Ei _].
  cbn. constructor; [|auto]. rewrite Ei. intros Hin. apply Ho.
  apply in_map_iff in Hin as (d' & Hd' & Hin). apply list_elem_of_In, list_elem_of_omap in Hin as (o' & Ho' & E').
  apply due_row_fields in E' as [E' _]. rewrite <- Hd', E'. apply in_map. by apply list_elem_of_In.
Qed.

Lemma nodup_filter_map {A B} (f : A -> B) p l : List.NoDup (map f l) -> List.NoDup (map f (List.filter p l)).
Proof.
  induction l as [|x l IH]; cbn; [constructor|]. intros Hnd. inversion Hnd as [|? ? Hx Hl]; subst.
  destruct (p x); cbn; [constructor|]; auto. intros Hin. apply Hx.
  apply in_map_iff in Hin as (y & <- & Hy). apply filter_In in Hy as [Hy _]. by apply in_map.
Qed.

Lemma nodup_take_map {A B} (f : A -> B) n l : List.NoDup (map f l) -> List.NoDup (map f (take n l)).
Proof.
  intros Hnd. rewrite <- (take_drop n l), map_app in Hnd. by apply List.NoDup_app_remove_r in Hnd.
Qed.

Lemma due_rows_current n s :
  unique_key TOutbox ob_id s ->
  let due := due_rows n (rows TOutbox s) (rows TTrigger s) in
  List.NoDup (map du_id due) /\ due_current due s.
Proof.
  intros Hu due. apply NoDup_ListNoDup in Hu. split.
  - apply nodup_take_map, nodup_omap_ids. eapply Permutation_NoDup.
    { apply Permutation_map. symmetry. apply sort_by_perm. }
    by apply nodup_filter_map.
  - intros d o Hd Ho Hid. subst due. unfold due_rows in Hd.
    apply list_elem_of_In, elem_of_take in Hd as (i & Hd & _).
    apply list_elem_of_lookup_2, list_elem_of_omap in Hd as (o' & Ho' & Hr).
    apply list_elem_of_In, sort_by_in, filter_In in Ho' as [Ho' Hdue].
    destruct (due_row_fields _ _ _ Hr) as [Hi Ha].
    assert (o = o') as ->.
    { clear - Hu Ho Ho' Hid Hi. rewrite Hi in Hid. clear Hi.
      induction (rows TOutbox s) as [|x l IH]; [done|]. inversion Hu as [|? ? Hx Hl]; subst.
      destruct Ho as [->|Ho], Ho' as [->|Ho']; [done| | |auto].
      - exfalso. apply Hx. rewrite Hid. by apply in_map.
      - exfalso. apply Hx. rewrite <- Hid. by apply in_map. }
    split; [done|]. unfold is_due in Hdue. apply andb_true_iff in Hdue as [Hdue _].
    by destruct (ob_delivered_at o').
Qed.

Lemma fire_outbox_wf tenant condition event : keeps outbox_wf (fire tenant condition event).
Proof.
  unfold fire. apply keeps_bind; [auto with corpus|]. intros triggers.
  apply keeps_bind; [|auto with corpus]. apply keeps_for. intros t _.
  apply keeps_bind; [by intros s|]. intros id. apply keeps_bind; [by intros s|]. intros n.
  apply keeps_insert_unique, keeps_and; [apply keeps_unique_insert_on_conflict|].
  apply keeps_all_rows_insert_on_conflict. split; cbn; [lia|done].
Qed.

(** Delivery attempts are bounded: events are queued with zero attempts, and a
    sweep keeps every row at no more than eight attempts, the eighth failure
    closing it, whatever the webhooks answer; the sweep never fails. *)
Theorem delivery_attempts_bounded s :
  outbox_wf s ->
  (forall tenant condition event, outbox_wf (snd (fire tenant condition event s))) /\
  outbox_wf (snd (deliver_pending s)) /\ is_ret (fst (deliver_pending s)) = true.
Proof.
  intros Hw. split; [intros; by apply fire_outbox_wf|]. unfold deliver_pending.
  change ((now ≫= _) s) with
    (op_fold (due_rows (srv_clock s (srv_clock_next s)) (rows TOutbox (snd (now s))) (rows TTrigger (snd (now s)))) 0
       (fun delivered d => k ← deliver_one d; mret (delivered + k)) (snd (now s))).
  destruct (due_rows_current (srv_clock s (srv_clock_next s)) (snd (now s)) (proj1 Hw)) as [Hnd Hc].
  by apply deliver_fold_keeps.
Qed.

(** The wait before a retry doubles from five seconds and never exceeds five
    minutes, at every attempt count a row can have. *)
Theorem backoff_bounds a : 0 <= a <= 7 -> 5 <= backoff a <= 300 /\ backoff a <= backoff (a + 1) <= 2 * backoff a.
Proof.
  intros Ha. unfold backoff. rewrite Z.pow_add_r by lia. change (2 ^ 1) with 2.
  assert (1 <= 2 ^ a) by (apply (Z.pow_le_mono_r 2 0 a); lia). lia.
Qed.
End outbox_lemmas.

(** ** Opinions and technique labels *)

Lemma push_unique_in out x t : In t (push_unique out x) <-> In t out \/ t = x.
Proof.
  unfold push_unique. destruct (existsb _ _) eqn:E.
  - apply existsb_exists in E as (y & Hy & Heq). apply String.eqb_eq in Heq. subst. naive_solver.
  - rewrite in_app_iff. cbn. naive_solver.
Qed.

Lemma push_unique_nodup out x : List.NoDup out -> List.NoDup (push_unique out x).
Proof.
  intros Hnd. unfold push_unique. destruct (existsb _ _) eqn:E; [done|].
  apply NoDup_ListNoDup. apply NoDup_ListNoDup in Hnd. apply NoDup_app. split; [done|].
  split; [|apply NoDup_singleton]. intros y Hy Hy'. apply list_elem_of_singleton in Hy' as ->.
  apply list_elem_of_In in Hy.
  pose proof (proj1 (existsb_false_forall _ _) E x Hy) as Hx. cbn in Hx. by rewrite String.eqb_refl in Hx.
Qed.

(** A label earns a technique when it contains one of its fragments. *)
Definition label_has (l t : string) : Prop :=
  exists frags frag, In (frags, t) mitre_table /\ In frag frags /\ str_contains frag (str_lower l) = true.

Lemma mitre_fold_spec (tbl : list (list string * string)) lower out :
  List.NoDup out ->
  let r := foldl (fun out e => if existsb (fun frag => str_contains frag lower) (fst e) then push_unique out (snd e) else out) out tbl in
  List.NoDup r /\
  (forall t, In t r <-> In t out \/ exists frags frag, In (frags, t) tbl /\ In frag frags /\ str_contains frag lower = true).
Proof.
  revert out. induction tbl as [|[frags tech] tbl IH]; intros out Hnd; cbn.
  { split; [done|]. naive_solver. }
  set (out' := if existsb _ _ then _ else _).
  assert (Hnd' : List.NoDup out') by (unfold out'; case_match; [by apply push_unique_nodup|done]).
  destruct (IH out' Hnd') as [H1 H2]. split; [exact H1|]. intros t. rewrite H2.
  assert (Hout : In t out' <-> In t out \/ (t = tech /\ exists frag, In frag frags /\ str_contains frag lower = true)).
  { unfold out'. destruct (existsb _ _) eqn:E; cbn in E.
    - apply existsb_exists in E. rewrite push_unique_in. naive_solver.
    - rewrite existsb_false_forall in E. split; [auto|]. intros [?|(-> & f & Hf & Hc)]; [done|].
      rewrite E in Hc; done. }
  rewrite Hout. split.
  - intros [[?|(-> & f & Hf & Hc)]|(fs & f & Hin & Hf & Hc)]; [by left| |].
    + right. exists frags, f. auto.
    + right. exists fs, f. auto.
  - intros [?|(fs & f & [[= -> ->]|Hin] & Hf & Hc)]; [by left; left| |].
    + left. right. eauto.
    + right. eauto.
Qed.

(** The technique list is a set, and holds a technique exactly when a label
    contains one of the fragments the table gives it. *)
Theorem heuristic_mitre_spec labels :
  List.NoDup (heuristic_mitre labels) /\
  forall t, In t (heuristic_mitre labels) <-> exists l, In l labels /\ label_has l t.
Proof.
  unfold heuristic_mitre.
  assert (Hgen : forall out, List.NoDup out ->
    List.NoDup (foldl mitre_label out labels) /\
    forall t, In t (foldl mitre_label out labels) <-> In t out \/ exists l, In l labels /\ label_has l t).
  { induction labels as [|l labels IH]; intros out Hnd; cbn [foldl].
    - split; [done|]. naive_solver.
    - destruct (mitre_fold_spec mitre_table (str_lower l) out Hnd) as [H1 H2]. cbn zeta in *.
      destruct (IH (mitre_label out l) H1) as [H3 H4]. split; [exact H3|]. intros t. rewrite H4.
      unfold mitre_label at 1. rewrite H2. fold (label_has l t). split.
      + intros [[?|Hl]|(l' & Hin & Hl)]; [by left|right; exists l; by split; [left|]|right; exists l'; by split; [right|]].
      + intros [?|(l' & [<-|Hin] & Hl)]; [by left; left|by left; right|right; by exists l']. }
  destruct (Hgen [] (List.NoDup_nil _)) as [H1 H2]. split; [done|]. intros t. rewrite H2. naive_solver.
Qed.

(** Of each artifact at most one opinion is current. *)
Definition opinions_wf (s : Srv) : Prop :=
  forall t a, (length (List.filter (is_current t a) (rows TOpinion s)) <= 1)%nat.

(** What an opinion says, its supersession apart. *)
Definition opinion_content (o : Opinion) : Uuid * Uuid * Uuid * string * string * string * Time :=
  (op_id o, op_tenant o, op_artifact_id o, op_opinion o, op_actor o, op_reason o, op_created_at o).

Lemma filter_map_le {A} (p : A -> bool) (f : A -> A) l :
  (forall x, p (f x) = true -> p x = true) ->
  (length (List.filter p (map f l)) <= length (List.filter p l))%nat.
Proof.
  intros Hf. induction l as [|x l IH]; cbn; [lia|].
  destruct (p (f x)) eqn:E; [rewrite (Hf x E)|destruct (p x)]; cbn; lia.
Qed.

Section opinions.
  Context {UD : UuidDisplay}.

(** The rows after the previous opinion is superseded: none is current. *)
Lemma supersede_previous tenant artifact id s :
  opinions_wf s ->
  exists f, (forall o, opinion_content (f o) = opinion_content o) /\
    (forall t a o, is_current t a (f o) = true -> is_current t a o = true) /\
    List.filter (is_current tenant artifact) (map f (rows TOpinion s)) = [] /\
    snd ((previous ← current_opinion tenant artifact;
      match previous with
      | Some p => update_rows TOpinion (fun o => bool_decide (op_tenant o = tenant) && bool_decide (op_id o = op_id p))
                    (supersede_opinion (op_id p) id) ;; mret tt
      | None => mret tt
      end) s) = match head (List.filter (is_current tenant artifact) (rows TOpinion s)) with
                | Some _ => set_rows TOpinion (map f (rows TOpinion s)) s
                | None => s
                end /\
    (head (List.filter (is_current tenant artifact) (rows TOpinion s)) = None -> forall o, f o = o).
Proof.
  intros Hw. specialize (Hw tenant artifact). unfold current_opinion. op_unfold. unfold select, gets. cbn -[rows set_rows].
  destruct (List.filter (is_current tenant artifact) (rows TOpinion s)) as [|p [|q l]] eqn:E; cbn -[rows set_rows] in *; [| |lia].
  - exists (fun o => o). rewrite map_id, E. done.
  - exists (fun o => if bool_decide (op_tenant o = tenant) && bool_decide (op_id o = op_id p)
                     then supersede_opinion (op_id p) id o else o).
    assert (Hc : forall t a o, is_current t a (if bool_decide (op_tenant o = tenant) && bool_decide (op_id o = op_id p)
                     then supersede_opinion (op_id p) id o else o) = true -> is_current t a o = true).
    { intros t a o. case_match; [|done]. unfold is_current. cbn. by rewrite andb_false_r. }
    split; [intros o; by case_match|]. split; [exact Hc|]. split; [|done].
    assert (Hin : forall o, In o (rows TOpinion s) -> is_current tenant artifact o = true -> o = p).
    { intros o Ho Hp. assert (H : In o [p]) by (rewrite <- E; by apply filter_In). by destruct H. }
    assert (Hpc : is_current tenant artifact p = true).
    { assert (H : In p (List.filter (is_current tenant artifact) (rows TOpinion s))) by (rewrite E; by left).
      apply filter_In in H as [_ H]. exact H. }
    clear E Hw. induction (rows TOpinion s) as [|o l IH]; [done|]. cbn [map List.filter].
    rewrite IH by (intros; apply Hin; [by right|done]).
    match goal with |- (if is_current _ _ ?x then _ else _) = _ => destruct (is_current tenant artifact x) eqn:Eo end; [|done].
    exfalso. pose proof (Hc _ _ _ Eo) as Hcur. rewrite (Hin o (or_introl eq_refl) Hcur) in Eo.
    unfold is_current in Hpc. apply andb_true_iff in Hpc as [Hpc _]. apply andb_true_iff in Hpc as [Hpc _].
    rewrite Hpc, bool_decide_true in Eo by done. unfold is_current in Eo. cbn in Eo. by rewrite andb_false_r in Eo.
Qed.

(** What the transaction leaves in the table. *)
Lemma set_opinion_tx_rows tenant artifact id opinion actor reason s s' :
  opinions_wf s -> set_opinion_tx tenant artifact id opinion actor reason s = (Ret tt, s') ->
  exists f t, (forall o, opinion_content (f o) = opinion_content o) /\
    (forall t a o, is_current t a (f o) = true -> is_current t a o = true) /\
    List.filter (is_current tenant artifact) (map f (rows TOpinion s)) = [] /\
    rows TOpinion s' = map f (rows TOpinion s) ++ [mkOpinion id tenant artifact opinion actor reason t None].
Proof.
  intros Hw Hr. destruct (supersede_previous tenant artifact id s Hw) as (f & H1 & H2 & H3 & H4 & H5).
  exists f. unfold set_opinion_tx in Hr. rewrite bind_ret in Hr. destruct Hr as (prev & s0 & Hc & Hr).
  rewrite bind_ret in Hr. destruct Hr as ([] & s1 & Hu & Hr).
  unfold mbind at 1, op_mbind at 1 in H4. rewrite Hc in H4. rewrite Hu in H4. cbn [snd] in H4.
  assert (Hrows : rows TOpinion s1 = map f (rows TOpinion s)).
  { rewrite H4. destruct (head _); [by rewrite rows_set_rows_eq|].
    rewrite map_ext with (g := fun o => o); [by rewrite map_id|]. by apply H5. }
  rewrite bind_ret in Hr. destruct Hr as (t & s2 & Ht & Hr). exists t. do 3 (split; [done|]).
  rewrite bind_ret in Hr. destruct Hr as ([] & s3 & Hi & Hr).
  assert (Hs3 : rows TOpinion s3 = rows TOpinion s1 ++ [mkOpinion id tenant artifact opinion actor reason t None]).
  { unfold insert_unique in Hi. rewrite bind_ret in Hi. destruct Hi as (b & s4 & Hi & Hb).
    unfold insert_on_conflict in Hi. injection Ht as _ <-. destruct (existsb _ _); injection Hi as <- <-; [done|].
    injection Hb as <-. by rewrite rows_set_rows_eq. }
  transitivity (rows TOpinion s3); [|by rewrite Hs3, Hrows].
  match type of Hr with ?m s3 = _ => assert (Hf : frames (rows TOpinion) m) by frames_tac end.
  specialize (Hf s3). by rewrite Hr in Hf.
Qed.

Lemma set_opinion_tx_wf tenant artifact id opinion actor reason :
  keeps opinions_wf (db_transaction (set_opinion_tx tenant artifact id opinion actor reason)).
Proof.
  intros s Hw. unfold db_transaction, transaction.
  destruct (set_opinion_tx tenant artifact id opinion actor reason s) as [[[]|e|] s'] eqn:E; cbn; [|done..].
  destruct (set_opinion_tx_rows _ _ _ _ _ _ _ _ Hw E) as (f & t & _ & H2 & H3 & Hr).
  intros t' a'. rewrite Hr, List.filter_app, length_app.
  pose proof (filter_map_le (is_current t' a') f (rows TOpinion s) (H2 t' a')) as Hle.
  specialize (Hw t' a'). cbn [List.filter]. destruct (is_current t' a' _) eqn:Ec; cbn; [|lia].
  unfold is_current in Ec. cbn in Ec. rewrite andb_true_r in Ec. apply andb_true_iff in Ec as [E1 E2].
  apply bool_decide_eq_true in E1, E2. subst. rewrite H3. cbn. lia.
Qed.

Lemma fire_frames_opinions tenant c e : frames (rows TOpinion) (fire tenant c e).
Proof. unfold fire. frames_tac. Qed.

(** Setting an opinion supersedes the previous one: of every artifact at most
    one opinion stays current whatever happens, and when the call returns, the
    current opinion of the artifact is the one that was set and nothing said
    before was lost or altered. *)
Theorem set_opinion_spec tenant artifact opinion actor reason s :
  opinions_wf s ->
  let '(r, s') := set_opinion tenant artifact opinion actor reason s in
  opinions_wf s' /\
  forall id, r = Ret id ->
    In (str_lower opinion) OPINIONS /\
    exists t, let new := mkOpinion id tenant artifact (str_lower opinion) actor reason t None in
      fst (current_opinion tenant artifact s') = Ret (Some new) /\
      map opinion_content (rows TOpinion s') = map opinion_content (rows TOpinion s) ++ [opinion_content new].
Proof.
  intros Hw. destruct (set_opinion _ _ _ _ _ s) as [r s'] eqn:E.
  assert (Hk : keeps opinions_wf (set_opinion tenant artifact opinion actor reason)).
  { unfold set_opinion. destruct (negb _); [auto with corpus|].
    apply keeps_bind; [by intros ? ?|]. intros id. apply keeps_bind; [apply set_opinion_tx_wf|]. intros _.
    apply (frames_keeps_view (rows TOpinion) (fun l => forall t a, (length (List.filter (is_current t a) l) <= 1)%nat)).
    apply frames_bind; [|done]. destruct (_ || _); [|done]. apply frames_bind; [apply fire_frames_opinions|done]. }
  split; [specialize (Hk s Hw); by rewrite E in Hk|]. intros id ->.
  unfold set_opinion in E. destruct (existsb (String.eqb (str_lower opinion)) OPINIONS) eqn:Eo; cbn [negb] in E; [|done].
  split. { apply existsb_exists in Eo as (x & Hx & Heq). apply String.eqb_eq in Heq. by subst. }
  rewrite bind_ret in E. destruct E as (id' & s1 & [= <- <-] & E).
  rewrite bind_ret in E. destruct E as ([] & s2 & Et & E).
  unfold db_transaction, transaction in Et.
  destruct (set_opinion_tx _ _ _ _ _ _ _) as [[[]|?|] s2'] eqn:Etx; simplify_eq.
  apply set_opinion_tx_rows in Etx as (f & t & H1 & H2 & H3 & Hr); [|done].
  rewrite bind_ret in E. destruct E as ([] & s3 & Ef & [= <- <-]).
  assert (Hs3 : rows TOpinion s3 = rows TOpinion s2).
  { match type of Ef with ?m s2 = _ => assert (Hf : frames (rows TOpinion) m) end.
    { destruct (_ || _); [|done]. apply frames_bind; [apply fire_frames_opinions|done]. }
    specialize (Hf s2). by rewrite Ef in Hf. }
  exists t. cbn zeta. split.
  - unfold current_opinion, select. op_unfold. unfold gets. rewrite Hs3, Hr, List.filter_app. rewrite H3.
    cbn [app List.filter]. unfold is_current at 1. cbn. by rewrite !bool_decide_true.
  - rewrite Hs3, Hr, map_app, map_map. cbn. f_equal. by apply map_ext.
Qed.
End opinions.

(** ** Witnesses *)

Section witnesses.
  Local Existing Instance ReferenceHash.sha.
  Local Existing Instance ReferenceHash.hex.
  Local Existing Instance ReferenceUuid.display.

Definition empty_json : JsonText := fun _ => "{}"%string.

(** A webhook that always answers 500. *)
Definition failing_hook : Webhook := fun _ _ _ _ _ => inr 500.
Local Existing Instance empty_json.
Local Existing Instance failing_hook.

(** A trigger and one queued event. *)
Definition one_event : Srv :=
  snd (fire 7%N CONDITION_HUNT_MATCH JNull
         (snd (create_trigger 7%N "n" CONDITION_HUNT_MATCH "https://example.org" (Some "k"%string) ReferenceServer.empty))).

Lemma delivery_attempts_bounded_witness :
  outbox_wf (snd (deliver_pending one_event)) /\
  map ob_attempts (rows TOutbox (snd (deliver_pending one_event))) = [1].
Proof.
  split; [|vm_compute; reflexivity]. apply (delivery_attempts_bounded one_event). split.
  - refine (bool_decide_unpack _ _). vm_compute. exact I.
  - unfold all_rows. vm_compute. constructor; [|constructor]. split; [split; discriminate|discriminate].
Defined.

Lemma backoff_bounds_witness : 5 <= backoff 3 <= 300.
Proof. apply (backoff_bounds 3). lia. Defined.

Lemma set_opinion_spec_witness :
  let '(r, s') := set_opinion 7%N 9%N "Malicious" "ana" "c2" ReferenceServer.empty in
  opinions_wf s' /\ r = Ret 100%N.
Proof.
  pose proof (set_opinion_spec 7%N 9%N "Malicious" "ana" "c2" ReferenceServer.empty) as H.
  destruct (set_opinion _ _ _ _ _ _) as [r s'] eqn:E. split.
  - apply H. intros t a. vm_compute. auto.
  - vm_compute in E. by injection E.
Defined.
End witnesses.
