(* ===== verification/Hunts.v ===== *)
(** * Hunts ([corpus-core/src/hunts.rs])

    Retro-hunts over the committed corpus and the forward scan of a newly
    committed artifact: planning under a pinned watermark, the scan loop with
    its cache, match bookkeeping, the job queue, and the final states.  Each
    handler is one operation; two handlers are taken to run one after the
    other. *)

From S2P Require Import Prelude Machine Text Hash Cas Schema Scan Rules Triggers.
From Stdlib Require Import Strings.Byte.

Open Scope Z_scope.

Section hunts.
  Context {YX : YaraX} {SH : ScannerHost} {SHA : Sha256} {HEX : HexCodec} {UD : UuidDisplay}.

(** ** Rows of [hunt] *)

Definition hunt_is (tenant id : Uuid) (h : Hunt) : bool :=
  bool_decide (hu_tenant h = tenant) && bool_decide (hu_id h = id).

Definition hu_with_state (st : string) (h : Hunt) : Hunt :=
  mkHunt (hu_id h) (hu_tenant h) (hu_kind h) (hu_bundle_id h) (hu_bundle_digest h) st (hu_corpus_watermark h)
    (hu_planned_artifacts h) (hu_scanned h) (hu_cache_hits h) (hu_matched h) (hu_timed_out h) (hu_failed h)
    (hu_error h) (hu_created_at h) (hu_started_at h) (hu_completed_at h).

(** [SET state = 'FAILED', error = $3, completed_at = $4] *)
Definition hu_fail (msg : string) (t : Time) (h : Hunt) : Hunt :=
  mkHunt (hu_id h) (hu_tenant h) (hu_kind h) (hu_bundle_id h) (hu_bundle_digest h) "FAILED" (hu_corpus_watermark h)
    (hu_planned_artifacts h) (hu_scanned h) (hu_cache_hits h) (hu_matched h) (hu_timed_out h) (hu_failed h)
    (Some msg) (hu_created_at h) (hu_started_at h) (Some t).

(** [SET state = 'PLANNED', corpus_watermark, planned_artifacts, counters = 0, ...] *)
Definition hu_plan (watermark planned : Z) (h : Hunt) : Hunt :=
  mkHunt (hu_id h) (hu_tenant h) (hu_kind h) (hu_bundle_id h) (hu_bundle_digest h) "PLANNED" (Some watermark)
    planned 0 0 0 0 0 None (hu_created_at h) (hu_started_at h) None.

(** [SET state = 'RUNNING', started_at = COALESCE(started_at, t)] *)
Definition hu_run (t : Time) (h : Hunt) : Hunt :=
  mkHunt (hu_id h) (hu_tenant h) (hu_kind h) (hu_bundle_id h) (hu_bundle_digest h) "RUNNING" (hu_corpus_watermark h)
    (hu_planned_artifacts h) (hu_scanned h) (hu_cache_hits h) (hu_matched h) (hu_timed_out h) (hu_failed h)
    (hu_error h) (hu_created_at h) (Some (default t (hu_started_at h))) (hu_completed_at h).

(** The counters of the scan loop. *)
Record Counters := mkCounters { c_scanned : Z; c_cache_hits : Z; c_matched : Z; c_timed_out : Z; c_failed : Z }.

Definition hu_progress (c : Counters) (h : Hunt) : Hunt :=
  mkHunt (hu_id h) (hu_tenant h) (hu_kind h) (hu_bundle_id h) (hu_bundle_digest h) (hu_state h) (hu_corpus_watermark h)
    (hu_planned_artifacts h) (c_scanned c) (c_cache_hits c) (c_matched c) (c_timed_out c) (c_failed c)
    (hu_error h) (hu_created_at h) (hu_started_at h) (hu_completed_at h).

Definition hu_finish (st : string) (t : Time) (h : Hunt) : Hunt :=
  mkHunt (hu_id h) (hu_tenant h) (hu_kind h) (hu_bundle_id h) (hu_bundle_digest h) st (hu_corpus_watermark h)
    (hu_planned_artifacts h) (hu_scanned h) (hu_cache_hits h) (hu_matched h) (hu_timed_out h) (hu_failed h)
    (hu_error h) (hu_created_at h) (hu_started_at h) (Some t).

(** [SET scanned = scanned + $2, matched = matched + $3, ...] *)
Definition hu_forward_progress (d : Counters) (h : Hunt) : Hunt :=
  hu_progress (mkCounters (hu_scanned h + c_scanned d) (hu_cache_hits h) (hu_matched h + c_matched d)
                          (hu_timed_out h + c_timed_out d) (hu_failed h + c_failed d)) h.

(** ** Queries *)

Definition create_hunt (tenant : Uuid) (digest : string) : Op Srv Hunt :=
  bundle ← get_bundle tenant digest;
  id ← new_v4;
  t ← now;
  let h := new_hunt id tenant "retro" (br_id bundle) digest "DRAFT" t in
  insert_unique THunt hu_id h ;;
  mret h.

Definition get_hunt (tenant id : Uuid) : Op Srv Hunt :=
  row ← select_optional THunt (hunt_is tenant id);
  or_throw (NotFound "hunt ") row.

(** The comment says newest first; the query orders by [created_at]. *)
Definition list_hunts (tenant : Uuid) : Op Srv (list Hunt) :=
  l ← select THunt (fun h => bool_decide (hu_tenant h = tenant));
  mret (sort_by (fun a b => hu_created_at a <=? hu_created_at b) l).

Definition update_hunt (tenant id : Uuid) (f : Hunt -> Hunt) : Op Srv unit :=
  update_rows THunt (hunt_is tenant id) f ;; mret tt.

Definition set_state (tenant id : Uuid) (st : string) : Op Srv unit := update_hunt tenant id (hu_with_state st).

(** ** Matches and the scan cache *)

Definition match_key (m : HuntMatch) : Uuid * Uuid * string := (hm_hunt_id m, hm_artifact_id m, hm_rule_id m).

Definition commit_match (tenant hunt_id artifact : Uuid) (rule_id : string) (summary : Json) : Op Srv bool :=
  t ← now;
  insert_on_conflict TMatch match_key (mkHuntMatch hunt_id tenant artifact rule_id ENGINE_VERSION summary t).

Definition cache_row_key (c : ScanCache) : ScanCacheKey :=
  mkScanCacheKey (sc_tenant c) (sc_artifact_sha256 c) (sc_bundle_digest c) (sc_engine_version c) (sc_config_digest c).

Definition commit_cache_entry (key : ScanCacheKey) (status : string) (matched_rule_ids : list string)
    (duration_ms : Z) (error_code : option string) : Op Srv unit :=
  t ← now;
  insert_on_conflict TCache cache_row_key
    (mkScanCache (ck_tenant key) (ck_artifact_sha256 key) (ck_bundle_digest key) (ck_engine_version key)
       (ck_config_digest key) status matched_rule_ids duration_ms error_code t) ;;
  mret tt.

Record CacheHit := mkCacheHit { ch_status : string; ch_matched_rule_ids : list string }.

Definition cache_find (key : ScanCacheKey) (l : list ScanCache) : option CacheHit :=
  c ← head (List.filter (fun c => bool_decide (cache_row_key c = key)) l);
  Some (mkCacheHit (sc_status c) (sc_matched_rule_ids c)).

Definition cache_lookup (key : ScanCacheKey) : Op Srv (option CacheHit) := gets (fun s => cache_find key (rows TCache s)).

(** [serde_json::to_value] of a rule match. *)
Definition pattern_json (p : PatternEvidence) : Json :=
  JObj [("identifier", JStr (pe_identifier p)); ("offset", JInt (pe_offset p)); ("length", JInt (pe_length p))]%string.
Definition match_json (m : RuleMatchEvidence) : Json :=
  JObj [("rule_id", JStr (me_rule_id m)); ("namespace", JStr (me_namespace m));
        ("patterns", JArr (map pattern_json (me_patterns m)))]%string.

Definition fire_hunt_match (tenant hunt_id artifact : Uuid) (rule_id : string) : Op Srv unit :=
  fire tenant CONDITION_HUNT_MATCH
    (JObj [("type", JStr "hunt_match"); ("hunt_id", JStr (uuid_to_string hunt_id));
           ("artifact_id", JStr (uuid_to_string artifact)); ("rule_id", JStr rule_id)]%string) ;;
  mret tt.

(** ** Planning *)

(** [MAX(seq)] over the committed artifacts of the tenant, 0 when there is none. *)
Definition max_seq (tenant : Uuid) (l : list Artifact) : Z :=
  foldr Z.max 0 (map art_seq
    (List.filter (fun a => bool_decide (art_tenant a = tenant) && String.eqb (art_storage_state a) "committed") l)).

(** [tenant_id = $1 AND storage_state = 'committed' AND scope = 'endpoint' AND seq <= $2] *)
Definition in_plan (tenant : Uuid) (watermark : Z) (a : Artifact) : bool :=
  bool_decide (art_tenant a = tenant) && String.eqb (art_storage_state a) "committed" &&
  String.eqb (art_scope a) "endpoint" && (art_seq a <=? watermark).

Definition plan (tenant : Uuid) (watermark : Z) (l : list Artifact) : list Artifact :=
  sort_by (fun a b => art_seq a <=? art_seq b) (List.filter (in_plan tenant watermark) l).

Definition fail_hunt {A} (tenant id : Uuid) (msg : string) (e : Error) : Op Srv A :=
  t ← now;
  update_hunt tenant id (hu_fail msg t) ;;
  throw e.

Definition job_set (j : HuntJob) (claimed_at : option Time) (claimed_by : option string) (finished_at : option Time) : HuntJob :=
  mkHuntJob (hj_hunt_id j) (hj_tenant j) (hj_enqueued_at j) claimed_at claimed_by finished_at (hj_last_error j).

Definition enqueue_hunt (tenant hunt_id : Uuid) : Op Srv Hunt :=
  hunt ← get_hunt tenant hunt_id;
  if negb (String.eqb (hu_kind hunt) "retro") then throw (BadRequest "only retro hunts are run explicitly")
  else if String.eqb (hu_state hunt) "RUNNING" || String.eqb (hu_state hunt) "QUEUED" then throw (Conflict "hunt ")
  else
    match check_min_tier tier_from_env with
    | Some msg => throw (BadRequest msg)
    | None =>
        set_state tenant hunt_id "VALIDATING" ;;
        sources ← bundle_sources tenant (hu_bundle_id hunt);
        match compile_bundle sources with
        | inl e => fail_hunt tenant hunt_id e (RuleCompile e)
        | inr _ =>
            watermark ← (match hu_corpus_watermark hunt with
                         | Some w => mret w
                         | None => gets (fun s => max_seq tenant (rows TArtifact s))
                         end);
            planned ← select_count TArtifact (in_plan tenant watermark);
            update_hunt tenant hunt_id (hu_plan watermark planned) ;;
            set_state tenant hunt_id "QUEUED" ;;
            t ← now;
            upsert TJob hj_hunt_id (mkHuntJob hunt_id tenant t None None None None)
              (fun j => mkHuntJob (hj_hunt_id j) (hj_tenant j) t None None None None) ;;
            get_hunt tenant hunt_id
        end
    end.

(** ** The scan loop *)

Definition count_match (c : Counters) : Counters :=
  mkCounters (c_scanned c) (c_cache_hits c) (c_matched c + 1) (c_timed_out c) (c_failed c).
Definition count_scanned (c : Counters) : Counters :=
  mkCounters (c_scanned c + 1) (c_cache_hits c) (c_matched c) (c_timed_out c) (c_failed c).
Definition count_hit (c : Counters) : Counters :=
  mkCounters (c_scanned c) (c_cache_hits c + 1) (c_matched c) (c_timed_out c) (c_failed c).
Definition count_timeout (c : Counters) : Counters :=
  mkCounters (c_scanned c) (c_cache_hits c) (c_matched c) (c_timed_out c + 1) (c_failed c).
Definition count_failed (c : Counters) : Counters :=
  mkCounters (c_scanned c) (c_cache_hits c) (c_matched c) (c_timed_out c) (c_failed c + 1).

(** An artifact the cache covers: its terminal state still counts. *)
Definition execute_cached (tenant hunt_id : Uuid) (a : Artifact) (hit : CacheHit) (c : Counters) : Op Srv Counters :=
  let c := count_hit c in
  if String.eqb (ch_status hit) (status_str Timeout) then mret (count_timeout c)
  else if String.eqb (ch_status hit) (status_str ScanError) then mret (count_failed c)
  else if String.eqb (ch_status hit) (status_str Matched) then
    op_fold (ch_matched_rule_ids hit) c (fun c rule_id =>
      commit_match tenant hunt_id (art_id a) rule_id (JObj [("cached"%string, JBool true)]) ;;
      fire_hunt_match tenant hunt_id (art_id a) rule_id ;;
      mret (count_match c))
  else mret c.

(** An artifact whose bytes were read: scan, cache, and record the matches. *)
Definition execute_scanned (tier : ScannerTier) (sources : list (string * string)) (compiled : YaraRules)
    (tenant hunt_id : Uuid) (digest : string) (key : ScanCacheKey) (a : Artifact) (b : bytes) (c : Counters) : Op Srv Counters :=
  outcome ← lift_outcome (scan_with_tier tier sources (Some compiled) b (Some (art_object_key a)));
  let rule_ids := map me_rule_id (so_matches outcome) in
  commit_cache_entry key (status_str (so_status outcome)) rule_ids (so_duration_ms outcome) (so_error_code outcome) ;;
  match so_status outcome with
  | Matched =>
      let c := count_scanned c in
      attempt (record_detection tenant (art_id a)
        (mkDetectionInput "retro_hunt" "high" ("Retro-hunt match: " +:+ str_join "," rule_ids)
          (JObj [("hunt_id", JStr (uuid_to_string hunt_id)); ("bundle_digest", JStr digest);
                 ("rules", JArr (map JStr rule_ids))]%string)
          (heuristic_mitre rule_ids))) ;;
      op_fold (so_matches outcome) c (fun c m =>
        commit_match tenant hunt_id (art_id a) (me_rule_id m) (match_json m) ;;
        fire_hunt_match tenant hunt_id (art_id a) (me_rule_id m) ;;
        mret (count_match c))
  | Clean => mret (count_scanned c)
  | Timeout => mret (count_timeout c)
  | ScanError => mret (count_failed c)
  end.

Definition execute_artifact (tier : ScannerTier) (sources : list (string * string)) (compiled : YaraRules)
    (tenant hunt_id : Uuid) (digest : string) (c : Counters) (a : Artifact) : Op Srv Counters :=
  let key := cache_key tenant (art_sha256 a) digest in
  hit ← cache_lookup key;
  c ← (match hit with
       | Some hit => execute_cached tenant hunt_id a hit c
       | None =>
           r ← attempt (with_cas (read (art_object_key a)));
           match r with
           | inr b => execute_scanned tier sources compiled tenant hunt_id digest key a b c
           | inl e =>
               let c := count_failed c in
               commit_cache_entry key "error" [] 0 (Some (error_text e)) ;;
               mret c
           end
       end);
  update_hunt tenant hunt_id (hu_progress c) ;;
  mret c.

Definition final_state (c : Counters) : string :=
  if (0 <? c_timed_out c) || (0 <? c_failed c) then "COMPLETED_PARTIAL" else "COMPLETED".

Definition execute_hunt (tenant hunt_id : Uuid) : Op Srv Hunt :=
  hunt ← get_hunt tenant hunt_id;
  if negb (String.eqb (hu_kind hunt) "retro") then throw (BadRequest "only retro hunts are run explicitly")
  else
    sources ← bundle_sources tenant (hu_bundle_id hunt);
    match compile_bundle sources with
    | inl e => fail_hunt tenant hunt_id e (RuleCompile e)
    | inr compiled =>
        watermark ← or_throw (BadRequest "hunt has no corpus_watermark; call enqueue/run first") (hu_corpus_watermark hunt);
        let tier := tier_from_env in
        match check_min_tier tier with
        | Some msg => fail_hunt tenant hunt_id msg (BadRequest msg)
        | None =>
            t ← now;
            update_hunt tenant hunt_id (hu_run t) ;;
            t ← now;
            attempt (update_rows TJob (fun j => bool_decide (hj_hunt_id j = hunt_id))
                       (fun j => job_set j (Some t) (Some "local-worker"%string) (hj_finished_at j))) ;;
            artifacts ← gets (fun s => plan tenant watermark (rows TArtifact s));
            c ← op_fold artifacts (mkCounters 0 0 0 0 0)
                  (execute_artifact tier sources compiled tenant hunt_id (hu_bundle_digest hunt));
            t ← now;
            update_hunt tenant hunt_id (hu_finish (final_state c) t) ;;
            t ← now;
            attempt (update_rows TJob (fun j => bool_decide (hj_hunt_id j = hunt_id))
                       (fun j => job_set j (hj_claimed_at j) (hj_claimed_by j) (Some t))) ;;
            get_hunt tenant hunt_id
        end
    end.

Definition run_hunt (tenant hunt_id : Uuid) : Op Srv Hunt :=
  enqueue_hunt tenant hunt_id ;;
  execute_hunt tenant hunt_id.

(** ** The job queue *)

Definition job_pending (j : HuntJob) : bool :=
  match hj_finished_at j, hj_claimed_at j with None, None => true | _, _ => false end.

(** The transaction of [claim_next_job] ([tx.rollback] when nothing is pending
    undoes nothing). *)
Definition claim_next_job (worker_id : string) : Op Srv (option (Uuid * Uuid)) :=
  db_transaction (
    jobs ← select TJob job_pending;
    match head (sort_by (fun a b => hj_enqueued_at a <=? hj_enqueued_at b) jobs) with
    | None => mret None
    | Some j =>
        t ← now;
        update_rows TJob (fun x => bool_decide (hj_hunt_id x = hj_hunt_id j))
          (fun x => job_set x (Some t) (Some worker_id) (hj_finished_at x)) ;;
        update_rows THunt (fun h => hunt_is (hj_tenant j) (hj_hunt_id j) h && String.eqb (hu_state h) "QUEUED") (hu_run t) ;;
        mret (Some (hj_tenant j, hj_hunt_id j))
    end).

(** ** Forward coverage *)

Definition forward_delta (o : ScanOutcome) : Counters :=
  match so_status o with
  | Clean | Matched => mkCounters 1 0 (len (so_matches o)) 0 0
  | Timeout => mkCounters 0 0 0 1 0
  | ScanError => mkCounters 0 0 0 0 1
  end.

Definition forward_bundle (tenant artifact : Uuid) (sha_raw b : bytes) (object_key : string)
    (all : list string) (bundle : RuleBundle) : Op Srv (list string) :=
  let digest := rb_digest bundle in
  let key := cache_key tenant sha_raw digest in
  hit ← cache_lookup key;
  match hit with
  | Some _ => mret all
  | None =>
      sources ← bundle_sources tenant (rb_id bundle);
      match compile_bundle sources with
      | inl e => throw (RuleCompile e)
      | inr compiled =>
          outcome ← lift_outcome (scan_with_tier tier_from_env sources (Some compiled) b (Some object_key));
          let rule_ids := map me_rule_id (so_matches outcome) in
          commit_cache_entry key (status_str (so_status outcome)) rule_ids (so_duration_ms outcome) (so_error_code outcome) ;;
          forward ← select_optional THunt (forward_hunt_is tenant (rb_id bundle));
          (match forward with
           | Some h =>
               op_for (so_matches outcome) (fun m =>
                 commit_match tenant (hu_id h) artifact (me_rule_id m) (match_json m) ;; mret tt) ;;
               update_hunt tenant (hu_id h) (hu_forward_progress (forward_delta outcome))
           | None => mret tt
           end) ;;
          match rule_ids with
          | [] => mret all
          | _ =>
              attempt (record_detection tenant artifact
                (mkDetectionInput "forward_scan" "medium" ("Forward coverage match: " +:+ str_join "," rule_ids)
                  (JObj [("bundle_digest", JStr digest); ("rules", JArr (map JStr rule_ids))]%string)
                  (heuristic_mitre rule_ids))) ;;
              op_for (so_matches outcome) (fun m =>
                forward ← select_optional THunt (forward_hunt_is tenant (rb_id bundle));
                match forward with
                | Some h => attempt (fire_hunt_match tenant (hu_id h) artifact (me_rule_id m)) ;; mret tt
                | None => mret tt
                end) ;;
              mret (all ++ rule_ids)
          end
      end
  end.

Definition forward_scan (tenant artifact : Uuid) (sha_raw b : bytes) (object_key : string) : Op Srv (list string) :=
  bundles ← select TBundle (fun x => bool_decide (rb_tenant x = tenant) && rb_active x);
  op_fold bundles [] (forward_bundle tenant artifact sha_raw b object_key).
End hunts.

(** ** What a hunt has settled *)

Section hunt_lemmas.
  Context {YX : YaraX} {SH : ScannerHost} {SHA : Sha256} {HEX : HexCodec} {UD : UuidDisplay}.

(** The artifact has a terminal cache entry under the hunt's key, and every
    rule a [matched] entry names has its match row for this hunt. *)
Definition settled (tenant hunt_id : Uuid) (digest : string) (a : Artifact) (s : Srv) : Prop :=
  exists hit, cache_find (cache_key tenant (art_sha256 a) digest) (rows TCache s) = Some hit /\
    (ch_status hit = status_str Matched -> forall r, In r (ch_matched_rule_ids hit) ->
       In (hunt_id, art_id a, r) (map match_key (rows TMatch s))).

Definition grows (t : table) (s s' : Srv) : Prop := exists l, rows t s' = rows t s ++ l.

Lemma cache_find_app key l l' hit : cache_find key l = Some hit -> cache_find key (l ++ l') = Some hit.
Proof.
  unfold cache_find. rewrite List.filter_app.
  destruct (List.filter _ l) as [|c r]; cbn; [done|]. by intros [= <-].
Qed.

Lemma cache_find_none key l :
  cache_find key l = None <-> existsb (fun c => bool_decide (cache_row_key c = key)) l = false.
Proof.
  unfold cache_find. induction l as [|c l IH]; cbn; [done|].
  by destruct (bool_decide (cache_row_key c = key)).
Qed.

Lemma settled_mono tenant hunt_id digest a s s' :
  settled tenant hunt_id digest a s -> grows TCache s s' -> grows TMatch s s' -> settled tenant hunt_id digest a s'.
Proof.
  intros (hit & Hh & Hm) [lc Hc] [lm Hmr]. exists hit. rewrite Hc, Hmr. split; [by apply cache_find_app|].
  intros Hs r Hr. rewrite map_app. apply in_or_app. left. auto.
Qed.

Lemma grows_appends {A} t (m : Op Srv A) s s' o : appends t m -> m s = (o, s') -> grows t s s'.
Proof. intros Hm E. destruct (Hm s) as [l Hl]. rewrite E in Hl. by exists l. Qed.

Lemma grows_trans t s1 s2 s3 : grows t s1 s2 -> grows t s2 s3 -> grows t s1 s3.
Proof. intros [l Hl] [l' Hl']. exists (l ++ l'). by rewrite Hl', Hl, app_assoc. Qed.

Lemma fire_hunt_match_frames t tenant hunt_id artifact r :
  t <> TOutbox -> frames (rows t) (fire_hunt_match tenant hunt_id artifact r).
Proof.
  intros Ht. unfold fire_hunt_match, fire. repeat (frames_step || apply frames_insert_unique, not_eq_sym, Ht).
Qed.

Lemma frames_run {A} t (m : Op Srv A) s o s' : frames (rows t) m -> m s = (o, s') -> rows t s' = rows t s.
Proof. intros Hf E. specialize (Hf s). by rewrite E in Hf. Qed.

Lemma commit_match_spec tenant hunt_id artifact r j s b s' :
  commit_match tenant hunt_id artifact r j s = (Ret b, s') ->
  In (hunt_id, artifact, r) (map match_key (rows TMatch s')) /\
  (In (hunt_id, artifact, r) (map match_key (rows TMatch s)) -> rows TMatch s' = rows TMatch s).
Proof.
  unfold commit_match. rewrite bind_ret. intros (t & s1 & [= <- <-] & E). unfold insert_on_conflict in E.
  destruct (existsb _ _) eqn:Ee; injection E as <- <-.
  - split; [|done]. apply (existsb_key match_key (mkHuntMatch hunt_id tenant artifact r ENGINE_VERSION j (srv_clock s (srv_clock_next s)))) in Ee.
    by apply list_elem_of_In in Ee.
  - rewrite rows_set_rows_eq, map_app. split; [apply in_or_app; right; by left|].
    intros Hin. exfalso. apply not_true_iff_false in Ee. apply Ee.
    apply (existsb_key match_key (mkHuntMatch hunt_id tenant artifact r ENGINE_VERSION j (srv_clock s (srv_clock_next s)))).
    by apply list_elem_of_In.
Qed.

Definition add_matched (c : Counters) (n : Z) : Counters :=
  mkCounters (c_scanned c) (c_cache_hits c) (c_matched c + n) (c_timed_out c) (c_failed c).

(** The match loop of both branches of the scan. *)
Lemma commit_fold_spec {X} (rule : X -> string) (summary : X -> Json) tenant hunt_id artifact l c s c' s' :
  op_fold l c (fun c x => commit_match tenant hunt_id artifact (rule x) (summary x) ;;
                          fire_hunt_match tenant hunt_id artifact (rule x) ;; mret (count_match c)) s = (Ret c', s') ->
  c' = add_matched c (len l) /\
  (forall x, In x l -> In (hunt_id, artifact, rule x) (map match_key (rows TMatch s'))) /\
  grows TMatch s s' /\ rows TCache s' = rows TCache s /\
  ((forall x, In x l -> In (hunt_id, artifact, rule x) (map match_key (rows TMatch s))) -> rows TMatch s' = rows TMatch s).
Proof.
  revert c s. induction l as [|x l IH]; intros c s; cbn [op_fold].
  { intros [= <- <-]. split; [unfold add_matched, len; destruct c; cbn; f_equal; lia|].
    split; [done|]. split; [exists []; by rewrite app_nil_r|]. done. }
  rewrite bind_ret. intros (c1 & s1 & E1 & E). apply IH in E as (-> & Hin & Hg & Hc & Hsame).
  rewrite bind_ret in E1. destruct E1 as (b & s2 & E2 & E1).
  rewrite bind_ret in E1. destruct E1 as ([] & s3 & E3 & [= <- <-]).
  assert (Hg2 : grows TMatch s s2) by (eapply grows_appends; [|exact E2]; unfold commit_match; appends_tac).
  assert (Hc2 : rows TCache s2 = rows TCache s) by (eapply frames_run; [|exact E2]; unfold commit_match; frames_tac).
  apply commit_match_spec in E2 as [H1 H2].
  assert (Hm3 : rows TMatch s3 = rows TMatch s2) by (eapply frames_run; [by apply fire_hunt_match_frames|exact E3]).
  assert (Hc3 : rows TCache s3 = rows TCache s2) by (eapply frames_run; [by apply fire_hunt_match_frames|exact E3]).
  split; [unfold add_matched, count_match, len; cbn; f_equal; lia|].
  split.
  { intros y [<-|Hy]; [|auto]. destruct Hg as [l' ->]. rewrite map_app, Hm3. apply in_or_app. by left. }
  split. { destruct Hg as [l' Hl'], Hg2 as [l2 Hl2]. exists (l2 ++ l'). by rewrite Hl', Hm3, Hl2, app_assoc. }
  split; [congruence|]. intros Hall. rewrite Hsame.
  - rewrite Hm3. apply H2, Hall. by left.
  - intros y Hy. rewrite Hm3, H2 by (apply Hall; by left). apply Hall. by right.
Qed.

(** What one artifact adds to the counters. *)
Definition accounts (c c' : Counters) (n : Z) : Prop :=
  c_scanned c <= c_scanned c' /\ c_cache_hits c <= c_cache_hits c' /\ c_matched c <= c_matched c' /\
  c_timed_out c <= c_timed_out c' /\ c_failed c <= c_failed c' /\
  (c_scanned c' + c_cache_hits c') - (c_scanned c + c_cache_hits c) <= n <=
  (c_scanned c' + c_cache_hits c' + c_timed_out c' + c_failed c') -
  (c_scanned c + c_cache_hits c + c_timed_out c + c_failed c).

Lemma execute_cached_spec tenant hunt_id a hit c s c' s' :
  execute_cached tenant hunt_id a hit c s = (Ret c', s') ->
  accounts c c' 1 /\ c_scanned c' = c_scanned c /\ c_cache_hits c' = c_cache_hits c + 1 /\
  grows TMatch s s' /\ rows TCache s' = rows TCache s /\
  (ch_status hit = status_str Matched ->
    (forall r, In r (ch_matched_rule_ids hit) -> In (hunt_id, art_id a, r) (map match_key (rows TMatch s'))) /\
    ((forall r, In r (ch_matched_rule_ids hit) -> In (hunt_id, art_id a, r) (map match_key (rows TMatch s))) ->
       rows TMatch s' = rows TMatch s)) /\
  (ch_status hit <> status_str Matched -> rows TMatch s' = rows TMatch s).
Proof.
  unfold execute_cached. intros E.
  assert (Hpure : forall c0, (mret c0 : Op Srv Counters) s = (Ret c', s') -> c0 = c' /\ s' = s) by (by intros c0 [= -> ->]).
  assert (Hg : grows TMatch s s) by (exists []; by rewrite app_nil_r).
  destruct (String.eqb (ch_status hit) (status_str Timeout)) eqn:E1.
  { apply Hpure in E as [<- ->]. apply String.eqb_eq in E1. rewrite E1. unfold accounts; cbn.
    repeat split; try lia; done. }
  destruct (String.eqb (ch_status hit) (status_str ScanError)) eqn:E2.
  { apply Hpure in E as [<- ->]. apply String.eqb_eq in E2. rewrite E2. unfold accounts; cbn.
    repeat split; try lia; done. }
  destruct (String.eqb (ch_status hit) (status_str Matched)) eqn:E3.
  - apply String.eqb_eq in E3. pose proof (len_nonneg (ch_matched_rule_ids hit)).
    apply (commit_fold_spec (fun r => r) (fun _ => JObj [("cached"%string, JBool true)])) in E as (-> & H1 & H2 & H3 & H4).
    unfold accounts; cbn. repeat split; try lia; try done.
  - apply String.eqb_neq in E3. apply Hpure in E as [<- ->]. unfold accounts; cbn. repeat split; try lia; done.
Qed.

Lemma commit_cache_entry_spec key st ids d e s s' :
  cache_find key (rows TCache s) = None -> commit_cache_entry key st ids d e s = (Ret tt, s') ->
  cache_find key (rows TCache s') = Some (mkCacheHit st ids) /\ grows TCache s s' /\ rows TMatch s' = rows TMatch s.
Proof.
  intros Hn E.
  assert (Hm : rows TMatch s' = rows TMatch s) by (eapply frames_run; [|exact E]; unfold commit_cache_entry; frames_tac).
  assert (Hg : grows TCache s s') by (eapply grows_appends; [|exact E]; unfold commit_cache_entry; appends_tac).
  split; [|done]. unfold commit_cache_entry in E. rewrite bind_ret in E. destruct E as (t & s1 & [= <- <-] & E).
  rewrite bind_ret in E. destruct E as (b & s2 & E & [= <-]). unfold insert_on_conflict in E.
  destruct key as [kt ka kb ke kc]. apply cache_find_none in Hn.
  match type of E with context [existsb ?p ?l] =>
    change (existsb p l) with (existsb (fun x => bool_decide (cache_row_key x = mkScanCacheKey kt ka kb ke kc)) (rows TCache s)) in E
  end.
  rewrite Hn in E.
  injection E as _ <-. rewrite rows_set_rows_eq. unfold cache_find.
  rewrite List.filter_app. replace (List.filter _ (rows TCache _)) with (@nil ScanCache).
  - cbn. by rewrite bool_decide_true.
  - symmetry. rewrite existsb_false_forall in Hn. clear - Hn.
    match goal with |- List.filter _ ?l = [] => change l with (rows TCache s) end.
    induction (rows TCache s) as [|x l IH]; [done|]. cbn. rewrite Hn by by left. apply IH. intros; apply Hn. by right.
Qed.

Lemma execute_scanned_spec tier sources compiled tenant hunt_id digest a b c s c' s' :
  let key := cache_key tenant (art_sha256 a) digest in
  cache_find key (rows TCache s) = None ->
  execute_scanned tier sources compiled tenant hunt_id digest key a b c s = (Ret c', s') ->
  accounts c c' 1 /\ grows TCache s s' /\ grows TMatch s s' /\ settled tenant hunt_id digest a s'.
Proof.
  intros key Hn E. unfold execute_scanned in E. rewrite bind_ret in E. destruct E as (o & s1 & E1 & E).
  unfold lift_outcome in E1. injection E1 as _ <-.
  rewrite bind_ret in E. destruct E as ([] & s2 & E2 & E).
  apply commit_cache_entry_spec in E2 as (Hf & Hg & Hm); [|exact Hn].
  assert (Hg0 : grows TMatch s s2) by (exists []; by rewrite Hm, app_nil_r).
  assert (Hset : so_status o <> Matched -> settled tenant hunt_id digest a s2).
  { intros Hs. eexists. split; [exact Hf|]. cbn. intros Hst. by apply (status_str_inj _ Matched) in Hst. }
  destruct (so_status o) eqn:Es.
  - injection E as <- <-. unfold accounts; cbn. repeat split; try lia; try done. by apply Hset.
  - rewrite bind_ret in E. destruct E as (d & s3 & E3 & E).
    assert (Hm3 : rows TMatch s3 = rows TMatch s2) by (eapply frames_run; [|exact E3]; unfold record_detection; frames_tac).
    assert (Hc3 : rows TCache s3 = rows TCache s2) by (eapply frames_run; [|exact E3]; unfold record_detection; frames_tac).
    pose proof (len_nonneg (so_matches o)).
    apply (commit_fold_spec me_rule_id match_json) in E as (-> & H1 & H2 & H3 & _).
    split. { unfold accounts; cbn. lia. }
    split. { destruct Hg as [l Hl]. exists l. by rewrite H3, Hc3, Hl. }
    split. { destruct H2 as [l Hl]. exists l. by rewrite Hl, Hm3, Hm. }
    eexists. split; [rewrite H3, Hc3; exact Hf|]. cbn. intros _ r Hr. apply in_map_iff in Hr as (m & <- & Hin). auto.
  - injection E as <- <-. unfold accounts; cbn. repeat split; try lia; try done. by apply Hset.
  - injection E as <- <-. unfold accounts; cbn. repeat split; try lia; try done. by apply Hset.
Qed.

Lemma update_hunt_run tenant id f s s' o :
  update_hunt tenant id f s = (o, s') ->
  o = Ret tt /\ rows THunt s' = map (fun h => if hunt_is tenant id h then f h else h) (rows THunt s) /\
  (forall t, t <> THunt -> rows t s' = rows t s).
Proof.
  unfold update_hunt. op_unfold. intros [= <- <-]. split; [done|]. split; [apply rows_set_rows_eq|].
  intros t Ht. by apply rows_set_rows_ne.
Qed.

(** [frames] of the scan branch, for the tables it never writes. *)
Lemma execute_artifact_frames t tier sources compiled tenant hunt_id digest c a :
  t <> TOutbox -> t <> TMatch -> t <> TCache -> t <> TDetection -> t <> THunt ->
  frames (rows t) (execute_artifact tier sources compiled tenant hunt_id digest c a).
Proof.
  intros H1 H2 H3 H4 H5.
  assert (Hfire : forall r, frames (rows t) (fire_hunt_match tenant hunt_id (art_id a) r)).
  { intros r. by apply fire_hunt_match_frames. }
  assert (Hcm : forall r j, frames (rows t) (commit_match tenant hunt_id (art_id a) r j)).
  { intros r j. unfold commit_match. apply frames_bind; [done|]. intros; apply frames_insert_on_conflict. congruence. }
  assert (Hcc : forall k st ids d e, frames (rows t) (commit_cache_entry k st ids d e)).
  { intros. unfold commit_cache_entry. apply frames_bind; [done|]. intros.
    apply frames_bind; [apply frames_insert_on_conflict; congruence|done]. }
  assert (Hdet : forall i, frames (rows t) (record_detection tenant (art_id a) i)).
  { intros. unfold record_detection. apply frames_bind; [done|]. intros. apply frames_bind; [done|]. intros.
    apply frames_bind; [apply frames_insert_unique; congruence|done]. }
  unfold execute_artifact. apply frames_bind; [done|]. intros hit. apply frames_bind.
  - destruct hit as [hit|].
    + unfold execute_cached. do 3 (case_match; [try done|]); [|done].
      apply frames_fold. intros. repeat (apply frames_bind; [auto|intros]). done.
    + apply frames_bind; [apply frames_attempt, frames_with_cas|]. intros [e|b].
      * apply frames_bind; [auto|done].
      * unfold execute_scanned. apply frames_bind; [done|]. intros o. apply frames_bind; [auto|]. intros _.
        case_match; [done| |done..].
        apply frames_bind; [apply frames_attempt; auto|]. intros _. apply frames_fold. intros.
        repeat (apply frames_bind; [auto|intros]). done.
  - intros c'. apply frames_bind; [|done]. unfold update_hunt.
    apply frames_bind; [apply frames_update_rows; congruence|done].
Qed.

Lemma execute_artifact_spec tier sources compiled tenant hunt_id digest c a s c' s' :
  execute_artifact tier sources compiled tenant hunt_id digest c a s = (Ret c', s') ->
  accounts c c' 1 /\ grows TCache s s' /\ grows TMatch s s' /\ settled tenant hunt_id digest a s' /\
  rows THunt s' = map (fun h => if hunt_is tenant hunt_id h then hu_progress c' h else h) (rows THunt s) /\
  (settled tenant hunt_id digest a s ->
     c_scanned c' = c_scanned c /\ c_cache_hits c' = c_cache_hits c + 1 /\
     rows TMatch s' = rows TMatch s /\ rows TCache s' = rows TCache s).
Proof.
  intros E. unfold execute_artifact in E. rewrite bind_ret in E. destruct E as (hit & s0 & [= <- <-] & E).
  rewrite bind_ret in E. destruct E as (c1 & s1 & E1 & E).
  rewrite bind_ret in E. destruct E as ([] & s2 & E2 & [= <- <-]).
  assert (Hh1 : rows THunt s1 = rows THunt s).
  { eapply frames_run; [|exact E1]. unfold execute_cached, execute_scanned, commit_match, fire_hunt_match, fire,
      commit_cache_entry, record_detection. frames_tac. }
  apply update_hunt_run in E2 as (_ & H2 & Hne). rewrite Hh1 in H2.
  pose proof (Hne TCache ltac:(discriminate)) as Hc. pose proof (Hne TMatch ltac:(discriminate)) as Hm.
  set (key := cache_key tenant (art_sha256 a) digest) in *.
  destruct (cache_find key (rows TCache s)) as [hit|] eqn:Ef.
  - apply execute_cached_spec in E1 as (Ha & Hs & Hhit & Hgm & Hcc & Hmat & Hnm).
    split; [done|]. split; [exists []; by rewrite Hc, Hcc, app_nil_r|].
    split; [destruct Hgm as [l Hl]; exists l; by rewrite Hm, Hl|].
    split. { exists hit. rewrite Hc, Hcc. split; [done|]. intros Hst r Hr. rewrite Hm. by apply Hmat. }
    split; [done|]. intros (hit' & Hf' & Hmm). fold key in Hf'. rewrite Ef in Hf'. injection Hf' as <-.
    split; [done|]. split; [done|]. split; [|congruence]. rewrite Hm.
    destruct (decide (ch_status hit = status_str Matched)) as [Hst|Hst]; [|auto]. apply Hmat; auto.
  - rewrite bind_ret in E1. destruct E1 as (r & s3 & Er & E1).
    assert (Hc3 : rows TCache s3 = rows TCache s) by (eapply frames_run; [|exact Er]; frames_tac).
    assert (Hm3 : rows TMatch s3 = rows TMatch s) by (eapply frames_run; [|exact Er]; frames_tac).
    assert (Hgoal : accounts c c1 1 /\ grows TCache s3 s1 /\ grows TMatch s3 s1 /\ settled tenant hunt_id digest a s1).
    { destruct r as [e|b].
      - rewrite bind_ret in E1. destruct E1 as ([] & s4 & E4 & [= <- <-]).
        apply commit_cache_entry_spec in E4 as (Hf & Hg & Hmm); [|by rewrite Hc3].
        split; [unfold accounts; cbn; lia|]. split; [done|]. split; [exists []; by rewrite Hmm, app_nil_r|].
        eexists. split; [exact Hf|]. done.
      - apply execute_scanned_spec in E1; [done|]. fold key. by rewrite Hc3. }
    destruct Hgoal as (Ha & [l1 Hg1] & [l2 Hg2] & Hset).
    split; [done|]. split; [exists l1; by rewrite Hc, Hg1, Hc3|]. split; [exists l2; by rewrite Hm, Hg2, Hm3|].
    split. { eapply settled_mono; [exact Hset|exists []; by rewrite Hc, app_nil_r|exists []; by rewrite Hm, app_nil_r]. }
    split; [done|]. intros (hit & Hf & _). fold key in Hf. congruence.
Qed.

Lemma accounts_trans c1 c2 c3 n m : accounts c1 c2 n -> accounts c2 c3 m -> accounts c1 c3 (n + m).
Proof. unfold accounts. lia. Qed.

Lemma accounts_refl c : accounts c c 0.
Proof. unfold accounts. lia. Qed.

Lemma hunt_is_progress tenant id c h : hunt_is tenant id (hu_progress c h) = hunt_is tenant id h.
Proof. done. Qed.

(** The whole loop: counters account for every artifact of the plan, every
    artifact ends settled, and settled artifacts cost nothing. *)
Lemma execute_loop_spec tier sources compiled tenant hunt_id digest arts c s c' s' :
  op_fold arts c (execute_artifact tier sources compiled tenant hunt_id digest) s = (Ret c', s') ->
  accounts c c' (len arts) /\ grows TCache s s' /\ grows TMatch s s' /\
  (forall a, In a arts -> settled tenant hunt_id digest a s') /\
  rows THunt s' = map (fun h => if hunt_is tenant hunt_id h
                               then match arts with [] => h | _ => hu_progress c' h end else h) (rows THunt s) /\
  ((forall a, In a arts -> settled tenant hunt_id digest a s) ->
     c_scanned c' = c_scanned c /\ c_cache_hits c' = c_cache_hits c + len arts /\
     rows TMatch s' = rows TMatch s /\ rows TCache s' = rows TCache s).
Proof.
  revert c s. induction arts as [|a arts IH]; intros c s; cbn [op_fold].
  { intros [= <- <-]. split; [apply accounts_refl|].
    split; [exists []; by rewrite app_nil_r|]. split; [exists []; by rewrite app_nil_r|]. split; [done|].
    split; [|intros _; unfold len; cbn; repeat split; lia].
    rewrite <- (map_id (rows THunt s)) at 1. apply map_ext. intros h. by destruct (hunt_is _ _ h). }
  rewrite bind_ret. intros (c1 & s1 & E1 & E). apply execute_artifact_spec in E1 as (Ha1 & Hc1 & Hm1 & Hs1 & Hh1 & Hr1).
  pose proof E as E'. apply IH in E as (Ha2 & Hc2 & Hm2 & Hs2 & Hh2 & Hr2).
  split. { replace (len (a :: arts)) with (1 + len arts) by (unfold len; cbn; lia). by eapply accounts_trans. }
  split; [by eapply grows_trans|]. split; [by eapply grows_trans|].
  split. { intros x [<-|Hx]; [|auto]. by eapply settled_mono. }
  split.
  { rewrite Hh2, Hh1, map_map. apply map_ext. intros h. destruct (hunt_is tenant hunt_id h) eqn:Eh.
    - rewrite hunt_is_progress, Eh. destruct arts; [|done]. cbn in E'. by injection E' as -> _.
    - by rewrite Eh. }
  intros Hall. destruct Hr1 as (R1 & R2 & R3 & R4); [apply Hall; by left|].
  destruct Hr2 as (Q1 & Q2 & Q3 & Q4).
  { intros x Hx. destruct (Hall x (or_intror Hx)) as (hit & Hf & Hmm). exists hit. by rewrite R3, R4. }
  split; [congruence|]. split; [unfold len in *; cbn; lia|]. split; congruence.
Qed.

Lemma get_hunt_run tenant id s h s' :
  get_hunt tenant id s = (Ret h, s') -> s' = s /\ head (List.filter (hunt_is tenant id) (rows THunt s)) = Some h.
Proof.
  unfold get_hunt. op_unfold. unfold select_optional, gets. destruct (head _); [by intros [= -> ->]|done].
Qed.

Lemma get_hunt_ok tenant id s h :
  head (List.filter (hunt_is tenant id) (rows THunt s)) = Some h -> get_hunt tenant id s = (Ret h, s).
Proof.
  intros Hh. unfold get_hunt, select_optional. op_unfold. unfold gets.
  match goal with |- context [head ?l] => change (head l) with (head (List.filter (hunt_is tenant id) (rows THunt s : list Hunt))) end.
  by rewrite Hh.
Qed.

(** The row found after an update of the hunt is the updated row. *)
Lemma head_filter_map_hunt tenant id g l h :
  (forall h, hunt_is tenant id h = true -> hunt_is tenant id (g h) = true) ->
  head (List.filter (hunt_is tenant id) l) = Some h ->
  head (List.filter (hunt_is tenant id) (map (fun h => if hunt_is tenant id h then g h else h) l)) = Some (g h).
Proof.
  intros Hg. induction l as [|x l IH]; cbn; [done|].
  destruct (hunt_is tenant id x) eqn:E; cbn.
  - intros [= ->]. by rewrite (Hg h E).
  - rewrite E. auto.
Qed.

Lemma fail_hunt_fails {A} tenant id msg e s (a : A) s' : fail_hunt tenant id msg e s <> (Ret a, s').
Proof. unfold fail_hunt, update_hunt. op_unfold. done. Qed.

(** The stages of a run that returned. *)
Lemma execute_hunt_stages tenant hunt_id s h s' :
  execute_hunt tenant hunt_id s = (Ret h, s') ->
  exists hunt w c t1 t2 sources compiled s1 s2,
    head (List.filter (hunt_is tenant hunt_id) (rows THunt s)) = Some hunt /\
    hu_kind hunt = "retro"%string /\ hu_corpus_watermark hunt = Some w /\
    let arts := plan tenant w (rows TArtifact s) in
    (forall t, t <> THunt -> t <> TJob -> rows t s1 = rows t s) /\
    rows THunt s1 = map (fun h => if hunt_is tenant hunt_id h then hu_run t1 h else h) (rows THunt s) /\
    op_fold arts (mkCounters 0 0 0 0 0) (execute_artifact tier_from_env sources compiled tenant hunt_id (hu_bundle_digest hunt)) s1
      = (Ret c, s2) /\
    (forall t, t <> THunt -> t <> TJob -> rows t s' = rows t s2) /\
    rows THunt s' = map (fun h => if hunt_is tenant hunt_id h then hu_finish (final_state c) t2 h else h) (rows THunt s2) /\
    head (List.filter (hunt_is tenant hunt_id) (rows THunt s')) = Some h.
Proof.
  unfold execute_hunt. rewrite bind_ret. intros (hunt & s0 & E0 & E). apply get_hunt_run in E0 as [-> Eh].
  destruct (String.eqb (hu_kind hunt) "retro") eqn:Ek; cbn [negb] in E; [|done]. apply String.eqb_eq in Ek.
  rewrite bind_ret in E. destruct E as (sources & s0 & [= <- <-] & E).
  destruct (compile_bundle _) as [e|compiled]; [by apply fail_hunt_fails in E|].
  rewrite bind_ret in E. destruct E as (w & s0 & Ew & E).
  destruct (hu_corpus_watermark hunt) as [w'|] eqn:Hw; [|done]. injection Ew as -> <-.
  cbv zeta in E. destruct (check_min_tier _); [by apply fail_hunt_fails in E|].
  rewrite bind_ret in E. destruct E as (t1 & sa & [= <- <-] & E).
  rewrite bind_ret in E. destruct E as ([] & sb & Eb & E). apply update_hunt_run in Eb as (_ & Hb & Hbt).
  rewrite bind_ret in E. destruct E as (t' & sc & [= <- <-] & E).
  rewrite bind_ret in E. destruct E as (u & sd & Ed & E).
  assert (Hd : forall t, t <> TJob -> rows t sd = rows t sb).
  { intros t Ht. etransitivity; [refine (frames_run _ _ _ _ _ _ Ed)|done].
    apply frames_attempt, frames_update_rows. congruence. }
  rewrite bind_ret in E. destruct E as (arts & se & [= <- <-] & E).
  rewrite bind_ret in E. destruct E as (c & sf & Ef & E).
  rewrite bind_ret in E. destruct E as (t2 & sg & [= <- <-] & E).
  rewrite bind_ret in E. destruct E as ([] & sh & Eg & E). apply update_hunt_run in Eg as (_ & Hg & Hgt).
  rewrite bind_ret in E. destruct E as (t'' & si & [= <- <-] & E).
  rewrite bind_ret in E. destruct E as (u' & sj & Ej & E).
  assert (Hj : forall t, t <> TJob -> rows t sj = rows t sh).
  { intros t Ht. etransitivity; [refine (frames_run _ _ _ _ _ _ Ej)|done].
    apply frames_attempt, frames_update_rows. congruence. }
  apply get_hunt_run in E as [-> Eh'].
  exists hunt, w, c, (srv_clock s (srv_clock_next s)), (srv_clock sf (srv_clock_next sf)), (sources_of tenant (hu_bundle_id hunt) s), compiled, sd, sf.
  split; [done|]. split; [done|]. split; [done|]. cbv zeta.
  assert (Ha : rows TArtifact sd = rows TArtifact s) by (rewrite Hd, Hbt by discriminate; done).
  split. { intros t H1 H2. by rewrite Hd, Hbt. }
  split. { rewrite Hd by discriminate. exact Hb. }
  split. { rewrite <- Ha. exact Ef. }
  split. { intros t H1 H2. by rewrite Hj, Hgt. }
  split; [|done]. rewrite Hj by discriminate. exact Hg.
Qed.

(** The counters a row shows. *)
Definition hu_counters (h : Hunt) : Counters :=
  mkCounters (hu_scanned h) (hu_cache_hits h) (hu_matched h) (hu_timed_out h) (hu_failed h).

(** C8. A finished run: the final state is [COMPLETED] exactly when nothing timed
    out and nothing failed, the counters account for every artifact of the plan
    the pinned watermark fixes, and every artifact of the plan is settled: it
    has a terminal cache entry and its matched rules are recorded. *)
Theorem execute_hunt_result tenant hunt_id s h s' :
  execute_hunt tenant hunt_id s = (Ret h, s') ->
  exists hunt w c,
    fst (get_hunt tenant hunt_id s) = Ret hunt /\ hu_corpus_watermark hunt = Some w /\
    hu_corpus_watermark h = Some w /\
    let arts := plan tenant w (rows TArtifact s) in
    accounts (mkCounters 0 0 0 0 0) c (len arts) /\
    (hu_state h = "COMPLETED"%string <-> c_timed_out c = 0 /\ c_failed c = 0) /\
    (hu_state h = "COMPLETED"%string \/ hu_state h = "COMPLETED_PARTIAL"%string) /\
    (arts <> [] -> hu_counters h = c) /\
    (forall a, In a arts -> settled tenant hunt_id (hu_bundle_digest hunt) a s').
Proof.
  intros E. destruct (execute_hunt_stages _ _ _ _ _ E) as
    (hunt & w & c & t1 & t2 & sources & compiled & s1 & s2 & Hh & Hk & Hw & Hs1 & Hr1 & Hl & Hs2 & Hr2 & Hh').
  exists hunt, w, c. split. { by rewrite (get_hunt_ok _ _ _ _ Hh). }
  split; [done|].
  pose proof (execute_loop_spec _ _ _ _ _ _ _ _ _ _ _ Hl) as (Ha & _ & _ & Hset & Hr & _).
  set (arts := plan tenant w (rows TArtifact s)) in *.
  assert (Hx1 : head (List.filter (hunt_is tenant hunt_id) (rows THunt s1)) = Some (hu_run t1 hunt)).
  { rewrite Hr1. by apply (head_filter_map_hunt _ _ (hu_run t1)). }
  set (g := fun x => match arts with [] => x | _ => hu_progress c x end).
  assert (Hx2 : head (List.filter (hunt_is tenant hunt_id) (rows THunt s2)) = Some (g (hu_run t1 hunt))).
  { rewrite Hr. apply (head_filter_map_hunt _ _ g); [|done]. unfold g. by destruct arts. }
  assert (Hx3 : head (List.filter (hunt_is tenant hunt_id) (rows THunt s')) = Some (hu_finish (final_state c) t2 (g (hu_run t1 hunt)))).
  { rewrite Hr2. by apply (head_filter_map_hunt _ _ (hu_finish (final_state c) t2)). }
  rewrite Hh' in Hx3. injection Hx3 as ->.
  split; [unfold g; by destruct arts|]. cbv zeta. split; [done|].
  assert (Hst : forall x, hu_state (hu_finish (final_state c) t2 x) = final_state c) by done. rewrite Hst.
  unfold final_state. destruct Ha as (_ & _ & _ & Ht & Hf & _). cbn in Ht, Hf.
  split. { destruct (0 <? c_timed_out c) eqn:E1, (0 <? c_failed c) eqn:E2; cbn;
    rewrite ?Z.ltb_lt, ?Z.ltb_ge in *; (split; [intros H0; try discriminate H0; lia|intros [? ?]; try done; lia]). }
  split; [by destruct (_ || _); [right|left]|].
  split. { intros Hne. unfold g. destruct arts; [done|]. by destruct c. }
  intros a Hin. destruct (Hset a Hin) as (hit & Hf' & Hm). exists hit.
  by rewrite !Hs2 by discriminate.
Qed.

Lemma len_plan tenant w l : len (plan tenant w l) = len (List.filter (in_plan tenant w) l).
Proof. unfold plan, len. by rewrite sort_by_length. Qed.

(** The watermark planning uses: the pinned one, or the newest sequence. *)
Definition planned_watermark (tenant : Uuid) (hunt : Hunt) (s : Srv) : Z :=
  default (max_seq tenant (rows TArtifact s)) (hu_corpus_watermark hunt).

Lemma hunt_is_state tenant id st h : hunt_is tenant id (hu_with_state st h) = hunt_is tenant id h.
Proof. reflexivity. Qed.

Lemma hunt_is_plan tenant id w n h : hunt_is tenant id (hu_plan w n h) = hunt_is tenant id h.
Proof. reflexivity. Qed.

Lemma enqueue_hunt_stages tenant hunt_id s h s' :
  enqueue_hunt tenant hunt_id s = (Ret h, s') ->
  exists hunt, head (List.filter (hunt_is tenant hunt_id) (rows THunt s)) = Some hunt /\
    hu_kind hunt = "retro"%string /\ hu_state hunt <> "RUNNING"%string /\ hu_state hunt <> "QUEUED"%string /\
    let w := planned_watermark tenant hunt s in
    h = hu_with_state "QUEUED" (hu_plan w (len (plan tenant w (rows TArtifact s))) (hu_with_state "VALIDATING" hunt)) /\
    head (List.filter (hunt_is tenant hunt_id) (rows THunt s')) = Some h /\
    (forall t, t <> THunt -> t <> TJob -> rows t s' = rows t s) /\
    rows THunt s' = map (fun x => if hunt_is tenant hunt_id x
      then hu_with_state "QUEUED" (hu_plan w (len (plan tenant w (rows TArtifact s))) (hu_with_state "VALIDATING" x)) else x) (rows THunt s) /\
    exists j, In j (rows TJob s') /\ hj_hunt_id j = hunt_id /\ job_pending j = true.
Proof.
  unfold enqueue_hunt. rewrite bind_ret. intros (hunt & s0 & E0 & E). apply get_hunt_run in E0 as [-> Eh].
  exists hunt. split; [done|].
  destruct (String.eqb (hu_kind hunt) "retro") eqn:Ek; cbn [negb] in E; [|done]. apply String.eqb_eq in Ek.
  split; [done|]. destruct (String.eqb (hu_state hunt) "RUNNING" || String.eqb (hu_state hunt) "QUEUED") eqn:Es; [done|].
  apply orb_false_iff in Es as [Es1 Es2]. apply String.eqb_neq in Es1, Es2. do 2 (split; [done|]).
  destruct (check_min_tier _); [done|].
  rewrite bind_ret in E. destruct E as ([] & sa & Ea & E). apply update_hunt_run in Ea as (_ & Ha & Hat).
  rewrite bind_ret in E. destruct E as (sources & s0 & [= <- <-] & E).
  destruct (compile_bundle _) as [e|compiled]; [by apply fail_hunt_fails in E|].
  rewrite bind_ret in E. destruct E as (w & s0 & Ew & E).
  assert (w = planned_watermark tenant hunt s /\ s0 = sa) as [-> ->].
  { unfold planned_watermark. destruct (hu_corpus_watermark hunt); injection Ew as <- <-; [done|].
    by rewrite <- (Hat TArtifact) by discriminate. }
  rewrite bind_ret in E. destruct E as (planned & s0 & [= <- <-] & E).
  rewrite bind_ret in E. destruct E as ([] & sb & Eb & E). apply update_hunt_run in Eb as (_ & Hb & Hbt).
  rewrite bind_ret in E. destruct E as ([] & sc & Ec & E). apply update_hunt_run in Ec as (_ & Hc & Hct).
  rewrite bind_ret in E. destruct E as (t & s0 & [= <- <-] & E).
  rewrite bind_ret in E. destruct E as ([] & sd & Ed & E). apply get_hunt_run in E as [-> Eh'].
  set (s0 := mkSrv _ _ _ _ _ _ _) in Ed.
  assert (Hdt : forall t, t <> TJob -> rows t sd = rows t sc).
  { intros t Ht. etransitivity; [refine (frames_run _ _ _ _ _ _ Ed)|done]. apply frames_upsert. congruence. }
  cbv zeta. set (w := planned_watermark tenant hunt s) in *.
  set (planned := len _) in Hb. assert (Hpl : planned = len (plan tenant w (rows TArtifact s))).
  { unfold planned. rewrite (Hat TArtifact) by discriminate. symmetry. apply len_plan. }
  assert (Hx1 : head (List.filter (hunt_is tenant hunt_id) (rows THunt sa)) = Some (hu_with_state "VALIDATING" hunt)).
  { rewrite Ha. by apply (head_filter_map_hunt _ _ (hu_with_state "VALIDATING")). }
  assert (Hx2 : head (List.filter (hunt_is tenant hunt_id) (rows THunt sb)) = Some (hu_plan w planned (hu_with_state "VALIDATING" hunt))).
  { rewrite Hb. by apply (head_filter_map_hunt _ _ (hu_plan w planned)). }
  assert (Hx3 : head (List.filter (hunt_is tenant hunt_id) (rows THunt sd)) = Some (hu_with_state "QUEUED" (hu_plan w planned (hu_with_state "VALIDATING" hunt)))).
  { rewrite Hdt, Hc by discriminate. by apply (head_filter_map_hunt _ _ (hu_with_state "QUEUED")). }
  rewrite Eh' in Hx3. injection Hx3 as ->. rewrite <- Hpl. split; [done|]. split; [exact Eh'|].
  split. { intros t' H1 H2. by rewrite Hdt, Hct, Hbt, Hat. }
  split.
  { rewrite Hdt, Hc, Hb, Ha by discriminate. rewrite !map_map. apply map_ext. intros x.
    destruct (hunt_is tenant hunt_id x) eqn:Ex; [|by rewrite !Ex].
    by rewrite (hunt_is_state tenant hunt_id "VALIDATING"), Ex, (hunt_is_plan tenant hunt_id), (hunt_is_state tenant hunt_id "VALIDATING"), Ex. }
  unfold upsert in Ed. destruct (existsb _ (rows TJob s0)) eqn:Ee; injection Ed as <-; rewrite rows_set_rows_eq.
  - apply existsb_exists in Ee as (x & Hx & Hk). eexists. split; [apply in_map; exact Hx|]. cbv beta.
    apply bool_decide_eq_true in Hk. rewrite bool_decide_true by exact Hk. cbn in Hk. by cbn.
  - eexists. split; [apply in_or_app; right; by left|]. done.
Qed.

(** Planning pins the watermark: a hunt that has one keeps it, a first run
    takes the newest committed sequence; the plan is the endpoint artifacts at
    or below it, counted in [planned_artifacts]; counters restart from zero,
    the hunt is queued and a job is pending for it; nothing but the hunt and
    its job changes. *)
Theorem enqueue_hunt_plans tenant hunt_id s h s' :
  enqueue_hunt tenant hunt_id s = (Ret h, s') ->
  exists hunt, fst (get_hunt tenant hunt_id s) = Ret hunt /\
    ~ In (hu_state hunt) ["RUNNING"; "QUEUED"]%string /\
    let w := planned_watermark tenant hunt s in
    hu_corpus_watermark h = Some w /\ hu_planned_artifacts h = len (plan tenant w (rows TArtifact s)) /\
    hu_state h = "QUEUED"%string /\ hu_counters h = mkCounters 0 0 0 0 0 /\
    (forall t, t <> THunt -> t <> TJob -> rows t s' = rows t s) /\
    exists j, In j (rows TJob s') /\ hj_hunt_id j = hunt_id /\ job_pending j = true.
Proof.
  intros E. apply enqueue_hunt_stages in E as (hunt & Hh & _ & H1 & H2 & -> & _ & Ht & _ & Hj).
  exists hunt. split; [by rewrite (get_hunt_ok _ _ _ _ Hh)|]. split; [intros [?|[?|[]]]; congruence|].
  repeat split; [|done]. intros; by apply Ht.
Qed.

(** Re-running a finished hunt changes no result: the pinned watermark fixes
    the same plan even when artifacts were committed since, every artifact is
    answered by the cache without a scan, and neither the cache nor the
    recorded matches change. *)
Theorem rerun_hunt_replays tenant hunt_id s h s1 h2 s2 :
  execute_hunt tenant hunt_id s = (Ret h, s1) ->
  run_hunt tenant hunt_id s1 = (Ret h2, s2) ->
  hu_corpus_watermark h2 = hu_corpus_watermark h /\
  hu_scanned h2 = 0 /\ hu_cache_hits h2 = hu_planned_artifacts h2 /\
  rows TMatch s2 = rows TMatch s1 /\ rows TCache s2 = rows TCache s1.
Proof.
  intros E1 E. destruct (execute_hunt_stages _ _ _ _ _ E1) as
    (hunt & w & c & t1 & t2 & sources & compiled & sa & sb & Hh & Hk & Hw & Hsa & Hra & Hl & Hsb & Hrb & Hh').
  pose proof (execute_loop_spec _ _ _ _ _ _ _ _ _ _ _ Hl) as (_ & _ & _ & Hset & Hr & _).
  set (arts := plan tenant w (rows TArtifact s)) in *.
  assert (Hart : rows TArtifact s1 = rows TArtifact s).
  { rewrite Hsb by discriminate. rewrite <- (Hsa TArtifact) by discriminate.
    eapply frames_run; [|exact Hl]. apply frames_fold. intros. by apply execute_artifact_frames. }
  assert (Hdig : hu_bundle_digest h = hu_bundle_digest hunt /\ hu_corpus_watermark h = Some w).
  { assert (Hx1 : head (List.filter (hunt_is tenant hunt_id) (rows THunt sa)) = Some (hu_run t1 hunt)).
    { rewrite Hra. by apply (head_filter_map_hunt _ _ (hu_run t1)). }
    set (g := fun x => match arts with [] => x | _ => hu_progress c x end).
    assert (Hx2 : head (List.filter (hunt_is tenant hunt_id) (rows THunt sb)) = Some (g (hu_run t1 hunt))).
    { rewrite Hr. apply (head_filter_map_hunt _ _ g); [|done]. unfold g. by destruct arts. }
    assert (Hx3 : head (List.filter (hunt_is tenant hunt_id) (rows THunt s1)) = Some (hu_finish (final_state c) t2 (g (hu_run t1 hunt)))).
    { rewrite Hrb. by apply (head_filter_map_hunt _ _ (hu_finish (final_state c) t2)). }
    rewrite Hh' in Hx3. injection Hx3 as ->. unfold g. by destruct arts. }
  destruct Hdig as [Hdig Hwm].
  unfold run_hunt in E. rewrite bind_ret in E. destruct E as (q & sq & Eq & E).
  apply enqueue_hunt_stages in Eq as (hunt' & Hq & _ & _ & _ & Hqe & Hq' & Hqt & _).
  rewrite Hh' in Hq. injection Hq as <-. unfold planned_watermark in Hqe. rewrite Hwm in Hqe.
  change (default _ (Some w)) with w in Hqe.
  rewrite Hart in Hqe. fold arts in Hqe.
  destruct (execute_hunt_stages _ _ _ _ _ E) as
    (hunt2 & w2 & c2 & u1 & u2 & src2 & cmp2 & sc & sd & Gh & _ & Gw & Gsc & Grc & Gl & Gsd & Grd & Gh').
  rewrite Hq' in Gh. injection Gh as <-. rewrite Hqe in Gw. injection Gw as <-.
  assert (Hart2 : rows TArtifact sq = rows TArtifact s) by (rewrite Hqt by discriminate; done).
  rewrite Hart2 in Gl. fold arts in Gl.
  replace (hu_bundle_digest q) with (hu_bundle_digest hunt) in Gl by (rewrite Hqe; cbn; done).
  pose proof (execute_loop_spec _ _ _ _ _ _ _ _ _ _ _ Gl) as (Ga & _ & _ & _ & Gr & Grep).
  assert (Hc : rows TCache sc = rows TCache sb) by (rewrite Gsc, Hqt, Hsb by discriminate; done).
  assert (Hm : rows TMatch sc = rows TMatch sb) by (rewrite Gsc, Hqt, Hsb by discriminate; done).
  destruct Grep as (R1 & R2 & R3 & R4).
  { intros a Ha. destruct (Hset a Ha) as (hit & Hf & Hmm). exists hit. by rewrite Hc, Hm. }
  cbn [c_scanned] in R1. cbn [c_cache_hits] in R2.
  assert (Gx1 : head (List.filter (hunt_is tenant hunt_id) (rows THunt sc)) = Some (hu_run u1 q)).
  { rewrite Grc. by apply (head_filter_map_hunt _ _ (hu_run u1)). }
  set (g := fun x => match arts with [] => x | _ => hu_progress c2 x end).
  assert (Gx2 : head (List.filter (hunt_is tenant hunt_id) (rows THunt sd)) = Some (g (hu_run u1 q))).
  { rewrite Gr. apply (head_filter_map_hunt _ _ g); [|done]. unfold g. by destruct arts. }
  assert (Gx3 : head (List.filter (hunt_is tenant hunt_id) (rows THunt s2)) = Some (hu_finish (final_state c2) u2 (g (hu_run u1 q)))).
  { rewrite Grd. by apply (head_filter_map_hunt _ _ (hu_finish (final_state c2) u2)). }
  rewrite Gh' in Gx3. injection Gx3 as ->.
  split. { rewrite Hwm, Hqe. unfold g. by destruct arts. }
  split. { rewrite Hqe. unfold g. destruct arts; [done|exact R1]. }
  split. { rewrite Hqe. unfold g. destruct arts as [|x xs]; [done|]. change (c_cache_hits c2 = len (x :: xs)). lia. }
  split. { rewrite Gsd, R3, Hm, Hsb by discriminate. done. }
  rewrite Gsd, R4, Hc, Hsb by discriminate. done.
Qed.
End hunt_lemmas.

(** ** The job queue *)

Lemma sort_head_least {A} (le : A -> A -> bool) l x :
  le_total le -> le_trans le -> head (sort_by le l) = Some x ->
  In x l /\ forall y, In y l -> le x y = true.
Proof.
  intros Ht Htr Hh. pose proof (sort_by_sorted le l Ht Htr) as Hs.
  assert (Hin : forall y, In y (sort_by le l) <-> In y l) by (intros; apply sort_by_in).
  destruct (sort_by le l) as [|z k]; [done|]. injection Hh as ->.
  split; [apply Hin; by left|]. intros y Hy. apply Hin in Hy as [<-|Hy].
  - by destruct (Ht x x).
  - inversion Hs as [|? ? _ Hall]; subst. rewrite List.Forall_forall in Hall. auto.
Qed.

Definition enqueued_le (a b : HuntJob) : bool := hj_enqueued_at a <=? hj_enqueued_at b.

Lemma claim_next_job_run worker s o s' :
  claim_next_job worker s = (o, s') ->
  (o = Ret None /\ s' = s /\ List.filter job_pending (rows TJob s) = []) \/
  exists j t, o = Ret (Some (hj_tenant j, hj_hunt_id j)) /\
    head (sort_by enqueued_le (List.filter job_pending (rows TJob s))) = Some j /\
    rows TJob s' = map (fun x => if bool_decide (hj_hunt_id x = hj_hunt_id j)
                                 then job_set x (Some t) (Some worker) (hj_finished_at x) else x) (rows TJob s).
Proof.
  unfold claim_next_job, db_transaction, transaction. op_unfold. unfold select, gets. op_unfold.
  fold enqueued_le.
  match goal with |- context [head (sort_by ?f ?l)] => change (head (sort_by f l)) with (head (sort_by enqueued_le (List.filter job_pending (rows TJob s : list HuntJob)))) end.
  destruct (head (sort_by enqueued_le (List.filter job_pending (rows TJob s : list HuntJob)))) as [j|] eqn:Ej.
  - intros [= <- <-]. right. exists j, (srv_clock s (srv_clock_next s)). split; [done|]. split; [done|].
    rewrite rows_set_rows_ne by discriminate. apply rows_set_rows_eq.
  - intros [= <- <-]. left. split; [done|]. split; [done|].
    assert (Hp : Permutation (sort_by enqueued_le (List.filter job_pending (rows TJob s : list HuntJob))) (List.filter job_pending (rows TJob s))) by apply sort_by_perm.
    destruct (sort_by _ _); [by apply Permutation_nil_l in Hp|done].
Qed.

(** The queue hands out jobs oldest first and a job once: what a claim returns
    was pending with the least enqueue time, is pending no more, and no later
    claim returns it again; a claim returns nothing only when nothing is
    pending. *)
Theorem claim_next_job_exclusive worker s o s' :
  claim_next_job worker s = (o, s') ->
  (o = Ret None <-> List.filter job_pending (rows TJob s) = []) /\
  forall tenant hunt_id, o = Ret (Some (tenant, hunt_id)) ->
    (exists j, In j (rows TJob s) /\ hj_tenant j = tenant /\ hj_hunt_id j = hunt_id /\ job_pending j = true /\
       forall k, In k (rows TJob s) -> job_pending k = true -> hj_enqueued_at j <= hj_enqueued_at k) /\
    (forall k, In k (rows TJob s') -> hj_hunt_id k = hunt_id -> job_pending k = false) /\
    forall worker' tenant', fst (claim_next_job worker' s') <> Ret (Some (tenant', hunt_id)).
Proof.
  assert (Htot : le_total enqueued_le) by (intros a b; unfold enqueued_le; rewrite !Z.leb_le; lia).
  assert (Htr : le_trans enqueued_le) by (intros a b c; unfold enqueued_le; rewrite !Z.leb_le; lia).
  intros E. apply claim_next_job_run in E as [(-> & -> & Hn)|(j & t & -> & Hj & Hr)].
  { split; [done|]. discriminate. }
  destruct (sort_head_least _ _ _ Htot Htr Hj) as [Hin Hleast].
  apply filter_In in Hin as [Hin Hp]. split.
  { split; [done|]. intros Hn. rewrite Hn in Hj. done. }
  intros tenant hunt_id [= <- <-].
  assert (Hnp : forall k, In k (rows TJob s') -> hj_hunt_id k = hj_hunt_id j -> job_pending k = false).
  { intros k Hk Hid. rewrite Hr in Hk. apply in_map_iff in Hk as (x & <- & Hx). case_bool_decide as Hd; [|done].
    unfold job_pending. cbn. by destruct (hj_finished_at x). }
  split; [|split; [exact Hnp|]].
  - exists j. repeat split; [done|done|]. intros k Hk Hpk. apply Z.leb_le, Hleast. by apply filter_In.
  - intros worker' tenant' Hc. destruct (claim_next_job worker' s') as [o2 s2] eqn:E2. cbn in Hc. subst o2.
    apply claim_next_job_run in E2 as [(? & _)|(j2 & t2 & [= _ Hid] & Hj2 & _)]; [done|].
    destruct (sort_head_least _ _ _ Htot Htr Hj2) as [Hin2 _]. apply filter_In in Hin2 as [Hin2 Hp2].
    rewrite (Hnp j2 Hin2) in Hp2; [done|congruence].
Qed.

(** ** Witnesses *)

Section witnesses.
  Local Existing Instance ReferenceYara.engine.
  Local Existing Instance ReferenceYara.host.
  Local Existing Instance ReferenceHash.sha.
  Local Existing Instance ReferenceHash.hex.
  Local Existing Instance ReferenceUuid.display.

(** Two committed artifacts, one of which the rule matches, the other with no
    object behind it; a hunt (identifier 103) over the bundle. *)
Definition rule_source : string := "rule a { condition: true }".
Definition hunt_artifact (id : Uuid) (seq : Z) (key : string) (sha : bytes) : Artifact :=
  mkArtifact id 7%N seq sha 1 "unknown" "committed" key 0 "endpoint" JNull.
Definition hunt_corpus : Srv :=
  let s := snd (publish_bundle 7%N [100%N] true (snd (create_rule 7%N rule_source ReferenceServer.empty))) in
  let s := set_rows TArtifact [hunt_artifact 1%N 1 "objects/7/aa" [x01]; hunt_artifact 2%N 2 "objects/7/bb" [x02]] s in
  set_cas (mkFsCas {[ "objects/7/aa"%string := str_bytes rule_source ]} false) s.
Definition the_digest : string := Eval vm_compute in
  match rows TBundle hunt_corpus with b :: _ => rb_digest b | [] => "" end.
Definition hunt_ready : Srv := snd (create_hunt 7%N the_digest hunt_corpus).
Definition hunt_queued : Srv := snd (enqueue_hunt 7%N 103%N hunt_ready).
Definition hunt_done : Srv := snd (execute_hunt 7%N 103%N hunt_queued).

Definition ret_hunt (o : outcome Hunt) : Hunt :=
  match o with Ret h => h | _ => new_hunt 0%N 0%N "" 0%N "" "" 0 end.

Lemma enqueue_hunt_plans_witness :
  let h := ret_hunt (fst (enqueue_hunt 7%N 103%N hunt_ready)) in
  hu_corpus_watermark h = Some 2 /\ hu_planned_artifacts h = 2 /\ hu_state h = "QUEUED"%string.
Proof.
  destruct (enqueue_hunt_plans 7%N 103%N hunt_ready (ret_hunt (fst (enqueue_hunt 7%N 103%N hunt_ready))) hunt_queued)
    as (hunt & _ & _ & _ & _ & Hs & _).
  - vm_compute. reflexivity.
  - split; [vm_compute; reflexivity|]. split; [vm_compute; reflexivity|exact Hs].
Defined.

Lemma execute_hunt_result_witness :
  let h := ret_hunt (fst (execute_hunt 7%N 103%N hunt_queued)) in
  hu_state h = "COMPLETED_PARTIAL"%string /\ hu_counters h = mkCounters 1 0 1 0 1.
Proof.
  intros h. destruct (execute_hunt_result 7%N 103%N hunt_queued h hunt_done)
    as (hunt & w & c & _ & _ & _ & _ & _ & Hs & _ & _).
  - vm_compute. reflexivity.
  - split; [|vm_compute; reflexivity]. destruct Hs as [Hs|Hs]; [|exact Hs]. vm_compute in Hs. discriminate Hs.
Defined.

Lemma rerun_hunt_replays_witness :
  let h2 := ret_hunt (fst (run_hunt 7%N 103%N hunt_done)) in
  hu_scanned h2 = 0 /\ hu_cache_hits h2 = 2 /\ hu_state h2 = "COMPLETED_PARTIAL"%string.
Proof.
  intros h2. destruct (rerun_hunt_replays 7%N 103%N hunt_queued (ret_hunt (fst (execute_hunt 7%N 103%N hunt_queued)))
    hunt_done h2 (snd (run_hunt 7%N 103%N hunt_done))) as (_ & H1 & H2 & _).
  - vm_compute. reflexivity.
  - vm_compute. reflexivity.
  - split; [exact H1|]. split; [rewrite H2; vm_compute; reflexivity|vm_compute; reflexivity].
Defined.

Lemma claim_next_job_exclusive_witness :
  fst (claim_next_job "w" hunt_queued) = Ret (Some (7, 103)%N) /\
  fst (claim_next_job "v" (snd (claim_next_job "w" hunt_queued))) = Ret None.
Proof.
  destruct (claim_next_job_exclusive "w" hunt_queued (Ret (Some (7, 103)%N)) (snd (claim_next_job "w" hunt_queued)))
    as (_ & H).
  - vm_compute. reflexivity.
  - split; [vm_compute; reflexivity|]. destruct (H 7%N 103%N eq_refl) as (_ & _ & Hne). clear Hne.
    vm_compute. reflexivity.
Defined.
End witnesses.
