(* ===== verification/Workers.v ===== *)
(** * The server's background loops ([corpus-server/src/main.rs])

    The delivery sweep of the trigger outbox and the durable hunt worker: what a
    turn does, how long it then sleeps, and that the worker empties its queue. *)

From S2P Require Import Prelude Machine Text Hash Cas Schema Scan Rules Triggers Hunts.
From Stdlib Require Import Sorting.Permutation Sorting.Sorted.

Open Scope Z_scope.

Section loops.
  Context {YX : YaraX} {SH : ScannerHost} {SHA : Sha256} {HEX : HexCodec} {UD : UuidDisplay} {JT : JsonText} {WH : Webhook}.

(** A sweep of the outbox; an error is logged.  The loop sleeps 2 seconds. *)
Definition delivery_turn : Op Srv Z := _ ← attempt deliver_pending; mret 2.

(** What a turn of the hunt worker did: the hunt it claimed and whether its
    execution returned, or the seconds it sleeps. *)
Inductive WorkerTurn : Type :=
  | Executed (tenant hunt_id : Uuid) (returned : bool)
  | Slept (secs : Z).

Definition hunt_worker (worker_id : string) : Op Srv WorkerTurn :=
  claim ← attempt (claim_next_job worker_id);
  match claim with
  | inr (Some (tenant, hunt_id)) =>
      r ← attempt (execute_hunt tenant hunt_id);
      mret (Executed tenant hunt_id (match r with inr _ => true | inl _ => false end))
  | inr None => mret (Slept 2)
  | inl _ => mret (Slept 5)
  end.

Fixpoint worker_turns (worker_id : string) (n : nat) : Op Srv (list WorkerTurn) :=
  match n with
  | O => mret []
  | S n' => t ← hunt_worker worker_id; l ← worker_turns worker_id n'; mret (t :: l)
  end.
End loops.

(** ** Sorting and filtering *)

Section sort_filter.
  Context {A : Type} (le : A -> A -> bool) (p : A -> bool) (Htot : le_total le) (Htr : le_trans le).

Lemma insert_by_filter x l : StronglySorted (fun a b => le a b = true) l ->
  List.filter p (insert_by le x l) = if p x then insert_by le x (List.filter p l) else List.filter p l.
Proof.
  induction 1 as [|y l Hl IH Hy]; cbn [insert_by List.filter]; [done|]. destruct (le x y) eqn:Exy; cbn [List.filter].
  - destruct (p x); [|done]. destruct (p y); cbn [insert_by]; [by rewrite Exy|]. destruct (List.filter p l) as [|z r] eqn:Ef; [done|].
    cbn [insert_by]. assert (Hz : In z l) by (eapply (filter_In p); rewrite Ef; by left). rewrite List.Forall_forall in Hy.
    by rewrite (Htr x y z Exy (Hy z Hz)).
  - rewrite IH. destruct (p x), (p y); cbn [insert_by]; by rewrite ?Exy.
Qed.

(** A stable sort commutes with a filter. *)
Lemma sort_by_filter l : sort_by le (List.filter p l) = List.filter p (sort_by le l).
Proof.
  induction l as [|x l IH]; [done|]. cbn [sort_by foldr List.filter]. fold (sort_by le l).
  rewrite insert_by_filter by (by apply sort_by_sorted). rewrite <- IH. by destruct (p x).
Qed.
End sort_filter.

Lemma enqueued_total : le_total enqueued_le.
Proof. intros a b. unfold enqueued_le. rewrite !Z.leb_le. lia. Qed.
Lemma enqueued_trans : le_trans enqueued_le.
Proof. intros a b c. unfold enqueued_le. rewrite !Z.leb_le. lia. Qed.

(** ** The hunt worker *)

Section worker.
  Context {YX : YaraX} {SH : ScannerHost} {SHA : Sha256} {HEX : HexCodec} {UD : UuidDisplay}.

(** The pending jobs, oldest first. *)
Definition job_queue (s : Srv) : list HuntJob := sort_by enqueued_le (List.filter job_pending (rows TJob s)).

(** From [l] to [l'] only jobs of one hunt changed, in place, none back to pending. *)
Definition touched (hunt_id : Uuid) (l l' : list HuntJob) : Prop :=
  exists f, l' = map f l /\ (forall j, hj_hunt_id (f j) = hj_hunt_id j) /\ (forall j, hj_hunt_id j <> hunt_id -> f j = j) /\
    (forall j, job_pending j = false -> job_pending (f j) = false).

Lemma touched_refl h l : touched h l l.
Proof. exists (fun j => j). by rewrite map_id. Qed.

Lemma touched_jobs h (l : list HuntJob) (g : HuntJob -> HuntJob) : (forall j, hj_hunt_id (g j) = hj_hunt_id j) -> (forall j, job_pending (g j) = false) ->
  keeps (fun s => touched h l (rows TJob s)) (update_rows TJob (fun j => bool_decide (hj_hunt_id j = h)) g).
Proof.
  intros Hid Hp s (f & E & H1 & H2 & H3). cbn [update_rows snd]. rewrite rows_set_rows_eq, E, map_map.
  exists (fun j => if bool_decide (hj_hunt_id (f j) = h) then g (f j) else f j). split; [done|]. split; [|split].
  - intros j. case_bool_decide; by rewrite ?Hid.
  - intros j Hj. rewrite bool_decide_eq_false_2; [by apply H2|]. by rewrite H1.
  - intros j Hj. case_bool_decide; auto.
Qed.

Lemma touched_frame {A} h l (m : Op Srv A) : frames (rows TJob) m -> keeps (fun s => touched h l (rows TJob s)) m.
Proof. intros Hm s Hs. by rewrite (Hm s). Qed.

Lemma execute_artifact_jobs tier sources compiled tenant h digest c a : frames (rows TJob) (execute_artifact tier sources compiled tenant h digest c a).
Proof.
  unfold execute_artifact, execute_cached, execute_scanned, commit_match, commit_cache_entry, update_hunt, fire_hunt_match, fire, cache_lookup, record_detection.
  frames_tac.
Qed.

Ltac job_step := apply keeps_bind; [first [apply touched_frame; solve [unfold update_hunt, get_hunt, bundle_sources; frames_tac]|apply keeps_attempt, touched_jobs; [done|]]|intros ?].

Lemma execute_hunt_touches tenant h l : keeps (fun s => touched h l (rows TJob s)) (execute_hunt tenant h).
Proof.
  unfold execute_hunt. job_step. destruct (negb _); [apply keeps_throw|]. job_step.
  destruct (compile_bundle _); [apply touched_frame; unfold fail_hunt, update_hunt; frames_tac|]. job_step. cbv zeta.
  destruct (check_min_tier _); [apply touched_frame; unfold fail_hunt, update_hunt; frames_tac|].
  do 3 job_step. job_step; [intros j; unfold job_pending; cbn; by destruct (hj_finished_at j)|]. job_step.
  apply keeps_bind; [apply touched_frame, frames_fold; intros; apply execute_artifact_jobs|intros c].
  do 3 job_step. job_step; [done|]. apply touched_frame. unfold get_hunt. frames_tac.
Qed.

(** A job whose hunt's execution returned is finished. *)
Lemma execute_hunt_finishes tenant h s hunt s' : execute_hunt tenant h s = (Ret hunt, s') ->
  forall j, In j (rows TJob s') -> hj_hunt_id j = h -> is_Some (hj_finished_at j).
Proof.
  unfold execute_hunt. intros E. apply bind_ret in E as (h0 & s1 & _ & E). destruct (negb _); [discriminate E|].
  apply bind_ret in E as (src & s2 & _ & E). destruct (compile_bundle src).
  { unfold fail_hunt in E. do 2 apply bind_ret in E as (? & ? & _ & E). discriminate E. }
  apply bind_ret in E as (w & s3 & _ & E). cbv zeta in E. destruct (check_min_tier _).
  { unfold fail_hunt in E. do 2 apply bind_ret in E as (? & ? & _ & E). discriminate E. }
  do 9 apply bind_ret in E as (? & ? & _ & E). apply bind_ret in E as (r & s4 & E1 & E2).
  assert (E3 : rows TJob s' = rows TJob s4).
  { assert (Hf : frames (rows TJob) (get_hunt tenant h)) by (unfold get_hunt; frames_tac). specialize (Hf s4). by rewrite E2 in Hf. }
  rewrite E3. unfold attempt in E1. injection E1 as _ <-. rewrite rows_set_rows_eq. intros j (k & <- & Hk)%in_map_iff Hj.
  case_bool_decide as Hd; [by eexists|]. by destruct Hd.
Qed.

Lemma attempt_returns {A} (m : Op Srv A) s : never_panics m -> exists r, attempt m s = (Ret r, snd (m s)) /\ (forall a, r = inr a -> fst (m s) = Ret a).
Proof. intros Hm. specialize (Hm s). unfold attempt. destruct (m s) as [[a|e|] s']; [exists (inr a)|exists (inl e)|done]; split; try done; by intros ? [= ->]. Qed.

Lemma pending_touched f h (l : list HuntJob) : (forall j, hj_hunt_id (f j) = hj_hunt_id j) -> (forall j, hj_hunt_id j <> h -> f j = j) ->
  (forall k, In k (map f l) -> hj_hunt_id k = h -> job_pending k = false) ->
  List.filter job_pending (map f l) = List.filter (fun k => negb (bool_decide (hj_hunt_id k = h))) (List.filter job_pending l).
Proof.
  intros F1 F2. induction l as [|x l IH]; intros H; [done|]. cbn [map List.filter]. rewrite IH by (intros k Hk; apply H; by right).
  destruct (decide (hj_hunt_id x = h)) as [Hx|Hx].
  - rewrite (H (f x)); [|by left|by rewrite F1]. destruct (job_pending x); [|done]. cbn [List.filter]. by rewrite bool_decide_eq_true_2.
  - rewrite F2 by done. destruct (job_pending x); [|done]. cbn [List.filter]. by rewrite bool_decide_eq_false_2.
Qed.

Lemma scan_calm tier sources rules b path : scan_with_tier tier sources (Some rules) b path <> Panic.
Proof. unfold scan_with_tier. destruct tier; cbn; [done|..]; repeat case_match; done. Qed.

Ltac worker_calm := repeat first
  [ lazymatch goal with
    | |- never_panics (mbind _ _) => apply never_panics_bind; [|intros ?]
    | |- never_panics (attempt _) => apply never_panics_attempt
    | |- never_panics (op_fold _ _ _) => apply never_panics_fold; intros ? ?
    | |- never_panics (op_for _ _) => apply never_panics_for; intros ?
    | |- never_panics (or_throw _ ?o) => intros ?; unfold or_throw; destruct o; discriminate
    | |- never_panics (lift_outcome (scan_with_tier _ _ _ _ _)) => intros ?; apply scan_calm
    | |- never_panics (insert_on_conflict _ _ _) => intros ?; unfold insert_on_conflict; case_match; discriminate
    | |- never_panics (upsert _ _ _ _) => intros ?; unfold upsert; case_match; discriminate
    | |- never_panics (with_cas (read _)) => intros ?; unfold with_cas; cbn; unfold Fs.read, Fs.read_file; repeat case_match; simplify_eq; done
    | |- never_panics (match ?x with _ => _ end) => destruct x
    | |- never_panics (let _ := _ in _) => cbv zeta
    | |- never_panics _ => intros ?; discriminate
    end ].

Lemma execute_hunt_calm tenant h : never_panics (execute_hunt tenant h).
Proof.
  unfold execute_hunt, get_hunt, bundle_sources, fail_hunt, update_hunt, execute_artifact, execute_cached, execute_scanned, commit_match,
    commit_cache_entry, fire_hunt_match, fire, cache_lookup, record_detection, insert_unique.
  worker_calm.
Qed.

Lemma attempt_run {A} (m : Op Srv A) s a s' : m s = (Ret a, s') -> attempt m s = (Ret (inr a), s').
Proof. intros E. unfold attempt. by rewrite E. Qed.

Lemma queue_nodup s j rest : unique_key TJob hj_hunt_id s -> job_queue s = j :: rest -> ~ In (hj_hunt_id j) (map hj_hunt_id rest).
Proof.
  intros Hu Hq Hin. assert (Hnd : NoDup (map hj_hunt_id (j :: rest))).
  { rewrite <- Hq. unfold job_queue. rewrite (Permutation_map hj_hunt_id (sort_by_perm enqueued_le (List.filter job_pending (rows TJob s)))). by apply nodup_map_filter. }
  cbn [map] in Hnd. apply NoDup_cons in Hnd as [Hnd _]. by apply Hnd, list_elem_of_In.
Qed.

(** A turn with a job to do executes the oldest; the others stay as they were. *)
Lemma worker_turn_busy worker s j rest : unique_key TJob hj_hunt_id s -> job_queue s = j :: rest ->
  exists ok s', hunt_worker worker s = (Ret (Executed (hj_tenant j) (hj_hunt_id j) ok), s') /\
    unique_key TJob hj_hunt_id s' /\ job_queue s' = rest /\
    (ok = true -> forall k, In k (rows TJob s') -> hj_hunt_id k = hj_hunt_id j -> is_Some (hj_finished_at k)) /\
    (forall k, hj_hunt_id k <> hj_hunt_id j -> In k (rows TJob s') <-> In k (rows TJob s)).
Proof.
  intros Hu Hq. unfold hunt_worker. destruct (claim_next_job worker s) as [o s1] eqn:Ec.
  apply claim_next_job_run in Ec as Hc. destruct Hc as [(_ & _ & Hn)|(j' & t & -> & Hj & Hr)].
  { unfold job_queue in Hq. by rewrite Hn in Hq. }
  unfold job_queue in Hq. rewrite Hq in Hj. injection Hj as <-.
  rewrite (bind_run _ _ _ _ _ (attempt_run _ _ _ _ Ec)). destruct (attempt_returns (execute_hunt (hj_tenant j) (hj_hunt_id j)) s1 (execute_hunt_calm _ _)) as (r & E2 & Hret).
  rewrite (bind_run _ _ _ _ _ E2). set (s2 := snd (execute_hunt (hj_tenant j) (hj_hunt_id j) s1)).
  assert (Ht : touched (hj_hunt_id j) (rows TJob s) (rows TJob s2)).
  { apply execute_hunt_touches. rewrite Hr. exists (fun x => if bool_decide (hj_hunt_id x = hj_hunt_id j) then job_set x (Some t) (Some worker) (hj_finished_at x) else x).
    split; [done|]. split; [intros x; by case_bool_decide|]. split; [intros x Hx; by rewrite bool_decide_eq_false_2|].
    intros x Hx. case_bool_decide; [|done]. unfold job_pending. cbn. by destruct (hj_finished_at x). }
  assert (Hnp : forall k, In k (rows TJob s2) -> hj_hunt_id k = hj_hunt_id j -> job_pending k = false).
  { assert (Ht1 : touched (hj_hunt_id j) (rows TJob s1) (rows TJob s2)) by (apply execute_hunt_touches, touched_refl).
    destruct Ht1 as (f & E & F1 & _ & F3). intros k. rewrite E. intros (x & <- & Hx)%in_map_iff Hid. apply F3. rewrite Hr in Hx.
    apply in_map_iff in Hx as (y & <- & _). rewrite F1 in Hid. case_bool_decide as Hd; [|by destruct Hd].
    unfold job_pending. cbn. by destruct (hj_finished_at y). }
  destruct Ht as (f & E & F1 & F2 & F3). eexists _, s2. split; [reflexivity|]. split; [|split; [|split]].
  - unfold unique_key in *. rewrite E, map_map. erewrite map_ext; [exact Hu|]. exact F1.
  - pose proof (pending_touched f (hj_hunt_id j) (rows TJob s) F1 F2 ltac:(by rewrite <- E)) as Ef. rewrite <- E in Ef.
    unfold job_queue. rewrite Ef, (sort_by_filter enqueued_le) by (exact enqueued_total || exact enqueued_trans). rewrite Hq. cbn [List.filter].
    rewrite bool_decide_eq_true_2 by done. cbn [negb]. apply list_filter_all. intros k Hk. apply negb_true_iff, bool_decide_eq_false_2. intros Hid.
    apply (queue_nodup s j rest Hu Hq). rewrite <- Hid. by apply in_map.
  - intros Hok. destruct r as [e|a]; [discriminate Hok|]. specialize (Hret a eq_refl).
    apply (execute_hunt_finishes (hj_tenant j) (hj_hunt_id j) s1 a s2). unfold s2. rewrite <- Hret. apply surjective_pairing.
  - intros k Hid. rewrite E. split.
    + intros (x & <- & Hx)%in_map_iff. rewrite F1 in Hid. by rewrite F2.
    + intros Hk. rewrite <- (F2 k Hid). by apply in_map.
Qed.

Lemma worker_turn_idle worker s : job_queue s = [] -> hunt_worker worker s = (Ret (Slept 2), s).
Proof.
  intros Hq. unfold hunt_worker. destruct (claim_next_job worker s) as [o s1] eqn:Ec.
  apply claim_next_job_run in Ec as Hc. destruct Hc as [(-> & -> & _)|(j & t & _ & Hj & _)]; [|by unfold job_queue in Hq; rewrite Hq in Hj].
  by rewrite (bind_run _ _ _ _ _ (attempt_run _ _ _ _ Ec)).
Qed.

Definition claimed (t : WorkerTurn) : option (Uuid * Uuid) :=
  match t with Executed tenant h _ => Some (tenant, h) | Slept _ => None end.

(** C32. The durable hunt queue drains: started in any state whose jobs have
    distinct hunts (their primary key), [n] turns of the worker loop always return -
    whatever the rules, the scanner, the store or the hooks do, no execution stops the
    loop - and they execute the first [n] pending jobs, each once and oldest first; the
    jobs after them are still pending, in order; turns that find the queue empty sleep
    2 seconds; and a job whose execution returned is finished, for good. *)
Theorem hunt_worker_drains worker n s : unique_key TJob hj_hunt_id s ->
  exists turns s', worker_turns worker n s = (Ret turns, s') /\
    map claimed turns = map (fun j => Some (hj_tenant j, hj_hunt_id j)) (take n (job_queue s)) ++ repeat None (n - length (job_queue s)) /\
    job_queue s' = drop n (job_queue s) /\
    (forall secs, In (Slept secs) turns -> secs = 2) /\
    (forall tenant h k, In (Executed tenant h true) turns -> In k (rows TJob s') -> hj_hunt_id k = h -> is_Some (hj_finished_at k)) /\
    (forall k, ~ In (hj_hunt_id k) (map hj_hunt_id (job_queue s)) -> In k (rows TJob s') <-> In k (rows TJob s)).
Proof.
  revert s. induction n as [|n IH]; intros s Hu.
  { exists [], s. repeat split; cbn; auto; try contradiction; by rewrite ?drop_0. }
  destruct (job_queue s) as [|j rest] eqn:Hq.
  - destruct (IH s Hu) as (turns & s' & E & Hc & Hr & Hs & Hf & Ho). rewrite Hq in Hc, Hr, Ho. exists (Slept 2 :: turns), s'.
    cbn [worker_turns]. rewrite (bind_run _ _ _ _ _ (worker_turn_idle worker s Hq)), (bind_run _ _ _ _ _ E).
    split; [done|]. split; [|split; [|split; [|split]]].
    + cbn. rewrite Hc. rewrite take_nil. cbn. by rewrite Nat.sub_0_r.
    + by rewrite drop_nil in *.
    + intros secs [[= ->]|Hin]; [done|]. by apply Hs.
    + intros tenant h k [Hd|Hin]; [discriminate Hd|]. by apply (Hf tenant).
    + exact Ho.
  - destruct (worker_turn_busy worker s j rest Hu Hq) as (ok & s1 & E1 & Hu1 & Hq1 & Hok & Hother).
    destruct (IH s1 Hu1) as (turns & s' & E & Hc & Hr & Hs & Hf & Ho). rewrite Hq1 in Hc, Hr, Ho.
    exists (Executed (hj_tenant j) (hj_hunt_id j) ok :: turns), s'.
    cbn [worker_turns]. rewrite (bind_run _ _ _ _ _ E1), (bind_run _ _ _ _ _ E).
    split; [done|]. split; [cbn; by rewrite Hc|]. split; [exact Hr|]. split; [|split].
    + intros secs [Hd|Hin]; [discriminate Hd|]. by apply Hs.
    + intros tenant h k [[= <- <- ->]|Hin] Hk Hid; [|by apply (Hf tenant h)].
      apply Hok; [done| |done]. apply Ho; [|done]. rewrite Hid. apply (queue_nodup s j rest Hu Hq).
    + cbn [map]. intros k Hk. rewrite Ho, Hother; [done| |]; intros Hi; apply Hk; [left; congruence|by right].
Qed.
End worker.

(** ** The worker on a queued hunt *)

Section worker_witness.
  Local Existing Instance ReferenceYara.engine.
  Local Existing Instance ReferenceYara.host.
  Local Existing Instance ReferenceHash.sha.
  Local Existing Instance ReferenceHash.hex.
  Local Existing Instance ReferenceUuid.display.

Lemma hunt_worker_drains_witness :
  exists turns s', worker_turns "local" 2 hunt_queued = (Ret turns, s') /\ map claimed turns = [Some (7, 103)%N; None] /\ job_queue s' = [].
Proof.
  destruct (hunt_worker_drains "local" 2 hunt_queued) as (turns & s' & E & Hc & Hr & _).
  - vm_compute. repeat constructor; set_solver.
  - exists turns, s'. split; [exact E|]. split; [rewrite Hc; vm_compute; reflexivity|rewrite Hr; vm_compute; reflexivity].
Defined.
End worker_witness.
