(* ===== verification/Fuzzy.v ===== *)
(** * Fuzzy digests and their index

    [corpus-core/src/similarity/fuzzy.rs] (the ssdeep-compatible digest and its
    comparison) and [corpus-core/src/similarity/lsh.rs] (the banded candidate
    index).  [u32] values are in [0, 2^32) with the wrap-around of the
    [wrapping_*] and shift operations; digests are ASCII strings, the alphabet
    being base64. *)

From S2P Require Import Prelude Machine Text Hash Cas Schema.
From Stdlib Require Import Strings.Byte Strings.Ascii.
From stdpp Require Import pretty.

Open Scope Z_scope.

(** ** The digest *)

Definition BLOCKSIZE_MIN : Z := 3.
Definition SPAMSUM_LENGTH : Z := 64.
Definition ROLL_WINDOW : Z := 7.
Definition HASH_INIT : Z := 0x27.
Definition B64 : string := "ABCDEFGHIJKLMNOPQRSTUVWXYZabcdefghijklmnopqrstuvwxyz0123456789+/".

Definition F_TABLE : list Z := [
  0x00; 0x13; 0x26; 0x39; 0x0c; 0x1f; 0x32; 0x05;
  0x18; 0x2b; 0x3e; 0x11; 0x24; 0x37; 0x0a; 0x1d;
  0x30; 0x03; 0x16; 0x29; 0x3c; 0x0f; 0x22; 0x35;
  0x08; 0x1b; 0x2e; 0x01; 0x14; 0x27; 0x3a; 0x0d;
  0x20; 0x33; 0x06; 0x19; 0x2c; 0x3f; 0x12; 0x25;
  0x38; 0x0b; 0x1e; 0x31; 0x04; 0x17; 0x2a; 0x3d;
  0x10; 0x23; 0x36; 0x09; 0x1c; 0x2f; 0x02; 0x15;
  0x28; 0x3b; 0x0e; 0x21; 0x34; 0x07; 0x1a; 0x2d ].

(** Array indexing: [None] is a panic. *)
Definition byte_hash (h : Z) (b : byte) : option Z :=
  f ← index F_TABLE (Z.land h 0x3f); Some (Z.lxor f (Z.land (u8 b) 0x3f)).

Definition b64 (i : Z) : option ascii := if 0 <=? i then String.get (Z.to_nat i) B64 else None.

Record Roll := mkRoll { r_window : list Z; r_h1 : Z; r_h2 : Z; r_h3 : Z; r_n : nat }.

Definition roll_new : Roll := mkRoll (repeat 0 7) 0 0 0 0.

Definition roll_update (r : Roll) (b : byte) : option (Roll * Z) :=
  let b := u8 b in
  w ← r_window r !! r_n r;
  let h2 := u32_wrap (u32_wrap (r_h2 r - r_h1 r) + ROLL_WINDOW * b) in
  let h1 := u32_wrap (u32_wrap (r_h1 r + b) - w) in
  let window := <[r_n r := b]> (r_window r) in
  let n := (S (r_n r) mod 7)%nat in
  let h3 := Z.lxor (u32_wrap (Z.shiftl (r_h3 r) 5)) b in
  Some (mkRoll window h1 h2 h3 n, u32_wrap (u32_wrap (h1 + h2) + h3)).

(** [block_size * 2] and [block_size *= 2]: [None] is an overflow of [u32]. *)
Definition double (n : Z) : option Z := if n * 2 <? 2 ^ 32 then Some (n * 2) else None.

(** The loop state of [hash_with_block]. *)
Record BlockState := mkBlockState {
  bs_roll : Roll; bs_bh1 : Z; bs_bh2 : Z; bs_hs1 : string; bs_hs2 : string;
  bs_last1 : Z; bs_last2 : Z; bs_rh : Z }.

Definition block_init : BlockState := mkBlockState roll_new HASH_INIT HASH_INIT "" "" 0 0 0.

Definition push (s : string) (c : ascii) : string := s +:+ String c "".

Definition block_step (block_size : Z) (st : BlockState) (b : byte) : option BlockState :=
  bh1 ← byte_hash (bs_bh1 st) b;
  bh2 ← byte_hash (bs_bh2 st) b;
  '(roll, rh) ← roll_update (bs_roll st) b;
  if negb (rh mod block_size =? block_size - 1)
  then Some (mkBlockState roll bh1 bh2 (bs_hs1 st) (bs_hs2 st) (bs_last1 st) (bs_last2 st) rh)
  else
    '(hs1, bh1', last1) ← (if str_len (bs_hs1 st) <? SPAMSUM_LENGTH - 1
        then c ← b64 (Z.land bh1 0x3f); Some (push (bs_hs1 st) c, HASH_INIT, Z.land HASH_INIT 0x3f)
        else Some (bs_hs1 st, bh1, Z.land bh1 0x3f));
    block2 ← double block_size;
    if negb (rh mod block2 =? block2 - 1)
    then Some (mkBlockState roll bh1' bh2 hs1 (bs_hs2 st) last1 (bs_last2 st) rh)
    else
      '(hs2, bh2', last2) ← (if str_len (bs_hs2 st) <? SPAMSUM_LENGTH / 2 - 1
          then c ← b64 (Z.land bh2 0x3f); Some (push (bs_hs2 st) c, HASH_INIT, Z.land HASH_INIT 0x3f)
          else Some (bs_hs2 st, bh2, Z.land bh2 0x3f));
      Some (mkBlockState roll bh1' bh2' hs1 hs2 last1 last2 rh).

Fixpoint block_loop (block_size : Z) (data : bytes) (st : BlockState) : option BlockState :=
  match data with
  | [] => Some st
  | b :: data' => st' ← block_step block_size st b; block_loop block_size data' st'
  end.

Definition hash_with_block (data : bytes) (block_size : Z) : option (string * string * Z * Z * Z) :=
  st ← block_loop block_size data block_init;
  let '(tail1, tail2) :=
    if negb (bs_rh st =? 0) then (Z.land (bs_bh1 st) 0x3f, Z.land (bs_bh2 st) 0x3f)
    else (bs_last1 st, bs_last2 st) in
  Some (bs_hs1 st, bs_hs2 st, tail1, tail2, bs_rh st).

(** [while block_size * 64 < len { block_size *= 2 }] *)
Fixpoint grow_block (fuel : nat) (n block_size : Z) : option Z :=
  match fuel with
  | O => None
  | S fuel =>
      if block_size * SPAMSUM_LENGTH <? n then block_size' ← double block_size; grow_block fuel n block_size'
      else Some block_size
  end.

(** The outer [loop]: halve the block size while the first half is short. *)
Fixpoint digest_loop (fuel : nat) (data : bytes) (block_size : Z) : option string :=
  match fuel with
  | O => None
  | S fuel =>
      '(hs1, hs2, tail1, tail2, rh) ← hash_with_block data block_size;
      if (BLOCKSIZE_MIN <? block_size) && (str_len hs1 <? SPAMSUM_LENGTH / 2)
      then digest_loop fuel data (block_size / 2)
      else
        '(hs1, hs2) ← (if negb (rh =? 0)
            then c1 ← b64 tail1; c2 ← b64 tail2; Some (push hs1 c1, push hs2 c2)
            else Some (hs1, hs2));
        Some (show_Z block_size +:+ (":" +:+ (hs1 +:+ (":" +:+ hs2))))
  end.

Definition fuzzy_hash (data : bytes) : option string :=
  block_size ← grow_block 30 (len data) BLOCKSIZE_MIN;
  digest_loop 30 data block_size.

(** *** The digest by positions

    What ssdeep's digest is, read off the data without a running state: the
    rolling hash of a prefix depends on its last seven bytes; the data is cut
    after each prefix whose rolling hash is one less than a multiple of the
    block size; the first pieces, and the rest unless the whole rolls to zero,
    give one base64 character each, the low six bits of their FNV hash. *)

(** The byte [k] places before the end of the prefix. *)
Definition back (k : nat) (p : bytes) : Z := default 0 (u8 <$> rev p !! k).

Definition zsum (l : list Z) : Z := fold_right Z.add 0 l.

Definition roll_hash (p : bytes) : Z :=
  u32_wrap (zsum (map (fun k => back k p) (seq 0 7)) + zsum (map (fun k => (7 - Z.of_nat k) * back k p) (seq 0 7)) +
    fold_right Z.lxor 0 (map (fun k => u32_wrap (Z.shiftl (back k p) (5 * Z.of_nat k))) (seq 0 7))).

Definition is_cut (block_size : Z) (p : bytes) : bool := roll_hash p mod block_size =? block_size - 1.

Definition cuts (block_size : Z) (data : bytes) : list nat :=
  List.filter (fun i => is_cut block_size (take i data)) (seq 1 (length data)).

Fixpoint pieces (start : nat) (cs : list nat) (data : bytes) : list bytes :=
  match cs with
  | [] => []
  | c :: cs' => take (c - start) (drop start data) :: pieces c cs' data
  end.

Definition rest (cs : list nat) (data : bytes) : bytes := drop (default 0%nat (last cs)) data.

Definition fnv (piece : bytes) : Z := fold_left (fun h b => Z.lxor (u32_wrap (h * 0x01000193)) (u8 b)) piece 0x28021967.

(** RFC 4648's alphabet. *)
Definition base64_char (v : Z) : ascii :=
  ascii_of_nat (Z.to_nat (if v <? 26 then 65 + v else if v <? 52 then 97 + (v - 26) else if v <? 62 then 48 + (v - 52)
    else if v =? 62 then 43 else 47)).

Definition piece_char (piece : bytes) : ascii := base64_char (fnv piece mod 64).

Definition signature (most : nat) (block_size : Z) (data : bytes) : list ascii :=
  map piece_char (pieces 0 (take most (cuts block_size data)) data).

Definition half (most : nat) (block_size : Z) (data : bytes) : string :=
  String.string_of_list_ascii (signature most block_size data ++
    if roll_hash data =? 0 then [] else [piece_char (rest (take most (cuts block_size data)) data)]).

(** The block size is 3 times 2 to the [k]: the largest with at least 32 pieces
    cut off, or 3, not above the least that makes 64 blocks of the data. *)
Definition level (data : bytes) (k : Z) : Prop :=
  exists top, 0 <= k <= top /\ len data <= 3 * 2 ^ top * 64 /\ (0 < top -> 3 * 2 ^ (top - 1) * 64 < len data) /\
    (0 < k -> 32 <= len (cuts (3 * 2 ^ k) data)) /\ forall j, k < j <= top -> len (cuts (3 * 2 ^ j) data) < 32.

Definition digest_text (bs : Z) (h1 h2 : string) : string := show_Z bs +:+ (":" +:+ (h1 +:+ (":" +:+ h2))).

Definition digest_at (data : bytes) (k : Z) : string :=
  digest_text (3 * 2 ^ k) (half 63 (3 * 2 ^ k) data) (half 31 (3 * 2 ^ (k + 1)) data).

(** ** The comparison *)

Definition chars (s : string) : list ascii := String.list_ascii_of_string s.

(** [for i in 3..len]: keep a byte that differs from one of its three
    predecessors; [a b c] are [b[i-3] b[i-2] b[i-1]]. *)
Fixpoint strip_run (a b c : ascii) (l : list ascii) : list ascii :=
  match l with
  | [] => []
  | x :: l' =>
      if negb (Ascii.eqb x c) || negb (Ascii.eqb x b) || negb (Ascii.eqb x a)
      then x :: strip_run b c x l' else strip_run b c x l'
  end.

Definition strip_sequences (l : list ascii) : list ascii :=
  match l with
  | a :: b :: c :: l' => a :: b :: c :: strip_run a b c l'
  | _ => l
  end.

Section levenshtein.
  Context {A : Type} `{EqDecision A}.

(** The inner loop: [v0] is the rest of the previous row, [left] is [v1[j]]. *)
Fixpoint lev_row (sc : A) (t : list A) (v0 : list nat) (left : nat) : list nat :=
  match t, v0 with
  | tc :: t', diag :: ((up :: _) as v0') =>
      let cost := if decide (sc = tc) then 0%nat else 1%nat in
      let x := Nat.min (Nat.min (left + 1) (up + 1)) (diag + cost) in
      x :: lev_row sc t' v0' x
  | _, _ => []
  end.

(** The outer loop over [s], [i] being the index. *)
Fixpoint lev_loop (i : nat) (s t : list A) (v0 : list nat) : list nat :=
  match s with
  | [] => v0
  | sc :: s' => lev_loop (S i) s' t ((i + 1)%nat :: lev_row sc t v0 (i + 1))
  end.

Definition levenshtein (s t : list A) : nat :=
  if bool_decide (s = t) then 0%nat
  else match s, t with
       | [], _ => length t
       | _, [] => length s
       | _, _ => default 0%nat (lev_loop 0 s t (seq 0 (S (length t))) !! length t)
       end.

(** [while s1[i + cur] == s2[j + cur] { cur += 1 }] *)
Fixpoint common_run (s1 s2 : list A) : nat :=
  match s1, s2 with
  | a :: s1', b :: s2' => if decide (a = b) then S (common_run s1' s2') else 0%nat
  | _, _ => 0%nat
  end.

(** The suffixes [&l[i..]] for [i in 0..l.len()]. *)
Fixpoint suffixes (l : list A) : list (list A) :=
  match l with [] => [] | _ :: l' => l :: suffixes l' end.

Definition common_substring (s1 s2 : list A) : bool :=
  existsb (fun x => existsb (fun y => (7 <=? common_run x y)%nat) (suffixes s2)) (suffixes s1).
End levenshtein.

(** [score_strings]; the product of the cap is an [i32] product and wraps. *)
Definition score_strings (s1 s2 : list ascii) (block_size : Z) : Z :=
  if negb (common_substring s1 s2) then 0
  else
    let dist := Z.of_nat (levenshtein s1 s2) in
    let score := dist * SPAMSUM_LENGTH / (len s1 + len s2) in
    let score := 100 * score / SPAMSUM_LENGTH in
    let score := 100 - score in
    let cap := signed 32 (wrap 32 (block_size / BLOCKSIZE_MIN * Z.min (len s1) (len s2))) in
    if cap <? score then cap else score.

(** [h.splitn(3, ':')] with all three parts present. *)
Definition parse_digest (h : string) : option (Z * list ascii * list ascii) :=
  '(p1, rest) ← split_once ":" h;
  bs ← parse_u32 p1;
  '(p2, p3) ← split_once ":" rest;
  Some (bs, chars p2, chars p3).

Definition compare (hash1 hash2 : string) : Z :=
  match parse_digest hash1, parse_digest hash2 with
  | Some (bs1, s1a, s1b), Some (bs2, s2a, s2b) =>
      let dbl x := u32_wrap (x * 2) in
      if negb (bs1 =? bs2) && negb (bs1 =? dbl bs2) && negb (bs2 =? dbl bs1) then 0
      else
        let s1a := strip_sequences s1a in
        let s1b := strip_sequences s1b in
        let s2a := strip_sequences s2a in
        let s2b := strip_sequences s2b in
        if (bs1 =? bs2) && bool_decide (s1a = s2a) then 100
        else if bs1 =? bs2 then Z.max (score_strings s1a s2a bs1) (score_strings s1b s2b (dbl bs2))
        else if bs1 =? dbl bs2 then score_strings s1a s2b bs1
        else score_strings s1b s2a bs2
  | _, _ => 0
  end.

(** ** The band index *)

Definition BAND_WIDTH : nat := 3.
Definition CANDIDATE_CAP : Z := 512.

(** [splitn(3, ':')] with missing parts read as empty. *)
Definition digest_parts (ssdeep : string) : string * string * string :=
  match split_once ":" ssdeep with
  | None => (ssdeep, "", "")
  | Some (bs, rest) =>
      match split_once ":" rest with
      | None => (bs, rest, "")
      | Some (h1, h2) => (bs, h1, h2)
      end
  end%string.

Definition half_bands (half : string) : list string :=
  if (String.length half <? BAND_WIDTH)%nat then (if String.eqb half "" then [] else [half])
  else map String.string_of_list_ascii (windows BAND_WIDTH (chars half)).

Definition band_keys (ssdeep : string) : list (Z * string) :=
  let '(bs, h1, h2) := digest_parts ssdeep in
  map (fun p => (Z.of_nat (fst p), bs +:+ (":" +:+ snd p))) (enumerate (half_bands h1 ++ half_bands h2)).

Definition lsh_key (b : LshBand) : Uuid * Uuid * Z := (lb_tenant b, lb_artifact_id b, lb_band_idx b).

Definition band_of (tenant artifact : Uuid) (b : LshBand) : bool :=
  bool_decide (lb_tenant b = tenant) && bool_decide (lb_artifact_id b = artifact).

Definition store_bands (tenant artifact : Uuid) (ssdeep : string) : Op Srv unit :=
  delete_rows TLsh (band_of tenant artifact) ;;
  op_for (band_keys ssdeep) (fun k =>
    upsert TLsh lsh_key (mkLshBand tenant artifact (fst k) (snd k))
      (fun b => mkLshBand (lb_tenant b) (lb_artifact_id b) (lb_band_idx b) (snd k))).

Definition shares_band (tenant artifact : Uuid) (k : Z * string) (b : LshBand) : bool :=
  bool_decide (lb_tenant b = tenant) && (lb_band_idx b =? fst k) && String.eqb (lb_band_key b) (snd k) &&
  negb (bool_decide (lb_artifact_id b = artifact)).

(** The artifacts that share one band. *)
Definition band_artifacts (tenant artifact : Uuid) (bands : list LshBand) (k : Z * string) : list Uuid :=
  map lb_artifact_id (List.filter (shares_band tenant artifact k) bands).

Definition lsh_candidates (tenant artifact : Uuid) (ssdeep : string) : Op Srv (list Uuid) :=
  gets (fun s => collect_all CANDIDATE_CAP (map (band_artifacts tenant artifact (rows TLsh s)) (band_keys ssdeep)) []).

Definition lsh_populated (tenant : Uuid) : Op Srv bool :=
  gets (fun s => existsb (fun b => bool_decide (lb_tenant b = tenant)) (rows TLsh s)).

(** ** Edit distance *)

(** An edit script from [s] to [t] of cost [n]: keep, substitute, insert, delete. *)
Inductive edits {A : Type} : list A -> list A -> nat -> Prop :=
  | ed_nil : edits [] [] 0
  | ed_keep a s t n : edits s t n -> edits (a :: s) (a :: t) n
  | ed_sub a b s t n : edits s t n -> edits (a :: s) (b :: t) (S n)
  | ed_ins b s t n : edits s t n -> edits s (b :: t) (S n)
  | ed_del a s t n : edits s t n -> edits (a :: s) t (S n).

Section edit_distance.
  Context {A : Type} `{EqDecision A}.

(** The recursive distance, on the heads. *)
Fixpoint lev (s : list A) : list A -> nat :=
  fix inner t :=
    match s, t with
    | [], _ => length t
    | _, [] => length s
    | a :: s', b :: t' =>
        Nat.min (Nat.min (inner t' + 1) (lev s' t + 1)) (lev s' t' + if decide (a = b) then 0 else 1)%nat
    end.

Lemma lev_cons a s b t :
  lev (a :: s) (b :: t) =
  Nat.min (Nat.min (lev (a :: s) t + 1) (lev s (b :: t) + 1)) (lev s t + if decide (a = b) then 0 else 1)%nat.
Proof. done. Qed.

Lemma lev_nil_r s : lev s [] = length s.
Proof. by destruct s. Qed.

Lemma lev_nil_l t : lev [] t = length t.
Proof. by destruct t. Qed.

Lemma edits_length_l (s : list A) : edits s [] (length s).
Proof. induction s; cbn; constructor; done. Qed.

Lemma edits_length_r (t : list A) : edits [] t (length t).
Proof. induction t; cbn; constructor; done. Qed.

Lemma lev_edits s t : edits s t (lev s t).
Proof.
  revert t. induction s as [|a s IH]; intros t; [rewrite lev_nil_l; apply edits_length_r|].
  induction t as [|b t IHt]; [apply edits_length_l|]. rewrite lev_cons.
  destruct (Nat.min_spec (Nat.min (lev (a :: s) t + 1) (lev s (b :: t) + 1)) (lev s t + (if decide (a = b) then 0 else 1)))%nat as [[_ ->]|[_ ->]].
  - destruct (Nat.min_spec (lev (a :: s) t + 1) (lev s (b :: t) + 1))%nat as [[_ ->]|[_ ->]];
      rewrite Nat.add_1_r; [apply ed_ins|apply ed_del]; auto.
  - case_decide; [subst; rewrite Nat.add_0_r; by apply ed_keep|rewrite Nat.add_1_r; by apply ed_sub].
Qed.

Lemma lev_least s t n : edits s t n -> (lev s t <= n)%nat.
Proof.
  induction 1 as [|a s t n _ IH|a b s t n _ IH|b s t n _ IH|a s t n _ IH]; [done|..].
  - rewrite lev_cons, decide_True by done. lia.
  - rewrite lev_cons. case_decide; lia.
  - destruct s as [|a s]; [rewrite lev_nil_l in *; cbn; lia|]. rewrite lev_cons. lia.
  - destruct t as [|b t]; [rewrite lev_nil_r in *; cbn; lia|]. rewrite lev_cons. lia.
Qed.

Lemma edits_app (s t : list A) n s' t' n' : edits s t n -> edits s' t' n' -> edits (s ++ s') (t ++ t') (n + n').
Proof. induction 1; intros H'; cbn; try constructor; auto. Qed.

Lemma edits_rev (s t : list A) n : edits s t n -> edits (rev s) (rev t) n.
Proof.
  induction 1 as [|a s t n _ IH|a b s t n _ IH|b s t n _ IH|a s t n _ IH]; cbn; [constructor|..].
  - rewrite <- (Nat.add_0_r n). apply edits_app; [done|]. repeat constructor.
  - rewrite <- (Nat.add_1_r n). apply edits_app; [done|]. repeat constructor.
  - rewrite <- (Nat.add_1_r n), <- (app_nil_r (rev s)). apply edits_app; [done|]. repeat constructor.
  - rewrite <- (Nat.add_1_r n), <- (app_nil_r (rev t)). apply edits_app; [done|]. repeat constructor.
Qed.

Lemma edits_sym (s t : list A) n : edits s t n -> edits t s n.
Proof. induction 1; constructor; auto. Qed.

Lemma lev_rev s t : lev (rev s) (rev t) = lev s t.
Proof.
  assert (Hle : forall s t, (lev (rev s) (rev t) <= lev s t)%nat).
  { intros s' t'. apply lev_least, edits_rev, lev_edits. }
  pose proof (Hle s t). pose proof (Hle (rev s) (rev t)) as H2. rewrite !rev_involutive in H2. lia.
Qed.

(** A row of the table: the distances to the prefixes of [t], [q] being the
    part already consumed, both reversed. *)
Definition row_of (p q t : list A) : list nat := map (fun j => lev p (rev (take j t) ++ q)) (seq 0 (S (length t))).

Lemma row_of_cons p q b t : row_of p q (b :: t) = lev p q :: row_of p (b :: q) t.
Proof.
  unfold row_of. change (seq 0 (S (length (b :: t)))) with (0%nat :: seq 1 (S (length t))).
  rewrite map_cons, <- seq_shift, map_map. f_equal.
  apply map_ext. intros j. cbn [take rev]. by rewrite <- app_assoc.
Qed.

Lemma row_of_head p q t : exists l, row_of p q t = lev p q :: l.
Proof. unfold row_of. cbn. rewrite take_0. by eexists. Qed.

Lemma lev_row_spec sc p q t :
  lev (sc :: p) q :: lev_row sc t (row_of p q t) (lev (sc :: p) q) = row_of (sc :: p) q t.
Proof.
  revert q. induction t as [|b t IH]; intros q.
  - unfold row_of. cbn. by destruct q.
  - rewrite !row_of_cons. destruct (row_of_head p (b :: q) t) as [l Hl]. rewrite Hl. cbn [lev_row].
    f_equal. rewrite <- Hl. rewrite <- IH. rewrite lev_cons. by f_equal.
Qed.

Lemma lev_loop_spec p s t :
  lev_loop (length p) s t (row_of p [] t) = row_of (rev s ++ p) [] t.
Proof.
  revert p. induction s as [|sc s IH]; intros p; [done|]. cbn [lev_loop rev].
  replace (length p + 1)%nat with (lev (sc :: p) []) by (rewrite lev_nil_r; cbn; lia).
  rewrite lev_row_spec. rewrite <- app_assoc. cbn [app]. rewrite <- IH. done.
Qed.

Lemma levenshtein_lev (s t : list A) : levenshtein s t = lev s t.
Proof.
  unfold levenshtein. case_bool_decide as Heq.
  { subst. assert (H : edits t t 0) by (clear; induction t; constructor; done).
    apply lev_least in H. lia. }
  destruct s as [|a s]; [by rewrite lev_nil_l; destruct t|]. destruct t as [|b t]; [done|].
  set (s1 := a :: s). set (t1 := b :: t).
  assert (Hrow : seq 0 (S (length t1)) = row_of [] [] t1).
  { unfold row_of. rewrite <- (map_id (seq 0 (S (length t1)))) at 1. apply map_ext_in. intros j Hj.
    apply in_seq in Hj. rewrite lev_nil_l, app_nil_r, length_rev, length_take. lia. }
  pose proof (lev_loop_spec [] s1 t1) as Hl. change (length (@nil A)) with 0%nat in Hl.
  rewrite Hrow, Hl, app_nil_r. unfold row_of.
  rewrite list_lookup_fmap. rewrite lookup_seq_lt by lia. cbn [fmap option_fmap option_map default].
  rewrite Nat.add_0_l, take_ge by lia. rewrite app_nil_r. apply lev_rev.
Qed.

(** The two-row table computes the edit distance: an edit script of that cost
    exists, and no script is cheaper. *)
Theorem levenshtein_least (s t : list A) :
  edits s t (levenshtein s t) /\ forall n, edits s t n -> (levenshtein s t <= n)%nat.
Proof. rewrite levenshtein_lev. split; [apply lev_edits|apply lev_least]. Qed.

Lemma levenshtein_sym (s t : list A) : levenshtein s t = levenshtein t s.
Proof.
  destruct (levenshtein_least s t) as [H1 H2], (levenshtein_least t s) as [H3 H4].
  pose proof (H2 _ (edits_sym _ _ _ H3)). pose proof (H4 _ (edits_sym _ _ _ H1)). lia.
Qed.

Lemma levenshtein_bound (s t : list A) : (levenshtein s t <= length s + length t)%nat.
Proof.
  apply levenshtein_least. pose proof (edits_app s [] _ [] t _ (edits_length_l s) (edits_length_r t)) as H.
  by rewrite app_nil_r in H.
Qed.

(** ** Common substrings *)

Lemma common_run_spec (x y : list A) n :
  (n <= common_run x y)%nat <-> (n <= length x)%nat /\ (n <= length y)%nat /\ take n x = take n y.
Proof.
  revert y n. induction x as [|a x IH]; intros [|b y] n; cbn [common_run length].
  1-3: (split; [intros; replace n with 0%nat by lia; do 2 (split; [lia|]); done|lia]).
  destruct n as [|n]; [split; [intros _; do 2 (split; [lia|]); done|lia]|].
  case_decide as Hab; cbn [take].
  - subst. rewrite <- Nat.succ_le_mono, IH. rewrite <- !Nat.succ_le_mono. split.
    + intros (H1 & H2 & ->). done.
    + intros (H1 & H2 & [=]). done.
  - split; [lia|]. intros (_ & _ & [= Hab' _]). done.
Qed.

Lemma suffixes_spec (l x : list A) : In x (suffixes l) <-> x <> [] /\ exists p, l = p ++ x.
Proof.
  induction l as [|a l IH]; cbn [suffixes].
  - split; [done|]. intros (Hx & p & Hp). by destruct p, x.
  - split.
    + intros [<-|Hin]; [split; [done|by exists []]|].
      apply IH in Hin as (Hx & p & ->). split; [done|]. by exists (a :: p).
    + intros (Hx & [|b p] & Hp); cbn in Hp; [by left|]. injection Hp as -> Hp. right. apply IH. eauto.
Qed.

(** The gate of the comparison: a run of seven characters in common. *)
Theorem common_substring_spec (s1 s2 : list A) :
  common_substring s1 s2 = true <->
  exists w p1 q1 p2 q2, length w = 7%nat /\ s1 = p1 ++ w ++ q1 /\ s2 = p2 ++ w ++ q2.
Proof.
  unfold common_substring. rewrite existsb_exists. split.
  - intros (x & Hx & Hy). apply existsb_exists in Hy as (y & Hy & Hn).
    apply Nat.leb_le, common_run_spec in Hn as (H1 & H2 & Ht).
    apply suffixes_spec in Hx as (_ & p1 & ->), Hy as (_ & p2 & ->).
    exists (take 7 x), p1, (drop 7 x), p2, (drop 7 y). split; [rewrite length_take; lia|].
    split; [by rewrite take_drop|]. by rewrite Ht, take_drop.
  - intros (w & p1 & q1 & p2 & q2 & Hw & -> & ->).
    exists (w ++ q1). split. { apply suffixes_spec. split; [by destruct w|eauto]. }
    apply existsb_exists. exists (w ++ q2). split. { apply suffixes_spec. split; [by destruct w|eauto]. }
    apply Nat.leb_le, common_run_spec. rewrite !length_app, <- Hw, !take_app_length. repeat split; lia.
Qed.

Lemma common_substring_sym (s1 s2 : list A) : common_substring s1 s2 = common_substring s2 s1.
Proof.
  apply eq_true_iff_eq. rewrite !common_substring_spec. split; intros (w & p1 & q1 & p2 & q2 & ?); exists w, p2, q2, p1, q1; naive_solver.
Qed.
End edit_distance.

(** ** Scores *)

Lemma signed_wrap_small z : 0 <= z < 2 ^ 31 -> signed 32 (wrap 32 z) = z.
Proof.
  intros Hz. unfold wrap, signed. rewrite Z.mod_small by lia. change (2 ^ (32 - 1)) with (2 ^ 31).
  by rewrite (proj2 (Z.ltb_lt _ _)) by lia.
Qed.

Lemma raw_score_bounds (s1 s2 : list ascii) :
  0 < len s1 + len s2 ->
  0 <= 100 - 100 * (Z.of_nat (levenshtein s1 s2) * SPAMSUM_LENGTH / (len s1 + len s2)) / SPAMSUM_LENGTH <= 100.
Proof.
  intros Hpos. pose proof (levenshtein_bound s1 s2) as Hb. unfold SPAMSUM_LENGTH.
  set (d := Z.of_nat (levenshtein s1 s2)). set (n := len s1 + len s2) in *.
  assert (Hd : 0 <= d <= n) by (unfold d, n, len; lia).
  assert (H1 : 0 <= d * 64 / n <= 64).
  { split; [apply Z.div_pos; lia|]. apply Z.div_le_upper_bound; lia. }
  assert (H2 : 0 <= 100 * (d * 64 / n) / 64 <= 100).
  { split; [apply Z.div_pos; lia|]. apply Z.div_le_upper_bound; lia. }
  lia.
Qed.

Lemma common_substring_nonempty (s1 s2 : list ascii) : common_substring s1 s2 = true -> 0 < len s1 + len s2.
Proof.
  rewrite common_substring_spec. intros (w & p1 & q1 & p2 & q2 & Hw & -> & ->).
  unfold len. rewrite !length_app. lia.
Qed.

Lemma score_bounds s1 s2 bs :
  0 <= bs -> bs / 3 * Z.min (len s1) (len s2) < 2 ^ 31 -> 0 <= score_strings s1 s2 bs <= 100.
Proof.
  intros Hbs Hcap. unfold score_strings. destruct (common_substring s1 s2) eqn:E; cbn [negb]; [|lia].
  apply common_substring_nonempty in E. pose proof (raw_score_bounds s1 s2 E) as Hr. cbv zeta.
  pose proof (len_nonneg s1). pose proof (len_nonneg s2).
  assert (0 <= bs / 3) by (apply Z.div_pos; lia).
  unfold BLOCKSIZE_MIN. rewrite signed_wrap_small by nia.
  destruct (_ <? _) eqn:Ec; [|exact Hr]. apply Z.ltb_lt in Ec. nia.
Qed.

Lemma score_strings_sym s1 s2 bs : score_strings s1 s2 bs = score_strings s2 s1 bs.
Proof.
  unfold score_strings. rewrite (common_substring_sym s1 s2), (levenshtein_sym s1 s2).
  by rewrite (Z.add_comm (len s1)), (Z.min_comm (len s1)).
Qed.

Lemma strip_run_length a b c l : (length (strip_run a b c l) <= length l)%nat.
Proof. revert a b c. induction l as [|x l IH]; intros a b c; cbn; [lia|]. case_match; cbn; specialize (IH b c x); lia. Qed.

Lemma strip_sequences_length l : (length (strip_sequences l) <= length l)%nat.
Proof. destruct l as [|a [|b [|c l]]]; cbn; [lia..|]. pose proof (strip_run_length a b c l). lia. Qed.

Lemma parse_digest_range h bs a b : parse_digest h = Some (bs, a, b) -> 0 <= bs < 2 ^ 32.
Proof.
  unfold parse_digest. destruct (split_once ":" h) as [[p1 rest]|]; cbn; [|done].
  destruct (parse_u32 p1) as [v|] eqn:Ev; cbn; [|done]. destruct (split_once ":" rest) as [[p2 p3]|]; cbn; [|done].
  intros [= <- _ _]. by apply parse_u32_range in Ev.
Qed.

(** A digest whose block size and halves are small enough for the [i32] and
    [u32] products of the comparison; those [fuzzy_hash] makes are. *)
Definition digest_small (h : string) : Prop :=
  forall bs a b, parse_digest h = Some (bs, a, b) -> bs < 2 ^ 31 /\ 2 * bs * (1 + len a + len b) < 2 ^ 31.

Lemma cap_small bs bs' n m k :
  0 <= bs' <= 2 * bs -> 0 <= n <= k -> 0 <= m -> 2 * bs * (1 + k) < 2 ^ 31 -> bs' / 3 * Z.min n m < 2 ^ 31.
Proof.
  intros Hbs Hn Hm Hk. assert (0 <= bs' / 3 <= bs') by (split; [apply Z.div_pos; lia|apply Z.div_le_upper_bound; lia]).
  assert (0 <= Z.min n m <= k) by lia. nia.
Qed.

(** Similarity scores are percentages: for digests of reasonable block size the
    comparison is between 0 and 100. *)
Theorem compare_bounds h1 h2 : digest_small h1 -> digest_small h2 -> 0 <= compare h1 h2 <= 100.
Proof.
  intros H1 H2. unfold compare.
  destruct (parse_digest h1) as [[[bs1 s1a] s1b]|] eqn:E1; [|lia].
  destruct (parse_digest h2) as [[[bs2 s2a] s2b]|] eqn:E2; [|lia].
  destruct (H1 _ _ _ E1) as [B1 P1], (H2 _ _ _ E2) as [B2 P2].
  apply parse_digest_range in E1, E2.
  pose proof (strip_sequences_length s1a) as L1. pose proof (strip_sequences_length s1b) as L2.
  pose proof (strip_sequences_length s2a) as L3. pose proof (strip_sequences_length s2b) as L4.
  assert (D1 : u32_wrap (bs1 * 2) = 2 * bs1) by (unfold u32_wrap, wrap; rewrite Z.mod_small; lia).
  assert (D2 : u32_wrap (bs2 * 2) = 2 * bs2) by (unfold u32_wrap, wrap; rewrite Z.mod_small; lia).
  cbv zeta. rewrite D1, D2.
  destruct (_ && _ && _); [lia|]. destruct (_ && _); [lia|].
  assert (Hl : forall (l l' : list ascii), (length l <= length l')%nat -> 0 <= len l <= len l') by (unfold len; lia).
  apply Hl in L1, L2, L3, L4. clear Hl.
  assert (S1 : 0 <= score_strings (strip_sequences s1a) (strip_sequences s2b) bs1 <= 100).
  { apply score_bounds; [lia|]. apply (cap_small bs1 bs1 _ _ (len s1a + len s1b)); lia. }
  assert (S2 : 0 <= score_strings (strip_sequences s1b) (strip_sequences s2a) bs2 <= 100).
  { apply score_bounds; [lia|]. rewrite Z.min_comm. apply (cap_small bs2 bs2 _ _ (len s2a + len s2b)); lia. }
  assert (S3 : 0 <= score_strings (strip_sequences s1a) (strip_sequences s2a) bs1 <= 100).
  { apply score_bounds; [lia|]. apply (cap_small bs1 bs1 _ _ (len s1a + len s1b)); lia. }
  assert (S4 : 0 <= score_strings (strip_sequences s1b) (strip_sequences s2b) (2 * bs2) <= 100).
  { apply score_bounds; [lia|]. rewrite Z.min_comm. apply (cap_small bs2 (2 * bs2) _ _ (len s2a + len s2b)); lia. }
  destruct (bs1 =? bs2); [lia|]. destruct (bs1 =? 2 * bs2); lia.
Qed.

(** The comparison does not depend on the order of its arguments. *)
Theorem compare_symmetric h1 h2 : compare h1 h2 = compare h2 h1.
Proof.
  unfold compare. destruct (parse_digest h1) as [[[bs1 s1a] s1b]|] eqn:E1; [|by destruct (parse_digest h2) as [[[]]|]].
  destruct (parse_digest h2) as [[[bs2 s2a] s2b]|] eqn:E2; [|done].
  apply parse_digest_range in E1, E2. cbv zeta.
  rewrite (Z.eqb_sym bs2 bs1).
  destruct (bs1 =? bs2) eqn:Eb; cbn [negb andb].
  - apply Z.eqb_eq in Eb. subst.
    rewrite (bool_decide_ext (strip_sequences s1a = strip_sequences s2a) (strip_sequences s2a = strip_sequences s1a)) by done.
    destruct (bool_decide _); [done|]. by rewrite score_strings_sym, (score_strings_sym (strip_sequences s1b)).
  - apply Z.eqb_neq in Eb.
    destruct (bs1 =? u32_wrap (bs2 * 2)) eqn:Ea, (bs2 =? u32_wrap (bs1 * 2)) eqn:Ed; cbn [negb andb]; try done.
    + apply Z.eqb_eq in Ea, Ed. exfalso. unfold u32_wrap, wrap in *. change (2 ^ 32) with 4294967296 in *.
      Z.to_euclidean_division_equations. lia.
    + apply score_strings_sym.
    + apply score_strings_sym.
Qed.

(** With a block size near 2^32 the cap's [i32] product wraps, and the score
    is negative. *)
Theorem compare_overflow :
  compare "4294967294:abcdefgh:x" "2147483647:y:abcdefgh" = -1431655776.
Proof. vm_compute. reflexivity. Qed.

(** ** The digest is total and well formed *)

Definition is_b64 (c : ascii) : bool := existsb (Ascii.eqb c) (chars B64).

Lemma land63 h : 0 <= Z.land h 0x3f < 64.
Proof.
  change 0x3f with (Z.ones 6). rewrite Z.land_ones by lia. apply Z.mod_pos_bound. lia.
Qed.

Lemma lxor64 a b : 0 <= a < 64 -> 0 <= b < 64 -> 0 <= Z.lxor a b < 64.
Proof.
  intros Ha Hb. assert (H0 : 0 <= Z.lxor a b) by (apply Z.lxor_nonneg; lia). split; [done|].
  destruct (Z.eq_dec (Z.lxor a b) 0) as [->|Hne]; [lia|].
  change 64 with (2 ^ 6). apply Z.log2_lt_pow2; [lia|].
  eapply Z.le_lt_trans; [apply Z.log2_lxor; lia|].
  apply Z.max_lub_lt.
  - destruct (Z.eq_dec a 0) as [->|]; [done|]. apply Z.log2_lt_pow2; lia.
  - destruct (Z.eq_dec b 0) as [->|]; [done|]. apply Z.log2_lt_pow2; lia.
Qed.

Lemma f_table_range : Forall (fun x => 0 <= x < 64) F_TABLE.
Proof. repeat constructor; lia. Qed.

Lemma index_some {A} (l : list A) i : 0 <= i < len l -> exists x, index l i = Some x /\ In x l.
Proof.
  intros Hi. unfold index. rewrite (proj2 (Z.leb_le _ _)) by lia.
  destruct (lookup_lt_is_Some_2 l (Z.to_nat i)) as [x Hx]; [unfold len in Hi; lia|].
  exists x. split; [done|]. apply list_elem_of_In. by eapply list_elem_of_lookup_2.
Qed.

Lemma byte_hash_total h b : exists v, byte_hash h b = Some v /\ 0 <= v < 64.
Proof.
  unfold byte_hash. destruct (index_some F_TABLE (Z.land h 0x3f)) as (f & -> & Hin).
  { pose proof (land63 h). change (len F_TABLE) with 64. lia. }
  eexists. split; [done|]. pose proof f_table_range as Hf. rewrite List.Forall_forall in Hf.
  apply lxor64; [by apply Hf|apply land63].
Qed.

Lemma b64_total i : 0 <= i < 64 -> exists c, b64 i = Some c /\ is_b64 c = true.
Proof.
  intros Hi. unfold b64. rewrite (proj2 (Z.leb_le _ _)) by lia.
  assert (Hn : (Z.to_nat i < 64)%nat) by lia. revert Hn. generalize (Z.to_nat i). clear Hi i. intros n Hn.
  do 64 (destruct n as [|n]; [eexists; split; reflexivity|]). lia.
Qed.

Lemma length_string_of_list_ascii l : String.length (String.string_of_list_ascii l) = length l.
Proof. induction l as [|c l IH]; cbn; [done|]. by rewrite IH. Qed.

Lemma string_of_list_ascii_app l k :
  String.string_of_list_ascii (l ++ k) = String.string_of_list_ascii l +:+ String.string_of_list_ascii k.
Proof. induction l as [|c l IH]; [done|]. cbn [app String.string_of_list_ascii]. rewrite IH. done. Qed.

(** *** The rolling hash *)

Lemma back_0 p b : back 0 (p ++ [b]) = u8 b.
Proof. unfold back. by rewrite rev_app_distr. Qed.

Lemma back_S k p b : back (S k) (p ++ [b]) = back k p.
Proof. unfold back. by rewrite rev_app_distr. Qed.

Lemma back_range k p : 0 <= back k p < 256.
Proof. unfold back. destruct (rev p !! k); cbn; [apply u8_range|lia]. Qed.

Definition rolled (k : nat) (p : bytes) : Z := u32_wrap (Z.shiftl (back k p) (5 * Z.of_nat k)).

(** The window holds the last seven bytes, the next to go at [r_n]. *)
Record roll_inv (p : bytes) (r : Roll) : Prop := {
  ri_n : (r_n r < 7)%nat;
  ri_window : r_window r = map (fun j => back ((r_n r + 6 - j) mod 7) p) (seq 0 7);
  ri_h1 : r_h1 r = zsum (map (fun k => back k p) (seq 0 7));
  ri_h2 : r_h2 r = zsum (map (fun k => (7 - Z.of_nat k) * back k p) (seq 0 7));
  ri_h3 : r_h3 r = fold_right Z.lxor 0 (map (fun k => rolled k p) (seq 0 7))
}.

Lemma roll_new_inv : roll_inv [] roll_new.
Proof. split; try reflexivity. cbn. lia. Qed.

Lemma window_step p n b : (n < 7)%nat ->
  map (fun j => back ((n + 6 - j) mod 7) p) (seq 0 7) !! n = Some (back 6 p) /\
  <[n := u8 b]> (map (fun j => back ((n + 6 - j) mod 7) p) (seq 0 7)) =
    map (fun j => back ((S n mod 7 + 6 - j) mod 7) (p ++ [b])) (seq 0 7).
Proof.
  intros Hn. do 7 (destruct n as [|n]; [split; [reflexivity|]; cbn -[back]; by rewrite back_0, !back_S|]). lia.
Qed.

Lemma u32_wrap_land z : u32_wrap z = Z.land z (Z.ones 32).
Proof. unfold u32_wrap, wrap. by rewrite Z.land_ones. Qed.

Lemma land_lxor a b m : Z.land (Z.lxor a b) m = Z.lxor (Z.land a m) (Z.land b m).
Proof. apply Z.bits_inj'. intros n Hn. rewrite !Z.land_spec, !Z.lxor_spec, !Z.land_spec. by do 3 destruct (Z.testbit _ n). Qed.

(** Shifting the xor of the rolled bytes drops the oldest. *)
Lemma shift_rolled_one k p b : u32_wrap (Z.shiftl (rolled k p) 5) = rolled (S k) (p ++ [b]).
Proof.
  unfold rolled. rewrite back_S, !u32_wrap_land, Z.shiftl_land, <- Z.land_assoc.
  replace (Z.land (Z.shiftl (Z.ones 32) 5) (Z.ones 32)) with (Z.shiftl (Z.ones 27) 5) by reflexivity.
  rewrite Z.shiftl_shiftl by lia. replace (5 * Z.of_nat k + 5) with (5 * Z.of_nat (S k)) by lia.
  apply Z.bits_inj'. intros n Hn. rewrite !Z.land_spec. destruct (decide (n < 5)) as [H|H].
  - rewrite !Z.shiftl_spec_low by lia. by rewrite ?andb_false_r, ?andb_false_l.
  - f_equal. rewrite Z.shiftl_spec by lia. destruct (decide (n < 32)).
    + rewrite !Z.ones_spec_low by lia. done.
    + rewrite !Z.ones_spec_high by lia. done.
Qed.

Lemma rolled_seven p : rolled 7 p = 0.
Proof.
  unfold rolled, u32_wrap, wrap. rewrite Z.shiftl_mul_pow2 by lia. change (5 * Z.of_nat 7) with 35.
  replace (back 7 p * 2 ^ 35) with (back 7 p * 8 * 2 ^ 32) by lia. by apply Z_mod_mult.
Qed.

Lemma u32_shift_lxor a b : u32_wrap (Z.shiftl (Z.lxor a b) 5) = Z.lxor (u32_wrap (Z.shiftl a 5)) (u32_wrap (Z.shiftl b 5)).
Proof. by rewrite Z.shiftl_lxor, !u32_wrap_land, land_lxor. Qed.

Lemma roll_update_inv p r b : roll_inv p r ->
  exists r', roll_update r b = Some (r', roll_hash (p ++ [b])) /\ roll_inv (p ++ [b]) r'.
Proof.
  intros [Hn Hw H1 H2 H3]. unfold roll_update. destruct (window_step p (r_n r) b Hn) as [Hlast Hnext].
  rewrite Hw, Hlast. cbn [mbind option_bind].
  pose proof (back_range 0 p). pose proof (back_range 1 p). pose proof (back_range 2 p). pose proof (back_range 3 p).
  pose proof (back_range 4 p). pose proof (back_range 5 p). pose proof (back_range 6 p). pose proof (u8_range b).
  set (p' := p ++ [b]).
  assert (E1 : u32_wrap (u32_wrap (r_h1 r + u8 b) - back 6 p) = zsum (map (fun k => back k p') (seq 0 7))).
  { rewrite H1. unfold p', u32_wrap, wrap. cbn [seq map zsum fold_right]. rewrite back_0, !back_S. change (2 ^ 32) with 4294967296.
    rewrite (Z.mod_small (_ + u8 b)) by lia. rewrite Z.mod_small by lia. lia. }
  assert (E2 : u32_wrap (u32_wrap (r_h2 r - r_h1 r) + ROLL_WINDOW * u8 b) = zsum (map (fun k => (7 - Z.of_nat k) * back k p') (seq 0 7))).
  { rewrite H1, H2. unfold p', u32_wrap, wrap, ROLL_WINDOW. cbn [seq map zsum fold_right]. rewrite back_0, !back_S. change (2 ^ 32) with 4294967296.
    rewrite (Z.mod_small (_ - _)) by lia. rewrite Z.mod_small by lia. lia. }
  assert (E3 : Z.lxor (u32_wrap (Z.shiftl (r_h3 r) 5)) (u8 b) = fold_right Z.lxor 0 (map (fun k => rolled k p') (seq 0 7))).
  { rewrite H3. cbn [seq map fold_right]. rewrite !u32_shift_lxor, !(fun k => shift_rolled_one k p b). fold p'.
    rewrite (rolled_seven p'). change (u32_wrap (Z.shiftl 0 5)) with 0.
    assert (E0 : rolled 0 p' = u8 b).
    { unfold rolled, p', u32_wrap, wrap. rewrite back_0. change (5 * Z.of_nat 0) with 0. rewrite Z.shiftl_0_r. apply Z.mod_small. lia. }
    rewrite E0, Z.lxor_comm. by rewrite ?Z.lxor_0_r. }
  cbv zeta. rewrite E1, E2, E3. eexists. split.
  - f_equal. f_equal. unfold roll_hash, u32_wrap, wrap. by rewrite Zplus_mod_idemp_l.
  - split; cbn [r_n r_window r_h1 r_h2 r_h3]; try done. apply Nat.mod_upper_bound. lia.
Qed.

(** *** Pieces *)

Lemma fold_left_snoc {A B} (f : A -> B -> A) l x a : fold_left f (l ++ [x]) a = f (fold_left f l a) x.
Proof. by rewrite fold_left_app. Qed.

Lemma f_table_fnv : F_TABLE = map (fun i => i * 0x01000193 mod 64) (map Z.of_nat (seq 0 64)).
Proof. vm_compute. reflexivity. Qed.

Lemma land63_mod z : Z.land z 63 = z mod 64.
Proof. change 63 with (Z.ones 6). by rewrite Z.land_ones. Qed.

(** The table is the multiplication of FNV on the low six bits. *)
Lemma byte_hash_fnv bh piece b : Z.land bh 63 = fnv piece mod 64 ->
  exists bh', byte_hash bh b = Some bh' /\ Z.land bh' 63 = fnv (piece ++ [b]) mod 64.
Proof.
  intros Hb. unfold byte_hash. pose proof (land63 bh) as Hr.
  assert (Hi : index F_TABLE (Z.land bh 63) = Some (Z.land bh 63 * 0x01000193 mod 64)).
  { unfold index. rewrite (proj2 (Z.leb_le _ _)) by lia. rewrite f_table_fnv, !list_lookup_fmap, lookup_seq_lt by lia.
    cbn [fmap option_fmap option_map]. f_equal. rewrite Nat.add_0_l, Z2Nat.id by lia. done. }
  rewrite Hi. cbn [mbind option_bind]. eexists. split; [done|]. unfold fnv. rewrite fold_left_snoc.
  change (fold_left _ piece _) with (fnv piece). rewrite Hb, <- !land63_mod, !land_lxor. f_equal.
  - rewrite !land63_mod. unfold u32_wrap, wrap. rewrite Zmult_mod_idemp_l, Zmod_mod.
    symmetry. apply Z.mod_mod_divide. by exists (2 ^ 26).
  - rewrite <- Z.land_assoc. done.
Qed.

Lemma b64_char v : 0 <= v < 64 -> b64 v = Some (base64_char v) /\ is_b64 (base64_char v) = true.
Proof.
  intros Hv. assert (Hn : exists n, v = Z.of_nat n /\ (n < 64)%nat) by (exists (Z.to_nat v); lia).
  destruct Hn as (n & -> & Hn). do 64 (destruct n as [|n]; [split; reflexivity|]). lia.
Qed.

Lemma cuts_snoc bs p b : cuts bs (p ++ [b]) = cuts bs p ++ (if is_cut bs (p ++ [b]) then [S (length p)] else []).
Proof.
  unfold cuts. rewrite length_app, Nat.add_1_r, seq_S, List.filter_app. f_equal.
  - apply List.filter_ext_in. intros i Hi%in_seq. by rewrite take_app_le by lia.
  - cbn [List.filter]. rewrite take_ge by (rewrite length_app; cbn; lia). by destruct (is_cut bs (p ++ [b])).
Qed.

Lemma cuts_bound bs p : Forall (fun c => (c <= length p)%nat) (cuts bs p).
Proof. apply List.Forall_forall. intros c [Hc%in_seq _]%filter_In. lia. Qed.

Lemma pieces_snoc cs : forall start p b, (start <= length p)%nat -> Forall (fun c => (c <= length p)%nat) cs ->
  pieces start cs (p ++ [b]) = pieces start cs p.
Proof.
  induction cs as [|c cs IH]; intros start p b Hs Hc; [done|]. apply List.Forall_cons_iff in Hc as [Hc Hcs]. cbn [pieces].
  rewrite IH by done. f_equal. rewrite drop_app_le by lia. apply take_app_le. rewrite length_drop. lia.
Qed.

Lemma pieces_app cs : forall start c data, pieces start (cs ++ [c]) data =
  pieces start cs data ++ [take (c - default start (last cs)) (drop (default start (last cs)) data)].
Proof.
  induction cs as [|c0 cs IH]; intros start c data; [done|]. cbn [app pieces]. rewrite IH. f_equal.
  destruct cs as [|c1 cs]; [done|]. assert (Hl : exists x, last (c1 :: cs) = Some x) by (destruct (last (c1 :: cs)) eqn:E; [eauto|by apply last_None in E]).
  destruct Hl as [x Hx]. rewrite (last_cons c0), Hx. done.
Qed.

Lemma last_bound cs n : Forall (fun c => (c <= n)%nat) cs -> (default 0 (last cs) <= n)%nat.
Proof.
  intros H. destruct (last cs) as [c|] eqn:E; cbn; [|lia]. rewrite List.Forall_forall in H. apply H, list_elem_of_In.
  by apply last_Some_elem_of.
Qed.

(** *** One half of the digest while the data is read *)

Section half.
  Context (most : nat) (bs : Z).

Record half_inv (p : bytes) (bh : Z) (hs : string) : Prop := {
  hi_hash : Z.land bh 63 = fnv (rest (take most (cuts bs p)) p) mod 64;
  hi_text : hs = String.string_of_list_ascii (signature most bs p)
}.

Lemma half_init : half_inv [] HASH_INIT "".
Proof. split; [|destruct most; done]. unfold cuts. cbn [length seq List.filter]. rewrite take_nil. vm_compute. reflexivity. Qed.

Lemma signature_length p : length (signature most bs p) = Nat.min most (length (cuts bs p)).
Proof.
  unfold signature. rewrite length_map, <- length_take. generalize (take most (cuts bs p)). intros cs. generalize 0%nat.
  induction cs as [|c cs IH]; intros start; cbn; [done|]. by rewrite IH.
Qed.

Lemma half_length p bh hs : half_inv p bh hs -> str_len hs = Z.min (Z.of_nat most) (len (cuts bs p)).
Proof.
  intros [_ ->]. unfold str_len. rewrite length_string_of_list_ascii, signature_length. unfold len. lia.
Qed.

Lemma take_cuts_bound p : Forall (fun c => (c <= length p)%nat) (take most (cuts bs p)).
Proof. apply Forall_take, cuts_bound. Qed.

Lemma rest_snoc p b : rest (take most (cuts bs p)) (p ++ [b]) = rest (take most (cuts bs p)) p ++ [b].
Proof. unfold rest. apply drop_app_le. apply last_bound, take_cuts_bound. Qed.

(** The cuts kept do not change: no cut, or no room for it. *)
Lemma half_keep p bh bh' hs b : half_inv p bh hs -> byte_hash bh b = Some bh' ->
  take most (cuts bs (p ++ [b])) = take most (cuts bs p) -> half_inv (p ++ [b]) bh' hs.
Proof.
  intros [Hh Ht] Eb Hc. destruct (byte_hash_fnv bh _ b Hh) as (x & Ex & Hx). rewrite Ex in Eb. injection Eb as <-. split.
  - by rewrite Hc, rest_snoc.
  - unfold signature in *. rewrite Hc, pieces_snoc; [done|lia|apply take_cuts_bound].
Qed.

Lemma half_cut p bh bh' hs b : half_inv p bh hs -> byte_hash bh b = Some bh' -> is_cut bs (p ++ [b]) = true ->
  (length (cuts bs p) < most)%nat ->
  exists c, b64 (Z.land bh' 63) = Some c /\ half_inv (p ++ [b]) HASH_INIT (push hs c).
Proof.
  intros [Hh Ht] Eb Hcut Hroom. destruct (byte_hash_fnv bh _ b Hh) as (x & Ex & Hx). rewrite Ex in Eb. injection Eb as <-.
  destruct (b64_char (Z.land x 63)) as [Hc _]; [apply land63|]. rewrite Hx in Hc. exists (piece_char (rest (take most (cuts bs p)) p ++ [b])).
  rewrite Hx. split; [exact Hc|].
  assert (Hnew : take most (cuts bs (p ++ [b])) = take most (cuts bs p) ++ [S (length p)]).
  { rewrite cuts_snoc, Hcut, !take_ge; [done|lia|rewrite length_app; cbn; lia]. }
  split.
  - rewrite Hnew. unfold rest. rewrite last_snoc. cbn [default]. rewrite drop_ge by (rewrite length_app; cbn; lia). vm_compute. reflexivity.
  - unfold signature in *. rewrite Hnew, pieces_app, pieces_snoc, map_app; [|lia|apply take_cuts_bound].
    rewrite string_of_list_ascii_app, <- Ht. unfold push. f_equal. cbn [map String.string_of_list_ascii]. f_equal.
    f_equal. set (l := default 0%nat (last (take most (cuts bs p)))).
    assert (Hl : (l <= length p)%nat) by apply last_bound, take_cuts_bound.
    unfold rest. fold l. rewrite <- drop_app_le by done. symmetry. apply take_ge. rewrite length_drop, length_app. cbn. lia.
Qed.
End half.

Lemma take_cuts_same most bs p b : is_cut bs (p ++ [b]) = false \/ (most <= length (cuts bs p))%nat ->
  take most (cuts bs (p ++ [b])) = take most (cuts bs p).
Proof.
  intros H. rewrite cuts_snoc. destruct H as [->|H]; [by rewrite app_nil_r|]. by apply take_app_le.
Qed.

(** A cut of the doubled block size is one of the block size. *)
Lemma is_cut_double bs p : 0 < bs -> is_cut (2 * bs) p = true -> is_cut bs p = true.
Proof.
  unfold is_cut. intros Hbs H%Z.eqb_eq. apply Z.eqb_eq. pose proof (Z.div_mod (roll_hash p) (2 * bs) ltac:(lia)) as E.
  rewrite H in E. symmetry. apply (Z.mod_unique _ _ (2 * (roll_hash p / (2 * bs)) + 1)); lia.
Qed.

(** *** The loop over the data *)

Section loop.
  Context (bs : Z) (Hbs : 0 < bs) (Hdouble : double bs = Some (2 * bs)).

Record block_inv (p : bytes) (st : BlockState) : Prop := {
  bi_roll : roll_inv p (bs_roll st);
  bi_rh : bs_rh st = roll_hash p;
  bi_first : half_inv 63 bs p (bs_bh1 st) (bs_hs1 st);
  bi_second : half_inv 31 (2 * bs) p (bs_bh2 st) (bs_hs2 st)
}.

Lemma block_init_inv : block_inv [] block_init.
Proof. split; [apply roll_new_inv|vm_compute; reflexivity|apply half_init|apply half_init]. Qed.

(** One half at a cut: the character is pushed while there is room. *)
Lemma half_cut_step most bs' p bh bh' hs b : half_inv most bs' p bh hs -> byte_hash bh b = Some bh' -> is_cut bs' (p ++ [b]) = true ->
  exists hs2 bh2 last2, (if str_len hs <? Z.of_nat most then c ← b64 (Z.land bh' 0x3f); Some (push hs c, HASH_INIT, Z.land HASH_INIT 0x3f)
    else Some (hs, bh', Z.land bh' 0x3f)) = Some (hs2, bh2, last2) /\ half_inv most bs' (p ++ [b]) bh2 hs2.
Proof.
  intros Hi Eb Hc. rewrite (half_length _ _ _ _ _ Hi). destruct (Z.min _ _ <? _) eqn:E.
  - apply Z.ltb_lt in E. destruct (half_cut most bs' p bh bh' hs b Hi Eb Hc) as (c & -> & H); [unfold len in E; lia|].
    cbn [mbind option_bind]. by do 3 eexists.
  - apply Z.ltb_ge in E. do 3 eexists. split; [done|]. eapply half_keep; [exact Hi|exact Eb|]. apply take_cuts_same. right. unfold len in E. lia.
Qed.

Lemma block_step_inv p st b : block_inv p st -> exists st', block_step bs st b = Some st' /\ block_inv (p ++ [b]) st'.
Proof using Hbs Hdouble.
  intros [Hr _ H1 H2]. unfold block_step.
  destruct (byte_hash_fnv _ _ b (hi_hash _ _ _ _ _ H1)) as (bh1 & E1 & _), (byte_hash_fnv _ _ b (hi_hash _ _ _ _ _ H2)) as (bh2 & E2 & _).
  destruct (roll_update_inv p _ b Hr) as (r & Er & Hr'). rewrite E1, E2, Er. cbn [mbind option_bind].
  fold (is_cut bs (p ++ [b])). destruct (is_cut bs (p ++ [b])) eqn:Ec; cbn [negb].
  - destruct (half_cut_step 63 bs p _ bh1 _ b H1 E1 Ec) as (hs1 & bh1' & last1 & E & H1'). change (SPAMSUM_LENGTH - 1) with (Z.of_nat 63). rewrite E. cbn [mbind option_bind].
    rewrite Hdouble. cbn [mbind option_bind]. fold (is_cut (2 * bs) (p ++ [b])). destruct (is_cut (2 * bs) (p ++ [b])) eqn:Ec2; cbn [negb].
    + destruct (half_cut_step 31 (2 * bs) p _ bh2 _ b H2 E2 Ec2) as (hs2 & bh2' & last2 & E' & H2').
      change (SPAMSUM_LENGTH / 2 - 1) with (Z.of_nat 31). rewrite E'. cbn [mbind option_bind]. eexists. split; [done|]. by split.
    + eexists. split; [done|]. split; [done|done|done|]. eapply half_keep; [exact H2|exact E2|]. apply take_cuts_same. by left.
  - assert (Ec2 : is_cut (2 * bs) (p ++ [b]) = false) by (apply not_true_is_false; intros H; apply is_cut_double in H; [congruence|done]).
    eexists. split; [done|]. split; [done|done| |]; (eapply half_keep; [eassumption|eassumption|]; apply take_cuts_same; by left).
Qed.

Lemma block_loop_inv data : forall p st, block_inv p st -> exists st', block_loop bs data st = Some st' /\ block_inv (p ++ data) st'.
Proof using Hbs Hdouble.
  induction data as [|b data IH]; intros p st Hst; cbn [block_loop]; [exists st; by rewrite app_nil_r|].
  destruct (block_step_inv p st b Hst) as (st' & -> & Hst'). cbn [mbind option_bind].
  destruct (IH _ _ Hst') as (st2 & E & H2). exists st2. split; [exact E|]. by rewrite <- app_assoc in H2.
Qed.

Lemma hash_with_block_spec data : exists t1 t2,
  hash_with_block data bs = Some (String.string_of_list_ascii (signature 63 bs data), String.string_of_list_ascii (signature 31 (2 * bs) data), t1, t2, roll_hash data) /\
  (roll_hash data <> 0 -> t1 = fnv (rest (take 63 (cuts bs data)) data) mod 64 /\ t2 = fnv (rest (take 31 (cuts (2 * bs) data)) data) mod 64).
Proof using Hbs Hdouble.
  unfold hash_with_block. destruct (block_loop_inv data [] block_init block_init_inv) as (st & -> & [_ Hrh [H1 S1] [H2 S2]]).
  cbn [mbind option_bind app] in *. rewrite Hrh, S1, S2. destruct (roll_hash data =? 0) eqn:E; cbn [negb]; do 2 eexists; (split; [reflexivity|]).
  - by apply Z.eqb_eq in E.
  - by intros _.
Qed.
End loop.

(** *** The block size *)

Lemma double_level k : 0 <= k < 30 -> double (3 * 2 ^ k) = Some (3 * 2 ^ (k + 1)).
Proof.
  intros Hk. unfold double. rewrite Z.pow_add_r by lia. change (2 ^ 1) with 2.
  assert (2 ^ k <= 2 ^ 29) by (apply Z.pow_le_mono_r; lia). rewrite (proj2 (Z.ltb_lt _ _)) by lia. f_equal. lia.
Qed.

Lemma grow_block_spec fuel n k :
  0 <= k -> n <= 192 * 2 ^ (k + Z.of_nat fuel - 1) -> k + Z.of_nat fuel <= 30 -> (0 < fuel)%nat -> (0 < k -> 3 * 2 ^ (k - 1) * 64 < n) ->
  exists k', k <= k' < k + Z.of_nat fuel /\ grow_block fuel n (3 * 2 ^ k) = Some (3 * 2 ^ k') /\ n <= 3 * 2 ^ k' * 64 /\
    (0 < k' -> 3 * 2 ^ (k' - 1) * 64 < n).
Proof.
  revert k. induction fuel as [|fuel IH]; intros k Hk Hn Hf Hpos Hlow; [lia|]. cbn [grow_block].
  destruct (3 * 2 ^ k * SPAMSUM_LENGTH <? n) eqn:E; unfold SPAMSUM_LENGTH in E.
  - apply Z.ltb_lt in E. destruct fuel as [|fuel].
    { exfalso. replace (k + Z.of_nat 1 - 1) with k in Hn by lia. lia. }
    rewrite double_level by lia. cbn [mbind option_bind].
    destruct (IH (k + 1)) as (k' & Hk' & Hg & Hn' & Hl'); [lia| |lia|lia|intros _; by replace (k + 1 - 1) with k by lia|].
    { replace (k + 1 + Z.of_nat (S fuel) - 1) with (k + Z.of_nat (S (S fuel)) - 1) by lia. done. }
    exists k'. split; [lia|done].
  - apply Z.ltb_ge in E. exists k. split; [lia|]. split; [done|]. split; [lia|done].
Qed.

Lemma len_signature most bs data : str_len (String.string_of_list_ascii (signature most bs data)) = Z.min (Z.of_nat most) (len (cuts bs data)).
Proof. unfold str_len. rewrite length_string_of_list_ascii, signature_length. unfold len. lia. Qed.

Lemma digest_loop_spec fuel data k :
  0 <= k < 30 -> k < Z.of_nat fuel ->
  exists k', 0 <= k' <= k /\ digest_loop fuel data (3 * 2 ^ k) = Some (digest_at data k') /\
    (0 < k' -> 32 <= len (cuts (3 * 2 ^ k') data)) /\ forall j, k' < j <= k -> len (cuts (3 * 2 ^ j) data) < 32.
Proof.
  revert k. induction fuel as [|fuel IH]; intros k Hk Hf; [lia|]. cbn [digest_loop].
  assert (Hp : 0 < 2 ^ k) by (apply Z.pow_pos_nonneg; lia).
  assert (E2 : 2 * (3 * 2 ^ k) = 3 * 2 ^ (k + 1)) by (rewrite Z.pow_add_r by lia; lia).
  destruct (hash_with_block_spec (3 * 2 ^ k) ltac:(lia)) with (data := data) as (t1 & t2 & -> & Ht); [rewrite E2; by apply double_level|].
  rewrite E2 in *. cbn [mbind option_bind]. rewrite len_signature.
  destruct ((BLOCKSIZE_MIN <? 3 * 2 ^ k) && (Z.min (Z.of_nat 63) (len (cuts (3 * 2 ^ k) data)) <? SPAMSUM_LENGTH / 2)) eqn:E.
  - apply andb_true_iff in E as [E Ec]. apply Z.ltb_lt in E, Ec. unfold BLOCKSIZE_MIN in E. change (SPAMSUM_LENGTH / 2) with 32 in Ec.
    destruct (Z.eq_dec k 0) as [->|Hk0]; [lia|].
    replace (3 * 2 ^ k / 2) with (3 * 2 ^ (k - 1)).
    + destruct (IH (k - 1)) as (k' & Hk' & Hd & H1 & H2); [lia|lia|]. exists k'. split; [lia|]. split; [done|]. split; [done|].
      intros j Hj. destruct (Z.eq_dec j k) as [->|]; [lia|]. apply H2. lia.
    + replace (3 * 2 ^ k) with (3 * 2 ^ (k - 1) * 2); [by rewrite Z.div_mul|].
      replace k with (k - 1 + 1) at 2 by lia. rewrite Z.pow_add_r by lia. lia.
  - exists k. split; [lia|]. split; [|split; [|intros j Hj; lia]].
    + unfold digest_at, half. destruct (roll_hash data =? 0) eqn:Er; cbn [negb mbind option_bind]; [by rewrite !app_nil_r|].
      apply Z.eqb_neq in Er. destruct (Ht Er) as [-> ->]. destruct (b64_char (fnv (rest (take 63 (cuts (3 * 2 ^ k) data)) data) mod 64)) as [-> _]; [apply Z.mod_pos_bound; lia|].
      destruct (b64_char (fnv (rest (take 31 (cuts (3 * 2 ^ (k + 1)) data)) data) mod 64)) as [-> _]; [apply Z.mod_pos_bound; lia|].
      cbn [mbind option_bind]. rewrite !string_of_list_ascii_app. done.
    + intros Hk0. apply andb_false_iff in E as [E|E]; apply Z.ltb_ge in E; unfold BLOCKSIZE_MIN in E; [|change (SPAMSUM_LENGTH / 2) with 32 in E; lia].
      assert (2 ^ 1 <= 2 ^ k) by (apply Z.pow_le_mono_r; lia). lia.
Qed.

Lemma half_b64 most bs data : str_all is_b64 (half most bs data) = true.
Proof.
  assert (Hc : forall piece, is_b64 (piece_char piece) = true) by (intros piece; apply b64_char, Z.mod_pos_bound; lia).
  assert (Hall : forall l, Forall (fun c => is_b64 c = true) l -> str_all is_b64 (String.string_of_list_ascii l) = true).
  { induction 1 as [|c l Hx _ IH]; [done|]. cbn [String.string_of_list_ascii str_all]. by rewrite Hx. }
  apply Hall, Forall_app. split; [|destruct (roll_hash data =? 0); [constructor|constructor; [apply Hc|constructor]]].
  unfold signature. generalize (pieces 0 (take most (cuts bs data)) data). intros l. induction l as [|x l IH]; cbn [map]; constructor; [apply Hc|exact IH].
Qed.

Lemma half_len most bs data : str_len (half most bs data) <= Z.of_nat most + 1.
Proof.
  unfold half, str_len. rewrite length_string_of_list_ascii, length_app, signature_length. destruct (roll_hash data =? 0); cbn; lia.
Qed.

(** Every input up to 64 GiB has the digest of its positions: both searches for
    the block size end, no table index is out of range, and no doubling of a
    block size overflows. *)
Lemma fuzzy_hash_spec data : len data <= 2 ^ 36 ->
  exists k, 0 <= k < 30 /\ level data k /\ fuzzy_hash data = Some (digest_at data k).
Proof.
  intros Hlen. unfold fuzzy_hash.
  destruct (grow_block_spec 30 (len data) 0) as (top & Ht & Hg & Hn & Hl); [lia| |lia|lia|lia|].
  { change (192 * 2 ^ (0 + Z.of_nat 30 - 1)) with (192 * 2 ^ 29). lia. }
  change BLOCKSIZE_MIN with (3 * 2 ^ 0). rewrite Hg. cbn [mbind option_bind].
  destruct (digest_loop_spec 30 data top) as (k & Hk & Hd & H1 & H2); [lia|lia|].
  exists k. split; [lia|]. split; [|done]. exists top. split; [lia|]. by do 3 (split; [done|]).
Qed.

(** ** Reading a digest back *)

Lemma b64_not_colon s : str_all is_b64 s = true -> forall rest, split_once ":" (s +:+ (":" +:+ rest)) = Some (s, rest).
Proof.
  intros Hs rest. induction s as [|c s IH]; [done|]. cbn [str_all] in Hs. apply andb_true_iff in Hs as [Hc Hs].
  change (String c s +:+ (":" +:+ rest)) with (String c (s +:+ (":" +:+ rest))). cbn [split_once].
  destruct (Ascii.eqb ":" c) eqn:E.
  - apply Ascii.eqb_eq in E. subst. vm_compute in Hc. discriminate Hc.
  - by rewrite IH.
Qed.

Lemma pretty_char_digit n : (n < 10)%N -> is_ascii_digit (pretty_N_char n) = true /\ ascii_Z (pretty_N_char n) = 48 + Z.of_N n /\
  Ascii.eqb ":" (pretty_N_char n) = false.
Proof.
  intros Hn. assert (Hc : exists m, n = N.of_nat m /\ (m < 10)%nat) by (exists (N.to_nat n); lia).
  destruct Hc as (m & -> & Hm). do 10 (destruct m as [|m]; [by vm_compute|]). lia.
Qed.

(** Decimal printing and parsing, the digits printed so far being [s]. *)
Lemma parse_pretty_go n s :
  Z.of_N n < 2 ^ 32 -> parse_digits (2 ^ 32) (pretty_N_go n s) 0 = parse_digits (2 ^ 32) s (Z.of_N n).
Proof.
  revert s. induction (N.lt_wf_0 n) as [n _ IH]. intros s Hn.
  destruct (decide (0 < n)%N) as [Hpos|Hz]; [|replace n with 0%N by lia; by rewrite pretty_N_go_0].
  rewrite pretty_N_go_step by done.
  assert (Hm : (n `mod` 10 < 10)%N) by (apply N.mod_lt; lia).
  assert (Hd : Z.of_N n = Z.of_N (n `div` 10) * 10 + Z.of_N (n `mod` 10)).
  { rewrite N2Z.inj_div, N2Z.inj_mod. pose proof (Z.div_mod (Z.of_N n) 10 ltac:(lia)). lia. }
  assert (Hq : (n `div` 10 <= n)%N) by (apply N.Div0.div_le_upper_bound; lia).
  rewrite IH; [|apply N.div_lt; lia|apply N2Z.inj_le in Hq; eapply Z.le_lt_trans; eauto].
  destruct (pretty_char_digit _ Hm) as (H1 & H2 & _). cbn [parse_digits]. rewrite H1, H2.
  replace (Z.of_N (n `div` 10) * 10 + (48 + Z.of_N (n `mod` 10) - 48)) with (Z.of_N n) by lia.
  by rewrite (proj2 (Z.ltb_lt _ _) Hn).
Qed.

Definition no_colon (s : string) : bool := str_all (fun c => negb (Ascii.eqb ":" c)) s.

Lemma no_colon_split s rest : no_colon s = true -> split_once ":" (s +:+ (":" +:+ rest)) = Some (s, rest).
Proof.
  intros Hs. induction s as [|c s IH]; [done|]. unfold no_colon in *. cbn [str_all] in Hs. apply andb_true_iff in Hs as [Hc Hs].
  change (String c s +:+ (":" +:+ rest)) with (String c (s +:+ (":" +:+ rest))). cbn [split_once].
  apply negb_true_iff in Hc. rewrite Hc. by rewrite IH.
Qed.

Lemma pretty_go_no_colon n s : no_colon s = true -> no_colon (pretty_N_go n s) = true.
Proof.
  revert s. induction (N.lt_wf_0 n) as [n _ IH]. intros s Hs.
  destruct (decide (0 < n)%N) as [Hpos|Hz]; [|replace n with 0%N by lia; by rewrite pretty_N_go_0].
  rewrite pretty_N_go_step by done. apply IH; [apply N.div_lt; lia|].
  assert (Hm : (n `mod` 10 < 10)%N) by (apply N.mod_lt; lia).
  destruct (pretty_char_digit _ Hm) as (_ & _ & H3). unfold no_colon in *. cbn [str_all]. by rewrite H3.
Qed.

Lemma pretty_go_first n s : (0 < n)%N -> exists c s', pretty_N_go n s = String c s' /\ is_ascii_digit c = true.
Proof.
  revert s. induction (N.lt_wf_0 n) as [n _ IH]. intros s Hpos. rewrite pretty_N_go_step by done.
  destruct (decide (0 < n `div` 10)%N) as [Hd|Hd].
  - apply IH; [apply N.div_lt; lia|done].
  - assert (Hz : (n `div` 10)%N = 0%N) by (destruct (N.eq_0_gt_0_cases (n `div` 10)); [done|contradiction]).
    rewrite Hz, pretty_N_go_0.
    assert (Hm : (n `mod` 10 < 10)%N) by (apply N.mod_lt; lia).
    destruct (pretty_char_digit _ Hm) as (H1 & _). eauto.
Qed.

Lemma parse_u32_show z : 0 < z < 2 ^ 32 -> parse_u32 (show_Z z) = Some z /\ no_colon (show_Z z) = true.
Proof.
  intros Hz. destruct z as [|p|p]; [lia| |lia].
  assert (Hs : show_Z (Zpos p) = pretty_N_go (Npos p) "") by done. rewrite Hs.
  split; [|by apply pretty_go_no_colon].
  assert (Hp : parse_digits (2 ^ 32) (pretty_N_go (N.pos p) "") 0 = Some (Zpos p)) by (rewrite parse_pretty_go by (cbn; lia); done).
  destruct (pretty_go_first (Npos p) "") as (c & s' & Hc & Hd); [lia|]. rewrite Hc in *.
  unfold parse_u32, parse_uint. destruct (Ascii.eqb c "+") eqn:Eplus.
  { apply Ascii.eqb_eq in Eplus. subst. discriminate Hd. }
  replace (match String c s' with String "+" s'' => s'' | _ => String c s' end) with (String c s').
  - cbn [String.eqb]. exact Hp.
  - clear - Eplus. destruct c as [[] [] [] [] [] [] [] []]; try reflexivity. discriminate Eplus.
Qed.

Lemma parse_digest_text k h1 h2 :
  0 <= k < 30 -> str_all is_b64 h1 = true ->
  parse_digest (digest_text (3 * 2 ^ k) h1 h2) = Some (3 * 2 ^ k, chars h1, chars h2).
Proof.
  intros Hk H1. assert (Hp : 0 < 2 ^ k <= 2 ^ 29) by (split; [apply Z.pow_pos_nonneg; lia|apply Z.pow_le_mono_r; lia]).
  destruct (parse_u32_show (3 * 2 ^ k)) as [Hparse Hnc]; [lia|].
  unfold parse_digest, digest_text. rewrite no_colon_split by done. cbn [mbind option_bind]. rewrite Hparse.
  cbn [mbind option_bind]. by rewrite b64_not_colon.
Qed.

(** C40. The fuzzy digest is the one the positions of the data define.  Of any input up to 2^36 bytes the loop returns,
    no index of its tables is out of range and no doubling of its block size
    overflows, and the digest is read off the data: cut
    where the rolling hash of the last seven bytes is one less than a multiple of
    the block size, a base64 character of the FNV hash of each of the first 63
    pieces (31 at the doubled size) and of the rest unless the data rolls to
    zero, at the largest block size, from the least that makes 64 blocks of the
    data downwards, that cuts off 32 pieces.  Read back it is its block size and its
    halves, and it compares as identical to itself. *)
Theorem fuzzy_hash_roundtrip data :
  len data <= 2 ^ 36 ->
  exists d k, 0 <= k < 30 /\ level data k /\ fuzzy_hash data = Some d /\
    d = digest_text (3 * 2 ^ k) (half 63 (3 * 2 ^ k) data) (half 31 (3 * 2 ^ (k + 1)) data) /\
    parse_digest d = Some (3 * 2 ^ k, chars (half 63 (3 * 2 ^ k) data), chars (half 31 (3 * 2 ^ (k + 1)) data)) /\
    compare d d = 100.
Proof.
  intros Hlen. destruct (fuzzy_hash_spec data Hlen) as (k & Hk & Hl & Hd).
  pose proof (parse_digest_text k (half 63 (3 * 2 ^ k) data) (half 31 (3 * 2 ^ (k + 1)) data) Hk (half_b64 _ _ _)) as Hp.
  exists (digest_at data k), k. do 4 (split; [done|]). split; [exact Hp|].
  unfold compare. unfold digest_at. rewrite Hp. cbv zeta. by rewrite Z.eqb_refl, bool_decide_true.
Qed.

(** ** The band index *)

Definition stored_bands (tenant artifact : Uuid) (ssdeep : string) : list LshBand :=
  map (fun k => mkLshBand tenant artifact (fst k) (snd k)) (band_keys ssdeep).

Lemma band_keys_nodup ssdeep : NoDup (map fst (band_keys ssdeep)).
Proof.
  unfold band_keys. destruct (digest_parts ssdeep) as [[bs h1] h2]. rewrite map_map. cbn [fst].
  set (l := half_bands h1 ++ half_bands h2).
  assert (Hf : map fst (enumerate l) = seq 0 (length l)).
  { unfold enumerate. apply fst_zip. by rewrite length_seq. }
  rewrite <- (map_map fst Z.of_nat), Hf. apply NoDup_fmap; [intros a b; lia|]. apply NoDup_seq.
Qed.

Lemma insert_bands tenant artifact keys (s : Srv) :
  NoDup (map fst keys) ->
  (forall b, In b (rows TLsh s) -> band_of tenant artifact b = true -> lb_band_idx b ∉ map fst keys) ->
  exists s', op_for keys (fun k => upsert TLsh lsh_key (mkLshBand tenant artifact (fst k) (snd k))
      (fun b => mkLshBand (lb_tenant b) (lb_artifact_id b) (lb_band_idx b) (snd k))) s = (Ret tt, s') /\
    rows TLsh s' = rows TLsh s ++ map (fun k => mkLshBand tenant artifact (fst k) (snd k)) keys.
Proof.
  revert s. induction keys as [|k keys IH]; intros s Hnd Hold; cbn [op_for map].
  { exists s. by rewrite app_nil_r. }
  cbn [map] in Hnd. apply NoDup_cons in Hnd as [Hk Hnd].
  set (r := mkLshBand tenant artifact (fst k) (snd k)).
  assert (Hf : lsh_key r ∉ map lsh_key (rows TLsh s)).
  { rewrite list_elem_of_In, in_map_iff. intros (b & [= E1 E2 E3] & Hb).
    apply (Hold b Hb); [unfold band_of; by rewrite !bool_decide_true|]. rewrite E3. by left. }
  op_unfold. rewrite upsert_new by exact Hf.
  destruct (IH (set_rows TLsh (rows TLsh s ++ [r]) s)) as (s' & H1 & H2); [done| |].
  { rewrite rows_set_rows_eq. intros b Hb Hof Hin. apply in_app_or in Hb as [Hb|[<-|[]]].
    - apply (Hold b Hb Hof). by right.
    - done. }
  exists s'. split; [exact H1|]. rewrite H2, rows_set_rows_eq, <- app_assoc. done.
Qed.

(** Storing an artifact's bands succeeds and replaces exactly its own rows: the
    index then holds one row per band key of the digest, and every row of
    another artifact or tenant is where it was. *)
Theorem store_bands_replaces tenant artifact ssdeep (s : Srv) :
  exists s', store_bands tenant artifact ssdeep s = (Ret tt, s') /\
    rows TLsh s' = List.filter (fun b => negb (band_of tenant artifact b)) (rows TLsh s) ++
      stored_bands tenant artifact ssdeep /\
    List.filter (band_of tenant artifact) (rows TLsh s') = stored_bands tenant artifact ssdeep.
Proof.
  set (s1 := snd (delete_rows TLsh (band_of tenant artifact) s)).
  assert (Hs1 : rows TLsh s1 = List.filter (fun b => negb (band_of tenant artifact b)) (rows TLsh s))
    by apply rows_set_rows_eq.
  destruct (insert_bands tenant artifact (band_keys ssdeep) s1) as (s' & H1 & H2).
  { apply band_keys_nodup. }
  { rewrite Hs1. intros b Hb Hof. apply filter_In in Hb as [_ Hb]. by rewrite Hof in Hb. }
  exists s'. split; [exact H1|]. rewrite H2, Hs1. split; [done|].
  rewrite List.filter_app, filter_filter_negb. cbn [app].
  unfold stored_bands. clear. induction (band_keys ssdeep) as [|k l IH]; [done|]. cbn [map List.filter].
  assert (Hof : band_of tenant artifact (mkLshBand tenant artifact k.1 k.2) = true)
    by (unfold band_of; cbn; by rewrite !bool_decide_true).
  rewrite Hof. by f_equal.
Qed.

Lemma band_artifacts_nodup tenant artifact bands k :
  NoDup (map lsh_key bands) -> NoDup (band_artifacts tenant artifact bands k).
Proof.
  intros Hk. unfold band_artifacts. apply (nodup_map_filter _ (shares_band tenant artifact k)) in Hk.
  assert (Hall : Forall (fun b => lb_tenant b = tenant /\ lb_band_idx b = fst k) (List.filter (shares_band tenant artifact k) bands)).
  { apply List.Forall_forall. intros b [_ Hb]%filter_In. unfold shares_band in Hb.
    rewrite !andb_true_iff, bool_decide_eq_true, Z.eqb_eq in Hb. tauto. }
  induction Hall as [|b l [Ht Hi] Hl IH]; cbn [map] in *; [by apply NoDup_nil_2|].
  apply NoDup_cons in Hk as [Hb Hk]. apply NoDup_cons. split; [|auto]. intros Hin. apply Hb.
  apply list_elem_of_In, in_map_iff in Hin as (c & Hc & Hin). apply list_elem_of_In, in_map_iff. exists c. split; [|done].
  rewrite List.Forall_forall in Hl. destruct (Hl c Hin) as [Ht' Hi']. unfold lsh_key. congruence.
Qed.

(** The candidates of a digest: no artifact twice, at most 512 of them, never
    the artifact itself, each with a stored band of the same tenant that the
    digest has too; and unless 512 were found, every such artifact is among
    them. *)
Theorem lsh_candidates_spec tenant artifact ssdeep (s : Srv) :
  unique_key TLsh lsh_key s ->
  exists out, lsh_candidates tenant artifact ssdeep s = (Ret out, s) /\
    NoDup out /\ len out <= 512 /\
    let neighbour x := x <> artifact /\ exists idx key, In (idx, key) (band_keys ssdeep) /\
      In (mkLshBand tenant x idx key) (rows TLsh s) in
    (forall x, In x out -> neighbour x) /\ (len out < 512 -> forall x, neighbour x -> In x out).
Proof.
  intros Hkey. unfold lsh_candidates, gets.
  set (answers := map (band_artifacts tenant artifact (rows TLsh s)) (band_keys ssdeep)).
  destruct (collect_all_spec CANDIDATE_CAP answers []) as (B1 & B2 & B3 & B4); [|by apply NoDup_nil_2|done|].
  { apply Forall_map, List.Forall_forall. intros k _. by apply band_artifacts_nodup. }
  exists (collect_all CANDIDATE_CAP answers []).
  split; [done|]. split; [exact B1|]. split; [exact B2|]. cbn zeta.
  assert (Hn : forall x, (exists l, In l answers /\ In x l) <->
    x <> artifact /\ exists idx key, In (idx, key) (band_keys ssdeep) /\ In (mkLshBand tenant x idx key) (rows TLsh s)).
  { intros x. unfold answers, band_artifacts. split.
    - intros (l & Hl & Hx). apply in_map_iff in Hl as ([idx key] & <- & Hk). apply in_map_iff in Hx as ([t a i k] & <- & Hb).
      apply filter_In in Hb as [Hb Hs]. unfold shares_band in Hs. cbn in Hs.
      rewrite !andb_true_iff, negb_true_iff, bool_decide_eq_true, bool_decide_eq_false, Z.eqb_eq, String.eqb_eq in Hs.
      destruct Hs as [[[-> ->] ->] Hne]. split; [done|]. eauto.
    - intros (Hne & idx & key & Hk & Hb). eexists. split; [apply in_map_iff; by exists (idx, key)|].
      apply in_map_iff. eexists. split; [|apply filter_In; split; [exact Hb|]]; [done|].
      unfold shares_band. cbn. by rewrite bool_decide_true, Z.eqb_refl, String.eqb_refl, bool_decide_false. }
  split.
  - intros x Hx. apply Hn. by apply B3 in Hx as [[]|?].
  - intros Hsmall x Hx. apply B4; [done|]. right. by apply Hn.
Qed.

(** ** Witnesses *)

Lemma compare_bounds_witness :
  digest_small "3:abcdefghij:xyz" /\ digest_small "3:abcdefghik:xyz" /\
  0 <= compare "3:abcdefghij:xyz" "3:abcdefghik:xyz" <= 100.
Proof.
  assert (H1 : digest_small "3:abcdefghij:xyz") by (intros bs a b [= <- <- <-]; by vm_compute).
  assert (H2 : digest_small "3:abcdefghik:xyz") by (intros bs a b [= <- <- <-]; by vm_compute).
  split; [exact H1|]. split; [exact H2|]. apply compare_bounds; [exact H1|exact H2].
Defined.

Definition hello : bytes := str_bytes "hello world, this is a small artifact: hello again".

Example fuzzy_hello : fuzzy_hash hello = Some (digest_at hello 0) /\ len (cuts 3 hello) = 17.
Proof. split; vm_compute; reflexivity. Qed.

Lemma fuzzy_hash_roundtrip_witness :
  exists d k, fuzzy_hash hello = Some d /\ level hello k /\ d = digest_at hello k /\ compare d d = 100.
Proof.
  destruct (fuzzy_hash_roundtrip hello) as (d & k & _ & Hl & Hd & Ht & _ & Hc); [vm_compute; congruence|].
  exists d, k. split; [exact Hd|]. split; [exact Hl|]. split; [exact Ht|exact Hc].
Defined.

Definition indexed_server : Srv := snd (store_bands 1%N 7%N "3:abcd:ef" ReferenceServer.empty).

Lemma lsh_candidates_spec_witness :
  unique_key TLsh lsh_key indexed_server /\
  exists out, lsh_candidates 1%N 8%N "3:abcx:ef" indexed_server = (Ret out, indexed_server) /\ NoDup out.
Proof.
  assert (Hk : unique_key TLsh lsh_key indexed_server) by (apply (bool_decide_eq_true_1 _); by vm_compute).
  split; [exact Hk|].
  destruct (lsh_candidates_spec 1%N 8%N "3:abcx:ef" indexed_server Hk) as (out & H & Hnd & _).
  exists out. split; [exact H|exact Hnd].
Defined.
