(* ===== verification/SimModel.v ===== *)
(** * The similarity model ([similarity/model.rs], [analyzers.rs], [receipts.rs])

    The versioned thresholds and the edge types they decide, the registry of
    analyzers, and the receipts of analysis runs. *)

From S2P Require Import Prelude Machine Text Hash Cas Schema.
From Stdlib Require Import Strings.Byte Strings.Ascii Sorting.Sorted.

Open Scope Z_scope.

(** ** model.rs *)

Definition MODEL_VERSION : string := "similarity-model:v1".

Record ModelConfig := mkModelConfig {
  byte_similar_min_score : Z;
  size_ratio_max : f64;
  entropy_delta_max : f64;
  semantic_match_tau : f64;
  semantic_weak_coverage : f64;
  semantic_strong_coverage : f64;
  semantic_strong_min_pairs : Z;
  packed_entropy_limit : f64;
  significance_min_insns : Z
}.

Definition MODEL_V1 : ModelConfig := mkModelConfig
  40 (f64_lit 4 1) (f64_lit 2 1) (f64_lit 35 100) (f64_lit 35 100) (f64_lit 60 100) 3 (f64_lit 72 10) 5.

Definition EXACT_COPY : string := "exact_copy".
Definition NORMALIZED_EQUIVALENT : string := "normalized_equivalent".
Definition BYTE_SIMILAR : string := "byte_similar".
Definition SHARED_PROVENANCE : string := "shared_provenance".
Definition SEMANTIC_STRONG : string := "semantic_variant_strong".
Definition SEMANTIC_WEAK : string := "semantic_variant_weak".

Definition merges_groups (edge_type : string) : bool :=
  String.eqb edge_type EXACT_COPY || String.eqb edge_type NORMALIZED_EQUIVALENT ||
  String.eqb edge_type SEMANTIC_STRONG.

Definition classify_semantic_edge (cfg : ModelConfig) (a_to_b b_to_a : f64) (matched_pairs : Z) : option string :=
  if f64_ge a_to_b (semantic_strong_coverage cfg) && f64_ge b_to_a (semantic_strong_coverage cfg) &&
     (semantic_strong_min_pairs cfg <=? matched_pairs)
  then Some SEMANTIC_STRONG
  else if f64_ge a_to_b (semantic_weak_coverage cfg) && f64_ge b_to_a (semantic_weak_coverage cfg)
  then Some SEMANTIC_WEAK
  else None.

Definition model_config_digest `{Sha256, HexCodec} (cfg : ModelConfig) : string :=
  let payload :=
    "byte_similar_min_score=" +:+ (show_Z (byte_similar_min_score cfg) +:+
    (";size_ratio_max=" +:+ (show_f64 (size_ratio_max cfg) +:+
    (";entropy_delta_max=" +:+ (show_f64 (entropy_delta_max cfg) +:+
    (";semantic_match_tau=" +:+ (show_f64 (semantic_match_tau cfg) +:+
    (";semantic_weak_coverage=" +:+ (show_f64 (semantic_weak_coverage cfg) +:+
    (";semantic_strong_coverage=" +:+ (show_f64 (semantic_strong_coverage cfg) +:+
    (";semantic_strong_min_pairs=" +:+ (show_Z (semantic_strong_min_pairs cfg) +:+
    (";packed_entropy_limit=" +:+ (show_f64 (packed_entropy_limit cfg) +:+
    (";significance_min_insns=" +:+ show_Z (significance_min_insns cfg))))))))))))))))) in
  hex_encode (take 16 (sha256_digest (str_bytes payload))).

(** ** analyzers.rs *)

Inductive AnalyzerStatus : Type := Active | Retired.

Global Instance analyzer_status_eq_dec : EqDecision AnalyzerStatus.
Proof. solve_decision. Defined.

Record AnalyzerInfo := mkAnalyzerInfo {
  an_name : string; an_version : string; an_formats : list string; an_architectures : list string;
  an_feature_families : list string; an_supports_backfill : bool; an_config_digest : string;
  an_status : AnalyzerStatus }.

(** [AnalyzerKey], with its derived (lexicographic) order. *)
Definition AnalyzerKey : Type := string * string.
Definition key_ltb (a b : AnalyzerKey) : bool :=
  if String.eqb (fst a) (fst b) then str_leb (snd a) (snd b) && negb (String.eqb (snd a) (snd b))
  else str_leb (fst a) (fst b).

(** [BTreeMap<AnalyzerKey, AnalyzerInfo>]: the entries in key order. *)
Definition AnalyzerRegistry : Type := list (AnalyzerKey * AnalyzerInfo).

Fixpoint btree_insert (k : AnalyzerKey) (v : AnalyzerInfo) (m : AnalyzerRegistry) : AnalyzerRegistry :=
  match m with
  | [] => [(k, v)]
  | (k', v') :: m' =>
      if decide (k = k') then (k, v) :: m'
      else if key_ltb k k' then (k, v) :: m
      else (k', v') :: btree_insert k v m'
  end.

Fixpoint btree_get (k : AnalyzerKey) (m : AnalyzerRegistry) : option AnalyzerInfo :=
  match m with
  | [] => None
  | (k', v) :: m' => if decide (k = k') then Some v else btree_get k m'
  end.

Definition register (m : AnalyzerRegistry) (info : AnalyzerInfo) : AnalyzerRegistry :=
  btree_insert (an_name info, an_version info) info m.

Definition lookup_analyzer (m : AnalyzerRegistry) (name version : string) : outcome AnalyzerInfo :=
  match btree_get (name, version) m with
  | Some info =>
      match an_status info with
      | Active => Ret info
      | Retired => Fail (BadRequest ("analyzer " +:+ (name +:+ ("@" +:+ (version +:+ " is retired; pick an active version")))))
      end
  | None => Fail (BadRequest ("unknown analyzer " +:+ (name +:+ ("@" +:+ version))))
  end.

Definition lookup_by_version_id (m : AnalyzerRegistry) (version_id : string) : outcome AnalyzerInfo :=
  or_fail (BadRequest ("unknown analyzer version " +:+ version_id))
    (List.find (fun i => String.eqb (an_version i) version_id) (map snd m)).

Definition list_analyzers (m : AnalyzerRegistry) : list AnalyzerInfo := map snd m.
Definition list_ids (m : AnalyzerRegistry) : list string :=
  map (fun i => an_name i +:+ ("@" +:+ an_version i)) (map snd m).
Definition active_analyzers (m : AnalyzerRegistry) : list AnalyzerInfo :=
  List.filter (fun i => bool_decide (an_status i = Active)) (map snd m).

Definition EXTRACTOR_VERSION : string := "extractor:v1".
Definition SEMANTIC_EXTRACTOR_VERSION : string := "semantic:v1".

Definition built_in_registry `{Sha256, HexCodec} : AnalyzerRegistry :=
  let cfg_digest := model_config_digest MODEL_V1 in
  let reg := register [] (mkAnalyzerInfo "byte-feature-extractor" EXTRACTOR_VERSION ["pe"; "elf"; "macho"; "unknown"]
    ["*"] ["byte"; "normalized"; "structural"; "provenance"] true cfg_digest Active) in
  let reg := register reg (mkAnalyzerInfo "semantic-function" SEMANTIC_EXTRACTOR_VERSION ["pe"; "elf"; "macho"]
    ["x86_64"] ["semantic"] true cfg_digest Active) in
  register reg (mkAnalyzerInfo "similarity-model" MODEL_VERSION ["*"] ["*"] ["edge"] true cfg_digest Active).

(** [resolve]: a lookup in the process-wide registry, which is the built-in one. *)
Definition resolve `{Sha256, HexCodec} (name version : string) : outcome AnalyzerInfo :=
  lookup_analyzer built_in_registry name version.

(** ** receipts.rs *)

Record AnalysisReceipt := mkAnalysisReceipt {
  rc_tenant : Uuid; rc_artifact : Uuid; rc_analyzer_name : string; rc_analyzer_version : string;
  rc_model_version : string; rc_config_digest : string; rc_input_sha256 : string; rc_input_size : Z;
  rc_started_at : Time; rc_finished_at : Time; rc_status : string; rc_limitation : option string;
  rc_function_count : Z; rc_edge_count : Z; rc_metrics : Json }.

Section receipts.
  Context `{Sha256, HexCodec, UuidDisplay}.

Definition receipt_id (r : AnalysisReceipt) : string :=
  let payload :=
    str_join "|" [uuid_to_string (rc_tenant r); uuid_to_string (rc_artifact r); rc_analyzer_name r;
      rc_analyzer_version r; rc_model_version r; rc_config_digest r; rc_input_sha256 r; rc_status r;
      show_Z (rc_function_count r)] in
  hex_encode (take 16 (sha256_digest (str_bytes payload))).

Definition receipt_body (r : AnalysisReceipt) : Json := JObj [
  ("tenant_id", JStr (uuid_to_string (rc_tenant r))); ("artifact_id", JStr (uuid_to_string (rc_artifact r)));
  ("analyzer_name", JStr (rc_analyzer_name r)); ("analyzer_version", JStr (rc_analyzer_version r));
  ("model_version", JStr (rc_model_version r)); ("config_digest", JStr (rc_config_digest r));
  ("input_sha256", JStr (rc_input_sha256 r)); ("input_size_bytes", JInt (rc_input_size r));
  ("started_at", JInt (rc_started_at r)); ("finished_at", JInt (rc_finished_at r));
  ("status", JStr (rc_status r));
  ("limitation", match rc_limitation r with Some l => JStr l | None => JNull end);
  ("function_count", JInt (rc_function_count r)); ("edge_count", JInt (rc_edge_count r));
  ("metrics", rc_metrics r)]%string.

Definition receipt_row (r : AnalysisReceipt) : AnalysisReceiptRow :=
  mkAnalysisReceiptRow (receipt_id r) (rc_tenant r) (rc_artifact r) (rc_analyzer_name r) (rc_analyzer_version r)
    (rc_model_version r) (rc_config_digest r) (rc_status r) (receipt_body r) (rc_finished_at r).

Definition persist (r : AnalysisReceipt) : Op Srv unit :=
  upsert TReceipt ar_id (receipt_row r)
    (fun old => mkAnalysisReceiptRow (ar_id old) (ar_tenant old) (ar_artifact_id old) (ar_analyzer_name old)
       (ar_analyzer_version old) (ar_model_version old) (ar_config_digest old) (rc_status r) (receipt_body r) (rc_finished_at r)).

(** [obj.insert(key, value)]: replaces the value of a present key. *)
Definition json_insert (k : string) (v : Json) (j : Json) : Json :=
  match j with
  | JObj l => JObj (if existsb (fun p => String.eqb k (fst p)) l
                    then map (fun p => if String.eqb k (fst p) then (k, v) else p) l
                    else l ++ [(k, v)])
  | _ => j
  end.

Definition receipt_newest (a b : AnalysisReceiptRow) : bool := ar_created_at b <=? ar_created_at a.

Definition receipts_for_artifact (tenant artifact : Uuid) : Op Srv (list Json) :=
  rs ← select TReceipt (fun r => bool_decide (ar_tenant r = tenant) && bool_decide (ar_artifact_id r = artifact));
  mret (map (fun r => json_insert "receipt_id" (JStr (ar_id r)) (ar_body r)) (sort_by receipt_newest rs)).
End receipts.

(** ** Edge types *)

(** Exactly the exact, normalized and strong semantic edges merge variant
    groups; and a semantic edge is strong, and so merges, exactly when both
    coverages reach the strong threshold and enough pairs matched.  A weak one
    needs both coverages at the weak threshold, and never merges. *)
Theorem semantic_edge_classes cfg a_to_b b_to_a pairs :
  match classify_semantic_edge cfg a_to_b b_to_a pairs with
  | Some e =>
      (e = SEMANTIC_STRONG /\ merges_groups e = true /\
       f64_le (semantic_strong_coverage cfg) a_to_b = true /\ f64_le (semantic_strong_coverage cfg) b_to_a = true /\
       semantic_strong_min_pairs cfg <= pairs) \/
      (e = SEMANTIC_WEAK /\ merges_groups e = false /\
       f64_le (semantic_weak_coverage cfg) a_to_b = true /\ f64_le (semantic_weak_coverage cfg) b_to_a = true /\
       ~ (f64_le (semantic_strong_coverage cfg) a_to_b = true /\ f64_le (semantic_strong_coverage cfg) b_to_a = true /\
          semantic_strong_min_pairs cfg <= pairs))
  | None =>
      ~ (f64_le (semantic_weak_coverage cfg) a_to_b = true /\ f64_le (semantic_weak_coverage cfg) b_to_a = true)
  end.
Proof.
  unfold classify_semantic_edge, f64_ge.
  destruct (f64_le (semantic_strong_coverage cfg) a_to_b) eqn:E1;
  destruct (f64_le (semantic_strong_coverage cfg) b_to_a) eqn:E2;
  destruct (Z.leb_spec (semantic_strong_min_pairs cfg) pairs); cbn [andb];
    try (left; by repeat split);
  destruct (f64_le (semantic_weak_coverage cfg) a_to_b) eqn:E3;
  destruct (f64_le (semantic_weak_coverage cfg) b_to_a) eqn:E4; cbn [andb];
    first [right; repeat split; [done..|]; intros (? & ? & ?); first [done|lia] | intros (? & ?); done].
Qed.

(** ** The registry *)

Definition key_lt (a b : AnalyzerKey) : Prop := key_ltb a b = true.

Lemma str_ltb_trans a b c : str_leb a b = true -> a <> b -> str_leb b c = true -> b <> c -> str_leb a c = true /\ a <> c.
Proof.
  intros H1 N1 H2 N2. split; [by eapply str_leb_trans|]. intros ->. apply N1. by apply str_leb_antisym.
Qed.

Lemma key_ltb_spec a b :
  key_lt a b <-> (fst a = fst b /\ str_leb (snd a) (snd b) = true /\ snd a <> snd b) \/
                 (fst a <> fst b /\ str_leb (fst a) (fst b) = true).
Proof.
  unfold key_lt, key_ltb. destruct (String.eqb_spec (fst a) (fst b)) as [E|E].
  - rewrite andb_true_iff, negb_true_iff, String.eqb_neq. naive_solver.
  - naive_solver.
Qed.

Lemma key_lt_trans a b c : key_lt a b -> key_lt b c -> key_lt a c.
Proof.
  rewrite !key_ltb_spec. intros [(E1 & L1 & N1)|(N1 & L1)] [(E2 & L2 & N2)|(N2 & L2)].
  - left. destruct (str_ltb_trans (snd a) (snd b) (snd c)) as [? ?]; auto. split; [congruence|auto].
  - right. rewrite E1. auto.
  - right. rewrite <- E2. auto.
  - right. destruct (str_ltb_trans (fst a) (fst b) (fst c)) as [? ?]; auto.
Qed.

Lemma key_lt_irrefl a : ~ key_lt a a.
Proof. rewrite key_ltb_spec. naive_solver. Qed.

Lemma key_lt_total a b : a <> b -> key_ltb a b = false -> key_lt b a.
Proof.
  intros Hne Hn. apply key_ltb_spec. destruct a as [a1 a2], b as [b1 b2]. unfold key_ltb in Hn. cbn [fst snd] in *.
  destruct (String.eqb_spec a1 b1) as [->|E].
  - left. destruct (String.eqb_spec a2 b2) as [->|E2]; [done|]. rewrite andb_true_r in Hn.
    destruct (str_leb_total a2 b2) as [?|?]; [congruence|]. auto.
  - right. destruct (str_leb_total a1 b1) as [?|?]; [congruence|]. auto.
Qed.

Lemma btree_insert_in k v m x : In x (map fst (btree_insert k v m)) <-> x = k \/ In x (map fst m).
Proof.
  induction m as [|[k' v'] m IH]; cbn; [naive_solver|]. case_decide as E; [subst; cbn; naive_solver|].
  destruct (key_ltb k k'); cbn; [naive_solver|]. rewrite IH. naive_solver.
Qed.

Lemma btree_insert_sorted k v m :
  StronglySorted key_lt (map fst m) -> StronglySorted key_lt (map fst (btree_insert k v m)).
Proof.
  induction m as [|[k' v'] m IH]; cbn; [repeat constructor|]. intros Hs. inversion Hs as [|? ? Hm Hk]; subst.
  case_decide as E; [by subst|]. destruct (key_ltb k k') eqn:L; cbn [map fst].
  - constructor; [done|]. constructor; [done|]. eapply Forall_impl; [exact Hk|]. intros x. by apply key_lt_trans.
  - constructor; [auto|]. apply List.Forall_forall. intros x Hx. apply btree_insert_in in Hx as [->|Hx].
    + by apply key_lt_total.
    + rewrite List.Forall_forall in Hk. auto.
Qed.

Lemma btree_get_insert k v m k' : btree_get k' (btree_insert k v m) = if decide (k' = k) then Some v else btree_get k' m.
Proof.
  induction m as [|[k1 v1] m IH]; cbn; [done|]. destruct (decide (k = k1)) as [<-|E1].
  - cbn. by destruct (decide (k' = k)).
  - destruct (key_ltb k k1); cbn; [done|]. rewrite IH.
    destruct (decide (k' = k1)) as [E2|], (decide (k' = k)) as [E3|]; [|done..]. by rewrite <- E2, <- E3 in E1.
Qed.

Definition info_key (i : AnalyzerInfo) : AnalyzerKey := (an_name i, an_version i).

Lemma registry_fold infos m :
  StronglySorted key_lt (map fst m) ->
  StronglySorted key_lt (map fst (foldl register m infos)) /\
  forall k, btree_get k (foldl register m infos) =
    match List.find (fun i => bool_decide (info_key i = k)) (rev infos) with
    | Some i => Some i
    | None => btree_get k m
    end.
Proof.
  induction infos as [|i infos IH] using rev_ind; intros Hm; [done|].
  rewrite foldl_app, rev_app_distr. cbn [foldl rev app List.find]. destruct (IH Hm) as [H1 H2]. split.
  - by apply btree_insert_sorted.
  - intros k. unfold register at 1. rewrite btree_get_insert. fold (info_key i).
    destruct (decide (k = info_key i)) as [->|Hne]; [by rewrite bool_decide_true|].
    rewrite bool_decide_false by congruence. apply H2.
Qed.

(** Whatever was registered, and in whatever order: the registry lists its
    analyzers in strictly increasing (name, version) order, and a lookup
    returns the analyzer registered last under that name and version when it is
    active, and fails closed when it is retired or was never registered. *)
Theorem registry_lookup_last infos name version :
  let m := foldl register [] infos in
  StronglySorted key_lt (map fst m) /\
  match List.find (fun i => bool_decide (info_key i = (name, version))) (rev infos) with
  | Some i => match an_status i with
              | Active => lookup_analyzer m name version = Ret i
              | Retired => exists e, lookup_analyzer m name version = Fail (BadRequest e)
              end
  | None => exists e, lookup_analyzer m name version = Fail (BadRequest e)
  end.
Proof.
  cbn zeta. destruct (registry_fold infos []) as [H1 H2]; [constructor|]. split; [done|].
  unfold lookup_analyzer. rewrite H2. destruct (List.find _ _) as [i|]; [|cbn; eauto].
  destruct (an_status i); eauto.
Qed.

(** ** Receipts *)

Section receipt_theorems.
  Context `{Sha256, HexCodec, UuidDisplay}.

Definition receipt_is (id : string) (r : AnalysisReceiptRow) : bool := String.eqb (ar_id r) id.

(** The row an upsert of [r] leaves under its identifier. *)
Definition refresh (r : AnalysisReceipt) (old : AnalysisReceiptRow) : AnalysisReceiptRow :=
  mkAnalysisReceiptRow (ar_id old) (ar_tenant old) (ar_artifact_id old) (ar_analyzer_name old)
    (ar_analyzer_version old) (ar_model_version old) (ar_config_digest old) (rc_status r) (receipt_body r) (rc_finished_at r).

Lemma filter_unique id l x :
  NoDup (map ar_id l) -> In x l -> ar_id x = id -> List.filter (receipt_is id) l = [x].
Proof.
  intros Hnd Hx <-. induction l as [|y l IH]; [done|]. cbn [map] in Hnd. apply NoDup_cons in Hnd as [Hy Hnd].
  cbn [List.filter]. unfold receipt_is at 1. destruct Hx as [->|Hx].
  - rewrite String.eqb_refl. f_equal. apply filter_nil_forall. intros z Hz. apply String.eqb_neq. intros E.
    apply Hy. rewrite <- E. apply list_elem_of_In. by apply in_map.
  - destruct (String.eqb_spec (ar_id y) (ar_id x)) as [E|E]; [|auto].
    exfalso. apply Hy. rewrite E. apply list_elem_of_In. by apply in_map.
Qed.

(** Persisting a receipt never fails and leaves exactly one row under its
    content-derived identifier, with the receipt's status, body and time:
    identical runs converge on one row, a later run refreshes it, and no other
    receipt changes. *)
Theorem persist_converges (r : AnalysisReceipt) (s : Srv) :
  unique_key TReceipt ar_id s ->
  exists s' row, persist r s = (Ret tt, s') /\ unique_key TReceipt ar_id s' /\
    List.filter (receipt_is (receipt_id r)) (rows TReceipt s') = [row] /\
    ar_body row = receipt_body r /\ ar_status row = rc_status r /\ ar_created_at row = rc_finished_at r /\
    (forall id, id <> receipt_id r ->
       List.filter (receipt_is id) (rows TReceipt s') = List.filter (receipt_is id) (rows TReceipt s)).
Proof.
  intros Hkey.
  assert (Hkey' : unique_key TReceipt ar_id (snd (persist r s))) by by apply keeps_unique_upsert.
  unfold persist in *. destruct (decide (receipt_id r ∈ map ar_id (rows TReceipt s))) as [Hin|Hnew].
  - rewrite (upsert_old TReceipt ar_id (receipt_row r)) in * by exact Hin.
    apply list_elem_of_In, in_map_iff in Hin as (old & Hid & Hold).
    eexists _, (refresh r old). split; [done|]. split; [exact Hkey'|]. rewrite rows_set_rows_eq.
    unfold unique_key in Hkey'. cbn [snd] in Hkey'. rewrite rows_set_rows_eq in Hkey'.
    split; [|split; [done|split; [done|split; [done|]]]].
    + apply filter_unique; [exact Hkey'| |done]. apply in_map_iff. exists old. split; [|exact Hold].
      by rewrite bool_decide_true.
    + intros id Hne. clear - Hne. induction (rows TReceipt s) as [|x l IH]; [done|]. cbn [map List.filter].
      case_bool_decide as E; [|by rewrite IH].
      assert (E1 : receipt_is id x = false) by (apply String.eqb_neq; cbn in E; congruence).
      unfold receipt_is at 1. cbn [ar_id]. fold (receipt_is id x). by rewrite E1.
  - rewrite (upsert_new TReceipt ar_id (receipt_row r)) in * by exact Hnew.
    eexists _, (receipt_row r). split; [done|]. split; [exact Hkey'|]. rewrite rows_set_rows_eq.
    unfold unique_key in Hkey'. cbn [snd] in Hkey'. rewrite rows_set_rows_eq in Hkey'.
    split; [|split; [done|split; [done|split; [done|]]]].
    + apply filter_unique; [exact Hkey'| |done]. apply in_or_app. right. by left.
    + intros id Hne. rewrite List.filter_app. cbn [List.filter].
      assert (E1 : receipt_is id (receipt_row r) = false) by (apply String.eqb_neq; cbn; congruence).
      by rewrite E1, app_nil_r.
Qed.
End receipt_theorems.

(** ** Witnesses *)

Section witnesses.
Local Existing Instance ReferenceHash.sha.
Local Existing Instance ReferenceHash.hex.
Local Existing Instance ReferenceUuid.display.

Definition sample_receipt : AnalysisReceipt :=
  mkAnalysisReceipt 1%N 2%N "semantic-function" "semantic:v1" MODEL_VERSION "c" "ab" 4 0 1 "ok" None 3 0 JNull.

Lemma persist_converges_witness :
  unique_key TReceipt ar_id ReferenceServer.empty /\
  exists s' row, persist sample_receipt ReferenceServer.empty = (Ret tt, s') /\
    List.filter (receipt_is (receipt_id sample_receipt)) (rows TReceipt s') = [row].
Proof.
  assert (Hk : unique_key TReceipt ar_id ReferenceServer.empty) by apply NoDup_nil_2.
  split; [exact Hk|].
  destruct (persist_converges sample_receipt ReferenceServer.empty Hk) as (s' & row & H1 & _ & H2 & _).
  exists s', row. split; [exact H1|exact H2].
Defined.
End witnesses.
