(* ===== verification/Features.v ===== *)
(** * Feature extraction ([similarity/extract.rs])

    The executable parsers of [goblin] are operations of the class [Goblin],
    which answer with the fields the sources read; [f64::log2] is the class
    [Log2].  A slice whose bounds come from a parsed header is taken with
    [slice], so that a header the file does not match is a [Panic]. *)

From S2P Require Import Prelude Machine Text Hash Classify SimModel Fuzzy.
From Stdlib Require Import Strings.Byte Strings.Ascii SpecFloat Sorting.Sorted.

Open Scope Z_scope.

(** ** The parsers *)

Record PeImport := mkPeImport { pi_dll : string; pi_name : string }.
Record PeSection := mkPeSection {
  ps_name : bytes; ps_virtual_size : Z; ps_virtual_address : Z; ps_pointer_to_raw_data : Z;
  ps_size_of_raw_data : Z; ps_characteristics : Z }.
Record PE := mkPE {
  pe_machine : Z; pe_imports : list PeImport; pe_exports : list (option string);
  pe_sections : list PeSection;
  (** the [RUNTIME_FUNCTION] entries (begin, end); [None] is an entry that does not read *)
  pe_exception_data : option (list (option (Z * Z))) }.

Record ElfSection := mkElfSection {
  es_name : option string; es_offset : Z; es_size : Z; es_flags : Z; es_type : Z; es_addr : Z;
  es_executable : bool; es_writable : bool }.
Record ElfSym := mkElfSym {
  ey_name_ix : Z; ey_name : option string; ey_shndx : Z; ey_type : Z; ey_value : Z; ey_size : Z }.
Record ELF := mkELF {
  elf_machine : Z; elf_sections : list ElfSection; elf_dynsyms : list ElfSym;
  elf_libraries : list string; elf_syms : list ElfSym }.

Record MachSection := mkMachSection { mc_sectname : bytes; mc_offset : Z; mc_addr : Z; mc_data : bytes }.
Record MachSegment := mkMachSegment {
  mg_segname : bytes; mg_filesize : Z; mg_nsects : Z; mg_sections : list MachSection }.
Record MachSym := mkMachSym { my_name : string; my_global : bool; my_n_type : Z; my_n_value : Z }.
Record MachO_ := mkMachO {
  mo_cputype : Z; mo_imports : option (list (string * string)); mo_exports : option (list string);
  mo_segments : list MachSegment; mo_symbols : list (option MachSym) }.

(** The result of a parser: its error's text, or the parsed file; [mach_parse]
    answers [inr None] for a fat binary. *)
Class Goblin : Type := {
  pe_parse : bytes -> string + PE;
  elf_parse : bytes -> string + ELF;
  mach_parse : bytes -> string + option MachO_;
  macho_parse : bytes -> string + MachO_
}.

Class Log2 : Type := f64_log2 : f64 -> f64.

(** ** Features *)

Record NormalizedFeature := mkNormalizedFeature { nf_name : string; nf_hash : string }.

Record ExtractedFeatures := mkExtractedFeatures {
  ef_format : string; ef_arch : option string; ef_size_bytes : Z; ef_entropy : f64; ef_ssdeep : string;
  ef_normalized : list NormalizedFeature; ef_section_layout : option string; ef_import_set : option string;
  ef_export_set : option string; ef_compiler_hint : option string; ef_parse_limitation : option string }.

Definition all_bytes : list byte := map (fun n => byte_of_Z (Z.of_nat n)) (seq 0 256).

Definition count_byte (bs : bytes) (b : byte) : Z := len (List.filter (fun x => bool_decide (x = b)) bs).

Definition shannon_entropy `{Log2} (bs : bytes) : f64 :=
  match bs with
  | [] => f64_of_Z 0
  | _ =>
      let n := f64_of_Z (len bs) in
      foldl (fun acc b =>
        let c := count_byte bs b in
        if 0 <? c then let p := f64_div (f64_of_Z c) n in f64_add acc (f64_mul (f64_neg p) (f64_log2 p)) else acc)
        (S754_zero true) all_bytes
  end.

Section extract.
  Context `{Sha256, HexCodec, Goblin, Log2}.

Definition sha256_hex_parts (parts : list string) : string :=
  sha256_hex (concat (map (fun p => str_bytes p ++ [x00]) parts)).

(** [u32::from_le_bytes(bytes[i..j])] *)
Definition le_at (bs : bytes) (i j : Z) : outcome Z := w ← or_panic (slice bs i j); mret (from_le w).

(** The order of pairs of [usize]. *)
Definition range_le (a b : Z * Z) : bool := (fst a <? fst b) || ((fst a =? fst b) && (snd a <=? snd b)).

(** The loop over the excluded ranges: the bytes hashed, and where it stopped. *)
Fixpoint hash_ranges (bs : bytes) (ranges : list (Z * Z)) (pos : Z) : outcome (bytes * Z) :=
  match ranges with
  | [] => mret ([], pos)
  | (start, end_) :: rest =>
      if len bs <? start then mret ([], pos)
      else
        part ← (if pos <? start then or_panic (slice bs pos (Z.min start (len bs))) else mret []);
        '(more, last) ← hash_ranges bs rest (Z.max pos (Z.min end_ (len bs)));
        mret (part ++ more, last)
  end.

Definition authentihash_bytes (bs : bytes) (ranges : list (Z * Z)) : outcome bytes :=
  '(hashed, pos) ← hash_ranges bs (sort_by range_le ranges) 0;
  tail ← (if pos <? len bs then or_panic (slice bs pos (len bs)) else mret []);
  mret (hashed ++ tail).

(** The ranges the hash leaves out; [None] where the source returns [None]. *)
Definition authentihash_ranges (bs : bytes) : outcome (option (list (Z * Z))) :=
  if (len bs <? 0x40) || negb (starts_with [x4d; x5a] bs) then mret None
  else
    pe_off ← le_at bs 0x3c 0x40;
    bad ← (if len bs <? pe_off + 0x18 then mret true
           else sig ← or_panic (slice bs pe_off (pe_off + 4)); mret (negb (bool_decide (sig = [x50; x45; x00; x00]))));
    if (bad : bool) then mret None
    else
      let opt := pe_off + 24 in
      if len bs <? opt + 0x70 then mret None
      else
        magic ← le_at bs opt (opt + 2);
        match (if magic =? 0x10b then Some (opt + 96) else if magic =? 0x20b then Some (opt + 112) else None) with
        | None => mret None
        | Some dir_base =>
            let ranges := [(opt + 64, opt + 68); (dir_base + 32, dir_base + 40)] in
            if dir_base + 40 <=? len bs then
              cert_off ← le_at bs (dir_base + 32) (dir_base + 36);
              cert_len ← le_at bs (dir_base + 36) (dir_base + 40);
              if (0 <? cert_len) && (cert_off <? len bs)
              then mret (Some (ranges ++ [(cert_off, Z.min (cert_off + cert_len) (len bs))]))
              else mret (Some ranges)
            else mret (Some ranges)
        end.

Definition pe_authentihash (bs : bytes) : outcome (option string) :=
  ranges ← authentihash_ranges bs;
  match ranges with
  | None => mret None
  | Some ranges => hashed ← authentihash_bytes bs ranges; mret (Some (sha256_hex hashed))
  end.

(** [iter().map(f).collect()] for an [f] that may panic. *)
Fixpoint map_outcome {A B} (f : A -> outcome B) (l : list A) : outcome (list B) :=
  match l with
  | [] => mret []
  | x :: l' => y ← f x; ys ← map_outcome f l'; mret (y :: ys)
  end.

(** [sort(); dedup()] *)
Definition sorted_set (l : list string) : list string := dedup (sort_by str_leb l).

Definition pe_layout_part (bs : bytes) (s : PeSection) : outcome string :=
  let name := trim_end is_nul (from_utf8_lossy (ps_name s)) in
  body ← or_panic (slice bs (ps_pointer_to_raw_data s)
                     (Z.min (ps_pointer_to_raw_data s + ps_size_of_raw_data s) (len bs)));
  mret (name +:+ (":" +:+ (show_Z (ps_virtual_size s) +:+ (":" +:+ (show_Z (ps_size_of_raw_data s) +:+ (":" +:+
       (show_x (ps_characteristics s) +:+ (":" +:+ hex_encode (sha256_digest body))))))))).

Definition optional_hash (parts : list string) : option string :=
  match parts with [] => None | _ => Some (sha256_hex_parts parts) end.

Definition extract_pe (bs : bytes) (pe : PE) (f : ExtractedFeatures) : outcome ExtractedFeatures :=
  ah ← pe_authentihash bs;
  let normalized := match ah with Some h => [mkNormalizedFeature "authentihash" h] | None => [] end in
  let ordered := map (fun i => str_lower (pi_dll i) +:+ ("." +:+ str_lower (pi_name i))) (pe_imports pe) in
  let imphash := match ordered with [] => [] | _ => [mkNormalizedFeature "imphash" (sha256_hex_parts ordered)] end in
  let exports := sorted_set (omap (fun e => str_lower <$> e) (pe_exports pe)) in
  layout ← map_outcome (pe_layout_part bs) (pe_sections pe);
  mret (mkExtractedFeatures (ef_format f) (Some ("0x" +:+ show_x (pe_machine pe))) (ef_size_bytes f) (ef_entropy f)
    (ef_ssdeep f) (ef_normalized f ++ normalized ++ imphash) (optional_hash layout)
    (match ordered with [] => None | _ => Some (sha256_hex_parts (sorted_set ordered)) end)
    (match pe_exports pe with [] => None | _ => Some (sha256_hex_parts exports) end)
    (ef_compiler_hint f) (ef_parse_limitation f)).

Definition parse_gnu_build_id (note : bytes) : outcome (option string) :=
  if len note <? 12 then mret None
  else
    namesz ← le_at note 0 4;
    descsz ← le_at note 4 8;
    note_type ← le_at note 8 12;
    if negb (note_type =? 3) then mret None
    else
      let desc_off := 12 + (namesz + 3) / 4 * 4 in
      if len note <? desc_off + descsz then mret None
      else d ← or_panic (slice note desc_off (desc_off + descsz)); mret (Some (hex_encode d)).

(** [&bytes[start..(start + size).min(len)]]; [usize] addition wraps. *)
Definition section_slice (bs : bytes) (start size : Z) : outcome bytes :=
  or_panic (slice bs start (Z.min (u64_wrap (start + size)) (len bs))).

Definition build_ids (bs : bytes) (elf : ELF) : outcome (list NormalizedFeature) :=
  ids ← map_outcome (fun sh =>
          if bool_decide (es_name sh = Some ".note.gnu.build-id"%string) then
            note ← section_slice bs (es_offset sh) (es_size sh);
            id ← parse_gnu_build_id note;
            mret (match id with Some i => [mkNormalizedFeature "elf_build_id" i] | None => [] end)
          else mret []) (elf_sections elf);
  mret (concat ids).

Definition comment_hints (bs : bytes) (elf : ELF) : outcome (list string) :=
  texts ← map_outcome (fun sh =>
            if bool_decide (es_name sh = Some ".comment"%string) then
              body ← section_slice bs (es_offset sh) (es_size sh);
              mret [trim (trim_end is_nul (trim_start is_nul (from_utf8_lossy body)))]
            else mret []) (elf_sections elf);
  mret (List.filter (fun t => negb (String.eqb t "")) (concat texts)).

Definition extract_elf (bs : bytes) (elf : ELF) (f : ExtractedFeatures) : outcome ExtractedFeatures :=
  ids ← build_ids bs elf;
  let undef := omap (fun s => str_lower <$> ey_name s)
                 (List.filter (fun s => (ey_shndx s =? 0) && negb (ey_name_ix s =? 0)) (elf_dynsyms elf)) in
  let has_imports := match elf_libraries elf, undef with [], [] => false | _, _ => true end in
  let parts := map str_lower (elf_libraries elf) ++ [";"%string] ++ undef in
  let import_hash := if has_imports then [mkNormalizedFeature "elf_import_hash" (sha256_hex_parts parts)] else [] in
  let layout := omap (fun sh => (fun name => name +:+ (":" +:+ (show_Z (es_size sh) +:+ (":" +:+ (show_x (es_flags sh) +:+ (":" +:+ show_Z (es_type sh)))))))
                       <$> es_name sh) (elf_sections elf) in
  hints ← comment_hints bs elf;
  mret (mkExtractedFeatures (ef_format f) (Some ("0x" +:+ show_x (elf_machine elf))) (ef_size_bytes f) (ef_entropy f)
    (ef_ssdeep f) (ef_normalized f ++ ids ++ import_hash) (optional_hash layout)
    (if has_imports then Some (sha256_hex_parts (sorted_set undef)) else ef_import_set f)
    (ef_export_set f) (match last hints with Some h => Some h | None => ef_compiler_hint f end) (ef_parse_limitation f)).

Definition extract_macho (m : MachO_) (f : ExtractedFeatures) : ExtractedFeatures :=
  let ordered := match mo_imports m with
                 | Some l => map (fun i => str_lower (fst i) +:+ ("." +:+ str_lower (snd i))) l
                 | None => [] end in
  let imphash := match ordered with [] => [] | _ => [mkNormalizedFeature "macho_import_hash" (sha256_hex_parts ordered)] end in
  let layout := map (fun s => trim_end is_nul (from_utf8_lossy (mg_segname s)) +:+ (":" +:+ (show_Z (mg_filesize s) +:+ (":" +:+ show_Z (mg_nsects s)))))
                    (mo_segments m) in
  mkExtractedFeatures (ef_format f) (Some ("0x" +:+ show_x (mo_cputype m))) (ef_size_bytes f) (ef_entropy f) (ef_ssdeep f)
    (ef_normalized f ++ imphash) (optional_hash layout)
    (match ordered with [] => ef_import_set f | _ => Some (sha256_hex_parts (sorted_set ordered)) end)
    (match mo_exports m with
     | Some (e :: es) => Some (sha256_hex_parts (sorted_set (map str_lower (e :: es))))
     | _ => ef_export_set f end)
    (ef_compiler_hint f) (ef_parse_limitation f).

Definition base_features (format : string) (limitation : option string) (bs : bytes) : outcome ExtractedFeatures :=
  ssdeep ← or_panic (fuzzy_hash bs);
  mret (mkExtractedFeatures format None (len bs) (shannon_entropy bs) ssdeep [] None None None None limitation).

Definition extract (bs : bytes) : outcome ExtractedFeatures :=
  class ← classify bs;
  match class with
  | Pe =>
      match pe_parse bs with
      | inr pe => f ← base_features "pe" None bs; extract_pe bs pe f
      | inl e => base_features "pe" (Some ("pe parse: " +:+ e)) bs
      end
  | Elf =>
      match elf_parse bs with
      | inr elf => f ← base_features "elf" None bs; extract_elf bs elf f
      | inl e => base_features "elf" (Some ("elf parse: " +:+ e)) bs
      end
  | MachO | MachOFat =>
      match mach_parse bs with
      | inr (Some m) => f ← base_features "macho" None bs; mret (extract_macho m f)
      | inr None => base_features "macho" (Some "fat macho: extraction covers thin binaries only"%string) bs
      | inl e => base_features "macho" (Some ("macho parse: " +:+ e)) bs
      end
  | _ => base_features "unknown" None bs
  end.
End extract.

(** ** The Authenticode-style hash *)

(** The bytes of [l], numbered from [i], whose number [skip] does not hold of. *)
Fixpoint select_bytes (skip : Z -> bool) (i : Z) (l : bytes) : bytes :=
  match l with
  | [] => []
  | b :: l' => if skip i then select_bytes skip (i + 1) l' else b :: select_bytes skip (i + 1) l'
  end.

Definition covered (ranges : list (Z * Z)) (i : Z) : bool := existsb (fun r => (fst r <=? i) && (i <? snd r)) ranges.

Lemma select_app f i l1 l2 : select_bytes f i (l1 ++ l2) = select_bytes f i l1 ++ select_bytes f (i + len l1) l2.
Proof.
  revert i. induction l1 as [|b l1 IH]; intros i; cbn [app select_bytes]; [by rewrite Z.add_0_r|].
  rewrite IH. replace (i + len (b :: l1)) with (i + 1 + len l1) by (unfold len; cbn [length]; lia). by destruct (f i).
Qed.

Lemma select_ext f g i l : (forall j, i <= j < i + len l -> f j = g j) -> select_bytes f i l = select_bytes g i l.
Proof.
  revert i. induction l as [|b l IH]; intros i Hfg; cbn [select_bytes]; [done|].
  assert (Hl : len (b :: l) = 1 + len l) by (unfold len; cbn [length]; lia). pose proof (len_nonneg l).
  rewrite (Hfg i) by lia. rewrite (IH (i + 1)); [done|]. intros j Hj. apply Hfg. lia.
Qed.

Lemma select_none i l : select_bytes (fun _ => false) i l = l.
Proof. revert i. induction l as [|b l IH]; intros i; cbn; [done|]. by rewrite IH. Qed.

Lemma select_all i l : select_bytes (fun _ => true) i l = [].
Proof. revert i. induction l as [|b l IH]; intros i; cbn; [done|]. by rewrite IH. Qed.

(** The bytes from [pos] on, selected. *)
Definition from_pos (f : Z -> bool) (pos : Z) (bs : bytes) : bytes := select_bytes f pos (drop (Z.to_nat pos) bs).

Lemma from_pos_split f bs a b :
  0 <= a <= b -> b <= len bs ->
  from_pos f a bs = select_bytes f a (take (Z.to_nat (b - a)) (drop (Z.to_nat a) bs)) ++ from_pos f b bs.
Proof.
  intros Hab Hb. unfold from_pos at 1. rewrite <- (take_drop (Z.to_nat (b - a)) (drop (Z.to_nat a) bs)) at 1.
  rewrite select_app. f_equal. unfold from_pos.
  assert (Hl : len (take (Z.to_nat (b - a)) (drop (Z.to_nat a) bs)) = b - a).
  { unfold len in *. rewrite length_take, length_drop. lia. }
  rewrite Hl, drop_drop. f_equal; [lia|]. f_equal. lia.
Qed.

Lemma taken_len (bs : bytes) a b : 0 <= a <= b -> b <= len bs -> len (take (Z.to_nat (b - a)) (drop (Z.to_nat a) bs)) = b - a.
Proof. intros Hab Hb. unfold len in *. rewrite length_take, length_drop. lia. Qed.

Lemma from_pos_keep f bs a b :
  0 <= a <= b -> b <= len bs -> (forall j, a <= j < b -> f j = false) ->
  from_pos f a bs = take (Z.to_nat (b - a)) (drop (Z.to_nat a) bs) ++ from_pos f b bs.
Proof.
  intros Hab Hb Hf. rewrite (from_pos_split f bs a b) by done. f_equal.
  rewrite (select_ext _ (fun _ => false)); [apply select_none|]. intros j. rewrite taken_len by done. intros Hj. apply Hf. lia.
Qed.

Lemma from_pos_skip f bs a b :
  0 <= a <= b -> b <= len bs -> (forall j, a <= j < b -> f j = true) -> from_pos f a bs = from_pos f b bs.
Proof.
  intros Hab Hb Hf. rewrite (from_pos_split f bs a b) by done.
  rewrite (select_ext _ (fun _ => true)); [by rewrite select_all|]. intros j. rewrite taken_len by done. intros Hj. apply Hf. lia.
Qed.

Lemma from_pos_ext f g bs a : 0 <= a -> (forall j, a <= j < len bs -> f j = g j) -> from_pos f a bs = from_pos g a bs.
Proof.
  intros Ha Hfg. unfold from_pos. apply select_ext. intros j Hj. apply Hfg.
  unfold len in *. rewrite length_drop in Hj. lia.
Qed.

Lemma covered_false ranges i : (forall r, In r ranges -> i < fst r) -> covered ranges i = false.
Proof.
  intros Hr. apply existsb_false_forall. intros r Hin. apply andb_false_iff. left. apply Z.leb_gt. auto.
Qed.

(** The loop hashes, in order, the bytes no range covers. *)
Lemma hash_ranges_spec bs ranges pos :
  StronglySorted (fun a b => range_le a b = true) ranges -> Forall (fun r => 0 <= fst r <= snd r) ranges ->
  0 <= pos <= len bs ->
  exists h last, hash_ranges bs ranges pos = Ret (h, last) /\ pos <= last <= len bs /\
    from_pos (covered ranges) pos bs = h ++ drop (Z.to_nat last) bs.
Proof.
  intros Hs Hok. revert pos. induction Hs as [|[start end_] rest Hs IH Hfirst]; intros pos Hpos; cbn [hash_ranges].
  { exists [], pos. split; [done|]. split; [lia|]. unfold from_pos. apply select_none. }
  inversion Hok as [|? ? [H0 H1] Hrest]; subst. cbn [fst snd] in *.
  assert (Hle : forall r, In r rest -> start <= fst r).
  { intros r Hr. rewrite List.Forall_forall in Hfirst. specialize (Hfirst r Hr). unfold range_le in Hfirst. cbn [fst] in Hfirst. lia. }
  destruct (Z.ltb_spec (len bs) start) as [Hbig|Hsmall].
  { exists [], pos. split; [done|]. split; [lia|]. unfold from_pos. cbn [app]. rewrite (select_ext _ (fun _ => false)).
    - apply select_none.
    - intros j Hj. unfold len in *. rewrite length_drop in Hj.
      apply covered_false. intros r [<-|Hr]; cbn [fst]; [lia|]. specialize (Hle r Hr). lia. }
  set (pos' := Z.max pos (Z.min end_ (len bs))).
  destruct (IH Hrest pos') as (h & last & Hh & Hlast & Hsel); [lia|].
  assert (Hpart : exists part, (if pos <? start then or_panic (slice bs pos (Z.min start (len bs))) else mret []) = Ret part /\
    from_pos (covered ((start, end_) :: rest)) pos bs = part ++ from_pos (covered ((start, end_) :: rest)) (Z.max pos start) bs).
  { destruct (Z.ltb_spec pos start) as [Hp|Hp].
    - rewrite Z.min_l by lia. rewrite slice_some by lia. eexists. split; [done|].
      replace (Z.max pos start) with start by lia. apply from_pos_keep; [lia|lia|].
      intros j Hj. apply covered_false. intros r [<-|Hr]; cbn [fst]; [lia|]. specialize (Hle r Hr). lia.
    - exists []. split; [done|]. by replace (Z.max pos start) with pos by lia. }
  destruct Hpart as (part & Hp & Hsplit). rewrite Hp. cbn [mbind outcome_mbind]. rewrite Hh. cbn [mbind outcome_mbind].
  exists (part ++ h), last. split; [done|]. split; [lia|]. rewrite Hsplit, <- app_assoc. f_equal. rewrite <- Hsel.
  (* up to pos' the first range covers, from there on it does not *)
  assert (Hcov : forall j, covered ((start, end_) :: rest) j = ((start <=? j) && (j <? end_)) || covered rest j) by done.
  destruct (Z.le_gt_cases (Z.max pos start) pos') as [Hm|Hm].
  - rewrite (from_pos_skip _ bs (Z.max pos start) pos').
    + apply from_pos_ext; [lia|]. intros j Hj. rewrite Hcov.
      destruct (Z.ltb_spec j end_); [lia|]. by rewrite andb_false_r.
    + lia.
    + lia.
    + intros j Hj. rewrite Hcov. destruct (Z.leb_spec start j), (Z.ltb_spec j end_); done || lia.
  - (* an empty range *)
    lia.
Qed.

Section extract_theorems.
  Context `{Sha256, HexCodec, Goblin, Log2}.

Lemma le_at_total (bs : bytes) i j : 0 <= i <= j -> j <= len bs -> exists v, le_at bs i j = Ret v /\ 0 <= v < 256 ^ (j - i).
Proof.
  intros Hi Hj. destruct (slice_is_some bs i j Hi Hj) as (w & Hw & Hl). unfold le_at. rewrite Hw.
  exists (from_le w). split; [done|]. rewrite <- Hl. apply from_le_range.
Qed.

Lemma authentihash_ranges_total (bs : bytes) :
  exists r, authentihash_ranges bs = Ret r /\
    (forall ranges, r = Some ranges -> Forall (fun x => 0 <= fst x <= snd x) ranges).
Proof.
  unfold authentihash_ranges. destruct (Z.ltb_spec (len bs) 0x40) as [Hs|Hs]; cbn [orb]; [eexists; split; [done|]; done|].
  destruct (negb _); [eexists; split; [done|]; done|].
  destruct (le_at_total bs 0x3c 0x40) as (pe_off & -> & Hpe); [lia|lia|]. cbn [mbind outcome_mbind].
  destruct (Z.ltb_spec (len bs) (pe_off + 0x18)) as [Hp|Hp].
  { cbn [mbind mret outcome_mbind outcome_mret]. eexists. split; [done|]. done. }
  destruct (slice_is_some bs pe_off (pe_off + 4)) as (sig & Hsig & _); [lia|lia|]. rewrite Hsig.
  cbn [or_panic mbind mret outcome_mbind outcome_mret].
  destruct (negb _); [eexists; split; [done|]; done|].
  destruct (Z.ltb_spec (len bs) (pe_off + 24 + 0x70)) as [Ho|Ho]; [eexists; split; [done|]; done|].
  destruct (le_at_total bs (pe_off + 24) (pe_off + 24 + 2)) as (magic & -> & _); [lia|lia|]. cbn [mbind outcome_mbind].
  destruct (if magic =? 0x10b then _ else _) as [dir_base|] eqn:Ed; [|eexists; split; [done|]; done].
  assert (Hd : pe_off + 24 + 96 <= dir_base) by (destruct (magic =? 0x10b); [|destruct (magic =? 0x20b)]; simplify_eq; lia).
  assert (Hbase : Forall (fun x : Z * Z => 0 <= fst x <= snd x) [(pe_off + 24 + 64, pe_off + 24 + 68); (dir_base + 32, dir_base + 40)])
    by (repeat constructor; cbn; lia).
  destruct (Z.leb_spec (dir_base + 40) (len bs)) as [Hc|Hc].
  2: { eexists; split; [done|]. by intros ? [= <-]. }
  destruct (le_at_total bs (dir_base + 32) (dir_base + 36)) as (off & -> & Hoff); [lia|lia|].
  destruct (le_at_total bs (dir_base + 36) (dir_base + 40)) as (l & -> & Hl); [lia|lia|]. cbn [mbind outcome_mbind].
  destruct ((0 <? l) && (off <? len bs)) eqn:El; (eexists; split; [done|]; intros ? [= <-]); [|done].
  apply andb_true_iff in El as [E1 E2]. apply Z.ltb_lt in E1, E2.
  repeat constructor; cbn [fst snd]; lia.
Qed.

Lemma range_le_total : le_total range_le.
Proof. intros [a b] [c d]. unfold range_le. cbn. destruct (Z.lt_trichotomy a c) as [?|[->|?]]; destruct (Z.le_gt_cases b d); lia. Qed.

Lemma range_le_trans : le_trans range_le.
Proof. intros [a b] [c d] [e f]. unfold range_le. cbn. lia. Qed.

Lemma covered_perm l1 l2 i : (forall x, In x l1 <-> In x l2) -> covered l1 i = covered l2 i.
Proof.
  intros Hin. apply eq_true_iff_eq. unfold covered. rewrite !existsb_exists. setoid_rewrite Hin. done.
Qed.

(** The Authenticode-style hash of any file: it never panics, there is none
    exactly when the headers are not those of a PE file, and otherwise it is the
    SHA-256 of the file's bytes, in order, without the CheckSum field, the
    certificate directory entry and the certificate table, however these
    overlap. *)
Theorem authentihash_spec (bs : bytes) :
  exists r, authentihash_ranges bs = Ret r /\
    pe_authentihash bs = Ret (ranges ← r; Some (sha256_hex (select_bytes (covered ranges) 0 bs))).
Proof.
  destruct (authentihash_ranges_total bs) as (r & Hr & Hok). exists r. split; [done|].
  unfold pe_authentihash. rewrite Hr. cbn [mbind outcome_mbind option_bind]. destruct r as [ranges|]; [|done].
  cbn [mbind option_bind]. specialize (Hok ranges eq_refl). unfold authentihash_bytes.
  destruct (hash_ranges_spec bs (sort_by range_le ranges) 0) as (h & last & Hh & Hlast & Hsel).
  - apply sort_by_sorted; [apply range_le_total|apply range_le_trans].
  - rewrite List.Forall_forall in *. intros x Hx. apply sort_by_in in Hx. auto.
  - split; [lia|apply len_nonneg].
  - rewrite Hh. cbn [mbind outcome_mbind]. unfold from_pos in Hsel. change (drop (Z.to_nat 0) bs) with bs in Hsel.
    rewrite <- (select_ext (covered (sort_by range_le ranges)) (covered ranges)), Hsel.
    + destruct (Z.ltb_spec last (len bs)) as [Hl|Hl].
      * rewrite slice_some by lia. cbn [or_panic mbind mret outcome_mbind outcome_mret].
        rewrite take_ge; [done|]. unfold len in *. rewrite length_drop. lia.
      * cbn [mbind mret outcome_mbind outcome_mret]. rewrite drop_ge; [done|]. unfold len in *. lia.
    + intros j _. apply covered_perm. intros x. apply sort_by_in.
Qed.

(** Signing a file, or any change confined to the excluded bytes, does not
    change its hash. *)
Theorem authentihash_unsigned_bytes (bs bs' : bytes) ranges :
  authentihash_ranges bs = Ret (Some ranges) -> authentihash_ranges bs' = Ret (Some ranges) ->
  length bs = length bs' -> (forall i, covered ranges i = false -> bs !! Z.to_nat i = bs' !! Z.to_nat i) ->
  pe_authentihash bs = pe_authentihash bs'.
Proof.
  intros Hr1 Hr2 Hlen Hsame. destruct (authentihash_spec bs) as (r & Hr & ->). destruct (authentihash_spec bs') as (r' & Hr' & ->).
  rewrite Hr1 in Hr. rewrite Hr2 in Hr'. injection Hr as <-. injection Hr' as <-.
  unfold mbind, option_bind. do 3 f_equal.
  assert (Hgen : forall k (l l' : bytes), length l = length l' ->
            (forall i, covered ranges (Z.of_nat k + Z.of_nat i) = false -> l !! i = l' !! i) ->
            select_bytes (covered ranges) (Z.of_nat k) l = select_bytes (covered ranges) (Z.of_nat k) l').
  { intros k l. revert k. induction l as [|b l IH]; intros k [|b' l'] Hl Hs; try done. cbn [select_bytes].
    replace (Z.of_nat k + 1) with (Z.of_nat (S k)) by lia.
    rewrite (IH (S k) l') by (try (cbn in Hl; lia); intros i Hi; apply (Hs (S i)); rewrite <- Hi; f_equal; lia).
    destruct (covered ranges (Z.of_nat k)) eqn:E; [done|]. f_equal.
    specialize (Hs 0%nat). rewrite Z.add_0_r in Hs. specialize (Hs E). by injection Hs. }
  apply (Hgen 0%nat); [done|]. intros i Hi. rewrite Z.add_0_l in Hi. specialize (Hsame _ Hi). by rewrite !Nat2Z.id in Hsame.
Qed.

(** A GNU build-id note is read inside its bounds whatever its header says: it
    never panics, and what it yields is the hexadecimal of a part of the note. *)
Theorem parse_gnu_build_id_total (note : bytes) :
  parse_gnu_build_id note = Ret None \/
  exists d pre post, parse_gnu_build_id note = Ret (Some (hex_encode d)) /\ note = pre ++ d ++ post /\ 12 <= len pre.
Proof.
  unfold parse_gnu_build_id. destruct (Z.ltb_spec (len note) 12) as [|Hl]; [by left|].
  destruct (le_at_total note 0 4) as (n & -> & Hn); [lia|lia|]. destruct (le_at_total note 4 8) as (d & -> & Hd); [lia|lia|].
  destruct (le_at_total note 8 12) as (t & -> & _); [lia|lia|]. cbn [mbind outcome_mbind].
  destruct (negb (t =? 3)); [by left|]. set (off := 12 + (n + 3) / 4 * 4).
  assert (Hoff : 12 <= off) by (unfold off; pose proof (Z.div_pos (n + 3) 4); lia).
  destruct (Z.ltb_spec (len note) (off + d)) as [|Ho]; [by left|]. right.
  rewrite slice_some by lia. replace (off + d - off) with d by lia.
  exists (take (Z.to_nat d) (drop (Z.to_nat off) note)), (take (Z.to_nat off) note), (drop (Z.to_nat d) (drop (Z.to_nat off) note)).
  split; [done|]. rewrite take_drop, take_drop. split; [done|]. unfold len in *. rewrite length_take. lia.
Qed.

Lemma sorted_set_perm l l' : Permutation l l' -> sorted_set l = sorted_set l'.
Proof.
  intros Hp. unfold sorted_set. f_equal. apply (sorted_perm_unique str_leb).
  - intros x y _ _. apply str_leb_antisym.
  - apply sort_by_sorted; [intros ? ?; apply str_leb_total|intros ? ? ?; apply str_leb_trans].
  - apply sort_by_sorted; [intros ? ?; apply str_leb_total|intros ? ? ?; apply str_leb_trans].
  - by rewrite !sort_by_perm.
Qed.

Lemma map_outcome_total {A B} (f : A -> outcome B) l : (forall x, In x l -> is_ret (f x) = true) -> is_ret (map_outcome f l) = true.
Proof.
  induction l as [|x l IH]; intros Hf; [done|]. cbn [map_outcome]. specialize (Hf x) as Hx.
  destruct (f x); [|specialize (Hx (or_introl eq_refl)); done..]. cbn [mbind outcome_mbind].
  assert (IHl : is_ret (map_outcome f l) = true) by (apply IH; intros y Hy; apply Hf; by right).
  by destruct (map_outcome f l).
Qed.

(** Extraction from a parsed PE file is total when the raw data of each section
    starts inside the file, and panics as soon as one section of a file starts
    past its end. *)
Theorem extract_pe_sections (bs : bytes) pe f :
  (Forall (fun s => 0 <= ps_pointer_to_raw_data s <= len bs /\ 0 <= ps_size_of_raw_data s) (pe_sections pe) ->
   is_ret (extract_pe bs pe f) = true) /\
  (Exists (fun s => len bs < ps_pointer_to_raw_data s) (pe_sections pe) -> extract_pe bs pe f = Panic).
Proof.
  unfold extract_pe. destruct (authentihash_spec bs) as (r & _ & ->). cbn [mbind outcome_mbind]. split.
  - intros Hs. assert (Hm : is_ret (map_outcome (pe_layout_part bs) (pe_sections pe)) = true).
    { apply map_outcome_total. intros s Hin. rewrite List.Forall_forall in Hs. specialize (Hs s Hin).
      unfold pe_layout_part. by rewrite slice_some by lia. }
    by destruct (map_outcome _ _).
  - intros Hs. assert (Hm : map_outcome (pe_layout_part bs) (pe_sections pe) = Panic); [|by rewrite Hm].
    induction Hs as [s l Hs|s l Hs IH]; cbn [map_outcome].
    + assert (E : pe_layout_part bs s = Panic); [|by rewrite E].
      unfold pe_layout_part. by rewrite (proj2 (slice_none _ _ _)) by lia.
    + rewrite IH. unfold pe_layout_part. by destruct (slice _ _ _).
Qed.

(** The import set does not depend on the order of the import table. *)
Theorem import_set_order_independent bs pe imports' f :
  Permutation (pe_imports pe) imports' ->
  let pe' := mkPE (pe_machine pe) imports' (pe_exports pe) (pe_sections pe) (pe_exception_data pe) in
  (g ← extract_pe bs pe f; Ret (ef_import_set g)) = (g ← extract_pe bs pe' f; Ret (ef_import_set g)).
Proof.
  intros Hp. cbn zeta. unfold extract_pe. cbn [pe_imports pe_exports pe_sections pe_machine].
  destruct (authentihash_spec bs) as (r & _ & ->). cbn [mbind outcome_mbind].
  destruct (map_outcome _ _) as [layout|e|]; cbn [mbind outcome_mbind mret outcome_mret ef_import_set]; [|done..].
  set (g := fun i => str_lower (pi_dll i) +:+ ("." +:+ str_lower (pi_name i))).
  assert (Hm : Permutation (map g (pe_imports pe)) (map g imports')) by by apply Permutation_map.
  rewrite (sorted_set_perm _ _ Hm). destruct (map g (pe_imports pe)) eqn:E1, (map g imports') eqn:E2; try done.
  - by apply Permutation_nil_l in Hm.
  - by apply Permutation_nil_r in Hm.
Qed.
End extract_theorems.
