(* ===== verification/Functions.v ===== *)
(** * Function-level features ([semantic/extract.rs], [features.rs],
      [suppress.rs], [func_index.rs], [triage.rs])

    Function spans are recovered from an executable's code sections, decoded
    into tokens, filtered and indexed.  The instruction decoder ([iced_x86]) is
    the class [X86Decoder]; the order in which a [HashSet] is iterated is the
    class [HashOrder]. *)

From S2P Require Import Prelude Machine Text Hash Cas Schema Fuzzy SimModel Features.
From Stdlib Require Import Strings.Byte Strings.Ascii SpecFloat Sorting.Sorted.

Open Scope Z_scope.

(** ** semantic/extract.rs *)

Definition MAX_FUNCTIONS : nat := 512.
Definition MIN_FUNCTION_GAP : Z := 8.

Inductive SpanSource : Type := SymbolSpan | PdataSpan | PrologueScan.

Record FunctionSpan := mkFunctionSpan {
  sp_offset : Z; sp_file_offset : Z; sp_size : Z; sp_name : option string; sp_source : SpanSource }.

Record CodeSection := mkCodeSection {
  cs_bytes : bytes; cs_file_offset : Z; cs_virtual_address : Z; cs_entropy : f64 }.

Definition PROLOGUES : list bytes :=
  [[x55; x48; x89; xe5]; [xf3; x0f; x1e; xfa]; [x48; x83; xec]; [x40; x53]; [x48; x89; x5c]].

Definition is_prologue (l : bytes) : bool := existsb (fun p => starts_with p l) PROLOGUES.

(** The loop of [prologue_scan] at offset [i], with [n] offsets to go and the
    last start found. *)
Fixpoint scan_from (n : nat) (i : Z) (l : bytes) (last : option Z) : list Z :=
  match n with
  | O => []
  | S n' =>
      if is_prologue l && match last with None => true | Some p => p + MIN_FUNCTION_GAP <=? i end
      then i :: scan_from n' (i + 1) (drop 1 l) (Some i)
      else scan_from n' (i + 1) (drop 1 l) last
  end.

Definition prologue_scan (bs : bytes) : list Z :=
  truncate MAX_FUNCTIONS (scan_from (length bs - 4) 0 bs None).

(** Each start with its end: the next start, or the end of the code. *)
Fixpoint span_ends (starts : list Z) (code_len : Z) : list (Z * Z) :=
  match starts with
  | [] => []
  | [off] => [(off, code_len)]
  | off :: (next :: _) as rest => (off, next) :: span_ends rest code_len
  end.

Definition spans_from_starts (starts : list Z) (code_len file_offset : Z) (source : SpanSource) : list FunctionSpan :=
  let starts := truncate MAX_FUNCTIONS (dedup (sort_by Z.leb starts)) in
  List.filter (fun s => 1 <=? sp_size s)
    (map (fun '(off, end_) => mkFunctionSpan off (file_offset + off) (Z.max 0 (end_ - off)) None source)
         (span_ends starts code_len)).

Section functions_for.
  Context `{Goblin, Log2}.

Definition EM_X86_64 : Z := 62.
Definition STT_FUNC : Z := 2.
Definition COFF_MACHINE_X86_64 : Z := 0x8664.
Definition CPU_TYPE_X86_64 : Z := 0x01000007.
Definition N_SECT : Z := 0xe.

Definition code_section (bs body : bytes) (file_offset addr : Z) : CodeSection :=
  mkCodeSection body file_offset addr (shannon_entropy body).

Definition scanned_spans (code : CodeSection) : list FunctionSpan :=
  spans_from_starts (prologue_scan (cs_bytes code)) (len (cs_bytes code)) (cs_file_offset code) PrologueScan.

(** Symbols of type function inside the section. *)
Definition elf_symbol_spans (code : CodeSection) (syms : list ElfSym) : list FunctionSpan :=
  omap (fun s =>
    if (ey_type s =? STT_FUNC) && (0 <? ey_size s) &&
       (cs_virtual_address code <=? ey_value s) &&
       (ey_value s <? u64_wrap (cs_virtual_address code + len (cs_bytes code)))
    then Some (mkFunctionSpan (ey_value s - cs_virtual_address code)
                 (u64_wrap (cs_file_offset code + (ey_value s - cs_virtual_address code)))
                 (ey_size s) (ey_name s) SymbolSpan)
    else None) syms.

Definition or_scanned (spans : list FunctionSpan) (code : CodeSection) : list FunctionSpan :=
  match spans with [] => scanned_spans code | _ => spans end.

Definition elf_functions (bs : bytes) : outcome (list (CodeSection * list FunctionSpan)) :=
  match elf_parse bs with
  | inl _ => mret []
  | inr elf =>
      if negb (elf_machine elf =? EM_X86_64) then mret []
      else
        map_outcome (fun sh =>
          body ← section_slice bs (es_offset sh) (es_size sh);
          let code := code_section bs body (es_offset sh) (es_addr sh) in
          mret (code, or_scanned (truncate MAX_FUNCTIONS (elf_symbol_spans code (elf_syms elf))) code))
          (List.filter (fun sh => bool_decide (es_name sh = Some ".text"%string)) (elf_sections elf))
  end.

(** [.pdata] entries: the address is used as the section's offset, and the
    [u32] difference of the addresses wraps. *)
Definition pdata_spans (code : CodeSection) (entries : list (option (Z * Z))) : list FunctionSpan :=
  omap (fun e =>
    '(begin_, end_) ← e;
    let size := wrap 32 (end_ - begin_) in
    if (begin_ <? len (cs_bytes code)) && (0 <? size)
    then Some (mkFunctionSpan begin_ (cs_file_offset code + begin_) (Z.min size (len (cs_bytes code) - begin_)) None PdataSpan)
    else None) entries.

Definition pe_functions (bs : bytes) : outcome (list (CodeSection * list FunctionSpan)) :=
  match pe_parse bs with
  | inl _ => mret []
  | inr pe =>
      if negb (pe_machine pe =? COFF_MACHINE_X86_64) then mret []
      else
        map_outcome (fun s =>
          body ← section_slice bs (ps_pointer_to_raw_data s) (ps_size_of_raw_data s);
          let code := code_section bs body (ps_pointer_to_raw_data s) (ps_virtual_address s) in
          let spans := match pe_exception_data pe with Some ex => truncate MAX_FUNCTIONS (pdata_spans code ex) | None => [] end in
          mret (code, or_scanned spans code))
          (List.filter (fun s => String.eqb (trim_end is_nul (from_utf8_lossy (ps_name s))) ".text") (pe_sections pe))
  end.

Definition macho_starts (code : CodeSection) (syms : list (option MachSym)) : list Z :=
  omap (fun s =>
    s ← s;
    if negb (String.eqb (my_name s) "") && my_global s && (my_n_type s =? N_SECT) &&
       (cs_virtual_address code <=? my_n_value s) &&
       (my_n_value s <? u64_wrap (cs_virtual_address code + len (cs_bytes code)))
    then Some (my_n_value s - cs_virtual_address code) else None) syms.

Definition macho_sized (code : CodeSection) (starts : list Z) : list FunctionSpan :=
  omap (fun '(off, end_) =>
    if off <? end_ then Some (mkFunctionSpan off (cs_file_offset code + off) (end_ - off) None SymbolSpan) else None)
    (span_ends (dedup (sort_by Z.leb starts)) (len (cs_bytes code))).

Definition macho_functions (bs : bytes) : list (CodeSection * list FunctionSpan) :=
  match macho_parse bs with
  | inl _ => []
  | inr m =>
      if negb (mo_cputype m =? CPU_TYPE_X86_64) then []
      else
        map (fun sec =>
          let code := code_section bs (mc_data sec) (mc_offset sec) (mc_addr sec) in
          match macho_starts code (mo_symbols m) with
          | [] => (code, scanned_spans code)
          | starts => (code, truncate MAX_FUNCTIONS (macho_sized code starts))
          end)
          (List.filter (fun sec => str_ends_with "__text" (trim_end is_nul (from_utf8_lossy (mc_sectname sec))))
             (flat_map mg_sections (mo_segments m)))
  end.

Definition functions_for (format : string) (bs : bytes) : outcome (list (CodeSection * list FunctionSpan)) :=
  if String.eqb format "elf" then elf_functions bs
  else if String.eqb format "pe" then pe_functions bs
  else if String.eqb format "macho" then mret (macho_functions bs)
  else mret [].
End functions_for.

(** ** semantic/features.rs *)

Inductive FlowControl : Type := FlowCall | FlowConditionalBranch | FlowUnconditionalBranch | FlowOther.

(** A decoded instruction; a mnemonic is its [Debug] name. *)
Record Insn := mkInsn { in_mnemonic : string; in_flow : FlowControl; in_ip : Z; in_next_ip : Z }.

Class X86Decoder : Type := x86_decode : bytes -> Z -> list Insn.

Definition SIGNATURE_BITS : nat := 256.

Record FunctionFeatures := mkFunctionFeatures {
  ff_signature : bytes; ff_token_hashes : list Z; ff_insn_count : Z; ff_block_estimate : Z;
  ff_call_count : Z; ff_is_thunk : bool }.

Definition is_significant (f : FunctionFeatures) : bool :=
  (significance_min_insns MODEL_V1 <=? ff_insn_count f) && negb (ff_is_thunk f).

Definition one_of (m : string) (l : list string) : bool := existsb (String.eqb m) l.

Definition family (m : string) : string :=
  if one_of m ["Mov"; "Movzx"; "Movsx"; "Movsxd"; "Cmove"; "Cmovne"; "Cmovl"; "Cmovle"; "Cmovg"; "Cmovge"; "Cmovb";
               "Cmovbe"; "Cmova"; "Cmovae"; "Cmovs"; "Cmovns"; "Cmovp"; "Cmovnp"; "Cmovo"; "Cmovno"; "Xchg"] then "mov"
  else if one_of m ["Add"; "Sub"; "Imul"; "Xor"; "And"; "Or"; "Shl"; "Shr"; "Sar"; "Inc"; "Dec"; "Neg"; "Not"; "Adc";
                    "Sbb"; "Mul"; "Div"; "Idiv"] then "arith"
  else if one_of m ["Cmp"; "Test"] then "cmp"
  else if one_of m ["Lea"] then "lea"
  else if one_of m ["Call"] then "call"
  else if one_of m ["Ret"] then "ret"
  else if one_of m ["Push"; "Pushfq"] then "push"
  else if one_of m ["Pop"; "Popfq"] then "pop"
  else if one_of m ["Nop"; "Pause"; "Int3"] then "nop"
  else if str_starts_with "J" m then "jcc"
  else if str_starts_with "Set" m then "set"
  else "other:" +:+ m.

Definition bucket (n : Z) : Z :=
  if n <=? 0 then 0 else if n <=? 2 then 1 else if n <=? 5 then 2 else if n <=? 10 then 3
  else if n <=? 20 then 4 else if n <=? 40 then 5 else 6.

(** The loop over the instructions: blocks, calls, branch targets and the
    number of instructions so far. *)
Definition flow_step (st : Z * Z * list Z * Z) (i : Insn) : Z * Z * list Z * Z :=
  let '(blocks, calls, targets, n) := st in
  let n := n + 1 in
  let calls := match in_flow i with FlowCall => calls + 1 | _ => calls end in
  let targets := match in_flow i with
                 | FlowConditionalBranch | FlowUnconditionalBranch => in_next_ip i :: targets
                 | _ => targets end in
  let blocks := if bool_decide (in_ip i ∈ targets) && (1 <? n) then blocks + 1 else blocks in
  (blocks, calls, targets, n).

Definition count_mnemonics (p : string -> bool) (ms : list string) : Z := len (List.filter p ms).

Record TokenInfo := mkTokenInfo { ti_tokens : list string; ti_insns : Z; ti_blocks : Z; ti_calls : Z; ti_thunk : bool }.

Definition feature_tokens `{X86Decoder} (bs : bytes) (addr : Z) : TokenInfo :=
  let insns := x86_decode bs addr in
  let ms := map in_mnemonic insns in
  let '(blocks, calls, _, _) := foldl flow_step (1, 0, [], 0) insns in
  let is_thunk := (len ms <=? 2) && forallb (fun m => one_of m ["Jmp"; "Ret"]%string) ms in
  let families := map family ms in
  let pairs := omap (fun w => match w with [a; b] => Some ("f2:" +:+ (a +:+ (":" +:+ b))) | _ => None end) (windows 2 families) in
  let counts := [
    count_mnemonics (str_starts_with "Mov") ms;
    count_mnemonics (fun m => one_of m ["Add"; "Sub"; "Imul"; "Xor"; "And"; "Or"; "Shl"; "Shr"; "Sar"]%string) ms;
    count_mnemonics (fun m => one_of m ["Cmp"; "Test"]%string) ms;
    count_mnemonics (str_starts_with "J") ms;
    count_mnemonics (fun m => one_of m ["Call"; "Ret"]%string) ms;
    count_mnemonics (fun m => str_starts_with "Push" m || str_starts_with "Pop" m) ms] in
  let mix := map (fun '(i, c) => "mix" +:+ (show_Z (Z.of_nat i) +:+ (":" +:+ show_Z (bucket c)))) (enumerate counts) in
  mkTokenInfo
    (map (fun f => "f1:" +:+ f) families ++ pairs ++ mix ++
     ["blocks:" +:+ show_Z (bucket blocks); "calls:" +:+ show_Z (bucket calls); "insns:" +:+ show_Z (bucket (len ms))])
    (len ms) blocks calls is_thunk.

(** Bit [bit] of a digest, least significant bit of a byte first. *)
Definition digest_bit (h : bytes) (bit : nat) : bool :=
  Z.testbit (u8 (nth (bit / 8) h x00)) (Z.of_nat (bit mod 8)).

Definition votes (digests : list bytes) (bit : nat) : Z :=
  foldl (fun v h => v + (if digest_bit h bit then 1 else -1)) 0 digests.

Definition signature `{Sha256} (tokens : list string) : bytes :=
  let digests := map (fun t => sha256_digest (str_bytes t)) tokens in
  map (fun i => byte_of_Z (foldl (fun acc k => if 0 <? votes digests (8 * i + k) then acc + 2 ^ Z.of_nat k else acc) 0 (seq 0 8)))
      (seq 0 (SIGNATURE_BITS / 8)).

Definition count_ones (z : Z) : Z := len (List.filter (fun k => Z.testbit z (Z.of_nat k)) (seq 0 8)).

Definition similarity (a b : bytes) : f64 :=
  let dist := foldl Z.add 0 (map (fun '(x, y) => count_ones (Z.lxor (u8 x) (u8 y))) (zip a b)) in
  f64_sub (f64_of_Z 1) (f64_div (f64_of_Z dist) (f64_of_Z 256)).

(** The merge loop of [jaccard]. *)
Fixpoint inter_count (a : list Z) : list Z -> Z :=
  fix go (b : list Z) : Z :=
    match a, b with
    | x :: a', y :: b' =>
        match x ?= y with
        | Lt => inter_count a' b
        | Gt => go b'
        | Eq => 1 + inter_count a' b'
        end
    | _, _ => 0
    end.

Definition jaccard (a b : list Z) : f64 :=
  match a, b with
  | [], [] => f64_of_Z 1
  | _, _ =>
      let inter := inter_count a b in
      let union := len a + len b - inter in
      if union =? 0 then f64_of_Z 1 else f64_div (f64_of_Z inter) (f64_of_Z union)
  end.

Section features_for.
  Context `{Sha256, X86Decoder}.

Definition token_hash (t : string) : Z := from_le (take 8 (sha256_digest (str_bytes t))).

Definition features_for (code : bytes) (span_file_offset : Z) : FunctionFeatures :=
  let t := feature_tokens code span_file_offset in
  mkFunctionFeatures (signature (ti_tokens t)) (dedup (sort_by Z.leb (map token_hash (ti_tokens t))))
    (ti_insns t) (ti_blocks t) (ti_calls t) (ti_thunk t).
End features_for.

(** ** semantic/suppress.rs *)

(** [semantic::edges::FunctionRow] *)
Record FunctionRow := mkFunctionRow {
  fr_offset : Z; fr_size : Z; fr_name : option string; fr_insn_count : Z; fr_token_hashes : list Z }.

Definition SUPPRESSOR_VERSION : string := "suppress:v1".

Definition NAME_PATTERNS : list string := [
  "crt"; "__libc"; "_start"; "__main"; "maincrt"; "scrt_common"; "gs_handler"; "security_check_cookie"; "findpeb";
  "memcpy"; "memmove"; "memset"; "memcmp"; "strlen"; "strcmp"; "strcpy"; "malloc"; "free"; "calloc"; "realloc";
  "operator new"; "operator delete"; "__chkstk"; "_chkstk"; "__security"; "guard_check"; "std::"; "boost::"].

Record SuppressionDecision := mkSuppressionDecision { sd_offset : Z; sd_suppressed : bool; sd_reason : option string }.

Definition decide_suppression (f : FunctionRow) : SuppressionDecision :=
  match (name ← fr_name f; List.find (fun pat => str_contains pat (str_lower name)) NAME_PATTERNS) with
  | Some pat => mkSuppressionDecision (fr_offset f) true (Some ("name_pattern:" +:+ pat))
  | None =>
      if (fr_insn_count f <? 12) && (len (fr_token_hashes f) <=? 4)
      then mkSuppressionDecision (fr_offset f) true (Some "tiny_generic_shape"%string)
      else mkSuppressionDecision (fr_offset f) false None
  end.

Fixpoint partition_fns (functions : list FunctionRow) : list FunctionRow * list SuppressionDecision :=
  match functions with
  | [] => ([], [])
  | f :: rest =>
      let d := decide_suppression f in
      let '(kept, decisions) := partition_fns rest in
      ((if sd_suppressed d then kept else f :: kept), d :: decisions)
  end.

(** ** semantic/func_index.rs *)

Definition FUNC_BAND_COUNT : Z := 4.
Definition FUNC_CANDIDATE_CAP : Z := 256.

(** The order in which a [HashSet] is iterated. *)
Class HashOrder : Type := hash_order : list (Z * string) -> list (Z * string).
Class HashOrderLaws `{HashOrder} : Prop := hash_order_perm : forall l, Permutation (hash_order l) l.

Definition function_bands (token_hashes : list Z) : list (Z * string) :=
  match token_hashes with
  | [] => []
  | first :: _ =>
      let fold := foldl Z.lxor 0 token_hashes in
      let mid := nth (length token_hashes / 2) token_hashes 0 in
      let n := len token_hashes in
      let len_bucket := if n <=? 4 then 0 else if n <=? 16 then 1 else if n <=? 64 then 2 else 3 in
      [(0, show_hex 16 first); (1, show_hex 16 (List.last token_hashes 0)); (2, show_hex 16 fold);
       (3, show_Z len_bucket +:+ (":" +:+ show_hex 16 mid))]
  end.

Definition fband_key (b : FunctionBand) : Uuid * Uuid * string * Z * Z :=
  (fb_tenant b, fb_artifact_id b, fb_version b, fb_band_idx b, fb_func_offset b).

(** [as i64] *)
Definition as_i64 (z : Z) : Z := signed 64 (wrap 64 z).

(** The bands of every function, packed as [ordinal * 4 + local index]. *)
Definition packed_bands (functions : list FunctionRow) : list (Z * string * Z) :=
  flat_map (fun '(i, f) =>
    map (fun '(local, key) => (Z.of_nat i * FUNC_BAND_COUNT + local, key, as_i64 (fr_offset f)))
        (function_bands (fr_token_hashes f)))
    (enumerate functions).

Definition store_function_bands (tenant artifact : Uuid) (functions : list FunctionRow) (version : string) : Op Srv unit :=
  delete_rows TFband (fun b => bool_decide (fb_tenant b = tenant) && bool_decide (fb_artifact_id b = artifact) &&
                               String.eqb (fb_version b) version) ;;
  op_for (packed_bands functions) (fun '(idx, key, offset) =>
    upsert TFband fband_key (mkFunctionBand tenant artifact version idx key offset)
      (fun b => mkFunctionBand (fb_tenant b) (fb_artifact_id b) (fb_version b) (fb_band_idx b) key (fb_func_offset b))).

Definition func_index_populated (tenant : Uuid) (version : string) : Op Srv bool :=
  gets (fun s => existsb (fun b => bool_decide (fb_tenant b = tenant) && String.eqb (fb_version b) version) (rows TFband s)).

(** [SELECT DISTINCT]: the first occurrence of each value. *)
Fixpoint distinct {A} `{EqDecision A} (l : list A) : list A :=
  match l with
  | [] => []
  | x :: l' => x :: List.filter (fun y => negb (bool_decide (y = x))) (distinct l')
  end.

Definition shares_fband (tenant artifact : Uuid) (version : string) (k : Z * string) (b : FunctionBand) : bool :=
  bool_decide (fb_tenant b = tenant) && String.eqb (fb_version b) version && String.eqb (fb_band_key b) (snd k) &&
  negb (bool_decide (fb_artifact_id b = artifact)) && (Z.rem (fb_band_idx b) FUNC_BAND_COUNT =? fst k).

(** The artifacts that share one band key. *)
Definition fband_artifacts (tenant artifact : Uuid) (version : string) (bands : list FunctionBand) (k : Z * string) : list Uuid :=
  distinct (map fb_artifact_id (List.filter (shares_fband tenant artifact version k) bands)).

Definition query_keys (functions : list FunctionRow) : list (Z * string) :=
  distinct (flat_map (fun f => map (fun '(i, k) => (Z.rem i FUNC_BAND_COUNT, k)) (function_bands (fr_token_hashes f))) functions).

Definition func_candidates `{HashOrder} (tenant artifact : Uuid) (functions : list FunctionRow) (version : string) :
    Op Srv (list Uuid) :=
  gets (fun s => collect_all FUNC_CANDIDATE_CAP
    (map (fband_artifacts tenant artifact version (rows TFband s)) (hash_order (query_keys functions))) []).

(** ** semantic/triage.rs *)

Definition TRIAGE_VERSION : string := "triage:v1".

Record SectionMeta := mkSectionMeta { sm_name : string; sm_bytes : bytes; sm_exec : bool; sm_writable : bool }.

Record TriageSignal := mkTriageSignal {
  ts_name : string; ts_value : f64; ts_threshold : f64; ts_fired : bool; ts_detail : string }.

Record TriageReport := mkTriageReport {
  tg_version : string; tg_format : string; tg_signals : list TriageSignal; tg_block_semantic : bool; tg_summary : string }.

Definition find_bytes (hay needle : bytes) : bool := existsb (fun w => bool_decide (w = needle)) (windows (length needle) hay).

Definition markers : list (bytes * string) := [
  (str_bytes "UPX0", "upx_section"%string); (str_bytes "UPX1", "upx_section"%string); (str_bytes "UPX!", "upx_magic"%string);
  (str_bytes ".nsp0", "nspack"%string); (str_bytes "PEC2", "pecompact"%string)].

Section triage.
  Context `{Log2, Goblin}.

(** The executable, non-empty sections: what the entropy loop reads. *)
Definition code_secs (sections : list SectionMeta) : list SectionMeta :=
  List.filter (fun s => sm_exec s && negb (bool_decide (sm_bytes s = []))) sections.

Definition rwx_secs (sections : list SectionMeta) : list SectionMeta := List.filter sm_writable (code_secs sections).

Definition mean_code_entropy (whole : bytes) (sections : list SectionMeta) : f64 :=
  let secs := code_secs sections in
  let code_bytes := foldl (fun n s => n + len (sm_bytes s)) 0 secs in
  let weighted := foldl (fun acc s => f64_add acc (f64_mul (shannon_entropy (sm_bytes s)) (f64_of_Z (len (sm_bytes s)))))
                    (f64_of_Z 0) secs in
  if code_bytes =? 0 then shannon_entropy whole else f64_div weighted (f64_of_Z code_bytes).

Definition max_section_entropy (sections : list SectionMeta) : f64 :=
  foldl (fun m s => f64_max m (shannon_entropy (sm_bytes s))) (f64_of_Z 0) (code_secs sections).

Definition found_markers (whole : bytes) : list (bytes * string) := List.filter (fun m => find_bytes whole (fst m)) markers.

Definition triage_signals (whole : bytes) (sections : list SectionMeta) (import_count : Z) (has_overlay : bool) :
    list TriageSignal :=
  let limit := packed_entropy_limit MODEL_V1 in
  let mean := mean_code_entropy whole sections in
  let max := max_section_entropy sections in
  map (fun s => mkTriageSignal "exec_writable_section" (f64_of_Z 1) (f64_of_Z 0) true
                  ("section " +:+ (sm_name s +:+ " is executable and writable"))) (rwx_secs sections) ++
  [mkTriageSignal "mean_code_entropy" mean limit (f64_gt mean limit) ("mean code entropy " +:+ show_f64_fixed 2 mean);
   mkTriageSignal "max_section_entropy" max (f64_add limit (f64_lit 3 10)) (f64_gt max (f64_add limit (f64_lit 3 10)))
     ("max section entropy " +:+ show_f64_fixed 2 max);
   mkTriageSignal "import_sparsity" (f64_of_Z import_count) (f64_of_Z 3)
     ((0 <? import_count) && f64_lt (f64_of_Z import_count) (f64_of_Z 3) && f64_gt mean (f64_lit 65 10))
     (show_Z import_count +:+ " imports with elevated entropy");
   mkTriageSignal "overlay_present" (if has_overlay then f64_of_Z 1 else f64_of_Z 0) (f64_lit 5 10)
     (has_overlay && f64_gt mean (f64_lit 68 10))
     (if has_overlay then "file has overlay past section data" else "no overlay")] ++
  map (fun m => mkTriageSignal "packer_marker" (f64_of_Z 1) (f64_lit 5 10) true (snd m)) (found_markers whole).

Definition triage (format : string) (whole : bytes) (sections : list SectionMeta) (import_count : Z) (has_overlay : bool) :
    TriageReport :=
  let signals := triage_signals whole sections import_count has_overlay in
  let fired := List.filter ts_fired signals in
  let fires name := existsb (fun s => String.eqb (ts_name s) name && ts_fired s) signals in
  let entropy_block := fires "mean_code_entropy"%string in
  let marker_block := fires "packer_marker"%string && (2 <=? len fired) in
  let block := entropy_block || marker_block ||
    (0 <? len (rwx_secs sections)) && f64_gt (mean_code_entropy whole sections) (f64_lit 65 10) in
  mkTriageReport TRIAGE_VERSION format signals block
    (match fired with
     | [] => "no packing signals"%string
     | _ => str_join "; " (map (fun s => ts_name s +:+ ("=" +:+ ts_detail s)) fired)
     end).

(** [bytes[start..end].to_vec()] when [start < end]. *)
Definition section_body (bs : bytes) (start end_ : Z) : outcome bytes :=
  if start <? end_ then or_panic (slice bs start end_) else mret [].

Definition pe_sections_meta (bs : bytes) : outcome (list SectionMeta * Z * bool) :=
  match pe_parse bs with
  | inl _ => mret ([], 0, false)
  | inr pe =>
      let end_of s := Z.min (ps_pointer_to_raw_data s + ps_size_of_raw_data s) (len bs) in
      secs ← map_outcome (fun s =>
        body ← section_body bs (ps_pointer_to_raw_data s) (end_of s);
        mret (mkSectionMeta (trim_end is_nul (from_utf8_lossy (ps_name s))) body
                (negb (Z.land (ps_characteristics s) 0x20000000 =? 0)) (negb (Z.land (ps_characteristics s) 0x80000000 =? 0))))
        (pe_sections pe);
      let last_end := foldl (fun m s => Z.max m (end_of s)) 0 (pe_sections pe) in
      mret (secs, len (pe_imports pe), (0 <? last_end) && (last_end + 64 <? len bs))
  end.

Definition elf_sections_meta (bs : bytes) : outcome (list SectionMeta * Z * bool) :=
  match elf_parse bs with
  | inl _ => mret ([], 0, false)
  | inr elf =>
      secs ← map_outcome (fun sh =>
        body ← section_body bs (es_offset sh) (Z.min (u64_wrap (es_offset sh + es_size sh)) (len bs));
        mret (mkSectionMeta (default ""%string (es_name sh)) body (es_executable sh) (es_writable sh)))
        (elf_sections elf);
      mret (secs, Z.min (len (elf_dynsyms elf)) 64, false)
  end.

Definition sections_from_bytes (format : string) (bs : bytes) : outcome (list SectionMeta * Z * bool) :=
  if String.eqb format "pe" then pe_sections_meta bs
  else if String.eqb format "elf" then elf_sections_meta bs
  else mret ([], 0, false).
End triage.

(** ** Function starts *)

Definition prologue_at (bs : bytes) (i : Z) : Prop := is_prologue (drop (Z.to_nat i) bs) = true.

Definition gap_ok (last : option Z) (i : Z) : Prop := match last with None => True | Some p => p + MIN_FUNCTION_GAP <= i end.

Lemma scan_from_spec bs n i last :
  0 <= i -> (forall p, last = Some p -> p < i) ->
  let r := scan_from n i (drop (Z.to_nat i) bs) last in
  StronglySorted (fun a b => a + MIN_FUNCTION_GAP <= b) r /\
  (forall x, In x r -> gap_ok last x /\ i <= x < i + Z.of_nat n /\ prologue_at bs x) /\
  (forall x, i <= x < i + Z.of_nat n -> prologue_at bs x ->
     exists s, (In s r \/ last = Some s) /\ s <= x < s + MIN_FUNCTION_GAP).
Proof.
  revert i last. induction n as [|n IH]; intros i last Hi Hlast; cbn zeta; cbn [scan_from].
  { split; [constructor|]. split; [done|]. intros x Hx. lia. }
  rewrite drop_drop. replace (Z.to_nat i + 1)%nat with (Z.to_nat (i + 1)) by lia.
  destruct (is_prologue (drop (Z.to_nat i) bs)) eqn:Ep; cbn [andb].
  - destruct (match last with None => true | Some p => p + MIN_FUNCTION_GAP <=? i end) eqn:Eg.
    + destruct (IH (i + 1) (Some i)) as (S1 & S2 & S3); [lia|intros p [= <-]; lia|].
      assert (Hg : gap_ok last i) by (destruct last; [by apply Z.leb_le in Eg|done]).
      split; [|split].
      * constructor; [done|]. apply List.Forall_forall. intros x Hx. by apply S2 in Hx as [Hx _].
      * intros x [<-|Hx]; [split; [done|]; split; [lia|done]|]. apply S2 in Hx as (Hx & ? & ?). cbn in Hx.
        split; [|split; [lia|done]]. destruct last as [p|]; [|done]. cbn in *. specialize (Hlast p eq_refl).
        unfold MIN_FUNCTION_GAP in *. lia.
      * intros x Hx Hp. destruct (decide (x = i)) as [->|Hne].
        -- exists i. split; [left; by left|]. unfold MIN_FUNCTION_GAP. lia.
        -- destruct (S3 x) as (s & [Hs|[= ->]] & Hr); [lia|done| |]; [exists s|exists s]; (split; [|done]); left; [by right|by left].
    + destruct last as [p|]; [|done]. apply Z.leb_gt in Eg.
      destruct (IH (i + 1) (Some p)) as (S1 & S2 & S3); [lia|intros q [= <-]; specialize (Hlast p eq_refl); lia|].
      split; [done|]. split.
      * intros x Hx. apply S2 in Hx as (? & ? & ?). split; [done|]. split; [lia|done].
      * intros x Hx Hp. destruct (decide (x = i)) as [->|Hne]; [|apply S3; [lia|done]].
        exists p. split; [by right|]. specialize (Hlast p eq_refl). lia.
  - destruct (IH (i + 1) last) as (S1 & S2 & S3); [lia|intros q Hq; specialize (Hlast q Hq); lia|].
    split; [done|]. split.
    + intros x Hx. apply S2 in Hx as (? & ? & ?). split; [done|]. split; [lia|done].
    + intros x Hx Hp. destruct (decide (x = i)) as [->|Hne]; [unfold prologue_at in Hp; congruence|]. apply S3; [lia|done].
Qed.

Lemma sorted_take {A} (R : A -> A -> Prop) n l : StronglySorted R l -> StronglySorted R (take n l).
Proof.
  intros Hs. revert n. induction Hs as [|x l Hl IH Hx]; intros [|n]; cbn; try constructor; [apply IH|].
  rewrite List.Forall_forall in *. intros y Hy. apply Hx. rewrite <- (take_drop n l). apply in_or_app. by left.
Qed.

(** The prologue scan: at most 512 starts, in increasing order and at least
    eight bytes apart, each at a prologue; and unless 512 were found, every
    prologue of the scanned range is a start or follows one by less than eight
    bytes. *)
Theorem prologue_scan_spec (bs : bytes) :
  let r := prologue_scan bs in
  (length r <= MAX_FUNCTIONS)%nat /\ StronglySorted (fun a b => a + MIN_FUNCTION_GAP <= b) r /\
  (forall x, In x r -> 0 <= x < len bs - 4 /\ prologue_at bs x) /\
  ((length r < MAX_FUNCTIONS)%nat -> forall x, 0 <= x < len bs - 4 -> prologue_at bs x ->
     exists s, In s r /\ s <= x < s + MIN_FUNCTION_GAP).
Proof.
  cbn zeta. unfold prologue_scan, truncate.
  destruct (scan_from_spec bs (length bs - 4) 0 None) as (S1 & S2 & S3); [lia|done|]. change (drop (Z.to_nat 0) bs) with bs in *.
  set (r := scan_from (length bs - 4) 0 bs None) in *.
  split; [rewrite length_take; lia|]. split; [by apply sorted_take|]. split.
  - intros x Hx. assert (Hin : In x r) by (rewrite <- (take_drop MAX_FUNCTIONS r); apply in_or_app; by left).
    apply S2 in Hin as (_ & ? & ?). split; [|done]. unfold len. lia.
  - intros Hlen x Hx Hp. destruct (S3 x) as (s & [Hs|?] & Hr); [unfold len in Hx; lia|done| |done].
    exists s. split; [|done]. rewrite length_take in Hlen. rewrite take_ge; [done|]. lia.
Qed.

(** *** Spans *)

Lemma sort_dedup_sorted l : StronglySorted Z.lt (dedup (sort_by Z.leb l)).
Proof.
  apply dedup_sorted_nodup; [lia|lia|].
  assert (Hs : StronglySorted (fun a b => Z.leb a b = true) (sort_by Z.leb l)) by (apply sort_by_sorted; [intros ??; lia|intros ???; lia]).
  induction Hs as [|x k Hk IH Hx]; constructor; [done|]. eapply Forall_impl; [exact Hx|]. cbn. lia.
Qed.

(** Consecutive starts up to [code_len]: the span of each ends where the next
    one starts. *)
Lemma span_ends_spec starts code_len :
  StronglySorted Z.lt starts -> (forall x, In x starts -> x <= code_len) ->
  (forall o e, In (o, e) (span_ends starts code_len) -> In o starts /\ o <= e <= code_len) /\
  StronglySorted (fun p q => snd p <= fst q) (span_ends starts code_len) /\
  (forall x, (exists o, In o starts /\ o <= x) -> x < code_len ->
     exists o e, In (o, e) (span_ends starts code_len) /\ o <= x < e).
Proof.
  induction 1 as [|o starts Hs IH Ho]; intros Hle; cbn [span_ends].
  { split; [done|]. split; [constructor|]. by intros x (o & [] & _). }
  destruct starts as [|n starts].
  { split; [|split].
    - intros o' e [[= <- <-]|[]]. split; [by left|]. specialize (Hle o (or_introl eq_refl)). lia.
    - repeat constructor.
    - intros x (o' & [<-|[]] & Hx) Hc. exists o, code_len. split; [by left|]. lia. }
  destruct IH as (H1 & H2 & H3); [intros x Hx; apply Hle; by right|].
  assert (Hon : o < n) by (inversion Ho; auto). assert (Hn : n <= code_len) by (apply Hle; right; by left).
  split; [|split].
  - intros o' e [[= <- <-]|Hin]; [split; [by left|lia]|]. apply H1 in Hin as [? ?]. split; [by right|done].
  - constructor; [done|]. apply List.Forall_forall. intros [o' e'] Hin. cbn [fst snd]. apply H1 in Hin as [[<-|Hin] _]; [lia|].
    inversion Hs as [|? ? _ Hf]; subst. rewrite List.Forall_forall in Hf. specialize (Hf o' Hin). lia.
  - intros x (o' & Ho' & Hx) Hc. destruct (Z.lt_ge_cases x n) as [Hlt|Hge].
    + exists o, n. split; [by left|]. split; [|done]. destruct Ho' as [<-|Ho']; [done|]. rewrite List.Forall_forall in Ho.
      specialize (Ho o' Ho'). lia.
    + destruct (H3 x) as (o2 & e2 & Hin & Hr); [exists n; split; [by left|done]|done|]. exists o2, e2. split; [by right|done].
Qed.

Definition span_end (s : FunctionSpan) : Z := sp_offset s + sp_size s.

Lemma sorted_filter {A} (R : A -> A -> Prop) p l : StronglySorted R l -> StronglySorted R (List.filter p l).
Proof.
  induction 1 as [|x l Hl IH Hx]; cbn; [constructor|]. destruct (p x); [|done]. constructor; [done|].
  rewrite List.Forall_forall in *. intros y [Hy _]%filter_In. auto.
Qed.

Lemma sorted_map {A B} (R : B -> B -> Prop) (f : A -> B) l :
  StronglySorted (fun a b => R (f a) (f b)) l -> StronglySorted R (map f l).
Proof. induction 1 as [|x l Hl IH Hx]; cbn; constructor; [done|]. by apply Forall_map. Qed.

(** Spans built from starts inside the code: each lies inside the code and is
    not empty, they are in order and do not overlap, and unless there were more
    than 512 starts they cover every byte from the first start on. *)
Theorem spans_from_starts_tile starts code_len file_offset source :
  (forall x, In x starts -> 0 <= x <= code_len) ->
  let spans := spans_from_starts starts code_len file_offset source in
  (forall s, In s spans -> 0 <= sp_offset s /\ 1 <= sp_size s /\ span_end s <= code_len /\
     sp_file_offset s = file_offset + sp_offset s) /\
  StronglySorted (fun a b => span_end a <= sp_offset b) spans /\
  ((length starts <= MAX_FUNCTIONS)%nat -> forall x, (exists o, In o starts /\ o <= x) -> x < code_len ->
     exists s, In s spans /\ sp_offset s <= x < span_end s).
Proof.
  intros Hin. cbn zeta. unfold spans_from_starts, truncate.
  set (sorted := dedup (sort_by Z.leb starts)).
  assert (Hs : StronglySorted Z.lt (take MAX_FUNCTIONS sorted)) by apply sorted_take, sort_dedup_sorted.
  assert (Hsub : forall x, In x (take MAX_FUNCTIONS sorted) -> In x starts).
  { intros x Hx. assert (Hx' : In x sorted) by (rewrite <- (take_drop MAX_FUNCTIONS sorted); apply in_or_app; by left).
    by apply dedup_in, sort_by_in in Hx'. }
  destruct (span_ends_spec (take MAX_FUNCTIONS sorted) code_len Hs) as (H1 & H2 & H3).
  { intros x Hx. apply Hsub, Hin in Hx. lia. }
  split; [|split].
  - intros s [Hs1 Hsz]%filter_In. apply in_map_iff in Hs1 as ([o e] & <- & Hoe). apply H1 in Hoe as [Ho He].
    apply Hsub, Hin in Ho. unfold span_end. cbn in *. apply Z.leb_le in Hsz. lia.
  - apply sorted_filter, sorted_map. clear - H2 H1. revert H1. induction H2 as [|[o e] l Hl IH Hoe]; intros H1; constructor.
    + apply IH. intros o' e' Hin. by apply H1; right.
    + apply List.Forall_forall. intros [o' e'] Hin. rewrite List.Forall_forall in Hoe. specialize (Hoe _ Hin).
      destruct (H1 o e) as [_ He]; [by left|]. unfold span_end. cbn in *. lia.
  - intros Hlen x (o0 & Ho0 & Hox) Hx. assert (Hall : take MAX_FUNCTIONS sorted = sorted).
    { apply take_ge. etransitivity; [|exact Hlen]. unfold sorted. rewrite <- (sort_by_length Z.leb starts).
      apply dedup_length. }
    destruct (H3 x) as (o & e & Hoe & Hr); [|done|].
    { exists o0. split; [|done]. rewrite Hall. unfold sorted. by apply dedup_in, sort_by_in. }
    exists (mkFunctionSpan o (file_offset + o) (Z.max 0 (e - o)) None source). split; [|unfold span_end; cbn; lia].
    apply filter_In. split; [|cbn; apply Z.leb_le; lia]. apply in_map_iff. by exists (o, e).
Qed.

(** ** Token sets *)

Lemma inter_count_sym a b : inter_count a b = inter_count b a.
Proof.
  revert b. induction a as [|x a IHa]; intros b; [by destruct b|]. induction b as [|y b IHb]; [done|].
  cbn [inter_count]. rewrite (Z.compare_antisym x y). destruct (x ?= y); cbn [CompOpp].
  - by rewrite IHa.
  - by rewrite IHa.
  - exact IHb.
Qed.

Definition elem_count (a b : list Z) : Z := len (List.filter (fun x => bool_decide (x ∈ b)) a).

Lemma sorted_head_min x (l : list Z) y : StronglySorted Z.lt (x :: l) -> y ∈ x :: l -> x <= y.
Proof.
  intros Hs Hy. apply list_elem_of_In in Hy. inversion Hs as [|? ? _ Hx]; subst. destruct Hy as [->|Hy]; [lia|].
  rewrite List.Forall_forall in Hx. specialize (Hx y Hy). lia.
Qed.

Lemma elem_count_cons x a b : elem_count (x :: a) b = (if bool_decide (x ∈ b) then 1 else 0) + elem_count a b.
Proof. unfold elem_count, len. cbn [List.filter]. case_bool_decide; cbn [length]; lia. Qed.

Lemma elem_count_ext a b b' : (forall x, In x a -> (x ∈ b <-> x ∈ b')) -> elem_count a b = elem_count a b'.
Proof.
  intros Hb. unfold elem_count. f_equal. apply List.filter_ext_in. intros x Hx. by apply bool_decide_ext, Hb.
Qed.

(** On sorted sets the merge loop counts the common elements. *)
Lemma inter_count_spec a b : StronglySorted Z.lt a -> StronglySorted Z.lt b -> inter_count a b = elem_count a b.
Proof.
  intros Ha. revert b. induction Ha as [|x a Ha IHa Hx]; intros b Hb; [by destruct b|].
  induction Hb as [|y b Hb IHb Hy].
  { unfold elem_count. rewrite filter_nil_forall; [done|]. intros z _. apply bool_decide_eq_false. set_solver. }
  assert (Hxa : StronglySorted Z.lt (x :: a)) by by constructor. assert (Hyb : StronglySorted Z.lt (y :: b)) by by constructor.
  cbn [inter_count]. destruct (Z.compare_spec x y) as [->|Hlt|Hgt].
  - rewrite IHa by done. rewrite elem_count_cons, bool_decide_true by by left. f_equal. apply elem_count_ext.
    intros z Hz. rewrite List.Forall_forall in Hx. specialize (Hx z Hz). split; [by right|]. intros [->|?]%elem_of_cons; [lia|done].
  - rewrite IHa by done. rewrite elem_count_cons, bool_decide_false; [lia|]. intros Hin.
    pose proof (sorted_head_min _ _ _ Hyb Hin). lia.
  - change (inter_count (x :: a) b = elem_count (x :: a) (y :: b)). rewrite IHb. apply elem_count_ext.
    intros z Hz. assert (Hxz : x <= z) by (eapply sorted_head_min; [exact Hxa|by apply list_elem_of_In]).
    split; [by right|]. intros [->|?]%elem_of_cons; [lia|done].
Qed.

(** The token hashes of a function are a strictly increasing list of 64-bit
    words, as [jaccard] and the index need. *)
Theorem features_token_set `{Sha256Laws, X86Decoder} code off :
  StronglySorted Z.lt (ff_token_hashes (features_for code off)) /\
  Forall (fun h => 0 <= h < 2 ^ 64) (ff_token_hashes (features_for code off)) /\
  ff_token_hashes (features_for code off) <> [] /\ length (ff_signature (features_for code off)) = 32%nat.
Proof.
  unfold features_for. cbn [ff_token_hashes ff_signature]. split; [apply sort_dedup_sorted|]. split; [|split].
  - apply List.Forall_forall. intros h Hh. apply dedup_in, sort_by_in, in_map_iff in Hh as (t & <- & _).
    unfold token_hash. pose proof (from_le_range (take 8 (sha256_digest (str_bytes t)))) as Hr.
    assert (Hl : len (take 8 (sha256_digest (str_bytes t))) = 8) by (unfold len; rewrite length_take, sha256_length; lia).
    rewrite Hl in Hr. exact Hr.
  - set (t := feature_tokens code off). assert (Hne : In ("insns:" +:+ show_Z (bucket (ti_insns t))) (ti_tokens t)).
    { unfold t, feature_tokens. destruct (foldl flow_step _ _) as [[[b c] ?] ?]. cbn [ti_tokens ti_insns].
      do 3 (apply in_or_app; right). right. right. by left. }
    apply (in_map token_hash), (sort_by_in Z.leb), dedup_in in Hne. intros Hnil. by rewrite Hnil in Hne.
  - unfold signature. by rewrite length_map, length_seq.
Qed.

(** [jaccard] is symmetric, and on sorted sets it is the size of the
    intersection over the size of the union, 1 for two empty sets. *)
Theorem jaccard_spec a b :
  jaccard a b = jaccard b a /\
  (StronglySorted Z.lt a -> StronglySorted Z.lt b ->
   let inter := len (List.filter (fun x => bool_decide (x ∈ b)) a) in
   let union := len (dedup (sort_by Z.leb (a ++ b))) in
   union = len a + len b - inter /\
   jaccard a b = if union =? 0 then f64_of_Z 1 else f64_div (f64_of_Z inter) (f64_of_Z union)).
Proof.
  split.
  - unfold jaccard. rewrite (inter_count_sym b a). rewrite (Z.add_comm (len b)). by destruct a, b.
  - intros Ha Hb. cbn zeta. rewrite <- (inter_count_spec a b Ha Hb) at 2. 
    assert (Hu : len (dedup (sort_by Z.leb (a ++ b))) = len a + len b - elem_count a b).
    { assert (Hnda : NoDup a) by by apply sorted_lt_nodup. assert (Hndb : NoDup b) by by apply sorted_lt_nodup.
      assert (Hp : Permutation (dedup (sort_by Z.leb (a ++ b))) (List.filter (fun x => negb (bool_decide (x ∈ b))) a ++ b)).
      { apply NoDup_Permutation.
        - apply sorted_lt_nodup, sort_dedup_sorted.
        - apply NoDup_app. split; [by apply nodup_list_filter|]. split; [|done]. intros x Hx Hxb.
          apply list_elem_of_In, filter_In in Hx as [_ Hx]. by rewrite bool_decide_true in Hx.
        - intros x. rewrite !list_elem_of_In, dedup_in, sort_by_in, !in_app_iff, filter_In.
          destruct (decide (x ∈ b)) as [Hx|Hx]; [rewrite bool_decide_true by done|rewrite bool_decide_false by done];
            rewrite list_elem_of_In in Hx; naive_solver. }
      unfold len at 1. rewrite (Permutation_length Hp), length_app. unfold elem_count, len.
      pose proof (List.filter_length (fun x => bool_decide (x ∈ b)) a). lia. }
    split; [exact Hu|]. rewrite Hu. unfold jaccard. rewrite (inter_count_spec a b Ha Hb).
    destruct a, b; done.
Qed.

(** ** Suppression *)

(** Every function gets one decision, in order; the functions kept for scoring
    are exactly those not suppressed, in order.  A function whose lower-cased
    name contains a pattern is suppressed for its name, whatever its shape; any
    other one exactly when it is tiny. *)
Theorem partition_spec functions :
  partition_fns functions = (List.filter (fun f => negb (sd_suppressed (decide_suppression f))) functions,
                             map decide_suppression functions) /\
  forall f, In f functions ->
    let named := exists name pat, fr_name f = Some name /\ In pat NAME_PATTERNS /\ exists a b, str_lower name = a +:+ (pat +:+ b) in
    let d := decide_suppression f in
    sd_offset d = fr_offset f /\
    (named -> sd_suppressed d = true /\ exists pat, sd_reason d = Some ("name_pattern:" +:+ pat) /\ In pat NAME_PATTERNS) /\
    (~ named -> sd_suppressed d = ((fr_insn_count f <? 12) && (len (fr_token_hashes f) <=? 4)) /\
                sd_reason d = if sd_suppressed d then Some "tiny_generic_shape"%string else None).
Proof.
  split.
  - induction functions as [|f l IH]; [done|]. cbn [partition_fns map List.filter]. rewrite IH.
    by destruct (sd_suppressed (decide_suppression f)).
  - intros f _. cbn zeta. unfold decide_suppression.
    assert (Hfind : forall name, match List.find (fun pat => str_contains pat (str_lower name)) NAME_PATTERNS with
      | Some pat => In pat NAME_PATTERNS
      | None => forall pat, In pat NAME_PATTERNS -> ~ exists a b, str_lower name = a +:+ (pat +:+ b) end).
    { intros name. destruct (List.find _ NAME_PATTERNS) as [pat|] eqn:E; [by apply find_some in E as [? _]|].
      intros pat Hp Hc. apply str_contains_spec in Hc. pose proof (find_none _ _ E pat Hp) as Hn. cbn beta in Hn. congruence. }
    assert (Hfound : forall name pat, In pat NAME_PATTERNS -> (exists a b, str_lower name = a +:+ (pat +:+ b)) ->
      is_Some (List.find (fun pat => str_contains pat (str_lower name)) NAME_PATTERNS)).
    { intros name pat Hp Hc. specialize (Hfind name). destruct (List.find _ NAME_PATTERNS); [done|]. by apply Hfind in Hc. }
    destruct (fr_name f) as [name|] eqn:En; cbn [mbind option_bind].
    + specialize (Hfind name). destruct (List.find _ NAME_PATTERNS) as [pat|] eqn:E; cbn [sd_offset sd_suppressed sd_reason].
      * split; [done|]. split; [intros _; split; [done|]; by exists pat|]. intros Hn. exfalso. apply Hn.
        apply find_some in E as [Hp Hc]. apply str_contains_spec in Hc. exists name, pat. done.
      * split; [by destruct (_ && _)|]. split.
        -- intros (name' & pat & [= <-] & Hp & Hc). by destruct (Hfind pat Hp).
        -- intros _. by destruct (_ && _).
    + split; [by destruct (_ && _)|]. split; [by intros (? & ? & ? & _)|]. intros _. by destruct (_ && _).
Qed.

(** ** The function index *)

Definition fband_of (tenant artifact : Uuid) (version : string) (b : FunctionBand) : bool :=
  bool_decide (fb_tenant b = tenant) && bool_decide (fb_artifact_id b = artifact) && String.eqb (fb_version b) version.

Definition stored_fband (tenant artifact : Uuid) (version : string) (p : Z * string * Z) : FunctionBand :=
  mkFunctionBand tenant artifact version (fst (fst p)) (snd (fst p)) (snd p).

Lemma function_bands_local hashes : NoDup (map fst (function_bands hashes)) /\
  Forall (fun p => 0 <= fst p < FUNC_BAND_COUNT) (function_bands hashes).
Proof.
  destruct hashes as [|h l]; [split; [apply NoDup_nil_2|constructor]|]. unfold function_bands. split.
  - apply (bool_decide_eq_true_1 _). reflexivity.
  - repeat constructor; cbn; lia.
Qed.

(** The packed index determines the function and the local band. *)
Lemma packed_bands_nodup functions : NoDup (map (fun p => fst (fst p)) (packed_bands functions)).
Proof.
  unfold packed_bands, enumerate.
  assert (Hgen : forall k (l : list FunctionRow),
    NoDup (map (fun p : Z * string * Z => fst (fst p))
      (flat_map (fun '(i, f) => map (fun '(local, key) => (Z.of_nat i * FUNC_BAND_COUNT + local, key, as_i64 (fr_offset f)))
        (function_bands (fr_token_hashes f))) (zip (seq k (length l)) l))) /\
    Forall (fun p : Z * string * Z => Z.of_nat k * FUNC_BAND_COUNT <= fst (fst p))
      (flat_map (fun '(i, f) => map (fun '(local, key) => (Z.of_nat i * FUNC_BAND_COUNT + local, key, as_i64 (fr_offset f)))
        (function_bands (fr_token_hashes f))) (zip (seq k (length l)) l))).
  { intros k l. revert k. induction l as [|f l IH]; intros k; cbn [length seq zip flat_map].
    { split; [apply NoDup_nil_2|constructor]. }
    destruct (IH (S k)) as [IH1 IH2]. destruct (function_bands_local (fr_token_hashes f)) as [Hnd Hr].
    change (zip_with pair (seq (S k) (length l)) l) with (zip (seq (S k) (length l)) l).
    rewrite map_app. split.
    - apply NoDup_app. split; [|split; [|exact IH1]].
      + rewrite map_map. erewrite (map_ext _ (fun p => Z.of_nat k * FUNC_BAND_COUNT + fst p)) by (by intros []).
        rewrite <- (map_map fst (fun i => Z.of_nat k * FUNC_BAND_COUNT + i)). apply NoDup_fmap; [intros a b; lia|done].
      + intros x Hx Hx2. rewrite list_elem_of_In, in_map_iff in Hx. destruct Hx as ([[i key] o] & <- & Hin).
        apply in_map_iff in Hin as ([local key'] & [= <- <- <-] & Hl). cbn [fst] in Hx2.
        rewrite List.Forall_forall in Hr. specialize (Hr _ Hl). cbn [fst] in Hr.
        apply list_elem_of_In, in_map_iff in Hx2 as ([[i2 key2] o2] & Heq & Hin2). cbn [fst] in Heq.
        rewrite List.Forall_forall in IH2. specialize (IH2 _ Hin2). cbn [fst] in IH2. unfold FUNC_BAND_COUNT in *. lia.
    - apply Forall_app_2.
      + apply List.Forall_forall. intros x Hx. apply in_map_iff in Hx as ([local key] & <- & Hl).
        rewrite List.Forall_forall in Hr. specialize (Hr _ Hl). cbn [fst] in *. lia.
      + eapply Forall_impl; [exact IH2|]. cbn. unfold FUNC_BAND_COUNT. lia. }
  apply Hgen.
Qed.

Lemma insert_fbands tenant artifact version l (s : Srv) :
  NoDup (map (fun p : Z * string * Z => fst (fst p)) l) ->
  (forall b, In b (rows TFband s) -> fband_of tenant artifact version b = true ->
             fb_band_idx b ∉ map (fun p : Z * string * Z => fst (fst p)) l) ->
  exists s', op_for l (fun '(idx, key, offset) =>
      upsert TFband fband_key (mkFunctionBand tenant artifact version idx key offset)
        (fun b => mkFunctionBand (fb_tenant b) (fb_artifact_id b) (fb_version b) (fb_band_idx b) key (fb_func_offset b))) s
    = (Ret tt, s') /\ rows TFband s' = rows TFband s ++ map (stored_fband tenant artifact version) l.
Proof.
  revert s. induction l as [|[[idx key] off] l IH]; intros s Hnd Hold; cbn [op_for map].
  { exists s. by rewrite app_nil_r. }
  cbn [map fst] in Hnd, Hold. apply NoDup_cons in Hnd as [Hk Hnd].
  set (r := mkFunctionBand tenant artifact version idx key off).
  assert (Hf : fband_key r ∉ map fband_key (rows TFband s)).
  { rewrite list_elem_of_In, in_map_iff. intros (b & [= E1 E2 E3 E4 E5] & Hb).
    apply (Hold b Hb); [unfold fband_of; by rewrite !bool_decide_true, E3, String.eqb_refl|]. rewrite E4. by left. }
  op_unfold. rewrite upsert_new by exact Hf.
  destruct (IH (set_rows TFband (rows TFband s ++ [r]) s)) as (s' & H1 & H2); [done| |].
  { rewrite rows_set_rows_eq. intros b Hb Hof Hin. apply in_app_or in Hb as [Hb|[<-|[]]].
    - apply (Hold b Hb Hof). by right.
    - done. }
  exists s'. split; [exact H1|]. rewrite H2, rows_set_rows_eq, <- app_assoc. done.
Qed.

(** Storing the bands of an artifact's functions never fails and replaces
    exactly that artifact's rows of that version: four rows for every function
    with tokens, under packed indices that never clash. *)
Theorem store_function_bands_replaces tenant artifact functions version (s : Srv) :
  exists s', store_function_bands tenant artifact functions version s = (Ret tt, s') /\
    rows TFband s' = List.filter (fun b => negb (fband_of tenant artifact version b)) (rows TFband s) ++
      map (stored_fband tenant artifact version) (packed_bands functions).
Proof.
  set (s1 := snd (delete_rows TFband (fband_of tenant artifact version) s)).
  assert (Hs1 : rows TFband s1 = List.filter (fun b => negb (fband_of tenant artifact version b)) (rows TFband s))
    by apply rows_set_rows_eq.
  destruct (insert_fbands tenant artifact version (packed_bands functions) s1) as (s' & H1 & H2).
  { apply packed_bands_nodup. }
  { rewrite Hs1. intros b Hb Hof. apply filter_In in Hb as [_ Hb]. by rewrite Hof in Hb. }
  exists s'. split; [exact H1|]. by rewrite H2, Hs1.
Qed.

Lemma distinct_in {A} `{EqDecision A} (l : list A) x : In x (distinct l) <-> In x l.
Proof.
  induction l as [|y l IH]; cbn [distinct]; [done|]. cbn [In]. rewrite filter_In, IH, negb_true_iff, bool_decide_eq_false.
  destruct (decide (x = y)); naive_solver.
Qed.

Lemma distinct_nodup {A} `{EqDecision A} (l : list A) : NoDup (distinct l).
Proof.
  induction l as [|y l IH]; cbn [distinct]; [apply NoDup_nil_2|]. apply NoDup_cons. split; [|by apply nodup_list_filter].
  rewrite list_elem_of_In, filter_In, negb_true_iff, bool_decide_eq_false. naive_solver.
Qed.

Lemma query_key_in functions k : In k (query_keys functions) <-> exists f, In f functions /\ In k (function_bands (fr_token_hashes f)).
Proof.
  unfold query_keys. rewrite distinct_in, in_flat_map.
  assert (Hk : forall f, In k (map (fun '(i, k) => (Z.rem i FUNC_BAND_COUNT, k)) (function_bands (fr_token_hashes f))) <->
                         In k (function_bands (fr_token_hashes f))); [|by setoid_rewrite Hk].
  intros f. destruct (function_bands_local (fr_token_hashes f)) as [_ Hl]. rewrite List.Forall_forall in Hl.
  assert (Hid : map (fun '(i, k) => (Z.rem i FUNC_BAND_COUNT, k)) (function_bands (fr_token_hashes f)) = function_bands (fr_token_hashes f)).
  { rewrite <- (map_id (function_bands (fr_token_hashes f))) at 2. apply map_ext_in. intros [i key] Hin.
    specialize (Hl _ Hin). cbn [fst] in Hl. by rewrite Z.rem_small. }
  by rewrite Hid.
Qed.

Lemma packed_local functions p :
  In p (packed_bands functions) -> exists f local, In f functions /\ In (local, snd (fst p)) (function_bands (fr_token_hashes f)) /\
    Z.rem (fst (fst p)) FUNC_BAND_COUNT = local.
Proof.
  unfold packed_bands. rewrite in_flat_map. intros ([i f] & Hf & Hp). apply in_map_iff in Hp as ([local key] & <- & Hl).
  apply enumerate_lookup in Hf. exists f, local. cbn [fst snd].
  split; [by eapply list_elem_of_In, list_elem_of_lookup_2|]. split; [done|].
  destruct (function_bands_local (fr_token_hashes f)) as [_ Hr]. rewrite List.Forall_forall in Hr. specialize (Hr _ Hl).
  cbn [fst] in Hr. unfold FUNC_BAND_COUNT in *. rewrite Z.rem_mod_nonneg by lia. rewrite Z.add_comm, Z.mod_add by lia. by apply Z.mod_small.
Qed.

Lemma packed_bands_in functions f local key :
  In f functions -> In (local, key) (function_bands (fr_token_hashes f)) ->
  exists i off, In (i * FUNC_BAND_COUNT + local, key, off) (packed_bands functions) /\ 0 <= i.
Proof.
  intros Hf Hk. apply list_elem_of_In, list_elem_of_lookup in Hf as (i & Hi). exists (Z.of_nat i), (as_i64 (fr_offset f)).
  split; [|lia]. unfold packed_bands. rewrite in_flat_map. exists (i, f). split; [by apply enumerate_lookup|].
  apply in_map_iff. by exists (local, key).
Qed.

(** The candidates of a set of functions, whatever the order in which the band
    keys are visited: no artifact twice, at most 256, never the artifact itself,
    each sharing a local band with one of the functions under the same tenant
    and version; and unless 256 were found, an artifact that stored a function
    with the same tokens as one of them is a candidate. *)
Theorem func_candidates_spec `{HashOrderLaws} tenant artifact functions version (s : Srv) :
  exists out, func_candidates tenant artifact functions version s = (Ret out, s) /\
    NoDup out /\ len out <= FUNC_CANDIDATE_CAP /\
    (forall x, In x out -> x <> artifact /\ exists f k b, In f functions /\ In k (function_bands (fr_token_hashes f)) /\
       In b (rows TFband s) /\ fband_of tenant x version b = true /\ fb_band_key b = snd k /\
       Z.rem (fb_band_idx b) FUNC_BAND_COUNT = fst k) /\
    (len out < FUNC_CANDIDATE_CAP -> forall x stored f g, x <> artifact ->
       (forall p, In p (packed_bands stored) -> In (stored_fband tenant x version p) (rows TFband s)) ->
       In f functions -> In g stored -> fr_token_hashes f = fr_token_hashes g -> fr_token_hashes f <> [] -> In x out).
Proof.
  unfold func_candidates, gets.
  set (answers := map (fband_artifacts tenant artifact version (rows TFband s)) (hash_order (query_keys functions))).
  destruct (collect_all_spec FUNC_CANDIDATE_CAP answers []) as (B1 & B2 & B3 & B4); [|by apply NoDup_nil_2|done|].
  { apply Forall_map, List.Forall_forall. intros k _. apply distinct_nodup. }
  exists (collect_all FUNC_CANDIDATE_CAP answers []).
  split; [done|]. split; [exact B1|]. split; [exact B2|].
  assert (Hn : forall x, (exists l, In l answers /\ In x l) <->
    exists k b, In k (query_keys functions) /\ In b (rows TFband s) /\ shares_fband tenant artifact version k b = true /\ fb_artifact_id b = x).
  { intros x. unfold answers. split.
    - intros (l & Hl & Hx). apply in_map_iff in Hl as (k & <- & Hk). apply distinct_in, in_map_iff in Hx as (b & <- & Hb).
      apply filter_In in Hb as [Hb Hs]. exists k, b. split; [|done]. by eapply Permutation_in; [apply hash_order_perm|].
    - intros (k & b & Hk & Hb & Hs & <-). eexists. split.
      + apply in_map. eapply Permutation_in; [symmetry; apply hash_order_perm|exact Hk].
      + apply distinct_in, in_map, filter_In. done. }
  assert (Hshare : forall k b, shares_fband tenant artifact version k b = true <->
    fband_of tenant (fb_artifact_id b) version b = true /\ fb_band_key b = snd k /\ fb_artifact_id b <> artifact /\
    Z.rem (fb_band_idx b) FUNC_BAND_COUNT = fst k).
  { intros k b. unfold shares_fband, fband_of. rewrite !andb_true_iff, negb_true_iff, !bool_decide_eq_true, bool_decide_eq_false,
      !String.eqb_eq, Z.eqb_eq. naive_solver. }
  split.
  - intros x Hx. apply B3 in Hx as [[]|Hx]. apply Hn in Hx as (k & b & Hk & Hb & Hs & <-).
    apply Hshare in Hs as (Hof & Hkey & Hne & Hrem). apply query_key_in in Hk as (f & Hf & Hk). split; [done|].
    exists f, k, b. done.
  - intros Hsmall x stored f g Hne Hst Hf Hg Heq Hnil. apply B4; [done|]. right. apply Hn.
    assert (Hex : exists local key, In (local, key) (function_bands (fr_token_hashes f))).
    { destruct (fr_token_hashes f); [done|]. eexists _, _. by left. }
    destruct Hex as (local & key & Hk). rewrite Heq in Hk.
    destruct (packed_bands_in stored g local key Hg Hk) as (i & off & Hin & Hi).
    exists (local, key), (stored_fband tenant x version (i * FUNC_BAND_COUNT + local, key, off)).
    split; [apply query_key_in; exists f; by rewrite Heq|]. split; [by apply Hst|]. split; [|done].
    apply Hshare. cbn. unfold fband_of. cbn. rewrite !bool_decide_true, String.eqb_refl by done. do 3 (split; [done|]).
    destruct (function_bands_local (fr_token_hashes g)) as [_ Hr]. rewrite List.Forall_forall in Hr. specialize (Hr _ Hk).
    cbn [fst] in Hr. unfold FUNC_BAND_COUNT in *. rewrite Z.rem_mod_nonneg by lia. rewrite Z.add_comm, Z.mod_add by lia.
    by apply Z.mod_small.
Qed.

(** ** Triage *)

Section triage_theorems.
  Context `{Log2, Goblin}.

Lemma fired_markers whole : List.filter ts_fired (map (fun m => mkTriageSignal "packer_marker" (f64_of_Z 1) (f64_lit 5 10) true (snd m)) (found_markers whole)) =
  map (fun m => mkTriageSignal "packer_marker" (f64_of_Z 1) (f64_lit 5 10) true (snd m)) (found_markers whole).
Proof. induction (found_markers whole) as [|m l IH]; [done|]. cbn [map List.filter ts_fired]. by rewrite IH. Qed.

Lemma fired_rwx l : List.filter ts_fired (map (fun s => mkTriageSignal "exec_writable_section" (f64_of_Z 1) (f64_of_Z 0) true
    ("section " +:+ (sm_name s +:+ " is executable and writable"))) l) =
  map (fun s => mkTriageSignal "exec_writable_section" (f64_of_Z 1) (f64_of_Z 0) true
    ("section " +:+ (sm_name s +:+ " is executable and writable"))) l.
Proof. induction l as [|m l IH]; [done|]. cbn [map List.filter ts_fired]. by rewrite IH. Qed.

Definition b2z (b : bool) : Z := if b then 1 else 0.

(** The blocking policy, in terms of what was measured: an artifact is blocked
    when its code entropy is over the limit, or an executable section is
    writable and the entropy is over 6.5, or a packer marker was found together
    with any second signal, which a second marker is. *)
Theorem triage_policy format whole sections imports has_overlay :
  let limit := packed_entropy_limit MODEL_V1 in
  let mean := mean_code_entropy whole sections in
  let markers_found := len (found_markers whole) in
  let rwx := len (rwx_secs sections) in
  let others := b2z (f64_gt (max_section_entropy sections) (f64_add limit (f64_lit 3 10))) +
    b2z ((0 <? imports) && f64_lt (f64_of_Z imports) (f64_of_Z 3) && f64_gt mean (f64_lit 65 10)) +
    b2z (has_overlay && f64_gt mean (f64_lit 68 10)) in
  let report := triage format whole sections imports has_overlay in
  (tg_block_semantic report = true <->
     f64_gt mean limit = true \/ (0 < rwx /\ f64_gt mean (f64_lit 65 10) = true) \/
     (1 <= markers_found /\ 2 <= markers_found + rwx + others)) /\
  (tg_block_semantic report = true -> List.filter ts_fired (tg_signals report) <> []).
Proof.
  cbn zeta. unfold triage. cbn [tg_block_semantic tg_signals].
  set (limit := packed_entropy_limit MODEL_V1). set (mean := mean_code_entropy whole sections).
  set (mx := f64_gt (max_section_entropy sections) (f64_add limit (f64_lit 3 10))).
  set (im := (0 <? imports) && f64_lt (f64_of_Z imports) (f64_of_Z 3) && f64_gt mean (f64_lit 65 10)).
  set (ov := has_overlay && f64_gt mean (f64_lit 68 10)). set (hot := f64_gt mean (f64_lit 65 10)).
  set (over := f64_gt mean limit).
  assert (Hfired : len (List.filter ts_fired (triage_signals whole sections imports has_overlay)) =
    len (rwx_secs sections) + (b2z over + b2z mx + b2z im + b2z ov) + len (found_markers whole)).
  { unfold triage_signals. rewrite !List.filter_app, fired_markers, fired_rwx, !len_app.
    unfold len at 1 3. rewrite !length_map. fold (len (rwx_secs sections)) (len (found_markers whole)).
    cbn [List.filter ts_fired]. fold limit mean. fold mx im ov over. unfold len. destruct over, mx, im, ov; cbn [length b2z]; lia. }
  assert (Hent : existsb (fun s => String.eqb (ts_name s) "mean_code_entropy" && ts_fired s)
      (triage_signals whole sections imports has_overlay) = over).
  { unfold triage_signals. rewrite !existsb_app.
    rewrite (proj2 (existsb_false_forall _ (map _ (rwx_secs sections)))) by (intros x Hx; by apply in_map_iff in Hx as (? & <- & _)).
    rewrite (proj2 (existsb_false_forall _ (map _ (found_markers whole)))) by (intros x Hx; by apply in_map_iff in Hx as (? & <- & _)).
    cbn [existsb ts_name ts_fired]. fold limit mean. fold over. cbn. by rewrite !orb_false_r. }
  assert (Hmark : existsb (fun s => String.eqb (ts_name s) "packer_marker" && ts_fired s)
      (triage_signals whole sections imports has_overlay) = (1 <=? len (found_markers whole))).
  { unfold triage_signals. rewrite !existsb_app.
    rewrite (proj2 (existsb_false_forall _ (map _ (rwx_secs sections)))) by (intros x Hx; by apply in_map_iff in Hx as (? & <- & _)).
    cbn [existsb ts_name ts_fired orb andb]. cbn [String.eqb orb].
    destruct (found_markers whole) as [|m l]; [done|]. cbn [map existsb ts_name ts_fired]. unfold len. cbn [length]. 
    destruct (Z.leb_spec 1 (Z.of_nat (S (length l)))); [done|lia]. }
  rewrite Hent, Hmark, Hfired. pose proof (len_nonneg (rwx_secs sections)). pose proof (len_nonneg (found_markers whole)).
  assert (Hb : forall b, 0 <= b2z b <= 1) by (intros []; cbn; lia).
  pose proof (Hb mx). pose proof (Hb im). pose proof (Hb ov). split.
  - rewrite !orb_true_iff, !andb_true_iff, !Z.leb_le, Z.ltb_lt. destruct over; cbn [b2z]; [tauto|]. split.
    + intros [[?|[? ?]]|[? ?]]; [done| |tauto]. right. right. lia.
    + intros [?|[[? ?]|[? ?]]]; [done|tauto|]. left. right. lia.
  - intros Hblock Hnil. rewrite Hnil in Hfired. change (len []) with 0 in Hfired. pose proof (Hb over).
    rewrite !orb_true_iff, !andb_true_iff, !Z.leb_le, Z.ltb_lt in Hblock. destruct over; cbn [b2z] in *; [lia|].
    destruct Hblock as [[?|[? ?]]|[? ?]]; [done|lia|lia].
Qed.

(** Reading section metadata never panics: a section whose bounds are outside
    the file has an empty body. *)
Theorem sections_from_bytes_total format bs :
  (forall pe, pe_parse bs = inr pe -> Forall (fun s => 0 <= ps_pointer_to_raw_data s) (pe_sections pe)) ->
  (forall elf, elf_parse bs = inr elf -> Forall (fun s => 0 <= es_offset s) (elf_sections elf)) ->
  is_ret (sections_from_bytes format bs) = true.
Proof.
  intros Hpe Helf. assert (Hbody : forall a b, 0 <= a -> is_ret (section_body bs a (Z.min b (len bs))) = true).
  { intros a b Ha. unfold section_body. destruct (Z.ltb_spec a (Z.min b (len bs))); [|done]. by rewrite slice_some by lia. }
  unfold sections_from_bytes, pe_sections_meta, elf_sections_meta.
  destruct (String.eqb format "pe"); [|destruct (String.eqb format "elf"); [|done]].
  - destruct (pe_parse bs) as [|pe]; [done|]. specialize (Hpe pe eq_refl). rewrite List.Forall_forall in Hpe.
    match goal with |- is_ret (mbind _ ?m) = true => assert (Hr : is_ret m = true) end; [|by destruct (map_outcome _ _)].
    apply map_outcome_total. intros s Hs. specialize (Hbody (ps_pointer_to_raw_data s) (ps_pointer_to_raw_data s + ps_size_of_raw_data s) (Hpe s Hs)).
    by destruct (section_body _ _ _).
  - destruct (elf_parse bs) as [|elf]; [done|]. specialize (Helf elf eq_refl). rewrite List.Forall_forall in Helf.
    match goal with |- is_ret (mbind _ ?m) = true => assert (Hr : is_ret m = true) end; [|by destruct (map_outcome _ _)].
    apply map_outcome_total. intros s Hs. specialize (Hbody (es_offset s) (u64_wrap (es_offset s + es_size s)) (Helf s Hs)).
    by destruct (section_body _ _ _).
Qed.

(** Recovering functions, unlike triage, panics as soon as the [.text] section
    of an x86-64 file starts past the end of the file. *)
Theorem functions_for_text_past_end bs elf sh :
  elf_parse bs = inr elf -> elf_machine elf = EM_X86_64 -> In sh (elf_sections elf) ->
  es_name sh = Some ".text"%string -> len bs < es_offset sh -> functions_for "elf" bs = Panic.
Proof.
  intros Hp Hm Hin Hn Ho. unfold functions_for, elf_functions. cbn. rewrite Hp, Hm. cbn.
  assert (Hin' : In sh (List.filter (fun sh => bool_decide (es_name sh = Some ".text"%string)) (elf_sections elf)))
    by (apply filter_In; split; [done|by apply bool_decide_eq_true]).
  induction (List.filter _ (elf_sections elf)) as [|x l IH]; [done|]. cbn [map_outcome]. destruct Hin' as [->|Hin'].
  - unfold section_slice. rewrite (proj2 (slice_none _ _ _)) by lia. done.
  - rewrite IH by done. unfold section_slice. by destruct (slice _ _ _).
Qed.
End triage_theorems.

(** ** Witnesses *)

Section witnesses.

(** The keys in the order they were inserted. *)
Definition insertion_order : HashOrder := fun l => l.
Local Existing Instance insertion_order.

Lemma insertion_order_laws : HashOrderLaws.
Proof. intros l. reflexivity. Qed.

Definition sample_function : FunctionRow := mkFunctionRow 64 16 None 4 [3; 5; 8].

(** Artifact 7 stored the sample function. *)
Definition indexed_function : Srv := snd (store_function_bands 1%N 7%N [sample_function] "semantic:v1" ReferenceServer.empty).

Lemma func_candidates_spec_witness :
  exists out, func_candidates 1%N 8%N [sample_function] "semantic:v1" indexed_function = (Ret out, indexed_function) /\ In 7%N out.
Proof.
  destruct (func_candidates_spec (H0 := insertion_order_laws) 1%N 8%N [sample_function] "semantic:v1" indexed_function)
    as (out & E & _ & _ & _ & Hin).
  exists out. split; [exact E|].
  apply (Hin ltac:(apply (f_equal fst) in E; vm_compute in E; injection E as <-; reflexivity) 7%N [sample_function] sample_function sample_function).
  - discriminate.
  - intros p Hp. vm_compute in Hp. destruct Hp as [<-|[<-|[<-|[<-|[]]]]]; vm_compute; tauto.
  - by left.
  - by left.
  - reflexivity.
  - discriminate.
Defined.
End witnesses.
