(* ===== verification/Variants.v ===== *)
(** * Similarity edges and variant groups
      ([similarity/edges.rs], [semantic/edges.rs])

    Analysing an artifact stores its features, finds candidates, inserts typed
    edges and unions the variant groups of the endpoints of strong ones. *)

From S2P Require Import Prelude Machine Text Hash Classify Cas Schema Triggers Fuzzy SimModel Features Functions.
From Stdlib Require Import Strings.Byte Strings.Ascii SpecFloat Sorting.Sorted.

Open Scope Z_scope.

Definition json_strs (l : list string) : Json := JArr (map JStr l).
Definition json_opt_str (o : option string) : Json := match o with Some s => JStr s | None => JNull end.

(** [value->>'key'] of a string value, [(value->>'key')::float8] *)
Definition json_get_float (k : string) (j : Json) : option f64 :=
  match json_get k j with Some (JFloat x) => Some x | Some (JInt z) => Some (f64_of_Z z) | _ => None end.

Definition column_null : Error := Db "unexpected null; try decoding as an Option".
Definition row_not_found : Error := Db "no rows returned by a query that expected to return at least one row".

(** ** Stored features *)

Definition feature_key (f : SimFeature) : Uuid * Uuid * string * string * string :=
  (sf_tenant f, sf_artifact_id f, sf_family f, sf_name f, sf_version f).

(** [INSERT INTO similarity_feature ... ON CONFLICT DO NOTHING] *)
Definition store_feature (tenant artifact : Uuid) (family name version : string) (value : Json) : Op Srv unit :=
  t ← now;
  _ ← insert_on_conflict TFeature feature_key (mkSimFeature tenant artifact family name version value t);
  mret tt.

Definition optional_row (family name key : string) (o : option string) : list (string * string * Json) :=
  match o with Some v => [(family, name, JObj [(key, JStr v)])] | None => [] end.

Definition feature_rows (f : ExtractedFeatures) : list (string * string * Json) :=
  [("byte", "ssdeep", JObj [("digest", JStr (ef_ssdeep f)); ("size_bytes", JInt (ef_size_bytes f));
                            ("entropy", JFloat (ef_entropy f))])%string] ++
  map (fun n => ("normalized"%string, nf_name n, JObj [("hash"%string, JStr (nf_hash n))])) (ef_normalized f) ++
  optional_row "structural" "section_layout" "hash" (ef_section_layout f) ++
  optional_row "structural" "import_set" "hash" (ef_import_set f) ++
  optional_row "structural" "export_set" "hash" (ef_export_set f) ++
  optional_row "provenance" "compiler_hint" "value" (ef_compiler_hint f) ++
  optional_row "structural" "parse_limitation" "value" (ef_parse_limitation f).

Definition store_features (tenant artifact : Uuid) (f : ExtractedFeatures) : Op Srv unit :=
  op_for (feature_rows f) (fun '(family, name, value) => store_feature tenant artifact family name EXTRACTOR_VERSION value).

(** ** Groups *)

Definition member_key (m : VariantMember) : Uuid * Uuid := (vm_tenant m, vm_artifact_id m).

Definition member_is (tenant artifact : Uuid) (m : VariantMember) : bool :=
  bool_decide (vm_tenant m = tenant) && bool_decide (vm_artifact_id m = artifact).

Definition in_group (tenant group : Uuid) (m : VariantMember) : bool :=
  bool_decide (vm_tenant m = tenant) && bool_decide (vm_group_id m = group).

Definition group_is (tenant group : Uuid) (g : VariantGroup) : bool :=
  bool_decide (vg_tenant g = tenant) && bool_decide (vg_id g = group).

Definition group_of (tenant artifact : Uuid) : Op Srv (option Uuid) :=
  m ← select_optional TMember (member_is tenant artifact);
  mret (vm_group_id <$> m).

Definition add_member (tenant group artifact : Uuid) : Op Srv unit :=
  _ ← insert_on_conflict TMember member_key (mkVariantMember tenant group artifact);
  mret tt.

Definition move_member (keep : Uuid) (m : VariantMember) : VariantMember :=
  mkVariantMember (vm_tenant m) keep (vm_artifact_id m).

Section variants.
  Context {SHA : Sha256} {HEX : HexCodec} {UD : UuidDisplay} {GOB : Goblin} {LOG : Log2} {DEC : X86Decoder} {HO : HashOrder}.

Definition juuid (u : Uuid) : Json := JStr (uuid_to_string u).

Definition fire_variant_join (tenant group artifact : Uuid) : Op Srv unit :=
  _ ← fire tenant CONDITION_VARIANT_JOIN
        (JObj [("type", JStr "variant_join"); ("group_id", juuid group); ("artifact_id", juuid artifact)]%string);
  mret tt.

Definition union_groups (tenant a b : Uuid) : Op Srv unit :=
  ga ← group_of tenant a;
  gb ← group_of tenant b;
  match ga, gb with
  | Some g1, Some g2 =>
      if decide (g1 = g2) then mret tt
      else
        let keep := N.min g1 g2 in
        let drop_g := N.max g1 g2 in
        _ ← update_rows TMember (in_group tenant drop_g) (move_member keep);
        _ ← delete_rows TGroup (group_is tenant drop_g);
        mret tt
  | Some g, None => add_member tenant g b ;; fire_variant_join tenant g b
  | None, Some g => add_member tenant g a ;; fire_variant_join tenant g a
  | None, None =>
      g ← new_v4;
      t ← now;
      insert_unique TGroup (fun v => vg_id v) (mkVariantGroup g tenant t) ;;
      add_member tenant g a ;;
      add_member tenant g b
  end.

(** ** Edges *)

Definition edge_key (e : SimEdge) : Uuid * Uuid * Uuid * string * string :=
  (se_tenant e, se_src e, se_dst e, se_edge_type e, se_model_version e).

(** [insert_edge] of both files; the table's CHECK requires [src < dst]. *)
Definition insert_edge (tenant a b : Uuid) (etype : string) (score : f64) (evidence : Json) : Op Srv bool :=
  let '(src, dst) := if (a <? b)%N then (a, b) else (b, a) in
  t ← now;
  if negb (src <? dst)%N then throw (Db "new row for relation similarity_edge violates check constraint")
  else
    inserted ← insert_on_conflict TEdge edge_key (mkSimEdge tenant src dst etype MODEL_VERSION score evidence t);
    (if (inserted : bool) && merges_groups etype then union_groups tenant src dst else mret tt) ;;
    mret inserted.

Definition artifact_is (tenant id : Uuid) (a : Artifact) : bool :=
  bool_decide (art_tenant a = tenant) && bool_decide (art_id a = id).

(** [SELECT artifact_class FROM artifact] compared with the class at hand. *)
Definition same_class (tenant other : Uuid) (artifact_class : string) : Op Srv bool :=
  a ← select_optional TArtifact (artifact_is tenant other);
  mret (bool_decide (art_class <$> a = Some artifact_class)).

(** ** Semantic analysis ([semantic/edges.rs]) *)

Definition MATCH_TAU : f64 := semantic_match_tau MODEL_V1.
Definition PACKED_ENTROPY_LIMIT : f64 := packed_entropy_limit MODEL_V1.

Definition store_limitation (tenant artifact : Uuid) (limitation : string) : Op Srv unit :=
  store_feature tenant artifact "semantic" "analysis_limitation" SEMANTIC_EXTRACTOR_VERSION (JObj [("value"%string, JStr limitation)]).

Definition signal_json (s : TriageSignal) : Json :=
  JObj [("name", JStr (ts_name s)); ("value", JFloat (ts_value s)); ("threshold", JFloat (ts_threshold s));
        ("fired", JBool (ts_fired s)); ("detail", JStr (ts_detail s))]%string.
Definition report_json (r : TriageReport) : Json :=
  JObj [("version", JStr (tg_version r)); ("format", JStr (tg_format r)); ("signals", JArr (map signal_json (tg_signals r)));
        ("block_semantic", JBool (tg_block_semantic r)); ("summary", JStr (tg_summary r))]%string.

(** The spans of one code section: the significant functions. *)
Definition section_functions (code : CodeSection) (spans : list FunctionSpan) : outcome (list FunctionRow) :=
  rows ← map_outcome (fun span =>
    let end_ := Z.min (sp_offset span + sp_size span) (len (cs_bytes code)) in
    body ← or_panic (slice (cs_bytes code) (sp_offset span) end_);
    let f := features_for body (sp_file_offset span) in
    mret (if is_significant f
          then [mkFunctionRow (sp_file_offset span) (sp_size span) (sp_name span) (ff_insn_count f) (ff_token_hashes f)]
          else [])) spans;
  mret (concat rows).

(** The loop over the code sections: [inl] is the early return of a section of
    high entropy, [inr] the significant functions and the number of spans. *)
Fixpoint significant_functions (sections : list (CodeSection * list FunctionSpan)) : outcome (string + list FunctionRow * Z) :=
  match sections with
  | [] => mret (inr ([], 0))
  | (code, spans) :: rest =>
      if f64_gt (cs_entropy code) PACKED_ENTROPY_LIMIT
      then mret (inl ("packed_or_high_entropy_code: entropy " +:+ (show_f64_fixed 2 (cs_entropy code) +:+ (" > " +:+ show_f64 PACKED_ENTROPY_LIMIT))))
      else
        fs ← section_functions code spans;
        r ← significant_functions rest;
        mret (match r with inl l => inl l | inr (more, n) => inr (fs ++ more, len spans + n) end)
  end.

Definition function_key (f : SimFunction) : Uuid * Uuid * Z * string :=
  (fn_tenant f, fn_artifact_id f, fn_offset f, fn_version f).

Definition pack_hashes (hashes : list Z) : bytes := flat_map (to_le 8) hashes.

Definition store_function (tenant artifact : Uuid) (f : FunctionRow) : Op Srv unit :=
  t ← now;
  _ ← insert_on_conflict TFunction function_key
        (mkSimFunction tenant artifact (as_i64 (fr_offset f)) (as_i64 (fr_size f)) (fr_name f) (as_i64 (fr_insn_count f))
           (pack_hashes (fr_token_hashes f)) SEMANTIC_EXTRACTOR_VERSION t);
  mret tt.

Definition extract_and_store (tenant artifact : Uuid) (format : string) (bs : bytes) :
    Op Srv (list FunctionRow * option string) :=
  '(sections, import_count, has_overlay) ← lift_outcome (sections_from_bytes format bs);
  let report := triage format bs sections import_count has_overlay in
  store_feature tenant artifact "semantic" "triage" SEMANTIC_EXTRACTOR_VERSION (report_json report) ;;
  if tg_block_semantic report then
    let limitation := "packed_or_virtualized: " +:+ tg_summary report in
    store_limitation tenant artifact limitation ;;
    mret ([], Some limitation)
  else
    code ← lift_outcome (functions_for format bs);
    found ← lift_outcome (significant_functions code);
    match found with
    | inl limitation => store_limitation tenant artifact limitation ;; mret ([], Some limitation)
    | inr (significant, total) =>
        op_for significant (store_function tenant artifact) ;;
        store_function_bands tenant artifact significant SEMANTIC_EXTRACTOR_VERSION ;;
        store_feature tenant artifact "semantic" "aggregate" SEMANTIC_EXTRACTOR_VERSION
          (JObj [("function_count", JInt total); ("significant_count", JInt (len significant));
                 ("triage_version", JStr TRIAGE_VERSION)]%string) ;;
        mret (significant, None)
    end.

(** *** One-to-one coverage *)

Record PairScore := mkPairScore { pr_a_offset : Z; pr_b_offset : Z; pr_score : f64 }.
Record Coverage := mkCoverage {
  cv_a_to_b : f64; cv_b_to_a : f64; cv_matched_pairs : Z; cv_top_pairs : list PairScore;
  cv_contested_a : list Z; cv_contested_b : list Z; cv_unmatched_a : list Z; cv_unmatched_b : list Z }.

(** A candidate pair: the indices into the two sets, and the score. *)
Definition Candidate : Type := nat * nat * f64.
Definition cand_i (c : Candidate) : nat := fst (fst c).
Definition cand_j (c : Candidate) : nat := snd (fst c).

Definition offset_at (l : list FunctionRow) (i : nat) : Z := match l !! i with Some f => fr_offset f | None => 0 end.

Definition pair_candidates (a b : list FunctionRow) (tau : f64) : list Candidate :=
  flat_map (fun '(i, fa) =>
    omap (fun '(j, fb) =>
      let score := jaccard (fr_token_hashes fa) (fr_token_hashes fb) in
      if f64_ge score tau then Some (i, j, score) else None) (enumerate b)) (enumerate a).

(** [partial_cmp(..).unwrap_or(Equal)], descending, then the two offsets. *)
Definition score_cmp (x y : f64) : comparison := match f64_cmp y x with Some c => c | None => Eq end.
Definition then_cmp (c d : comparison) : comparison := match c with Eq => d | _ => c end.
Definition not_gt (c : comparison) : bool := match c with Gt => false | _ => true end.

Definition candidate_le (a b : list FunctionRow) (x y : Candidate) : bool :=
  not_gt (then_cmp (score_cmp (snd x) (snd y))
    (then_cmp (offset_at a (cand_i x) ?= offset_at a (cand_i y)) (offset_at b (cand_j x) ?= offset_at b (cand_j y)))).

(** The greedy loop: a pair is taken when both its sides are free. *)
Fixpoint assign (used_a used_b : list nat) (cands : list Candidate) : list Candidate :=
  match cands with
  | [] => []
  | c :: rest =>
      if bool_decide (cand_i c ∈ used_a) || bool_decide (cand_j c ∈ used_b) then assign used_a used_b rest
      else c :: assign (cand_i c :: used_a) (cand_j c :: used_b) rest
  end.

Definition pair_le (x y : PairScore) : bool :=
  not_gt (then_cmp (score_cmp (pr_score x) (pr_score y))
    (then_cmp (pr_a_offset x ?= pr_a_offset y) (pr_b_offset x ?= pr_b_offset y))).

Definition offsets_where (p : nat -> bool) (l : list FunctionRow) : list Z :=
  map (fun q => fr_offset (snd q)) (List.filter (fun q => p (fst q)) (enumerate l)).

Definition coverage_with_tau (a b : list FunctionRow) (tau : f64) : Coverage :=
  let candidates := sort_by (candidate_le a b) (pair_candidates a b tau) in
  let chosen := assign [] [] candidates in
  let had_a i := bool_decide (i ∈ map cand_i candidates) in
  let had_b j := bool_decide (j ∈ map cand_j candidates) in
  let used_a i := bool_decide (i ∈ map cand_i chosen) in
  let used_b j := bool_decide (j ∈ map cand_j chosen) in
  let assigned := map (fun c => mkPairScore (offset_at a (cand_i c)) (offset_at b (cand_j c)) (snd c)) chosen in
  let matched := len assigned in
  mkCoverage
    (match a with [] => f64_of_Z 0 | _ => f64_div (f64_of_Z matched) (f64_of_Z (len a)) end)
    (match b with [] => f64_of_Z 0 | _ => f64_div (f64_of_Z matched) (f64_of_Z (len b)) end)
    matched (truncate 5 (sort_by pair_le assigned))
    (offsets_where (fun i => had_a i && negb (used_a i)) a) (offsets_where (fun j => had_b j && negb (used_b j)) b)
    (offsets_where (fun i => negb (had_a i)) a) (offsets_where (fun j => negb (had_b j)) b).

Definition coverage (a b : list FunctionRow) : Coverage := coverage_with_tau a b MATCH_TAU.

(** *** Candidates and linking *)

(** [sig.chunks_exact(8)] *)
Fixpoint unpack_hashes (fuel : nat) (sig : bytes) : list Z :=
  match fuel with
  | O => []
  | S fuel' => if (8 <=? length sig)%nat then from_le (take 8 sig) :: unpack_hashes fuel' (drop 8 sig) else []
  end.

Definition function_of_row (r : SimFunction) : FunctionRow :=
  mkFunctionRow (wrap 64 (fn_offset r)) (wrap 64 (fn_size r)) (fn_name r) (wrap 64 (fn_insn_count r))
    (unpack_hashes (length (fn_sig r)) (fn_sig r)).

Definition fn_offset_le (a b : SimFunction) : bool := fn_offset a <=? fn_offset b.

Definition load_functions (tenant artifact : Uuid) : Op Srv (list FunctionRow) :=
  rs ← select TFunction (fun f => bool_decide (fn_tenant f = tenant) && bool_decide (fn_artifact_id f = artifact) &&
                                  String.eqb (fn_version f) SEMANTIC_EXTRACTOR_VERSION);
  mret (map function_of_row (sort_by fn_offset_le rs)).

Definition pair_json (p : PairScore) : Json :=
  JObj [("a_offset", JInt (pr_a_offset p)); ("b_offset", JInt (pr_b_offset p)); ("score", JFloat (pr_score p))]%string.

Definition build_edge_evidence (cov : Coverage) (receipt : AnalysisReceipt) : list (string * Json) := [
  ("coverage_a_to_b", JFloat (cv_a_to_b cov)); ("coverage_b_to_a", JFloat (cv_b_to_a cov));
  ("matched_pairs", JInt (cv_matched_pairs cov)); ("top_pairs", JArr (map pair_json (cv_top_pairs cov)));
  ("contested_a", JArr (map JInt (cv_contested_a cov))); ("contested_b", JArr (map JInt (cv_contested_b cov)));
  ("unmatched_a_count", JInt (len (cv_unmatched_a cov))); ("unmatched_b_count", JInt (len (cv_unmatched_b cov)));
  ("tau", JFloat MATCH_TAU); ("model_version", JStr MODEL_VERSION);
  ("model_config_digest", JStr (model_config_digest MODEL_V1)); ("extractor_version", JStr SEMANTIC_EXTRACTOR_VERSION);
  ("receipt_id", JStr (receipt_id receipt)); ("matching", JStr "one_to_one_greedy")]%string.

Definition decision_json (d : SuppressionDecision) : Json :=
  JObj [("offset", JInt (sd_offset d)); ("suppressed", JBool (sd_suppressed d)); ("reason", json_opt_str (sd_reason d))]%string.

Definition suppressed_count (ds : list SuppressionDecision) : Z := len (List.filter sd_suppressed ds).

(** The other artifacts with functions: the full scan. *)
Definition full_scan (tenant artifact : Uuid) : Op Srv (list Uuid) :=
  rs ← select TFunction (fun f => bool_decide (fn_tenant f = tenant) && negb (bool_decide (fn_artifact_id f = artifact)) &&
                                  String.eqb (fn_version f) SEMANTIC_EXTRACTOR_VERSION);
  mret (distinct (map fn_artifact_id rs)).

Definition semantic_candidates (tenant artifact : Uuid) (scoring : list FunctionRow) : Op Srv (list Uuid * string) :=
  live ← func_index_populated tenant SEMANTIC_EXTRACTOR_VERSION;
  if (live : bool) then
    cands ← func_candidates tenant artifact scoring SEMANTIC_EXTRACTOR_VERSION;
    match cands with
    | [] => ids ← full_scan tenant artifact; mret (ids, "full_scan_fallback"%string)
    | _ => mret (cands, "function_index"%string)
    end
  else ids ← full_scan tenant artifact; mret (ids, "full_scan_cold"%string).

(** The loop body of [analyze_and_link] for one candidate: the edges so far. *)
Definition link_one (tenant artifact : Uuid) (artifact_class : string) (scoring : list FunctionRow)
    (decisions : list SuppressionDecision) (receipt : AnalysisReceipt) (source : string) (edges : Z) (other : Uuid) : Op Srv Z :=
  same ← same_class tenant other artifact_class;
  if negb same then mret edges
  else
    other_funcs ← load_functions tenant other;
    let cov := coverage scoring (fst (partition_fns other_funcs)) in
    match classify_semantic_edge MODEL_V1 (cv_a_to_b cov) (cv_b_to_a cov) (cv_matched_pairs cov) with
    | None => mret edges
    | Some etype =>
        let evidence := JObj (build_edge_evidence cov receipt ++
          [("candidate_source", JStr source); ("suppressor_version", JStr SUPPRESSOR_VERSION);
           ("suppressed_a", JInt (suppressed_count decisions))]%string) in
        let score := f64_div (f64_add (cv_a_to_b cov) (cv_b_to_a cov)) (f64_of_Z 2) in
        inserted ← insert_edge tenant artifact other etype score evidence;
        mret (if (inserted : bool) then edges + 1 else edges)
    end.

Definition analyze_and_link (tenant artifact : Uuid) (artifact_class : string) (bs : bytes) : Op Srv Z :=
  if negb (one_of artifact_class ["pe"; "elf"; "macho"]%string) then mret 0
  else
    let format := artifact_class in
    analyzer ← lift_outcome (resolve "semantic-function" SEMANTIC_EXTRACTOR_VERSION);
    started ← now;
    '(functions, limitation) ← extract_and_store tenant artifact format bs;
    finished ← now;
    let receipt := mkAnalysisReceipt tenant artifact (an_name analyzer) (an_version analyzer) MODEL_VERSION
      (an_config_digest analyzer) (sha256_hex bs) (len bs) started finished
      (match limitation with Some _ => "limitation" | None => match functions with [] => "empty" | _ => "ok" end end)
      limitation (len functions) 0 (JObj [("format", JStr format); ("architecture", JStr "x86_64")]%string) in
    persist receipt ;;
    match limitation, functions with
    | Some _, _ | None, [] => mret 0
    | None, _ =>
        let '(scoring, decisions) := partition_fns functions in
        store_feature tenant artifact "semantic" "suppression" SEMANTIC_EXTRACTOR_VERSION
          (JObj [("suppressor_version", JStr SUPPRESSOR_VERSION); ("decisions", JArr (map decision_json decisions));
                 ("kept", JInt (len scoring)); ("suppressed", JInt (suppressed_count decisions))]%string) ;;
        match scoring with
        | [] => mret 0
        | _ =>
            '(others, source) ← semantic_candidates tenant artifact scoring;
            edges ← op_fold others 0 (link_one tenant artifact artifact_class scoring decisions receipt source);
            finished ← now;
            persist (mkAnalysisReceipt (rc_tenant receipt) (rc_artifact receipt) (rc_analyzer_name receipt)
              (rc_analyzer_version receipt) (rc_model_version receipt) (rc_config_digest receipt) (rc_input_sha256 receipt)
              (rc_input_size receipt) (rc_started_at receipt) finished (rc_status receipt) (rc_limitation receipt)
              (rc_function_count receipt) edges (rc_metrics receipt)) ;;
            mret edges
        end
    end.

(** *** Pair evidence *)

Definition EVIDENCE_SCHEMA_VERSION : string := "semantic-evidence:v1".
Definition MAX_PAIRS : Z := 64.
Definition MAX_TOKENS : Z := 64.
Definition MAX_RESPONSE_BYTES : Z := 256 * 1024.

Definition clamp (x lo hi : Z) : Z := if x <? lo then lo else if hi <? x then hi else x.

(** The map from offsets to functions: of two functions at one offset the
    later is kept. *)
Definition by_offset (l : list FunctionRow) (off : Z) : option FunctionRow :=
  List.find (fun f => fr_offset f =? off) (rev l).

Definition offset_pairs (a b : list FunctionRow) : list PairScore :=
  flat_map (fun fa =>
    omap (fun fb =>
      let score := jaccard (fr_token_hashes fa) (fr_token_hashes fb) in
      if f64_ge score MATCH_TAU then Some (mkPairScore (fr_offset fa) (fr_offset fb) score) else None) b) a.

(** The greedy loop over offsets. *)
Fixpoint assign_offsets (used_a used_b : list Z) (cands : list PairScore) : list PairScore :=
  match cands with
  | [] => []
  | p :: rest =>
      if bool_decide (pr_a_offset p ∈ used_a) || bool_decide (pr_b_offset p ∈ used_b) then assign_offsets used_a used_b rest
      else p :: assign_offsets (pr_a_offset p :: used_a) (pr_b_offset p :: used_b) rest
  end.

Definition json_opt {A} (f : A -> Json) (o : option A) : Json := match o with Some a => f a | None => JNull end.

Definition side_json (max_tokens off : Z) (f : option FunctionRow) : Json :=
  JObj [("offset", JInt off); ("size", json_opt (fun f => JInt (fr_size f)) f);
        ("name", json_opt JStr (f ← f; fr_name f)); ("insn_count", json_opt (fun f => JInt (fr_insn_count f)) f);
        ("token_hashes_prefix", JArr (map JInt (take (Z.to_nat max_tokens) (match f with Some f => fr_token_hashes f | None => [] end))));
        ("token_count", json_opt (fun f => JInt (len (fr_token_hashes f))) f)]%string.

Definition evidence_pair_json (funcs_a funcs_b : list FunctionRow) (max_tokens : Z) (p : PairScore) : Json :=
  JObj [("a", side_json max_tokens (pr_a_offset p) (by_offset funcs_a (pr_a_offset p)));
        ("b", side_json max_tokens (pr_b_offset p) (by_offset funcs_b (pr_b_offset p)));
        ("score", JFloat (pr_score p));
        ("score_components", JObj [("jaccard", JFloat (pr_score p)); ("tau", JFloat MATCH_TAU)])]%string.

Definition evidence_pairs (funcs_a funcs_b : list FunctionRow) (max_pairs : Z) : list PairScore :=
  truncate (Z.to_nat max_pairs) (assign_offsets [] [] (sort_by pair_le (offset_pairs funcs_a funcs_b))).

Definition function_pair_evidence `{JsonText} (tenant a b : Uuid) (max_pairs max_tokens_per_fn : Z) : Op Srv Json :=
  let max_pairs := clamp max_pairs 1 MAX_PAIRS in
  let max_tokens := clamp max_tokens_per_fn 1 MAX_TOKENS in
  funcs_a ← load_functions tenant a;
  funcs_b ← load_functions tenant b;
  let cov := coverage funcs_a funcs_b in
  let pairs := evidence_pairs funcs_a funcs_b max_pairs in
  let body := JObj [
    ("schema_version", JStr EVIDENCE_SCHEMA_VERSION); ("tenant_id", juuid tenant); ("artifact_a", juuid a);
    ("artifact_b", juuid b); ("extractor_version", JStr SEMANTIC_EXTRACTOR_VERSION); ("model_version", JStr MODEL_VERSION);
    ("model_config_digest", JStr (model_config_digest MODEL_V1)); ("tau", JFloat MATCH_TAU);
    ("matching", JStr "one_to_one_greedy"); ("coverage_a_to_b", JFloat (cv_a_to_b cov));
    ("coverage_b_to_a", JFloat (cv_b_to_a cov)); ("matched_pairs", JInt (cv_matched_pairs cov));
    ("contested_a", JArr (map JInt (cv_contested_a cov))); ("contested_b", JArr (map JInt (cv_contested_b cov)));
    ("unmatched_a", JArr (map JInt (cv_unmatched_a cov))); ("unmatched_b", JArr (map JInt (cv_unmatched_b cov)));
    ("pairs", JArr (map (evidence_pair_json funcs_a funcs_b max_tokens) pairs));
    ("limits", JObj [("max_pairs", JInt max_pairs); ("max_tokens_per_fn", JInt max_tokens);
                     ("max_response_bytes", JInt MAX_RESPONSE_BYTES)])]%string in
  if MAX_RESPONSE_BYTES <? str_len (json_to_string body)
  then throw (BadRequest "evidence response exceeds 262144 bytes; reduce max_pairs")
  else mret body.

(** ** Byte-level analysis ([similarity/edges.rs]) *)

Definition feature_is (tenant : Uuid) (family name : string) (f : SimFeature) : bool :=
  bool_decide (sf_tenant f = tenant) && String.eqb (sf_family f) family && String.eqb (sf_name f) name.

Definition ssdeep_of (tenant artifact : Uuid) (f : SimFeature) : bool :=
  feature_is tenant "byte" "ssdeep" f && bool_decide (sf_artifact_id f = artifact) && String.eqb (sf_version f) EXTRACTOR_VERSION.

(** One LSH candidate: its digest and entropy when it has the same class. *)
Definition lsh_row (tenant : Uuid) (artifact_class : string) (other : Uuid) : Op Srv (list (Uuid * string * f64)) :=
  feature ← select_optional TFeature (ssdeep_of tenant other);
  art ← select_optional TArtifact (artifact_is tenant other);
  match feature, art with
  | Some f, Some a =>
      digest ← or_throw column_null (json_get_str "digest" (sf_value f));
      let entropy := default (f64_of_Z 0) (json_get_float "entropy" (sf_value f)) in
      mret (if String.eqb (art_class a) artifact_class then [(other, digest, entropy)] else [])
  | _, _ => mret []
  end.

Definition class_scan_row (tenant : Uuid) (a : Artifact) : Op Srv (list (Uuid * string * f64)) :=
  feature ← select_optional TFeature (ssdeep_of tenant (art_id a));
  match feature with
  | Some f =>
      digest ← or_throw column_null (json_get_str "digest" (sf_value f));
      entropy ← or_throw column_null (json_get_float "entropy" (sf_value f));
      mret [(art_id a, digest, entropy)]
  | None => mret []
  end.

(** The queries of a list of keys, concatenated. *)
Definition op_concat {A B} (l : list A) (f : A -> Op Srv (list B)) : Op Srv (list B) :=
  op_fold l [] (fun acc x => r ← f x; mret (acc ++ r)).

Definition fuzzy_candidates (tenant artifact : Uuid) (artifact_class ssdeep : string) : Op Srv (list (Uuid * string * f64)) :=
  live ← lsh_populated tenant;
  ids ← (if (live : bool) then lsh_candidates tenant artifact ssdeep else mret []);
  match ids with
  | _ :: _ => op_concat ids (lsh_row tenant artifact_class)
  | [] =>
      arts ← select TArtifact (fun a => bool_decide (art_tenant a = tenant) && String.eqb (art_class a) artifact_class &&
                                        negb (bool_decide (art_id a = artifact)) && (0 <? art_size_bytes a));
      op_concat arts (class_scan_row tenant)
  end.

(** Artifacts other than [artifact] whose feature has the value [v] under [key]. *)
Definition feature_matches (tenant artifact : Uuid) (family name key v : string) : Op Srv (list Uuid) :=
  fs ← select TFeature (fun f => feature_is tenant family name f && negb (bool_decide (sf_artifact_id f = artifact)) &&
                                 bool_decide (json_get_str key (sf_value f) = Some v));
  mret (map sf_artifact_id fs).

Definition count_edge (edges : Z) (inserted : bool) : Z := if inserted then edges + 1 else edges.

Definition normalized_edge (tenant artifact : Uuid) (artifact_class : string) (n : NormalizedFeature) (edges : Z) (other : Uuid) : Op Srv Z :=
  same ← same_class tenant other artifact_class;
  if negb same then mret edges
  else
    inserted ← insert_edge tenant artifact other NORMALIZED_EQUIVALENT (f64_of_Z 1)
      (JObj [("matched_feature", JStr (nf_name n)); ("hash", JStr (nf_hash n)); ("format", JStr artifact_class)]%string);
    mret (count_edge edges inserted).

Definition normalized_edges (tenant artifact : Uuid) (artifact_class : string) (edges : Z) (n : NormalizedFeature) : Op Srv Z :=
  others ← feature_matches tenant artifact "normalized" (nf_name n) "hash" (nf_hash n);
  op_fold others edges (normalized_edge tenant artifact artifact_class n).

Definition size_ratio (a b : Z) : f64 := f64_div (f64_of_Z (Z.max a b)) (f64_of_Z (Z.max (Z.min a b) 1)).

Definition byte_edge (tenant artifact : Uuid) (f : ExtractedFeatures) (edges : Z) (cand : Uuid * string * f64) : Op Srv Z :=
  let '(other, digest, entropy) := cand in
  row ← select_optional TArtifact (artifact_is tenant other);
  a ← or_throw row_not_found row;
  let ratio := size_ratio (ef_size_bytes f) (wrap 64 (art_size_bytes a)) in
  if f64_gt ratio (size_ratio_max MODEL_V1) then mret edges
  else
    let entropy_delta := f64_abs (f64_sub (ef_entropy f) entropy) in
    let score := Fuzzy.compare (ef_ssdeep f) digest in
    if (score <? byte_similar_min_score MODEL_V1) || f64_gt entropy_delta (entropy_delta_max MODEL_V1) then mret edges
    else
      inserted ← insert_edge tenant artifact other BYTE_SIMILAR (f64_of_Z score)
        (JObj [("ssdeep_score", JInt score); ("size_ratio", JFloat ratio); ("entropy_delta", JFloat entropy_delta);
               ("note", JStr "weak lead; never merges variant groups")]%string);
      mret (count_edge edges inserted).

Definition provenance_edge (tenant artifact : Uuid) (hint : string) (edges : Z) (other : Uuid) : Op Srv Z :=
  inserted ← insert_edge tenant artifact other SHARED_PROVENANCE (f64_of_Z 1)
    (JObj [("compiler_hint", JStr hint); ("note", JStr "context edge, never family proof")]%string);
  mret (count_edge edges inserted).

Definition analyze_artifact (tenant artifact : Uuid) (artifact_class : string) (bs : bytes) : Op Srv Z :=
  f ← lift_outcome (extract bs);
  store_features tenant artifact f ;;
  store_bands tenant artifact (ef_ssdeep f) ;;
  edges ← op_fold (ef_normalized f) 0 (normalized_edges tenant artifact artifact_class);
  bucket ← fuzzy_candidates tenant artifact artifact_class (ef_ssdeep f);
  edges ← op_fold bucket edges (byte_edge tenant artifact f);
  _ ← analyze_and_link tenant artifact artifact_class bs;
  match ef_compiler_hint f with
  | None => mret edges
  | Some hint =>
      others ← feature_matches tenant artifact "provenance" "compiler_hint" "value" hint;
      op_fold others edges (provenance_edge tenant artifact hint)
  end.

Definition analyze_new_artifact (tenant artifact : Uuid) (artifact_class : string) (bs : bytes) : Op Srv Z :=
  analyze_artifact tenant artifact artifact_class bs.

Definition by_seq (a b : Artifact) : bool := art_seq a <=? art_seq b.

Definition backfill (tenant : Uuid) : Op Srv Z :=
  features ← select TFeature (fun f => bool_decide (sf_tenant f = tenant) && String.eqb (sf_version f) EXTRACTOR_VERSION);
  pending ← select TArtifact (fun a => bool_decide (art_tenant a = tenant) && String.eqb (art_storage_state a) "committed" &&
    negb (existsb (fun f => bool_decide (sf_artifact_id f = art_id a)) features));
  op_fold (sort_by by_seq pending) 0 (fun n a =>
    bs ← with_cas (read (art_object_key a));
    _ ← analyze_artifact tenant (art_id a) (art_class a) bs;
    mret (n + 1)).

(** ** Views *)

Definition edge_le (a b : SimEdge) : bool :=
  if String.eqb (se_edge_type a) (se_edge_type b) then f64_ge (se_score a) (se_score b)
  else str_leb (se_edge_type a) (se_edge_type b).

Definition touches (tenant artifact : Uuid) (e : SimEdge) : bool :=
  bool_decide (se_tenant e = tenant) && (bool_decide (se_src e = artifact) || bool_decide (se_dst e = artifact)).

Definition edges_for (tenant artifact : Uuid) : Op Srv (list SimEdge) :=
  es ← select TEdge (touches tenant artifact);
  mret (sort_by edge_le es).

Definition group_members (tenant artifact : Uuid) : Op Srv (option Uuid * list (Uuid * bytes)) :=
  group ← group_of tenant artifact;
  match group with
  | None => mret (None, [])
  | Some g =>
      members ← select TMember (in_group tenant g);
      arts ← select TArtifact (fun a => bool_decide (art_tenant a = tenant));
      let joined := flat_map (fun m => List.filter (fun a => bool_decide (art_id a = vm_artifact_id m)) arts) members in
      mret (Some g, map (fun a => (art_id a, art_sha256 a))
                        (sort_by (fun a b => art_first_committed_at a <=? art_first_committed_at b) joined))
  end.

Definition artifact_by_sha (tenant : Uuid) (raw : bytes) (a : Artifact) : bool :=
  bool_decide (art_tenant a = tenant) && bool_decide (art_sha256 a = raw).

(** [SimilarEdgeView]: the other artifact with its hash, and the edge. *)
Definition similar_view (tenant : Uuid) (sha256_hex : string) : Op Srv (option (Uuid * string * list (Uuid * string * SimEdge))) :=
  match hex_to_raw sha256_hex with
  | None => mret None
  | Some raw =>
      found ← select_optional TArtifact (artifact_by_sha tenant raw);
      match found with
      | None => mret None
      | Some art =>
          es ← edges_for tenant (art_id art);
          out ← op_concat es (fun e =>
            let other := if bool_decide (se_src e = art_id art) then se_dst e else se_src e in
            row ← select_optional TArtifact (artifact_is tenant other);
            a ← or_throw row_not_found row;
            mret [(other, hex_encode (art_sha256 a), e)]);
          mret (Some (art_id art, sha256_hex, out))
      end
  end.

Definition variants_view (tenant : Uuid) (sha256_hex : string) :
    Op Srv (option (Uuid * string * option Uuid * list (Uuid * string * string * Time))) :=
  match hex_to_raw sha256_hex with
  | None => mret None
  | Some raw =>
      found ← select_optional TArtifact (artifact_by_sha tenant raw);
      match found with
      | None => mret None
      | Some art =>
          '(group, members) ← group_members tenant (art_id art);
          out ← op_concat members (fun '(id, sha) =>
            row ← select_optional TArtifact (artifact_is tenant id);
            mret (match row with
                  | Some a => [(id, hex_encode sha, art_class a, art_first_committed_at a)]
                  | None => [] end));
          mret (Some (art_id art, sha256_hex, group, out))
      end
  end.
End variants.

(** ** Coverage is a maximal one-to-one matching *)

Lemma assign_spec used_a used_b cands :
  let r := assign used_a used_b cands in
  (forall c, In c r -> In c cands /\ (cand_i c ∉ used_a) /\ (cand_j c ∉ used_b)) /\
  NoDup (map cand_i r) /\ NoDup (map cand_j r) /\
  (forall c, In c cands -> (cand_i c ∈ used_a \/ In (cand_i c) (map cand_i r)) \/ (cand_j c ∈ used_b \/ In (cand_j c) (map cand_j r))).
Proof.
  revert used_a used_b. induction cands as [|c cands IH]; intros ua ub; cbn zeta; cbn [assign].
  { split; [done|]. split; [apply NoDup_nil_2|]. split; [apply NoDup_nil_2|done]. }
  destruct (bool_decide (cand_i c ∈ ua) || bool_decide (cand_j c ∈ ub)) eqn:E.
  - destruct (IH ua ub) as (A1 & A2 & A3 & A4). split; [|split; [done|split; [done|]]].
    + intros d Hd. apply A1 in Hd as (? & ? & ?). split; [by right|done].
    + intros d [<-|Hd]; [|auto]. apply orb_true_iff in E. rewrite !bool_decide_eq_true in E. tauto.
  - apply orb_false_iff in E. rewrite !bool_decide_eq_false in E. destruct E as [Ei Ej].
    destruct (IH (cand_i c :: ua) (cand_j c :: ub)) as (A1 & A2 & A3 & A4). cbn [map]. split; [|split; [|split]].
    + intros d [<-|Hd]; [split; [by left|done]|]. apply A1 in Hd as (? & Hi & Hj).
      split; [by right|]. rewrite not_elem_of_cons in Hi, Hj. tauto.
    + apply NoDup_cons. split; [|done]. rewrite list_elem_of_In, in_map_iff. intros (d & Hd & Hin).
      apply A1 in Hin as (_ & Hi & _). apply Hi. rewrite Hd. by left.
    + apply NoDup_cons. split; [|done]. rewrite list_elem_of_In, in_map_iff. intros (d & Hd & Hin).
      apply A1 in Hin as (_ & _ & Hj). apply Hj. rewrite Hd. by left.
    + intros d [<-|Hd]; [left; right; by left|]. specialize (A4 d Hd). rewrite !elem_of_cons in A4. cbn [In].
      destruct A4 as [[[?|?]|?]|[[?|?]|?]]; [left; right; left; congruence|tauto..| |tauto|tauto]. right. right. left. congruence.
Qed.

Lemma pair_candidates_in a b tau i j score :
  In (i, j, score) (pair_candidates a b tau) <->
  exists fa fb, a !! i = Some fa /\ b !! j = Some fb /\
    score = jaccard (fr_token_hashes fa) (fr_token_hashes fb) /\ f64_ge score tau = true.
Proof.
  unfold pair_candidates. rewrite in_flat_map. split.
  - intros ([i' fa] & Hi & Hin). apply enumerate_lookup in Hi. apply list_elem_of_In, list_elem_of_omap in Hin as ([j' fb] & Hj & Hc).
    apply list_elem_of_In, enumerate_lookup in Hj. destruct (f64_ge _ tau) eqn:E; [|done]. injection Hc as <- <- <-. exists fa, fb. done.
  - intros (fa & fb & Hi & Hj & -> & Hge). exists (i, fa). split; [by apply enumerate_lookup|].
    apply list_elem_of_In, list_elem_of_omap. exists (j, fb). split; [by apply list_elem_of_In, enumerate_lookup|].
    cbv zeta. by rewrite Hge.
Qed.

(** Counting a subset of the positions of a list. *)
Lemma offsets_where_len p l : len (offsets_where p l) = len (List.filter p (seq 0 (length l))).
Proof.
  unfold offsets_where, len. rewrite length_map. f_equal. unfold enumerate.
  assert (Hgen : forall k, length (List.filter (fun q : nat * FunctionRow => p (fst q)) (zip (seq k (length l)) l)) =
                           length (List.filter p (seq k (length l)))); [|apply Hgen].
  induction l as [|x l IH]; intros k; [done|]. cbn [length seq zip zip_with List.filter fst].
  change (zip_with pair (seq (S k) (length l)) l) with (zip (seq (S k) (length l)) l).
  destruct (p k); cbn [length]; by rewrite IH.
Qed.

Lemma count_positions n (l : list nat) :
  NoDup l -> (forall i, In i l -> (i < n)%nat) -> len (List.filter (fun i => bool_decide (i ∈ l)) (seq 0 n)) = len l.
Proof.
  intros Hnd Hlt. unfold len. f_equal. apply Permutation_length, NoDup_Permutation; [|done|].
  - apply nodup_list_filter, NoDup_seq.
  - intros i. rewrite list_elem_of_In, filter_In, bool_decide_eq_true, in_seq. split; [tauto|].
    intros Hi. split; [|done]. apply list_elem_of_In in Hi. specialize (Hlt i Hi). lia.
Qed.

(** The positions of a side are matched, contested or without a candidate, and
    only one of these. *)
Lemma side_accounting (l : list FunctionRow) (had used : list nat) :
  NoDup used -> (forall i, In i used -> (i < length l)%nat /\ In i had) ->
  len used + len (offsets_where (fun i => bool_decide (i ∈ had) && negb (bool_decide (i ∈ used))) l) +
    len (offsets_where (fun i => negb (bool_decide (i ∈ had))) l) = len l.
Proof.
  intros Hnd Hu. rewrite !offsets_where_len. rewrite <- (count_positions (length l) used) by (done || intros i Hi; by apply Hu).
  assert (Hs : len l = len (seq 0 (length l))) by (unfold len; by rewrite length_seq). rewrite Hs. unfold len. clear Hs.
  induction (seq 0 (length l)) as [|i k IH]; [done|]. cbn [List.filter].
  destruct (decide (i ∈ used)) as [Hi|Hi].
  - assert (Hh : i ∈ had) by (apply list_elem_of_In; apply list_elem_of_In in Hi; by apply Hu).
    rewrite !bool_decide_true by done. cbn [andb negb length]. lia.
  - rewrite (bool_decide_false (i ∈ used)) by done. destruct (decide (i ∈ had)).
    + rewrite !bool_decide_true by done. cbn [andb negb length]. lia.
    + rewrite !bool_decide_false by done. cbn [andb negb length]. lia.
Qed.

(** Coverage matches the two sets of functions one to one: no function is used
    twice, every matched pair reaches the threshold, and a pair that reaches it
    has at least one of its functions matched.  So each function is matched,
    contested or without a candidate, and only one of these; the two coverages
    are the matched share of each side, which is at most 1. *)
Theorem coverage_one_to_one a b tau :
  let cov := coverage_with_tau a b tau in
  exists chosen : list (nat * nat),
    cv_matched_pairs cov = len chosen /\ NoDup (map fst chosen) /\ NoDup (map snd chosen) /\
    (forall i j, In (i, j) chosen -> exists fa fb, a !! i = Some fa /\ b !! j = Some fb /\
       f64_ge (jaccard (fr_token_hashes fa) (fr_token_hashes fb)) tau = true) /\
    (forall i j fa fb, a !! i = Some fa -> b !! j = Some fb ->
       f64_ge (jaccard (fr_token_hashes fa) (fr_token_hashes fb)) tau = true ->
       In i (map fst chosen) \/ In j (map snd chosen)) /\
    cv_matched_pairs cov + len (cv_contested_a cov) + len (cv_unmatched_a cov) = len a /\
    cv_matched_pairs cov + len (cv_contested_b cov) + len (cv_unmatched_b cov) = len b /\
    (a <> [] -> cv_a_to_b cov = f64_div (f64_of_Z (len chosen)) (f64_of_Z (len a))) /\
    (b <> [] -> cv_b_to_a cov = f64_div (f64_of_Z (len chosen)) (f64_of_Z (len b))).
Proof.
  cbn zeta. unfold coverage_with_tau. set (cands := sort_by (candidate_le a b) (pair_candidates a b tau)).
  set (chosen := assign [] [] cands). destruct (assign_spec [] [] cands) as (A1 & A2 & A3 & A4). fold chosen in A1, A2, A3, A4.
  assert (Hc : forall c, In c cands <-> In c (pair_candidates a b tau)) by (intros c; apply sort_by_in).
  cbn [cv_matched_pairs cv_contested_a cv_contested_b cv_unmatched_a cv_unmatched_b cv_a_to_b cv_b_to_a].
  set (assigned := map _ chosen).
  assert (Hla : len assigned = len chosen) by (unfold assigned, len; by rewrite length_map).
  assert (Hm : len assigned = len (map fst chosen)) by (rewrite Hla; unfold len; by rewrite length_map).
  exists (map fst chosen). split; [exact Hm|]. rewrite !map_map. do 2 (split; [done|]).
  assert (Hpairs : forall i j s, In (i, j, s) chosen -> exists fa fb, a !! i = Some fa /\ b !! j = Some fb /\
       f64_ge (jaccard (fr_token_hashes fa) (fr_token_hashes fb)) tau = true).
  { intros i j s Hin. apply A1 in Hin as (Hin & _). apply Hc, pair_candidates_in in Hin as (fa & fb & ? & ? & -> & ?). eauto. }
  split; [|split; [|split; [|split; [|split]]]].
  - intros i j Hin. apply in_map_iff in Hin as ([[i' j'] s] & [= -> ->] & Hin). eauto.
  - intros i j fa fb Hi Hj Hge.
    assert (Hin : In (i, j, jaccard (fr_token_hashes fa) (fr_token_hashes fb)) cands)
      by (apply Hc, pair_candidates_in; exists fa, fb; done).
    destruct (A4 _ Hin) as [[Hx|Hx]|[Hx|Hx]]; [by apply not_elem_of_nil in Hx|by left|by apply not_elem_of_nil in Hx|by right].
  - rewrite Hla. replace (len chosen) with (len (map cand_i chosen)) by (unfold len; by rewrite length_map).
    apply side_accounting; [done|]. intros i Hi. apply in_map_iff in Hi as ([[i' j'] s] & <- & Hin).
    destruct (Hpairs _ _ _ Hin) as (fa & fb & Hfa & _). split; [by eapply lookup_lt_Some|]. apply in_map. by apply A1.
  - rewrite Hla. replace (len chosen) with (len (map cand_j chosen)) by (unfold len; by rewrite length_map).
    apply side_accounting; [done|]. intros i Hi. apply in_map_iff in Hi as ([[i' j'] s] & <- & Hin).
    destruct (Hpairs _ _ _ Hin) as (fa & fb & _ & Hfb & _). split; [by eapply lookup_lt_Some|]. apply in_map. by apply A1.
  - intros Ha. rewrite Hm. by destruct a.
  - intros Hb. rewrite Hm. by destruct b.
Qed.

(** ** Variant groups are the components of the strong edges *)

(** The group of an artifact, read off a list of memberships. *)
Definition gof (M : list VariantMember) (t x : Uuid) : option Uuid :=
  vm_group_id <$> head (List.filter (member_is t x) M).

Definition same_group (M : list VariantMember) (t x y : Uuid) : Prop :=
  exists g, gof M t x = Some g /\ gof M t y = Some g.

Definition is_strong (e : SimEdge) : bool := merges_groups (se_edge_type e).

Definition strong_edge (E : list SimEdge) (t x y : Uuid) : Prop :=
  exists e, In e E /\ se_tenant e = t /\ is_strong e = true /\
    ((se_src e = x /\ se_dst e = y) \/ (se_src e = y /\ se_dst e = x)).

(** Connected by strong edges. *)
Definition linked (E : list SimEdge) (t : Uuid) : Uuid -> Uuid -> Prop := rtc (strong_edge E t).

Lemma gof_some M t x g :
  NoDup (map member_key M) -> gof M t x = Some g <-> In (mkVariantMember t g x) M.
Proof.
  intros Hnd. unfold gof. split.
  - destruct (head _) as [m|] eqn:E; [|done]. intros [= <-]. apply head_filter_in in E as [Hin Hm].
    unfold member_is in Hm. rewrite andb_true_iff, !bool_decide_eq_true in Hm. destruct Hm as [<- <-]. by destruct m.
  - intros Hin. induction M as [|m M IH]; [done|]. cbn [map] in Hnd. apply NoDup_cons in Hnd as [Hm Hnd].
    cbn [List.filter]. destruct Hin as [->|Hin].
    + unfold member_is. cbn. by rewrite !bool_decide_true.
    + destruct (member_is t x m) eqn:E; [|auto]. exfalso. apply Hm. apply list_elem_of_In, in_map_iff.
      exists (mkVariantMember t g x). split; [|done]. unfold member_is in E. rewrite andb_true_iff, !bool_decide_eq_true in E.
      destruct E as [<- <-]. done.
Qed.

Lemma gof_none M t x : gof M t x = None <-> (t, x) ∉ map member_key M.
Proof.
  unfold gof. rewrite list_elem_of_In, in_map_iff. split.
  - destruct (head _) eqn:E; [done|]. intros _ (m & Hk & Hm). pose proof (head_filter_none _ _ E m Hm) as Hf.
    unfold member_is in Hf. injection Hk as <- <-. by rewrite !bool_decide_true in Hf.
  - intros Hn. destruct (head _) as [m|] eqn:E; [|done]. exfalso. apply Hn. apply head_filter_in in E as [Hin Hm].
    unfold member_is in Hm. rewrite andb_true_iff, !bool_decide_eq_true in Hm. destruct Hm as [<- <-]. by exists m.
Qed.

Lemma gof_add M t g x t' y :
  gof M t x = None -> gof (M ++ [mkVariantMember t g x]) t' y = if bool_decide (t' = t /\ y = x) then Some g else gof M t' y.
Proof.
  intros Hn. unfold gof at 1. rewrite List.filter_app. cbn [List.filter]. case_bool_decide as E.
  - destruct E as [-> ->]. unfold member_is at 2. cbn. rewrite !bool_decide_true by done. cbn.
    unfold gof in Hn. by destruct (List.filter (member_is t x) M).
  - unfold member_is at 2. cbn.
    assert (Hf : bool_decide (t = t') && bool_decide (x = y) = false).
    { apply andb_false_iff. rewrite !bool_decide_eq_false. destruct (decide (t = t')); [right|by left]. naive_solver. }
    by rewrite Hf, app_nil_r.
Qed.

Definition move_all (t keep drop_g : Uuid) (M : list VariantMember) : list VariantMember :=
  map (fun m => if in_group t drop_g m then move_member keep m else m) M.

Lemma move_all_keys t keep drop_g M : map member_key (move_all t keep drop_g M) = map member_key M.
Proof.
  unfold move_all. rewrite map_map. apply map_ext. intros m. by destruct (in_group t drop_g m).
Qed.

Lemma gof_move M t keep drop_g t' y :
  gof (move_all t keep drop_g M) t' y =
  if bool_decide (t' = t /\ gof M t' y = Some drop_g) then Some keep else gof M t' y.
Proof.
  unfold gof. induction M as [|m M IH]; [by rewrite bool_decide_false by naive_solver|].
  cbn [move_all map List.filter]. fold (move_all t keep drop_g M).
  assert (Hm : member_is t' y (if in_group t drop_g m then move_member keep m else m) = member_is t' y m)
    by (by destruct (in_group t drop_g m)).
  rewrite Hm. destruct (member_is t' y m) eqn:E; [|done]. cbn [head fmap option_map option_fmap].
  unfold member_is in E. rewrite andb_true_iff, !bool_decide_eq_true in E. destruct E as [<- <-].
  unfold in_group. destruct (decide (vm_tenant m = t)) as [Ht|Ht]; [rewrite (bool_decide_true (vm_tenant m = t)) by done|].
  - cbn [andb]. destruct (decide (vm_group_id m = drop_g)) as [Hg|Hg].
    + rewrite !bool_decide_true; [done|naive_solver|done].
    + rewrite !bool_decide_false; [done|naive_solver|done].
  - rewrite (bool_decide_false (vm_tenant m = t)) by done. cbn [andb]. by rewrite bool_decide_false by naive_solver.
Qed.

(** What [union_groups] must achieve on the memberships. *)
Record unions (M M' : list VariantMember) (t a b : Uuid) : Prop := {
  un_unique : NoDup (map member_key M');
  un_kept : forall t' x y, same_group M t' x y -> same_group M' t' x y;
  un_joined : same_group M' t a b;
  un_only : forall t' x y, same_group M' t' x y ->
    same_group M t' x y \/ x = y \/ (t' = t /\ (x = a \/ x = b \/ same_group M t a x \/ same_group M t b x) /\
                               (y = a \/ y = b \/ same_group M t a y \/ same_group M t b y)) }.

Lemma unions_add M t g a b :
  NoDup (map member_key M) -> gof M t a = Some g -> gof M t b = None -> unions M (M ++ [mkVariantMember t g b]) t a b.
Proof.
  intros Hnd Ha Hb. pose proof (fun t' y => gof_add M t g b t' y Hb) as Hg. constructor.
  - rewrite map_app. apply NoDup_app. split; [done|]. split; [|apply NoDup_singleton]. intros k Hk Hk'.
    apply list_elem_of_singleton in Hk' as ->. by apply gof_none in Hb.
  - intros t' x y (g' & Hx & Hy). exists g'. rewrite !Hg. 
    rewrite !bool_decide_false; [done|intros [-> ->]; congruence|intros [-> ->]; congruence].
  - exists g. rewrite !Hg. rewrite (bool_decide_true (t = t /\ b = b)) by done. case_bool_decide; done.
  - intros t' x y (g' & Hx & Hy). rewrite Hg in Hx, Hy.
    destruct (decide (t' = t)) as [->|Ht].
    2: { rewrite bool_decide_false in Hx, Hy by naive_solver. left. by exists g'. }
    destruct (decide (x = b)) as [->|Hnx], (decide (y = b)) as [->|Hny].
    + by right; left.
    + rewrite bool_decide_true in Hx by done. rewrite bool_decide_false in Hy by naive_solver. simplify_eq.
      right. right. split; [done|]. split; [tauto|]. do 2 right. left. by exists g'.
    + rewrite bool_decide_true in Hy by done. rewrite bool_decide_false in Hx by naive_solver. simplify_eq.
      right. right. split; [done|]. split; [|tauto]. do 2 right. left. by exists g'.
    + rewrite bool_decide_false in Hx, Hy by naive_solver. left. by exists g'.
Qed.

Lemma unions_sym M M' t a b : unions M M' t a b -> unions M M' t b a.
Proof.
  intros [U1 U2 U3 U4]. constructor; [done|done|destruct U3 as (g & ? & ?); by exists g|].
  intros t' x y Hs. apply U4 in Hs as [?|[?|(? & ? & ?)]]; [by left|by right; left|]. right. right. tauto.
Qed.

Lemma unions_move M t g1 g2 keep drop_g a b :
  NoDup (map member_key M) -> gof M t a = Some g1 -> gof M t b = Some g2 -> g1 <> g2 ->
  (keep = g1 /\ drop_g = g2) \/ (keep = g2 /\ drop_g = g1) -> unions M (move_all t keep drop_g M) t a b.
Proof.
  intros Hnd Ha Hb Hne Hkd. pose proof (gof_move M t keep drop_g) as Hg. constructor.
  - by rewrite move_all_keys.
  - intros t' x y (g & Hx & Hy). unfold same_group. rewrite !Hg, Hx, Hy. case_bool_decide; eauto.
  - exists keep. rewrite !Hg, Ha, Hb. destruct Hkd as [[-> ->]|[-> ->]]; repeat case_bool_decide; naive_solver.
  - intros t' x y (g & Hx & Hy). rewrite Hg in Hx, Hy.
    assert (Hcls : forall z, gof M t z = Some keep \/ gof M t z = Some drop_g ->
              z = a \/ z = b \/ same_group M t a z \/ same_group M t b z).
    { intros z Hz. do 2 right. unfold same_group. destruct Hkd as [[-> ->]|[-> ->]], Hz as [Hz|Hz]; eauto. }
    destruct (decide (t' = t /\ gof M t' x = Some drop_g)) as [[-> Hdx]|Hnx].
    + rewrite bool_decide_true in Hx by done. injection Hx as <-. right. right. split; [done|]. split; [apply Hcls; by right|].
      case_bool_decide; [apply Hcls; right; tauto|apply Hcls; by left].
    + rewrite bool_decide_false in Hx by done. case_bool_decide as Hdy; [|left; by exists g].
      destruct Hdy as [-> Hdy]. injection Hy as <-. right. right. split; [done|]. split; [apply Hcls; by left|apply Hcls; by right].
Qed.

Lemma unions_new M t g a b :
  NoDup (map member_key M) -> gof M t a = None -> gof M t b = None -> a <> b -> g ∉ map vm_group_id M ->
  unions M ((M ++ [mkVariantMember t g a]) ++ [mkVariantMember t g b]) t a b.
Proof.
  intros Hnd Ha Hb Hab Hfresh.
  assert (Hb' : gof (M ++ [mkVariantMember t g a]) t b = None) by (rewrite gof_add by done; by rewrite bool_decide_false by naive_solver).
  assert (Hg : forall t' y, gof ((M ++ [mkVariantMember t g a]) ++ [mkVariantMember t g b]) t' y =
    if bool_decide (t' = t /\ (y = a \/ y = b)) then Some g else gof M t' y).
  { intros t' y. rewrite gof_add by done. rewrite gof_add by done. repeat case_bool_decide; naive_solver. }
  assert (Hold : forall t' y, gof M t' y <> Some g).
  { intros t' y Hy. apply gof_some in Hy; [|done]. apply Hfresh, list_elem_of_In, in_map_iff. eexists. by split; [|exact Hy]. }
  constructor.
  - rewrite !map_app. cbn [map]. rewrite <- app_assoc. apply NoDup_app. split; [done|]. split.
    + intros k Hk [->|Hk']%elem_of_cons; [by apply gof_none in Ha|]. apply list_elem_of_singleton in Hk' as ->. by apply gof_none in Hb.
    + apply NoDup_cons. split; [|apply NoDup_singleton]. intros Heq%list_elem_of_singleton. injection Heq as ->. done.
  - intros t' x y (g' & Hx & Hy). exists g'. rewrite !Hg.
    rewrite !bool_decide_false; [done|intros [-> [->| ->]]; congruence|intros [-> [->| ->]]; congruence].
  - exists g. rewrite !Hg. rewrite !bool_decide_true; naive_solver.
  - intros t' x y (g' & Hx & Hy). rewrite Hg in Hx, Hy.
    destruct (decide (t' = t /\ (x = a \/ x = b))) as [Hdx|Hdx]; [rewrite bool_decide_true in Hx by done|rewrite bool_decide_false in Hx by done];
    (destruct (decide (t' = t /\ (y = a \/ y = b))) as [Hdy|Hdy]; [rewrite bool_decide_true in Hy by done|rewrite bool_decide_false in Hy by done]).
    + right. right. tauto.
    + injection Hx as <-. by apply Hold in Hy.
    + injection Hy as <-. by apply Hold in Hx.
    + left. by exists g'.
Qed.

(** *** The invariant *)

(** The identifiers still to come are distinct, and no group has one of them. *)
Definition fresh_groups (s : Srv) : Prop :=
  (forall n, (srv_uuid_next s <= n)%nat ->
     (srv_uuids s n ∉ map vm_group_id (rows TMember s)) /\ (srv_uuids s n ∉ map vg_id (rows TGroup s))) /\
  (forall n m, (srv_uuid_next s <= n)%nat -> (srv_uuid_next s <= m)%nat -> srv_uuids s n = srv_uuids s m -> n = m).

Record variants_inv (s : Srv) : Prop := {
  vi_order : all_rows TEdge (fun e => (se_src e < se_dst e)%N) s;
  vi_members : unique_key TMember member_key s;
  vi_fresh : fresh_groups s;
  (** the endpoints of a strong edge have one group *)
  vi_grouped : forall e, In e (rows TEdge s) -> is_strong e = true -> same_group (rows TMember s) (se_tenant e) (se_src e) (se_dst e);
  (** the members of a group are connected by strong edges *)
  vi_connected : forall t x y, x <> y -> same_group (rows TMember s) t x y -> linked (rows TEdge s) t x y }.

(** An operation that only takes identifiers off the supply. *)
Definition advances {A} (m : Op Srv A) : Prop :=
  forall s, srv_uuids (snd (m s)) = srv_uuids s /\ (srv_uuid_next s <= srv_uuid_next (snd (m s)))%nat.

Lemma advances_bind {A B} (m : Op Srv A) (f : A -> Op Srv B) :
  advances m -> (forall a, advances (f a)) -> advances (m ≫= f).
Proof.
  intros Hm Hf s. unfold mbind, op_mbind. destruct (Hm s) as [H1 H2]. destruct (m s) as [[a|e|] s']; cbn [snd] in *; [|done..].
  destruct (Hf a s') as [H3 H4]. split; [congruence|lia].
Qed.

Lemma advances_for {A} (l : list A) f : (forall x, advances (f x)) -> advances (op_for l f).
Proof. intros Hf. induction l; cbn [op_for]; [by intros s|]. by apply advances_bind. Qed.

Lemma advances_pure {A} (m : Op Srv A) :
  (forall s, srv_uuids (snd (m s)) = srv_uuids s) -> (forall s, (srv_uuid_next s <= srv_uuid_next (snd (m s)))%nat) -> advances m.
Proof. intros H1 H2 s. auto. Qed.

Lemma advances_insert {K} `{EqDecision K} t (key : row t -> K) r : advances (insert_on_conflict t key r).
Proof. intros s. unfold insert_on_conflict. by case_match. Qed.

Lemma advances_upsert {K} `{EqDecision K} t (key : row t -> K) r f : advances (upsert t key r f).
Proof. intros s. unfold upsert. by case_match. Qed.

Lemma advances_insert_unique {K} `{EqDecision K} t (key : row t -> K) r : advances (insert_unique t key r).
Proof. apply advances_bind; [apply advances_insert|]. by intros [] s. Qed.

Ltac advances_step :=
  lazymatch goal with
  | |- advances (insert_unique _ _ _) => apply advances_insert_unique
  | |- advances (insert_on_conflict _ _ _) => apply advances_insert
  | |- advances (upsert _ _ _ _) => apply advances_upsert
  | |- advances (mbind _ _) => apply advances_bind; [|intros ?]
  | |- advances (op_for _ _) => apply advances_for; intros ?
  | |- advances (match ?x with _ => _ end) => destruct x
  | |- advances (let _ := _ in _) => cbv zeta
  | |- advances _ => apply advances_pure; intros ?; [reflexivity|first [apply Nat.le_refl | apply Nat.le_succ_diag_r]]
  end.
Ltac advances_tac := repeat advances_step.

(** An operation that leaves edges, memberships and groups alone. *)
Record quiet {A} (m : Op Srv A) : Prop := {
  qu_edges : frames (rows TEdge) m; qu_members : frames (rows TMember) m; qu_groups : frames (rows TGroup) m;
  qu_advances : advances m }.

Ltac quiet_tac := constructor; [frames_tac|frames_tac|frames_tac|advances_tac].

Lemma fresh_groups_quiet {A} (m : Op Srv A) s :
  frames (rows TMember) m -> frames (rows TGroup) m -> advances m -> fresh_groups s -> fresh_groups (snd (m s)).
Proof.
  intros Hm Hg Ha [H1 H2]. destruct (Ha s) as [Hu Hn]. unfold fresh_groups. rewrite Hm, Hg, Hu. split.
  - intros n Hn'. apply H1. lia.
  - intros n k Hn' Hk. apply H2; lia.
Qed.

Lemma keeps_quiet {A} (m : Op Srv A) : quiet m -> keeps variants_inv m.
Proof.
  intros [He Hm Hg Ha] s [I1 I2 I3 I4 I5]. constructor.
  - unfold all_rows. by rewrite He.
  - unfold unique_key. by rewrite Hm.
  - by apply fresh_groups_quiet.
  - rewrite He, Hm. done.
  - rewrite He, Hm. done.
Qed.

Lemma quiet_now : quiet now.
Proof. quiet_tac. Qed.

Lemma quiet_fire tenant condition event : quiet (fire tenant condition event).
Proof. unfold fire. quiet_tac. Qed.

(** The list form of [gof], as the query answers it. *)
Lemma group_of_run t x s : group_of t x s = (Ret (gof (rows TMember s) t x), s).
Proof. done. Qed.

Lemma add_member_run t g x s :
  gof (rows TMember s) t x = None ->
  add_member t g x s = (Ret tt, set_rows TMember (rows TMember s ++ [mkVariantMember t g x]) s).
Proof.
  intros Hn. unfold add_member. op_unfold. rewrite insert_on_conflict_new; [done|]. by apply gof_none in Hn.
Qed.

Section union.
  Context {SHA : Sha256} {HEX : HexCodec} {UD : UuidDisplay} {GOB : Goblin} {LOG : Log2} {DEC : X86Decoder} {HO : HashOrder}.

Lemma fire_join_quiet t g x : quiet (fire_variant_join t g x).
Proof.
  unfold fire_variant_join. destruct (quiet_fire t CONDITION_VARIANT_JOIN
    (JObj [("type", JStr "variant_join"); ("group_id", juuid g); ("artifact_id", juuid x)]%string)) as [Q1 Q2 Q3 Q4].
  constructor; [apply frames_bind; [done|by intros ? ?]..|apply advances_bind; [done|by intros ? ?]].
Qed.

(** Adding a member to an existing group of a member. *)
Lemma fresh_groups_member t g x s :
  In g (map vm_group_id (rows TMember s)) -> fresh_groups s ->
  fresh_groups (set_rows TMember (rows TMember s ++ [mkVariantMember t g x]) s).
Proof.
  intros Hg [H1 H2]. split; [|exact H2]. intros n Hn. destruct (H1 n Hn) as [Hm Hv].
  split; [|by rewrite rows_set_rows_ne]. rewrite rows_set_rows_eq, map_app. intros Hin.
  apply elem_of_app in Hin as [Hin|Hin]; [done|]. apply list_elem_of_singleton in Hin. cbn in Hin. apply Hm.
  change (srv_uuids s n = g) in Hin. rewrite Hin. by apply list_elem_of_In.
Qed.

Lemma gof_group M t x g : gof M t x = Some g -> In g (map vm_group_id M).
Proof.
  unfold gof. destruct (head _) as [m|] eqn:E; [|done]. intros [= <-]. apply head_filter_in in E as [Hin _]. by apply in_map.
Qed.

Lemma union_groups_spec t a b s :
  unique_key TMember member_key s -> fresh_groups s -> a <> b ->
  let s' := snd (union_groups t a b s) in
  rows TEdge s' = rows TEdge s /\ unions (rows TMember s) (rows TMember s') t a b /\ fresh_groups s'.
Proof.
  intros Hu Hf Hab. cbn zeta. unfold union_groups.
  rewrite (bind_run _ _ _ _ _ (group_of_run t a s)), (bind_run _ _ _ _ _ (group_of_run t b s)).
  destruct (gof (rows TMember s) t a) as [g1|] eqn:Ea, (gof (rows TMember s) t b) as [g2|] eqn:Eb.
  - case_decide as Hne.
    { subst. split; [done|]. split; [|done]. constructor; [exact Hu|auto|by exists g2|auto]. }
    set (keep := N.min g1 g2). set (drop_g := N.max g1 g2). op_unfold. unfold update_rows, delete_rows. cbn [snd].
    rewrite !(rows_set_rows_ne TGroup) by done. rewrite rows_set_rows_eq, rows_set_rows_ne by done.
    split; [done|]. split.
    + apply unions_move with g1 g2; [exact Hu|done|done|done|]. unfold keep, drop_g. lia.
    + destruct Hf as [H1 H2]. split; [|exact H2]. intros n Hn. destruct (H1 n Hn) as [Hm Hv].
      rewrite !(rows_set_rows_ne TGroup TMember) by done. rewrite !rows_set_rows_eq. rewrite rows_set_rows_ne by done.
      change ((srv_uuids s n ∉ map vm_group_id (move_all t keep drop_g (rows TMember s))) /\
              (srv_uuids s n ∉ map vg_id (List.filter (fun x => negb (group_is t drop_g x)) (rows TGroup s)))). split.
      * rewrite list_elem_of_In, in_map_iff. intros (m' & Hg & Hin). apply in_map_iff in Hin as (m & <- & Hin).
        apply Hm. destruct (in_group t drop_g m).
        -- cbn in Hg. rewrite <- Hg. apply list_elem_of_In. unfold keep.
           destruct (N.min_spec g1 g2) as [[_ ->]|[_ ->]]; by eapply gof_group.
        -- rewrite <- Hg. apply list_elem_of_In. by apply in_map.
      * rewrite list_elem_of_In, in_map_iff. intros (v & Hg & Hin). apply filter_In in Hin as [Hin _].
        apply Hv. rewrite <- Hg. apply list_elem_of_In. by apply in_map.
  - rewrite (bind_run _ _ _ _ _ (add_member_run t g1 b s Eb)).
    destruct (fire_join_quiet t g1 b) as [Q1 Q2 Q3 Q4]. rewrite Q1, Q2. rewrite rows_set_rows_ne, rows_set_rows_eq by done.
    split; [done|]. split; [by apply unions_add|]. apply fresh_groups_quiet; [done|done|done|].
    apply fresh_groups_member; [by eapply gof_group|done].
  - rewrite (bind_run _ _ _ _ _ (add_member_run t g2 a s Ea)).
    destruct (fire_join_quiet t g2 a) as [Q1 Q2 Q3 Q4]. rewrite Q1, Q2. rewrite rows_set_rows_ne, rows_set_rows_eq by done.
    split; [done|]. split; [by apply unions_sym, unions_add|]. apply fresh_groups_quiet; [done|done|done|].
    apply fresh_groups_member; [by eapply gof_group|done].
  - destruct Hf as [H1 H2]. set (g := srv_uuids s (srv_uuid_next s)).
    destruct (H1 (srv_uuid_next s)) as [Hgm Hgv]; [lia|]. fold g in Hgm, Hgv.
    set (s1 := snd (now (snd (new_v4 s)))).
    rewrite (bind_run new_v4 _ _ g (snd (new_v4 s)) eq_refl), (bind_run now _ (snd (new_v4 s)) (srv_clock s (srv_clock_next s)) s1 eq_refl).
    set (vg := mkVariantGroup g t _). set (s2 := set_rows TGroup (rows TGroup s1 ++ [vg]) s1).
    assert (Hins : insert_unique TGroup (fun v => vg_id v) vg s1 = (Ret tt, s2)).
    { unfold insert_unique. erewrite bind_run; [|by apply insert_on_conflict_new]. done. }
    rewrite (bind_run _ _ _ _ _ Hins).
    assert (Hm2 : rows TMember s2 = rows TMember s) by (unfold s2; by rewrite rows_set_rows_ne).
    erewrite bind_run; [|apply add_member_run; by rewrite Hm2].
    assert (Hb' : gof (rows TMember s ++ [mkVariantMember t g a]) t b = None)
      by (rewrite gof_add by done; by rewrite bool_decide_false by naive_solver).
    rewrite add_member_run by (rewrite rows_set_rows_eq, Hm2; exact Hb').
    cbn [snd]. rewrite !rows_set_rows_eq. rewrite !(rows_set_rows_ne TMember TEdge) by done. rewrite Hm2.
    split; [unfold s2; by rewrite rows_set_rows_ne|]. split; [by apply unions_new|].
    split.
    + intros n Hn. change (srv_uuid_next _) with (S (srv_uuid_next s)) in Hn. change (srv_uuids _ n) with (srv_uuids s n).
      assert (Hgn : srv_uuids s n <> g) by (intros E; apply H2 in E; lia).
      destruct (H1 n) as [Hm Hv]; [lia|]. rewrite rows_set_rows_eq. rewrite !(rows_set_rows_ne TMember TGroup) by done. unfold s2.
      rewrite rows_set_rows_eq. rewrite !map_app. split.
      * intros Hin. apply elem_of_app in Hin as [Hin|Hin]; [apply elem_of_app in Hin as [Hin|Hin]; [done|]|];
          by apply list_elem_of_singleton in Hin.
      * intros Hin. apply elem_of_app in Hin as [Hin|Hin]; [done|]. by apply list_elem_of_singleton in Hin.
    + intros n k Hn Hk. change (srv_uuid_next _) with (S (srv_uuid_next s)) in Hn, Hk. apply H2; lia.
Qed.
End union.

Section components.
  Context {SHA : Sha256} {HEX : HexCodec} {UD : UuidDisplay} {GOB : Goblin} {LOG : Log2} {DEC : X86Decoder} {HO : HashOrder}.

Lemma strong_edge_sym E t x y : strong_edge E t x y -> strong_edge E t y x.
Proof. intros (e & ? & ? & ? & ?). exists e. tauto. Qed.

Lemma linked_sym E t x y : linked E t x y -> linked E t y x.
Proof.
  induction 1 as [|x y z Hxy Hyz IH]; [reflexivity|]. etransitivity; [exact IH|]. by apply rtc_once, strong_edge_sym.
Qed.

Lemma linked_grow E e t x y : linked E t x y -> linked (E ++ [e]) t x y.
Proof.
  apply rtc_subrel. intros u v (e' & Hin & ?). exists e'. split; [by apply in_or_app; left|done].
Qed.

Lemma same_group_sym M t x y : same_group M t x y -> same_group M t y x.
Proof. intros (g & ? & ?). by exists g. Qed.

Lemma same_group_trans M t x y z : same_group M t x y -> same_group M t y z -> same_group M t x z.
Proof. intros (g & Hx & Hy) (g' & Hy' & Hz). exists g. split; [done|congruence]. Qed.

(** The union after a new strong edge restores the invariant. *)
Lemma union_restores (s' : Srv) (E : list SimEdge) (M : list VariantMember) e t :
  (forall e', In e' E -> is_strong e' = true -> same_group M (se_tenant e') (se_src e') (se_dst e')) ->
  (forall t' x y, x <> y -> same_group M t' x y -> linked E t' x y) ->
  se_tenant e = t -> is_strong e = true -> rows TEdge s' = E ++ [e] -> unions M (rows TMember s') t (se_src e) (se_dst e) ->
  (forall e', In e' (rows TEdge s') -> is_strong e' = true -> same_group (rows TMember s') (se_tenant e') (se_src e') (se_dst e')) /\
  (forall t' x y, x <> y -> same_group (rows TMember s') t' x y -> linked (rows TEdge s') t' x y).
Proof.
  intros Hgr Hco Ht Hst HE [U1 U2 U3 U4]. rewrite HE. split.
  - intros e' Hin Hs. apply in_app_or in Hin as [Hin|[<-|[]]]; [by apply U2, Hgr|]. by rewrite Ht.
  - intros t' x y Hne Hs.
    assert (Hedge : linked (E ++ [e]) t (se_src e) (se_dst e)).
    { apply rtc_once. exists e. split; [apply in_or_app; right; by left|]. auto. }
    assert (Hold : forall u v, same_group M t u v -> linked (E ++ [e]) t u v).
    { intros u v Huv. destruct (decide (u = v)) as [->|Huv']; [reflexivity|]. apply linked_grow. by apply Hco. }
    apply U4 in Hs as [Hs|[Hs|(-> & Hx & Hy)]]; [by apply linked_grow, Hco|done|].
    assert (Hcls : forall z, z = se_src e \/ z = se_dst e \/ same_group M t (se_src e) z \/ same_group M t (se_dst e) z ->
              linked (E ++ [e]) t (se_src e) z).
    { intros z [->|[->|[Hz|Hz]]]; [reflexivity|done|by apply Hold|]. etransitivity; [exact Hedge|by apply Hold]. }
    etransitivity; [apply linked_sym, Hcls, Hx|by apply Hcls].
Qed.

Lemma keeps_insert_edge tenant a b etype score evidence : keeps variants_inv (insert_edge tenant a b etype score evidence).
Proof.
  intros s Hinv. unfold insert_edge. destruct (if (a <? b)%N then (a, b) else (b, a)) as [src dst].
  rewrite (bind_run now _ s (srv_clock s (srv_clock_next s)) (snd (now s)) eq_refl).
  pose proof (keeps_quiet now quiet_now s Hinv) as Hs1. set (s1 := snd (now s)) in *. clearbody s1.
  destruct (N.ltb_spec src dst) as [Hlt|Hge]; cbn [negb]; [|done].
  set (e := mkSimEdge tenant src dst etype MODEL_VERSION score evidence _).
  destruct (decide (edge_key e ∈ map edge_key (rows TEdge s1))) as [Hold|Hnew].
  { rewrite (bind_run _ _ _ _ _ (insert_on_conflict_old TEdge edge_key e s1 Hold)). done. }
  rewrite (bind_run _ _ _ _ _ (insert_on_conflict_new TEdge edge_key e s1 Hnew)).
  destruct Hs1 as [I1 I2 I3 I4 I5]. set (s2 := set_rows TEdge (rows TEdge s1 ++ [e]) s1).
  assert (HE2 : rows TEdge s2 = rows TEdge s1 ++ [e]) by apply rows_set_rows_eq.
  assert (HM2 : rows TMember s2 = rows TMember s1) by by apply rows_set_rows_ne.
  assert (Hu2 : unique_key TMember member_key s2) by (unfold unique_key; by rewrite HM2).
  assert (Hf2 : fresh_groups s2).
  { destruct I3 as [H1 H2]. split; [|exact H2]. intros n Hn. rewrite HM2. unfold s2. rewrite rows_set_rows_ne by done. by apply H1. }
  assert (Hord : forall s', rows TEdge s' = rows TEdge s2 -> all_rows TEdge (fun e => (se_src e < se_dst e)%N) s').
  { intros s' Hs'. unfold all_rows. rewrite Hs', HE2. by apply Forall_app_2; [|repeat constructor]. }
  destruct (merges_groups etype) eqn:Em; cbn [andb].
  - destruct (union_groups_spec tenant src dst s2 Hu2 Hf2) as (UE & UM & UF); [lia|].
    assert (Hfin : variants_inv (snd (union_groups tenant src dst s2))).
    { rewrite HM2 in UM. destruct (union_restores (snd (union_groups tenant src dst s2)) (rows TEdge s1) (rows TMember s1) e tenant I4 I5) as [R1 R2];
        [done|done|etransitivity; [exact UE|exact HE2]|exact UM|].
      constructor; [by apply Hord|by destruct UM|exact UF|exact R1|exact R2]. }
    change (variants_inv (snd ((union_groups tenant src dst ≫= (fun _ => mret true)) s2))).
    unfold mbind, op_mbind. by destruct (union_groups tenant src dst s2) as [[[]|err|] s'].
  - change (variants_inv s2). constructor; [by apply Hord|done|done| |].
    + rewrite HE2, HM2. intros e' Hin Hs. apply in_app_or in Hin as [Hin|[<-|[]]]; [by apply I4|].
      unfold is_strong in Hs. cbn in Hs. congruence.
    + rewrite HE2, HM2. intros t x y Hne Hs. by apply linked_grow, I5.
Qed.

Lemma keeps_store_feature tenant artifact family name version value :
  keeps variants_inv (store_feature tenant artifact family name version value).
Proof. apply keeps_quiet. unfold store_feature. quiet_tac. Qed.

Lemma keeps_store_bands tenant artifact ssdeep : keeps variants_inv (store_bands tenant artifact ssdeep).
Proof. apply keeps_quiet. unfold store_bands. quiet_tac. Qed.

Lemma keeps_store_function_bands tenant artifact fs v : keeps variants_inv (store_function_bands tenant artifact fs v).
Proof. apply keeps_quiet. unfold store_function_bands. quiet_tac. Qed.

Lemma keeps_store_function tenant artifact f : keeps variants_inv (store_function tenant artifact f).
Proof. apply keeps_quiet. unfold store_function. quiet_tac. Qed.

Lemma keeps_persist r : keeps variants_inv (persist r).
Proof. apply keeps_quiet. unfold persist. quiet_tac. Qed.

Lemma keeps_now : keeps variants_inv now.
Proof. apply keeps_quiet, quiet_now. Qed.

#[local] Hint Resolve keeps_insert_edge keeps_store_feature keeps_store_bands keeps_store_function_bands
  keeps_store_function keeps_persist keeps_now : corpus.

Lemma keeps_extract_and_store tenant artifact format bs : keeps variants_inv (extract_and_store tenant artifact format bs).
Proof. unfold extract_and_store, store_limitation. keeps_tac. Qed.

Lemma keeps_link_one tenant artifact class scoring ds receipt source edges other :
  keeps variants_inv (link_one tenant artifact class scoring ds receipt source edges other).
Proof. unfold link_one, same_class, load_functions. keeps_tac. Qed.

Lemma keeps_semantic_candidates tenant artifact scoring : keeps variants_inv (semantic_candidates tenant artifact scoring).
Proof. unfold semantic_candidates, func_index_populated, func_candidates, full_scan. keeps_tac. Qed.

#[local] Hint Resolve keeps_extract_and_store keeps_link_one keeps_semantic_candidates : corpus.

Lemma keeps_analyze_and_link tenant artifact class bs : keeps variants_inv (analyze_and_link tenant artifact class bs).
Proof. unfold analyze_and_link. keeps_tac. Qed.

Lemma keeps_fuzzy_candidates tenant artifact class ssdeep : keeps variants_inv (fuzzy_candidates tenant artifact class ssdeep).
Proof. unfold fuzzy_candidates, lsh_populated, lsh_candidates, op_concat, lsh_row, class_scan_row. keeps_tac. Qed.

#[local] Hint Resolve keeps_analyze_and_link keeps_fuzzy_candidates : corpus.

Lemma keeps_analyze_artifact tenant artifact class bs : keeps variants_inv (analyze_artifact tenant artifact class bs).
Proof.
  unfold analyze_artifact, store_features, normalized_edges, normalized_edge, byte_edge, provenance_edge, feature_matches, same_class.
  keeps_tac.
Qed.

#[local] Hint Resolve keeps_analyze_artifact : corpus.

Lemma keeps_with_cas {A} (m : Op FsCas A) : keeps variants_inv (with_cas m).
Proof. intros s [I1 I2 I3 I4 I5]. unfold with_cas. by destruct (m (srv_cas s)). Qed.

#[local] Hint Resolve keeps_with_cas : corpus.

(** The steps that analyse artifacts. *)
Inductive AnalysisStep : Type :=
  | StepAnalyze (tenant artifact : Uuid) (artifact_class : string) (bs : bytes)
  | StepBackfill (tenant : Uuid).

Definition run_analysis (st : AnalysisStep) : Op Srv Z :=
  match st with
  | StepAnalyze tenant artifact artifact_class bs => analyze_new_artifact tenant artifact artifact_class bs
  | StepBackfill tenant => backfill tenant
  end.

(** A sequence of them, each of which may fail on its way. *)
Definition run_analyses (steps : list AnalysisStep) : Op Srv unit :=
  op_for steps (fun st => _ ← attempt (run_analysis st); mret tt).

Lemma keeps_run_analyses steps : keeps variants_inv (run_analyses steps).
Proof.
  unfold run_analyses. apply keeps_for. intros st _. apply keeps_bind; [|intros ?; apply keeps_mret]. apply keeps_attempt.
  destruct st; unfold run_analysis, analyze_new_artifact, backfill; keeps_tac.
Qed.

(** C3. Variant groups are exactly the connected components of the strong edges:
    after any sequence of analyses and backfills, each of which may have failed
    half-way, two different artifacts of a tenant are in one group if and only
    if a path of strong edges connects them.  So weak edges never merge groups,
    and every strong edge does. *)
Theorem variant_groups_are_components steps (s : Srv) :
  variants_inv s ->
  let s' := snd (run_analyses steps s) in
  forall t x y, x <> y -> (same_group (rows TMember s') t x y <-> linked (rows TEdge s') t x y).
Proof.
  intros Hinv s' t x y Hne. destruct (keeps_run_analyses steps s Hinv) as [I1 I2 I3 I4 I5]. fold s' in I1, I2, I3, I4, I5.
  split; [by apply I5|].
  assert (Hstep : forall u v, strong_edge (rows TEdge s') t u v -> same_group (rows TMember s') t u v).
  { intros u v (e & Hin & <- & Hs & Huv). pose proof (I4 e Hin Hs) as Hg. destruct Huv as [[<- <-]|[<- <-]]; [done|by apply same_group_sym]. }
  intros Hl. assert (Hgen : x = y \/ same_group (rows TMember s') t x y); [|tauto]. clear Hne.
  induction Hl as [|x y z Hxy Hyz IH]; [by left|]. right. destruct IH as [<-|IH]; [by apply Hstep|].
  eapply same_group_trans; [by apply Hstep|exact IH].
Qed.
End components.

(** ** Stored token sets *)

Lemma pack_cons h hs : pack_hashes (h :: hs) = to_le 8 h ++ pack_hashes hs.
Proof. done. Qed.

(** Packing the token hashes into a stored signature and reading them back
    returns them, for any number of 64-bit hashes. *)
Theorem packed_hashes_roundtrip hs :
  Forall (fun h => 0 <= h < 2 ^ 64) hs -> unpack_hashes (length (pack_hashes hs)) (pack_hashes hs) = hs.
Proof.
  intros Hr. assert (Hgen : forall fuel, (length (pack_hashes hs) <= fuel)%nat -> unpack_hashes fuel (pack_hashes hs) = hs); [|by apply Hgen].
  induction Hr as [|h hs Hh Hr IH]; intros fuel Hf; [by destruct fuel|].
  assert (Hl : length (to_le 8 h) = 8%nat) by apply to_le_length.
  rewrite pack_cons in *. rewrite length_app, Hl in Hf. destruct fuel as [|fuel]; [lia|]. cbn [unpack_hashes].
  rewrite length_app, Hl. rewrite (proj2 (Nat.leb_le _ _)) by lia. rewrite take_app_length', drop_app_length' by done.
  rewrite from_to_le. change (256 ^ Z.of_nat 8) with (2 ^ 64). rewrite Z.mod_small by done. f_equal. apply IH. lia.
Qed.

(** ** Witnesses *)

Module ReferenceAnalysis.
(** Every PE file imports one function; nothing else parses. *)
Definition goblin : Goblin := {|
  pe_parse := fun _ => inr (mkPE 0x14c [mkPeImport "KERNEL32.dll" "ExitProcess"] [] [] None);
  elf_parse := fun _ => inl "bad"%string; mach_parse := fun _ => inl "bad"%string; macho_parse := fun _ => inl "bad"%string |}.
Definition log2 : Log2 := fun _ => f64_of_Z 0.
Definition decoder : X86Decoder := fun _ _ => [].
Definition order : HashOrder := fun l => l.
End ReferenceAnalysis.

Section witnesses.
Local Existing Instance ReferenceHash.sha.
Local Existing Instance ReferenceHash.hex.
Local Existing Instance ReferenceUuid.display.
Local Existing Instance ReferenceAnalysis.goblin.
Local Existing Instance ReferenceAnalysis.log2.
Local Existing Instance ReferenceAnalysis.decoder.
Local Existing Instance ReferenceAnalysis.order.

(** A least PE file. *)
Definition pe_file : bytes := [x4d; x5a] ++ repeat x00 58 ++ [x40; x00; x00; x00] ++ [x50; x45; x00; x00].

Definition pe_artifact (id : Uuid) (sha : bytes) : Artifact :=
  mkArtifact id 1%N 1 sha 68 "pe" "committed" "objects/x" 0 "endpoint" (JObj []).

Definition two_files : Srv :=
  set_rows TArtifact [pe_artifact 7%N [x01]; pe_artifact 8%N [x02]] ReferenceServer.empty.

Lemma two_files_inv : variants_inv two_files.
Proof.
  constructor; [constructor|apply NoDup_nil_2| |done|].
  - split; [intros n _; split; apply not_elem_of_nil|]. intros n m _ _ E. change (N.of_nat n + 100 = N.of_nat m + 100)%N in E. lia.
  - intros t x y _ (g & Hg & _). done.
Qed.

Definition two_runs : list AnalysisStep := [StepAnalyze 1%N 7%N "pe" pe_file; StepAnalyze 1%N 8%N "pe" pe_file].

(** Two files with the same import table end up in one group. *)
Lemma variant_groups_are_components_witness :
  variants_inv two_files /\
  same_group (rows TMember (snd (run_analyses two_runs two_files))) 1%N 7%N 8%N /\
  linked (rows TEdge (snd (run_analyses two_runs two_files))) 1%N 7%N 8%N.
Proof.
  split; [exact two_files_inv|].
  assert (Hg : same_group (rows TMember (snd (run_analyses two_runs two_files))) 1%N 7%N 8%N).
  { exists 100%N. split; vm_compute; reflexivity. }
  split; [exact Hg|]. apply (variant_groups_are_components two_runs two_files two_files_inv 1%N 7%N 8%N); [discriminate|exact Hg].
Defined.

Lemma packed_hashes_roundtrip_witness : unpack_hashes (length (pack_hashes [5; 2 ^ 63])) (pack_hashes [5; 2 ^ 63]) = [5; 2 ^ 63].
Proof. apply packed_hashes_roundtrip. repeat constructor; cbn; lia. Defined.
End witnesses.
