(* ===== verification/Lifecycle.v ===== *)
(** * Retention cleanup and supersession
      ([similarity/lifecycle.rs], [similarity/invalidation.rs])

    Cleanup removes everything derived from one artifact; supersession marks
    the edges of an old model without deleting them. *)

From S2P Require Import Prelude Machine Text Hash Cas Schema Fuzzy SimModel Features Functions Variants.
From Stdlib Require Import Strings.Byte Strings.Ascii.

Open Scope Z_scope.

(** ** Booleans in [jsonb] columns *)

(** PostgreSQL's [boolean] input: unambiguous prefixes, in any case. *)
Definition nonempty_prefix (s w : string) : bool := negb (String.eqb s "") && str_starts_with s w.
Definition pg_bool (s : string) : option bool :=
  let s := str_lower (trim s) in
  if nonempty_prefix s "true" || nonempty_prefix s "yes" || String.eqb s "on" || String.eqb s "1" then Some true
  else if nonempty_prefix s "false" || nonempty_prefix s "no" || String.eqb s "of" || String.eqb s "off" || String.eqb s "0"
  then Some false
  else None.

(** [COALESCE((value->>'key')::boolean, false)]; [None] is the cast's error. *)
Definition json_flag (key : string) (j : Json) : option bool :=
  match json_get key j with
  | None | Some JNull => Some false
  | Some (JBool b) => Some b
  | Some (JStr s) => pg_bool s
  | Some (JInt z) => pg_bool (show_Z z)
  | Some _ => None
  end.

(** ** lifecycle.rs *)

Record CleanupCounts := mkCleanupCounts {
  cc_features : Z; cc_functions : Z; cc_edges : Z; cc_lsh_bands : Z; cc_group_memberships : Z; cc_receipts : Z;
  cc_groups_repaired : Z; cc_groups_removed : Z }.

Record CleanupReport := mkCleanupReport {
  cr_tenant : Uuid; cr_artifact : Uuid; cr_dry_run : bool; cr_legal_hold : bool; cr_counts : CleanupCounts; cr_recorded_at : Time }.

Definition counts_json (c : CleanupCounts) : Json :=
  JObj [("features", JInt (cc_features c)); ("functions", JInt (cc_functions c)); ("edges", JInt (cc_edges c));
        ("lsh_bands", JInt (cc_lsh_bands c)); ("group_memberships", JInt (cc_group_memberships c));
        ("receipts", JInt (cc_receipts c)); ("groups_repaired", JInt (cc_groups_repaired c));
        ("groups_removed", JInt (cc_groups_removed c))]%string.

(** The rows derived from an artifact, table by table. *)
Definition feature_of (tenant artifact : Uuid) (f : SimFeature) : bool :=
  bool_decide (sf_tenant f = tenant) && bool_decide (sf_artifact_id f = artifact).
Definition function_of (tenant artifact : Uuid) (f : SimFunction) : bool :=
  bool_decide (fn_tenant f = tenant) && bool_decide (fn_artifact_id f = artifact).
Definition fband_of_artifact (tenant artifact : Uuid) (b : FunctionBand) : bool :=
  bool_decide (fb_tenant b = tenant) && bool_decide (fb_artifact_id b = artifact).
Definition receipt_of (tenant artifact : Uuid) (r : AnalysisReceiptRow) : bool :=
  bool_decide (ar_tenant r = tenant) && bool_decide (ar_artifact_id r = artifact).

(** The query of the hold, with [unwrap_or(false)] on a cast that fails. *)
Definition legal_hold (tenant artifact : Uuid) : Op Srv bool :=
  a ← select_optional TArtifact (artifact_is tenant artifact);
  mret (match a with Some a => default false (json_flag "legal_hold" (art_provenance a)) | None => false end).

Definition count_derived (tenant artifact : Uuid) : Op Srv CleanupCounts :=
  features ← select_count TFeature (feature_of tenant artifact);
  functions ← select_count TFunction (function_of tenant artifact);
  edges ← select_count TEdge (touches tenant artifact);
  bands ← select_count TLsh (band_of tenant artifact);
  memberships ← select_count TMember (member_is tenant artifact);
  receipts ← select_count TReceipt (receipt_of tenant artifact);
  mret (mkCleanupCounts features functions edges bands memberships receipts 0 0).

Record RepairResult := mkRepairResult { rr_changed : bool; rr_removed : bool }.

Definition repair_group (tenant group_id : Uuid) : Op Srv RepairResult :=
  remaining ← select_count TMember (in_group tenant group_id);
  if remaining <=? 1 then
    _ ← delete_rows TMember (in_group tenant group_id);
    _ ← delete_rows TGroup (group_is tenant group_id);
    mret (mkRepairResult true true)
  else mret (mkRepairResult false false).

(** The deletions, in the source's order; the group is repaired afterwards. *)
Definition delete_derived (tenant artifact : Uuid) : Op Srv unit :=
  _ ← delete_rows TFeature (feature_of tenant artifact);
  _ ← delete_rows TFunction (function_of tenant artifact);
  _ ← delete_rows TFband (fband_of_artifact tenant artifact);
  _ ← delete_rows TEdge (touches tenant artifact);
  _ ← delete_rows TLsh (band_of tenant artifact);
  _ ← delete_rows TMember (member_is tenant artifact);
  _ ← delete_rows TReceipt (receipt_of tenant artifact);
  mret tt.

Definition repaired_counts (c : CleanupCounts) (r : option RepairResult) : CleanupCounts :=
  match r with
  | None => c
  | Some r =>
      mkCleanupCounts (cc_features c) (cc_functions c) (cc_edges c) (cc_lsh_bands c) (cc_group_memberships c) (cc_receipts c)
        (if rr_removed r then 0 else if rr_changed r then 1 else 0) (if rr_removed r then 1 else 0)
  end.

Definition cleanup_artifact (tenant artifact : Uuid) (dry_run : bool) : Op Srv CleanupReport :=
  hold ← legal_hold tenant artifact;
  if (hold : bool) && negb dry_run then throw (Conflict "artifact is under legal hold; cleanup refused")
  else
    counts ← count_derived tenant artifact;
    if dry_run || hold then
      t ← now;
      mret (mkCleanupReport tenant artifact true hold counts t)
    else
      group ← group_of tenant artifact;
      delete_derived tenant artifact ;;
      repaired ← (match group with
                  | Some g => r ← repair_group tenant g; mret (Some r)
                  | None => mret None
                  end);
      let counts := repaired_counts counts repaired in
      t ← now;
      insert_row TCleanup (mkCleanupLog tenant artifact false (counts_json counts) t) ;;
      t ← now;
      mret (mkCleanupReport tenant artifact false false counts t).

(** ** invalidation.rs *)

Record InvalidationReport := mkInvalidationReport {
  iv_tenant : Uuid; iv_artifact : option Uuid; iv_old : string; iv_new : string; iv_edges_superseded : Z; iv_dry_run : bool }.

Definition in_scope (tenant : Uuid) (artifact : option Uuid) (old_model : string) (e : SimEdge) : bool :=
  bool_decide (se_tenant e = tenant) && String.eqb (se_model_version e) old_model &&
  match artifact with Some a => bool_decide (se_src e = a) || bool_decide (se_dst e = a) | None => true end.

(** The last condition of the queries; [None] is the cast's error. *)
Definition not_superseded (e : SimEdge) : option bool := negb <$> json_flag "superseded" (se_evidence e).

(** [evidence || annotation] on [jsonb]: objects merge, the right one winning. *)
Definition jsonb_concat (a b : Json) : Json :=
  match a, b with
  | JObj l, JObj k => JObj (List.filter (fun p => negb (existsb (fun q => String.eqb (fst p) (fst q)) k)) l ++ k)
  | JArr l, JArr k => JArr (l ++ k)
  | JArr l, b => JArr (l ++ [b])
  | a, JArr k => JArr (a :: k)
  | a, b => JArr [a; b]
  end.

Definition annotate (annotation : Json) (e : SimEdge) : SimEdge :=
  mkSimEdge (se_tenant e) (se_src e) (se_dst e) (se_edge_type e) (se_model_version e) (se_score e)
    (jsonb_concat (se_evidence e) annotation) (se_created_at e).

Definition cast_error : Error := Db "invalid input syntax for type boolean".

Definition supersede_edges (tenant : Uuid) (artifact : option Uuid) (old_model new_model : string) (dry_run : bool) :
    Op Srv InvalidationReport :=
  scope ← select TEdge (in_scope tenant artifact old_model);
  if existsb (fun e => bool_decide (not_superseded e = None)) scope then throw cast_error
  else
    let matches e := in_scope tenant artifact old_model e && bool_decide (not_superseded e = Some true) in
    n ← select_count TEdge matches;
    if dry_run then mret (mkInvalidationReport tenant artifact old_model new_model n true)
    else
      t ← now;
      let annotation := JObj [("superseded", JBool true); ("superseded_by", JStr new_model); ("superseded_at", JInt t)]%string in
      _ ← update_rows TEdge matches (annotate annotation);
      mret (mkInvalidationReport tenant artifact old_model new_model n false).

Definition edge_is_current (evidence : Json) : bool :=
  negb (default false (v ← json_get "superseded" evidence; json_bool v)).

(** ** Cleanup *)

Lemma delete_run t p s : delete_rows t p s = (Ret (len (List.filter p (rows t s))), set_rows t (List.filter (fun x => negb (p x)) (rows t s)) s).
Proof. done. Qed.

Definition without {A} (p : A -> bool) (l : list A) : list A := List.filter (fun x => negb (p x)) l.

(** What is left of the memberships once [artifact] is removed and its group
    repaired. *)
Definition repaired_members (tenant artifact : Uuid) (M : list VariantMember) : list VariantMember :=
  let M1 := without (member_is tenant artifact) M in
  match gof M tenant artifact with
  | Some g => if len (List.filter (in_group tenant g) M1) <=? 1 then without (in_group tenant g) M1 else M1
  | None => M1
  end.

(** The state after the deletions: every derived table without the rows of the
    artifact. *)
Record erased (tenant artifact : Uuid) (s s' : Srv) : Prop := {
  er_features : rows TFeature s' = without (feature_of tenant artifact) (rows TFeature s);
  er_functions : rows TFunction s' = without (function_of tenant artifact) (rows TFunction s);
  er_fbands : rows TFband s' = without (fband_of_artifact tenant artifact) (rows TFband s);
  er_edges : rows TEdge s' = without (touches tenant artifact) (rows TEdge s);
  er_lsh : rows TLsh s' = without (band_of tenant artifact) (rows TLsh s);
  er_receipts : rows TReceipt s' = without (receipt_of tenant artifact) (rows TReceipt s);
  er_artifacts : rows TArtifact s' = rows TArtifact s }.

Ltac rows_simpl := repeat first [rewrite rows_set_rows_eq | rewrite rows_set_rows_ne by discriminate].

Lemma delete_derived_run tenant artifact s :
  exists s', delete_derived tenant artifact s = (Ret tt, s') /\ erased tenant artifact s s' /\
    rows TMember s' = without (member_is tenant artifact) (rows TMember s) /\ rows TGroup s' = rows TGroup s /\
    rows TCleanup s' = rows TCleanup s.
Proof.
  unfold delete_derived. eexists. split.
  { do 7 (erewrite bind_run; [|apply delete_run]). reflexivity. }
  split; [constructor; rows_simpl; done|]. rows_simpl. done.
Qed.

Lemma repair_group_run tenant g s :
  exists s' r, repair_group tenant g s = (Ret r, s') /\
    (if len (List.filter (in_group tenant g) (rows TMember s)) <=? 1
     then r = mkRepairResult true true /\ rows TMember s' = without (in_group tenant g) (rows TMember s) /\
          rows TGroup s' = without (group_is tenant g) (rows TGroup s)
     else r = mkRepairResult false false /\ s' = s) /\
    (forall t, t <> TMember -> t <> TGroup -> rows t s' = rows t s).
Proof.
  unfold repair_group, select_count. erewrite bind_run; [|reflexivity]. destruct (len _ <=? 1).
  - eexists _, _. split; [do 2 (erewrite bind_run; [|apply delete_run]); reflexivity|]. split.
    + rows_simpl. done.
    + intros t H1 H2. by rewrite !rows_set_rows_ne.
  - eexists _, _. split; [reflexivity|]. done.
Qed.

Definition hold_value (tenant artifact : Uuid) (arts : list Artifact) : bool :=
  match head (List.filter (artifact_is tenant artifact) arts) with
  | Some a => default false (json_flag "legal_hold" (art_provenance a))
  | None => false
  end.

Lemma legal_hold_eq tenant artifact s : legal_hold tenant artifact s = (Ret (hold_value tenant artifact (rows TArtifact s)), s).
Proof. reflexivity. Qed.

Lemma legal_hold_run tenant artifact s : exists h, legal_hold tenant artifact s = (Ret h, s).
Proof. eexists. reflexivity. Qed.

Definition held (tenant artifact : Uuid) (s : Srv) : Prop := legal_hold tenant artifact s = (Ret true, s).

(** An artifact under legal hold, and any artifact in a dry run, loses nothing:
    the first is refused with a conflict, the second only counted, and the
    tables are left as they were. *)
Theorem cleanup_guards tenant artifact (s : Srv) :
  (held tenant artifact s -> exists e, cleanup_artifact tenant artifact false s = (Fail (Conflict e), s)) /\
  exists s' rep, cleanup_artifact tenant artifact true s = (Ret rep, s') /\ srv_db s' = srv_db s /\ cr_dry_run rep = true /\
    cc_edges (cr_counts rep) = len (List.filter (touches tenant artifact) (rows TEdge s)).
Proof.
  split.
  - intros Hh. unfold cleanup_artifact. rewrite (bind_run _ _ _ _ _ Hh). cbn [andb negb]. by eexists.
  - unfold cleanup_artifact. destruct (legal_hold_run tenant artifact s) as (h & Hh). rewrite (bind_run _ _ _ _ _ Hh).
    rewrite andb_false_r. eexists _, _. split; [reflexivity|]. done.
Qed.

Definition zero_counts : CleanupCounts := mkCleanupCounts 0 0 0 0 0 0 0 0.

Definition found_counts (tenant artifact : Uuid) (s : Srv) : CleanupCounts :=
  mkCleanupCounts (len (List.filter (feature_of tenant artifact) (rows TFeature s)))
    (len (List.filter (function_of tenant artifact) (rows TFunction s))) (len (List.filter (touches tenant artifact) (rows TEdge s)))
    (len (List.filter (band_of tenant artifact) (rows TLsh s))) (len (List.filter (member_is tenant artifact) (rows TMember s)))
    (len (List.filter (receipt_of tenant artifact) (rows TReceipt s))) 0 0.

Lemma count_derived_run tenant artifact s : count_derived tenant artifact s = (Ret (found_counts tenant artifact s), s).
Proof. reflexivity. Qed.

Lemma cleanup_run tenant artifact s :
  legal_hold tenant artifact s = (Ret false, s) ->
  exists s' rep, cleanup_artifact tenant artifact false s = (Ret rep, s') /\ erased tenant artifact s s' /\
    rows TMember s' = repaired_members tenant artifact (rows TMember s) /\
    cr_dry_run rep = false /\ cr_legal_hold rep = false /\
    cr_counts rep = repaired_counts (found_counts tenant artifact s)
      (g ← gof (rows TMember s) tenant artifact;
       Some (let gone := len (List.filter (in_group tenant g) (without (member_is tenant artifact) (rows TMember s))) <=? 1 in
             mkRepairResult gone gone)) /\
    length (rows TCleanup s') = S (length (rows TCleanup s)).
Proof.
  intros Hh. unfold cleanup_artifact. rewrite (bind_run _ _ _ _ _ Hh). cbn [andb negb].
  rewrite (bind_run _ _ _ _ _ (count_derived_run tenant artifact s)). cbn [orb].
  rewrite (bind_run _ _ _ _ _ (group_of_run tenant artifact s)).
  destruct (delete_derived_run tenant artifact s) as (s1 & Hd & He & Hm & Hg & Hc). rewrite (bind_run _ _ _ _ _ Hd).
  unfold repaired_members. destruct (gof (rows TMember s) tenant artifact) as [g|] eqn:Eg.
  - destruct (repair_group_run tenant g s1) as (s2 & r & Hr & Hcase & Hother).
    erewrite bind_run; [|rewrite (bind_run _ _ _ _ _ Hr); reflexivity].
    eexists _, _. split; [reflexivity|]. cbn [cr_dry_run cr_legal_hold cr_counts mbind option_bind].
    split.
    { destruct He as [E1 E2 E3 E4 E5 E6 E7]. constructor; rows_simpl;
        [rewrite <- E1|rewrite <- E2|rewrite <- E3|rewrite <- E4|rewrite <- E5|rewrite <- E6|rewrite <- E7];
        by apply Hother. }
    rewrite Hm in Hcase. assert (Hlog : rows TCleanup s2 = rows TCleanup s) by (rewrite <- Hc; by apply Hother).
    assert (Hl : forall c, length (rows TCleanup s2 ++ [c]) = S (length (rows TCleanup s)))
      by (intros c; rewrite Hlog, length_app; cbn; lia).
    rows_simpl. split; [|split; [done|split; [done|split; [|apply Hl]]]];
      destruct (len (List.filter (in_group tenant g) (without (member_is tenant artifact) (rows TMember s))) <=? 1).
    + by destruct Hcase as (_ & Hm2 & _).
    + by destruct Hcase as (_ & ->).
    + by destruct Hcase as (-> & _).
    + by destruct Hcase as (-> & _).
  - erewrite bind_run; [|reflexivity]. eexists _, _. split; [reflexivity|].
    split. { destruct He as [E1 E2 E3 E4 E5 E6 E7]. constructor; rows_simpl; done. }
    assert (Hl : forall c, length (rows TCleanup s1 ++ [c]) = S (length (rows TCleanup s)))
      by (intros c; rewrite Hc, length_app; cbn; lia).
    rows_simpl. split; [exact Hm|]. split; [done|]. split; [done|]. split; [done|apply Hl].
Qed.

(** A cleanup that is allowed erases every derived row of the artifact and no
    other artifact's, reports how many there were, leaves no variant group of
    one member, and logs the deletion; a second one finds nothing. *)
Theorem cleanup_erases tenant artifact (s : Srv) :
  legal_hold tenant artifact s = (Ret false, s) ->
  exists s' rep, cleanup_artifact tenant artifact false s = (Ret rep, s') /\ erased tenant artifact s s' /\
    (forall m, In m (rows TMember s') -> In m (rows TMember s) /\ member_is tenant artifact m = false) /\
    (forall g, gof (rows TMember s) tenant artifact = Some g ->
       len (List.filter (in_group tenant g) (rows TMember s')) <> 1) /\
    cc_features (cr_counts rep) = len (rows TFeature s) - len (rows TFeature s') /\
    cc_edges (cr_counts rep) = len (rows TEdge s) - len (rows TEdge s') /\
    length (rows TCleanup s') = S (length (rows TCleanup s)) /\
    exists s'' rep', cleanup_artifact tenant artifact false s' = (Ret rep', s'') /\ cr_counts rep' = zero_counts.
Proof.
  intros Hh. destruct (cleanup_run tenant artifact s Hh) as (s' & rep & Hr & He & Hm & _ & _ & Hc & Hlog).
  exists s', rep. split; [exact Hr|]. split; [exact He|].
  assert (Hin : forall m, In m (rows TMember s') -> In m (rows TMember s) /\ member_is tenant artifact m = false).
  { intros m Hm'. rewrite Hm in Hm'. unfold repaired_members in Hm'.
    assert (Hw : In m (without (member_is tenant artifact) (rows TMember s))).
    { destruct (gof _ _ _); [|done]. destruct (_ <=? 1); [|done]. by apply filter_In in Hm' as [? _]. }
    apply filter_In in Hw as [? Hn]. split; [done|]. by apply negb_true_iff in Hn. }
  split; [exact Hin|]. destruct He as [E1 E2 E3 E4 E5 E6 E7].
  assert (Hlen : forall {A} (p : A -> bool) l, len (List.filter p l) = len l - len (without p l)).
  { intros A p l. unfold without, len. pose proof (List.filter_length p l). lia. }
  split; [|split; [|split; [|split; [exact Hlog|]]]].
  - intros g Hg. rewrite Hm. unfold repaired_members. rewrite Hg.
    destruct (Z.leb_spec (len (List.filter (in_group tenant g) (without (member_is tenant artifact) (rows TMember s)))) 1) as [Hle|Hgt];
      [|lia]. unfold without at 1. rewrite filter_filter_negb. done.
  - rewrite Hc, E1. rewrite <- Hlen. by destruct (gof _ _ _).
  - rewrite Hc, E4. rewrite <- Hlen. by destruct (gof _ _ _).
  - assert (Hh' : legal_hold tenant artifact s' = (Ret false, s')).
    { rewrite legal_hold_eq in *. injection Hh as Hh. by rewrite E7, Hh. }
    destruct (cleanup_run tenant artifact s' Hh') as (s'' & rep' & Hr' & _ & _ & _ & _ & Hc' & _).
    exists s'', rep'. split; [exact Hr'|]. rewrite Hc'.
    assert (Hz : forall {A} (p : A -> bool) l, List.filter p (without p l) = []) by (intros A p l; apply filter_filter_negb).
    assert (Hmem : List.filter (member_is tenant artifact) (rows TMember s') = [])
      by (apply filter_nil_forall; intros m Hm'; by apply Hin in Hm' as [_ ?]).
    assert (Hgof : gof (rows TMember s') tenant artifact = None) by (unfold gof; by rewrite Hmem).
    rewrite Hgof. unfold found_counts, zero_counts. rewrite E1, E2, E4, E5, E6, Hmem, !Hz. done.
Qed.

Definition strong (src dst : Uuid) : SimEdge :=
  mkSimEdge 1%N src dst NORMALIZED_EQUIVALENT MODEL_VERSION (f64_of_Z 1) (JObj []) 0.

(** 7 and 9 share a group only because both are linked to 8. *)
Definition chain : Srv :=
  set_rows TMember [mkVariantMember 1%N 50%N 7%N; mkVariantMember 1%N 50%N 8%N; mkVariantMember 1%N 50%N 9%N]
    (set_rows TGroup [mkVariantGroup 50%N 1%N 0] (set_rows TEdge [strong 7%N 8%N; strong 8%N 9%N] ReferenceServer.empty)).

(** Repair looks at a group's size only: after the artifact that linked two
    others is cleaned up, they stay in one variant group although no strong edge
    is left between them.  Before the cleanup the group was a component. *)
Theorem cleanup_leaves_unlinked_group :
  same_group (rows TMember chain) 1%N 7%N 9%N /\ linked (rows TEdge chain) 1%N 7%N 9%N /\
  exists rep s', cleanup_artifact 1%N 8%N false chain = (Ret rep, s') /\ cc_groups_repaired (cr_counts rep) = 0 /\
    same_group (rows TMember s') 1%N 7%N 9%N /\ ~ linked (rows TEdge s') 1%N 7%N 9%N.
Proof.
  split; [by exists 50%N|]. split.
  { apply rtc_l with 8%N; [|apply rtc_once].
    - exists (strong 7%N 8%N). split; [by left|]. auto.
    - exists (strong 8%N 9%N). split; [right; by left|]. auto. }
  destruct (cleanup_run 1%N 8%N chain eq_refl) as (s' & rep & Hr & He & Hm & _ & _ & Hc & _).
  exists rep, s'. split; [exact Hr|]. split; [rewrite Hc; by vm_compute|]. split; [rewrite Hm; exists 50%N; by vm_compute|].
  rewrite (er_edges _ _ _ _ He). change (without (touches 1%N 8%N) (rows TEdge chain)) with (@nil SimEdge).
  intros Hl. inversion Hl as [|? z ? (e & [] & _) _]; subst.
Qed.

(** ** Supersession *)

Lemma json_get_annotated l annotation key v :
  assoc key annotation = Some v -> json_get key (jsonb_concat (JObj l) (JObj annotation)) = Some v.
Proof.
  intros Hv. cbn [jsonb_concat json_get]. assert (Hno : forall k, assoc key (List.filter (fun p : string * Json => negb (existsb (fun q => String.eqb (fst p) (fst q)) annotation)) k) = None).
  { induction k as [|[k1 v1] k IH]; [done|]. cbn [List.filter fst]. destruct (existsb _ annotation) eqn:E; cbn [negb]; [done|].
    cbn [assoc]. destruct (String.eqb_spec key k1) as [<-|]; [|done]. exfalso.
    clear IH. induction annotation as [|[k' v'] m IHm]; [done|]. cbn [existsb fst assoc] in *. destruct (String.eqb key k'); [done|auto]. }
  induction (List.filter _ l) as [|[k1 v1] k IH] eqn:E in l |- *; [done|].
  specialize (Hno l) as Hn. rewrite E in Hn. cbn [app assoc] in *. destruct (String.eqb key k1); [done|].
  clear - Hn Hv. induction k as [|[k2 v2] k IH]; cbn [app assoc] in *; [done|]. destruct (String.eqb key k2); [done|auto].
Qed.

(** Evidence is an object, and its [superseded] field, if any, casts to a boolean. *)
Definition evidence_ok (e : SimEdge) : Prop := (exists l, se_evidence e = JObj l) /\ not_superseded e <> None.

Definition edge_identity (e : SimEdge) : Uuid * Uuid * Uuid * string * string * f64 * Time :=
  (se_tenant e, se_src e, se_dst e, se_edge_type e, se_model_version e, se_score e, se_created_at e).

(** Supersession deletes nothing and changes no edge but for its evidence; the
    edges in scope are no longer current afterwards, no edge outside the scope
    is touched, and doing it again supersedes none.  A dry run reports the same
    number and writes nothing. *)
Theorem supersede_idempotent tenant artifact old_model new_model (s : Srv) :
  all_rows TEdge evidence_ok s ->
  exists n s', supersede_edges tenant artifact old_model new_model true s = (Ret (mkInvalidationReport tenant artifact old_model new_model n true), s) /\
    supersede_edges tenant artifact old_model new_model false s = (Ret (mkInvalidationReport tenant artifact old_model new_model n false), s') /\
    map edge_identity (rows TEdge s') = map edge_identity (rows TEdge s) /\
    (forall e, In e (rows TEdge s') -> in_scope tenant artifact old_model e = true -> not_superseded e = Some false) /\
    (forall e, in_scope tenant artifact old_model e = false -> In e (rows TEdge s) -> In e (rows TEdge s')) /\
    exists s'', supersede_edges tenant artifact old_model new_model false s' =
      (Ret (mkInvalidationReport tenant artifact old_model new_model 0 false), s'').
Proof.
  intros Hok. set (matches e := in_scope tenant artifact old_model e && bool_decide (not_superseded e = Some true)).
  assert (Hguard : forall s0, (forall e, In e (rows TEdge s0) -> not_superseded e <> None) ->
    existsb (fun e => bool_decide (not_superseded e = None)) (List.filter (in_scope tenant artifact old_model) (rows TEdge s0)) = false).
  { intros s0 H0. apply existsb_false_forall. intros e [He _]%filter_In. by apply bool_decide_eq_false, H0. }
  assert (Hrun : forall s0, (forall e, In e (rows TEdge s0) -> not_superseded e <> None) ->
    exists ann, supersede_edges tenant artifact old_model new_model false s0 =
      (Ret (mkInvalidationReport tenant artifact old_model new_model (len (List.filter matches (rows TEdge s0))) false),
       set_rows TEdge (map (fun e => if matches e then annotate (JObj (("superseded"%string, JBool true) :: ann)) e else e) (rows TEdge s0)) (snd (now s0)))).
  { intros s0 H0. eexists. unfold supersede_edges. erewrite bind_run; [|reflexivity]. rewrite Hguard by done. reflexivity. }
  unfold all_rows in Hok. rewrite List.Forall_forall in Hok.
  assert (H0 : forall e, In e (rows TEdge s) -> not_superseded e <> None) by (intros e He; by apply Hok).
  destruct (Hrun s H0) as (ann & Hann). set (f := annotate (JObj (("superseded"%string, JBool true) :: ann))) in *.
  set (s' := set_rows TEdge _ (snd (now s))) in Hann.
  assert (Hrows : rows TEdge s' = map (fun e => if matches e then f e else e) (rows TEdge s)) by apply rows_set_rows_eq.
  assert (Hf : forall e, evidence_ok e -> not_superseded (f e) = Some false).
  { intros e [(l & Hl) _]. unfold not_superseded, f, annotate, json_flag. cbn [se_evidence]. rewrite Hl.
    by rewrite (json_get_annotated l _ "superseded" (JBool true)). }
  assert (Hscope : forall e, in_scope tenant artifact old_model (f e) = in_scope tenant artifact old_model e) by done.
  assert (Hdone : forall e, In e (rows TEdge s') -> not_superseded e <> None /\
    (in_scope tenant artifact old_model e = true -> not_superseded e = Some false)).
  { intros e He. rewrite Hrows in He. apply in_map_iff in He as (e0 & <- & He0). specialize (Hok e0 He0).
    destruct (matches e0) eqn:Em; [rewrite Hf by done; done|]. split; [apply Hok|]. intros Hs. unfold matches in Em.
    rewrite Hs in Em. cbn [andb] in Em. apply bool_decide_eq_false in Em. destruct Hok as [_ Hn].
    destruct (not_superseded e0) as [[]|]; done. }
  exists (len (List.filter matches (rows TEdge s))), s'. split; [|split; [exact Hann|split; [|split; [|split]]]].
  - unfold supersede_edges. erewrite bind_run; [|reflexivity]. rewrite Hguard by done. reflexivity.
  - rewrite Hrows, map_map. apply map_ext. intros e. by destruct (matches e).
  - intros e He. by apply Hdone.
  - intros e Hs He. rewrite Hrows. apply in_map_iff. exists e. split; [|done]. unfold matches. by rewrite Hs.
  - destruct (Hrun s') as (ann' & Hann'); [intros e He; by apply Hdone|]. eexists. rewrite Hann'.
    rewrite (filter_nil_forall matches); [done|]. intros e He. unfold matches.
    destruct (in_scope tenant artifact old_model e) eqn:Es; [|done]. apply bool_decide_eq_false.
    destruct (Hdone e He) as [_ Hd]. by rewrite Hd.
Qed.

(** The filter of the queries and [edge_is_current] disagree on a [superseded]
    field that is text. *)
Theorem edge_is_current_text :
  let e := mkSimEdge 1%N 7%N 8%N BYTE_SIMILAR MODEL_VERSION (f64_of_Z 50) (JObj [("superseded", JStr "true")]%string) 0 in
  not_superseded e = Some false /\ edge_is_current (se_evidence e) = true.
Proof. by vm_compute. Qed.

(** ** Witnesses *)

Lemma cleanup_guards_witness :
  let s := set_rows TArtifact [mkArtifact 8%N 1%N 1 [x01] 1 "pe" "committed" "o" 0 "endpoint" (JObj [("legal_hold", JBool true)]%string)] chain in
  held 1%N 8%N s /\ exists e, cleanup_artifact 1%N 8%N false s = (Fail (Conflict e), s).
Proof.
  cbn zeta. set (s := set_rows TArtifact _ chain). assert (Hh : held 1%N 8%N s) by reflexivity.
  split; [exact Hh|]. destruct (cleanup_guards 1%N 8%N s) as [H _]. exact (H Hh).
Defined.

Lemma cleanup_erases_witness :
  exists s' rep, cleanup_artifact 1%N 8%N false chain = (Ret rep, s') /\ erased 1%N 8%N chain s'.
Proof.
  destruct (cleanup_erases 1%N 8%N chain eq_refl) as (s' & rep & Hr & He & _). exists s', rep. split; [exact Hr|exact He].
Defined.

Lemma supersede_idempotent_witness :
  all_rows TEdge evidence_ok chain /\
  exists n s', supersede_edges 1%N None MODEL_VERSION "v2" false chain = (Ret (mkInvalidationReport 1%N None MODEL_VERSION "v2" n false), s').
Proof.
  assert (Hok : all_rows TEdge evidence_ok chain).
  { repeat constructor; try (by exists []); by vm_compute. }
  split; [exact Hok|]. destruct (supersede_idempotent 1%N None MODEL_VERSION "v2" chain Hok) as (n & s' & _ & H & _).
  exists n, s'. exact H.
Defined.
