(* ===== verification/Ingest.v ===== *)
(** * Ingestion ([corpus-core/src/ingest.rs])

    The two-phase upload: announce (dedup or open a session), stage the bytes,
    finalize (rehash, promote to the object store, commit the rows, then scan
    and analyse). *)

From S2P Require Import Prelude Machine Text Hash Classify Cas Schema Scan Rules Triggers Hunts Fuzzy SimModel Features Functions Variants.
From Stdlib Require Import Strings.Byte Strings.Ascii.

Open Scope Z_scope.

(** ** Requests ([dto.rs]) *)

Record OccurrenceInfo := mkOccurrenceInfo {
  oi_host_name : string; oi_agent_id : Uuid; oi_boot_id : Uuid; oi_agent_sequence : Z; oi_capture_reason : string;
  oi_observed_at : Time; oi_path : string; oi_file_size : Z; oi_file_mtime : option Time }.

Record AnnounceRequest := mkAnnounceRequest { an_sha256 : string; an_size_bytes : Z; an_occurrence : option OccurrenceInfo }.

Inductive AnnounceDisposition : Type :=
  | AlreadyPresent | UploadRequired | MetadataOnlyAccepted | RejectedPolicy | RejectedQuota | RetryLater.

Record AnnounceResponse := mkAnnounceResponse {
  ap_disposition : AnnounceDisposition; ap_upload_id : option Uuid; ap_artifact_id : option Uuid }.

Record FinalizeRequest := mkFinalizeRequest {
  fq_upload_id : Uuid; fq_sha256 : string; fq_size_bytes : Z; fq_occurrence : option OccurrenceInfo;
  fq_scope : option string; fq_provenance : option Json }.

Record FinalizeResponse := mkFinalizeResponse {
  fp_artifact_id : Uuid; fp_sha256 : string; fp_storage_state : string; fp_forward_matches : list string }.

Definition OUTCOME_CAPTURED : string := "CAPTURED".
Definition OUTCOME_ALREADY_PRESENT : string := "ALREADY_PRESENT".
Definition OUTCOME_HASH_MISMATCH : string := "HASH_MISMATCH".

Section ingest.
  Context {YX : YaraX} {SH : ScannerHost} {SHA : Sha256} {HEX : HexCodec} {UD : UuidDisplay}
          {GOB : Goblin} {LOG : Log2} {DEC : X86Decoder} {HO : HashOrder}.

Definition occurrence_key (o : Occurrence) : Uuid * Uuid * Uuid * Z :=
  (oc_tenant o, oc_agent_id o, oc_boot_id o, oc_agent_sequence o).

Definition insert_occurrence (tenant : Uuid) (artifact_id : option Uuid) (sha : option bytes) (occ : OccurrenceInfo) : Op Srv unit :=
  id ← new_v4;
  t ← now;
  _ ← insert_on_conflict TOccurrence occurrence_key
    (mkOccurrence id tenant (oi_host_name occ) (oi_agent_id occ) (oi_boot_id occ) (oi_agent_sequence occ) artifact_id sha
      "observed" (oi_capture_reason occ) (oi_observed_at occ) t (Some (oi_path occ)) (Some (oi_file_size occ)) (oi_file_mtime occ) None);
  mret tt.

(** Host, agent, time, reason and path of an attempt. *)
Definition AttemptMeta : Type := string * Uuid * Time * string * option string.

Definition insert_capture_attempt (tenant : Uuid) (meta : AttemptMeta) (outcome_ : string) (sha : option bytes)
    (detail_code : option string) (detail : Json) : Op Srv unit :=
  let '(host, agent, observed, reason, path) := meta in
  id ← new_v4;
  insert_unique TAttempt ca_id (mkCaptureAttempt id tenant host agent observed reason outcome_ sha path detail_code detail).

Definition attempt_meta (occ : option OccurrenceInfo) (provenance : option Json) : Op Srv AttemptMeta :=
  match occ with
  | Some o => mret (oi_host_name o, oi_agent_id o, oi_observed_at o, oi_capture_reason o, Some (oi_path o))
  | None =>
      t ← now;
      let source := default "intel-import"%string (p ← provenance; json_get_str "source" p) in
      let path := p ← provenance; json_get_str "path" p in
      mret (source, 0%N, t, "intel_import"%string, path)
  end.

Definition record_occurrence (tenant artifact_id : Uuid) (sha : bytes) (occ : option OccurrenceInfo) : Op Srv unit :=
  match occ with
  | Some occ => insert_occurrence tenant (Some artifact_id) (Some sha) occ
  | None => mret tt
  end.

(** ** announce *)

Definition announce (tenant : Uuid) (req : AnnounceRequest) : Op Srv AnnounceResponse :=
  sha_raw ← or_throw (BadRequest "invalid sha256 hex") (hex_to_raw (an_sha256 req));
  existing ← select_optional TArtifact (artifact_by_sha tenant sha_raw);
  match existing with
  | Some a =>
      db_transaction (
        record_occurrence tenant (art_id a) sha_raw (an_occurrence req) ;;
        meta ← attempt_meta (an_occurrence req) None;
        insert_capture_attempt tenant meta OUTCOME_ALREADY_PRESENT (Some sha_raw) None (JObj [])) ;;
      mret (mkAnnounceResponse AlreadyPresent None (Some (art_id a)))
  | None =>
      upload_id ← new_v4;
      t ← now;
      insert_unique TSession us_id
        (mkUploadSession upload_id tenant sha_raw (an_size_bytes req) (uuid_to_string upload_id) "open" t) ;;
      mret (mkAnnounceResponse UploadRequired (Some upload_id) None)
  end.

(** ** stage_upload *)

Definition session_is (tenant upload_id : Uuid) (u : UploadSession) : bool :=
  bool_decide (us_id u = upload_id) && bool_decide (us_tenant u = tenant).

Definition upload_session_msg (upload_id : Uuid) : string := "upload session " +:+ uuid_to_string upload_id.

Definition stage_upload (tenant upload_id : Uuid) (b : bytes) : Op Srv unit :=
  session ← select_optional TSession (session_is tenant upload_id);
  match session with
  | Some u =>
      if String.eqb (us_state u) "open" then with_cas (stage (uuid_to_string upload_id) b)
      else throw (Conflict (upload_session_msg upload_id +:+ (" is " +:+ us_state u)))
  | None => throw (NotFound (upload_session_msg upload_id))
  end.

(** ** finalize *)

Definition set_session_state (upload_id : Uuid) (st : string) : Op Srv unit :=
  _ ← update_rows TSession (fun u => bool_decide (us_id u = upload_id))
    (fun u => mkUploadSession (us_id u) (us_tenant u) (us_announced_sha256 u) (us_announced_size u) (us_staging_key u) st (us_created_at u));
  mret tt.

Definition mark_session_failed (upload_id : Uuid) : Op Srv unit := set_session_state upload_id "failed".

(** The transaction that records a mismatch. *)
Definition record_mismatch (tenant : Uuid) (req : FinalizeRequest) (recomputed : string) : Op Srv unit :=
  let announced_raw := default [] (hex_to_raw (fq_sha256 req)) in
  meta ← attempt_meta (fq_occurrence req) (fq_provenance req);
  db_transaction (
    insert_capture_attempt tenant meta OUTCOME_HASH_MISMATCH (Some announced_raw) (Some "SHA256_MISMATCH"%string)
      (JObj [("announced", JStr (fq_sha256 req)); ("recomputed", JStr recomputed)]%string) ;;
    set_session_state (fq_upload_id req) "failed").

Definition artifact_key (a : Artifact) : Uuid * bytes := (art_tenant a, art_sha256 a).

(** The transaction that commits the artifact, its occurrence, the attempt and
    the session: the artifact's identifier. *)
Definition commit_rows (tenant : Uuid) (req : FinalizeRequest) (sha_raw : bytes) (class scope object_key : string) (provenance : Json) :
    Op Srv Uuid :=
  db_transaction (
    id ← new_v4;
    t ← now;
    seq ← nextval;
    inserted ← insert_on_conflict TArtifact artifact_key
      (mkArtifact id tenant seq sha_raw (fq_size_bytes req) class "committed" object_key t scope provenance);
    artifact_id ← (if (inserted : bool) then mret id
                   else row ← select_optional TArtifact (artifact_by_sha tenant sha_raw); a ← or_throw row_not_found row; mret (art_id a));
    record_occurrence tenant artifact_id sha_raw (fq_occurrence req) ;;
    meta ← attempt_meta (fq_occurrence req) (fq_provenance req);
    insert_capture_attempt tenant meta OUTCOME_CAPTURED (Some sha_raw) None (JObj [("artifact_class"%string, JStr class)]) ;;
    set_session_state (fq_upload_id req) "committed" ;;
    mret artifact_id).

(** What follows the commit: the forward scan, whose error is returned, and the
    analysis, whose error is only logged. *)
Definition after_commit (tenant artifact_id : Uuid) (sha_raw b : bytes) (class object_key : string) : Op Srv FinalizeResponse :=
  forward_matches ← forward_scan tenant artifact_id sha_raw b object_key;
  _ ← attempt (analyze_new_artifact tenant artifact_id class b);
  mret (mkFinalizeResponse artifact_id (hex_encode sha_raw) "committed" forward_matches).

(** From verified bytes on. *)
Definition promote (tenant : Uuid) (req : FinalizeRequest) (staging_key : string) (b sha_raw : bytes) : Op Srv FinalizeResponse :=
  let sha_hex := hex_encode sha_raw in
  class ← lift_outcome (classify b);
  let scope := default "endpoint"%string (fq_scope req) in
  if negb (one_of scope ["endpoint"; "intel"]%string) then
    with_cas (discard_staging staging_key) ;;
    throw (BadRequest "invalid artifact scope")
  else
    let provenance := default (JObj []) (fq_provenance req) in
    let key := object_key tenant sha_hex in
    with_cas (commit staging_key key) ;;
    artifact_id ← commit_rows tenant req sha_raw (class_str class) scope key provenance;
    after_commit tenant artifact_id sha_raw b (class_str class) key.

Definition finalize (tenant : Uuid) (req : FinalizeRequest) : Op Srv FinalizeResponse :=
  session ← select_optional TSession (session_is tenant (fq_upload_id req));
  u ← or_throw (NotFound (upload_session_msg (fq_upload_id req))) session;
  if negb (String.eqb (us_state u) "open") then
    throw (Conflict (upload_session_msg (fq_upload_id req) +:+ (" is " +:+ us_state u)))
  else
    let staging_key := us_staging_key u in
    b ← with_cas (read ("staging/" +:+ staging_key));
    if negb (as_i64 (len b) =? fq_size_bytes req) then
      with_cas (discard_staging staging_key) ;;
      mark_session_failed (fq_upload_id req) ;;
      throw (BadRequest "size mismatch")
    else
      match verify_upload b (fq_sha256 req) with
      | Ret sha_raw => promote tenant req staging_key b sha_raw
      | Fail (HashMismatch announced recomputed) =>
          record_mismatch tenant req (sha256_hex b) ;;
          with_cas (discard_staging staging_key) ;;
          throw (HashMismatch announced recomputed)
      | Fail e => throw e
      | Panic => panic
      end.
End ingest.

(** ** What scanning and analysis leave alone *)

(** The four tables of ingestion, and the tenants'. *)
Definition ingest_table (t : table) : bool :=
  match t with TTenant | TArtifact | TSession | TOccurrence | TAttempt => true | _ => false end.

Section analysis_frame.
  Context {YX : YaraX} {SH : ScannerHost} {SHA : Sha256} {HEX : HexCodec} {UD : UuidDisplay}
          {GOB : Goblin} {LOG : Log2} {DEC : X86Decoder} {HO : HashOrder}.

Lemma aside_fire tenant condition event : aside ingest_table (fire tenant condition event).
Proof. unfold fire. aside_tac. Qed.
#[local] Hint Resolve aside_fire : aside.

Lemma aside_insert_edge tenant a b etype score evidence : aside ingest_table (insert_edge tenant a b etype score evidence).
Proof. unfold insert_edge, union_groups, group_of, add_member, fire_variant_join. aside_tac. Qed.
#[local] Hint Resolve aside_insert_edge : aside.

Lemma aside_store_feature tenant artifact family name version value :
  aside ingest_table (store_feature tenant artifact family name version value).
Proof. unfold store_feature. aside_tac. Qed.
#[local] Hint Resolve aside_store_feature : aside.

Lemma aside_extract_and_store tenant artifact format bs : aside ingest_table (extract_and_store tenant artifact format bs).
Proof. unfold extract_and_store, store_limitation, store_function, store_function_bands. aside_tac. Qed.
#[local] Hint Resolve aside_extract_and_store : aside.

Lemma aside_link_one tenant artifact class scoring ds receipt source edges other :
  aside ingest_table (link_one tenant artifact class scoring ds receipt source edges other).
Proof. unfold link_one, same_class, load_functions. aside_tac. Qed.
#[local] Hint Resolve aside_link_one : aside.

Lemma aside_analyze_and_link tenant artifact class bs : aside ingest_table (analyze_and_link tenant artifact class bs).
Proof.
  unfold analyze_and_link, semantic_candidates, func_index_populated, func_candidates, full_scan, persist. aside_tac.
Qed.
#[local] Hint Resolve aside_analyze_and_link : aside.

Lemma aside_fuzzy_candidates tenant artifact class ssdeep : aside ingest_table (fuzzy_candidates tenant artifact class ssdeep).
Proof. unfold fuzzy_candidates, lsh_populated, lsh_candidates, op_concat, lsh_row, class_scan_row. aside_tac. Qed.
#[local] Hint Resolve aside_fuzzy_candidates : aside.

Lemma aside_analyze tenant artifact class bs : aside ingest_table (analyze_new_artifact tenant artifact class bs).
Proof.
  unfold analyze_new_artifact, analyze_artifact, store_features, store_bands, normalized_edges, normalized_edge, byte_edge,
    provenance_edge, feature_matches, same_class. aside_tac.
Qed.
#[local] Hint Resolve aside_analyze : aside.

Lemma aside_forward_scan tenant artifact sha b key : aside ingest_table (forward_scan tenant artifact sha b key).
Proof.
  unfold forward_scan, forward_bundle, cache_lookup, bundle_sources, commit_cache_entry, commit_match, update_hunt,
    record_detection, fire_hunt_match. aside_tac.
Qed.
#[local] Hint Resolve aside_forward_scan : aside.

Lemma aside_after_commit tenant id sha b class key : aside ingest_table (after_commit tenant id sha b class key).
Proof. unfold after_commit. aside_tac. Qed.
End analysis_frame.

(** ** The object store is content-addressed *)

Section store.
  Context {YX : YaraX} {SH : ScannerHost} {SHA : Sha256} {HEX : HexCodec} {HEXL : HexLaws} {UD : UuidDisplay} {UDL : UuidLaws}
          {GOB : Goblin} {LOG : Log2} {DEC : X86Decoder} {HO : HashOrder}.

(** Bytes with digest [sha] are stored under [key]. *)
Definition has_object (c : FsCas) (key : string) (sha : bytes) : Prop :=
  exists b, fs_files c !! key = Some b /\ sha256_raw b = sha.

Record store_ok (c : FsCas) (arts : list Artifact) : Prop := {
  so_unique : NoDup (map artifact_key arts);
  (** an artifact's key is that of its tenant and digest, and its bytes are there *)
  so_rows : forall a, In a arts -> art_object_key a = object_key (art_tenant a) (hex_encode (art_sha256 a)) /\
    has_object c (art_object_key a) (art_sha256 a);
  (** what is stored under the key of a digest has that digest *)
  so_objects : forall t d b, fs_files c !! object_key t (hex_encode d) = Some b -> sha256_raw b = d }.

Definition store_wf (s : Srv) : Prop := store_ok (srv_cas s) (rows TArtifact s).

Lemma store_ok_objects c c' arts :
  (forall o, is_object_key o = true -> fs_files c' !! o = fs_files c !! o) -> store_ok c arts -> store_ok c' arts.
Proof.
  intros Hsame [H1 H2 H3]. constructor; [done| |].
  - intros a Ha. destruct (H2 a Ha) as [Hk (b & Hb & Hd)]. split; [done|]. exists b. split; [|done].
    rewrite Hsame; [done|]. rewrite Hk. apply object_key_is_object.
  - intros t d b Hb. apply (H3 t). rewrite <- Hsame; [done|]. apply object_key_is_object.
Qed.

#[local] Arguments String.append : simpl never.

Lemma stage_objects k b c o : is_object_key o = true -> fs_files (snd (Fs.stage k b c)) !! o = fs_files c !! o.
Proof.
  intros Ho. destruct (valid_staging_key k) eqn:Hk; fs_run; [|done]. cbn. by fs_lookup.
Qed.

Lemma discard_objects k c o : is_object_key o = true -> fs_files (snd (Fs.discard_staging k c)) !! o = fs_files c !! o.
Proof.
  intros Ho. destruct (valid_staging_key k) eqn:Hk; fs_run; [|done].
  destruct (fs_files c !! ("staging/" +:+ k)); [|done]. cbn. by fs_lookup.
Qed.

(** Committing verified bytes keeps the store content-addressed, and the bytes
    of the digest are then there. *)
Lemma commit_store k tenant b c arts :
  fs_files c !! ("staging/" +:+ k) = Some b -> store_ok c arts ->
  let key := object_key tenant (sha256_hex b) in
  store_ok (snd (Fs.commit k key c)) arts /\
  (forall u, fst (Fs.commit k key c) = Ret u -> has_object (snd (Fs.commit k key c)) key (sha256_raw b)).
Proof.
  intros Hb Hok key. assert (Hkey : is_object_key key = true) by apply object_key_is_object.
  destruct (valid_staging_key k) eqn:Ek.
  2: { unfold Fs.commit, Fs.staging_path. rewrite Ek. op_unfold. done. }
  rewrite (fs_commit_spec k key c b Ek Hkey Hb). cbn [fst snd].
  set (c' := Fs.set_files _ c).
  assert (Hother : forall o, is_object_key o = true -> o <> key -> fs_files c' !! o = fs_files c !! o).
  { intros o Ho Hne. unfold c'. cbn. destruct (fs_files c !! key); [by fs_lookup|].
    rewrite lookup_insert_ne by congruence. by fs_lookup. }
  assert (Hhas : has_object c' key (sha256_raw b)).
  { unfold has_object, c'. cbn. destruct (fs_files c !! key) as [b'|] eqn:E.
    - exists b'. split; [by fs_lookup|]. eapply so_objects; [exact Hok|exact E].
    - exists b. by rewrite lookup_insert_eq. }
  split; [|done]. destruct Hok as [H1 H2 H3]. constructor; [done| |].
  - intros a Ha. destruct (H2 a Ha) as [Hk Hobj]. split; [done|]. destruct (decide (art_object_key a = key)) as [E|E].
    + rewrite E. destruct Hobj as (b1 & Hb1 & Hd1). rewrite E in Hb1. rewrite <- Hd1.
      assert (Hd : sha256_raw b1 = sha256_raw b) by (eapply H3; exact Hb1). rewrite Hd. exact Hhas.
    + destruct Hobj as (b1 & Hb1 & Hd1). exists b1. rewrite Hother; [done| |done]. rewrite Hk. apply object_key_is_object.
  - intros t d b1 Hb1. destruct (decide (object_key t (hex_encode d) = key)) as [E|E].
    + apply object_key_inj in E as [-> E]. apply hex_encode_inj in E. subst d.
      destruct Hhas as (b2 & Hb2 & Hd2). unfold key, sha256_hex in Hb2. rewrite Hb2 in Hb1. injection Hb1 as <-. exact Hd2.
    + apply (H3 t). rewrite <- Hother; [done|apply object_key_is_object|done].
Qed.

Definition artifact_table (t : table) : bool := match t with TArtifact => true | _ => false end.

Lemma keeps_store_aside {A} c (m : Op Srv A) : aside artifact_table m ->
  keeps (fun s => srv_cas s = c /\ store_ok c (rows TArtifact s)) m.
Proof. intros Hm s [Hc Hs]. destruct (Hm s) as [H1 H2]. split; [congruence|]. by rewrite H2. Qed.

Lemma store_wf_aside {A} (m : Op Srv A) : aside artifact_table m -> keeps store_wf m.
Proof. intros Hm s Hs. by destruct (keeps_store_aside (srv_cas s) m Hm s (conj eq_refl Hs)) as [<- ?]. Qed.

(** The transaction of the commit adds an artifact row only for bytes that are
    in the store. *)
Lemma keeps_commit_rows c tenant req sha class scope provenance :
  has_object c (object_key tenant (hex_encode sha)) sha ->
  keeps (fun s => srv_cas s = c /\ store_ok c (rows TArtifact s))
    (commit_rows tenant req sha class scope (object_key tenant (hex_encode sha)) provenance).
Proof.
  intros Hobj. unfold commit_rows. apply keeps_db_transaction.
  { intros old new [Hco Hso] [Hcn _]. split; [exact Hcn|]. exact Hso. }
  do 3 (apply keeps_bind; [apply keeps_store_aside; aside_tac|intros ?]).
  apply keeps_bind.
  { intros s [Hc Hs]. set (r := mkArtifact _ _ _ _ _ _ _ _ _ _ _).
    destruct (decide (artifact_key r ∈ map artifact_key (rows TArtifact s))) as [Hin|Hnew].
    - by rewrite (insert_on_conflict_old TArtifact artifact_key r s Hin).
    - rewrite (insert_on_conflict_new TArtifact artifact_key r s Hnew). cbn [snd]. split; [exact Hc|]. rewrite rows_set_rows_eq.
      destruct Hs as [H1 H2 H3]. constructor; [|intros ar Ha|done].
      + rewrite map_app. apply NoDup_app. split; [done|]. split; [|apply NoDup_singleton].
        intros k Hk Hk'. apply list_elem_of_singleton in Hk' as ->. done.
      + apply in_app_or in Ha as [Ha|[<-|[]]]; [by apply H2|]. split; [done|exact Hobj]. }
  intros inserted. apply keeps_store_aside.
  unfold record_occurrence, insert_occurrence, attempt_meta, insert_capture_attempt, set_session_state. aside_tac.
Qed.

Lemma aside_weaken {A} (P Q : table -> bool) (m : Op Srv A) : (forall t, Q t = true -> P t = true) -> aside P m -> aside Q m.
Proof. intros Hpq Hm s. destruct (Hm s) as [H1 H2]. split; [done|]. auto. Qed.

Lemma keeps_promote tenant req k b :
  forall s, fs_files (srv_cas s) !! ("staging/" +:+ k) = Some b -> store_wf s ->
  store_wf (snd (promote tenant req k b (sha256_raw b) s)).
Proof.
  intros s Hb Hs. unfold promote. unfold mbind at 1, op_mbind at 1. unfold lift_outcome at 1.
  destruct (classify b) as [class|e|]; [|done..].
  destruct (negb _).
  { unfold mbind, op_mbind, with_cas, throw. pose proof (discard_objects k (srv_cas s)) as Hd.
    destruct (discard_staging k (srv_cas s)) as [o c'] eqn:E. change (Fs.discard_staging k (srv_cas s) = (o, c')) in E. rewrite E in Hd.
    assert (Hwf : store_wf (set_cas c' s)) by (eapply store_ok_objects; [exact Hd|exact Hs]).
    by destruct o. }
  cbv zeta. set (key := object_key tenant (hex_encode (sha256_raw b))).
  destruct (commit_store k tenant b (srv_cas s) (rows TArtifact s) Hb Hs) as [H1 H2]. change (object_key tenant (sha256_hex b)) with key in H1, H2.
  unfold mbind at 1, op_mbind at 1, with_cas at 1. change (commit k key (srv_cas s)) with (Fs.commit k key (srv_cas s)).
  destruct (Fs.commit k key (srv_cas s)) as [[[]|e|] c']; cbn [fst snd] in H1, H2; [|exact H1..].
  assert (Hhas : has_object c' key (sha256_raw b)) by (by apply (H2 tt)).
  assert (Hk : keeps (fun s => srv_cas s = c' /\ store_ok c' (rows TArtifact s))
    (artifact_id ← commit_rows tenant req (sha256_raw b) (class_str class) (default "endpoint"%string (fq_scope req)) key (default (JObj []) (fq_provenance req));
     after_commit tenant artifact_id (sha256_raw b) b (class_str class) key)).
  { apply keeps_bind; [by apply keeps_commit_rows|]. intros id. apply keeps_store_aside.
    apply (aside_weaken ingest_table); [by intros []|]. apply aside_after_commit. }
  destruct (Hk (set_cas c' s)) as [Hc Hfin]; [split; [done|exact H1]|]. unfold store_wf. rewrite Hc. exact Hfin.
Qed.

Lemma keeps_finalize tenant req : keeps store_wf (finalize tenant req).
Proof.
  intros s Hs. unfold finalize. erewrite bind_run; [|reflexivity].
  destruct (head _) as [u|]; [|done]. erewrite bind_run; [|reflexivity]. destruct (negb _); [done|]. cbv zeta.
  unfold mbind at 1, op_mbind at 1, with_cas at 1. change (read ?p ?c) with (Fs.read_file p c). unfold Fs.read_file at 1.
  assert (Hsc : set_cas (srv_cas s) s = s) by by destruct s.
  destruct (fs_files (srv_cas s) !! ("staging/" +:+ us_staging_key u)) as [b|] eqn:Eb; [|by rewrite Hsc]. rewrite Hsc.
  assert (Hdisc : keeps store_wf (with_cas (discard_staging (us_staging_key u)))).
  { intros s1 Hs1. unfold with_cas. pose proof (discard_objects (us_staging_key u) (srv_cas s1)) as Hd.
    destruct (discard_staging (us_staging_key u) (srv_cas s1)) as [o c'] eqn:E.
    change (Fs.discard_staging (us_staging_key u) (srv_cas s1) = (o, c')) in E. rewrite E in Hd.
    eapply store_ok_objects; [exact Hd|exact Hs1]. }
  destruct (negb _).
  { refine (keeps_bind store_wf _ _ _ _ s Hs); [exact Hdisc|]. intros _. apply store_wf_aside. unfold mark_session_failed, set_session_state. aside_tac. }
  unfold verify_upload. destruct (eq_ignore_case _ _); [by apply keeps_promote|].
  refine (keeps_bind store_wf _ _ _ _ s Hs).
  - apply store_wf_aside. unfold record_mismatch, attempt_meta, insert_capture_attempt, set_session_state. aside_tac.
  - intros _. apply keeps_bind; [exact Hdisc|]. intros _. apply keeps_throw.
Qed.

Lemma keeps_stage_upload tenant upload_id b : keeps store_wf (stage_upload tenant upload_id b).
Proof.
  unfold stage_upload. apply keeps_bind; [apply store_wf_aside; aside_tac|]. intros [u|]; [|apply keeps_throw].
  destruct (String.eqb _ _); [|apply keeps_throw]. intros s Hs. unfold with_cas.
  pose proof (stage_objects (uuid_to_string upload_id) b (srv_cas s)) as Hd.
  destruct (stage (uuid_to_string upload_id) b (srv_cas s)) as [o c'] eqn:E.
  change (Fs.stage (uuid_to_string upload_id) b (srv_cas s) = (o, c')) in E. rewrite E in Hd.
  eapply store_ok_objects; [exact Hd|exact Hs].
Qed.

Inductive IngestRequest : Type :=
  | Announce (tenant : Uuid) (req : AnnounceRequest)
  | StageUpload (tenant upload_id : Uuid) (b : bytes)
  | Finalize (tenant : Uuid) (req : FinalizeRequest).

(** A request, whose response is sent and whose state remains. *)
Definition serve (r : IngestRequest) : Op Srv unit :=
  match r with
  | Announce tenant req => attempt (announce tenant req) ;; mret tt
  | StageUpload tenant id b => attempt (stage_upload tenant id b) ;; mret tt
  | Finalize tenant req => attempt (finalize tenant req) ;; mret tt
  end.

(** C1. Whatever clients announce, upload and finalize, in whatever order, with
    whatever bytes and claimed digests: no tenant has two artifacts of one
    digest; every artifact's bytes are in the object store, under the key of its
    tenant and digest, and hash to that digest; and so does everything stored
    under such a key. *)
Theorem ingest_content_addressed requests (s : Srv) :
  store_wf s -> store_wf (snd (op_for requests serve s)).
Proof.
  revert s. change (keeps store_wf (op_for requests serve)). apply keeps_for. intros r _.
  destruct r; unfold serve; (apply keeps_bind; [apply keeps_attempt|intros ?; apply keeps_mret]).
  - apply store_wf_aside. unfold announce, record_occurrence, insert_occurrence, attempt_meta, insert_capture_attempt. aside_tac.
  - apply keeps_stage_upload.
  - apply keeps_finalize.
Qed.
End store.


(** ** Sessions *)

Section sessions.
  Context {YX : YaraX} {SH : ScannerHost} {SHA : Sha256} {HEX : HexCodec} {UD : UuidDisplay}
          {GOB : Goblin} {LOG : Log2} {DEC : X86Decoder} {HO : HashOrder}.

Definition with_state (st : string) (u : UploadSession) : UploadSession :=
  mkUploadSession (us_id u) (us_tenant u) (us_announced_sha256 u) (us_announced_size u) (us_staging_key u) st (us_created_at u).

(** The sessions after [id] moves to [st]. *)
Definition close_session (id : Uuid) (st : string) (l : list UploadSession) : list UploadSession :=
  map (fun u => if bool_decide (us_id u = id) then with_state st u else u) l.

Definition terminal (st : string) : Prop := st = "committed"%string \/ st = "failed"%string.

(** Nothing of a session changes, except its state, from open to a terminal one. *)
Definition evolves (u u' : UploadSession) : Prop :=
  u' = u \/ (us_state u = "open"%string /\ exists st, terminal st /\ u' = with_state st u).

Lemma close_close id st st' l : close_session id st' (close_session id st l) = close_session id st' l.
Proof.
  unfold close_session. rewrite map_map. apply map_ext. intros u.
  destruct (bool_decide (us_id u = id)) eqn:E; [cbn; by rewrite E|by rewrite E].
Qed.

(** The sessions are those of [l], or [l] with session [id] closed. *)
Definition may_close (id : Uuid) (l : list UploadSession) (s : Srv) : Prop :=
  rows TSession s = l \/ exists st, terminal st /\ rows TSession s = close_session id st l.

Definition session_table (t : table) : bool := match t with TSession => true | _ => false end.

Lemma may_close_aside {A} id l (m : Op Srv A) : aside session_table m -> keeps (may_close id l) m.
Proof. intros Hm s Hs. destruct (Hm s) as [_ H]. unfold may_close. rewrite (H TSession eq_refl). exact Hs. Qed.

Lemma may_close_set id l st : terminal st -> keeps (may_close id l) (set_session_state id st).
Proof.
  intros Hst s Hs. right. exists st. split; [done|]. unfold set_session_state, update_rows, mbind, op_mbind. cbn [snd mret op_mret].
  rewrite rows_set_rows_eq. change (close_session id st (rows TSession s) = close_session id st l).
  destruct Hs as [->|(st' & _ & ->)]; [done|apply close_close].
Qed.

Lemma may_close_transaction {A} id l (m : Op Srv A) : keeps (may_close id l) m -> keeps (may_close id l) (db_transaction m).
Proof. intros Hm. apply keeps_db_transaction; [|exact Hm]. intros old new Hold _. exact Hold. Qed.

Lemma may_close_with_cas {A} id l (m : Op FsCas A) : keeps (may_close id l) (with_cas m).
Proof. intros s Hs. unfold with_cas. by destruct (m (srv_cas s)). Qed.

Lemma may_close_commit_rows tenant req sha class scope key provenance l :
  keeps (may_close (fq_upload_id req) l) (commit_rows tenant req sha class scope key provenance).
Proof.
  unfold commit_rows. apply may_close_transaction.
  do 5 (apply keeps_bind; [apply may_close_aside; aside_tac|intros ?]).
  apply keeps_bind; [apply may_close_aside; unfold record_occurrence, insert_occurrence; aside_tac|intros _].
  apply keeps_bind; [apply may_close_aside; unfold attempt_meta; aside_tac|intros ?].
  apply keeps_bind; [apply may_close_aside; unfold insert_capture_attempt; aside_tac|intros _].
  apply keeps_bind; [apply may_close_set; by left|]. intros _. apply keeps_mret.
Qed.

Lemma may_close_promote tenant req k b sha l : keeps (may_close (fq_upload_id req) l) (promote tenant req k b sha).
Proof.
  unfold promote. apply keeps_bind; [apply keeps_lift|intros class]. destruct (negb _).
  - apply keeps_bind; [apply may_close_with_cas|]. intros _. apply keeps_throw.
  - cbv zeta. apply keeps_bind; [apply may_close_with_cas|intros _]. apply keeps_bind; [apply may_close_commit_rows|intros id].
    apply may_close_aside. apply (aside_weaken ingest_table); [by intros []|]. apply aside_after_commit.
Qed.

(** Finalizing closes at most the open session it names. *)
Lemma finalize_closes tenant req s :
  rows TSession (snd (finalize tenant req s)) = rows TSession s \/
  exists u, In u (rows TSession s) /\ us_id u = fq_upload_id req /\ us_tenant u = tenant /\ us_state u = "open"%string /\
    may_close (fq_upload_id req) (rows TSession s) (snd (finalize tenant req s)).
Proof.
  unfold finalize. erewrite bind_run; [|reflexivity]. destruct (head _) as [u|] eqn:Eu; [|by left].
  erewrite bind_run; [|reflexivity]. destruct (String.eqb (us_state u) "open") eqn:Eo; [|by left]. apply String.eqb_eq in Eo.
  right. exists u. apply head_filter_in in Eu as [Hin Hs]. unfold session_is in Hs. apply andb_true_iff in Hs as [H1 H2].
  apply bool_decide_eq_true_1 in H1, H2. do 4 (split; [done|]). cbn [negb]. cbv zeta.
  set (body := (b ← with_cas _; _) : Op Srv FinalizeResponse). enough (Hk : keeps (may_close (fq_upload_id req) (rows TSession s)) body) by (apply Hk; by left).
  subst body. apply keeps_bind; [apply may_close_with_cas|intros b]. destruct (negb _).
  - apply keeps_bind; [apply may_close_with_cas|intros _]. apply keeps_bind; [|intros _; apply keeps_throw].
    apply may_close_set. by right.
  - destruct (verify_upload b (fq_sha256 req)) as [sha|[]|]; try apply keeps_throw; [apply may_close_promote| |apply keeps_panic].
    apply keeps_bind; [|intros _; apply keeps_bind; [apply may_close_with_cas|intros _; apply keeps_throw]].
    unfold record_mismatch. apply keeps_bind; [apply may_close_aside; unfold attempt_meta; aside_tac|intros meta].
    apply may_close_transaction. apply keeps_bind; [apply may_close_aside; unfold insert_capture_attempt; aside_tac|intros _].
    apply may_close_set. by right.
Qed.

Lemma evolves_close l id u st : NoDup (map us_id l) -> In u l -> us_id u = id -> us_state u = "open"%string -> terminal st ->
  Forall2 evolves l (close_session id st l).
Proof.
  intros Hn Hin Hid Ho Hst. unfold close_session. apply Forall2_fmap_r, Forall_Forall2_diag, list.Forall_forall. intros v Hv.
  unfold compose. case_bool_decide as E; [|by left]. right.
  assert (v = u) as ->; [|split; [done|by exists st]].
  apply (nodup_map_inj us_id l); [done|by apply list_elem_of_In|done|congruence].
Qed.

#[export] Instance evolves_preorder : PreOrder evolves.
Proof.
  split; [by left|]. intros u v w [->|(Ho & st & Hst & ->)]; [done|]. intros [->|(Ho' & _)]; [right; eauto|]. cbn in Ho'.
  destruct Hst; subst; discriminate.
Qed.

(** The sessions of [l] are all still there, each as it was or closed. *)
Definition sessions_from (l : list UploadSession) (s : Srv) : Prop :=
  unique_key TSession us_id s /\ exists old new, rows TSession s = old ++ new /\ Forall2 evolves l old.

Lemma evolve_sessions l s s' old' new' :
  sessions_from l s -> unique_key TSession us_id s' -> rows TSession s' = old' ++ new' -> Forall2 evolves (rows TSession s) old' ->
  sessions_from l s'.
Proof.
  intros (_ & old & new & E & Hev) Hu E' Hev'. split; [done|]. rewrite E in Hev'.
  apply Forall2_app_inv_l in Hev' as (o1 & o2 & H1 & H2 & ->). exists o1, (o2 ++ new'). rewrite E', <- app_assoc. split; [done|].
  by transitivity old.
Qed.

Lemma sessions_from_aside {A} l (m : Op Srv A) : aside session_table m -> keeps (sessions_from l) m.
Proof.
  intros Hm s (Hu & Hl). destruct (Hm s) as [_ H]. unfold sessions_from, unique_key. rewrite (H TSession eq_refl). by split.
Qed.

Lemma unique_close id st l : NoDup (map us_id l) -> NoDup (map us_id (close_session id st l)).
Proof.
  intros Hn. replace (map us_id (close_session id st l)) with (map us_id l); [done|]. unfold close_session. rewrite map_map.
  apply map_ext. intros u. by case_bool_decide.
Qed.

Lemma keeps_serve_sessions l r : keeps (sessions_from l) (serve r).
Proof.
  destruct r as [tenant req|tenant id b|tenant req]; unfold serve;
    (apply keeps_bind; [apply keeps_attempt|intros ?; apply keeps_mret]).
  - unfold announce. apply keeps_bind; [apply sessions_from_aside; aside_tac|intros sha].
    apply keeps_bind; [apply sessions_from_aside; aside_tac|intros [a|]].
    { apply sessions_from_aside. unfold record_occurrence, insert_occurrence, attempt_meta, insert_capture_attempt. aside_tac. }
    do 2 (apply keeps_bind; [apply sessions_from_aside; aside_tac|intros ?]). apply keeps_bind; [|intros _; apply keeps_mret].
    apply keeps_insert_unique. intros s Hs. set (r := mkUploadSession _ _ _ _ _ _ _).
    destruct (decide (us_id r ∈ map us_id (rows TSession s))) as [Hin|Hnew].
    + by rewrite (insert_on_conflict_old TSession us_id r s Hin).
    + pose proof (insert_on_conflict_new TSession us_id r s Hnew) as E.
      apply (evolve_sessions l s _ (rows TSession s) [r] Hs); [apply (keeps_unique_insert_on_conflict TSession us_id r s), Hs| |done].
      rewrite E. apply rows_set_rows_eq.
  - unfold stage_upload. apply keeps_bind; [apply sessions_from_aside; aside_tac|intros [u|]]; [|apply keeps_throw].
    destruct (String.eqb _ _); [|apply keeps_throw]. intros s Hs. unfold with_cas. by destruct (stage _ _ _).
  - intros s Hs. destruct (finalize_closes tenant req s) as [E|(u & Hin & Hid & _ & Ho & [E|(st & Hst & E)])].
    1,2: apply (evolve_sessions l s _ (rows TSession s) [] Hs); [unfold unique_key; rewrite E; apply Hs|by rewrite E, app_nil_r|done].
    apply (evolve_sessions l s _ (close_session (fq_upload_id req) st (rows TSession s)) [] Hs).
    + unfold unique_key. rewrite E. apply unique_close, Hs.
    + by rewrite E, app_nil_r.
    + eapply evolves_close; [apply Hs|exact Hin|exact Hid|exact Ho|exact Hst].
Qed.

(** C11. An upload session only ever goes from open to committed or failed, and then
    never changes; no request alters its tenant, its announced digest and size
    or its staging key, removes it, or gives two sessions one identifier. *)
Theorem upload_sessions_close_once requests (s s' : Srv) (o : outcome unit) :
  unique_key TSession us_id s -> op_for requests serve s = (o, s') ->
  unique_key TSession us_id s' /\
  exists old new, rows TSession s' = old ++ new /\ Forall2 evolves (rows TSession s) old.
Proof.
  intros Hu E. replace s' with (snd (op_for requests serve s)) by (by rewrite E).
  refine (keeps_for (sessions_from (rows TSession s)) requests serve _ s _).
  - intros r _. apply keeps_serve_sessions.
  - split; [done|]. exists (rows TSession s), []. by rewrite app_nil_r.
Qed.
End sessions.


(** ** Outcomes of finalize *)

Section outcomes.
  Context {YX : YaraX} {SH : ScannerHost} {SHA : Sha256} {HEX : HexCodec} {UD : UuidDisplay}
          {GOB : Goblin} {LOG : Log2} {DEC : X86Decoder} {HO : HashOrder}.
  Context (tenant : Uuid) (req : FinalizeRequest).

(** The identifiers still to be drawn are not those of recorded attempts. *)
Definition attempts_fresh (s : Srv) : Prop :=
  forall n, (srv_uuid_next s <= n)%nat -> srv_uuids s n ∉ map ca_id (rows TAttempt s).

(** [s'] has the identifiers of [s] still to be drawn, and its attempts. *)
Definition later (s s' : Srv) : Prop :=
  srv_uuids s' = srv_uuids s /\ (srv_uuid_next s <= srv_uuid_next s')%nat /\ rows TAttempt s' = rows TAttempt s.

Lemma attempts_fresh_later s s' : later s s' -> attempts_fresh s -> attempts_fresh s'.
Proof. intros (Hu & Hn & Ha) Hf n Hle. rewrite Hu, Ha. apply Hf. lia. Qed.

Lemma attempt_meta_run occ prov s : exists meta s1, attempt_meta occ prov s = (Ret meta, s1) /\ later s s1 /\ agree (fun _ => true) s s1.
Proof. destruct occ; [by do 2 eexists|]. unfold attempt_meta, later. do 2 eexists. split; [reflexivity|]. by split. Qed.

Lemma insert_attempt_run meta out sha code detail s : attempts_fresh s ->
  exists row s1, insert_capture_attempt tenant meta out sha code detail s = (Ret tt, s1) /\
    ca_terminal_outcome row = out /\ ca_artifact_sha256 row = sha /\ ca_tenant row = tenant /\ ca_detail_code row = code /\
    rows TAttempt s1 = rows TAttempt s ++ [row] /\
    agree (fun t => match t with TAttempt => false | _ => true end) s s1.
Proof.
  intros Hf. destruct meta as [[[[host agent] obs] reason] path]. unfold insert_capture_attempt.
  erewrite bind_run; [|reflexivity]. set (s0 := snd (new_v4 s)). set (row := mkCaptureAttempt _ _ _ _ _ _ _ _ _ _ _).
  assert (Hn : ca_id row ∉ map ca_id (rows TAttempt s0)) by (apply (Hf (srv_uuid_next s)); lia).
  pose proof (insert_on_conflict_new TAttempt ca_id row s0 Hn) as E.
  exists row, (set_rows TAttempt (rows TAttempt s0 ++ [row]) s0). unfold insert_unique. rewrite (bind_run _ _ _ _ _ E).
  do 5 (split; [done|]). split; [apply rows_set_rows_eq|]. exact (agree_set_rows _ TAttempt eq_refl _ s0).
Qed.

Lemma discard_run k s : valid_staging_key k = true ->
  exists c, with_cas (discard_staging k) s = (Ret tt, set_cas c s) /\ fs_files c !! ("staging/" +:+ k) = None /\
    forall o, is_object_key o = true -> fs_files c !! o = fs_files (srv_cas s) !! o.
Proof.
  intros Hk. destruct (law_discard k (srv_cas s) Hk) as (c & E & H1 & H2). exists c. unfold with_cas. rewrite E.
  split; [done|]. split; [|exact H2]. specialize (H1 k Hk). cbn in H1. by rewrite decide_True in H1.
Qed.

(** The upload session named by the request, open, with staged bytes [b] of the
    announced size. *)
Record ready (s : Srv) (u : UploadSession) (b : bytes) : Prop := {
  rd_session : head (List.filter (session_is tenant (fq_upload_id req)) (rows TSession s)) = Some u;
  rd_open : us_state u = "open"%string;
  rd_key : valid_staging_key (us_staging_key u) = true;
  rd_staged : fs_files (srv_cas s) !! ("staging/" +:+ us_staging_key u) = Some b;
  rd_size : as_i64 (len b) = fq_size_bytes req;
  rd_fresh : attempts_fresh s }.

Lemma finalize_ready s u b : ready s u b ->
  finalize tenant req s =
    match verify_upload b (fq_sha256 req) with
    | Ret sha_raw => promote tenant req (us_staging_key u) b sha_raw
    | Fail (HashMismatch announced recomputed) =>
        record_mismatch tenant req (sha256_hex b) ;;
        with_cas (discard_staging (us_staging_key u)) ;;
        throw (HashMismatch announced recomputed)
    | Fail e => throw e
    | Panic => panic
    end s.
Proof.
  intros [H1 H2 H3 H4 H5 _]. unfold finalize.
  assert (E0 : select_optional TSession (session_is tenant (fq_upload_id req)) s = (Ret (Some u), s)) by exact (f_equal (fun o => (Ret o, s)) H1).
  rewrite (bind_run _ _ _ _ _ E0). erewrite bind_run; [|reflexivity]. rewrite H2. cbn [negb String.eqb Ascii.eqb Bool.eqb]. cbv zeta.
  assert (E : with_cas (read ("staging/" +:+ us_staging_key u)) s = (Ret b, s)).
  { unfold with_cas. change (read ?p ?c) with (Fs.read_file p c). unfold Fs.read_file. rewrite H4. by destruct s. }
  rewrite (bind_run _ _ _ _ _ E). rewrite H5, Z.eqb_refl. done.
Qed.

(** C10. A mismatch of the digests commits nothing: the client gets both digests,
    the attempt is recorded as a hash mismatch of the announced digest, the
    session is failed and the staged bytes are gone. *)
Theorem finalize_rejects_mismatch s u b : ready s u b -> eq_ignore_case (sha256_hex b) (fq_sha256 req) = false ->
  exists s' row, finalize tenant req s = (Fail (HashMismatch (fq_sha256 req) (sha256_hex b)), s') /\
    rows TSession s' = close_session (fq_upload_id req) "failed" (rows TSession s) /\
    rows TAttempt s' = rows TAttempt s ++ [row] /\ ca_terminal_outcome row = OUTCOME_HASH_MISMATCH /\
    ca_artifact_sha256 row = Some (default [] (hex_to_raw (fq_sha256 req))) /\
    (forall t, t <> TSession -> t <> TAttempt -> rows t s' = rows t s) /\
    fs_files (srv_cas s') !! ("staging/" +:+ us_staging_key u) = None /\
    (forall o, is_object_key o = true -> fs_files (srv_cas s') !! o = fs_files (srv_cas s) !! o).
Proof.
  intros Hr Hne. rewrite (finalize_ready s u b Hr). unfold verify_upload. rewrite Hne. unfold record_mismatch.
  destruct (attempt_meta_run (fq_occurrence req) (fq_provenance req) s) as (meta & s1 & E1 & L1 & A1).
  destruct (insert_attempt_run meta OUTCOME_HASH_MISMATCH (Some (default [] (hex_to_raw (fq_sha256 req)))) (Some "SHA256_MISMATCH"%string)
     (JObj [("announced", JStr (fq_sha256 req)); ("recomputed", JStr (sha256_hex b))]%string) s1) as (row & s2 & E2 & O2 & S2 & _ & _ & R2 & A2).
  { eapply attempts_fresh_later; [exact L1|apply Hr]. }
  set (s3 := snd (set_session_state (fq_upload_id req) "failed" s2)).
  destruct (discard_run (us_staging_key u) s3 (rd_key _ _ _ Hr)) as (c & E4 & D1 & D2).
  exists (set_cas c s3), row. split.
  { erewrite bind_run; [erewrite bind_run; [reflexivity|exact E4]|]. erewrite bind_run; [|exact E1].
    unfold db_transaction, transaction. by rewrite (bind_run _ _ _ _ _ E2). }
  assert (Hs3 : forall t, t <> TSession -> rows t s3 = rows t s2) by (intros t Ht; by apply rows_set_rows_ne).
  assert (Hc : srv_cas s3 = srv_cas s) by (destruct A1 as [A1 _], A2 as [A2 _]; etransitivity; [exact A2|exact A1]).
  change (rows ?t (set_cas c s3)) with (rows t s3). destruct A1 as [_ A1], A2 as [_ A2].
  split; [|split; [|split; [done|split; [done|split; [|split]]]]].
  - unfold s3. transitivity (close_session (fq_upload_id req) "failed" (rows TSession s2)); [apply rows_set_rows_eq|].
    by rewrite A2, A1.
  - by rewrite Hs3, R2, A1.
  - intros t H1 H2. change (rows t s3 = rows t s). rewrite Hs3 by done. rewrite A2 by (by destruct t). by apply A1.
  - exact D1.
  - intros o Ho. cbn [srv_cas set_cas]. rewrite D2 by done. by rewrite Hc.
Qed.

Definition other_table (t' t : table) : bool := negb (bool_decide (t = t')).

Lemma record_occurrence_run aid sha occ s : exists s1, record_occurrence tenant aid sha occ s = (Ret tt, s1) /\ later s s1 /\
  agree (other_table TOccurrence) s s1.
Proof.
  destruct occ as [occ|]; [|by eexists]. unfold record_occurrence, insert_occurrence, later.
  erewrite bind_run; [|reflexivity]. erewrite bind_run; [|reflexivity]. set (row := mkOccurrence _ _ _ _ _ _ _ _ _ _ _ _ _ _ _ _).
  set (s0 := snd (now (snd (new_v4 s)))). change (snd (now _)) with s0.
  destruct (decide (occurrence_key row ∈ map occurrence_key (rows TOccurrence s0))) as [Hin|Hnew].
  - rewrite (bind_run _ _ _ _ _ (insert_on_conflict_old TOccurrence occurrence_key row s0 Hin)).
    eexists. split; [reflexivity|]. split; [|done]. split; [done|]. split; [|done]. change (srv_uuid_next s <= S (srv_uuid_next s))%nat. lia.
  - rewrite (bind_run _ _ _ _ _ (insert_on_conflict_new TOccurrence occurrence_key row s0 Hnew)).
    eexists. split; [reflexivity|]. split; [|exact (agree_set_rows _ TOccurrence eq_refl _ s0)].
    split; [done|]. split; [|by refine (rows_set_rows_ne TOccurrence TAttempt _ s0 _)]. change (srv_uuid_next s <= S (srv_uuid_next s))%nat. lia.
Qed.

(** The artifact of a tenant's digest. *)
Definition is_artifact (sha : bytes) (a : Artifact) : Prop := art_tenant a = tenant /\ art_sha256 a = sha.

(** The row the upsert of the artifact leaves, inserted or already there. *)
Lemma artifact_row_run (r : Artifact) s : is_artifact (art_sha256 r) r ->
  exists a s1, (inserted ← insert_on_conflict TArtifact artifact_key r;
     (if (inserted : bool) then mret (art_id r)
      else row ← select_optional TArtifact (artifact_by_sha tenant (art_sha256 r)); a ← or_throw row_not_found row; mret (art_id a))) s
      = (Ret (art_id a), s1) /\
    In a (rows TArtifact s1) /\ is_artifact (art_sha256 r) a /\ later s s1 /\ agree (other_table TArtifact) s s1.
Proof.
  intros [Ht _]. destruct (decide (artifact_key r ∈ map artifact_key (rows TArtifact s))) as [Hin|Hnew].
  - rewrite (bind_run _ _ _ _ _ (insert_on_conflict_old TArtifact artifact_key r s Hin)). unfold select_optional, gets.
    destruct (head (List.filter (artifact_by_sha tenant (art_sha256 r)) (rows TArtifact s))) as [a|] eqn:E.
    + exists a, s. erewrite bind_run; [|reflexivity].
      split; [exact (f_equal (fun o => (a ← or_throw row_not_found o; mret (art_id a)) s) E)|].
      apply head_filter_in in E as [Hi Hp]. apply andb_true_iff in Hp as [H1 H2]. apply bool_decide_eq_true_1 in H1, H2. done.
    + exfalso. apply list_elem_of_In, in_map_iff in Hin as (a & Hk & Ha).
      apply (head_filter_none _ _ E) in Ha as E'. clear E. rename E' into E. injection Hk as Hk1 Hk2. unfold artifact_by_sha in E. rewrite Hk1, Hk2, Ht in E.
      by rewrite !bool_decide_eq_true_2 in E.
  - rewrite (bind_run _ _ _ _ _ (insert_on_conflict_new TArtifact artifact_key r s Hnew)). do 2 eexists.
    split; [reflexivity|]. rewrite rows_set_rows_eq. split; [apply in_or_app; right; by left|]. split; [done|].
    split; [|by apply agree_set_rows]. split; [done|]. split; [done|]. by apply rows_set_rows_ne.
Qed.

Lemma commit_rows_run sha class scope key prov s : attempts_fresh s ->
  exists a row s', commit_rows tenant req sha class scope key prov s = (Ret (art_id a), s') /\
    In a (rows TArtifact s') /\ is_artifact sha a /\ srv_cas s' = srv_cas s /\
    rows TSession s' = close_session (fq_upload_id req) "committed" (rows TSession s) /\
    rows TAttempt s' = rows TAttempt s ++ [row] /\ ca_terminal_outcome row = OUTCOME_CAPTURED /\ ca_artifact_sha256 row = Some sha.
Proof.
  intros Hf. set (s0 := snd (nextval (snd (now (snd (new_v4 s)))))).
  assert (L0 : later s s0) by (split; [done|]; split; [|done]; change (srv_uuid_next s <= S (srv_uuid_next s))%nat; lia).
  set (r := mkArtifact (srv_uuids s (srv_uuid_next s)) tenant (srv_seq s + 1) sha (fq_size_bytes req) class "committed" key
    (srv_clock s (srv_clock_next s)) scope prov).
  destruct (artifact_row_run r s0) as (a & s1 & E1 & Ha & Hia & L1 & A1); [done|].
  destruct (record_occurrence_run (art_id a) sha (fq_occurrence req) s1) as (s2 & E2 & L2 & A2).
  destruct (attempt_meta_run (fq_occurrence req) (fq_provenance req) s2) as (meta & s3 & E3 & L3 & A3).
  destruct (insert_attempt_run meta OUTCOME_CAPTURED (Some sha) None (JObj [("artifact_class"%string, JStr class)]) s3)
    as (row & s4 & E4 & O4 & S4 & _ & _ & R4 & A4).
  { do 4 (eapply attempts_fresh_later; [eassumption|]). exact Hf. }
  set (s5 := snd (set_session_state (fq_upload_id req) "committed" s4)).
  exists a, row, s5. split.
  { set (K := fun artifact_id : Uuid => record_occurrence tenant artifact_id sha (fq_occurrence req) ;;
      meta ← attempt_meta (fq_occurrence req) (fq_provenance req);
      insert_capture_attempt tenant meta OUTCOME_CAPTURED (Some sha) None (JObj [("artifact_class"%string, JStr class)]) ;;
      set_session_state (fq_upload_id req) "committed" ;;
      mret artifact_id).
    pose proof (bind_run _ K _ _ _ E1) as E. rewrite bind_assoc_run in E. unfold K in E at 2.
    rewrite (bind_run _ _ _ _ _ E2), (bind_run _ _ _ _ _ E3), (bind_run _ _ _ _ _ E4) in E.
    exact (f_equal (fun p => match p with (Ret a, s') => (Ret a, s') | (o, s') => (o, set_db (srv_db s) s') end) E). }
  assert (Hs5 : forall t, t <> TSession -> rows t s5 = rows t s4) by (intros t Ht; by apply rows_set_rows_ne).
  destruct A1 as [C1 A1], A2 as [C2 A2], A3 as [C3 A3], A4 as [C4 A4].
  split; [|split; [done|split; [|split; [|split; [|done]]]]].
  - by rewrite Hs5, A4, A3, A2.
  - change (srv_cas s4 = srv_cas s). by rewrite C4, C3, C2, C1.
  - transitivity (close_session (fq_upload_id req) "committed" (rows TSession s4)); [apply rows_set_rows_eq|].
    by rewrite A4, A3, A2, A1.
  - rewrite Hs5, R4 by done. destruct L0 as (_ & _ & R0), L1 as (_ & _ & R1), L2 as (_ & _ & R2). by rewrite A3, R2, R1, R0.
Qed.

(** C9. Bytes whose digest is the announced one are committed, whatever the forward
    scan and the analysis that follow answer: the tenant has an artifact of the
    recomputed digest, its bytes are in the object store, the attempt is
    recorded as captured, the session is committed; the response, when the scan
    returns one, names that artifact. *)
Theorem finalize_commits `{!HexLaws} s u b :
  ready s u b -> eq_ignore_case (sha256_hex b) (fq_sha256 req) = true ->
  one_of (default "endpoint"%string (fq_scope req)) ["endpoint"; "intel"]%string = true ->
  exists a row o s', finalize tenant req s = (o, s') /\
    In a (rows TArtifact s') /\ is_artifact (sha256_raw b) a /\
    is_Some (fs_files (srv_cas s') !! object_key tenant (sha256_hex b)) /\
    rows TSession s' = close_session (fq_upload_id req) "committed" (rows TSession s) /\
    rows TAttempt s' = rows TAttempt s ++ [row] /\ ca_terminal_outcome row = OUTCOME_CAPTURED /\
    ca_artifact_sha256 row = Some (sha256_raw b) /\
    (forall r, o = Ret r -> fp_artifact_id r = art_id a).
Proof.
  intros Hr Heq Hsc. rewrite (finalize_ready s u b Hr), (verify_upload_accepts b (fq_sha256 req) Heq).
  unfold promote. destruct (classify_has_class b) as (class & Ec & _). rewrite Ec. erewrite bind_run; [|reflexivity].
  rewrite Hsc. cbn [negb]. cbv zeta. set (key := object_key tenant (hex_encode (sha256_raw b))).
  assert (Hkey : is_object_key key = true) by apply object_key_is_object.
  pose proof (fs_commit_spec (us_staging_key u) key (srv_cas s) b (rd_key _ _ _ Hr) Hkey (rd_staged _ _ _ Hr)) as Ef.
  set (c' := Fs.set_files _ _) in Ef.
  assert (Ew : with_cas (commit (us_staging_key u) key) s = (Ret tt, set_cas c' s)) by exact (f_equal (fun '(o, c) => (o, set_cas c s)) Ef).
  rewrite (bind_run _ _ _ _ _ Ew).
  destruct (commit_rows_run (sha256_raw b) (class_str class) (default "endpoint"%string (fq_scope req)) key (default (JObj []) (fq_provenance req))
     (set_cas c' s)) as (a & row & s1 & E1 & H1 & H2 & H3 & H4 & H5 & H6 & H7); [apply Hr|].
  rewrite (bind_run _ _ _ _ _ E1).
  pose proof (aside_after_commit tenant (art_id a) (sha256_raw b) b (class_str class) key s1) as [Hac Hat].
  destruct (after_commit tenant (art_id a) (sha256_raw b) b (class_str class) key s1) as [o s'] eqn:Ea. cbn [snd] in Hac, Hat.
  exists a, row, o, s'. rewrite !Hat by done. rewrite Hac, H3.
  split; [done|]. do 2 (split; [done|]). split.
  { change (is_Some (fs_files c' !! key)). unfold c'. cbn.
    destruct (fs_files (srv_cas s) !! key) as [b'|] eqn:E; [|by rewrite lookup_insert_eq].
    fs_lookup. by rewrite E. }
  do 4 (split; [done|]). intros r ->. revert Ea. unfold after_commit, mbind, op_mbind.
  destruct (forward_scan _ _ _ _ _ s1) as [[m|e|] s2]; [|done..].
  destruct (attempt _ s2) as [[m'|e|] s3]; [|done..]. by intros [= <- _].
Qed.

Lemma select_artifact_run sha a s : In a (rows TArtifact s) -> is_artifact sha a ->
  exists a', select_optional TArtifact (artifact_by_sha tenant sha) s = (Ret (Some a'), s) /\ In a' (rows TArtifact s) /\ is_artifact sha a'.
Proof.
  intros Ha [H1 H2]. unfold select_optional, gets. destruct (head (List.filter (artifact_by_sha tenant sha) (rows TArtifact s))) as [a'|] eqn:E.
  - exists a'. split; [exact (f_equal (fun o => (Ret o, s)) E)|]. apply head_filter_in in E as [Hi Hp].
    apply andb_true_iff in Hp as [H3 H4]. apply bool_decide_eq_true_1 in H3, H4. done.
  - apply (head_filter_none _ _ E) in Ha as E'. unfold artifact_by_sha in E'. by rewrite H1, H2, !bool_decide_eq_true_2 in E'.
Qed.

(** A digest the tenant has is not uploaded again: the announcement names the
    artifact, opens no session and moves no bytes; it only records the
    occurrence and one attempt, already present. *)
Theorem announce_known (areq : AnnounceRequest) sha a s :
  hex_to_raw (an_sha256 areq) = Some sha -> In a (rows TArtifact s) -> is_artifact sha a -> attempts_fresh s ->
  exists a' row s', announce tenant areq s = (Ret (mkAnnounceResponse AlreadyPresent None (Some (art_id a'))), s') /\
    In a' (rows TArtifact s) /\ is_artifact sha a' /\
    rows TAttempt s' = rows TAttempt s ++ [row] /\ ca_terminal_outcome row = OUTCOME_ALREADY_PRESENT /\
    agree (fun t => match t with TAttempt | TOccurrence => false | _ => true end) s s'.
Proof.
  intros Hx Ha Hia Hf. destruct (select_artifact_run sha a s Ha Hia) as (a' & E0 & Ha' & Hia').
  destruct (record_occurrence_run (art_id a') sha (an_occurrence areq) s) as (s2 & E2 & L2 & A2).
  destruct (attempt_meta_run (an_occurrence areq) None s2) as (meta & s3 & E3 & L3 & A3).
  destruct (insert_attempt_run meta OUTCOME_ALREADY_PRESENT (Some sha) None (JObj []) s3) as (row & s4 & E4 & O4 & _ & _ & _ & R4 & A4).
  { do 2 (eapply attempts_fresh_later; [eassumption|]). exact Hf. }
  exists a', row, s4. split.
  { unfold announce. rewrite Hx. erewrite bind_run; [|reflexivity]. rewrite (bind_run _ _ _ _ _ E0).
    erewrite bind_run; [reflexivity|]. unfold db_transaction, transaction.
    rewrite (bind_run _ _ _ _ _ E2), (bind_run _ _ _ _ _ E3). by rewrite E4. }
  do 2 (split; [done|]). destruct L2 as (_ & _ & R2). destruct A2 as [C2 A2], A3 as [C3 A3], A4 as [C4 A4].
  split; [by rewrite R4, A3, R2|]. split; [done|]. split; [by rewrite C4, C3|].
  intros t Ht. rewrite A4, A3, A2; [done|by destruct t..].
Qed.
End outcomes.

(** ** Witnesses *)

Section witnesses.
Local Existing Instance ReferenceYara.engine.
Local Existing Instance ReferenceYara.host.
Local Existing Instance ReferenceHash.sha.
Local Existing Instance ReferenceHash.hex.
Local Existing Instance ReferenceHash.hex_laws.
Local Existing Instance ReferenceUuid.display.
Local Existing Instance ReferenceAnalysis.goblin.
Local Existing Instance ReferenceAnalysis.log2.
Local Existing Instance ReferenceAnalysis.decoder.
Local Existing Instance ReferenceAnalysis.order.

Definition script_bytes : bytes := [x23; x21; x2f].
Definition other_bytes : bytes := [x7f; x45; x4c].

Definition announce_script : AnnounceRequest := mkAnnounceRequest (sha256_hex script_bytes) 3 None.
Definition finalize_script : FinalizeRequest := mkFinalizeRequest 100%N (sha256_hex script_bytes) 3 None None None.

(** Session 100 announced for the script, with the given bytes staged. *)
Definition staged_server (b : bytes) : Srv := snd (stage_upload 7%N 100%N b (snd (announce 7%N announce_script ReferenceServer.empty))).

Definition the_session : UploadSession :=
  Eval vm_compute in
  match rows TSession (staged_server script_bytes) with u :: _ => u | [] => mkUploadSession 0%N 0%N [] 0 "" "" 0 end.

Lemma attempts_fresh_none s : rows TAttempt s = [] -> attempts_fresh s.
Proof. intros E n _. rewrite E. apply not_elem_of_nil. Qed.

Lemma ready_script : ready 7%N finalize_script (staged_server script_bytes) the_session script_bytes.
Proof. constructor; [by vm_compute..|]. by apply attempts_fresh_none. Qed.

Lemma ready_other : ready 7%N finalize_script (staged_server other_bytes) the_session other_bytes.
Proof. constructor; [by vm_compute..|]. by apply attempts_fresh_none. Qed.

Lemma store_wf_empty : store_wf ReferenceServer.empty.
Proof. constructor; [apply NoDup_nil_2|by intros a []|]. intros t d b Hb. done. Qed.

Definition client_requests : list IngestRequest :=
  [Announce 7%N announce_script; StageUpload 7%N 100%N script_bytes; Finalize 7%N finalize_script].

Definition served : Srv := snd (op_for client_requests serve ReferenceServer.empty).

Lemma ingest_content_addressed_witness : store_wf ReferenceServer.empty /\ store_wf served /\ length (rows TArtifact served) = 1%nat.
Proof.
  split; [exact store_wf_empty|]. split; [apply (ingest_content_addressed client_requests), store_wf_empty|by vm_compute].
Defined.

Lemma upload_sessions_close_once_witness :
  unique_key TSession us_id served /\ map us_state (rows TSession served) = ["committed"%string].
Proof.
  split; [|by vm_compute].
  refine (proj1 (upload_sessions_close_once client_requests ReferenceServer.empty served
    (fst (op_for client_requests serve ReferenceServer.empty)) _ _)); [apply NoDup_nil_2|].
  unfold served. apply surjective_pairing.
Defined.

Lemma finalize_rejects_mismatch_witness :
  exists s', finalize 7%N finalize_script (staged_server other_bytes) =
    (Fail (HashMismatch (sha256_hex script_bytes) (sha256_hex other_bytes)), s') /\ rows TArtifact s' = [].
Proof.
  destruct (finalize_rejects_mismatch 7%N finalize_script (staged_server other_bytes) the_session other_bytes ready_other)
    as (s' & row & E & _ & _ & _ & _ & Hr & _); [by vm_compute|]. exists s'. split; [exact E|]. by rewrite Hr.
Defined.

Lemma finalize_commits_witness :
  exists a o s', finalize 7%N finalize_script (staged_server script_bytes) = (o, s') /\ In a (rows TArtifact s') /\
    art_sha256 a = sha256_raw script_bytes.
Proof.
  destruct (finalize_commits 7%N finalize_script (staged_server script_bytes) the_session script_bytes ready_script)
    as (a & row & o & s' & E & Ha & [_ Hs] & _); [by vm_compute..|]. exists a, o, s'. split; [exact E|]. split; [exact Ha|exact Hs].
Defined.

Definition served_artifact : Artifact :=
  match rows TArtifact served with a :: _ => a | [] => pe_artifact 0%N [] end.

Lemma served_ids : map ca_id (rows TAttempt served) = [102%N] /\ srv_uuids served = srv_uuids ReferenceServer.empty /\
  srv_uuid_next served = 3%nat.
Proof. split; [|split]; vm_compute; reflexivity. Qed.

Lemma attempts_fresh_served : attempts_fresh served.
Proof.
  destruct served_ids as (Hi & Hu & Hn). intros n Hle Hin. rewrite Hi, Hu in Hin. rewrite Hn in Hle.
  apply list_elem_of_singleton in Hin. cbn in Hin. lia.
Qed.

Lemma served_artifacts : rows TArtifact served = [served_artifact].
Proof. vm_compute. reflexivity. Qed.

Lemma announce_known_witness : exists a s', announce 7%N announce_script served = (Ret (mkAnnounceResponse AlreadyPresent None (Some (art_id a))), s').
Proof.
  destruct (announce_known 7%N announce_script (sha256_raw script_bytes) served_artifact served) as (a & row & s' & E & _).
  - vm_compute. reflexivity.
  - rewrite served_artifacts. by left.
  - split; vm_compute; reflexivity.
  - exact attempts_fresh_served.
  - exists a, s'. exact E.
Defined.
End witnesses.
