(* ===== verification/AgentState.v ===== *)
(** * The agent's local state ([corpus-agent/src/state.rs])

    The SQLite tables behind the capture agent, an operation per method, and the
    guarantees the capture workers rely on: one active candidate per path,
    exclusive leases handed out in priority order, an increasing occurrence
    sequence and an atomic journal cursor. *)

From S2P Require Import Prelude Machine Text Decimal.
From Stdlib Require Import Sorting.Permutation Sorting.Sorted.

Open Scope Z_scope.

(** ** Data *)

Module states.
Definition OBSERVED : string := "observed".
Definition DEBOUNCING : string := "debouncing".
Definition OPENING : string := "opening".
Definition COPYING_AND_HASHING : string := "copying_and_hashing".
Definition HASHED : string := "hashed".
Definition ANNOUNCED : string := "announced".
Definition DEDUP_HIT : string := "dedup_hit".
Definition UPLOAD_REQUIRED : string := "upload_required".
Definition UPLOADING : string := "uploading".
Definition FINALIZING : string := "finalizing".
Definition OCCURRENCE_QUEUED : string := "occurrence_queued".
Definition COMPLETE : string := "complete".
Definition GAP_RECORDED : string := "gap_recorded".
End states.

Module priority.
Definition EXEC_TARGET : Z := 1.
Definition WRITTEN_OR_RENAMED : Z := 2.
Definition VERIFICATION_TASK : Z := 4.
Definition BASELINE : Z := 5.
Definition RECONCILIATION : Z := 6.
End priority.

Record Candidate := mkCandidate {
  cd_id : Z; cd_path : string; cd_priority : Z; cd_capture_reason : string; cd_state : string; cd_attempts : Z;
  cd_next_retry_at : Z; cd_size_bytes : option Z; cd_sha256 : option string; cd_spool_path : option string;
  cd_terminal_reason : option string }.

(** A row of the [candidate] table: the fields a query returns, and the two
    time stamps it does not. *)
Record CandidateRow := mkCandidateRow { cw_candidate :> Candidate; cw_created_at : Z; cw_updated_at : Z }.

Record PendingGap := mkPendingGap {
  pg_id : Z; pg_observed_at : Z; pg_capture_reason : string; pg_terminal_outcome : string;
  pg_artifact_sha256 : option string; pg_path : option string; pg_detail_code : option string; pg_detail : string }.

(** The database file, and the clock ([chrono::Utc::now]). *)
Record StateDb := mkStateDb {
  db_identity : gmap string string;
  db_candidates : list CandidateRow;
  db_candidate_seq : Z;
  db_baseline : gmap string Z;
  db_gaps : list PendingGap;
  db_gap_seq : Z;
  db_counters : gmap string Z;
  db_seen : gmap string (Z * Z * Z);
  db_clock : nat -> Z;
  db_clock_next : nat }.

(** A new database ([StateDb::open]). *)
Definition open_db (clock : nat -> Z) : StateDb := mkStateDb ∅ [] 0 ∅ [] 0 ∅ ∅ clock 0.

Definition set_identity_map (m : gmap string string) (s : StateDb) : StateDb :=
  mkStateDb m (db_candidates s) (db_candidate_seq s) (db_baseline s) (db_gaps s) (db_gap_seq s) (db_counters s) (db_seen s) (db_clock s) (db_clock_next s).
Definition set_candidates (l : list CandidateRow) (n : Z) (s : StateDb) : StateDb :=
  mkStateDb (db_identity s) l n (db_baseline s) (db_gaps s) (db_gap_seq s) (db_counters s) (db_seen s) (db_clock s) (db_clock_next s).
Definition set_baseline (m : gmap string Z) (s : StateDb) : StateDb :=
  mkStateDb (db_identity s) (db_candidates s) (db_candidate_seq s) m (db_gaps s) (db_gap_seq s) (db_counters s) (db_seen s) (db_clock s) (db_clock_next s).
Definition set_gaps (l : list PendingGap) (n : Z) (s : StateDb) : StateDb :=
  mkStateDb (db_identity s) (db_candidates s) (db_candidate_seq s) (db_baseline s) l n (db_counters s) (db_seen s) (db_clock s) (db_clock_next s).
Definition set_counters (m : gmap string Z) (s : StateDb) : StateDb :=
  mkStateDb (db_identity s) (db_candidates s) (db_candidate_seq s) (db_baseline s) (db_gaps s) (db_gap_seq s) m (db_seen s) (db_clock s) (db_clock_next s).
Definition set_seen (m : gmap string (Z * Z * Z)) (s : StateDb) : StateDb :=
  mkStateDb (db_identity s) (db_candidates s) (db_candidate_seq s) (db_baseline s) (db_gaps s) (db_gap_seq s) (db_counters s) m (db_clock s) (db_clock_next s).

(** [now()] *)
Definition timestamp : Op StateDb Z := fun s =>
  (Ret (db_clock s (db_clock_next s)),
   mkStateDb (db_identity s) (db_candidates s) (db_candidate_seq s) (db_baseline s) (db_gaps s) (db_gap_seq s) (db_counters s)
     (db_seen s) (db_clock s) (S (db_clock_next s))).

(** ** The candidate table *)

(** [state NOT IN ('complete','gap_recorded')] *)
Definition active (c : CandidateRow) : bool :=
  negb (String.eqb (cd_state c) states.COMPLETE || String.eqb (cd_state c) states.GAP_RECORDED).

(** The keys of the partial unique index [idx_candidate_active_path]. *)
Definition active_paths (l : list CandidateRow) : list string := map (fun c : CandidateRow => cd_path c) (List.filter active l).

Definition unique_violation : Error := Db "UNIQUE constraint failed: candidate.path".

(** [UPDATE candidate SET ... WHERE p]: the rows updated; an update that breaks
    the unique index fails and changes nothing. *)
Definition update_candidates (p : CandidateRow -> bool) (f : CandidateRow -> CandidateRow) : Op StateDb (list CandidateRow) := fun s =>
  let l' := map (fun c => if p c then f c else c) (db_candidates s) in
  if bool_decide (NoDup (active_paths l'))
  then (Ret (map f (List.filter p (db_candidates s))), set_candidates l' (db_candidate_seq s) s)
  else (Fail unique_violation, s).

Definition has_id (id : Z) (c : CandidateRow) : bool := cd_id c =? id.

Definition with_state (st : string) (t : Z) (c : CandidateRow) : CandidateRow :=
  mkCandidateRow (mkCandidate (cd_id c) (cd_path c) (cd_priority c) (cd_capture_reason c) st (cd_attempts c) (cd_next_retry_at c)
    (cd_size_bytes c) (cd_sha256 c) (cd_spool_path c) (cd_terminal_reason c)) (cw_created_at c) t.

Definition with_retry (attempts next_retry_at t : Z) (c : CandidateRow) : CandidateRow :=
  mkCandidateRow (mkCandidate (cd_id c) (cd_path c) (cd_priority c) (cd_capture_reason c) (cd_state c) attempts next_retry_at
    (cd_size_bytes c) (cd_sha256 c) (cd_spool_path c) (cd_terminal_reason c)) (cw_created_at c) t.

(** *** enqueue *)

(** [INSERT ... ON CONFLICT(path) WHERE state NOT IN (...) DO NOTHING], and the
    new row's identifier when [changes()] says there is one. *)
Definition insert_candidate (path : string) (prio : Z) (capture_reason initial : string) (next_retry_at t : Z) : Op StateDb (option Z) := fun s =>
  if existsb (fun c => active c && String.eqb (cd_path c) path) (db_candidates s) then (Ret None, s)
  else
    let id := db_candidate_seq s + 1 in
    let row := mkCandidateRow (mkCandidate id path prio capture_reason initial 0 next_retry_at None None None None) t t in
    (Ret (Some id), set_candidates (db_candidates s ++ [row]) id s).

Definition enqueue (path : string) (prio : Z) (capture_reason : string) (debounce_ms : Z) : Op StateDb (option Z) :=
  t ← timestamp;
  let debounce_at := t + Z.quot (signed 64 debounce_ms) 1000 in
  let initial := if 0 <? debounce_ms then states.DEBOUNCING else states.OBSERVED in
  insert_candidate path prio capture_reason initial debounce_at t.

(** *** transitions *)

Definition transition (id : Z) (new_state : string) : Op StateDb unit :=
  t ← timestamp; _ ← update_candidates (has_id id) (with_state new_state t); mret tt.

Definition set_retry (id next_retry_at : Z) : Op StateDb unit :=
  t ← timestamp; _ ← update_candidates (has_id id) (fun c => with_retry (cd_attempts c + 1) next_retry_at t c); mret tt.

Definition defer (id next_retry_at : Z) : Op StateDb unit :=
  t ← timestamp; _ ← update_candidates (has_id id) (fun c => with_retry (cd_attempts c) next_retry_at t c); mret tt.

Definition renew_lease (id lease_secs : Z) : Op StateDb unit :=
  t ← timestamp;
  _ ← update_candidates (fun c => has_id id c && active c) (fun c => with_retry (cd_attempts c) (t + lease_secs) (cw_updated_at c) c);
  mret tt.

Definition set_hashed (id : Z) (sha256 : string) (size : Z) (spool_path : string) : Op StateDb unit :=
  t ← timestamp;
  _ ← update_candidates (has_id id) (fun c =>
    mkCandidateRow (mkCandidate (cd_id c) (cd_path c) (cd_priority c) (cd_capture_reason c) states.HASHED (cd_attempts c)
      (cd_next_retry_at c) (Some size) (Some sha256) (Some spool_path) (cd_terminal_reason c)) (cw_created_at c) t);
  mret tt.

Definition finish_gap (id : Z) (terminal_reason : string) : Op StateDb unit :=
  t ← timestamp;
  _ ← update_candidates (has_id id) (fun c =>
    mkCandidateRow (mkCandidate (cd_id c) (cd_path c) (cd_priority c) (cd_capture_reason c) states.GAP_RECORDED (cd_attempts c)
      (cd_next_retry_at c) (cd_size_bytes c) (cd_sha256 c) (cd_spool_path c) (Some terminal_reason)) (cw_created_at c) t);
  mret tt.

(** [get] *)
Definition get_candidate (id : Z) : Op StateDb (option Candidate) :=
  gets (fun s => cw_candidate <$> head (List.filter (has_id id) (db_candidates s))).

(** *** leases *)

Definition due (t : Z) (c : CandidateRow) : bool := active c && (cd_next_retry_at c <=? t).

(** [ORDER BY priority ASC, id ASC] *)
Definition lease_le (a b : CandidateRow) : bool :=
  (cd_priority a <? cd_priority b) || ((cd_priority a =? cd_priority b) && (cd_id a <=? cd_id b)).

Definition next_row (t : Z) (l : list CandidateRow) : option CandidateRow := head (sort_by lease_le (List.filter (due t) l)).

(** [UPDATE ... WHERE id = (the next row) RETURNING ...] *)
Definition lease_row (next_retry_at t : Z) (next : option CandidateRow) : Op StateDb (option Candidate) :=
  match next with
  | None => mret None
  | Some n =>
      updated ← update_candidates (has_id (cd_id n)) (fun c => with_retry (cd_attempts c) next_retry_at t c);
      mret (cw_candidate <$> head updated)
  end.

(** [now()] is read once per parameter. *)
Definition lease_next_due (lease_secs : Z) : Op StateDb (option Candidate) :=
  _ ← timestamp;
  t2 ← timestamp;
  t3 ← timestamp;
  next ← gets (fun s => next_row t3 (db_candidates s));
  lease_row (t2 + lease_secs) t3 next.

Definition queue_depth : Op StateDb Z := gets (fun s => len (List.filter active (db_candidates s))).

Definition minimum (l : list Z) : option Z :=
  match l with [] => None | x :: l' => Some (foldl Z.min x l') end.

Definition oldest_pending_secs : Op StateDb (option Z) :=
  oldest ← gets (fun s => minimum (map cw_created_at (List.filter active (db_candidates s))));
  match oldest with
  | None => mret None
  | Some t => t' ← timestamp; mret (Some (Z.max (t' - t) 0))
  end.

(** ** Identity and sequence *)

Definition get_identity (key : string) : Op StateDb (option string) := gets (fun s => db_identity s !! key).

Definition set_identity (key value : string) : Op StateDb unit :=
  modify (fun s => set_identity_map (<[key := value]> (db_identity s)) s).

(** One transaction. *)
Definition set_identity_many (pairs : list (string * string)) : Op StateDb unit :=
  modify (fun s => set_identity_map (foldl (fun m kv => <[fst kv := snd kv]> m) (db_identity s) pairs) s).

(** [CAST(CAST(value AS INTEGER) + 1 AS TEXT)]: past the largest integer SQLite
    adds in floating point. *)
Definition sqlite_increment (value : string) : string :=
  let v := sqlite_cast_int value + 1 in
  if v <=? I64_MAX then show_Z v else "9.22337203685478e+18".

Definition agent_sequence : string := "agent_sequence".
Definition parse_error : Error := BadRequest "invalid digit found in string".

Definition next_sequence : Op StateDb Z :=
  modify (fun s => set_identity_map (partial_alter (fun o => Some (default "0"%string o)) agent_sequence (db_identity s)) s) ;;
  modify (fun s => set_identity_map (alter sqlite_increment agent_sequence (db_identity s)) s) ;;
  v ← get_identity agent_sequence;
  v ← or_throw (Db "Query returned no rows") v;
  or_throw parse_error (parse_i64 v).

(** ** Baseline, gaps, counters, journal cursor, seen files *)

Definition baseline_dir_done (path : string) : Op StateDb bool :=
  gets (fun s => bool_decide (db_baseline s !! path = Some 1)).

Definition mark_baseline_dir (path : string) (done_ : bool) : Op StateDb unit :=
  modify (fun s => set_baseline (<[path := if done_ then 1 else 0]> (db_baseline s)) s).

Definition increment_counter (outcome_ : string) : Op StateDb unit :=
  modify (fun s => set_counters (partial_alter (fun o => Some (from_option (fun n => n + 1) 1 o)) outcome_ (db_counters s)) s).

Definition record_gap (capture_reason terminal_outcome : string) (artifact_sha256 path detail_code : option string) (detail : string) :
    Op StateDb unit :=
  t ← timestamp;
  modify (fun s =>
    let id := db_gap_seq s + 1 in
    set_gaps (db_gaps s ++ [mkPendingGap id t capture_reason terminal_outcome artifact_sha256 path detail_code detail]) id s) ;;
  increment_counter terminal_outcome.

Definition counter_le (a b : string * Z) : bool := str_leb (fst a) (fst b).

Definition read_counters : Op StateDb (list (string * Z)) := gets (fun s => sort_by counter_le (map_to_list (db_counters s))).

Definition clear_counters : Op StateDb unit := modify (set_counters ∅).

Definition gap_le (a b : PendingGap) : bool := pg_id a <=? pg_id b.

(** [LIMIT] with a negative bound is no limit. *)
Definition sql_limit {A} (limit : Z) (l : list A) : list A := if limit <? 0 then l else take (Z.to_nat limit) l.

Definition pending_gaps (limit : Z) : Op StateDb (list PendingGap) :=
  gets (fun s => sql_limit limit (sort_by gap_le (db_gaps s))).

Definition delete_gaps (ids : list Z) : Op StateDb unit :=
  op_for ids (fun id => modify (fun s => set_gaps (List.filter (fun g => negb (pg_id g =? id)) (db_gaps s)) (db_gap_seq s) s)).

Definition usn_id_key (volume : string) : string := "usn_journal_id:" +:+ volume.
Definition usn_next_key (volume : string) : string := "usn_next_usn:" +:+ volume.

Definition get_usn_cursor (volume : string) : Op StateDb (option (Z * Z)) :=
  id ← get_identity (usn_id_key volume);
  usn ← get_identity (usn_next_key volume);
  match id, usn with
  | Some id, Some usn =>
      id ← or_throw parse_error (parse_u64 id);
      usn ← or_throw parse_error (parse_i64 usn);
      mret (Some (id, usn))
  | _, _ => mret None
  end.

Definition set_usn_cursor (volume : string) (journal_id next_usn : Z) : Op StateDb unit :=
  set_identity_many [(usn_id_key volume, show_Z journal_id); (usn_next_key volume, show_Z next_usn)].

Definition seen_check_and_update (path : string) (inode mtime_secs size : Z) : Op StateDb bool :=
  prev ← gets (fun s => db_seen s !! path);
  let changed := negb (bool_decide (prev = Some (inode, mtime_secs, size))) in
  (if changed then modify (fun s => set_seen (<[path := (inode, mtime_secs, size)]> (db_seen s)) s) else mret tt) ;;
  mret changed.

(** ** The queue *)

(** *** Its state and what leaves it alone *)

Definition queue (s : StateDb) : list CandidateRow * Z := (db_candidates s, db_candidate_seq s).

Lemma frames_queue_modify f : (forall s, queue (f s) = queue s) -> frames queue (modify f).
Proof. intros H s. apply H. Qed.

Lemma frames_queue_timestamp : frames queue timestamp.
Proof. by intros s. Qed.

Create HintDb queue.
#[export] Hint Resolve frames_queue_timestamp : queue.

Ltac queue_frame :=
  repeat first
    [ solve [eauto 1 with queue nocore]
    | lazymatch goal with
      | |- frames _ (mbind _ _) => apply frames_bind; [|intros ?]
      | |- frames _ (op_for _ _) => apply frames_for; intros ?
      | |- frames _ (or_throw _ _) => apply frames_or_throw
      | |- frames _ (modify _) => apply frames_queue_modify; reflexivity
      | |- frames _ (match ?x with _ => _ end) => destruct x
      | |- frames _ _ => apply frames_pure; reflexivity
      end ].

(** One active row per path, distinct identifiers, all of them drawn. *)
Record queue_wf (s : StateDb) : Prop := {
  qw_paths : NoDup (active_paths (db_candidates s));
  qw_ids : NoDup (map (fun c : CandidateRow => cd_id c) (db_candidates s));
  qw_seq : Forall (fun c : CandidateRow => cd_id c <= db_candidate_seq s) (db_candidates s) }.

Lemma queue_wf_frame {A} (m : Op StateDb A) : frames queue m -> keeps queue_wf m.
Proof.
  intros Hm s [H1 H2 H3]. specialize (Hm s). unfold queue in Hm. injection Hm as Hl Hn. by constructor; rewrite ?Hl, ?Hn.
Qed.

(** Updates never change an identifier. *)
Lemma keeps_update_wf p (f : CandidateRow -> CandidateRow) : (forall c, cd_id (f c) = cd_id c) -> keeps queue_wf (update_candidates p f).
Proof.
  intros Hf s [H1 H2 H3]. unfold update_candidates. case_bool_decide as Hn; [|done]. cbn [snd].
  constructor; cbn [db_candidates db_candidate_seq set_candidates].
  - exact Hn.
  - rewrite map_map. erewrite map_ext; [exact H2|]. intros c. by destruct (p c).
  - rewrite Forall_map. eapply Forall_impl; [exact H3|]. intros c Hc. unfold compose. destruct (p c); [|done]. by rewrite Hf.
Qed.

Lemma keeps_step_update (p : Z -> CandidateRow -> bool) (f : Z -> CandidateRow -> CandidateRow) : (forall t c, cd_id (f t c) = cd_id c) ->
  keeps queue_wf (t ← timestamp; _ ← update_candidates (p t) (f t); mret tt).
Proof.
  intros Hf. apply keeps_bind; [apply queue_wf_frame; queue_frame|intros t]. apply keeps_bind; [apply keeps_update_wf, Hf|].
  intros _. apply keeps_mret.
Qed.

Lemma active_path_free path l :
  existsb (fun c : CandidateRow => active c && String.eqb (cd_path c) path) l = false -> path ∉ active_paths l.
Proof.
  intros He Hin. apply list_elem_of_In, in_map_iff in Hin as (c & Hp & Hc). apply filter_In in Hc as [Hc Ha].
  assert (existsb (fun c : CandidateRow => active c && String.eqb (cd_path c) path) l = true); [|congruence].
  apply existsb_exists. exists c. split; [done|]. rewrite Ha. by apply String.eqb_eq.
Qed.

Lemma active_paths_app l k : active_paths (l ++ k) = active_paths l ++ active_paths k.
Proof. unfold active_paths. by rewrite List.filter_app, map_app. Qed.

Lemma keeps_insert_candidate path prio reason initial next t : keeps queue_wf (insert_candidate path prio reason initial next t).
Proof.
  intros s [H1 H2 H3]. unfold insert_candidate. destruct (existsb _ _) eqn:He; [done|]. cbn [snd].
  set (row := mkCandidateRow _ _ _). apply active_path_free in He. rewrite List.Forall_forall in H3.
  constructor; cbn [db_candidates db_candidate_seq set_candidates].
  - rewrite active_paths_app. assert (Hr : active_paths [row] = if active row then [path] else []) by (unfold active_paths; cbn [List.filter]; by destruct (active row)).
    rewrite Hr. apply NoDup_app. split; [done|].
    destruct (active row); [|split; [by intros x _ ?%not_elem_of_nil|apply NoDup_nil_2]].
    split; [|apply NoDup_singleton]. intros x Hx ->%list_elem_of_singleton. done.
  - rewrite map_app. apply NoDup_app. split; [done|]. split; [|apply NoDup_singleton].
    intros x Hx ->%list_elem_of_singleton. apply list_elem_of_In, in_map_iff in Hx as (c & Hc & Hin).
    specialize (H3 c Hin). cbn in Hc. lia.
  - apply List.Forall_forall. intros c [Hc|[<-|[]]]%in_app_or; [|cbn; lia]. specialize (H3 c Hc). cbn in H3. lia.
Qed.

(** ** Operations as requests *)

Inductive QueueOp : Type :=
  | Enqueue (path : string) (prio : Z) (reason : string) (debounce_ms : Z)
  | Transition (id : Z) (new_state : string)
  | SetRetry (id next_retry_at : Z)
  | Defer (id next_retry_at : Z)
  | RenewLease (id lease_secs : Z)
  | SetHashed (id : Z) (sha256 : string) (size : Z) (spool_path : string)
  | FinishGap (id : Z) (terminal_reason : string)
  | Lease (lease_secs : Z)
  | SetIdentity (key value : string)
  | NextSequence
  | RecordGap (reason outcome_ : string) (sha path code : option string) (detail : string).

(** A call by some thread, whose result goes elsewhere. *)
Definition run_op (op : QueueOp) : Op StateDb unit :=
  match op with
  | Enqueue path prio reason ms => attempt (enqueue path prio reason ms) ;; mret tt
  | Transition id st => attempt (transition id st) ;; mret tt
  | SetRetry id t => attempt (set_retry id t) ;; mret tt
  | Defer id t => attempt (defer id t) ;; mret tt
  | RenewLease id secs => attempt (renew_lease id secs) ;; mret tt
  | SetHashed id sha size spool => attempt (set_hashed id sha size spool) ;; mret tt
  | FinishGap id reason => attempt (finish_gap id reason) ;; mret tt
  | Lease secs => attempt (lease_next_due secs) ;; mret tt
  | SetIdentity key value => attempt (set_identity key value) ;; mret tt
  | NextSequence => attempt next_sequence ;; mret tt
  | RecordGap reason out sha path code detail => attempt (record_gap reason out sha path code detail) ;; mret tt
  end.

Lemma keeps_lease lease_secs : keeps queue_wf (lease_next_due lease_secs).
Proof.
  unfold lease_next_due. do 4 (apply keeps_bind; [apply queue_wf_frame; queue_frame|intros ?]). unfold lease_row.
  destruct a2; [|apply keeps_mret]. apply keeps_bind; [by apply keeps_update_wf|]. intros ?. apply keeps_mret.
Qed.

Lemma keeps_run_op op : keeps queue_wf (run_op op).
Proof.
  destruct op; unfold run_op; (apply keeps_bind; [apply keeps_attempt|intros ?; apply keeps_mret]).
  - unfold enqueue. apply keeps_bind; [apply queue_wf_frame; queue_frame|]. intros t. apply keeps_insert_candidate.
  - by apply keeps_step_update.
  - by apply keeps_step_update.
  - by apply keeps_step_update.
  - by apply (keeps_step_update (fun _ c => has_id id c && active c)).
  - by apply keeps_step_update.
  - by apply keeps_step_update.
  - apply keeps_lease.
  - apply queue_wf_frame. queue_frame.
  - apply queue_wf_frame. unfold next_sequence, get_identity. queue_frame.
  - apply queue_wf_frame. unfold record_gap, increment_counter. queue_frame.
Qed.

(** The queue stays well formed under every interleaving of the sensors', the
    workers' and the watchdogs' calls: never two active candidates of one path,
    never two candidates of one identifier. *)
Theorem queue_wf_reachable ops clock : queue_wf (snd (op_for ops run_op (open_db clock))).
Proof.
  apply (keeps_for queue_wf ops run_op); [intros op _; apply keeps_run_op|]. constructor; cbn; [apply NoDup_nil_2..|constructor].
Qed.

(** *** What a lease does *)

Lemma filter_has_id (l : list CandidateRow) n : NoDup (map (fun c : CandidateRow => cd_id c) l) -> In n l ->
  List.filter (has_id (cd_id n)) l = [n].
Proof.
  induction l as [|c l IH]; [done|]. cbn [map List.filter]. intros [Hc Hn]%NoDup_cons Hin. unfold has_id at 1.
  destruct Hin as [->|Hin].
  - rewrite Z.eqb_refl. f_equal. apply filter_nil_forall. intros x Hx. apply Z.eqb_neq. intros E. apply Hc.
    rewrite <- E. apply list_elem_of_In, in_map_iff. by exists x.
  - destruct (Z.eqb_spec (cd_id c) (cd_id n)) as [E|E]; [|by apply IH]. exfalso. apply Hc. rewrite E.
    apply list_elem_of_In, in_map_iff. by exists n.
Qed.

(** Updates that neither move a row nor activate one cannot break the index. *)
Lemma active_paths_update p (f : CandidateRow -> CandidateRow) l :
  (forall c, p c = true -> cd_path (f c) = cd_path c) -> (forall c, p c = true -> active (f c) = true -> active c = true) ->
  active_paths (map (fun c => if p c then f c else c) l) `sublist_of` active_paths l.
Proof.
  intros Hp Ha. unfold active_paths. induction l as [|c l IH]; [done|]. cbn [map List.filter]. destruct (p c) eqn:E.
  - destruct (active (f c)) eqn:Ef.
    + rewrite (Ha c E Ef). cbn [map]. rewrite (Hp c E). by apply sublist_skip.
    + destruct (active c); [by apply sublist_cons|done].
  - destruct (active c); [by apply sublist_skip|done].
Qed.

Lemma update_run p (f : CandidateRow -> CandidateRow) s : queue_wf s ->
  (forall c, p c = true -> cd_path (f c) = cd_path c) -> (forall c, p c = true -> active (f c) = true -> active c = true) ->
  update_candidates p f s = (Ret (map f (List.filter p (db_candidates s))),
    set_candidates (map (fun c => if p c then f c else c) (db_candidates s)) (db_candidate_seq s) s).
Proof.
  intros [H1 _ _] Hp Ha. unfold update_candidates. rewrite bool_decide_eq_true_2; [done|].
  eapply sublist_NoDup; [exact H1|by apply active_paths_update].
Qed.

Lemma lease_le_total : le_total lease_le.
Proof.
  intros x y. unfold lease_le. rewrite !orb_true_iff, !andb_true_iff, !Z.ltb_lt, !Z.eqb_eq, !Z.leb_le. lia.
Qed.

Lemma lease_le_trans : le_trans lease_le.
Proof.
  intros x y z. unfold lease_le. rewrite !orb_true_iff, !andb_true_iff, !Z.ltb_lt, !Z.eqb_eq, !Z.leb_le. lia.
Qed.

Lemma next_row_spec t l :
  match next_row t l with
  | None => forall c, In c l -> due t c = false
  | Some n => In n l /\ due t n = true /\ forall c, In c l -> due t c = true -> lease_le n c = true
  end.
Proof.
  unfold next_row. pose proof (sort_by_sorted lease_le (List.filter (due t) l) lease_le_total lease_le_trans) as Hs.
  pose proof (sort_by_in lease_le (List.filter (due t) l)) as Hin.
  destruct (sort_by lease_le (List.filter (due t) l)) as [|n k]; cbn [head].
  - intros c Hc. destruct (due t c) eqn:E; [|done]. destruct (proj2 (Hin c)). by apply filter_In.
  - assert (Hn : In n (List.filter (due t) l)) by (apply Hin; by left). apply filter_In in Hn as [Hn Hd].
    split; [done|]. split; [done|]. intros c Hc Hdc. inversion Hs as [|? ? _ Hall]; subst. rewrite List.Forall_forall in Hall.
    assert (Hc' : In c (n :: k)) by (apply Hin; by apply filter_In). destruct Hc' as [->|Hc']; [|by apply Hall].
    destruct (lease_le_total c c); done.
Qed.

(** The readings of the clock a lease makes. *)
Definition lease_time (s : StateDb) : Z := db_clock s (S (S (db_clock_next s))).
Definition lease_end (lease_secs : Z) (s : StateDb) : Z := db_clock s (S (db_clock_next s)) + lease_secs.
Definition tick3 (s : StateDb) : StateDb := snd (timestamp (snd (timestamp (snd (timestamp s))))).

Lemma queue_wf_tick3 s : queue_wf s -> queue_wf (tick3 s).
Proof. intros H. by do 3 apply (queue_wf_frame timestamp frames_queue_timestamp). Qed.

Definition leased (lease_secs : Z) (s : StateDb) (n : CandidateRow) : CandidateRow :=
  with_retry (cd_attempts n) (lease_end lease_secs s) (lease_time s) n.

Lemma lease_run lease_secs s : queue_wf s ->
  lease_next_due lease_secs s =
    match next_row (lease_time s) (db_candidates s) with
    | None => (Ret None, tick3 s)
    | Some n => (Ret (Some (cw_candidate (leased lease_secs s n))),
        set_candidates (map (fun c => if has_id (cd_id n) c then leased lease_secs s c else c) (db_candidates s))
          (db_candidate_seq s) (tick3 s))
    end.
Proof.
  intros Hwf.
  transitivity (lease_row (lease_end lease_secs s) (lease_time s) (next_row (lease_time s) (db_candidates s)) (tick3 s)); [reflexivity|].
  pose proof (next_row_spec (lease_time s) (db_candidates s)) as Hn.
  destruct (next_row (lease_time s) (db_candidates s)) as [n|]; [|done]. unfold lease_row.
  change (fun c : CandidateRow => with_retry _ _ _ c) with (leased lease_secs s).
  assert (E : update_candidates (has_id (cd_id n)) (leased lease_secs s) (tick3 s) = _) by (apply update_run; [by apply queue_wf_tick3|done..]).
  rewrite (bind_run _ _ _ _ _ E). change (db_candidates (tick3 s)) with (db_candidates s).
  rewrite filter_has_id; [done|apply Hwf|apply Hn].
Qed.

(** What a worker gets: nothing only when nothing is due; otherwise the due
    candidate of least priority number, the oldest among equals, and its row is
    the only one that changes, by its next retry time. *)
Theorem lease_spec lease_secs s : queue_wf s ->
  exists o s', lease_next_due lease_secs s = (Ret o, s') /\
    match o with
    | None => db_candidates s' = db_candidates s /\ forall c, In c (db_candidates s) -> due (lease_time s) c = false
    | Some c => exists n : CandidateRow, In n (db_candidates s) /\ due (lease_time s) n = true /\
        (forall k, In k (db_candidates s) -> due (lease_time s) k = true -> lease_le n k = true) /\
        c = leased lease_secs s n /\ cd_next_retry_at c = lease_end lease_secs s /\
        (forall k, In k (db_candidates s) -> cd_id k <> cd_id n -> In k (db_candidates s')) /\
        length (db_candidates s') = length (db_candidates s)
    end.
Proof.
  intros Hwf. rewrite lease_run by done. pose proof (next_row_spec (lease_time s) (db_candidates s)) as Hn.
  destruct (next_row (lease_time s) (db_candidates s)) as [n|]; do 2 eexists; (split; [reflexivity|]); [|by split].
  destruct Hn as (H1 & H2 & H3). exists n. do 5 (split; [done|]). cbn [db_candidates set_candidates]. split; [|apply length_map].
  intros k Hk Hne. apply in_map_iff. exists k. split; [|done]. unfold has_id. by rewrite (proj2 (Z.eqb_neq _ _) Hne).
Qed.

(** *** Leases exclude each other *)

(** The candidate the call is about. *)
Definition addresses (op : QueueOp) : option Z :=
  match op with
  | Transition id _ | SetRetry id _ | Defer id _ | RenewLease id _ | SetHashed id _ _ _ | FinishGap id _ => Some id
  | _ => None
  end.

(** Every reading of the clock up to [s] was before [t]. *)
Definition clock_below (t : Z) (s : StateDb) : Prop := forall n, (n < db_clock_next s)%nat -> db_clock s n < t.

Definition not_before (t id : Z) (l : list CandidateRow) : Prop :=
  forall c : CandidateRow, In c l -> cd_id c = id -> t <= cd_next_retry_at c.

(** As long as the clock has not reached [t], candidate [id] is not due before [t]. *)
Definition held (t id : Z) (s : StateDb) : Prop :=
  id <= db_candidate_seq s /\ (clock_below t s -> not_before t id (db_candidates s)).

Lemma held_frame {A} t id (m : Op StateDb A) :
  frames queue m -> (forall s, clock_below t (snd (m s)) -> clock_below t s) -> keeps (held t id) m.
Proof.
  intros Hm Hc s [H1 H2]. specialize (Hm s). unfold queue in Hm. injection Hm as Hl Hn. unfold held. rewrite Hl, Hn.
  split; [done|]. intros Hb. by apply H2, Hc.
Qed.

Lemma held_timestamp t id : keeps (held t id) timestamp.
Proof. apply held_frame; [apply frames_queue_timestamp|]. intros s Hb n Hn. apply Hb. cbn. lia. Qed.

Lemma held_modify t id f : (forall s, queue (f s) = queue s) -> (forall s, db_clock (f s) = db_clock s) ->
  (forall s, db_clock_next (f s) = db_clock_next s) -> keeps (held t id) (modify f).
Proof.
  intros Hq H1 H2. apply held_frame; [by apply frames_queue_modify|]. intros s Hb n Hn. specialize (Hb n). cbn [modify snd] in Hb.
  rewrite H1, H2 in Hb. by apply Hb.
Qed.

Lemma held_update t id (p : CandidateRow -> bool) (f : CandidateRow -> CandidateRow) :
  (forall c, cd_id (f c) = cd_id c) -> (forall c, p c = true -> cd_id c <> id) -> keeps (held t id) (update_candidates p f).
Proof.
  intros Hf Hp s [H1 H2]. unfold update_candidates. case_bool_decide; [|done]. cbn [snd]. split; [done|].
  intros Hb c Hc Hid. cbn [db_candidates set_candidates] in Hc. apply in_map_iff in Hc as (k & Hk & Hin).
  specialize (H2 Hb). destruct (p k) eqn:E; [|subst k; by apply H2]. exfalso. apply (Hp k E). subst c. by rewrite Hf in Hid.
Qed.

Lemma held_insert t id path prio reason initial next t' : keeps (held t id) (insert_candidate path prio reason initial next t').
Proof.
  intros s [H1 H2]. unfold insert_candidate. destruct (existsb _ _); [done|]. cbn [snd]. split; [cbn; lia|].
  intros Hb c [Hc|[<-|[]]]%in_app_or Hid; [by apply H2|]. cbn in Hid. lia.
Qed.

Lemma held_lease t id lease_secs : keeps (fun s => queue_wf s /\ held t id s) (lease_next_due lease_secs).
Proof.
  intros s [Hwf [H1 H2]]. split; [by apply keeps_lease|]. rewrite lease_run by done.
  pose proof (next_row_spec (lease_time s) (db_candidates s)) as Hn.
  assert (Hclk : clock_below t (tick3 s) -> clock_below t s /\ lease_time s < t).
  { intros Hb. split; [intros n Hlt; apply Hb; cbn; lia|]. apply (Hb (S (S (db_clock_next s)))). cbn. lia. }
  destruct (next_row (lease_time s) (db_candidates s)) as [n|]; cbn [snd].
  2: { split; [done|]. intros Hb. apply H2, Hclk, Hb. }
  split; [done|]. intros Hb. apply Hclk in Hb as [Hb Ht]. specialize (H2 Hb). destruct Hn as (Hin & Hd & _).
  intros c Hc Hid. cbn [db_candidates set_candidates] in Hc. apply in_map_iff in Hc as (k & Hk & Hkin).
  unfold has_id in Hk. destruct (Z.eqb_spec (cd_id k) (cd_id n)) as [E|E]; [|subst k; by apply H2].
  exfalso. subst c. cbn in Hid. apply andb_true_iff in Hd as [_ Hd]. apply Z.leb_le in Hd.
  specialize (H2 n Hin). rewrite E in Hid. lia.
Qed.

Lemma held_step t id (p : Z -> CandidateRow -> bool) (f : Z -> CandidateRow -> CandidateRow) : (forall u c, cd_id (f u c) = cd_id c) -> (forall u (c : CandidateRow), p u c = true -> cd_id c <> id) ->
  keeps (held t id) (u ← timestamp; _ ← update_candidates (p u) (f u); mret tt).
Proof.
  intros Hf Hp. apply keeps_bind; [apply held_timestamp|intros u]. apply keeps_bind; [|intros _; apply keeps_mret].
  exact (held_update t id (p u) (f u) (Hf u) (Hp u)).
Qed.

Lemma has_other_id id id' (c : CandidateRow) : id' <> id -> has_id id' c = true -> cd_id c <> id.
Proof. intros Hne H%Z.eqb_eq. congruence. Qed.

Lemma held_run_op t id op : addresses op <> Some id -> keeps (fun s => queue_wf s /\ held t id s) (run_op op).
Proof.
  intros Ha. destruct op; cbn [addresses] in Ha;
    [| | | | | | |unfold run_op; apply keeps_bind; [apply keeps_attempt, held_lease|intros ?; apply keeps_mret]| | |];
    (apply keeps_and; [apply keeps_run_op|]; unfold run_op; apply keeps_bind; [apply keeps_attempt|intros ?; apply keeps_mret]).
  - unfold enqueue. apply keeps_bind; [apply held_timestamp|]. intros u. apply held_insert.
  - apply held_step; [done|]. intros u c. apply has_other_id. congruence.
  - apply held_step; [done|]. intros u c. apply has_other_id. congruence.
  - apply held_step; [done|]. intros u c. apply has_other_id. congruence.
  - apply (held_step t id (fun _ c => has_id id0 c && active c)); [done|]. intros u c [Hc _]%andb_true_iff.
    eapply has_other_id; [|exact Hc]. congruence.
  - apply held_step; [done|]. intros u c. apply has_other_id. congruence.
  - apply held_step; [done|]. intros u c. apply has_other_id. congruence.
  - by apply held_modify.
  - unfold next_sequence. do 2 (apply keeps_bind; [by apply held_modify|intros _]).
    apply keeps_bind; [apply keeps_gets|intros v]. apply keeps_bind; [apply keeps_or_throw|intros w; apply keeps_or_throw].
  - unfold record_gap. apply keeps_bind; [apply held_timestamp|intros u]. apply keeps_bind; [by apply held_modify|intros _].
    by apply held_modify.
Qed.

(** A lease is exclusive until it ends: whatever the other threads do that is
    not about the leased candidate, enqueueing its path again included, no
    worker is handed the candidate before the time the lease runs to. *)
Theorem lease_exclusive lease_secs s c s1 others s2 lease_secs' c' s3 :
  queue_wf s ->
  lease_next_due lease_secs s = (Ret (Some c), s1) ->
  Forall (fun op => addresses op <> Some (cd_id c)) others ->
  op_for others run_op s1 = (Ret tt, s2) ->
  lease_next_due lease_secs' s2 = (Ret (Some c'), s3) ->
  clock_below (cd_next_retry_at c) s3 ->
  cd_id c' <> cd_id c.
Proof.
  intros Hwf E1 Ho E2 E3 Hclk Hid.
  assert (Hheld : queue_wf s1 /\ held (cd_next_retry_at c) (cd_id c) s1).
  { split; [by apply (f_equal snd) in E1; cbn in E1; subst; apply keeps_lease|]. rewrite lease_run in E1 by done.
    pose proof (next_row_spec (lease_time s) (db_candidates s)) as Hn.
    destruct (next_row (lease_time s) (db_candidates s)) as [n|]; [|discriminate]. injection E1 as <- <-. split.
    - destruct Hwf as [_ _ Hs]. rewrite List.Forall_forall in Hs. apply Hs, Hn.
    - intros _ k Hk Hkid. cbn [db_candidates set_candidates] in Hk. apply in_map_iff in Hk as (r & <- & _).
      unfold has_id. destruct (Z.eqb_spec (cd_id r) (cd_id n)) as [E|E]; [apply Z.le_refl|]. exfalso.
      unfold has_id in Hkid. rewrite (proj2 (Z.eqb_neq _ _) E) in Hkid. done. }
  assert (H2 : queue_wf s2 /\ held (cd_next_retry_at c) (cd_id c) s2).
  { apply (f_equal snd) in E2. cbn [snd] in E2. subst s2. revert Hheld.
    apply (keeps_for (fun s => queue_wf s /\ held (cd_next_retry_at c) (cd_id c) s) others run_op).
    intros op Hop. apply held_run_op. rewrite List.Forall_forall in Ho. by apply Ho. }
  destruct H2 as [Hwf2 [_ Hb]]. rewrite lease_run in E3 by done. pose proof (next_row_spec (lease_time s2) (db_candidates s2)) as Hn.
  destruct (next_row (lease_time s2) (db_candidates s2)) as [n|]; [|discriminate]. injection E3 as <- <-.
  destruct Hn as (Hin & Hd & _). apply andb_true_iff in Hd as [_ Hd]. apply Z.leb_le in Hd.
  assert (Hlt : lease_time s2 < cd_next_retry_at c) by (apply (Hclk (S (S (db_clock_next s2)))); cbn; lia).
  assert (Hle : cd_next_retry_at c <= cd_next_retry_at n).
  { apply Hb; [|exact Hin|exact Hid]. intros m Hm. apply (Hclk m). cbn. lia. }
  lia.
Qed.

(** *** The queue drains *)

(** [n] leases in a row: the identifiers handed out, in order. *)
Fixpoint drain (n : nat) (lease_secs : Z) : Op StateDb (list (option Z)) :=
  match n with
  | O => mret []
  | S n' => o ← lease_next_due lease_secs; rest ← drain n' lease_secs; mret ((cd_id <$> o) :: rest)
  end.

Definition clock_stopped (t : Z) (s : StateDb) : Prop := forall n, (db_clock_next s <= n)%nat -> db_clock s n = t.

Lemma filter_due_leased t lease_secs s n : clock_stopped t s -> 0 < lease_secs ->
  List.filter (due t) (map (fun c => if has_id (cd_id n) c then leased lease_secs s c else c) (db_candidates s)) =
  List.filter (fun c => due t c && negb (has_id (cd_id n) c)) (db_candidates s).
Proof.
  intros Hc Hl. induction (db_candidates s) as [|c l IH]; [done|]. cbn [map List.filter]. rewrite IH.
  destruct (has_id (cd_id n) c); [|by rewrite andb_true_r].
  rewrite andb_false_r. assert (due t (leased lease_secs s c) = false) as ->; [|done].
  unfold due, leased, lease_end. cbn. rewrite Hc by lia. apply andb_false_iff. right. apply Z.leb_gt. lia.
Qed.

(** Progress: while the clock stands still, as many leases as there are due
    candidates hand out every one of them, once, by priority and age, and the
    next finds none. *)
Theorem lease_drains lease_secs t s : queue_wf s -> clock_stopped t s -> 0 < lease_secs ->
  let ready := sort_by lease_le (List.filter (due t) (db_candidates s)) in
  exists s', drain (S (length ready)) lease_secs s = (Ret (map (fun c : CandidateRow => Some (cd_id c)) ready ++ [None]), s').
Proof.
  intros Hwf Hc Hl. cbv zeta. remember (sort_by lease_le (List.filter (due t) (db_candidates s))) as ready eqn:E.
  revert s Hwf Hc E. induction ready as [|n ready IH]; intros s Hwf Hc E.
  - assert (Hn : next_row t (db_candidates s) = None) by (unfold next_row; by rewrite <- E).
    assert (Ht : lease_time s = t) by (apply Hc; lia). eexists. cbn [length drain]. erewrite bind_run; [|rewrite lease_run, Ht, Hn by done; reflexivity].
    reflexivity.
  - assert (Hn : next_row t (db_candidates s) = Some n) by (unfold next_row; by rewrite <- E).
    assert (Ht : lease_time s = t) by (apply Hc; lia).
    set (s1 := set_candidates (map (fun c => if has_id (cd_id n) c then leased lease_secs s c else c) (db_candidates s)) (db_candidate_seq s) (tick3 s)).
    assert (E1 : lease_next_due lease_secs s = (Ret (Some (cw_candidate (leased lease_secs s n))), s1)) by (rewrite lease_run, Ht, Hn by done; done).
    destruct (IH s1) as (s' & E').
    + by apply (f_equal snd) in E1; cbn in E1; rewrite <- E1; apply keeps_lease.
    + intros k Hk. apply Hc. cbn in Hk. lia.
    + unfold s1. cbn [db_candidates set_candidates]. rewrite filter_due_leased by done.
      set (D := List.filter (due t) (db_candidates s)) in *.
      assert (HD : List.filter (fun c => due t c && negb (has_id (cd_id n) c)) (db_candidates s) = List.filter (fun c => negb (has_id (cd_id n) c)) D).
      { unfold D. clear. induction (db_candidates s) as [|c l IH]; [done|]. cbn [List.filter].
        destruct (due t c); cbn [andb List.filter]; [|done]. destruct (has_id (cd_id n) c); cbn [negb]; by rewrite IH. }
      rewrite HD. pose proof (sort_by_perm lease_le D) as Hp. rewrite <- E in Hp.
      assert (Hnd : NoDup (map (fun c : CandidateRow => cd_id c) (n :: ready))).
      { rewrite (Permutation_map (fun c : CandidateRow => cd_id c) Hp). apply nodup_map_filter, Hwf. }
      assert (Hp' : Permutation ready (List.filter (fun c => negb (has_id (cd_id n) c)) D)).
      { assert (Hf : List.filter (fun c => negb (has_id (cd_id n) c)) (n :: ready) = ready).
        { cbn [List.filter]. unfold has_id at 1. rewrite Z.eqb_refl. cbn [negb]. apply NoDup_cons in Hnd as [Hni _].
          apply list_filter_all. intros c Hcin. apply negb_true_iff, Z.eqb_neq. intros Ec. apply Hni.
          rewrite <- Ec. apply list_elem_of_In, in_map_iff. by exists c. }
        rewrite <- Hf at 1. by apply perm_list_filter. }
      pose proof (sort_by_sorted lease_le D lease_le_total lease_le_trans) as Hs. rewrite <- E in Hs. inversion Hs as [|? ? Hsr _]; subst.
      apply (sorted_perm_unique lease_le); [|exact Hsr|by apply sort_by_sorted; [apply lease_le_total|apply lease_le_trans]|].
      * intros x y Hx Hy Hxy Hyx. apply NoDup_cons in Hnd as [_ Hnd].
        assert (Eid : cd_id x = cd_id y).
        { unfold lease_le in Hxy, Hyx. rewrite !orb_true_iff, !andb_true_iff, !Z.ltb_lt, !Z.eqb_eq, !Z.leb_le in Hxy, Hyx. lia. }
        by apply (nodup_map_inj (fun c : CandidateRow => cd_id c) ready).
      * etransitivity; [exact Hp'|]. symmetry. apply sort_by_perm.
    + eexists. cbn [length] in E' |- *. cbn [drain]. rewrite (bind_run _ _ _ _ _ E1).
      change (o ← lease_next_due lease_secs; rest ← drain (length ready) lease_secs; mret ((cd_id <$> o) :: rest)) with (drain (S (length ready)) lease_secs).
      rewrite (bind_run _ _ _ _ _ E'). reflexivity.
Qed.

(** ** The occurrence sequence *)

Definition seq_text (s : StateDb) : option string := db_identity s !! agent_sequence.

Lemma clamp_range z : - 2 ^ 63 <= clamp_i64 z <= I64_MAX.
Proof. unfold clamp_i64, I64_MAX. lia. Qed.

Lemma sqlite_cast_range s : - 2 ^ 63 <= sqlite_cast_int s <= I64_MAX.
Proof. unfold sqlite_cast_int. destruct (split_sign _). apply clamp_range. Qed.

(** The sequence last returned, 0 before the first call. *)
Definition last_sequence (s : StateDb) : Z := from_option sqlite_cast_int 0 (seq_text s).

Lemma next_sequence_run s : exists s', seq_text s' = Some (sqlite_increment (default "0"%string (seq_text s))) /\
  next_sequence s = (match parse_i64 (sqlite_increment (default "0"%string (seq_text s))) with
                     | Some v => Ret v | None => Fail parse_error end, s').
Proof.
  set (s1 := set_identity_map (partial_alter (fun o => Some (default "0"%string o)) agent_sequence (db_identity s)) s).
  set (s2 := set_identity_map (alter sqlite_increment agent_sequence (db_identity s1)) s1). exists s2.
  assert (E : seq_text s2 = Some (sqlite_increment (default "0"%string (seq_text s)))).
  { unfold seq_text, s2, s1. cbn [db_identity set_identity_map]. by rewrite lookup_alter_eq, lookup_partial_alter_eq. }
  split; [exact E|].
  transitivity ((v ← or_throw (Db "Query returned no rows") (seq_text s2); or_throw parse_error (parse_i64 v)) s2); [reflexivity|].
  rewrite E. unfold or_throw, mbind, op_mbind. cbn. by destruct (parse_i64 _).
Qed.

Lemma sequence_past_max : parse_i64 "9.22337203685478e+18" = None.
Proof. reflexivity. Qed.

Lemma next_sequence_ret s v s' : next_sequence s = (Ret v, s') -> v = last_sequence s + 1 /\ seq_text s' = Some (show_Z v) /\ - 2 ^ 63 <= v <= I64_MAX.
Proof.
  destruct (next_sequence_run s) as (s1 & Ht & ->). unfold last_sequence. pose proof (sqlite_cast_range (default "0"%string (seq_text s))) as Hr.
  assert (Hl : from_option sqlite_cast_int 0 (seq_text s) = sqlite_cast_int (default "0"%string (seq_text s))) by (by destruct (seq_text s)).
  rewrite Hl. unfold sqlite_increment in *. set (c := sqlite_cast_int _) in *. destruct (Z.leb_spec (c + 1) I64_MAX).
  - unfold parse_i64. rewrite parse_int_show by lia. intros [= <- <-]. split; [done|]. split; [exact Ht|lia].
  - rewrite sequence_past_max. discriminate.
Qed.

Lemma next_sequence_advances s v : seq_text s = Some (show_Z v) -> - 2 ^ 63 <= v < I64_MAX ->
  exists s', next_sequence s = (Ret (v + 1), s') /\ seq_text s' = Some (show_Z (v + 1)).
Proof.
  intros Hs Hv. destruct (next_sequence_run s) as (s' & Ht & E). rewrite Hs in Ht, E. cbn [default from_option id] in Ht, E.
  unfold sqlite_increment in Ht, E. rewrite sqlite_cast_show in Ht, E by lia. rewrite (proj2 (Z.leb_le _ _)) in Ht, E by lia.
  unfold parse_i64 in E. rewrite parse_int_show in E by lia. by exists s'.
Qed.

(** The next number, while [k + 1] of them are left. *)
Lemma next_sequence_headroom s k : 0 <= k ->
  match seq_text s with None => k + 1 <= I64_MAX | Some t => exists v, t = show_Z v /\ 0 <= v /\ v + (k + 1) <= I64_MAX end ->
  exists v s', next_sequence s = (Ret v, s') /\
    match seq_text s' with None => k <= I64_MAX | Some t => exists v, t = show_Z v /\ 0 <= v /\ v + k <= I64_MAX end.
Proof.
  intros Hk H. enough (exists v, default "0"%string (seq_text s) = show_Z v /\ 0 <= v /\ v + (k + 1) <= I64_MAX) as (v & Hv & H0 & H1).
  - destruct (next_sequence_run s) as (s' & Ht & E).
    assert (Hi : sqlite_increment (default "0"%string (seq_text s)) = show_Z (v + 1)).
    { rewrite Hv. unfold sqlite_increment. rewrite sqlite_cast_show by (unfold I64_MAX in *; lia). by rewrite (proj2 (Z.leb_le _ _)) by lia. }
    exists (v + 1), s'. split.
    + rewrite E, Hi. unfold parse_i64. rewrite parse_int_show by (unfold I64_MAX in *; lia). reflexivity.
    + rewrite Ht, Hi. exists (v + 1). split; [done|lia].
  - destruct (seq_text s) as [t|]; cbn [default from_option]; [by apply H|]. exists 0. split; [reflexivity|lia].
Qed.

Definition sets_sequence (op : QueueOp) : bool :=
  match op with SetIdentity key _ => String.eqb key agent_sequence | _ => false end.

Ltac seq_frame :=
  repeat lazymatch goal with
      | |- frames _ (mbind _ _) => apply frames_bind; [|intros ?]
      | |- frames _ (or_throw _ _) => apply frames_or_throw
      | |- frames _ (match ?x with _ => _ end) => destruct x
      | |- frames _ (update_candidates _ _) => intros ?; unfold update_candidates; by case_bool_decide
      | |- frames _ (insert_candidate _ _ _ _ _ _) => intros ?; unfold insert_candidate; by destruct (existsb _ _)
      | |- frames _ _ => by intros ?
      end.

Lemma run_op_sequence op s v : seq_text s = Some (show_Z v) -> - 2 ^ 63 <= v < I64_MAX -> sets_sequence op = false ->
  exists v', seq_text (snd (run_op op s)) = Some (show_Z v') /\ v <= v' <= v + 1.
Proof.
  intros Hs Hv Hop. enough (frames seq_text (run_op op) \/ op = NextSequence) as [Hf| ->].
  - exists v. rewrite (Hf s). split; [done|lia].
  - destruct (next_sequence_advances s v Hs Hv) as (s' & E & Ht). exists (v + 1). cbn [run_op].
    unfold mbind, op_mbind, attempt. rewrite E. cbn. split; [done|lia].
  - destruct op; try (by right); left; unfold run_op; (apply frames_bind; [apply frames_attempt|by intros ? ?]);
      try (unfold enqueue, transition, set_retry, defer, renew_lease, set_hashed, finish_gap, lease_next_due, lease_row, record_gap, increment_counter;
           seq_frame; done).
    intros s0. unfold seq_text, set_identity, modify. cbn [snd db_identity set_identity_map]. apply lookup_insert_ne.
    by apply String.eqb_neq in Hop.
Qed.

(** The path has an active candidate: one that is neither complete nor a recorded
    gap.  No insertion takes one away. *)
Definition has_active (path : string) (s : StateDb) : Prop := In path (active_paths (db_candidates s)).

Lemma has_active_frame {A} path (m : Op StateDb A) : frames db_candidates m -> keeps (has_active path) m.
Proof. intros Hm s H. unfold has_active. by rewrite (Hm s). Qed.

Lemma has_active_insert path q prio reason initial next t : keeps (has_active path) (insert_candidate q prio reason initial next t).
Proof.
  intros s H. unfold insert_candidate. destruct (existsb _ _); [done|]. unfold has_active. cbn [snd db_candidates set_candidates].
  rewrite active_paths_app. apply in_or_app. by left.
Qed.

Lemma has_active_enqueue path q prio reason ms : keeps (has_active path) (enqueue q prio reason ms).
Proof. unfold enqueue. apply keeps_bind; [by apply has_active_frame|intros t]. apply has_active_insert. Qed.

Lemma has_active_run_enqueue path q prio reason ms : keeps (has_active path) (run_op (Enqueue q prio reason ms)).
Proof. cbn [run_op]. apply keeps_bind; [apply keeps_attempt, has_active_enqueue|intros ?; apply keeps_mret]. Qed.

(** No operation of the queue marks a baseline entry. *)
Definition walk_state (s : StateDb) : gmap string Z * gmap string (Z * Z * Z) := (db_baseline s, db_seen s).

Lemma frames_walk_run_op op : frames walk_state (run_op op).
Proof.
  unfold run_op. destruct op; (apply frames_bind; [apply frames_attempt|by intros ? ?]);
    unfold enqueue, transition, set_retry, defer, renew_lease, set_hashed, finish_gap, lease_next_due, lease_row, record_gap, increment_counter,
      next_sequence, get_identity; seq_frame; done.
Qed.

Lemma enqueue_run path prio reason ms s : exists o s', enqueue path prio reason ms s = (Ret o, s') /\ has_active path s' /\
  walk_state s' = walk_state s /\ len (db_candidates s') = len (db_candidates s) + (match o with Some _ => 1 | None => 0 end).
Proof.
  unfold enqueue, insert_candidate. erewrite bind_run; [|reflexivity].
  match goal with |- context [existsb ?p ?l] => destruct (existsb p l) eqn:E end; do 2 eexists; (split; [reflexivity|]).
  - split; [|cbn; split; [done|lia]]. apply existsb_exists in E as (c & Hc & [Ha Hp%String.eqb_eq]%andb_true_iff).
    unfold has_active, active_paths. apply in_map_iff. exists c. split; [done|]. by apply filter_In.
  - split; [|split; [done|cbn [db_candidates set_candidates]; rewrite len_app; done]].
    unfold has_active. cbn [db_candidates set_candidates]. rewrite active_paths_app. apply in_or_app. right.
    unfold active_paths. destruct (0 <? ms); by left.
Qed.

(** Occurrence numbers never repeat: whatever the other threads do, as long as
    none overwrites the counter and it stays below 2^63 - 1, a later call
    returns a greater number. *)
Theorem sequence_increases s v1 s1 others s2 v2 s3 :
  next_sequence s = (Ret v1, s1) ->
  Forall (fun op => sets_sequence op = false) others -> v1 + len others < I64_MAX ->
  op_for others run_op s1 = (Ret tt, s2) ->
  next_sequence s2 = (Ret v2, s3) ->
  v1 < v2.
Proof.
  intros E1 Ho Hb E2 E3. apply next_sequence_ret in E1 as (_ & Hs1 & Hr).
  enough (exists v, seq_text s2 = Some (show_Z v) /\ v1 <= v <= v1 + len others) as (v & Hs2 & Hv).
  { apply next_sequence_ret in E3 as (-> & _ & _). unfold last_sequence. rewrite Hs2. cbn [from_option].
    rewrite sqlite_cast_show by (unfold I64_MAX in *; lia). lia. }
  clear E3 v2 s3. revert v1 s1 Hs1 Hr Hb E2. induction Ho as [|op others Hop Ho IH]; intros v1 s1 Hs1 Hr Hb E2.
  - injection E2 as ->. exists v1. split; [done|]. unfold len. cbn. lia.
  - unfold len in Hb. cbn [length] in Hb. rewrite Nat2Z.inj_succ in Hb. fold (len others) in Hb. pose proof (len_nonneg others).
    destruct (run_op_sequence op s1 v1 Hs1) as (v & Hsv & Hv); [lia|done|].
    cbn [op_for] in E2. apply bind_ret in E2 as ([] & s' & E2 & E2'). rewrite E2 in Hsv. cbn [snd] in Hsv.
    destruct (IH v s' Hsv) as (w & Hw & Hwr); [lia..|done|]. exists w. split; [done|].
    unfold len. cbn [length]. rewrite Nat2Z.inj_succ. fold (len others). lia.
Qed.

(** ** The journal cursor and the seen files *)

Lemma usn_keys_ne v w : usn_id_key v <> usn_next_key w.
Proof. unfold usn_id_key, usn_next_key. discriminate. Qed.

Definition with_cursor (volume : string) (journal_id next_usn : Z) (s : StateDb) : StateDb :=
  snd (set_usn_cursor volume journal_id next_usn s).

Lemma with_cursor_id volume j n s o :
  db_identity (with_cursor volume j n s) !! usn_id_key o = if decide (o = volume) then Some (show_Z j) else db_identity s !! usn_id_key o.
Proof.
  cbn [with_cursor set_usn_cursor set_identity_many modify snd db_identity set_identity_map foldl fst].
  rewrite lookup_insert_ne by (intros E; symmetry in E; by apply usn_keys_ne in E).
  destruct (decide (o = volume)) as [->|Hne]; [by rewrite lookup_insert_eq|]. apply lookup_insert_ne. intros E. by apply string_app_inj_l in E.
Qed.

Lemma with_cursor_next volume j n s o :
  db_identity (with_cursor volume j n s) !! usn_next_key o = if decide (o = volume) then Some (show_Z n) else db_identity s !! usn_next_key o.
Proof.
  cbn [with_cursor set_usn_cursor set_identity_many modify snd db_identity set_identity_map foldl fst].
  destruct (decide (o = volume)) as [->|Hne]; [by rewrite lookup_insert_eq|].
  rewrite lookup_insert_ne by (intros E; by apply string_app_inj_l in E). apply lookup_insert_ne. apply usn_keys_ne.
Qed.

Lemma get_cursor_set volume j n s : 0 <= j < 2 ^ 64 -> - 2 ^ 63 <= n < 2 ^ 63 ->
  get_usn_cursor volume (with_cursor volume j n s) = (Ret (Some (j, n)), with_cursor volume j n s).
Proof.
  intros Hj Hn. unfold get_usn_cursor, get_identity. erewrite bind_run; [|reflexivity]. erewrite bind_run; [|reflexivity].
  rewrite with_cursor_id, with_cursor_next, !decide_True by done. unfold parse_u64, parse_i64, I64_MAX. rewrite !parse_int_show by lia. reflexivity.
Qed.

(** Reading a cursor changes nothing and does not panic. *)
Lemma get_cursor_total volume s : exists r, attempt (get_usn_cursor volume) s = (Ret r, s).
Proof.
  unfold attempt, get_usn_cursor, get_identity. unfold mbind at 1 2, op_mbind at 1 2. cbn [gets].
  destruct (db_identity s !! usn_id_key volume) as [i|]; [|by eexists]. destruct (db_identity s !! usn_next_key volume) as [n|]; [|by eexists].
  unfold or_throw, mbind, op_mbind. destruct (parse_u64 i); cbn; [|by eexists]. destruct (parse_i64 n); by eexists.
Qed.

(** A persisted cursor reads back whole, for every volume name and every pair of
    machine integers, and does not disturb another volume's. *)
Theorem usn_cursor_roundtrip volume journal_id next_usn s :
  0 <= journal_id < 2 ^ 64 -> - 2 ^ 63 <= next_usn < 2 ^ 63 ->
  exists s', set_usn_cursor volume journal_id next_usn s = (Ret tt, s') /\
    get_usn_cursor volume s' = (Ret (Some (journal_id, next_usn)), s') /\
    forall other, other <> volume -> fst (get_usn_cursor other s') = fst (get_usn_cursor other s).
Proof.
  intros Hj Hn. exists (with_cursor volume journal_id next_usn s). split; [reflexivity|]. split; [by apply get_cursor_set|].
  intros o Ho. unfold get_usn_cursor, get_identity. do 4 (erewrite bind_run; [|reflexivity]).
  rewrite with_cursor_id, with_cursor_next, !decide_False by done.
  destruct (db_identity s !! usn_id_key o) as [i|]; [|done]. destruct (db_identity s !! usn_next_key o) as [n|]; [|done].
  unfold or_throw, mbind, op_mbind. destruct (parse_u64 i); [|done]. cbn. by destruct (parse_i64 n).
Qed.

(** A file is reported once per change: exactly when its identity differs from
    the last one recorded under the path, which is then recorded. *)
Theorem seen_reports_changes path inode mtime size s :
  exists changed s', seen_check_and_update path inode mtime size s = (Ret changed, s') /\
    (changed = true <-> db_seen s !! path <> Some (inode, mtime, size)) /\
    db_seen s' = <[path := (inode, mtime, size)]> (db_seen s) /\
    seen_check_and_update path inode mtime size s' = (Ret false, s').
Proof.
  unfold seen_check_and_update. erewrite bind_run; [|reflexivity]. destruct (decide (db_seen s !! path = Some (inode, mtime, size))) as [E|E].
  - rewrite bool_decide_eq_true_2 by done. cbn [negb]. exists false, s. split; [reflexivity|]. split; [by split|].
    split; [by rewrite insert_id|]. erewrite bind_run; [|reflexivity]. by rewrite bool_decide_eq_true_2.
  - rewrite bool_decide_eq_false_2 by done. cbn [negb]. exists true, (set_seen (<[path := (inode, mtime, size)]> (db_seen s)) s).
    split; [reflexivity|]. split; [by split|]. split; [done|]. erewrite bind_run; [|reflexivity].
    rewrite bool_decide_eq_true_2; [done|]. cbn. by rewrite lookup_insert_eq.
Qed.

(** ** Witnesses *)

(** Two files are enqueued at time 100; the clock then stands at 200. *)
Definition sample_clock (n : nat) : Z := if (n <? 2)%nat then 100 else 200.
Definition sample_ops : list QueueOp := [Enqueue "/bin/a" 5 "baseline" 0; Enqueue "/bin/b" 1 "exec" 0].
Definition sample_db : StateDb := snd (op_for sample_ops run_op (open_db sample_clock)).

Lemma sample_wf : queue_wf sample_db.
Proof.
  apply (keeps_for queue_wf sample_ops run_op); [intros op _; apply keeps_run_op|]. constructor; cbn; [apply NoDup_nil_2..|constructor].
Qed.

Definition sample_lease (s : StateDb) : Candidate * StateDb :=
  match lease_next_due 120 s with
  | (Ret (Some c), s') => (c, s')
  | (_, s') => (mkCandidate 0 "" 0 "" "" 0 0 None None None None, s')
  end.

Lemma lease_spec_witness : exists c s', lease_next_due 120 sample_db = (Ret (Some c), s') /\ cd_path c = "/bin/b"%string /\ cd_next_retry_at c = 320.
Proof.
  destruct (lease_spec 120 sample_db sample_wf) as (o & s' & E & H). destruct o as [c|].
  - exists c, s'. split; [exact E|]. split; [|destruct H as (n & _ & _ & _ & _ & Hr & _); rewrite Hr; by vm_compute].
    assert (Ec : fst (lease_next_due 120 sample_db) = Ret (Some c)) by (by rewrite E). vm_compute in Ec. injection Ec as <-. done.
  - exfalso. assert (Ec : fst (lease_next_due 120 sample_db) = Ret None) by (by rewrite E). vm_compute in Ec. discriminate Ec.
Defined.

(** A second worker gets the other candidate. *)
Lemma lease_exclusive_witness :
  let '(c, s1) := sample_lease sample_db in let '(c', s3) := sample_lease s1 in cd_id c' <> cd_id c.
Proof.
  destruct (sample_lease sample_db) as [c s1] eqn:E1. destruct (sample_lease s1) as [c' s3] eqn:E2.
  assert (Ec : c = fst (sample_lease sample_db)) by (by rewrite E1). assert (Es : s1 = snd (sample_lease sample_db)) by (by rewrite E1).
  assert (Ec' : c' = fst (sample_lease s1)) by (by rewrite E2). assert (Es' : s3 = snd (sample_lease s1)) by (by rewrite E2).
  apply (lease_exclusive 120 sample_db c s1 [] s1 120 c' s3).
  - exact sample_wf.
  - subst. vm_compute. reflexivity.
  - constructor.
  - reflexivity.
  - subst. vm_compute. reflexivity.
  - intros n _. replace (db_clock s3) with sample_clock by (subst; vm_compute; reflexivity).
    replace (cd_next_retry_at c) with 320 by (subst; vm_compute; reflexivity). unfold sample_clock. destruct (n <? 2)%nat; lia.
Defined.

Lemma lease_drains_witness : exists s', drain 3 120 sample_db = (Ret [Some 2; Some 1; None], s').
Proof.
  destruct (lease_drains 120 200 sample_db sample_wf) as (s' & E).
  - intros n Hn. replace (db_clock sample_db) with sample_clock by (vm_compute; reflexivity).
    replace (db_clock_next sample_db) with 2%nat in Hn by (vm_compute; reflexivity). unfold sample_clock.
    destruct (Nat.ltb_spec n 2); [lia|done].
  - lia.
  - exists s'. exact E.
Defined.

Lemma sequence_increases_witness :
  exists s1 s2 s3, next_sequence sample_db = (Ret 1, s1) /\ op_for [NextSequence; SetIdentity "k" "v"] run_op s1 = (Ret tt, s2) /\
    next_sequence s2 = (Ret 3, s3) /\ 1 < 3.
Proof.
  set (s1 := snd (next_sequence sample_db)). set (s2 := snd (op_for [NextSequence; SetIdentity "k" "v"] run_op s1)).
  assert (E1 : next_sequence sample_db = (Ret 1, s1)) by (unfold s1; vm_compute; reflexivity).
  assert (E2 : op_for [NextSequence; SetIdentity "k" "v"] run_op s1 = (Ret tt, s2)) by (unfold s2, s1; vm_compute; reflexivity).
  assert (E3 : next_sequence s2 = (Ret 3, snd (next_sequence s2))) by (unfold s2, s1; vm_compute; reflexivity).
  exists s1, s2, (snd (next_sequence s2)). split; [exact E1|]. split; [exact E2|]. split; [exact E3|].
  apply (sequence_increases sample_db 1 s1 [NextSequence; SetIdentity "k" "v"] s2 3 (snd (next_sequence s2)) E1); [repeat constructor|done|exact E2|exact E3].
Defined.

Lemma usn_cursor_roundtrip_witness : exists s', set_usn_cursor "C" (2 ^ 64 - 1) (-5) sample_db = (Ret tt, s') /\
  get_usn_cursor "C" s' = (Ret (Some (2 ^ 64 - 1, -5)), s').
Proof.
  destruct (usn_cursor_roundtrip "C" (2 ^ 64 - 1) (-5) sample_db) as (s' & E1 & E2 & _); [lia|lia|].
  exists s'. split; [exact E1|exact E2].
Defined.
