(* ===== verification/Spool.v ===== *)
(** * The agent's spool ([corpus-agent/src/spool_crypto.rs], [stable_read.rs])

    The encrypted spool format and the stable reader that fills it: a file is
    copied while it is hashed, and accepted only when nothing about it changed
    meanwhile. *)

From S2P Require Import Prelude Machine Text Hash Cas.
From Stdlib Require Import Strings.Byte.

Open Scope Z_scope.

(** ** The cipher *)

(** [XChaCha20Poly1305] under the spool key, with 24-byte nonces. *)
Record SpoolCipher := mkSpoolCipher {
  aead_encrypt : bytes -> bytes -> bytes;
  aead_decrypt : bytes -> bytes -> option bytes }.

(** What an authenticated cipher guarantees: a ciphertext is 16 bytes longer
    than its plaintext, decryption inverts encryption, and accepts nothing
    but what encryption under the same nonce produces. *)
Record CipherLaws (c : SpoolCipher) : Prop := {
  cipher_length : forall n p, len (aead_encrypt c n p) = len p + 16;
  cipher_roundtrip : forall n p, aead_decrypt c n (aead_encrypt c n p) = Some p;
  cipher_authentic : forall n ct p, aead_decrypt c n ct = Some p -> ct = aead_encrypt c n p }.

Definition SPOOL_FORMAT_VERSION : byte := x02.

(** Prefix of 16 bytes, then the chunk counter. *)
Definition chunk_nonce (prefix : bytes) (index : Z) : bytes := prefix ++ to_le 8 index.

Section spool_crypto.
  Context (c : SpoolCipher).

(** [encrypt], on the nonce drawn from the operating system. *)
Definition encrypt (nonce plaintext : bytes) : bytes := nonce ++ aead_encrypt c nonce plaintext.

Definition aead_failure : Error := BadRequest "spool chunk failed AEAD verification (tampered or wrong key)".

Definition decrypt (blob : bytes) : outcome bytes :=
  if len blob <? 24 + 16 then Fail (BadRequest "spool blob too short to be ciphertext")
  else or_fail aead_failure (aead_decrypt c (take 24 blob) (drop 24 blob)).

Definition encrypt_chunk (prefix : bytes) (index : Z) (chunk : bytes) : bytes := aead_encrypt c (chunk_nonce prefix index) chunk.

Definition decrypt_chunk (prefix : bytes) (index : Z) (ct : bytes) : outcome bytes :=
  or_fail aead_failure (aead_decrypt c (chunk_nonce prefix index) ct).

(** The loop of [decrypt_file]; it consumes at least four bytes a turn. *)
Fixpoint decrypt_chunks (fuel : nat) (prefix rest out : bytes) (index : Z) : outcome bytes :=
  match fuel with
  | O => Panic
  | S fuel' =>
      if len rest =? 0 then Ret out
      else if len rest <? 4 then Fail (BadRequest "truncated spool chunk header")
      else
        header ← or_panic (slice rest 0 4);
        let ct_len := from_le header + 16 in
        let rest := drop 4 rest in
        if len rest <? ct_len then Fail (BadRequest "truncated spool chunk")
        else
          p ← decrypt_chunk prefix index (take (Z.to_nat ct_len) rest);
          decrypt_chunks fuel' prefix (drop (Z.to_nat ct_len) rest) (out ++ p) (index + 1)
  end.

Definition decrypt_file (blob : bytes) : outcome bytes :=
  if len blob <? 1 + 16 then Fail (BadRequest "spool blob too short for header")
  else
    version ← or_panic (index blob 0);
    if negb (bool_decide (version = SPOOL_FORMAT_VERSION)) then Fail (BadRequest "unsupported spool format version")
    else
      prefix ← or_panic (slice blob 1 17);
      decrypt_chunks (S (length blob)) prefix (drop 17 blob) [] 0.

(** The format the reader writes, one length-prefixed ciphertext per chunk. *)
Definition chunk_bytes (prefix : bytes) (index : Z) (chunk : bytes) : bytes :=
  to_le 4 (len chunk) ++ encrypt_chunk prefix index chunk.

Fixpoint chunks_bytes (prefix : bytes) (index : Z) (chunks : list bytes) : bytes :=
  match chunks with
  | [] => []
  | ch :: l => chunk_bytes prefix index ch ++ chunks_bytes prefix (index + 1) l
  end.

Definition spool_file (prefix : bytes) (chunks : list bytes) : bytes :=
  SPOOL_FORMAT_VERSION :: prefix ++ chunks_bytes prefix 0 chunks.
End spool_crypto.

(** ** The stable reader *)

Inductive StableReadError : Type :=
  | DeletedBeforeRead
  | PermissionDenied
  | TooLarge (size : Z)
  | ChangedDuringRead
  | SpoolFull
  | StableIo (m : string).

Record StableReadResult := mkStableReadResult { sr_sha256 : string; sr_size : Z; sr_spool_path : string }.

(** [std::io::ErrorKind], as far as the reader tells kinds apart. *)
Inductive IoError : Type := IoNotFound | IoPermissionDenied | IoOther (m : string).

Definition io_text (e : IoError) : string :=
  match e with
  | IoNotFound => "No such file or directory (os error 2)"
  | IoPermissionDenied => "Permission denied (os error 13)"
  | IoOther m => m
  end.

Definition map_open_err (e : IoError) : StableReadError :=
  match e with
  | IoNotFound => DeletedBeforeRead
  | IoPermissionDenied => PermissionDenied
  | IoOther m => StableIo m
  end.

(** [fileid::FileKey] *)
Record FileKey := mkFileKey { fk_volume : Z; fk_index : Z; fk_size : Z; fk_mtime_ns : Z; fk_ctime_ns : Z }.

Global Instance FileKey_eq_dec : EqDecision FileKey.
Proof. solve_decision. Defined.

(** What the system answers during one attempt: the file may be written, moved
    or removed by others between any two calls.  [at_reads] are the answers of
    [read] up to the end of the file; [at_write k] is whether the [k]-th write
    to the spool file succeeds. *)
Record Attempt := mkAttempt {
  at_open : option IoError;
  at_before : IoError + FileKey;
  at_create : option IoError;
  at_reads : list (IoError + bytes);
  at_write : nat -> option IoError;
  at_after : IoError + FileKey }.

(** The spool directory, and the random numbers to come. *)
Record Spool := mkSpool {
  sp_files : gmap string bytes;
  sp_uuids : nat -> Uuid; sp_prefixes : nat -> bytes; sp_next : nat }.

Definition set_files (m : gmap string bytes) (s : Spool) : Spool := mkSpool m (sp_uuids s) (sp_prefixes s) (sp_next s).

Definition remove_spool (path : string) : Op Spool unit := modify (fun s => set_files (base.delete path (sp_files s)) s).

Section stable_read.
  Context {SHA : Sha256} {HEX : HexCodec} {UD : UuidDisplay}.
  Context (spool_dir : string) (max_artifact_bytes spool_free_bytes : Z) (cipher : option SpoolCipher).

Definition fresh_names : Op Spool (string * bytes) := fun s =>
  (Ret (spool_dir +:+ ("/spool-" +:+ uuid_to_string (sp_uuids s (sp_next s))), sp_prefixes s (sp_next s)),
   mkSpool (sp_files s) (sp_uuids s) (sp_prefixes s) (S (sp_next s))).

(** [create_new]: an existing file is an error. *)
Definition create_spool_file (answer : option IoError) (path : string) : Op Spool (StableReadError + unit) := fun s =>
  match answer, sp_files s !! path with
  | Some e, _ => (Ret (inl (StableIo (io_text e))), s)
  | None, Some _ => (Ret (inl (StableIo "File exists")), s)
  | None, None => (Ret (inr tt), set_files (<[path := []]> (sp_files s)) s)
  end.

(** The [k]-th [write_all] of the attempt. *)
Definition write_spool (a : Attempt) (k : nat) (path : string) (b : bytes) : Op Spool (StableReadError + unit) := fun s =>
  match at_write a k with
  | Some e => (Ret (inl (StableIo (io_text e))), s)
  | None => (Ret (inr tt), set_files (alter (fun old => old ++ b) path (sp_files s)) s)
  end.

(** The writes of one chunk: what is written, in order. *)
Definition chunk_writes (prefix : bytes) (index : Z) (chunk : bytes) : list bytes :=
  match cipher with
  | Some c => [to_le 4 (len chunk); encrypt_chunk c prefix index chunk]
  | None => [chunk]
  end.

Fixpoint write_all (a : Attempt) (k : nat) (path : string) (parts : list bytes) : Op Spool (StableReadError + nat) :=
  match parts with
  | [] => mret (inr k)
  | b :: parts' =>
      r ← write_spool a k path b;
      match r with
      | inl e => mret (inl e)
      | inr _ => write_all a (S k) path parts'
      end
  end.

(** The copy loop: [plain] is what the hasher has seen, [k] counts the writes.
    A read of no bytes is the end of the file. *)
Fixpoint copy_loop (a : Attempt) (path : string) (prefix : bytes) (reads : list (IoError + bytes)) (k : nat) (index : Z)
    (plain : bytes) : Op Spool (StableReadError + bytes) :=
  match reads with
  | [] => mret (inr plain)
  | inl e :: _ => mret (inl (map_open_err e))
  | inr [] :: _ => mret (inr plain)
  | inr chunk :: reads' =>
      let plain := plain ++ chunk in
      if max_artifact_bytes <? len plain then mret (inl (TooLarge (len plain)))
      else
        r ← write_all a k path (chunk_writes prefix index chunk);
        match r with
        | inl e => mret (inl e)
        | inr k => copy_loop a path prefix reads' k (index + 1) plain
        end
  end.

Definition header (prefix : bytes) : list bytes :=
  match cipher with Some _ => [[SPOOL_FORMAT_VERSION]; prefix] | None => [] end.

(** After the spool file is created: copy, compare sizes, stat again. *)
Definition read_into (a : Attempt) (before : FileKey) (path : string) (prefix : bytes) : Op Spool (StableReadError + StableReadResult) :=
  h ← write_all a 0 path (header prefix);
  match h with
  | inl e => remove_spool path ;; mret (inl e)
  | inr k =>
      copied ← copy_loop a path prefix (at_reads a) k 0 [];
      match copied with
      | inl e => remove_spool path ;; mret (inl e)
      | inr plain =>
          if negb (len plain =? fk_size before) then remove_spool path ;; mret (inl ChangedDuringRead)
          else
            match at_after a with
            | inl e => mret (inl (map_open_err e))
            | inr after =>
                if negb (bool_decide (after = before)) then remove_spool path ;; mret (inl ChangedDuringRead)
                else mret (inr (mkStableReadResult (sha256_hex plain) (len plain) path))
            end
      end
  end.

Definition read_once (a : Attempt) : Op Spool (StableReadError + StableReadResult) :=
  match at_open a, at_before a with
  | Some e, _ => mret (inl (map_open_err e))
  | None, inl e => mret (inl (map_open_err e))
  | None, inr before =>
      if max_artifact_bytes <? fk_size before then mret (inl (TooLarge (fk_size before)))
      else if spool_free_bytes <? fk_size before then mret (inl SpoolFull)
      else
        names ← fresh_names;
        created ← create_spool_file (at_create a) (fst names);
        match created with
        | inl e => mret (inl e)
        | inr _ => read_into a before (fst names) (snd names)
        end
  end.

(** [retries] more attempts after a change; [env k] is what attempt [k] sees. *)
Fixpoint stable_read (retries : nat) (env : nat -> Attempt) : Op Spool (StableReadError + StableReadResult) :=
  r ← read_once (env 0%nat);
  match r, retries with
  | inl ChangedDuringRead, S retries' => stable_read retries' (fun k => env (S k))
  | _, _ => mret r
  end.
End stable_read.

(** ** The spool format *)

Section format.
  Context (c : SpoolCipher) (CL : CipherLaws c).

Lemma take_len_app {A} (l k : list A) : take (Z.to_nat (len l)) (l ++ k) = l.
Proof. unfold len. rewrite Nat2Z.id. apply take_app_length. Qed.

Lemma drop_len_app {A} (l k : list A) : drop (Z.to_nat (len l)) (l ++ k) = k.
Proof. unfold len. rewrite Nat2Z.id. apply drop_app_length. Qed.

(** Running out of fuel is impossible. *)
Lemma decrypt_chunks_total fuel prefix rest out index : (length rest < fuel)%nat -> decrypt_chunks c fuel prefix rest out index <> Panic.
Proof.
  revert rest out index. induction fuel as [|fuel IH]; intros rest out index Hf; [lia|]. cbn [decrypt_chunks].
  destruct (Z.eqb_spec (len rest) 0); [done|]. destruct (Z.ltb_spec (len rest) 4); [done|].
  rewrite slice_some by lia. cbn [or_panic mbind outcome_mbind]. destruct (_ <? _); [done|].
  unfold decrypt_chunk, or_fail. destruct (aead_decrypt _ _ _); [|done]. apply IH. rewrite !length_drop. unfold len in *. lia.
Qed.

Lemma decrypt_chunks_encoded prefix chunks : Forall (fun ch => len ch < 2 ^ 32) chunks ->
  forall fuel out index, (length (chunks_bytes c prefix index chunks) < fuel)%nat ->
  decrypt_chunks c fuel prefix (chunks_bytes c prefix index chunks) out index = Ret (out ++ concat chunks).
Proof.
  induction 1 as [|ch chunks Hch _ IH]; intros fuel out index Hf.
  { destruct fuel; [lia|]. cbn. by rewrite app_nil_r. }
  destruct fuel as [|fuel]; [lia|]. cbn [chunks_bytes] in Hf |- *. unfold chunk_bytes in *. rewrite <- !app_assoc in *.
  set (ct := encrypt_chunk c prefix index ch) in *. set (more := chunks_bytes c prefix (index + 1) chunks) in *.
  assert (Hct : len ct = len ch + 16) by (apply cipher_length; exact CL).
  assert (Hlen : len (to_le 4 (len ch) ++ ct ++ more) = 4 + len ct + len more) by (rewrite !len_app, len_to_le; lia).
  pose proof (len_nonneg ct). pose proof (len_nonneg more). pose proof (len_nonneg ch). cbn [decrypt_chunks].
  rewrite Hlen, (proj2 (Z.eqb_neq _ 0)), (proj2 (Z.ltb_ge _ 4)) by lia. rewrite slice_some by lia.
  cbn [or_panic mbind outcome_mbind]. change (Z.to_nat 0) with 0%nat. rewrite drop_0. change (Z.to_nat (4 - 0)) with 4%nat.
  assert (H4 : forall k : bytes, take 4 (to_le 4 (len ch) ++ k) = to_le 4 (len ch)) by (intros k; by rewrite take_app_length' by (symmetry; apply to_le_length)).
  assert (H4' : forall k : bytes, drop 4 (to_le 4 (len ch) ++ k) = k) by (intros k; by rewrite drop_app_length' by (symmetry; apply to_le_length)).
  rewrite H4, H4', from_to_le. change (256 ^ Z.of_nat 4) with (2 ^ 32). rewrite Z.mod_small by lia. rewrite <- Hct, len_app.
  rewrite (proj2 (Z.ltb_ge _ _)) by lia. rewrite take_len_app, drop_len_app. unfold decrypt_chunk, ct, encrypt_chunk at 1.
  rewrite cipher_roundtrip by exact CL. cbn [or_fail mbind outcome_mbind]. unfold more. rewrite IH.
  - by rewrite <- app_assoc.
  - rewrite !length_app, to_le_length in Hf. unfold more in Hf. lia.
Qed.

Lemma decrypt_chunks_inv fuel : forall prefix rest out index p,
  decrypt_chunks c fuel prefix rest out index = Ret p ->
  exists chunks, rest = chunks_bytes c prefix index chunks /\ p = out ++ concat chunks /\ Forall (fun ch => len ch < 2 ^ 32) chunks.
Proof.
  induction fuel as [|fuel IH]; intros prefix rest out index p; [done|]. cbn [decrypt_chunks].
  destruct (Z.eqb_spec (len rest) 0) as [E|E].
  { intros [= <-]. exists []. destruct rest; [|unfold len in E; cbn in E; lia]. by rewrite app_nil_r. }
  destruct (Z.ltb_spec (len rest) 4); [done|]. rewrite slice_some by lia. cbn [or_panic mbind outcome_mbind].
  change (Z.to_nat 0) with 0%nat. rewrite drop_0. change (Z.to_nat (4 - 0)) with 4%nat.
  set (h := take 4 rest). assert (Hh : length h = 4%nat) by (unfold h; rewrite length_take; unfold len in *; lia).
  pose proof (from_le_range h) as Hr. unfold len at 1 in Hr. rewrite Hh in Hr. change (256 ^ Z.of_nat 4) with (2 ^ 32) in Hr.
  set (r := drop 4 rest). destruct (Z.ltb_spec (len r) (from_le h + 16)) as [|Hl]; [done|].
  unfold decrypt_chunk, or_fail. destruct (aead_decrypt _ _ _) as [q|] eqn:Eq; [|done]. cbn [mbind outcome_mbind]. intros Hd.
  apply (cipher_authentic c CL) in Eq. destruct (IH _ _ _ _ _ Hd) as (chunks & E1 & -> & Hc).
  assert (Hq : len q = from_le h).
  { pose proof (cipher_length c CL (chunk_nonce prefix index) q) as Hlen. rewrite <- Eq in Hlen. unfold len in Hlen, Hl |- *.
    rewrite length_take in Hlen. lia. }
  exists (q :: chunks). split; [|split; [by rewrite <- app_assoc|constructor; [lia|done]]].
  cbn [chunks_bytes]. rewrite <- E1. unfold chunk_bytes, encrypt_chunk. rewrite <- Eq, Hq.
  assert (Hle : to_le 4 (from_le h) = h) by (rewrite <- Hh; apply to_from_le). rewrite Hle, <- app_assoc, take_drop.
  unfold h, r. by rewrite take_drop.
Qed.

(** The header, then the chunks. *)
Lemma decrypt_file_cases blob :
  (exists e, decrypt_file c blob = Fail e) /\ (forall prefix rest, len prefix = 16 -> blob <> SPOOL_FORMAT_VERSION :: prefix ++ rest) \/
  exists prefix rest, len prefix = 16 /\ blob = SPOOL_FORMAT_VERSION :: prefix ++ rest /\
    decrypt_file c blob = decrypt_chunks c (S (length blob)) prefix rest [] 0.
Proof.
  unfold decrypt_file. destruct (Z.ltb_spec (len blob) (1 + 16)) as [Hs|Hs].
  { left. split; [by eexists|]. intros prefix rest Hp ->. unfold len in *. cbn [length] in Hs. rewrite length_app in Hs. lia. }
  destruct blob as [|v blob]; [unfold len in Hs; cbn in Hs; lia|].
  assert (Hi : Machine.index (v :: blob) 0 = Some v) by done. rewrite Hi. cbn [or_panic mbind outcome_mbind].
  case_bool_decide as Hv; cbn [negb]; [|left; split; [by eexists|intros prefix rest _ [= -> _]; done]].
  right. subst v. assert (Hs' : 16 <= len blob) by (unfold len in *; cbn [length] in Hs; lia).
  exists (take 16 blob), (drop 16 blob). split; [unfold len in *; rewrite length_take; lia|]. split; [by rewrite take_drop|].
  rewrite slice_some by (unfold len in *; cbn [length]; lia). cbn [or_panic mbind outcome_mbind].
  change (Z.to_nat 1) with 1%nat. change (Z.to_nat (17 - 1)) with 16%nat. cbn [drop]. by rewrite drop_0.
Qed.

Lemma decrypt_file_total blob : decrypt_file c blob <> Panic.
Proof.
  destruct (decrypt_file_cases blob) as [[(e & ->) _]|(prefix & rest & _ & Hb & ->)]; [done|]. apply decrypt_chunks_total.
  subst blob. cbn [length]. rewrite length_app. lia.
Qed.

Lemma decrypt_file_encoded prefix chunks : len prefix = 16 -> Forall (fun ch => len ch < 2 ^ 32) chunks ->
  decrypt_file c (spool_file c prefix chunks) = Ret (concat chunks).
Proof.
  intros Hp Hc. destruct (decrypt_file_cases (spool_file c prefix chunks)) as [[_ H]|(prefix' & rest & Hp' & E & ->)].
  { by destruct (H prefix (chunks_bytes c prefix 0 chunks) Hp). }
  unfold spool_file in E. injection E as E. apply app_inj_1 in E as [<- <-]; [|unfold len in *; lia].
  rewrite decrypt_chunks_encoded; [done|done|]. unfold spool_file. cbn [length]. rewrite length_app. lia.
Qed.

(** A spool file decrypts exactly when the reader could have written it: it is
    the version byte, a prefix and one authenticated ciphertext per chunk, each
    under its own position; it then decrypts to the chunks in order.  A
    truncated, reordered or altered file, and one of another version, is
    refused; nothing panics. *)
Theorem decrypt_file_spec blob :
  decrypt_file c blob <> Panic /\
  forall p, decrypt_file c blob = Ret p <->
    exists prefix chunks, len prefix = 16 /\ Forall (fun ch => len ch < 2 ^ 32) chunks /\
      blob = spool_file c prefix chunks /\ p = concat chunks.
Proof.
  split; [apply decrypt_file_total|]. intros p. split.
  - intros Hd. destruct (decrypt_file_cases blob) as [[(e & E) _]|(prefix & rest & Hp & -> & E)]; rewrite E in Hd; [done|].
    apply decrypt_chunks_inv in Hd as (chunks & -> & -> & Hc). by exists prefix, chunks.
  - intros (prefix & chunks & Hp & Hc & -> & ->). by apply decrypt_file_encoded.
Qed.
End format.

(** ** The stable reader *)

(** The chunks read up to the end of the file; [None] when a read failed. *)
Fixpoint chunks_read (reads : list (IoError + bytes)) : option (list bytes) :=
  match reads with
  | [] => Some []
  | inl _ :: _ => None
  | inr [] :: _ => Some []
  | inr chunk :: reads' => l ← chunks_read reads'; Some (chunk :: l)
  end.

Section reader.
  Context {SHA : Sha256} {HEX : HexCodec} {UD : UuidDisplay}.
  Context (spool_dir : string) (max_artifact_bytes spool_free_bytes : Z) (cipher : option SpoolCipher).

(** [m] writes nowhere but at [path], and always returns. *)
Definition only_at {A} (path : string) (m : Op Spool A) : Prop := forall s,
  is_ret (fst (m s)) = true /\ base.delete path (sp_files (snd (m s))) = base.delete path (sp_files s).

Lemma only_at_mret {A} path (a : A) : only_at path (mret a).
Proof. done. Qed.

Lemma only_at_bind {A B} path (m : Op Spool A) (f : A -> Op Spool B) : only_at path m -> (forall a, only_at path (f a)) -> only_at path (m ≫= f).
Proof.
  intros Hm Hf s. unfold mbind, op_mbind. destruct (Hm s) as [H1 H2]. destruct (m s) as [[a|e|] s1]; [|done..].
  destruct (Hf a s1) as [H3 H4]. split; [done|]. by rewrite H4.
Qed.

Lemma only_at_remove path : only_at path (remove_spool path).
Proof. intros s. split; [done|]. cbn. by rewrite delete_delete_eq. Qed.

Lemma only_at_write a k path b : only_at path (write_spool a k path b).
Proof. intros s. unfold write_spool. destruct (at_write a k); [done|]. cbn. by rewrite delete_alter_eq. Qed.

Lemma only_at_write_all a path parts : forall k, only_at path (write_all a k path parts).
Proof.
  induction parts as [|b parts IH]; intros k; cbn [write_all]; [apply only_at_mret|].
  apply only_at_bind; [apply only_at_write|]. intros [e|u]; [apply only_at_mret|apply IH].
Qed.

Lemma only_at_copy a path prefix reads : forall k index plain, only_at path (copy_loop max_artifact_bytes cipher a path prefix reads k index plain).
Proof.
  induction reads as [|[e|[|x ch]] reads IH]; intros k index plain; cbn [copy_loop]; try apply only_at_mret.
  destruct (_ <? _); [apply only_at_mret|]. apply only_at_bind; [apply only_at_write_all|]. intros [e|k']; [apply only_at_mret|apply IH].
Qed.

(** A write that succeeds appends all its parts. *)
Lemma write_all_appends a path parts : forall k s k' s',
  write_all a k path parts s = (Ret (inr k'), s') -> sp_files s' !! path = (fun old => old ++ concat parts) <$> (sp_files s !! path).
Proof.
  induction parts as [|b parts IH]; intros k s k' s'; cbn [write_all].
  - intros [= <- <-]. cbn. destruct (sp_files s !! path); cbn; by rewrite ?app_nil_r.
  - unfold mbind at 1, op_mbind at 1, write_spool. destruct (at_write a k); [done|]. intros E. apply IH in E. rewrite E.
    cbn [sp_files set_files]. rewrite lookup_alter_eq. destruct (sp_files s !! path); cbn; by rewrite <- ?app_assoc.
Qed.

(** What is stored for the chunks read. *)
Fixpoint stored_chunks (prefix : bytes) (index : Z) (chunks : list bytes) : bytes :=
  match chunks with
  | [] => []
  | ch :: l => concat (chunk_writes cipher prefix index ch) ++ stored_chunks prefix (index + 1) l
  end.

Lemma copy_loop_spec a path prefix reads : forall k index plain s p s',
  copy_loop max_artifact_bytes cipher a path prefix reads k index plain s = (Ret (inr p), s') ->
  exists chunks, chunks_read reads = Some chunks /\ p = plain ++ concat chunks /\ (chunks <> [] -> len p <= max_artifact_bytes) /\
    sp_files s' !! path = (fun old => old ++ stored_chunks prefix index chunks) <$> (sp_files s !! path).
Proof.
  induction reads as [|[e|[|x ch]] reads IH]; intros k index plain s p s'; cbn [copy_loop chunks_read].
  - intros [= <- <-]. exists []. cbn. rewrite app_nil_r. split; [done|]. split; [done|]. split; [done|].
    destruct (sp_files s !! path); cbn; by rewrite ?app_nil_r.
  - intros [=].
  - intros [= <- <-]. exists []. cbn. rewrite app_nil_r. split; [done|]. split; [done|]. split; [done|].
    destruct (sp_files s !! path); cbn; by rewrite ?app_nil_r.
  - cbv zeta. destruct (Z.ltb_spec max_artifact_bytes (len (plain ++ x :: ch))) as [|Hm]; [discriminate|]. intros E.
    apply bind_ret in E as ([e|k'] & s1 & E1 & E2); [by injection E2|]. apply write_all_appends in E1.
    apply IH in E2 as (chunks & -> & -> & Hlen & E2). exists ((x :: ch) :: chunks). split; [done|].
    split; [cbn [concat]; by rewrite <- !app_assoc|]. split.
    + intros _. destruct chunks as [|c2 chunks]; [cbn [concat]; by rewrite app_nil_r|]. by apply Hlen.
    + rewrite E2, E1. cbn [stored_chunks]. destruct (sp_files s !! path); cbn [fmap option_fmap option_map]; [|done]. by rewrite <- app_assoc.
Qed.

(** What the spool file of an accepted read holds. *)
Definition spooled (prefix : bytes) (chunks : list bytes) : bytes := concat (header cipher prefix) ++ stored_chunks prefix 0 chunks.

(** The attempt that was accepted: the file opened, its identity was the same
    before and after, and [chunks] are all its bytes. *)
Record accepted (a : Attempt) (key : FileKey) (chunks : list bytes) : Prop := {
  ac_open : at_open a = None;
  ac_before : at_before a = inr key;
  ac_after : at_after a = inr key;
  ac_chunks : chunks_read (at_reads a) = Some chunks;
  ac_size : fk_size key = len (concat chunks) }.

(** One attempt: it is accepted, and its file alone is added to the spool; or
    it reports an error and, unless it is the second stat that failed, leaves
    the spool as it was. *)
Lemma read_once_spec a s :
  exists r s', read_once spool_dir max_artifact_bytes spool_free_bytes cipher a s = (Ret r, s') /\
  match r with
  | inr res => exists key chunks prefix, accepted a key chunks /\ fk_size key <= max_artifact_bytes /\ fk_size key <= spool_free_bytes /\
      sr_sha256 res = sha256_hex (concat chunks) /\ sr_size res = fk_size key /\
      sp_files s !! sr_spool_path res = None /\ sp_files s' = <[sr_spool_path res := spooled prefix chunks]> (sp_files s) /\
      prefix = sp_prefixes s (sp_next s)
  | inl e => e = ChangedDuringRead \/ (forall e, at_after a <> inl e) -> sp_files s' = sp_files s
  end.
Proof.
  unfold read_once. destruct (at_open a) as [e|] eqn:Eo; [by do 2 eexists|].
  destruct (at_before a) as [e|key] eqn:Eb; [by do 2 eexists|].
  destruct (Z.ltb_spec max_artifact_bytes (fk_size key)) as [|Hmax]; [by do 2 eexists|].
  destruct (Z.ltb_spec spool_free_bytes (fk_size key)) as [|Hfree]; [by do 2 eexists|].
  erewrite bind_run; [|reflexivity]. cbn [fst snd].
  set (path := spool_dir +:+ _). set (prefix := sp_prefixes s (sp_next s)).
  set (s0 := mkSpool (sp_files s) (sp_uuids s) (sp_prefixes s) (S (sp_next s))). unfold create_spool_file.
  destruct (at_create a) as [e|]; [by do 2 eexists|]. change (sp_files s0) with (sp_files s).
  destruct (sp_files s !! path) as [b|] eqn:Ep; [erewrite bind_run; [|cbn; rewrite Ep; reflexivity]; by do 2 eexists|].
  erewrite bind_run; [|cbn; rewrite Ep; reflexivity]. set (s1 := set_files _ s0).
  assert (Hclean : forall s2 : Spool, base.delete path (sp_files s2) = base.delete path (sp_files s1) -> base.delete path (sp_files s2) = sp_files s).
  { intros s2 ->. unfold s1. cbn [sp_files set_files]. change (sp_files s0) with (sp_files s). by rewrite delete_insert_id. }
  unfold read_into. pose proof (only_at_write_all a path (header cipher prefix) 0 s1) as [Hr Hd].
  destruct (write_all a 0 path (header cipher prefix) s1) as [[h| |] s2] eqn:Ew; [|done..]. rewrite (bind_run _ _ _ _ _ Ew). cbn [snd] in Hd.
  assert (Hrem : forall s3 (e : StableReadError), base.delete path (sp_files s3) = base.delete path (sp_files s1) ->
    exists r s', (remove_spool path ;; mret (inl e : StableReadError + StableReadResult)) s3 = (Ret r, s') /\
      match r with inr res => False | inl _ => sp_files s' = sp_files s end).
  { intros s3 e H3. exists (inl e), (set_files (base.delete path (sp_files s3)) s3). split; [reflexivity|]. by apply Hclean. }
  destruct h as [e|k].
  { destruct (Hrem s2 e Hd) as ([e'|] & s' & E & H); [|done]. do 2 eexists. split; [exact E|]. intros _. exact H. }
  pose proof (only_at_copy a path prefix (at_reads a) k 0 [] s2) as [Hr2 Hd2].
  destruct (copy_loop _ _ _ _ _ _ _ _ _ s2) as [[copied| |] s3] eqn:Ec; [|done..]. rewrite (bind_run _ _ _ _ _ Ec). cbn [snd] in Hd2.
  rewrite Hd in Hd2. destruct copied as [e|plain].
  { destruct (Hrem s3 e Hd2) as ([e'|] & s' & E & H); [|done]. do 2 eexists. split; [exact E|]. intros _. exact H. }
  apply copy_loop_spec in Ec as (chunks & Hch & -> & _ & Hf3). cbn [app] in *. apply write_all_appends in Ew.
  destruct (Z.eqb_spec (len (concat chunks)) (fk_size key)) as [Hsz|Hsz]; cbn [negb].
  2: { destruct (Hrem s3 ChangedDuringRead Hd2) as ([e'|] & s' & E & H); [|done]. do 2 eexists. split; [exact E|]. intros _. exact H. }
  destruct (at_after a) as [e|after] eqn:Ea.
  { do 2 eexists. split; [reflexivity|]. intros [H|H]; [by destruct e|by destruct (H e)]. }
  case_bool_decide as Hk; cbn [negb].
  2: { destruct (Hrem s3 ChangedDuringRead Hd2) as ([e'|] & s' & E & H); [|done]. do 2 eexists. split; [exact E|]. intros _. exact H. }
  subst after. do 2 eexists. split; [reflexivity|]. cbn [sr_sha256 sr_size sr_spool_path]. exists key, chunks, prefix.
  split; [by constructor|]. do 5 (split; [done|]). split; [|done].
  apply map_eq. intros o. destruct (decide (o = path)) as [->|Hne].
  - rewrite lookup_insert_eq, Hf3, Ew. unfold s1. cbn [sp_files set_files]. by rewrite lookup_insert_eq.
  - rewrite lookup_insert_ne by done. rewrite <- (lookup_delete_ne (sp_files s3) path o) by done. by rewrite Hclean.
Qed.

(** Reading a spool file back ([capture.rs]). *)
Definition unspool (raw : bytes) : outcome bytes := match cipher with Some c => decrypt_file c raw | None => Ret raw end.

(** The reads are at most the buffer of 64 KiB. *)
Definition bounded_reads (a : Attempt) : Prop :=
  Forall (fun r => match r with inr b => len b <= 64 * 1024 | inl _ => True end) (at_reads a).

Lemma chunks_read_bounded reads chunks : Forall (fun r : IoError + bytes => match r with inr b => len b <= 64 * 1024 | inl _ => True end) reads ->
  chunks_read reads = Some chunks -> Forall (fun ch => len ch < 2 ^ 32) chunks.
Proof.
  intros Hb. revert chunks. induction Hb as [|[e|[|x ch]] reads Hr _ IH]; intros chunks; cbn [chunks_read].
  - intros [= <-]. constructor.
  - done.
  - intros [= <-]. constructor.
  - destruct (chunks_read reads) as [l|]; [|done]. intros [= <-]. constructor; [lia|by apply IH].
Qed.

Lemma spooled_encrypted c prefix chunks : cipher = Some c -> spooled prefix chunks = spool_file c prefix chunks.
Proof.
  intros Hc. unfold spooled, spool_file, header. rewrite Hc. cbn [concat app]. rewrite app_nil_r. f_equal. f_equal.
  generalize 0. induction chunks as [|ch chunks IH]; intros i; [done|]. cbn [stored_chunks chunks_bytes]. rewrite IH. f_equal.
  unfold chunk_writes, chunk_bytes. rewrite Hc. cbn [concat]. by rewrite app_nil_r.
Qed.

Lemma spooled_plain prefix chunks : cipher = None -> spooled prefix chunks = concat chunks.
Proof.
  intros Hc. unfold spooled, header. rewrite Hc. cbn [concat app].
  generalize 0. induction chunks as [|ch chunks IH]; intros i; [done|]. cbn [stored_chunks concat]. rewrite IH.
  unfold chunk_writes. rewrite Hc. cbn [concat]. by rewrite app_nil_r.
Qed.

(** The outcome of an accepted attempt. *)
Definition success (a : Attempt) (before after : gmap string bytes) (res : StableReadResult) : Prop :=
  exists key chunks stored_bytes,
    accepted a key chunks /\ len (concat chunks) <= max_artifact_bytes /\ len (concat chunks) <= spool_free_bytes /\
    sr_sha256 res = sha256_hex (concat chunks) /\ sr_size res = len (concat chunks) /\
    before !! sr_spool_path res = None /\ after = <[sr_spool_path res := stored_bytes]> before /\
    unspool stored_bytes = Ret (concat chunks).

Lemma read_once_success a s : (forall c, cipher = Some c -> CipherLaws c) -> (forall n, len (sp_prefixes s n) = 16) -> bounded_reads a ->
  exists r s', read_once spool_dir max_artifact_bytes spool_free_bytes cipher a s = (Ret r, s') /\
  match r with
  | inr res => success a (sp_files s) (sp_files s') res
  | inl e => e = ChangedDuringRead \/ (forall e, at_after a <> inl e) -> sp_files s' = sp_files s
  end.
Proof.
  intros Hc Hp Hb. destruct (read_once_spec a s) as (r & s' & E & Hr). exists r, s'. split; [exact E|]. destruct r as [e|res]; [exact Hr|].
  destruct Hr as (key & chunks & prefix & Ha & H1 & H2 & H3 & H4 & H5 & H6 & H7).
  exists key, chunks, (spooled prefix chunks). pose proof (ac_size _ _ _ Ha) as Hsz. rewrite <- Hsz. do 7 (split; [done|]).
  unfold unspool. destruct cipher as [c|] eqn:Ecip; [|by rewrite spooled_plain].
  rewrite (spooled_encrypted c) by done. apply (decrypt_file_encoded c (Hc c eq_refl)); [rewrite H7; apply Hp|].
  eapply chunks_read_bounded; [apply Hb|apply Ha].
Qed.

Lemma frames_prefixes_write a path parts : forall k, frames sp_prefixes (write_all a k path parts).
Proof.
  induction parts as [|b parts IH]; intros k; cbn [write_all]; [done|]. apply frames_bind.
  - intros s. unfold write_spool. by destruct (at_write a k).
  - intros [e|u]; [done|apply IH].
Qed.

Lemma frames_prefixes_copy a path prefix reads : forall k index plain,
  frames sp_prefixes (copy_loop max_artifact_bytes cipher a path prefix reads k index plain).
Proof.
  induction reads as [|[e|[|x ch]] reads IH]; intros k index plain; cbn [copy_loop]; try done.
  destruct (_ <? _); [done|]. apply frames_bind; [apply frames_prefixes_write|]. intros [e|k']; [done|apply IH].
Qed.

Lemma frames_prefixes_read a : frames sp_prefixes (read_once spool_dir max_artifact_bytes spool_free_bytes cipher a).
Proof.
  unfold read_once, read_into. destruct (at_open a); [done|]. destruct (at_before a); [done|]. destruct (_ <? _); [done|]. destruct (_ <? _); [done|].
  apply frames_bind; [done|]. intros names. apply frames_bind.
  { intros s. unfold create_spool_file. destruct (at_create a); [done|]. by destruct (sp_files s !! _). }
  intros [e|u]; [done|]. apply frames_bind; [apply frames_prefixes_write|]. intros [e|k]; [by apply frames_bind|].
  apply frames_bind; [apply frames_prefixes_copy|]. intros [e|p]; [by apply frames_bind|]. destruct (negb _); [by apply frames_bind|].
  destruct (at_after a); [done|]. destruct (negb _); [by apply frames_bind|done].
Qed.

Lemma stable_read_returns retries : forall env s,
  exists r s', stable_read spool_dir max_artifact_bytes spool_free_bytes cipher retries env s = (Ret r, s').
Proof.
  induction retries as [|retries IH]; intros env s; cbn [stable_read]; destruct (read_once_spec (env 0%nat) s) as (r & s1 & E & _);
    rewrite (bind_run _ _ _ _ _ E); destruct r as [[]|]; first [by do 2 eexists|apply IH].
Qed.

(** C22. A stable read makes at most [retries + 1] attempts and always answers.  A
    success is about one attempt, whatever happened to the file before and
    since: the file had one identity before and after it was read, of the size
    that was read; the digest and the size are those of its bytes, within both
    limits; and exactly one file was added to the spool, from which those bytes
    read back.  A failure is the last attempt's, after a change only when no
    retry is left, and leaves the spool as it was unless a second stat failed. *)
Theorem stable_read_spec retries : (forall c, cipher = Some c -> CipherLaws c) -> forall env s,
  (forall n, len (sp_prefixes s n) = 16) -> (forall k, bounded_reads (env k)) ->
  exists r s' k, stable_read spool_dir max_artifact_bytes spool_free_bytes cipher retries env s = (Ret r, s') /\ (k <= retries)%nat /\
  match r with
  | inr res => success (env k) (sp_files s) (sp_files s') res
  | inl e => (e = ChangedDuringRead -> k = retries) /\
      ((forall j e, at_after (env j) <> inl e) -> sp_files s' = sp_files s)
  end.
Proof.
  intros Hc. induction retries as [|retries IH]; intros env s Hp Hb; cbn [stable_read];
    destruct (read_once_success (env 0%nat) s Hc Hp (Hb 0%nat)) as (r & s1 & E & Hr); rewrite (bind_run _ _ _ _ _ E).
  { exists r, s1, 0%nat. split; [by destruct r as [[]|]|]. split; [done|]. destruct r as [e|res]; [|done].
    split; [done|]. intros H. apply Hr. by right. }
  assert (Hlast : forall e, r = inl e -> e <> ChangedDuringRead ->
    exists r' s' k, (mret (inl e) : Op Spool (StableReadError + StableReadResult)) s1 = (Ret r', s') /\ (k <= S retries)%nat /\
    match r' with
    | inr res => success (env k) (sp_files s) (sp_files s') res
    | inl e => (e = ChangedDuringRead -> k = S retries) /\ ((forall j e, at_after (env j) <> inl e) -> sp_files s' = sp_files s)
    end).
  { intros e -> He. exists (inl e), s1, 0%nat. split; [done|]. split; [lia|]. split; [done|]. intros H. apply Hr. by right. }
  destruct r as [e|res].
  2: { exists (inr res), s1, 0%nat. split; [done|]. split; [lia|exact Hr]. }
  destruct e; try by apply Hlast. clear Hlast. assert (Hs : sp_files s1 = sp_files s) by (apply Hr; by left).
  destruct (IH (fun k => env (S k)) s1) as (r & s' & k & E' & Hk & H).
  - intros n. pose proof (frames_prefixes_read (env 0%nat) s) as Hf. rewrite E in Hf. cbn [snd] in Hf. by rewrite Hf.
  - intros k. apply Hb.
  - exists r, s', (S k). split; [exact E'|]. split; [lia|]. rewrite Hs in H. destruct r as [e|res]; [|exact H].
    destruct H as [H1 H2]. split; [intros He; f_equal; by apply H1|]. intros Ha. apply H2. intros j. apply Ha.
Qed.
End reader.

(** ** A reference cipher *)

(** The text, sealed with 16 bytes of the nonce. *)
Module ReferenceCipher.

Definition tag (nonce : bytes) : bytes := take 16 (nonce ++ repeat x00 16).

Definition cipher : SpoolCipher := mkSpoolCipher
  (fun n p => p ++ tag n)
  (fun n ct => let k := (length ct - 16)%nat in
    if (16 <=? length ct)%nat && bool_decide (drop k ct = tag n) then Some (take k ct) else None).

Lemma tag_length n : length (tag n) = 16%nat.
Proof. unfold tag. rewrite length_take, length_app, repeat_length. lia. Qed.

Lemma laws : CipherLaws cipher.
Proof.
  constructor; cbn [aead_encrypt aead_decrypt cipher].
  - intros n p. rewrite len_app. unfold len. rewrite tag_length. lia.
  - intros n p. rewrite length_app, tag_length. replace (length p + 16 - 16)%nat with (length p) by lia.
    rewrite take_app_length, drop_app_length, bool_decide_eq_true_2, (proj2 (Nat.leb_le _ _)) by (done || lia). done.
  - intros n ct p. destruct (_ && _) eqn:E; [|done]. apply andb_true_iff in E as [_ E]. apply bool_decide_eq_true_1 in E.
    intros [= <-]. rewrite <- E. by rewrite take_drop.
Qed.
End ReferenceCipher.

(** ** Witnesses *)

Section witnesses.
Local Existing Instance ReferenceHash.sha.
Local Existing Instance ReferenceHash.hex.
Local Existing Instance ReferenceUuid.display.

Definition sample_prefix : bytes := repeat x07 16.

Lemma decrypt_file_spec_witness :
  decrypt_file ReferenceCipher.cipher (spool_file ReferenceCipher.cipher sample_prefix [[x61; x62]; [x63]]) = Ret [x61; x62; x63].
Proof.
  apply (proj2 (decrypt_file_spec ReferenceCipher.cipher ReferenceCipher.laws _)).
  exists sample_prefix, [[x61; x62]; [x63]]. split; [done|]. split; [by repeat constructor|]. by split.
Defined.

Definition sample_key : FileKey := mkFileKey 1 2 3 0 0.
Definition sample_spool : Spool := mkSpool ∅ (fun n => N.of_nat n) (fun _ => sample_prefix) 0.

(** A first attempt during which the file changed, then a quiet one. *)
Definition sample_env (k : nat) : Attempt :=
  mkAttempt None (inr sample_key) None [inr [x61; x62]; inr [x63]; inr []] (fun _ => None)
    (inr (if (k =? 0)%nat then mkFileKey 1 2 3 9 9 else sample_key)).

Lemma sample_bounded k : bounded_reads (sample_env k).
Proof. unfold bounded_reads. cbn. repeat constructor; unfold len; cbn; lia. Qed.

Lemma stable_read_spec_witness :
  exists res s', stable_read "spool" 100 100 (Some ReferenceCipher.cipher) 3 sample_env sample_spool = (Ret (inr res), s') /\
    sr_sha256 res = sha256_hex [x61; x62; x63].
Proof.
  destruct (stable_read_spec "spool" 100 100 (Some ReferenceCipher.cipher) 3) with (env := sample_env) (s := sample_spool)
    as (r & s' & k & E & Hk & H).
  - intros c [= <-]. exact ReferenceCipher.laws.
  - intros n. reflexivity.
  - exact sample_bounded.
  - assert (Er : fst (stable_read "spool" 100 100 (Some ReferenceCipher.cipher) 3 sample_env sample_spool) = Ret r) by (by rewrite E).
    destruct r as [e|res]; [vm_compute in Er; discriminate Er|]. exists res, s'. split; [exact E|].
    destruct H as (key & chunks & stored & Ha & _ & _ & Hs & _). rewrite Hs. destruct Ha as [_ _ _ Hch _].
    change (chunks_read [inr [x61; x62]; inr [x63]; inr []] = Some chunks) in Hch. injection Hch as <-. reflexivity.
Defined.

(** When the second stat fails, the file copied so far stays in the spool,
    though no result names it. *)
Theorem stable_read_leaves_file :
  exists a s', read_once "spool" 100 100 None a sample_spool = (Ret (inl (StableIo "stat")), s') /\ sp_files s' <> sp_files sample_spool.
Proof.
  exists (mkAttempt None (inr sample_key) None [inr [x61; x62; x63]; inr []] (fun _ => None) (inl (IoOther "stat"))).
  eexists. split; [reflexivity|]. intros E. apply (f_equal (fun m => m !! ("spool/spool-" +:+ uuid_to_string 0%N))) in E.
  vm_compute in E. discriminate E.
Qed.
End witnesses.
