(* ===== verification/Sensors.v ===== *)
(** * The agent's sensors ([corpus-agent/src/sensors/usn.rs], [rdcw_parse.rs],
    [config.rs], [baseline.rs])

    The parsers of the kernel's change records, the recovery decision after
    downtime, path exclusion, and the walks that feed the capture queue. *)

From S2P Require Import Prelude Machine Text Decimal AgentState.
From Stdlib Require Import Strings.Byte Strings.Ascii.

Open Scope Z_scope.

(** ** UTF-16 *)

(** The UTF-8 bytes of a code point. *)
Definition utf8_encode (c : Z) : bytes :=
  if c <? 0x80 then [byte_of_Z c]
  else if c <? 0x800 then [byte_of_Z (0xC0 + c / 64); byte_of_Z (0x80 + c mod 64)]
  else if c <? 0x10000 then [byte_of_Z (0xE0 + c / 4096); byte_of_Z (0x80 + c / 64 mod 64); byte_of_Z (0x80 + c mod 64)]
  else [byte_of_Z (0xF0 + c / 262144); byte_of_Z (0x80 + c / 4096 mod 64); byte_of_Z (0x80 + c / 64 mod 64); byte_of_Z (0x80 + c mod 64)].

Definition is_surrogate (u : Z) : bool := (0xD800 <=? u) && (u <=? 0xDFFF).
Definition is_low_surrogate (u : Z) : bool := (0xDC00 <=? u) && (u <=? 0xDFFF).

(** [char::decode_utf16]: a surrogate without its partner is U+FFFD. *)
Fixpoint decode_utf16 (units : list Z) : list Z :=
  match units with
  | [] => []
  | u :: rest =>
      if negb (is_surrogate u) then u :: decode_utf16 rest
      else if 0xDC00 <=? u then 0xFFFD :: decode_utf16 rest
      else
        match rest with
        | v :: rest' =>
            if is_low_surrogate v then (0x10000 + (u - 0xD800) * 1024 + (v - 0xDC00)) :: decode_utf16 rest'
            else 0xFFFD :: decode_utf16 rest
        | [] => [0xFFFD]
        end
  end.

Definition from_utf16_lossy (units : list Z) : string := bytes_str (flat_map utf8_encode (decode_utf16 units)).

(** [chunks_exact(2)], read little-endian. *)
Fixpoint u16_units (b : bytes) : list Z :=
  match b with
  | x :: y :: b' => from_le [x; y] :: u16_units b'
  | _ => []
  end.

(** ** usn.rs *)

Record UsnRecord := mkUsnRecord {
  ur_usn : Z; ur_file_reference : Z; ur_parent_reference : Z; ur_reason : Z; ur_file_name : string }.

Record JournalInfo := mkJournalInfo { ji_journal_id : Z; ji_first_usn : Z; ji_next_usn : Z }.

(** [from_le_bytes(buf[i..j].try_into().unwrap())], [i64] for the signed one. *)
Definition le_u (buf : bytes) (i j : Z) : outcome Z := b ← or_panic (slice buf i j); mret (from_le b).
Definition le_i64 (buf : bytes) (i : Z) : outcome Z := b ← or_panic (slice buf i (i + 8)); mret (signed 64 (from_le b)).

Definition parse_journal_data (buf : bytes) : outcome (option JournalInfo) :=
  if len buf <? 24 then mret None
  else
    id ← le_u buf 0 8;
    first ← le_i64 buf 8;
    next ← le_i64 buf 16;
    mret (Some (mkJournalInfo id first next)).

Inductive ResumePlan : Type :=
  | Initialize (journal_id next_usn : Z)
  | Resume (journal_id start_usn : Z)
  | Reconcile (journal_id next_usn : Z).

Definition plan_resume (cursor : option (Z * Z)) (journal : JournalInfo) : ResumePlan :=
  match cursor with
  | None => Initialize (ji_journal_id journal) (ji_next_usn journal)
  | Some (id, usn) =>
      if (id =? ji_journal_id journal) && (ji_first_usn journal <=? usn) && (usn <=? ji_next_usn journal)
      then Resume id usn
      else Reconcile (ji_journal_id journal) (ji_next_usn journal)
  end.

(** One record at [offset], of which [record_len] bytes are in the buffer. *)
Definition usn_record (buf : bytes) (offset record_len : Z) : outcome (list UsnRecord) :=
  file_reference ← le_u buf (offset + 8) (offset + 16);
  parent_reference ← le_u buf (offset + 16) (offset + 24);
  usn ← le_i64 buf (offset + 24);
  reason ← le_u buf (offset + 40) (offset + 44);
  name_len ← le_u buf (offset + 56) (offset + 58);
  name_off ← le_u buf (offset + 58) (offset + 60);
  if name_off + name_len <=? record_len then
    wide ← or_panic (slice buf (offset + name_off) (offset + name_off + name_len));
    mret [mkUsnRecord usn file_reference parent_reference reason (from_utf16_lossy (u16_units wide))]
  else mret [].

(** The loop; a turn consumes at least 60 bytes. *)
Fixpoint usn_loop (fuel : nat) (buf : bytes) (offset : Z) (out : list UsnRecord) : outcome (list UsnRecord) :=
  match fuel with
  | O => Panic
  | S fuel' =>
      if offset + 60 <=? len buf then
        record_len ← le_u buf offset (offset + 4);
        if (record_len <? 60) || (len buf <? offset + record_len) then mret out
        else
          major ← le_u buf (offset + 4) (offset + 6);
          if negb (major =? 2) then mret out
          else
            r ← usn_record buf offset record_len;
            usn_loop fuel' buf (offset + record_len) (out ++ r)
      else mret out
  end.

Definition parse_usn_records (buf : bytes) : outcome (list UsnRecord) := usn_loop (S (length buf)) buf 0 [].

(** *** Recovery after downtime *)

Inductive DowntimeStatus : Type := Unavailable | NoChanges | Changes | ReconcileRequired.

(** [info] is the answer of [query_journal], [read] that of [read_journal]; a
    cursor that cannot be persisted is only logged. *)
Definition check_downtime_changes (volume : string) (info : option JournalInfo) (read : Z -> Z -> option (Z * list UsnRecord)) :
    Op StateDb DowntimeStatus :=
  match info with
  | None => mret Unavailable
  | Some info =>
      r ← attempt (get_usn_cursor volume);
      let cursor := match r with inr c => c | inl _ => None end in
      match plan_resume cursor info with
      | Initialize journal_id next_usn => _ ← attempt (set_usn_cursor volume journal_id next_usn); mret NoChanges
      | Resume journal_id start_usn =>
          if ji_next_usn info <=? start_usn then mret NoChanges
          else
            match read journal_id start_usn with
            | Some (next_usn, records) =>
                _ ← attempt (set_usn_cursor volume journal_id next_usn);
                mret (match records with [] => NoChanges | _ => Changes end)
            | None => mret Unavailable
            end
      | Reconcile journal_id next_usn => _ ← attempt (set_usn_cursor volume journal_id next_usn); mret ReconcileRequired
      end
  end.

(** ** rdcw_parse.rs *)

Record NotifyRecord := mkNotifyRecord { nr_action : Z; nr_file_name : string }.

Definition HEADER_LEN : Z := 12.

(** The loop; a turn that goes on consumes at least 12 bytes. *)
Fixpoint notify_loop (fuel : nat) (buf : bytes) (offset : Z) (out : list NotifyRecord) : outcome (list NotifyRecord) :=
  match fuel with
  | O => Panic
  | S fuel' =>
      if HEADER_LEN <=? len buf - offset then
        next ← le_u buf offset (offset + 4);
        action ← le_u buf (offset + 4) (offset + 8);
        name_len ← le_u buf (offset + 8) (offset + 12);
        if negb (name_len mod 2 =? 0) || (len buf - offset - HEADER_LEN <? name_len) then mret out
        else if negb (next =? 0) && ((next <? HEADER_LEN + name_len) || (len buf - offset <? next)) then mret out
        else
          wide ← or_panic (slice buf (offset + HEADER_LEN) (offset + HEADER_LEN + name_len));
          let out := out ++ [mkNotifyRecord action (from_utf16_lossy (u16_units wide))] in
          if next =? 0 then mret out else notify_loop fuel' buf (offset + next) out
      else mret out
  end.

Definition parse_notify_records (buf : bytes) : outcome (list NotifyRecord) := notify_loop (S (length buf)) buf 0 [].

(** ** config.rs: exclusions *)

Definition matches_exclusion (patterns : list string) (path : string) : bool :=
  existsb (fun pat =>
    match strip_prefix_char "*" pat with
    | Some suffix => str_ends_with suffix path
    | None =>
        match strip_suffix_char "*" pat with
        | Some prefix => str_starts_with prefix path
        | None => str_contains pat path
        end
    end) patterns.

(** ** baseline.rs *)

(** A file found by a walk: whether it is a regular file, its path, and its
    identity when its metadata can be read. *)
Record WalkEntry := mkWalkEntry { we_is_file : bool; we_path : string; we_stat : option (Z * Z * Z) }.

Definition enqueue_tree (entries : list WalkEntry) (exclusions : list string) (prio : Z) (reason : string) (debounce_ms : Z) :
    Thread StateDb Z :=
  thread_fold entries 0 (fun n e =>
    if negb (we_is_file e) || matches_exclusion exclusions (we_path e) then mret n
    else
      r ← call (enqueue (we_path e) prio reason debounce_ms);
      mret (match r with Some _ => n + 1 | None => n end)).

Record BaselineReport := mkBaselineReport { bl_dirs_completed : Z; bl_dirs_total : Z; bl_candidates_enqueued : Z }.

(** The top-level entries of the roots in sorted order, each with its tree;
    [None] stops nothing, [Some n] stops the walk after [n] directories.  The walk
    is a thread beside the capture worker and the sensors: each call on the
    database is a step of its own. *)
Fixpoint baseline_loop (entries : list (string * list WalkEntry)) (exclusions : list string) (debounce_ms : Z) (stop : option Z)
    (r : BaselineReport) : Thread StateDb (bool * BaselineReport) :=
  match entries with
  | [] => mret (true, r)
  | (key, tree) :: entries' =>
      let r := mkBaselineReport (bl_dirs_completed r) (bl_dirs_total r + 1) (bl_candidates_enqueued r) in
      done_ ← call (baseline_dir_done key);
      if (done_ : bool) then
        baseline_loop entries' exclusions debounce_ms stop
          (mkBaselineReport (bl_dirs_completed r + 1) (bl_dirs_total r) (bl_candidates_enqueued r))
      else if (match stop with Some limit => limit <=? bl_dirs_completed r | None => false end) then mret (false, r)
      else
        n ← enqueue_tree tree exclusions priority.BASELINE "baseline" debounce_ms;
        call (mark_baseline_dir key true) ;;
        baseline_loop entries' exclusions debounce_ms stop
          (mkBaselineReport (bl_dirs_completed r + 1) (bl_dirs_total r) (bl_candidates_enqueued r + n))
  end.

Definition run_baseline (entries : list (string * list WalkEntry)) (exclusions : list string) (debounce_ms : Z) (stop : option Z) :
    Thread StateDb BaselineReport :=
  x ← baseline_loop entries exclusions debounce_ms stop (mkBaselineReport 0 0 0);
  let '(finished, r) := x in
  if (finished : bool) then
    call (set_identity "baseline_state" (if bl_dirs_completed r =? bl_dirs_total r then "complete" else "incomplete")) ;; mret r
  else mret r.

Definition reconcile_scan (entries : list WalkEntry) (exclusions : list string) (debounce_ms : Z) : Op StateDb Z :=
  op_fold entries 0 (fun n e =>
    if negb (we_is_file e) || matches_exclusion exclusions (we_path e) then mret n
    else
      match we_stat e with
      | None => mret n
      | Some (inode, mtime_secs, size) =>
          changed ← seen_check_and_update (we_path e) inode mtime_secs size;
          if (changed : bool) then
            r ← enqueue (we_path e) priority.RECONCILIATION "reconcile_scan" debounce_ms;
            mret (match r with Some _ => n + 1 | None => n end)
          else mret n
      end).

(** ** Fields of packed records *)

Lemma le_u_ret buf i j : 0 <= i <= j -> j <= len buf -> exists z, le_u buf i j = Ret z /\ 0 <= z < 256 ^ (j - i).
Proof.
  intros Hi Hj. unfold le_u. destruct (slice_is_some buf i j Hi Hj) as (k & -> & Hk). cbn. eexists. split; [done|].
  rewrite <- Hk. apply from_le_range.
Qed.

Lemma le_i64_ret buf i : 0 <= i -> i + 8 <= len buf -> exists z, le_i64 buf i = Ret z.
Proof. intros Hi Hj. unfold le_i64. destruct (slice_is_some buf i (i + 8)) as (k & -> & Hk); [lia..|]. cbn. by eexists. Qed.

(** ** The USN parser *)

Lemma usn_record_total buf offset record_len : 0 <= offset -> 60 <= record_len -> offset + record_len <= len buf ->
  exists r, usn_record buf offset record_len = Ret r /\ (length r <= 1)%nat.
Proof.
  intros Ho Hr Hl. unfold usn_record.
  destruct (le_u_ret buf (offset + 8) (offset + 16)) as (z1 & -> & _); [lia..|]. cbn [mbind outcome_mbind].
  destruct (le_u_ret buf (offset + 16) (offset + 24)) as (z2 & -> & _); [lia..|]. cbn [mbind outcome_mbind].
  destruct (le_i64_ret buf (offset + 24)) as (z3 & ->); [lia..|]. cbn [mbind outcome_mbind].
  destruct (le_u_ret buf (offset + 40) (offset + 44)) as (z4 & -> & _); [lia..|]. cbn [mbind outcome_mbind].
  destruct (le_u_ret buf (offset + 56) (offset + 58)) as (nl & -> & Hnl); [lia..|]. cbn [mbind outcome_mbind].
  destruct (le_u_ret buf (offset + 58) (offset + 60)) as (no & -> & Hno); [lia..|]. cbn [mbind outcome_mbind].
  destruct (Z.leb_spec (no + nl) record_len); [|exists []; cbn; split; [done|lia]].
  destruct (slice_is_some buf (offset + no) (offset + no + nl)) as (w & -> & _); [lia..|].
  eexists; split; [reflexivity|cbn; lia].
Qed.

Lemma usn_loop_total fuel buf : forall offset out, 0 <= offset -> Z.max 0 (len buf - offset) < Z.of_nat fuel ->
  exists r, usn_loop fuel buf offset out = Ret r /\ 60 * len r <= 60 * len out + Z.max 0 (len buf - offset).
Proof.
  induction fuel as [|fuel IH]; intros offset out Ho Hf; [lia|]. cbn [usn_loop].
  destruct (Z.leb_spec (offset + 60) (len buf)) as [H60|H60]; [|exists out; split; [done|lia]].
  destruct (le_u_ret buf offset (offset + 4)) as (rl & -> & Hrl); [lia..|]. cbn [mbind outcome_mbind].
  destruct (Z.ltb_spec rl 60); cbn [orb]; [exists out; split; [done|lia]|].
  destruct (Z.ltb_spec (len buf) (offset + rl)); [exists out; split; [done|lia]|].
  destruct (le_u_ret buf (offset + 4) (offset + 6)) as (mj & -> & _); [lia..|]. cbn [mbind outcome_mbind].
  destruct (negb (mj =? 2)); [exists out; split; [done|lia]|].
  destruct (usn_record_total buf offset rl) as (r & -> & Hr); [lia..|]. cbn [mbind outcome_mbind].
  destruct (IH (offset + rl) (out ++ r)) as (r' & -> & Hr'); [lia..|]. exists r'. split; [done|].
  rewrite len_app in Hr'. assert (len r <= 1) by (unfold len; lia). lia.
Qed.

(** Any buffer parses: no index is out of range, the loop ends, and there is at
    most one record per 60 bytes. *)
Theorem parse_usn_total buf : exists r, parse_usn_records buf = Ret r /\ 60 * len r <= len buf.
Proof.
  destruct (usn_loop_total (S (length buf)) buf 0 []) as (r & E & Hr); [lia|unfold len; lia|].
  exists r. split; [exact E|]. pose proof (len_nonneg buf). change (len []) with 0 in Hr. lia.
Qed.

(** *** Round trip with the record layout *)

(** What the kernel writes for a version 2 record: the fields the parser reads,
    those it skips ([mid], [tail]), the name's code units and the padding. *)
Record Wire := mkWire {
  w_minor : Z; w_file : Z; w_parent : Z; w_usn : Z; w_time : Z; w_reason : Z; w_mid : bytes; w_units : list Z; w_pad : bytes }.

Definition units_bytes (units : list Z) : bytes := flat_map (to_le 2) units.

Definition wire_len (w : Wire) : Z := 60 + 2 * len (w_units w) + len (w_pad w).

Definition encode_wire (w : Wire) : bytes :=
  to_le 4 (wire_len w) ++ to_le 2 2 ++ to_le 2 (w_minor w) ++ to_le 8 (w_file w) ++ to_le 8 (w_parent w) ++ to_le 8 (w_usn w) ++
  to_le 8 (w_time w) ++ to_le 4 (w_reason w) ++ w_mid w ++ to_le 2 (2 * len (w_units w)) ++ to_le 2 60 ++
  units_bytes (w_units w) ++ w_pad w.

Record wire_ok (w : Wire) : Prop := {
  wk_file : 0 <= w_file w < 2 ^ 64;
  wk_parent : 0 <= w_parent w < 2 ^ 64;
  wk_usn : - 2 ^ 63 <= w_usn w < 2 ^ 63;
  wk_reason : 0 <= w_reason w < 2 ^ 32;
  wk_mid : len (w_mid w) = 12;
  wk_units : forall u, In u (w_units w) -> 0 <= u < 65536;
  wk_name : 2 * len (w_units w) < 65536;
  wk_len : wire_len w < 2 ^ 32 }.

Definition wire_record (w : Wire) : UsnRecord :=
  mkUsnRecord (w_usn w) (w_file w) (w_parent w) (w_reason w) (from_utf16_lossy (w_units w)).

Lemma units_bytes_len units : len (units_bytes units) = 2 * len units.
Proof.
  induction units as [|u units IH]; [done|]. cbn [units_bytes flat_map]. rewrite len_app, len_to_le. fold (units_bytes units).
  rewrite IH. unfold len. cbn [length]. lia.
Qed.

Lemma u16_units_bytes units : (forall u, In u units -> 0 <= u < 65536) -> u16_units (units_bytes units) = units.
Proof.
  induction units as [|u units IH]; intros H; [done|].
  change (from_le (to_le 2 u) :: u16_units (units_bytes units) = u :: units).
  rewrite IH by (intros; apply H; by right). f_equal. rewrite from_to_le. apply Z.mod_small. apply H. by left.
Qed.

Lemma signed_wrap z : - 2 ^ 63 <= z < 2 ^ 63 -> signed 64 (z mod 2 ^ 64) = z.
Proof.
  intros H. unfold signed. destruct (Z.neg_nonneg_cases z) as [Hz|Hz].
  - replace (z mod 2 ^ 64) with (z + 2 ^ 64); [case_match; lia|].
    rewrite <- (Z_mod_plus_full z 1), Z.mod_small; lia.
  - rewrite Z.mod_small by lia. case_match; lia.
Qed.

Lemma le_u_skip a l i j : len a <= i -> le_u (a ++ l) i j = le_u l (i - len a) (j - len a).
Proof. intros H. unfold le_u. by rewrite slice_skip. Qed.

Lemma le_u_here n z l j : j = Z.of_nat n -> 0 <= z < 256 ^ Z.of_nat n -> le_u (to_le n z ++ l) 0 j = Ret z.
Proof. intros -> Hz. unfold le_u. rewrite slice_here by (by rewrite len_to_le). cbn. by rewrite from_to_le, Z.mod_small. Qed.

Lemma le_i64_skip a l i : len a <= i -> le_i64 (a ++ l) i = le_i64 l (i - len a).
Proof. intros H. unfold le_i64. rewrite slice_skip by done. by replace (i + 8 - len a) with (i - len a + 8) by lia. Qed.

Lemma le_i64_here z l : - 2 ^ 63 <= z < 2 ^ 63 -> le_i64 (to_le 8 z ++ l) 0 = Ret z.
Proof. intros Hz. unfold le_i64. rewrite slice_here by (by rewrite len_to_le). cbn [or_panic mbind outcome_mbind mret outcome_mret].
  rewrite from_to_le. change (256 ^ Z.of_nat 8) with (2 ^ 64). by rewrite (signed_wrap z Hz). Qed.

(** Reads the field at the offset, skipping those before it. *)
Ltac wire_field len_mid :=
  repeat (rewrite ?le_u_skip, ?le_i64_skip by (rewrite ?len_to_le; lia));
  rewrite ?len_to_le, ?len_mid;
  lazymatch goal with
  | |- context [le_u (to_le _ _ ++ _) ?i ?j] => replace i with 0 by lia; rewrite le_u_here by lia
  | |- context [le_i64 (to_le _ _ ++ _) ?i] => replace i with 0 by lia; rewrite le_i64_here by lia
  end; cbn [mbind outcome_mbind].

Lemma wire_header w rest pre : wire_ok w ->
  le_u (pre ++ encode_wire w ++ rest) (len pre) (len pre + 4) = Ret (wire_len w) /\
  le_u (pre ++ encode_wire w ++ rest) (len pre + 4) (len pre + 6) = Ret 2.
Proof.
  intros [? ? ? ? Hm ? ? ?]. pose proof (len_nonneg (w_units w)). pose proof (len_nonneg (w_pad w)).
  unfold encode_wire. rewrite <- !app_assoc. split.
  - unfold wire_len in *. wire_field Hm. done.
  - wire_field Hm. done.
Qed.

Lemma wire_body w rest pre : wire_ok w -> usn_record (pre ++ encode_wire w ++ rest) (len pre) (wire_len w) = Ret [wire_record w].
Proof.
  intros [? ? ? ? Hm Hu ? ?]. pose proof (len_nonneg (w_units w)). pose proof (len_nonneg (w_pad w)).
  unfold usn_record, encode_wire. rewrite <- !app_assoc.
  do 6 wire_field Hm.
  rewrite (proj2 (Z.leb_le _ _)) by (unfold wire_len; lia).
  repeat (rewrite slice_skip by (rewrite ?len_to_le; lia)). rewrite ?len_to_le, ?Hm.
  match goal with |- context [slice (_ ++ _) ?i ?j] => replace i with 0 by lia; rewrite (slice_here (units_bytes (w_units w))) by (rewrite units_bytes_len; lia) end.
  cbn. unfold wire_record. by rewrite u16_units_bytes.
Qed.

Lemma encode_wire_len w : wire_ok w -> len (encode_wire w) = wire_len w.
Proof.
  intros [? ? ? ? Hm ? ? ?]. unfold encode_wire, wire_len. rewrite !len_app, !len_to_le, units_bytes_len, Hm. lia.
Qed.

Lemma usn_loop_wire ws tail : forall pre out fuel, Forall wire_ok ws -> len tail < 60 -> (length ws < fuel)%nat ->
  usn_loop fuel (pre ++ flat_map encode_wire ws ++ tail) (len pre) out = Ret (out ++ map wire_record ws).
Proof.
  induction ws as [|w ws IH]; intros pre out [|fuel] Hw Ht Hf; [cbn in Hf; lia| |cbn in Hf; lia|]; cbn [usn_loop flat_map].
  - rewrite app_nil_l, len_app. rewrite (proj2 (Z.leb_gt _ _)) by lia. by rewrite app_nil_r.
  - apply Forall_cons in Hw as [Hw Hws]. pose proof (encode_wire_len w Hw) as Hl.
    rewrite <- app_assoc. destruct (wire_header w (flat_map encode_wire ws ++ tail) pre Hw) as (H1 & H2).
    pose proof (len_nonneg (w_units w)). pose proof (len_nonneg (w_pad w)).
    pose proof (len_nonneg (flat_map encode_wire ws ++ tail)).
    assert (60 <= wire_len w) by (unfold wire_len; lia).
    rewrite (proj2 (Z.leb_le _ _)) by (rewrite !(len_app pre), (len_app (encode_wire w)); lia).
    rewrite H1. cbn [mbind outcome_mbind]. rewrite (proj2 (Z.ltb_ge _ _)) by lia.
    rewrite (proj2 (Z.ltb_ge _ _)) by (rewrite !(len_app pre), (len_app (encode_wire w)); lia). cbn [orb].
    rewrite H2. cbn [mbind outcome_mbind]. change (negb (2 =? 2)) with false. cbn [mbind outcome_mbind].
    rewrite wire_body by done. cbn [mbind outcome_mbind].
    rewrite app_assoc, <- Hl, <- len_app. rewrite IH; [|done|done|cbn in Hf; lia]. by rewrite <- app_assoc.
Qed.

(** The parser reads back every record the layout can hold, in order, whatever
    the fields it skips and the padding hold; a tail shorter than a header is
    ignored. *)
Theorem parse_usn_roundtrip ws tail : Forall wire_ok ws -> len tail < 60 ->
  parse_usn_records (flat_map encode_wire ws ++ tail) = Ret (map wire_record ws).
Proof.
  intros Hw Ht. unfold parse_usn_records. apply (usn_loop_wire ws tail [] []); [done..|].
  rewrite length_app. assert (length ws <= length (flat_map encode_wire ws))%nat; [|lia].
  clear Ht. induction Hw as [|w ws Hw Hws IH]; [done|]. cbn [flat_map length]. rewrite length_app.
  pose proof (encode_wire_len w Hw) as Hl. pose proof (len_nonneg (w_units w)). pose proof (len_nonneg (w_pad w)).
  unfold wire_len, len in *. lia.
Qed.

(** ** The directory-change parser *)

Lemma notify_loop_total fuel buf : forall offset out, 0 <= offset -> Z.max 0 (len buf - offset) < Z.of_nat fuel ->
  exists r, notify_loop fuel buf offset out = Ret r /\ 12 * len r <= 12 * len out + Z.max 0 (len buf - offset).
Proof.
  induction fuel as [|fuel IH]; intros offset out Ho Hf; [lia|]. cbn [notify_loop]. unfold HEADER_LEN.
  destruct (Z.leb_spec 12 (len buf - offset)) as [H12|H12]; [|exists out; split; [done|lia]].
  destruct (le_u_ret buf offset (offset + 4)) as (nx & -> & Hnx); [lia..|]. cbn [mbind outcome_mbind].
  destruct (le_u_ret buf (offset + 4) (offset + 8)) as (ac & -> & _); [lia..|]. cbn [mbind outcome_mbind].
  destruct (le_u_ret buf (offset + 8) (offset + 12)) as (nl & -> & Hnl); [lia..|]. cbn [mbind outcome_mbind].
  destruct (negb (nl mod 2 =? 0)); cbn [orb]; [exists out; split; [done|lia]|].
  destruct (Z.ltb_spec (len buf - offset - 12) nl); [exists out; split; [done|lia]|].
  destruct (slice_is_some buf (offset + 12) (offset + 12 + nl)) as (w & Ew & _); [lia..|].
  destruct (Z.eqb_spec nx 0) as [->|Hne]; cbn [negb andb].
  - rewrite Ew. cbn [or_panic mbind outcome_mbind]. eexists. split; [reflexivity|]. rewrite len_app. change (len [_]) with 1. lia.
  - destruct (Z.ltb_spec nx (12 + nl)); cbn [orb]; [exists out; split; [done|lia]|].
    destruct (Z.ltb_spec (len buf - offset) nx); [exists out; split; [done|lia]|].
    rewrite Ew. cbn [or_panic mbind outcome_mbind].
    destruct (IH (offset + nx) (out ++ [mkNotifyRecord ac (from_utf16_lossy (u16_units w))])) as (r & Er & Hr); [lia..|].
    rewrite Er. exists r. split; [done|]. rewrite len_app in Hr. change (len [_]) with 1 in Hr. lia.
Qed.

(** Any buffer of directory changes parses, with at most one record per 12 bytes. *)
Theorem parse_notify_total buf : exists r, parse_notify_records buf = Ret r /\ 12 * len r <= len buf.
Proof.
  destruct (notify_loop_total (S (length buf)) buf 0 []) as (r & E & Hr); [lia|unfold len; lia|].
  exists r. split; [exact E|]. pose proof (len_nonneg buf). change (len []) with 0 in Hr. lia.
Qed.

(** ** Recovery after downtime *)

Definition saved_cursor (volume : string) (s : StateDb) : option (Z * Z) :=
  match fst (get_usn_cursor volume s) with Ret c => c | _ => None end.

(** The cursor still lies in the journal it was taken from. *)
Definition cursor_valid (info : JournalInfo) (c : Z * Z) : Prop :=
  fst c = ji_journal_id info /\ ji_first_usn info <= snd c <= ji_next_usn info.

Record journal_ok (info : JournalInfo) : Prop := {
  jk_id : 0 <= ji_journal_id info < 2 ^ 64;
  jk_first : - 2 ^ 63 <= ji_first_usn info <= ji_next_usn info;
  jk_next : ji_next_usn info < 2 ^ 63 }.

Lemma attempt_cursor volume s : exists r, attempt (get_usn_cursor volume) s = (Ret r, s) /\
  saved_cursor volume s = match r with inr c => c | inl _ => None end.
Proof.
  destruct (get_cursor_total volume s) as (r & E). exists r. split; [done|]. unfold saved_cursor. unfold attempt in E.
  destruct (get_usn_cursor volume s) as [[c|e|] s0]; [by injection E as <- <-..|discriminate E].
Qed.

Lemma saved_with_cursor volume j n s : 0 <= j < 2 ^ 64 -> - 2 ^ 63 <= n < 2 ^ 63 ->
  saved_cursor volume (with_cursor volume j n s) = Some (j, n).
Proof. intros Hj Hn. unfold saved_cursor. by rewrite get_cursor_set. Qed.

Lemma plan_resume_spec cursor info :
  match plan_resume cursor info with
  | Initialize j n => cursor = None /\ j = ji_journal_id info /\ n = ji_next_usn info
  | Resume j u => cursor = Some (j, u) /\ cursor_valid info (j, u)
  | Reconcile j n => (exists c, cursor = Some c /\ ~ cursor_valid info c) /\ j = ji_journal_id info /\ n = ji_next_usn info
  end.
Proof.
  unfold plan_resume, cursor_valid. destruct cursor as [[i u]|]; [|done]. destruct (_ && _) eqn:E.
  - apply andb_true_iff in E as [[E1%Z.eqb_eq E2%Z.leb_le]%andb_true_iff E3%Z.leb_le]. cbn. auto with lia.
  - split; [|done]. exists (i, u). split; [done|]. cbn. intros (E1 & E2 & E3). subst i.
    rewrite Z.eqb_refl, (proj2 (Z.leb_le _ _) E2), (proj2 (Z.leb_le _ _) E3) in E. done.
Qed.

Lemma check_downtime_run volume info read s : check_downtime_changes volume (Some info) read s =
  match plan_resume (saved_cursor volume s) info with
  | Initialize j n => (Ret NoChanges, with_cursor volume j n s)
  | Resume j u =>
      if ji_next_usn info <=? u then (Ret NoChanges, s)
      else match read j u with
           | Some (n, records) => (Ret (match records with [] => NoChanges | _ => Changes end), with_cursor volume j n s)
           | None => (Ret Unavailable, s)
           end
  | Reconcile j n => (Ret ReconcileRequired, with_cursor volume j n s)
  end.
Proof.
  unfold check_downtime_changes. destruct (attempt_cursor volume s) as (r & E & ->). erewrite bind_run; [|exact E].
  destruct (plan_resume _ info) as [j n|j u|j n]; [reflexivity| |reflexivity].
  destruct (ji_next_usn info <=? u); [reflexivity|]. destruct (read j u) as [[n recs]|]; reflexivity.
Qed.

(** A full reconciliation is asked for exactly when the saved cursor is not in
    the journal any more (recreated, truncated or rolled back), the cursor is
    then anchored at the journal's end, and asking again asks for nothing. With
    no discontinuity, changes are reported exactly when the journal grew and
    reading it returns records, and the cursor moves to where the read ended. *)
Theorem check_downtime_spec volume info read s : journal_ok info ->
  exists st s', check_downtime_changes volume (Some info) read s = (Ret st, s') /\
    (st = ReconcileRequired <-> exists c, saved_cursor volume s = Some c /\ ~ cursor_valid info c) /\
    (st = ReconcileRequired -> saved_cursor volume s' = Some (ji_journal_id info, ji_next_usn info) /\
       check_downtime_changes volume (Some info) read s' = (Ret NoChanges, s')) /\
    (st = Changes <-> exists c n r rs, saved_cursor volume s = Some c /\ cursor_valid info c /\ snd c < ji_next_usn info /\
       read (fst c) (snd c) = Some (n, r :: rs)) /\
    (forall c n rs, saved_cursor volume s = Some c -> cursor_valid info c -> snd c < ji_next_usn info ->
       read (fst c) (snd c) = Some (n, rs) -> - 2 ^ 63 <= n < 2 ^ 63 -> saved_cursor volume s' = Some (fst c, n)).
Proof.
  intros [Hid Hf Hn]. rewrite check_downtime_run. pose proof (plan_resume_spec (saved_cursor volume s) info) as Hp.
  destruct (plan_resume _ info) as [j n|j u|j n] eqn:Ep.
  - destruct Hp as (Hc & -> & ->). do 2 eexists. split; [reflexivity|]. rewrite Hc.
    split; [split; [done|by intros (c & ? & _)]|]. split; [done|]. split; [split; [done|by intros (c & ? & ? & ? & ? & _)]|]. by intros c ? ? ?.
  - destruct Hp as (Hc & Hv). rewrite Hc. destruct (Z.leb_spec (ji_next_usn info) u) as [Hle|Hlt].
    + do 2 eexists. split; [reflexivity|]. split; [split; [done|intros (c & [= <-] & Hnv); done]|]. split; [done|].
      split; [split; [done|]|]; [intros (c & n' & r & rs & [= <-] & _ & Hlt & _)|intros c n' rs [= <-] _ Hlt]; cbn in Hlt; lia.
    + assert (Hj : 0 <= j < 2 ^ 64) by (destruct Hv as [E _]; cbn in E; lia).
      destruct (read j u) as [[n' recs]|] eqn:Er; do 2 eexists; (split; [reflexivity|]).
      * split; [split; [by destruct recs|intros (c & [= <-] & Hnv); done]|]. split; [by destruct recs|].
        split; [split|].
        { destruct recs as [|r rs]; [done|]. intros _. by exists (j, u), n', r, rs. }
        { intros (c & n2 & r & rs & [= <-] & _ & _ & E). cbn in E. rewrite Er in E. by injection E as <- ->. }
        { intros c n2 rs [= <-] _ _ E Hn2. cbn in *. rewrite Er in E. injection E as <- <-. by apply saved_with_cursor. }
      * split; [split; [done|intros (c & [= <-] & Hnv); done]|]. split; [done|].
        split; [split; [done|]|]; [intros (c & n' & r & rs & [= <-] & _ & _ & E)|intros c n' rs [= <-] _ _ E]; cbn in E; congruence.
  - destruct Hp as ((c & Hc & Hnv) & -> & ->). do 2 eexists. split; [reflexivity|]. rewrite Hc.
    split; [split; [intros _; by exists c|done]|]. split.
    + intros _. assert (Hs : saved_cursor volume (with_cursor volume (ji_journal_id info) (ji_next_usn info) s) = Some (ji_journal_id info, ji_next_usn info))
        by (apply saved_with_cursor; lia).
      split; [exact Hs|]. rewrite check_downtime_run, Hs. unfold plan_resume.
      rewrite Z.eqb_refl, (proj2 (Z.leb_le (ji_first_usn info) _)), Z.leb_refl by lia. cbn [andb]. by rewrite Z.leb_refl.
    + split; [split; [done|by intros (c' & ? & ? & ? & [= <-] & ? & _)]|]. by intros c' ? ? [= <-] ?.
Qed.

(** ** The baseline walk *)

Definition wanted (exclusions : list string) (e : WalkEntry) : bool :=
  we_is_file e && negb (matches_exclusion exclusions (we_path e)).

(** *** What a thread keeps, whatever the others do between its calls

    The states passed so far are [past]; [inv] speaks of them and of the present
    state, [calm] is what the others keep of it.  [thread_ok p Q]: at every
    moment from now on the next call of [p] returns and keeps [inv], and when
    [p] has finished [Q] holds and goes on holding. *)
Section threads.
  Context {S : Type} (inv : list S -> S -> Prop) (calm : S -> S -> Prop) {Hcalm : PreOrder calm}.

Definition later (past : list S) (db : S) (past' : list S) (db' : S) : Prop := incl past past' /\ calm db db' /\ inv past' db'.

Lemma later_refl past db : inv past db -> later past db past db.
Proof. intros H. split; [apply incl_refl|]. by split. Qed.

Lemma later_trans past db past1 db1 past' db' : later past db past1 db1 -> later past1 db1 past' db' -> later past db past' db'.
Proof. intros (H1 & H2 & _) (H3 & H4 & H5). split; [by eapply incl_tran|]. split; [by etrans|done]. Qed.

Fixpoint thread_ok {A} (p : Thread S A) (Q : A -> list S -> S -> Prop) (past : list S) (db : S) : Prop :=
  forall past' db', later past db past' db' ->
    match p with
    | Finished a => Q a past' db'
    | Step op k => exists x db2, op db' = (Ret x, db2) /\ inv (db2 :: past') db2 /\ thread_ok (k x) Q (db2 :: past') db2
    end.

Lemma thread_ok_later {A} (p : Thread S A) Q past db past' db' : thread_ok p Q past db -> later past db past' db' -> thread_ok p Q past' db'.
Proof. intros H Hl. destruct p; intros past2 db2 Hl2; apply H; by eapply later_trans. Qed.

Lemma thread_ok_bind {A B} (p : Thread S A) (f : A -> Thread S B) Q : forall past db,
  thread_ok p (fun a past' db' => thread_ok (f a) Q past' db') past db -> thread_ok (p ≫= f) Q past db.
Proof.
  induction p as [a|X op k IH]; intros past db H.
  - change (thread_ok (f a) Q past db). cbn [thread_ok] in H. destruct (f a) eqn:E; intros past' db' Hl;
      apply (H past' db' Hl past' db'), later_refl, Hl.
  - intros past' db' Hl. destruct (H past' db' Hl) as (x & db2 & E & Hi & Hk). exists x, db2. split; [done|]. split; [done|]. by apply IH.
Qed.

Lemma thread_ok_call {A} (op : Op S A) (Q : A -> list S -> S -> Prop) past db :
  (forall past' db', later past db past' db' -> exists x db2, op db' = (Ret x, db2) /\ inv (db2 :: past') db2 /\
     forall past3 db3, later (db2 :: past') db2 past3 db3 -> Q x past3 db3) ->
  thread_ok (call op) Q past db.
Proof. done. Qed.

Lemma thread_ok_ret {A} (a : A) Q past db : (forall past' db', later past db past' db' -> Q a past' db') -> thread_ok (mret a) Q past db.
Proof. done. Qed.

Lemma thread_ok_weaken {A} (p : Thread S A) (Q Q' : A -> list S -> S -> Prop) : forall past db,
  (forall a past' db', incl past past' -> Q a past' db' -> Q' a past' db') -> thread_ok p Q past db -> thread_ok p Q' past db.
Proof.
  induction p as [a|X op k IH]; intros past db HQ H past' db' Hl; [apply HQ; [apply Hl|by apply H]|].
  destruct (H past' db' Hl) as (x & db2 & E & Hi & Hk). exists x, db2. split; [done|]. split; [done|]. eapply IH; [|exact Hk].
  intros a past3 db3 Hin. apply HQ. eapply incl_tran; [apply Hl|]. eapply incl_tran; [|exact Hin]. by apply incl_tl, incl_refl.
Qed.
End threads.

(** *** The life of an agent and its baseline

    A start lists the roots anew and replaces the thread; a turn is the thread's
    next call; a call that fails ends the thread as a kill does. *)
Definition Listing : Type := list (string * list WalkEntry).

Inductive Moment : Type :=
  | Start (entries : Listing) (stop : option Z)
  | Turn
  | OtherOp (op : QueueOp)
  | Kill.

Record Living := mkLiving {
  lv_db : StateDb;
  lv_thread : option (Listing * option Z * Thread StateDb BaselineReport);
  lv_past : list StateDb }.

Section life.
  Context (exclusions : list string) (debounce_ms : Z) (s0 : StateDb).

Definition moment (w : Living) (m : Moment) : Living :=
  match m with
  | Start entries stop => mkLiving (lv_db w) (Some (entries, stop, run_baseline entries exclusions debounce_ms stop)) (lv_past w)
  | Turn =>
      match lv_thread w with
      | Some (entries, stop, Step op k) =>
          let '(o, db) := op (lv_db w) in
          mkLiving db (match o with Ret x => Some (entries, stop, k x) | _ => None end) (db :: lv_past w)
      | _ => w
      end
  | OtherOp op => let db := snd (run_op op (lv_db w)) in mkLiving db (lv_thread w) (db :: lv_past w)
  | Kill => mkLiving (lv_db w) None (lv_past w)
  end.

Definition live (ms : list Moment) : Living := fold_left moment ms (mkLiving s0 None [s0]).

(** What has been listed so far. *)
Definition listings (ms : list Moment) : list Listing := omap (fun m => match m with Start entries _ => Some entries | _ => None end) ms.

(** Every file of the tree that is wanted has been an active candidate. *)
Definition tree_queued (tree : list WalkEntry) (past : list StateDb) : Prop :=
  forall e, In e tree -> wanted exclusions e = true -> exists s, In s past /\ has_active (we_path e) s.

(** The entry was done before, or was listed with a tree that has been queued. *)
Definition entry_covered (seen : list Listing) (key : string) (past : list StateDb) : Prop :=
  db_baseline s0 !! key = Some 1 \/ exists listing tree, In listing seen /\ In (key, tree) listing /\ tree_queued tree past.

Definition marked (key : string) (s : StateDb) : Prop := db_baseline s !! key = Some 1.

(** Every entry marked is covered, and the present is part of the past. *)
Definition baseline_sound (seen : list Listing) (past : list StateDb) (db : StateDb) : Prop :=
  In db past /\ forall key, marked key db -> entry_covered seen key past.

Definition same_marks (s s' : StateDb) : Prop := db_baseline s' = db_baseline s.

#[local] Instance same_marks_pre : PreOrder same_marks.
Proof. split; [done|]. intros x y z H1 H2. by unfold same_marks; rewrite H2. Qed.

Lemma tree_queued_incl tree past past' : incl past past' -> tree_queued tree past -> tree_queued tree past'.
Proof. intros Hi H e He Hw. destruct (H e He Hw) as (s & Hs & Ha). exists s. auto. Qed.

Lemma entry_covered_incl seen seen' key past past' : incl seen seen' -> incl past past' ->
  entry_covered seen key past -> entry_covered seen' key past'.
Proof.
  intros Hs Hp [H|(l & t & Hl & Ht & Hq)]; [by left|]. right. exists l, t. split; [auto|]. split; [done|]. by eapply tree_queued_incl.
Qed.

(** A state with the marks of the one before it. *)
Lemma baseline_sound_grow seen past db db' : baseline_sound seen past db -> same_marks db db' -> baseline_sound seen (db' :: past) db'.
Proof.
  intros [Hin Hs] Hm. split; [by left|]. intros key Hk. eapply entry_covered_incl; [apply incl_refl|apply incl_tl, incl_refl|].
  apply Hs. unfold marked in *. by rewrite <- Hm.
Qed.

Section walk.
  Context (seen : list Listing) (listing : Listing) (Hlisting : In listing seen).
  #[local] Abbreviation ok := (thread_ok (baseline_sound seen) same_marks).
  #[local] Abbreviation later := (later (baseline_sound seen) same_marks).

(** The tree of one entry. *)
Lemma enqueue_tree_ok prio reason tree : forall n past db,
  ok (thread_fold tree n (fun n e =>
    if negb (we_is_file e) || matches_exclusion exclusions (we_path e) then mret n
    else r ← call (enqueue (we_path e) prio reason debounce_ms); mret (match r with Some _ => n + 1 | None => n end)))
    (fun _ past' db' => tree_queued tree past' /\ same_marks db db') past db.
Proof.
  induction tree as [|e tree IH]; intros n past db.
  - apply thread_ok_ret. intros past' db' (_ & Hc & _). split; [by intros e []|done].
  - cbn [thread_fold]. apply thread_ok_bind; [exact _|].
    destruct (negb (we_is_file e) || matches_exclusion exclusions (we_path e)) eqn:Ew.
    + apply thread_ok_ret. intros past' db' (Hi & Hc & _). eapply thread_ok_weaken; [|apply IH].
      intros _ past2 db2 _ [Hq Hc2]. split; [|by etrans]. intros e' [<-|Hin] Hw; [|by apply Hq]. exfalso.
      unfold wanted in Hw. rewrite <- (negb_involutive (we_is_file e)), <- negb_orb, Ew in Hw. done.
    + apply thread_ok_bind; [exact _|]. apply thread_ok_call. intros past1 db1 (Hi1 & Hc1 & Hs1).
      destruct (enqueue_run (we_path e) prio reason debounce_ms db1) as (o & db2 & E & Ha & Hw & _). injection Hw as Hm _.
      exists o, db2. split; [done|]. split; [by eapply baseline_sound_grow|]. intros past3 db3 (Hi3 & Hc3 & _).
      apply thread_ok_ret. intros past4 db4 (Hi4 & Hc4 & _). eapply thread_ok_weaken; [|apply IH].
      intros _ past5 db5 Hi5 [Hq Hc5]. split; [|do 4 (etrans; [eassumption|]); done].
      intros e' [<-|Hin] Hwn; [|by apply Hq]. exists db2. split; [|done]. by apply Hi5, Hi4, Hi3; left.
Qed.

(** The loop, with the marks [keys] made before it. *)
Lemma baseline_loop_ok stop entries : forall keys r past db, (forall x, In x entries -> In x listing) -> (forall k, In k keys -> marked k db) ->
  ok (baseline_loop entries exclusions debounce_ms stop r)
    (fun x _ db' => (stop = None -> fst x = true) /\
       (fst x = true -> bl_dirs_total (snd x) = bl_dirs_total r + len entries /\ bl_dirs_completed (snd x) = bl_dirs_completed r + len entries /\
          forall k, In k (keys ++ map fst entries) -> marked k db')) past db.
Proof using Hlisting.
  induction entries as [|[key tree] entries IH]; intros keys r past db Hsub Hkeys.
  { apply thread_ok_ret. intros past' db' (_ & Hc & _). split; [done|]. intros _. change (len []) with 0. cbn [snd]. split; [lia|]. split; [lia|].
    intros k Hk. cbn [map] in Hk. rewrite app_nil_r in Hk. unfold marked. rewrite Hc. by apply Hkeys. }
  assert (Hsub' : forall x, In x entries -> In x listing) by (intros x Hx; apply Hsub; by right).
  assert (Hl : len ((key, tree) :: entries) = 1 + len entries) by (unfold len; cbn [length]; lia).
  cbn [baseline_loop]. cbv zeta. apply thread_ok_bind; [exact _|]. apply thread_ok_call. intros past1 db1 (Hi1 & Hc1 & Hs1).
  exists (bool_decide (db_baseline db1 !! key = Some 1)), db1. split; [reflexivity|].
  split; [by apply (baseline_sound_grow _ _ db1)|]. intros past2 db2 (Hi2 & Hc2 & Hs2).
  assert (Hkeys2 : forall k, In k keys -> marked k db2) by (intros k Hk; unfold marked; rewrite Hc2, Hc1; by apply Hkeys).
  assert (Hnext : forall r' past3 db3, bl_dirs_total r' = bl_dirs_total r + 1 -> bl_dirs_completed r' = bl_dirs_completed r + 1 ->
    (forall k, In k keys -> marked k db3) -> marked key db3 ->
    ok (baseline_loop entries exclusions debounce_ms stop r')
      (fun x _ db' => (stop = None -> fst x = true) /\
        (fst x = true -> bl_dirs_total (snd x) = bl_dirs_total r + len ((key, tree) :: entries) /\
           bl_dirs_completed (snd x) = bl_dirs_completed r + len ((key, tree) :: entries) /\
           forall k, In k (keys ++ map fst ((key, tree) :: entries)) -> marked k db')) past3 db3).
  { intros r' past3 db3 Hr1 Hr2 Hk3 Hkey. eapply thread_ok_weaken; [|apply (IH (keys ++ [key]) r' past3 db3 Hsub')].
    - intros [fin r2] past4 db4 _ [Hf H]. split; [exact Hf|]. intros Hfin. destruct (H Hfin) as (H1 & H2 & H3). cbn [fst snd] in *. rewrite Hl, H1, H2. split; [lia|]. split; [lia|].
      intros k Hk. apply H3. by rewrite <- app_assoc.
    - intros k [Hk|[<-|[]]]%in_app_or; auto. }
  case_bool_decide as Hd.
  - apply Hnext; [done|done|done|]. unfold marked. by rewrite Hc2.
  - destruct (match stop with Some limit => _ | None => false end) eqn:Estop.
    { apply thread_ok_ret. intros past' db' _. split; [by intros ->|done]. }
    apply thread_ok_bind; [exact _|]. eapply thread_ok_weaken; [|apply enqueue_tree_ok].
    intros n past3 db3 Hi3 [Hq3 Hc3]. apply thread_ok_bind; [exact _|]. apply thread_ok_call. intros past4 db4 (Hi4 & Hc4 & Hs4).
    exists tt, (set_baseline (<[key := 1]> (db_baseline db4)) db4). split; [reflexivity|]. split.
    { split; [by left|]. intros k Hk. unfold marked in Hk. cbn [db_baseline set_baseline] in Hk. destruct (decide (k = key)) as [->|Hne].
      - right. exists listing, tree. split; [done|]. split; [apply Hsub; by left|]. eapply tree_queued_incl; [|exact Hq3].
        eapply incl_tran; [exact Hi4|apply incl_tl, incl_refl].
      - rewrite lookup_insert_ne in Hk by done. eapply entry_covered_incl; [apply incl_refl|apply incl_tl, incl_refl|]. by apply Hs4. }
    intros past5 db5 (_ & Hc5 & _).
    assert (Hb : db_baseline db5 = <[key := 1]> (db_baseline db4)) by exact Hc5.
    apply Hnext; [done|done| |unfold marked; rewrite Hb; by rewrite lookup_insert_eq].
    intros k Hk. unfold marked. rewrite Hb. destruct (decide (k = key)) as [->|Hne]; [by rewrite lookup_insert_eq|].
    rewrite lookup_insert_ne by done. rewrite Hc4, Hc3. by apply Hkeys2.
Qed.

(** What a run that was not stopped early reports, and that it marked every entry. *)
Definition run_done (stop : option Z) (r : BaselineReport) (past : list StateDb) (db : StateDb) : Prop :=
  stop = None -> bl_dirs_total r = len listing /\ bl_dirs_completed r = len listing /\ forall key tree, In (key, tree) listing -> marked key db.

Lemma run_baseline_ok stop past db : ok (run_baseline listing exclusions debounce_ms stop) (run_done stop) past db.
Proof using Hlisting.
  unfold run_baseline. apply thread_ok_bind; [exact _|]. eapply thread_ok_weaken; [|apply (baseline_loop_ok stop listing [] (mkBaselineReport 0 0 0) past db); done].
  intros [fin r] past1 db1 _ [Hf H]. cbn [fst snd] in *. destruct fin.
  - destruct (H eq_refl) as (H1 & H2 & H3). apply thread_ok_bind; [exact _|]. apply thread_ok_call. intros past2 db2 (_ & Hc2 & Hs2). exists tt. eexists.
    split; [reflexivity|]. split; [by eapply baseline_sound_grow|]. intros past3 db3 (_ & Hc3 & _). apply thread_ok_ret. intros past4 db4 (_ & Hc4 & _) _.
    cbn in H1, H2. split; [lia|]. split; [lia|]. intros key tree Hin. unfold marked. rewrite Hc4, Hc3. change (db_baseline (set_identity_map _ db2)) with (db_baseline db2).
    rewrite Hc2. apply H3, in_map_iff. by exists (key, tree).
  - apply thread_ok_ret. intros past' db' _ Hst. by apply Hf in Hst.
Qed.
End walk.

(** The invariant of the life: the marks are sound and the thread keeps them so. *)
Definition living_ok (seen : list Listing) (w : Living) : Prop :=
  baseline_sound seen (lv_past w) (lv_db w) /\
  match lv_thread w with
  | Some (listing, stop, p) => In listing seen /\
      thread_ok (baseline_sound seen) same_marks p (run_done listing stop) (lv_past w) (lv_db w)
  | None => True
  end.

Lemma live_snoc ms m : live (ms ++ [m]) = moment (live ms) m.
Proof. unfold live. by rewrite fold_left_app. Qed.

Lemma listings_app ms ms' : listings (ms ++ ms') = listings ms ++ listings ms'.
Proof. apply omap_app. Qed.

Lemma living_ok_moment seen m w : living_ok seen w -> living_ok (seen ++ listings [m]) (moment w m).
Proof.
  intros [Hs Ht]. destruct m as [entries stop| |op|]; cbn [listings omap list_omap moment].
  - assert (Hs' : baseline_sound (seen ++ [entries]) (lv_past w) (lv_db w)).
    { destruct Hs as [Hin Hm]. split; [done|]. intros key Hk. eapply entry_covered_incl; [by apply incl_appl, incl_refl|apply incl_refl|by apply Hm]. }
    split; [exact Hs'|]. assert (Hin : In entries (seen ++ [entries])) by (apply in_or_app; right; by left). split; [exact Hin|]. by apply run_baseline_ok.
  - rewrite app_nil_r. destruct (lv_thread w) as [[[l st] p]|] eqn:Eth; [|split; [done|by rewrite Eth]]. destruct Ht as [Hl Ht].
    destruct p as [r|X op k]; [split; [done|by rewrite Eth]|].
    destruct (Ht (lv_past w) (lv_db w) (later_refl _ _ _ _ Hs)) as (x & db2 & E & Hi & Hk). rewrite E. by split.
  - rewrite app_nil_r. pose proof (frames_walk_run_op op (lv_db w)) as Hw. injection Hw as Hm _.
    assert (Hs' := baseline_sound_grow _ _ _ _ Hs Hm). split; [exact Hs'|]. cbn [lv_thread lv_past lv_db].
    destruct (lv_thread w) as [[[l st] p]|]; [|done]. destruct Ht as [Hl Ht]. split; [done|]. eapply thread_ok_later; [exact _|exact Ht|].
    split; [apply incl_tl, incl_refl|]. by split.
  - rewrite app_nil_r. by split.
Qed.

Lemma living_ok_live ms : living_ok (listings ms) (live ms).
Proof.
  induction ms as [|m ms IH] using rev_ind; [split; [|done]; split; [by left|]; intros key Hk; by left|].
  rewrite live_snoc, listings_app. by apply living_ok_moment.
Qed.

(** A finished run that was not stopped early has covered all it listed. *)
Lemma finished_covers ms listing r : lv_thread (live ms) = Some (listing, None, Finished r) ->
  bl_dirs_total r = len listing /\ bl_dirs_completed r = len listing /\
  forall key tree, In (key, tree) listing -> entry_covered (listings ms) key (lv_past (live ms)).
Proof.
  intros E. destruct (living_ok_live ms) as [Hs Ht]. rewrite E in Ht. destruct Ht as [_ Ht].
  destruct (Ht (lv_past (live ms)) (lv_db (live ms)) (later_refl _ _ _ _ Hs) eq_refl) as (H1 & H2 & H3).
  split; [done|]. split; [done|]. intros key tree Hin. apply Hs. by eapply H3.
Qed.

(** *** A run nobody disturbs *)

Lemma enqueue_tree_run prio reason tree : forall n s,
  exists n' s', thread_run (thread_fold tree n (fun n e =>
      if negb (we_is_file e) || matches_exclusion exclusions (we_path e) then mret n
      else r ← call (enqueue (we_path e) prio reason debounce_ms); mret (match r with Some _ => n + 1 | None => n end))) s = (Ret n', s') /\
    n' - n = len (db_candidates s') - len (db_candidates s).
Proof.
  induction tree as [|e tree IH]; intros n s; [exists n, s; split; [done|lia]|]. cbn [thread_fold].
  destruct (negb (we_is_file e) || matches_exclusion exclusions (we_path e)) eqn:Ew; [apply (IH n s)|].
  destruct (enqueue_run (we_path e) prio reason debounce_ms s) as (o & s1 & E1 & _ & _ & Hl).
  destruct (IH (match o with Some _ => n + 1 | None => n end) s1) as (n' & s' & E & Hn). exists n', s'. split; [|destruct o; lia].
  erewrite thread_run_ret; [exact E|]. erewrite thread_run_ret; [reflexivity|]. cbn [call thread_run]. by rewrite (bind_run _ _ _ _ _ E1).
Qed.

Lemma baseline_loop_run entries : forall r s,
  exists r' s', thread_run (baseline_loop entries exclusions debounce_ms None r) s = (Ret (true, r'), s') /\
    bl_candidates_enqueued r' - bl_candidates_enqueued r = len (db_candidates s') - len (db_candidates s) /\
    bl_dirs_total r' - bl_dirs_total r = bl_dirs_completed r' - bl_dirs_completed r.
Proof.
  induction entries as [|[key tree] entries IH]; intros r s; [exists r, s; split; [done|lia]|].
  cbn [baseline_loop]. cbv zeta. erewrite thread_run_ret; [|reflexivity]. case_bool_decide as Hd.
  - edestruct IH as (r' & s' & E & Hn & Ht). exists r', s'. split; [exact E|]. cbn in Hn, Ht. lia.
  - destruct (enqueue_tree_run priority.BASELINE "baseline" tree 0 s) as (n & s1 & E1 & Hn1).
    edestruct (IH (mkBaselineReport (bl_dirs_completed r + 1) (bl_dirs_total r + 1) (bl_candidates_enqueued r + n)) (set_baseline (<[key := 1]> (db_baseline s1)) s1))
      as (r' & s' & E & Hn & Ht). exists r', s'. split; [|cbn in Hn, Ht; lia].
    erewrite thread_run_ret; [|exact E1]. erewrite thread_run_ret; [exact E|reflexivity].
Qed.

Lemma run_baseline_run entries s : exists r s', thread_run (run_baseline entries exclusions debounce_ms None) s = (Ret r, s') /\
  bl_candidates_enqueued r = len (db_candidates s') - len (db_candidates s) /\ db_identity s' !! "baseline_state"%string = Some "complete"%string.
Proof.
  destruct (baseline_loop_run entries (mkBaselineReport 0 0 0) s) as (r & s' & E & Hn & Ht). cbn in Hn, Ht.
  unfold run_baseline. exists r. eexists. split; [erewrite thread_run_ret; [|exact E]; reflexivity|]. split; [cbn; lia|].
  cbn [snd set_identity modify db_identity set_identity_map]. rewrite lookup_insert_eq. by rewrite (proj2 (Z.eqb_eq _ _)) by lia.
Qed.

(** The turns of a thread nobody disturbs. *)
Lemma turns_run (p : Thread StateDb BaselineReport) : forall listing stop db past r s', thread_run p db = (Ret r, s') ->
  exists n past', fold_left moment (replicate n Turn) (mkLiving db (Some (listing, stop, p)) past) = mkLiving s' (Some (listing, stop, Finished r)) past'.
Proof.
  induction p as [a|X op k IH]; intros listing stop db past r s' E; [injection E as <- <-; by exists 0%nat, past|].
  cbn [thread_run] in E. apply bind_ret in E as (x & db1 & E1 & E). destruct (IH x listing stop db1 (db1 :: past) r s' E) as (n & past' & H).
  exists (S n), past'. cbn [replicate fold_left]. cbn [moment lv_thread lv_db lv_past]. by rewrite E1.
Qed.

(** C36. No file of the baseline is lost to an interruption.  The walk is a thread
    whose every call on the database is a moment of its own: between two calls
    the queue may do anything, and the agent may be killed, or stopped after some
    directories, and started again with whatever the roots then hold.  When a run
    that is not stopped early has finished, it reports every entry it listed as
    completed, and each was marked before this life or was listed, now or in an
    earlier run, with a tree of which every regular file not excluded has been an
    active candidate of the queue.  And whatever has happened, a start that is
    left alone finishes so after some number of turns, reports the candidates it
    added, and leaves the baseline marked complete. *)
Theorem baseline_covers ms entries :
  let covers ms' listing r := bl_dirs_total r = len listing /\ bl_dirs_completed r = len listing /\
    forall key tree, In (key, tree) listing -> entry_covered (listings ms') key (lv_past (live ms')) in
  (forall listing r, lv_thread (live ms) = Some (listing, None, Finished r) -> covers ms listing r) /\
  exists n r, let ms' := ms ++ [Kill; Start entries None] ++ replicate n Turn in
    lv_thread (live ms') = Some (entries, None, Finished r) /\ covers ms' entries r /\
    bl_candidates_enqueued r = len (db_candidates (lv_db (live ms'))) - len (db_candidates (lv_db (live ms))) /\
    db_identity (lv_db (live ms')) !! "baseline_state"%string = Some "complete"%string.
Proof.
  intros covers. split; [by intros; apply finished_covers|].
  destruct (run_baseline_run entries (lv_db (live ms))) as (r & s' & E & Hc & Hi).
  destruct (turns_run _ entries None (lv_db (live ms)) (lv_past (live ms)) r s' E) as (n & past' & H). exists n, r. intros ms'.
  assert (Hl : live ms' = mkLiving s' (Some (entries, None, Finished r)) past').
  { unfold ms', live. rewrite !fold_left_app. exact H. }
  split; [by rewrite Hl|]. split; [apply finished_covers; by rewrite Hl|]. rewrite Hl. by split.
Qed.
End life.

(** ** Reconciliation *)

(** Every path with an active candidate in the one state has one in the other. *)
Definition rows_grow (s s' : StateDb) : Prop := forall p, has_active p s -> has_active p s'.

(** What a scan sees of a file it wants: its path and identity. *)
Definition scanned (exclusions : list string) (entries : list WalkEntry) : list (string * (Z * Z * Z)) :=
  omap (fun e => if wanted exclusions e then (fun k => (we_path e, k)) <$> we_stat e else None) entries.

Definition reconcile_entry (exclusions : list string) (ms : Z) (n : Z) (e : WalkEntry) : Op StateDb Z :=
  if negb (we_is_file e) || matches_exclusion exclusions (we_path e) then mret n
  else
    match we_stat e with
    | None => mret n
    | Some (inode, mtime_secs, size) =>
        changed ← seen_check_and_update (we_path e) inode mtime_secs size;
        if (changed : bool) then
          r ← enqueue (we_path e) priority.RECONCILIATION "reconcile_scan" ms;
          mret (match r with Some _ => n + 1 | None => n end)
        else mret n
    end.

Lemma seen_run path k s : let '(i, m, z) := k in
  seen_check_and_update path i m z s =
    if decide (db_seen s !! path = Some k) then (Ret false, s) else (Ret true, set_seen (<[path := k]> (db_seen s)) s).
Proof.
  destruct k as [[i m] z]. unfold seen_check_and_update. erewrite bind_run; [|reflexivity].
  destruct (decide _) as [E|E]; [by rewrite bool_decide_eq_true_2|by rewrite bool_decide_eq_false_2].
Qed.

(** One file: skipped, unchanged, or changed and enqueued. *)
Lemma reconcile_entry_run exclusions ms n e s :
  exists n' s', reconcile_entry exclusions ms n e s = (Ret n', s') /\ rows_grow s s' /\
    match (if wanted exclusions e then we_stat e else None) with
    | Some k => db_seen s' = <[we_path e := k]> (db_seen s) /\
        (db_seen s !! we_path e = Some k -> n' = n /\ s' = s) /\
        (db_seen s !! we_path e <> Some k -> has_active (we_path e) s')
    | None => n' = n /\ s' = s
    end.
Proof.
  assert (Ew : wanted exclusions e = negb (negb (we_is_file e) || matches_exclusion exclusions (we_path e)))
    by (unfold wanted; by rewrite negb_orb, negb_involutive).
  rewrite Ew. unfold reconcile_entry.
  destruct (negb (we_is_file e) || matches_exclusion exclusions (we_path e)); cbn [negb]; [exists n, s; split; [done|split; [by intros p|done]]|].
  destruct (we_stat e) as [[[i m] z]|]; [|exists n, s; split; [done|split; [by intros p|done]]].
  pose proof (seen_run (we_path e) (i, m, z) s) as E. cbn beta iota in E.
  destruct (decide (db_seen s !! we_path e = Some (i, m, z))) as [Hs|Hs].
  - exists n, s. erewrite bind_run; [|exact E]. split; [done|]. split; [by intros p|]. split; [by rewrite insert_id|]. by split.
  - set (s1 := set_seen _ s) in E. destruct (enqueue_run (we_path e) priority.RECONCILIATION "reconcile_scan" ms s1) as (o & s' & E' & Hr & Hw & _).
    do 2 eexists. split. { erewrite bind_run; [|exact E]. cbn beta iota. erewrite bind_run; [reflexivity|exact E']. }
    split. { intros p Hp. pose proof (has_active_enqueue p (we_path e) priority.RECONCILIATION "reconcile_scan" ms s1 Hp) as H. by rewrite E' in H. }
    injection Hw as _ Hseen. split; [done|]. by split.
Qed.

Lemma reconcile_fold exclusions ms entries : forall n s, NoDup (map we_path entries) ->
  exists n' s', op_fold entries n (reconcile_entry exclusions ms) s = (Ret n', s') /\ rows_grow s s' /\
    (forall p, ~ In p (map we_path entries) -> db_seen s' !! p = db_seen s !! p) /\
    (forall p k, In (p, k) (scanned exclusions entries) -> db_seen s' !! p = Some k) /\
    (forall p k, In (p, k) (scanned exclusions entries) -> db_seen s !! p <> Some k -> has_active p s') /\
    ((forall p k, In (p, k) (scanned exclusions entries) -> db_seen s !! p = Some k) -> n' = n /\ s' = s).
Proof.
  induction entries as [|e entries IH]; intros n s Hnd.
  { exists n, s. split; [done|]. split; [by intros p|]. done. }
  cbn [map] in Hnd. apply NoDup_cons in Hnd as [Hne Hnd]. rewrite list_elem_of_In in Hne.
  assert (Hsc : forall p k, In (p, k) (scanned exclusions entries) -> p <> we_path e).
  { intros p k Hin ->. apply Hne. unfold scanned in Hin. apply list_elem_of_In, list_elem_of_omap in Hin as (x & Hx & E).
    destruct (wanted exclusions x); [|done]. destruct (we_stat x); [|done]. injection E as Hp _. rewrite <- Hp. by apply in_map, list_elem_of_In. }
  destruct (reconcile_entry_run exclusions ms n e s) as (n1 & s1 & E1 & Hg1 & H1).
  destruct (IH n1 s1 Hnd) as (n' & s' & E & Hg & Hout & Hin & Hrow & Hidem).
  exists n', s'. cbn [op_fold]. split; [erewrite bind_run; [exact E|exact E1]|]. split; [intros p Hp; by apply Hg, Hg1|].
  assert (Hseen1 : forall p, p <> we_path e -> db_seen s1 !! p = db_seen s !! p).
  { intros p Hp. destruct (if wanted exclusions e then we_stat e else None); [|by destruct H1 as [_ ->]].
    destruct H1 as [-> _]. by rewrite lookup_insert_ne. }
  assert (Hcons : scanned exclusions (e :: entries) =
    match (if wanted exclusions e then we_stat e else None) with Some k => (we_path e, k) :: scanned exclusions entries | None => scanned exclusions entries end).
  { unfold scanned. cbn [omap list_omap]. destruct (wanted exclusions e); [|done]. by destruct (we_stat e). }
  split. { intros p Hp. rewrite Hout by (intros ?; apply Hp; by right). apply Hseen1. intros ->. apply Hp. by left. }
  rewrite Hcons. destruct (if wanted exclusions e then we_stat e else None) as [k0|].
  - destruct H1 as (Hs1 & Hsame & Hdiff). split; [|split].
    + intros p k [[= <- <-]|H]; [|by apply Hin]. rewrite Hout by done. by rewrite Hs1, lookup_insert_eq.
    + intros p k [[= <- <-]|H] Hp; [by apply Hg, Hdiff|]. apply (Hrow p k H). by rewrite Hseen1 by (by eapply Hsc).
    + intros H. destruct Hsame as [-> ->]; [by apply H; left|]. apply Hidem. intros p k Hp. apply H. by right.
  - destruct H1 as [-> ->]. done.
Qed.

(** A reconciliation reports what changed since the last one, once: every
    scanned file whose identity is not the one recorded has been a candidate,
    and a second scan of the same tree, whatever the queue did in between,
    enqueues nothing and changes nothing. *)
Theorem reconcile_reports_changes entries exclusions ms s : NoDup (map we_path entries) ->
  exists n s1, reconcile_scan entries exclusions ms s = (Ret n, s1) /\
    (forall p k, In (p, k) (scanned exclusions entries) -> db_seen s !! p <> Some k -> has_active p s1) /\
    forall others, let s2 := snd (op_for others run_op s1) in reconcile_scan entries exclusions ms s2 = (Ret 0, s2).
Proof.
  intros Hnd. change (reconcile_scan entries exclusions ms) with (op_fold entries 0 (reconcile_entry exclusions ms)).
  destruct (reconcile_fold exclusions ms entries 0 s Hnd) as (n & s1 & E & _ & _ & Hin & Hrow & _).
  exists n, s1. split; [exact E|]. split; [exact Hrow|]. intros others s2.
  destruct (reconcile_fold exclusions ms entries 0 s2 Hnd) as (n2 & s3 & E2 & _ & _ & _ & _ & Hidem).
  destruct Hidem as [-> ->]; [|exact E2]. intros p k Hp. rewrite <- (Hin p k Hp).
  assert (Hf : frames walk_state (op_for others run_op)) by (apply frames_for; intros op; apply frames_walk_run_op).
  specialize (Hf s1). injection Hf as _ Hf. unfold s2. by rewrite Hf.
Qed.

(** ** Witnesses *)

Definition sample_wire : Wire := mkWire 0 5 6 (-7) 0 256 (replicate 12 x00) [0x41; 0xD83D; 0xDE00] [x00; x00].

Lemma sample_wire_ok : wire_ok sample_wire.
Proof.
  constructor; try first [reflexivity|by vm_compute|cbn; lia].
Qed.

(** Two records, with a surrogate pair in the name, and a tail. *)
Lemma parse_usn_roundtrip_witness :
  exists b r, b = flat_map encode_wire [sample_wire; sample_wire] ++ [x01; x02] /\ parse_usn_records b = Ret [r; r] /\
    ur_usn r = -7 /\ ur_file_name r = bytes_str [x41; xf0; x9f; x98; x80].
Proof.
  exists (flat_map encode_wire [sample_wire; sample_wire] ++ [x01; x02]), (wire_record sample_wire). split; [reflexivity|]. split.
  - apply (parse_usn_roundtrip [sample_wire; sample_wire] [x01; x02]); [exact (Forall_cons_2 _ _ _ sample_wire_ok (Forall_cons_2 _ _ _ sample_wire_ok (Forall_nil_2 _)))|reflexivity].
  - split; reflexivity.
Defined.

(** A journal recreated under another identifier. *)
Lemma check_downtime_spec_witness :
  let s := with_cursor "C" 1 50 sample_db in
  exists s', check_downtime_changes "C" (Some (mkJournalInfo 2 0 70)) (fun _ _ => None) s = (Ret ReconcileRequired, s') /\
    saved_cursor "C" s' = Some (2, 70).
Proof.
  cbv zeta.
  destruct (check_downtime_spec "C" (mkJournalInfo 2 0 70) (fun _ _ => None) (with_cursor "C" 1 50 sample_db)) as (st & s' & E & Hr & Ha & _).
  { constructor; cbn; lia. }
  assert (Est : st = ReconcileRequired).
  { apply Hr. exists (1, 50). split; [apply saved_with_cursor; lia|]. intros [H _]. cbn in H. lia. }
  subst st. exists s'. split; [exact E|]. by apply Ha.
Defined.

Definition sample_tree : list (string * list WalkEntry) :=
  [("/a", [mkWalkEntry false "/a" None; mkWalkEntry true "/a/x" (Some (1, 2, 3)); mkWalkEntry true "/a/x.log" None]);
   ("/b", [mkWalkEntry true "/b" (Some (4, 5, 6))])]%string.

(** Killed between two of the first entry's files, stopped after one directory,
    the first file captured in between. *)
Definition sample_moments : list Moment :=
  [Start sample_tree None; Turn; Turn; Kill; OtherOp (Lease 120); OtherOp (FinishGap 1 "gone"); Start sample_tree (Some 1);
   Turn; Turn; Turn; Turn; Turn; Turn]%string.

Example sample_moments_stopped :
  db_baseline (lv_db (live ["*.log"%string] 0 (open_db sample_clock) (take 6 sample_moments))) !! "/a"%string = None /\
  (snd <$> lv_thread (live ["*.log"%string] 0 (open_db sample_clock) sample_moments)) = Some (Finished (mkBaselineReport 1 2 1)).
Proof. split; vm_compute; reflexivity. Qed.

Lemma baseline_covers_witness :
  let w := live ["*.log"%string] 0 (open_db sample_clock) in
  exists n r past, lv_thread (w (sample_moments ++ [Kill; Start sample_tree None] ++ replicate n Turn)) = Some (sample_tree, None, Finished r) /\
    lv_past (w (sample_moments ++ [Kill; Start sample_tree None] ++ replicate n Turn)) = past /\ bl_dirs_completed r = 2 /\
    (exists s, In s past /\ has_active "/a/x" s) /\ (exists s, In s past /\ has_active "/b" s).
Proof.
  cbv zeta.
  destruct (baseline_covers ["*.log"%string] 0 (open_db sample_clock) sample_moments sample_tree) as (_ & n & r & Ht & (_ & H2 & H3) & _).
  exists n, r. eexists. split; [exact Ht|]. split; [reflexivity|]. split; [exact H2|].
  assert (Hall : forall l, In l (listings (sample_moments ++ [Kill; Start sample_tree None] ++ replicate n Turn)) -> l = sample_tree).
  { intros l Hl. unfold listings in Hl. rewrite <- list_elem_of_In, list_elem_of_omap in Hl. destruct Hl as (m & Hm & Em).
    destruct m as [e stop| | |]; try discriminate Em. injection Em as <-. rewrite list_elem_of_In in Hm.
    rewrite !in_app_iff in Hm. destruct Hm as [Hm|[Hm|Hm]].
    - cbn in Hm. repeat destruct Hm as [[=]|Hm]; done.
    - cbn in Hm. repeat destruct Hm as [[=]|Hm]; done.
    - apply list_elem_of_In, elem_of_replicate in Hm as [Hm _]. discriminate. }
  assert (Hfile : forall key tree p k, In (key, tree) sample_tree -> In (mkWalkEntry true p k) tree -> matches_exclusion ["*.log"%string] p = false ->
    (forall tree', In (key, tree') sample_tree -> tree' = tree) ->
    exists s, In s (lv_past (live ["*.log"%string] 0 (open_db sample_clock) (sample_moments ++ [Kill; Start sample_tree None] ++ replicate n Turn))) /\ has_active p s).
  { intros key tree p k Hin He Hx Hu. destruct (H3 key tree Hin) as [H0|(l & t & Hl & Ht' & Hq)]; [cbn in H0; by rewrite lookup_empty in H0|].
    rewrite (Hall l Hl) in Ht'. rewrite (Hu t Ht') in Hq. apply (Hq _ He). unfold wanted. cbn [we_is_file we_path]. by rewrite Hx. }
  split.
  - eapply (Hfile "/a"%string); [by left|by right; left|reflexivity|]. intros t [[= <-]|[[=]|[]]]; done.
  - eapply (Hfile "/b"%string); [by right; left|by left|reflexivity|]. intros t [[=]|[[= <-]|[]]]; done.
Defined.

Definition sample_scan : list WalkEntry := [mkWalkEntry true "/a/x" (Some (1, 2, 3)); mkWalkEntry true "/b" (Some (4, 5, 6))]%string.

Lemma reconcile_reports_changes_witness :
  exists n s1, reconcile_scan sample_scan [] 0 (open_db sample_clock) = (Ret n, s1) /\ has_active "/b" s1 /\
    reconcile_scan sample_scan [] 0 s1 = (Ret 0, s1).
Proof.
  destruct (reconcile_reports_changes sample_scan [] 0 (open_db sample_clock)) as (n & s1 & E & Hr & Ha).
  { apply (bool_decide_unpack _). vm_compute. exact I. }
  exists n, s1. split; [exact E|]. split; [|exact (Ha [])].
  apply (Hr "/b"%string (4, 5, 6)); [right; left; reflexivity|]. cbn. by rewrite lookup_empty.
Defined.
