(* ===== verification/Capture.v ===== *)
(** * The capture pipeline ([corpus-agent/src/capture.rs])

    One candidate from the queue to the server: copy and hash with the stable
    reader, announce, upload, finalize; the retry policy; the worker's turn.
    The server is an interface ([Uploader]); [Delivery.v] discharges it with the
    handlers of [Ingest.v]. *)

From S2P Require Import Prelude Machine Text Hash Cas Schema Functions Ingest AgentState Spool.
From Stdlib Require Import Strings.Byte Strings.Ascii.

Open Scope Z_scope.

(** ** The server, as the agent sees it ([uploader.rs]) *)

Class Uploader (R : Type) : Type := {
  up_announce : AnnounceRequest -> Op R AnnounceResponse;
  up_upload : Uuid -> bytes -> Op R unit;
  up_finalize : FinalizeRequest -> Op R FinalizeResponse }.

(** [Utc::now().to_rfc3339()] (chrono). *)
Class Rfc3339 : Type := to_rfc3339 : Z -> string.

(** ** The runtime ([AgentRuntime], [config::Limits]) *)

Record AgentRuntime := mkAgentRuntime {
  rt_spool_dir : string; rt_max_artifact_bytes : Z; rt_max_spool_bytes : Z; rt_stable_read_retries : nat; rt_max_attempts : Z;
  rt_spool_cipher : option SpoolCipher; rt_agent_id : Uuid; rt_boot_id : Uuid; rt_host_name : string }.

(** The agent's database and spool, the server, and the number of steps before
    the process dies: a step at 0 does not happen, and nothing after it does. *)
Record Agent (R : Type) := mkAgent { ag_db : StateDb; ag_spool : Spool; ag_remote : R; ag_steps : nat }.
Arguments mkAgent {R} _ _ _ _.
Arguments ag_db {R} _.
Arguments ag_spool {R} _.
Arguments ag_remote {R} _.
Arguments ag_steps {R} _.

Definition with_db {R A} (m : Op StateDb A) : Op (Agent R) A := fun s =>
  match ag_steps s with
  | O => (Panic, s)
  | S n => let '(o, db) := m (ag_db s) in (o, mkAgent db (ag_spool s) (ag_remote s) n)
  end.

Definition with_spool {R A} (m : Op Spool A) : Op (Agent R) A := fun s =>
  match ag_steps s with
  | O => (Panic, s)
  | S n => let '(o, sp) := m (ag_spool s) in (o, mkAgent (ag_db s) sp (ag_remote s) n)
  end.

Definition with_remote {R A} (m : Op R A) : Op (Agent R) A := fun s =>
  match ag_steps s with
  | O => (Panic, s)
  | S n => let '(o, r) := m (ag_remote s) in (o, mkAgent (ag_db s) (ag_spool s) r n)
  end.

(** What the system answers while a candidate is processed: the attempts of the
    stable reader, and the metadata of the path. *)
Record Env := mkEnv { ev_attempts : nat -> Attempt; ev_mtime : option Time; ev_provenance : option Json }.

(** ** Outcomes and errors *)

Definition OUTCOME_CHANGED_DURING_READ : string := "CHANGED_DURING_READ".
Definition OUTCOME_DELETED_BEFORE_READ : string := "DELETED_BEFORE_READ".
Definition OUTCOME_PERMISSION_DENIED : string := "PERMISSION_DENIED".
Definition OUTCOME_TOO_LARGE : string := "TOO_LARGE".
Definition OUTCOME_UPLOAD_FAILED : string := "UPLOAD_FAILED".

(** [2i64.pow] of a negative number of attempts, cast to [u32], wraps to 0. *)
Definition backoff_secs (attempts : Z) : Z := Z.min (5 * 2 ^ Z.min attempts 6) 300.

Definition spool_used_bytes (s : Spool) : Z := foldr Z.add 0 (map (fun kv => len (snd kv)) (map_to_list (sp_files s))).

(** [{other:?}] of a [StableReadError]. *)
Definition debug_error (e : StableReadError) : string :=
  match e with
  | DeletedBeforeRead => "DeletedBeforeRead"
  | PermissionDenied => "PermissionDenied"
  | TooLarge size => "TooLarge { size: " +:+ (show_Z size +:+ " }")
  | ChangedDuringRead => "ChangedDuringRead"
  | SpoolFull => "SpoolFull"
  | StableIo m => "Io(" +:+ (debug_str m +:+ ")")
  end.

Definition error_detail (e : StableReadError) : string :=
  match e with
  | TooLarge size => "{" +:+ (quote +:+ ("size_bytes" +:+ (quote +:+ (":" +:+ (show_Z size +:+ "}")))))
  | other => "{" +:+ (quote +:+ ("error" +:+ (quote +:+ (":" +:+ (debug_error other +:+ "}")))))
  end.

Definition why_detail (why : string) : string :=
  "{" +:+ (quote +:+ ("error" +:+ (quote +:+ (":" +:+ (quote +:+ (why +:+ (quote +:+ "}"))))))).

(** The gap a read error is recorded as; the two errors that come back later
    have none. *)
Definition outcome_name (attempts max_attempts : Z) (e : StableReadError) : option string :=
  match e with
  | DeletedBeforeRead => Some OUTCOME_DELETED_BEFORE_READ
  | PermissionDenied => Some OUTCOME_PERMISSION_DENIED
  | TooLarge _ => Some OUTCOME_TOO_LARGE
  | ChangedDuringRead => Some OUTCOME_CHANGED_DURING_READ
  | SpoolFull => None
  | StableIo _ => if max_attempts <=? attempts then Some OUTCOME_UPLOAD_FAILED else None
  end.

(** [{other:?}] of a disposition. *)
Definition disposition_name (d : AnnounceDisposition) : string :=
  match d with
  | AlreadyPresent => "AlreadyPresent"
  | UploadRequired => "UploadRequired"
  | MetadataOnlyAccepted => "MetadataOnlyAccepted"
  | RejectedPolicy => "RejectedPolicy"
  | RejectedQuota => "RejectedQuota"
  | RetryLater => "RetryLater"
  end.

Section capture.
  Context {R : Type} {UP : Uploader R} {SHA : Sha256} {HEX : HexCodec} {UD : UuidDisplay} {RFC : Rfc3339}.
  Context (rt : AgentRuntime) (env : Env).

(** An error is logged. *)
Definition log_gap (capture_reason outcome_ : string) (sha path : option string) (detail : string) : Op (Agent R) unit :=
  _ ← attempt (with_db (AgentState.record_gap capture_reason outcome_ sha path None detail)); mret tt.

Definition gap (cand : Candidate) (name detail : string) (sha : option string) : Op (Agent R) unit :=
  log_gap (cd_capture_reason cand) name sha (Some (cd_path cand)) detail ;;
  with_db (finish_gap (cd_id cand) name).

Definition retry_later (cand : Candidate) (secs : Z) : Op (Agent R) unit :=
  t ← with_db timestamp; with_db (set_retry (cd_id cand) (t + secs)).

Definition retry_or_fail (cand : Candidate) (why : string) : Op (Agent R) unit :=
  if rt_max_attempts rt <=? cd_attempts cand
  then gap cand OUTCOME_UPLOAD_FAILED (why_detail why) (cd_sha256 cand)
  else retry_later cand (backoff_secs (cd_attempts cand)).

Definition remove_file (spool_path : option string) : Op (Agent R) unit :=
  match spool_path with Some p => with_spool (remove_spool p) | None => mret tt end.

(** *** OPENING and COPYING_AND_HASHING: whether to go on *)

Definition read_failed (cand : Candidate) (e : StableReadError) : Op (Agent R) unit :=
  match e, outcome_name (cd_attempts cand) (rt_max_attempts rt) e with
  | SpoolFull, _ => t ← with_db timestamp; with_db (defer (cd_id cand) (t + 30))
  | _, None => retry_later cand (backoff_secs (cd_attempts cand))
  | e, Some name => gap cand name (error_detail e) None
  end.

Definition copy_and_hash (cand : Candidate) : Op (Agent R) bool :=
  used ← with_spool (gets spool_used_bytes);
  let spool_free := Z.max 0 (rt_max_spool_bytes rt - used) in
  with_db (transition (cd_id cand) states.COPYING_AND_HASHING) ;;
  outcome_ ← with_spool (stable_read (rt_spool_dir rt) (rt_max_artifact_bytes rt) spool_free (rt_spool_cipher rt)
                           (rt_stable_read_retries rt) (ev_attempts env));
  match outcome_ with
  | inr r => with_db (set_hashed (cd_id cand) (sr_sha256 r) (as_i64 (sr_size r)) (sr_spool_path r)) ;; mret true
  | inl e => read_failed cand e ;; mret false
  end.

(** *** The upload *)

Definition occ (cand : Candidate) (seq : Z) : Op (Agent R) OccurrenceInfo :=
  t ← with_db timestamp;
  mret (mkOccurrenceInfo (rt_host_name rt) (rt_agent_id rt) (rt_boot_id rt) seq (cd_capture_reason cand) t (cd_path cand)
          (default 0 (cd_size_bytes cand)) (ev_mtime env)).

Definition complete (cand : Candidate) : Op (Agent R) unit :=
  with_db (transition (cd_id cand) states.OCCURRENCE_QUEUED) ;; with_db (transition (cd_id cand) states.COMPLETE).

Definition already_present (cand : Candidate) : Op (Agent R) unit :=
  with_db (transition (cd_id cand) states.DEDUP_HIT) ;;
  complete cand ;;
  with_db (increment_counter "ALREADY_PRESENT") ;;
  remove_file (cd_spool_path cand).

Definition finalize_upload (cand : Candidate) (sha256 : string) (upload_id : Uuid) : Op (Agent R) unit :=
  with_db (transition (cd_id cand) states.FINALIZING) ;;
  seq ← with_db next_sequence;
  o ← occ cand seq;
  fin ← attempt (with_remote (up_finalize
          (mkFinalizeRequest upload_id sha256 (default 0 (cd_size_bytes cand)) (Some o) None (ev_provenance env))));
  match fin with
  | inr _ =>
      complete cand ;;
      with_db (increment_counter "CAPTURED") ;;
      t ← with_db timestamp;
      with_db (set_identity "last_upload_at" (to_rfc3339 t)) ;;
      remove_file (cd_spool_path cand)
  | inl e => retry_or_fail cand ("finalize: " +:+ error_text e)
  end.

Definition spool_missing : Error := Io "No such file or directory (os error 2)".

(** The error of a spool file that does not decrypt. *)
Definition unspool_file (raw : bytes) : Op (Agent R) bytes :=
  b ← attempt (lift_outcome (unspool (rt_spool_cipher rt) raw));
  match b with
  | inr b => mret b
  | inl e => throw (BadRequest ("spool decrypt: " +:+ error_text e))
  end.

Definition upload_required (cand : Candidate) (sha256 : string) (upload_id : option Uuid) : Op (Agent R) unit :=
  with_db (transition (cd_id cand) states.UPLOAD_REQUIRED) ;;
  match upload_id with
  | None => retry_or_fail cand "UPLOAD_REQUIRED without upload_id"
  | Some upload_id =>
      with_db (set_identity ("upload_id:" +:+ show_Z (cd_id cand)) (uuid_to_string upload_id)) ;;
      with_db (transition (cd_id cand) states.UPLOADING) ;;
      match cd_spool_path cand with
      | None => retry_or_fail cand "missing spool path at UPLOADING"
      | Some spool =>
          found ← with_spool (gets (fun s => sp_files s !! spool));
          raw ← or_throw spool_missing found;
          b ← unspool_file raw;
          sent ← attempt (with_remote (up_upload upload_id b));
          match sent with
          | inl e => retry_or_fail cand ("upload: " +:+ error_text e)
          | inr _ => finalize_upload cand sha256 upload_id
          end
      end
  end.

Definition announce_and_upload (cand : Candidate) (sha256 : string) : Op (Agent R) unit :=
  seq ← with_db next_sequence;
  o ← occ cand seq;
  ann ← attempt (with_remote (up_announce (mkAnnounceRequest sha256 (default 0 (cd_size_bytes cand)) (Some o))));
  match ann with
  | inl e => retry_or_fail cand ("announce: " +:+ error_text e)
  | inr ann =>
      with_db (transition (cd_id cand) states.ANNOUNCED) ;;
      match ap_disposition ann with
      | AlreadyPresent => already_present cand
      | UploadRequired => upload_required cand sha256 (ap_upload_id ann)
      | other => gap cand (disposition_name other) "{}" (Some sha256)
      end
  end.

Definition upload_state (st : string) : bool :=
  one_of st [states.HASHED; states.ANNOUNCED; states.UPLOAD_REQUIRED; states.UPLOADING; states.FINALIZING].

Definition no_sha256 (cand : Candidate) : Error :=
  BadRequest ("candidate " +:+ (show_Z (cd_id cand) +:+ (" in state " +:+ (cd_state cand +:+ " without sha256")))).

(** From the reloaded candidate on. *)
Definition resume_upload (cand : Candidate) : Op (Agent R) unit :=
  if one_of (cd_state cand) [states.DEDUP_HIT; states.OCCURRENCE_QUEUED] then
    with_db (transition (cd_id cand) states.COMPLETE) ;;
    remove_file (cd_spool_path cand)
  else
    match cd_sha256 cand with
    | None => throw (no_sha256 cand)
    | Some sha256 => if upload_state (cd_state cand) then announce_and_upload cand sha256 else mret tt
    end.

(** ** process_candidate *)

Definition process_candidate (cand : Candidate) : Op (Agent R) unit :=
  state ← (if one_of (cd_state cand) [states.DEBOUNCING; states.OBSERVED]
           then with_db (transition (cd_id cand) states.OPENING) ;; mret states.OPENING
           else mret (cd_state cand));
  go_on ← (if one_of state [states.OPENING; states.COPYING_AND_HASHING] then copy_and_hash cand else mret true);
  if (go_on : bool) then
    found ← with_db (get_candidate (cd_id cand));
    match found with
    | None => mret tt
    | Some cand => resume_upload cand
    end
  else mret tt.

(** ** A turn of the worker: the candidate leased, if any *)

Definition worker_turn : Op (Agent R) (option Z) :=
  leased ← attempt (with_db (lease_next_due 120));
  match leased with
  | inr (Some cand) =>
      result ← attempt (process_candidate cand);
      match result with
      | inr _ => mret (Some (cd_id cand))
      | inl _ => _ ← attempt (retry_later cand 30); mret (Some (cd_id cand))
      end
  | _ => mret None
  end.
End capture.

(** ** What the agent relies on the server for *)

(** [up_stored h r]: the server durably holds the bytes whose digest is [h]. *)
Class UploaderView (R : Type) : Type := { up_inv : R -> Prop; up_stored : string -> R -> Prop }.

(** No call panics ([reqwest] returns errors); no call loses stored bytes; an
    announcement answered "already present" and a finalization that succeeds
    are about stored bytes. *)
Class UploaderLaws (R : Type) `{Uploader R, UploaderView R} : Prop := {
  up_total : forall a u b f r, fst (up_announce a r) <> Panic /\ fst (up_upload u b r) <> Panic /\ fst (up_finalize f r) <> Panic;
  up_keeps : forall a u b f, keeps up_inv (up_announce a) /\ keeps up_inv (up_upload u b) /\ keeps up_inv (up_finalize f);
  up_never_loses : forall h a u b f r, up_inv r -> up_stored h r ->
    up_stored h (snd (up_announce a r)) /\ up_stored h (snd (up_upload u b r)) /\ up_stored h (snd (up_finalize f r));
  up_announce_present : forall a r resp r', up_inv r -> up_announce a r = (Ret resp, r') -> ap_disposition resp = AlreadyPresent ->
    up_stored (an_sha256 a) r';
  up_finalize_stores : forall f r resp r', up_inv r -> up_finalize f r = (Ret resp, r') -> up_stored (fq_sha256 f) r' }.

(** ** From one invariant to another *)

(** Whatever [m] answers, it leads from [P] to [I]. *)
Definition leads {S A} (P I : S -> Prop) (m : Op S A) : Prop := forall s, P s -> I (snd (m s)).

Lemma leads_bind {S A B} (P I : S -> Prop) (m : Op S A) (f : A -> Op S B) :
  leads P I m -> (forall s a s', P s -> m s = (Ret a, s') -> I (snd (f a s'))) -> leads P I (m ≫= f).
Proof.
  intros Hm Hf s Hs. unfold mbind, op_mbind. destruct (m s) as [[a|e|] s'] eqn:E; cbn [snd].
  - by eapply Hf.
  - specialize (Hm s Hs). by rewrite E in Hm.
  - specialize (Hm s Hs). by rewrite E in Hm.
Qed.

Lemma leads_keeps {S A B} (P I : S -> Prop) (m : Op S A) (f : A -> Op S B) :
  (forall s, P s -> I s) -> keeps P m -> (forall a, leads P I (f a)) -> leads P I (m ≫= f).
Proof.
  intros HPI Hm Hf. apply leads_bind; [intros s Hs; by apply HPI, Hm|]. intros s a s' Hs E. apply Hf.
  specialize (Hm s Hs). by rewrite E in Hm.
Qed.

Lemma leads_of_keeps {S A} (P I : S -> Prop) (m : Op S A) : (forall s, P s -> I s) -> keeps P m -> leads P I m.
Proof. intros HPI Hm s Hs. by apply HPI, Hm. Qed.

(** ** Invariants on the rows and the server *)

Section invariants.
  Context {R : Type} {UP : Uploader R} {UV : UploaderView R}.

(** Every row satisfies [φ] and the server [ψ]. *)
Record holds (φ : CandidateRow -> R -> Prop) (ψ : R -> Prop) (s : Agent R) : Prop := {
  hd_queue : queue_wf (ag_db s);
  hd_inv : up_inv (ag_remote s);
  hd_remote : ψ (ag_remote s);
  hd_rows : forall c, In c (db_candidates (ag_db s)) -> φ c (ag_remote s) }.

Context (φ : CandidateRow -> R -> Prop) (ψ : R -> Prop).

Lemma holds_db {A} (m : Op StateDb A) : keeps queue_wf m ->
  (forall s r, ψ r -> (forall c, In c (db_candidates s) -> φ c r) -> forall c, In c (db_candidates (snd (m s))) -> φ c r) ->
  keeps (holds φ ψ) (with_db m).
Proof.
  intros Hq Hm s [H1 H2 H3 H4]. unfold with_db. destruct (ag_steps s); [by constructor|].
  specialize (Hq _ H1). specialize (Hm (ag_db s) _ H3 H4). destruct (m (ag_db s)) as [o db].
  by constructor.
Qed.

Lemma holds_frame {A} (m : Op StateDb A) : frames queue m -> keeps (holds φ ψ) (with_db m).
Proof.
  intros Hf. apply holds_db; [by apply queue_wf_frame|]. intros s r Hr H c Hc. specialize (Hf s).
  unfold queue in Hf. injection Hf as Hl _. rewrite Hl in Hc. by apply H.
Qed.

Lemma holds_spool {A} (m : Op Spool A) : keeps (holds φ ψ) (with_spool (R := R) m).
Proof. intros s [H1 H2 H3 H4]. unfold with_spool. destruct (ag_steps s); [by constructor|]. destruct (m (ag_spool s)). by constructor. Qed.

(** An update of the rows with an identifier. *)
Lemma holds_update id (f : Z -> CandidateRow -> CandidateRow) : (forall t c, cd_id (f t c) = cd_id c) ->
  (forall t c r, ψ r -> φ c r -> cd_id c = id -> φ (f t c) r) ->
  keeps (holds φ ψ) (with_db (t ← timestamp; _ ← update_candidates (has_id id) (f t); mret tt)).
Proof.
  intros Hid Hf. apply holds_db; [by apply (keeps_step_update (fun _ => has_id id))|]. intros s r Hr H c.
  erewrite bind_run; [|reflexivity]. unfold mbind at 1, op_mbind at 1, update_candidates. case_bool_decide; [|apply H].
  cbn [snd mret op_mret db_candidates set_candidates]. intros (k & <- & Hk)%in_map_iff. destruct (has_id id k) eqn:E; [|by apply H].
  apply Hf; [done|by apply H|by apply Z.eqb_eq in E].
Qed.

Lemma holds_remote {A} (m : Op R A) : keeps up_inv m -> (forall r, up_inv r -> ψ r -> ψ (snd (m r))) ->
  (forall c r, up_inv r -> φ c r -> φ c (snd (m r))) -> keeps (holds φ ψ) (with_remote m).
Proof.
  intros Hi Hψ Hφ s [H1 H2 H3 H4]. unfold with_remote. destruct (ag_steps s); [by constructor|].
  specialize (Hi _ H2). specialize (Hψ _ H2 H3). assert (Hr : forall c, In c (db_candidates (ag_db s)) -> φ c (snd (m (ag_remote s))))
    by (intros c Hc; apply Hφ; [done|by apply H4]).
  destruct (m (ag_remote s)) as [o r]. by constructor.
Qed.

End invariants.

(** ** A completed candidate is stored *)

Section delivered.
  Context {R : Type} {UP : Uploader R} {UV : UploaderView R} {UL : UploaderLaws R}
          {SHA : Sha256} {HEX : HexCodec} {UD : UuidDisplay} {RFC : Rfc3339}.
  Context (rt : AgentRuntime).

(** The states after which the agent sends nothing more. *)
Definition delivered_state (st : string) : bool := one_of st [states.DEDUP_HIT; states.OCCURRENCE_QUEUED; states.COMPLETE].

Definition delivered (c : CandidateRow) (r : R) : Prop :=
  delivered_state (cd_state c) = true -> exists h, cd_sha256 c = Some h /\ up_stored h r.

(** While candidate [id], of digest [h], is worked on. *)
Definition working (id : Z) (h : string) (c : CandidateRow) (r : R) : Prop := delivered c r /\ (cd_id c = id -> cd_sha256 c = Some h).

Definition anything (_ : R) : Prop := True.

(** The three stages: nothing known, the digest known, the bytes stored. *)
Definition agent_ok : Agent R -> Prop := holds delivered anything.
Definition announcing (id : Z) (h : string) : Agent R -> Prop := holds (working id h) anything.
Definition stored (id : Z) (h : string) : Agent R -> Prop := holds (working id h) (up_stored h).

Lemma announcing_ok id h s : announcing id h s -> agent_ok s.
Proof. intros [H1 H2 H3 H4]. constructor; [done..|]. intros c Hc. by apply H4. Qed.

Lemma stored_announcing id h s : stored id h s -> announcing id h s.
Proof. by intros [H1 H2 H3 H4]. Qed.

Lemma stored_ok id h s : stored id h s -> agent_ok s.
Proof. intros H. by eapply announcing_ok, stored_announcing. Qed.

Lemma announcing_stored id h s : announcing id h s -> up_stored h (ag_remote s) -> stored id h s.
Proof. intros [H1 H2 H3 H4] Hs. by constructor. Qed.

(** Updates that keep the digest: any, once the bytes are stored, and before
    that those to a state that promises nothing. *)
Lemma stored_update id h (f : Z -> CandidateRow -> CandidateRow) : (forall t c, cd_id (f t c) = cd_id c /\ cd_sha256 (f t c) = cd_sha256 c) ->
  keeps (stored id h) (with_db (t ← timestamp; _ ← update_candidates (has_id id) (f t); mret tt)).
Proof.
  intros Hf. apply holds_update; [intros t c; by apply Hf|]. intros t c r Hs [_ Hc] Hid. destruct (Hf t c) as [E1 E2].
  unfold working, delivered. rewrite E1, E2, (Hc Hid). split; [|done]. by exists h.
Qed.

Lemma announcing_update id h (f : Z -> CandidateRow -> CandidateRow) : (forall t c, cd_id (f t c) = cd_id c /\ cd_sha256 (f t c) = cd_sha256 c) ->
  (forall t c, cd_state (f t c) = cd_state c \/ delivered_state (cd_state (f t c)) = false) ->
  keeps (announcing id h) (with_db (t ← timestamp; _ ← update_candidates (has_id id) (f t); mret tt)).
Proof.
  intros Hf Hst. apply holds_update; [intros t c; by apply Hf|]. intros t c r _ [Hd Hc] Hid. destruct (Hf t c) as [E1 E2].
  unfold working, delivered. rewrite E1, E2. split; [|done]. destruct (Hst t c) as [E|E]; [by rewrite E|by rewrite E].
Qed.

Lemma ok_update id (f : Z -> CandidateRow -> CandidateRow) : (forall t c, cd_id (f t c) = cd_id c) ->
  (forall t c, delivered_state (cd_state (f t c)) = false \/ cd_state (f t c) = cd_state c /\ cd_sha256 (f t c) = cd_sha256 c) ->
  keeps agent_ok (with_db (t ← timestamp; _ ← update_candidates (has_id id) (f t); mret tt)).
Proof.
  intros Hid Hf. apply holds_update; [done|]. intros t c r _ Hd _. unfold delivered in *.
  destruct (Hf t c) as [E|[E1 E2]]; [by rewrite E|by rewrite E1, E2].
Qed.

(** Calls that lose nothing. *)
Definition gentle {A} (m : Op R A) : Prop := keeps up_inv m /\ forall h r, up_inv r -> up_stored h r -> up_stored h (snd (m r)).

Lemma gentle_announce a : gentle (up_announce a).
Proof. split; [by apply (up_keeps a 0%N [] (mkFinalizeRequest 0%N "" 0 None None None))|]. intros h r H1 H2.
  by apply (up_never_loses h a 0%N [] (mkFinalizeRequest 0%N "" 0 None None None)). Qed.

Lemma gentle_upload u b : gentle (up_upload u b).
Proof. split; [by apply (up_keeps (mkAnnounceRequest "" 0 None) u b (mkFinalizeRequest 0%N "" 0 None None None))|]. intros h r H1 H2.
  by apply (up_never_loses h (mkAnnounceRequest "" 0 None) u b (mkFinalizeRequest 0%N "" 0 None None None)). Qed.

Lemma gentle_finalize f : gentle (up_finalize f).
Proof. split; [by apply (up_keeps (mkAnnounceRequest "" 0 None) 0%N [] f)|]. intros h r H1 H2.
  by apply (up_never_loses h (mkAnnounceRequest "" 0 None) 0%N [] f). Qed.

Lemma delivered_gentle {A} (m : Op R A) c r : gentle m -> up_inv r -> delivered c r -> delivered c (snd (m r)).
Proof. intros [_ Hm] Hi Hd Hs. destruct (Hd Hs) as (h & Hc & Hh). exists h. split; [done|]. by apply Hm. Qed.

Lemma ok_remote {A} (m : Op R A) : gentle m -> keeps agent_ok (with_remote m).
Proof. intros Hm. apply holds_remote; [apply Hm|done|]. intros c r. by apply delivered_gentle. Qed.

Lemma announcing_remote {A} id h (m : Op R A) : gentle m -> keeps (announcing id h) (with_remote m).
Proof.
  intros Hm. apply holds_remote; [apply Hm|done|]. intros c r Hi [Hd Hc]. split; [by apply delivered_gentle|done].
Qed.

Lemma announcing_db_frame {A} id h (m : Op StateDb A) : frames queue m -> keeps (announcing id h) (with_db m).
Proof. apply holds_frame. Qed.

(** *** What each step keeps *)

Lemma ok_transition id st : delivered_state st = false -> keeps agent_ok (with_db (transition id st)).
Proof. intros H. apply ok_update; [done|]. intros t c. by left. Qed.

Lemma announcing_transition id h st : delivered_state st = false -> keeps (announcing id h) (with_db (transition id st)).
Proof. intros H. apply announcing_update; [done|]. intros t c. by right. Qed.

Lemma stored_transition id h st : keeps (stored id h) (with_db (transition id st)).
Proof. by apply stored_update. Qed.

Lemma announcing_sequence id h : keeps (announcing id h) (with_db next_sequence).
Proof. apply announcing_db_frame. unfold next_sequence, get_identity. queue_frame. Qed.

Lemma announcing_timestamp id h : keeps (announcing id h) (with_db timestamp).
Proof. apply announcing_db_frame. queue_frame. Qed.

Lemma ok_record_gap reason out sha path code detail : keeps agent_ok (with_db (AgentState.record_gap reason out sha path code detail)).
Proof. apply holds_frame. unfold AgentState.record_gap, increment_counter. queue_frame. Qed.

Lemma announcing_record_gap id h reason out sha path code detail :
  keeps (announcing id h) (with_db (AgentState.record_gap reason out sha path code detail)).
Proof. apply announcing_db_frame. unfold AgentState.record_gap, increment_counter. queue_frame. Qed.

Lemma ok_gap cand name detail sha : keeps agent_ok (gap cand name detail sha).
Proof.
  unfold gap, log_gap. keeps_tac; [apply ok_record_gap|]. apply ok_update; [done|]. intros t c. by left.
Qed.

Lemma announcing_gap cand h name detail sha : keeps (announcing (cd_id cand) h) (gap cand name detail sha).
Proof.
  unfold gap, log_gap. keeps_tac; [apply announcing_record_gap|]. apply announcing_update; [done|]. intros t c. by right.
Qed.

Lemma ok_retry_later cand secs : keeps agent_ok (retry_later cand secs).
Proof.
  unfold retry_later. apply keeps_bind; [apply holds_frame; queue_frame|intros t]. apply ok_update; [done|]. intros u c. by right.
Qed.

Lemma announcing_retry_later cand h secs : keeps (announcing (cd_id cand) h) (retry_later cand secs).
Proof.
  unfold retry_later. apply keeps_bind; [apply announcing_timestamp|intros t]. apply announcing_update; [done|]. intros u c. by left.
Qed.

Lemma announcing_retry_or_fail cand h why : keeps (announcing (cd_id cand) h) (retry_or_fail rt cand why).
Proof. unfold retry_or_fail. destruct (_ <=? _); [apply announcing_gap|apply announcing_retry_later]. Qed.

Lemma announcing_occ env cand id h seq : keeps (announcing id h) (occ rt env cand seq).
Proof. unfold occ. apply keeps_bind; [apply announcing_timestamp|intros t; apply keeps_mret]. Qed.

Lemma stored_remove id h path : keeps (stored id h) (remove_file path).
Proof. destruct path; [apply holds_spool|apply keeps_mret]. Qed.

Lemma stored_complete cand h : keeps (stored (cd_id cand) h) (complete cand).
Proof. unfold complete. apply keeps_bind; [|intros _]; apply stored_transition. Qed.

Lemma stored_already_present cand h : keeps (stored (cd_id cand) h) (already_present cand).
Proof.
  unfold already_present. apply keeps_bind; [apply stored_transition|intros _]. apply keeps_bind; [apply stored_complete|intros _].
  apply keeps_bind; [apply holds_frame; unfold increment_counter; queue_frame|intros _]. apply stored_remove.
Qed.

(** A call to the server that succeeds and is about stored bytes. *)
Lemma leads_remote {A B} id h (m : Op R A) (f : Error + A -> Op (Agent R) B) : gentle m ->
  (forall e, leads (announcing id h) agent_ok (f (inl e))) ->
  (forall s a r', announcing id h s -> up_inv (ag_remote s) -> m (ag_remote s) = (Ret a, r') ->
     forall s', announcing id h s' -> ag_remote s' = r' -> agent_ok (snd (f (inr a) s'))) ->
  leads (announcing id h) agent_ok (x ← attempt (with_remote m); f x).
Proof.
  intros Hm He Hr. apply leads_bind; [apply leads_of_keeps; [apply announcing_ok|apply keeps_attempt; by apply announcing_remote]|].
  intros s x s' Hs E. pose proof (announcing_remote id h m Hm s Hs) as Hk. unfold attempt in E.
  destruct (with_remote m s) as [[a|e|] s1] eqn:E1; [injection E as <- <-|injection E as <- <-; by apply He|discriminate E].
  unfold with_remote in E1. destruct (ag_steps s); [discriminate E1|].
  destruct (m (ag_remote s)) as [o r'] eqn:E2. injection E1 as -> <-. eapply Hr; [exact Hs|apply Hs|exact E2|exact Hk|done].
Qed.

Lemma leads_announcing {A} id h (m : Op (Agent R) A) : keeps (announcing id h) m -> leads (announcing id h) agent_ok m.
Proof. apply leads_of_keeps, announcing_ok. Qed.

Lemma leads_finalize env cand h u : leads (announcing (cd_id cand) h) agent_ok (finalize_upload rt env cand h u).
Proof.
  unfold finalize_upload. apply leads_keeps; [apply announcing_ok|by apply announcing_transition|intros _].
  apply leads_keeps; [apply announcing_ok|apply announcing_sequence|intros seq].
  apply leads_keeps; [apply announcing_ok|apply announcing_occ|intros o].
  apply leads_remote; [apply gentle_finalize|intros e; apply leads_announcing, announcing_retry_or_fail|].
  intros s a r' _ Hi E s' Hs' Hr'. apply up_finalize_stores in E; [|done]. cbn [fq_sha256] in E.
  apply (stored_ok (cd_id cand) h). rewrite <- Hr' in E. apply (announcing_stored _ h) in Hs'; [|done]. revert s' Hs' Hr' E.
  enough (keeps (stored (cd_id cand) h) (complete cand ;; with_db (increment_counter "CAPTURED") ;; t ← with_db timestamp;
    with_db (set_identity "last_upload_at" (to_rfc3339 t)) ;; remove_file (cd_spool_path cand))) as Hk by (intros s' Hs' _ _; by apply Hk).
  apply keeps_bind; [apply stored_complete|intros _]. apply keeps_bind; [apply holds_frame; unfold increment_counter; queue_frame|intros _].
  apply keeps_bind; [apply holds_frame; queue_frame|intros t]. apply keeps_bind; [apply holds_frame; queue_frame|intros _]. apply stored_remove.
Qed.

Lemma announcing_unspool id h raw : keeps (announcing id h) (unspool_file rt raw).
Proof. unfold unspool_file. keeps_tac. Qed.

Lemma leads_upload env cand h u : leads (announcing (cd_id cand) h) agent_ok (upload_required rt env cand h u).
Proof.
  unfold upload_required. apply leads_keeps; [apply announcing_ok|by apply announcing_transition|intros _].
  destruct u as [u|]; [|apply leads_announcing, announcing_retry_or_fail].
  apply leads_keeps; [apply announcing_ok|apply announcing_db_frame; queue_frame|intros _].
  apply leads_keeps; [apply announcing_ok|by apply announcing_transition|intros _].
  destruct (cd_spool_path cand) as [path|]; [|apply leads_announcing, announcing_retry_or_fail].
  apply leads_keeps; [apply announcing_ok|apply holds_spool|intros found].
  apply leads_keeps; [apply announcing_ok|apply keeps_or_throw|intros raw].
  apply leads_keeps; [apply announcing_ok|apply announcing_unspool|intros b].
  apply leads_remote; [apply gentle_upload|intros e; apply leads_announcing, announcing_retry_or_fail|].
  intros s a r' _ _ _ s' Hs' _. by apply leads_finalize.
Qed.

Lemma leads_refused cand h name : leads (announcing (cd_id cand) h) agent_ok
  (with_db (transition (cd_id cand) states.ANNOUNCED) ;; gap cand name "{}" (Some h)).
Proof. apply leads_announcing, keeps_bind; [by apply announcing_transition|intros _; apply announcing_gap]. Qed.

Lemma leads_announce env cand h : leads (announcing (cd_id cand) h) agent_ok (announce_and_upload rt env cand h).
Proof.
  unfold announce_and_upload.
  apply leads_keeps; [apply announcing_ok|apply announcing_sequence|intros seq].
  apply leads_keeps; [apply announcing_ok|apply announcing_occ|intros o].
  apply leads_remote; [apply gentle_announce|intros e; apply leads_announcing, announcing_retry_or_fail|].
  intros s ann r' _ Hi E s' Hs' Hr'.
  destruct (ap_disposition ann) eqn:Ed.
  2: { revert s' Hs' Hr'. enough (leads (announcing (cd_id cand) h) agent_ok (with_db (transition (cd_id cand) states.ANNOUNCED) ;;
         upload_required rt env cand h (ap_upload_id ann))) as H by (intros s' Hs' _; by apply H).
       apply leads_keeps; [apply announcing_ok|by apply announcing_transition|intros _; apply leads_upload]. }
  1: { apply up_announce_present in E; [|done..]. cbn [an_sha256] in E. rewrite <- Hr' in E.
       apply (announcing_stored _ h) in Hs'; [|done]. apply (stored_ok (cd_id cand) h).
       apply keeps_bind; [apply stored_transition|intros _; apply stored_already_present|exact Hs']. }
  all: by apply leads_refused.
Qed.

(** The row a query found stands for every row of its identifier. *)
Lemma found_row s id c : agent_ok s -> fst (get_candidate id (ag_db s)) = Ret (Some c) ->
  (cd_id c = id) /\
  (delivered_state (cd_state c) = true -> exists h, cd_sha256 c = Some h /\ stored id h s) /\
  (forall h, cd_sha256 c = Some h -> announcing id h s).
Proof.
  intros [H1 H2 H3 H4] E. unfold get_candidate, gets in E. cbn [fst] in E. injection E as E.
  destruct (head (List.filter (has_id id) (db_candidates (ag_db s)))) as [r|] eqn:Eh; [|discriminate E].
  cbn in E. injection E as <-. apply head_filter_in in Eh as [Hin Hid%Z.eqb_eq]. split; [done|].
  assert (Huniq : forall k, In k (db_candidates (ag_db s)) -> cd_id k = id -> k = r).
  { intros k Hk Hkid. apply (nodup_map_inj (fun c : CandidateRow => cd_id c) (db_candidates (ag_db s))); [apply H1|done..|congruence]. }
  assert (Ha : forall h, cd_sha256 r = Some h -> announcing id h s).
  { intros h Hh. constructor; [done..|]. intros k Hk. split; [by apply H4|]. intros Hkid. by rewrite (Huniq k Hk Hkid). }
  split; [|exact Ha]. intros Hd. destruct (H4 r Hin Hd) as (h & Hh & Hs). exists h. split; [done|]. apply announcing_stored; [by apply Ha|done].
Qed.

Lemma keeps_resume env id s : agent_ok s ->
  agent_ok (snd ((found ← with_db (get_candidate id); match found with None => mret tt | Some cand => resume_upload rt env cand end) s)).
Proof.
  intros Hs. unfold mbind, op_mbind, with_db at 1. destruct (ag_steps s) as [|n] eqn:En; [done|].
  pose proof (found_row s id) as Hf. unfold get_candidate, gets in *. cbn [fst snd] in *.
  destruct (_ <$> head _) as [c|]; [|by destruct Hs as [H1 H2 H3 H4]; constructor].
  destruct (Hf c Hs eq_refl) as (Hid & Hd & Ha). clear Hf. set (s1 := mkAgent (ag_db s) (ag_spool s) (ag_remote s) n).
  unfold resume_upload. destruct (one_of (cd_state c) [states.DEDUP_HIT; states.OCCURRENCE_QUEUED]) eqn:Eo.
  - assert (Hdel : delivered_state (cd_state c) = true).
    { unfold delivered_state, one_of in *. cbn [existsb] in *. apply orb_true_iff in Eo as [->|Eo]; [done|].
      apply orb_true_iff in Eo as [->|Eo]; [by rewrite orb_true_r|done]. }
    destruct (Hd Hdel) as (h & _ & Hst). apply (stored_ok (cd_id c) h). rewrite Hid.
    apply keeps_bind; [apply stored_transition|intros _; apply stored_remove|]. destruct Hst as [H1 H2 H3 H4]. by constructor.
  - destruct (cd_sha256 c) as [h|] eqn:Eh; [|by destruct Hs as [H1 H2 H3 H4]; constructor].
    destruct (upload_state _); [|by destruct Hs as [H1 H2 H3 H4]; constructor]. apply leads_announce. rewrite Hid.
    destruct (Ha h eq_refl) as [H1 H2 H3 H4]. by constructor.
Qed.

Lemma ok_copy_and_hash env cand : keeps agent_ok (copy_and_hash rt env cand).
Proof.
  unfold copy_and_hash. apply keeps_bind; [apply holds_spool|intros used]. cbv zeta.
  apply keeps_bind; [by apply ok_transition|intros _]. apply keeps_bind; [apply holds_spool|intros [e|r]].
  - apply keeps_bind; [|intros _; apply keeps_mret]. unfold read_failed. destruct e; cbn [outcome_name];
      first [apply ok_gap|destruct (_ <=? _); [apply ok_gap|apply ok_retry_later]|idtac].
    apply keeps_bind; [apply holds_frame; queue_frame|intros t]. apply ok_update; [done|]. intros u c. by right.
  - apply keeps_bind; [|intros _; apply keeps_mret]. apply ok_update; [done|]. intros u c. by left.
Qed.

Lemma keeps_process env cand : keeps agent_ok (process_candidate rt env cand).
Proof.
  unfold process_candidate. apply keeps_bind.
  { destruct (one_of _ _); [|apply keeps_mret]. apply keeps_bind; [by apply ok_transition|intros _; apply keeps_mret]. }
  intros st. apply keeps_bind; [destruct (one_of _ _); [apply ok_copy_and_hash|apply keeps_mret]|].
  intros [|]; [|apply keeps_mret]. intros s Hs. by apply keeps_resume.
Qed.

Lemma ok_lease secs : keeps agent_ok (with_db (lease_next_due secs)).
Proof.
  apply holds_db; [apply keeps_lease|]. intros s r _ H c. unfold lease_next_due, lease_row.
  do 4 (erewrite bind_run; [|reflexivity]). destruct (next_row _ _) as [n|]; [|apply H].
  unfold mbind, op_mbind, update_candidates. case_bool_decide; [|apply H]. cbn [snd mret op_mret db_candidates set_candidates].
  intros (k & <- & Hk)%in_map_iff. destruct (has_id (cd_id n) k); [|by apply H]. exact (H k Hk).
Qed.

Lemma keeps_worker_turn env : keeps agent_ok (worker_turn rt env).
Proof.
  unfold worker_turn. apply keeps_bind; [apply keeps_attempt, ok_lease|]. intros [e|[cand|]]; try apply keeps_mret.
  apply keeps_bind; [apply keeps_attempt, keeps_process|]. intros [e'|u]; [|apply keeps_mret].
  apply keeps_bind; [apply keeps_attempt, ok_retry_later|intros ?; apply keeps_mret].
Qed.

(** *** The life of an agent *)

(** A worker's turn, cut short after some steps; a sensor's observation; the
    watchdog's renewal; what others do to the server meanwhile. *)
Inductive AgentTurn : Type :=
  | Work (env : Env) (steps : nat)
  | Observe (path : string) (prio : Z) (reason : string) (debounce_ms : Z)
  | Renew (id lease_secs : Z)
  | Others (call : Op R unit).

Definition run_turn (t : AgentTurn) : Op (Agent R) unit := fun s =>
  match t with
  | Work env steps => (Ret tt, snd (worker_turn rt env (mkAgent (ag_db s) (ag_spool s) (ag_remote s) steps)))
  | Observe path prio reason ms => (Ret tt, mkAgent (snd (enqueue path prio reason ms (ag_db s))) (ag_spool s) (ag_remote s) (ag_steps s))
  | Renew id secs => (Ret tt, mkAgent (snd (renew_lease id secs (ag_db s))) (ag_spool s) (ag_remote s) (ag_steps s))
  | Others call => (Ret tt, mkAgent (ag_db s) (ag_spool s) (snd (call (ag_remote s))) (ag_steps s))
  end.

Definition turn_ok (t : AgentTurn) : Prop := match t with Others call => gentle call | _ => True end.

Lemma ok_steps s n : agent_ok s -> agent_ok (mkAgent (ag_db s) (ag_spool s) (ag_remote s) n).
Proof. intros [H1 H2 H3 H4]. by constructor. Qed.

Lemma keeps_turn t : turn_ok t -> keeps agent_ok (run_turn t).
Proof.
  intros Ht s Hs. destruct t as [env n|path prio reason ms|id secs|call]; cbn [run_turn snd turn_ok] in *.
  - by apply keeps_worker_turn, ok_steps.
  - destruct Hs as [H1 H2 H3 H4]. assert (Hq : queue_wf (snd (enqueue path prio reason ms (ag_db s)))).
    { revert H1. apply keeps_bind; [apply queue_wf_frame; queue_frame|]. intros t. apply keeps_insert_candidate. }
    constructor; [done..|]. cbn [ag_db ag_remote]. unfold enqueue, insert_candidate. erewrite bind_run; [|reflexivity].
    match goal with |- context [existsb ?p ?l] => destruct (existsb p l) end; [exact H4|]. cbn [snd db_candidates set_candidates].
    intros c [Hc|[<-|[]]]%in_app_or; [by apply H4|]. unfold delivered. cbn. by destruct (0 <? ms).
  - destruct Hs as [H1 H2 H3 H4]. assert (Hq : queue_wf (snd (renew_lease id secs (ag_db s)))).
    { revert H1. by apply (keeps_step_update (fun _ c => has_id id c && active c) (fun t c => with_retry (cd_attempts c) (t + secs) (cw_updated_at c) c)). }
    constructor; [done..|]. cbn [ag_db ag_remote]. unfold renew_lease. erewrite bind_run; [|reflexivity].
    unfold mbind, op_mbind, update_candidates. case_bool_decide; [|exact H4]. cbn [snd mret op_mret db_candidates set_candidates].
    intros c (k & <- & Hk)%in_map_iff. destruct (has_id id k && active k); [|by apply H4]. exact (H4 k Hk).
  - destruct Hs as [H1 H2 H3 H4]. constructor; [done|by apply Ht|done|]. intros c Hc. cbn [ag_db ag_remote] in *.
    apply delivered_gentle; [done|done|by apply H4].
Qed.

Lemma keeps_turns turns : Forall turn_ok turns -> keeps agent_ok (op_for turns run_turn).
Proof. intros Ht. apply keeps_for. intros t Hin. apply keeps_turn. rewrite List.Forall_forall in Ht. by apply Ht. Qed.

(** C2. The agent never forgets a file the server does not have: after any turns of
    its workers, each possibly cut short by a crash at any step and resumed from
    the database, and whatever its sensors and the server's other clients do
    meanwhile, the server holds the bytes of the digest of every candidate
    marked complete (or past its last call to the server). *)
Theorem complete_means_stored turns s s' : agent_ok s -> Forall turn_ok turns ->
  op_for turns run_turn s = (Ret tt, s') ->
  queue_wf (ag_db s') /\
  forall c, In c (db_candidates (ag_db s')) ->
    cd_state c = states.DEDUP_HIT \/ cd_state c = states.OCCURRENCE_QUEUED \/ cd_state c = states.COMPLETE ->
    exists h, cd_sha256 c = Some h /\ up_stored h (ag_remote s').
Proof.
  intros Hs Ht E. assert (H : agent_ok s').
  { replace s' with (snd (op_for turns run_turn s)) by (by rewrite E). revert Hs. apply keeps_for. intros t Hin. apply keeps_turn.
    rewrite List.Forall_forall in Ht. by apply Ht. }
  split; [apply H|]. intros c Hc Hst. apply (hd_rows _ _ _ H c Hc). by destruct Hst as [-> | [-> | ->]].
Qed.

End delivered.

(** ** A reference server *)

(** The digests it has, and the bytes staged under each upload. *)
Module ReferenceUploader.

Record Store := mkStore { st_digests : list string; st_staged : list (Uuid * bytes); st_next : Uuid }.

Section store.
  Context {SHA : Sha256} {HEX : HexCodec}.

Definition announce (req : AnnounceRequest) : Op Store AnnounceResponse := fun s =>
  if existsb (String.eqb (an_sha256 req)) (st_digests s) then (Ret (mkAnnounceResponse AlreadyPresent None None), s)
  else (Ret (mkAnnounceResponse UploadRequired (Some (st_next s)) None), mkStore (st_digests s) (st_staged s) (st_next s + 1)%N).

Definition upload (id : Uuid) (b : bytes) : Op Store unit := fun s =>
  (Ret tt, mkStore (st_digests s) ((id, b) :: st_staged s) (st_next s)).

Definition finalize (req : FinalizeRequest) : Op Store FinalizeResponse := fun s =>
  match List.filter (fun x => (fst x =? fq_upload_id req)%N) (st_staged s) with
  | (_, b) :: _ =>
      if String.eqb (sha256_hex b) (fq_sha256 req)
      then (Ret (mkFinalizeResponse 0%N (fq_sha256 req) "committed" []), mkStore (fq_sha256 req :: st_digests s) (st_staged s) (st_next s))
      else (Fail (HashMismatch (fq_sha256 req) (sha256_hex b)), s)
  | [] => (Fail (NotFound "upload session"), s)
  end.

Definition uploader : Uploader Store := {| up_announce := announce; up_upload := upload; up_finalize := finalize |}.
Definition view : UploaderView Store := {| up_inv _ := True; up_stored h s := In h (st_digests s) |}.

Lemma uploader_laws : @UploaderLaws Store uploader view.
Proof.
  constructor; cbn.
  - intros a u b f r. split; [|split; [done|]]; [unfold announce; by destruct (existsb _ _)|].
    unfold finalize. destruct (List.filter _ _) as [|[i x] l]; [done|]. by destruct (String.eqb _ _).
  - done.
  - intros h a u b f r _ Hh. unfold announce, finalize. split; [by destruct (existsb _ _)|]. split; [done|].
    destruct (List.filter _ _) as [|[i x] l]; [done|]. destruct (String.eqb _ _); [by right|done].
  - intros a r resp r' _. unfold announce. destruct (existsb _ _) eqn:E; intros [= <- <-] Hd; [|discriminate Hd].
    apply existsb_exists in E as (h & Hh & ->%String.eqb_eq). done.
  - intros f r resp r' _. unfold finalize. destruct (List.filter _ _) as [|[i x] l]; [done|]. destruct (String.eqb _ _); [|done].
    intros [= _ <-]. by left.
Qed.
End store.
End ReferenceUploader.

(** ** Witnesses *)

Section witnesses.
Local Existing Instance ReferenceHash.sha.
Local Existing Instance ReferenceHash.hex.
Local Existing Instance ReferenceUuid.display.
Local Existing Instance ReferenceUploader.uploader.
Local Existing Instance ReferenceUploader.view.
Local Existing Instance ReferenceUploader.uploader_laws.
Local Instance show_time : Rfc3339 := show_Z.

Definition sample_runtime : AgentRuntime := mkAgentRuntime "spool" 100 1000 3 10 (Some ReferenceCipher.cipher) 1%N 2%N "host".

(** A quiet file of three bytes. *)
Definition quiet_env : Env :=
  let key := mkFileKey 1 2 3 0 0 in
  mkEnv (fun _ => mkAttempt None (inr key) None [inr [x61; x62; x63]; inr []] (fun _ => None) (inr key)) None None.

Definition fresh_agent : Agent ReferenceUploader.Store :=
  mkAgent (open_db (fun n => 1000 * Z.of_nat n)) sample_spool (ReferenceUploader.mkStore [] [] 1%N) 0.

(** A first turn dies after six steps, the next finishes. *)
Definition crash_turns : list (AgentTurn (R := ReferenceUploader.Store)) := [Observe "/bin/run" 1 "exec" 0; Work quiet_env 6; Work quiet_env 100].

Definition crash_end : Agent ReferenceUploader.Store := snd (op_for crash_turns (run_turn sample_runtime) fresh_agent).

Lemma crash_returns : fst (op_for crash_turns (run_turn sample_runtime) fresh_agent) = Ret tt.
Proof. vm_compute. reflexivity. Qed.

Lemma fresh_ok : agent_ok fresh_agent.
Proof. constructor; [|done|done|by intros c []]. constructor; cbn; [apply NoDup_nil_2..|constructor]. Qed.

Lemma crash_states : map (fun c : CandidateRow => cd_state c) (db_candidates (ag_db crash_end)) = [states.COMPLETE].
Proof. vm_compute. reflexivity. Qed.

Lemma complete_means_stored_witness :
  exists c h, In c (db_candidates (ag_db crash_end)) /\ cd_sha256 c = Some h /\ up_stored h (ag_remote crash_end).
Proof.
  assert (Hc : exists c, In c (db_candidates (ag_db crash_end)) /\ cd_state c = states.COMPLETE).
  { pose proof crash_states as H. destruct (db_candidates (ag_db crash_end)) as [|c l]; [discriminate H|].
    exists c. split; [by left|]. by injection H as H _. }
  destruct Hc as (c & Hc & Hst). destruct (complete_means_stored sample_runtime crash_turns fresh_agent crash_end) as [_ H].
  - exact fresh_ok.
  - do 3 (apply List.Forall_cons; [exact I|]). apply List.Forall_nil.
  - unfold crash_end. rewrite <- crash_returns. apply surjective_pairing.
  - destruct (H c Hc) as (h & Hh & Hs); [right; right; exact Hst|]. exists c, h. split; [exact Hc|]. split; [exact Hh|exact Hs].
Defined.
End witnesses.
