(* ===== verification/Delivery.v ===== *)
(** * The agent and the server together

    The server's ingestion handlers ([Ingest.v]) behind the agent's HTTP client
    ([corpus-agent/src/uploader.rs]) keep the contract [UploaderLaws], over a
    network that may lose a request or its response.  What [Capture.v] proves of
    any server then holds of this one: a completed candidate's bytes are in the
    object store, under the agent's tenant. *)

From S2P Require Import Prelude Machine Text Hash Classify Cas Schema Scan Features Functions Variants Ingest AgentState Spool Capture.
From Stdlib Require Import Strings.Byte Strings.Ascii.

Open Scope Z_scope.

(** What becomes of one HTTP exchange. *)
Inductive Link : Type := LinkUp | RequestLost | ResponseLost.

(** The server, and the fate of the exchanges to come. *)
Record Remote := mkRemote { rm_srv : Srv; rm_link : nat -> Link; rm_calls : nat }.

Definition connection_lost : Error := Io "error sending request".

Section delivery.
  Context {YX : YaraX} {SH : ScannerHost} {SHA : Sha256} {HEX : HexCodec} {UD : UuidDisplay}
          {GOB : Goblin} {LOG : Log2} {DEC : X86Decoder} {HO : HashOrder}.
  Context {HEXL : HexLaws} {UDL : UuidLaws}.
  (** the tenant of the agent's key; the client's error for an error status *)
  Context (tenant : Uuid) (server_error : Error -> Error).

(** A request handled by [m]: an error status or a closed connection is an
    error of the client's. *)
Definition exchange {A} (m : Op Srv A) : Op Remote A := fun r =>
  match rm_link r (rm_calls r) with
  | RequestLost => (Fail connection_lost, mkRemote (rm_srv r) (rm_link r) (S (rm_calls r)))
  | l =>
      let '(o, s) := m (rm_srv r) in
      (match l, o with
       | ResponseLost, _ => Fail connection_lost
       | _, Ret a => Ret a
       | _, Fail e => Fail (server_error e)
       | _, Panic => Fail connection_lost
       end, mkRemote s (rm_link r) (S (rm_calls r)))
  end.

#[local] Instance ingest_uploader : Uploader Remote := {|
  up_announce req := exchange (announce tenant req);
  up_upload id b := exchange (stage_upload tenant id b);
  up_finalize req := exchange (finalize tenant req) |}.

(** The tenant's artifact of a digest. *)
Definition has_artifact (sha : bytes) (s : Srv) : Prop := exists a, In a (rows TArtifact s) /\ is_artifact tenant sha a.

#[local] Instance ingest_view : UploaderView Remote := {|
  up_inv r := store_wf (rm_srv r);
  up_stored h r := exists sha, hex_to_raw h = Some sha /\ has_artifact sha (rm_srv r) |}.

(** ** Artifacts are never removed by ingestion *)

Definition keeps_artifact (a : Artifact) (s : Srv) : Prop := In a (rows TArtifact s).

Lemma artifact_aside {A} a (m : Op Srv A) : aside artifact_table m -> keeps (keeps_artifact a) m.
Proof. intros Hm s H. destruct (Hm s) as [_ Hr]. unfold keeps_artifact. by rewrite Hr. Qed.

Lemma artifact_cas {A} a (m : Op FsCas A) : keeps (keeps_artifact a) (with_cas m).
Proof. intros s H. unfold with_cas. by destruct (m (srv_cas s)). Qed.

Definition ingest_keeps {A} (m : Op Srv A) : Prop := keeps store_wf m /\ forall a, keeps (keeps_artifact a) m.

Lemma announce_keeps req : ingest_keeps (announce tenant req).
Proof.
  assert (Ha : aside artifact_table (announce tenant req))
    by (unfold announce, record_occurrence, insert_occurrence, attempt_meta, insert_capture_attempt; aside_tac).
  split; [by apply store_wf_aside|]. intros a. by apply artifact_aside.
Qed.

Lemma stage_keeps id b : ingest_keeps (stage_upload tenant id b).
Proof.
  split.
  - exact (fun s Hs => keeps_stage_upload tenant id b s Hs).
  - intros a. unfold stage_upload. apply keeps_bind; [apply artifact_aside; aside_tac|]. intros [u|]; [|apply keeps_throw].
    destruct (String.eqb _ _); [apply artifact_cas|apply keeps_throw].
Qed.

(** The transaction of a commit only adds rows. *)
Lemma commit_rows_keeps a req sha class scope key provenance :
  keeps (keeps_artifact a) (commit_rows tenant req sha class scope key provenance).
Proof.
  unfold commit_rows. apply keeps_db_transaction; [by intros old new H _|].
  do 3 (apply keeps_bind; [apply artifact_aside; aside_tac|intros ?]). apply keeps_bind.
  { intros s H. set (r := mkArtifact _ _ _ _ _ _ _ _ _ _ _).
    destruct (decide (artifact_key r ∈ map artifact_key (rows TArtifact s))) as [Hin|Hnew].
    - by rewrite (insert_on_conflict_old TArtifact artifact_key r s Hin).
    - rewrite (insert_on_conflict_new TArtifact artifact_key r s Hnew). cbn [snd]. unfold keeps_artifact. rewrite rows_set_rows_eq.
      apply in_or_app. by left. }
  intros inserted. apply artifact_aside. unfold record_occurrence, insert_occurrence, attempt_meta, insert_capture_attempt, set_session_state. aside_tac.
Qed.

Lemma after_commit_aside id sha b class key : aside artifact_table (after_commit tenant id sha b class key).
Proof. apply (aside_weaken ingest_table); [by intros []|]. apply aside_after_commit. Qed.

Lemma finalize_keeps req : ingest_keeps (finalize tenant req).
Proof.
  split; [apply keeps_finalize|]. intros a. unfold finalize. apply keeps_bind; [apply artifact_aside; aside_tac|intros session].
  apply keeps_bind; [apply keeps_or_throw|intros u]. destruct (negb _); [apply keeps_throw|]. cbv zeta.
  apply keeps_bind; [apply artifact_cas|intros b]. destruct (negb _).
  { apply keeps_bind; [apply artifact_cas|intros _]. apply keeps_bind; [|intros _; apply keeps_throw].
    apply artifact_aside. unfold mark_session_failed, set_session_state. aside_tac. }
  destruct (verify_upload _ _) as [sha|[]|]; try apply keeps_throw; try apply keeps_panic.
  - unfold promote. apply keeps_bind; [apply keeps_lift|intros class]. destruct (negb _).
    { apply keeps_bind; [apply artifact_cas|intros _; apply keeps_throw]. }
    cbv zeta. apply keeps_bind; [apply artifact_cas|intros _]. apply keeps_bind; [apply commit_rows_keeps|intros id].
    apply artifact_aside, after_commit_aside.
  - apply keeps_bind; [|intros _; apply keeps_bind; [apply artifact_cas|intros _; apply keeps_throw]].
    apply artifact_aside. unfold record_mismatch, attempt_meta, insert_capture_attempt, set_session_state. aside_tac.
Qed.

(** ** A finalization that succeeds has committed the digest *)

Lemma commit_rows_commits req sha class scope key provenance s id s' :
  commit_rows tenant req sha class scope key provenance s = (Ret id, s') -> has_artifact sha s'.
Proof.
  unfold commit_rows, db_transaction, transaction. set (m := mbind _ new_v4). destruct (m s) as [[i|e|] s1] eqn:E; [|discriminate..].
  intros [= -> <-]. unfold m in E. clear m.
  apply bind_ret in E as (u & s2 & _ & E). apply bind_ret in E as (t & s3 & _ & E). apply bind_ret in E as (q & s4 & _ & E).
  set (r := mkArtifact u tenant q sha (fq_size_bytes req) class "committed" key t scope provenance) in E.
  apply bind_ret in E as (inserted & s5 & Ei & E). apply bind_ret in E as (id' & s6 & E6 & E).
  destruct (artifact_row_run tenant r s4) as (a & s7 & E7 & Ha & Hia & _); [done|].
  rewrite (bind_run _ _ _ _ _ Ei) in E7. change (art_sha256 r) with sha in E7.
  assert (Es : (Ret id', s6) = (Ret (art_id a), s7)) by exact (eq_trans (eq_sym E6) E7). injection Es as _ <-. exists a. split; [|exact Hia].
  assert (Hk : keeps (keeps_artifact a) (record_occurrence tenant id' sha (fq_occurrence req) ;;
    meta ← attempt_meta (fq_occurrence req) (fq_provenance req);
    insert_capture_attempt tenant meta OUTCOME_CAPTURED (Some sha) None (JObj [("artifact_class"%string, JStr class)]) ;;
    set_session_state (fq_upload_id req) "committed" ;; mret id')).
  { apply artifact_aside. unfold record_occurrence, insert_occurrence, attempt_meta, insert_capture_attempt, set_session_state. aside_tac. }
  specialize (Hk s6 Ha). by rewrite E in Hk.
Qed.

Lemma finalize_stores req s resp s' : finalize tenant req s = (Ret resp, s') ->
  exists sha, hex_to_raw (fq_sha256 req) = Some sha /\ has_artifact sha s'.
Proof.
  unfold finalize. intros E. apply bind_ret in E as (session & s1 & _ & E). apply bind_ret in E as (u & s2 & _ & E).
  destruct (negb _); [discriminate E|]. cbv zeta in E. apply bind_ret in E as (b & s3 & _ & E). destruct (negb _).
  { apply bind_ret in E as (? & ? & _ & E). apply bind_ret in E as (? & ? & _ & E). discriminate E. }
  unfold verify_upload in E. destruct (eq_ignore_case _ _) eqn:Eq.
  2: { apply bind_ret in E as (? & ? & _ & E). apply bind_ret in E as (? & ? & _ & E). discriminate E. }
  exists (sha256_raw b). split.
  { unfold hex_to_raw. rewrite <- (eq_ignore_case_decode _ _ Eq). apply hex_to_raw_sha256_hex. }
  unfold promote in E. apply bind_ret in E as (class & s4 & _ & E). destruct (negb _).
  { apply bind_ret in E as (? & ? & _ & E). discriminate E. }
  cbv zeta in E. apply bind_ret in E as (? & s5 & _ & E). apply bind_ret in E as (id & s6 & Ec & E).
  apply commit_rows_commits in Ec as (a & Ha & Hia). exists a. split; [|exact Hia].
  pose proof (artifact_aside a _ (after_commit_aside id (sha256_raw b) b (class_str class) (object_key tenant (hex_encode (sha256_raw b)))) s6 Ha) as Hk.
  by rewrite E in Hk.
Qed.

Lemma announce_present_stored req s resp s' : announce tenant req s = (Ret resp, s') -> ap_disposition resp = AlreadyPresent ->
  exists sha, hex_to_raw (an_sha256 req) = Some sha /\ has_artifact sha s'.
Proof.
  unfold announce. intros E Hd. apply bind_ret in E as (sha & s1 & Ex & E). exists sha.
  destruct (hex_to_raw (an_sha256 req)) as [x|]; [|discriminate Ex]. injection Ex as -> ->. split; [done|].
  apply bind_ret in E as (existing & s2 & Es & E). unfold select_optional, gets in Es. injection Es as Es <-.
  destruct existing as [a|].
  - apply head_filter_in in Es as [Ha Hp]. apply andb_true_iff in Hp as [H1 H2]. apply bool_decide_eq_true_1 in H1, H2.
    exists a. split; [|done]. apply bind_ret in E as (? & s3 & E & Er). injection Er as _ <-.
    assert (Hk : keeps (keeps_artifact a) (db_transaction (record_occurrence tenant (art_id a) sha (an_occurrence req) ;;
        meta ← attempt_meta (an_occurrence req) None;
        insert_capture_attempt tenant meta OUTCOME_ALREADY_PRESENT (Some sha) None (JObj [])))).
    { apply artifact_aside. unfold record_occurrence, insert_occurrence, attempt_meta, insert_capture_attempt. aside_tac. }
    specialize (Hk s1 Ha). by rewrite E in Hk.
  - apply bind_ret in E as (? & ? & _ & E). apply bind_ret in E as (? & ? & _ & E). apply bind_ret in E as (? & ? & _ & E).
    injection E as <- _. discriminate Hd.
Qed.

(** ** The contract *)

Lemma exchange_total {A} (m : Op Srv A) r : fst (exchange m r) <> Panic.
Proof. unfold exchange. destruct (rm_link r (rm_calls r)); [|done|]; destruct (m (rm_srv r)) as [[a|e|] s]; done. Qed.

Lemma exchange_gentle {A} (m : Op Srv A) : ingest_keeps m -> gentle (exchange m).
Proof.
  intros [H1 H2]. split.
  - intros r Hr. specialize (H1 _ Hr). unfold exchange. destruct (rm_link r (rm_calls r)); [|done|];
      destruct (m (rm_srv r)) as [o s]; exact H1.
  - intros h r _ (sha & Hx & a & Ha & Hia). specialize (H2 a _ Ha). exists sha. split; [done|]. exists a. split; [|done].
    unfold exchange. destruct (rm_link r (rm_calls r)); [|done|]; destruct (m (rm_srv r)) as [o s]; exact H2.
Qed.

(** An answer that reached the client is the handler's. *)
Lemma exchange_ret {A} (m : Op Srv A) r a r' : exchange m r = (Ret a, r') -> m (rm_srv r) = (Ret a, rm_srv r').
Proof.
  unfold exchange. destruct (rm_link r (rm_calls r)); [|discriminate|]; destruct (m (rm_srv r)) as [[b|e|] s]; try discriminate.
  by intros [= <- <-].
Qed.

#[local] Instance ingest_laws : UploaderLaws Remote.
Proof.
  assert (Hg : forall a u b f, gentle (up_announce a) /\ gentle (up_upload u b) /\ gentle (up_finalize f)).
  { intros a u b f. split; [|split]; apply exchange_gentle; [apply announce_keeps|apply stage_keeps|apply finalize_keeps]. }
  constructor.
  - intros a u b f r. split; [|split]; apply exchange_total.
  - intros a u b f. destruct (Hg a u b f) as ([H1 _] & [H2 _] & [H3 _]). done.
  - intros h a u b f r Hi Hh. destruct (Hg a u b f) as ([_ H1] & [_ H2] & [_ H3]). auto.
  - intros a r resp r' _ E Hd. apply exchange_ret in E. by eapply announce_present_stored.
  - intros f r resp r' _ E. apply exchange_ret in E. by eapply finalize_stores.
Qed.

Context {RFC : Rfc3339} (rt : AgentRuntime).

(** C24. End to end: whatever the network loses and whenever the agent crashes, the
    bytes of a candidate it marks complete are in the server's object store,
    under the agent's tenant and their digest, with an artifact row of it. *)
Theorem completed_captures_are_stored turns (s s' : Agent Remote) : agent_ok s -> Forall turn_ok turns ->
  op_for turns (run_turn rt) s = (Ret tt, s') ->
  forall c, In c (db_candidates (ag_db s')) -> cd_state c = states.COMPLETE ->
    exists h sha a b, cd_sha256 c = Some h /\ hex_to_raw h = Some sha /\
      In a (rows TArtifact (rm_srv (ag_remote s'))) /\ is_artifact tenant sha a /\
      fs_files (srv_cas (rm_srv (ag_remote s'))) !! object_key tenant (hex_encode sha) = Some b /\ sha256_raw b = sha.
Proof.
  intros Hs Ht E c Hc Hst. assert (H : agent_ok s').
  { replace s' with (snd (op_for turns (run_turn rt) s)) by (by rewrite E). by apply keeps_turns. }
  destruct (hd_rows _ _ _ H c Hc) as (h & Hh & sha & Hx & a & Ha & Hia); [by rewrite Hst|].
  pose proof (hd_inv _ _ _ H) as Hwf. destruct (so_rows _ _ Hwf a Ha) as [Hk (b & Hb & Hd)]. destruct Hia as [Hia1 Hia2].
  exists h, sha, a, b. do 4 (split; [done|]). rewrite Hk, Hia1, Hia2 in Hb. split; [exact Hb|congruence].
Qed.

End delivery.

(** ** Witness *)

Section witnesses.
Local Existing Instance ReferenceYara.engine.
Local Existing Instance ReferenceYara.host.
Local Existing Instance ReferenceHash.sha.
Local Existing Instance ReferenceHash.hex.
Local Existing Instance ReferenceHash.hex_laws.
Local Existing Instance ReferenceUuid.display.
Local Existing Instance ReferenceUuid.laws.
Local Existing Instance ReferenceAnalysis.goblin.
Local Existing Instance ReferenceAnalysis.log2.
Local Existing Instance ReferenceAnalysis.decoder.
Local Existing Instance ReferenceAnalysis.order.

Definition to_error (e : Error) : Error := e.
Local Existing Instance show_time.
Local Existing Instance ingest_uploader.
Local Existing Instance ingest_view.

(** A quiet file holding a script. *)
Definition script_env : Env :=
  let key := mkFileKey 1 2 3 0 0 in
  mkEnv (fun _ => mkAttempt None (inr key) None [inr script_bytes; inr []] (fun _ => None) (inr key)) None None.

Definition linked_agent (link : nat -> Link) : Agent Remote :=
  mkAgent (open_db (fun n => 1000 * Z.of_nat n)) sample_spool (mkRemote ReferenceServer.empty link 0) 0.

(** The second exchange loses its response; the first turn dies at its third step. *)
Definition flaky (n : nat) : Link := if (n =? 1)%nat then ResponseLost else LinkUp.
Definition flaky_turns : list (AgentTurn (R := Remote)) :=
  [Observe "/bin/run" 1 "exec" 0; Work script_env 3; Work script_env 100; Work script_env 100].

Definition flaky_end : outcome unit * Agent Remote :=
  op_for flaky_turns (run_turn (UP := ingest_uploader 7%N to_error) sample_runtime) (linked_agent flaky).

Definition flaky_agent : Agent Remote := snd flaky_end.

Lemma flaky_returns : fst flaky_end = Ret tt.
Proof. vm_compute. reflexivity. Qed.

Lemma flaky_states : map (fun c : CandidateRow => (cd_state c, cd_attempts c)) (db_candidates (ag_db flaky_agent)) = [(states.COMPLETE, 1)].
Proof. vm_compute. reflexivity. Qed.

Lemma linked_agent_ok link : agent_ok (UV := ingest_view 7%N) (linked_agent link).
Proof.
  constructor; [|exact store_wf_empty|done|by intros c []].
  constructor; cbn; [apply NoDup_nil_2..|constructor].
Qed.

(** The candidate is complete after one retry, and stored. *)
Lemma completed_captures_are_stored_witness :
  exists a b, In a (rows TArtifact (rm_srv (ag_remote flaky_agent))) /\
    fs_files (srv_cas (rm_srv (ag_remote flaky_agent))) !! object_key 7%N (hex_encode (art_sha256 a)) = Some b /\ sha256_raw b = art_sha256 a.
Proof.
  assert (Hc : exists c, In c (db_candidates (ag_db flaky_agent)) /\ cd_state c = states.COMPLETE).
  { pose proof flaky_states as H. destruct (db_candidates (ag_db flaky_agent)) as [|c l]; [discriminate H|].
    exists c. split; [by left|]. by injection H as H _ _. }
  destruct Hc as (c & Hc & Hst).
  destruct (completed_captures_are_stored 7%N to_error sample_runtime flaky_turns (linked_agent flaky) flaky_agent) with (c := c)
    as (h & sha & a & b & _ & _ & Ha & [_ Hs] & Hb & Hd).
  - apply linked_agent_ok.
  - do 4 (apply List.Forall_cons; [exact I|]). apply List.Forall_nil.
  - change (flaky_end = (Ret tt, flaky_agent)). rewrite <- flaky_returns. apply surjective_pairing.
  - exact Hc.
  - exact Hst.
  - exists a, b. rewrite Hs. split; [exact Ha|]. split; [exact Hb|exact Hd].
Defined.
End witnesses.
