(* ===== verification/Progress.v ===== *)
(** * Progress of the capture pipeline ([corpus-agent/src/capture.rs])

    What one uninterrupted pass over a candidate achieves: it returns after a
    bounded number of steps, and either settles the candidate, or consumes one
    of its attempts and reschedules it, or puts it off for lack of spool space;
    with a readable file and a server that answers, it completes. *)

From S2P Require Import Prelude Machine Text Decimal Hash Cas Schema Functions Ingest AgentState Spool Capture.
From Stdlib Require Import Strings.Byte Strings.Ascii.

Open Scope Z_scope.

(** ** A bound on the steps *)

Create HintDb calm.

Ltac calm :=
  repeat first
    [ solve [eauto 1 with calm nocore]
    | lazymatch goal with
      | |- never_panics (mbind _ _) => apply never_panics_bind; [|intros ?]
      | |- never_panics (match ?x with _ => _ end) => destruct x
      | |- never_panics (update_candidates _ _) => intros ?; unfold update_candidates; case_bool_decide; discriminate
      | |- never_panics (insert_candidate _ _ _ _ _ _) => intros ?; unfold insert_candidate; destruct (existsb _ _); discriminate
      | |- never_panics (or_throw _ ?o) => intros ?; unfold or_throw; destruct o; discriminate
      | |- never_panics _ => intros ?; discriminate
      end ].

(** [m] takes at most [n] steps, and does not panic when it has them. *)
Definition costs {R A} (m : Op (Agent R) A) (n : nat) : Prop := forall s, (n <= ag_steps s)%nat ->
  fst (m s) <> Panic /\ (ag_steps s <= n + ag_steps (snd (m s)))%nat.

Lemma costs_bind {R A B} (m : Op (Agent R) A) (f : A -> Op (Agent R) B) a b :
  costs m a -> (forall x, costs (f x) b) -> costs (m ≫= f) (a + b).
Proof.
  intros Hm Hf s Hs. destruct (Hm s) as [H1 H2]; [lia|]. unfold mbind, op_mbind. destruct (m s) as [[x|e|] s1]; cbn [fst snd] in *.
  - destruct (Hf x s1) as [H3 H4]; [lia|]. split; [done|lia].
  - split; [done|lia].
  - done.
Qed.

Lemma costs_weaken {R A} (m : Op (Agent R) A) a b : costs m a -> (a <= b)%nat -> costs m b.
Proof. intros Hm Hab s Hs. destruct (Hm s) as [H1 H2]; [lia|]. split; [done|lia]. Qed.

Lemma costs_attempt {R A} (m : Op (Agent R) A) n : costs m n -> costs (attempt m) n.
Proof.
  intros Hm s Hs. destruct (Hm s Hs) as [H1 H2]. unfold attempt. destruct (m s) as [[x|e|] s1]; done.
Qed.

Lemma costs_mret {R A} (a : A) : costs (R := R) (mret a) 0.
Proof. intros s _. split; [done|cbn; lia]. Qed.

Lemma costs_throw {R A} e : costs (R := R) (A := A) (throw e) 0.
Proof. intros s _. split; [done|cbn; lia]. Qed.

Lemma costs_db {R A} (m : Op StateDb A) : never_panics m -> costs (R := R) (with_db m) 1.
Proof.
  intros Hm s Hs. unfold with_db. destruct (ag_steps s) eqn:E; [lia|]. specialize (Hm (ag_db s)).
  destruct (m (ag_db s)) as [o db]. split; [done|cbn; lia].
Qed.

Lemma costs_spool {R A} (m : Op Spool A) : never_panics m -> costs (R := R) (with_spool m) 1.
Proof.
  intros Hm s Hs. unfold with_spool. destruct (ag_steps s) eqn:E; [lia|]. specialize (Hm (ag_spool s)).
  destruct (m (ag_spool s)) as [o sp]. split; [done|cbn; lia].
Qed.

Lemma costs_remote {R A} (m : Op R A) : never_panics m -> costs (with_remote m) 1.
Proof.
  intros Hm s Hs. unfold with_remote. destruct (ag_steps s) eqn:E; [lia|]. specialize (Hm (ag_remote s)).
  destruct (m (ag_remote s)) as [o r]. split; [done|cbn; lia].
Qed.

Lemma costs_or_throw {R A} e (o : option A) : costs (R := R) (or_throw e o) 0.
Proof. destruct o; [apply costs_mret|apply costs_throw]. Qed.

Lemma calm_timestamp : never_panics timestamp.
Proof. calm. Qed.
Lemma calm_transition id st : never_panics (transition id st).
Proof. unfold transition. calm. Qed.
Lemma calm_set_retry id t : never_panics (set_retry id t).
Proof. unfold set_retry. calm. Qed.
Lemma calm_defer id t : never_panics (defer id t).
Proof. unfold defer. calm. Qed.
Lemma calm_set_hashed id h z p : never_panics (set_hashed id h z p).
Proof. unfold set_hashed. calm. Qed.
Lemma calm_finish_gap id r : never_panics (finish_gap id r).
Proof. unfold finish_gap. calm. Qed.
Lemma calm_record_gap a b c d e f : never_panics (AgentState.record_gap a b c d e f).
Proof. unfold AgentState.record_gap, increment_counter. calm. Qed.
Lemma calm_next_sequence : never_panics next_sequence.
Proof. unfold next_sequence, get_identity. calm. Qed.
#[export] Hint Resolve calm_timestamp calm_transition calm_set_retry calm_defer calm_set_hashed calm_finish_gap calm_record_gap calm_next_sequence : calm.

(** Adds up the steps of a program. *)
Ltac cost :=
  lazymatch goal with
  | |- costs (mbind _ _) _ => eapply costs_bind; [cost|intros ?; cost]
  | |- costs (attempt _) _ => apply costs_attempt; cost
  | |- costs (with_db _) _ => apply costs_db; calm
  | |- costs (with_spool _) _ => apply costs_spool; calm
  | |- costs (mret _) _ => apply costs_mret
  | |- costs (throw _) _ => apply costs_throw
  | |- costs (or_throw _ _) _ => apply costs_or_throw
  | |- _ => idtac
  end.

Section cost.
  Context {R : Type} {UP : Uploader R} {UV : UploaderView R} {UL : UploaderLaws R}
          {SHA : Sha256} {HEX : HexCodec} {UD : UuidDisplay} {RFC : Rfc3339}.
  Context (rt : AgentRuntime).

Lemma cost_gap cand name detail sha : costs (R := R) (gap cand name detail sha) 2.
Proof. unfold gap, log_gap. eapply costs_weaken; [cost|lia]. Qed.

Lemma cost_retry_later cand secs : costs (R := R) (retry_later cand secs) 2.
Proof. unfold retry_later. eapply costs_weaken; [cost|lia]. Qed.

Lemma cost_retry_or_fail cand why : costs (R := R) (retry_or_fail rt cand why) 2.
Proof. unfold retry_or_fail. destruct (_ <=? _); [apply cost_gap|apply cost_retry_later]. Qed.

Lemma cost_occ env cand seq : costs (R := R) (occ rt env cand seq) 1.
Proof. unfold occ. eapply costs_weaken; [cost|lia]. Qed.

Lemma cost_remove path : costs (R := R) (remove_file path) 1.
Proof. destruct path; [apply costs_spool; calm|eapply costs_weaken; [apply costs_mret|lia]]. Qed.

Lemma cost_complete cand : costs (R := R) (complete cand) 2.
Proof. unfold complete. eapply costs_weaken; [cost|lia]. Qed.

Lemma cost_unspool raw : costs (R := R) (unspool_file rt raw) 0.
Proof.
  intros s _. unfold unspool_file, mbind, op_mbind, attempt, lift_outcome. pose proof decrypt_file_total as Ht.
  unfold unspool. destruct (rt_spool_cipher rt) as [c|]; [|split; [done|cbn; lia]]. specialize (Ht c raw).
  destruct (decrypt_file c raw) as [b|e|]; [split; [done|cbn; lia]..|done].
Qed.

Lemma up_calm a u b f : never_panics (up_announce (R := R) a) /\ never_panics (up_upload (R := R) u b) /\ never_panics (up_finalize (R := R) f).
Proof. split; [|split]; intros r; apply (up_total a u b f r). Qed.

Definition any_announce : AnnounceRequest := mkAnnounceRequest "" 0 None.
Definition any_finalize : FinalizeRequest := mkFinalizeRequest 0%N "" 0 None None None.

Lemma cost_finalize env cand h u : costs (finalize_upload rt env cand h u) 10.
Proof.
  unfold finalize_upload. eapply costs_weaken; [|shelve].
  eapply costs_bind; [cost|intros _]. eapply costs_bind; [cost|intros seq]. eapply costs_bind; [apply cost_occ|intros o].
  eapply (costs_bind _ _ _ 6); [apply costs_attempt, costs_remote, (up_calm any_announce 0%N [])|].
  intros [e|u']; [eapply costs_weaken; [apply cost_retry_or_fail|lia]|]. eapply costs_weaken.
  - eapply costs_bind; [apply cost_complete|intros _]. eapply costs_bind; [cost|intros _]. eapply costs_bind; [cost|intros t].
    eapply costs_bind; [cost|intros _]. apply cost_remove.
  - lia.
  Unshelve. lia.
Qed.

Lemma cost_upload env cand h u : costs (upload_required rt env cand h u) 15.
Proof.
  unfold upload_required. eapply (costs_weaken _ (1 + 14)); [|lia]. eapply costs_bind; [cost|intros _].
  destruct u as [u|]; [|eapply costs_weaken; [apply cost_retry_or_fail|lia]].
  eapply (costs_bind _ _ 1 13); [cost|intros _]. eapply (costs_bind _ _ 1 12); [cost|intros _].
  destruct (cd_spool_path cand) as [path|]; [|eapply costs_weaken; [apply cost_retry_or_fail|lia]].
  eapply (costs_bind _ _ 1 11); [cost|intros found]. eapply (costs_bind _ _ 0 11); [cost|intros raw].
  eapply (costs_bind _ _ 0 11); [apply cost_unspool|intros b].
  eapply (costs_bind _ _ 1 10); [apply costs_attempt, costs_remote, (up_calm any_announce u b any_finalize)|].
  intros [e|u']; [eapply costs_weaken; [apply cost_retry_or_fail|lia]|apply cost_finalize].
Qed.

Lemma cost_announce env cand h : costs (announce_and_upload rt env cand h) 19.
Proof.
  unfold announce_and_upload. eapply (costs_bind _ _ 1 18); [cost|intros seq]. eapply (costs_bind _ _ 1 17); [apply cost_occ|intros o].
  eapply (costs_bind _ _ 1 16); [apply costs_attempt, costs_remote, (up_calm _ 0%N [] any_finalize)|].
  intros [e|ann]; [eapply costs_weaken; [apply cost_retry_or_fail|lia]|]. eapply (costs_bind _ _ 1 15); [cost|intros _].
  destruct (ap_disposition ann); [|apply cost_upload|eapply costs_weaken; [apply cost_gap|lia]..].
  unfold already_present. eapply (costs_bind _ _ 1 14); [cost|intros _]. eapply (costs_bind _ _ 2 12); [apply cost_complete|intros _].
  eapply (costs_bind _ _ 1 11); [cost|intros _]. eapply costs_weaken; [apply cost_remove|lia].
Qed.

Lemma cost_resume env cand : costs (resume_upload rt env cand) 19.
Proof.
  unfold resume_upload. destruct (one_of _ _).
  { eapply (costs_bind _ _ 1 18); [cost|intros _]. eapply costs_weaken; [apply cost_remove|lia]. }
  destruct (cd_sha256 cand); [|eapply costs_weaken; [apply costs_throw|lia]].
  destruct (upload_state _); [apply cost_announce|eapply costs_weaken; [apply costs_mret|lia]].
Qed.

Lemma cost_read_failed cand e : costs (R := R) (read_failed rt cand e) 2.
Proof.
  unfold read_failed. destruct e; cbn [outcome_name]; try apply cost_gap.
  - eapply costs_weaken; [cost|lia].
  - destruct (_ <=? _); [apply cost_gap|apply cost_retry_later].
Qed.

Lemma cost_copy env cand : costs (R := R) (copy_and_hash rt env cand) 5.
Proof.
  unfold copy_and_hash. eapply (costs_bind _ _ 1 4); [cost|intros used]. cbv zeta. eapply (costs_bind _ _ 1 3); [cost|intros _].
  eapply (costs_bind _ _ 1 2).
  - apply costs_spool. intros s. match goal with |- fst (stable_read ?d ?m ?f ?c ?r ?e _) <> _ =>
      destruct (stable_read_returns d m f c r e s) as (o & s' & ->); done end.
  - intros [e|o]; [eapply (costs_bind _ _ 2 0); [apply cost_read_failed|intros _; apply costs_mret]|].
    eapply (costs_bind _ _ 1 1); [cost|intros _]. eapply costs_weaken; [apply costs_mret|lia].
Qed.

Lemma cost_process env cand : costs (process_candidate rt env cand) 26.
Proof.
  unfold process_candidate. eapply (costs_bind _ _ 1 25).
  { destruct (one_of _ _); [eapply (costs_bind _ _ 1 0); [cost|intros _; apply costs_mret]|eapply costs_weaken; [apply costs_mret|lia]]. }
  intros st. eapply (costs_bind _ _ 5 20); [destruct (one_of _ _); [apply cost_copy|eapply costs_weaken; [apply costs_mret|lia]]|].
  intros [|]; [|eapply costs_weaken; [apply costs_mret|lia]].
  eapply (costs_bind _ _ 1 19); [cost|intros [c|]; [apply cost_resume|eapply costs_weaken; [apply costs_mret|lia]]].
Qed.
End cost.

(** ** What becomes of the candidate's row *)

Section progress.
  Context {R : Type} {UP : Uploader R} {SHA : Sha256} {HEX : HexCodec} {UD : UuidDisplay} {RFC : Rfc3339}.
  Context (rt : AgentRuntime).

(** The row of an identifier satisfies [Q]. *)
Definition row_at (id : Z) (Q : CandidateRow -> Prop) (s : Agent R) : Prop :=
  queue_wf (ag_db s) /\ exists r, In r (db_candidates (ag_db s)) /\ cd_id r = id /\ Q r.

(** The wait doubles from 5 seconds and stops at 300. *)
Lemma backoff_doubles n : 0 <= n -> backoff_secs n = Z.min 300 (5 * 2 ^ n).
Proof.
  intros Hn. unfold backoff_secs. destruct (Z.le_gt_cases n 6) as [H6|H6]; [rewrite (Z.min_l n 6) by done; apply Z.min_comm|].
  rewrite (Z.min_r n 6) by lia. assert (H : 2 ^ 6 <= 2 ^ n) by (apply Z.pow_le_mono_r; lia). change (2 ^ 6) with 64 in *. lia.
Qed.

Lemma row_weaken id (Q Q' : CandidateRow -> Prop) s : (forall r, Q r -> Q' r) -> row_at id Q s -> row_at id Q' s.
Proof. intros H (Hq & r & Hr & Hid & HQ). split; [done|]. exists r. auto. Qed.

Lemma row_frame {A} id Q (m : Op StateDb A) : frames queue m -> keeps (row_at id Q) (with_db m).
Proof.
  intros Hf s [Hq Hr]. unfold with_db. destruct (ag_steps s); [by split|]. pose proof (Hf (ag_db s)) as E.
  pose proof (queue_wf_frame m Hf _ Hq) as Hq'. destruct (m (ag_db s)) as [o db]. unfold queue in E. cbn [snd] in *. injection E as El _.
  split; [exact Hq'|]. cbn [ag_db]. by rewrite El.
Qed.

Lemma gaps_finish id name (s : Agent R) : db_gaps (ag_db (snd (with_db (finish_gap id name) s))) = db_gaps (ag_db s).
Proof.
  unfold with_db. destruct (ag_steps s); [done|]. unfold finish_gap. erewrite bind_run by reflexivity.
  unfold mbind, op_mbind, update_candidates. by case_bool_decide.
Qed.

Lemma row_spool {A} id Q (m : Op Spool A) : keeps (row_at id Q) (with_spool m).
Proof. intros s H. unfold with_spool. destruct (ag_steps s); [done|]. by destruct (m (ag_spool s)). Qed.

Lemma row_remote {A} id Q (m : Op R A) : keeps (row_at id Q) (with_remote m).
Proof. intros s H. unfold with_remote. destruct (ag_steps s); [done|]. by destruct (m (ag_remote s)). Qed.

(** An update of an active row succeeds, unless the process dies before it, and
    stamps the row with the time read. *)
Lemma row_step_at id (f : Z -> CandidateRow -> CandidateRow) (Q Q' : CandidateRow -> Prop) s :
  row_at id Q s -> (forall t (c : CandidateRow), cd_id (f t c) = cd_id c /\ cd_path (f t c) = cd_path c) ->
  (forall r, Q r -> active r = true) ->
  (forall r : CandidateRow, cd_id r = id -> Q r -> Q' (f (db_clock (ag_db s) (db_clock_next (ag_db s))) r)) ->
  match with_db (R := R) (t ← timestamp; _ ← update_candidates (has_id id) (f t); mret tt) s with
  | (Ret _, s') => row_at id Q' s' | (Fail _, _) => False | (Panic, s') => s' = s
  end.
Proof.
  intros (Hq & r & Hr & Hid & HQ) Hf Ha Hf'. unfold with_db. destruct (ag_steps s) as [|k]; [done|].
  erewrite bind_run; [|reflexivity]. set (s1 := snd (timestamp (ag_db s))).
  assert (Hq1 : queue_wf s1) by (apply queue_wf_frame; [queue_frame|done]). set (t := db_clock (ag_db s) _).
  assert (Huniq : forall c, In c (db_candidates s1) -> cd_id c = id -> c = r).
  { intros c Hc Hcid. apply (nodup_map_inj (fun c : CandidateRow => cd_id c) (db_candidates s1)); [apply Hq1|done|exact Hr|congruence]. }
  assert (Hu : update_candidates (has_id id) (f t) s1 = (Ret (map (f t) (List.filter (has_id id) (db_candidates s1))),
    set_candidates (map (fun c => if has_id id c then f t c else c) (db_candidates s1)) (db_candidate_seq s1) s1)).
  { unfold update_candidates. rewrite bool_decide_eq_true_2; [done|]. eapply sublist_NoDup; [apply Hq1|].
    assert (Hm : map (fun c => if has_id id c then f t c else c) (db_candidates s1) =
                 map (fun c => if has_id id c && active c then f t c else c) (db_candidates s1)).
    { apply map_ext_in. intros c Hc. destruct (has_id id c) eqn:E; [|done]. apply Z.eqb_eq in E. rewrite (Huniq c Hc E), Ha by done. done. }
    rewrite Hm. apply active_paths_update; intros c [_ Hc]%andb_true_iff; [by intros; apply Hf|done]. }
  rewrite (bind_run _ _ _ _ _ Hu). cbn. split.
  - pose proof (keeps_update_wf (has_id id) (f t) (fun c => proj1 (Hf t c)) s1 Hq1) as Hk. by rewrite Hu in Hk.
  - exists (f t r). split; [|split; [by rewrite (proj1 (Hf t r))|by apply Hf']]. apply in_map_iff. exists r. split; [|exact Hr].
    unfold has_id. by rewrite (proj2 (Z.eqb_eq _ _) Hid).
Qed.

Lemma row_step id (f : Z -> CandidateRow -> CandidateRow) (Q Q' : CandidateRow -> Prop) s :
  row_at id Q s -> (forall t (c : CandidateRow), cd_id (f t c) = cd_id c /\ cd_path (f t c) = cd_path c) ->
  (forall r, Q r -> active r = true) -> (forall t (r : CandidateRow), cd_id r = id -> Q r -> Q' (f t r)) ->
  match with_db (R := R) (t ← timestamp; _ ← update_candidates (has_id id) (f t); mret tt) s with
  | (Ret _, s') => row_at id Q' s' | (Fail _, _) => False | (Panic, s') => s' = s
  end.
Proof. intros Hs Hf Ha Hf'. apply (row_step_at id f Q Q' s Hs Hf Ha). intros r. apply Hf'. Qed.

(** From [P], [m] returns in [D], fails in [P], or dies. *)
Definition ends {A} (P D : Agent R -> Prop) (m : Op (Agent R) A) : Prop := forall s, P s ->
  match m s with (Ret _, s') => D s' | (Fail _, s') => P s' | (Panic, _) => True end.

(** From [D], [m] returns in [D] or dies. *)
Definition sure {A} (D : Agent R -> Prop) (m : Op (Agent R) A) : Prop := forall s, D s ->
  match m s with (Ret _, s') => D s' | (Fail _, _) => False | (Panic, _) => True end.

Lemma ends_bind {A B} P D (m : Op (Agent R) A) (f : A -> Op (Agent R) B) :
  keeps P m -> (forall a, ends P D (f a)) -> ends P D (m ≫= f).
Proof.
  intros Hm Hf s Hs. unfold mbind, op_mbind. specialize (Hm s Hs). destruct (m s) as [[a|e|] s1]; [by apply Hf|exact Hm|exact I].
Qed.

Lemma ends_weaken {A} P (D D' : Agent R -> Prop) (m : Op (Agent R) A) : (forall s, D s -> D' s) -> ends P D m -> ends P D' m.
Proof. intros HD Hm s Hs. specialize (Hm s Hs). destruct (m s) as [[a|e|] s1]; auto. Qed.

Lemma ends_then {A B} P D (m : Op (Agent R) A) (f : A -> Op (Agent R) B) : ends P D m -> (forall a, sure D (f a)) -> ends P D (m ≫= f).
Proof.
  intros Hm Hf s Hs. unfold mbind, op_mbind. specialize (Hm s Hs). destruct (m s) as [[a|e|] s1]; [|exact Hm|exact I].
  specialize (Hf a s1 Hm). by destruct (f a s1) as [[b|e|] s2].
Qed.

Lemma sure_bind {A B} D (m : Op (Agent R) A) (f : A -> Op (Agent R) B) : sure D m -> (forall a, sure D (f a)) -> sure D (m ≫= f).
Proof.
  intros Hm Hf s Hs. unfold mbind, op_mbind. specialize (Hm s Hs). destruct (m s) as [[a|e|] s1]; [by apply Hf|done|done].
Qed.

Lemma sure_mret {A} D (a : A) : sure D (mret a).
Proof. by intros s. Qed.

Lemma sure_db {A} id Q (m : Op StateDb A) : frames queue m -> (forall s, is_ret (fst (m s)) = true) -> sure (row_at id Q) (with_db m).
Proof.
  intros Hf Hr s Hs. pose proof (row_frame id Q m Hf s Hs) as Hk. unfold with_db in *. destruct (ag_steps s); [done|].
  specialize (Hr (ag_db s)). destruct (m (ag_db s)) as [[a|e|] db]; done.
Qed.

Lemma sure_remove id Q path : sure (row_at id Q) (remove_file path).
Proof. destruct path as [p|]; [|apply sure_mret]. intros s Hs. unfold remove_file, with_spool. by destruct (ag_steps s). Qed.

(** *** The clock *)

(** The clock is read, not set. *)
Definition ticking {A} (m : Op StateDb A) : Prop := forall s,
  db_clock (snd (m s)) = db_clock s /\ (db_clock_next s <= db_clock_next (snd (m s)))%nat.

Lemma ticking_bind {A B} (m : Op StateDb A) (f : A -> Op StateDb B) : ticking m -> (forall a, ticking (f a)) -> ticking (m ≫= f).
Proof.
  intros Hm Hf s. specialize (Hm s). unfold mbind, op_mbind. destruct (m s) as [[a|e|] s1]; [|exact Hm..].
  cbn [snd] in Hm. destruct Hm as [H1 H2], (Hf a s1) as [H3 H4]. split; [congruence|lia].
Qed.

Lemma ticking_or_throw {A} e (o : option A) : ticking (or_throw e o).
Proof. intros s. by destruct o. Qed.

Lemma ticking_update p f : ticking (update_candidates p f).
Proof. intros s. unfold update_candidates. by case_bool_decide. Qed.

Lemma ticking_timestamp : ticking timestamp.
Proof. intros s. split; [done|cbn; lia]. Qed.

Ltac ticks :=
  repeat first
    [ apply ticking_timestamp | apply ticking_update | apply ticking_or_throw
    | apply ticking_bind; [|intros ?]
    | solve [intros ?; split; [reflexivity|cbn; lia]] ].

Section timed.
  Context (clk : nat -> Z) (lo : nat).

(** The clock is [clk], of which [lo] readings are past. *)
Definition clocked (s : Agent R) : Prop := db_clock (ag_db s) = clk /\ (lo <= db_clock_next (ag_db s))%nat.

Lemma clocked_db {A} (m : Op StateDb A) : ticking m -> keeps clocked (with_db m).
Proof.
  intros Hm s [H1 H2]. unfold with_db. destruct (ag_steps s); [by split|]. destruct (Hm (ag_db s)) as [H3 H4].
  destruct (m (ag_db s)) as [o db]. split; cbn in *; [congruence|lia].
Qed.

Lemma clocked_spool {A} (m : Op Spool A) : keeps clocked (with_spool m).
Proof. intros s H. unfold with_spool. destruct (ag_steps s); [done|]. by destruct (m (ag_spool s)). Qed.

Lemma clocked_remote {A} (m : Op R A) : keeps clocked (with_remote m).
Proof. intros s H. unfold with_remote. destruct (ag_steps s); [done|]. by destruct (m (ag_remote s)). Qed.

(** A row put off: by a time counted from one reading, stamped by the next. *)
Lemma put_off id (f : Z -> Z -> CandidateRow -> CandidateRow) (Q Q' : CandidateRow -> Prop) s :
  row_at id Q s -> clocked s -> (forall t u (c : CandidateRow), cd_id (f t u c) = cd_id c /\ cd_path (f t u c) = cd_path c) ->
  (forall r, Q r -> active r = true) -> (forall k (r : CandidateRow), (lo <= k)%nat -> cd_id r = id -> Q r -> Q' (f (clk k) (clk (S k)) r)) ->
  match (t ← with_db timestamp; with_db (u ← timestamp; _ ← update_candidates (has_id id) (f t u); mret tt)) s with
  | (Ret _, s') => row_at id Q' s' | (Fail _, _) => False | (Panic, _) => True
  end.
Proof.
  intros Hs [Hc Hlo] Hf Ha Hf'. unfold mbind at 1, op_mbind at 1. pose proof (row_frame id Q timestamp frames_queue_timestamp s Hs) as Hs1. revert Hs1.
  unfold with_db at 1 2. destruct (ag_steps s) as [|n]; [done|]. rewrite (surjective_pairing (timestamp (ag_db s))). cbn [fst snd].
  set (s1 := mkAgent _ _ _ _). intros Hs1. change (fst (timestamp (ag_db s))) with (Ret (db_clock (ag_db s) (db_clock_next (ag_db s)))). cbn beta iota.
  pose proof (row_step_at id (f (db_clock (ag_db s) (db_clock_next (ag_db s)))) Q Q' s1 Hs1 (Hf _) Ha) as H.
  destruct (with_db _ s1) as [[a|e|] s2]; [apply H|apply H|exact I]; intros r Hr HQ; cbn; rewrite Hc; by apply Hf'.
Qed.

(** *** Where a pass leads *)

(** Still to be done, as it was. *)
Definition pending (c : Candidate) (r : CandidateRow) : Prop :=
  active r = true /\ cd_attempts r = cd_attempts c /\ cd_path r = cd_path c /\ cd_capture_reason r = cd_capture_reason c.

(** One attempt more, which there was, at reading [k] of the clock; due again
    after 5 seconds, doubled for each attempt before, and 300 at most. *)
Definition retried (c : Candidate) (r : CandidateRow) : Prop :=
  cd_attempts c < rt_max_attempts rt /\ active r = true /\ cd_attempts r = cd_attempts c + 1 /\
  exists k, (lo <= k)%nat /\ cw_updated_at r = clk (S k) /\ cd_next_retry_at r = clk k + backoff_secs (cd_attempts c) /\
    (0 <= cd_attempts c -> cd_next_retry_at r = clk k + Z.min 300 (5 * 2 ^ cd_attempts c)).

(** Put off half a minute, at no cost. *)
Definition deferred (c : Candidate) (r : CandidateRow) : Prop :=
  active r = true /\ cd_attempts r = cd_attempts c /\ cd_state r = states.COPYING_AND_HASHING /\
  exists k, (lo <= k)%nat /\ cw_updated_at r = clk (S k) /\ cd_next_retry_at r = clk k + 30.

(** Given up, with a pending gap that says why. *)
Definition given_up (c : Candidate) (s : Agent R) : Prop :=
  exists g, In g (db_gaps (ag_db s)) /\ pg_path g = Some (cd_path c) /\ pg_capture_reason g = cd_capture_reason c /\
    row_at (cd_id c) (fun r => cd_state r = states.GAP_RECORDED /\ cd_terminal_reason r = Some (pg_terminal_outcome g)) s.

Definition moved (c : Candidate) (r : CandidateRow) : Prop := cd_state r = states.COMPLETE \/ retried c r \/ deferred c r.

Definition moved_on (c : Candidate) (s : Agent R) : Prop := row_at (cd_id c) (moved c) s \/ given_up c s.
Definition awaiting (c : Candidate) (s : Agent R) : Prop := row_at (cd_id c) (pending c) s /\ clocked s.

(** The same candidate, whatever its state. *)
Record alike (c c' : Candidate) : Prop := {
  al_id : cd_id c = cd_id c'; al_attempts : cd_attempts c = cd_attempts c'; al_path : cd_path c = cd_path c';
  al_reason : cd_capture_reason c = cd_capture_reason c' }.

Lemma awaiting_alike c c' s : alike c c' -> awaiting c s -> awaiting c' s.
Proof. intros [E1 E2 E3 E4]. unfold awaiting, pending. by rewrite E1, E2, E3, E4. Qed.

Lemma moved_on_alike c c' s : alike c c' -> moved_on c s -> moved_on c' s.
Proof. intros [E1 E2 E3 E4]. unfold moved_on, moved, retried, deferred, given_up. by rewrite E1, E2, E3, E4. Qed.

(** *** The operations *)

Section cand.
  Context (cand : Candidate).

Definition finished : Agent R -> Prop := row_at (cd_id cand) (fun r => cd_state r = states.COMPLETE).

Lemma finished_moved_on s : finished s -> moved_on cand s.
Proof. intros H. left. revert H. apply row_weaken. by left. Qed.

Lemma await_update (f : Z -> CandidateRow -> CandidateRow) :
  (forall t (c : CandidateRow), cd_id (f t c) = cd_id c /\ cd_path (f t c) = cd_path c) ->
  (forall t r, pending cand r -> pending cand (f t r)) ->
  keeps (awaiting cand) (with_db (t ← timestamp; _ ← update_candidates (has_id (cd_id cand)) (f t); mret tt)).
Proof.
  intros Hf Hp s [Hs Hc]. split; [|apply clocked_db; [ticks|exact Hc]].
  pose proof (row_step (cd_id cand) f _ (pending cand) s Hs Hf) as H.
  destruct (with_db _ s) as [[a|e|] s']; cbn [snd].
  - apply H; [by intros r [H1 _]|]. intros t r _. apply Hp.
  - destruct H; [by intros r [H1 _]|]. intros t r _. apply Hp.
  - rewrite H; [exact Hs|by intros r [H1 _]|]. intros t r _. apply Hp.
Qed.

(** An update ends the wait. *)
Lemma ends_update (f : Z -> CandidateRow -> CandidateRow) (Q : CandidateRow -> Prop) :
  (forall t (c : CandidateRow), cd_id (f t c) = cd_id c /\ cd_path (f t c) = cd_path c) -> (forall t r, pending cand r -> Q (f t r)) ->
  ends (awaiting cand) (row_at (cd_id cand) Q) (with_db (t ← timestamp; _ ← update_candidates (has_id (cd_id cand)) (f t); mret tt)).
Proof.
  intros Hf Hm s [Hs _]. pose proof (row_step (cd_id cand) f _ Q s Hs Hf) as H.
  destruct (with_db _ s) as [[a|e|] s']; [apply H|destruct H|exact I]; try (by intros r [H1 _]); intros t r _; apply Hm.
Qed.

Lemma await_transition st : negb (String.eqb st states.COMPLETE || String.eqb st states.GAP_RECORDED) = true ->
  keeps (awaiting cand) (with_db (transition (cd_id cand) st)).
Proof. intros H. apply await_update; [done|]. by intros t r (_ & ? & ? & ?). Qed.

Lemma await_frame {A} (m : Op StateDb A) : frames queue m -> ticking m -> keeps (awaiting cand) (with_db m).
Proof. intros Hf Ht s [Hs Hc]. split; [by apply row_frame|by apply clocked_db]. Qed.

Lemma await_spool {A} (m : Op Spool A) : keeps (awaiting cand) (with_spool m).
Proof. intros s [Hs Hc]. split; [by apply row_spool|by apply clocked_spool]. Qed.

Lemma await_remote {A} (m : Op R A) : keeps (awaiting cand) (with_remote m).
Proof. intros s [Hs Hc]. split; [by apply row_remote|by apply clocked_remote]. Qed.

Lemma await_sequence : keeps (awaiting cand) (with_db next_sequence).
Proof. apply await_frame; [unfold next_sequence, get_identity; queue_frame|unfold next_sequence, get_identity; ticks]. Qed.

Lemma await_occ env seq : keeps (awaiting cand) (occ rt env cand seq).
Proof. unfold occ. apply keeps_bind; [apply await_frame; [queue_frame|ticks]|intros t; apply keeps_mret]. Qed.

Lemma ends_complete_state : ends (awaiting cand) finished (with_db (transition (cd_id cand) states.COMPLETE)).
Proof. by apply ends_update. Qed.

Lemma ends_complete : ends (awaiting cand) finished (complete cand).
Proof. unfold complete. apply ends_bind; [by apply await_transition|intros _; apply ends_complete_state]. Qed.

(** A gap is recorded, then the row given up. *)
Lemma ends_gap name detail sha : ends (awaiting cand) (moved_on cand) (gap cand name detail sha).
Proof.
  intros s Hs. unfold gap, log_gap. rewrite bind_assoc_run. unfold mbind at 1, op_mbind at 1, attempt at 1.
  assert (Hk : keeps (awaiting cand) (with_db (AgentState.record_gap (cd_capture_reason cand) name sha (Some (cd_path cand)) None detail))).
  { unfold AgentState.record_gap, increment_counter. apply await_frame; [queue_frame|ticks]. }
  specialize (Hk s Hs). revert Hk. unfold with_db at 1 2. destruct (ag_steps s) as [|n]; [done|].
  rewrite (surjective_pairing (AgentState.record_gap _ _ _ _ _ _ _)).
  change (fst (AgentState.record_gap (cd_capture_reason cand) name sha (Some (cd_path cand)) None detail (ag_db s))) with (Ret tt). cbn [snd fst].
  set (s1 := mkAgent _ _ _ _). intros Hs1. unfold mbind, op_mbind, mret, op_mret.
  pose proof (ends_update (fun t c => mkCandidateRow (mkCandidate (cd_id c) (cd_path c) (cd_priority c) (cd_capture_reason c) states.GAP_RECORDED (cd_attempts c)
      (cd_next_retry_at c) (cd_size_bytes c) (cd_sha256 c) (cd_spool_path c) (Some name)) (cw_created_at c) t)
    (fun r => cd_state r = states.GAP_RECORDED /\ cd_terminal_reason r = Some name) (fun _ _ => conj eq_refl eq_refl)
    (fun _ _ _ => conj eq_refl eq_refl) s1 Hs1) as H.
  pose proof (gaps_finish (cd_id cand) name s1) as Hg. unfold finish_gap in *. destruct (with_db _ s1) as [[u|e|] s2]; [|exact H|exact I].
  right. exists (mkPendingGap (db_gap_seq (ag_db s) + 1) (db_clock (ag_db s) (db_clock_next (ag_db s))) (cd_capture_reason cand) name sha (Some (cd_path cand)) None detail).
  split; [|do 2 (split; [done|]); exact H]. cbn [snd] in Hg. rewrite Hg. cbn. apply in_app_iff. right. by left.
Qed.

(** Rescheduling, when an attempt is left. *)
Lemma ends_retry s : cd_attempts cand < rt_max_attempts rt -> awaiting cand s ->
  match retry_later cand (backoff_secs (cd_attempts cand)) s with
  | (Ret _, s') => moved_on cand s' | (Fail _, _) => False | (Panic, _) => True
  end.
Proof.
  intros Hn [Hs Hc]. pose proof (put_off (cd_id cand) (fun t u c => with_retry (cd_attempts c + 1) (t + backoff_secs (cd_attempts cand)) u c)
    (pending cand) (moved cand) s Hs Hc) as H.
  unfold retry_later, set_retry. match goal with |- match ?m with _ => _ end => destruct m as [[a|e|] s'] end; [left; apply H|apply H|exact I]; try done; try (by intros r [Ha _]).
  all: intros k r Hk _ (Ha & Hr & _ & _); right; left; (split; [done|]); (split; [exact Ha|]); (split; [cbn; by rewrite Hr|]).
  all: exists k; (split; [done|]); (split; [done|]); (split; [done|]); intros H0; cbn; by rewrite backoff_doubles.
Qed.

Lemma ends_retry_or_fail why : ends (awaiting cand) (moved_on cand) (retry_or_fail rt cand why).
Proof.
  unfold retry_or_fail. destruct (Z.leb_spec (rt_max_attempts rt) (cd_attempts cand)); [apply ends_gap|].
  intros s Hs. pose proof (ends_retry s H Hs) as Hr. by destruct (retry_later _ _ s) as [[a|e|] s'].
Qed.

Lemma sure_counter_remove o path : sure finished (with_db (increment_counter o) ;; remove_file path).
Proof. apply sure_bind; [apply sure_db; [unfold increment_counter; queue_frame|done]|intros _; apply sure_remove]. Qed.

Lemma ends_finalize env h u : ends (awaiting cand) (moved_on cand) (finalize_upload rt env cand h u).
Proof.
  unfold finalize_upload. apply ends_bind; [by apply await_transition|intros _]. apply ends_bind; [apply await_sequence|intros seq].
  apply ends_bind; [apply await_occ|intros o]. apply ends_bind; [apply keeps_attempt, await_remote|intros [e|r]]; [apply ends_retry_or_fail|].
  apply (ends_weaken _ finished); [apply finished_moved_on|].
  apply ends_then; [apply ends_complete|intros _]. apply sure_bind; [apply sure_db; [unfold increment_counter; queue_frame|done]|intros _].
  apply sure_bind; [apply sure_db; [queue_frame|done]|intros t]. apply sure_bind; [apply sure_db; [queue_frame|done]|intros _]. apply sure_remove.
Qed.

Lemma ends_upload env h u : ends (awaiting cand) (moved_on cand) (upload_required rt env cand h u).
Proof.
  unfold upload_required. apply ends_bind; [by apply await_transition|intros _]. destruct u as [u|]; [|apply ends_retry_or_fail].
  apply ends_bind; [apply await_frame; [queue_frame|unfold set_identity; ticks]|intros _]. apply ends_bind; [by apply await_transition|intros _].
  destruct (cd_spool_path cand) as [path|]; [|apply ends_retry_or_fail].
  apply ends_bind; [apply await_spool|intros found]. apply ends_bind; [apply keeps_or_throw|intros raw].
  apply ends_bind; [unfold unspool_file; keeps_tac|intros b].
  apply ends_bind; [apply keeps_attempt, await_remote|intros [e|x]]; [apply ends_retry_or_fail|apply ends_finalize].
Qed.

Lemma ends_announce env h : ends (awaiting cand) (moved_on cand) (announce_and_upload rt env cand h).
Proof.
  unfold announce_and_upload. apply ends_bind; [apply await_sequence|intros seq]. apply ends_bind; [apply await_occ|intros o].
  apply ends_bind; [apply keeps_attempt, await_remote|intros [e|ann]]; [apply ends_retry_or_fail|].
  apply ends_bind; [by apply await_transition|intros _]. destruct (ap_disposition ann); [|apply ends_upload|apply ends_gap..].
  unfold already_present. apply ends_bind; [by apply await_transition|intros _]. apply (ends_weaken _ finished); [apply finished_moved_on|].
  apply ends_then; [apply ends_complete|intros _]. apply sure_counter_remove.
Qed.

(** The states a pass resumes from without reading the file again. *)
Definition late_state (st : string) : bool := one_of st [states.DEDUP_HIT; states.OCCURRENCE_QUEUED] || upload_state st.

Lemma ends_resume env : late_state (cd_state cand) = true -> ends (awaiting cand) (moved_on cand) (resume_upload rt env cand).
Proof.
  intros Hl. unfold resume_upload, late_state in *. destruct (one_of _ _).
  { apply (ends_weaken _ finished); [apply finished_moved_on|]. apply ends_then; [apply ends_complete_state|intros _; apply sure_remove]. }
  cbn [orb] in Hl. rewrite Hl. destruct (cd_sha256 cand); [apply ends_announce|]. intros s Hs. exact Hs.
Qed.

(** While the file is copied, and once it is. *)
Definition awaiting_in (st : string) (s : Agent R) : Prop := row_at (cd_id cand) (fun r => pending cand r /\ cd_state r = st) s /\ clocked s.

Lemma awaiting_in_awaiting st s : awaiting_in st s -> awaiting cand s.
Proof. intros [H Hc]. split; [|exact Hc]. revert H. apply row_weaken. by intros r [H _]. Qed.

Lemma read_failed_ends e s : awaiting_in states.COPYING_AND_HASHING s ->
  match read_failed rt cand e s with (Ret _, s') => moved_on cand s' | (Fail _, s') => awaiting cand s' | (Panic, _) => True end.
Proof.
  intros Hs. pose proof (awaiting_in_awaiting _ _ Hs) as Hw. unfold read_failed. destruct e; cbn [outcome_name]; try (by apply ends_gap).
  - destruct Hs as [Hs Hc]. pose proof (put_off (cd_id cand) (fun t u c => with_retry (cd_attempts c) (t + 30) u c) _ (moved cand) s Hs Hc) as H.
    unfold defer. match goal with |- match ?m with _ => _ end => destruct m as [[a|e|] s'] end; [left; apply H|destruct H|exact I]; try done; try (by intros r [[Ha _] _]).
    all: intros k r Hk _ [(Ha & Hr & _) Hst]; right; right; (split; [exact Ha|]); (split; [exact Hr|]); (split; [exact Hst|]); by exists k.
  - destruct (Z.leb_spec (rt_max_attempts rt) (cd_attempts cand)); [by apply ends_gap|].
    pose proof (ends_retry s H Hw) as Hr. by destruct (retry_later _ _ s) as [[a|e|] s'].
Qed.

(** An update that leaves the candidate awaiting, in a new state. *)
Lemma update_awaits st (f : Z -> CandidateRow -> CandidateRow) s : awaiting cand s ->
  (forall t (c : CandidateRow), cd_id (f t c) = cd_id c /\ cd_path (f t c) = cd_path c) ->
  (forall t r, pending cand r -> pending cand (f t r) /\ cd_state (f t r) = st) ->
  match with_db (t ← timestamp; _ ← update_candidates (has_id (cd_id cand)) (f t); mret tt) s with
  | (Ret _, s') => awaiting_in st s' | (Fail _, _) => False | (Panic, _) => True
  end.
Proof.
  intros [Hs Hc] Hf Hp. pose proof (row_step (cd_id cand) f _ (fun r => pending cand r /\ cd_state r = st) s Hs Hf) as H.
  assert (Ht : keeps clocked (with_db (t ← timestamp; _ ← update_candidates (has_id (cd_id cand)) (f t); mret tt))) by (apply clocked_db; ticks).
  specialize (Ht s Hc). destruct (with_db _ s) as [[a|e|] s']; [split; [apply H|exact Ht]|apply H|exact I]; try (by intros r [H1 _]).
  all: intros t r _; apply Hp.
Qed.

Lemma copy_ends env s : awaiting cand s ->
  match copy_and_hash rt env cand s with
  | (Ret true, s') => awaiting_in states.HASHED s' | (Ret false, s') => moved_on cand s' | (Fail _, s') => awaiting cand s' | (Panic, _) => True
  end.
Proof.
  intros Hs. unfold copy_and_hash. unfold mbind at 1, op_mbind at 1.
  pose proof (await_spool (gets spool_used_bytes) s Hs) as Hk. destruct (with_spool _ s) as [[used|e|] s1]; [|exact Hk|exact I].
  cbv zeta. cbn [snd] in Hk. unfold mbind at 1, op_mbind at 1.
  pose proof (update_awaits states.COPYING_AND_HASHING (with_state states.COPYING_AND_HASHING) s1 Hk (fun _ _ => conj eq_refl eq_refl)
    (fun _ _ H => conj (conj eq_refl (proj2 H)) eq_refl)) as H2.
  unfold transition. destruct (with_db _ s1) as [[u|e|] s2]; [|destruct H2|exact I]. unfold mbind at 1, op_mbind at 1.
  match goal with |- context [with_spool ?m s2] => pose proof (row_spool (cd_id cand) _ m s2 (proj1 H2)) as H3;
    pose proof (clocked_spool m s2 (proj2 H2)) as H3'; destruct (with_spool m s2) as [[o|e|] s3] end; cbn [snd] in H3, H3'.
  2: { apply (awaiting_in_awaiting states.COPYING_AND_HASHING). by split. }
  2: exact I.
  destruct o as [e|res]; unfold mbind, op_mbind.
  - pose proof (read_failed_ends e s3 (conj H3 H3')) as H4. destruct (read_failed rt cand e s3) as [[v|e'|] s4]; done.
  - pose proof (update_awaits states.HASHED (fun t c =>
        mkCandidateRow (mkCandidate (cd_id c) (cd_path c) (cd_priority c) (cd_capture_reason c) states.HASHED (cd_attempts c)
          (cd_next_retry_at c) (Some (as_i64 (sr_size res))) (Some (sr_sha256 res)) (Some (sr_spool_path res)) (cd_terminal_reason c)) (cw_created_at c) t)
        s3 (awaiting_in_awaiting _ _ (conj H3 H3')) (fun _ _ => conj eq_refl eq_refl) (fun _ _ H => conj (conj eq_refl (proj2 H)) eq_refl)) as H.
    unfold set_hashed. by destruct (with_db _ s3) as [[v|e|] s4].
Qed.
End cand.

Definition early_state (st : string) : bool :=
  one_of st [states.DEBOUNCING; states.OBSERVED; states.OPENING; states.COPYING_AND_HASHING].

(** The reloaded candidate is the row's. *)
Lemma reload_ends env c s (K : string -> Prop) : (forall st, K st -> late_state st = true) ->
  row_at (cd_id c) (fun r => pending c r /\ K (cd_state r)) s -> clocked s ->
  match (found ← with_db (get_candidate (cd_id c)); match found with None => mret tt | Some cand => resume_upload rt env cand end) s with
  | (Ret _, s') => moved_on c s' | (Fail _, s') => awaiting c s' | (Panic, _) => True
  end.
Proof.
  intros HK (Hq & r & Hr & Hid & (Ha & Hn & Hp & Hre) & Hst) Hc. unfold mbind, op_mbind, with_db. destruct (ag_steps s) as [|k]; [done|].
  assert (E : get_candidate (cd_id c) (ag_db s) = (Ret (Some (cw_candidate r)), ag_db s)).
  { unfold get_candidate, gets. rewrite <- Hid. by rewrite (filter_has_id _ r (qw_ids _ Hq) Hr). }
  rewrite E. set (s1 := mkAgent (ag_db s) (ag_spool s) (ag_remote s) k).
  assert (H1 : awaiting (cw_candidate r) s1) by (split; [split; [exact Hq|]; by exists r|exact Hc]).
  pose proof (ends_resume (cw_candidate r) env (HK _ Hst) s1 H1) as H. destruct (resume_upload _ _ _ s1) as [[u|e|] s2]; [|by apply (awaiting_alike r)|exact I].
  by apply (moved_on_alike r).
Qed.

Lemma copy_then_reload env cand s : awaiting cand s ->
  match (go_on ← copy_and_hash rt env cand;
         if (go_on : bool) then
           found ← with_db (get_candidate (cd_id cand));
           match found with None => mret tt | Some c => resume_upload rt env c end
         else mret tt) s with
  | (Ret _, s') => moved_on cand s' | (Fail _, s') => awaiting cand s' | (Panic, _) => True
  end.
Proof.
  intros Hs. unfold mbind at 1, op_mbind at 1. pose proof (copy_ends cand env s Hs) as Hc.
  destruct (copy_and_hash rt env cand s) as [[[|]|e|] s1]; [|exact Hc..].
  apply (reload_ends env cand s1 (fun st => st = states.HASHED)); [by intros st ->|apply Hc..].
Qed.

Lemma process_ends env (r : CandidateRow) s : queue_wf (ag_db s) -> clocked s -> In r (db_candidates (ag_db s)) -> active r = true ->
  early_state (cd_state r) || late_state (cd_state r) = true ->
  match process_candidate rt env r s with
  | (Ret _, s') => moved_on r s' | (Fail _, s') => awaiting r s' | (Panic, _) => True
  end.
Proof.
  intros Hq Hc Hr Ha Hst. assert (Hs : awaiting r s) by (split; [split; [exact Hq|]; by exists r|exact Hc]). unfold process_candidate.
  destruct (one_of (cd_state r) [states.DEBOUNCING; states.OBSERVED]) eqn:E1.
  - rewrite bind_assoc_run. refine (ends_bind _ _ _ _ (await_transition r states.OPENING eq_refl) _ s Hs).
    intros _ s1 H1. exact (copy_then_reload env r s1 H1).
  - unfold mbind at 1, op_mbind at 1. cbn [mret op_mret]. destruct (one_of (cd_state r) [states.OPENING; states.COPYING_AND_HASHING]) eqn:E2.
    { by apply copy_then_reload. }
    unfold mbind at 1, op_mbind at 1. cbn [mret op_mret].
    apply (reload_ends env r s (fun st => st = cd_state r)); [|split; [exact Hq|]; by exists r|exact Hc].
    intros st ->. assert (He : early_state (cd_state r) = false); [|by rewrite He in Hst].
    unfold early_state, one_of in *. cbn [existsb] in *. rewrite !orb_false_iff in E1, E2. destruct E1 as (-> & -> & _), E2 as (-> & -> & _). done.
Qed.
End timed.

(** C7. A pass over a leased candidate always returns, within 26 steps.  When it
    reports no error the candidate has moved on.  It is complete; or it is given
    up, and a pending gap of its path says why; or it has used one of the attempts
    it had left, and is due again 5 seconds after a time read during the pass,
    doubled for each attempt before and 300 at most; or it waits for spool space,
    for 30 seconds from a time read during the pass.  So no candidate is processed
    more than [max_attempts + 1] times but for spool pressure and errors; an error
    leaves it pending, its attempts untouched. *)
Theorem capture_progress `{!UploaderView R, !UploaderLaws R} env (r : CandidateRow) s :
  queue_wf (ag_db s) -> In r (db_candidates (ag_db s)) -> active r = true ->
  early_state (cd_state r) || late_state (cd_state r) = true -> (26 <= ag_steps s)%nat ->
  exists o s', process_candidate rt env r s = (o, s') /\ o <> Panic /\
    (o = Ret tt -> moved_on (db_clock (ag_db s)) (db_clock_next (ag_db s)) r s') /\
    (forall e, o = Fail e -> row_at (cd_id r) (pending r) s').
Proof.
  intros Hq Hr Ha Hst Hn. destruct (cost_process rt env r s Hn) as [Hp _].
  pose proof (process_ends (db_clock (ag_db s)) (db_clock_next (ag_db s)) env r s Hq (conj eq_refl (le_n _)) Hr Ha Hst) as H.
  destruct (process_candidate rt env r s) as [[[]|e|] s']; [| |done]; do 2 eexists; (split; [reflexivity|]); (split; [done|]); split; try done.
  intros _ _. apply H.
Qed.
End progress.

(** ** A readable file and a server that answers *)

Section completes.
  Context {R : Type} {UP : Uploader R} {SHA : Sha256} {HEX : HexCodec} {UD : UuidDisplay} {RFC : Rfc3339}.
  Context (rt : AgentRuntime).

(** From [P], [m] returns in [Q] or dies. *)
Definition reaches {A} (P : Agent R -> Prop) (m : Op (Agent R) A) (Q : A -> Agent R -> Prop) : Prop := forall s, P s ->
  match m s with (Ret a, s') => Q a s' | (Fail _, _) => False | (Panic, _) => True end.

Lemma reaches_bind {A B} P (m : Op (Agent R) A) Q (f : A -> Op (Agent R) B) T :
  reaches P m Q -> (forall a, reaches (Q a) (f a) T) -> reaches P (m ≫= f) T.
Proof.
  intros Hm Hf s Hs. unfold mbind, op_mbind. specialize (Hm s Hs). destruct (m s) as [[a|e|] s1]; [by apply Hf|done|done].
Qed.

Lemma reaches_mret {A} P (a : A) Q : (forall s, P s -> Q a s) -> reaches P (mret a) Q.
Proof. intros H s. apply H. Qed.

(** [k] occurrence numbers are left. *)
Definition headroom (k : Z) (db : StateDb) : Prop :=
  match seq_text db with None => k <= I64_MAX | Some t => exists v, t = show_Z v /\ 0 <= v /\ v + k <= I64_MAX end.

(** All that a step can change: the candidate's row, the spool, the numbers
    left and the server. *)
Record at_work (id : Z) (F : CandidateRow -> Prop) (sp : Spool) (k : Z) (r : R) (s : Agent R) : Prop := {
  aw_row : row_at id F s;
  aw_spool : ag_spool s = sp;
  aw_seq : headroom k (ag_db s);
  aw_remote : ag_remote s = r }.

Section steps.
  Context (id : Z).

Lemma y_update (f : Z -> CandidateRow -> CandidateRow) (F F' : CandidateRow -> Prop) sp k r :
  (forall t (c : CandidateRow), cd_id (f t c) = cd_id c /\ cd_path (f t c) = cd_path c) -> (forall c, F c -> active c = true) ->
  (forall t (c : CandidateRow), cd_id c = id -> F c -> F' (f t c)) ->
  reaches (at_work id F sp k r) (with_db (t ← timestamp; _ ← update_candidates (has_id id) (f t); mret tt)) (fun _ => at_work id F' sp k r).
Proof.
  intros Hf Ha Hf' s [H1 H2 H3 H4]. pose proof (row_step id f F F' s H1 Hf Ha Hf') as H.
  assert (Hs : frames seq_text (t ← timestamp; _ ← update_candidates (has_id id) (f t); mret tt)) by seq_frame.
  specialize (Hs (ag_db s)). revert H Hs. set (m := mbind _ timestamp). unfold with_db. destruct (ag_steps s) as [|n]; [done|].
  destruct (m (ag_db s)) as [[u|e|] db]; [|done|done]. intros H Hs. constructor; [exact H|done| |done].
  unfold headroom in *. cbn [ag_db snd] in *. by rewrite Hs.
Qed.

Lemma y_db {A} F sp k r (m : Op StateDb A) : frames queue m -> frames seq_text m -> (forall s, is_ret (fst (m s)) = true) ->
  reaches (at_work id F sp k r) (with_db m) (fun _ => at_work id F sp k r).
Proof.
  intros Hq Hs Hr s [H1 H2 H3 H4]. pose proof (sure_db id F m Hq Hr s H1) as H. specialize (Hs (ag_db s)). revert H.
  unfold with_db. destruct (ag_steps s); [done|]. destruct (m (ag_db s)) as [[a|e|] db]; [|done|done]. intros H.
  constructor; [exact H|done| |done]. unfold headroom in *. cbn [ag_db snd] in *. by rewrite Hs.
Qed.

Lemma y_sequence F sp k r : 0 <= k -> reaches (at_work id F sp (k + 1) r) (with_db next_sequence) (fun _ => at_work id F sp k r).
Proof.
  intros Hk s [H1 H2 H3 H4]. assert (Hq : frames queue next_sequence) by (unfold next_sequence, get_identity; queue_frame).
  pose proof (row_frame id F next_sequence Hq s H1) as H. revert H. unfold with_db. destruct (ag_steps s) as [|n]; [done|].
  destruct (next_sequence_headroom (ag_db s) k Hk) as (v & db & E & Hdb).
  { unfold headroom in H3. exact H3. }
  rewrite E. intros H. by constructor.
Qed.

Lemma y_spool {A} F sp k r (m : Op Spool A) a sp' : m sp = (Ret a, sp') ->
  reaches (at_work id F sp k r) (with_spool m) (fun x s => x = a /\ at_work id F sp' k r s).
Proof.
  intros E s [H1 H2 H3 H4]. unfold with_spool. destruct (ag_steps s); [done|]. rewrite H2, E. split; [done|].
  by constructor.
Qed.

Lemma y_remote {A} F sp k r (m : Op R A) a r' : m r = (Ret a, r') ->
  reaches (at_work id F sp k r) (attempt (with_remote m)) (fun x s => x = inr a /\ at_work id F sp k r' s).
Proof.
  intros E s [H1 H2 H3 H4]. unfold attempt, with_remote. destruct (ag_steps s); [done|]. rewrite H4, E. split; [done|].
  by constructor.
Qed.
End steps.

Lemma reaches_weaken {A} P (m : Op (Agent R) A) (Q Q' : A -> Agent R -> Prop) : reaches P m Q -> (forall a s, Q a s -> Q' a s) -> reaches P m Q'.
Proof. intros Hm HQ s Hs. specialize (Hm s Hs). destruct (m s) as [[a|e|] s1]; [by apply HQ|done|done]. Qed.

Lemma reaches_pre {A} (P P' : Agent R -> Prop) (m : Op (Agent R) A) Q : (forall s, P' s -> P s) -> reaches P m Q -> reaches P' m Q.
Proof. intros HP Hm s Hs. by apply Hm, HP. Qed.

Lemma reaches_then {A B} P (m : Op (Agent R) A) P' (f : A -> Op (Agent R) B) T :
  reaches P m (fun _ => P') -> (forall a, reaches P' (f a) T) -> reaches P (m ≫= f) T.
Proof. intros Hm Hf. eapply reaches_bind; [exact Hm|]. intros a s Hs. by apply Hf. Qed.

(** A step that answers [a] for sure. *)
Lemma reaches_known {A B} P (m : Op (Agent R) A) a P' (f : A -> Op (Agent R) B) T :
  reaches P m (fun x s => x = a /\ P' s) -> reaches P' (f a) T -> reaches P (m ≫= f) T.
Proof. intros Hm Hf. eapply reaches_bind; [exact Hm|]. intros x s [-> Hs]. by apply Hf. Qed.

(** The server takes bytes [b] of digest [h]: it has them, or gives an upload
    session that accepts them and commits. *)
Definition server_takes (h : string) (b : bytes) (r : R) : Prop :=
  forall req, an_sha256 req = h -> exists resp r1, up_announce req r = (Ret resp, r1) /\
    (ap_disposition resp = AlreadyPresent \/
     exists u r2, ap_disposition resp = UploadRequired /\ ap_upload_id resp = Some u /\ up_upload u b r1 = (Ret tt, r2) /\
       forall f, fq_upload_id f = u -> fq_sha256 f = h -> exists x r3, up_finalize f r2 = (Ret x, r3)).

Section upload.
  Context (cand : Candidate) (h path : string) (b raw : bytes) (sp : Spool).
  Context (Hsha : cd_sha256 cand = Some h) (Hpath : cd_spool_path cand = Some path).
  Context (Hraw : sp_files sp !! path = Some raw) (Hb : unspool (rt_spool_cipher rt) raw = Ret b).

Definition is_active (r : CandidateRow) : Prop := active r = true.
Definition is_complete (r : CandidateRow) : Prop := cd_state r = states.COMPLETE.

(** Complete, with the spool file gone. *)
Definition delivered_at (s : Agent R) : Prop :=
  row_at (cd_id cand) is_complete s /\ ag_spool s = set_files (base.delete path (sp_files sp)) sp.

Let W F k r := at_work (cd_id cand) F sp k r.

Lemma y_transition st k r : negb (String.eqb st states.COMPLETE || String.eqb st states.GAP_RECORDED) = true ->
  reaches (W is_active k r) (with_db (transition (cd_id cand) st)) (fun _ => W is_active k r).
Proof. intros Hst. apply y_update; [done|done|]. intros t c _ _. exact Hst. Qed.

Lemma y_complete k r : reaches (W is_active k r) (complete cand) (fun _ => W is_complete k r).
Proof.
  unfold complete. eapply reaches_then; [by apply y_transition|intros _]. by apply y_update.
Qed.

Lemma y_counter o F k r : reaches (W F k r) (with_db (increment_counter o)) (fun _ => W F k r).
Proof. apply y_db; [unfold increment_counter; queue_frame|unfold increment_counter; seq_frame|done]. Qed.

Lemma y_timestamp F k r : reaches (W F k r) (with_db timestamp) (fun _ => W F k r).
Proof. apply y_db; [queue_frame|by intros ?|done]. Qed.

Lemma y_identity key v F k r : key <> agent_sequence -> reaches (W F k r) (with_db (set_identity key v)) (fun _ => W F k r).
Proof.
  intros Hk. apply y_db; [queue_frame| |done]. intros s. unfold seq_text. cbn. by apply lookup_insert_ne.
Qed.

Lemma y_occ env seq F k r : reaches (W F k r) (occ rt env cand seq) (fun _ => W F k r).
Proof. unfold occ. eapply reaches_then; [apply y_timestamp|intros t]. by apply reaches_mret. Qed.

Lemma y_remove k r : reaches (W is_complete k r) (remove_file (cd_spool_path cand)) (fun _ => delivered_at).
Proof using Hpath.
  rewrite Hpath. eapply reaches_weaken; [apply y_spool; reflexivity|]. intros x s [_ [H1 H2 _ _]]. by split.
Qed.

Lemma y_finalize env u k r : 0 <= k -> (forall f, fq_upload_id f = u -> fq_sha256 f = h -> exists x r3, up_finalize f r = (Ret x, r3)) ->
  reaches (W is_active (k + 1) r) (finalize_upload rt env cand h u) (fun _ => delivered_at).
Proof using Hpath.
  intros Hk Hf. unfold finalize_upload. eapply reaches_then; [by apply y_transition|intros _].
  eapply reaches_then; [by apply y_sequence|intros seq]. eapply reaches_then; [apply y_occ|intros o].
  destruct (Hf (mkFinalizeRequest u h (default 0 (cd_size_bytes cand)) (Some o) None (ev_provenance env)) eq_refl eq_refl) as (x & r3 & E).
  eapply reaches_known; [by apply y_remote|]. eapply reaches_then; [apply y_complete|intros _].
  eapply reaches_then; [apply y_counter|intros _]. eapply reaches_then; [apply y_timestamp|intros t].
  eapply reaches_then; [by apply y_identity|intros _]. apply y_remove.
Qed.

Lemma y_unspool k r : reaches (W is_active k r) (unspool_file rt raw) (fun x s => x = b /\ W is_active k r s).
Proof using Hb. intros s Hs. unfold unspool_file, attempt, lift_outcome, mbind, op_mbind. by rewrite Hb. Qed.

Lemma y_upload env u k r r2 : 0 <= k -> up_upload u b r = (Ret tt, r2) ->
  (forall f, fq_upload_id f = u -> fq_sha256 f = h -> exists x r3, up_finalize f r2 = (Ret x, r3)) ->
  reaches (W is_active (k + 1) r) (upload_required rt env cand h (Some u)) (fun _ => delivered_at).
Proof using Hpath Hraw Hb.
  intros Hk Eu Hf. unfold upload_required. eapply reaches_then; [by apply y_transition|intros _].
  eapply reaches_then; [apply y_identity|intros _].
  { unfold agent_sequence. discriminate. }
  eapply reaches_then; [by apply y_transition|intros _]. rewrite Hpath.
  eapply (reaches_known _ _ (Some raw)); [apply y_spool; unfold gets; by rewrite Hraw|].
  eapply (reaches_known _ _ raw); [apply reaches_mret; intros s Hs; split; [reflexivity|exact Hs]|].
  eapply reaches_known; [apply y_unspool|]. eapply reaches_known; [by apply y_remote|]. by apply y_finalize.
Qed.

Lemma y_announce env k r : 0 <= k -> server_takes h b r ->
  reaches (W is_active (k + 1 + 1) r) (announce_and_upload rt env cand h) (fun _ => delivered_at).
Proof using Hpath Hraw Hb.
  intros Hk Hs. unfold announce_and_upload. eapply reaches_then; [apply y_sequence; lia|intros seq].
  eapply reaches_then; [apply y_occ|intros o].
  destruct (Hs (mkAnnounceRequest h (default 0 (cd_size_bytes cand)) (Some o)) eq_refl) as (resp & r1 & E & H).
  eapply reaches_known; [by apply y_remote|]. eapply reaches_then; [by apply y_transition|intros _].
  destruct H as [-> | (u & r2 & -> & -> & Eu & Hf)]; [|by eapply y_upload].
  unfold already_present. eapply reaches_then; [by apply y_transition|intros _]. eapply reaches_then; [apply y_complete|intros _].
  eapply reaches_then; [apply y_counter|intros _]. apply y_remove.
Qed.
End upload.

Definition free_bytes (sp : Spool) : Z := Z.max 0 (rt_max_spool_bytes rt - spool_used_bytes sp).

(** The spool file of a candidate that has just been hashed. *)
Definition hashed_as (res : StableReadResult) (c : CandidateRow) : Prop :=
  active c = true /\ cd_state c = states.HASHED /\ cd_sha256 c = Some (sr_sha256 res) /\ cd_spool_path c = Some (sr_spool_path res).

Lemma y_copy env cand sp sp' res k r :
  stable_read (rt_spool_dir rt) (rt_max_artifact_bytes rt) (free_bytes sp) (rt_spool_cipher rt) (rt_stable_read_retries rt) (ev_attempts env) sp
    = (Ret (inr res), sp') ->
  reaches (at_work (cd_id cand) is_active sp k r) (copy_and_hash rt env cand)
    (fun go s => go = true /\ at_work (cd_id cand) (hashed_as res) sp' k r s).
Proof.
  intros E. unfold copy_and_hash. eapply reaches_known; [by apply y_spool|]. cbv zeta.
  eapply reaches_then; [by apply y_transition|intros _]. eapply reaches_known; [by apply y_spool|].
  eapply (reaches_then _ _ (at_work (cd_id cand) (hashed_as res) sp' k r)); [|intros _; by apply reaches_mret].
  by apply y_update.
Qed.

Lemma reload_reaches env id sp res k r raw b : 0 <= k ->
  sp_files sp !! sr_spool_path res = Some raw -> unspool (rt_spool_cipher rt) raw = Ret b -> server_takes (sr_sha256 res) b r ->
  reaches (at_work id (hashed_as res) sp (k + 1 + 1) r)
    (found ← with_db (get_candidate id); match found with None => mret tt | Some cand => resume_upload rt env cand end)
    (fun _ s => row_at id is_complete s /\ ag_spool s = set_files (base.delete (sr_spool_path res) (sp_files sp)) sp).
Proof.
  intros Hk Hraw Hb Ht s [(Hq & c & Hc & Hid & Ha & Hst & Hsha & Hpath) H2 H3 H4]. unfold mbind, op_mbind, with_db.
  destruct (ag_steps s) as [|n]; [done|].
  assert (E : get_candidate id (ag_db s) = (Ret (Some (cw_candidate c)), ag_db s)).
  { unfold get_candidate, gets. rewrite <- Hid. by rewrite (filter_has_id _ c (qw_ids _ Hq) Hc). }
  rewrite E. unfold resume_upload. rewrite Hst, Hsha. cbn [one_of existsb String.eqb Ascii.eqb Bool.eqb orb upload_state].
  pose proof (y_announce (cw_candidate c) (sr_sha256 res) (sr_spool_path res) b raw sp Hpath Hraw Hb env k r Hk Ht) as H.
  unfold delivered_at in H. rewrite Hid in H. apply H. constructor; [|done..]. split; [exact Hq|]. by exists c.
Qed.

(** C23. A file that can be read and a server that answers are enough: one pass of
    at most 26 steps then completes the candidate from any of the states before
    its bytes are hashed, and removes the spool file it made. *)
Theorem capture_completes `{!UploaderView R, !UploaderLaws R} env (c : CandidateRow) (s : Agent R) sp' res raw b :
  queue_wf (ag_db s) -> In c (db_candidates (ag_db s)) -> active c = true -> early_state (cd_state c) = true -> (26 <= ag_steps s)%nat ->
  headroom 2 (ag_db s) ->
  stable_read (rt_spool_dir rt) (rt_max_artifact_bytes rt) (free_bytes (ag_spool s)) (rt_spool_cipher rt) (rt_stable_read_retries rt)
    (ev_attempts env) (ag_spool s) = (Ret (inr res), sp') ->
  sp_files sp' !! sr_spool_path res = Some raw -> unspool (rt_spool_cipher rt) raw = Ret b ->
  server_takes (sr_sha256 res) b (ag_remote s) ->
  exists s', process_candidate rt env c s = (Ret tt, s') /\ row_at (cd_id c) is_complete s' /\
    sp_files (ag_spool s') = base.delete (sr_spool_path res) (sp_files sp').
Proof.
  intros Hq Hc Ha Hst Hn Hh Hread Hraw Hb Ht. destruct (cost_process rt env c s Hn) as [Hp _].
  assert (H : reaches (at_work (cd_id c) is_active (ag_spool s) 2 (ag_remote s)) (process_candidate rt env c)
    (fun _ s' => row_at (cd_id c) is_complete s' /\ ag_spool s' = set_files (base.delete (sr_spool_path res) (sp_files sp')) sp')).
  { unfold process_candidate.
    eapply (reaches_bind _ _ (fun st s' => one_of st [states.OPENING; states.COPYING_AND_HASHING] = true /\ at_work (cd_id c) is_active (ag_spool s) 2 (ag_remote s) s')).
    - destruct (one_of (cd_state c) [states.DEBOUNCING; states.OBSERVED]) eqn:E.
      + eapply reaches_then; [by apply y_transition|intros _]. by apply reaches_mret.
      + apply reaches_mret. intros s' Hs'. split; [|exact Hs']. unfold early_state, one_of in *. cbn [existsb] in *.
        apply orb_false_iff in E as [E1 E2]. apply orb_false_iff in E2 as [E2 _]. rewrite E1, E2 in Hst. exact Hst.
    - intros st s0 [-> Hs0]. revert s0 Hs0.
      match goal with |- forall s0, _ -> match ?m s0 with _ => _ end => change (reaches (at_work (cd_id c) is_active (ag_spool s) 2 (ag_remote s)) m
        (fun _ s' => row_at (cd_id c) is_complete s' /\ ag_spool s' = set_files (base.delete (sr_spool_path res) (sp_files sp')) sp')) end.
      eapply reaches_known; [by apply y_copy|]. by apply (reload_reaches env (cd_id c) sp' res 0 (ag_remote s) raw b). }
  assert (Hs : at_work (cd_id c) is_active (ag_spool s) 2 (ag_remote s) s) by (constructor; [|done..]; split; [exact Hq|]; by exists c).
  specialize (H s Hs). destruct (process_candidate rt env c s) as [[[]|e|] s']; [|done|done]. exists s'. split; [done|].
  destruct H as [H1 H2]. split; [exact H1|]. by rewrite H2.
Qed.
End completes.

(** ** Witness *)

Section witnesses.
Local Existing Instance ReferenceHash.sha.
Local Existing Instance ReferenceHash.hex.
Local Existing Instance ReferenceUuid.display.
Local Existing Instance ReferenceUploader.uploader.
Local Existing Instance ReferenceUploader.view.
Local Existing Instance ReferenceUploader.uploader_laws.
Local Existing Instance show_time.

Definition observed_agent : Agent ReferenceUploader.Store :=
  mkAgent (snd (enqueue "/bin/run" 1 "exec" 0 (open_db (fun n => 1000 * Z.of_nat n)))) sample_spool (ReferenceUploader.mkStore [] [] 1%N) 26.

Definition observed_row : CandidateRow :=
  mkCandidateRow (mkCandidate 1 "/bin/run" 1 "exec" states.OBSERVED 0 0 None None None None) 0 0.

Lemma observed_rows : db_candidates (ag_db observed_agent) = [observed_row].
Proof. vm_compute. reflexivity. Qed.

Lemma observed_wf : queue_wf (ag_db observed_agent).
Proof.
  constructor; rewrite ?observed_rows.
  - apply NoDup_singleton.
  - apply NoDup_singleton.
  - apply List.Forall_cons; [|apply List.Forall_nil]. vm_compute. discriminate.
Qed.

Lemma observed_returns : fst (process_candidate sample_runtime quiet_env observed_row observed_agent) = Ret tt.
Proof. vm_compute. reflexivity. Qed.

Lemma capture_progress_witness :
  exists s', process_candidate sample_runtime quiet_env observed_row observed_agent = (Ret tt, s') /\ moved_on sample_runtime (fun n => 1000 * Z.of_nat n) 1 observed_row s'.
Proof.
  destruct (capture_progress sample_runtime quiet_env observed_row observed_agent) as (o & s' & E & _ & Hr & _).
  - exact observed_wf.
  - rewrite observed_rows. left. reflexivity.
  - reflexivity.
  - reflexivity.
  - reflexivity.
  - assert (Eo : o = Ret tt) by (rewrite <- observed_returns, E; reflexivity). subst o.
    exists s'. split; [exact E|exact (Hr eq_refl)].
Defined.

Lemma reference_takes b (st : ReferenceUploader.Store) : server_takes (sha256_hex b) b st.
Proof.
  intros req Hh. cbn [up_announce ReferenceUploader.uploader]. unfold ReferenceUploader.announce.
  destruct (existsb _ _); do 2 eexists; (split; [reflexivity|]); [by left|right]. do 2 eexists. split; [reflexivity|].
  split; [reflexivity|]. split; [reflexivity|]. intros f Hu Hf. cbn [up_finalize ReferenceUploader.uploader].
  unfold ReferenceUploader.finalize. cbn [ReferenceUploader.st_staged List.filter fst]. rewrite Hu, N.eqb_refl, Hf, String.eqb_refl. by do 2 eexists.
Qed.

Definition observed_read : outcome (StableReadError + StableReadResult) * Spool :=
  stable_read "spool" 100 (free_bytes sample_runtime sample_spool) (Some ReferenceCipher.cipher) 3 (ev_attempts quiet_env) sample_spool.

Definition observed_result : StableReadResult := mkStableReadResult (sha256_hex [x61; x62; x63]) 3 "spool/spool-0".
Definition observed_raw : bytes := spool_file ReferenceCipher.cipher sample_prefix [[x61; x62; x63]].

Lemma observed_read_returns : fst observed_read = Ret (inr observed_result).
Proof. vm_compute. reflexivity. Qed.

Lemma observed_spooled : sp_files (snd observed_read) !! "spool/spool-0"%string = Some observed_raw.
Proof. vm_compute. reflexivity. Qed.

Lemma observed_unspools : unspool (Some ReferenceCipher.cipher) observed_raw = Ret [x61; x62; x63].
Proof. vm_compute. reflexivity. Qed.

Lemma observed_headroom : headroom 2 (ag_db observed_agent).
Proof. vm_compute. discriminate. Qed.

Lemma capture_completes_witness :
  exists s', process_candidate sample_runtime quiet_env observed_row observed_agent = (Ret tt, s') /\ row_at 1 is_complete s'.
Proof.
  destruct (capture_completes sample_runtime quiet_env observed_row observed_agent (snd observed_read) observed_result observed_raw [x61; x62; x63])
    as (s' & E & Hr & _).
  - exact observed_wf.
  - rewrite observed_rows. left. reflexivity.
  - reflexivity.
  - reflexivity.
  - reflexivity.
  - exact observed_headroom.
  - change (observed_read = (Ret (inr observed_result), snd observed_read)). rewrite <- observed_read_returns. apply surjective_pairing.
  - exact observed_spooled.
  - exact observed_unspools.
  - apply reference_takes.
  - exists s'. split; [exact E|exact Hr].
Defined.
End witnesses.
