(* ===== verification/Pool.v ===== *)
(** * The workers of the agent ([worker_loop] of [corpus-agent/src/capture.rs])

    [Capture] has what one worker does with a candidate; here are the workers
    together: the loop that leases and waits for a permit, the tasks it spawns, the
    watchdog of each, and the threads that share the database, in any order. *)

From S2P Require Import Prelude AgentState.

Open Scope Z_scope.

Definition LEASE_SECS : Z := 120.

(** A candidate in a task's hands, or waiting for one, and the time to which its
    lease was last seen to run. *)
Record Flight := mkFlight { fl_id : Z; fl_path : string; fl_until : Z }.

(** The permits left, the leased candidate the loop waits with, the spawned tasks. *)
Record Pool := mkPool { po_db : StateDb; po_permits : nat; po_waiting : option Flight; po_running : list Flight }.

Definition with_pool_db (db : StateDb) (p : Pool) : Pool := mkPool db (po_permits p) (po_waiting p) (po_running p).

Definition terminal (st : string) : bool := String.eqb st states.COMPLETE || String.eqb st states.GAP_RECORDED.

(** What a task does to its row while it goes on, and as the last thing. *)
Definition works (id : Z) (op : QueueOp) : bool :=
  match op with
  | Transition id' st => (id' =? id) && negb (terminal st)
  | SetHashed id' _ _ _ => id' =? id
  | _ => false
  end.

Definition ends (id : Z) (op : QueueOp) : bool :=
  match op with
  | SetRetry id' _ | Defer id' _ | FinishGap id' _ => id' =? id
  | Transition id' st => (id' =? id) && terminal st
  | _ => false
  end.

(** What the sensors, the heartbeat and the tasks do to other tables, and
    enqueueing. *)
Definition elsewhere (op : QueueOp) : bool :=
  match op with Enqueue _ _ _ _ | SetIdentity _ _ | NextSequence | RecordGap _ _ _ _ _ _ => true | _ => false end.

Definition holds (id : Z) (p : Pool) : bool := existsb (fun f => fl_id f =? id) (po_running p).

Definition renewed (id until : Z) (f : Flight) : Flight := if fl_id f =? id then mkFlight id (fl_path f) until else f.

(** The first task of the identifier. *)
Fixpoint drop_flight (id : Z) (l : list Flight) : list Flight :=
  match l with [] => [] | f :: l' => if fl_id f =? id then l' else f :: drop_flight id l' end.

(** [op]: the last statement of a task that ends, if it runs one. *)
Inductive Turn : Type :=
  | TLease
  | TSpawn
  | TWork (id : Z) (op : QueueOp)
  | TRenew (id : Z)
  | TEnd (id : Z) (op : option QueueOp)
  | TElse (op : QueueOp).

(** [None]: not possible now. *)
Definition turn (t : Turn) (p : Pool) : option Pool :=
  match t with
  | TLease =>
      match po_waiting p with
      | Some _ => None
      | None =>
          match lease_next_due LEASE_SECS (po_db p) with
          | (Ret (Some cand), db) => Some (mkPool db (po_permits p) (Some (mkFlight (cd_id cand) (cd_path cand) (cd_next_retry_at cand))) (po_running p))
          | (_, db) => Some (with_pool_db db p)
          end
      end
  | TSpawn =>
      match po_waiting p, po_permits p with
      | Some f, S n => Some (mkPool (po_db p) n None (po_running p ++ [f]))
      | _, _ => None
      end
  | TWork id op => if holds id p && works id op then Some (with_pool_db (snd (run_op op (po_db p))) p) else None
  | TRenew id =>
      if holds id p then
        let until := db_clock (po_db p) (db_clock_next (po_db p)) + LEASE_SECS in
        Some (mkPool (snd (run_op (RenewLease id LEASE_SECS) (po_db p))) (po_permits p) (po_waiting p) (map (renewed id until) (po_running p)))
      else None
  | TEnd id op =>
      if holds id p && (match op with Some op => ends id op | None => true end) then
        Some (mkPool (match op with Some op => snd (run_op op (po_db p)) | None => po_db p end)
          (S (po_permits p)) (po_waiting p) (drop_flight id (po_running p)))
      else None
  | TElse op => if elsewhere op then Some (with_pool_db (snd (run_op op (po_db p))) p) else None
  end.

(** The pool [worker_loop] starts with. *)
Definition new_pool (max_concurrent_reads : nat) (db : StateDb) : Pool := mkPool db max_concurrent_reads None [].

Definition in_flight (p : Pool) : list Flight := match po_waiting p with Some f => f :: po_running p | None => po_running p end.

(** No lease in anyone's hands has run out when the loop asks for the next candidate. *)
Definition in_time (t : Turn) (p : Pool) : Prop :=
  match t with TLease => forall f, In f (in_flight p) -> lease_time (po_db p) < fl_until f | _ => True end.

Inductive reaches (p0 : Pool) : Pool -> Prop :=
  | reaches_start : reaches p0 p0
  | reaches_turn p t p' : reaches p0 p -> in_time t p -> turn t p = Some p' -> reaches p0 p'.

(** ** A candidate in hand keeps its row *)

(** Its row is there, active, of its path, and not due before its time. *)
Definition in_hand (f : Flight) (db : StateDb) : Prop := exists c : CandidateRow,
  In c (db_candidates db) /\ cd_id c = fl_id f /\ cd_path c = fl_path f /\ active c = true /\ fl_until f <= cd_next_retry_at c.

Lemma in_hand_frame {A} f (m : Op StateDb A) : frames queue m -> keeps (in_hand f) m.
Proof. intros Hm s H. specialize (Hm s). injection Hm as Hl _. unfold in_hand. by rewrite Hl. Qed.

(** An update of other rows, or one that keeps what is in hand. *)
Lemma in_hand_update f (p : CandidateRow -> bool) (g : CandidateRow -> CandidateRow) :
  (forall c, p c = true -> cd_id c = fl_id f -> active c = true -> fl_until f <= cd_next_retry_at c ->
     cd_id (g c) = cd_id c /\ cd_path (g c) = cd_path c /\ active (g c) = true /\ fl_until f <= cd_next_retry_at (g c)) ->
  keeps (in_hand f) (update_candidates p g).
Proof.
  intros Hg s (c & Hin & Hid & Hp & Ha & Hu). unfold update_candidates. case_bool_decide; [|by exists c]. cbn [snd].
  exists (if p c then g c else c). split; [apply in_map_iff; by exists c|].
  destruct (p c) eqn:E; [|done]. destruct (Hg c E Hid Ha Hu) as (H1 & H2 & H3 & H4). by rewrite H1, H2.
Qed.

Lemma in_hand_step f (p : Z -> CandidateRow -> bool) (g : Z -> CandidateRow -> CandidateRow) :
  (forall t c, p t c = true -> cd_id c = fl_id f -> active c = true -> fl_until f <= cd_next_retry_at c ->
     cd_id (g t c) = cd_id c /\ cd_path (g t c) = cd_path c /\ active (g t c) = true /\ fl_until f <= cd_next_retry_at (g t c)) ->
  keeps (in_hand f) (t ← timestamp; _ ← update_candidates (p t) (g t); mret tt).
Proof.
  intros Hg. apply keeps_bind; [apply in_hand_frame; queue_frame|intros t]. apply keeps_bind; [|intros _; apply keeps_mret].
  apply in_hand_update, Hg.
Qed.

Lemma in_hand_insert f path prio reason initial next t : keeps (in_hand f) (insert_candidate path prio reason initial next t).
Proof.
  intros s (c & Hin & H). unfold insert_candidate. destruct (existsb _ _); [by exists c|]. exists c. split; [|done].
  cbn [snd db_candidates set_candidates]. apply in_or_app. by left.
Qed.

(** Statements about other rows, and about no row. *)
Lemma in_hand_other f op : elsewhere op = true \/ (exists id, id <> fl_id f /\ addresses op = Some id) -> keeps (in_hand f) (run_op op).
Proof.
  intros Hop.
  assert (Hno : forall id (c : CandidateRow), addresses op = Some id -> has_id id c = true -> cd_id c = fl_id f -> False).
  { intros id c Hid Hc%Z.eqb_eq E. destruct Hop as [Hop|(id' & Hne & Hid')]; [by destruct op|congruence]. }
  destruct op; unfold run_op; (apply keeps_bind; [apply keeps_attempt|intros ?; apply keeps_mret]).
  2-4, 6-7: apply in_hand_step; intros t c Hc E; by destruct (Hno _ c eq_refl Hc E).
  - unfold enqueue. apply keeps_bind; [apply in_hand_frame; queue_frame|intros t]. apply in_hand_insert.
  - apply (in_hand_step f (fun _ c => has_id id c && active c)). intros t c [Hc _]%andb_true_iff E. by destruct (Hno _ c eq_refl Hc E).
  - destruct Hop as [Hop|(id & _ & Hop)]; discriminate Hop.
  - apply in_hand_frame. queue_frame.
  - apply in_hand_frame. unfold next_sequence, get_identity. queue_frame.
  - apply in_hand_frame. unfold record_gap, increment_counter. queue_frame.
Qed.

(** A task's own statements, while it goes on. *)
Lemma in_hand_works f id op : works id op = true -> keeps (in_hand f) (run_op op).
Proof.
  intros Hw. destruct op; try discriminate Hw; unfold run_op; (apply keeps_bind; [apply keeps_attempt|intros ?; apply keeps_mret]); apply in_hand_step;
    intros t c _ _ Ha Hu; (split; [done|]); (split; [done|]); (split; [|done]); [|done].
  cbn in Hw. apply andb_true_iff in Hw as [_ Hw]. unfold active. exact Hw.
Qed.

(** A renewal by the watchdog of a task that holds its row. *)
Lemma in_hand_renewed f s : queue_wf s -> in_hand f s ->
  in_hand (mkFlight (fl_id f) (fl_path f) (db_clock s (db_clock_next s) + LEASE_SECS)) (snd (run_op (RenewLease (fl_id f) LEASE_SECS) s)).
Proof.
  intros Hwf (c & Hin & Hid & Hp & Ha & _).
  set (t := db_clock s (db_clock_next s)). set (s1 := snd (timestamp s)).
  assert (Hwf1 : queue_wf s1) by (by apply (queue_wf_frame timestamp frames_queue_timestamp)).
  set (p := fun c : CandidateRow => has_id (fl_id f) c && active c).
  set (g := fun c : CandidateRow => with_retry (cd_attempts c) (t + LEASE_SECS) (cw_updated_at c) c).
  assert (E : update_candidates p g s1 = _) by (apply update_run; done).
  assert (E2 : run_op (RenewLease (fl_id f) LEASE_SECS) s = (Ret tt, snd (update_candidates p g s1))).
  { unfold run_op. rewrite (bind_run _ _ s (inr tt) (snd (update_candidates p g s1))); [done|]. unfold attempt.
    change (renew_lease (fl_id f) LEASE_SECS s) with ((_ ← update_candidates p g; mret tt) s1). by rewrite (bind_run _ _ _ _ _ E), E. }
  rewrite E2, E. exists (g c). split; [|done]. cbn [snd db_candidates set_candidates]. apply in_map_iff. exists c. split; [|done].
  unfold p, has_id. by rewrite Hid, Z.eqb_refl, Ha.
Qed.

(** ** The invariant *)

Record pool_ok (max : nat) (p : Pool) : Prop := {
  ok_queue : queue_wf (po_db p);
  ok_permits : (po_permits p + length (po_running p))%nat = max;
  ok_ids : NoDup (map fl_id (in_flight p));
  ok_hands : Forall (fun f => in_hand f (po_db p)) (in_flight p) }.

Lemma holds_in id p : holds id p = true -> exists f, In f (po_running p) /\ fl_id f = id.
Proof. intros (f & Hin & E%Z.eqb_eq)%existsb_exists. by exists f. Qed.

Lemma drop_flight_sublist id l : drop_flight id l `sublist_of` l.
Proof. induction l as [|f l IH]; [done|]. cbn [drop_flight]. destruct (fl_id f =? id); [by apply sublist_cons|by apply sublist_skip]. Qed.

Lemma sublist_ids (l k : list Flight) : l `sublist_of` k -> map fl_id l `sublist_of` map fl_id k.
Proof. induction 1; cbn [map]; by constructor. Qed.

Lemma drop_flight_length id l f : In f l -> fl_id f = id -> S (length (drop_flight id l)) = length l.
Proof.
  intros Hin E. induction l as [|x l IH]; [done|]. cbn [drop_flight length]. destruct (Z.eqb_spec (fl_id x) id) as [Ex|Ex]; [done|].
  cbn [length]. rewrite IH; [done|]. by destruct Hin as [->|Hin].
Qed.

Lemma drop_flight_gone id l : NoDup (map fl_id l) -> forall f, In f (drop_flight id l) -> fl_id f <> id.
Proof.
  induction l as [|x l IH]; [done|]. cbn [map drop_flight]. intros [Hx Hl]%NoDup_cons f.
  destruct (Z.eqb_spec (fl_id x) id) as [Ex|Ex]; [|intros [<-|Hin]; [done|by apply IH]].
  intros Hin E. apply Hx. rewrite Ex, <- E. by apply list_elem_of_In, in_map.
Qed.

Lemma renewed_ids id until l : map fl_id (map (renewed id until) l) = map fl_id l.
Proof. rewrite map_map. apply map_ext. intros f. unfold renewed. by destruct (Z.eqb_spec (fl_id f) id). Qed.

(** The queue's statements keep what is in the hands of the others. *)
Lemma ok_with_db max p op : pool_ok max p -> (forall f, In f (in_flight p) -> keeps (in_hand f) (run_op op)) ->
  pool_ok max (with_pool_db (snd (run_op op (po_db p))) p).
Proof.
  intros [H1 H2 H3 H4] Hk. constructor; [by apply keeps_run_op|done|done|]. rewrite List.Forall_forall in H4 |- *.
  intros f Hf. apply Hk; [done|by apply H4].
Qed.

Lemma running_in_flight p f : In f (po_running p) -> In f (in_flight p).
Proof. unfold in_flight. destruct (po_waiting p); [by right|done]. Qed.

(** A lease in time hands out a candidate nobody has. *)
Lemma pool_lease max p p' : pool_ok max p -> in_time TLease p -> turn TLease p = Some p' -> pool_ok max p'.
Proof.
  intros [Hq Hn Hids Hh] Ht. cbn [turn]. destruct (po_waiting p) eqn:Ew; [done|].
  assert (Hfl : in_flight p = po_running p) by (unfold in_flight; by rewrite Ew). rewrite Hfl in *. cbn [in_time] in Ht. rewrite Hfl in Ht.
  pose proof (keeps_lease LEASE_SECS _ Hq) as Hq'. rewrite lease_run in Hq' |- * by done.
  pose proof (next_row_spec (lease_time (po_db p)) (db_candidates (po_db p))) as Hnext.
  destruct (next_row (lease_time (po_db p)) (db_candidates (po_db p))) as [n|]; intros [= <-]; cbn [snd] in Hq'.
  2: { constructor; [done|done|unfold in_flight; cbn; by rewrite Ew|]. unfold in_flight. cbn. rewrite Ew. eapply List.Forall_impl; [|exact Hh].
    intros f Hf. exact Hf. }
  destruct Hnext as (Hin & Hdue & _). apply andb_true_iff in Hdue as [Hact Hdue%Z.leb_le].
  assert (Hnew : forall f, In f (po_running p) -> fl_id f <> cd_id n).
  { intros f Hf E. rewrite List.Forall_forall in Hh. destruct (Hh f Hf) as (c & Hc & Hid & _ & _ & Hu). specialize (Ht f Hf).
    assert (c = n) as ->; [|lia]. destruct Hq as [_ Hi _]. pose proof (filter_has_id _ _ Hi Hc) as F1. pose proof (filter_has_id _ _ Hi Hin) as F2.
    rewrite Hid, E in F1. rewrite F1 in F2. by injection F2. }
  constructor; [done|done| |].
  - unfold in_flight. cbn [po_waiting po_running map fl_id leased]. apply NoDup_cons. split; [|done].
    intros (f & E & Hf)%list_elem_of_In%in_map_iff. by apply (Hnew f Hf).
  - unfold in_flight. cbn [po_waiting po_running po_db]. constructor.
    + exists (leased LEASE_SECS (po_db p) n). split; [|by repeat split; cbn; try lia]. cbn [db_candidates set_candidates]. apply in_map_iff.
      exists n. unfold has_id. by rewrite Z.eqb_refl.
    + rewrite List.Forall_forall in Hh |- *. intros f Hf. destruct (Hh f Hf) as (c & Hc & Hid & H). exists c. split; [|done].
      cbn [db_candidates set_candidates]. apply in_map_iff. exists c. split; [|done]. unfold has_id.
      rewrite Hid, (proj2 (Z.eqb_neq _ _)); [done|by apply Hnew].
Qed.

Lemma ends_addresses id op : ends id op = true -> addresses op = Some id.
Proof.
  destruct op; cbn; try done; [intros [H%Z.eqb_eq _]%andb_true_iff|intros H%Z.eqb_eq..]; congruence.
Qed.

(** The task that ends lets go of its row; the others keep theirs. *)
Lemma ok_end max p id op p' : pool_ok max p -> turn (TEnd id op) p = Some p' -> pool_ok max p'.
Proof.
  intros [Hq Hn Hids Hh]. cbn [turn]. destruct (holds id p) eqn:Eh; [|done]. destruct (match op with Some o => ends id o | None => true end) eqn:Ee; [|done].
  intros [= <-]. apply holds_in in Eh as (f0 & Hf0 & E0). set (db' := match op with Some o => snd (run_op o (po_db p)) | None => po_db p end).
  set (p' := mkPool db' _ _ _).
  assert (Hsub : in_flight p' `sublist_of` in_flight p).
  { subst p'. unfold in_flight. cbn [po_waiting po_running]. destruct (po_waiting p); [apply sublist_skip|]; apply drop_flight_sublist. }
  assert (Hother : forall f, In f (in_flight p') -> fl_id f <> id).
  { subst p'. unfold in_flight in Hids |- *. cbn [po_waiting po_running]. destruct (po_waiting p) as [w|]; [|by apply drop_flight_gone].
    cbn [map] in Hids. apply NoDup_cons in Hids as [Hw Hids]. intros f [<-|Hf]; [|by apply (drop_flight_gone id (po_running p))].
    intros E. apply Hw. rewrite E, <- E0. by apply list_elem_of_In, in_map. }
  constructor.
  - subst p' db'. cbn [po_db]. destruct op; [by apply keeps_run_op|done].
  - subst p'. cbn [po_permits po_running]. pose proof (drop_flight_length id (po_running p) f0 Hf0 E0). lia.
  - eapply sublist_NoDup; [exact Hids|]. by apply sublist_ids.
  - rewrite List.Forall_forall in Hh |- *. intros f Hf. assert (Hin : In f (in_flight p)).
    { apply list_elem_of_In. eapply sublist_subseteq; [exact Hsub|by apply list_elem_of_In]. }
    specialize (Hh f Hin). specialize (Hother f Hf). subst p' db'. cbn [po_db]. destruct op as [o|]; [|done]. apply in_hand_other; [|done].
    right. exists id. split; [congruence|by apply ends_addresses].
Qed.

Lemma ok_renew max p id p' : pool_ok max p -> turn (TRenew id) p = Some p' -> pool_ok max p'.
Proof.
  intros [Hq Hn Hids Hh]. cbn [turn]. destruct (holds id p) eqn:Eh; [|done]. intros [= <-]. apply holds_in in Eh as (f0 & Hf0 & E0).
  set (until := _ + LEASE_SECS). rewrite List.Forall_forall in Hh.
  assert (Hkeep : forall f, In f (in_flight p) -> fl_id f <> id -> in_hand f (snd (run_op (RenewLease id LEASE_SECS) (po_db p)))).
  { intros f Hf Hne. apply in_hand_other; [right; exists id; split; [congruence|done]|by apply Hh]. }
  assert (Hren : forall f, In f (in_flight p) -> in_hand (renewed id until f) (snd (run_op (RenewLease id LEASE_SECS) (po_db p)))).
  { intros f Hf. unfold renewed. destruct (Z.eqb_spec (fl_id f) id) as [E|E]; [|by apply Hkeep]. rewrite <- E. by apply in_hand_renewed, Hh. }
  constructor; [by apply (keeps_run_op (RenewLease id LEASE_SECS))|by cbn; rewrite length_map| |].
  - unfold in_flight in Hids |- *. cbn [po_waiting po_running]. destruct (po_waiting p); cbn [map] in *; by rewrite renewed_ids.
  - rewrite List.Forall_forall. intros f Hf. unfold in_flight in Hf. cbn [po_waiting po_running po_db] in Hf |- *.
    assert (Hr : In f (map (renewed id until) (po_running p)) -> in_hand f (snd (run_op (RenewLease id LEASE_SECS) (po_db p)))).
    { intros (g & <- & Hg)%in_map_iff. by apply Hren, running_in_flight. }
    destruct (po_waiting p) as [w|] eqn:Ew; [|by apply Hr]. destruct Hf as [<-|Hf]; [|by apply Hr].
    unfold in_flight in Hids, Hkeep. rewrite Ew in Hids, Hkeep. cbn [map] in Hids. apply NoDup_cons in Hids as [Hw _].
    apply Hkeep; [by left|]. intros E. apply Hw. rewrite E, <- E0. by apply list_elem_of_In, in_map.
Qed.

Lemma ok_turn max t p p' : pool_ok max p -> in_time t p -> turn t p = Some p' -> pool_ok max p'.
Proof.
  intros Hok Ht E. destruct t as [| |id op|id|id op|op].
  - by apply (pool_lease max p).
  - destruct Hok as [Hq Hn Hids Hh]. cbn [turn] in E. destruct (po_waiting p) as [f|] eqn:Ew; [|done]. destruct (po_permits p) as [|n] eqn:Ep; [done|].
    injection E as <-. assert (Hperm : f :: po_running p ≡ₚ po_running p ++ [f]) by apply Permutation_cons_append.
    unfold in_flight in Hids, Hh. rewrite Ew in Hids, Hh.
    constructor; [done|cbn; rewrite length_app; cbn; lia|unfold in_flight; cbn [po_waiting po_running]; by rewrite <- Hperm|].
    unfold in_flight. cbn [po_waiting po_running po_db]. by rewrite <- Hperm.
  - cbn [turn] in E. destruct (holds id p); [|done]. destruct (works id op) eqn:Ew; [|done]. injection E as <-.
    apply ok_with_db; [done|]. intros f _. by apply (in_hand_works f id).
  - by apply (ok_renew max p id).
  - by apply (ok_end max p id op).
  - cbn [turn] in E. destruct (elsewhere op) eqn:Ee; [|done]. injection E as <-. apply ok_with_db; [done|]. intros f _. apply in_hand_other. by left.
Qed.

(** Active rows of distinct identifiers have distinct paths. *)
Lemma paths_distinct max p : pool_ok max p -> NoDup (map fl_path (in_flight p)).
Proof.
  intros [[Hp _ _] _ Hids Hh]. revert Hids Hh. generalize (in_flight p). induction l as [|f l IH]; [intros; apply NoDup_nil_2|].
  cbn [map]. intros [Hf Hl]%NoDup_cons Hh. apply List.Forall_cons_iff in Hh as [(c & Hc & Hid & Hpath & Ha & _) Hh]. apply NoDup_cons. split; [|by apply IH].
  intros (g & Eg & Hg)%list_elem_of_In%in_map_iff. rewrite List.Forall_forall in Hh. destruct (Hh g Hg) as (d & Hd & Hid' & Hpath' & Ha' & _).
  assert (c = d) as <-; [|apply Hf; rewrite <- Hid, Hid'; by apply list_elem_of_In, in_map].
  clear -Hp Hc Hd Ha Ha' Hpath Hpath' Eg. assert (E : cd_path c = cd_path d) by congruence. clear -Hp Hc Hd Ha Ha' E.
  assert (H : In c (List.filter active (db_candidates (po_db p))) /\ In d (List.filter active (db_candidates (po_db p)))) by (by rewrite !List.filter_In).
  destruct H as [H1 H2]. unfold active_paths in Hp. revert Hp H1 H2. generalize (List.filter active (db_candidates (po_db p))). induction l as [|x l IH]; [done|].
  cbn [map]. intros [Hx Hl]%NoDup_cons [->|H1] [->|H2]; [done|exfalso; apply Hx..|by apply IH].
  - rewrite E. by apply list_elem_of_In, in_map_iff; exists d.
  - rewrite <- E. by apply list_elem_of_In, in_map_iff; exists c.
Qed.

(** C21. However the loop, its tasks, their watchdogs and the other threads
    interleave, at most [max_concurrent_reads] candidates are worked on at once and
    one more waits for a permit, and no candidate and no file is in two hands: as
    long as nothing in hand has run out when the loop asks for the next candidate,
    which the watchdog of a task sees to by renewing every thirty seconds for two
    minutes.  A task keeps its row until its own last statement.  (A candidate that
    waits for a permit has no watchdog: [permit_wait_outlives_lease].) *)
Theorem workers_exclusive max db p : queue_wf db -> reaches (new_pool max db) p ->
  (length (po_running p) <= max)%nat /\ (po_permits p + length (po_running p))%nat = max /\
  NoDup (map fl_id (in_flight p)) /\ NoDup (map fl_path (in_flight p)) /\
  forall f, In f (in_flight p) -> exists c : CandidateRow, In c (db_candidates (po_db p)) /\ cd_id c = fl_id f /\ cd_path c = fl_path f /\
    active c = true /\ fl_until f <= cd_next_retry_at c.
Proof.
  intros Hq Hr. assert (Hok : pool_ok max p).
  { induction Hr as [|p t p' _ IH Ht E]; [|by apply (ok_turn max t p)]. constructor; [done|cbn; lia|apply NoDup_nil_2|constructor]. }
  pose proof (paths_distinct max p Hok) as Hp. destruct Hok as [_ Hn Hids Hh]. split; [lia|]. split; [done|]. split; [done|]. split; [done|].
  by apply List.Forall_forall.
Qed.

(** ** Runs *)

Fixpoint run_turns (l : list Turn) (p : Pool) : option Pool :=
  match l with [] => Some p | t :: l' => q ← turn t p; run_turns l' q end.

Definition in_timeb (t : Turn) (p : Pool) : bool :=
  match t with TLease => forallb (fun f => lease_time (po_db p) <? fl_until f) (in_flight p) | _ => true end.

Fixpoint timely (l : list Turn) (p : Pool) : bool :=
  match l with [] => true | t :: l' => in_timeb t p && match turn t p with Some q => timely l' q | None => true end end.

Lemma timely_reaches l : forall p0 p p', reaches p0 p -> timely l p = true -> run_turns l p = Some p' -> reaches p0 p'.
Proof.
  induction l as [|t l IH]; intros p0 p p' Hr; cbn [timely run_turns]; [by intros _ [= <-]|].
  intros [Ht Hl]%andb_true_iff. destruct (turn t p) as [q|] eqn:E; [|done]. cbn [mbind option_bind]. apply IH; [|done].
  apply (reaches_turn p0 p t q Hr); [|done]. destruct t; try done. intros f Hf. cbn [in_timeb] in Ht. rewrite forallb_forall in Ht.
  by apply Z.ltb_lt, Ht.
Qed.

(** Three files, two permits: the first twelve readings of the clock are at 0, the
    others at [later]. *)
Definition slow_clock (later : Z) (n : nat) : Z := if (n <? 12)%nat then 0 else later.
Definition three_files (later : Z) : StateDb :=
  snd (op_for [Enqueue "/a" 1 "baseline" 0; Enqueue "/b" 1 "baseline" 0; Enqueue "/c" 1 "baseline" 0]%string run_op (open_db (slow_clock later))).
Definition two_busy : list Turn := [TLease; TSpawn; TLease; TSpawn; TLease].

(** The third candidate waits while the other two are worked on and renewed. *)
Definition busy (renewals : list Turn) : list Turn :=
  two_busy ++ renewals ++ [TWork 1 (Transition 1 states.OPENING); TElse (Enqueue "/a" 0 "written" 0); TEnd 1 (Some (Transition 1 states.COMPLETE)); TSpawn]%string.

Lemma three_wf later : queue_wf (three_files later).
Proof. apply (queue_wf_reachable _ (slow_clock later)). Qed.

Lemma workers_exclusive_witness :
  exists p, run_turns (busy [TRenew 1; TRenew 2] ++ [TLease]) (new_pool 2 (three_files 100)) = Some p /\
    map fl_id (in_flight p) = [2; 3] /\ po_permits p = 0%nat /\ NoDup (map fl_path (in_flight p)).
Proof.
  destruct (run_turns (busy [TRenew 1; TRenew 2] ++ [TLease]) (new_pool 2 (three_files 100))) as [p|] eqn:E; [|vm_compute in E; discriminate E].
  exists p. split; [done|]. assert (Hp : Some p = run_turns (busy [TRenew 1; TRenew 2] ++ [TLease]) (new_pool 2 (three_files 100))) by done.
  split; [vm_compute in Hp; injection Hp as ->; reflexivity|]. split; [vm_compute in Hp; injection Hp as ->; reflexivity|].
  destruct (workers_exclusive 2 (three_files 100) p) as (_ & _ & _ & H & _); [exact (three_wf 100)| |exact H].
  apply (timely_reaches (busy [TRenew 1; TRenew 2] ++ [TLease]) _ (new_pool 2 (three_files 100))); [constructor|vm_compute; reflexivity|exact E].
Defined.

(** No watchdog renews the candidate that waits for a permit: after a wait of more
    than two minutes the loop leases it again as soon as its task is spawned, and
    two tasks work on it. *)
Example permit_wait_outlives_lease :
  exists p, run_turns (busy [TRenew 1; TRenew 2] ++ [TLease; TEnd 2 (Some (Transition 2 states.COMPLETE)); TSpawn]) (new_pool 2 (three_files 200)) = Some p /\
    map fl_path (po_running p) = ["/c"; "/c"]%string.
Proof. eexists. split; vm_compute; reflexivity. Qed.
