(* ===== verification/Access.v ===== *)
(** * Access: server authentication, tenants and agents
    ([corpus-core/src/auth.rs], [tenant.rs], [agents.rs])

    Which configurations the server starts with and whom its admin routes
    accept; tenants and the resolution of the tenant header; enrollment tokens,
    agent identities, heartbeats and coverage gaps. *)

From S2P Require Import Prelude Machine Text Hash Cas Schema Ingest.
From Stdlib Require Import Strings.Byte Strings.Ascii.

Open Scope Z_scope.

(** ** auth.rs *)

Definition MCP_DEV_TOKEN : string := "mcp-dev-token".

Record AuthConfig := mkAuthConfig {
  au_admin_token : option string; au_require_admin : bool; au_allow_dev_ingest : bool; au_mcp_token : string;
  au_merlin_ingest_token : option string; au_listen_is_loopback : bool }.

(** [.ok().map(trim).filter(non-empty)] *)
Definition nonempty_var (v : option string) : option string :=
  match v with Some s => let s := str_trim s in if String.eqb s "" then None else Some s | None => None end.

Definition is_set {A} (v : option A) : bool := match v with Some _ => true | None => false end.

(** [env] is the process environment, [listen_is_loopback] the answer of
    [is_loopback_listen] for the listen address. *)
Definition from_env (env : string -> option string) (listen_is_loopback : bool) : outcome AuthConfig :=
  let admin_token := nonempty_var (env "CORPUS_ADMIN_TOKEN") in
  if negb listen_is_loopback && negb (is_set admin_token) then
    Fail (BadRequest "CORPUS_LISTEN is non-loopback but CORPUS_ADMIN_TOKEN is unset; refuse to start without admin auth (bind 127.0.0.1 or set a token)")
  else
    let require_admin := is_set admin_token || is_set (env "CORPUS_REQUIRE_ADMIN") || negb listen_is_loopback in
    if require_admin && negb (is_set admin_token) then
      Fail (BadRequest "admin auth required (CORPUS_REQUIRE_ADMIN or non-loopback) but CORPUS_ADMIN_TOKEN is unset")
    else
      let mcp_token := default (if listen_is_loopback then MCP_DEV_TOKEN else ""%string) (env "CORPUS_MCP_TOKEN") in
      if negb listen_is_loopback && (String.eqb mcp_token "" || String.eqb mcp_token MCP_DEV_TOKEN) then
        Fail (BadRequest "non-loopback bind requires CORPUS_MCP_TOKEN set to a non-default value")
      else
        let merlin_ingest_token := nonempty_var (env "CORPUS_MERLIN_INGEST_TOKEN") in
        let allow_dev_ingest := listen_is_loopback && negb (is_set (env "CORPUS_DENY_DEV_INGEST")) && negb require_admin in
        let allow_dev_ingest :=
          if is_set admin_token then is_set (env "CORPUS_ALLOW_DEV_INGEST")
          else allow_dev_ingest || is_set (env "CORPUS_ALLOW_DEV_INGEST") in
        Ret (mkAuthConfig admin_token require_admin allow_dev_ingest mcp_token merlin_ingest_token listen_is_loopback).

(** The loop of [subtle_eq]: the bits that differ so far. *)
Definition differing (a b : bytes) : Z := foldl (fun diff xy => Z.lor diff (Z.lxor (u8 (fst xy)) (u8 (snd xy)))) 0 (zip a b).

Definition subtle_eq (a b : bytes) : bool :=
  if negb (Nat.eqb (length a) (length b)) then false else differing a b =? 0.

Definition admin_matches (c : AuthConfig) (provided : string) : bool :=
  match au_admin_token c with Some expected => subtle_eq (str_bytes expected) (str_bytes provided) | None => false end.

Definition mcp_matches (c : AuthConfig) (provided : string) : bool := subtle_eq (str_bytes (au_mcp_token c)) (str_bytes provided).

Definition merlin_matches (c : AuthConfig) (provided : string) : bool :=
  match au_merlin_ingest_token c with Some expected => subtle_eq (str_bytes expected) (str_bytes provided) | None => false end.

Fixpoint strip_prefix (p s : string) : option string :=
  match p, s with
  | EmptyString, _ => Some s
  | String x p', String y s' => if Ascii.eqb x y then strip_prefix p' s' else None
  | _, EmptyString => None
  end.

Definition bearer_from_authorization (header : option string) : option string := s ← header; strip_prefix "Bearer " s.

Definition check_merlin_ingest (c : AuthConfig) (header : option string) : outcome unit :=
  match bearer_from_authorization header with
  | None => Fail (Unauthorized "Merlin bridge requires Authorization: Bearer <CORPUS_MERLIN_INGEST_TOKEN>")
  | Some token => if merlin_matches c token || admin_matches c token then Ret tt else Fail (Unauthorized "invalid Merlin bridge token")
  end.

Definition check_admin (c : AuthConfig) (header : option string) : outcome unit :=
  if negb (au_require_admin c) then Ret tt
  else
    match bearer_from_authorization header with
    | None => Fail (Unauthorized "admin routes require Authorization: Bearer <CORPUS_ADMIN_TOKEN>")
    | Some token => if negb (admin_matches c token) then Fail (Unauthorized "invalid admin token") else Ret tt
    end.

(** ** tenant.rs *)

Definition slug_char (n i : nat) (c : ascii) : bool :=
  in_range 97 122 c || is_ascii_digit c || (Ascii.eqb c "-" && Nat.ltb 0 i && Nat.ltb (i + 1) n).

(** The characters from the [i]-th on; those of an accepted slug are bytes. *)
Fixpoint slug_chars (n i : nat) (s : string) : bool :=
  match s with
  | EmptyString => true
  | String c s' => slug_char n i c && slug_chars n (S i) s'
  end.

Definition validate_slug (slug : string) : outcome unit :=
  if (str_len slug <=? 63) && negb (String.eqb slug "") && slug_chars (String.length slug) 0 slug then Ret tt
  else Fail (BadRequest ("invalid tenant slug " +:+ (debug_str slug +:+ ": use lowercase alphanumeric, optional internal hyphens, max 63 chars"))).

Definition tenant_is (id : Uuid) (t : Tenant) : bool := bool_decide (tn_id t = id).

Section access.
  Context {SHA : Sha256} {HEX : HexCodec} {UD : UuidDisplay} {UP : UuidParse}.

(** [INSERT INTO tenant]: the primary key is checked before the slug's. *)
Definition insert_tenant (t : Tenant) (slug_taken : Error) : Op Srv unit :=
  fresh_id ← gets (fun s => negb (existsb (fun x => bool_decide (tn_id x = tn_id t)) (rows TTenant s)));
  if negb (fresh_id : bool) then throw (Db "duplicate key value violates unique constraint tenant_pkey")
  else
    inserted ← insert_on_conflict TTenant tn_slug t;
    if (inserted : bool) then mret tt else throw slug_taken.

Definition create_tenant (req_slug req_name : string) : Op Srv Tenant :=
  let slug := str_lower (str_trim req_slug) in
  lift_outcome (validate_slug slug) ;;
  let name := str_trim req_name in
  if String.eqb name "" then throw (BadRequest "tenant name must not be empty")
  else if 200 <? str_len name then throw (BadRequest "tenant name too long (max 200)")
  else
    id ← new_v4;
    t ← now;
    let row := mkTenant id slug name "active" t in
    insert_tenant row (Conflict ("tenant slug " +:+ (debug_str slug +:+ " already exists"))) ;;
    mret row.

Definition tenant_le (a b : Tenant) : bool :=
  (tn_created_at a <? tn_created_at b) || ((tn_created_at a =? tn_created_at b) && str_leb (tn_slug a) (tn_slug b)).

Definition list_tenants : Op Srv (list Tenant) := gets (fun s => sort_by tenant_le (rows TTenant s)).

Definition get_tenant (id : Uuid) : Op Srv Tenant :=
  row ← select_optional TTenant (tenant_is id);
  or_throw (NotFound ("tenant " +:+ uuid_to_string id)) row.

Definition get_tenant_by_slug (slug : string) : Op Srv Tenant :=
  row ← select_optional TTenant (fun t => String.eqb (tn_slug t) slug);
  or_throw (NotFound ("tenant slug " +:+ debug_str slug)) row.

Definition DEFAULT_TENANT : Uuid := 1%N.

Definition inactive (t : Tenant) : Error := Forbidden ("tenant " +:+ (tn_slug t +:+ (" is " +:+ tn_status t))).

Definition resolve_active_tenant (header : option string) : Op Srv Uuid :=
  tenant ← match header with
           | None => get_tenant DEFAULT_TENANT
           | Some raw =>
               if String.eqb raw "" then get_tenant DEFAULT_TENANT
               else
                 let s := str_trim raw in
                 match uuid_parse s with
                 | Some id => get_tenant id
                 | None => get_tenant_by_slug (str_lower s)
                 end
           end;
  if negb (String.eqb (tn_status tenant) "active") then throw (inactive tenant) else mret (tn_id tenant).

(** ** agents.rs *)

Record AgentIdentity := mkAgentIdentity { id_agent_id : Uuid; id_tenant_id : Uuid; id_host_name : string }.

(** The certificate authority ([mtls.rs], over rcgen): the deployment's
    certificate, and the certificate and key it signs for an agent. *)
Record DeploymentCa := mkDeploymentCa { ca_cert_pem : string; ca_sign : Uuid -> outcome (string * string) }.

Definition hash_token (token : string) : bytes := sha256_raw (str_bytes token).

(** A row that references a tenant there is none of. *)
Definition require_tenant (tenant_id : Uuid) : Op Srv unit :=
  row ← select_optional TTenant (tenant_is tenant_id);
  match row with Some _ => mret tt | None => throw (Db "insert or update violates foreign key constraint") end.

(** [Duration::seconds] and the addition of a duration to a time: each panics out
    of its range, 2^63 - 1 milliseconds and the years of chrono's calendar. *)
Definition DURATION_MAX_SECS : Z := 9223372036854775.
Definition TIME_MIN : Time := -8334601228800.
Definition TIME_MAX : Time := 8210266876799.

Definition time_plus (t : Time) (secs : Z) : outcome Time :=
  if (Z.abs secs <=? DURATION_MAX_SECS) && (TIME_MIN <=? t + secs) && (t + secs <=? TIME_MAX) then Ret (t + secs) else Panic.

Definition create_enrollment_token (tenant_id : Uuid) (label : string) (ttl_secs : option Z) : Op Srv (string * option Time) :=
  u ← new_v4;
  let token := "cptok-" +:+ uuid_to_string u in
  expires_at ← match ttl_secs with
               | Some s => t ← now; e ← lift_outcome (time_plus t s); mret (Some e)
               | None => mret None
               end;
  t ← now;
  require_tenant tenant_id ;;
  insert_unique TToken et_token_sha256 (mkEnrollmentToken (hash_token token) tenant_id label t expires_at None None) ;;
  mret (token, expires_at).

(** [token_sha256 = $1 AND consumed_at IS NULL AND (expires_at IS NULL OR expires_at > $2)] *)
Definition usable (token_hash : bytes) (t : Time) (r : EnrollmentToken) : bool :=
  bool_decide (et_token_sha256 r = token_hash) && negb (is_set (et_consumed_at r)) &&
  match et_expires_at r with Some e => t <? e | None => true end.

Definition consume (t : Time) (r : EnrollmentToken) : EnrollmentToken :=
  mkEnrollmentToken (et_token_sha256 r) (et_tenant r) (et_label r) (et_created_at r) (et_expires_at r) (et_consumed_by r) (Some t).

(** [UPDATE enrollment_token SET consumed_at ... RETURNING tenant_id] *)
Definition take_token (token_hash : bytes) : Op Srv Uuid :=
  t ← now;
  row ← select_optional TToken (usable token_hash t);
  _ ← update_rows TToken (usable token_hash t) (consume t);
  match row with
  | Some r => mret (et_tenant r)
  | None => throw (BadRequest "invalid, expired, or consumed enrollment token")
  end.

Definition consumed_by (token_hash : bytes) (agent_id : Uuid) : Op Srv unit :=
  _ ← update_rows TToken (fun r => bool_decide (et_token_sha256 r = token_hash))
    (fun r => mkEnrollmentToken (et_token_sha256 r) (et_tenant r) (et_label r) (et_created_at r) (et_expires_at r) (Some agent_id)
       (et_consumed_at r));
  mret tt.

Record EnrollResponse := mkEnrollResponse {
  er_agent_id : Uuid; er_agent_token : string; er_tenant_id : Uuid; er_ca_cert_pem : string; er_client_cert_pem : string;
  er_client_key_pem : string }.

Definition new_agent (id tenant : Uuid) (host : string) (token : bytes) (version : string) (t : Time) : Agent :=
  mkAgent id tenant host token version t None None None None None None None None None (JObj []) None.

Definition enroll (ca : DeploymentCa) (enrollment_token host_name agent_version : string) : Op Srv EnrollResponse :=
  let token_hash := hash_token enrollment_token in
  tenant_id ← take_token token_hash;
  tenant ← get_tenant tenant_id;
  if negb (String.eqb (tn_status tenant) "active") then throw (inactive tenant)
  else
    agent_id ← new_v4;
    u ← new_v4;
    let agent_token := "cpagent-" +:+ uuid_to_string u in
    t ← now;
    insert_unique TAgent ag_id (new_agent agent_id tenant_id host_name (hash_token agent_token) agent_version t) ;;
    consumed_by token_hash agent_id ;;
    cert ← lift_outcome (ca_sign ca agent_id);
    mret (mkEnrollResponse agent_id agent_token tenant_id (ca_cert_pem ca) (fst cert) (snd cert)).

(** Client certificate, key and the deployment's certificate. *)
Definition renew_cert (ca : DeploymentCa) (agent_id : Uuid) : outcome (string * string * string) :=
  cert ← ca_sign ca agent_id; mret (fst cert, snd cert, ca_cert_pem ca).

Definition identity_of (r : Agent) : AgentIdentity := mkAgentIdentity (ag_id r) (ag_tenant r) (ag_host_name r).

Definition authenticate_cert (agent_id : Uuid) : Op Srv AgentIdentity :=
  row ← select_optional TAgent (fun r => bool_decide (ag_id r = agent_id));
  r ← or_throw (Unauthorized "unknown agent cert identity") row;
  mret (identity_of r).

(** [legacy]: CORPUS_AGENT_LEGACY_BEARER is set. *)
Definition authenticate (legacy : bool) (bearer : string) : Op Srv AgentIdentity :=
  if negb legacy then
    throw (Unauthorized "bearer auth disabled (mTLS agent listener is the default); set CORPUS_AGENT_LEGACY_BEARER=1 for legacy dev mode")
  else
    row ← select_optional TAgent (fun r => bool_decide (ag_token_sha256 r = hash_token bearer));
    r ← or_throw (Unauthorized "invalid agent token") row;
    mret (identity_of r).

Record HeartbeatRequest := mkHeartbeatRequest {
  hb_agent_version : string; hb_policy_digest : string; hb_baseline_state : string; hb_baseline_percent : f64; hb_queue_depth : Z;
  hb_spool_bytes : Z; hb_oldest_pending_secs : option Z; hb_sensor : string; hb_outcome_counts : Json;
  hb_last_upload_at : option Time; hb_clock_offset_ms : option Z }.

Definition heartbeat (ident : AgentIdentity) (hb : HeartbeatRequest) : Op Srv unit :=
  t ← now;
  _ ← update_rows TAgent (fun r => bool_decide (ag_id r = id_agent_id ident)) (fun r =>
    mkAgent (ag_id r) (ag_tenant r) (ag_host_name r) (ag_token_sha256 r) (hb_agent_version hb) (ag_enrolled_at r) (Some t)
      (hb_last_upload_at hb) (Some (hb_policy_digest hb)) (Some (hb_baseline_state hb)) (Some (hb_baseline_percent hb))
      (Some (hb_queue_depth hb)) (Some (hb_spool_bytes hb)) (hb_oldest_pending_secs hb) (Some (hb_sensor hb)) (hb_outcome_counts hb)
      (hb_clock_offset_ms hb));
  mret tt.

Record GapEvent := mkGapEvent {
  ge_observed_at : Time; ge_capture_reason : string; ge_terminal_outcome : string; ge_artifact_sha256 : option string;
  ge_path : option string; ge_detail_code : option string; ge_detail : option Json; ge_host_name : option string }.

Definition gap_sha (g : GapEvent) : outcome (option bytes) :=
  match ge_artifact_sha256 g with
  | Some h => match hex_to_raw h with Some b => Ret (Some b) | None => Fail (BadRequest ("invalid sha256 hex: " +:+ debug_str h)) end
  | None => Ret None
  end.

Definition record_gap_event (tenant_id : Uuid) (host_name : string) (agent_id : Uuid) (g : GapEvent) : Op Srv unit :=
  sha ← lift_outcome (gap_sha g);
  id ← new_v4;
  insert_unique TAttempt ca_id (mkCaptureAttempt id tenant_id host_name agent_id (ge_observed_at g) (ge_capture_reason g)
    (ge_terminal_outcome g) sha (ge_path g) (ge_detail_code g) (default (JObj []) (ge_detail g))).

Definition record_gaps_scoped (tenant_id : Uuid) (host_name : string) (agent_id : Uuid) (gaps : list GapEvent) : Op Srv Z :=
  db_transaction (op_for gaps (record_gap_event tenant_id host_name agent_id)) ;;
  mret (len gaps).

Definition record_gaps (ident : AgentIdentity) (gaps : list GapEvent) : Op Srv Z :=
  record_gaps_scoped (id_tenant_id ident) (id_host_name ident) (id_agent_id ident) gaps.

Definition record_gaps_dev (tenant_id : Uuid) (gaps : list GapEvent) : Op Srv Z :=
  record_gaps_scoped tenant_id (default "corpusctl"%string (g ← head gaps; ge_host_name g)) 0%N gaps.

Definition agent_le (a b : Agent) : bool := ag_enrolled_at a <=? ag_enrolled_at b.

Definition list_agents (tenant_id : Uuid) : Op Srv (list Agent) :=
  gets (fun s => sort_by agent_le (List.filter (fun r => bool_decide (ag_tenant r = tenant_id)) (rows TAgent s))).

Definition agent_status (tenant_id agent_id : Uuid) : Op Srv Agent :=
  row ← select_optional TAgent (fun r => bool_decide (ag_tenant r = tenant_id) && bool_decide (ag_id r = agent_id));
  or_throw (NotFound ("agent " +:+ uuid_to_string agent_id)) row.

(** [ORDER BY observed_at DESC] *)
Definition gap_row_le (a b : CaptureAttempt) : bool := ca_observed_at b <=? ca_observed_at a.

Definition is_gap (tenant_id : Uuid) (wanted : option string) (r : CaptureAttempt) : bool :=
  bool_decide (ca_tenant r = tenant_id) && negb (String.eqb (ca_terminal_outcome r) "CAPTURED" || String.eqb (ca_terminal_outcome r) "ALREADY_PRESENT") &&
  match wanted with Some o => String.eqb (ca_terminal_outcome r) o | None => true end.

Definition negative_limit : Error := Db "LIMIT must not be negative".

Definition coverage_gaps (tenant_id : Uuid) (wanted : option string) (limit : Z) : Op Srv (list CaptureAttempt) :=
  if limit <? 0 then throw negative_limit
  else gets (fun s => take (Z.to_nat limit) (sort_by gap_row_le (List.filter (is_gap tenant_id wanted) (rows TAttempt s)))).

(** ** Tokens and headers *)

Lemma subtle_eq_spec a b : subtle_eq a b = true <-> a = b.
Proof.
  assert (H : forall a b d, length a = length b ->
    foldl (fun diff xy => Z.lor diff (Z.lxor (u8 (fst xy)) (u8 (snd xy)))) d (zip a b) = 0 <-> d = 0 /\ a = b).
  { clear a b. induction a as [|x a IH]; intros [|y b] d Hl; try done; [by split; [|intros [? _]]|].
    cbn [zip zip_with foldl fst snd]. rewrite IH by by injection Hl. rewrite Z.lor_eq_0_iff, Z.lxor_eq_0_iff. split.
    - intros [[-> Hu] ->]. apply u8_inj in Hu. by subst.
    - intros [-> [= -> ->]]. done. }
  unfold subtle_eq, differing. destruct (Nat.eqb_spec (length a) (length b)) as [Hl|Hl]; cbn [negb].
  - rewrite Z.eqb_eq, (H a b 0 Hl). by split; [intros [_ ?]|].
  - split; [done|]. intros ->. done.
Qed.

Lemma token_eq_spec s t : subtle_eq (str_bytes s) (str_bytes t) = true <-> s = t.
Proof. rewrite subtle_eq_spec. split; [apply str_bytes_inj|by intros ->]. Qed.

Lemma strip_prefix_spec p s t : strip_prefix p s = Some t <-> s = p +:+ t.
Proof.
  revert s. induction p as [|x p IH]; intros s; cbn [strip_prefix]; [split; [by intros [= ->]|by intros ->]|].
  destruct s as [|y s]; [done|]. destruct (Ascii.eqb_spec x y) as [<-|Hn].
  - rewrite IH. cbn. split; [by intros ->|by intros [= ->]].
  - split; [done|]. intros [= ->]. done.
Qed.

Lemma bearer_spec header token : bearer_from_authorization header = Some token <-> header = Some ("Bearer " +:+ token).
Proof.
  unfold bearer_from_authorization. destruct header as [s|]; [|done]. cbn. rewrite (strip_prefix_spec "Bearer " s token).
  split; [by intros ->|by intros [= ->]].
Qed.

Lemma nonempty_var_some v t : nonempty_var v = Some t -> t <> ""%string.
Proof.
  unfold nonempty_var. destruct v as [s|]; [|done]. destruct (String.eqb_spec (str_trim s) ""); [done|]. by intros [= <-].
Qed.

Lemma check_admin_accepts c header :
  au_require_admin c = true ->
  check_admin c header = Ret tt <-> exists t, au_admin_token c = Some t /\ header = Some ("Bearer " +:+ t).
Proof.
  intros Hr. unfold check_admin. rewrite Hr. cbn [negb].
  destruct (bearer_from_authorization header) as [token|] eqn:Eb.
  - apply bearer_spec in Eb as ->. unfold admin_matches. destruct (au_admin_token c) as [t|]; cbn [negb].
    2: { split; [done|by intros (? & ? & _)]. }
    destruct (subtle_eq _ _) eqn:Es; cbn [negb].
    + apply token_eq_spec in Es as ->. split; [by eauto|done].
    + split; [done|]. intros (t' & [= <-] & [= E]). subst token.
      by rewrite (proj2 (token_eq_spec _ _) eq_refl) in Es.
  - split; [done|]. intros (t & _ & ->). by rewrite (proj2 (bearer_spec _ t) eq_refl) in Eb.
Qed.

Lemma check_merlin_accepts c header :
  check_merlin_ingest c header = Ret tt <->
  exists t, (au_merlin_ingest_token c = Some t \/ au_admin_token c = Some t) /\ header = Some ("Bearer " +:+ t).
Proof.
  unfold check_merlin_ingest. destruct (bearer_from_authorization header) as [token|] eqn:Eb.
  - apply bearer_spec in Eb as ->.
    assert (Hm : merlin_matches c token || admin_matches c token = true <->
      au_merlin_ingest_token c = Some token \/ au_admin_token c = Some token).
    { rewrite orb_true_iff. unfold merlin_matches, admin_matches.
      destruct (au_merlin_ingest_token c), (au_admin_token c); rewrite ?token_eq_spec; naive_solver. }
    destruct (_ || _).
    + split; [|done]. intros _. exists token. split; [by apply Hm|done].
    + split; [done|]. intros (t & Ht & [= <-]). by apply Hm in Ht.
  - split; [done|]. intros (t & _ & ->). by rewrite (proj2 (bearer_spec _ t) eq_refl) in Eb.
Qed.

(** Start-up either refuses a configuration, and then because the admin
    routes or the MCP endpoint would be open: admin authentication is asked for
    (or the address is not loopback) without a token, or the address is not
    loopback and the MCP token is missing, empty or the published default; or it
    starts.  What it starts with off loopback requires the admin token; a
    configuration that requires it has a nonempty one, and the admin routes then
    accept exactly the header [Bearer <token>]; the Merlin bridge accepts exactly
    its own token's header and the admin's; the development ingest is open only
    when asked for, or on loopback without admin authentication. *)
Theorem from_env_guards (env : string -> option string) (loopback : bool) :
  let admin := nonempty_var (env "CORPUS_ADMIN_TOKEN"%string) in
  let asked := is_set (env "CORPUS_REQUIRE_ADMIN"%string) in
  let mcp_open := match env "CORPUS_MCP_TOKEN"%string with
                  | Some t => t = ""%string \/ t = MCP_DEV_TOKEN
                  | None => True
                  end in
  let refused := (admin = None /\ (loopback = false \/ asked = true)) \/ (loopback = false /\ mcp_open) in
  match from_env env loopback with
  | Ret c =>
      ~ refused /\
      (au_require_admin c = true <-> admin <> None \/ asked = true \/ loopback = false) /\
      (au_require_admin c = true ->
       exists t, admin = Some t /\ t <> ""%string /\ forall h, check_admin c h = Ret tt <-> h = Some ("Bearer " +:+ t)) /\
      (loopback = false -> au_mcp_token c <> ""%string /\ au_mcp_token c <> MCP_DEV_TOKEN) /\
      (forall h, check_merlin_ingest c h = Ret tt <->
        exists t, (nonempty_var (env "CORPUS_MERLIN_INGEST_TOKEN"%string) = Some t \/ admin = Some t) /\ h = Some ("Bearer " +:+ t)) /\
      (au_allow_dev_ingest c = true <->
       is_set (env "CORPUS_ALLOW_DEV_INGEST"%string) = true \/
       (au_require_admin c = false /\ is_set (env "CORPUS_DENY_DEV_INGEST"%string) = false))
  | Fail e => refused /\ exists m, e = BadRequest m
  | Panic => False
  end.
Proof.
  intros admin asked mcp_open refused. unfold from_env. fold admin asked.
  assert (Hne : forall t, admin = Some t -> t <> ""%string) by (intros t; apply nonempty_var_some).
  assert (Hmcp : loopback = false ->
    String.eqb (default (if loopback then MCP_DEV_TOKEN else ""%string) (env "CORPUS_MCP_TOKEN"%string)) "" ||
    String.eqb (default (if loopback then MCP_DEV_TOKEN else ""%string) (env "CORPUS_MCP_TOKEN"%string)) MCP_DEV_TOKEN = true <-> mcp_open).
  { intros ->. unfold mcp_open. destruct (env "CORPUS_MCP_TOKEN"%string) as [t|]; cbn [default]; [|done].
    rewrite orb_true_iff, !String.eqb_eq. done. }
  destruct (negb loopback && negb (is_set admin)) eqn:E1.
  { apply andb_true_iff in E1 as [E1 E2]. apply negb_true_iff in E1, E2. split; [|by eexists]. left.
    split; [by destruct admin|by left]. }
  destruct ((is_set admin || asked || negb loopback) && negb (is_set admin)) eqn:E2.
  { apply andb_true_iff in E2 as [E2 E3]. apply negb_true_iff in E3. rewrite E3 in *. cbn [orb] in E2. split; [|by eexists]. left.
    split; [by destruct admin|]. destruct asked; [by right|]. destruct loopback; [done|by left]. }
  destruct (negb loopback && (_ || _)) eqn:E3.
  { apply andb_true_iff in E3 as [E3 E4]. apply negb_true_iff in E3. split; [|by eexists]. right. split; [exact E3|exact (proj1 (Hmcp E3) E4)]. }
  assert (Hr : ~ ((admin = None /\ (loopback = false \/ asked = true)) \/ (loopback = false /\ mcp_open))).
  { intros [[Ha Hc]|[-> Hm]].
    - rewrite Ha in E1, E2. destruct loopback, asked; try done; destruct Hc; done.
    - apply (proj2 (Hmcp eq_refl)) in Hm. cbn [negb andb] in E3. congruence. }
  split; [exact Hr|]. cbn [au_require_admin au_mcp_token au_allow_dev_ingest au_admin_token].
  assert (Hra : is_set admin || asked || negb loopback = true <-> admin <> None \/ asked = true \/ loopback = false).
  { rewrite !orb_true_iff, negb_true_iff. destruct admin; naive_solver. }
  split; [exact Hra|]. split; [|split; [|split]].
  - intros Hq. rewrite Hq in E2. cbn [andb] in E2. apply negb_false_iff in E2. destruct admin as [t|] eqn:Ea; [|done].
    exists t. split; [done|]. split; [by apply Hne|]. intros h. rewrite check_admin_accepts by done. cbn [au_admin_token].
    split; [intros (t' & [= <-] & ?); done|by eauto].
  - intros ->. cbn [negb andb] in E3. apply orb_false_iff in E3 as [E3 E4]. by apply String.eqb_neq in E3, E4.
  - intros h. rewrite check_merlin_accepts. cbn [au_merlin_ingest_token au_admin_token]. done.
  - destruct admin as [t|] eqn:Ea; cbn [is_set orb andb]; [split; [intros ?; by left|intros [?|[? _]]; done]|].
    rewrite orb_true_iff, !andb_true_iff, !negb_true_iff. cbn [is_set orb] in *.
    destruct loopback, asked; cbn in *; naive_solver.
Qed.

(** ** Enrollment

    What other requests do to the token and agent tables between two calls, one
    statement at a time, as concurrent handlers interleave: [create_enrollment_token]
    is one [INSERT], [enroll] is its token [UPDATE], its agent [INSERT] and the
    [UPDATE] of the consumer, [heartbeat] one [UPDATE]; no other statement of the
    sources writes either table. *)
Inductive Statement : Type :=
  | StToken (tenant : Uuid) (label : string) (ttl : option Z)
  | StTake (token_hash : bytes)
  | StAgent (id tenant : Uuid) (host : string) (token : bytes) (version : string) (t : Time)
  | StConsumedBy (token_hash : bytes) (agent_id : Uuid)
  | StHeartbeat (ident : AgentIdentity) (hb : HeartbeatRequest)
  | StOther (m : Op Srv unit) (_ : frames (rows TToken) m) (_ : frames (rows TAgent) m).

Definition statement (st : Statement) : Op Srv unit :=
  match st with
  | StToken tenant label ttl => _ ← create_enrollment_token tenant label ttl; mret tt
  | StTake h => _ ← take_token h; mret tt
  | StAgent id tenant host token version t => insert_unique TAgent ag_id (new_agent id tenant host token version t)
  | StConsumedBy h id => consumed_by h id
  | StHeartbeat ident hb => heartbeat ident hb
  | StOther m _ _ => m
  end.

(** One after the other, whatever each answers. *)
Fixpoint statements (l : list Statement) (s : Srv) : Srv :=
  match l with
  | [] => s
  | st :: l' => statements l' (snd (statement st s))
  end.

(** The token's row is consumed, and it is the only one of its digest. *)
Definition spent (h : bytes) (s : Srv) : Prop :=
  unique_key TToken et_token_sha256 s /\
  has_row TToken (fun r => et_token_sha256 r = h /\ et_consumed_at r <> None) s.

(** The agent's row says who it is. *)
Definition known (i : AgentIdentity) (s : Srv) : Prop :=
  unique_key TAgent ag_id s /\ has_row TAgent (fun r => identity_of r = i) s.

Lemma spent_frame {A} h (m : Op Srv A) : frames (rows TToken) m -> keeps (spent h) m.
Proof. intros Hm. apply keeps_and; [by apply keeps_unique_frame|by apply keeps_has_row_frame]. Qed.

Lemma known_frame {A} i (m : Op Srv A) : frames (rows TAgent) m -> keeps (known i) m.
Proof. intros Hm. apply keeps_and; [by apply keeps_unique_frame|by apply keeps_has_row_frame]. Qed.

Lemma spent_update h p f :
  (forall x, et_token_sha256 (f x) = et_token_sha256 x) -> (forall x, et_consumed_at x <> None -> et_consumed_at (f x) <> None) ->
  keeps (spent h) (update_rows TToken p f).
Proof.
  intros Hk Hc. apply keeps_and; [by apply keeps_unique_update|]. apply keeps_has_row_update. intros x [Hx Hn]. split; [|auto].
  by rewrite Hk.
Qed.

Lemma spent_take h h' : keeps (spent h) (take_token h').
Proof.
  unfold take_token. apply keeps_bind; [by apply spent_frame; intros ?|intros t]. apply keeps_bind; [apply keeps_gets|intros row].
  apply keeps_bind; [|intros _; destruct row; [apply keeps_mret|apply keeps_throw]]. by apply spent_update.
Qed.

Lemma spent_consumed_by h h' id : keeps (spent h) (consumed_by h' id).
Proof. unfold consumed_by. apply keeps_bind; [by apply spent_update|intros _; apply keeps_mret]. Qed.

Lemma spent_create h tenant label ttl : keeps (spent h) (create_enrollment_token tenant label ttl).
Proof.
  unfold create_enrollment_token. apply keeps_bind; [by apply spent_frame; intros ?|intros u]. cbv zeta.
  apply keeps_bind; [apply spent_frame; frames_tac|intros e]. apply keeps_bind; [by apply spent_frame; intros ?|intros t].
  apply keeps_bind; [apply spent_frame; unfold require_tenant; frames_tac|intros _].
  apply keeps_bind; [|intros _; apply keeps_mret].
  apply keeps_and; [apply keeps_unique_insert_unique|]. apply keeps_has_row_appends. apply appends_insert_unique.
Qed.

Lemma known_insert i r : keeps (known i) (insert_unique TAgent ag_id r).
Proof. apply keeps_and; [apply keeps_unique_insert_unique|]. apply keeps_has_row_appends. apply appends_insert_unique. Qed.

Lemma known_heartbeat i ident hb : keeps (known i) (heartbeat ident hb).
Proof.
  unfold heartbeat. apply keeps_bind; [by apply known_frame; intros ?|intros t]. apply keeps_bind; [|intros _; apply keeps_mret].
  apply keeps_and; [by apply keeps_unique_update|]. by apply keeps_has_row_update.
Qed.

Lemma statement_spent h st : keeps (spent h) (statement st).
Proof.
  destruct st as [tenant label ttl|h'|id tenant host token version t|h' id|ident hb|m Ht Ha]; cbn [statement].
  - apply keeps_bind; [apply spent_create|intros _; apply keeps_mret].
  - apply keeps_bind; [apply spent_take|intros _; apply keeps_mret].
  - apply spent_frame. by apply frames_insert_unique.
  - apply spent_consumed_by.
  - apply spent_frame. unfold heartbeat. frames_tac.
  - by apply spent_frame.
Qed.

Lemma statement_known i st : keeps (known i) (statement st).
Proof.
  destruct st as [tenant label ttl|h'|id tenant host token version t|h' id|ident hb|m Ht Ha]; cbn [statement].
  - apply known_frame. unfold create_enrollment_token, require_tenant. frames_tac.
  - apply known_frame. unfold take_token. frames_tac.
  - apply known_insert.
  - apply known_frame. unfold consumed_by. frames_tac.
  - apply known_heartbeat.
  - by apply known_frame.
Qed.

Lemma statements_keep (I : Srv -> Prop) : (forall st, keeps I (statement st)) -> forall l s, I s -> I (statements l s).
Proof. intros Hk l. induction l as [|st l IH]; intros s Hs; [done|]. cbn [statements]. apply IH. by apply Hk. Qed.

Definition token_refused : Error := BadRequest "invalid, expired, or consumed enrollment token".

Lemma take_spent h s : spent h s -> fst (take_token h s) = Fail token_refused.
Proof.
  intros (Hu & r & Hr & Hh & Hc). unfold take_token. erewrite bind_run; [|reflexivity]. cbn beta.
  erewrite bind_run; [|reflexivity]. erewrite bind_run; [|reflexivity].
  change (rows TToken (snd (now s))) with (rows TToken s).
  rewrite (filter_nil_forall (usable h _) (rows TToken s)); [done|].
  intros x Hx. unfold usable. case_bool_decide as Ex; [|done]. cbn [andb].
  assert (x = r) as -> by (eapply (nodup_map_inj et_token_sha256); [exact Hu|done|done|congruence]).
  destruct (et_consumed_at r); [done|]. by destruct Hc.
Qed.

(** The certificate of an agent that is known authenticates as it. *)
Lemma known_authenticates i s : known i s -> fst (authenticate_cert (id_agent_id i) s) = Ret i.
Proof.
  intros (Hun & row & Hin & Hid). unfold authenticate_cert. erewrite bind_run; [|reflexivity].
  assert (Eid : ag_id row = id_agent_id i) by (by rewrite <- Hid).
  destruct (head _) as [x|] eqn:Eh.
  - apply head_filter_in in Eh as [Hx Ex]. apply bool_decide_eq_true in Ex. change (Ret (identity_of x) = Ret i).
    assert (x = row) as -> by (eapply (nodup_map_inj ag_id); [exact Hun|done|done|congruence]). by rewrite Hid.
  - pose proof (head_filter_none _ _ Eh row Hin) as Hf. cbn beta in Hf. by apply bool_decide_eq_false in Hf.
Qed.

(** A token that is taken was issued, not consumed and not expired; it is
    consumed afterwards. *)
Lemma take_ret h s t s1 :
  unique_key TToken et_token_sha256 s -> take_token h s = (Ret t, s1) ->
  spent h s1 /\ rows TAgent s1 = rows TAgent s /\ rows TTenant s1 = rows TTenant s /\
  exists r, In r (rows TToken s) /\ et_tenant r = t /\ usable h (srv_clock s (srv_clock_next s)) r = true.
Proof.
  unfold take_token. intros Hu. erewrite bind_run; [|reflexivity]. cbn beta.
  erewrite bind_run; [|reflexivity]. set (t0 := srv_clock s (srv_clock_next s)). set (s0 := snd (now s)).
  change (rows TToken s0) with (rows TToken s).
  assert (Hk : keeps (unique_key TToken et_token_sha256) (update_rows TToken (usable h t0) (consume t0))) by by apply keeps_unique_update.
  specialize (Hk s0 Hu). erewrite bind_run; [|reflexivity]. cbv beta.
  destruct (head _) as [r|] eqn:Eh; [|done]. intros [= <- <-]. apply head_filter_in in Eh as [Hr Hus].
  change (In r (rows TToken s)) in Hr.
  split; [|split; [|split; [|by exists r]]]; [|etransitivity; [by apply rows_set_rows_ne|reflexivity]..].
  split; [exact Hk|]. exists (consume t0 r). rewrite rows_set_rows_eq. split.
  - apply in_map_iff. exists r. by rewrite Hus.
  - unfold usable in Hus. case_bool_decide; [done|done].
Qed.

(** An enrollment with a token that was never issued fails and changes no row. *)
Lemma enroll_refused ca token host version s : (forall k, In k (rows TToken s) -> et_token_sha256 k <> hash_token token) ->
  exists s', enroll ca token host version s = (Fail token_refused, s') /\ forall t, rows t s' = rows t s.
Proof.
  intros Hk. unfold enroll, take_token. set (h := hash_token token). eexists. split.
  - unfold mbind at 1, op_mbind at 1. erewrite bind_run; [|reflexivity]. erewrite bind_run; [|reflexivity]. erewrite bind_run; [|reflexivity].
    change (rows TToken (snd (now s))) with (rows TToken s). rewrite (filter_nil_forall (usable h _) (rows TToken s)); [reflexivity|].
    intros x Hx. unfold usable. rewrite bool_decide_false by (by apply Hk). done.
  - intros t. cbn [update_rows snd]. change (rows t s) with (rows t (snd (now s))). set (s0 := snd (now s)).
    destruct (decide (t = TToken)) as [->|Hne]; [|by rewrite rows_set_rows_ne by (by apply not_eq_sym)]. rewrite rows_set_rows_eq.
    etransitivity; [|apply map_id]. apply map_ext_in. intros x Hx. unfold usable. by rewrite bool_decide_false by (by apply Hk).
Qed.

Lemma enroll_ret ca token host version s r s1 :
  unique_key TToken et_token_sha256 s -> unique_key TAgent ag_id s ->
  enroll ca token host version s = (Ret r, s1) ->
  spent (hash_token token) s1 /\
  known (mkAgentIdentity (er_agent_id r) (er_tenant_id r) host) s1 /\
  (exists k, In k (rows TToken s) /\ et_tenant k = er_tenant_id r /\ usable (hash_token token) (srv_clock s (srv_clock_next s)) k = true) /\
  (exists tn, In tn (rows TTenant s) /\ tn_id tn = er_tenant_id r /\ tn_status tn = "active"%string) /\
  (exists t, In (new_agent (er_agent_id r) (er_tenant_id r) host (hash_token (er_agent_token r)) version t) (rows TAgent s1)).
Proof.
  unfold enroll. intros Hu Ha (tenant_id & sa & Htake & H)%bind_ret. apply (take_ret _ _ _ _ Hu) in Htake as (Hsp & Eag & Etn & Htok).
  apply bind_ret in H as (tenant & sb & Htn & H).
  unfold get_tenant in Htn. apply bind_ret in Htn as (row & s' & [= <- <-] & Htn).
  destruct (head _) as [tn|] eqn:Eh in Htn; [|done]. injection Htn as <- <-. apply head_filter_in in Eh as [Hin Hid].
  unfold tenant_is in Hid. apply bool_decide_eq_true in Hid.
  destruct (String.eqb_spec (tn_status tn) "active") as [Hact|]; cbn [negb] in H; [|done].
  apply bind_ret in H as (agent_id & s2 & [= <- <-] & H). apply bind_ret in H as (u & s3 & [= <- <-] & H).
  apply bind_ret in H as (t & s4 & [= <- <-] & H). apply bind_ret in H as ([] & s5 & Hins & H).
  apply bind_ret in H as ([] & s6 & Hby & H). apply bind_ret in H as (cert & s7 & [= Hc <-] & H). injection H as <- <-.
  cbn [er_agent_id er_tenant_id er_agent_token].
  match type of Hins with insert_unique _ _ ?r ?s0 = _ => set (row := r) in *; set (s4 := s0) in * end.
  match type of Hby with consumed_by _ ?x _ = _ => set (agent_id := x) in * end.
  assert (Hsp4 : spent (hash_token token) s4) by exact Hsp.
  assert (Hrow : In row (rows TAgent s5) /\ unique_key TAgent ag_id s5).
  { split.
    - unfold insert_unique in Hins. apply bind_ret in Hins as (fresh & sx & Hx & Hy). destruct fresh; [|done]. injection Hy as ->.
      unfold insert_on_conflict in Hx. destruct (existsb _ _) in Hx; [done|]. injection Hx as <-. rewrite rows_set_rows_eq.
      apply in_app_iff. right. by left.
    - pose proof (keeps_unique_insert_unique TAgent ag_id row s4) as Hk. rewrite Hins in Hk. apply Hk.
      unfold unique_key in *. change (rows TAgent s4) with (rows TAgent sa). by rewrite Eag. }
  assert (E6 : rows TAgent s6 = rows TAgent s5).
  { assert (Hf : frames (rows TAgent) (consumed_by (hash_token token) agent_id)) by (unfold consumed_by; frames_tac).
    specialize (Hf s5). by rewrite Hby in Hf. }
  split; [|split; [|split; [|split]]].
  - assert (Hk : keeps (spent (hash_token token)) (insert_unique TAgent ag_id row)) by (by apply spent_frame, frames_insert_unique).
    specialize (Hk s4 Hsp4). rewrite Hins in Hk. cbn [snd] in Hk. pose proof (spent_consumed_by _ (hash_token token) agent_id s5 Hk) as Hk'. by rewrite Hby in Hk'.
  - split; [unfold unique_key; rewrite E6; apply Hrow|]. exists row. rewrite E6. split; [apply Hrow|done].
  - destruct Htok as (k & Hk & Et & Huse). exists k. split; [done|]. split; [congruence|done].
  - exists tn. split; [|by rewrite Hid]. by rewrite <- Etn.
  - eexists. rewrite E6. apply Hrow.
Qed.

(** C15. An enrollment token enrolls one agent.  When [enroll] returns, the
    token was issued for the agent's tenant, not consumed and not expired, and
    that tenant was active; the agent's row is in the table under the digest of
    the agent token handed out.  After any statements of other requests, in any
    interleaving, every enrollment with that token is refused, and the identity in
    the client certificate still resolves to the enrolled tenant and host. *)
Theorem enrollment_single_use ca token host version s r s1 l :
  unique_key TToken et_token_sha256 s -> unique_key TAgent ag_id s ->
  enroll ca token host version s = (Ret r, s1) ->
  (exists k, In k (rows TToken s) /\ et_tenant k = er_tenant_id r /\ et_token_sha256 k = hash_token token /\
     et_consumed_at k = None /\ forall e, et_expires_at k = Some e -> srv_clock s (srv_clock_next s) < e) /\
  (exists tn, In tn (rows TTenant s) /\ tn_id tn = er_tenant_id r /\ tn_status tn = "active"%string) /\
  (exists t, In (new_agent (er_agent_id r) (er_tenant_id r) host (hash_token (er_agent_token r)) version t) (rows TAgent s1)) /\
  (forall ca' host' version', fst (enroll ca' token host' version' (statements l s1)) = Fail token_refused) /\
  fst (authenticate_cert (er_agent_id r) (statements l s1)) = Ret (mkAgentIdentity (er_agent_id r) (er_tenant_id r) host).
Proof.
  intros Hu Ha (Hsp & Hkn & (k & Hk & Et & Huse) & Htn & Hag)%enroll_ret; [|done..].
  unfold usable in Huse. apply andb_true_iff in Huse as [[Hh Hc]%andb_true_iff He]. apply bool_decide_eq_true in Hh.
  split; [|split; [exact Htn|split; [exact Hag|split]]].
  - exists k. split; [done|]. split; [done|]. split; [done|]. split; [by destruct (et_consumed_at k)|].
    intros e Ee. rewrite Ee in He. by apply Z.ltb_lt.
  - intros ca' host' version'. apply (statements_keep _ (statement_spent (hash_token token)) l) in Hsp.
    apply take_spent in Hsp. unfold enroll, mbind, op_mbind. destruct (take_token _ _) as [[t|e|] s']; cbn in Hsp; [done| |done].
    by injection Hsp as ->.
  - by apply (known_authenticates (mkAgentIdentity (er_agent_id r) (er_tenant_id r) host)), (statements_keep _ (statement_known _)).
Qed.

(** ** Coverage gaps *)

(** The attempt a gap event is recorded as. *)
Definition reports (tenant_id : Uuid) (host_name : string) (agent_id : Uuid) (g : GapEvent) (r : CaptureAttempt) : Prop :=
  exists id sha, gap_sha g = Ret sha /\
  r = mkCaptureAttempt id tenant_id host_name agent_id (ge_observed_at g) (ge_capture_reason g) (ge_terminal_outcome g) sha
        (ge_path g) (ge_detail_code g) (default (JObj []) (ge_detail g)).

Definition duplicate_key : Error := Db "duplicate key value violates unique constraint".

Lemma record_gap_event_run tenant_id host_name agent_id g s :
  match record_gap_event tenant_id host_name agent_id g s with
  | (Ret _, s') => exists r, rows TAttempt s' = rows TAttempt s ++ [r] /\ reports tenant_id host_name agent_id g r
  | (Fail e, _) => e = duplicate_key \/ gap_sha g = Fail e
  | (Panic, _) => False
  end.
Proof.
  unfold record_gap_event. destruct (gap_sha g) as [sha|e|] eqn:Eg.
  - erewrite bind_run; [|reflexivity]. erewrite bind_run; [|reflexivity]. unfold insert_unique.
    set (row := mkCaptureAttempt _ _ _ _ _ _ _ _ _ _ _). unfold insert_on_conflict, mbind, op_mbind.
    destruct (existsb _ _); cbn; [by left|]. exists row. rewrite rows_set_rows_eq. split; [done|]. eexists _, sha. by split.
  - cbn. by right.
  - unfold gap_sha in Eg. destruct (ge_artifact_sha256 g) as [h|]; [|done]. by destruct (hex_to_raw h).
Qed.

Lemma record_gap_events_run tenant_id host_name agent_id gaps s :
  match op_for gaps (record_gap_event tenant_id host_name agent_id) s with
  | (Ret _, s') => exists new, rows TAttempt s' = rows TAttempt s ++ new /\ Forall2 (reports tenant_id host_name agent_id) gaps new
  | (Fail e, _) => e = duplicate_key \/ exists g, In g gaps /\ gap_sha g = Fail e
  | (Panic, _) => False
  end.
Proof.
  revert s. induction gaps as [|g gaps IH]; intros s; cbn [op_for]; [exists []; by rewrite app_nil_r|].
  pose proof (record_gap_event_run tenant_id host_name agent_id g s) as H. unfold mbind, op_mbind.
  destruct (record_gap_event _ _ _ g s) as [[[]|e|] s1]; [|destruct H; [by left|right; exists g; split; [by left|done]]|done].
  destruct H as (r & Er & Hr). specialize (IH s1). destruct (op_for _ _ s1) as [[[]|e|] s2]; [|destruct IH as [|(x & ? & ?)]; [by left|right; exists x; split; [by right|done]]|done].
  destruct IH as (new & E & Hn). exists (r :: new). rewrite E, Er, <- app_assoc. by split; [|constructor].
Qed.

Definition not_attempts (t : table) : bool := negb (bool_decide (t = TAttempt)).

(** A batch of coverage gaps is recorded whole or not at all: when the call
    returns, the attempts are those of before followed by one row per event, in
    order, and the answer is their number; otherwise the database is as it was,
    and an event carries a malformed digest or an identifier collided.  Either way
    nothing but the attempts changes. *)
Theorem record_gaps_atomic tenant_id host_name agent_id gaps s :
  let run := record_gaps_scoped tenant_id host_name agent_id gaps s in
  agree not_attempts s (snd run) /\
  match fst run with
  | Ret n => n = len gaps /\ exists new, rows TAttempt (snd run) = rows TAttempt s ++ new /\
      Forall2 (reports tenant_id host_name agent_id) gaps new
  | Fail e => rows TAttempt (snd run) = rows TAttempt s /\ (e = duplicate_key \/ exists g, In g gaps /\ gap_sha g = Fail e)
  | Panic => False
  end.
Proof.
  intros run. split.
  - subst run. unfold record_gaps_scoped. generalize s. change (aside not_attempts (record_gaps_scoped tenant_id host_name agent_id gaps)).
    unfold record_gaps_scoped, record_gap_event. aside_tac.
  - subst run. unfold record_gaps_scoped, db_transaction, transaction, mbind, op_mbind.
    pose proof (record_gap_events_run tenant_id host_name agent_id gaps s) as H.
    destruct (op_for _ _ s) as [[[]|e|] s1]; cbn; [by split|by split|done].
Qed.

(** ** Slugs *)

Definition alnum (c : ascii) : bool := in_range 97 122 c || is_ascii_digit c.

(** The [CHECK] of the tenant table: [^[a-z0-9]([a-z0-9-]{0,61}[a-z0-9])?$]. *)
Definition slug_format (s : string) : Prop :=
  exists c t, s = String c t /\ alnum c = true /\
    (t = ""%string \/
     exists m d, t = m +:+ String d "" /\ (String.length m <= 61)%nat /\
       str_all (fun x => alnum x || Ascii.eqb x "-") m = true /\ alnum d = true).

Lemma slug_chars_app n i a b : slug_chars n i (a +:+ b) = slug_chars n i a && slug_chars n (i + String.length a) b.
Proof.
  revert i. induction a as [|c a IH]; intros i; cbn; [by rewrite Nat.add_0_r|].
  rewrite IH, andb_assoc. do 2 f_equal. lia.
Qed.

(** Between the first and the last character a hyphen is as good as any. *)
Lemma slug_chars_inner n i s :
  (0 < i)%nat -> (i + String.length s < n)%nat -> slug_chars n i s = str_all (fun x => alnum x || Ascii.eqb x "-") s.
Proof.
  revert i. induction s as [|c s IH]; intros i Hi Hn; [done|]. cbn [slug_chars str_all String.length] in *.
  rewrite IH by lia. f_equal. unfold slug_char, alnum. rewrite (proj2 (Nat.ltb_lt 0 i)) by done.
  rewrite (proj2 (Nat.ltb_lt (i + 1) n)) by lia. by rewrite !andb_true_r.
Qed.

Lemma slug_char_edge n i c : i = 0%nat \/ (n <= i + 1)%nat -> slug_char n i c = alnum c.
Proof.
  intros H. unfold slug_char, alnum. destruct H as [->|H]; [by rewrite andb_false_r, andb_false_l, orb_false_r|].
  rewrite (proj2 (Nat.ltb_ge (i + 1) n)) by done. by rewrite andb_false_r, orb_false_r.
Qed.

Lemma string_last s : s <> ""%string -> exists m d, s = m +:+ String d "".
Proof.
  induction s as [|c s IH]; [done|]. intros _. destruct s as [|c' s]; [by exists ""%string, c|].
  destruct IH as (m & d & E); [done|]. exists (String c m), d. by rewrite E.
Qed.

(** The slug check of the server accepts exactly what the column's [CHECK]
    does, so the constraint never fires on a validated slug. *)
Theorem validate_slug_check slug : validate_slug slug = Ret tt <-> slug_format slug.
Proof.
  assert (Hb : validate_slug slug = Ret tt <->
    (String.length slug <= 63)%nat /\ slug <> ""%string /\ slug_chars (String.length slug) 0 slug = true).
  { unfold validate_slug. destruct (_ && _) eqn:E.
    - rewrite !andb_true_iff, negb_true_iff, Z.leb_le, String.eqb_neq in E. unfold str_len in E. split; [intros _|done].
      split; [lia|]. tauto.
    - split; [done|]. intros (H1 & H2 & H3). rewrite H3, andb_true_r in E. apply String.eqb_neq in H2. rewrite H2, andb_true_r in E.
      apply Z.leb_gt in E. unfold str_len in E. lia. }
  rewrite Hb. clear Hb. unfold slug_format. destruct slug as [|c t]; [split; [by intros (_ & ? & _)|by intros (? & ? & ? & _)]|].
  cbn [slug_chars String.length]. rewrite slug_char_edge, andb_true_iff by by left.
  destruct (decide (t = ""%string)) as [->|Ht].
  { split; [intros (_ & _ & ? & _); exists c, ""%string; naive_solver|]. intros (x & y & [= <- <-] & Hx & _). by split; [cbn; lia|]. }
  destruct (string_last t Ht) as (m & d & ->). rewrite slug_chars_app, string_app_length. cbn [String.length slug_chars].
  rewrite slug_chars_inner by lia. rewrite slug_char_edge, !andb_true_iff by (right; lia). split.
  - intros (Hl & _ & Hc & Hm & Hd & _). exists c, (m +:+ String d ""). split; [done|]. split; [done|]. right. exists m, d. split; [done|].
    split; [lia|done].
  - intros (x & y & [= <- <-] & Hx & [E|(m' & d' & E & Hl & Hm & Hd)]).
    { by destruct m. }
    apply string_app_inj_len in E as [-> [= ->]]; [split; [lia|done]|].
    apply (f_equal String.length) in E. rewrite !string_app_length in E. cbn in E. lia.
Qed.
End access.

(** ** Witnesses *)

Section witnesses.
Local Existing Instance ReferenceHash.sha.
Local Existing Instance ReferenceHash.hex.
Local Existing Instance ReferenceUuid.display.

Definition a_tenant : Tenant := mkTenant 5%N "acme" "Acme" "active" 0.
Definition with_tenant : Srv := set_rows TTenant [a_tenant] ReferenceServer.empty.
Definition issued : Srv := snd (create_enrollment_token 5%N "laptop" (Some 3600) with_tenant).
Definition a_token : string := "cptok-100".
Definition a_ca : DeploymentCa := mkDeploymentCa "ca" (fun id => Ret ("cert"%string, "key"%string)).

Lemma enrollment_single_use_witness :
  exists r s1, enroll a_ca a_token "host" "1.0" issued = (Ret r, s1) /\ er_tenant_id r = 5%N /\
    fst (enroll a_ca a_token "other" "1.0" (statements [StTake (hash_token a_token); StToken 5%N "again" None] s1)) = Fail token_refused /\
    fst (authenticate_cert (er_agent_id r) s1) = Ret (mkAgentIdentity (er_agent_id r) 5%N "host").
Proof.
  assert (E : exists r s1, enroll a_ca a_token "host" "1.0" issued = (Ret r, s1) /\ er_tenant_id r = 5%N).
  { eexists _, _. split; [vm_compute; reflexivity|reflexivity]. }
  destruct E as (r & s1 & E & Ht). exists r, s1. split; [exact E|]. split; [exact Ht|].
  assert (Hu : unique_key TToken et_token_sha256 issued) by (apply NoDup_singleton).
  assert (Ha : unique_key TAgent ag_id issued) by (apply NoDup_nil_2).
  split.
  - apply (enrollment_single_use a_ca a_token "host" "1.0" issued r s1
      [StTake (hash_token a_token); StToken 5%N "again" None] Hu Ha E).
  - rewrite <- Ht. apply (enrollment_single_use a_ca a_token "host" "1.0" issued r s1 [] Hu Ha E).
Defined.
End witnesses.
