(* ===== verification/Merlin.v ===== *)
(** * Merlin: the telemetry bridge ([corpus-core/src/merlin.rs])

    Segments of host telemetry and the observations in them.  A segment is
    delivered in batches that may be replayed; an event is stored once per
    tenant, host and event identity.  The chrono crate's range of representable
    times is the class [Chrono]. *)

From S2P Require Import Prelude Machine Text Hash Cas Schema.
From Stdlib Require Import Strings.Byte Strings.Ascii SpecFloat.

Open Scope Z_scope.

(** [chrono::DateTime::from_timestamp(secs, nsecs)] *)
Class Chrono : Type := from_timestamp : Z -> Z -> option Time.

Definition MERLIN_SCHEMA_VERSION : Z := 1.
Definition MAX_EVENTS_PER_REQUEST : Z := 50000.
Definition MAX_EVENT_BYTES : Z := Z.shiftl 256 10.
Definition MAX_HOST_BYTES : Z := 128.
Definition MAX_SEGMENT_BYTES : Z := 255.
Definition MAX_EVENT_ID_BYTES : Z := 256.

Record MerlinSegmentRequest := mkMerlinSegmentRequest {
  mq_schema_version : Z; mq_host_name : string; mq_segment : string; mq_segment_sha256 : string; mq_events : list Json }.

Record MerlinSegmentResponse := mkMerlinSegmentResponse {
  mr_schema_version : Z; mr_receipt_version : Z; mr_segment_id : Uuid; mr_segment_sha256 : string; mr_status : string;
  mr_accepted_events : Z; mr_duplicate_events : Z }.

Record EventIdentity := mkEventIdentity {
  ei_event_id : string; ei_boot_id : string; ei_source_seq : option Z; ei_kind : string; ei_process_key : option string;
  ei_artifact_sha256 : option string; ei_observed_at : option Time }.

(** ** Validation *)

Definition name_char (c : ascii) : bool :=
  is_ascii_alphanumeric c || Ascii.eqb c "." || Ascii.eqb c "_" || Ascii.eqb c "-".

Definition valid_host (value : string) : bool :=
  negb (String.eqb value "") && (str_len value <=? MAX_HOST_BYTES) && negb (String.eqb value ".") && negb (String.eqb value "..") &&
  str_all name_char value.

Definition valid_segment (value : string) : bool :=
  negb (String.eqb value "") && (str_len value <=? MAX_SEGMENT_BYTES) && str_ends_with ".jsonl.gz" value && str_all name_char value.

Definition valid_sha256 (value : string) : bool := (str_len value =? 64) && str_all is_ascii_hexdigit value.

Definition is_object (j : Json) : bool := match j with JObj _ => true | _ => false end.

Section merlin.
  Context {JT : JsonText} {CH : Chrono}.

Definition event_msg (index : Z) (what : string) : Error := BadRequest ("Merlin event " +:+ (show_Z index +:+ what)).

Fixpoint validate_events (index : Z) (events : list Json) : outcome unit :=
  match events with
  | [] => Ret tt
  | event :: events' =>
      if negb (is_object event) then Fail (event_msg index " is not a JSON object")
      else if MAX_EVENT_BYTES <? str_len (json_to_string event) then
        Fail (event_msg index (" exceeds " +:+ (show_Z MAX_EVENT_BYTES +:+ " bytes")))
      else validate_events (index + 1) events'
  end.

Definition validate_request (req : MerlinSegmentRequest) : outcome unit :=
  if negb (mq_schema_version req =? MERLIN_SCHEMA_VERSION) then
    Fail (BadRequest ("unsupported Merlin schema_version " +:+ (show_Z (mq_schema_version req) +:+ "; expected 1")))
  else if negb (valid_host (mq_host_name req)) then Fail (BadRequest "invalid Merlin host_name")
  else if negb (valid_segment (mq_segment req)) then Fail (BadRequest "invalid Merlin segment")
  else if negb (valid_sha256 (mq_segment_sha256 req)) then Fail (BadRequest "invalid Merlin segment_sha256")
  else if MAX_EVENTS_PER_REQUEST <? len (mq_events req) then
    Fail (BadRequest ("Merlin event batch exceeds " +:+ (show_Z MAX_EVENTS_PER_REQUEST +:+ " events")))
  else validate_events 0 (mq_events req).

(** ** The identity of an event *)

(** [u8::is_ascii_control] *)
Definition is_control (c : ascii) : bool := in_range 0 31 c || Ascii.eqb c "127".

Definition string_field (event : Json) (key : string) (max : Z) : option string :=
  v ← json_get_str key event;
  let value := str_trim v in
  if String.eqb value "" || (max <? str_len value) || negb (str_all (fun c => negb (is_control c)) value) then None else Some value.

(** [Value::as_i64], [Value::as_f64] *)
Definition as_i64 (j : Json) : option Z :=
  match j with JInt z => if (- 2 ^ 63 <=? z) && (z <? 2 ^ 63) then Some z else None | _ => None end.
Definition as_f64 (j : Json) : option f64 :=
  match j with JInt z => Some (f64_of_Z z) | JFloat x => Some x | _ => None end.

(** [x.trunc() as i64], for a finite [x]; the cast saturates. *)
Definition f64_trunc_i64 (x : f64) : Z :=
  match x with
  | S754_finite s m e =>
      let '(n, d) := f64_magnitude m e in
      let z := if s then - (n / d) else n / d in
      Z.max (- 2 ^ 63) (Z.min (2 ^ 63 - 1) z)
  | _ => 0
  end.

(** [x.round()]: halves away from zero; none for an infinity or a NaN. *)
Definition f64_round (x : f64) : option Z :=
  match x with
  | S754_finite s m e =>
      let '(n, d) := f64_magnitude m e in
      let z := (2 * n + d) / (2 * d) in
      Some (if s then - z else z)
  | S754_zero _ => Some 0
  | _ => None
  end.

Definition is_finite (x : f64) : bool := match x with S754_infinity _ | S754_nan => false | _ => true end.

Definition event_time (event : Json) : option Time :=
  v ← json_get "ts" event;
  ts ← as_f64 v;
  if negb (is_finite ts) then None
  else
    let seconds := f64_trunc_i64 ts in
    nanos ← f64_round (f64_mul (f64_sub ts (f64_of_Z seconds)) (f64_of_Z 1000000000));
    if (0 <=? nanos) && (nanos <? 1000000000) then from_timestamp seconds nanos else None.

Definition sha256_keys : list string := ["exe_sha256"; "script_sha256"; "file_sha256"; "sha256"]%string.

Definition event_sha256 (event : Json) : option string :=
  head (omap (fun key => value ← string_field event key 64; if valid_sha256 value then Some (str_lower value) else None) sha256_keys).

Definition event_identity (index : Z) (event : Json) : outcome EventIdentity :=
  let boot_id := default "unknown"%string (string_field event "boot_id" 128) in
  let source_seq := v ← json_get "source_seq" event; as_i64 v in
  let from_boot :=
    if negb (String.eqb boot_id "unknown") then seq ← source_seq; Some (boot_id +:+ (":" +:+ show_Z seq)) else None in
  match match string_field event "event_id" MAX_EVENT_ID_BYTES with Some id => Some id | None => from_boot end with
  | None => Fail (event_msg index " is missing event_id or boot_id/source_seq")
  | Some event_id =>
      Ret (mkEventIdentity event_id boot_id source_seq (default "unknown"%string (string_field event "kind" 64))
        (string_field event "process_key" 256) (event_sha256 event) (event_time event))
  end.

(** ** Storing a segment *)

Definition segment_key (r : MerlinSegment) : Uuid * string * string := (ms_tenant r, ms_host_name r, ms_segment r).
Definition observation_key (r : MerlinObservation) : Uuid * string * string := (mo_tenant r, mo_host_name r, mo_event_id r).

Definition already_stored (host segment : string) : Error :=
  Conflict ("Merlin segment " +:+ (host +:+ ("/" +:+ (segment +:+ " was already stored with a different digest")))).

Definition find_segment (tenant : Uuid) (host segment : string) : Op Srv (option MerlinSegment) :=
  select_optional TSegment (fun r => bool_decide (segment_key r = (tenant, host, segment))).

(** The segment's identifier: the stored one's, or that of a new row. *)
Definition segment_for (tenant : Uuid) (t : Time) (req : MerlinSegmentRequest) (segment_sha256 : string) : Op Srv Uuid :=
  existing ← find_segment tenant (mq_host_name req) (mq_segment req);
  match existing with
  | Some r => if negb (String.eqb (ms_segment_sha256 r) segment_sha256) then throw (already_stored (mq_host_name req) (mq_segment req)) else mret (ms_id r)
  | None =>
      id ← new_v4;
      insert_unique TSegment segment_key
        (mkMerlinSegment id tenant (mq_host_name req) (mq_segment req) segment_sha256 (mq_schema_version req) t 0) ;;
      mret id
  end.

Definition observation (id tenant segment_id : Uuid) (t : Time) (req : MerlinSegmentRequest) (event : Json) (i : EventIdentity) : MerlinObservation :=
  mkMerlinObservation id tenant segment_id (mq_host_name req) (mq_segment req) (ei_event_id i) (ei_boot_id i) (ei_source_seq i) (ei_kind i)
    (ei_process_key i) (ei_artifact_sha256 i) (ei_observed_at i) t event.

(** One event; the rows affected. *)
Definition store_event (tenant segment_id : Uuid) (t : Time) (req : MerlinSegmentRequest) (accepted : Z) (indexed : Z * Json) : Op Srv Z :=
  let '(index, event) := indexed in
  i ← lift_outcome (event_identity index event);
  id ← new_v4;
  inserted ← insert_on_conflict TObservation observation_key (observation id tenant segment_id t req event i);
  mret (accepted + (if (inserted : bool) then 1 else 0)).

Definition indexed (events : list Json) : list (Z * Json) := map (fun ie => (Z.of_nat (fst ie), snd ie)) (enumerate events).

(** [event_count = (SELECT COUNT( * ) ... WHERE segment_id = $1)] *)
Definition recount (segment_id : Uuid) : Op Srv unit :=
  n ← select_count TObservation (fun r => bool_decide (mo_segment_id r = segment_id));
  _ ← update_rows TSegment (fun r => bool_decide (ms_id r = segment_id)) (fun r =>
    mkMerlinSegment (ms_id r) (ms_tenant r) (ms_host_name r) (ms_segment r) (ms_segment_sha256 r) (ms_schema_version r) (ms_received_at r) n);
  mret tt.

(** [NOW()] is the time the transaction began. *)
Definition ingest_segment (tenant : Uuid) (req : MerlinSegmentRequest) : Op Srv MerlinSegmentResponse :=
  lift_outcome (validate_request req) ;;
  let segment_sha256 := str_lower (mq_segment_sha256 req) in
  stored ← db_transaction (
    t ← now;
    segment_id ← segment_for tenant t req segment_sha256;
    accepted ← op_fold (indexed (mq_events req)) 0 (store_event tenant segment_id t req);
    recount segment_id ;;
    mret (segment_id, accepted));
  let '(segment_id, accepted) := stored in
  mret (mkMerlinSegmentResponse MERLIN_SCHEMA_VERSION 1 segment_id segment_sha256
    (if accepted =? 0 then "duplicate" else "accepted") accepted (len (mq_events req) - accepted)).

(** [ORDER BY observed_at DESC NULLS LAST, received_at DESC] *)
Definition observation_le (a b : MerlinObservation) : bool :=
  match mo_observed_at a, mo_observed_at b with
  | Some x, Some y => (y <? x) || ((x =? y) && (mo_received_at b <=? mo_received_at a))
  | Some _, None => true
  | None, Some _ => false
  | None, None => mo_received_at b <=? mo_received_at a
  end.

Definition list_observations (tenant : Uuid) (host_name : option string) (limit : Z) : Op Srv (list MerlinObservation) :=
  let limit := Z.max 1 (Z.min limit 1000) in
  rows ← select TObservation (fun r => bool_decide (mo_tenant r = tenant) &&
    match host_name with Some h => String.eqb (mo_host_name r) h | None => true end);
  mret (take (Z.to_nat limit) (sort_by observation_le rows)).

(** ** The observations as a map

    What is kept of an event, by tenant, host and event identity: the segment it
    came in, what was read of it and its text.  Storing is first come, first
    kept. *)
Definition Key : Type := Uuid * string * string.
Definition Kept : Type := string * EventIdentity * Json.

Definition identity_of_row (r : MerlinObservation) : EventIdentity :=
  mkEventIdentity (mo_event_id r) (mo_boot_id r) (mo_source_seq r) (mo_kind r) (mo_process_key r) (mo_artifact_sha256 r) (mo_observed_at r).

Definition kept (r : MerlinObservation) : Kept := (mo_segment r, identity_of_row r, mo_payload r).

Definition telemetry (s : Srv) : gmap Key Kept :=
  list_to_map (map (fun r => (observation_key r, kept r)) (rows TObservation s)).

Definition keep_first (tenant : Uuid) (req : MerlinSegmentRequest) (m : gmap Key Kept) (ie : EventIdentity * Json) : gmap Key Kept :=
  let k := (tenant, mq_host_name req, ei_event_id (fst ie)) in
  match m !! k with
  | Some _ => m
  | None => <[k := (mq_segment req, fst ie, snd ie)]> m
  end.

Lemma keep_first_old tenant req m i event v : m !! (tenant, mq_host_name req, ei_event_id i) = Some v -> keep_first tenant req m (i, event) = m.
Proof. intros H. unfold keep_first. cbn [fst]. by rewrite H. Qed.

Lemma keep_first_new tenant req m i event : m !! (tenant, mq_host_name req, ei_event_id i) = None ->
  keep_first tenant req m (i, event) = <[(tenant, mq_host_name req, ei_event_id i) := (mq_segment req, i, event)]> m.
Proof. intros H. unfold keep_first. cbn [fst]. by rewrite H. Qed.

Lemma telemetry_keys s : map fst (map (fun r => (observation_key r, kept r)) (rows TObservation s)) = map observation_key (rows TObservation s).
Proof. by rewrite map_map. Qed.

Lemma telemetry_none s k : telemetry s !! k = None <-> k ∉ map observation_key (rows TObservation s).
Proof. unfold telemetry. rewrite <- not_elem_of_list_to_map. by rewrite <- telemetry_keys. Qed.

Lemma telemetry_some s k : is_Some (telemetry s !! k) <-> k ∈ map observation_key (rows TObservation s).
Proof.
  rewrite <- not_eq_None_Some, telemetry_none. destruct (decide (k ∈ map observation_key (rows TObservation s))); tauto.
Qed.

Lemma telemetry_rows s s' : rows TObservation s' = rows TObservation s -> telemetry s' = telemetry s.
Proof. unfold telemetry. by intros ->. Qed.

Lemma telemetry_snoc s s' r :
  observation_key r ∉ map observation_key (rows TObservation s) -> rows TObservation s' = rows TObservation s ++ [r] ->
  telemetry s' = <[observation_key r := kept r]> (telemetry s).
Proof.
  intros Hn E. unfold telemetry. rewrite E, map_app. cbn [map]. apply list_to_map_snoc. by rewrite <- telemetry_keys in Hn.
Qed.

(** *** One event *)

Lemma store_event_run tenant segment_id t req accepted index event s :
  match store_event tenant segment_id t req accepted (index, event) s with
  | (Ret n, s') => exists i, event_identity index event = Ret i /\
      telemetry s' = keep_first tenant req (telemetry s) (i, event) /\
      n = accepted + (Z.of_nat (size (telemetry s')) - Z.of_nat (size (telemetry s)))
  | (Fail e, _) => event_identity index event = Fail e
  | (Panic, _) => False
  end.
Proof.
  unfold store_event. destruct (event_identity index event) as [i|e|] eqn:Ei; [|done|].
  2: { unfold event_identity in Ei. by repeat case_match. }
  erewrite bind_run; [|reflexivity]. erewrite bind_run; [|reflexivity].
  set (s1 := snd (new_v4 s)). set (r := observation _ _ _ _ _ _ _).
  assert (E1 : telemetry s1 = telemetry s) by reflexivity.
  assert (Ek : observation_key r = (tenant, mq_host_name req, ei_event_id i)) by reflexivity.
  destruct (decide (observation_key r ∈ map observation_key (rows TObservation s1))) as [Hin|Hn].
  - rewrite (bind_run _ _ _ _ _ (insert_on_conflict_old _ _ _ _ Hin)). exists i. split; [done|].
    pose proof (proj2 (telemetry_some _ _) Hin) as [v Hv]. split; [|rewrite E1; lia].
    rewrite E1 in Hv |- *. symmetry. by apply (keep_first_old _ _ _ _ _ v).
  - rewrite (bind_run _ _ _ _ _ (insert_on_conflict_new _ _ _ _ Hn)). exists i. split; [done|].
    pose proof (proj2 (telemetry_none _ _) Hn) as Hv.
    match goal with |- telemetry ?s2 = _ /\ _ => assert (E : telemetry s2 = <[observation_key r := kept r]> (telemetry s1))
      by (apply telemetry_snoc; [exact Hn|apply rows_set_rows_eq]) end.
    rewrite E, map_size_insert_None by exact Hv. rewrite E1. split; [|lia].
    rewrite E1 in Hv. rewrite (keep_first_new _ _ _ _ _ Hv). change (observation_key r) with (tenant, mq_host_name req, ei_event_id i).
    f_equal. subst r. by destruct i.
Qed.

Lemma store_events_run tenant segment_id t req l accepted s :
  match op_fold l accepted (store_event tenant segment_id t req) s with
  | (Ret n, s') => exists ids, Forall2 (fun ie i => event_identity (fst ie) (snd ie) = Ret i) l ids /\
      telemetry s' = foldl (keep_first tenant req) (telemetry s) (zip ids (map snd l)) /\
      n = accepted + (Z.of_nat (size (telemetry s')) - Z.of_nat (size (telemetry s)))
  | (Fail e, _) => exists index event, In (index, event) l /\ event_identity index event = Fail e
  | (Panic, _) => False
  end.
Proof.
  revert accepted s. induction l as [|[index event] l IH]; intros accepted s; cbn [op_fold].
  { exists []. cbn. split; [constructor|]. split; [done|lia]. }
  pose proof (store_event_run tenant segment_id t req accepted index event s) as H. unfold mbind, op_mbind.
  destruct (store_event _ _ _ _ _ _ s) as [[n|e|] s1]; [|by exists index, event; split; [left|]|done].
  destruct H as (i & Ei & Et & En). specialize (IH n s1).
  destruct (op_fold l n _ s1) as [[n'|e|] s2]; [|destruct IH as (x & y & ? & ?); exists x, y; split; [by right|done]|done].
  destruct IH as (ids & Hids & Et' & En'). exists (i :: ids). split; [by constructor|]. split; [|lia].
  cbn [map zip zip_with foldl snd]. by rewrite Et', Et.
Qed.

(** *** The segment *)

Definition digest_of (req : MerlinSegmentRequest) : string := str_lower (mq_segment_sha256 req).

Definition has_segment (tenant : Uuid) (req : MerlinSegmentRequest) (id : Uuid) : Srv -> Prop :=
  has_row TSegment (fun r => segment_key r = (tenant, mq_host_name req, mq_segment req) /\
    ms_segment_sha256 r = digest_of req /\ ms_id r = id).

Lemma segment_for_run tenant t req s :
  match segment_for tenant t req (digest_of req) s with
  | (Ret id, s') => has_segment tenant req id s'
  | (Fail e, s') =>
      (e = already_stored (mq_host_name req) (mq_segment req) /\
       has_row TSegment (fun r => segment_key r = (tenant, mq_host_name req, mq_segment req) /\ ms_segment_sha256 r <> digest_of req) s)
  | (Panic, _) => False
  end.
Proof.
  unfold segment_for, find_segment. erewrite bind_run; [|reflexivity]. destruct (head _) as [r|] eqn:Eh.
  - apply head_filter_in in Eh as [Hr Hk]. apply bool_decide_eq_true in Hk.
    destruct (String.eqb_spec (ms_segment_sha256 r) (digest_of req)) as [Hd|Hd]; cbn [negb].
    + cbn. exists r. naive_solver.
    + cbn. split; [done|]. exists r. naive_solver.
  - erewrite bind_run; [|reflexivity]. unfold insert_unique. set (row := mkMerlinSegment _ _ _ _ _ _ _ _).
    set (s1 := snd (new_v4 s)). assert (Hn : segment_key row ∉ map segment_key (rows TSegment s1)).
    { intros Hin%list_elem_of_In%in_map_iff. destruct Hin as (x & Ex & Hx).
      pose proof (head_filter_none _ _ Eh x Hx) as Hf. cbn beta in Hf. apply bool_decide_eq_false in Hf. done. }
    rewrite bind_assoc_run, (bind_run _ _ _ _ _ (insert_on_conflict_new _ _ _ _ Hn)). cbn.
    exists row. rewrite rows_set_rows_eq. split; [apply in_app_iff; right; by left|done].
Qed.

(** *** A request *)

(** The observations of a segment, and its row with their number. *)
Definition observations_of (id : Uuid) (s : Srv) : Z := len (List.filter (fun o => bool_decide (mo_segment_id o = id)) (rows TObservation s)).
Definition recounted (id : Uuid) (n : Z) (r : MerlinSegment) : MerlinSegment :=
  if bool_decide (ms_id r = id) then
    mkMerlinSegment (ms_id r) (ms_tenant r) (ms_host_name r) (ms_segment r) (ms_segment_sha256 r) (ms_schema_version r) (ms_received_at r) n
  else r.

Lemma recount_run id s : exists s', recount id s = (Ret tt, s') /\ rows TObservation s' = rows TObservation s /\
  rows TSegment s' = map (recounted id (observations_of id s)) (rows TSegment s).
Proof.
  unfold recount. erewrite bind_run; [|reflexivity]. erewrite bind_run; [|reflexivity]. eexists. split; [reflexivity|].
  split; [by apply rows_set_rows_ne|apply rows_set_rows_eq].
Qed.

Lemma segment_for_frames tenant t req d : frames (rows TObservation) (segment_for tenant t req d).
Proof. unfold segment_for, find_segment. frames_tac. Qed.

Lemma store_events_frames tenant id t req l n : frames (rows TSegment) (op_fold l n (store_event tenant id t req)).
Proof. unfold store_event. frames_tac. Qed.

(** The transaction of [ingest_segment]. *)
Definition ingest_body (tenant : Uuid) (req : MerlinSegmentRequest) : Op Srv (Uuid * Z) :=
  t ← now;
  segment_id ← segment_for tenant t req (digest_of req);
  accepted ← op_fold (indexed (mq_events req)) 0 (store_event tenant segment_id t req);
  recount segment_id ;;
  mret (segment_id, accepted).

Lemma ingest_segment_body tenant req :
  ingest_segment tenant req = (lift_outcome (validate_request req) ;;
    stored ← db_transaction (ingest_body tenant req);
    let '(segment_id, accepted) := stored in
    mret (mkMerlinSegmentResponse MERLIN_SCHEMA_VERSION 1 segment_id (digest_of req)
      (if accepted =? 0 then "duplicate" else "accepted") accepted (len (mq_events req) - accepted))).
Proof. reflexivity. Qed.

Lemma map_snd_indexed events : map snd (indexed events) = events.
Proof.
  unfold indexed, enumerate. rewrite map_map. cbn [snd]. generalize 0%nat. induction events as [|e l IH]; intros n; [done|].
  cbn [length seq zip zip_with map snd]. f_equal. apply (IH (S n)).
Qed.

Lemma ingest_body_run tenant req s :
  match ingest_body tenant req s with
  | (Ret (id, n), s') => has_segment tenant req id s' /\ exists ids,
      Forall2 (fun ie i => event_identity (fst ie) (snd ie) = Ret i) (indexed (mq_events req)) ids /\
      telemetry s' = foldl (keep_first tenant req) (telemetry s) (zip ids (mq_events req)) /\
      n = Z.of_nat (size (telemetry s')) - Z.of_nat (size (telemetry s))
  | (Fail e, _) =>
      (e = already_stored (mq_host_name req) (mq_segment req) /\
       has_row TSegment (fun r => segment_key r = (tenant, mq_host_name req, mq_segment req) /\ ms_segment_sha256 r <> digest_of req) s) \/
      exists index event, In (index, event) (indexed (mq_events req)) /\ event_identity index event = Fail e
  | (Panic, _) => False
  end.
Proof.
  unfold ingest_body. set (t := srv_clock s (srv_clock_next s)). set (s0 := snd (now s)). rewrite (bind_run now _ s t s0 eq_refl).
  pose proof (segment_for_run tenant t req s0) as Hs. pose proof (segment_for_frames tenant t req (digest_of req) s0) as Fs.
  unfold mbind at 1, op_mbind. destruct (segment_for _ _ _ _ s0) as [[id|e|] s1]; [|exact (or_introl Hs)|exact Hs].
  pose proof (store_events_run tenant id t req (indexed (mq_events req)) 0 s1) as He.
  pose proof (store_events_frames tenant id t req (indexed (mq_events req)) 0 s1) as Fe.
  unfold mbind at 1, op_mbind. destruct (op_fold _ 0 _ s1) as [[n|e|] s2]; [|exact (or_intror He)|exact He].
  destruct He as (ids & Hids & Et & En). cbn [snd] in Fs, Fe.
  destruct (recount_run id s2) as (s3 & E3 & Eo & Esg). rewrite (bind_run _ _ _ _ _ E3). cbn.
  assert (T1 : telemetry s1 = telemetry s) by (apply telemetry_rows; exact Fs).
  assert (T3 : telemetry s3 = telemetry s2) by (apply telemetry_rows; exact Eo).
  split.
  - destruct Hs as (r & Hr & Hk & Hd & Hi). unfold has_segment, has_row. rewrite Esg, Fe.
    eexists. split; [apply in_map_iff; exists r; split; [reflexivity|exact Hr]|]. unfold recounted. case_bool_decide; done.
  - exists ids. split; [done|]. rewrite T3. rewrite map_snd_indexed in Et. split; [by rewrite Et, T1|]. rewrite <- T1. lia.
Qed.

Lemma keep_first_size tenant req m ie :
  (size m <= size (keep_first tenant req m ie) <= S (size m))%nat.
Proof. unfold keep_first. case_match eqn:E; [lia|]. rewrite map_size_insert_None by done. lia. Qed.

Lemma keep_firsts_size tenant req l m :
  (size m <= size (foldl (keep_first tenant req) m l) <= size m + length l)%nat.
Proof.
  revert m. induction l as [|ie l IH]; intros m; cbn [foldl length]; [lia|].
  pose proof (keep_first_size tenant req m ie). specialize (IH (keep_first tenant req m ie)). lia.
Qed.

Lemma validate_request_total req : validate_request req <> Panic.
Proof.
  assert (H : forall l z, validate_events z l <> Panic) by (induction l; intros z; cbn [validate_events]; repeat case_match; done).
  unfold validate_request. repeat (case_match; [done|]). apply H.
Qed.

Definition other_tables (t : table) : bool := negb (bool_decide (t = TSegment)) && negb (bool_decide (t = TObservation)).

Lemma ingest_segment_aside tenant req : aside other_tables (ingest_segment tenant req).
Proof. unfold ingest_segment, segment_for, find_segment, store_event, recount. aside_tac. Qed.

(** C20. Ingesting a segment, on every branch.  When it returns, every event had
    an identity, and the observations are those of before with each event kept in
    order if no observation of that tenant, host and identity was there; the
    answer counts the kept and the repeated ones, which together are the batch,
    and is "duplicate" exactly when nothing was new; the segment is stored with
    the digest announced.  When it fails the database is as before and the cause
    is the validation, a segment stored with a different digest, or an event
    without an identity.  In every case artifacts, occurrences and every other
    table and the object store are untouched. *)
Theorem ingest_segment_spec tenant req s :
  let run := ingest_segment tenant req s in
  agree other_tables s (snd run) /\
  match fst run with
  | Ret r => exists ids,
      Forall2 (fun ie i => event_identity (fst ie) (snd ie) = Ret i) (indexed (mq_events req)) ids /\
      telemetry (snd run) = foldl (keep_first tenant req) (telemetry s) (zip ids (mq_events req)) /\
      mr_accepted_events r = Z.of_nat (size (telemetry (snd run))) - Z.of_nat (size (telemetry s)) /\
      0 <= mr_accepted_events r /\ 0 <= mr_duplicate_events r /\ mr_accepted_events r + mr_duplicate_events r = len (mq_events req) /\
      mr_status r = (if (mr_accepted_events r =? 0)%Z then "duplicate" else "accepted")%string /\
      has_segment tenant req (mr_segment_id r) (snd run)
  | Fail e => (forall t, rows t (snd run) = rows t s) /\
      (validate_request req = Fail e \/
       (e = already_stored (mq_host_name req) (mq_segment req) /\
        has_row TSegment (fun r => segment_key r = (tenant, mq_host_name req, mq_segment req) /\ ms_segment_sha256 r <> digest_of req) s) \/
       exists index event, In (index, event) (indexed (mq_events req)) /\ event_identity index event = Fail e)
  | Panic => False
  end.
Proof.
  intros run. split; [apply ingest_segment_aside|]. subst run. rewrite ingest_segment_body.
  unfold mbind, op_mbind, lift_outcome, db_transaction, transaction. pose proof (ingest_body_run tenant req s) as H.
  destruct (validate_request req) as [[]|e|] eqn:Ev; [|split; [done|by left]|].
  2: { by destruct (validate_request_total req). }
  destruct (ingest_body tenant req s) as [[[id n]|e|] s1]; [|cbn; by split; [|by right]|done].
  destruct H as (Hseg & ids & Hids & Et & En). cbn [fst snd mret op_mret mr_accepted_events mr_duplicate_events mr_status mr_segment_id].
  exists ids. do 3 (split; [done|]).
  pose proof (keep_firsts_size tenant req (zip ids (mq_events req)) (telemetry s)) as Hz. rewrite <- Et in Hz.
  rewrite length_zip in Hz. unfold len. split; [lia|]. split; [lia|]. split; [lia|]. by split.
Qed.

(** ** Replays *)

(** Requests, one after the other, whatever each answers. *)
Definition serve_segments (l : list (Uuid * MerlinSegmentRequest)) (s : Srv) : Srv :=
  foldl (fun s q => snd (ingest_segment (fst q) (snd q) s)) s l.

Lemma serve_segments_keep (I : Srv -> Prop) :
  (forall tenant req, keeps I (ingest_segment tenant req)) -> forall l s, I s -> I (serve_segments l s).
Proof. intros Hk l. induction l as [|[tenant req] l IH]; intros s Hs; [done|]. apply IH. by apply Hk. Qed.

(** An invariant of the two tables that each statement keeps is kept by the request. *)
Lemma ingest_segment_keeps (I : Srv -> Prop) tenant req :
  (forall old new, I old -> I new -> I (set_db (srv_db old) new)) ->
  keeps I (ingest_body tenant req) -> keeps I (ingest_segment tenant req).
Proof.
  intros Hu Hb. rewrite ingest_segment_body. apply keeps_bind; [apply keeps_lift|intros _]. apply keeps_bind; [by apply keeps_db_transaction|].
  intros [id n]. apply keeps_mret.
Qed.

Lemma store_event_appends tenant id t req n ie : appends TObservation (store_event tenant id t req n ie).
Proof. destruct ie as [index event]. unfold store_event. appends_tac. Qed.

Lemma ingest_body_appends tenant req : appends TObservation (ingest_body tenant req).
Proof.
  unfold ingest_body. apply appends_bind; [by apply appends_frame; intros ?|intros t].
  apply appends_bind; [apply appends_frame, segment_for_frames|intros id].
  apply appends_bind; [apply appends_fold; intros; apply store_event_appends|intros n].
  apply appends_frame. unfold recount. frames_tac.
Qed.

(** An observation, once stored, stays. *)
Lemma ingest_segment_keeps_observation tenant req P : keeps (has_row TObservation P) (ingest_segment tenant req).
Proof.
  apply ingest_segment_keeps; [done|]. apply keeps_has_row_appends, ingest_body_appends.
Qed.

Section segments.
  Context (P : MerlinSegment -> Prop)
    (Hcount : forall r n, P r -> P (mkMerlinSegment (ms_id r) (ms_tenant r) (ms_host_name r) (ms_segment r) (ms_segment_sha256 r)
       (ms_schema_version r) (ms_received_at r) n)).

(** So does a segment, its count apart. *)
Lemma ingest_segment_keeps_segment tenant req : keeps (has_row TSegment P) (ingest_segment tenant req).
Proof.
  apply ingest_segment_keeps; [done|]. unfold ingest_body. apply keeps_bind; [by apply keeps_has_row_frame; intros ?|intros t].
  apply keeps_bind; [|intros id; apply keeps_bind; [apply keeps_has_row_frame, store_events_frames|intros n]].
  - unfold segment_for. apply keeps_has_row_appends. unfold find_segment. appends_tac.
  - apply keeps_bind; [|intros _; apply keeps_mret]. unfold recount. apply keeps_bind; [apply keeps_gets|intros c].
    apply keeps_bind; [|intros _; apply keeps_mret]. apply keeps_has_row_update. auto.
Qed.
End segments.

Lemma ingest_body_unique tenant req : keeps (unique_key TSegment segment_key) (ingest_body tenant req).
Proof.
  unfold ingest_body. apply keeps_bind; [by apply keeps_unique_frame; intros ?|intros t].
  apply keeps_bind; [|intros id; apply keeps_bind; [apply keeps_unique_frame, store_events_frames|intros n]].
  - unfold segment_for, find_segment. apply keeps_bind; [apply keeps_gets|intros row]. destruct row; [keeps_tac|].
    apply keeps_bind; [by apply keeps_unique_frame; intros ?|intros id]. apply keeps_bind; [apply keeps_unique_insert_unique|intros _; apply keeps_mret].
  - apply keeps_bind; [|intros _; apply keeps_mret]. unfold recount. apply keeps_bind; [apply keeps_gets|intros c].
    apply keeps_bind; [|intros _; apply keeps_mret]. by apply keeps_unique_update.
Qed.

Lemma ingest_segment_unique tenant req : keeps (unique_key TSegment segment_key) (ingest_segment tenant req).
Proof. apply ingest_segment_keeps; [done|]. apply ingest_body_unique. Qed.

Lemma ingest_body_unique_obs tenant req : keeps (unique_key TObservation observation_key) (ingest_body tenant req).
Proof.
  unfold ingest_body. apply keeps_bind; [by apply keeps_unique_frame; intros ?|intros t].
  apply keeps_bind; [apply keeps_unique_frame, segment_for_frames|intros id].
  apply keeps_bind; [|intros n; apply keeps_unique_frame; unfold recount; frames_tac].
  apply keeps_fold. intros n [index event] _. unfold store_event. apply keeps_bind; [apply keeps_lift|intros i].
  apply keeps_bind; [by apply keeps_unique_frame; intros ?|intros u]. apply keeps_bind; [apply keeps_unique_insert_on_conflict|intros b; apply keeps_mret].
Qed.

(** Every event of the batch is stored. *)
Definition stored_batch (tenant : Uuid) (req : MerlinSegmentRequest) (l : list (Z * Json)) (s : Srv) : Prop :=
  Forall (fun ie => exists i, event_identity (fst ie) (snd ie) = Ret i /\
    has_row TObservation (fun r => observation_key r = (tenant, mq_host_name req, ei_event_id i)) s) l.

Lemma stored_batch_keeps tenant req l q tn : keeps (stored_batch tenant req l) (ingest_segment tn q).
Proof.
  intros s Hs. unfold stored_batch in *. eapply Forall_impl; [exact Hs|]. intros ie (i & Ei & Hr). exists i. split; [done|].
  by apply ingest_segment_keeps_observation.
Qed.

Lemma keep_first_in tenant req m l ie k :
  In ie l -> k = (tenant, mq_host_name req, ei_event_id (fst ie)) -> is_Some (foldl (keep_first tenant req) m l !! k).
Proof.
  assert (Hmono : forall l m, is_Some (m !! k) -> is_Some (foldl (keep_first tenant req) m l !! k)).
  { clear m l. induction l as [|x l IH]; intros m Hm; [done|]. cbn [foldl]. apply IH. unfold keep_first. case_match eqn:E; [done|].
    destruct (decide (k = (tenant, mq_host_name req, ei_event_id (fst x)))) as [->|Hne]; [by rewrite lookup_insert_eq|].
    by rewrite lookup_insert_ne. }
  revert m. induction l as [|x l IH]; intros m Hin Hk; [done|]. cbn [foldl]. destruct Hin as [->|Hin]; [|by apply IH].
  apply Hmono. unfold keep_first. rewrite <- Hk. destruct (m !! k) eqn:E; [by rewrite E|]. by rewrite lookup_insert_eq.
Qed.

Lemma telemetry_row s k : is_Some (telemetry s !! k) -> has_row TObservation (fun r => observation_key r = k) s.
Proof. intros Hin%telemetry_some%list_elem_of_In%in_map_iff. destruct Hin as (r & E & Hr). by exists r. Qed.

Lemma ingest_stores tenant req r s s1 :
  ingest_segment tenant req s = (Ret r, s1) ->
  stored_batch tenant req (indexed (mq_events req)) s1 /\ has_segment tenant req (mr_segment_id r) s1 /\ validate_request req = Ret tt.
Proof.
  intros E. pose proof (ingest_body_run tenant req s) as H. rewrite ingest_segment_body in E.
  apply bind_ret in E as ([] & s0 & [= Ev <-] & E). apply bind_ret in E as ([id n] & s2 & Eb & [= <- <-]). cbn [mr_segment_id].
  unfold db_transaction, transaction in Eb. destruct (ingest_body tenant req s) as [[[id' n']|e|] s3]; [|done..]. injection Eb as -> -> ->.
  destruct H as (Hseg & ids & Hids & Et & _). split; [|done]. unfold stored_batch. apply List.Forall_forall. intros [index event] Hin.
  assert (Hl : exists i, event_identity index event = Ret i /\ In (i, event) (zip ids (mq_events req))).
  { rewrite <- (map_snd_indexed (mq_events req)). clear -Hids Hin. induction Hids as [|ie i l ids Hi _ IH]; [done|].
    cbn [map zip zip_with]. destruct Hin as [->|Hin]; [exists i; split; [done|by left]|].
    destruct (IH Hin) as (j & ? & ?). exists j. split; [done|by right]. }
  destruct Hl as (i & Ei & Hz). exists i. split; [done|]. apply telemetry_row. rewrite Et. by eapply keep_first_in.
Qed.

(** An event that is stored changes nothing but the supply of identifiers. *)
Lemma store_event_again tenant id t req n index event i s :
  event_identity index event = Ret i -> has_row TObservation (fun r => observation_key r = (tenant, mq_host_name req, ei_event_id i)) s ->
  store_event tenant id t req n (index, event) s = (Ret n, snd (new_v4 s)).
Proof.
  intros Ei (r & Hr & Ek). unfold store_event. rewrite Ei. erewrite bind_run; [|reflexivity]. erewrite bind_run; [|reflexivity].
  set (s1 := snd (new_v4 s)). set (row := observation _ _ _ _ _ _ _).
  assert (Hin : observation_key row ∈ map observation_key (rows TObservation s1)).
  { apply list_elem_of_In, in_map_iff. by exists r. }
  rewrite (bind_run _ _ _ _ _ (insert_on_conflict_old _ _ _ _ Hin)). by rewrite Z.add_0_r.
Qed.

Lemma store_events_again tenant id t req l n s :
  stored_batch tenant req l s -> exists s', op_fold l n (store_event tenant id t req) s = (Ret n, s') /\ srv_db s' = srv_db s.
Proof.
  revert n s. induction l as [|[index event] l IH]; intros n s Hst; [by exists s|]. inversion Hst as [|? ? (i & Ei & Hr) Hl]; subst.
  cbn [op_fold]. rewrite (bind_run _ _ _ _ _ (store_event_again _ _ _ _ _ _ _ _ _ Ei Hr)).
  destruct (IH n (snd (new_v4 s)) Hl) as (s' & E & Ed). by exists s'.
Qed.

(** Replays are safe: after a segment was ingested, and whatever segments
    were ingested since, by anyone, ingesting it again answers "duplicate" with
    no event accepted, under the same segment identifier, and leaves every
    observation, row for row, as it was. *)
Theorem ingest_segment_replay tenant req r s s1 later :
  unique_key TSegment segment_key s -> ingest_segment tenant req s = (Ret r, s1) ->
  exists s3, ingest_segment tenant req (serve_segments later s1) =
      (Ret (mkMerlinSegmentResponse MERLIN_SCHEMA_VERSION 1 (mr_segment_id r) (digest_of req) "duplicate" 0 (len (mq_events req))), s3) /\
    rows TObservation s3 = rows TObservation (serve_segments later s1) /\
    map segment_key (rows TSegment s3) = map segment_key (rows TSegment (serve_segments later s1)).
Proof.
  intros Hu E. assert (Hu1 : unique_key TSegment segment_key s1) by (pose proof (ingest_segment_unique tenant req s Hu) as Hk; by rewrite E in Hk).
  destruct (ingest_stores _ _ _ _ _ E) as (Hb & Hseg & Hv). clear E.
  set (s2 := serve_segments later s1).
  assert (Hu2 : unique_key TSegment segment_key s2) by (by apply serve_segments_keep; [intros; apply ingest_segment_unique|]).
  assert (Hb2 : stored_batch tenant req (indexed (mq_events req)) s2) by (by apply serve_segments_keep; [intros; apply stored_batch_keeps|]).
  assert (Hs2 : has_segment tenant req (mr_segment_id r) s2).
  { apply serve_segments_keep; [intros; by apply ingest_segment_keeps_segment|done]. }
  destruct Hs2 as (row & Hrow & Hk & Hd & Hi). set (t := srv_clock s2 (srv_clock_next s2)). set (s0 := snd (now s2)).
  assert (Hfind : segment_for tenant t req (digest_of req) s0 = (Ret (mr_segment_id r), s0)).
  { unfold segment_for, find_segment. erewrite bind_run; [|reflexivity]. destruct (head _) as [x|] eqn:Eh.
    - apply head_filter_in in Eh as [Hx Ex]. apply bool_decide_eq_true in Ex.
      assert (x = row) as -> by (eapply (nodup_map_inj segment_key); [exact Hu2|exact Hx|done|congruence]).
      rewrite Hd, String.eqb_refl. cbn. by rewrite Hi.
    - pose proof (head_filter_none _ _ Eh row Hrow) as Hf. cbn beta in Hf. by apply bool_decide_eq_false in Hf. }
  destruct (store_events_again tenant (mr_segment_id r) t req (indexed (mq_events req)) 0 s0 Hb2) as (s3 & E3 & D3).
  destruct (recount_run (mr_segment_id r) s3) as (s4 & E4 & O4 & S4).
  assert (Eb : ingest_body tenant req s2 = (Ret (mr_segment_id r, 0), s4)).
  { unfold ingest_body. rewrite (bind_run now _ s2 t s0 eq_refl), (bind_run _ _ _ _ _ Hfind), (bind_run _ _ _ _ _ E3).
    by rewrite (bind_run _ _ _ _ _ E4). }
  exists s4. split; [|split].
  - rewrite ingest_segment_body. unfold mbind, op_mbind, lift_outcome, db_transaction, transaction. rewrite Hv, Eb. cbn. by rewrite Z.sub_0_r.
  - rewrite O4. unfold rows. by rewrite D3.
  - rewrite S4, map_map. assert (Er : rows TSegment s3 = rows TSegment s2) by (unfold rows; by rewrite D3).
    rewrite Er. apply map_ext. intros x. unfold recounted. by case_bool_decide.
Qed.

(** ** What the tables hold *)

Definition lower_sha256 (h : string) : Prop := valid_sha256 h = true /\ str_lower h = h.

Definition segment_ok (s : Srv) (r : MerlinSegment) : Prop :=
  ms_schema_version r = MERLIN_SCHEMA_VERSION /\ lower_sha256 (ms_segment_sha256 r) /\ ms_event_count r = observations_of (ms_id r) s.

(** An observation's columns are what is read of its text, and it is in a
    stored segment of its tenant and host. *)
Definition observation_ok (s : Srv) (o : MerlinObservation) : Prop :=
  (exists index, event_identity index (mo_payload o) = Ret (identity_of_row o)) /\
  (forall h, mo_artifact_sha256 o = Some h -> lower_sha256 h) /\
  has_row TSegment (fun r => ms_id r = mo_segment_id o /\ segment_key r = (mo_tenant o, mo_host_name o, mo_segment o)) s.

Definition merlin_wf (s : Srv) : Prop :=
  unique_key TSegment segment_key s /\ unique_key TObservation observation_key s /\
  all_rows TSegment (segment_ok s) s /\ all_rows TObservation (observation_ok s) s.

Lemma lower_sha256_lower h : valid_sha256 h = true -> lower_sha256 (str_lower h).
Proof.
  intros Hv. split; [|apply str_lower_idem]. unfold valid_sha256, str_len in *. apply andb_true_iff in Hv as [Hl Ha].
  unfold str_lower. rewrite str_map_length. rewrite Hl. cbn [andb]. clear Hl. induction h as [|c h IH]; [done|].
  cbn [str_all str_map] in *. apply andb_true_iff in Ha as [Hc Ha]. rewrite IH by done. rewrite andb_true_r. clear -Hc.
  by destruct c as [[] [] [] [] [] [] [] []].
Qed.

Lemma event_identity_sha index event i h : event_identity index event = Ret i -> ei_artifact_sha256 i = Some h -> lower_sha256 h.
Proof.
  unfold event_identity. case_match; [|done]. intros [= <-]. cbn [ei_artifact_sha256]. unfold event_sha256.
  generalize sha256_keys. induction l as [|k l IH]; [done|]. cbn [omap list_omap]. destruct (string_field event k 64) as [v|]; cbn; [|exact IH].
  destruct (valid_sha256 v) eqn:Ev; [|exact IH]. intros [= <-]. by apply lower_sha256_lower.
Qed.

Lemma merlin_wf_rows s s' : rows TSegment s' = rows TSegment s -> rows TObservation s' = rows TObservation s -> merlin_wf s -> merlin_wf s'.
Proof.
  intros E1 E2 H. unfold merlin_wf, unique_key, all_rows, segment_ok, observation_ok, has_row, observations_of in *. by rewrite E1, E2.
Qed.

(** The observations a batch adds. *)
Lemma store_events_added tenant id t req l n s n' s' :
  op_fold l n (store_event tenant id t req) s = (Ret n', s') -> exists new, rows TObservation s' = rows TObservation s ++ new /\
    Forall (fun o => mo_segment_id o = id /\ (mo_tenant o, mo_host_name o, mo_segment o) = (tenant, mq_host_name req, mq_segment req) /\
      exists index, event_identity index (mo_payload o) = Ret (identity_of_row o)) new.
Proof.
  revert n s. induction l as [|[index event] l IH]; intros n s; cbn [op_fold]; [intros [= <- <-]; exists []; by rewrite app_nil_r|].
  intros (n1 & s1 & E1 & E)%bind_ret. destruct (IH _ _ E) as (new & Er & Hn). unfold store_event in E1.
  apply bind_ret in E1 as (i & s2 & [= Ei <-] & E1). apply bind_ret in E1 as (u & s3 & [= <- <-] & E1).
  apply bind_ret in E1 as (b & s4 & Ei' & [= <- <-]). unfold insert_on_conflict in Ei'.
  destruct (existsb _ _) in Ei'; injection Ei' as <- <-; [by exists new|]. rewrite rows_set_rows_eq in Er.
  eexists. split; [rewrite Er, <- app_assoc; reflexivity|]. apply Forall_app. split; [|done]. constructor; [|constructor].
  split; [done|]. split; [done|]. exists index. cbn. rewrite Ei. by destruct i.
Qed.

Lemma segment_for_added tenant t req s id s' :
  segment_for tenant t req (digest_of req) s = (Ret id, s') -> rows TSegment s' = rows TSegment s \/
  exists r, rows TSegment s' = rows TSegment s ++ [r] /\ ms_id r = id /\ ms_schema_version r = mq_schema_version req /\
    ms_segment_sha256 r = digest_of req.
Proof.
  unfold segment_for, find_segment. intros (row & s1 & [= <- <-] & E)%bind_ret. destruct (head _) as [r|].
  - destruct (negb _) in E; [done|]. injection E as <- <-. by left.
  - apply bind_ret in E as (u & s2 & [= <- <-] & E). apply bind_ret in E as ([] & s3 & E & [= <- <-]).
    unfold insert_unique in E. apply bind_ret in E as (b & s4 & Ei & E). destruct b; [|done]. injection E as ->.
    unfold insert_on_conflict in Ei. destruct (existsb _ _) in Ei; [done|]. injection Ei as <-. rewrite rows_set_rows_eq.
    right. by eexists.
Qed.

Lemma validate_request_ok req : validate_request req = Ret tt ->
  mq_schema_version req = MERLIN_SCHEMA_VERSION /\ valid_sha256 (mq_segment_sha256 req) = true.
Proof.
  unfold validate_request. destruct (Z.eqb_spec (mq_schema_version req) MERLIN_SCHEMA_VERSION); [|done]. cbn [negb].
  repeat (case_match; [done|]). intros _. split; [done|]. by destruct (valid_sha256 _).
Qed.

Definition added_by (tenant : Uuid) (req : MerlinSegmentRequest) (id : Uuid) (o : MerlinObservation) : Prop :=
  mo_segment_id o = id /\ (mo_tenant o, mo_host_name o, mo_segment o) = (tenant, mq_host_name req, mq_segment req) /\
  exists index, event_identity index (mo_payload o) = Ret (identity_of_row o).

(** The tables after the transaction, in terms of those before. *)
Lemma ingest_body_rows tenant req s v s' :
  ingest_body tenant req s = (Ret v, s') -> exists id segs new,
    (segs = rows TSegment s \/ exists r, segs = rows TSegment s ++ [r] /\ ms_id r = id /\ ms_schema_version r = mq_schema_version req /\
       ms_segment_sha256 r = digest_of req) /\
    rows TObservation s' = rows TObservation s ++ new /\ Forall (added_by tenant req id) new /\
    rows TSegment s' = map (recounted id (observations_of id s')) segs /\ has_segment tenant req id s'.
Proof.
  intros E. pose proof (ingest_body_run tenant req s) as H. rewrite E in H. unfold ingest_body in E.
  apply bind_ret in E as (t & s0 & [= <- <-] & E). apply bind_ret in E as (id & s1 & Eseg & E).
  apply bind_ret in E as (n & s2 & Eev & E). apply bind_ret in E as ([] & s3 & Erec & [= <- <-]).
  destruct H as [Hseg _]. set (t := srv_clock s (srv_clock_next s)) in *. match type of Eseg with _ ?x = _ => set (s0 := x) in * end.
  pose proof (segment_for_frames tenant t req (digest_of req) s0) as Fo. fold (digest_of req) in Eseg. rewrite Eseg in Fo. cbn [snd] in Fo.
  pose proof (store_events_frames tenant id t req (indexed (mq_events req)) 0 s1) as Fs. rewrite Eev in Fs. cbn [snd] in Fs.
  destruct (store_events_added _ _ _ _ _ _ _ _ _ Eev) as (new & En & Hn).
  destruct (recount_run id s2) as (s4 & E4 & O4 & S4). rewrite E4 in Erec. injection Erec as <-.
  exists id, (rows TSegment s1), new. split; [by apply segment_for_added in Eseg|]. split; [by rewrite O4, En, Fo|]. split; [exact Hn|].
  split; [|exact Hseg]. rewrite S4, Fs. unfold observations_of. by rewrite O4.
Qed.

Lemma recounted_same id n r : ms_id (recounted id n r) = ms_id r /\ segment_key (recounted id n r) = segment_key r /\
  ms_segment_sha256 (recounted id n r) = ms_segment_sha256 r /\ ms_schema_version (recounted id n r) = ms_schema_version r.
Proof. unfold recounted. by case_bool_decide. Qed.

(** Observations of another segment are not counted. *)
Lemma observations_of_other tenant req id new s s' i :
  rows TObservation s' = rows TObservation s ++ new -> Forall (added_by tenant req id) new -> i <> id ->
  observations_of i s' = observations_of i s.
Proof.
  intros E Hn Hi. unfold observations_of. rewrite E. f_equal. rewrite List.filter_app.
  rewrite (filter_nil_forall _ new), app_nil_r; [done|]. intros o Ho. rewrite List.Forall_forall in Hn. destruct (Hn o Ho) as [<- _].
  by apply bool_decide_eq_false.
Qed.

(** The body of the transaction keeps the tables well formed when it returns. *)
Lemma ingest_body_wf tenant req s v s' :
  validate_request req = Ret tt -> merlin_wf s -> ingest_body tenant req s = (Ret v, s') -> merlin_wf s'.
Proof.
  intros [Hver Hsha]%validate_request_ok (Hus & Huo & Hs & Ho) E.
  assert (Hus' : unique_key TSegment segment_key s') by (pose proof (ingest_body_unique tenant req s Hus) as Hk; by rewrite E in Hk).
  assert (Huo' : unique_key TObservation observation_key s') by (pose proof (ingest_body_unique_obs tenant req s Huo) as Hk; by rewrite E in Hk).
  apply ingest_body_rows in E as (id & segs & new & Hsegs & Eo & Hn & Es & Hseg).
  split; [exact Hus'|]. split; [exact Huo'|]. unfold all_rows in *. rewrite List.Forall_forall in Hs, Ho, Hn.
  split; apply List.Forall_forall.
  - intros r Hr. rewrite Es in Hr. apply in_map_iff in Hr as (r0 & <- & Hr0). destruct (recounted_same id (observations_of id s') r0) as (Ei & _ & Ed & Ev).
    assert (H0 : (In r0 (rows TSegment s) \/ ms_id r0 = id) /\ ms_schema_version r0 = MERLIN_SCHEMA_VERSION /\ lower_sha256 (ms_segment_sha256 r0)).
    { assert (Hold : In r0 (rows TSegment s) -> ms_schema_version r0 = MERLIN_SCHEMA_VERSION /\ lower_sha256 (ms_segment_sha256 r0))
        by (intros Hin; destruct (Hs r0 Hin) as (? & ? & _); done).
      destruct Hsegs as [->|(r & -> & Hid & Hv' & Hd)]; [split; [by left|by apply Hold]|].
      apply in_app_iff in Hr0 as [Hin|[<-|[]]]; [split; [by left|by apply Hold]|]. split; [by right|]. rewrite Hv', Hd.
      split; [done|]. by apply lower_sha256_lower. }
    destruct H0 as (Hwho & Hv0 & Hd0). unfold segment_ok. rewrite Ei, Ed, Ev. split; [done|]. split; [done|]. unfold recounted.
    case_bool_decide as Hid; [by rewrite Hid|]. destruct Hwho as [Hin|?]; [|done].
    rewrite (observations_of_other tenant req id new s s') by (try done; by apply List.Forall_forall). by apply Hs.
  - intros o Hin. rewrite Eo in Hin. apply in_app_iff in Hin as [Hin|Hin].
    + destruct (Ho o Hin) as (Hi & Hsh & r & Hr & Hid & Hk). split; [done|]. split; [done|].
      exists (recounted id (observations_of id s') r). destruct (recounted_same id (observations_of id s') r) as (Ei & Ek & _ & _).
      split; [|split; congruence]. rewrite Es. apply in_map_iff. exists r. split; [done|].
      destruct Hsegs as [->|(x & -> & _)]; [done|]. apply in_app_iff. by left.
    + destruct (Hn o Hin) as (Hid & Hk & index & Hix). split; [by exists index|]. split.
      * intros h Hh. apply (event_identity_sha _ _ _ h Hix Hh).
      * destruct Hseg as (r & Hr & Hkr & _ & Hir). exists r. split; [done|]. split; congruence.
Qed.

Lemma ingest_segment_wf tenant req : keeps merlin_wf (ingest_segment tenant req).
Proof.
  intros s Hs. rewrite ingest_segment_body. unfold mbind, op_mbind, lift_outcome, db_transaction, transaction.
  destruct (validate_request req) as [[]|e|] eqn:Ev; [|done..].
  destruct (ingest_body tenant req s) as [[[id n]|e|] s1] eqn:Eb; cbn.
  - by eapply ingest_body_wf.
  - by apply (merlin_wf_rows s).
  - by apply (merlin_wf_rows s).
Qed.

(** C34. The telemetry tables stay well formed under every sequence of ingestion
    requests: one segment per tenant, host and name and one observation per
    tenant, host and event; a segment has the schema version, a lower-case SHA-256
    and the number of its observations as its count; an observation's columns are
    those read of its text, its digest is a lower-case SHA-256, and its segment is
    stored. *)
Theorem merlin_wf_reachable l s :
  rows TSegment s = [] -> rows TObservation s = [] -> merlin_wf (serve_segments l s).
Proof.
  intros E1 E2. apply serve_segments_keep; [intros; apply ingest_segment_wf|].
  unfold merlin_wf, unique_key, all_rows. rewrite E1, E2. repeat split; constructor.
Qed.
End merlin.

(** ** Witnesses *)

Section witnesses.
Local Instance json_text : JsonText := fun _ => ""%string.
Local Instance whole_seconds : Chrono := fun secs _ => Some secs.

Definition boot_event (seq : Z) (ts : f64) : Json :=
  JObj [("boot_id", JStr "b1"); ("source_seq", JInt seq); ("kind", JStr " exec "); ("ts", JFloat ts)]%string.
Definition a_batch (events : list Json) : MerlinSegmentRequest :=
  mkMerlinSegmentRequest 1 "host-1" "0001.jsonl.gz" "AAAAAAAAAAAAAAAAAAAAAAAAAAAAAAAAAAAAAAAAAAAAAAAAAAAAAAAAAAAAAAAA" events.
Definition first_batch : MerlinSegmentRequest := a_batch [boot_event 1 (f64_lit 3 2); boot_event 2 (f64_lit (-1) 4); boot_event 1 (f64_lit 9 1)].
Definition second_batch : MerlinSegmentRequest := a_batch [boot_event 2 (f64_lit 7 1); boot_event 3 (f64_lit 8 1)].

Example first_batch_answer : fst (ingest_segment 7%N first_batch ReferenceServer.empty) =
  Ret (mkMerlinSegmentResponse 1 1 100%N (digest_of first_batch) "accepted" 2 1).
Proof. vm_compute. reflexivity. Qed.

Example event_times : map mo_observed_at (rows TObservation (serve_segments [(7%N, first_batch); (7%N, second_batch)] ReferenceServer.empty)) =
  [Some 1; None; Some 8].
Proof. vm_compute. reflexivity. Qed.

Lemma merlin_wf_reachable_witness :
  merlin_wf (serve_segments [(7%N, first_batch); (7%N, second_batch)] ReferenceServer.empty).
Proof. apply merlin_wf_reachable; reflexivity. Defined.

Lemma ingest_segment_replay_witness :
  exists s3, ingest_segment 7%N first_batch (serve_segments [(7%N, second_batch)] (snd (ingest_segment 7%N first_batch ReferenceServer.empty))) =
    (Ret (mkMerlinSegmentResponse 1 1 100%N (digest_of first_batch) "duplicate" 0 3), s3).
Proof.
  destruct (ingest_segment_replay 7%N first_batch (mkMerlinSegmentResponse 1 1 100%N (digest_of first_batch) "accepted" 2 1)
    ReferenceServer.empty (snd (ingest_segment 7%N first_batch ReferenceServer.empty)) [(7%N, second_batch)]) as (s3 & E & _).
  - apply NoDup_nil_2.
  - rewrite <- first_batch_answer. apply surjective_pairing.
  - exists s3. exact E.
Defined.
End witnesses.
