(* ===== verification/Neighborhood.v ===== *)
(** * Neighborhood: the bounded graph query ([similarity/neighborhood.rs])

    A breadth-first walk of the similarity edges around a seed artifact, under
    hard caps on depth, nodes and edges, with a deterministic order, a page of the
    edges and a bound on the size of the answer. *)

From S2P Require Import Prelude Machine Text Hash Cas Schema SimModel.
From Stdlib Require Import Strings.Byte Strings.Ascii SpecFloat Sorting.Permutation Sorting.Sorted.

Open Scope Z_scope.

Definition MAX_DEPTH : Z := 4.
Definition MAX_NODES : Z := 256.
Definition MAX_EDGES : Z := 1024.
Definition MAX_RESPONSE_BYTES : Z := 512 * 1024.

Record NeighborhoodQuery := mkNeighborhoodQuery {
  nq_seed : string; nq_edge_types : list string; nq_model_version : option string; nq_min_score : f64; nq_max_depth : Z;
  nq_max_nodes : Z; nq_max_edges : Z; nq_offset : Z; nq_limit : Z; nq_include_weak : bool }.

Record NeighborhoodNode := mkNeighborhoodNode { nn_artifact_id : Uuid; nn_sha256 : string; nn_artifact_class : string; nn_depth : Z }.

Record NeighborhoodEdge := mkNeighborhoodEdge {
  ne_src_artifact : Uuid; ne_dst_artifact : Uuid; ne_src_sha256 : string; ne_dst_sha256 : string; ne_edge_type : string;
  ne_model_version : string; ne_score : f64; ne_evidence_ref : Json }.

Record NeighborhoodLimits := mkNeighborhoodLimits { nl_applied_depth : Z; nl_applied_nodes : Z; nl_applied_edges : Z }.

Record NeighborhoodResponse := mkNeighborhoodResponse {
  nr_tenant_id : Uuid; nr_seed_artifact : Uuid; nr_seed_sha256 : string; nr_model_version : string; nr_nodes : list NeighborhoodNode;
  nr_edges : list NeighborhoodEdge; nr_truncated : bool; nr_limits : NeighborhoodLimits }.

(** ** The walk

    [neighbors] is the answer of [load_neighbors] for an artifact: an edge and
    the artifact at its other end, with its digest and class. *)
Definition Neighbor : Type := NeighborhoodEdge * (Uuid * string * string).

Definition edge_key (e : NeighborhoodEdge) : Uuid * Uuid * string := (ne_src_artifact e, ne_dst_artifact e, ne_edge_type e).

(** The walk's local variables. *)
Record Walk := mkWalk {
  wk_nodes : gmap Uuid NeighborhoodNode; wk_edges : list NeighborhoodEdge; wk_seen : gset (Uuid * Uuid * string); wk_truncated : bool;
  wk_frontier : list (Uuid * Z); wk_visited : gset Uuid }.

Section walk.
  Context (neighbors : Uuid -> list Neighbor) (depth max_nodes max_edges : Z).

(** [if seen_edge_keys.insert(key) { ... }] *)
Definition collect_edge (w : Walk) (e : NeighborhoodEdge) : Walk :=
  if bool_decide (edge_key e ∈ wk_seen w) then w
  else
    let seen := {[ edge_key e ]} ∪ wk_seen w in
    if len (wk_edges w) <? max_edges then mkWalk (wk_nodes w) (wk_edges w ++ [e]) seen (wk_truncated w) (wk_frontier w) (wk_visited w)
    else mkWalk (wk_nodes w) (wk_edges w) seen true (wk_frontier w) (wk_visited w).

(** [if !visited.contains(&other_id) { ... }] *)
Definition reach_node (d : Z) (w : Walk) (other : Uuid * string * string) : Walk :=
  let '(id, sha, class) := other in
  if bool_decide (id ∈ wk_visited w) then w
  else if Z.of_nat (size (wk_nodes w)) <? max_nodes then
    mkWalk (<[id := mkNeighborhoodNode id sha class (d + 1)]> (wk_nodes w)) (wk_edges w) (wk_seen w) (wk_truncated w)
      (wk_frontier w ++ [(id, d + 1)]) ({[ id ]} ∪ wk_visited w)
  else mkWalk (wk_nodes w) (wk_edges w) (wk_seen w) true (wk_frontier w) (wk_visited w).

Definition visit (d : Z) (w : Walk) (n : Neighbor) : Walk := reach_node d (collect_edge w (fst n)) (snd n).

Definition set_frontier (f : list (Uuid * Z)) (w : Walk) : Walk :=
  mkWalk (wk_nodes w) (wk_edges w) (wk_seen w) (wk_truncated w) f (wk_visited w).

Definition full (w : Walk) : bool :=
  wk_truncated w && (max_nodes <=? Z.of_nat (size (wk_nodes w))) && (max_edges <=? len (wk_edges w)).

(** [while let Some((current, d)) = frontier.pop_front()]; [None] when the fuel
    runs out. *)
Fixpoint walk (fuel : nat) (w : Walk) : option Walk :=
  match wk_frontier w with
  | [] => Some w
  | (current, d) :: rest =>
      match fuel with
      | O => None
      | S fuel' =>
          let w := set_frontier rest w in
          if depth <=? d then walk fuel' w
          else
            let w := foldl (visit d) w (neighbors current) in
            if full w then Some w else walk fuel' w
      end
  end.
End walk.

Definition start (seed : Uuid) (sha class : string) : Walk :=
  mkWalk {[ seed := mkNeighborhoodNode seed sha class 0 ]} [] ∅ false [(seed, 0)] {[ seed ]}.

(** ** The order of the answer *)

Definition node_le (a b : NeighborhoodNode) : bool :=
  if nn_depth a =? nn_depth b then
    if String.eqb (nn_sha256 a) (nn_sha256 b) then (nn_artifact_id a <=? nn_artifact_id b)%N else str_leb (nn_sha256 a) (nn_sha256 b)
  else nn_depth a <=? nn_depth b.

(** [partial_cmp(..).unwrap_or(Equal)], highest score first, then the strings. *)
Definition edge_le (a b : NeighborhoodEdge) : bool :=
  match f64_cmp (ne_score b) (ne_score a) with
  | Some Lt => true
  | Some Gt => false
  | _ =>
      if String.eqb (ne_edge_type a) (ne_edge_type b) then
        if String.eqb (ne_src_sha256 a) (ne_src_sha256 b) then str_leb (ne_dst_sha256 a) (ne_dst_sha256 b)
        else str_leb (ne_src_sha256 a) (ne_src_sha256 b)
      else str_leb (ne_edge_type a) (ne_edge_type b)
  end.

(** The page; the addition wraps, and a range that ends before it starts panics. *)
Definition page_of (offset limit : Z) (edges : list NeighborhoodEdge) : outcome (list NeighborhoodEdge) :=
  let page_end := Z.min (u64_wrap (offset + limit)) (len edges) in
  if offset <? len edges then or_panic (slice edges offset page_end) else Ret [].

Section query.
  Context {SHA : Sha256} {HEX : HexCodec} {UD : UuidDisplay} {UP : UuidParse} {JT : JsonText}.

(** The derived [Serialize] of the response. *)
Definition node_json (n : NeighborhoodNode) : Json :=
  JObj [("artifact_id", JStr (uuid_to_string (nn_artifact_id n))); ("sha256", JStr (nn_sha256 n));
        ("artifact_class", JStr (nn_artifact_class n)); ("depth", JInt (nn_depth n))]%string.
Definition edge_json (e : NeighborhoodEdge) : Json :=
  JObj [("src_artifact", JStr (uuid_to_string (ne_src_artifact e))); ("dst_artifact", JStr (uuid_to_string (ne_dst_artifact e)));
        ("src_sha256", JStr (ne_src_sha256 e)); ("dst_sha256", JStr (ne_dst_sha256 e)); ("edge_type", JStr (ne_edge_type e));
        ("model_version", JStr (ne_model_version e)); ("score", JFloat (ne_score e)); ("evidence_ref", ne_evidence_ref e)]%string.
Definition response_json (r : NeighborhoodResponse) : Json :=
  JObj [("tenant_id", JStr (uuid_to_string (nr_tenant_id r))); ("seed_artifact", JStr (uuid_to_string (nr_seed_artifact r)));
        ("seed_sha256", JStr (nr_seed_sha256 r)); ("model_version", JStr (nr_model_version r));
        ("nodes", JArr (map node_json (nr_nodes r))); ("edges", JArr (map edge_json (nr_edges r))); ("truncated", JBool (nr_truncated r));
        ("limits", JObj [("max_depth", JInt MAX_DEPTH); ("max_nodes", JInt MAX_NODES); ("max_edges", JInt MAX_EDGES);
           ("max_response_bytes", JInt MAX_RESPONSE_BYTES); ("applied_depth", JInt (nl_applied_depth (nr_limits r)));
           ("applied_nodes", JInt (nl_applied_nodes (nr_limits r))); ("applied_edges", JInt (nl_applied_edges (nr_limits r)))])]%string.

Definition artifact_row (tenant id : Uuid) (a : Artifact) : bool := bool_decide (art_tenant a = tenant) && bool_decide (art_id a = id).

Definition artifact_msg (seed : string) : Error := NotFound ("artifact " +:+ seed).

(** Identifier, digest and class of the seed. *)
Definition resolve_seed (tenant : Uuid) (seed : string) : Op Srv (Uuid * string * string) :=
  match uuid_parse seed with
  | Some id =>
      row ← select_optional TArtifact (artifact_row tenant id);
      a ← or_throw (artifact_msg seed) row;
      mret (art_id a, hex_encode (art_sha256 a), art_class a)
  | None =>
      raw ← or_throw (BadRequest "seed must be sha256 hex or artifact uuid") (hex_to_raw seed);
      row ← select_optional TArtifact (fun a => bool_decide (art_tenant a = tenant) && bool_decide (art_sha256 a = raw));
      a ← or_throw (artifact_msg seed) row;
      mret (art_id a, hex_encode (art_sha256 a), art_class a)
  end.

(** [ORDER BY e.score DESC, e.edge_type, e.src_artifact, e.dst_artifact] *)
Definition row_le (a b : SimEdge) : bool :=
  match f64_cmp (se_score b) (se_score a) with
  | Some Lt => true
  | Some Gt => false
  | _ =>
      if String.eqb (se_edge_type a) (se_edge_type b) then
        if bool_decide (se_src a = se_src b) then (se_dst a <=? se_dst b)%N else (se_src a <=? se_src b)%N
      else str_leb (se_edge_type a) (se_edge_type b)
  end.

Definition other_end (artifact : Uuid) (e : SimEdge) : Uuid := if bool_decide (se_src e = artifact) then se_dst e else se_src e.

Definition edge_row (tenant artifact : Uuid) (model : string) (min_score : f64) (e : SimEdge) : bool :=
  bool_decide (se_tenant e = tenant) && (bool_decide (se_src e = artifact) || bool_decide (se_dst e = artifact)) &&
  String.eqb (se_model_version e) model && f64_ge (se_score e) min_score.

Definition is_weak (edge_type : string) : bool :=
  String.eqb edge_type BYTE_SIMILAR || String.eqb edge_type SHARED_PROVENANCE || String.eqb edge_type SEMANTIC_WEAK.

Definition wanted (edge_types : list string) (include_weak : bool) (e : SimEdge) : bool :=
  (match edge_types with [] => true | _ => existsb (fun t => String.eqb t (se_edge_type e)) edge_types end) &&
  (include_weak || negb (is_weak (se_edge_type e))).

Definition get_or_null (k : string) (j : Json) : Json := default JNull (json_get k j).

(** Evidence by reference only. *)
Definition evidence_ref (e : SimEdge) : Json :=
  JObj [("edge_type", JStr (se_edge_type e)); ("model_version", JStr (se_model_version e)); ("score", JFloat (se_score e));
        ("matched_pairs", get_or_null "matched_pairs" (se_evidence e)); ("receipt_id", get_or_null "receipt_id" (se_evidence e));
        ("tau", get_or_null "tau" (se_evidence e))]%string.

Definition neighbor_of (e : SimEdge) (sa da oa : Artifact) : Neighbor :=
  (mkNeighborhoodEdge (se_src e) (se_dst e) (hex_encode (art_sha256 sa)) (hex_encode (art_sha256 da)) (se_edge_type e)
     (se_model_version e) (se_score e) (evidence_ref e),
   (art_id oa, hex_encode (art_sha256 oa), art_class oa)).

(** The join of [load_neighbors] over the tenant's rows. *)
Definition join_neighbors (q : NeighborhoodQuery) (model : string) (tenant : Uuid) (arts : list Artifact) (edges : list SimEdge)
    (artifact : Uuid) : list Neighbor :=
  let rows := sort_by row_le (List.filter (edge_row tenant artifact model (nq_min_score q)) edges) in
  flat_map (fun e =>
    flat_map (fun sa => flat_map (fun da => map (neighbor_of e sa da)
      (List.filter (artifact_row tenant (other_end artifact e)) arts))
      (List.filter (artifact_row tenant (se_dst e)) arts))
      (List.filter (artifact_row tenant (se_src e)) arts))
    (List.filter (wanted (nq_edge_types q) (nq_include_weak q)) rows).

Definition load_neighbors (q : NeighborhoodQuery) (model : string) (tenant : Uuid) (s : Srv) : Uuid -> list Neighbor :=
  join_neighbors q model tenant (rows TArtifact s) (rows TEdge s).

Definition clamp (lo hi x : Z) : Z := Z.max lo (Z.min hi x).

Definition too_large : Error :=
  BadRequest ("neighborhood response exceeds " +:+ (show_Z MAX_RESPONSE_BYTES +:+ " bytes; reduce depth/nodes")).

(** [query]; the walk never runs out of the fuel it is given. *)
Definition query (tenant : Uuid) (q : NeighborhoodQuery) : Op Srv NeighborhoodResponse :=
  let depth := Z.min (nq_max_depth q) MAX_DEPTH in
  let max_nodes := clamp 1 MAX_NODES (nq_max_nodes q) in
  let max_edges := clamp 1 MAX_EDGES (nq_max_edges q) in
  let model := default MODEL_VERSION (nq_model_version q) in
  seed ← resolve_seed tenant (nq_seed q);
  let '(seed_id, seed_sha, seed_class) := seed in
  neighbors ← gets (load_neighbors q model tenant);
  w ← lift_outcome (or_panic (walk neighbors depth max_nodes max_edges (Z.to_nat max_nodes) (start seed_id seed_sha seed_class)));
  let node_list := sort_by node_le (map snd (map_to_list (wk_nodes w))) in
  let all_edges := sort_by edge_le (wk_edges w) in
  page ← lift_outcome (page_of (nq_offset q) (nq_limit q) all_edges);
  let resp := mkNeighborhoodResponse tenant seed_id seed_sha model node_list page (wk_truncated w)
    (mkNeighborhoodLimits depth max_nodes max_edges) in
  if MAX_RESPONSE_BYTES <? str_len (json_to_string (response_json resp)) then throw too_large else mret resp.
End query.

(** ** What the walk finds *)

Definition neighbor_id (n : Neighbor) : Uuid := fst (fst (snd n)).

Section walk_proofs.
  Context (neighbors : Uuid -> list Neighbor) (depth max_nodes max_edges : Z) (seed : Uuid) (sha class : string).
  Context (Hdepth : 0 <= depth) (Hnodes : 1 <= max_nodes) (Hedges : 1 <= max_edges).

(** [walks k x]: [k] edges lead from the seed to [x]. *)
Inductive walks : nat -> Uuid -> Prop :=
  | walks_seed : walks 0 seed
  | walks_step k x n : walks k x -> In n (neighbors x) -> walks (S k) (neighbor_id n).

Definition at_depth (w : Walk) (x : Uuid) (d : Z) : Prop := exists nd, wk_nodes w !! x = Some nd /\ nn_depth nd = d.

(** A node's digest and class are the seed's, or those it was listed with. *)
Definition labelled (nd : NeighborhoodNode) : Prop :=
  nd = mkNeighborhoodNode seed sha class 0 \/
  exists x n, In n (neighbors x) /\ snd n = (nn_artifact_id nd, nn_sha256 nd, nn_artifact_class nd).

Record sound (w : Walk) : Prop := {
  s_visited : forall x, x ∈ wk_visited w <-> is_Some (wk_nodes w !! x);
  s_node : forall x nd, wk_nodes w !! x = Some nd ->
    nn_artifact_id nd = x /\ (exists k, nn_depth nd = Z.of_nat k /\ walks k x) /\ nn_depth nd <= depth /\ labelled nd;
  s_frontier : forall x d, In (x, d) (wk_frontier w) -> at_depth w x d;
  s_size : Z.of_nat (size (wk_nodes w)) <= max_nodes;
  s_edges : len (wk_edges w) <= max_edges;
  s_edge : forall e, In e (wk_edges w) -> exists x n d, In n (neighbors x) /\ fst n = e /\ at_depth w x d /\ d < depth;
  s_keys : NoDup (map edge_key (wk_edges w));
  s_seen : forall e, In e (wk_edges w) -> edge_key e ∈ wk_seen w }.

(** The other end of [n] is a node no deeper than [d + 1], and its edge is kept. *)
Definition closed (w : Walk) (d : Z) (n : Neighbor) : Prop :=
  (exists dy, at_depth w (neighbor_id n) dy /\ dy <= d + 1) /\ edge_key (fst n) ∈ wk_seen w.

(** The queue holds the levels [d] and [d + 1] in order; what is not in it is
    done, up to the artifact [cur] being looked at, of which [part] is done. *)
Record complete (d : Z) (cur : Uuid) (part : list Neighbor) (w : Walk) : Prop := {
  c_level : forall x dx, at_depth w x dx -> dx <= d + 1;
  c_queue : Forall (fun q => d <= snd q <= d + 1) (wk_frontier w) /\ StronglySorted Z.le (map snd (wk_frontier w));
  c_done : forall x dx, at_depth w x dx -> dx < depth ->
    In (x, dx) (wk_frontier w) \/ Forall (closed w dx) (if bool_decide (x = cur) then part else neighbors x);
  c_seen : forall k, k ∈ wk_seen w -> In k (map edge_key (wk_edges w));
  c_seed : at_depth w seed 0 }.

(** Nodes only get added. *)
Definition extends (w w' : Walk) : Prop :=
  (forall x d, at_depth w x d -> at_depth w' x d) /\ (forall k, k ∈ wk_seen w -> k ∈ wk_seen w').

Lemma extends_closed w w' d n : extends w w' -> closed w d n -> closed w' d n.
Proof. intros [H1 H2] [(dy & Hy & Hle) Hk]. split; [|auto]. exists dy. auto. Qed.

Lemma at_depth_fun w x d d' : at_depth w x d -> at_depth w x d' -> d = d'.
Proof. intros (nd & E & <-) (nd' & E' & <-). congruence. Qed.

(** *** The edge of a neighbor *)

Section collect.
  Context (w : Walk) (e : NeighborhoodEdge).

Lemma collect_same :
  let w' := collect_edge max_edges w e in
  wk_nodes w' = wk_nodes w /\ wk_frontier w' = wk_frontier w /\ wk_visited w' = wk_visited w /\
  extends w w' /\ (wk_truncated w' = false -> wk_truncated w = false).
Proof.
  unfold collect_edge. cbv zeta. case_bool_decide; [done|]. destruct (_ <? _); cbn; (do 3 (split; [done|])); split; try done;
    (split; [done|]); cbn; set_solver.
Qed.

Lemma collect_sound x d n :
  sound w -> In n (neighbors x) -> fst n = e -> at_depth w x d -> d < depth -> sound (collect_edge max_edges w e).
Proof.
  intros [H1 H2 H3 H4 H5 H6 H7 H8] Hn He Hx Hd. unfold collect_edge. case_bool_decide as Hin; [by constructor|].
  destruct (Z.ltb_spec (len (wk_edges w)) max_edges) as [Hl|Hl].
  - constructor; cbn; [done..| | | |].
    + rewrite len_app. unfold len in *. cbn. lia.
    + intros e' [He'|[<-|[]]]%in_app_iff; [by apply H6|]. exists x, n, d. done.
    + rewrite map_app. apply NoDup_app. split; [done|]. split; [|apply NoDup_singleton].
      intros k Hk ->%list_elem_of_singleton. apply list_elem_of_In, in_map_iff in Hk as (e' & Ek & He'). apply Hin. rewrite <- Ek. by apply H8.
    + intros e' [He'|[<-|[]]]%in_app_iff; [|set_solver]. apply H8 in He'. set_solver.
  - constructor; cbn; try done. intros e' He'. apply H8 in He'. set_solver.
Qed.

Lemma collect_complete d cur part :
  complete d cur part w -> wk_truncated (collect_edge max_edges w e) = false ->
  complete d cur part (collect_edge max_edges w e) /\ edge_key e ∈ wk_seen (collect_edge max_edges w e).
Proof.
  intros Hc Ht. pose proof collect_same as (En & Ef & _ & Hx & _). cbv zeta in *.
  assert (Hd : forall y dy, at_depth (collect_edge max_edges w e) y dy -> at_depth w y dy) by (intros y dy; unfold at_depth; by rewrite En).
  split.
  - destruct Hc as [H1 H2 H3 H4 H5]. constructor.
    + intros x dx Hdx%Hd. by eapply H1.
    + by rewrite Ef.
    + intros x dx Hdx%Hd Hlt. rewrite Ef. destruct (H3 x dx Hdx Hlt) as [Hin|Hf]; [by left|right].
      eapply Forall_impl; [exact Hf|]. intros n. by apply extends_closed.
    + revert Ht. unfold collect_edge. case_bool_decide; [done|]. destruct (_ <? _); [|done]. cbn. intros _ k Hk.
      rewrite map_app. apply in_app_iff. apply elem_of_union in Hk as [->%elem_of_singleton|Hk]; [right; by left|left; by apply H4].
    + by apply Hx.
  - unfold collect_edge. case_bool_decide; [done|]. destruct (_ <? _); cbn; set_solver.
Qed.
End collect.

(** *** The other end of a neighbor *)

Lemma at_depth_insert w x d y nd f seen t vis fr :
  wk_nodes w !! y = None -> at_depth w x d -> at_depth (mkWalk (<[y := nd]> (wk_nodes w)) f seen t fr vis) x d.
Proof.
  intros Hn (nx & E & Ed). exists nx. split; [|done]. cbn. rewrite lookup_insert_ne; [done|]. congruence.
Qed.

Section reach.
  Context (w : Walk) (id : Uuid) (s c : string).

Lemma reach_extends d : sound w -> extends w (reach_node max_nodes d w (id, s, c)) /\
  (wk_truncated (reach_node max_nodes d w (id, s, c)) = false -> wk_truncated w = false) /\
  (len (wk_frontier (reach_node max_nodes d w (id, s, c))) + Z.of_nat (size (wk_nodes w)) =
   len (wk_frontier w) + Z.of_nat (size (wk_nodes (reach_node max_nodes d w (id, s, c))))).
Proof.
  intros Hs. unfold reach_node. case_bool_decide as Hin; [done|]. destruct (_ <? _); cbn; [|done].
  assert (Hn : wk_nodes w !! id = None) by (apply eq_None_not_Some; by rewrite <- (s_visited w Hs)).
  split; [split; [intros; by apply at_depth_insert|done]|]. split; [done|]. rewrite map_size_insert_None by done. rewrite len_app. unfold len. cbn. lia.
Qed.

Lemma reach_sound x d n :
  sound w -> In n (neighbors x) -> snd n = (id, s, c) -> at_depth w x d -> d < depth -> sound (reach_node max_nodes d w (id, s, c)).
Proof.
  intros Hs Hn Es Hx Hd. unfold reach_node. case_bool_decide as Hin; [done|].
  assert (Hnone : wk_nodes w !! id = None) by (apply eq_None_not_Some; by rewrite <- (s_visited w Hs)).
  pose proof Hs as [H1 H2 H3 H4 H5 H6 H7 H8].
  destruct (Z.ltb_spec (Z.of_nat (size (wk_nodes w))) max_nodes) as [Hl|Hl]; [|by constructor].
  constructor; cbn; try done.
  - intros y. rewrite elem_of_union, elem_of_singleton, H1. destruct (decide (y = id)) as [->|Hne].
    + rewrite lookup_insert_eq. split; [by eexists|by left].
    + rewrite lookup_insert_ne by done. split; [by intros [?|?]|by right].
  - intros y nd. destruct (decide (y = id)) as [->|Hne].
    + rewrite lookup_insert_eq. intros [= <-]. cbn. split; [done|]. destruct Hx as (nx & Ex & <-).
      destruct (H2 x nx Ex) as (_ & (k & Ek & Hk) & _). split; [|split; [lia|]].
      * exists (S k). split; [lia|]. assert (id = neighbor_id n) as -> by (unfold neighbor_id; by rewrite Es). by eapply walks_step.
      * right. by exists x, n.
    + rewrite lookup_insert_ne by done. apply H2.
  - intros y dy [Hy|[[= <- <-]|[]]]%in_app_iff.
    + apply H3 in Hy. by apply at_depth_insert.
    + eexists. cbn. by rewrite lookup_insert_eq.
  - rewrite map_size_insert_None by done. lia.
  - intros e He. destruct (H6 e He) as (y & m & dy & ? & ? & Hy & ?). exists y, m, dy. do 2 (split; [done|]). split; [|done]. by apply at_depth_insert.
Qed.

Lemma reach_complete d cur part n :
  sound w -> complete d cur part w -> snd n = (id, s, c) -> edge_key (fst n) ∈ wk_seen w -> at_depth w cur d ->
  wk_truncated (reach_node max_nodes d w (id, s, c)) = false ->
  complete d cur (part ++ [n]) (reach_node max_nodes d w (id, s, c)).
Proof.
  intros Hs Hc Es Hk Hcur Ht. pose proof (reach_extends d Hs) as (Hx & _).
  assert (Eid : neighbor_id n = id) by (unfold neighbor_id; by rewrite Es).
  destruct Hc as [H1 [H2 H2'] H3 H4 H5].
  (* one artifact's obligation, in the new state *)
  assert (Hstep : forall x dx, at_depth w x dx -> dx < depth -> closed (reach_node max_nodes d w (id, s, c)) d n ->
    In (x, dx) (wk_frontier w) \/ Forall (closed (reach_node max_nodes d w (id, s, c)) dx) (if bool_decide (x = cur) then part ++ [n] else neighbors x)).
  { intros x dx Hdx Hlt Hcl. destruct (H3 x dx Hdx Hlt) as [?|Hf]; [by left|right].
    assert (Hf' : Forall (closed (reach_node max_nodes d w (id, s, c)) dx) (if bool_decide (x = cur) then part else neighbors x))
      by (eapply Forall_impl; [exact Hf|]; intros m; by apply extends_closed).
    case_bool_decide as Ecur; [|done]. subst x. apply Forall_app. split; [done|]. constructor; [|done].
    by rewrite <- (at_depth_fun w cur d dx Hcur Hdx). }
  revert Ht Hx Hstep. unfold reach_node. case_bool_decide as Hin.
  - intros Ht Hx Hstep. apply (s_visited w Hs) in Hin as [nd Hnd].
    assert (Hcl : closed w d n).
    { split; [|done]. rewrite Eid. exists (nn_depth nd). assert (Ha : at_depth w id (nn_depth nd)) by by exists nd. split; [done|]. by eapply H1. }
    constructor; auto.
  - destruct (_ <? _); [|done]. intros Ht Hx Hstep.
    assert (Hnone : wk_nodes w !! id = None) by (apply eq_None_not_Some; by rewrite <- (s_visited w Hs)).
    set (w' := mkWalk _ _ _ _ _ _) in *.
    assert (Hid : at_depth w' id (d + 1)) by (eexists; subst w'; cbn; by rewrite lookup_insert_eq).
    assert (Hcl : closed w' d n) by (split; [exists (d + 1); rewrite Eid; by split|done]).
    assert (Hinv : forall x dx, at_depth w' x dx -> (x = id /\ dx = d + 1) \/ at_depth w x dx).
    { intros x dx (nd & E & Ed). subst w'. cbn in E. destruct (decide (x = id)) as [->|Hne].
      - rewrite lookup_insert_eq in E. injection E as <-. left. by split.
      - rewrite lookup_insert_ne in E by done. right. by exists nd. }
    constructor.
    + intros x dx [[_ ->]|Hdx]%Hinv; [lia|by eapply H1].
    + subst w'. cbn. split.
      * apply Forall_app. split; [done|]. constructor; [cbn; lia|done].
      * rewrite map_app. cbn. clear -H2 H2'. induction (wk_frontier w) as [|[y dy] l IH]; [repeat constructor|].
        cbn in *. inversion H2 as [|? ? Hy Hl]; subst. inversion H2' as [|? ? Hs Hall]; subst. constructor; [by apply IH|].
        apply Forall_app. split; [done|]. constructor; [cbn in *; lia|done].
    + intros x dx [[-> ->]|Hdx]%Hinv Hlt; [left; subst w'; cbn; apply in_app_iff; right; by left|].
      destruct (Hstep x dx Hdx Hlt Hcl) as [?|?]; [left; subst w'; cbn; apply in_app_iff; by left|by right].
    + exact H4.
    + by apply Hx.
Qed.
End reach.

(** *** One artifact's neighbors *)

Lemma visit_run x d w n :
  sound w -> In n (neighbors x) -> at_depth w x d -> d < depth ->
  let w' := visit max_nodes max_edges d w n in
  sound w' /\ extends w w' /\ (wk_truncated w' = false -> wk_truncated w = false) /\
  len (wk_frontier w') + Z.of_nat (size (wk_nodes w)) = len (wk_frontier w) + Z.of_nat (size (wk_nodes w')) /\
  (forall part, complete d x part w -> wk_truncated w' = false -> complete d x (part ++ [n]) w').
Proof.
  intros Hs Hn Hx Hd w'. subst w'. unfold visit. destruct n as [e [[id s] c]]. cbn [fst snd].
  pose proof (collect_sound w e x d _ Hs Hn eq_refl Hx Hd) as Hs1. pose proof (collect_same w e) as (En & Ef & _ & Hx1 & Ht1). cbv zeta in *.
  pose proof (reach_extends (collect_edge max_edges w e) id s c d Hs1) as (Hx2 & Ht2 & Hm).
  assert (Hx1' : at_depth (collect_edge max_edges w e) x d) by by apply Hx1.
  split; [by eapply (reach_sound _ _ _ _ x d (e, (id, s, c)))|]. split.
  { split; [intros y dy Hy; by apply Hx2, Hx1|intros k Hk; by apply Hx2, Hx1]. }
  split; [auto|]. split; [rewrite En, Ef in Hm; exact Hm|]. intros part Hc Ht.
  destruct (collect_complete w e d x part Hc (Ht2 Ht)) as [Hc1 Hk].
  apply (reach_complete _ id s c d x part (e, (id, s, c))); done.
Qed.

Lemma visits_run x d l w :
  sound w -> (forall n, In n l -> In n (neighbors x)) -> at_depth w x d -> d < depth ->
  let w' := foldl (visit max_nodes max_edges d) w l in
  sound w' /\ (wk_truncated w' = false -> wk_truncated w = false) /\
  len (wk_frontier w') + Z.of_nat (size (wk_nodes w)) = len (wk_frontier w) + Z.of_nat (size (wk_nodes w')) /\
  (forall part, complete d x part w -> wk_truncated w' = false -> complete d x (part ++ l) w').
Proof.
  revert w. induction l as [|n l IH]; intros w Hs Hl Hx Hd; cbn [foldl]; cbv zeta.
  { split; [done|]. split; [done|]. split; [lia|]. intros part Hc _. by rewrite app_nil_r. }
  destruct (visit_run x d w n Hs (Hl n (or_introl eq_refl)) Hx Hd) as (Hs1 & Hx1 & Ht1 & Hm1 & Hc1).
  destruct (IH (visit max_nodes max_edges d w n) Hs1) as (Hs2 & Ht2 & Hm2 & Hc2); [intros m Hm; apply Hl; by right|by apply Hx1|done|].
  split; [done|]. split; [auto|]. split; [lia|]. intros part Hc Ht.
  replace (part ++ n :: l) with ((part ++ [n]) ++ l) by (by rewrite <- app_assoc). apply Hc2; [|done]. apply Hc1; [done|auto].
Qed.

(** Between two iterations. *)
Definition between (d : Z) (w : Walk) : Prop := complete d seed (neighbors seed) w.

Lemma between_cur d x w : complete d x (neighbors x) w -> between d w.
Proof.
  intros [H1 H2 H3 H4 H5]. constructor; try done. intros y dy Hy Hlt. destruct (H3 y dy Hy Hlt) as [?|Hf]; [by left|right].
  repeat case_bool_decide; by subst.
Qed.

Lemma pop_sound w q rest : wk_frontier w = q :: rest -> sound w -> sound (set_frontier rest w).
Proof.
  intros Ef [H1 H2 H3 H4 H5 H6 H7 H8]. constructor; try done. cbn. intros x d Hin. apply H3. rewrite Ef. by right.
Qed.

Lemma pop_complete d w x dx rest :
  sound w -> wk_frontier w = (x, dx) :: rest -> between d w ->
  complete dx x [] (set_frontier rest w) /\ (depth <= dx -> between dx (set_frontier rest w)).
Proof.
  intros Hs Ef [H1 [H2 H2'] H3 H4 H5]. rewrite Ef in H2, H2'. cbn [map] in H2'.
  inversion H2 as [|? ? Hd Hr]; subst. inversion H2' as [|? ? Hsr Hall]; subst. cbn [snd] in *.
  assert (Hx : at_depth w x dx) by (apply (s_frontier w Hs); rewrite Ef; by left).
  assert (Hq : Forall (fun q => dx <= snd q <= dx + 1) rest).
  { rewrite List.Forall_forall in *. intros q Hq. specialize (Hr q Hq). specialize (Hall (snd q) (in_map snd _ _ Hq)). lia. }
  assert (Hl : forall y dy, at_depth w y dy -> dy <= dx + 1) by (intros y dy Hy; specialize (H1 y dy Hy); lia).
  assert (Hdone : forall y dy, at_depth w y dy -> dy < depth -> In (y, dy) rest \/ x = y /\ dx = dy \/ Forall (closed w dy) (neighbors y)).
  { intros y dy Hy Hlt. destruct (H3 y dy Hy Hlt) as [Hin|Hf].
    - rewrite Ef in Hin. destruct Hin as [[= -> ->]|Hin]; [right; by left|by left].
    - right. right. case_bool_decide; by subst. }
  split.
  - constructor; try done. intros y dy Hy Hlt. destruct (Hdone y dy Hy Hlt) as [?|[[-> ->]|Hf]]; [by left|right|right].
    + rewrite bool_decide_eq_true_2 by done. constructor.
    + case_bool_decide; [constructor|done].
  - intros Hdeep. constructor; try done. intros y dy Hy Hlt. destruct (Hdone y dy Hy Hlt) as [?|[[-> ->]|Hf]]; [by left|lia|right].
    case_bool_decide; by subst.
Qed.

(** The loop ends within its fuel. *)
Lemma walk_run fuel d w :
  sound w -> (wk_truncated w = false -> between d w) ->
  len (wk_frontier w) + max_nodes - Z.of_nat (size (wk_nodes w)) <= Z.of_nat fuel ->
  exists w', walk neighbors depth max_nodes max_edges fuel w = Some w' /\ sound w' /\
    (wk_truncated w' = false -> wk_frontier w' = [] /\ exists d', between d' w').
Proof.
  revert d w. induction fuel as [|fuel IH]; intros d w Hs Hb Hm; cbn [walk]; destruct (wk_frontier w) as [|[x dx] rest] eqn:Ef.
  - exists w. split; [done|]. split; [done|]. intros Ht. split; [done|]. exists d. auto.
  - pose proof (s_size w Hs). unfold len in Hm. cbn [length] in Hm. lia.
  - exists w. split; [done|]. split; [done|]. intros Ht. split; [done|]. exists d. auto.
  - assert (Hx : at_depth (set_frontier rest w) x dx) by (apply (s_frontier w Hs); rewrite Ef; by left).
    pose proof (pop_sound w _ rest Ef Hs) as Hs1.
    assert (Hm1 : len (wk_frontier (set_frontier rest w)) + max_nodes - Z.of_nat (size (wk_nodes (set_frontier rest w))) <= Z.of_nat fuel)
      by (cbn; unfold len in *; cbn in Hm; lia).
    destruct (Z.leb_spec depth dx) as [Hdeep|Hlt].
    + apply (IH dx); [done| |done]. intros Ht. by apply (pop_complete d w x dx rest Hs Ef (Hb Ht)).
    + destruct (visits_run x dx (neighbors x) (set_frontier rest w) Hs1 (fun n H => H) Hx Hlt) as (Hs2 & Ht2 & Hm2 & Hc2).
      set (w2 := foldl _ _ _) in *. destruct (full max_nodes max_edges w2) eqn:Efull.
      * exists w2. split; [done|]. split; [done|]. intros Ht. unfold full in Efull. by rewrite Ht in Efull.
      * apply (IH dx); [done| |lia]. intros Ht. apply (between_cur dx x). apply (Hc2 []); [|done].
        apply (pop_complete d w x dx rest Hs Ef). by apply Hb, Ht2.
Qed.

Lemma start_sound : sound (start seed sha class).
Proof.
  constructor; cbn.
  - intros x. rewrite elem_of_singleton. split; [intros ->; rewrite lookup_singleton_eq; by eexists|]. intros [nd H].
    by apply lookup_singleton_Some in H as [<- _].
  - intros x nd [<- <-]%lookup_singleton_Some. cbn. split; [done|]. split; [exists 0%nat; split; [done|constructor]|]. split; [done|by left].
  - intros x d [[= <- <-]|[]]. eexists. cbn. by rewrite lookup_singleton_eq.
  - rewrite map_size_singleton. lia.
  - unfold len. cbn. lia.
  - done.
  - apply NoDup_nil_2.
  - done.
Qed.

Lemma start_between : between 0 (start seed sha class).
Proof.
  assert (Ha : forall x d, at_depth (start seed sha class) x d -> x = seed /\ d = 0).
  { intros x d (nd & E & <-). cbn in E. by apply lookup_singleton_Some in E as [<- <-]. }
  constructor.
  - intros x dx [_ ->]%Ha. lia.
  - cbn. split; repeat constructor; cbn; lia.
  - intros x dx [-> ->]%Ha _. left. by left.
  - cbn. set_solver.
  - eexists. cbn. by rewrite lookup_singleton_eq.
Qed.

(** With nothing left out, a walk of [k] edges ends in a node no deeper than [k]. *)
Lemma between_covers d w k x :
  between d w -> wk_frontier w = [] -> walks k x -> Z.of_nat k <= depth -> exists dx, at_depth w x dx /\ dx <= Z.of_nat k.
Proof.
  intros Hb Ef Hk. induction Hk as [|k x n Hk IH Hn]; intros Hle.
  - exists 0. split; [apply Hb|lia].
  - destruct IH as (dx & Hx & Hdx); [lia|]. destruct (c_done _ _ _ _ Hb x dx Hx) as [Hin|Hf]; [lia|by rewrite Ef in Hin|].
    assert (Hf' : Forall (closed w dx) (neighbors x)) by (case_bool_decide; by subst). rewrite List.Forall_forall in Hf'.
    destruct (Hf' n Hn) as [(dy & Hy & Hle') _]. exists dy. split; [done|lia].
Qed.

(** And every edge listed at a node above the last level is collected. *)
Lemma between_edges d w x dx n :
  between d w -> wk_frontier w = [] -> at_depth w x dx -> dx < depth -> In n (neighbors x) -> In (edge_key (fst n)) (map edge_key (wk_edges w)).
Proof.
  intros Hb Ef Hx Hlt Hn. destruct (c_done _ _ _ _ Hb x dx Hx Hlt) as [Hin|Hf]; [by rewrite Ef in Hin|].
  assert (Hf' : Forall (closed w dx) (neighbors x)) by (case_bool_decide; by subst). rewrite List.Forall_forall in Hf'.
  apply (c_seen _ _ _ _ Hb), Hf'. done.
Qed.
End walk_proofs.

(** ** The answer *)

Lemma page_spec offset limit edges :
  0 <= offset -> 0 <= limit -> offset + limit < 2 ^ 64 ->
  page_of offset limit edges = Ret (take (Z.to_nat limit) (drop (Z.to_nat offset) edges)).
Proof.
  intros Ho Hl Hs. unfold page_of, u64_wrap, wrap. rewrite Z.mod_small by lia. pose proof (len_nonneg edges) as Hn.
  destruct (Z.ltb_spec offset (len edges)) as [Hlt|Hge].
  - rewrite slice_some by lia. cbn. f_equal. destruct (Z.le_gt_cases (offset + limit) (len edges)).
    + rewrite Z.min_l by lia. f_equal. lia.
    + rewrite Z.min_r by lia. rewrite !take_ge; [done|..]; rewrite length_drop; unfold len in *; lia.
  - rewrite drop_ge by (unfold len in *; lia). by rewrite take_nil.
Qed.

(** An offset and a limit whose sum passes [usize] make the handler panic. *)
Example page_overflow : forall e, page_of 1 (2 ^ 64 - 1) [e; e] = Panic.
Proof. reflexivity. Qed.

Section answers.
  Context {SHA : Sha256} {HEX : HexCodec} {UD : UuidDisplay} {UP : UuidParse} {JT : JsonText}.

Lemma resolve_seed_reads tenant seed s : snd (resolve_seed tenant seed s) = s.
Proof.
  unfold resolve_seed. destruct (uuid_parse seed); [|destruct (hex_to_raw seed); [|done]]; unfold mbind, op_mbind;
    cbn [select_optional gets or_throw mret op_mret]; by destruct (head _).
Qed.

Lemma resolve_seed_total tenant seed s : fst (resolve_seed tenant seed s) <> Panic.
Proof.
  unfold resolve_seed. destruct (uuid_parse seed); [|destruct (hex_to_raw seed); [|done]]; unfold mbind, op_mbind;
    cbn [select_optional gets or_throw mret op_mret]; by destruct (head _).
Qed.

(** C16. The neighborhood query reads only, and never panics on an offset and a
    limit whose sum is a [usize].  Its nodes are distinct, no more than asked for
    and than 256, and each is at its depth a walk of that many edges from the
    seed, at most the depth asked for and 4, with the digest and class of its
    artifact; the edges are a page of a list of distinct edges, no more than asked
    for and than 1024, each listed at a node above the last level.  Unless the
    answer says it was truncated nothing is missing: every artifact a walk of at
    most that many edges reaches is a node no deeper than the walk is long, so a
    node's depth is its distance from the seed, and every edge listed at a node
    above the last level is in the list.  It fails only for a seed that does not
    resolve or an answer over 512 KiB. *)
Theorem query_spec tenant q s :
  0 <= nq_max_depth q -> 0 <= nq_offset q -> 0 <= nq_limit q -> nq_offset q + nq_limit q < 2 ^ 64 ->
  let depth := Z.min (nq_max_depth q) MAX_DEPTH in
  let nb := load_neighbors q (default MODEL_VERSION (nq_model_version q)) tenant s in
  snd (query tenant q s) = s /\
  match fst (query tenant q s) with
  | Ret r => exists sha class all,
      let seed := nr_seed_artifact r in
      fst (resolve_seed tenant (nq_seed q) s) = Ret (seed, sha, class) /\
      NoDup (map nn_artifact_id (nr_nodes r)) /\ len (nr_nodes r) <= clamp 1 MAX_NODES (nq_max_nodes q) /\
      Forall (fun nd => labelled nb seed sha class nd /\ nn_depth nd <= depth /\
        exists k, nn_depth nd = Z.of_nat k /\ walks nb seed k (nn_artifact_id nd)) (nr_nodes r) /\
      NoDup (map edge_key all) /\ len all <= clamp 1 MAX_EDGES (nq_max_edges q) /\
      nr_edges r = take (Z.to_nat (nq_limit q)) (drop (Z.to_nat (nq_offset q)) all) /\
      (forall e, In e all -> exists nd n, In nd (nr_nodes r) /\ nn_depth nd < depth /\ In n (nb (nn_artifact_id nd)) /\ fst n = e) /\
      (nr_truncated r = false ->
        (forall k x, walks nb seed k x -> Z.of_nat k <= depth ->
           exists nd, In nd (nr_nodes r) /\ nn_artifact_id nd = x /\ nn_depth nd <= Z.of_nat k) /\
        (forall nd n, In nd (nr_nodes r) -> nn_depth nd < depth -> In n (nb (nn_artifact_id nd)) ->
           In (edge_key (fst n)) (map edge_key all)))
  | Fail e => e = too_large \/ fst (resolve_seed tenant (nq_seed q) s) = Fail e
  | Panic => False
  end.
Proof.
  intros Hd Ho Hl Hov depth nb. set (mn := clamp 1 MAX_NODES (nq_max_nodes q)). set (me := clamp 1 MAX_EDGES (nq_max_edges q)).
  assert (Hdepth : 0 <= depth) by (unfold depth, MAX_DEPTH; lia). assert (Hmn : 1 <= mn) by (unfold mn, clamp; lia).
  assert (Hme : 1 <= me) by (unfold me, clamp; lia).
  pose proof (resolve_seed_reads tenant (nq_seed q) s) as Hr. pose proof (resolve_seed_total tenant (nq_seed q) s) as Hp.
  unfold query. fold depth mn me. destruct (resolve_seed tenant (nq_seed q) s) as [[[[seed sha] class]|e|] s0] eqn:Es.
  2: { rewrite (bind_fail _ _ _ _ _ Es). cbn in Hr |- *. subst s0. split; [done|by right]. }
  2: { by destruct Hp. }
  cbn [snd] in Hr. subst s0. rewrite (bind_run _ _ _ _ _ Es). cbv beta iota.
  destruct (walk_run nb depth mn me seed sha class Hdepth Hmn Hme (Z.to_nat mn) 0 (start seed sha class)) as (w & Ew & Hs & Hc).
  { by apply start_sound. }
  { intros _. by eapply start_between. }
  { cbn. unfold len. cbn. rewrite map_size_singleton. lia. }
  set (nodes := sort_by node_le (map snd (map_to_list (wk_nodes w)))). set (all := sort_by edge_le (wk_edges w)).
  assert (Hnodes : forall nd, In nd nodes <-> wk_nodes w !! nn_artifact_id nd = Some nd).
  { intros nd. unfold nodes. rewrite sort_by_in, in_map_iff. split.
    - intros ([x nd'] & <- & Hin). apply list_elem_of_In, elem_of_map_to_list in Hin. cbn. by rewrite (proj1 (s_node _ _ _ _ _ _ _ _ Hs x nd' Hin)).
    - intros E. exists (nn_artifact_id nd, nd). split; [done|]. by apply list_elem_of_In, elem_of_map_to_list. }
  assert (Hat : forall x d, at_depth w x d -> exists nd, In nd nodes /\ nn_artifact_id nd = x /\ nn_depth nd = d).
  { intros x d (nd & E & Ed). destruct (s_node _ _ _ _ _ _ _ _ Hs x nd E) as [Eid _]. exists nd. rewrite Hnodes, Eid. done. }
  erewrite bind_run; [|reflexivity]. fold nb. rewrite Ew. erewrite bind_run; [|reflexivity].
  fold nodes all. cbv zeta. rewrite page_spec by done. erewrite bind_run; [|reflexivity].
  destruct (MAX_RESPONSE_BYTES <? _); [cbn; split; [done|by left]|]. cbn [fst snd mret op_mret nr_seed_artifact nr_nodes nr_edges nr_truncated].
  split; [done|]. exists sha, class, all. split; [done|].
  split; [|split; [|split; [|split; [|split; [|split; [done|split]]]]]].
  - unfold nodes. rewrite (sort_by_perm node_le). rewrite map_map.
    rewrite (map_ext_in _ fst); [apply NoDup_fst_map_to_list|].
    intros [x nd] Hin. apply list_elem_of_In, elem_of_map_to_list in Hin. cbn. by apply (s_node _ _ _ _ _ _ _ _ Hs).
  - unfold len, nodes. rewrite sort_by_length, length_map, length_map_to_list. apply (s_size _ _ _ _ _ _ _ _ Hs).
  - apply List.Forall_forall. intros nd Hnd%Hnodes. destruct (s_node _ _ _ _ _ _ _ _ Hs _ nd Hnd) as (_ & Hk & Hle & Hlab). done.
  - unfold all. rewrite (sort_by_perm edge_le). by apply (s_keys _ _ _ _ _ _ _ _ Hs).
  - unfold len, all. rewrite sort_by_length. apply (s_edges _ _ _ _ _ _ _ _ Hs).
  - intros e He. apply sort_by_in in He. destruct (s_edge _ _ _ _ _ _ _ _ Hs e He) as (x & n & d & Hn & En & Hx & Hlt).
    destruct (Hat x d Hx) as (nd & Hin & <- & <-). by exists nd, n.
  - intros Ht. destruct (Hc Ht) as [Ef [d' Hb]]. split.
    + intros k x Hk Hle. destruct (between_covers _ _ _ d' w k x Hb Ef Hk Hle) as (dx & Hx & Hdx).
      destruct (Hat x dx Hx) as (nd & Hin & Ei & Ed). exists nd. by rewrite Ed.
    + intros nd n Hin Hlt Hn. apply Hnodes in Hin.
      assert (Hk : In (edge_key (fst n)) (map edge_key (wk_edges w))) by (eapply (between_edges _ _ _ d' w _ _ n Hb Ef); [by exists nd|done|done]).
      eapply Permutation_in; [|exact Hk]. apply Permutation_map. symmetry. apply sort_by_perm.
Qed.

(** *** Tenants *)

Lemma filter_andb {A} (p r : A -> bool) l : List.filter (fun x => p x && r x) l = List.filter r (List.filter p l).
Proof. induction l as [|x l IH]; [done|]. cbn [List.filter]. destruct (p x); cbn [List.filter andb]; by rewrite IH. Qed.

Definition tenant_artifacts (tenant : Uuid) (s : Srv) : list Artifact := List.filter (fun a => bool_decide (art_tenant a = tenant)) (rows TArtifact s).
Definition tenant_edges (tenant : Uuid) (s : Srv) : list SimEdge := List.filter (fun e => bool_decide (se_tenant e = tenant)) (rows TEdge s).

Lemma artifact_row_filter tenant id l :
  List.filter (artifact_row tenant id) l = List.filter (fun a => bool_decide (art_id a = id)) (List.filter (fun a => bool_decide (art_tenant a = tenant)) l).
Proof. apply filter_andb. Qed.

Lemma load_neighbors_scoped q model tenant s s' x :
  tenant_artifacts tenant s = tenant_artifacts tenant s' -> tenant_edges tenant s = tenant_edges tenant s' ->
  load_neighbors q model tenant s x = load_neighbors q model tenant s' x.
Proof.
  intros Ha He. unfold load_neighbors, join_neighbors.
  assert (E : List.filter (edge_row tenant x model (nq_min_score q)) (rows TEdge s) = List.filter (edge_row tenant x model (nq_min_score q)) (rows TEdge s')).
  { assert (Ef : forall l, List.filter (edge_row tenant x model (nq_min_score q)) l =
      List.filter (fun e => (bool_decide (se_src e = x) || bool_decide (se_dst e = x)) && String.eqb (se_model_version e) model &&
        f64_ge (se_score e) (nq_min_score q)) (List.filter (fun e => bool_decide (se_tenant e = tenant)) l)).
    { intros l. rewrite <- filter_andb. apply List.filter_ext. intros e. unfold edge_row. by rewrite !andb_assoc. }
    rewrite !Ef. unfold tenant_edges in He. by rewrite He. }
  rewrite E. apply flat_map_ext. intros e. unfold tenant_artifacts in Ha. by rewrite !artifact_row_filter, Ha.
Qed.

Lemma walk_ext nb nb' depth mn me fuel w : (forall x, nb x = nb' x) -> walk nb depth mn me fuel w = walk nb' depth mn me fuel w.
Proof.
  intros E. revert w. induction fuel as [|fuel IH]; intros w; cbn [walk]; destruct (wk_frontier w) as [|[x d] rest]; try done.
  rewrite E, IH. destruct (_ <=? _); [done|]. destruct (full _ _ _); [done|]. apply IH.
Qed.

Lemma resolve_seed_scoped tenant seed s s' :
  tenant_artifacts tenant s = tenant_artifacts tenant s' -> fst (resolve_seed tenant seed s) = fst (resolve_seed tenant seed s').
Proof.
  intros Ha. unfold tenant_artifacts in Ha. unfold resolve_seed.
  destruct (uuid_parse seed) as [id|]; [|destruct (hex_to_raw seed) as [raw|]; [|done]]; unfold mbind, op_mbind;
    cbn [select_optional gets or_throw mret op_mret].
  - change (row TArtifact) with Artifact. rewrite !artifact_row_filter, Ha. by destruct (head _).
  - change (row TArtifact) with Artifact. rewrite !filter_andb, Ha. by destruct (head _).
Qed.

(** The answer depends on the tenant's own artifacts and edges only: whatever
    other tenants store, it is the same. *)
Theorem query_tenant_scoped tenant q s s' :
  tenant_artifacts tenant s = tenant_artifacts tenant s' -> tenant_edges tenant s = tenant_edges tenant s' ->
  fst (query tenant q s) = fst (query tenant q s').
Proof.
  intros Ha He. pose proof (resolve_seed_scoped tenant (nq_seed q) s s' Ha) as Hr. unfold query.
  destruct (resolve_seed tenant (nq_seed q) s) as [[seed|e|] s1] eqn:E1, (resolve_seed tenant (nq_seed q) s') as [[seed'|e'|] s1'] eqn:E2; try done.
  2: { rewrite (bind_fail _ _ _ _ _ E1), (bind_fail _ _ _ _ _ E2). by injection Hr as ->. }
  2: { unfold mbind, op_mbind. by rewrite E1, E2. }
  cbn in Hr. injection Hr as <-. rewrite (bind_run _ _ _ _ _ E1), (bind_run _ _ _ _ _ E2). destruct seed as [[id sha] class].
  pose proof (resolve_seed_reads tenant (nq_seed q) s) as R1. pose proof (resolve_seed_reads tenant (nq_seed q) s') as R2.
  rewrite E1 in R1. rewrite E2 in R2. cbn in R1, R2. subst s1 s1'.
  set (nb := load_neighbors q _ tenant). rewrite (bind_run (gets nb) _ s (nb s) s eq_refl), (bind_run (gets nb) _ s' (nb s') s' eq_refl). subst nb.
  rewrite (walk_ext (load_neighbors q _ tenant s) (load_neighbors q (default MODEL_VERSION (nq_model_version q)) tenant s'))
    by (intros x; by apply load_neighbors_scoped).
  unfold mbind, op_mbind, lift_outcome, or_panic. destruct (walk _ _ _ _ _ _) as [w|]; [|done].
  destruct (page_of _ _ _); [|done..]. by destruct (_ <? _).
Qed.
End answers.

(** ** Witnesses *)

Section witnesses.
Local Existing Instance ReferenceHash.sha.
Local Existing Instance ReferenceHash.hex.
Local Existing Instance ReferenceUuid.display.
Local Instance no_parse : UuidParse := fun s => if String.eqb s "a1" then Some 1%N else None.
Local Instance json_text : JsonText := fun _ => ""%string.

Definition node_row (tenant id : Uuid) : Artifact :=
  mkArtifact id tenant (Z.of_N id) (repeat (byte_of_Z (Z.of_N id)) 32) 10 "pe" "committed" "" 0 "endpoint" (JObj []).
Definition link (tenant src dst : Uuid) (edge_type : string) (score : Z) : SimEdge :=
  mkSimEdge tenant src dst edge_type MODEL_VERSION (f64_of_Z score) (JObj [("tau", JInt 3); ("blob", JStr "x")]%string) 0.

(** 1 - 2 - 3 - 4 with a shortcut 1 - 3, and another tenant's edge. *)
Definition graph : Srv :=
  set_rows TEdge [link 7 1 2 "exact_copy" 1; link 7 2 3 "byte_similar" 50; link 7 3 4 "exact_copy" 1; link 7 3 1 "semantic_variant_weak" 1;
                  link 8 1 5 "exact_copy" 1]%N
    (set_rows TArtifact [node_row 7 1; node_row 7 2; node_row 7 3; node_row 7 4; node_row 8 5]%N ReferenceServer.empty).
Definition ask (depth nodes : Z) : NeighborhoodQuery := mkNeighborhoodQuery "a1" [] None (f64_of_Z 0) depth nodes 100 0 50 true.

Definition summary (o : outcome NeighborhoodResponse) : option (list (Uuid * Z) * list (Uuid * Uuid) * bool) :=
  match o with
  | Ret r => Some (map (fun n => (nn_artifact_id n, nn_depth n)) (nr_nodes r),
                   map (fun e => (ne_src_artifact e, ne_dst_artifact e)) (nr_edges r), nr_truncated r)
  | _ => None
  end.

Example two_levels : summary (fst (query 7%N (ask 2 100) graph)) =
  Some ([(1%N, 0); (2%N, 1); (3%N, 1); (4%N, 2)], [(2, 3); (1, 2); (3, 4); (3, 1)]%N, false).
Proof. vm_compute. reflexivity. Qed.

Example two_nodes : summary (fst (query 7%N (ask 2 2) graph)) = Some ([(1%N, 0); (2%N, 1)], [(2, 3); (1, 2); (3, 1)]%N, true).
Proof. vm_compute. reflexivity. Qed.

Lemma query_spec_witness :
  exists r, fst (query 7%N (ask 2 100) graph) = Ret r /\ nr_truncated r = false /\ (len (nr_nodes r) <= 100).
Proof.
  pose proof (query_spec 7%N (ask 2 100) graph ltac:(done) ltac:(done) ltac:(done) ltac:(done)) as H. cbv zeta in H. destruct H as [_ H].
  assert (Es : exists r, fst (query 7%N (ask 2 100) graph) = Ret r /\ nr_truncated r = false).
  { destruct (fst (query 7%N (ask 2 100) graph)) as [r|e|] eqn:E; [|by vm_compute in E..]. exists r. split; [done|].
    assert (T : (fun o => match o with Ret r => nr_truncated r | _ => true end) (fst (query 7%N (ask 2 100) graph)) = false) by (vm_compute; reflexivity).
    rewrite E in T. exact T. }
  destruct Es as (r & E & Ht). rewrite E in H. exists r. split; [exact E|]. split; [exact Ht|].
  destruct H as (sha & class & all & _ & _ & Hl & _). exact Hl.
Defined.

Lemma query_tenant_scoped_witness :
  fst (query 7%N (ask 2 100) graph) = fst (query 7%N (ask 2 100) (set_rows TEdge (take 4 (rows TEdge graph)) graph)).
Proof. apply query_tenant_scoped; vm_compute; reflexivity. Defined.
End witnesses.
