(* ===== verification/Intel.v ===== *)
(** * Intel: indicators, hash hunts and continuous re-analysis
    ([corpus-core/src/intel.rs], [continuous.rs])

    The indicator store, the exact-hash lookup over the endpoint corpus, the
    extraction of hash indicators from STIX bundles, and what new intelligence
    sets off: a retro-hunt when a bundle is activated, detections when a listed
    hash is in the corpus. *)

From S2P Require Import Prelude Machine Text Hash Cas Schema Scan Rules Triggers Hunts.
From Stdlib Require Import Strings.Byte Strings.Ascii Sorting.Permutation Sorting.Sorted.

Open Scope Z_scope.

(** ** intel.rs *)

Record Indicator := mkIndicator { in_ioc_type : string; in_value : string; in_raw : Json }.

Definition indicator_key (r : IntelIndicator) : Uuid * string * string * string := (ii_tenant r, ii_source r, ii_ioc_type r, ii_value r).

(** [DO UPDATE SET last_seen = EXCLUDED.last_seen, raw = EXCLUDED.raw] *)
Definition seen_again (t : Time) (raw : Json) (r : IntelIndicator) : IntelIndicator :=
  mkIntelIndicator (ii_id r) (ii_tenant r) (ii_source r) (ii_ioc_type r) (ii_value r) raw (ii_first_seen r) t.

(** One indicator; the rows affected.  [to_lowercase] is that of ASCII, which
    hashes, domains and encoded URLs are. *)
Definition upsert_indicator (tenant : Uuid) (source : string) (n : Z) (i : Indicator) : Op Srv Z :=
  id ← new_v4;
  t ← now;
  upsert TIndicator indicator_key (mkIntelIndicator id tenant source (in_ioc_type i) (str_lower (in_value i)) (in_raw i) t t)
    (seen_again t (in_raw i)) ;;
  mret (n + 1).

Definition upsert_indicators (tenant : Uuid) (source : string) (indicators : list Indicator) : Op Srv Z :=
  op_fold indicators 0 (upsert_indicator tenant source).

Record HashHuntHit := mkHashHuntHit { hh_value : string; hh_artifact_id : Uuid; hh_artifact_sha256 : string; hh_first_committed_at : Time }.

(** [tenant_id = $1 AND sha256 = $2 AND scope = 'endpoint' AND storage_state = 'committed'] *)
Definition on_endpoint (tenant : Uuid) (raw : bytes) (a : Artifact) : bool :=
  bool_decide (art_tenant a = tenant) && bool_decide (art_sha256 a = raw) && String.eqb (art_scope a) "endpoint" &&
  String.eqb (art_storage_state a) "committed".

(** *** Hash tokens of a STIX pattern *)

Definition hash_type (n : nat) : option string :=
  if Nat.eqb n 64 then Some "sha256"%string else if Nat.eqb n 40 then Some "sha1"%string
  else if Nat.eqb n 32 then Some "md5"%string else None.

(** [cur] is taken when it has the length of a hash and only hexadecimal digits. *)
Definition take_token (cur : string) : list (string * string) :=
  match hash_type (String.length cur) with
  | Some t => if str_all is_ascii_hexdigit cur then [(t, cur)] else []
  | None => []
  end.

Fixpoint scan_from (cur pattern : string) : list (string * string) :=
  match pattern with
  | EmptyString => take_token cur
  | String c pattern' =>
      if is_ascii_hexdigit c then scan_from (cur +:+ String c "") pattern' else take_token cur ++ scan_from "" pattern'
  end.

Definition scan_hash_tokens (pattern : string) : list (string * string) := scan_from "" pattern.

Definition stix_indicators (obj : Json) : list Indicator :=
  match json_get_str "type" obj with
  | Some ty =>
      if negb (String.eqb ty "indicator") then []
      else
        match json_get_str "pattern" obj with
        | None => []
        | Some pattern =>
            map (fun tv => mkIndicator (fst tv) (str_lower (snd tv))
              (JObj [("stix_id", match json_get_str "id" obj with Some i => JStr i | None => JNull end); ("pattern", JStr pattern)]%string))
              (scan_hash_tokens pattern)
        end
  | None => []
  end.

Definition extract_hash_iocs (bundle : Json) : list Indicator :=
  match o ← json_get "objects" bundle; json_arr o with
  | None => []
  | Some objects => flat_map stix_indicators objects
  end.

Section intel.
  Context {YX : YaraX} {SH : ScannerHost} {SHA : Sha256} {HEX : HexCodec} {UD : UuidDisplay}.

Definition invalid_sha256 (h : string) : Error := BadRequest ("invalid sha256 hex: " +:+ debug_str h).

Definition hits_of (tenant : Uuid) (arts : list Artifact) (h : string) (raw : bytes) : list HashHuntHit :=
  map (fun a => mkHashHuntHit h (art_id a) (hex_encode (art_sha256 a)) (art_first_committed_at a)) (List.filter (on_endpoint tenant raw) arts).

Definition hash_hunt (tenant : Uuid) (hashes : list string) : Op Srv (list HashHuntHit) :=
  op_fold hashes [] (fun hits h =>
    raw ← or_throw (invalid_sha256 h) (hex_to_raw h);
    arts ← gets (rows TArtifact);
    mret (hits ++ hits_of tenant arts h raw)).

(** ** continuous.rs *)

(** On unless set to a word for off. *)
Definition env_flag_default_on (v : option string) : bool :=
  match v with
  | Some v =>
      let v := str_lower v in
      negb (String.eqb v "0" || String.eqb v "false" || String.eqb v "off" || String.eqb v "no")
  | None => true
  end.

Definition insert_record (tenant : Uuid) (trigger_kind : string) (trigger_ref : option string) (hunt_id : option Uuid) (st : string)
    (detail : Json) : Op Srv Uuid :=
  id ← new_v4;
  t ← now;
  insert_unique TReanalysis re_id (mkReanalysis id tenant trigger_kind trigger_ref hunt_id st detail t) ;;
  mret id.

Definition open_states : list string := ["QUEUED"; "RUNNING"; "VALIDATING"; "PLANNED"; "DRAFT"]%string.

Definition open_retro (tenant : Uuid) (digest : string) (h : Hunt) : bool :=
  bool_decide (hu_tenant h = tenant) && String.eqb (hu_kind h) "retro" && String.eqb (hu_bundle_digest h) digest &&
  existsb (String.eqb (hu_state h)) open_states.

Definition newest (a b : Hunt) : bool := hu_created_at b <=? hu_created_at a.

(** [auto]: what [auto_retro_on_activate] answers. *)
Definition on_bundle_activated (auto : bool) (tenant : Uuid) (digest : string) : Op Srv (option Hunt) :=
  if negb auto then mret None
  else
    existing ← gets (fun s => head (sort_by newest (List.filter (open_retro tenant digest) (rows THunt s))));
    match existing with
    | Some e =>
        h ← get_hunt tenant (hu_id e);
        (if String.eqb (hu_state h) "DRAFT" then enqueue_hunt tenant (hu_id e) ;; mret tt else mret tt) ;;
        insert_record tenant "bundle_activate" (Some digest) (Some (hu_id e)) "reused" (JObj [("note", JStr "existing open hunt")]%string) ;;
        h ← get_hunt tenant (hu_id e);
        mret (Some h)
    | None =>
        created ← create_hunt tenant digest;
        h ← enqueue_hunt tenant (hu_id created);
        insert_record tenant "bundle_activate" (Some digest) (Some (hu_id h)) "enqueued" (JObj []) ;;
        mret (Some h)
    end.

Record HashIntelResult := mkHashIntelResult { hr_hits : Z; hr_detections : Z; hr_hunt_ids : list Uuid }.

(** One hit: a detection, and a webhook whose failure is ignored. *)
Definition report_hit (tenant : Uuid) (source : string) (n : Z) (h : HashHuntHit) : Op Srv Z :=
  record_detection tenant (hh_artifact_id h)
    (mkDetectionInput "hash_intel" "high" ("Exact-hash intel match (" +:+ (source +:+ ")"))
      (JObj [("ioc_value", JStr (hh_value h)); ("source", JStr source); ("artifact_sha256", JStr (hh_artifact_sha256 h))]%string) []) ;;
  attempt (fire tenant CONDITION_HUNT_MATCH
    (JObj [("type", JStr "hash_intel_match"); ("source", JStr source); ("artifact_id", JStr (uuid_to_string (hh_artifact_id h)));
           ("sha256", JStr (hh_artifact_sha256 h)); ("ioc", JStr (hh_value h))]%string)) ;;
  mret (n + 1).

Definition on_hash_indicators (auto : bool) (tenant : Uuid) (source : string) (hashes : list string) : Op Srv HashIntelResult :=
  if negb auto || match hashes with [] => true | _ => false end then mret (mkHashIntelResult 0 0 [])
  else
    hits ← hash_hunt tenant hashes;
    detections ← op_fold hits 0 (report_hit tenant source);
    insert_record tenant "hash_intel" (Some source) None (match hits with [] => "no_hits" | _ => "hits" end)
      (JObj [("hashes", JInt (len hashes)); ("hits", JInt (len hits)); ("detections", JInt detections)]%string) ;;
    mret (mkHashIntelResult (len hits) detections []).

Definition recent_first (a b : Reanalysis) : bool := re_created_at b <=? re_created_at a.

Definition list_recent (tenant : Uuid) (limit : Z) : Op Srv (list Reanalysis) :=
  if limit <? 0 then throw (Db "LIMIT must not be negative")
  else gets (fun s => take (Z.to_nat limit) (sort_by recent_first (List.filter (fun r => bool_decide (re_tenant r = tenant)) (rows TReanalysis s)))).
End intel.

(** ** Hash tokens are the maximal runs of hexadecimal digits *)

(** The string before a run is empty or ends outside the digits, the one after
    it is empty or starts outside. *)
Fixpoint open_left (a : string) : bool :=
  match a with
  | EmptyString => true
  | String c EmptyString => negb (is_ascii_hexdigit c)
  | String _ a' => open_left a'
  end.

Definition open_right (b : string) : bool := match b with EmptyString => true | String c _ => negb (is_ascii_hexdigit c) end.

Definition hex_run (v p : string) : Prop :=
  exists a b, p = a +:+ (v +:+ b) /\ str_all is_ascii_hexdigit v = true /\ open_left a = true /\ open_right b = true.

(** Two runs that start together are the same. *)
Lemma same_run v b cur r :
  str_all is_ascii_hexdigit v = true -> str_all is_ascii_hexdigit cur = true -> open_right b = true -> open_right r = true ->
  v +:+ b = cur +:+ r -> v = cur.
Proof.
  revert cur. induction v as [|x v IH]; intros [|y cur] Hv Hc Hb Hr E; cbn in *; [done| | |].
  - subst b. cbn in Hb. apply andb_true_iff in Hc as [Hy _]. by rewrite Hy in Hb.
  - subst r. cbn in Hr. apply andb_true_iff in Hv as [Hx _]. by rewrite Hx in Hr.
  - injection E as -> E. apply andb_true_iff in Hv as [_ Hv], Hc as [_ Hc]. f_equal. by apply IH.
Qed.

(** A run of [cur c p'], where [cur] is hexadecimal and [c] is not, is [cur] or a run of [p']. *)
Lemma hex_run_cut v cur c p' :
  v <> ""%string -> str_all is_ascii_hexdigit cur = true -> is_ascii_hexdigit c = false ->
  hex_run v (cur +:+ String c p') <-> v = cur \/ hex_run v p'.
Proof.
  intros Hne Hcur Hc. split.
  - intros (a & b & E & Hv & Ha & Hb). destruct a as [|x a].
    { left. cbn in E. symmetry in E. eapply same_run; [exact Hv|exact Hcur|exact Hb| |exact E]. cbn. by rewrite Hc. }
    right. revert x a Ha E. induction cur as [|y cur IH]; intros x a Ha E.
    + cbn in E. injection E as -> E. exists a, b. split; [done|]. split; [done|]. split; [|done]. by destruct a.
    + cbn in E, Hcur. apply andb_true_iff in Hcur as [Hy Hcur]. injection E as -> E. destruct a as [|x' a].
      * cbn in Ha. by rewrite Hy in Ha.
      * by apply (IH Hcur x' a).
  - intros [->|(a & b & -> & Hv & Ha & Hb)].
    + exists ""%string, (String c p'). split; [done|]. split; [done|]. split; [done|]. cbn. by rewrite Hc.
    + exists (cur +:+ String c a), b. split.
      { change (String c (a +:+ (v +:+ b))) with (String c a +:+ (v +:+ b)). by rewrite string_app_assoc. }
      split; [done|]. split; [|done]. clear -Hc Ha. induction cur as [|y cur IH].
      * cbn. destruct a; [by rewrite Hc|done].
      * cbn [String.append]. cbn [open_left]. change (String y (cur +:+ String c a)) with (String y (cur +:+ String c a)).
        destruct (cur +:+ String c a) eqn:E; [by destruct cur|done].
Qed.

Lemma hex_run_end v cur : v <> ""%string -> str_all is_ascii_hexdigit cur = true -> hex_run v cur <-> v = cur.
Proof.
  intros Hne Hcur. split.
  - intros (a & b & -> & Hv & Ha & Hb).
    assert (Hab : a = ""%string /\ b = ""%string).
    { assert (Happ : forall x y, str_all is_ascii_hexdigit (x +:+ y) = str_all is_ascii_hexdigit x && str_all is_ascii_hexdigit y)
        by (induction x as [|? x IHx]; intros y; cbn; [done|]; by rewrite IHx, andb_assoc).
      rewrite !Happ in Hcur. apply andb_true_iff in Hcur as [H1 [_ H2]%andb_true_iff]. split.
      - clear -Ha H1. induction a as [|x a IH]; [done|]. cbn in H1. apply andb_true_iff in H1 as [Hx H1]. cbn in Ha.
        destruct a; [by rewrite Hx in Ha|]. by specialize (IH H1 Ha).
      - destruct b; [done|]. cbn in *. apply andb_true_iff in H2 as [Hx _]. by rewrite Hx in Hb. }
    destruct Hab as [-> ->]. by rewrite string_app_nil_r.
  - intros ->. exists ""%string, ""%string. split; [by rewrite string_app_nil_r|done].
Qed.

Lemma hash_type_nonempty v t : hash_type (String.length v) = Some t -> v <> ""%string.
Proof. by intros H ->. Qed.

Lemma take_token_in cur t v : str_all is_ascii_hexdigit cur = true ->
  In (t, v) (take_token cur) <-> v = cur /\ hash_type (String.length v) = Some t.
Proof.
  intros Hc. unfold take_token. destruct (hash_type (String.length cur)) as [t'|] eqn:Et.
  - rewrite Hc. split; [intros [[= <- <-]|[]]; done|]. intros [-> H]. left. congruence.
  - split; [done|]. intros [-> H]. congruence.
Qed.

(** What the STIX scanner takes from a pattern is exactly its maximal runs of
    hexadecimal digits of 64, 40 or 32 characters, as SHA-256, SHA-1 and MD5. *)
Theorem scan_hash_tokens_spec pattern t v :
  In (t, v) (scan_hash_tokens pattern) <-> hash_type (String.length v) = Some t /\ hex_run v pattern.
Proof.
  assert (H : forall p cur, str_all is_ascii_hexdigit cur = true ->
    In (t, v) (scan_from cur p) <-> hash_type (String.length v) = Some t /\ hex_run v (cur +:+ p)).
  { induction p as [|c p IH]; intros cur Hcur; cbn [scan_from].
    - rewrite take_token_in, string_app_nil_r by done. split; intros [H1 H2].
      + subst. split; [done|]. apply hex_run_end; [by eapply hash_type_nonempty|done|done].
      + apply hex_run_end in H2; [done|by eapply hash_type_nonempty|done].
    - destruct (is_ascii_hexdigit c) eqn:Ec.
      + rewrite IH; [by rewrite string_app_assoc|]. clear -Hcur Ec. induction cur as [|y cur IHc]; cbn in *; [by rewrite Ec|].
        apply andb_true_iff in Hcur as [Hy Hcur]. by rewrite Hy, IHc.
      + rewrite in_app_iff, take_token_in, IH by done. split.
        * intros [[-> H]|[H1 H2]]; (split; [done|]); (apply hex_run_cut; [by eapply hash_type_nonempty|done|done|]); [by left|by right].
        * intros [H1 H2]. apply hex_run_cut in H2 as [->|H2]; [by left|by right|by eapply hash_type_nonempty|done|done]. }
  unfold scan_hash_tokens. by apply H.
Qed.

(** ** Activation sets off one retro-hunt *)

Section activation.
  Context {YX : YaraX} {SH : ScannerHost} {SHA : Sha256} {HEX : HexCodec} {UD : UuidDisplay}.

Definition duplicate_key : Error := Db "duplicate key value violates unique constraint".

(** The open hunt an activation reuses. *)
Definition reused (tenant : Uuid) (digest : string) (l : list Hunt) : option Hunt := head (sort_by newest (List.filter (open_retro tenant digest) l)).

Lemma insert_record_run tenant kind ref hunt st detail s :
  match insert_record tenant kind ref hunt st detail s with
  | (Ret _, s') => forall t, t <> TReanalysis -> rows t s' = rows t s
  | (Fail e, s') => e = duplicate_key /\ forall t, t <> TReanalysis -> rows t s' = rows t s
  | (Panic, _) => False
  end.
Proof.
  unfold insert_record. erewrite bind_run; [|reflexivity]. erewrite bind_run; [|reflexivity].
  unfold insert_unique, insert_on_conflict, mbind, op_mbind. destruct (existsb _ _); cbn; [done|].
  intros t Ht. etransitivity; [apply rows_set_rows_ne; congruence|done].
Qed.

Lemma reused_open tenant digest l h : reused tenant digest l = Some h -> In h l /\ open_retro tenant digest h = true.
Proof.
  intros E. assert (Hin : In h (sort_by newest (List.filter (open_retro tenant digest) l)))
    by (unfold reused in E; destruct (sort_by _ _); simplify_eq/=; by left).
  apply sort_by_in, filter_In in Hin. exact Hin.
Qed.

(** Sorting by a key commutes with a change that keeps the keys. *)
Lemma sort_by_map {A} (le : A -> A -> bool) f l : (forall x y, le (f x) (f y) = le x y) -> sort_by le (map f l) = map f (sort_by le l).
Proof.
  intros Hf. assert (Hi : forall x k, insert_by le (f x) (map f k) = map f (insert_by le x k)).
  { intros x k. induction k as [|y k IH]; [done|]. cbn. rewrite Hf. destruct (le x y); [done|]. cbn. by rewrite IH. }
  unfold sort_by. induction l as [|x l IH]; [done|]. cbn. by rewrite IH, Hi.
Qed.

Lemma filter_map_keep {A} (p : A -> bool) f l : (forall x, p (f x) = p x) -> List.filter p (map f l) = map f (List.filter p l).
Proof. intros Hp. induction l as [|x l IH]; [done|]. cbn. rewrite Hp. destruct (p x); cbn; by rewrite IH. Qed.

Lemma reused_map tenant digest f l :
  (forall x, In x l -> open_retro tenant digest (f x) = open_retro tenant digest x) -> (forall x, hu_created_at (f x) = hu_created_at x) ->
  reused tenant digest (map f l) = f <$> reused tenant digest l.
Proof.
  intros Hp Hc. unfold reused.
  assert (E : List.filter (open_retro tenant digest) (map f l) = map f (List.filter (open_retro tenant digest) l)).
  { clear Hc. induction l as [|x l IH]; [done|]. cbn. rewrite Hp by by left. destruct (open_retro tenant digest x); cbn; rewrite IH; try done; intros y Hy; apply Hp; by right. }
  rewrite E, sort_by_map; [by destruct (sort_by _ _)|]. intros x y. unfold newest. by rewrite !Hc.
Qed.

Lemma reused_app tenant digest (l : list Hunt) h : reused tenant digest l = None -> open_retro tenant digest h = true -> reused tenant digest (l ++ [h]) = Some h.
Proof.
  unfold reused. intros Er Ho. rewrite List.filter_app. cbn [List.filter]. rewrite Ho.
  destruct (List.filter (open_retro tenant digest) l) as [|x k] eqn:Ef; [done|].
  assert (Hl : length (sort_by newest (x :: k)) = S (length k)) by by rewrite sort_by_length. by destruct (sort_by newest (x :: k)).
Qed.

(** Queueing an open hunt leaves it open. *)
Definition queue_hunt (tenant hunt_id : Uuid) (w n : Z) (x : Hunt) : Hunt :=
  if hunt_is tenant hunt_id x then hu_with_state "QUEUED" (hu_plan w n (hu_with_state "VALIDATING" x)) else x.

Lemma queue_hunt_open tenant digest w n h l x :
  NoDup (map hu_id l) -> In h l -> open_retro tenant digest h = true -> In x l ->
  open_retro tenant digest (queue_hunt tenant (hu_id h) w n x) = open_retro tenant digest x.
Proof.
  intros Hnd Hh Ho Hx. unfold queue_hunt. destruct (hunt_is tenant (hu_id h) x) eqn:E; [|done].
  unfold hunt_is in E. apply andb_true_iff in E as [_ E]. apply bool_decide_eq_true in E.
  assert (x = h) as -> by (by eapply (nodup_map_inj hu_id)). rewrite Ho. unfold open_retro in *. cbn.
  apply andb_true_iff in Ho as [Ho _]. by rewrite Ho.
Qed.

Lemma queue_hunt_id tenant id w n x : hu_id (queue_hunt tenant id w n x) = hu_id x.
Proof. unfold queue_hunt. by destruct (hunt_is _ _ _). Qed.

Lemma queue_hunt_created tenant id w n x : hu_created_at (queue_hunt tenant id w n x) = hu_created_at x.
Proof. unfold queue_hunt. by destruct (hunt_is _ _ _). Qed.

Lemma open_retro_is tenant digest h : open_retro tenant digest h = true -> hunt_is tenant (hu_id h) h = true.
Proof.
  unfold open_retro, hunt_is. rewrite !andb_true_iff. intros [[[Ht _] _] _]. rewrite Ht. split; [done|]. by apply bool_decide_eq_true.
Qed.

(** With unique identifiers a hunt in the table is the one its identifier finds. *)
Lemma get_hunt_in tenant s h :
  unique_key THunt hu_id s -> In h (rows THunt s) -> hunt_is tenant (hu_id h) h = true -> get_hunt tenant (hu_id h) s = (Ret h, s).
Proof.
  intros Hu Hin Ht. apply get_hunt_ok. destruct (head _) as [x|] eqn:Eh.
  - apply head_filter_in in Eh as [Hx Ex]. unfold hunt_is in Ex. apply andb_true_iff in Ex as [_ Ex]. apply bool_decide_eq_true in Ex.
    f_equal. by eapply (nodup_map_inj hu_id).
  - pose proof (head_filter_none _ _ Eh h Hin) as Hf. cbn beta in Hf. congruence.
Qed.

(** An activation that finds a hunt which is no draft changes no hunt. *)
Lemma activated_again tenant digest s h :
  unique_key THunt hu_id s -> reused tenant digest (rows THunt s) = Some h -> hu_state h <> "DRAFT"%string ->
  let run := on_bundle_activated true tenant digest s in
  (forall t, t <> TReanalysis -> rows t (snd run) = rows t s) /\
  match fst run with Ret r => r = Some h | Fail e => e = duplicate_key | Panic => False end.
Proof.
  intros Hu Er Hd run. subst run. destruct (reused_open _ _ _ _ Er) as [Hin Ho]. pose proof (open_retro_is _ _ _ Ho) as Hi.
  unfold on_bundle_activated. cbn [negb]. unfold reused in Er. erewrite bind_run; [|reflexivity]. rewrite Er.
  rewrite (bind_run _ _ _ _ _ (get_hunt_in tenant s h Hu Hin Hi)). apply String.eqb_neq in Hd. rewrite Hd.
  erewrite bind_run; [|reflexivity]. set (m := insert_record _ _ _ _ _ _). pose proof (insert_record_run tenant "bundle_activate" (Some digest)
    (Some (hu_id h)) "reused" (JObj [("note", JStr "existing open hunt")]%string) s) as Hr. fold m in Hr.
  destruct (m s) as [[id|e|] s1] eqn:Em; [|rewrite (bind_fail _ _ _ _ _ Em); by destruct Hr|done].
  rewrite (bind_run _ _ _ _ _ Em).
  assert (E1 : rows THunt s1 = rows THunt s) by by apply Hr.
  rewrite (bind_run _ _ _ _ _ (get_hunt_in tenant s1 h ltac:(unfold unique_key; rewrite E1; exact Hu) ltac:(rewrite E1; exact Hin) Hi)).
  by split.
Qed.

Lemma unique_ids s s' : map hu_id (rows THunt s') = map hu_id (rows THunt s) -> unique_key THunt hu_id s -> unique_key THunt hu_id s'.
Proof. intros E H. exact (eq_ind_r NoDup H E). Qed.

(** A hunt just created is open. *)
Lemma create_hunt_run tenant digest s h s' :
  create_hunt tenant digest s = (Ret h, s') ->
  rows THunt s' = rows THunt s ++ [h] /\ open_retro tenant digest h = true /\ (unique_key THunt hu_id s -> unique_key THunt hu_id s').
Proof.
  unfold create_hunt. intros (b & sa & Eb & E)%bind_ret. apply bind_ret in E as (u & sb & [= <- <-] & E).
  apply bind_ret in E as (t & sc & [= <- <-] & E). cbv zeta in E.
  match type of E with (insert_unique THunt hu_id ?r ≫= _) ?x = _ => set (row := r) in *; set (s0 := x) in * end.
  assert (E0 : rows THunt s0 = rows THunt s).
  { assert (Hf : frames (rows THunt) (get_bundle tenant digest)) by (unfold get_bundle; frames_tac). specialize (Hf s). by rewrite Eb in Hf. }
  apply bind_ret in E as ([] & sd & Ei & [= <- <-]). split; [|split].
  - unfold insert_unique in Ei. apply bind_ret in Ei as (fresh & sx & Hx & Hy). destruct fresh; [|done]. injection Hy as ->.
    unfold insert_on_conflict in Hx. destruct (existsb _ _) in Hx; [done|]. injection Hx as <-. rewrite rows_set_rows_eq. by rewrite E0.
  - unfold open_retro, row, new_hunt. cbn. rewrite bool_decide_true, String.eqb_refl by done. done.
  - intros Hu. pose proof (keeps_unique_insert_unique THunt hu_id row s0) as Hk. rewrite Ei in Hk. apply Hk. apply (unique_ids s); [by rewrite E0|done].
Qed.

(** What an activation that returned left behind. *)
Lemma activated_first tenant digest s h s1 :
  unique_key THunt hu_id s -> on_bundle_activated true tenant digest s = (Ret (Some h), s1) ->
  unique_key THunt hu_id s1 /\ reused tenant digest (rows THunt s1) = Some h /\ hu_state h <> "DRAFT"%string /\
  map hu_id (rows THunt s1) = map hu_id (rows THunt s) ++ (if reused tenant digest (rows THunt s) is Some _ then [] else [hu_id h]).
Proof.
  intros Hu. unfold on_bundle_activated. cbn [negb]. rewrite bind_ret. intros (e & s0 & [= <- <-] & E).
  fold (reused tenant digest (rows THunt s)) in E. destruct (reused tenant digest (rows THunt s)) as [e|] eqn:Er.
  - destruct (reused_open _ _ _ _ Er) as [Hin Ho]. pose proof (open_retro_is _ _ _ Ho) as Hi.
    rewrite (bind_run _ _ _ _ _ (get_hunt_in tenant s e Hu Hin Hi)) in E.
    assert (Hmid : exists f s2, (if String.eqb (hu_state e) "DRAFT" then enqueue_hunt tenant (hu_id e) ;; mret tt else mret tt) s = (Ret tt, s2) /\
      rows THunt s2 = map f (rows THunt s) /\ (forall x, hu_id (f x) = hu_id x) /\ (forall x, hu_created_at (f x) = hu_created_at x) /\
      (forall x, In x (rows THunt s) -> open_retro tenant digest (f x) = open_retro tenant digest x) /\ hu_state (f e) <> "DRAFT"%string).
    { apply bind_ret in E as ([] & s2 & E2 & _). destruct (String.eqb_spec (hu_state e) "DRAFT") as [Hd|Hd].
      - apply bind_ret in E2 as (q & s3 & Eq & [= <-]). pose proof Eq as Eq'.
        apply enqueue_hunt_stages in Eq as (hunt & _ & _ & _ & _ & _ & _ & _ & Hrows & _).
        eexists (queue_hunt tenant (hu_id e) _ _), s3. split; [by rewrite (bind_run _ _ _ _ _ Eq')|]. split; [exact Hrows|].
        split; [intros; apply queue_hunt_id|]. split; [intros; apply queue_hunt_created|].
        split; [intros x Hx; by eapply queue_hunt_open|]. unfold queue_hunt. by rewrite Hi.
      - exists id, s. split; [done|]. split; [by rewrite map_id|done]. }
    destruct Hmid as (f & s2 & E2 & Hrows & Hfi & Hfc & Hfo & Hfd). rewrite (bind_run _ _ _ _ _ E2) in E.
    apply bind_ret in E as (rid & s3 & E3 & E). apply bind_ret in E as (h' & s4 & Eg & [= <- <-]).
    match type of E3 with insert_record ?a ?b ?c ?d ?e' ?f' _ = _ => pose proof (insert_record_run a b c d e' f' s2) as Hr end.
    rewrite E3 in Hr. assert (Eh : rows THunt s3 = map f (rows THunt s)) by (rewrite Hr by done; exact Hrows).
    assert (Hids : map hu_id (rows THunt s3) = map hu_id (rows THunt s)) by (rewrite Eh, map_map; by apply map_ext).
    assert (Hu3 : unique_key THunt hu_id s3) by (by apply (unique_ids s)).
    assert (Hr3 : reused tenant digest (rows THunt s3) = Some (f e)) by (rewrite Eh, reused_map, Er by done; done).
    destruct (reused_open _ _ _ _ Hr3) as [Hin3 Ho3]. pose proof (get_hunt_in tenant s3 (f e) Hu3 Hin3 (open_retro_is _ _ _ Ho3)) as Eg'.
    rewrite Hfi in Eg'. rewrite Eg' in Eg. injection Eg as <- <-.
    split; [done|]. split; [done|]. split; [done|]. by rewrite app_nil_r.
  - apply bind_ret in E as (created & s2 & Ec & E). apply bind_ret in E as (q & s3 & Eq & E).
    apply bind_ret in E as (rid & s4 & E4 & [= <- <-]).
    match type of E4 with insert_record ?a ?b ?c ?d ?e' ?f' _ = _ => pose proof (insert_record_run a b c d e' f' s3) as Hr end. rewrite E4 in Hr.
    apply create_hunt_run in Ec as (Hrows & Ho & Hu2). specialize (Hu2 Hu).
    apply enqueue_hunt_stages in Eq as (hunt & Hh & _ & _ & _ & Eq & _ & _ & Hrows3 & _).
    assert (Hin2 : In created (rows THunt s2)) by (rewrite Hrows; apply in_app_iff; right; by left).
    pose proof (get_hunt_in tenant s2 created Hu2 Hin2 (open_retro_is _ _ _ Ho)) as Eg. apply get_hunt_run in Eg as [_ Eg]. rewrite Eg in Hh. injection Hh as <-.
    set (w := planned_watermark tenant created s2) in *. set (n := len _) in *. fold (queue_hunt tenant (hu_id created) w n) in Hrows3.
    assert (Eq' : q = queue_hunt tenant (hu_id created) w n created) by (unfold queue_hunt; rewrite (open_retro_is _ _ _ Ho); exact Eq).
    assert (Eh : rows THunt s4 = map (queue_hunt tenant (hu_id created) w n) (rows THunt s2)) by (rewrite Hr by done; exact Hrows3).
    assert (Hids : map hu_id (rows THunt s4) = map hu_id (rows THunt s2)) by (rewrite Eh, map_map; apply map_ext; intros; apply queue_hunt_id).
    split; [by apply (unique_ids s2)|]. split; [|split].
    + rewrite Eh, reused_map; [|intros; by eapply queue_hunt_open|intros; apply queue_hunt_created].
      change (row THunt) with Hunt in *. pose proof (reused_app tenant digest (rows THunt s) created Er Ho) as Hra.
      change (row THunt) with Hunt in *. rewrite Hrows. etransitivity; [by apply (f_equal (fmap (queue_hunt tenant (hu_id created) w n))) in Hra; exact Hra|]. cbn. by rewrite Eq'.
    + rewrite Eq. done.
    + rewrite Hids, Hrows, map_app. by rewrite Eq', queue_hunt_id.
Qed.

(** Activating a bundle sets off one retro-hunt.  The hunt answered is open,
    over that digest, and not a draft; it is new only when no hunt over the digest
    was open, and then the only one added.  Activating again, however soon,
    stacks nothing: no hunt, job or rule is changed, and the same hunt is answered
    (unless the identifier of the record collides). *)
Theorem activation_opens_one tenant digest s h s1 :
  unique_key THunt hu_id s -> on_bundle_activated true tenant digest s = (Ret (Some h), s1) ->
  (open_retro tenant digest h = true /\ hu_state h <> "DRAFT"%string) /\
  map hu_id (rows THunt s1) = map hu_id (rows THunt s) ++ (if reused tenant digest (rows THunt s) is Some _ then [] else [hu_id h]) /\
  let again := on_bundle_activated true tenant digest s1 in
  (forall t, t <> TReanalysis -> rows t (snd again) = rows t s1) /\
  match fst again with Ret r => r = Some h | Fail e => e = duplicate_key | Panic => False end.
Proof.
  intros Hu E. destruct (activated_first tenant digest s h s1 Hu E) as (Hu1 & Hr1 & Hd & Hids).
  split; [split; [by eapply reused_open|done]|]. split; [done|]. by apply activated_again.
Qed.

End activation.

Section intel_witness.
  Local Existing Instance ReferenceYara.engine.
  Local Existing Instance ReferenceYara.host.
  Local Existing Instance ReferenceHash.sha.
  Local Existing Instance ReferenceHash.hex.
  Local Existing Instance ReferenceUuid.display.

Definition activated_hunt : option Hunt :=
  match fst (on_bundle_activated true 7%N the_digest hunt_corpus) with Ret h => h | _ => None end.
Definition activated_corpus : Srv := snd (on_bundle_activated true 7%N the_digest hunt_corpus).

Lemma activation_opens_one_witness :
  (hu_state <$> activated_hunt) = Some "QUEUED"%string /\
  rows TJob (snd (on_bundle_activated true 7%N the_digest activated_corpus)) = rows TJob activated_corpus.
Proof.
  destruct activated_hunt as [h|] eqn:E; [|vm_compute in E; discriminate E].
  destruct (activation_opens_one 7%N the_digest hunt_corpus h activated_corpus) as (_ & _ & Hf & _).
  - vm_compute. repeat constructor. intros Hin. inversion Hin.
  - unfold activated_corpus. vm_compute in E. injection E as <-. vm_compute. reflexivity.
  - split; [|by apply Hf]. vm_compute in E. injection E as <-. reflexivity.
Defined.
End intel_witness.
