(* ===== verification/Detonate.v ===== *)
(** * Detonation: sending samples to a sandbox
    ([corpus-core/src/detonate.rs], [corpus-server/src/main.rs])

    The switch that lets sample bytes out, the CAPE provider behind the
    [DetonationProvider] trait, the flow that audits, submits, polls and records,
    and the route that starts it. *)

From S2P Require Import Prelude Machine Text Hash Cas Schema.
From Stdlib Require Import Strings.Byte Strings.Ascii.

Open Scope Z_scope.

Definition ANALYZER_NAME : string := "cape".
Definition ANALYZER_VERSION : string := "cape-adapter:v1".

Record ProviderCapabilities := mkProviderCapabilities { pc_name : string; pc_sample_bytes : bool; pc_hash_only : bool; pc_self_hosted : bool }.

Inductive PollOutcome : Type :=
  | Pending
  | Done (report : Json)
  | Failed (reason : string).

(** The trait, over the state [N] of the outside world. *)
Class DetonationProvider (N : Type) : Type := {
  capabilities : ProviderCapabilities;
  submit : string -> bytes -> Op N string;
  poll : string -> Op N PollOutcome }.

Record DetonationConfig := mkDetonationConfig {
  dc_enabled : bool; dc_cape_url : option string; dc_cape_token : option string; dc_poll_interval_secs : Z; dc_max_polls : Z }.

(** [env] is the process environment. *)
Definition from_env (env : string -> option string) : DetonationConfig :=
  mkDetonationConfig (if env "CORPUS_DETONATION_ENABLED"%string is Some _ then true else false)
    (env "CORPUS_CAPE_URL"%string) (env "CORPUS_CAPE_TOKEN"%string)
    (default 5 (v ← env "CORPUS_DETONATION_POLL_SECS"%string; parse_u64 v))
    (default 60 (v ← env "CORPUS_DETONATION_MAX_POLLS"%string; parse_u32 v)).

Definition non_empty (v : option string) : bool := match v with Some s => negb (String.eqb s "") | None => false end.

Definition validate (env : string -> option string) (c : DetonationConfig) : outcome unit :=
  if negb (dc_enabled c) then Ret tt
  else if negb (non_empty (dc_cape_url c)) then Fail (BadRequest "CORPUS_DETONATION_ENABLED=1 requires CORPUS_CAPE_URL")
  else if negb (non_empty (dc_cape_token c)) && (if env "CORPUS_CAPE_ALLOW_NO_AUTH"%string is None then true else false) then
    Fail (BadRequest "CORPUS_DETONATION_ENABLED=1 requires CORPUS_CAPE_TOKEN (or CORPUS_CAPE_ALLOW_NO_AUTH=1 for a local unauthenticated CAPE)")
  else Ret tt.

(** ** The CAPE provider *)

Inductive Request : Type :=
  | PostFile (url : string) (authorization : option string) (file_name : string) (b : bytes)
  | Get (url : string) (authorization : option string).

(** The status and the body, or why it is no JSON. *)
Record Response := mkResponse { rs_status : Z; rs_json : string + Json }.

(** The requests made so far, and what answers the next ones (or the error of
    the HTTP client). *)
Record Net := mkNet { net_log : list Request; net_answers : nat -> Request -> string + Response }.

(** How the HTTP client prints a status. *)
Class StatusText : Type := status_text : Z -> string.

Definition send (what : string) (r : Request) : Op Net Response := fun n =>
  (match net_answers n (length (net_log n)) r with
   | inl e => Fail (BadRequest (what +:+ (": " +:+ e)))
   | inr resp => Ret resp
   end, mkNet (net_log n ++ [r]) (net_answers n)).

Definition is_success (z : Z) : bool := (200 <=? z) && (z <? 300).

(** [v.as_i64()] *)
Definition as_i64 (j : Json) : option Z := z ← json_int j; if (- 2 ^ 63 <=? z) && (z <? 2 ^ 63) then Some z else None.

Record CapeProvider := mkCapeProvider { cp_base : string; cp_token : option string }.

Definition new (base : string) (token : option string) : CapeProvider := mkCapeProvider (trim_end (fun c => Ascii.eqb c "/") base) token.

Definition auth (p : CapeProvider) : option string := t ← cp_token p; Some ("Token " +:+ t).

Section cape.
  Context {ST : StatusText} {JT : JsonText}.

Definition success (what : string) (resp : Response) : Op Net unit :=
  if is_success (rs_status resp) then mret tt else throw (BadRequest (what +:+ (" -> " +:+ status_text (rs_status resp)))).

Definition json_body (resp : Response) : Op Net Json :=
  match rs_json resp with inl e => throw (BadRequest e) | inr j => mret j end.

Definition task_of (body : Json) : option Json :=
  match (d ← json_get "data" body; ids ← json_get "task_ids" d; l ← json_arr ids; head l) with
  | Some t => Some t
  | None => json_get "task_id" body
  end.

Definition cape_submit (p : CapeProvider) (file_name : string) (b : bytes) : Op Net string :=
  resp ← send "cape submit" (PostFile (cp_base p +:+ "/api/tasks/create/file/") (auth p) file_name b);
  success "cape submit" resp ;;
  body ← json_body resp;
  task ← or_throw (BadRequest ("cape submit: no task id in " +:+ json_to_string body)) (t ← task_of body; as_i64 t);
  mret (show_Z task).

Definition task_status (body : Json) : string := default ""%string (t ← json_get "task" body; json_get_str "status" t).

Definition cape_poll (p : CapeProvider) (job_id : string) : Op Net PollOutcome :=
  resp ← send "cape view" (Get (cp_base p +:+ ("/api/tasks/view/" +:+ job_id)) (auth p));
  success "cape view" resp ;;
  body ← json_body resp;
  let status := task_status body in
  if existsb (String.eqb status) ["reported"; "completed"]%string then
    report ← send "cape report" (Get (cp_base p +:+ ("/api/tasks/report/" +:+ job_id)) (auth p));
    success "cape report" report ;;
    json ← json_body report;
    mret (Done json)
  else if existsb (String.eqb status) ["failed_analysis"; "failed_processing"; "failed_reporting"]%string then
    mret (Failed ("cape task " +:+ (job_id +:+ (" status " +:+ status))))
  else mret Pending.

Definition cape (p : CapeProvider) : DetonationProvider Net := {|
  capabilities := mkProviderCapabilities ANALYZER_NAME true false true;
  submit := cape_submit p;
  poll := cape_poll p |}.
End cape.

(** ** The flow *)

(** The findings a report's signatures and techniques map to. *)
Definition signature_finding (sig : Json) : Json :=
  let name := default "signature"%string (json_get_str "name" sig) in
  let desc := default ""%string (json_get_str "description" sig) in
  let severity := default 1 (s ← json_get "severity" sig; as_i64 s) in
  JObj [("category", JStr "signature"); ("summary", JStr (name +:+ (": " +:+ desc))); ("severity", JInt severity); ("sandbox", JStr "cape")]%string.

Definition attack_finding (t : Json) : option Json :=
  id ← json_get_str "ttp" t;
  Some (JObj [("category", JStr "attack"); ("summary", JStr ("ATT&CK " +:+ (id +:+ " (observed in sandbox)"))); ("sandbox", JStr "cape")]%string).

Definition map_report_to_findings (report : Json) : list Json :=
  map signature_finding (take 25 (default [] (s ← json_get "signatures" report; json_arr s))) ++
  omap attack_finding (take 25 (default [] (t ← json_get "ttps" report; json_arr t))).

Record DetonationResult := mkDetonationResult { dr_analysis_run_id : Uuid; dr_finding_count : Z; dr_findings : list Json }.

(** An operation on the server, and one on the world outside. *)
Definition on_srv {N A} (m : Op Srv A) : Op (Srv * N) A := fun s => let '(o, s') := m (fst s) in (o, (s', snd s)).
Definition on_net {N A} (m : Op N A) : Op (Srv * N) A := fun s => let '(o, n') := m (snd s) in (o, (fst s, n')).

(** The unique constraint of [analysis_run]. *)
Definition run_key (r : AnalysisRun) : Uuid * Uuid * string * bytes * bytes * bytes :=
  (an_run_tenant r, an_run_artifact_id r, an_run_analyzer_name r, an_run_image_digest r, an_run_config_digest r, an_run_support_data_digest r).

Definition dummy : bytes := repeat x00 32.

Definition duplicate_key : Error := Db "duplicate key value violates unique constraint".

(** [INSERT INTO analysis_run], under its primary key and its unique constraint. *)
Definition insert_run (r : AnalysisRun) : Op Srv unit :=
  fresh_id ← gets (fun s => negb (existsb (fun x => bool_decide (an_run_id x = an_run_id r)) (rows TRun s)));
  if negb (fresh_id : bool) then throw duplicate_key else insert_unique TRun run_key r.

Definition store_finding (tenant artifact run : Uuid) (f : Json) : Op Srv unit :=
  id ← new_v4;
  t ← now;
  insert_unique TFinding fi_id
    (mkFinding id tenant artifact run "DYNAMIC_BEHAVIOR" (default "signature"%string (json_get_str "category" f))
       (default ""%string (json_get_str "summary" f)) f t).

Section detonate.
  Context {N : Type} {DP : DetonationProvider N}.

(** [for _ in 0..max_polls] *)
Fixpoint poll_loop (max_polls : nat) (job_id : string) : Op N (option Json) :=
  match max_polls with
  | O => mret None
  | S k =>
      o ← poll job_id;
      match o with
      | Done r => mret (Some r)
      | Failed e => throw (BadRequest e)
      | Pending => poll_loop k job_id
      end
  end.

Definition audit_submit (tenant : Uuid) (artifact_sha actor : string) : Op Srv unit :=
  let caps := capabilities in
  id ← new_v4;
  t ← now;
  insert_unique TAudit ae_id
    (mkAuditEvent id tenant actor "detonate.submit" artifact_sha
       (JObj [("provider", JStr (pc_name caps)); ("sample_bytes", JBool (pc_sample_bytes caps)); ("self_hosted", JBool (pc_self_hosted caps))]%string) t).

(** The rows of a report. *)
Definition record_report (tenant artifact : Uuid) (report : Json) : Op Srv DetonationResult :=
  let findings := map_report_to_findings report in
  analysis_run_id ← new_v4;
  t ← now;
  insert_run (mkAnalysisRun analysis_run_id tenant artifact ANALYZER_NAME ANALYZER_VERSION dummy dummy dummy "completed" (Some t) (Some t)) ;;
  op_for findings (store_finding tenant artifact analysis_run_id) ;;
  mret (mkDetonationResult analysis_run_id (len findings) findings).

Definition detonate (tenant artifact : Uuid) (artifact_sha : string) (b : bytes) (cfg : DetonationConfig) (actor : string) :
    Op (Srv * N) DetonationResult :=
  if negb (dc_enabled cfg) then
    throw (Forbidden "detonation egress is disabled; set CORPUS_DETONATION_ENABLED=1 to send sample bytes to an external sandbox")
  else if negb (pc_sample_bytes capabilities) then throw (BadRequest "provider does not accept sample bytes")
  else
    on_srv (audit_submit tenant artifact_sha actor) ;;
    job_id ← on_net (submit artifact_sha b);
    report ← on_net (poll_loop (Z.to_nat (dc_max_polls cfg)) job_id);
    report ← or_throw (BadRequest "detonation timed out") report;
    on_srv (record_report tenant artifact report).
End detonate.

(** ** What detonation writes *)

Lemma on_srv_run {N A} (m : Op Srv A) (s : Srv) (n : N) : on_srv m (s, n) = (fst (m s), (snd (m s), n)).
Proof. unfold on_srv. cbn. by destruct (m s). Qed.

Lemma on_net_run {N A} (m : Op N A) (s : Srv) (n : N) : on_net m (s, n) = (fst (m n), (s, snd (m n))).
Proof. unfold on_net. cbn. by destruct (m n). Qed.

Lemma insert_unique_run {K} `{EqDecision K} t (key : row t -> K) r s :
  insert_unique t key r s = (if existsb (fun x => bool_decide (key x = key r)) (rows t s) then Fail duplicate_key else Ret tt,
    if existsb (fun x => bool_decide (key x = key r)) (rows t s) then s else set_rows t (rows t s ++ [r]) s).
Proof. unfold insert_unique, insert_on_conflict, mbind, op_mbind. by destruct (existsb _ _). Qed.

Definition detonation_table (t : table) : bool := match t with TAudit | TRun | TFinding => true | _ => false end.

Lemma record_report_aside tenant artifact report : aside (fun t => negb (detonation_table t) || bool_decide (t = TAudit)) (record_report tenant artifact report).
Proof. unfold record_report, insert_run, store_finding. aside_tac. Qed.

(** The findings of a run, one row per finding and in order. *)
Definition finding_row (tenant artifact run : Uuid) (f : Json) (r : Finding) : Prop :=
  fi_tenant r = tenant /\ fi_artifact_id r = artifact /\ fi_analysis_run_id r = run /\ fi_evidence_type r = "DYNAMIC_BEHAVIOR"%string /\
  json_get_str "category" f = Some (fi_category r) /\ json_get_str "summary" f = Some (fi_summary r) /\ fi_detail r = f.

Definition is_finding (f : Json) : Prop :=
  exists c m, json_get_str "category" f = Some c /\ In c ["signature"; "attack"]%string /\ json_get_str "summary" f = Some m.

Lemma mapped_findings report : Forall is_finding (map_report_to_findings report) /\ (length (map_report_to_findings report) <= 50)%nat.
Proof.
  unfold map_report_to_findings. split.
  - apply Forall_app. split; apply Forall_forall; intros f Hf%list_elem_of_In.
    + apply in_map_iff in Hf as (sig & <- & _). eexists _, _. split; [done|]. split; [by left|done].
    + apply list_elem_of_In, list_elem_of_omap in Hf as (t & _ & Ht). unfold attack_finding in Ht.
      destruct (json_get_str "ttp" t); simplify_eq/=. eexists _, _. split; [done|]. split; [right; by left|done].
  - rewrite length_app, length_map, length_take.
    assert (Hl : forall l : list Json, (length (omap attack_finding l) <= length l)%nat)
      by (induction l as [|x l IH]; [done|]; cbn; destruct (attack_finding x); cbn; lia).
    pose proof (Hl (take 25 (default [] (t ← json_get "ttps" report; json_arr t)))) as H. rewrite length_take in H. lia.
Qed.

(** The identifier [new_v4] gives after [i] others. *)
Definition upcoming (s : Srv) (i : nat) : Uuid := srv_uuids s (i + srv_uuid_next s).

Lemma upcoming_S s i : srv_uuids s (i + S (srv_uuid_next s)) = upcoming s (S i).
Proof. unfold upcoming. f_equal. lia. Qed.

(** A row that holds the key already. *)
Definition taken {K} (t : table) (key : row t -> K) (k : K) (s : Srv) : Prop := exists x, In x (rows t s) /\ key x = k.

Lemma existsb_taken {K} `{EqDecision K} t (key : row t -> K) k s : existsb (fun x => bool_decide (key x = k)) (rows t s) = true -> taken t key k s.
Proof. intros (x & Hx & Hk%bool_decide_eq_true)%existsb_exists. by exists x. Qed.

Lemma store_finding_run tenant artifact run f s :
  is_finding f ->
  let '(o, s') := store_finding tenant artifact run f s in
  rows TRun s' = rows TRun s /\ (forall i, upcoming s' i = upcoming s (S i)) /\
  (o = Fail duplicate_key /\ rows TFinding s' = rows TFinding s /\ taken TFinding fi_id (upcoming s 0) s \/
   o = Ret tt /\ exists r, rows TFinding s' = rows TFinding s ++ [r] /\ finding_row tenant artifact run f r).
Proof.
  intros (c & m & Hc & _ & Hm). unfold store_finding. erewrite bind_run by reflexivity. erewrite bind_run by reflexivity.
  rewrite insert_unique_run, Hc, Hm. cbn [default].
  assert (Hup : forall db sq cas c n, forall i, upcoming (mkSrv db sq cas (srv_uuids s) (S (srv_uuid_next s)) c n) i = upcoming s (S i))
    by (intros; apply upcoming_S).
  destruct (existsb _ _) eqn:Ee; [split; [done|]; split; [by apply Hup|left]; split; [done|]; split; [done|]; exact (existsb_taken _ _ _ _ Ee)|].
  split; [etransitivity; [by apply rows_set_rows_ne|done]|]. split; [by apply Hup|]. right. split; [done|]. rewrite rows_set_rows_eq.
  eexists. split; [reflexivity|by repeat split].
Qed.

(** The findings recorded are a prefix: all of them, or those before the first
    whose identifier is taken. *)
Lemma store_findings_run tenant artifact run l s :
  Forall is_finding l ->
  let '(o, s') := op_for l (store_finding tenant artifact run) s in
  rows TRun s' = rows TRun s /\
  exists k, rows TFinding s' = rows TFinding s ++ k /\ Forall2 (finding_row tenant artifact run) (take (length k) l) k /\
    (o = Ret tt /\ length k = length l \/
     o = Fail duplicate_key /\ (length k < length l)%nat /\ taken TFinding fi_id (upcoming s (length k)) s').
Proof.
  intros Hl. revert s. induction Hl as [|f l Hf _ IH]; intros s; cbn [op_for].
  - split; [done|]. exists []. rewrite app_nil_r. split; [done|]. split; [constructor|by left].
  - unfold mbind, op_mbind. pose proof (store_finding_run tenant artifact run f s Hf) as Hs.
    destruct (store_finding tenant artifact run f s) as [o s1]. destruct Hs as (Hr & Hup & [(-> & Hn & Hc)|[-> (r & Hr1 & Hfr)]]).
    { split; [done|]. exists []. rewrite app_nil_r. split; [done|]. split; [constructor|right]. split; [done|].
      split; [cbn; lia|]. destruct Hc as (x & Hx & Hk). exists x. by rewrite Hn. }
    specialize (IH s1). destruct (op_for l _ s1) as [o s2]. destruct IH as (Hr2 & k & Hk & Hf2 & Ho).
    split; [congruence|]. exists (r :: k). rewrite Hk, Hr1, <- app_assoc. split; [done|].
    split; [cbn; by constructor|]. cbn [length]. destruct Ho as [[-> Hl2]|(-> & Hl2 & Hc)]; [left; by rewrite Hl2|right].
    split; [done|]. split; [lia|]. by rewrite <- Hup.
Qed.

(** The key of every analysis of an artifact. *)
Definition the_run (tenant artifact : Uuid) : Uuid * Uuid * string * bytes * bytes * bytes := (tenant, artifact, ANALYZER_NAME, dummy, dummy, dummy).

Lemma existsb_key_none {K} `{EqDecision K} {A} (key : A -> K) k l : existsb (fun x => bool_decide (key x = k)) l = false -> forall x, In x l -> key x <> k.
Proof. intros E x Hx Hk. assert (existsb (fun x => bool_decide (key x = k)) l = true); [|congruence]. apply existsb_exists. exists x. split; [done|by apply bool_decide_eq_true]. Qed.

(** What recording a report leaves, whatever its outcome: nothing, when an
    analysis of the artifact (or the identifier drawn) is there already; the
    analysis and its findings otherwise, up to a finding whose identifier is
    taken. *)
Definition recorded (tenant artifact : Uuid) (report : Json) (o : outcome DetonationResult) (s s' : Srv) : Prop :=
  o = Fail duplicate_key /\ rows TRun s' = rows TRun s /\ rows TFinding s' = rows TFinding s /\
    (taken TRun run_key (the_run tenant artifact) s \/ taken TRun an_run_id (upcoming s 0) s) \/
  exists run k,
    rows TRun s' = rows TRun s ++ [run] /\ rows TFinding s' = rows TFinding s ++ k /\
    run_key run = the_run tenant artifact /\ (forall x, In x (rows TRun s) -> run_key x <> run_key run) /\ an_run_status run = "completed"%string /\
    Forall2 (finding_row tenant artifact (an_run_id run)) (take (length k) (map_report_to_findings report)) k /\
    (o = Fail duplicate_key /\ (length k < length (map_report_to_findings report))%nat /\ taken TFinding fi_id (upcoming s (S (length k))) s' \/
     length k = length (map_report_to_findings report) /\
     o = Ret (mkDetonationResult (an_run_id run) (len (map_report_to_findings report)) (map_report_to_findings report))).

Lemma record_report_run tenant artifact report s :
  let '(o, s') := record_report tenant artifact report s in recorded tenant artifact report o s s'.
Proof.
  unfold record_report. cbv zeta. erewrite bind_run by reflexivity. erewrite bind_run by reflexivity.
  set (r := mkAnalysisRun _ _ _ _ _ _ _ _ _ _ _). set (s0 := mkSrv _ _ _ _ _ _ _).
  unfold mbind at 1, op_mbind at 1. unfold insert_run. erewrite bind_run by reflexivity.
  destruct (existsb (fun x => bool_decide (an_run_id x = _)) _) eqn:Ei; cbn [negb].
  { left. repeat (split; [done|]). right. exact (existsb_taken TRun an_run_id _ s Ei). }
  rewrite insert_unique_run.
  match goal with |- context [existsb ?f ?l] => destruct (existsb f l) eqn:Ek end; cbn beta iota;
    [left; repeat (split; [done|]); left; exact (existsb_taken TRun run_key _ s Ek)|].
  pose proof (existsb_key_none run_key _ _ Ek) as Hk0.
  set (s1 := set_rows _ _ _). pose proof (store_findings_run tenant artifact (an_run_id r) _ s1 (proj1 (mapped_findings report))) as Hs.
  change (srv_uuids s (srv_uuid_next s)) with (an_run_id r). unfold mbind, op_mbind. match goal with |- context [op_for ?l ?f s1] => destruct (op_for l f s1) as [o s2] end.
  destruct Hs as (Hr & k & Hk & Hf & Ho). assert (E1 : rows TRun s1 = rows TRun s ++ [r]) by (unfold s1; by rewrite rows_set_rows_eq).
  assert (E2 : rows TFinding s1 = rows TFinding s) by (etransitivity; [by apply rows_set_rows_ne|done]).
  rewrite E1 in Hr. rewrite E2 in Hk. destruct Ho as [[-> Hl]|(-> & Hl & Hc)]; cbn beta iota; right; exists r, k; repeat (split; [done|]); [by right|left].
  split; [done|]. split; [done|]. destruct Hc as (x & Hx & Hid). exists x. split; [done|]. rewrite Hid.
  change (srv_uuids s (length k + S (srv_uuid_next s)) = srv_uuids s (S (length k) + srv_uuid_next s)). apply upcoming_S.
Qed.

Section detonation.
  Context {N : Type} {DP : DetonationProvider N}.

(** The event that announces the submission. *)
Definition announces (tenant : Uuid) (artifact_sha actor : string) (e : AuditEvent) : Prop :=
  ae_tenant e = tenant /\ ae_actor e = actor /\ ae_action e = "detonate.submit"%string /\ ae_target e = artifact_sha /\
  ae_detail e = JObj [("provider", JStr (pc_name capabilities)); ("sample_bytes", JBool (pc_sample_bytes capabilities));
                      ("self_hosted", JBool (pc_self_hosted capabilities))]%string.

Lemma audit_submit_run tenant sha actor s :
  let '(o, s') := audit_submit tenant sha actor s in
  agree (fun t => negb (detonation_table t)) s s' /\ rows TRun s' = rows TRun s /\ rows TFinding s' = rows TFinding s /\
  (forall i, upcoming s' i = upcoming s (S i)) /\
  (o = Fail duplicate_key /\ rows TAudit s' = rows TAudit s /\ taken TAudit ae_id (upcoming s 0) s \/
   o = Ret tt /\ exists e, rows TAudit s' = rows TAudit s ++ [e] /\ announces tenant sha actor e).
Proof.
  assert (Ha : aside (fun t => bool_decide (t <> TAudit)) (audit_submit tenant sha actor)) by (unfold audit_submit; aside_tac).
  pose proof (Ha s) as [Hc Hr]. clear Ha. destruct (audit_submit tenant sha actor s) as [o s'] eqn:E. cbn [snd] in Hc, Hr.
  split; [split; [done|]; intros t Ht; apply Hr; by destruct t|]. split; [by apply Hr|]. split; [by apply Hr|].
  unfold audit_submit in E. cbv zeta in E. erewrite bind_run in E by reflexivity. erewrite bind_run in E by reflexivity. rewrite insert_unique_run in E.
  destruct (existsb _ _) eqn:Ee in E; injection E as <- <-; (split; [intros i; by rewrite <- upcoming_S|]); [left|right].
  { split; [done|]. split; [done|]. exact (existsb_taken TAudit ae_id _ s Ee). }
  split; [done|].
  rewrite rows_set_rows_eq. eexists. split; [reflexivity|]. by repeat split.
Qed.

(** The runs that reach the sandbox: the outcome of the submission and of the
    polls decides what is recorded. *)
Definition observed (tenant artifact : Uuid) (sha : string) (b : bytes) (max_polls : Z) (n n' : N) (o : outcome DetonationResult) (s s' : Srv) : Prop :=
  exists o1 n1, submit sha b n = (o1, n1) /\
  match o1 with
  | Ret job =>
      exists o2, poll_loop (Z.to_nat max_polls) job n1 = (o2, n') /\
      match o2 with
      | Ret (Some report) => recorded tenant artifact report o s s'
      | Ret None => s' = s /\ o = Fail (BadRequest "detonation timed out")
      | Fail e => s' = s /\ o = Fail e
      | Panic => s' = s /\ o = Panic
      end
  | Fail e => s' = s /\ n' = n1 /\ o = Fail e
  | Panic => s' = s /\ n' = n1 /\ o = Panic
  end.

Lemma detonate_run tenant artifact sha b cfg actor s n :
  let '(o, (s', n')) := detonate tenant artifact sha b cfg actor (s, n) in
  agree (fun t => negb (detonation_table t)) s s' /\
  if negb (dc_enabled cfg) then s' = s /\ n' = n /\ is_ret o = false
  else if negb (pc_sample_bytes capabilities) then s' = s /\ n' = n /\ is_ret o = false
  else
    (o = Fail duplicate_key /\ n' = n /\ rows TAudit s' = rows TAudit s /\ rows TRun s' = rows TRun s /\ rows TFinding s' = rows TFinding s /\
     taken TAudit ae_id (upcoming s 0) s) \/
    exists e sa, rows TAudit sa = rows TAudit s ++ [e] /\ announces tenant sha actor e /\
      rows TAudit s' = rows TAudit sa /\ rows TRun sa = rows TRun s /\ rows TFinding sa = rows TFinding s /\ (forall i, upcoming sa i = upcoming s (S i)) /\
      observed tenant artifact sha b (dc_max_polls cfg) n n' o sa s'.
Proof.
  unfold detonate. destruct (dc_enabled cfg); cbn [negb]; [|done]. destruct (pc_sample_bytes capabilities); cbn [negb]; [|done].
  pose proof (audit_submit_run tenant sha actor s) as Ha. unfold mbind, op_mbind. rewrite on_srv_run.
  destruct (audit_submit tenant sha actor s) as [o1 s1]. cbn [fst snd]. destruct Ha as (Hagree & Hr1 & Hf1 & Hup & [(-> & Hn & Hc)|[-> (e & He & Hann)]]).
  { split; [done|by left]. }
  rewrite on_net_run. destruct (submit sha b n) as [[job|er|] n1] eqn:Es; cbn [fst snd].
  2,3: split; [done|right]; exists e, s1; repeat (split; [done|]); eexists _, n1; by rewrite Es.
  rewrite on_net_run. destruct (poll_loop _ job n1) as [[[report|]|er|] n2] eqn:Ep; cbn [fst snd or_throw].
  2,3,4: split; [done|right]; exists e, s1; repeat (split; [done|]); eexists _, n1; split; [done|]; cbn; eexists; by rewrite Ep.
  unfold mret, op_mret. rewrite on_srv_run. pose proof (record_report_aside tenant artifact report s1) as [Hc Hr].
  pose proof (record_report_run tenant artifact report s1) as Hrec. destruct (record_report tenant artifact report s1) as [o s2]. cbn [fst snd] in *.
  split; [split; [by rewrite Hc; apply Hagree|]|right].
  - intros t Ht. rewrite Hr by by destruct t. by apply Hagree.
  - exists e, s1. split; [done|]. split; [done|]. split; [by apply Hr|]. split; [done|]. split; [done|]. split; [done|]. eexists _, n1. split; [done|]. cbn. eexists. split; [exact Ep|]. exact Hrec.
Qed.

(** C35. No sample leaves unannounced, and what the sandbox answers is what is
    recorded.  With the switch off, or a provider that takes no bytes, nothing is
    asked of the provider and nothing is written.  Otherwise the provider is
    approached only after an event naming the actor, the digest and what is sent
    was recorded; the sample is submitted once, and the submission's and the
    polls' outcome is the run's: an error or a report that never comes records
    nothing more.  A report becomes one analysis and its findings, in order, and
    is the result, unless an analysis of this artifact by this adapter is recorded
    already: then the table's unique constraint refuses it and nothing more is
    recorded.  The only other failures are collisions of an identifier: the
    event's, with nothing sent or recorded; the analysis's, with nothing more
    recorded; or a finding's, with the findings before it kept.  No other table
    changes. *)
Theorem detonation_announced tenant artifact sha b cfg actor s n :
  let '(o, (s', n')) := detonate tenant artifact sha b cfg actor (s, n) in
  agree (fun t => negb (detonation_table t)) s s' /\
  if negb (dc_enabled cfg) then s' = s /\ n' = n /\ is_ret o = false
  else if negb (pc_sample_bytes capabilities) then s' = s /\ n' = n /\ is_ret o = false
  else
    (o = Fail duplicate_key /\ n' = n /\ rows TAudit s' = rows TAudit s /\ rows TRun s' = rows TRun s /\ rows TFinding s' = rows TFinding s /\
     taken TAudit ae_id (upcoming s 0) s) \/
    exists e sa, rows TAudit sa = rows TAudit s ++ [e] /\ announces tenant sha actor e /\
      rows TAudit s' = rows TAudit sa /\ rows TRun sa = rows TRun s /\ rows TFinding sa = rows TFinding s /\ (forall i, upcoming sa i = upcoming s (S i)) /\
      observed tenant artifact sha b (dc_max_polls cfg) n n' o sa s'.
Proof. apply detonate_run. Qed.

(** A second detonation is refused, after the sample was sent again.  Every
    detonation of an artifact records the same analyzer and the same constant
    digests, which the unique constraint of the table admits once: where an
    analysis of the artifact is recorded already, a detonation with a sandbox
    that reports fails, although the sample was submitted and the report read. *)
Theorem detonate_again_fails tenant artifact sha b cfg actor s n r s1 n1 sha2 b2 cfg2 actor2 s2 n2 :
  detonate tenant artifact sha b cfg actor (s, n) = (Ret r, (s1, n1)) ->
  (forall x, In x (rows TRun s1) -> In x (rows TRun s2)) ->
  let '(o, (s3, n3)) := detonate tenant artifact sha2 b2 cfg2 actor2 (s2, n2) in
  is_ret o = false /\ rows TRun s3 = rows TRun s2 /\ rows TFinding s3 = rows TFinding s2 /\
  forall job m report n', rows TAudit s3 <> rows TAudit s2 ->
    submit sha2 b2 n2 = (Ret job, m) -> poll_loop (Z.to_nat (dc_max_polls cfg2)) job m = (Ret (Some report), n') ->
    o = Fail duplicate_key /\ n3 = n'.
Proof.
  intros E Hsub. pose proof (detonate_run tenant artifact sha b cfg actor s n) as H1. rewrite E in H1.
  assert (Hrun : exists x, In x (rows TRun s2) /\ run_key x = the_run tenant artifact).
  { destruct H1 as [_ H1]. destruct (negb _) in H1; [by destruct H1 as (_ & _ & ?)|]. destruct (negb _) in H1; [by destruct H1 as (_ & _ & ?)|].
    destruct H1 as [[? _]|(e & sa & _ & _ & _ & _ & _ & _ & o1 & m1 & _ & H1)]; [done|]. destruct o1 as [job|er|]; [|by destruct H1 as (_ & _ & ?)..].
    destruct H1 as (o2 & _ & H1). destruct o2 as [[report|]|er|]; [|by destruct H1..].
    destruct H1 as [(? & _)|(run & k & Hr & _ & Hk & _)]; [done|]. exists run. split; [|done]. apply Hsub. rewrite Hr. apply in_app_iff. right. by left. }
  destruct Hrun as (x & Hx & Hkx). clear E H1 Hsub.
  pose proof (detonate_run tenant artifact sha2 b2 cfg2 actor2 s2 n2) as H2. destruct (detonate _ _ _ _ _ _ _) as [o [s3 n3]]. destruct H2 as [_ H2].
  destruct (negb _) in H2; [destruct H2 as (-> & -> & ?); by repeat (split; [done|])|]. destruct (negb _) in H2; [destruct H2 as (-> & -> & ?); by repeat (split; [done|])|].
  destruct H2 as [(-> & -> & Ha & Hr & Hf & _)|(e & sa & _ & _ & _ & Hr & Hf & _ & o1 & m1 & Es & H2)].
  { do 3 (split; [done|]). intros ? ? ? ? Hne. by rewrite Ha in Hne. }
  destruct o1 as [job|er|].
  2,3: destruct H2 as (-> & -> & ->); do 3 (split; [done|]); intros; congruence.
  destruct H2 as (o2 & Ep & H2). destruct o2 as [[report|]|er|].
  2,3,4: destruct H2 as (-> & ->); do 3 (split; [done|]); intros ? ? ? ? _ E1 E2; rewrite E1 in Es; injection Es as -> ->; congruence.
  destruct H2 as [(-> & Hr2 & Hf2 & _)|(run & k & _ & _ & Hk & Hnot & _)].
  - split; [done|]. split; [congruence|]. split; [congruence|]. intros ? ? ? ? _ E1 E2. split; [done|].
    rewrite E1 in Es. injection Es as -> ->. congruence.
  - exfalso. apply (Hnot x); [by rewrite Hr|congruence].
Qed.
End detonation.

(** ** What leaves the host *)

Section egress.
  Context {ST : StatusText} {JT : JsonText}.

(** [asks P m]: [m] only adds requests of [P], at most [k] of them. *)
Definition asks {A} (k : nat) (P : Request -> Prop) (m : Op Net A) : Prop :=
  forall n, exists l, net_log (snd (m n)) = net_log n ++ l /\ Forall P l /\ (length l <= k)%nat.

Lemma asks_bind {A B} j k P (m : Op Net A) (f : A -> Op Net B) : asks j P m -> (forall a, asks k P (f a)) -> asks (j + k) P (m ≫= f).
Proof.
  intros Hm Hf n. destruct (Hm n) as (l & El & Hl & Hj). unfold mbind, op_mbind. destruct (m n) as [[a|e|] n1]; cbn [snd] in *.
  - destruct (Hf a n1) as (l2 & E2 & H2 & Hk). exists (l ++ l2). rewrite E2, El, app_assoc, length_app. split; [done|]. split; [by apply Forall_app|lia].
  - exists l. split; [done|split; [done|lia]].
  - exists l. split; [done|split; [done|lia]].
Qed.

Lemma asks_quiet {A} P (m : Op Net A) : (forall n, snd (m n) = n) -> asks 0 P m.
Proof. intros H n. exists []. rewrite H, app_nil_r. by repeat split. Qed.

Lemma asks_send P what r : P r -> asks 1 P (send what r).
Proof. intros Hr n. exists [r]. cbn. split; [done|]. split; [by constructor|done]. Qed.

Lemma asks_weaken {A} j k P (m : Op Net A) : (j <= k)%nat -> asks j P m -> asks k P m.
Proof. intros Hjk Hm n. destruct (Hm n) as (l & ? & ? & ?). exists l. split; [done|split; [done|lia]]. Qed.

Lemma asks_received P what resp : asks 0 P (success what resp ;; json_body resp).
Proof. apply asks_quiet. intros n. unfold success, json_body, mbind, op_mbind. destruct (is_success _); [|done]. cbn. by destruct (rs_json resp). Qed.

(** The requests of a poll name the job and carry no bytes. *)
Definition asks_after (p : CapeProvider) (job : string) (r : Request) : Prop :=
  r = Get (cp_base p +:+ ("/api/tasks/view/" +:+ job)) (auth p) \/ r = Get (cp_base p +:+ ("/api/tasks/report/" +:+ job)) (auth p).

Lemma asks_bind_assoc {A B C} k P (m : Op Net A) (f : A -> Op Net B) (g : B -> Op Net C) :
  asks k P ((m ≫= f) ≫= g) -> asks k P (m ≫= (fun a => f a ≫= g)).
Proof. intros H n. specialize (H n). by rewrite bind_assoc_run in H. Qed.

Lemma cape_poll_asks p job : asks 2 (asks_after p job) (cape_poll p job).
Proof.
  unfold cape_poll. apply (asks_bind 1 1); [apply asks_send; by left|]. intros resp. apply asks_bind_assoc.
  apply (asks_bind 0 1); [apply asks_received|]. intros body. destruct (existsb _ _).
  - apply (asks_bind 1 0); [apply asks_send; by right|]. intros report. apply asks_bind_assoc.
    apply (asks_bind 0 0); [apply asks_received|]. intros json. by apply asks_quiet.
  - apply (asks_weaken 0); [lia|]. apply asks_quiet. by destruct (existsb _ _).
Qed.

Lemma poll_loop_asks p job k : asks (2 * k) (asks_after p job) (poll_loop (DP := cape p) k job).
Proof.
  induction k as [|k IH]; cbn [poll_loop]; [by apply asks_quiet|]. apply (asks_weaken (2 + 2 * k)); [lia|].
  apply asks_bind; [apply cape_poll_asks|]. intros [|r|e]; [done|..]; (apply (asks_weaken 0); [lia|by apply asks_quiet]).
Qed.

Lemma cape_submit_asks p sha b n :
  let '(o, n1) := cape_submit p sha b n in
  net_log n1 = net_log n ++ [PostFile (cp_base p +:+ "/api/tasks/create/file/") (auth p) sha b].
Proof.
  assert (H : forall resp, frames net_log (success "cape submit" resp ;; body ← json_body resp;
    task ← or_throw (BadRequest ("cape submit: no task id in " +:+ json_to_string body)) (t ← task_of body; as_i64 t); mret (show_Z task))).
  { intros resp. apply frames_bind; [apply frames_pure; intros; unfold success; by destruct (is_success _)|]. intros _.
    apply frames_bind; [apply frames_pure; intros; unfold json_body; by destruct (rs_json _)|]. intros body.
    apply frames_bind; [apply frames_or_throw|]. intros z. by apply frames_pure. }
  unfold cape_submit, mbind at 1, op_mbind at 1, send. destruct (net_answers _ _ _) as [e|resp]; cbn [net_log]; [done|].
  match goal with |- context [mkNet ?a ?b] => specialize (H resp (mkNet a b)) end. unfold frames in H.
  match type of H with net_log (snd ?x) = _ => by destruct x end.
Qed.

(** What leaves through CAPE.  A run against CAPE makes no request when the
    switch is off; otherwise at most one, the first, carries bytes: the sample's,
    to the configured base, with the configured token and named by its digest.
    Every other request reads the state or the report of one task, and there are
    at most two for each poll. *)
Theorem cape_egress p tenant artifact sha b cfg actor s n :
  let '(_, (_, n')) := detonate (DP := cape p) tenant artifact sha b cfg actor (s, n) in
  exists l, net_log n' = net_log n ++ l /\
  match l with
  | [] => True
  | r :: polls =>
      dc_enabled cfg = true /\ r = PostFile (cp_base p +:+ "/api/tasks/create/file/") (auth p) sha b /\
      (exists job, Forall (asks_after p job) polls) /\ (length polls <= 2 * Z.to_nat (dc_max_polls cfg))%nat
  end.
Proof.
  pose proof (detonate_run (DP := cape p) tenant artifact sha b cfg actor s n) as H. destruct (detonate _ _ _ _ _ _ _) as [o [s' n']].
  destruct H as [_ H]. destruct (dc_enabled cfg) eqn:Ed; cbn [negb] in H; [|destruct H as (_ & -> & _); exists []; by rewrite app_nil_r].
  cbn [capabilities cape pc_sample_bytes negb] in H. destruct H as [(_ & -> & _)|(e & sa & _ & _ & _ & _ & _ & _ & o1 & n1 & Es & H)]; [exists []; by rewrite app_nil_r|].
  change (cape_submit p sha b n = (o1, n1)) in Es. pose proof (cape_submit_asks p sha b n) as Hs. rewrite Es in Hs. destruct o1 as [job|er|].
  2,3: destruct H as (_ & -> & _); eexists; split; [exact Hs|]; split; [done|]; split; [done|]; split; [exists ""%string; constructor|cbn; lia].
  destruct H as (o2 & Ep & _). pose proof (poll_loop_asks p job (Z.to_nat (dc_max_polls cfg)) n1) as (l & El & Hl & Hk). rewrite Ep in El. cbn [snd] in El.
  eexists. split; [rewrite El, Hs, <- app_assoc; reflexivity|]. cbn. split; [done|]. split; [done|]. split; [by exists job|lia].
Qed.
End egress.

(** ** Witnesses *)

(** Any value enables egress, ["0"] included. *)
Example detonation_enabled_by_zero : dc_enabled (from_env (fun k => if String.eqb k "CORPUS_DETONATION_ENABLED" then Some "0"%string else None)) = true.
Proof. reflexivity. Qed.

(** A CAPE server that accepts the sample as task 42, is not done at the first
    poll and then reports a signature and a technique. *)
Module ReferenceCape.
#[export] Instance status : StatusText := show_Z.
#[export] Instance json : JsonText := fun _ => ""%string.

Definition report : Json :=
  JObj [("signatures", JArr [JObj [("name", JStr "persistence_autorun"); ("severity", JInt 3)]]); ("ttps", JArr [JObj [("ttp", JStr "T1547")]; JNull])]%string.
Definition ok (j : Json) : string + Response := inr (mkResponse 200 (inr j)).
Definition task (st : string) : Json := JObj [("task", JObj [("status", JStr st)])]%string.
Definition answers (i : nat) (r : Request) : string + Response :=
  match r with
  | PostFile _ _ _ _ => ok (JObj [("data", JObj [("task_ids", JArr [JInt 42])])]%string)
  | Get url _ => if str_contains "/report/" url then ok report else ok (task (if Nat.eqb i 1 then "running" else "reported"))
  end.
Definition provider : CapeProvider := new "http://cape:8000//" (Some "secret"%string).
Definition config : DetonationConfig := mkDetonationConfig true (Some "http://cape:8000//"%string) (Some "secret"%string) 5 60.
Definition run (s : Srv) : outcome DetonationResult * (Srv * Net) :=
  detonate (DP := cape provider) 7%N 1%N "aa" [x01; x02] config "corpusctl" (s, mkNet [] answers).
End ReferenceCape.

Section detonate_witness.
  Local Existing Instance ReferenceCape.status.
  Local Existing Instance ReferenceCape.json.

Example detonation_log : map (fun r => match r with PostFile u _ _ _ => u | Get u _ => u end) (net_log (snd (snd (ReferenceCape.run ReferenceServer.empty)))) =
  ["http://cape:8000/api/tasks/create/file/"; "http://cape:8000/api/tasks/view/42"; "http://cape:8000/api/tasks/view/42";
   "http://cape:8000/api/tasks/report/42"]%string.
Proof. vm_compute. reflexivity. Qed.

Lemma detonate_again_fails_witness :
  let first := ReferenceCape.run ReferenceServer.empty in
  let again := ReferenceCape.run (fst (snd first)) in
  is_ret (fst first) = true /\ length (rows TFinding (fst (snd first))) = 2%nat /\
  is_ret (fst again) = false /\ rows TFinding (fst (snd again)) = rows TFinding (fst (snd first)) /\ length (net_log (snd (snd again))) = 4%nat.
Proof.
  cbv zeta. set (first := ReferenceCape.run ReferenceServer.empty).
  destruct (fst first) as [r|e|] eqn:E; [|vm_compute in E; discriminate E..].
  pose proof (detonate_again_fails (DP := cape ReferenceCape.provider) 7%N 1%N "aa" [x01; x02] ReferenceCape.config "corpusctl" ReferenceServer.empty
    (mkNet [] ReferenceCape.answers) r (fst (snd first)) (snd (snd first)) "aa" [x01; x02] ReferenceCape.config "corpusctl"
    (fst (snd first)) (mkNet [] ReferenceCape.answers)) as H.
  split; [done|]. split; [vm_compute; reflexivity|].
  assert (H1 : ReferenceCape.run ReferenceServer.empty = (Ret r, (fst (snd first), snd (snd first)))).
  { rewrite <- E. unfold first. by destruct (ReferenceCape.run ReferenceServer.empty) as [? [? ?]]. }
  specialize (H H1 (fun x Hx => Hx)). unfold ReferenceCape.run in *. fold (ReferenceCape.run ReferenceServer.empty) in *.
  destruct (detonate (DP := cape ReferenceCape.provider) 7%N 1%N "aa" [x01; x02] ReferenceCape.config "corpusctl" (fst (snd first), mkNet [] ReferenceCape.answers))
    as [o [s3 n3]] eqn:E3. destruct H as (Ho & _ & Hf & _). cbn [fst snd]. split; [exact Ho|]. split; [exact Hf|].
  apply (f_equal (fun x => length (net_log (snd (snd x))))) in E3. cbn [snd] in E3. rewrite <- E3. vm_compute. reflexivity.
Defined.
End detonate_witness.
