(* ===== verification/Report.v ===== *)
(** * Reports: what analysts read
    ([corpus-core/src/analyst.rs], [report.rs], [investigate.rs], [metrics.rs])

    Fleet prevalence, rarity and dropper leads, the blast radius of an artifact
    or of a hunt with its proof of absence, investigations, and the platform's
    counters.  All of it reads; the clock apart, no state changes. *)

From S2P Require Import Prelude Machine Text Decimal Hash Cas Schema Scan Rules Triggers Hunts SimModel Variants Access.
From Stdlib Require Import Strings.Byte Strings.Ascii Sorting.Sorted.

Open Scope Z_scope.

(** chrono: RFC 3339 in and out, and an instant less a number of seconds, which
    is [None] where the crate panics (a span or an instant out of its range). *)
Class ChronoText : Type := {
  to_rfc3339 : Time -> string;
  parse_from_rfc3339 : string -> option Time;
  minus_seconds : Time -> Z -> option Time }.

(** ** analyst.rs *)

Record Prevalence := mkPrevalence { pv_host_count : Z; pv_path_count : Z; pv_first_observed : option Time; pv_last_observed : option Time }.

(** [min] and [max] over the rows of a group. *)
Definition least (l : list Z) : option Z := match l with [] => None | x :: r => Some (foldl Z.min x r) end.
Definition greatest (l : list Z) : option Z := match l with [] => None | x :: r => Some (foldl Z.max x r) end.

(** [count(DISTINCT ...)] does not count [NULL]. *)
Definition prevalence_of (l : list Occurrence) : Prevalence :=
  mkPrevalence (len (remove_dups (map oc_host_name l))) (len (remove_dups (omap oc_path l)))
    (least (map oc_observed_at l)) (greatest (map oc_observed_at l)).

Definition occurrence_of (tenant artifact : Uuid) (o : Occurrence) : bool :=
  bool_decide (oc_tenant o = tenant) && bool_decide (oc_artifact_id o = Some artifact).

Definition prevalence_for (tenant artifact : Uuid) : Op Srv Prevalence :=
  l ← select TOccurrence (occurrence_of tenant artifact);
  mret (prevalence_of l).

Record RarityHit := mkRarityHit {
  rh_artifact_id : Uuid; rh_sha256 : string; rh_artifact_class : string; rh_first_committed_at : Time; rh_prevalence : Prevalence;
  rh_opinion : option string }.

(** The latest opinion by time, superseded or not. *)
Definition last_opinion (tenant artifact : Uuid) (l : list Opinion) : option string :=
  op_opinion <$> head (sort_by opinion_newest (List.filter (fun o => bool_decide (op_tenant o = tenant) && bool_decide (op_artifact_id o = artifact)) l)).

Definition endpoint_committed (tenant : Uuid) (a : Artifact) : bool :=
  bool_decide (art_tenant a = tenant) && String.eqb (art_scope a) "endpoint" && String.eqb (art_storage_state a) "committed".

Section analyst.
  Context {HEX : HexCodec} {CT : ChronoText}.

(** One row of the query, before the order and the limit. *)
Definition rarity_hit (tenant : Uuid) (max_hosts : Z) (since : Time) (opinion : option string) (occs : list Occurrence) (ops : list Opinion)
    (a : Artifact) : option RarityHit :=
  let seen := List.filter (occurrence_of tenant (art_id a)) occs in
  let p := prevalence_of seen in
  let op := last_opinion tenant (art_id a) ops in
  if endpoint_committed tenant a && (pv_host_count p <=? max_hosts) &&
     match pv_last_observed p with Some t => since <=? t | None => false end &&
     match opinion with Some o => bool_decide (op = Some o) | None => true end
  then Some (mkRarityHit (art_id a) (hex_encode (art_sha256 a)) (art_class a) (art_first_committed_at a) p op)
  else None.

(** [ORDER BY host_count ASC, last_observed DESC] *)
Definition rarer (a b : RarityHit) : bool :=
  let p := rh_prevalence a in let q := rh_prevalence b in
  (pv_host_count p <? pv_host_count q) ||
  ((pv_host_count p =? pv_host_count q) && (default 0 (pv_last_observed q) <=? default 0 (pv_last_observed p))).

Definition rarity_search (tenant : Uuid) (max_hosts : Z) (since : Time) (opinion : option string) (limit : Z) : Op Srv (list RarityHit) :=
  if limit <? 0 then throw negative_limit
  else gets (fun s => take (Z.to_nat limit) (sort_by rarer
    (omap (rarity_hit tenant max_hosts since opinion (rows TOccurrence s) (rows TOpinion s)) (rows TArtifact s)))).

Record DropperCandidate := mkDropperCandidate {
  dp_artifact_id : Uuid; dp_sha256 : string; dp_host_name : string; dp_path : option string; dp_host_count : Z;
  dp_min_time_delta_secs : Z; dp_first_observed : option Time }.

(** The occurrences of [first_occ], before [DISTINCT ON]. *)
Definition candidate_occurrence (tenant : Uuid) (seeds : list Uuid) (arts : list Artifact) (o : Occurrence) : bool :=
  bool_decide (oc_tenant o = tenant) &&
  match oc_artifact_id o with
  | Some id => negb (existsb (fun x => bool_decide (x = id)) seeds) &&
      existsb (fun a => bool_decide (art_tenant a = tenant) && bool_decide (art_id a = id) && String.eqb (art_scope a) "endpoint") arts
  | None => false
  end.

Definition artifact_host (o : Occurrence) : option Uuid * string := (oc_artifact_id o, oc_host_name o).

(** [DISTINCT ON (artifact_id, host_name) ... ORDER BY ..., observed_at] *)
Definition first_occurrences (l : list Occurrence) : list Occurrence :=
  omap (fun k => head (sort_by (fun a b => oc_observed_at a <=? oc_observed_at b) (List.filter (fun o => bool_decide (artifact_host o = k)) l)))
    (remove_dups (map artifact_host l)).

(** The seed occurrences near [f], as distances in seconds. *)
Definition deltas (window : Z) (seed_occ : list Occurrence) (f : Occurrence) : list Z :=
  List.filter (fun d => d <=? window)
    (map (fun o => Z.abs (oc_observed_at f - oc_observed_at o)) (List.filter (fun o => String.eqb (oc_host_name o) (oc_host_name f)) seed_occ)).

(** One row of the query. *)
Definition dropper_row (tenant : Uuid) (window : Z) (seed_occ occs : list Occurrence) (arts : list Artifact) (f : Occurrence) : option DropperCandidate :=
  id ← oc_artifact_id f;
  delta ← least (deltas window seed_occ f);
  a ← head (List.filter (artifact_is tenant id) arts);
  let p := prevalence_of (List.filter (occurrence_of tenant id) occs) in
  Some (mkDropperCandidate id (hex_encode (art_sha256 a)) (oc_host_name f) (oc_path f) (pv_host_count p) delta (pv_first_observed p)).

Definition nearer (a b : DropperCandidate) : bool := dp_min_time_delta_secs a <=? dp_min_time_delta_secs b.

(** The occurrences of [seed_occ]. *)
Definition seed_occurrence (tenant : Uuid) (seeds : list Uuid) (o : Occurrence) : bool :=
  bool_decide (oc_tenant o = tenant) && existsb (fun x => bool_decide (oc_artifact_id o = Some x)) seeds.

(** The query for a seed set. *)
Definition dropper_rows (tenant : Uuid) (seeds : list Uuid) (window : Z) (s : Srv) : list DropperCandidate :=
  let occs := rows TOccurrence s in
  let seed_occ := List.filter (seed_occurrence tenant seeds) occs in
  sort_by nearer (omap (dropper_row tenant window seed_occ occs (rows TArtifact s))
    (first_occurrences (List.filter (candidate_occurrence tenant seeds (rows TArtifact s)) occs))).

(** The limit is the query's, the filter on the hosts comes after it. *)
Definition dropper_candidates (tenant : Uuid) (seed_sha256 : string) (max_hosts window_hours limit : Z) : Op Srv (list DropperCandidate) :=
  match hex_to_raw seed_sha256 with
  | None => throw (BadRequest ("invalid sha256 hex: " +:+ debug_str seed_sha256))
  | Some raw =>
      seed ← select_optional TArtifact (artifact_by_sha tenant raw);
      match seed with
      | None => mret []
      | Some a =>
          members ← group_members tenant (art_id a);
          let seeds := art_id a :: map fst (snd members) in
          let window := signed 64 (u64_wrap (window_hours * 3600)) in
          if limit <? 0 then throw negative_limit
          else
            found ← gets (fun s => take (Z.to_nat limit) (dropper_rows tenant seeds window s));
            mret (List.filter (fun r => dp_host_count r <=? max_hosts) found)
      end
  end.

(** [s.split_at(i)], which panics inside a character. *)
Definition split_at (s : string) (i : nat) : outcome (string * string) :=
  match String.get i s with
  | Some c => if in_range 128 191 c then Panic else Ret (String.substring 0 i s, String.substring i (String.length s - i) s)
  | None => if Nat.eqb i (String.length s) then Ret (s, ""%string) else Panic
  end.

Definition invalid_since (s : string) : Error := BadRequest ("invalid --since " +:+ debug_str s).

Definition parse_since (s : string) : Op Srv Time :=
  match parse_from_rfc3339 s with
  | Some t => mret t
  | None =>
      parts ← lift_outcome (split_at s (String.length s - 1));
      let '(num, unit) := parts in
      n ← or_throw (invalid_since s) (parse_i64 num);
      t ← now;
      if String.eqb unit "d" then lift_outcome (or_panic (minus_seconds t (n * 86400)))
      else if String.eqb unit "h" then lift_outcome (or_panic (minus_seconds t (n * 3600)))
      else if String.eqb unit "m" then lift_outcome (or_panic (minus_seconds t (n * 60)))
      else throw (BadRequest ("invalid --since " +:+ (debug_str s +:+ " (use RFC3339 or 7d/24h/30m)")))
  end.
End analyst.

(** ** report.rs *)

Definition HISTORICAL_OBSERVATION_ONLY : string := "historical_observation_only: no current-state verification in M0".

Record FindingView := mkFindingView { fv_evidence_type : string; fv_category : string; fv_summary : string }.

Record BlastRadiusArtifact := mkBlastRadiusArtifact {
  ba_artifact_id : Uuid; ba_sha256 : string; ba_size_bytes : Z; ba_artifact_class : string; ba_first_committed_at : Time;
  ba_matched_rules : list string; ba_prevalence : option Prevalence; ba_opinion : option string; ba_findings : list FindingView }.

Record BlastRadiusOccurrence := mkBlastRadiusOccurrence {
  bo_artifact_sha256 : string; bo_host_name : string; bo_path : option string; bo_capture_reason : string; bo_observed_at : Time;
  bo_received_at : Time; bo_execution_evidence : option Json }.

Record BlastRadiusHost := mkBlastRadiusHost {
  bh_host_name : string; bh_artifact_sha256 : list string; bh_paths : list string; bh_first_observed : Time; bh_last_observed : Time }.

Record Attestation := mkAttestation {
  at_result : string; at_corpus_watermark : Z; at_artifacts_evaluated : Z; at_evaluated_at : Time; at_scope : string }.

(** A [SimilarEdgeView] is the other artifact, its digest and the edge. *)
Record VariantExpansion := mkVariantExpansion {
  ve_group_artifacts : list BlastRadiusArtifact; ve_group_occurrences : list BlastRadiusOccurrence; ve_weak_leads : list (Uuid * string * SimEdge) }.

Record BlastRadiusReport := mkBlastRadiusReport {
  br_generated_at : Time; br_tenant_id : Uuid; br_query : Json; br_hunt : option Hunt; br_artifacts : list BlastRadiusArtifact;
  br_hosts : list BlastRadiusHost; br_occurrences : list BlastRadiusOccurrence; br_verification_state : string;
  br_variant_expansion : option VariantExpansion; br_attestation : option Attestation }.

Definition one_of_ids (ids : list Uuid) (id : Uuid) : bool := existsb (fun x => bool_decide (x = id)) ids.

Section report.
  Context {HEX : HexCodec} {UD : UuidDisplay}.

Definition attestation_for (tenant : Uuid) (hunt : option Hunt) : Op Srv Attestation :=
  counts ← match hunt with
           | Some h => mret (default 0 (hu_corpus_watermark h), hu_planned_artifacts h)
           | None =>
               l ← select TArtifact (endpoint_committed tenant);
               mret (default 0 (greatest (map art_seq l)), len l)
           end;
  t ← now;
  mret (mkAttestation "no_match" (fst counts) (snd counts) t "endpoint").

(** [ORDER BY observed_at] *)
Definition by_observed (a b : Occurrence) : bool := oc_observed_at a <=? oc_observed_at b.

Definition occurrences_of (tenant : Uuid) (ids : list Uuid) : Op Srv (list Occurrence) :=
  l ← select TOccurrence (fun o => bool_decide (oc_tenant o = tenant) && match oc_artifact_id o with Some id => one_of_ids ids id | None => false end);
  (* a digest that is NULL does not decode *)
  if existsb (fun o => negb (is_set (oc_artifact_sha256 o))) l then throw (Db "unexpected null; try decoding as an Option")
  else mret (sort_by by_observed l).

(** [ORDER BY first_committed_at] *)
Definition by_committed (a b : Artifact) : bool := art_first_committed_at a <=? art_first_committed_at b.

Definition artifacts_of (tenant : Uuid) (ids : list Uuid) : Op Srv (list Artifact) :=
  l ← select TArtifact (fun a => bool_decide (art_tenant a = tenant) && one_of_ids ids (art_id a));
  mret (sort_by by_committed l).

Definition occurrence_sha (o : Occurrence) : string := hex_encode (default [] (oc_artifact_sha256 o)).

Definition push_new (l : list string) (x : string) : list string := if existsb (String.eqb x) l then l else l ++ [x].

Definition add_to_host (o : Occurrence) (h : BlastRadiusHost) : BlastRadiusHost :=
  mkBlastRadiusHost (bh_host_name h) (push_new (bh_artifact_sha256 h) (occurrence_sha o))
    (match oc_path o with Some p => push_new (bh_paths h) p | None => bh_paths h end)
    (Z.min (bh_first_observed h) (oc_observed_at o)) (Z.max (bh_last_observed h) (oc_observed_at o)).

(** The entry of a host, or a new one. *)
Definition add_occurrence (hosts : gmap string BlastRadiusHost) (o : Occurrence) : gmap string BlastRadiusHost :=
  let entry := default (mkBlastRadiusHost (oc_host_name o) [] [] (oc_observed_at o) (oc_observed_at o)) (hosts !! oc_host_name o) in
  <[oc_host_name o := add_to_host o entry]> hosts.

(** The values of a [BTreeMap], in the order of its keys. *)
Definition host_le (a b : string * BlastRadiusHost) : bool := str_leb (fst a) (fst b).
Definition host_values (m : gmap string BlastRadiusHost) : list BlastRadiusHost := map snd (sort_by host_le (map_to_list m)).

Definition hosts_of (l : list Occurrence) : list BlastRadiusHost := host_values (foldl add_occurrence ∅ l).

Definition occurrence_view (o : Occurrence) : BlastRadiusOccurrence :=
  mkBlastRadiusOccurrence (occurrence_sha o) (oc_host_name o) (oc_path o) (oc_capture_reason o) (oc_observed_at o) (oc_received_at o)
    (oc_process_evidence o).

Definition finding_le (a b : Finding) : bool := fi_created_at a <=? fi_created_at b.

Definition findings_of (tenant artifact : Uuid) : Op Srv (list FindingView) :=
  l ← select TFinding (fun f => bool_decide (fi_tenant f = tenant) && bool_decide (fi_artifact_id f = artifact));
  mret (map (fun f => mkFindingView (fi_evidence_type f) (fi_category f) (fi_summary f)) (take 50 (sort_by finding_le l))).

Definition artifact_view (tenant : Uuid) (matched_rules : gmap Uuid (list string)) (a : Artifact) : Op Srv BlastRadiusArtifact :=
  prev ← prevalence_for tenant (art_id a);
  o ← current_opinion tenant (art_id a);
  findings ← findings_of tenant (art_id a);
  mret (mkBlastRadiusArtifact (art_id a) (hex_encode (art_sha256 a)) (art_size_bytes a) (art_class a) (art_first_committed_at a)
    (default [] (matched_rules !! art_id a)) (Some prev) (op_opinion <$> o) findings).

(** [BYTE_SIMILAR | SHARED_PROVENANCE | SEMANTIC_WEAK] *)
Definition is_lead (e : SimEdge) : bool := existsb (String.eqb (se_edge_type e)) [BYTE_SIMILAR; SHARED_PROVENANCE; SEMANTIC_WEAK].

Definition leads_of (tenant : Uuid) (ids : list Uuid) (id : Uuid) : Op Srv (list (Uuid * string * SimEdge)) :=
  es ← edges_for tenant id;
  op_concat es (fun e =>
    if negb (is_lead e) then mret []
    else
      let other := if bool_decide (se_src e = id) then se_dst e else se_src e in
      if one_of_ids ids other then mret []
      else
        row ← select_optional TArtifact (artifact_is tenant other);
        a ← or_throw row_not_found row;
        mret [(other, hex_encode (art_sha256 a), e)]).

(** The members of the artifacts' groups that are not among them. *)
Definition group_ids_of (tenant : Uuid) (ids : list Uuid) : Op Srv (list Uuid) :=
  op_fold ids [] (fun group_ids id =>
    members ← group_members tenant id;
    mret (foldl (fun acc m => if one_of_ids ids (fst m) || one_of_ids acc (fst m) then acc else acc ++ [fst m]) group_ids (snd members))).

Definition expand_variants_for (tenant : Uuid) (ids : list Uuid) : Op Srv VariantExpansion :=
  group_ids ← group_ids_of tenant ids;
  arts ← artifacts_of tenant group_ids;
  occs ← (match group_ids with [] => mret [] | _ :: _ => occurrences_of tenant group_ids end);
  leads ← op_concat ids (leads_of tenant ids);
  mret (mkVariantExpansion
    (map (fun a => mkBlastRadiusArtifact (art_id a) (hex_encode (art_sha256 a)) (art_size_bytes a) (art_class a) (art_first_committed_at a) [] None None []) arts)
    (map occurrence_view occs) leads).

Definition build_report (tenant : Uuid) (query : Json) (hunt : option Hunt) (ids : list Uuid) (matched_rules : gmap Uuid (list string))
    (expand_variants : bool) : Op Srv BlastRadiusReport :=
  match ids with
  | [] =>
      attestation ← attestation_for tenant hunt;
      t ← now;
      mret (mkBlastRadiusReport t tenant query hunt [] [] [] HISTORICAL_OBSERVATION_ONLY None (Some attestation))
  | _ :: _ =>
      arts ← artifacts_of tenant ids;
      occs ← occurrences_of tenant ids;
      views ← op_concat arts (fun a => v ← artifact_view tenant matched_rules a; mret [v]);
      t ← now;
      expansion ← (if expand_variants then x ← expand_variants_for tenant ids; mret (Some x) else mret None);
      mret (mkBlastRadiusReport t tenant query hunt views (hosts_of occs) (map occurrence_view occs) HISTORICAL_OBSERVATION_ONLY expansion None)
  end.

(** [matched_rules.entry(artifact_id).or_default().push(rule_id)] *)
Definition add_match (m : gmap Uuid (list string)) (r : HuntMatch) : gmap Uuid (list string) :=
  <[hm_artifact_id r := default [] (m !! hm_artifact_id r) ++ [hm_rule_id r]]> m.

(** The keys of a [BTreeMap], in order. *)
Definition keys_of (m : gmap Uuid (list string)) : list Uuid := sort_by N.leb (map fst (map_to_list m)).

Definition by_hunt (tenant hunt_id : Uuid) (expand_variants : bool) : Op Srv BlastRadiusReport :=
  hunt ← get_hunt tenant hunt_id;
  matches ← select TMatch (fun r => bool_decide (hm_tenant r = tenant) && bool_decide (hm_hunt_id r = hunt_id));
  let matched_rules := foldl add_match ∅ matches in
  build_report tenant (JObj [("type", JStr "hunt"); ("hunt_id", JStr (uuid_to_string hunt_id))]%string) (Some hunt) (keys_of matched_rules)
    matched_rules expand_variants.

Definition by_sha256 (tenant : Uuid) (sha256_hex : string) (expand_variants : bool) : Op Srv BlastRadiusReport :=
  match hex_to_raw sha256_hex with
  | None => throw (BadRequest ("invalid sha256 hex: " +:+ debug_str sha256_hex))
  | Some raw =>
      artifact ← select_optional TArtifact (artifact_by_sha tenant raw);
      build_report tenant (JObj [("type", JStr "sha256"); ("sha256", JStr sha256_hex)]%string) None
        (match artifact with Some a => [art_id a] | None => [] end) ∅ expand_variants
  end.
End report.

(** ** investigate.rs *)

Record SeveritySummary := mkSeveritySummary { sv_level : string; sv_reasons : list string }.

Record RecommendedAction := mkRecommendedAction {
  ra_action : string; ra_priority : string; ra_detail : string; ra_host_names : list string; ra_sha256s : list string }.

(** A [VariantsResponse] is the artifact, its digest, its group and the members. *)
Definition VariantsResponse : Type := Uuid * string * option Uuid * list (Uuid * string * string * Time).

Record InvestigationReport := mkInvestigationReport {
  ir_generated_at : Time; ir_tenant_id : Uuid; ir_title : string; ir_executive_summary : string; ir_severity : SeveritySummary;
  ir_seed_sha256 : string; ir_seed_artifact_id : Uuid; ir_seed_class : string; ir_seed_scope : string; ir_first_committed_at : Time;
  ir_opinion : option string; ir_prevalence : Prevalence; ir_detections : list Detection; ir_mitre_techniques : list string;
  ir_blast_radius : BlastRadiusReport; ir_variants : VariantsResponse; ir_recommended_actions : list RecommendedAction;
  ir_verification_state : string }.

Definition text (l : list string) : string := String.concat "" l.

Definition is_opinion (opinion : option string) (o : string) : bool := match opinion with Some x => String.eqb x o | None => false end.

Definition has_severity (sev : string) (l : list Detection) : bool := existsb (fun d => String.eqb (de_severity d) sev) l.

(** [!a.matched_rules.is_empty()] *)
Definition rule_matched (a : BlastRadiusArtifact) : bool := match ba_matched_rules a with [] => false | _ :: _ => true end.

(** The level and the first reason. *)
Definition base_severity (detections : list Detection) (opinion : option string) (blast : BlastRadiusReport) : string * list string :=
  if has_severity "critical" detections then ("critical", ["critical detection event"])
  else if has_severity "high" detections || is_opinion opinion "malicious" then ("high", ["high severity detection or malicious opinion"])
  else if has_severity "medium" detections || is_opinion opinion "suspicious" || existsb rule_matched (br_artifacts blast)
  then ("medium", ["rule match or suspicious opinion"])
  else if is_opinion opinion "grayware" || is_opinion opinion "vulnerable"
  then ("low", [text ["opinion=Some("; debug_str (default "" opinion); ")"]])
  else ("info", [])%string.

Definition summarize_severity (detections : list Detection) (opinion : option string) (blast : BlastRadiusReport) : SeveritySummary :=
  let '(level, reasons) := base_severity detections opinion blast in
  let n := len (br_hosts blast) in
  let broad := (5 <? n) && negb (String.eqb level "info") in
  let reasons := if broad then reasons ++ [text ["broad host footprint ("; show_Z n; ")"]%string] else reasons in
  let level := if broad && String.eqb level "medium" then "high"%string else level in
  mkSeveritySummary level (match reasons with [] => ["no elevated signals"%string] | _ :: _ => reasons end).

Definition elevated (blast : BlastRadiusReport) (opinion : option string) (detections : list Detection) : bool :=
  is_opinion opinion "malicious" || is_opinion opinion "suspicious" ||
  existsb (fun d => String.eqb (de_severity d) "high" || String.eqb (de_severity d) "critical") detections ||
  existsb rule_matched (br_artifacts blast).

Definition recommend (seed_sha : string) (blast : BlastRadiusReport) (opinion : option string) (detections : list Detection) (host_count : Z) :
    list RecommendedAction :=
  let hosts := map bh_host_name (br_hosts blast) in
  let shas := map ba_sha256 (br_artifacts blast) in
  if elevated blast opinion detections then
    [mkRecommendedAction "block_hash" "high"
       (text ["Block SHA-256 "; seed_sha; " (and variant group members) in EDR/allowlist controls"]%string) hosts shas] ++
    (if 0 <? host_count then
       [mkRecommendedAction "contain_hosts" "high"
          (text ["Review and contain "; show_Z (len hosts); " host(s) with historical observations; verify current-state presence out of band"]%string)
          hosts shas]
     else []) ++
    [mkRecommendedAction "detonate" "medium"
       "Optional: corpusctl detonate <sha256> if CORPUS_DETONATION_ENABLED and CAPE configured" [] [seed_sha];
     mkRecommendedAction "set_opinion" "medium" "Confirm human opinion (malicious|suspicious|…) for audit trail" [] [seed_sha]]
  else
    [mkRecommendedAction "monitor" "low" "No elevated detection; retain in corpus for future continuous re-analysis" hosts shas].

(** [sort] and [dedup]. *)
Definition sorted_techniques (l : list string) : list string := dedup (sort_by str_leb l).

Section investigate.
  Context {HEX : HexCodec} {UD : UuidDisplay} {CT : ChronoText}.

Definition techniques (detections : list Detection) (blast : BlastRadiusReport) : list string :=
  sorted_techniques (flat_map de_mitre detections ++
    flat_map (fun a => flat_map (fun f => heuristic_mitre [fv_category f; fv_summary f]) (ba_findings a) ++ heuristic_mitre (ba_matched_rules a))
      (br_artifacts blast)).

Definition title_of (sha256 : string) (detections : list Detection) (blast : BlastRadiusReport) : string :=
  match detections with
  | d :: _ => de_title d
  | [] => if existsb rule_matched (br_artifacts blast) then "Rule match in retained corpus" else text ["Investigation: "; sha256]%string
  end.

Definition executive_summary (sha256 : string) (a : Artifact) (prevalence : Prevalence) (severity : SeveritySummary) (detections : list Detection)
    (blast : BlastRadiusReport) (variants : VariantsResponse) : string :=
  text ["Artifact "; String.substring 0 16 sha256; " ("; art_class a; ", "; show_Z (art_size_bytes a); " bytes, scope="; art_scope a;
        ") first committed "; to_rfc3339 (art_first_committed_at a); ". Seen on "; show_Z (pv_host_count prevalence); " host(s) / ";
        show_Z (pv_path_count prevalence); " path(s). Severity="; sv_level severity; ". Detections="; show_Z (len detections);
        " rule-matched-artifacts="; show_Z (len (List.filter rule_matched (br_artifacts blast))); " variant-members=";
        show_Z (len (snd variants)); "."]%string.

Definition investigate_sha256 (tenant : Uuid) (sha256 : string) : Op Srv InvestigationReport :=
  raw ← or_throw (BadRequest "invalid sha256 hex") (hex_to_raw sha256);
  row ← select_optional TArtifact (fun a => artifact_by_sha tenant raw a && String.eqb (art_storage_state a) "committed");
  a ← or_throw (NotFound ("artifact " +:+ sha256)) row;
  blast ← by_sha256 tenant sha256 true;
  detections ← detections_for_artifact tenant (art_id a) 50;
  current ← current_opinion tenant (art_id a);
  let opinion := op_opinion <$> current in
  prevalence ← prevalence_for tenant (art_id a);
  view ← variants_view tenant sha256;
  let variants := default (art_id a, sha256, None, []) view in
  let severity := summarize_severity detections opinion blast in
  t ← now;
  mret (mkInvestigationReport t tenant (title_of sha256 detections blast)
    (executive_summary sha256 a prevalence severity detections blast variants) severity sha256 (art_id a) (art_class a) (art_scope a)
    (art_first_committed_at a) opinion prevalence detections (techniques detections blast) blast variants
    (recommend sha256 blast opinion detections (pv_host_count prevalence)) HISTORICAL_OBSERVATION_ONLY).

(** The report of a hunt that matched nothing. *)
Definition no_matches (tenant hunt_id : Uuid) (blast : BlastRadiusReport) : Op Srv InvestigationReport :=
  t ← now;
  t' ← now;
  mret (mkInvestigationReport t tenant (text ["Hunt "; uuid_to_string hunt_id; ": no matches"]%string)
    (text ["Hunt "; uuid_to_string hunt_id; " matched no artifacts across the pinned watermark. Proof-of-absence attestation is included on the blast-radius payload."]%string)
    (mkSeveritySummary "info" ["no matches"%string]) "" 0%N "" "endpoint" t' None (mkPrevalence 0 0 None None) [] [] blast (0%N, ""%string, None, [])
    [mkRecommendedAction "none" "low" "No matched artifacts; retain attestation for the investigation record." [] []] HISTORICAL_OBSERVATION_ONLY).

(** The seed's report, retitled before the hunt's blast radius replaces the
    seed's. *)
Definition with_hunt (seed : string) (hunt : option Hunt) (blast : BlastRadiusReport) (r : InvestigationReport) : InvestigationReport :=
  mkInvestigationReport (ir_generated_at r) (ir_tenant_id r)
    (text ["Hunt "; match hunt with Some h => uuid_to_string (hu_id h) | None => "" end; " campaign ("; show_Z (len (br_artifacts (ir_blast_radius r)));
           " artifacts)"]%string)
    (text ["Hunt-driven investigation: "; show_Z (len (br_hosts blast)); " host(s) touched, "; show_Z (len (br_artifacts blast));
           " artifact(s), severity="; sv_level (ir_severity r); "."]%string)
    (ir_severity r) (ir_seed_sha256 r) (ir_seed_artifact_id r) (ir_seed_class r) (ir_seed_scope r) (ir_first_committed_at r) (ir_opinion r)
    (ir_prevalence r) (ir_detections r) (ir_mitre_techniques r) blast (ir_variants r)
    (recommend seed blast (ir_opinion r) [] (pv_host_count (ir_prevalence r))) (ir_verification_state r).

Definition investigate_hunt (tenant hunt_id : Uuid) : Op Srv InvestigationReport :=
  blast ← by_hunt tenant hunt_id true;
  match br_artifacts blast with
  | [] => no_matches tenant hunt_id blast
  | seed :: _ =>
      r ← investigate_sha256 tenant (ba_sha256 seed);
      mret (with_hunt (ba_sha256 seed) (br_hunt blast) blast r)
  end.
End investigate.

(** ** metrics.rs *)

Record PlatformMetrics := mkPlatformMetrics {
  pm_artifacts_committed : Z; pm_occurrences : Z; pm_hunts_total : Z; pm_hunts_queued_or_running : Z; pm_hunt_jobs_pending : Z;
  pm_detections_total : Z; pm_active_bundles : Z; pm_agents_enrolled : Z; pm_continuous_reanalyses : Z }.

Definition in_scope (tenant : option Uuid) (t : Uuid) : bool := match tenant with Some x => bool_decide (t = x) | None => true end.

Definition active_states : list string := ["QUEUED"; "RUNNING"; "VALIDATING"; "PLANNED"]%string.

(** The join with [hunt] is made only for a tenant. *)
Definition job_pending (tenant : option Uuid) (hunts : list Hunt) (j : HuntJob) : bool :=
  negb (is_set (hj_finished_at j)) &&
  match tenant with
  | Some t => existsb (fun h => bool_decide (hu_id h = hj_hunt_id j) && bool_decide (hu_tenant h = t)) hunts
  | None => true
  end.

Definition platform_metrics (tenant : option Uuid) : Op Srv PlatformMetrics :=
  artifacts ← select_count TArtifact (fun a => in_scope tenant (art_tenant a) && String.eqb (art_storage_state a) "committed");
  occurrences ← select_count TOccurrence (fun o => in_scope tenant (oc_tenant o));
  hunts_total ← select_count THunt (fun h => in_scope tenant (hu_tenant h));
  hunts_active ← select_count THunt (fun h => in_scope tenant (hu_tenant h) && existsb (String.eqb (hu_state h)) active_states);
  hunts ← gets (rows THunt);
  jobs ← select_count TJob (job_pending tenant hunts);
  detections ← select_count TDetection (fun d => in_scope tenant (de_tenant d));
  bundles ← select_count TBundle (fun b => in_scope tenant (rb_tenant b) && rb_active b);
  agents ← select_count TAgent (fun a => in_scope tenant (ag_tenant a));
  cont ← select_count TReanalysis (fun r => in_scope tenant (re_tenant r));
  mret (mkPlatformMetrics artifacts occurrences hunts_total hunts_active jobs detections bundles agents cont).

(** ** Aggregates *)

Lemma least_snoc l x : least (l ++ [x]) = Some (match least l with Some y => Z.min y x | None => x end).
Proof. destruct l as [|y l]; [done|]. cbn [app least]. by rewrite foldl_app. Qed.

Lemma greatest_snoc l x : greatest (l ++ [x]) = Some (match greatest l with Some y => Z.max y x | None => x end).
Proof. destruct l as [|y l]; [done|]. cbn [app greatest]. by rewrite foldl_app. Qed.

Lemma least_some l m : least l = Some m -> In m l /\ forall x, In x l -> m <= x.
Proof.
  revert m. induction l as [|x l IH] using rev_ind; intros m; [done|]. rewrite least_snoc. intros [= <-].
  destruct (least l) as [y|] eqn:E; [|destruct l; [|discriminate E]; split; [by left|]; intros z [<-|[]]; lia].
  destruct (IH y eq_refl) as [Hy Hl]. rewrite in_app_iff. split.
  - destruct (Z.min_spec y x) as [[_ ->]|[_ ->]]; [by left|right; by left].
  - intros z [Hz|[<-|[]]]%in_app_iff; [specialize (Hl z Hz)|]; lia.
Qed.

Lemma greatest_some l m : greatest l = Some m -> In m l /\ forall x, In x l -> x <= m.
Proof.
  revert m. induction l as [|x l IH] using rev_ind; intros m; [done|]. rewrite greatest_snoc. intros [= <-].
  destruct (greatest l) as [y|] eqn:E; [|destruct l; [|discriminate E]; split; [by left|]; intros z [<-|[]]; lia].
  destruct (IH y eq_refl) as [Hy Hl]. rewrite in_app_iff. split.
  - destruct (Z.max_spec y x) as [[_ ->]|[_ ->]]; [right; by left|by left].
  - intros z [Hz|[<-|[]]]%in_app_iff; [specialize (Hl z Hz)|]; lia.
Qed.

Lemma least_none l : least l = None <-> l = [].
Proof. by destruct l. Qed.

(** ** The hosts of a blast radius *)

Lemma push_new_in l x y : In y (push_new l x) <-> In y l \/ y = x.
Proof.
  unfold push_new. destruct (existsb (String.eqb x) l) eqn:E.
  - apply existsb_exists in E as (z & Hz & ->%String.eqb_eq). split; [by left|]. by intros [?| ->].
  - rewrite in_app_iff. cbn. split; [intros [?|[->|[]]]; auto|intros [?| ->]; auto].
Qed.

Lemma push_new_nodup l x : NoDup l -> NoDup (push_new l x).
Proof.
  intros Hl. unfold push_new. destruct (existsb (String.eqb x) l) eqn:E; [done|]. apply NoDup_app. split; [done|]. split; [|apply NoDup_singleton].
  intros y Hy ->%list_elem_of_singleton. apply not_true_iff_false in E. apply E. apply existsb_exists. exists x.
  split; [by apply list_elem_of_In|apply String.eqb_refl].
Qed.

Section hosts.
  Context {HEX : HexCodec}.

Definition on_host (n : string) (l : list Occurrence) : list Occurrence := List.filter (fun o => String.eqb (oc_host_name o) n) l.

(** The entry of host [n] over the occurrences [l]: the distinct digests and
    paths seen there, and the first and last observation. *)
Record host_of (l : list Occurrence) (n : string) (h : BlastRadiusHost) : Prop := {
  ho_name : bh_host_name h = n;
  ho_shas : NoDup (bh_artifact_sha256 h) /\ forall x, In x (bh_artifact_sha256 h) <-> exists o, In o (on_host n l) /\ occurrence_sha o = x;
  ho_paths : NoDup (bh_paths h) /\ forall x, In x (bh_paths h) <-> exists o, In o (on_host n l) /\ oc_path o = Some x;
  ho_first : least (map oc_observed_at (on_host n l)) = Some (bh_first_observed h);
  ho_last : greatest (map oc_observed_at (on_host n l)) = Some (bh_last_observed h) }.

Lemma on_host_snoc n l o : on_host n (l ++ [o]) = on_host n l ++ (if String.eqb (oc_host_name o) n then [o] else []).
Proof. unfold on_host. rewrite List.filter_app. cbn. by destruct (String.eqb _ _). Qed.

Lemma host_of_ext l l' n h : on_host n l = on_host n l' -> host_of l n h -> host_of l' n h.
Proof. intros E [H1 H2 H3 H4 H5]. split; [done| | |by rewrite <- E|by rewrite <- E]; destruct H2, H3; (split; [done|]); rewrite <- E; done. Qed.

Lemma add_to_host_ok l o h : host_of l (oc_host_name o) h \/ (on_host (oc_host_name o) l = [] /\
    h = mkBlastRadiusHost (oc_host_name o) [] [] (oc_observed_at o) (oc_observed_at o)) ->
  host_of (l ++ [o]) (oc_host_name o) (add_to_host o h).
Proof.
  intros H. assert (E : on_host (oc_host_name o) (l ++ [o]) = on_host (oc_host_name o) l ++ [o]) by (by rewrite on_host_snoc, String.eqb_refl).
  assert (Hin : forall (P : Occurrence -> Prop), (exists x, In x (on_host (oc_host_name o) (l ++ [o])) /\ P x) <->
    (exists x, In x (on_host (oc_host_name o) l) /\ P x) \/ P o).
  { intros P. rewrite E. setoid_rewrite in_app_iff. cbn. split.
    - intros (x & [Hx|[<-|[]]] & HP); [left; eauto|by right].
    - intros [(x & Hx & HP)|HP]; [exists x; tauto|exists o; tauto]. }
  destruct H as [[H1 [H2 H2'] [H3 H3'] H4 H5]|[Hn ->]]; (split; cbn [add_to_host bh_host_name bh_artifact_sha256 bh_paths bh_first_observed bh_last_observed]).
  - done.
  - split; [by apply push_new_nodup|]. intros x. by rewrite push_new_in, H2', (Hin (fun o => occurrence_sha o = x)), (eq_comm (occurrence_sha o)).
  - destruct (oc_path o) as [p|] eqn:Ep.
    + split; [by apply push_new_nodup|]. intros x. rewrite push_new_in, H3', (Hin (fun o => oc_path o = Some x)), Ep. naive_solver.
    + split; [done|]. intros x. rewrite H3', (Hin (fun o => oc_path o = Some x)), Ep. naive_solver.
  - rewrite E, map_app. cbn [map]. by rewrite least_snoc, H4.
  - rewrite E, map_app. cbn [map]. by rewrite greatest_snoc, H5.
  - done.
  - split; [apply NoDup_singleton|]. intros x. rewrite (Hin (fun o => occurrence_sha o = x)), Hn. cbn. naive_solver.
  - destruct (oc_path o) as [p|] eqn:Ep; (split; [first [apply NoDup_singleton|apply NoDup_nil_2]|]); intros x;
      rewrite (Hin (fun o => oc_path o = Some x)), Hn, Ep; cbn; naive_solver.
  - rewrite E, Hn, Z.min_id. done.
  - rewrite E, Hn, Z.max_id. done.
Qed.

Lemma add_occurrences_ok l n :
  match foldl add_occurrence ∅ l !! n with Some h => host_of l n h | None => on_host n l = [] end.
Proof.
  induction l as [|o l IH] using rev_ind; [by cbn [foldl]; rewrite lookup_empty|]. rewrite foldl_app. cbn [foldl]. unfold add_occurrence at 1.
  destruct (decide (oc_host_name o = n)) as [<-|Hne].
  - rewrite lookup_insert_eq. apply add_to_host_ok. destruct (_ !! _) as [h|]; [by left|right]. by split.
  - rewrite lookup_insert_ne by done. assert (E : on_host n (l ++ [o]) = on_host n l).
    { rewrite on_host_snoc. destruct (String.eqb_spec (oc_host_name o) n); [done|]. by rewrite app_nil_r. }
    destruct (_ !! n); [by apply (host_of_ext l)|by rewrite E].
Qed.

Lemma host_values_in m h : In h (host_values m) <-> exists n, m !! n = Some h.
Proof.
  unfold host_values. rewrite in_map_iff. setoid_rewrite sort_by_in. split.
  - intros ((n & h') & <- & Hin). exists n. by apply elem_of_map_to_list, list_elem_of_In.
  - intros [n Hn]. exists (n, h). split; [done|]. by apply list_elem_of_In, elem_of_map_to_list.
Qed.

(** The hosts are those of the occurrences, one entry each, by name. *)
Theorem hosts_of_spec l :
  NoDup (map bh_host_name (hosts_of l)) /\ StronglySorted (fun a b => str_leb a b = true) (map bh_host_name (hosts_of l)) /\
  (forall n, In n (map bh_host_name (hosts_of l)) <-> exists o, In o l /\ oc_host_name o = n) /\
  (forall h, In h (hosts_of l) -> host_of l (bh_host_name h) h).
Proof.
  unfold hosts_of. set (m := foldl add_occurrence ∅ l). pose proof (add_occurrences_ok l) as Hok. fold m in Hok.
  assert (Hkey : forall n h, m !! n = Some h -> bh_host_name h = n).
  { intros n h Hn. specialize (Hok n). rewrite Hn in Hok. by destruct Hok. }
  assert (Hnames : map bh_host_name (host_values m) = map fst (sort_by host_le (map_to_list m))).
  { unfold host_values. rewrite map_map. apply map_ext_in. intros (n & h) Hin%sort_by_in. cbn. apply Hkey.
    by apply elem_of_map_to_list, list_elem_of_In. }
  split; [|split; [|split]].
  - rewrite Hnames. rewrite (sort_by_perm host_le). apply NoDup_fst_map_to_list.
  - rewrite Hnames. assert (Hs : StronglySorted (fun a b => host_le a b = true) (sort_by host_le (map_to_list m))).
    { apply sort_by_sorted; [intros ? ?; apply str_leb_total|]. intros ? ? ?. apply str_leb_trans. }
    clear - Hs. induction Hs as [|x r Hr IH Hx]; cbn [map]; constructor; [done|]. apply List.Forall_map. exact Hx.
  - intros n. rewrite in_map_iff. setoid_rewrite host_values_in. specialize (Hok n). split.
    + intros (h & <- & (n' & Hn')). pose proof (Hkey _ _ Hn') as E. subst n'. rewrite Hn' in Hok. destruct Hok as [_ _ _ Hf _].
      apply least_some in Hf as [Hf _]. apply in_map_iff in Hf as (o & _ & Ho). apply filter_In in Ho as [Ho He%String.eqb_eq]. by exists o.
    + intros (o & Ho & He). destruct (m !! n) as [h|] eqn:E; [exists h; eauto|]. exfalso.
      assert (Hin : In o (on_host n l)) by (apply filter_In; split; [done|by apply String.eqb_eq]). rewrite Hok in Hin. destruct Hin.
  - intros h (n & Hn)%host_values_in. specialize (Hok n). rewrite Hn in Hok. by rewrite (Hkey _ _ Hn).
Qed.
End hosts.

(** ** Counting *)

Lemma distinct_length {A} `{EqDecision A} (l k : list A) : NoDup k -> (forall x, In x k <-> In x l) -> len (remove_dups l) = len k.
Proof.
  intros Hk Hin. unfold len. f_equal. apply Permutation_length, NoDup_Permutation; [apply NoDup_remove_dups|done|].
  intros x. rewrite elem_of_remove_dups, !list_elem_of_In. symmetry. apply Hin.
Qed.

Lemma least_unique l k : (forall x, In x l -> exists y, In y k /\ y <= x) -> (forall y, In y k -> exists x, In x l /\ x <= y) -> least l = least k.
Proof.
  intros Hl Hk. destruct (least l) as [m|] eqn:Em, (least k) as [n|] eqn:En; try done.
  - apply least_some in Em as [Hm Hm'], En as [Hn Hn']. f_equal.
    destruct (Hl m Hm) as (y & Hy & ?), (Hk n Hn) as (x & Hx & ?). specialize (Hm' x Hx). specialize (Hn' y Hy). lia.
  - apply least_some in Em as [Hm _]. apply least_none in En. subst k. by destruct (Hl m Hm) as (? & [] & _).
  - apply least_some in En as [Hn _]. apply least_none in Em. subst l. by destruct (Hk n Hn) as (? & [] & _).
Qed.

Lemma greatest_unique l k : (forall x, In x l -> exists y, In y k /\ x <= y) -> (forall y, In y k -> exists x, In x l /\ y <= x) -> greatest l = greatest k.
Proof.
  intros Hl Hk. destruct (greatest l) as [m|] eqn:Em, (greatest k) as [n|] eqn:En; try done.
  - apply greatest_some in Em as [Hm Hm'], En as [Hn Hn']. f_equal.
    destruct (Hl m Hm) as (y & Hy & ?), (Hk n Hn) as (x & Hx & ?). specialize (Hm' x Hx). specialize (Hn' y Hy). lia.
  - apply greatest_some in Em as [Hm _]. destruct k; [|done]. by destruct (Hl m Hm) as (? & [] & _).
  - apply greatest_some in En as [Hn _]. destruct l; [|done]. by destruct (Hk n Hn) as (? & [] & _).
Qed.

Lemma prevalence_perm l k : Permutation l k -> prevalence_of l = prevalence_of k.
Proof.
  intros H. unfold prevalence_of. f_equal.
  - apply distinct_length; [apply NoDup_remove_dups|]. intros x. rewrite <- !list_elem_of_In, elem_of_remove_dups.
    by rewrite H.
  - apply distinct_length; [apply NoDup_remove_dups|]. intros x. rewrite <- !list_elem_of_In, elem_of_remove_dups. by rewrite H.
  - apply least_unique; intros x Hx; exists x; (split; [|lia]); eapply Permutation_in; [apply Permutation_map; by symmetry|done| |done].
    by apply Permutation_map.
  - apply greatest_unique; intros x Hx; exists x; (split; [|lia]); eapply Permutation_in; [apply Permutation_map; by symmetry|done| |done].
    by apply Permutation_map.
Qed.

Section agreement.
  Context {HEX : HexCodec}.

Lemma on_host_in n l o : In o (on_host n l) <-> In o l /\ oc_host_name o = n.
Proof. unfold on_host. by rewrite filter_In, String.eqb_eq. Qed.

(** The prevalence of some occurrences counts the hosts and paths of their blast
    radius. *)
Lemma prevalence_hosts l :
  let hosts := hosts_of l in let p := prevalence_of l in
  pv_host_count p = len hosts /\ pv_path_count p = len (remove_dups (flat_map bh_paths hosts)) /\
  pv_first_observed p = least (map bh_first_observed hosts) /\ pv_last_observed p = greatest (map bh_last_observed hosts).
Proof.
  cbv zeta. destruct (hosts_of_spec l) as (Hnd & _ & Hnames & Hok). cbn [prevalence_of pv_host_count pv_path_count pv_first_observed pv_last_observed].
  assert (Hentry : forall o, In o l -> exists h, In h (hosts_of l) /\ host_of l (oc_host_name o) h).
  { intros o Ho. assert (Hin : In (oc_host_name o) (map bh_host_name (hosts_of l))) by (apply Hnames; by exists o).
    apply in_map_iff in Hin as (h & <- & Hh). exists h. split; [done|by apply Hok]. }
  split; [|split; [|split]].
  - transitivity (len (map bh_host_name (hosts_of l))); [|unfold len; by rewrite length_map].
    apply distinct_length; [done|]. intros n. rewrite Hnames, in_map_iff. naive_solver.
  - apply distinct_length; [apply NoDup_remove_dups|]. intros x.
    rewrite <- list_elem_of_In, elem_of_remove_dups, list_elem_of_In, in_flat_map, <- list_elem_of_In, list_elem_of_omap. split.
    + intros (h & Hh & Hx). destruct (Hok h Hh) as [_ _ [_ Hp] _ _]. apply Hp in Hx as (o & Ho & Ex). apply on_host_in in Ho as [Ho _].
      exists o. split; [by apply list_elem_of_In|done].
    + intros (o & Ho%list_elem_of_In & Ex). destruct (Hentry o Ho) as (h & Hh & [_ _ [_ Hp] _ _]). exists h. split; [done|]. apply Hp.
      exists o. split; [by apply on_host_in|done].
  - apply least_unique.
    + intros x (o & <- & Ho)%in_map_iff. destruct (Hentry o Ho) as (h & Hh & [_ _ _ Hf _]). exists (bh_first_observed h).
      split; [by apply in_map|]. apply least_some in Hf as [_ Hf]. apply Hf. apply in_map. by apply on_host_in.
    + intros y (h & <- & Hh)%in_map_iff. destruct (Hok h Hh) as [_ _ _ Hf _]. apply least_some in Hf as [Hf _].
      apply in_map_iff in Hf as (o & Eo & Ho). apply on_host_in in Ho as [Ho _]. exists (bh_first_observed h). split; [|lia].
      rewrite <- Eo. by apply in_map.
  - apply greatest_unique.
    + intros x (o & <- & Ho)%in_map_iff. destruct (Hentry o Ho) as (h & Hh & [_ _ _ _ Hf]). exists (bh_last_observed h).
      split; [by apply in_map|]. apply greatest_some in Hf as [_ Hf]. apply Hf. apply in_map. by apply on_host_in.
    + intros y (h & <- & Hh)%in_map_iff. destruct (Hok h Hh) as [_ _ _ _ Hf]. apply greatest_some in Hf as [Hf _].
      apply in_map_iff in Hf as (o & Eo & Ho). apply on_host_in in Ho as [Ho _]. exists (bh_last_observed h). split; [|lia].
      rewrite <- Eo. by apply in_map.
Qed.
End agreement.

(** ** The blast radius *)

Section blast.
  Context {HEX : HexCodec} {UD : UuidDisplay}.

(** What the view of an artifact reads. *)
Definition view_at (tenant : Uuid) (matched_rules : gmap Uuid (list string)) (s : Srv) (a : Artifact) : BlastRadiusArtifact :=
  mkBlastRadiusArtifact (art_id a) (hex_encode (art_sha256 a)) (art_size_bytes a) (art_class a) (art_first_committed_at a)
    (default [] (matched_rules !! art_id a))
    (Some (prevalence_of (List.filter (occurrence_of tenant (art_id a)) (rows TOccurrence s))))
    (op_opinion <$> head (sort_by opinion_newest (List.filter (is_current tenant (art_id a)) (rows TOpinion s))))
    (map (fun f => mkFindingView (fi_evidence_type f) (fi_category f) (fi_summary f))
      (take 50 (sort_by finding_le (List.filter (fun f => bool_decide (fi_tenant f = tenant) && bool_decide (fi_artifact_id f = art_id a)) (rows TFinding s))))).

Lemma artifact_view_run tenant m a s : artifact_view tenant m a s = (Ret (view_at tenant m s a), s).
Proof. reflexivity. Qed.

Lemma op_concat_pure {A B} (l : list A) (f : A -> Op Srv (list B)) (g : A -> list B) s :
  (forall x, In x l -> f x s = (Ret (g x), s)) -> op_concat l f s = (Ret (flat_map g l), s).
Proof.
  intros H. unfold op_concat. assert (Hacc : forall acc, op_fold l acc (fun out x => y ← f x; mret (out ++ y)) s = (Ret (acc ++ flat_map g l), s)).
  { induction l as [|x l IH]; intros acc; cbn [op_fold flat_map]; [by rewrite app_nil_r|].
    unfold mbind, op_mbind. rewrite (H x) by (by left). cbn. rewrite IH by (intros y Hy; apply H; by right). by rewrite app_assoc. }
  apply Hacc.
Qed.

Lemma one_of_ids_in ids id : one_of_ids ids id = true <-> In id ids.
Proof.
  unfold one_of_ids. rewrite existsb_exists. split; [by intros (x & Hx & ->%bool_decide_eq_true)|]. intros H. exists id. by rewrite bool_decide_true.
Qed.

(** The occurrences of a set of artifacts, when every digest decodes. *)
Definition seen_of (tenant : Uuid) (ids : list Uuid) (s : Srv) : list Occurrence :=
  List.filter (fun o => bool_decide (oc_tenant o = tenant) && match oc_artifact_id o with Some id => one_of_ids ids id | None => false end)
    (rows TOccurrence s).

(** The report of some artifacts: no clock, no other state. *)
Lemma build_report_run tenant q hunt id ids m expand s r s' :
  build_report tenant q hunt (id :: ids) m expand s = (Ret r, s') ->
  br_tenant_id r = tenant /\ br_query r = q /\ br_hunt r = hunt /\ br_attestation r = None /\
  br_artifacts r = map (view_at tenant m s)
    (sort_by by_committed (List.filter (fun a => bool_decide (art_tenant a = tenant) && one_of_ids (id :: ids) (art_id a)) (rows TArtifact s))) /\
  br_hosts r = hosts_of (sort_by by_observed (seen_of tenant (id :: ids) s)) /\
  br_occurrences r = map occurrence_view (sort_by by_observed (seen_of tenant (id :: ids) s)).
Proof.
  unfold build_report. set (l := id :: ids). intros H. apply bind_ret in H as (arts & s1 & Ha & H).
  unfold artifacts_of, select, gets, mbind, op_mbind in Ha. cbn in Ha. injection Ha as <- <-.
  apply bind_ret in H as (occs & s1 & Ho & H). unfold occurrences_of, select, gets, mbind, op_mbind in Ho. fold (seen_of tenant l s) in Ho.
  destruct (existsb _ _); [discriminate Ho|]. injection Ho as <- <-.
  apply bind_ret in H as (views & s1 & Hv & H).
  erewrite (op_concat_pure _ _ (fun a => [view_at tenant m s a])) in Hv by (intros; unfold mbind, op_mbind; by rewrite artifact_view_run).
  injection Hv as <- <-. apply bind_ret in H as (t & s1 & Ht & H). injection Ht as _ <-.
  apply bind_ret in H as (x & s2 & Hx & H). injection H as <- <-. cbn [br_tenant_id br_query br_hunt br_attestation br_artifacts br_hosts br_occurrences].
  repeat split.
Qed.

Lemma unique_filter {K} (f : Artifact -> K) l a p : NoDup (map f l) -> In a l -> p a = true -> (forall b, In b l -> p b = true -> f b = f a) -> List.filter p l = [a].
Proof.
  intros Hn Ha Hp Hu. assert (Hall : forall b, In b (List.filter p l) -> b = a).
  { intros b [Hb Hb']%filter_In. apply (nodup_map_inj f l); auto. }
  assert (Hin : In a (List.filter p l)) by by apply filter_In.
  pose proof (nodup_map_filter f p l Hn) as Hn'. destruct (List.filter p l) as [|x [|y k]] eqn:E; [done| |].
  - by rewrite (Hall x) by (by left).
  - exfalso. cbn in Hn'. apply NoDup_cons in Hn' as [Hn' _]. apply Hn'. rewrite (Hall x), (Hall y) by (cbn; auto). by left.
Qed.

(** The blast radius of a digest.  If the tenant has the artifact, the report
    is about it alone and attests nothing: its prevalence counts exactly the hosts
    listed and the paths listed under them, from the first to the last observation,
    and the occurrences are its occurrences in order of time.  Otherwise the report
    is empty and carries an attestation of the endpoint corpus. *)
Theorem blast_radius_sha tenant sha expand s r s' :
  unique_key TArtifact art_id s -> by_sha256 tenant sha expand s = (Ret r, s') ->
  exists raw, hex_to_raw sha = Some raw /\
  ((exists a v p, In a (rows TArtifact s) /\ artifact_by_sha tenant raw a = true /\ br_artifacts r = [v] /\
      ba_artifact_id v = art_id a /\ ba_sha256 v = hex_encode raw /\ ba_matched_rules v = [] /\ br_attestation r = None /\
      ba_prevalence v = Some p /\ pv_host_count p = len (br_hosts r) /\ pv_path_count p = len (remove_dups (flat_map bh_paths (br_hosts r))) /\
      pv_first_observed p = least (map bh_first_observed (br_hosts r)) /\ pv_last_observed p = greatest (map bh_last_observed (br_hosts r)) /\
      exists l, br_occurrences r = map occurrence_view l /\ StronglySorted (fun x y => by_observed x y = true) l /\
        Permutation l (List.filter (occurrence_of tenant (art_id a)) (rows TOccurrence s))) \/
   ((forall a, In a (rows TArtifact s) -> artifact_by_sha tenant raw a = false) /\ br_artifacts r = [] /\ br_hosts r = [] /\ br_occurrences r = [] /\
      exists at_, br_attestation r = Some at_ /\ at_result at_ = "no_match"%string /\
        at_artifacts_evaluated at_ = len (List.filter (endpoint_committed tenant) (rows TArtifact s)) /\
        forall a, In a (rows TArtifact s) -> endpoint_committed tenant a = true -> art_seq a <= at_corpus_watermark at_)).
Proof.
  intros Hu H. unfold by_sha256 in H. destruct (hex_to_raw sha) as [raw|] eqn:Eh; [|discriminate H]. exists raw. split; [done|].
  apply bind_ret in H as (o & s1 & Ho & H). unfold select_optional, gets in Ho. injection Ho as <- <-.
  destruct (head _) as [a|] eqn:Ea.
  - left. apply head_filter_in in Ea as [Hin Hp]. apply build_report_run in H as (_ & _ & _ & Hat & Harts & Hhosts & Hoccs).
    assert (E1 : List.filter (fun b => bool_decide (art_tenant b = tenant) && one_of_ids [art_id a] (art_id b)) (rows TArtifact s) = [a]).
    { apply (unique_filter art_id); [done|done| |].
      - apply andb_true_iff in Hp as [-> _]. cbn. by rewrite bool_decide_true.
      - intros b _ [_ Hb]%andb_true_iff. apply one_of_ids_in in Hb as [Hb|[]]. done. }
    assert (E2 : seen_of tenant [art_id a] s = List.filter (occurrence_of tenant (art_id a)) (rows TOccurrence s)).
    { apply List.filter_ext. intros x. unfold occurrence_of. f_equal. destruct (oc_artifact_id x) as [id|]; [|by rewrite bool_decide_false].
      cbn. rewrite orb_false_r. apply bool_decide_ext. naive_solver. }
    rewrite E1 in Harts. cbn in Harts. rewrite E2 in Hhosts, Hoccs. set (seen := List.filter (occurrence_of tenant (art_id a)) (rows TOccurrence s)) in *.
    exists a, (view_at tenant ∅ s a), (prevalence_of seen).
    assert (Ep : prevalence_of seen = prevalence_of (sort_by by_observed seen)) by (apply prevalence_perm; symmetry; apply sort_by_perm).
    destruct (prevalence_hosts (sort_by by_observed seen)) as (H1 & H2 & H3 & H4).
    rewrite Harts, Hhosts, Hoccs, Hat. cbn [ba_artifact_id ba_sha256 ba_matched_rules ba_prevalence view_at].
    rewrite Ep at 2 3 4 5. split; [done|]. split; [done|]. split; [done|]. split; [done|].
    split; [by apply andb_true_iff in Hp as [_ ->%bool_decide_eq_true]|]. split; [by rewrite lookup_empty|]. do 2 (split; [done|]).
    repeat (split; [done|]). exists (sort_by by_observed seen). split; [done|]. split; [|apply sort_by_perm].
    apply sort_by_sorted; [intros x y|intros x y z]; unfold by_observed; rewrite !Z.leb_le; lia.
  - right. split; [by apply head_filter_none|]. apply bind_ret in H as (at_ & s1 & Hat & H). apply bind_ret in H as (t & s2 & _ & H). injection H as <- _.
    repeat (split; [done|]). exists at_. split; [done|]. unfold attestation_for, select, gets, mbind, op_mbind in Hat. cbn in Hat. injection Hat as <- _.
    cbn. split; [done|]. split; [done|]. intros a Ha Hc. destruct (greatest _) as [m|] eqn:Em.
    + apply greatest_some in Em as [_ Em]. apply Em. apply in_map. by apply filter_In.
    + exfalso. assert (Hin : In a (List.filter (endpoint_committed tenant) (rows TArtifact s))) by by apply filter_In.
      apply (in_map art_seq) in Hin. by destruct (map art_seq _).
Qed.

(** *** Hunts *)

Definition rules_of (l : list HuntMatch) (id : Uuid) : list string :=
  map hm_rule_id (List.filter (fun r => bool_decide (hm_artifact_id r = id)) l).

Lemma add_matches_lookup l id :
  foldl add_match ∅ l !! id = match rules_of l id with [] => None | x => Some x end.
Proof.
  induction l as [|m l IH] using rev_ind; [by cbn [foldl]; rewrite lookup_empty|]. rewrite foldl_app. cbn [foldl]. unfold add_match at 1.
  assert (E : rules_of (l ++ [m]) id = rules_of l id ++ if bool_decide (hm_artifact_id m = id) then [hm_rule_id m] else []).
  { unfold rules_of. rewrite List.filter_app, map_app. cbn [List.filter]. by destruct (bool_decide _). }
  rewrite E. destruct (decide (hm_artifact_id m = id)) as [<-|Hne].
  - rewrite lookup_insert_eq, IH, bool_decide_true by done. by destruct (rules_of l (hm_artifact_id m)).
  - rewrite lookup_insert_ne, IH, bool_decide_false, app_nil_r by done. done.
Qed.

Lemma keys_of_in m id : In id (keys_of m) <-> is_Some (m !! id).
Proof.
  unfold keys_of. rewrite sort_by_in, in_map_iff. split.
  - intros ((k & v) & <- & Hin%list_elem_of_In%elem_of_map_to_list). by exists v.
  - intros [v Hv]. exists (id, v). split; [done|]. by apply list_elem_of_In, elem_of_map_to_list.
Qed.

Lemma rules_of_nonempty l m : In m l -> In (hm_rule_id m) (rules_of l (hm_artifact_id m)).
Proof. intros H. unfold rules_of. apply in_map, filter_In. split; [done|by apply bool_decide_eq_true]. Qed.

Lemma matched_in l id : In id (keys_of (foldl add_match ∅ l)) <-> rules_of l id <> [].
Proof. rewrite keys_of_in, add_matches_lookup. destruct (rules_of l id); split; [intros [? ?]|..]; try done. Qed.

(** The matches of a hunt. *)
Definition matches_of (tenant hunt_id : Uuid) (s : Srv) : list HuntMatch :=
  List.filter (fun r => bool_decide (hm_tenant r = tenant) && bool_decide (hm_hunt_id r = hunt_id)) (rows TMatch s).

(** The blast radius of a hunt.  It lists the tenant's artifacts that some
    match of the hunt names, each with the rules of its matches in the order they
    were recorded, and the hosts of their occurrences.  It attests absence exactly
    when the hunt has no match, and then with the hunt's watermark and the size of
    its plan. *)
Theorem blast_radius_hunt tenant hunt_id expand s r s' :
  by_hunt tenant hunt_id expand s = (Ret r, s') ->
  let ms := matches_of tenant hunt_id s in
  exists h, fst (get_hunt tenant hunt_id s) = Ret h /\ br_hunt r = Some h /\
  (forall v, In v (br_artifacts r) -> exists a, In a (rows TArtifact s) /\ art_tenant a = tenant /\ ba_artifact_id v = art_id a /\
     ba_sha256 v = hex_encode (art_sha256 a) /\ ba_matched_rules v = rules_of ms (art_id a) /\ ba_matched_rules v <> []) /\
  (forall m a, In m ms -> In a (rows TArtifact s) -> art_tenant a = tenant -> art_id a = hm_artifact_id m ->
     exists v, In v (br_artifacts r) /\ ba_artifact_id v = art_id a /\ In (hm_rule_id m) (ba_matched_rules v)) /\
  match br_attestation r with
  | Some at_ => ms = [] /\ br_artifacts r = [] /\ br_hosts r = [] /\ at_result at_ = "no_match"%string /\
      at_corpus_watermark at_ = default 0 (hu_corpus_watermark h) /\ at_artifacts_evaluated at_ = hu_planned_artifacts h
  | None => ms <> []
  end.
Proof.
  intros H ms. unfold by_hunt in H. apply bind_ret in H as (h & s1 & Hh & H).
  assert (s1 = s) as -> by (unfold get_hunt, select_optional, gets, mbind, op_mbind in Hh; cbn in Hh; by destruct (head _); injection Hh).
  exists h. split; [by rewrite Hh|].
  apply bind_ret in H as (ms' & s1 & Hms & H). unfold select, gets in Hms. injection Hms as <- <-. fold (matches_of tenant hunt_id s) in H. fold ms in H.
  destruct (keys_of (foldl add_match ∅ ms)) as [|id ids] eqn:Ek.
  - assert (Hms : ms = []).
    { clear -Ek. destruct ms as [|m l]; [done|]. exfalso. assert (Hk : In (hm_artifact_id m) (keys_of (foldl add_match ∅ (m :: l)))).
      { apply matched_in. intros E. pose proof (rules_of_nonempty (m :: l) m (or_introl eq_refl)) as Hr. by rewrite E in Hr. }
      by rewrite Ek in Hk. }
    apply bind_ret in H as (at_ & s1 & Hat & H). apply bind_ret in H as (t & s2 & _ & H). injection H as <- _. cbn.
    split; [done|]. split; [done|]. split; [by rewrite Hms|]. unfold attestation_for, mbind, op_mbind in Hat. cbn in Hat. by injection Hat as <- _.
  - apply build_report_run in H as (_ & _ & Hhunt & -> & Harts & _ & _). split; [done|]. rewrite Harts. split; [|split].
    + intros v (a & <- & Ha)%in_map_iff. apply sort_by_in, filter_In in Ha as [Ha [Hta%bool_decide_eq_true Hone%one_of_ids_in]%andb_true_iff].
      exists a. do 2 (split; [done|]). split; [done|]. split; [done|]. rewrite <- Ek in Hone. apply matched_in in Hone.
      cbn [ba_matched_rules view_at]. rewrite add_matches_lookup. by destruct (rules_of ms (art_id a)).
    + intros m a Hm Ha Hta Hai. pose proof (rules_of_nonempty ms m Hm) as Hr. rewrite <- Hai in Hr.
      exists (view_at tenant (foldl add_match ∅ ms) s a). split; [|split; [done|]].
      * apply in_map, sort_by_in, filter_In. split; [done|]. rewrite bool_decide_true by done. apply one_of_ids_in. rewrite <- Ek. apply matched_in.
        intros E. by rewrite E in Hr.
      * cbn [ba_matched_rules view_at]. rewrite add_matches_lookup. by destruct (rules_of ms (art_id a)).
    + intros Hms. assert (Hk : In id (keys_of (foldl add_match ∅ ms))) by (rewrite Ek; by left). apply matched_in in Hk. apply Hk. by rewrite Hms.
Qed.

(** C17. Attested absence.  When a hunt has run and its report attests that nothing
    matched, the attestation is pinned to the watermark the hunt ran under, and no
    scan of an artifact of the plan found a rule: each has a cache entry, and one
    that says "matched" names no rule. *)
Theorem absence_after_hunt `{YaraX} `{ScannerHost} `{Sha256} tenant hunt_id s h s1 expand r s2 at_ :
  execute_hunt tenant hunt_id s = (Ret h, s1) -> (forall m, In m (rows TMatch s1) -> hm_hunt_id m = hunt_id -> hm_tenant m = tenant) ->
  by_hunt tenant hunt_id expand s1 = (Ret r, s2) -> br_attestation r = Some at_ ->
  exists hunt w, fst (get_hunt tenant hunt_id s) = Ret hunt /\ hu_corpus_watermark hunt = Some w /\ at_corpus_watermark at_ = w /\
  at_artifacts_evaluated at_ = hu_planned_artifacts h /\
  forall a, In a (plan tenant w (rows TArtifact s)) ->
    exists hit, cache_find (cache_key tenant (art_sha256 a) (hu_bundle_digest hunt)) (rows TCache s1) = Some hit /\
      (ch_status hit = status_str Matched -> ch_matched_rule_ids hit = []).
Proof.
  intros He Htm Hb Hat. destruct (execute_hunt_result _ _ _ _ _ He) as (hunt & w & c & Hg & Hw & Hw' & _ & _ & _ & _ & Hs).
  destruct (execute_hunt_stages _ _ _ _ _ He) as (hunt' & w' & c' & t1 & t2 & so & co & s3 & s4 & _ & _ & _ & _ & _ & _ & _ & _ & Hrow).
  destruct (blast_radius_hunt _ _ _ _ _ _ Hb) as (h' & Hg' & _ & _ & _ & H'). rewrite Hat in H'. destruct H' as (Hms & _ & _ & _ & Hwm & Hn).
  assert (h' = h) as ->.
  { unfold get_hunt, select_optional, gets, mbind, op_mbind in Hg'. cbn in Hg'. rewrite Hrow in Hg'. by injection Hg'. }
  exists hunt, w. do 2 (split; [done|]). split; [by rewrite Hwm, Hw'|]. split; [done|]. intros a Ha.
  destruct (Hs a Ha) as (hit & Hf & Hm). exists hit. split; [done|]. intros Hst.
  destruct (ch_matched_rule_ids hit) as [|x l] eqn:El; [done|]. exfalso.
  specialize (Hm Hst x (or_introl eq_refl)). apply in_map_iff in Hm as (m & Em & Hm). injection Em as Eh _ _.
  assert (Hin : In m (matches_of tenant hunt_id s1)) by (apply filter_In; rewrite (Htm m Hm Eh), Eh, !bool_decide_true; done).
  by rewrite Hms in Hin.
Qed.
End blast.

(** ** Rarity and droppers *)

Lemma rarer_total : le_total rarer.
Proof. intros x y. unfold rarer. rewrite !orb_true_iff, !andb_true_iff, !Z.ltb_lt, !Z.eqb_eq, !Z.leb_le. lia. Qed.

Lemma rarer_trans : le_trans rarer.
Proof. intros x y z. unfold rarer. rewrite !orb_true_iff, !andb_true_iff, !Z.ltb_lt, !Z.eqb_eq, !Z.leb_le. lia. Qed.

Section searches.
  Context {HEX : HexCodec} {CT : ChronoText}.

(** The rarity search.  Up to the limit it answers, rarest first and then
    latest, exactly the tenant's committed endpoint artifacts that were observed,
    the last time at or after the date given, on at most so many hosts, and whose
    latest opinion is the one asked for, if one was. *)
Theorem rarity_search_spec tenant max_hosts since opinion limit s hits s' :
  rarity_search tenant max_hosts since opinion limit s = (Ret hits, s') ->
  s' = s /\ 0 <= limit /\ exists all, hits = take (Z.to_nat limit) all /\ StronglySorted (fun x y => rarer x y = true) all /\
  forall h, In h all <-> exists a, In a (rows TArtifact s) /\ endpoint_committed tenant a = true /\
    let seen := List.filter (occurrence_of tenant (art_id a)) (rows TOccurrence s) in
    h = mkRarityHit (art_id a) (hex_encode (art_sha256 a)) (art_class a) (art_first_committed_at a) (prevalence_of seen)
          (last_opinion tenant (art_id a) (rows TOpinion s)) /\
    (exists o, In o seen /\ since <= oc_observed_at o) /\ len (remove_dups (map oc_host_name seen)) <= max_hosts /\
    (forall w, opinion = Some w -> last_opinion tenant (art_id a) (rows TOpinion s) = Some w).
Proof.
  unfold rarity_search. destruct (limit <? 0) eqn:El; [done|]. apply Z.ltb_ge in El. unfold gets. intros [= <- <-]. split; [done|]. split; [done|].
  eexists. split; [reflexivity|]. split; [apply sort_by_sorted; [apply rarer_total|apply rarer_trans]|]. intros h.
  rewrite sort_by_in, <- list_elem_of_In, list_elem_of_omap. unfold rarity_hit.
  split.
  - intros (a & Ha%list_elem_of_In & E). destruct (_ && _) eqn:Ec; [|discriminate E]. injection E as <-.
    apply andb_true_iff in Ec as [Ec Hop]. apply andb_true_iff in Ec as [Ec Hlast]. apply andb_true_iff in Ec as [Hend Hmax%Z.leb_le].
    exists a. do 2 (split; [done|]). cbv zeta. split; [done|]. split; [|split; [done|]].
    + cbn [pv_last_observed prevalence_of] in Hlast. destruct (greatest _) as [m|] eqn:Em; [|done]. apply Z.leb_le in Hlast.
      apply greatest_some in Em as [(o & <- & Ho)%in_map_iff _]. by exists o.
    + intros w ->. by apply bool_decide_eq_true in Hop.
  - cbv zeta. intros (a & Ha & Hend & -> & (o & Ho & Hs) & Hmax & Hop). exists a. split; [by apply list_elem_of_In|]. rewrite Hend.
    cbn [pv_host_count pv_last_observed prevalence_of]. rewrite (proj2 (Z.leb_le _ _) Hmax).
    destruct (greatest _) as [m|] eqn:Em.
    + apply greatest_some in Em as [_ Em]. assert (oc_observed_at o <= m) by (apply Em; by apply in_map).
      rewrite (proj2 (Z.leb_le since m)) by lia. destruct opinion as [w|]; [rewrite bool_decide_true by (by apply Hop)|]; done.
    + apply (in_map oc_observed_at) in Ho. by destruct (map oc_observed_at _).
Qed.

(** *** Droppers *)

(** [f] is an observation of artifact [id] on a host, none earlier there. *)
Definition first_on_host (tenant id : Uuid) (s : Srv) (f : Occurrence) : Prop :=
  In f (rows TOccurrence s) /\ oc_tenant f = tenant /\ oc_artifact_id f = Some id /\
  forall o, In o (rows TOccurrence s) -> oc_tenant o = tenant -> oc_artifact_id o = Some id -> oc_host_name o = oc_host_name f ->
    oc_observed_at f <= oc_observed_at o.

(** What makes [c] a lead for the seeds. *)
Definition lead (tenant : Uuid) (seeds : list Uuid) (window : Z) (s : Srv) (c : DropperCandidate) : Prop :=
  ~ In (dp_artifact_id c) seeds /\
  (exists a, In a (rows TArtifact s) /\ art_tenant a = tenant /\ art_id a = dp_artifact_id c /\ dp_sha256 c = hex_encode (art_sha256 a)) /\
  dp_host_count c = len (remove_dups (map oc_host_name (List.filter (occurrence_of tenant (dp_artifact_id c)) (rows TOccurrence s)))) /\
  exists f o, first_on_host tenant (dp_artifact_id c) s f /\ dp_host_name c = oc_host_name f /\ dp_path c = oc_path f /\
    In o (rows TOccurrence s) /\ seed_occurrence tenant seeds o = true /\ oc_host_name o = oc_host_name f /\
    dp_min_time_delta_secs c = Z.abs (oc_observed_at f - oc_observed_at o) /\ dp_min_time_delta_secs c <= window.

Lemma first_occurrences_in l f : In f (first_occurrences l) ->
  In f l /\ forall o, In o l -> artifact_host o = artifact_host f -> oc_observed_at f <= oc_observed_at o.
Proof.
  unfold first_occurrences. rewrite <- list_elem_of_In, list_elem_of_omap. intros (k & Hk & Eh).
  set (le := fun a b : Occurrence => oc_observed_at a <=? oc_observed_at b) in Eh.
  assert (Hs : StronglySorted (fun a b => le a b = true) (sort_by le (List.filter (fun o => bool_decide (artifact_host o = k)) l))).
  { apply sort_by_sorted; [intros x y|intros x y z]; unfold le; rewrite !Z.leb_le; lia. }
  destruct (sort_by le _) as [|g r] eqn:Es; [discriminate Eh|]. injection Eh as ->.
  assert (Hin : forall o, In o (f :: r) <-> In o l /\ artifact_host o = k).
  { intros o. rewrite <- Es, sort_by_in, filter_In. by rewrite bool_decide_eq_true. }
  destruct (proj1 (Hin f) (or_introl eq_refl)) as [Hf Ef]. split; [done|]. intros o Ho Eo.
  assert (Hor : In o (f :: r)) by (apply Hin; split; [done|congruence]). destruct Hor as [<-|Hor]; [lia|].
  inversion Hs as [|? ? _ Hall]; subst. rewrite List.Forall_forall in Hall. specialize (Hall o Hor). unfold le in Hall. by apply Z.leb_le in Hall.
Qed.

Lemma first_occurrences_has l o : In o l -> exists f, In f (first_occurrences l) /\ artifact_host f = artifact_host o.
Proof.
  intros Ho. set (le := fun a b : Occurrence => oc_observed_at a <=? oc_observed_at b).
  destruct (head (sort_by le (List.filter (fun x => bool_decide (artifact_host x = artifact_host o)) l))) as [f|] eqn:Eh.
  - exists f. split.
    + unfold first_occurrences. apply list_elem_of_In, list_elem_of_omap. exists (artifact_host o). split; [|done].
      apply elem_of_remove_dups, list_elem_of_In, in_map_iff. by exists o.
    + assert (Hin : In f (sort_by le (List.filter (fun x => bool_decide (artifact_host x = artifact_host o)) l))) by (destruct (sort_by le _); simplify_eq/=; by left).
      by apply sort_by_in, filter_In in Hin as [_ Hf%bool_decide_eq_true].
  - exfalso. assert (Hin : In o (sort_by le (List.filter (fun x => bool_decide (artifact_host x = artifact_host o)) l)))
      by (apply sort_by_in, filter_In; split; [done|by apply bool_decide_eq_true]).
    by destruct (sort_by le _).
Qed.

Lemma candidate_seen tenant seeds arts o : candidate_occurrence tenant seeds arts o = true ->
  oc_tenant o = tenant /\ exists id, oc_artifact_id o = Some id /\ ~ In id seeds.
Proof.
  unfold candidate_occurrence. intros [Ht%bool_decide_eq_true H]%andb_true_iff. split; [done|]. destruct (oc_artifact_id o) as [id|]; [|done].
  exists id. split; [done|]. apply andb_true_iff in H as [H _]. apply negb_true_iff in H. intros Hin. rewrite existsb_false_forall in H.
  specialize (H id Hin). by rewrite bool_decide_true in H.
Qed.

Lemma candidate_same tenant seeds arts o o' : oc_tenant o' = tenant -> oc_artifact_id o' = oc_artifact_id o ->
  candidate_occurrence tenant seeds arts o = true -> candidate_occurrence tenant seeds arts o' = true.
Proof. unfold candidate_occurrence. intros -> -> [_ H]%andb_true_iff. by rewrite bool_decide_true. Qed.

Lemma deltas_in window l f d : In d (deltas window l f) <->
  d <= window /\ exists o, In o l /\ oc_host_name o = oc_host_name f /\ d = Z.abs (oc_observed_at f - oc_observed_at o).
Proof.
  unfold deltas. rewrite filter_In, in_map_iff, Z.leb_le. setoid_rewrite filter_In. setoid_rewrite String.eqb_eq. naive_solver.
Qed.

Lemma dropper_row_lead tenant seeds window s f c :
  In f (first_occurrences (List.filter (candidate_occurrence tenant seeds (rows TArtifact s)) (rows TOccurrence s))) ->
  dropper_row tenant window (List.filter (seed_occurrence tenant seeds) (rows TOccurrence s)) (rows TOccurrence s) (rows TArtifact s) f = Some c ->
  lead tenant seeds window s c /\ oc_artifact_id f = Some (dp_artifact_id c) /\ dp_host_name c = oc_host_name f.
Proof.
  intros Hf E. apply first_occurrences_in in Hf as [[Hin Hc]%filter_In Hfirst]. destruct (candidate_seen _ _ _ _ Hc) as (Htf & id & Eid & Hns).
  unfold dropper_row in E. rewrite Eid in E. cbn [mbind option_bind] in E.
  destruct (least _) as [d|] eqn:Ed; [|discriminate E]. cbn [mbind option_bind] in E.
  destruct (head _) as [a|] eqn:Ea; [|discriminate E]. injection E as <-. cbn [dp_artifact_id dp_host_name].
  split; [|done]. apply least_some in Ed as [(Hd & o & [Ho Hso]%filter_In & Eh & ->)%deltas_in _].
  apply head_filter_in in Ea as [Ha [Hta%bool_decide_eq_true Hia%bool_decide_eq_true]%andb_true_iff].
  split; [done|]. split; [by exists a|]. split; [done|]. exists f, o. cbn [dp_artifact_id dp_host_name dp_path dp_min_time_delta_secs].
  split; [|done]. split; [done|]. split; [done|]. split; [done|]. intros x Hx Htx Eix Ehx. apply Hfirst.
  - apply filter_In. split; [done|]. by apply (candidate_same _ _ _ f); [|congruence|].
  - unfold artifact_host. congruence.
Qed.

Lemma dropper_rows_leads tenant seeds window s :
  StronglySorted (fun x y => nearer x y = true) (dropper_rows tenant seeds window s) /\
  (forall c, In c (dropper_rows tenant seeds window s) -> lead tenant seeds window s c) /\
  (forall id f o a, first_on_host tenant id s f -> ~ In id seeds -> In a (rows TArtifact s) -> art_tenant a = tenant -> art_id a = id ->
     art_scope a = "endpoint"%string -> In o (rows TOccurrence s) -> seed_occurrence tenant seeds o = true -> oc_host_name o = oc_host_name f ->
     Z.abs (oc_observed_at f - oc_observed_at o) <= window ->
     exists c, In c (dropper_rows tenant seeds window s) /\ dp_artifact_id c = id /\ dp_host_name c = oc_host_name f).
Proof.
  unfold dropper_rows. split; [apply sort_by_sorted; [intros x y|intros x y z]; unfold nearer; rewrite !Z.leb_le; lia|]. split.
  - intros c. rewrite sort_by_in, <- list_elem_of_In, list_elem_of_omap. intros (f & Hf%list_elem_of_In & E). by apply (dropper_row_lead _ _ _ _ f).
  - intros id f o a (Hf & Htf & Eid & Hfirst) Hns Ha Hta Hai Hsc Ho Hso Eh Hd.
    assert (Hc : candidate_occurrence tenant seeds (rows TArtifact s) f = true).
    { unfold candidate_occurrence. rewrite Eid, bool_decide_true by done. apply andb_true_iff. split; [done|]. apply andb_true_iff. split.
      - apply negb_true_iff, existsb_false_forall. intros x Hx. apply bool_decide_eq_false. intros ->. done.
      - apply existsb_exists. exists a. split; [done|]. rewrite Hta, Hai, Hsc, !bool_decide_true by done. done. }
    destruct (first_occurrences_has (List.filter (candidate_occurrence tenant seeds (rows TArtifact s)) (rows TOccurrence s)) f) as (g & Hg & Eg);
      [by apply filter_In|].
    injection Eg as Eig Ehg. pose proof (first_occurrences_in _ _ Hg) as [[Hgin Hgc]%filter_In Hgf].
    assert (Et : oc_observed_at g = oc_observed_at f).
    { destruct (candidate_seen _ _ _ _ Hgc) as (Htg & _). apply Z.le_antisymm.
      - apply Hgf; [by apply filter_In|unfold artifact_host; congruence].
      - apply Hfirst; [done|done|congruence|done]. }
    destruct (dropper_row tenant window (List.filter (seed_occurrence tenant seeds) (rows TOccurrence s)) (rows TOccurrence s) (rows TArtifact s) g) as [c|] eqn:Er.
    + destruct (dropper_row_lead _ _ _ _ _ _ Hg Er) as (_ & Ec & Eh'). exists c. split; [|split; congruence].
      rewrite sort_by_in, <- list_elem_of_In, list_elem_of_omap. exists g. split; [by apply list_elem_of_In|done].
    + exfalso. unfold dropper_row in Er. rewrite Eig, Eid in Er. cbn [mbind option_bind] in Er.
      destruct (least _) as [d|] eqn:Ed.
      * cbn [mbind option_bind] in Er. destruct (head _) eqn:Ea; [discriminate Er|]. assert (Hx := head_filter_none _ _ Ea a Ha). unfold artifact_is in Hx.
        by rewrite Hta, Hai, !bool_decide_true in Hx.
      * apply least_none in Ed. assert (Hin : In (Z.abs (oc_observed_at g - oc_observed_at o)) (deltas window (List.filter (seed_occurrence tenant seeds) (rows TOccurrence s)) g)).
        { apply deltas_in. split; [by rewrite Et|]. exists o. split; [by apply filter_In|]. by split; [congruence|]. }
        by rewrite Ed in Hin.
Qed.

(** Dropper leads.  Every answer is an artifact outside the seed's variant
    group, seen on few enough hosts, whose first observation on the host named
    lies within the window of an observation of the seed or its group there.  When
    the query found no more rows than the limit none is missing: each endpoint
    artifact and host of which this is true is answered. *)
Theorem dropper_candidates_spec tenant seed max_hosts hours limit s out s' :
  dropper_candidates tenant seed max_hosts hours limit s = (Ret out, s') -> 0 <= hours <= 2 ^ 51 ->
  s' = s /\ exists raw, hex_to_raw seed = Some raw /\
  match head (List.filter (artifact_by_sha tenant raw) (rows TArtifact s)) with
  | None => out = []
  | Some a => exists group members, fst (group_members tenant (art_id a) s) = Ret (group, members) /\
      let seeds := art_id a :: map fst members in let window := hours * 3600 in
      (forall c, In c out -> lead tenant seeds window s c /\ dp_host_count c <= max_hosts) /\
      (len (dropper_rows tenant seeds window s) <= limit -> forall id f o b,
         first_on_host tenant id s f -> ~ In id seeds -> In b (rows TArtifact s) -> art_tenant b = tenant -> art_id b = id ->
         art_scope b = "endpoint"%string -> len (remove_dups (map oc_host_name (List.filter (occurrence_of tenant id) (rows TOccurrence s)))) <= max_hosts ->
         In o (rows TOccurrence s) -> seed_occurrence tenant seeds o = true -> oc_host_name o = oc_host_name f ->
         Z.abs (oc_observed_at f - oc_observed_at o) <= window ->
         exists c, In c out /\ dp_artifact_id c = id /\ dp_host_name c = oc_host_name f)
  end.
Proof.
  intros H Hh. unfold dropper_candidates in H. destruct (hex_to_raw seed) as [raw|] eqn:Er; [|discriminate H].
  apply bind_ret in H as (o & s1 & Ho & H). unfold select_optional, gets in Ho. injection Ho as <- <-.
  destruct (head _) as [a|] eqn:Ea; [|injection H as <- <-; split; [done|]; exists raw; by rewrite Ea].
  apply bind_ret in H as ((group & members) & s1 & Hm & H). cbn zeta in H.
  assert (s1 = s) as ->.
  { unfold group_members, group_of, select_optional, select, gets, mbind, op_mbind in Hm. cbn in Hm. by destruct (_ <$> _) in Hm; injection Hm. }
  assert (Ew : signed 64 (u64_wrap (hours * 3600)) = hours * 3600).
  { unfold u64_wrap, wrap, signed. rewrite Z.mod_small by lia. by rewrite (proj2 (Z.ltb_lt _ _)) by lia. }
  rewrite Ew in H. destruct (limit <? 0) eqn:El; [discriminate H|]. apply Z.ltb_ge in El. unfold mbind, op_mbind, gets in H. cbn in H. injection H as <- <-.
  split; [done|]. exists raw. split; [done|]. rewrite Ea. exists group, members. split; [by rewrite Hm|].
  cbv zeta. set (seeds := art_id a :: map fst members). destruct (dropper_rows_leads tenant seeds (hours * 3600) s) as (_ & Hl & Hc). split.
  - intros c [Hin Hmax%Z.leb_le]%filter_In. split; [|done]. apply Hl. rewrite <- (take_drop (Z.to_nat limit) (dropper_rows _ _ _ _)), in_app_iff. by left.
  - intros Hn id f ob b Hf Hns Hb Htb Hib Hsc Hmax Ho Hso Eh Hd.
    destruct (Hc id f ob b Hf Hns Hb Htb Hib Hsc Ho Hso Eh Hd) as (c & Hin & Eid & Ehc). exists c. split; [|done].
    apply filter_In. rewrite take_ge by (unfold len in Hn; lia). split; [done|]. destruct (Hl c Hin) as (_ & _ & -> & _). rewrite Eid. by apply Z.leb_le.
Qed.
End searches.

(** ** Reading *)

(** The clock apart, the server is as it was. *)
Definition untouched (s0 s : Srv) : Prop :=
  srv_db s = srv_db s0 /\ srv_cas s = srv_cas s0 /\ srv_seq s = srv_seq s0 /\ srv_uuids s = srv_uuids s0 /\
  srv_uuid_next s = srv_uuid_next s0 /\ srv_clock s = srv_clock s0.

#[export] Instance untouched_preorder : PreOrder untouched.
Proof. split; [by intros s|]. unfold untouched. intros a b c. intuition congruence. Qed.

Lemma untouched_rows s0 s t : untouched s0 s -> rows t s = rows t s0.
Proof. intros (H & _). unfold rows. by rewrite H. Qed.

Lemma untouched_now s0 : keeps (untouched s0) now.
Proof. by intros s Hs. Qed.

Lemma untouched_gets {A} s0 (f : Srv -> A) : keeps (untouched s0) (gets f).
Proof. by intros s Hs. Qed.

Lemma untouched_concat {A B} s0 (l : list A) (f : A -> Op Srv (list B)) : (forall x, keeps (untouched s0) (f x)) -> keeps (untouched s0) (op_concat l f).
Proof. intros H. apply keeps_fold. intros b x _. apply keeps_bind; [apply H|intros; apply keeps_mret]. Qed.

Create HintDb reading.
#[export] Hint Resolve untouched_now untouched_gets untouched_concat keeps_mret keeps_throw keeps_panic keeps_lift keeps_or_throw : reading.
#[export] Hint Extern 1 (keeps _ (select _ _)) => (intros ? HI; exact HI) : reading.
#[export] Hint Extern 1 (keeps _ (select_optional _ _)) => (intros ? HI; exact HI) : reading.
#[export] Hint Extern 1 (keeps _ (select_count _ _)) => (intros ? HI; exact HI) : reading.

(** The structural steps of a reading operation. *)
Ltac reading_tac :=
  repeat first
    [ solve [auto 2 with reading]
    | progress cbv zeta
    | match goal with
      | |- keeps _ (mbind _ _) => apply keeps_bind; [|intros ?]
      | |- keeps _ (op_concat _ _) => apply untouched_concat; intros ?
      | |- keeps _ (op_fold _ _ _) => apply keeps_fold; intros ? ? ?
      | |- keeps _ (match ?x with _ => _ end) => destruct x
      | |- keeps _ (if ?x then _ else _) => destruct x
      end ].

Section reading.
  Context {HEX : HexCodec} {UD : UuidDisplay} {CT : ChronoText} (s0 : Srv).

Lemma reading_prevalence t a : keeps (untouched s0) (prevalence_for t a).
Proof. unfold prevalence_for. reading_tac. Qed.
Lemma reading_current_opinion t a : keeps (untouched s0) (current_opinion t a).
Proof. unfold current_opinion. reading_tac. Qed.
Lemma reading_artifact_for_sha t sha : keeps (untouched s0) (artifact_for_sha t sha).
Proof. unfold artifact_for_sha. reading_tac. Qed.
Lemma reading_detections t a n : keeps (untouched s0) (detections_for_artifact t a n).
Proof. unfold detections_for_artifact. reading_tac. Qed.
Lemma reading_edges_for t a : keeps (untouched s0) (edges_for t a).
Proof. unfold edges_for. reading_tac. Qed.
Lemma reading_group_members t a : keeps (untouched s0) (group_members t a).
Proof. unfold group_members, group_of. reading_tac. Qed.
Lemma reading_variants_view t sha : keeps (untouched s0) (variants_view t sha).
Proof. unfold variants_view, group_members, group_of. reading_tac. Qed.
Lemma reading_get_hunt t id : keeps (untouched s0) (get_hunt t id).
Proof. unfold get_hunt. reading_tac. Qed.
Lemma reading_rarity t n since o limit : keeps (untouched s0) (rarity_search t n since o limit).
Proof. unfold rarity_search. reading_tac. Qed.
Lemma reading_parse_since s : keeps (untouched s0) (parse_since s).
Proof. unfold parse_since. reading_tac. Qed.
Lemma reading_metrics t : keeps (untouched s0) (platform_metrics t).
Proof. unfold platform_metrics. reading_tac. Qed.
#[local] Hint Resolve reading_prevalence reading_current_opinion reading_edges_for reading_group_members reading_variants_view
  reading_get_hunt reading_detections : reading.
Lemma reading_droppers t seed n h limit : keeps (untouched s0) (dropper_candidates t seed n h limit).
Proof. unfold dropper_candidates. reading_tac. Qed.
Lemma reading_occurrences_of t ids : keeps (untouched s0) (occurrences_of t ids).
Proof. unfold occurrences_of. reading_tac. Qed.
Lemma reading_artifacts_of t ids : keeps (untouched s0) (artifacts_of t ids).
Proof. unfold artifacts_of. reading_tac. Qed.
#[local] Hint Resolve reading_occurrences_of reading_artifacts_of : reading.
Lemma reading_build_report t q h ids m x : keeps (untouched s0) (build_report t q h ids m x).
Proof. unfold build_report, attestation_for, expand_variants_for, group_ids_of, leads_of, artifact_view, findings_of. reading_tac. Qed.
#[local] Hint Resolve reading_build_report : reading.
Lemma reading_by_hunt t id x : keeps (untouched s0) (by_hunt t id x).
Proof. unfold by_hunt. reading_tac. Qed.
Lemma reading_by_sha256 t sha x : keeps (untouched s0) (by_sha256 t sha x).
Proof. unfold by_sha256. reading_tac. Qed.
#[local] Hint Resolve reading_by_hunt reading_by_sha256 : reading.
Lemma reading_investigate_sha256 t sha : keeps (untouched s0) (investigate_sha256 t sha).
Proof. unfold investigate_sha256. reading_tac. Qed.
#[local] Hint Resolve reading_investigate_sha256 : reading.
Lemma reading_investigate_hunt t id : keeps (untouched s0) (investigate_hunt t id).
Proof. unfold investigate_hunt, no_matches. reading_tac. Qed.
End reading.

#[export] Hint Resolve reading_prevalence reading_current_opinion reading_artifact_for_sha reading_variants_view reading_rarity reading_parse_since
  reading_metrics reading_droppers reading_by_hunt reading_by_sha256 reading_investigate_sha256 reading_investigate_hunt : reading.

(** ** Investigations *)

Section investigations.
  Context {HEX : HexCodec} {UD : UuidDisplay} {CT : ChronoText}.

(** A digest's blast radius names no rule. *)
Lemma by_sha256_no_rules tenant sha expand s r s' :
  by_sha256 tenant sha expand s = (Ret r, s') -> existsb rule_matched (br_artifacts r) = false.
Proof.
  intros H. unfold by_sha256 in H. destruct (hex_to_raw sha) as [raw|]; [|discriminate H].
  apply bind_ret in H as (o & s1 & _ & H). destruct o as [a|].
  - apply build_report_run in H as (_ & _ & _ & _ & -> & _). apply existsb_false_forall. intros v (a' & <- & _)%in_map_iff.
    unfold rule_matched. cbn [ba_matched_rules view_at]. by rewrite lookup_empty.
  - apply bind_ret in H as (at_ & s2 & _ & H). apply bind_ret in H as (t & s3 & _ & H). by injection H as <- _.
Qed.

(** The parts of a digest's investigation. *)
Lemma investigate_sha256_run tenant sha s r s' : investigate_sha256 tenant sha s = (Ret r, s') ->
  exists s2 raw a, by_sha256 tenant sha true s = (Ret (ir_blast_radius r), s2) /\
  hex_to_raw sha = Some raw /\ In a (rows TArtifact s) /\ artifact_by_sha tenant raw a = true /\
  ir_severity r = summarize_severity (ir_detections r) (ir_opinion r) (ir_blast_radius r) /\
  ir_title r = title_of sha (ir_detections r) (ir_blast_radius r) /\
  ir_recommended_actions r = recommend sha (ir_blast_radius r) (ir_opinion r) (ir_detections r) (pv_host_count (ir_prevalence r)).
Proof.
  unfold investigate_sha256. intros H. apply bind_ret in H as (raw & s1 & Hr & H).
  destruct (hex_to_raw sha) as [raw'|] eqn:Er; [|discriminate Hr]. injection Hr as -> <-.
  apply bind_ret in H as (row & s1 & Ho & H). unfold select_optional, gets in Ho. injection Ho as <- <-.
  apply bind_ret in H as (a & s1 & Ha & H). destruct (head _) as [a'|] eqn:Eh; [|discriminate Ha]. injection Ha as -> <-.
  apply head_filter_in in Eh as [Hin [Hp _]%andb_true_iff].
  apply bind_ret in H as (blast & s2 & Hb & H). apply bind_ret in H as (dets & s3 & _ & H). apply bind_ret in H as (cur & s4 & _ & H).
  apply bind_ret in H as (prev & s5 & _ & H). apply bind_ret in H as (view & s6 & _ & H). apply bind_ret in H as (t & s7 & _ & H).
  injection H as <- _. exists s2, raw, a. cbn. repeat split; done.
Qed.

(** What raises the severity of a digest's investigation: a detection or an
    opinion, never a rule that matched the artifact, since its blast radius names
    none. *)
Theorem investigation_ignores_matches tenant sha s r s' :
  investigate_sha256 tenant sha s = (Ret r, s') ->
  existsb rule_matched (br_artifacts (ir_blast_radius r)) = false /\
  (In (sv_level (ir_severity r)) ["medium"; "high"; "critical"]%string <->
     (exists d, In d (ir_detections r) /\ In (de_severity d) ["medium"; "high"; "critical"]%string) \/
     ir_opinion r = Some "malicious"%string \/ ir_opinion r = Some "suspicious"%string).
Proof.
  intros H. apply investigate_sha256_run in H as (s2 & raw & a & Hb & _ & _ & _ & Hs & _). apply by_sha256_no_rules in Hb. split; [done|]. rewrite Hs.
  assert (Hsev : forall x, has_severity x (ir_detections r) = true <-> exists d, In d (ir_detections r) /\ de_severity d = x).
  { intros x. unfold has_severity. rewrite existsb_exists. by setoid_rewrite String.eqb_eq. }
  assert (Hop : forall x, is_opinion (ir_opinion r) x = true <-> ir_opinion r = Some x).
  { intros x. unfold is_opinion. destruct (ir_opinion r) as [y|]; [|done]. rewrite String.eqb_eq. naive_solver. }
  unfold summarize_severity, base_severity. rewrite Hb, orb_false_r.
  destruct (has_severity "critical" _) eqn:E1.
  { apply Hsev in E1 as (d & Hd & Ed). cbn. rewrite andb_false_r. cbn. split; [|tauto]. intros _. left. exists d. rewrite Ed. cbn. tauto. }
  destruct (has_severity "high" _ || _) eqn:E2.
  { cbn. rewrite andb_false_r. cbn. split; [|tauto]. intros _. apply orb_true_iff in E2 as [(d & Hd & Ed)%Hsev|Ho%Hop]; [left; exists d; rewrite Ed; cbn; tauto|tauto]. }
  destruct (has_severity "medium" _ || _) eqn:E3.
  { cbn. rewrite !andb_true_r. split.
    - intros _. apply orb_true_iff in E3 as [(d & Hd & Ed)%Hsev|Ho%Hop]; [left; exists d; rewrite Ed; cbn; tauto|tauto].
    - intros _. destruct (5 <? _); cbn; tauto. }
  apply orb_false_iff in E2 as [E2 E2'], E3 as [E3 E3'].
  assert (Hno : ~ ((exists d, In d (ir_detections r) /\ In (de_severity d) ["medium"; "high"; "critical"]%string) \/
    ir_opinion r = Some "malicious"%string \/ ir_opinion r = Some "suspicious"%string)).
  { intros [(d & Hd & [Ed|[Ed|[Ed|[]]]])|[Ho|Ho]].
    - assert (has_severity "medium" (ir_detections r) = true) by (apply Hsev; eauto). congruence.
    - assert (has_severity "high" (ir_detections r) = true) by (apply Hsev; eauto). congruence.
    - assert (has_severity "critical" (ir_detections r) = true) by (apply Hsev; eauto). congruence.
    - apply Hop in Ho. congruence.
    - apply Hop in Ho. congruence. }
  split; [|done]. intros Hin. exfalso. revert Hin. destruct (is_opinion (ir_opinion r) "grayware" || is_opinion (ir_opinion r) "vulnerable"); cbn;
    rewrite ?andb_true_r, ?andb_false_r; cbn; intuition discriminate.
Qed.

(** The title of a hunt's investigation counts the artifacts of the seed's blast
    radius, of which there is one, not the hunt's. *)
Theorem hunt_title_counts_seed tenant hunt_id s r s' :
  unique_key TArtifact art_id s -> investigate_hunt tenant hunt_id s = (Ret r, s') -> br_artifacts (ir_blast_radius r) <> [] ->
  exists h, br_hunt (ir_blast_radius r) = Some h /\
    ir_title r = text ["Hunt "; uuid_to_string (hu_id h); " campaign (1 artifacts)"]%string.
Proof.
  intros Hu H Hne. unfold investigate_hunt in H. apply bind_ret in H as (blast & s1 & Hb & H).
  assert (Hs1 : untouched s s1) by (replace s1 with (snd (by_hunt tenant hunt_id true s)) by (by rewrite Hb); by apply reading_by_hunt).
  destruct (blast_radius_hunt _ _ _ _ _ _ Hb) as (h & _ & Hh & _).
  destruct (br_artifacts blast) as [|v l] eqn:Eb.
  { exfalso. apply bind_ret in H as (t & s2 & _ & H). apply bind_ret in H as (t' & s3 & _ & H). injection H as <- _. by apply Hne. }
  apply bind_ret in H as (r0 & s2 & Hr0 & H). injection H as <- _. cbn [ir_blast_radius with_hunt ir_title]. exists h. split; [done|].
  destruct (investigate_sha256_run _ _ _ _ _ Hr0) as (s3 & raw & a & Hsha & Er & Ha & Hp & _).
  assert (Hu1 : unique_key TArtifact art_id s1) by (unfold unique_key; by rewrite (untouched_rows s)).
  destruct (blast_radius_sha _ _ _ _ _ _ Hu1 Hsha) as (raw' & Er' & [(a' & v' & p & _ & _ & Ev & _)|(Hno & _)]).
  - unfold with_hunt. cbn [ir_title]. rewrite Hh, Ev. reflexivity.
  - exfalso. rewrite Er in Er'. injection Er' as <-. by rewrite (Hno a Ha) in Hp.
Qed.
End investigations.

(** ** Witnesses *)

Section witnesses.
Local Existing Instance ReferenceYara.engine.
Local Existing Instance ReferenceYara.host.
Local Existing Instance ReferenceHash.sha.
Local Existing Instance ReferenceHash.hex.
Local Existing Instance ReferenceUuid.display.
Local Instance plain_text : ChronoText := {| to_rfc3339 := show_Z; parse_from_rfc3339 := fun _ => None; minus_seconds := fun t n => Some (t - n) |}.

(** What a run returned, and a reading of it. *)
Definition returned {A} (o : outcome A) : option A := match o with Ret a => Some a | _ => None end.
Lemma reads_as {A B} (F : A -> B) (p : outcome A * Srv) r s b : p = (Ret r, s) -> F <$> returned (fst p) = Some b -> F r = b.
Proof. intros -> H. by injection H. Qed.

Definition sha_of (b : byte) : string := hex_encode (repeat b 32).
Definition file_row (id : Uuid) (b : byte) : Artifact :=
  mkArtifact id 7%N (Z.of_N id) (repeat b 32) 10 "pe" "committed" "" 5 "endpoint" (JObj []).
Definition sighting (id : Uuid) (b : byte) (n : N) (host path : string) (t : Time) : Occurrence :=
  mkOccurrence n 7%N host 0%N 0%N 0 (Some id) (Some (repeat b 32)) "file" "usn_poll" t t (Some path) None None None.

(** The seed 1 on one host; 2 on that host soon after and on another; 3 later. *)
Definition fleet : Srv :=
  set_rows TOccurrence
    [sighting 1%N x01 11%N "alpha" "C:\seed" 1000; sighting 2%N x02 12%N "alpha" "C:\two" 1010; sighting 2%N x02 13%N "beta" "C:\two" 500;
     sighting 3%N x03 14%N "alpha" "C:\three" 1900; sighting 1%N x01 15%N "alpha" "C:\copy" 3000]
    (set_rows TArtifact [file_row 1%N x01; file_row 2%N x02; file_row 3%N x03] ReferenceServer.empty).

Lemma fleet_unique : unique_key TArtifact art_id fleet.
Proof. unfold unique_key. vm_compute. repeat constructor; set_solver. Qed.

Lemma blast_radius_sha_witness :
  exists r, fst (by_sha256 7%N (sha_of x01) false fleet) = Ret r /\ map bh_host_name (br_hosts r) = ["alpha"]%string /\ br_attestation r = None.
Proof.
  destruct (by_sha256 7%N (sha_of x01) false fleet) as [o s'] eqn:E. pose proof (f_equal fst E) as Eo. cbn [fst] in *.
  destruct o as [r|e|]; [|vm_compute in Eo; discriminate Eo..]. exists r. split; [done|].
  assert (Eh : map bh_host_name (br_hosts r) = ["alpha"]%string) by (apply (reads_as (map bh_host_name ∘ br_hosts) _ _ _ _ E); vm_compute; reflexivity).
  split; [exact Eh|]. destruct (blast_radius_sha 7%N (sha_of x01) false fleet r s' fleet_unique E) as (raw & _ & [(a & v & p & _ & _ & _ & _ & _ & _ & Hat & _)|(_ & _ & Hh & _)]).
  - exact Hat.
  - rewrite Hh in Eh. discriminate Eh.
Defined.

Lemma rarity_search_spec_witness :
  exists hits, fst (rarity_search 7%N 1 900 None 10 fleet) = Ret hits /\ map rh_artifact_id hits = [1; 3]%N /\ 0 <= 10.
Proof.
  destruct (rarity_search 7%N 1 900 None 10 fleet) as [o s'] eqn:E. pose proof (f_equal fst E) as Eo. cbn [fst] in *.
  destruct o as [hits|e|]; [|vm_compute in Eo; discriminate Eo..]. exists hits. split; [done|]. split.
  - apply (reads_as (map rh_artifact_id) _ _ _ _ E). vm_compute. reflexivity.
  - exact (proj1 (proj2 (rarity_search_spec 7%N 1 900 None 10 fleet hits s' E))).
Defined.

Lemma dropper_candidates_spec_witness :
  exists out, fst (dropper_candidates 7%N (sha_of x01) 1 1 10 fleet) = Ret out /\ map dp_artifact_id out = [3]%N /\
  snd (dropper_candidates 7%N (sha_of x01) 1 1 10 fleet) = fleet.
Proof.
  destruct (dropper_candidates 7%N (sha_of x01) 1 1 10 fleet) as [o s'] eqn:E. pose proof (f_equal fst E) as Eo. cbn [fst snd] in *.
  destruct o as [out|e|]; [|vm_compute in Eo; discriminate Eo..]. exists out. split; [done|]. split.
  - apply (reads_as (map dp_artifact_id) _ _ _ _ E). vm_compute. reflexivity.
  - apply (dropper_candidates_spec 7%N (sha_of x01) 1 1 10 fleet out s' E). lia.
Defined.

(** The same hunt over an artifact whose object is there and matches no rule. *)
Definition quiet : Srv :=
  snd (enqueue_hunt 7%N 103%N (snd (create_hunt 7%N the_digest
    (set_rows TArtifact [hunt_artifact 2%N 2 "objects/7/bb" [x02]] (set_cas (mkFsCas {[ "objects/7/bb"%string := [x00] ]} false) hunt_corpus))))).
Definition quiet_done : Srv := snd (execute_hunt 7%N 103%N quiet).

Lemma blast_radius_hunt_witness :
  exists r, fst (by_hunt 7%N 103%N false hunt_done) = Ret r /\ map ba_artifact_id (br_artifacts r) = [1%N] /\ br_attestation r = None /\
  forall v, In v (br_artifacts r) -> ba_matched_rules v <> [].
Proof.
  destruct (by_hunt 7%N 103%N false hunt_done) as [o s'] eqn:E. pose proof (f_equal fst E) as Eo. cbn [fst] in *.
  destruct o as [r|e|]; [|vm_compute in Eo; discriminate Eo..]. exists r. split; [done|].
  split; [apply (reads_as (map ba_artifact_id ∘ br_artifacts) _ _ _ _ E); vm_compute; reflexivity|].
  split; [apply (reads_as br_attestation _ _ _ _ E); vm_compute; reflexivity|].
  destruct (blast_radius_hunt 7%N 103%N false hunt_done r s' E) as (h & _ & _ & Hv & _).
  intros v Hin. by destruct (Hv v Hin) as (a & _ & _ & _ & _ & _ & Hne).
Defined.

Lemma absence_after_hunt_witness :
  exists r at_, fst (by_hunt 7%N 103%N false quiet_done) = Ret r /\ br_attestation r = Some at_ /\
  at_corpus_watermark at_ = 2 /\ at_artifacts_evaluated at_ = 1 /\
  exists hit, cache_find (cache_key 7%N [x02] the_digest) (rows TCache quiet_done) = Some hit.
Proof.
  destruct (execute_hunt 7%N 103%N quiet) as [oh s1] eqn:Eh. pose proof (f_equal fst Eh) as Eoh. cbn [fst] in *.
  destruct oh as [h|e|]; [|vm_compute in Eoh; discriminate Eoh..].
  assert (Es : quiet_done = s1) by (unfold quiet_done; by rewrite Eh). rewrite Es.
  destruct (by_hunt 7%N 103%N false s1) as [o s'] eqn:E. pose proof E as E'. rewrite <- Es in E'. pose proof (f_equal fst E') as Eo. cbn [fst] in *.
  destruct o as [r|e|]; [|vm_compute in Eo; discriminate Eo..].
  destruct (br_attestation r) as [at_|] eqn:Ea.
  2: { assert (Hn : from_option (fun _ => true) false (br_attestation r) = true)
         by (apply (reads_as (from_option (fun _ => true) false ∘ br_attestation) _ _ _ _ E'); vm_compute; reflexivity).
       rewrite Ea in Hn. discriminate Hn. }
  exists r, at_. do 2 (split; [done|]).
  destruct (absence_after_hunt 7%N 103%N quiet h s1 false r s' at_ Eh) as (hunt & w & Hg & Hw & Haw & Hn & Hp); [|exact E|exact Ea|].
  - rewrite <- Es. assert (Er : rows TMatch quiet_done = []) by (vm_compute; reflexivity). rewrite Er. intros m [].
  - assert (Ew : w = 2).
    { assert (Some w = Some 2) as [= ->]; [|done]. rewrite <- Hw. apply (reads_as hu_corpus_watermark (get_hunt 7%N 103%N quiet) hunt quiet);
        [apply injective_projections; [exact Hg|vm_compute; reflexivity]|vm_compute; reflexivity]. }
    assert (Ed : hu_bundle_digest hunt = the_digest).
    { apply (reads_as hu_bundle_digest (get_hunt 7%N 103%N quiet) hunt quiet); [apply injective_projections; [exact Hg|vm_compute; reflexivity]|vm_compute; reflexivity]. }
    split; [by rewrite Haw|]. split; [rewrite Hn; apply (reads_as hu_planned_artifacts _ _ _ _ Eh); vm_compute; reflexivity|].
    destruct (Hp (hunt_artifact 2%N 2 "objects/7/bb" [x02])) as (hit & Hhit & _); [rewrite Ew; vm_compute; auto|].
    exists hit. rewrite Ed in Hhit. exact Hhit.
Defined.

(** The limit comes before the filter on hosts: the nearest row, too common,
    takes the place of the lead. *)
Example dropper_limit_hides :
  option_map (map dp_artifact_id) (match fst (dropper_candidates 7%N (sha_of x01) 1 1 1 fleet) with Ret l => Some l | _ => None end) = Some [] /\
  option_map (map dp_artifact_id) (match fst (dropper_candidates 7%N (sha_of x01) 1 1 2 fleet) with Ret l => Some l | _ => None end) = Some [3]%N.
Proof. split; vm_compute; reflexivity. Qed.

(** A value that ends inside no ASCII character panics the handler. *)
Example parse_since_panics : fst (parse_since "7é" fleet) = Panic /\ fst (parse_since "7d" fleet) = Ret (- 604800).
Proof. split; vm_compute; reflexivity. Qed.

(** A hunt over one artifact whose object is missing: nothing was scanned. *)
Definition unreadable : Srv := snd (run_hunt 7%N 103%N (snd (create_hunt 7%N the_digest (set_rows TArtifact [hunt_artifact 2%N 2 "objects/7/bb" [x02]] hunt_corpus)))).

(** Its report attests absence all the same, over one artifact "evaluated". *)
Example attests_unscanned :
  match fst (by_hunt 7%N 103%N false unreadable) with
  | Ret r => (hu_failed <$> br_hunt r) = Some 1 /\ (hu_state <$> br_hunt r) = Some "COMPLETED_PARTIAL"%string /\
      (at_artifacts_evaluated <$> br_attestation r) = Some 1 /\ (at_result <$> br_attestation r) = Some "no_match"%string
  | _ => False
  end.
Proof. vm_compute. repeat split. Qed.
End witnesses.
