(* ===== verification/Feeds.v ===== *)
(** * Feeds: where files and indicators come from besides the agents
    ([corpus-core/src/oci.rs], the clients of [intel.rs])

    Image references, the registry client, layer and [docker save] archives, the
    TAXII and MalwareBazaar clients.  Archive readers (tar, flate2, zip) and the
    web are parameters: the first as classes, the second as a log of requests with
    oracle answers. *)

From S2P Require Import Prelude Machine Text Schema Detonate Report.
From Stdlib Require Import Strings.Byte Strings.Ascii.

Open Scope Z_scope.

(** ** The web *)

Record WebRequest := mkWebRequest {
  wr_method : string; wr_url : string; wr_query : list (string * string); wr_form : list (string * string);
  wr_basic : option (string * string); wr_authorization : option string; wr_accept : option string }.

(** A header's value, if present and readable as text; the body, or why reading
    it failed. *)
Record WebResponse := mkWebResponse { ws_status : Z; ws_header : string -> option string; ws_body : string + bytes }.

Record Web := mkWeb { wb_log : list WebRequest; wb_answers : nat -> WebRequest -> string + WebResponse }.

Definition fetch (r : WebRequest) : Op Web (string + WebResponse) := fun w =>
  (Ret (wb_answers w (length (wb_log w)) r), mkWeb (wb_log w ++ [r]) (wb_answers w)).

(** [serde_json::from_slice] *)
Class JsonBytes : Type := json_from_slice : bytes -> string + Json.

(** [map_err(|e| Error::BadRequest(prefix + e))?] *)
Definition or_bad {S A} (prefix : string) (r : string + A) : Op S A :=
  match r with inl e => throw (BadRequest (prefix +:+ e)) | inr a => mret a end.

(** ** Image references *)

Record ImageRef := mkImageRef { ir_registry : string; ir_repository : string; ir_reference : string }.

(** [s.rsplit_once(c)] *)
Fixpoint rsplit_once (c : ascii) (s : string) : option (string * string) :=
  match s with
  | EmptyString => None
  | String d s' =>
      match rsplit_once c s' with
      | Some (a, b) => Some (String d a, b)
      | None => if Ascii.eqb c d then Some (""%string, s') else None
      end
  end.

Definition DOCKER_HUB : string := "registry-1.docker.io".

Definition name_and_reference (s : string) : string * string :=
  match split_once "@" s with
  | Some (n, d) => (n, d)
  | None =>
      match rsplit_once ":" s with
      | Some (n, t) => if str_contains "/" t then (s, "latest"%string) else (n, t)
      | None => (s, "latest"%string)
      end
  end.

Definition names_registry (first : string) : bool := str_contains "." first || str_contains ":" first || String.eqb first "localhost".

Definition invalid_ref (s : string) : Error := BadRequest ("invalid image ref " +:+ debug_str s).

Definition parse_image_ref (s : string) : outcome ImageRef :=
  let '(name_part, reference) := name_and_reference s in
  let '(first, rest) := match split_once "/" name_part with Some (a, b) => (a, Some b) | None => (name_part, None) end in
  if String.eqb first "" then Fail (invalid_ref s)
  else
    let '(registry, repository) :=
      match rest with
      | Some r => if names_registry first then (first, r) else (DOCKER_HUB, first +:+ ("/" +:+ r))
      | None => (DOCKER_HUB, "library/" +:+ first)
      end in
    if String.eqb repository "" || String.eqb reference "" then Fail (invalid_ref s)
    else Ret (mkImageRef registry repository reference).

(** ** The registry client *)

Definition MANIFEST_ACCEPT : string :=
  "application/vnd.oci.image.manifest.v1+json, application/vnd.oci.image.index.v1+json, application/vnd.docker.distribution.manifest.v2+json, application/vnd.docker.distribution.manifest.list.v2+json".

Definition registry_scheme (registry : string) : string :=
  if str_starts_with "localhost" registry || str_starts_with "127." registry || str_starts_with "[::1]" registry then "http" else "https".

Record RegistryClient := mkRegistryClient { rg_registry : string; rg_token : option string }.

Record ResolvedManifest := mkResolvedManifest {
  rm_image_digest : string; rm_config_digest : string; rm_layers : list string; rm_created : option Time }.

Definition token_realm (registry : string) : string :=
  if String.eqb registry DOCKER_HUB then "https://auth.docker.io/token"
  else registry_scheme registry +:+ ("://" +:+ (registry +:+ "/token")).

(** [a.or_else(b)] *)
Definition or_else {A} (a b : option A) : option A := match a with Some x => Some x | None => b end.

Section registry.
  Context {JB : JsonBytes} {ST : StatusText} {CT : ChronoText}.

(** [resp.json()] *)
Definition response_json (resp : WebResponse) : string + Json :=
  match ws_body resp with inl e => inl e | inr b => json_from_slice b end.

Definition connect (iref : ImageRef) (creds : option (string * string)) : Op Web RegistryClient :=
  let docker := String.eqb (ir_registry iref) DOCKER_HUB in
  let query := ("scope", "repository:" +:+ (ir_repository iref +:+ ":pull"))%string ::
    (if docker then [("service", "registry.docker.io")] else [])%string in
  answer ← fetch (mkWebRequest "GET" (token_realm (ir_registry iref)) query [] creds None None);
  token ← match answer with
          | inr resp =>
              if is_success (ws_status resp) then
                body ← or_bad "" (response_json resp);
                mret (t ← or_else (json_get "token" body) (json_get "access_token" body); json_str t)
              else mret None
          | inl _ => mret None
          end;
  mret (mkRegistryClient (ir_registry iref) token).

Definition registry_url (c : RegistryClient) (repo kind what : string) : string :=
  registry_scheme (rg_registry c) +:+ ("://" +:+ (rg_registry c +:+ ("/v2/" +:+ (repo +:+ ("/" +:+ (kind +:+ ("/" +:+ what))))))).

Definition bearer_auth (c : RegistryClient) : option string := t ← rg_token c; Some ("Bearer " +:+ t).

Definition get_manifest (c : RegistryClient) (repo reference : string) : Op Web (string * Json) :=
  answer ← fetch (mkWebRequest "GET" (registry_url c repo "manifests" reference) [] [] None (bearer_auth c) (Some MANIFEST_ACCEPT));
  resp ← or_bad "manifest fetch: " answer;
  if negb (is_success (ws_status resp)) then
    throw (BadRequest ("manifest " +:+ (repo +:+ (":" +:+ (reference +:+ (" -> " +:+ status_text (ws_status resp)))))))
  else
    body ← or_bad "" (response_json resp);
    mret (default ""%string (ws_header resp "docker-content-digest"), body).

Definition blob (c : RegistryClient) (repo digest : string) : Op Web bytes :=
  answer ← fetch (mkWebRequest "GET" (registry_url c repo "blobs" digest) [] [] None (bearer_auth c) None);
  resp ← or_bad "blob fetch: " answer;
  if negb (is_success (ws_status resp)) then throw (BadRequest ("blob " +:+ (digest +:+ (" -> " +:+ status_text (ws_status resp)))))
  else or_bad "" (ws_body resp).

Definition is_linux_amd64 (m : Json) : bool :=
  bool_decide ((p ← json_get "platform" m; json_get_str "os" p) = Some "linux"%string) &&
  bool_decide ((p ← json_get "platform" m; json_get_str "architecture" p) = Some "amd64"%string).

Definition select_platform_manifest (index : Json) : outcome Json :=
  manifests ← or_fail (BadRequest "image index without manifests") (l ← json_get "manifests" index; json_arr l);
  or_fail (BadRequest "image index is empty") (or_else (head (List.filter is_linux_amd64 manifests)) (head manifests)).

Definition layers_of (manifest : Json) : list string :=
  omap (json_get_str "digest") (default [] (l ← json_get "layers" manifest; json_arr l)).

Definition config_created (config : bytes) : option Time :=
  match json_from_slice config with
  | inr c => s ← json_get_str "created" c; parse_from_rfc3339 s
  | inl _ => None
  end.

Definition resolve (c : RegistryClient) (iref : ImageRef) : Op Web ResolvedManifest :=
  m ← get_manifest c (ir_repository iref) (ir_reference iref);
  let media := default ""%string (json_get_str "mediaType" (snd m)) in
  m ← (if str_contains "image.index" media || str_contains "manifest.list" media then
         chosen ← lift_outcome (select_platform_manifest (snd m));
         digest ← or_throw (BadRequest "manifest list entry without digest") (json_get_str "digest" chosen);
         r ← get_manifest c (ir_repository iref) digest;
         mret (digest, snd r)
       else mret m);
  config_digest ← or_throw (BadRequest "manifest without config digest") (g ← json_get "config" (snd m); json_get_str "digest" g);
  match layers_of (snd m) with
  | [] => throw (BadRequest "manifest without layers")
  | layers =>
      config ← blob c (ir_repository iref) config_digest;
      mret (mkResolvedManifest (fst m) config_digest layers (config_created config))
  end.

Definition layer_bytes (c : RegistryClient) (iref : ImageRef) (digest : string) : Op Web bytes := blob c (ir_repository iref) digest.
End registry.

(** ** Layers *)

(** An entry of a tar archive: whether it is a regular file, its path and data or
    why they cannot be read, the size in its header if that parses. *)
Record TarEntry := mkTarEntry { te_is_file : bool; te_path : string + string; te_size : option Z; te_data : string + bytes }.

(** The entries of a possibly gzipped archive, in order; the reader may fail at
    the start or at any entry. *)
Class TarReader : Type := tar_entries : bool -> bytes -> string + list (string + TarEntry).

Record LayerEntry := mkLayerEntry { le_path : string; le_size : Z; le_bytes : option bytes }.

Definition bad {A} (prefix : string) (r : string + A) : outcome A := match r with inl e => Fail (BadRequest (prefix +:+ e)) | inr a => Ret a end.

(** [isize::MAX], the most a [Vec] can hold. *)
Definition ISIZE_MAX : Z := 2 ^ 63 - 1.

Definition layer_entry (max_file_bytes : Z) (e : TarEntry) : outcome LayerEntry :=
  path ← bad "" (te_path e);
  let size := default 0 (te_size e) in
  if max_file_bytes <? size then Ret (mkLayerEntry path size None)
  else if ISIZE_MAX <? size then Panic
  else b ← bad "" (te_data e); Ret (mkLayerEntry path size (Some b)).

Fixpoint walk_entries (max_file_bytes : Z) (l : list (string + TarEntry)) : outcome (list LayerEntry) :=
  match l with
  | [] => Ret []
  | entry :: l' =>
      e ← bad "layer tar entry: " entry;
      if te_is_file e then x ← layer_entry max_file_bytes e; out ← walk_entries max_file_bytes l'; Ret (x :: out)
      else walk_entries max_file_bytes l'
  end.

Definition walk_layer `{TarReader} (tar_bytes : bytes) (gzipped : bool) (max_file_bytes : Z) : outcome (list LayerEntry) :=
  entries ← bad "layer tar: " (tar_entries gzipped tar_bytes);
  walk_entries max_file_bytes entries.

(** The manifest, if seen, and the files named [*.tar]. *)
Fixpoint save_entries `{JsonBytes} (l : list (string + TarEntry)) (manifest : option Json) (layer_tars : gmap string bytes) :
    outcome (option Json * gmap string bytes) :=
  match l with
  | [] => Ret (manifest, layer_tars)
  | entry :: l' =>
      e ← bad "" entry;
      path ← bad "" (te_path e);
      if String.eqb path "manifest.json" then
        b ← bad "" (te_data e);
        j ← bad "" (json_from_slice b);
        save_entries l' (Some j) layer_tars
      else if str_ends_with ".tar" path then
        b ← bad "" (te_data e);
        save_entries l' manifest (<[path := b]> layer_tars)
      else save_entries l' manifest layer_tars
  end.

(** A layer is taken out of the map when it is listed. *)
Fixpoint take_layers (l : list Json) (layer_tars : gmap string bytes) : list bytes :=
  match l with
  | [] => []
  | j :: l' =>
      match (name ← json_str j; b ← layer_tars !! name; Some (name, b)) with
      | Some (name, b) => b :: take_layers l' (base.delete name layer_tars)
      | None => take_layers l' layer_tars
      end
  end.

Definition repo_tags (first : Json) : list string := omap json_str (default [] (l ← json_get "RepoTags" first; json_arr l)).

Definition walk_docker_save `{TarReader, JsonBytes} (save_tar : bytes) : outcome (list string * list bytes) :=
  entries ← bad "" (tar_entries false save_tar);
  r ← save_entries entries None ∅;
  let '(manifest, layer_tars) := r in
  manifest ← or_fail (BadRequest "docker save tar without manifest.json") manifest;
  first ← or_fail (BadRequest "empty docker save manifest") (a ← json_arr manifest; head a);
  Ret (repo_tags first, take_layers (default [] (l ← json_get "Layers" first; json_arr l)) layer_tars).

Definition file_provenance (image_ref image_digest layer_digest path : string) : Json :=
  JObj [("source", JStr "oci"); ("image_ref", JStr image_ref); ("image_digest", JStr image_digest); ("layer_digest", JStr layer_digest);
        ("path", JStr path)]%string.

(** ** TAXII and MalwareBazaar ([intel.rs]) *)

Definition MB_API_URL : string := "https://mb-api.abuse.ch/api/v1/".
Definition MB_ZIP_PASSWORD : string := "infected".

Section intel.
  Context {JB : JsonBytes} {ST : StatusText} {JT : JsonText}.

Definition fetch_taxii_indicators (server_url collection : string) (api_key : option string) : Op Web Json :=
  let url := trim_end (fun c => Ascii.eqb c "/") server_url +:+
    ("/collections/" +:+ (collection +:+ "/objects/?type=indicator&limit=500")) in
  answer ← fetch (mkWebRequest "GET" url [] [] None (k ← api_key; Some ("Token " +:+ k)) (Some "application/taxii+json;version=2.1"%string));
  resp ← or_bad "taxii fetch: " answer;
  if negb (is_success (ws_status resp)) then throw (BadRequest ("taxii " +:+ (url +:+ (" -> " +:+ status_text (ws_status resp)))))
  else or_bad "taxii json: " (response_json resp).

Definition post_form (url : string) (form : list (string * string)) : WebRequest := mkWebRequest "POST" url [] form None None None.

Definition mb_recent_hashes (api_url : string) (limit : Z) : Op Web (list string) :=
  answer ← fetch (post_form api_url [("query", "get_recent"); ("selector", show_Z limit)]%string);
  resp ← or_bad "malwarebazaar recent: " answer;
  body ← or_bad "" (response_json resp);
  if negb (bool_decide (json_get_str "query_status" body = Some "ok"%string)) then
    throw (BadRequest ("malwarebazaar get_recent status: " +:+ json_to_string body))
  else mret (omap (json_get_str "sha256_hash") (default [] (d ← json_get "data" body; json_arr d))).

Definition mb_fetch_zip (api_url sha256 : string) : Op Web bytes :=
  answer ← fetch (post_form api_url [("query", "get_file"); ("sha256_hash", sha256)]%string);
  resp ← or_bad "malwarebazaar get_file: " answer;
  if negb (is_success (ws_status resp)) then
    throw (BadRequest ("malwarebazaar get_file " +:+ (sha256 +:+ (" -> " +:+ status_text (ws_status resp)))))
  else or_bad "" (ws_body resp).
End intel.

Record ZipFile := mkZipFile { zf_is_file : bool; zf_name : string; zf_read : string + bytes }.

(** Per index of the archive: the file decrypted with the password, and without one. *)
Class ZipReader : Type := zip_files : string -> bytes -> string + list (option ZipFile * (string + ZipFile)).

Definition zip_entry (i : nat) (z : option ZipFile * (string + ZipFile)) : outcome (option (string * bytes)) :=
  match (f ← fst z; if zf_is_file f then match zf_read f with inr b => Some (zf_name f, b) | inl _ => None end else None) with
  | Some entry => Ret (Some entry)
  | None =>
      f ← bad ("zip entry " +:+ (show_Z (Z.of_nat i) +:+ ": ")) (snd z);
      if negb (zf_is_file f) then Ret None else b ← bad "" (zf_read f); Ret (Some (zf_name f, b))
  end.

Fixpoint zip_entries (i : nat) (l : list (option ZipFile * (string + ZipFile))) : outcome (list (string * bytes)) :=
  match l with
  | [] => Ret []
  | z :: l' =>
      entry ← zip_entry i z;
      out ← zip_entries (S i) l';
      Ret (match entry with Some e => e :: out | None => out end)
  end.

Definition mb_unzip `{ZipReader} (zip_bytes : bytes) : outcome (list (string * bytes)) :=
  archive ← bad "zip: " (zip_files MB_ZIP_PASSWORD zip_bytes);
  zip_entries 0 archive.

(** ** Splitting *)

Definition lacks (c : ascii) (s : string) : bool := str_all (fun d => negb (Ascii.eqb c d)) s.

Lemma lacks_app c a b : lacks c (a +:+ b) = lacks c a && lacks c b.
Proof. unfold lacks. induction a as [|d a IH]; cbn; [done|]. by rewrite IH, andb_assoc. Qed.

Lemma split_once_some c s a b : split_once c s = Some (a, b) <-> s = a +:+ String c b /\ lacks c a = true.
Proof.
  revert a. induction s as [|d s IH]; intros a; cbn [split_once].
  { split; [discriminate|]. intros [E _]. by destruct a. }
  destruct (Ascii.eqb c d) eqn:Ed.
  - apply Ascii.eqb_eq in Ed as <-. split.
    + by intros [= <- <-].
    + intros [E Ha]. destruct a as [|e a]; [by injection E as ->|]. injection E as <- _. unfold lacks in Ha. cbn [str_all] in Ha. by rewrite Ascii.eqb_refl in Ha.
  - split.
    + destruct (split_once c s) as [[x y]|]; [|discriminate]. intros [= <- <-]. destruct (proj1 (IH x) eq_refl) as [-> Hx].
      split; [done|]. unfold lacks in *. cbn [str_all]. by rewrite Ed.
    + intros [E Ha]. destruct a as [|e a]; [injection E as -> _; by rewrite Ascii.eqb_refl in Ed|]. injection E as <- E.
      unfold lacks in Ha. cbn [str_all] in Ha. apply andb_true_iff in Ha as [_ Ha]. by rewrite (proj2 (IH a) (conj E Ha)).
Qed.

Lemma split_once_none c s : split_once c s = None <-> lacks c s = true.
Proof.
  unfold lacks. induction s as [|d s IH]; cbn; [done|]. destruct (Ascii.eqb c d); [done|]. cbn [negb andb]. rewrite <- IH.
  destruct (split_once c s) as [[x y]|]; split; done.
Qed.

Lemma rsplit_once_some c s a b : rsplit_once c s = Some (a, b) -> s = a +:+ String c b /\ lacks c b = true.
Proof.
  revert a. induction s as [|d s IH]; intros a; cbn [rsplit_once]; [done|]. destruct (rsplit_once c s) as [[x y]|] eqn:Es.
  - intros [= <- <-]. by destruct (IH x eq_refl) as [-> Hy].
  - destruct (Ascii.eqb c d) eqn:Ed; [|done]. apply Ascii.eqb_eq in Ed as <-. intros [= <- <-]. split; [done|].
    clear IH. unfold lacks. induction s as [|e s IH]; [done|]. cbn [rsplit_once str_all] in *. destruct (rsplit_once c s) as [[u v]|]; [done|].
    destruct (Ascii.eqb c e); [done|]. by apply IH.
Qed.

(** ** Image references *)

Definition canonical (r : ImageRef) : string := ir_registry r +:+ String "/" (ir_repository r +:+ String "@" (ir_reference r)).

(** The name holds no [@], whichever way it was cut off. *)
Lemma name_plain s n r : name_and_reference s = (n, r) -> lacks "@" n = true.
Proof.
  unfold name_and_reference. destruct (split_once "@" s) as [[a b]|] eqn:Es.
  - intros [= <- _]. by apply split_once_some in Es as [_ ?].
  - apply split_once_none in Es. destruct (rsplit_once ":" s) as [[a b]|] eqn:Er; [|by intros [= <- _]].
    destruct (str_contains "/" b); [by intros [= <- _]|]. intros [= <- _]. apply rsplit_once_some in Er as [-> _].
    rewrite lacks_app in Es. by apply andb_true_iff in Es as [? _].
Qed.

Lemma names_docker : names_registry DOCKER_HUB = true.
Proof. done. Qed.

(** What [parse_image_ref] accepts. *)
Record sound_ref (r : ImageRef) : Prop := {
  sr_registry : ir_registry r <> ""%string /\ lacks "@" (ir_registry r) = true /\ lacks "/" (ir_registry r) = true /\ names_registry (ir_registry r) = true;
  sr_repository : ir_repository r <> ""%string /\ lacks "@" (ir_repository r) = true;
  sr_reference : ir_reference r <> ""%string }.

Lemma parse_sound s r : parse_image_ref s = Ret r -> sound_ref r.
Proof.
  unfold parse_image_ref. destruct (name_and_reference s) as [n ref] eqn:En. apply name_plain in En.
  destruct (split_once "/" n) as [[first rest]|] eqn:Es.
  - apply split_once_some in Es as [-> Hf]. rewrite lacks_app in En. apply andb_true_iff in En as [H1 H2]. change (lacks "@" rest = true) in H2.
    destruct (String.eqb_spec first "") as [_|Hne]; [done|]. destruct (names_registry first) eqn:Ef.
    + destruct (String.eqb_spec rest "") as [_|Hr]; [done|]. destruct (String.eqb_spec ref "") as [_|He]; [done|]. intros [= <-]. by constructor.
    + destruct (String.eqb_spec (first +:+ ("/" +:+ rest)) "") as [_|Hr]; [done|]. destruct (String.eqb_spec ref "") as [_|He]; [done|].
      intros [= <-]. constructor; [done| |done]. split; [done|]. change (lacks "@" (first +:+ String "/" rest) = true). rewrite lacks_app, H1. exact H2.
  - apply split_once_none in Es. destruct (String.eqb_spec n "") as [_|Hne]; [done|]. destruct (String.eqb _ _) eqn:Er; [done|].
    destruct (String.eqb_spec ref "") as [_|He]; [done|]. intros [= <-]. by constructor.
Qed.

(** Image references.  Whatever text is accepted, the registry, the repository
    and the reference are there, the registry is a host, and writing them out in
    full, as [registry/repository@reference], is read back as the same image; so
    every short form (no registry, no tag, a tag, a digest) stands for one image. *)
Theorem image_ref_canonical s r : parse_image_ref s = Ret r -> sound_ref r /\ parse_image_ref (canonical r) = Ret r.
Proof.
  intros H%parse_sound. split; [done|]. destruct H as [(H1 & H2 & H3 & H4) [H5 H6] H7]. destruct r as [reg repo ref]. cbn [ir_registry ir_repository ir_reference] in *.
  unfold parse_image_ref, canonical, name_and_reference. cbn [ir_registry ir_repository ir_reference].
  assert (E : split_once "@" (reg +:+ String "/" (repo +:+ String "@" ref)) = Some (reg +:+ String "/" repo, ref)).
  { apply split_once_some. split; [by rewrite string_app_assoc|]. rewrite lacks_app, H2. exact H6. }
  rewrite E. rewrite (proj2 (split_once_some "/" _ reg repo)) by done. rewrite (proj2 (String.eqb_neq reg "")) by done.
  rewrite H4. by rewrite (proj2 (String.eqb_neq repo "")), (proj2 (String.eqb_neq ref "")).
Qed.

Lemma image_ref_canonical_witness :
  let r := mkImageRef DOCKER_HUB "library/alpine" "3.20" in
  parse_image_ref "alpine:3.20" = Ret r /\ parse_image_ref "registry-1.docker.io/library/alpine@3.20" = Ret r.
Proof. split; [reflexivity|]. exact (proj2 (image_ref_canonical "alpine:3.20" (mkImageRef DOCKER_HUB "library/alpine" "3.20") eq_refl)). Defined.

Example image_refs : map parse_image_ref ["alpine:3.20"; "ghcr.io/org/img:1.0"; "ubuntu"; "localhost:5000/img:dev"; "localhost:5000/img"; "repo@sha256:aa"; ""]%string =
  [Ret (mkImageRef DOCKER_HUB "library/alpine" "3.20"); Ret (mkImageRef "ghcr.io" "org/img" "1.0"); Ret (mkImageRef DOCKER_HUB "library/ubuntu" "latest");
   Ret (mkImageRef "localhost:5000" "img" "dev"); Ret (mkImageRef "localhost:5000" "img" "latest"); Ret (mkImageRef DOCKER_HUB "library/repo" "sha256:aa");
   Fail (invalid_ref "")].
Proof. reflexivity. Qed.

(** A tag before a digest is left in the repository. *)
Example tag_and_digest : parse_image_ref "repo:1.0@sha256:aa" = Ret (mkImageRef DOCKER_HUB "library/repo:1.0" "sha256:aa").
Proof. reflexivity. Qed.

(** ** Layers *)

(** The entry of a regular file: over the limit its data is left out. *)
Definition entry_read (max : Z) (e : TarEntry) (x : LayerEntry) : Prop :=
  te_path e = inr (le_path x) /\ le_size x = default 0 (te_size e) /\
  if max <? le_size x then le_bytes x = None else le_size x <= ISIZE_MAX /\ exists b, te_data e = inr b /\ le_bytes x = Some b.

Lemma layer_entry_ret max e x : layer_entry max e = Ret x <-> entry_read max e x.
Proof.
  unfold layer_entry, entry_read, bad. destruct (te_path e) as [err|path]; [split; [done|by intros [? _]]|]. cbn [mbind outcome_mbind].
  destruct x as [p z b]. cbn [le_path le_size le_bytes]. destruct (Z.ltb_spec max (default 0 (te_size e))) as [Hm|Hm].
  - split; [intros [= <- <- <-]|intros ([= ->] & -> & H)]; rewrite (proj2 (Z.ltb_lt _ _)) in * by lia; [done|by rewrite H].
  - destruct (Z.ltb_spec ISIZE_MAX (default 0 (te_size e))) as [Hi|Hi].
    + split; [done|]. intros (_ & -> & H). rewrite (proj2 (Z.ltb_ge _ _)) in H by lia. destruct H as [H _]. lia.
    + destruct (te_data e) as [err|d]; cbn; split; try done.
      * intros (_ & -> & H). rewrite (proj2 (Z.ltb_ge _ _)) in H by lia. by destruct H as (_ & ? & ? & _).
      * intros [= <- <- <-]. rewrite (proj2 (Z.ltb_ge _ _)) by lia. split; [done|]. split; [done|]. split; [done|]. by exists d.
      * intros ([= ->] & -> & H). rewrite (proj2 (Z.ltb_ge _ _)) in H by lia. by destruct H as (_ & ? & [= ->] & ->).
Qed.

Lemma walk_entries_ret max l out : walk_entries max l = Ret out <-> exists es, l = map inr es /\ Forall2 (entry_read max) (List.filter te_is_file es) out.
Proof.
  revert out. induction l as [|x l IH]; intros out; cbn [walk_entries].
  { split; [intros [= <-]; by exists []|]. intros ([|e es] & E & H); [by inversion H|done]. }
  destruct x as [err|e]; cbn [bad mbind outcome_mbind].
  { split; [done|]. by intros ([|e es] & E & _). }
  destruct (te_is_file e) eqn:Ef.
  - split.
    + destruct (layer_entry max e) as [x| |] eqn:Ex; [|done..]. cbn [mbind outcome_mbind]. destruct (walk_entries max l) as [o| |]; [|done..].
      intros [= <-]. destruct (proj1 (IH o) eq_refl) as (es & -> & H). exists (e :: es). split; [done|]. cbn [List.filter]. rewrite Ef.
      constructor; [by apply layer_entry_ret|done].
    + intros ([|e' es] & [= <- ->] & H). cbn [List.filter] in H. rewrite Ef in H. inversion H as [|? x ? o Hx Ho]; subst.
      apply layer_entry_ret in Hx as ->. cbn [mbind outcome_mbind]. by rewrite (proj2 (IH o) (ex_intro _ es (conj eq_refl Ho))).
  - rewrite IH. split.
    + intros (es & -> & H). exists (e :: es). split; [done|]. cbn [List.filter]. by rewrite Ef.
    + intros ([|e' es] & [= <- ->] & H). cbn [List.filter] in H. rewrite Ef in H. by exists es.
Qed.

(** Walking a layer: exactly the regular files, in order, those over the limit
    without their data; any unreadable entry fails the whole layer. *)
Theorem walk_layer_spec {TR : TarReader} tar gzipped max out : walk_layer tar gzipped max = Ret out <->
  exists es, tar_entries gzipped tar = inr (map inr es) /\ Forall2 (entry_read max) (List.filter te_is_file es) out.
Proof.
  unfold walk_layer, bad. destruct (tar_entries gzipped tar) as [e|l]; [split; [done|by intros (? & ? & _)]|]. cbn [mbind outcome_mbind].
  rewrite walk_entries_ret. split; intros (es & E & H); exists es; split; [by rewrite E|done|by injection E|done].
Qed.

(** Layers listed once each come out in the order of the manifest. *)
Lemma take_layers_spec names m : NoDup names -> take_layers (map JStr names) m = omap (fun n => m !! n) names.
Proof.
  revert m. induction names as [|n names IH]; intros m; [done|]. intros [Hn Hnd]%NoDup_cons. cbn [map take_layers json_str mbind option_bind omap list_omap].
  assert (E : omap (fun x => base.delete n m !! x) names = omap (fun x => m !! x) names).
  { clear -Hn. induction names as [|k names IH]; [done|]. apply not_elem_of_cons in Hn as [Hk Hn]. cbn [omap list_omap].
    rewrite lookup_delete_ne by done. by rewrite IH. }
  destruct (m !! n) as [b|]; cbn; [|by rewrite IH]. by rewrite IH, E.
Qed.

(** *** What a saved image holds *)

(** The archive's last entry of that name has those bytes. *)
Definition member (es : list TarEntry) (name : string) (b : bytes) : Prop :=
  exists before e after, es = before ++ e :: after /\ te_path e = inr name /\ te_data e = inr b /\ Forall (fun e' => te_path e' <> inr name) after.

(** A name no later entry has keeps what the walk found for it. *)
Lemma save_entries_frame {JB : JsonBytes} es m t m' t' name : save_entries (map inr es) m t = Ret (m', t') ->
  Forall (fun e => te_path e <> inr name) es -> t' !! name = t !! name /\ (name = "manifest.json"%string -> m' = m).
Proof.
  revert m t. induction es as [|e es IH]; intros m t E H; cbn [map save_entries] in E; [by injection E as <- <-|].
  apply Forall_cons in H as [He H]. cbn [bad mbind outcome_mbind] in E. destruct (te_path e) as [|path] eqn:Ep; [done|]. cbn [bad mbind outcome_mbind] in E.
  assert (Hne : path <> name) by (intros ->; by destruct He).
  destruct (String.eqb_spec path "manifest.json") as [->|Hm].
  - destruct (te_data e) as [|b]; [done|]. cbn [bad mbind outcome_mbind] in E. destruct (json_from_slice b) as [|j]; [done|]. cbn [bad mbind outcome_mbind] in E.
    destruct (IH _ _ E H) as [H1 _]. split; [done|]. by intros ->.
  - destruct (str_ends_with ".tar" path); [|by apply (IH _ _ E H)].
    destruct (te_data e) as [|b]; [done|]. cbn [bad mbind outcome_mbind] in E.
    destruct (IH _ _ E H) as [H1 H2]. split; [by rewrite H1, lookup_insert_ne|done].
Qed.

(** The walk ends with the last manifest and the last layer of each name. *)
Lemma save_entries_member {JB : JsonBytes} es m t m' t' : save_entries (map inr es) m t = Ret (m', t') ->
  (forall b j, member es "manifest.json" b -> json_from_slice b = inr j -> m' = Some j) /\
  (forall name b, str_ends_with ".tar" name = true -> member es name b -> t' !! name = Some b).
Proof.
  revert m t. induction es as [|e es IH]; intros m t E; cbn [map save_entries] in E.
  { by split; [intros b j|intros name b _]; intros ([|] & ? & ? & ? & _). }
  cbn [bad mbind outcome_mbind] in E. destruct (te_path e) as [|path] eqn:Ep; [done|]. cbn [bad mbind outcome_mbind] in E.
  assert (Hcase : forall name b, member (e :: es) name b -> path = name /\ te_data e = inr b /\ Forall (fun e' => te_path e' <> inr name) es \/ member es name b).
  { intros name b ([|e0 before] & e1 & after & Ee & H1 & H2 & H3); injection Ee as <- ->; [left; by repeat split; try congruence|right].
    by exists before, e1, after. }
  destruct (String.eqb_spec path "manifest.json") as [->|Hm].
  - destruct (te_data e) as [|b] eqn:Ed; [done|]. cbn [bad mbind outcome_mbind] in E. destruct (json_from_slice b) as [|j] eqn:Ej; [done|].
    cbn [bad mbind outcome_mbind] in E. destruct (IH _ _ E) as [H1 H2]. split.
    + intros b' j' [(_ & [= <-] & Hl)|Hb]%Hcase E'; [|by apply (H1 b')]. rewrite E' in Ej. injection Ej as <-.
      by apply (save_entries_frame _ _ _ _ _ _ E Hl).
    + intros name b' Hn [(<- & _)|Hb]%Hcase; [done|by apply H2].
  - destruct (str_ends_with ".tar" path) eqn:Et.
    + destruct (te_data e) as [|b] eqn:Ed; [done|]. cbn [bad mbind outcome_mbind] in E. destruct (IH _ _ E) as [H1 H2]. split.
      * intros b' j' [(? & _)|Hb]%Hcase E'; [done|by apply (H1 b')].
      * intros name b' Hn [(<- & [= <-] & Hl)|Hb]%Hcase; [|by apply H2].
        destruct (save_entries_frame _ _ _ _ _ _ E Hl) as [H3 _]. by rewrite H3, lookup_insert_eq.
    + destruct (IH _ _ E) as [H1 H2]. split.
      * intros b' j' [(? & _)|Hb]%Hcase E'; [done|by apply (H1 b')].
      * intros name b' Hn [(<- & _)|Hb]%Hcase; [congruence|by apply H2].
Qed.

(** The archive of [docker save]: its manifest describes first an image of those
    tags, whose layers, each named once and with the name of a member [*.tar], are
    those bytes, themselves archives of those entries. *)
Definition saved_as {TR : TarReader} {JB : JsonBytes} (archive : bytes) (tags : list string) (layers : list (bytes * list TarEntry)) : Prop :=
  exists es text first rest names,
    tar_entries false archive = inr (map inr es) /\ member es "manifest.json" text /\ json_from_slice text = inr (JArr (first :: rest)) /\
    json_get "RepoTags" first = Some (JArr (map JStr tags)) /\ json_get "Layers" first = Some (JArr (map JStr names)) /\
    NoDup names /\ Forall (fun name => str_ends_with ".tar" name = true) names /\ Forall2 (fun name l => member es name (fst l)) names layers /\
    Forall (fun l => tar_entries false (fst l) = inr (map inr (snd l))) layers.

(** Such an archive is read as it was saved, if it is read. *)
Lemma walk_docker_save_layers {TR : TarReader} {JB : JsonBytes} archive tags layers out : saved_as archive tags layers ->
  walk_docker_save archive = Ret out -> out = (tags, map fst layers).
Proof.
  intros (es & text & first & rest & names & Ea & Hm & Ej & Et & El & Hnd & Htar & Hl & _). unfold walk_docker_save. rewrite Ea.
  cbn [bad mbind outcome_mbind]. destruct (save_entries _ None ∅) as [[m t]| |] eqn:E; [|done..]. cbn [mbind outcome_mbind].
  destruct (save_entries_member _ _ _ _ _ E) as [H1 H2]. rewrite (H1 _ _ Hm Ej). cbn [or_fail mbind outcome_mbind json_arr option_bind head].
  intros [= <-]. unfold repo_tags. rewrite Et, El. cbn [mbind option_bind json_arr default].
  f_equal; [cbn [from_option id]; clear; by induction tags as [|x l IH]; [done|cbn; by rewrite IH]|].
  cbn [from_option id]. rewrite take_layers_spec by done. clear -H2 Htar Hl. induction Hl as [|name l names layers Hm _ IH]; [done|].
  apply Forall_cons in Htar as [Hn Htar]. cbn [omap list_omap map]. by rewrite (H2 _ _ Hn Hm), (IH Htar).
Qed.

(** A layer the manifest lists twice is imported once. *)
Example repeated_layer : take_layers [JStr "a.tar"; JStr "a.tar"] {["a.tar"%string := [x01]]} = [[x01]].
Proof. reflexivity. Qed.
