(* ===== verification/Sandbox.v ===== *)
(** * Sandbox: the scanner in a process of its own ([sandbox.rs], [corpus-scanner/src/main.rs])

    [Scan.v] takes the two isolated scanners as operations of [ScannerHost].  Here
    they are the code's: the parent that starts the program, feeds it a job, waits
    at most ten seconds for it to end, then for its input to be written, however
    long that takes, and turns away what it printed when that is more than a
    mebibyte (all of it was read); the gVisor variant through Docker; and the child
    itself.  The operating system is a class: it says how a program started with
    given arguments and input ends, and whether its input gets written.  (Linux; the Landlock and
    seatbelt profiles restrict what the child's reads answer.) *)

From S2P Require Import Prelude Machine Text Hash Cas Schema Scan Rules Hunts Feeds.
From Stdlib Require Import Strings.Byte Strings.Ascii.

Open Scope Z_scope.

(** ** Paths ([std::path::Path], Unix) *)

Fixpoint split_path (s acc : string) : list string :=
  match s with
  | EmptyString => [acc]
  | String c s' => if Ascii.eqb c "/" then acc :: split_path s' "" else split_path s' (acc +:+ String c "")
  end.

(** Empty segments and dots are skipped, but for the first segment; the list is
    reversed. *)
Fixpoint trim_segments (r : list string) : list string :=
  match r with
  | x :: ((_ :: _) as r') => if String.eqb x "" || String.eqb x "." then trim_segments r' else r
  | _ => r
  end.

Definition path_text (r : list string) : string := match r with [x] => if String.eqb x "" then "/" else x | _ => str_join "/" (rev r) end.

Definition path_segments (p : string) : list string := trim_segments (rev (split_path p "")).

(** [path.parent()] and [path.file_name()] *)
Definition path_parent (p : string) : option string :=
  match path_segments p with
  | [] => None
  | [x] => if String.eqb x "" then None else Some ""%string
  | _ :: r => Some (path_text (trim_segments r))
  end.

Definition path_file_name (p : string) : option string :=
  match path_segments p with
  | [] => None
  | x :: r => if String.eqb x "" || String.eqb x ".." || (String.eqb x "." && bool_decide (r = [])) then None else Some x
  end.

(** [path.join(name)] for a relative name *)
Definition path_join (p name : string) : string :=
  if String.eqb p "" then name else if str_ends_with "/" p then p +:+ name else p +:+ ("/" +:+ name).

Example path_parents : map path_parent ["/a/b"; "/a"; "a"; "/"; ""; "/a//b/"; "a/./b"; "./a"]%string =
  [Some "/a"; Some "/"; Some ""; None; None; Some "/a"; Some "a"; Some "."]%string.
Proof. reflexivity. Qed.

Example path_file_names : map path_file_name ["/a/b"; "/"; ""; ".."; "a/."; "."; "/a/b/"]%string = [Some "b"; None; None; None; Some "a"; None; Some "b"]%string.
Proof. reflexivity. Qed.

(** [text.replace(pat, new)] for a pattern that is not empty; [skip] characters
    belong to the last match. *)
Fixpoint replace_from (pat new : string) (skip : nat) (s : string) : string :=
  match s with
  | EmptyString => ""
  | String c s' =>
      match skip with
      | S skip' => replace_from pat new skip' s'
      | O => if str_starts_with pat s then new +:+ replace_from pat new (String.length pat - 1) s'
             else String c (replace_from pat new 0 s')
      end
  end.
Definition str_replace (pat new s : string) : string := replace_from pat new 0 s.

(** ** The operating system *)

Record Output := mkOutput { out_code : option Z; out_stdout : bytes; out_stderr : bytes }.

(** How a program ends, its output closed: not started, never, or after some
    milliseconds with its output (or an error of waiting for it).  [released]: the
    task that writes its input ends, since the input was read or nobody holds the
    pipe any more; a descendant that holds it and does not read blocks the task. *)
Inductive Spawned : Type := NotSpawned (e : string) | Hangs (released : bool) | Ends (after_ms : Z) (released : bool) (r : string + Output).

(** [os_probe]: a program run to its end without a limit. *)
Class ScannerOs : Type := {
  os_var : string -> option string;
  os_current_exe : option string;
  os_exists : string -> bool;
  os_is_file : string -> bool;
  os_probe : string -> list string -> string + Output;
  os_run : string -> list string -> string -> Spawned }.

(** [format!("{code:?}")] of an exit code *)
Definition code_debug (c : option Z) : string := match c with Some z => "Some(" +:+ (show_Z z +:+ ")") | None => "None" end.

Definition SCAN_TIMEOUT_MS : Z := 10000.
Definition OUTPUT_CAP : Z := 1024 * 1024.

(** ** The parent *)

Section parent.
  Context {OS : ScannerOs} {JT : JsonText} {JB : JsonBytes}.

Definition scanner_binary : string :=
  match os_var "CORPUS_SCANNER_BIN" with
  | Some p => p
  | None =>
      let beside d := let candidate := path_join d "corpus-scanner" in if os_exists candidate then Some candidate else None in
      let found :=
        d ← (exe ← os_current_exe; path_parent exe);
        match beside d with Some c => Some c | None => parent ← path_parent d; beside parent end in
      default "corpus-scanner"%string found
  end.

Definition rules_json (rules : list (string * string)) : Json := JArr (map (fun r => JArr [JStr (fst r); JStr (snd r)]) rules).

Definition scan_job (rules : list (string * string)) (sample_path : string) : Json :=
  JObj [("rules", rules_json rules); ("sample_path", JStr sample_path)]%string.

(** [write_task.await], outside of any time limit: [None] is to wait for ever. *)
Definition awaited {A} (released : bool) (a : A) : option A := if released then Some a else None.

(** What the parent answers for the child. *)
Definition verdict (status : string) (duration_ms : Z) (error_code : string) : Json :=
  JObj [("status", JStr status); ("matches", JArr []); ("duration_ms", JInt duration_ms); ("error_code", JStr error_code)]%string.

(** [None]: the call does not return. *)
Definition run_sandboxed (scanner job_json : string) (timeout output_cap : Z) : option (string + Json) :=
  let timed_out released := awaited released (inr (verdict "timeout" timeout ("scan exceeded " +:+ (show_Z timeout +:+ "ms sandbox timeout")))) in
  match os_run scanner [] job_json with
  | NotSpawned e => Some (inl e)
  | Hangs released => timed_out released
  | Ends ms released r =>
      if timeout <? ms then timed_out released
      else
        match r with
        | inl e => Some (inl e)
        | inr output => awaited released
            (if output_cap <? len (out_stdout output) then
               inr (verdict "error" 0 ("scanner output exceeded " +:+ (show_Z output_cap +:+ " byte cap")))
             else
               match json_from_slice (out_stdout output) with
               | inr v => inr v
               | inl _ => inr (verdict "error" 0 ("scanner produced invalid output (exit " +:+ (code_debug (out_code output) +:+ ")")))
               end)
        end
  end.

Definition scan_subprocess (rules : list (string * string)) (sample_path : string) (timeout output_cap : Z) : option (string + Json) :=
  run_sandboxed scanner_binary (json_to_string (scan_job rules sample_path)) timeout output_cap.

(** *** gVisor *)

(** [std::env::split_paths(PATH)] *)
Fixpoint split_paths (s acc : string) : list string :=
  match s with
  | EmptyString => [acc]
  | String c s' => if Ascii.eqb c ":" then acc :: split_paths s' "" else split_paths s' (acc +:+ String c "")
  end.

Definition which_on_path (bin : string) : bool :=
  match os_var "PATH" with
  | Some paths => existsb (fun p => os_is_file (path_join p bin)) (split_paths paths "")
  | None => false
  end.

(** The job as the container is given it. *)
Definition container_job (sample_path sample_name job_json : string) : string :=
  let job := str_replace sample_path ("/sample/" +:+ sample_name) job_json in
  if str_contains "/sample/" job then job
  else
    let rules := match json_from_slice (str_bytes job_json) with inr v => default JNull (json_get "rules" v) | inl _ => JNull end in
    json_to_string (JObj [("rules", rules); ("sample_path", JStr ("/sample/" +:+ sample_name))]%string).

Definition docker_args (scanner_dir scanner_name sample_dir : string) : list string :=
  ["run"; "--rm"; "-i"; "--runtime=runsc"; "--network=none"; "-v"; scanner_dir +:+ ":/scanner:ro"; "-v"; sample_dir +:+ ":/sample:ro";
   "alpine:3.20"; "/scanner/" +:+ scanner_name]%string.

Definition run_via_docker_runsc (scanner sample_path job_json : string) (timeout output_cap : Z) : option (string + Json) :=
  let sample_dir := default "/"%string (path_parent sample_path) in
  let sample_name := default "artifact"%string (path_file_name sample_path) in
  let scanner_dir := default "/"%string (path_parent scanner) in
  let scanner_name := default "corpus-scanner"%string (path_file_name scanner) in
  match os_probe "docker" ["info"; "--format"; "{{.Runtimes}}"]%string with
  | inl e => Some (inl ("docker info: " +:+ e))
  | inr probe =>
      let runtimes := from_utf8_lossy (out_stdout probe) in
      if negb (str_contains "runsc" runtimes) then
        Some (inl ("docker has no runsc runtime (runtimes=" +:+ (str_trim runtimes +:+ "); install gVisor and register runsc (docs/deploy.md)")))
      else
        let timed_out released := awaited released (inr (verdict "timeout" timeout ("gvisor scan exceeded " +:+ (show_Z timeout +:+ "ms")))) in
        match os_run "docker" (docker_args scanner_dir scanner_name sample_dir) (container_job sample_path sample_name job_json) with
        | NotSpawned e => Some (inl ("docker run spawn: " +:+ e))
        | Hangs released => timed_out released
        | Ends ms released r =>
            if timeout <? ms then timed_out released
            else
              match r with
              | inl e => Some (inl ("docker wait: " +:+ e))
              | inr output => awaited released
                  (if output_cap <? len (out_stdout output) then
                     inr (verdict "error" 0 ("scanner output exceeded " +:+ (show_Z output_cap +:+ " byte cap")))
                   else if negb (bool_decide (out_code output = Some 0)) && bool_decide (out_stdout output = []) then
                     inl ("gvisor docker run failed (exit " +:+ (code_debug (out_code output) +:+ ("): " +:+ from_utf8_lossy (out_stderr output))))
                   else
                     match json_from_slice (out_stdout output) with
                     | inr v => inr v
                     | inl e => inl ("gvisor scanner invalid JSON (" +:+ (e +:+ ("); stderr=" +:+ from_utf8_lossy (out_stderr output))))
                     end)
              end
        end
  end.

Definition run_via_runsc (scanner sample_dir sample_name job_json : string) (timeout output_cap : Z) : option (string + Json) :=
  match os_var "CORPUS_RUNSC_BUNDLE" with
  | Some bundle =>
      Some (inl ("runsc bundle mode configured (" +:+ (bundle +:+ ") but OCI bundle execution is not wired in this build; use docker --runtime=runsc")))
  | None =>
      if which_on_path "docker" then run_via_docker_runsc scanner (path_join sample_dir sample_name) job_json timeout output_cap
      else Some (inl "runsc is on PATH but CORPUS_RUNSC_BUNDLE is unset and docker is unavailable; register runsc as a Docker runtime (docs/deploy.md)"%string)
  end.

Definition scan_gvisor (rules : list (string * string)) (sample_path : string) (timeout output_cap : Z) : option (string + Json) :=
  let scanner := scanner_binary in
  if negb (os_exists scanner) then Some (inl ("corpus-scanner binary not found at " +:+ scanner))
  else
    let job := json_to_string (scan_job rules "/sample/artifact") in
    match path_parent sample_path with
    | None => Some (inl "sample path has no parent"%string)
    | Some sample_dir =>
        match path_file_name sample_path with
        | None => Some (inl "sample file name invalid"%string)
        | Some sample_name =>
            if which_on_path "runsc" then run_via_runsc scanner sample_dir sample_name job timeout output_cap
            else if which_on_path "docker" then run_via_docker_runsc scanner sample_path job timeout output_cap
            else Some (inl "gvisor tier: neither `runsc` nor `docker` found on PATH; install gVisor on a Linux host (docs/deploy.md)"%string)
        end
    end.

(** The scan of the subprocess tier, [None] when it does not return. *)
Definition subprocess_scan (rules : list (string * string)) (sample_path : string) : option ScanOutcome :=
  v ← scan_subprocess rules sample_path SCAN_TIMEOUT_MS OUTPUT_CAP;
  Some (match v with inr v => outcome_from_json v | inl e => error_outcome ("sandbox spawn: " +:+ e) end).

(** The host [Scan.v] asks for; [elapsed] is the time a scan takes.  That host
    answers every scan: what it is given for a scan that does not return stands for
    no answer of the code. *)
Definition answered (v : option (string + Json)) : string + Json := default (inl "no answer"%string) v.

Definition sandbox_host (elapsed : bytes -> Z) : ScannerHost := {|
  env_scanner_tier := os_var "CORPUS_SCANNER_TIER";
  env_min_scanner_tier := os_var "CORPUS_MIN_SCANNER_TIER";
  Scan.scan_subprocess := fun rules sample_path _ => answered (scan_subprocess rules sample_path SCAN_TIMEOUT_MS OUTPUT_CAP);
  Scan.scan_gvisor := fun rules sample_path _ => answered (scan_gvisor rules sample_path SCAN_TIMEOUT_MS OUTPUT_CAP);
  scan_elapsed := elapsed |}.
End parent.

(** ** The child ([corpus-scanner/src/main.rs]) *)

Record Job := mkJob { jb_rules : list (string * string); jb_sample_path : string; jb_sleep_ms : Z }.

Definition pair_from_json (j : Json) : option (string * string) := match j with JArr [JStr a; JStr b] => Some (a, b) | _ => None end.

Definition sleep_from_json (j : option Json) : option Z :=
  match j with None => Some 0 | Some v => z ← json_int v; if (0 <=? z) && (z <? 2 ^ 64) then Some z else None end.

(** The derived [Deserialize]: an object, or the fields in order. *)
Definition job_from_json (j : Json) : option Job :=
  fields ← match j with
           | JObj _ => Some (json_get "rules" j, json_get "sample_path" j, json_get "sleep_ms" j)
           | JArr [r; p] => Some (Some r, Some p, None)
           | JArr [r; p; s] => Some (Some r, Some p, Some s)
           | _ => None
           end;
  let '(r, p, s) := fields in
  l ← (r ≫= json_arr); rules ← mapM pair_from_json l; path ← (p ≫= json_str); sleep ← sleep_from_json s;
  Some (mkJob rules path sleep).

(** The message [serde_json] has for a text that is not a job. *)
Class JobError : Type := job_error : string -> string.

Definition newline : string := String "010" "".

Section child.
  Context {YX : YaraX} {JT : JsonText} {JB : JsonBytes} {JE : JobError}.
  Context (read_file : string -> string + bytes) (elapsed : bytes -> Z).

Definition outcome_json (o : ScanOutcome) : Json :=
  JObj [("status", JStr (status_str (so_status o))); ("matches", JArr (map match_json (so_matches o))); ("duration_ms", JInt (so_duration_ms o));
        ("error_code", match so_error_code o with Some e => JStr e | None => JNull end)]%string.

Definition scanner_run (job : Job) : ScanOutcome :=
  match compile_bundle (jb_rules job) with
  | inl e => mkScanOutcome ScanError [] 0 (Some ("compile: " +:+ e))
  | inr rules =>
      match read_file (jb_sample_path job) with
      | inl e => mkScanOutcome ScanError [] 0 (Some ("read sample: " +:+ e))
      | inr b => scan_bytes rules b (elapsed b)
      end
  end.

(** The message is put into the text as it is. *)
Definition bad_job_text (e : string) : string :=
  let q k := quote +:+ (k +:+ quote) in
  "{" +:+ (q "status" +:+ (":" +:+ (q "error" +:+ ("," +:+ (q "matches" +:+ (":[]," +:+ (q "duration_ms" +:+ (":0," +:+ (q "error_code" +:+ (":" +:+
    (q ("bad job json: " +:+ e) +:+ "}"))))))))))).

(** [main]: the input is text; a job may ask for a sleep before the scan. *)
Definition scanner_main (input : string) : Output :=
  match (match json_from_slice (str_bytes input) with inr v => job_from_json v | inl _ => None end) with
  | Some job => mkOutput (Some 0) (str_bytes (json_to_string (outcome_json (scanner_run job)) +:+ newline)) []
  | None => mkOutput (Some 64) (str_bytes (bad_job_text (job_error input) +:+ newline)) []
  end.
End child.

(** ** Laws *)

(** What a printed value reads back as: no floats, integers of Rust's width,
    distinct keys. *)
Fixpoint json_plain (j : Json) : bool :=
  match j with
  | JFloat _ => false
  | JInt z => (- 2 ^ 63 <=? z) && (z <? 2 ^ 64)
  | JArr l => forallb json_plain l
  | JObj l => bool_decide (NoDup (map fst l)) && forallb (fun kv => json_plain (snd kv)) l
  | _ => true
  end.

(** Arrays and objects inside one another. *)
Fixpoint json_depth (j : Json) : nat :=
  match j with
  | JArr l => S (list_max (map json_depth l))
  | JObj l => S (list_max (map (fun kv => json_depth (snd kv)) l))
  | _ => 0
  end.

(** serde_json reads back what it printed, a line break after it or not: down to
    its recursion limit of 128, and with the keys in the order written, the crate
    being built with its feature [preserve_order]. *)
Class JsonLaws `{JsonText, JsonBytes} : Prop := {
  json_roundtrip : forall j, json_plain j = true -> (json_depth j < 128)%nat -> json_from_slice (str_bytes (json_to_string j)) = inr j;
  json_roundtrip_line : forall j, json_plain j = true -> (json_depth j < 128)%nat -> json_from_slice (str_bytes (json_to_string j +:+ newline)) = inr j }.

(** The ranges of matches are ranges of [usize]. *)
Definition range_ok (r : Z * Z) : Prop := 0 <= fst r <= snd r /\ snd r < 2 ^ 64.

Class YaraLaws `{YaraX} : Prop := {
  yara_ranges : forall rules b results, yara_scan rules b = inr results ->
    Forall (fun m => Forall (fun p => Forall range_ok (yp_matches p)) (ym_patterns m)) results }.

(** ** Round trips *)

Lemma forallb_map_true {A B} (f : A -> B) (p : B -> bool) l : (forall x, In x l -> p (f x) = true) -> forallb p (map f l) = true.
Proof. intros H. apply forallb_forall. intros y (x & <- & Hx)%in_map_iff. by apply H. Qed.

Lemma mapM_map {A B} (f : B -> option A) (g : A -> B) l : (forall x, In x l -> f (g x) = Some x) -> mapM f (map g l) = Some l.
Proof.
  induction l as [|x l IH]; intros H; [done|]. cbn [map]. unfold mapM in *. cbn [map]. rewrite (H x) by by left. cbn.
  by rewrite IH by (intros y Hy; apply H; by right).
Qed.

Lemma omap_map_some {A B} (f : B -> option A) (g : A -> B) l : (forall x, In x l -> f (g x) = Some x) -> omap f (map g l) = l.
Proof.
  induction l as [|x l IH]; intros H; [done|]. cbn [map omap list_omap]. rewrite (H x) by by left. f_equal. apply IH. intros y Hy. apply H. by right.
Qed.

Definition pattern_ok (p : PatternEvidence) : Prop := 0 <= pe_offset p < 2 ^ 64 /\ 0 <= pe_length p < 2 ^ 64.
Definition evidence_ok (m : RuleMatchEvidence) : Prop := Forall pattern_ok (me_patterns m).

Lemma u64_ok z : 0 <= z < 2 ^ 64 -> (0 <=? z) && (z <? 2 ^ 64) = true.
Proof. intros [H1 H2]. by rewrite (proj2 (Z.leb_le _ _) H1), (proj2 (Z.ltb_lt _ _) H2). Qed.

Lemma pattern_roundtrip p : pattern_ok p -> pattern_from_json (pattern_json p) = Some p.
Proof.
  destruct p as [i o l]. intros [H1 H2]. cbn [pe_offset pe_length] in *. unfold pattern_from_json, u64_field, pattern_json, json_get_str, json_get. cbn [assoc String.eqb Ascii.eqb Bool.eqb pe_identifier pe_offset pe_length mbind option_bind json_str json_int].
  by rewrite !u64_ok.
Qed.

Lemma evidence_roundtrip m : evidence_ok m -> match_from_json (match_json m) = Some m.
Proof.
  destruct m as [r n ps]. unfold evidence_ok. cbn [me_patterns]. intros H. unfold match_from_json, match_json, json_get_str, json_get.
  cbn [assoc String.eqb Ascii.eqb Bool.eqb me_rule_id me_namespace me_patterns mbind option_bind json_str json_arr].
  rewrite mapM_map; [done|]. intros p Hp. rewrite List.Forall_forall in H. by apply pattern_roundtrip, H.
Qed.

Lemma outcome_roundtrip o : Forall evidence_ok (so_matches o) -> outcome_from_json (outcome_json o) = o.
Proof.
  destruct o as [st ms d e]. cbn [so_matches]. intros H. unfold outcome_from_json, outcome_json, json_get_str, json_get.
  cbn [assoc String.eqb Ascii.eqb Bool.eqb so_status so_matches so_duration_ms so_error_code mbind option_bind json_str json_arr json_int default].
  rewrite omap_map_some by (intros m Hm; rewrite List.Forall_forall in H; by apply evidence_roundtrip, H).
  f_equal; [by destruct st|by destruct e].
Qed.

Lemma pattern_plain p : pattern_ok p -> json_plain (pattern_json p) = true.
Proof.
  intros [H1 H2]. unfold pattern_json. cbn -[Z.pow Z.leb Z.ltb]. rewrite bool_decide_eq_true_2 by (apply (bool_decide_unpack _); vm_compute; exact I).
  rewrite !(proj2 (Z.leb_le (- 2 ^ 63) _)) by lia. by rewrite !(proj2 (Z.ltb_lt _ (2 ^ 64))) by lia.
Qed.

Lemma evidence_plain m : evidence_ok m -> json_plain (match_json m) = true.
Proof.
  intros H. unfold match_json. cbn [json_plain map fst snd forallb]. rewrite bool_decide_eq_true_2 by (apply (bool_decide_unpack _); vm_compute; exact I).
  rewrite forallb_map_true; [done|]. intros p Hp. unfold evidence_ok in H. rewrite List.Forall_forall in H. by apply pattern_plain, H.
Qed.

Lemma outcome_plain o : Forall evidence_ok (so_matches o) -> 0 <= so_duration_ms o < 2 ^ 63 -> json_plain (outcome_json o) = true.
Proof.
  intros H Hd. unfold outcome_json. cbn [json_plain map fst snd forallb]. rewrite bool_decide_eq_true_2 by (apply (bool_decide_unpack _); vm_compute; exact I).
  rewrite forallb_map_true by (intros m Hm; rewrite List.Forall_forall in H; by apply evidence_plain, H).
  rewrite (proj2 (Z.leb_le (- 2 ^ 63) _)) by lia. rewrite (proj2 (Z.ltb_lt _ (2 ^ 64))) by lia. by destruct (so_error_code o).
Qed.

Lemma job_roundtrip rules path : job_from_json (scan_job rules path) = Some (mkJob rules path 0).
Proof.
  unfold job_from_json, scan_job, rules_json, json_get. cbn [assoc String.eqb Ascii.eqb Bool.eqb mbind option_bind json_arr json_str sleep_from_json].
  rewrite mapM_map; [done|]. by intros [a b] _.
Qed.

Lemma job_plain rules path : json_plain (scan_job rules path) = true.
Proof.
  unfold scan_job, rules_json. cbn [json_plain map fst snd forallb]. rewrite bool_decide_eq_true_2 by (apply (bool_decide_unpack _); vm_compute; exact I).
  rewrite forallb_map_true; [done|]. by intros.
Qed.

(** Jobs and outcomes are shallow. *)
Lemma depth_map {A} (f : A -> Json) n l : (forall x, json_depth (f x) <= n)%nat -> (list_max (map json_depth (map f l)) <= n)%nat.
Proof. intros H. apply list_max_le, List.Forall_forall. intros d (j & <- & (x & <- & _)%in_map_iff)%in_map_iff. apply H. Qed.

Lemma job_depth rules path : (json_depth (scan_job rules path) < 128)%nat.
Proof.
  unfold scan_job, rules_json. cbn [json_depth map snd list_max].
  pose proof (depth_map (fun r : string * string => JArr [JStr (fst r); JStr (snd r)]) 1 rules (fun _ => le_n 1)) as H.
  cbn [list_max fold_right]. unfold list_max in *. lia.
Qed.

Lemma evidence_depth m : (json_depth (match_json m) <= 3)%nat.
Proof.
  unfold match_json. pose proof (depth_map pattern_json 1 (me_patterns m) (fun _ => le_n 1)) as H. cbn. unfold list_max in *. lia.
Qed.

Lemma outcome_depth o : (json_depth (outcome_json o) < 128)%nat.
Proof.
  unfold outcome_json. pose proof (depth_map match_json 3 (so_matches o) evidence_depth) as H.
  destruct (so_error_code o); cbn; unfold list_max in *; lia.
Qed.

(** What an engine within its laws finds is evidence that survives the pipe. *)
Lemma scan_evidence_ok `{YaraX, !YaraLaws} rules b ms : Forall evidence_ok (so_matches (scan_bytes rules b ms)).
Proof.
  unfold scan_bytes. destruct (yara_scan rules b) as [msg|results] eqn:E; [constructor|]. cbn [so_matches]. apply yara_ranges in E.
  apply List.Forall_forall. intros m (y & <- & Hy)%in_map_iff. rewrite List.Forall_forall in E. specialize (E y Hy). unfold evidence_ok, match_evidence. cbn [me_patterns].
  apply List.Forall_forall. intros p (pat & Hpat & Hp)%in_flat_map. rewrite List.Forall_forall in E. specialize (E pat Hpat). rewrite List.Forall_forall in E.
  apply in_map_iff in Hp as (r & <- & Hr). assert (Hin : In r (yp_matches pat)) by (rewrite <- (firstn_skipn 64 (yp_matches pat)); apply in_or_app; by left).
  destruct (E r Hin) as [[H1 H2] H3]. unfold pattern_ok. cbn [pe_offset pe_length]. lia.
Qed.

(** ** What a scan in a process of its own promises *)

(** The program ended within ten seconds and printed, within a mebibyte, a JSON
    value. *)
Definition settled `{JsonBytes} (run : Spawned) (v : Json) : Prop :=
  exists ms released output, run = Ends ms released (inr output) /\ ms <= 10000 /\ len (out_stdout output) <= 2 ^ 20 /\
    json_from_slice (out_stdout output) = inr v.

(** It did not end within ten seconds. *)
Definition late (run : Spawned) : Prop :=
  match run with NotSpawned _ => False | Hangs _ => True | Ends ms _ _ => 10000 < ms end.

(** Its input never gets written, though the parent has its end (or its lateness)
    before it. *)
Definition stuck (run : Spawned) : Prop :=
  match run with NotSpawned _ => False | Hangs released => released = false
  | Ends ms released r => released = false /\ (10000 < ms \/ exists output, r = inr output) end.

Section contained.
  Context {YX : YaraX} {OS : ScannerOs} {JT : JsonText} {JB : JsonBytes}.
  Context (elapsed : bytes -> Z).

#[local] Instance host : ScannerHost := sandbox_host elapsed.

Lemma verdict_error ms e : outcome_from_json (verdict "error" ms e) = mkScanOutcome ScanError [] ms (Some e).
Proof. done. Qed.
Lemma verdict_timeout ms e : outcome_from_json (verdict "timeout" ms e) = mkScanOutcome Timeout [] ms (Some e).
Proof. done. Qed.

Definition timeout_outcome : ScanOutcome := mkScanOutcome Timeout [] 10000 (Some "scan exceeded 10000ms sandbox timeout"%string).

(** The outcome of each way to end. *)
Definition contained (run : Spawned) (o : ScanOutcome) : Prop :=
  (late run -> o = timeout_outcome) /\
  (forall v, settled run v -> o = outcome_from_json v) /\
  (~ late run -> (forall v, ~ settled run v) -> so_status o = ScanError /\ so_matches o = [] /\ so_error_code o <> None).

Lemma contained_error run e : ~ late run -> (forall v, ~ settled run v) -> contained run (error_outcome e).
Proof. intros Hl Hs. split; [done|]. split; [intros v Hv; by destruct (Hs v)|done]. Qed.

Lemma contained_late run : late run -> contained run timeout_outcome.
Proof.
  intros Hl. split; [done|]. split; [|done]. intros v (ms & rel & output & -> & Hms & _). cbn in Hl. lia.
Qed.

Lemma contained_output ms rel output : ms <= 10000 ->
  contained (Ends ms rel (inr output)) (outcome_from_json
    (if OUTPUT_CAP <? len (out_stdout output) then
       verdict "error" 0 ("scanner output exceeded " +:+ (show_Z OUTPUT_CAP +:+ " byte cap"))
     else
       match json_from_slice (out_stdout output) with
       | inr v => v
       | inl _ => verdict "error" 0 ("scanner produced invalid output (exit " +:+ (code_debug (out_code output) +:+ ")"))
       end)).
Proof.
  intros Hms. assert (Hl : ~ late (Ends ms rel (inr output))) by (cbn; lia).
  destruct (Z.ltb_spec OUTPUT_CAP (len (out_stdout output))) as [Hc|Hc].
  { apply contained_error; [done|]. intros v (? & ? & ? & [= <- <- <-] & _ & Hcap & _). unfold OUTPUT_CAP in Hc. lia. }
  destruct (json_from_slice (out_stdout output)) as [e|v] eqn:Ej.
  { apply contained_error; [done|]. intros v (? & ? & ? & [= <- <- <-] & _ & _ & Hv). congruence. }
  split; [done|]. split; [intros w (? & ? & ? & [= <- <- <-] & _ & _ & Hv); congruence|].
  intros _ Hs. destruct (Hs v). by exists ms, rel, output.
Qed.

(** C27. The sandbox contains the scanner.  Whatever program is found and however it
    behaves, a scan in the subprocess tier returns, unless the task that writes the
    program's input never ends: the code waits for it with no limit, and a descendant
    of the program that holds the input without reading it holds the scan.  When it
    returns: a program that did not end within ten seconds is a timeout of that
    duration, without matches; one that ended in time and printed within a mebibyte a
    JSON value is read as that value says; in every other case (it does not start,
    dies, floods its output, prints anything else) the outcome is an error without
    matches, with a message.  So a file is matched or clean, or has matches, only
    because the program ended in time and said so. *)
Theorem sandbox_contains sources compiled b path :
  let run := os_run scanner_binary [] (json_to_string (scan_job sources path)) in
  (subprocess_scan sources path = None <-> stuck run) /\
  (forall o, subprocess_scan sources path = Some o -> scan_with_tier Subprocess sources compiled b (Some path) = Ret o /\ contained run o).
Proof.
  cbv zeta. unfold scan_with_tier. cbn [Scan.scan_subprocess host sandbox_host]. unfold subprocess_scan, scan_subprocess, run_sandboxed.
  set (job := json_to_string _). destruct (os_run scanner_binary [] job) as [e|rel|ms rel r].
  - split; [done|]. cbn. intros o [= <-]. split; [done|]. apply contained_error; [by intros []|]. by intros v (? & ? & ? & ? & _).
  - destruct rel; (split; [done|]); cbn; intros o [= <-]. split; [done|]. by apply contained_late.
  - destruct (Z.ltb_spec SCAN_TIMEOUT_MS ms) as [Hms|Hms]; unfold SCAN_TIMEOUT_MS in Hms.
    { destruct rel; cbn; (split; [split|intros o]).
      + done.
      + by intros [? _].
      + intros [= <-]. split; [done|]. by apply contained_late.
      + intros _. split; [done|by left].
      + done.
      + done. }
    destruct r as [e|output].
    { split; [split; [done|intros [_ [?|[output ?]]]; [lia|done]]|]. cbn. intros o [= <-]. split; [done|].
      apply contained_error; [cbn; lia|]. by intros v (? & ? & ? & ? & _). }
    pose proof (contained_output ms rel output Hms) as Ho.
    destruct rel; cbn [awaited mbind option_bind]; (split; [split|intros o]).
    + done.
    + by intros [? _].
    + intros [= <-]. destruct (_ <? _); [by split|]. by destruct (json_from_slice _).
    + intros _. split; [done|]. right. by exists output.
    + done.
    + done.
Qed.
End contained.

Section isolated.
  Context {YX : YaraX} {YL : YaraLaws} {OS : ScannerOs} {JT : JsonText} {JB : JsonBytes} {JL : JsonLaws} {JE : JobError}.
  Context {UD : UuidDisplay}.
  Context (read_file : string -> string + bytes) (elapsed : bytes -> Z).

#[local] Instance isolated_host : ScannerHost := sandbox_host elapsed.

(** The scanner found is this program's, sees the sample, and ends in time within
    the cap. *)
Record scanner_works (sources : list (string * string)) (path : string) (b : bytes) : Prop := {
  sw_reads : read_file path = inr b;
  sw_elapsed : 0 <= elapsed b < 2 ^ 63;
  sw_runs : exists ms, ms <= SCAN_TIMEOUT_MS /\
    os_run scanner_binary [] (json_to_string (scan_job sources path)) = Ends ms true (inr (scanner_main read_file elapsed (json_to_string (scan_job sources path))));
  sw_cap : len (out_stdout (scanner_main read_file elapsed (json_to_string (scan_job sources path)))) <= OUTPUT_CAP }.

(** What the child prints for the parent's job. *)
Lemma child_answers sources path : scanner_main read_file elapsed (json_to_string (scan_job sources path)) =
  mkOutput (Some 0) (str_bytes (json_to_string (outcome_json (scanner_run read_file elapsed (mkJob sources path 0))) +:+ newline)) [].
Proof. unfold scanner_main. rewrite json_roundtrip by (apply job_plain || apply job_depth). by rewrite job_roundtrip. Qed.

(** C28. Isolation changes nothing: with the scanner of this program, ending in time
    and within the cap, the subprocess tier answers for a sample exactly what
    scanning the same bytes in the server's process with the compiled rules answers:
    status, rules, pattern ranges, duration and error, through the job's and the
    result's JSON. *)
Theorem subprocess_same_scan sources rules compiled path b : compile_bundle sources = inr rules -> scanner_works sources path b ->
  scan_with_tier Subprocess sources compiled b (Some path) = scan_with_tier InProcess sources (Some rules) b None.
Proof.
  intros Hc [Hr He (ms & Hms & Hrun) Hcap]. unfold scan_with_tier. cbn [Scan.scan_subprocess isolated_host sandbox_host scan_elapsed].
  unfold scan_subprocess, run_sandboxed. rewrite Hrun. rewrite (proj2 (Z.ltb_ge _ _) Hms), (proj2 (Z.ltb_ge _ _) Hcap).
  rewrite child_answers. unfold scanner_run. cbn [jb_rules jb_sample_path out_stdout]. rewrite Hc, Hr.
  pose proof (scan_evidence_ok rules b (elapsed b)) as Hev.
  rewrite json_roundtrip_line; [by cbn [awaited answered from_option id]; rewrite outcome_roundtrip| |apply outcome_depth].
  apply outcome_plain; [done|]. unfold scan_bytes. by destruct (yara_scan rules b).
Qed.

(** A hunt's step over an artifact does not depend on the tier. *)
Corollary hunt_tier_same sources rules tenant hunt_id digest key a b c s :
  compile_bundle sources = inr rules -> scanner_works sources (art_object_key a) b ->
  execute_scanned Subprocess sources rules tenant hunt_id digest key a b c s = execute_scanned InProcess sources rules tenant hunt_id digest key a b c s.
Proof.
  intros Hc Hw. unfold execute_scanned. rewrite (subprocess_same_scan sources rules (Some rules) _ _ Hc Hw). done.
Qed.
End isolated.

(** *** gVisor *)

Lemma replace_id pat new s : str_contains pat s = false -> str_replace pat new s = s.
Proof.
  unfold str_replace. induction s as [|c s IH]; [done|]. cbn [str_contains replace_from]. rewrite orb_false_iff. intros [H1 H2].
  by rewrite H1, IH.
Qed.

(** The job names the sample [/sample/artifact]: neither rewrite applies to it. *)
Lemma container_job_same `{JsonText, JsonBytes} sample_path sample_name job :
  str_contains sample_path job = false -> str_contains "/sample/" job = true -> container_job sample_path sample_name job = job.
Proof. intros H1 H2. unfold container_job. rewrite replace_id by done. by rewrite H2. Qed.

Section gvisor.
  Context {YX : YaraX} {OS : ScannerOs} {JT : JsonText} {JB : JsonBytes} {JL : JsonLaws} {JE : JobError}.
  Context (read_file : string -> string + bytes) (elapsed : bytes -> Z).

#[local] Instance gvisor_host : ScannerHost := sandbox_host elapsed.

(** Docker runs the scanner on the job, with the sample's directory under [/sample]. *)
Record container_works (sample_path job : string) : Prop := {
  cw_scanner : os_exists scanner_binary = true;
  cw_sample : path_parent sample_path <> None /\ path_file_name sample_path <> None;
  cw_path : which_on_path "runsc" = false /\ which_on_path "docker" = true;
  cw_runtime : exists probe, os_probe "docker" ["info"; "--format"; "{{.Runtimes}}"]%string = inr probe /\
    str_contains "runsc" (from_utf8_lossy (out_stdout probe)) = true;
  cw_runs : forall args text, exists ms, ms <= SCAN_TIMEOUT_MS /\ os_run "docker" args text = Ends ms true (inr (scanner_main read_file elapsed text));
  cw_cap : len (out_stdout (scanner_main read_file elapsed job)) <= OUTPUT_CAP;
  cw_text : str_contains sample_path job = false /\ str_contains "/sample/" job = true }.

(** The gVisor tier reads no sample but one whose file is called [artifact]: for
    every other the child does not find the file it is told to scan, and the scan is
    an error.  (The corpus names its objects by digest.) *)
Theorem gvisor_reads_artifact sources rules compiled b sample_path e :
  compile_bundle sources = inr rules -> read_file "/sample/artifact" = inl e ->
  container_works sample_path (json_to_string (scan_job sources "/sample/artifact")) ->
  scan_with_tier Gvisor sources compiled b (Some sample_path) = Ret (mkScanOutcome ScanError [] 0 (Some ("read sample: " +:+ e))).
Proof.
  intros Hc He [H1 [H2 H3] [H4 H5] (probe & H6 & H7) H8 H9 [Ha Hb]]. unfold scan_with_tier. cbn [Scan.scan_gvisor gvisor_host sandbox_host].
  unfold scan_gvisor. rewrite H1. cbn [negb]. destruct (path_parent sample_path) as [dir|] eqn:E1; [|done]. destruct (path_file_name sample_path) as [name|] eqn:E2; [|done].
  rewrite H4, H5. unfold run_via_docker_runsc. rewrite E1, E2, H6, H7. cbn [negb default]. rewrite container_job_same by done.
  match goal with |- context [os_run "docker" ?args ?t] => destruct (H8 args t) as (ms & Hms & ->) end.
  rewrite (proj2 (Z.ltb_ge _ _) Hms), (proj2 (Z.ltb_ge _ _) H9). rewrite child_answers. cbn [out_code out_stdout]. rewrite bool_decide_eq_true_2 by done. cbn [negb andb].
  rewrite json_roundtrip_line; [| |apply outcome_depth].
  2: apply outcome_plain; unfold scanner_run; cbn [jb_rules jb_sample_path]; rewrite Hc, He; [constructor|done].
  cbn [awaited answered from_option id]. rewrite outcome_roundtrip; unfold scanner_run; cbn [jb_rules jb_sample_path]; rewrite Hc, He; [done|constructor].
Qed.
End gvisor.

(** ** Witness *)

(** Values as text, through trees and binary numerals. *)
Module ReferenceJson.

Abbreviation tree := (gen_tree (string + (Z + bool))).

Fixpoint to_tree (j : Json) : tree :=
  match j with
  | JNull | JFloat _ => GenNode 0 []
  | JBool b => GenLeaf (inr (inr b))
  | JInt z => GenLeaf (inr (inl z))
  | JStr s => GenLeaf (inl s)
  | JArr l => GenNode 1 (map to_tree l)
  | JObj l => GenNode 2 (map (fun kv => GenNode 3 [GenLeaf (inl (fst kv)); to_tree (snd kv)]) l)
  end.

Fixpoint of_tree (t : tree) : Json :=
  match t with
  | GenLeaf (inl s) => JStr s
  | GenLeaf (inr (inl z)) => JInt z
  | GenLeaf (inr (inr b)) => JBool b
  | GenNode 1 l => JArr (map of_tree l)
  | GenNode 2 l => JObj (map (fun t => match t with GenNode _ [GenLeaf (inl k); v] => (k, of_tree v) | _ => (""%string, JNull) end) l)
  | GenNode _ _ => JNull
  end.

Lemma of_to_tree j : json_plain j = true -> of_tree (to_tree j) = j.
Proof.
  revert j. fix IH 1. intros [|b|z|x|s|l|l]; try done; cbn [json_plain to_tree of_tree]; intros H.
  - f_equal. revert H. induction l as [|y l IHl]; [done|]. cbn [map forallb]. intros [H1 H2]%andb_true_iff. by rewrite (IH y H1), (IHl H2).
  - f_equal. apply andb_true_iff in H as [_ H]. revert H. induction l as [|[k y] l IHl]; [done|]. cbn [map forallb fst snd]. intros [H1 H2]%andb_true_iff.
    by rewrite (IH y H1), (IHl H2).
Qed.

Fixpoint show_bits (p : positive) : string :=
  match p with xH => String "." "" | xO p => String "0" (show_bits p) | xI p => String "1" (show_bits p) end.

Fixpoint read_bits (s : string) : option positive :=
  match s with
  | EmptyString => None
  | String c s' => if Ascii.eqb c "." then Some xH else p ← read_bits s'; Some (if Ascii.eqb c "0" then xO p else xI p)
  end.

Lemma read_show_bits p s : read_bits (show_bits p +:+ s) = Some p.
Proof. induction p as [p IH|p IH|]; cbn; try done; change (?f p ++ s)%string with (f p +:+ s); by rewrite IH. Qed.

Definition text : JsonText := fun j => show_bits (encode (to_tree j)).
Definition slice : JsonBytes := fun b =>
  match (p ← read_bits (bytes_str b); decode p) with Some t => inr (of_tree t) | None => inl "expected value"%string end.

Lemma read_text s t : slice (str_bytes (show_bits (encode (t : tree)) +:+ s)) = inr (of_tree t).
Proof. unfold slice, bytes_str, str_bytes. rewrite String.string_of_list_byte_of_string, read_show_bits. cbn. by rewrite decode_encode. Qed.

Lemma json_laws : JsonLaws (H := text) (H0 := slice).
Proof.
  constructor; intros j Hj _; unfold json_to_string, text, json_from_slice.
  - rewrite <- (string_app_nil_r (show_bits _)). by rewrite read_text, of_to_tree.
  - by rewrite read_text, of_to_tree.
Qed.
End ReferenceJson.

Section witnesses.
Local Existing Instance ReferenceYara.engine.
Local Existing Instance ReferenceJson.text.
Local Existing Instance ReferenceJson.slice.
Local Existing Instance ReferenceJson.json_laws.
Local Instance no_message : JobError := fun _ => "bad"%string.

Lemma engine_laws : YaraLaws.
Proof.
  constructor. intros rules b results. cbn. destruct (existsb _ _); [done|]. intros [= <-]. apply List.Forall_forall.
  intros m (src & <- & _)%in_map_iff. cbn. repeat constructor; cbn; lia.
Qed.
Local Existing Instance engine_laws.

Definition one_sample (path : string) : string + bytes := if String.eqb path "/store/aa" then inr [x61; x62] else inl "no such file"%string.

Local Instance working_os : ScannerOs := {|
  os_var := fun _ => None; os_current_exe := Some "/opt/corpus-server"%string; os_exists := String.eqb "/opt/corpus-scanner"; os_is_file := fun _ => false;
  os_probe := fun _ _ => inl "no docker"%string;
  os_run := fun program args input =>
    if String.eqb program "/opt/corpus-scanner" then Ends 20 true (inr (scanner_main one_sample (fun _ => 3) input)) else NotSpawned "not found" |}.

Definition two_rules : list (string * string) := [("ns", "ab"); ("ns", "zz")]%string.

(** The first rule matches the sample, in a process of its own as in the server's. *)
Lemma subprocess_same_scan_witness :
  scan_with_tier (H0 := sandbox_host (fun _ => 3)) Subprocess two_rules None [x61; x62] (Some "/store/aa"%string) =
  Ret (mkScanOutcome Matched [mkRuleMatchEvidence "ab" "ns" [mkPatternEvidence "$a" 0 1]] 3 None).
Proof.
  refine (eq_trans (subprocess_same_scan one_sample (fun _ => 3) two_rules two_rules None "/store/aa" [x61; x62] eq_refl _) eq_refl).
  constructor; [reflexivity|lia|exists 20; split; [done|reflexivity]|]. apply Z.leb_le. vm_compute. reflexivity.
Defined.

(** A program that hangs, one whose input stays held, a late one and a missing one. *)
Definition one_program (run : Spawned) : ScannerOs := {|
  os_var := fun _ => None; os_current_exe := None; os_exists := fun _ => false; os_is_file := fun _ => false;
  os_probe := fun _ _ => inl "no docker"%string; os_run := fun _ _ _ => run |}.

Example ends_of_scans : map (fun run => subprocess_scan (OS := one_program run) two_rules "/store/aa")
    [Hangs true; Hangs false; Ends 10001 true (inl "interrupted"%string); NotSpawned "not found"] =
  [Some timeout_outcome; None; Some timeout_outcome; Some (error_outcome "sandbox spawn: not found")].
Proof. vm_compute. reflexivity. Qed.
End witnesses.
