(* ===== verification/Export.v ===== *)
(** * Export: similarity graphs as documents ([similarity/export.rs])

    A neighborhood or a variant group rendered as canonical JSON, as DOT or as
    GraphML, under a bound on the size of the document.  The pretty JSON printer
    (serde_json) is the class [JsonPretty]. *)

From S2P Require Import Prelude Machine Text Decimal Hash Cas Schema SimModel Variants Access Neighborhood Report.
From Stdlib Require Import Strings.Byte Strings.Ascii SpecFloat Sorting.Permutation Sorting.Sorted.

Open Scope Z_scope.

(** [serde_json::to_string_pretty] *)
Class JsonPretty : Type := json_to_string_pretty : Json -> string.

Definition MAX_EXPORT_BYTES : Z := 1024 * 1024.

Inductive ExportFormat : Type := FormatJson | FormatDot | FormatGraphMl.

Definition parse_format (s : string) : outcome ExportFormat :=
  let other := str_lower s in
  if String.eqb other "json" then Ret FormatJson
  else if String.eqb other "dot" then Ret FormatDot
  else if String.eqb other "graphml" || String.eqb other "xml" then Ret FormatGraphMl
  else Fail (BadRequest (text ["unknown export format "; debug_str other; "; use json|dot|graphml"]%string)).

Record GraphExport := mkGraphExport {
  ge_format : string; ge_model_version : string; ge_tenant_id : Uuid; ge_generated_at : Time; ge_body : string; ge_node_count : Z;
  ge_edge_count : Z; ge_truncated : bool }.

(** ** Escaping *)

(** [s.replace(c, r)] for a character. *)
Fixpoint replace_char (c : ascii) (r : string) (s : string) : string :=
  match s with
  | EmptyString => EmptyString
  | String d s' => (if Ascii.eqb d c then r else String d EmptyString) +:+ replace_char c r s'
  end.

Definition escape_dot (s : string) : string := replace_char "034" ("\" +:+ quote) (replace_char "\" "\\" s).

Definition xml_escape (s : string) : string :=
  replace_char "034" "&quot;" (replace_char ">" "&gt;" (replace_char "<" "&lt;" (replace_char "&" "&amp;" s))).

(** [format!("\"{s}\"")] *)
Definition quoted (s : string) : string := quote +:+ (s +:+ quote).

Definition nl : string := String "010" EmptyString.

(** ** The three documents *)

Section render.
  Context {UD : UuidDisplay}.

Definition canonical_node_le (a b : NeighborhoodNode) : bool :=
  if String.eqb (nn_sha256 a) (nn_sha256 b) then (nn_artifact_id a <=? nn_artifact_id b)%N else str_leb (nn_sha256 a) (nn_sha256 b).

Definition canonical_edge_le (a b : NeighborhoodEdge) : bool :=
  if String.eqb (ne_src_sha256 a) (ne_src_sha256 b) then
    if String.eqb (ne_dst_sha256 a) (ne_dst_sha256 b) then str_leb (ne_edge_type a) (ne_edge_type b)
    else str_leb (ne_dst_sha256 a) (ne_dst_sha256 b)
  else str_leb (ne_src_sha256 a) (ne_src_sha256 b).

Definition canonical_edge (e : NeighborhoodEdge) : Json :=
  JObj [("src_artifact", JStr (uuid_to_string (ne_src_artifact e))); ("dst_artifact", JStr (uuid_to_string (ne_dst_artifact e)));
        ("src_sha256", JStr (ne_src_sha256 e)); ("dst_sha256", JStr (ne_dst_sha256 e)); ("edge_type", JStr (ne_edge_type e));
        ("model_version", JStr (ne_model_version e)); ("score", JFloat (ne_score e)); ("evidence", ne_evidence_ref e)]%string.

Definition canonical (graph : NeighborhoodResponse) : Json :=
  JObj [("schema_version", JStr "similarity-export:v1"); ("tenant_id", JStr (uuid_to_string (nr_tenant_id graph)));
        ("seed_artifact", JStr (uuid_to_string (nr_seed_artifact graph))); ("seed_sha256", JStr (nr_seed_sha256 graph));
        ("model_version", JStr (nr_model_version graph)); ("truncated", JBool (nr_truncated graph));
        ("nodes", JArr (map node_json (sort_by canonical_node_le (nr_nodes graph))));
        ("edges", JArr (map canonical_edge (sort_by canonical_edge_le (nr_edges graph))))]%string.

Definition render_json {JP : JsonPretty} (graph : NeighborhoodResponse) : string := json_to_string_pretty (canonical graph).

(** A digest shortened to 12 bytes. *)
Definition short_sha (sha : string) : outcome string :=
  match split_at sha (Nat.min 12 (String.length sha)) with Ret p => Ret (fst p) | Fail e => Fail e | Panic => Panic end.

Definition dot_label (short class : string) : string := text [short; "\n"; class]%string.

Definition dot_node (n : NeighborhoodNode) : outcome string :=
  match short_sha (nn_sha256 n) with
  | Ret short => Ret (text ["  "; quoted (uuid_to_string (nn_artifact_id n)); " [label=";
                            quoted (escape_dot (dot_label short (nn_artifact_class n))); ", shape=box];"; nl]%string)
  | Fail e => Fail e
  | Panic => Panic
  end.

Definition dot_edge (e : NeighborhoodEdge) : string :=
  text ["  "; quoted (uuid_to_string (ne_src_artifact e)); " -- "; quoted (uuid_to_string (ne_dst_artifact e)); " [label=";
        quoted (text [ne_edge_type e; ":"; show_f64_fixed 2 (ne_score e)]%string); "];"; nl]%string.

(** The lines of the nodes, up to the first whose digest cannot be cut. *)
Fixpoint dot_nodes (l : list NeighborhoodNode) : outcome string :=
  match l with
  | [] => Ret ""%string
  | n :: l' =>
      match dot_node n, dot_nodes l' with
      | Ret a, Ret b => Ret (a +:+ b)
      | Ret _, o => o
      | o, _ => o
      end
  end.

Definition render_dot (graph : NeighborhoodResponse) : outcome string :=
  match dot_nodes (nr_nodes graph) with
  | Ret nodes => Ret (text ["strict graph similarity {"; nl; "  graph [overlap=false];"; nl; nodes; text (map dot_edge (nr_edges graph)); "}"; nl]%string)
  | o => o
  end.

Definition xml_key (id for_ name type : string) : string :=
  text ["  <key id="; quoted id; " for="; quoted for_; " attr.name="; quoted name; " attr.type="; quoted type; "/>"; nl]%string.

Definition graphml_head : string :=
  text ["<?xml version="; quoted "1.0"; " encoding="; quoted "UTF-8"; "?>"; nl;
        "<graphml xmlns="; quoted "http://graphml.graphdrawing.org/xmlns"; ">"; nl;
        xml_key "sha" "node" "sha256" "string"; xml_key "class" "node" "artifact_class" "string"; xml_key "etype" "edge" "edge_type" "string";
        xml_key "score" "edge" "score" "double"; xml_key "model" "edge" "model_version" "string";
        "  <graph id="; quoted "similarity"; " edgedefault="; quoted "undirected"; ">"; nl]%string.

(** A [<data>] line with its content. *)
Definition xml_data (key content : string) : string := text ["      <data key="; quoted key; ">"; content; "</data>"; nl]%string.

Definition graphml_node (n : NeighborhoodNode) : string :=
  text ["    <node id="; quoted (uuid_to_string (nn_artifact_id n)); ">"; nl; xml_data "sha" (xml_escape (nn_sha256 n));
        xml_data "class" (xml_escape (nn_artifact_class n)); "    </node>"; nl]%string.

Definition graphml_edge (i : nat) (e : NeighborhoodEdge) : string :=
  text ["    <edge id="; quoted ("e" +:+ show_Z (Z.of_nat i)); " source="; quoted (uuid_to_string (ne_src_artifact e)); " target=";
        quoted (uuid_to_string (ne_dst_artifact e)); ">"; nl; xml_data "etype" (xml_escape (ne_edge_type e));
        xml_data "score" (show_f64 (ne_score e)); xml_data "model" (xml_escape (ne_model_version e)); "    </edge>"; nl]%string.

Definition render_graphml (graph : NeighborhoodResponse) : string :=
  text [graphml_head; text (map graphml_node (nr_nodes graph)); text (imap graphml_edge (nr_edges graph)); "  </graph>"; nl; "</graphml>"; nl]%string.

Definition format_name (f : ExportFormat) : string :=
  match f with FormatJson => "json" | FormatDot => "dot" | FormatGraphMl => "graphml" end.

Definition export_too_large : Error :=
  BadRequest (text ["export exceeds "; show_Z MAX_EXPORT_BYTES; " bytes; reduce neighborhood size"]%string).

Definition render_body {JP : JsonPretty} (graph : NeighborhoodResponse) (format : ExportFormat) : outcome string :=
  match format with
  | FormatJson => Ret (render_json graph)
  | FormatDot => render_dot graph
  | FormatGraphMl => Ret (render_graphml graph)
  end.

Definition render {JP : JsonPretty} (tenant : Uuid) (graph : NeighborhoodResponse) (format : ExportFormat) : Op Srv GraphExport :=
  body ← lift_outcome (render_body graph format);
  if MAX_EXPORT_BYTES <? str_len body then throw export_too_large
  else
    t ← now;
    mret (mkGraphExport (format_name format) (nr_model_version graph) tenant t body (len (nr_nodes graph)) (len (nr_edges graph)) (nr_truncated graph)).

Definition export_neighborhood {JP : JsonPretty} {SHA : Sha256} {HEX : HexCodec} {UP : UuidParse} {JT : JsonText} (tenant : Uuid)
    (q : NeighborhoodQuery) (format : ExportFormat) : Op Srv GraphExport :=
  graph ← Neighborhood.query tenant q;
  render tenant graph format.

(** [ORDER BY edge_type, score DESC, src_artifact, dst_artifact] *)
Definition group_edge_le (a b : SimEdge) : bool :=
  if String.eqb (se_edge_type a) (se_edge_type b) then
    match f64_cmp (se_score b) (se_score a) with
    | Some Lt => true
    | Some Gt => false
    | _ => if bool_decide (se_src a = se_src b) then (se_dst a <=? se_dst b)%N else (se_src a <=? se_src b)%N
    end
  else str_leb (se_edge_type a) (se_edge_type b).

(** [ORDER BY a.sha256] of [bytea]: the order of the bytes. *)
Fixpoint bytes_leb (a b : bytes) : bool :=
  match a, b with
  | [], _ => true
  | _ :: _, [] => false
  | x :: a', y :: b' => if u8 x =? u8 y then bytes_leb a' b' else u8 x <=? u8 y
  end.
Definition sha_le (a b : Artifact) : bool := bytes_leb (art_sha256 a) (art_sha256 b).

Definition members_of (tenant group_id : Uuid) : Op Srv (list Artifact) :=
  members ← select TMember (in_group tenant group_id);
  arts ← select TArtifact (fun a => bool_decide (art_tenant a = tenant));
  mret (sort_by sha_le (flat_map (fun m => List.filter (fun a => bool_decide (art_id a = vm_artifact_id m)) arts) members)).

(** [src_artifact = ANY($2) AND dst_artifact = ANY($2)] *)
Definition within (tenant : Uuid) (ids : list Uuid) (e : SimEdge) : bool :=
  bool_decide (se_tenant e = tenant) && one_of_ids ids (se_src e) && one_of_ids ids (se_dst e).

Section group.
  Context {HEX : HexCodec}.

(** [sha_map]: the members' digests. *)
Definition sha_map (members : list Artifact) : gmap Uuid string :=
  foldl (fun m a => <[art_id a := hex_encode (art_sha256 a)]> m) ∅ members.

Definition group_edge (shas : gmap Uuid string) (e : SimEdge) : NeighborhoodEdge :=
  mkNeighborhoodEdge (se_src e) (se_dst e) (default ""%string (shas !! se_src e)) (default ""%string (shas !! se_dst e)) (se_edge_type e)
    (se_model_version e) (se_score e)
    (JObj [("matched_pairs", get_or_null "matched_pairs" (se_evidence e)); ("receipt_id", get_or_null "receipt_id" (se_evidence e));
           ("tau", get_or_null "tau" (se_evidence e))]%string).

Definition group_node (a : Artifact) : NeighborhoodNode := mkNeighborhoodNode (art_id a) (hex_encode (art_sha256 a)) (art_class a) 0.

Definition group_graph (tenant : Uuid) (seed : Artifact) (members : list Artifact) (edges : list SimEdge) : NeighborhoodResponse :=
  mkNeighborhoodResponse tenant (art_id seed) (default ""%string (sha_map members !! art_id seed)) MODEL_VERSION (map group_node members)
    (map (group_edge (sha_map members)) edges) false (mkNeighborhoodLimits 0 (len members) 0).

Definition export_group {JP : JsonPretty} (tenant group_id : Uuid) (format : ExportFormat) : Op Srv GraphExport :=
  members ← members_of tenant group_id;
  match members with
  | [] => throw (NotFound ("variant group " +:+ uuid_to_string group_id))
  | seed :: _ =>
      edges ← select TEdge (within tenant (map art_id members));
      render tenant (group_graph tenant seed members (sort_by group_edge_le edges)) format
  end.
End group.
End render.

(** ** Replacing characters *)

Lemma replace_char_app c r a b : replace_char c r (a +:+ b) = replace_char c r a +:+ replace_char c r b.
Proof. induction a as [|d a IH]; cbn; [done|]. by rewrite IH, string_app_assoc. Qed.

Lemma replace_char_none c r s : str_all (fun d => negb (Ascii.eqb d c)) s = true -> replace_char c r s = s.
Proof.
  induction s as [|d s IH]; cbn; [done|]. intros [Hd Hs]%andb_true_iff. destruct (Ascii.eqb d c); [done|]. cbn. by rewrite IH.
Qed.

(** ** Reading GraphML back

    A reader of XML: a tag ends at the first [>], text at the next [<], and the
    references of the five predefined entities stand for their characters. *)

(** The tags, each with the text before it. *)
Fixpoint xml_lex (in_tag : bool) (txt tag s : string) : list (string * string) :=
  match s with
  | EmptyString => []
  | String c s' =>
      if in_tag then if Ascii.eqb c ">" then (txt, tag) :: xml_lex false "" "" s' else xml_lex true txt (tag +:+ String c EmptyString) s'
      else if Ascii.eqb c "<" then xml_lex true txt "" s' else xml_lex false (txt +:+ String c EmptyString) "" s'
  end.

Definition xml_entities : list (string * ascii) :=
  [("&amp;", "&"%char); ("&lt;", "<"%char); ("&gt;", ">"%char); ("&quot;", "034"%char); ("&apos;", "'"%char)]%string.

Fixpoint xml_unescape (fuel : nat) (s : string) : string :=
  match fuel with
  | O => ""
  | S fuel' =>
      match s with
      | EmptyString => ""
      | String c s' =>
          match head (omap (fun p => (fun r => (snd p, r)) <$> strip_prefix (fst p) s) xml_entities) with
          | Some (d, rest) => String d (xml_unescape fuel' rest)
          | None => String c (xml_unescape fuel' s')
          end
      end
  end%string.

Definition xml_text (s : string) : string := xml_unescape (String.length s) s.

Definition entity (c : ascii) : string :=
  if Ascii.eqb c "&" then "&amp;" else if Ascii.eqb c "<" then "&lt;" else if Ascii.eqb c ">" then "&gt;"
  else if Ascii.eqb c "034" then "&quot;" else String c EmptyString.

Lemma xml_escape_cons c s : xml_escape (String c s) = entity c +:+ xml_escape s.
Proof.
  unfold xml_escape. change (String c s) with (String c EmptyString +:+ s). rewrite !replace_char_app. f_equal.
  by destruct c as [[] [] [] [] [] [] [] []].
Qed.

Lemma entity_read c rest : exists d r, entity c = String d r /\
  head (omap (fun p => (fun x => (snd p, x)) <$> strip_prefix (fst p) (entity c +:+ rest)) xml_entities) =
    (if Ascii.eqb c "&" || Ascii.eqb c "<" || Ascii.eqb c ">" || Ascii.eqb c "034" then Some (c, rest) else None) /\
  (r = "" \/ Ascii.eqb c "&" || Ascii.eqb c "<" || Ascii.eqb c ">" || Ascii.eqb c "034" = true)%string /\ (r = ""%string -> d = c).
Proof.
  destruct c as [[] [] [] [] [] [] [] []]; cbn; eexists _, _; (split; [reflexivity|]); cbn; (split; [reflexivity|]); (split; [by (left + right)|done]).
Qed.

Lemma xml_unescape_fuel s : forall fuel, (String.length (xml_escape s) <= fuel)%nat -> xml_unescape fuel (xml_escape s) = s.
Proof.
  induction s as [|c s IH]; intros fuel; [by destruct fuel|]. rewrite xml_escape_cons, string_app_length. intros Hf.
  destruct (entity_read c (xml_escape s)) as (d & r & E & Hh & Hr & Hd). destruct fuel as [|fuel]; [rewrite E in Hf; cbn in Hf; lia|].
  cbn [xml_unescape]. rewrite E in *. cbn [String.append] in *. cbn [String.length] in Hf. rewrite Hh. destruct (_ || _) eqn:Ec.
  - f_equal. apply IH. lia.
  - destruct Hr as [->|Hr]; [|done]. rewrite (Hd eq_refl). f_equal. apply IH. cbn in Hf. lia.
Qed.

(** Escaping loses nothing. *)
Lemma xml_text_escape s : xml_text (xml_escape s) = s.
Proof. by apply xml_unescape_fuel. Qed.

Definition no_char (c : ascii) : string -> bool := str_all (fun d => negb (Ascii.eqb d c)).

Lemma no_char_app c a b : no_char c (a +:+ b) = no_char c a && no_char c b.
Proof. unfold no_char. induction a as [|d a IH]; cbn; [done|]. by rewrite IH, andb_assoc. Qed.

(** No markup survives it. *)
Lemma xml_escape_no_tag s : no_char "<" (xml_escape s) = true.
Proof.
  induction s as [|c s IH]; [done|]. rewrite xml_escape_cons, no_char_app, IH, andb_true_r. by destruct c as [[] [] [] [] [] [] [] []].
Qed.

(** Text and tags in turn. *)
Definition markup (l : list (string * string)) : string := text (map (fun p => fst p +:+ ("<" +:+ (snd p +:+ ">"))) l).

Lemma text_cons a l : text (a :: l) = a +:+ text l.
Proof. unfold text. cbn. destruct l; cbn; [by rewrite string_app_nil_r|done]. Qed.

Lemma text_app l k : text (l ++ k) = text l +:+ text k.
Proof. induction l as [|a l IH]; [done|]. rewrite <- app_comm_cons, !text_cons, IH. by rewrite string_app_assoc. Qed.

Lemma lex_text txt a s : no_char "<" a = true -> xml_lex false txt "" (a +:+ s) = xml_lex false (txt +:+ a) "" s.
Proof.
  revert txt. induction a as [|c a IH]; intros txt; cbn; [by rewrite string_app_nil_r|]. intros [Hc Ha]%andb_true_iff.
  destruct (Ascii.eqb c "<"); [done|]. rewrite IH by done. by rewrite string_app_assoc.
Qed.

Lemma lex_tag txt tag a s : no_char ">" a = true -> xml_lex true txt tag (a +:+ String ">" s) = (txt, tag +:+ a) :: xml_lex false "" "" s.
Proof.
  revert tag. induction a as [|c a IH]; intros tag; cbn; [by rewrite string_app_nil_r|]. intros [Hc Ha]%andb_true_iff.
  destruct (Ascii.eqb c ">"); [done|]. rewrite IH by done. by rewrite string_app_assoc.
Qed.

Definition plain_markup (p : string * string) : Prop := no_char "<" (fst p) = true /\ no_char ">" (snd p) = true.

(** The text pending goes to the first tag. *)
Lemma lex_markup x t l txt rest :
  Forall plain_markup ((x, t) :: l) ->
  xml_lex false txt "" (markup ((x, t) :: l) +:+ rest) = (txt +:+ x, t) :: l ++ xml_lex false "" "" rest.
Proof.
  revert x t txt. induction l as [|[y u] l IH]; intros x t txt [[Hx Ht] Hl]%Forall_cons; unfold markup; cbn [map fst snd]; rewrite text_cons, !string_app_assoc;
    rewrite lex_text by done; cbn; rewrite lex_tag by done; [done|].
  f_equal. by apply (IH y u ""%string).
Qed.

(** *** The reader *)

Definition is_tag (t : string) (p : string * string) : bool := String.eqb (snd p) t.

Definition read_data (key : string) (l : list (string * string)) : option (string * list (string * string)) :=
  match l with
  | o :: c :: rest => if is_tag ("data key=" +:+ quoted key) o && is_tag "/data" c then Some (xml_text (fst c), rest) else None
  | _ => None
  end.

(** The value of the attribute that follows [prefix] in a tag, and what comes
    after its closing quote. *)
Definition attribute (prefix t : string) : option (string * string) := r ← strip_prefix (prefix +:+ quote) t; split_once "034" r.

Definition read_node (l : list (string * string)) : option ((string * string * string) * list (string * string)) :=
  match l with
  | o :: rest =>
      id ← attribute "node id=" (snd o);
      sha ← read_data "sha" rest;
      class ← read_data "class" (snd sha);
      match snd class with
      | c :: rest => if is_tag "/node" c then Some ((fst id, fst sha, fst class), rest) else None
      | [] => None
      end
  | [] => None
  end.

Definition read_edge (l : list (string * string)) : option ((string * string * string * string * string * string) * list (string * string)) :=
  match l with
  | o :: rest =>
      id ← attribute "edge id=" (snd o);
      src ← attribute " source=" (snd id);
      dst ← attribute " target=" (snd src);
      etype ← read_data "etype" rest;
      score ← read_data "score" (snd etype);
      model ← read_data "model" (snd score);
      match snd model with
      | c :: rest => if is_tag "/edge" c then Some ((fst id, fst src, fst dst, fst etype, fst score, fst model), rest) else None
      | [] => None
      end
  | [] => None
  end.

Fixpoint read_many {A B} (read : list B -> option (A * list B)) (fuel : nat) (l : list B) : list A * list B :=
  match fuel with
  | O => ([], l)
  | S fuel' => match read l with Some (a, rest) => let '(m, r) := read_many read fuel' rest in (a :: m, r) | None => ([], l) end
  end.

(** Skips to the graph, and reads its nodes, its edges and the two closing tags. *)
Fixpoint after_graph (l : list (string * string)) : list (string * string) :=
  match l with [] => [] | p :: l' => if str_starts_with "graph " (snd p) then l' else after_graph l' end.

Definition read_graphml (s : string) :=
  let l := after_graph (xml_lex false "" "" s) in
  let '(nodes, l) := read_many read_node (length l) l in
  let '(edges, l) := read_many read_edge (length l) l in
  match l with
  | [c; d] => if is_tag "/graph" c && is_tag "/graphml" d then Some (nodes, edges) else None
  | _ => None
  end.

(** *** What the renderer prints *)

Definition float_char (c : ascii) : bool :=
  is_ascii_digit c || existsb (Ascii.eqb c) ["-"; "."; "N"; "a"; "i"; "n"; "f"]%char.

Lemma str_all_impl (p q : ascii -> bool) s : (forall c, p c = true -> q c = true) -> str_all p s = true -> str_all q s = true.
Proof. intros H. induction s as [|c s IH]; [done|]. cbn. rewrite !andb_true_iff. intros [? ?]. auto. Qed.

Lemma str_all_append p a b : str_all p (a +:+ b) = str_all p a && str_all p b.
Proof. induction a as [|d a IH]; cbn; [done|]. by rewrite IH, andb_assoc. Qed.

Lemma digits_value_all s : forall acc v, digits_value s acc = Some v -> str_all float_char s = true.
Proof.
  induction s as [|c s IH]; intros acc v; [done|]. cbn. destruct (is_ascii_digit c) eqn:Ec; [|done]. intros H. unfold float_char at 1. rewrite Ec. cbn. by eapply IH.
Qed.

Lemma show_Z_float z : str_all float_char (show_Z z) = true.
Proof.
  destruct (show_Z_digits z) as (c & s & _ & Hv & ->). apply digits_value_all in Hv. destruct (_ <? _); exact Hv.
Qed.

Lemma pad_left_float n : forall s, str_all float_char s = true -> str_all float_char (pad_left n s) = true.
Proof. induction n as [|n IH]; intros s Hs; [done|]. cbn. apply IH. cbn. by rewrite Hs. Qed.

Lemma show_decimal_float q d : str_all float_char (show_decimal q d) = true.
Proof.
  unfold show_decimal. destruct (_ <=? _); [apply show_Z_float|]. cbv zeta. rewrite str_all_append, show_Z_float. cbn -[pad_left].
  apply pad_left_float, show_Z_float.
Qed.

Lemma shortest_float fuel m e : forall d, str_all float_char (shortest_from fuel m e d) = true.
Proof.
  induction fuel as [|fuel IH]; intros d; cbn [shortest_from]; destruct (f64_magnitude m e); [apply show_decimal_float|]. cbv zeta.
  destruct (f64_cmp _ _) as [[]|]; auto using show_decimal_float.
Qed.

Lemma show_f64_float x : str_all float_char (show_f64 x) = true.
Proof.
  destruct x as [[]|[]| |s m e]; [done..|]. cbn [show_f64]. destruct (f64_magnitude m e). rewrite str_all_append, shortest_float. by destruct s.
Qed.

Lemma all_no_char (p : ascii -> bool) c s : p c = false -> str_all p s = true -> no_char c s = true.
Proof. intros Hc. apply str_all_impl. intros d Hd. destruct (Ascii.eqb_spec d c) as [->|]; [congruence|done]. Qed.

(** Text without the four characters reads as it is. *)
Lemma xml_text_plain (p : ascii -> bool) s :
  p "&"%char = false -> p "<"%char = false -> p ">"%char = false -> p "034"%char = false -> str_all p s = true -> xml_text s = s.
Proof.
  intros H1 H2 H3 H4 Hs. rewrite <- (xml_text_escape s) at 2. f_equal. symmetry. unfold xml_escape.
  by rewrite !(replace_char_none _ _ s) by (eapply all_no_char; eassumption).
Qed.

(** What the Display form of a Uuid is made of (uuid). *)
Class UuidChars `{UuidDisplay} : Prop :=
  uuid_chars : forall u, str_all (fun c => is_ascii_hexdigit c || Ascii.eqb c "-") (uuid_to_string u) = true.

Section graphml.
  Context {UD : UuidDisplay} {UC : UuidChars}.

Lemma uuid_no_char c u : is_ascii_hexdigit c || Ascii.eqb c "-" = false -> no_char c (uuid_to_string u) = true.
Proof. intros Hc. apply (all_no_char (fun c => is_ascii_hexdigit c || Ascii.eqb c "-")); [done|apply uuid_chars]. Qed.

Lemma split_quote s rest : no_char "034" s = true -> split_once "034" (s +:+ String "034" rest) = Some (s, rest).
Proof.
  unfold no_char. induction s as [|c s IH]; [done|]. cbn [String.append split_once str_all]. intros [Hc Hs]%andb_true_iff.
  rewrite Ascii.eqb_sym. destruct (Ascii.eqb c "034"); [done|]. by rewrite IH.
Qed.

Lemma strip_prefix_app p s : strip_prefix p (p +:+ s) = Some s.
Proof. induction p as [|c p IH]; cbn; [done|]. by rewrite Ascii.eqb_refl. Qed.

Lemma attribute_read p s rest : no_char "034" s = true -> attribute p (p +:+ (quoted s +:+ rest)) = Some (s, rest).
Proof.
  intros Hs. unfold attribute, quoted, quote. replace (p +:+ (_ +:+ rest)) with ((p +:+ String "034" "") +:+ (s +:+ String "034" rest)).
  - rewrite strip_prefix_app. cbn. by apply split_quote.
  - by rewrite !string_app_assoc.
Qed.

Lemma xml_escape_text s : no_char "<" (xml_escape s) = true.
Proof. apply xml_escape_no_tag. Qed.

Definition node_tag (n : NeighborhoodNode) : string := "node id=" +:+ quoted (uuid_to_string (nn_artifact_id n)).
Definition node_markup (n : NeighborhoodNode) : list (string * string) :=
  [("    ", node_tag n); (nl +:+ "      ", "data key=" +:+ quoted "sha"); (xml_escape (nn_sha256 n), "/data");
   (nl +:+ "      ", "data key=" +:+ quoted "class"); (xml_escape (nn_artifact_class n), "/data"); (nl +:+ "    ", "/node")]%string.

Definition edge_tag (i : nat) (e : NeighborhoodEdge) : string :=
  "edge id=" +:+ (quoted ("e" +:+ show_Z (Z.of_nat i)) +:+ (" source=" +:+ (quoted (uuid_to_string (ne_src_artifact e)) +:+
    (" target=" +:+ quoted (uuid_to_string (ne_dst_artifact e)))))).
Definition edge_markup (i : nat) (e : NeighborhoodEdge) : list (string * string) :=
  [("    ", edge_tag i e); (nl +:+ "      ", "data key=" +:+ quoted "etype"); (xml_escape (ne_edge_type e), "/data");
   (nl +:+ "      ", "data key=" +:+ quoted "score"); (show_f64 (ne_score e), "/data");
   (nl +:+ "      ", "data key=" +:+ quoted "model"); (xml_escape (ne_model_version e), "/data"); (nl +:+ "    ", "/edge")]%string.

Lemma graphml_node_markup n : graphml_node n = markup (node_markup n) +:+ nl.
Proof.
  unfold graphml_node, markup, node_markup, node_tag, xml_data. rewrite ?text_cons. cbn [map fst snd]. rewrite ?text_cons, ?string_app_assoc.
  cbn [text String.concat]. rewrite ?string_app_assoc. cbn. rewrite ?string_app_assoc. cbn. reflexivity.
Qed.

Lemma graphml_edge_markup i e : graphml_edge i e = markup (edge_markup i e) +:+ nl.
Proof.
  unfold graphml_edge, markup, edge_markup, edge_tag, xml_data. rewrite ?text_cons. cbn [map fst snd]. rewrite ?text_cons, ?string_app_assoc.
  cbn [text String.concat]. rewrite ?string_app_assoc. cbn. rewrite ?string_app_assoc. cbn. reflexivity.
Qed.

Lemma tag_node_plain n : no_char ">" (node_tag n) = true.
Proof. unfold node_tag, quoted. rewrite !no_char_app, uuid_no_char by done. done. Qed.

Lemma show_Z_no_char c z : float_char c = false -> no_char c (show_Z z) = true.
Proof. intros Hc. apply (all_no_char float_char); [done|apply show_Z_float]. Qed.

Lemma tag_edge_plain i e : no_char ">" (edge_tag i e) = true.
Proof. unfold edge_tag, quoted. rewrite !no_char_app, !uuid_no_char, show_Z_no_char by done. done. Qed.

Lemma node_markup_plain n : Forall plain_markup (node_markup n).
Proof. unfold node_markup, plain_markup. repeat constructor; cbn [fst snd]; auto using tag_node_plain, xml_escape_no_tag. Qed.

Lemma edge_markup_plain i e : Forall plain_markup (edge_markup i e).
Proof.
  unfold edge_markup, plain_markup. repeat constructor; cbn [fst snd]; auto using tag_edge_plain, xml_escape_no_tag.
  apply (all_no_char float_char); [done|apply show_f64_float].
Qed.

(** A line of the document read after the text pending, and the one after it. *)
Definition reads_line {A} (read : list (string * string) -> option (A * list (string * string))) (line : string) (a : A) : Prop :=
  forall txt rest, let l := xml_lex false txt "" (line +:+ rest) in let l' := xml_lex false nl "" rest in
    read l = Some (a, l') /\ (length l' < length l)%nat.

Lemma lex_line x t l txt rest :
  Forall plain_markup ((x, t) :: l) ->
  xml_lex false txt "" ((markup ((x, t) :: l) +:+ nl) +:+ rest) = (txt +:+ x, t) :: l ++ xml_lex false nl "" rest.
Proof. intros Hl. rewrite string_app_assoc, lex_markup by done. by rewrite lex_text. Qed.

Definition node_view (n : NeighborhoodNode) : string * string * string := (uuid_to_string (nn_artifact_id n), nn_sha256 n, nn_artifact_class n).
Definition edge_view (i : nat) (e : NeighborhoodEdge) : string * string * string * string * string * string :=
  ("e" +:+ show_Z (Z.of_nat i), uuid_to_string (ne_src_artifact e), uuid_to_string (ne_dst_artifact e), ne_edge_type e, show_f64 (ne_score e),
   ne_model_version e).

Lemma read_data_line key x txt rest : read_data key ((txt, "data key=" +:+ quoted key) :: (x, "/data"%string) :: rest) = Some (xml_text x, rest).
Proof. unfold read_data, is_tag. cbn [snd fst]. by rewrite String.eqb_refl. Qed.

Lemma reads_node n : reads_line read_node (graphml_node n) (node_view n).
Proof.
  intros txt rest. cbv zeta. rewrite graphml_node_markup. unfold node_markup. rewrite lex_line by exact (node_markup_plain n). cbn [app]. split.
  - unfold read_node. cbn [snd]. unfold node_tag. pose proof (attribute_read "node id=" (uuid_to_string (nn_artifact_id n)) "") as Ha.
    rewrite string_app_nil_r in Ha. rewrite Ha by by apply uuid_no_char. cbn [mbind option_bind]. rewrite !read_data_line. cbn [mbind option_bind snd fst].
    rewrite read_data_line. cbn [mbind option_bind snd fst]. by rewrite !xml_text_escape.
  - cbn [length]. lia.
Qed.

Lemma reads_edge i e : reads_line read_edge (graphml_edge i e) (edge_view i e).
Proof.
  intros txt rest. cbv zeta. rewrite graphml_edge_markup. unfold edge_markup. rewrite lex_line by exact (edge_markup_plain i e). cbn [app]. split.
  - unfold read_edge. cbn [snd]. unfold edge_tag. rewrite attribute_read by (rewrite no_char_app, show_Z_no_char; done). cbn [mbind option_bind snd fst].
    rewrite attribute_read by by apply uuid_no_char. cbn [mbind option_bind snd fst].
    pose proof (attribute_read " target=" (uuid_to_string (ne_dst_artifact e)) "") as Ha. rewrite string_app_nil_r in Ha.
    rewrite Ha by by apply uuid_no_char. cbn [mbind option_bind snd fst]. rewrite read_data_line. cbn [mbind option_bind snd fst].
    rewrite read_data_line. cbn [mbind option_bind snd fst]. rewrite read_data_line. cbn [mbind option_bind snd fst].
    rewrite !xml_text_escape, (xml_text_plain float_char) by (done || apply show_f64_float). done.
  - cbn [length]. lia.
Qed.

(** Lines in sequence, up to one that is not such a line. *)
Definition pending {A} (l : list A) (txt : string) : string := match l with [] => txt | _ :: _ => nl end.

Lemma read_many_lines {A X} (read : list (string * string) -> option (A * list (string * string))) (line : X -> string) (view : X -> A) l :
  (forall x, reads_line read (line x) (view x)) -> forall txt rest fuel,
  (forall txt, read (xml_lex false txt "" rest) = None) -> (length l <= fuel)%nat ->
  read_many read fuel (xml_lex false txt "" (text (map line l) +:+ rest)) = (map view l, xml_lex false (pending l txt) "" rest).
Proof.
  intros Hl. induction l as [|x l IH]; intros txt rest fuel Hr Hf.
  - cbn. destruct fuel; [done|]. cbn. by rewrite Hr.
  - destruct fuel as [|fuel]; [cbn in Hf; lia|]. cbn [map]. rewrite text_cons, string_app_assoc. cbn [read_many].
    rewrite (proj1 (Hl x txt _)), IH by (done || (cbn in Hf; lia)). cbn [map pending]. by destruct l.
Qed.

Lemma lines_length {A X} (read : list (string * string) -> option (A * list (string * string))) (line : X -> string) (view : X -> A) l :
  (forall x, reads_line read (line x) (view x)) -> forall txt rest,
  (length l <= length (xml_lex false txt "" (text (map line l) +:+ rest)))%nat.
Proof.
  intros Hl. induction l as [|x l IH]; intros txt rest; [cbn; lia|]. cbn [map length]. rewrite text_cons, string_app_assoc.
  pose proof (proj2 (Hl x txt (text (map line l) +:+ rest))) as H. pose proof (IH nl rest). lia.
Qed.

Definition graphml_tail : string := text ["  </graph>"; nl; "</graphml>"; nl]%string.

(** A GraphML export reads back.  Whatever the digests, classes, types and
    model names contain, markup included, a reader of XML finds in the document
    the graph's nodes and edges in order, with those very strings. *)
Theorem graphml_roundtrip graph :
  read_graphml (render_graphml graph) = Some (map node_view (nr_nodes graph), imap edge_view (nr_edges graph)).
Proof.
  assert (Hhead : forall rest, after_graph (xml_lex false "" "" (graphml_head +:+ rest)) = xml_lex false nl "" rest) by reflexivity.
  assert (He : text (imap graphml_edge (nr_edges graph)) = text (map (uncurry graphml_edge) (imap pair (nr_edges graph)))).
  { f_equal. generalize (nr_edges graph). intros l. symmetry. apply (fmap_imap pair (uncurry graphml_edge)). }
  assert (Hv : imap edge_view (nr_edges graph) = map (uncurry edge_view) (imap pair (nr_edges graph))).
  { generalize (nr_edges graph). intros l. symmetry. apply (fmap_imap pair (uncurry edge_view)). }
  assert (Hre : forall x, reads_line read_edge (uncurry graphml_edge x) (uncurry edge_view x)) by (intros [i e]; apply reads_edge).
  unfold read_graphml, render_graphml. rewrite He, Hv. rewrite !text_cons. change (text []) with ""%string.
  change ("  </graph>" +:+ (nl +:+ ("</graphml>" +:+ (nl +:+ "")))) with graphml_tail. rewrite Hhead.
  rewrite (read_many_lines read_node graphml_node node_view); [|apply reads_node| |by apply (lines_length read_node graphml_node node_view), reads_node].
  2: { intros txt. destruct (imap pair (nr_edges graph)) as [|[i e] l]; [done|]. cbn [map uncurry]. rewrite text_cons, string_app_assoc, graphml_edge_markup.
       unfold edge_markup. rewrite lex_line by exact (edge_markup_plain i e). unfold read_node. cbn [snd]. unfold edge_tag, attribute. done. }
  rewrite (read_many_lines read_edge (uncurry graphml_edge) (uncurry edge_view)); [|done|done|by apply (lines_length read_edge _ (uncurry edge_view))].
  destruct (imap pair (nr_edges graph)); destruct (nr_nodes graph); reflexivity.
Qed.
End graphml.

(** ** Reading DOT labels

    Graphviz reads a quoted string up to its closing quote; in a label an escaped
    [n] is a line break, any other escaped character stands for itself. *)
Fixpoint dot_string (s : string) : option (string * string) :=
  match s with
  | EmptyString => None
  | String c s' =>
      if Ascii.eqb c "034" then Some (""%string, s')
      else if Ascii.eqb c "\" then
        match s' with
        | EmptyString => None
        | String d r => p ← dot_string r; Some (String (if Ascii.eqb d "n" then "010"%char else d) (fst p), snd p)
        end
      else p ← dot_string s'; Some (String c (fst p), snd p)
  end.

Definition dot_entity (c : ascii) : string :=
  if Ascii.eqb c "\" then "\\" else if Ascii.eqb c "034" then "\" +:+ quote else String c EmptyString.

Lemma escape_dot_cons c s : escape_dot (String c s) = dot_entity c +:+ escape_dot s.
Proof.
  unfold escape_dot. change (String c s) with (String c EmptyString +:+ s). rewrite !replace_char_app. f_equal.
  by destruct c as [[] [] [] [] [] [] [] []].
Qed.

(** A label reads back, whatever it contains; so the two characters meant to break
    the line after the digest are shown as they are. *)
Theorem dot_label_roundtrip s rest : dot_string (escape_dot s +:+ String "034" rest) = Some (s, rest).
Proof.
  induction s as [|c s IH]; [done|]. rewrite escape_dot_cons, string_app_assoc. unfold dot_entity.
  destruct (Ascii.eqb_spec c "\") as [->|Hb]; [cbn; by rewrite IH|]. destruct (Ascii.eqb_spec c "034") as [->|Hq]; [cbn; by rewrite IH|].
  cbn [String.append dot_string]. rewrite (proj2 (Ascii.eqb_neq _ _) Hb), (proj2 (Ascii.eqb_neq _ _) Hq). by rewrite IH.
Qed.

(** ** Canonical JSON *)

Definition node_key (n : NeighborhoodNode) : string * Uuid := (nn_sha256 n, nn_artifact_id n).
Definition canonical_key (e : NeighborhoodEdge) : string * string * string := (ne_src_sha256 e, ne_dst_sha256 e, ne_edge_type e).

Lemma text_then_total a b (le : bool) le' : (le = true \/ le' = true) ->
  (if String.eqb a b then le else str_leb a b) = true \/ (if String.eqb b a then le' else str_leb b a) = true.
Proof.
  intros H. rewrite (String.eqb_sym b a). destruct (String.eqb a b); [done|]. apply str_leb_total.
Qed.

Lemma text_then_trans a b c (le1 le2 le3 : bool) : (le1 = true -> le2 = true -> le3 = true) ->
  (if String.eqb a b then le1 else str_leb a b) = true -> (if String.eqb b c then le2 else str_leb b c) = true ->
  (if String.eqb a c then le3 else str_leb a c) = true.
Proof.
  intros H. destruct (String.eqb_spec a b) as [E1|H1]; destruct (String.eqb_spec b c) as [E2|H2]; destruct (String.eqb_spec a c) as [E3|H3];
    subst; auto; try congruence.
  - intros Ha Hb. exfalso. by apply H1, str_leb_antisym.
  - intros Ha Hb. by eapply str_leb_trans.
Qed.

Lemma text_then_antisym a b (le le' : bool) (P : Prop) : (a = b -> le = true -> le' = true -> P) ->
  (if String.eqb a b then le else str_leb a b) = true -> (if String.eqb b a then le' else str_leb b a) = true -> P.
Proof.
  intros H. rewrite (String.eqb_sym b a). destruct (String.eqb_spec a b) as [->|Hab]; [by apply H|]. intros H1 H2. exfalso. by apply Hab, str_leb_antisym.
Qed.

Lemma canonical_node_total : le_total canonical_node_le.
Proof. intros a b. apply text_then_total. rewrite !N.leb_le. lia. Qed.

Lemma canonical_node_trans : le_trans canonical_node_le.
Proof. intros a b c. apply text_then_trans. rewrite !N.leb_le. lia. Qed.

Lemma canonical_node_antisym a b : canonical_node_le a b = true -> canonical_node_le b a = true -> node_key a = node_key b.
Proof. apply text_then_antisym. rewrite !N.leb_le. intros E ? ?. unfold node_key. f_equal; [done|lia]. Qed.

Lemma canonical_edge_total : le_total canonical_edge_le.
Proof. intros a b. apply text_then_total, text_then_total, str_leb_total. Qed.

Lemma canonical_edge_trans : le_trans canonical_edge_le.
Proof. intros a b c. apply text_then_trans, text_then_trans, str_leb_trans. Qed.

Lemma canonical_edge_antisym a b : canonical_edge_le a b = true -> canonical_edge_le b a = true -> canonical_key a = canonical_key b.
Proof.
  apply text_then_antisym. intros E1. apply text_then_antisym. intros E2 H1 H2. unfold canonical_key. by rewrite E1, E2, (str_leb_antisym _ _ H1 H2).
Qed.

Lemma sort_by_canonical {A K} (le : A -> A -> bool) (key : A -> K) (l k : list A) :
  le_total le -> le_trans le -> (forall a b, le a b = true -> le b a = true -> key a = key b) -> NoDup (map key l) ->
  Permutation l k -> sort_by le l = sort_by le k.
Proof.
  intros Ht Htr Ha Hn Hp. apply (sorted_perm_unique le); [|by apply sort_by_sorted..|by rewrite !sort_by_perm].
  intros x y Hx Hy H1 H2. apply sort_by_in in Hx, Hy. apply (nodup_map_inj key l); auto.
Qed.

Lemma map_perm_inj {A B} (f : A -> B) (l k : list A) : (forall x y, f x = f y -> x = y) -> map f l = map f k -> l = k.
Proof. intros Hf. revert k. induction l as [|x l IH]; intros [|y k]; [done..|]. intros [= E1 E2]. by rewrite (Hf x y E1), (IH k E2). Qed.

Section canonical.
  Context {UD : UuidDisplay} {UL : UuidLaws}.

Lemma node_json_inj a b : node_json a = node_json b -> a = b.
Proof. destruct a, b. unfold node_json. cbn. intros [= E1%uuid_to_string_inj -> -> ->]. by rewrite E1. Qed.

Lemma canonical_edge_inj a b : canonical_edge a = canonical_edge b -> a = b.
Proof. destruct a, b. unfold canonical_edge. cbn. intros [= E1%uuid_to_string_inj E2%uuid_to_string_inj -> -> -> -> -> ->]. by rewrite E1, E2. Qed.

(** The JSON export is canonical: two answers are the same document exactly when
    they agree on tenant, seed, model and truncation and have the same nodes and
    the same edges, listed in any order. *)
Theorem json_canonical g g' :
  NoDup (map node_key (nr_nodes g)) -> NoDup (map canonical_key (nr_edges g)) ->
  canonical g = canonical g' <->
  nr_tenant_id g = nr_tenant_id g' /\ nr_seed_artifact g = nr_seed_artifact g' /\ nr_seed_sha256 g = nr_seed_sha256 g' /\
  nr_model_version g = nr_model_version g' /\ nr_truncated g = nr_truncated g' /\
  Permutation (nr_nodes g) (nr_nodes g') /\ Permutation (nr_edges g) (nr_edges g').
Proof.
  intros Hn He. unfold canonical. split.
  - intros [= E1%uuid_to_string_inj E2%uuid_to_string_inj E3 E4 E5 E6%map_perm_inj E7%map_perm_inj]; [|apply canonical_edge_inj|apply node_json_inj..].
    do 5 (split; [done|]). split.
    + by rewrite <- (sort_by_perm canonical_node_le (nr_nodes g)), E6, sort_by_perm.
    + by rewrite <- (sort_by_perm canonical_edge_le (nr_edges g)), E7, sort_by_perm.
  - intros (-> & -> & -> & -> & -> & Hp & Hq).
    rewrite (sort_by_canonical canonical_node_le node_key (nr_nodes g) (nr_nodes g'))
      by auto using canonical_node_total, canonical_node_trans, canonical_node_antisym.
    by rewrite (sort_by_canonical canonical_edge_le canonical_key (nr_edges g) (nr_edges g'))
      by auto using canonical_edge_total, canonical_edge_trans, canonical_edge_antisym.
Qed.
End canonical.

(** ** Exporting a variant group *)

Section group_proofs.
  Context {UD : UuidDisplay} {UC : UuidChars} {JP : JsonPretty} {HEX : HexCodec}.

(** The tenant's artifacts with a row in the group. *)
Definition group_member (tenant gid : Uuid) (s : Srv) (a : Artifact) : Prop :=
  In a (rows TArtifact s) /\ art_tenant a = tenant /\
  exists m, In m (rows TMember s) /\ in_group tenant gid m = true /\ vm_artifact_id m = art_id a.

Lemma members_of_run tenant gid s : exists l, members_of tenant gid s = (Ret l, s) /\ forall a, In a l <-> group_member tenant gid s a.
Proof.
  eexists. split; [reflexivity|]. intros a. rewrite sort_by_in, in_flat_map. unfold group_member. split.
  - intros (m & [Hm Hg]%filter_In & [[Ha Ht]%filter_In Hi]%filter_In). apply bool_decide_eq_true in Ht, Hi. eauto 6.
  - intros (Ha & Ht & m & Hm & Hg & Hi). exists m. rewrite !filter_In, !bool_decide_eq_true. auto.
Qed.

Lemma in_ids tenant gid s l id : (forall a, In a l <-> group_member tenant gid s a) ->
  one_of_ids (map art_id l) id = true <-> exists a, group_member tenant gid s a /\ art_id a = id.
Proof.
  intros Hl. unfold one_of_ids. rewrite existsb_exists. split.
  - intros (x & (a & <- & Ha)%in_map_iff & E%bool_decide_eq_true). exists a. by rewrite <- Hl.
  - intros (a & Ha & E). exists (art_id a). split; [by apply in_map, Hl|]. by apply bool_decide_eq_true.
Qed.

(** The bound on every export. *)
Lemma render_run tenant graph format s : 
  match render tenant graph format s with
  | (Ret e, s') => untouched s s' /\ render_body graph format = Ret (ge_body e) /\ str_len (ge_body e) <= MAX_EXPORT_BYTES /\
      ge_format e = format_name format /\ ge_tenant_id e = tenant /\ ge_node_count e = len (nr_nodes graph) /\
      ge_edge_count e = len (nr_edges graph) /\ ge_truncated e = nr_truncated graph
  | (Fail err, s') => s' = s /\ (err = export_too_large \/ render_body graph format = Fail err)
  | (Panic, s') => render_body graph format = Panic
  end.
Proof.
  unfold render. unfold mbind at 1, op_mbind at 1, lift_outcome. destruct (render_body graph format) as [body|err|] eqn:Eb; [|split; [done|by right]|done].
  destruct (Z.ltb_spec MAX_EXPORT_BYTES (str_len body)) as [Hl|Hl]; [split; [done|by left]|]. cbn. by repeat split.
Qed.

Lemma in_edge_views es x : (exists id, In (id, fst (fst (fst (fst x))), snd (fst (fst (fst x))), snd (fst (fst x)), snd (fst x), snd x) (imap edge_view es)) <->
  exists e, In e es /\ x = (uuid_to_string (ne_src_artifact e), uuid_to_string (ne_dst_artifact e), ne_edge_type e, show_f64 (ne_score e), ne_model_version e).
Proof.
  destruct x as [[[[src dst] ty] score] model]. cbn [fst snd]. setoid_rewrite <- list_elem_of_In. setoid_rewrite elem_of_lookup_imap. split.
  - intros (id & i & e & E & He). injection E as -> -> -> -> -> ->. exists e. split; [by eapply list_elem_of_lookup_2|done].
  - intros (e & [i He]%list_elem_of_lookup_1 & [= -> -> -> -> ->]). eexists _, i, e. split; [reflexivity|done].
Qed.

(** C19. The GraphML export of a variant group changes nothing, stays under one
    mebibyte and fails only for an empty group or a larger document; read back, its
    nodes are exactly the tenant's artifacts in the group and its edges exactly the
    tenant's edges between two of them. *)
Theorem export_group_spec tenant gid s :
  match export_group tenant gid FormatGraphMl s with
  | (Ret e, s') =>
      untouched s s' /\ str_len (ge_body e) <= MAX_EXPORT_BYTES /\ ge_truncated e = false /\
      exists nodes edges, read_graphml (ge_body e) = Some (nodes, edges) /\ ge_node_count e = len nodes /\ ge_edge_count e = len edges /\
      (forall x, In x nodes <-> exists a, group_member tenant gid s a /\ x = (uuid_to_string (art_id a), hex_encode (art_sha256 a), art_class a)) /\
      (forall src dst ty score model, (exists id, In (id, src, dst, ty, score, model) edges) <->
         exists r, In r (rows TEdge s) /\ se_tenant r = tenant /\ (exists a, group_member tenant gid s a /\ art_id a = se_src r) /\
           (exists a, group_member tenant gid s a /\ art_id a = se_dst r) /\
           (src, dst, ty, score, model) = (uuid_to_string (se_src r), uuid_to_string (se_dst r), se_edge_type r, show_f64 (se_score r), se_model_version r))
  | (Fail err, s') =>
      s' = s /\ ((err = NotFound ("variant group " +:+ uuid_to_string gid) /\ forall a, ~ group_member tenant gid s a) \/ err = export_too_large)
  | (Panic, _) => False
  end.
Proof.
  unfold export_group. destruct (members_of_run tenant gid s) as (l & El & Hl). rewrite (bind_run _ _ _ _ _ El).
  destruct l as [|seed l']; [split; [done|]; left; split; [done|]; intros a Ha; by apply Hl in Ha|].
  set (l := seed :: l') in *. rewrite (bind_run (select TEdge _) _ s (List.filter (within tenant (map art_id l)) (rows TEdge s)) s) by done.
  set (g := group_graph _ _ _ _). pose proof (render_run tenant g FormatGraphMl s) as Hr.
  destruct (render tenant g FormatGraphMl s) as [[e|err|] s'].
  - destruct Hr as (Hu & [= Hb] & Hlen & _ & _ & Hn & He & Ht). do 2 (split; [done|]). split; [done|].
    exists (map node_view (nr_nodes g)), (imap edge_view (nr_edges g)). split; [by rewrite <- Hb, graphml_roundtrip|].
    split; [rewrite Hn; unfold len; by rewrite length_map|]. split; [rewrite He; unfold len; by rewrite length_imap|]. split.
    + intros x. cbn [nr_nodes g group_graph]. rewrite map_map, in_map_iff. split.
      * intros (a & <- & Ha%Hl). by exists a.
      * intros (a & Ha%Hl & ->). by exists a.
    + intros src dst ty score model. rewrite (in_edge_views _ (src, dst, ty, score, model)). cbn [nr_edges g group_graph]. split.
      * intros (v & (r & <- & [Hr Hw]%sort_by_in%filter_In)%in_map_iff & E). exists r. unfold within in Hw. rewrite !andb_true_iff in Hw.
        destruct Hw as [[Hw1%bool_decide_eq_true Hw2%(in_ids _ _ _ _ _ Hl)] Hw3%(in_ids _ _ _ _ _ Hl)]. done.
      * intros (r & Hr & Hw1 & Hw2 & Hw3 & E). exists (group_edge (sha_map l) r). split; [|done]. apply in_map, sort_by_in, filter_In. split; [done|].
        unfold within. rewrite !andb_true_iff, bool_decide_eq_true, !(in_ids _ _ _ _ _ Hl). done.
  - destruct Hr as [-> [->|Hr]]; [|done]. split; [done|]. by right.
  - done.
Qed.
End group_proofs.

Section reading.
  Context {UD : UuidDisplay} {JP : JsonPretty} {SHA : Sha256} {HEX : HexCodec} {UP : UuidParse} {JT : JsonText} (s0 : Srv).

Lemma reading_render t g f : keeps (untouched s0) (render t g f).
Proof. unfold render. reading_tac. Qed.
Lemma reading_query t q : keeps (untouched s0) (Neighborhood.query t q).
Proof. unfold Neighborhood.query, resolve_seed. reading_tac. Qed.
#[local] Hint Resolve reading_render reading_query : reading.
Lemma reading_export_neighborhood t q f : keeps (untouched s0) (export_neighborhood t q f).
Proof. unfold export_neighborhood. reading_tac. Qed.
Lemma reading_export_group t g f : keeps (untouched s0) (export_group t g f).
Proof. unfold export_group, members_of. reading_tac. Qed.
End reading.
#[export] Hint Resolve reading_export_neighborhood reading_export_group : reading.

(** ** Witnesses *)

Section witnesses.
Local Existing Instance ReferenceUuid.display.
Local Existing Instance ReferenceHash.hex.
Local Instance no_text : JsonPretty := fun _ => ""%string.

Local Instance pretty_chars : UuidChars.
Proof.
  intros u. unfold uuid_to_string, ReferenceUuid.display. apply (str_all_impl is_ascii_digit); [by intros c Hc; unfold is_ascii_hexdigit; rewrite Hc|].
  assert (G : forall s, ReferenceUuid.digits_only s = true -> str_all is_ascii_digit s = true).
  { induction s as [|c s IH]; [done|]. cbn [ReferenceUuid.digits_only str_all]. intros [Hc Hs]%andb_true_iff. by rewrite Hc, IH. }
  apply G, ReferenceUuid.pretty_digits.
Qed.

(** Two members, one with a class that looks like markup, a third artifact outside
    the group, and three edges. *)
Definition odd_class : string := "</data><b> & " +:+ quoted "pe".
Definition linked (src dst : Uuid) (edge_type : string) : SimEdge :=
  mkSimEdge 7%N src dst edge_type MODEL_VERSION (f64_of_Z 1) (JObj []) 0.
Definition small (id tenant : Uuid) (sha : byte) (class : string) : Artifact :=
  mkArtifact id tenant (Z.of_N id) [sha] 10 class "committed" "" 0 "endpoint" JNull.
Definition grouped : Srv :=
  set_rows TMember [mkVariantMember 7 50 2; mkVariantMember 7 50 1; mkVariantMember 8 50 3]%N
    (set_rows TEdge [linked 1 2 "exact_copy"; linked 2 3 "exact_copy"; linked 2 1 "a<b"]%N
      (set_rows TArtifact [(small 1%N 7%N x01 "pe"); (small 2%N 7%N x02 odd_class);
         (small 3%N 8%N x03 "pe")] ReferenceServer.empty)).

Definition grouped_graph : NeighborhoodResponse :=
  group_graph 7%N (small 1%N 7%N x01 "pe")
    [small 1%N 7%N x01 "pe"; small 2%N 7%N x02 odd_class]
    [linked 2 1 "a<b"; linked 1 2 "exact_copy"]%N.

Lemma graphml_roundtrip_witness :
  read_graphml (render_graphml grouped_graph) =
    Some ([("1", "01", "pe"); ("2", "02", odd_class)], [("e0", "2", "1", "a<b", "1", MODEL_VERSION); ("e1", "1", "2", "exact_copy", "1", MODEL_VERSION)])%string.
Proof. rewrite (graphml_roundtrip grouped_graph). vm_compute. reflexivity. Defined.

Lemma json_canonical_witness :
  canonical (group_graph 7%N (small 1%N 7%N x01 "pe")
    [small 1%N 7%N x01 "pe"; small 2%N 7%N x02 odd_class]
    [linked 1 2 "exact_copy"; linked 2 1 "a<b"]%N) = canonical grouped_graph.
Proof.
  symmetry. apply json_canonical.
  - vm_compute. repeat constructor; set_solver.
  - vm_compute. repeat constructor; set_solver.
  - do 5 (split; [reflexivity|]). split; [reflexivity|]. apply Permutation_swap.
Defined.

Lemma export_group_spec_witness :
  exists e s', export_group 7%N 50%N FormatGraphMl grouped = (Ret e, s') /\ ge_node_count e = 2 /\ ge_edge_count e = 2 /\
  exists nodes edges, read_graphml (ge_body e) = Some (nodes, edges) /\ In ("2"%string, "02"%string, odd_class) nodes.
Proof.
  pose proof (export_group_spec 7%N 50%N grouped) as H. destruct (export_group 7%N 50%N FormatGraphMl grouped) as [o s'] eqn:E.
  pose proof (f_equal fst E) as Eo. destruct o as [e|e|]; [|vm_compute in Eo; discriminate Eo..]. exists e, s'. split; [done|].
  split; [apply (reads_as ge_node_count _ _ _ _ E); vm_compute; reflexivity|].
  split; [apply (reads_as ge_edge_count _ _ _ _ E); vm_compute; reflexivity|].
  destruct H as (_ & _ & _ & nodes & edges & Hr & _ & _ & Hn & _). exists nodes, edges. split; [exact Hr|]. apply Hn.
  exists (small 2%N 7%N x02 odd_class). split; [|vm_compute; reflexivity].
  split; [vm_compute; auto|]. split; [reflexivity|]. exists (mkVariantMember 7 50 2)%N. split; [vm_compute; auto|]. by split.
Defined.

(** The label of a node in a DOT document is one line with a backslash in it. *)
Example dot_label_one_line :
  match dot_node (mkNeighborhoodNode 1%N "aabbccddeeff0011" "pe" 0) with
  | Ret l => dot_string (String.substring 14 100 l) = Some ("aabbccddeeff\npe"%string, ", shape=box];" +:+ nl)
  | _ => False
  end.
Proof. vm_compute. reflexivity. Qed.
End witnesses.
