(* ===== verification/Mcp.v ===== *)
(** * Mcp: the model context protocol endpoint ([mod mcp] of [corpus-server/src/main.rs])

    A JSON-RPC method dispatch over five read-only tools, with the [Serialize] form
    of the records the tools answer ([dto.rs]).  The time format of chrono's
    [Serialize] is the class [TimeJson]. *)

From S2P Require Import Prelude Machine Text Decimal Hash Cas Schema Hunts Triggers SimModel Variants Report Export.
From Stdlib Require Import Strings.Byte Strings.Ascii.

Open Scope Z_scope.

Class TimeJson : Type := time_json : Time -> string.

(** [Option<T>] *)
Definition option_json {A} (f : A -> Json) (o : option A) : Json := match o with Some a => f a | None => JNull end.

Section encoders.
  Context {UD : UuidDisplay} {TJ : TimeJson}.

Definition uuid_json (u : Uuid) : Json := JStr (uuid_to_string u).
Definition datetime_json (t : Time) : Json := JStr (time_json t).
Definition strings_json (l : list string) : Json := JArr (map JStr l).

Definition prevalence_json (p : Prevalence) : Json :=
  JObj [("host_count", JInt (pv_host_count p)); ("path_count", JInt (pv_path_count p));
        ("first_observed", option_json datetime_json (pv_first_observed p)); ("last_observed", option_json datetime_json (pv_last_observed p))]%string.

Definition rarity_hit_json (h : RarityHit) : Json :=
  JObj [("artifact_id", uuid_json (rh_artifact_id h)); ("sha256", JStr (rh_sha256 h)); ("artifact_class", JStr (rh_artifact_class h));
        ("first_committed_at", datetime_json (rh_first_committed_at h)); ("prevalence", prevalence_json (rh_prevalence h));
        ("opinion", option_json JStr (rh_opinion h))]%string.

Definition opinion_json (o : Opinion) : Json :=
  JObj [("id", uuid_json (op_id o)); ("opinion", JStr (op_opinion o)); ("actor", JStr (op_actor o)); ("reason", JStr (op_reason o));
        ("created_at", datetime_json (op_created_at o)); ("superseded_by", option_json uuid_json (op_superseded_by o))]%string.

Definition member_json (m : Uuid * string * string * Time) : Json :=
  let '(id, sha, class, t) := m in
  JObj [("artifact_id", uuid_json id); ("sha256", JStr sha); ("artifact_class", JStr class); ("first_committed_at", datetime_json t)]%string.

Definition variants_json (v : VariantsResponse) : Json :=
  let '(id, sha, group, members) := v in
  JObj [("artifact_id", uuid_json id); ("sha256", JStr sha); ("group_id", option_json uuid_json group); ("members", JArr (map member_json members))]%string.

Definition hunt_json (h : Hunt) : Json :=
  JObj [("id", uuid_json (hu_id h)); ("kind", JStr (hu_kind h)); ("bundle_digest", JStr (hu_bundle_digest h)); ("state", JStr (hu_state h));
        ("corpus_watermark", option_json JInt (hu_corpus_watermark h)); ("planned_artifacts", JInt (hu_planned_artifacts h));
        ("scanned", JInt (hu_scanned h)); ("cache_hits", JInt (hu_cache_hits h)); ("matched", JInt (hu_matched h));
        ("timed_out", JInt (hu_timed_out h)); ("failed", JInt (hu_failed h)); ("error", option_json JStr (hu_error h));
        ("created_at", datetime_json (hu_created_at h)); ("started_at", option_json datetime_json (hu_started_at h));
        ("completed_at", option_json datetime_json (hu_completed_at h))]%string.

Definition finding_json (f : FindingView) : Json :=
  JObj [("evidence_type", JStr (fv_evidence_type f)); ("category", JStr (fv_category f)); ("summary", JStr (fv_summary f))]%string.

(** [findings] is left out when there is none. *)
Definition blast_artifact_json (a : BlastRadiusArtifact) : Json :=
  JObj ([("artifact_id", uuid_json (ba_artifact_id a)); ("sha256", JStr (ba_sha256 a)); ("size_bytes", JInt (ba_size_bytes a));
         ("artifact_class", JStr (ba_artifact_class a)); ("first_committed_at", datetime_json (ba_first_committed_at a));
         ("matched_rules", strings_json (ba_matched_rules a)); ("prevalence", option_json prevalence_json (ba_prevalence a));
         ("opinion", option_json JStr (ba_opinion a))]%string ++
        match ba_findings a with [] => [] | l => [("findings"%string, JArr (map finding_json l))] end).

Definition blast_occurrence_json (o : BlastRadiusOccurrence) : Json :=
  JObj [("artifact_sha256", JStr (bo_artifact_sha256 o)); ("host_name", JStr (bo_host_name o)); ("path", option_json JStr (bo_path o));
        ("capture_reason", JStr (bo_capture_reason o)); ("observed_at", datetime_json (bo_observed_at o));
        ("received_at", datetime_json (bo_received_at o)); ("execution_evidence", default JNull (bo_execution_evidence o))]%string.

Definition blast_host_json (h : BlastRadiusHost) : Json :=
  JObj [("host_name", JStr (bh_host_name h)); ("artifact_sha256", strings_json (bh_artifact_sha256 h)); ("paths", strings_json (bh_paths h));
        ("first_observed", datetime_json (bh_first_observed h)); ("last_observed", datetime_json (bh_last_observed h))]%string.

Definition similar_edge_json (x : Uuid * string * SimEdge) : Json :=
  let '(other, sha, e) := x in
  JObj [("other_artifact", uuid_json other); ("other_sha256", JStr sha); ("edge_type", JStr (se_edge_type e));
        ("model_version", JStr (se_model_version e)); ("score", JFloat (se_score e)); ("evidence", se_evidence e)]%string.

Definition expansion_json (x : VariantExpansion) : Json :=
  JObj [("group_artifacts", JArr (map blast_artifact_json (ve_group_artifacts x)));
        ("group_occurrences", JArr (map blast_occurrence_json (ve_group_occurrences x)));
        ("weak_leads", JArr (map similar_edge_json (ve_weak_leads x)))]%string.

Definition attestation_json (a : Attestation) : Json :=
  JObj [("result", JStr (at_result a)); ("corpus_watermark", JInt (at_corpus_watermark a)); ("artifacts_evaluated", JInt (at_artifacts_evaluated a));
        ("evaluated_at", datetime_json (at_evaluated_at a)); ("scope", JStr (at_scope a))]%string.

(** A field that is left out when it is [None]. *)
Definition optional_field {A} (k : string) (f : A -> Json) (o : option A) : list (string * Json) :=
  match o with Some a => [(k, f a)] | None => [] end.

Definition blast_radius_json (r : BlastRadiusReport) : Json :=
  JObj ([("generated_at", datetime_json (br_generated_at r)); ("tenant_id", uuid_json (br_tenant_id r)); ("query", br_query r);
         ("hunt", option_json hunt_json (br_hunt r)); ("artifacts", JArr (map blast_artifact_json (br_artifacts r)));
         ("hosts", JArr (map blast_host_json (br_hosts r))); ("occurrences", JArr (map blast_occurrence_json (br_occurrences r)));
         ("verification_state", JStr (br_verification_state r))]%string ++
        optional_field "variant_expansion" expansion_json (br_variant_expansion r) ++
        optional_field "attestation" attestation_json (br_attestation r)).
End encoders.

(** ** The protocol *)

Definition rpc_result (id result : Json) : Json := JObj [("jsonrpc", JStr "2.0"); ("id", id); ("result", result)]%string.

Definition rpc_error (id : Json) (code : Z) (message : string) : Json :=
  JObj [("jsonrpc", JStr "2.0"); ("id", id); ("error", JObj [("code", JInt code); ("message", JStr message)])]%string.

Definition server_info : Json :=
  JObj [("protocolVersion", JStr "2024-11-05"); ("serverInfo", JObj [("name", JStr "corpus-mcp"); ("version", JStr "0.1.0")]);
        ("capabilities", JObj [("tools", JObj [])])]%string.

Definition object_schema (properties : list (string * Json)) (required : list (string * Json)) : Json :=
  JObj ([("type", JStr "object"); ("properties", JObj properties)]%string ++ required).
Definition typed (ty : string) : Json := JObj [("type", JStr ty)]%string.
Definition sha256_schema : Json := object_schema [("sha256", typed "string")]%string [("required", JArr [JStr "sha256"])]%string.

Definition tool_json (name description : string) (schema : Json) : Json :=
  JObj [("name", JStr name); ("description", JStr description); ("inputSchema", schema)]%string.

Definition tools : list Json :=
  [tool_json "search_artifacts" "Rarity search over endpoint artifacts"
     (object_schema [("max_hosts", typed "integer"); ("since", typed "string")]%string []);
   tool_json "get_prevalence" "Fleet prevalence for an artifact by sha256" sha256_schema;
   tool_json "get_opinion" "Current human opinion for an artifact" sha256_schema;
   tool_json "blast_radius" "Blast-radius report by sha256 (historical observation)" sha256_schema;
   tool_json "list_variants" "Variant group members for an artifact" sha256_schema].

(** [v.as_i64()] *)
Definition json_i64 (j : Json) : option Z := z ← json_int j; if (- 2 ^ 63 <=? z) && (z <? 2 ^ 63) then Some z else None.

Section mcp.
  Context {HEX : HexCodec} {UD : UuidDisplay} {TJ : TimeJson} {CT : ChronoText} {JP : JsonPretty}.

(** [Utc::now() - Duration::days(30)] *)
Definition thirty_days_ago : Op Srv Time := t ← now; lift_outcome (or_panic (minus_seconds t (30 * 86400))).

Definition call_answer (id : Json) (text_ : string) : Json :=
  rpc_result id (JObj [("content", JArr [JObj [("type", JStr "text"); ("text", JStr text_)]])]%string).

Definition unknown_artifact : Json := JObj [("error", JStr "unknown artifact")]%string.

Definition search_artifacts (tenant : Uuid) (id args : Json) : Op Srv Json :=
  since ← (match json_get_str "since" args with
           | Some s => attempt (parse_since s)
           | None => t ← thirty_days_ago; mret (inr t)
           end);
  match since with
  | inl e => mret (rpc_error id (-32602) (error_text e))
  | inr since =>
      hits ← attempt (rarity_search tenant (default 5 (v ← json_get "max_hosts" args; json_i64 v)) since None 50);
      mret (match hits with
            | inr h => call_answer id (json_to_string_pretty (JArr (map rarity_hit_json h)))
            | inl e => rpc_error id (-32000) (error_text e)
            end)
  end.

Definition sha_tool (tenant : Uuid) (name sha : string) : Op Srv Json :=
  if String.eqb name "get_prevalence" then
    art ← artifact_for_sha tenant sha;
    match art with
    | Some a => p ← prevalence_for tenant a; mret (prevalence_json p)
    | None => mret unknown_artifact
    end
  else if String.eqb name "get_opinion" then
    art ← artifact_for_sha tenant sha;
    match art with
    | Some a => o ← current_opinion tenant a; mret (option_json opinion_json o)
    | None => mret unknown_artifact
    end
  else if String.eqb name "blast_radius" then r ← by_sha256 tenant sha false; mret (blast_radius_json r)
  else v ← variants_view tenant sha; mret (option_json variants_json v).

Definition sha_tools : list string := ["get_prevalence"; "get_opinion"; "blast_radius"; "list_variants"]%string.

Definition mcp_call (tenant : Uuid) (id : Json) (name : string) (args : Json) : Op Srv Json :=
  if String.eqb name "search_artifacts" then search_artifacts tenant id args
  else if existsb (String.eqb name) sha_tools then
    match json_get_str "sha256" args with
    | None => mret (rpc_error id (-32602) "sha256 required")
    | Some sha =>
        r ← attempt (sha_tool tenant name sha);
        mret (match r with
              | inr v => call_answer id (json_to_string_pretty v)
              | inl e => rpc_error id (-32000) (error_text e)
              end)
    end
  else mret (rpc_error id (-32602) ("unknown tool " +:+ debug_str name)).

Definition request_id (req : Json) : Json := default JNull (json_get "id" req).
Definition request_method (req : Json) : string := default ""%string (json_get_str "method" req).
Definition tool_name (req : Json) : string := default ""%string (p ← json_get "params" req; json_get_str "name" p).
Definition tool_arguments (req : Json) : Json := default (JObj []) (p ← json_get "params" req; json_get "arguments" p).

Definition mcp_handle (tenant : Uuid) (req : Json) : Op Srv Json :=
  let id := request_id req in
  let method := request_method req in
  if String.eqb method "initialize" then mret (rpc_result id server_info)
  else if String.eqb method "tools/list" then mret (rpc_result id (JObj [("tools", JArr tools)]%string))
  else if String.eqb method "tools/call" then mcp_call tenant id (tool_name req) (tool_arguments req)
  else mret (rpc_error id (-32601) "method not found").
End mcp.

(** ** No tool panics but the search *)

Ltac quiet_tac :=
  repeat first
    [ assumption
    | match goal with
      | |- never_panics (mbind _ _) => apply never_panics_bind; [|intros ?]
      | |- never_panics (op_concat _ _) => apply never_panics_fold; intros ? ?
      | |- never_panics (op_fold _ _ _) => apply never_panics_fold; intros ? ?
      | |- never_panics (attempt _) => apply never_panics_attempt
      | |- never_panics (match ?x with _ => _ end) => destruct x
      | |- never_panics (if ?x then _ else _) => destruct x
      | |- never_panics (or_throw _ ?o) => intros ?; unfold or_throw; destruct o; discriminate
      | |- never_panics _ => intros ?; discriminate
      end ].

Section quiet.
  Context {HEX : HexCodec} {UD : UuidDisplay} {TJ : TimeJson}.

Lemma quiet_build_report t q h ids m e : never_panics (build_report t q h ids m e).
Proof.
  unfold build_report, attestation_for, expand_variants_for, group_ids_of, leads_of, artifact_view, findings_of, occurrences_of, artifacts_of, prevalence_for,
    current_opinion, group_members, group_of, edges_for. quiet_tac.
Qed.

Lemma quiet_sha_tool t name sha : never_panics (sha_tool t name sha).
Proof.
  unfold sha_tool, artifact_for_sha, prevalence_for, current_opinion, by_sha256, variants_view, group_members, group_of.
  quiet_tac; apply quiet_build_report.
Qed.

Lemma quiet_rarity_search t n since o l : never_panics (rarity_search t n since o l).
Proof. unfold rarity_search. quiet_tac. Qed.
End quiet.

(** ** What the endpoint answers *)

(** The reply to the request with identifier [id]: a result, or an error with one of
    the codes. *)
Definition rpc_reply (codes : list Z) (id reply : Json) : Prop :=
  (exists v, reply = rpc_result id v) \/ (exists code m, reply = rpc_error id code m /\ In code codes).

Definition call_codes : list Z := [-32602; -32000].

Lemma rpc_reply_params id m : rpc_reply call_codes id (rpc_error id (-32602) m).
Proof. right. eexists _, _. split; [reflexivity|by left]. Qed.

Lemma rpc_reply_failed id m : rpc_reply call_codes id (rpc_error id (-32000) m).
Proof. right. eexists _, _. split; [reflexivity|right; by left]. Qed.

Lemma rpc_reply_text id x : rpc_reply call_codes id (call_answer id x).
Proof. left. by eexists. Qed.

(** The search reads a date that stops it. *)
Definition bad_date `{ChronoText} (args : Json) (s : Srv) : Prop :=
  match json_get_str "since" args with
  | Some since => fst (parse_since since s) = Panic
  | None => minus_seconds (srv_clock s (srv_clock_next s)) (30 * 86400) = None
  end.

Section answers.
  Context {HEX : HexCodec} {UD : UuidDisplay} {TJ : TimeJson} {CT : ChronoText} {JP : JsonPretty}.

(** Returns a reply to [id]. *)
Definition replies (id : Json) (m : Op Srv Json) : Prop := forall s, exists r, fst (m s) = Ret r /\ rpc_reply call_codes id r.

Lemma replies_mret id r : rpc_reply call_codes id r -> replies id (mret r).
Proof. intros H s. by exists r. Qed.

(** What an attempt leaves is a value or an error. *)
Lemma replies_attempt {A} id (m : Op Srv A) f : never_panics m -> (forall x, replies id (f x)) -> replies id (x ← attempt m; f x).
Proof.
  intros Hm Hf s. unfold mbind, op_mbind, attempt. specialize (Hm s). destruct (m s) as [[a|e|] s1]; [apply Hf|apply Hf|done].
Qed.

Lemma search_replies t id args s :
  match fst (search_artifacts t id args s) with Ret r => rpc_reply call_codes id r | Fail _ => False | Panic => bad_date args s end.
Proof.
  unfold search_artifacts, bad_date.
  assert (Hk : forall since, replies id (match since with
    | inl e => mret (rpc_error id (-32602) (error_text e))
    | inr since =>
        hits ← attempt (rarity_search t (default 5 (v ← json_get "max_hosts" args; json_i64 v)) since None 50);
        mret (match hits with
              | inr h => call_answer id (json_to_string_pretty (JArr (map rarity_hit_json h)))
              | inl e => rpc_error id (-32000) (error_text e)
              end)
    end)).
  { intros [e|since]; [apply replies_mret; auto using rpc_reply_params, rpc_reply_failed|]. apply replies_attempt; [apply quiet_rarity_search|].
    intros [e|h]; apply replies_mret; auto using rpc_reply_params, rpc_reply_failed, rpc_reply_text. }
  destruct (json_get_str "since" args) as [since|].
  - unfold mbind at 1, op_mbind at 1, attempt at 1. destruct (parse_since since s) as [[x|e|] s1]; [| |done].
    + destruct (Hk (inr x) s1) as (r & -> & Hr). done.
    + destruct (Hk (inl e) s1) as (r & -> & Hr). done.
  - unfold thirty_days_ago. rewrite !bind_assoc_run, (bind_run now _ s (srv_clock s (srv_clock_next s)) (snd (now s))) by done.
    unfold mbind at 1, op_mbind at 1, lift_outcome. destruct (minus_seconds _ _) as [x|]; [|done].
    cbn [or_panic]. destruct (Hk (inr x) (snd (now s))) as (r & Er & Hr).
    rewrite (bind_run (mret (inr x)) _ (snd (now s)) (inr x) (snd (now s))) by done. cbv beta iota in Er |- *. by rewrite Er.
Qed.

Lemma call_replies t id name args s :
  match fst (mcp_call t id name args s) with
  | Ret r => rpc_reply call_codes id r
  | Fail _ => False
  | Panic => name = "search_artifacts"%string /\ bad_date args s
  end.
Proof.
  unfold mcp_call. destruct (String.eqb_spec name "search_artifacts") as [->|_].
  { pose proof (search_replies t id args s) as H. by destruct (fst (search_artifacts t id args s)). }
  assert (Hk : replies id (if existsb (String.eqb name) sha_tools then
    match json_get_str "sha256" args with
    | None => mret (rpc_error id (-32602) "sha256 required")
    | Some sha => r ← attempt (sha_tool t name sha);
        mret (match r with inr v => call_answer id (json_to_string_pretty v) | inl e => rpc_error id (-32000) (error_text e) end)
    end else mret (rpc_error id (-32602) ("unknown tool " +:+ debug_str name)))).
  { destruct (existsb _ _); [|apply replies_mret; auto using rpc_reply_params, rpc_reply_failed].
    destruct (json_get_str _ _) as [sha|]; [|apply replies_mret; auto using rpc_reply_params, rpc_reply_failed].
    apply replies_attempt; [apply quiet_sha_tool|]. intros [e|v]; apply replies_mret; auto using rpc_reply_params, rpc_reply_failed, rpc_reply_text. }
  destruct (Hk s) as (r & -> & Hr). done.
Qed.

Lemma reading_attempt {A} s0 (m : Op Srv A) : keeps (untouched s0) m -> keeps (untouched s0) (attempt m).
Proof. intros H s Hs. specialize (H s Hs). unfold attempt. by destruct (m s) as [[a|e|] s1]. Qed.
#[local] Hint Resolve reading_attempt reading_prevalence reading_current_opinion reading_artifact_for_sha reading_by_sha256 reading_variants_view reading_rarity
  reading_parse_since : reading.

Lemma reading_sha_tool s0 t name sha : keeps (untouched s0) (sha_tool t name sha).
Proof. unfold sha_tool. reading_tac. Qed.
#[local] Hint Resolve reading_sha_tool : reading.

Lemma reading_mcp_handle s0 t req : keeps (untouched s0) (mcp_handle t req).
Proof. unfold mcp_handle, mcp_call, search_artifacts, thirty_days_ago. reading_tac. Qed.

(** C18. The protocol endpoint is read-only and always answers.  Whatever the
    request, no row, object or identifier changes; the answer is a JSON-RPC reply
    under the request's identifier, an error of code -32601 exactly for a method
    that is none of the three and of code -32602 for a tool that is not listed; the
    one exception is a search from a date that panics the handler. *)
Theorem mcp_answers tenant req s :
  let (o, s') := mcp_handle tenant req s in
  untouched s s' /\
  match o with
  | Ret r => rpc_reply (-32601 :: call_codes) (request_id req) r /\
      ((exists m, r = rpc_error (request_id req) (-32601) m) <-> ~ In (request_method req) ["initialize"; "tools/list"; "tools/call"]%string) /\
      (request_method req = "tools/call"%string -> ~ In (JStr (tool_name req)) (omap (json_get "name") tools) ->
         exists m, r = rpc_error (request_id req) (-32602) m)
  | Fail _ => False
  | Panic => request_method req = "tools/call"%string /\ tool_name req = "search_artifacts"%string /\ bad_date (tool_arguments req) s
  end.
Proof.
  destruct (mcp_handle tenant req s) as [o s'] eqn:E. split.
  { replace s' with (snd (mcp_handle tenant req s)) by by rewrite E. by apply reading_mcp_handle. }
  unfold mcp_handle in E. set (id := request_id req) in *. set (method := request_method req) in *.
  destruct (String.eqb_spec method "initialize") as [Em|N1].
  { injection E as <- <-. split; [left; by eexists|]. rewrite Em. split; [|done]. split; [by intros [m [=]]|]. intros H. exfalso. apply H. by left. }
  destruct (String.eqb_spec method "tools/list") as [Em|N2].
  { injection E as <- <-. split; [left; by eexists|]. rewrite Em. split; [|done]. split; [by intros [m [=]]|]. intros H. exfalso. apply H. right. by left. }
  destruct (String.eqb_spec method "tools/call") as [Em|N3].
  2: { injection E as <- <-. split; [right; eexists _, _; split; [reflexivity|by left]|]. split; [|done]. split; [intros _ [?|[?|[?|[]]]]; congruence|by eexists]. }
  pose proof (call_replies tenant id (tool_name req) (tool_arguments req) s) as H. rewrite E in H. cbn [fst] in H. destruct o as [r|e|]; [|done|done].
  split; [destruct H as [H|(code & m & H & Hc)]; [by left|right; exists code, m; split; [done|by right]]|]. rewrite Em. split.
  - split; [|intros Hn; exfalso; apply Hn; right; right; by left]. intros [m ->]. exfalso. destruct H as [[v [=]]|(code & m' & [= <- _] & Hc)].
    by destruct Hc as [|[|[]]].
  - intros _ Hn. revert E. unfold mcp_call. change (omap (json_get "name") tools) with (map JStr ("search_artifacts" :: sha_tools)%string) in Hn.
    destruct (String.eqb_spec (tool_name req) "search_artifacts") as [En|_]; [exfalso; apply Hn; rewrite En; by left|].
    destruct (existsb _ _) eqn:Ee; [|intros [= <- _]; by eexists]. exfalso. apply Hn. right. apply existsb_exists in Ee as (x & Hx & ->%String.eqb_eq).
    by apply in_map.
Qed.
End answers.

(** ** Examples *)

Section examples.
Local Existing Instance ReferenceHash.hex.
Local Existing Instance ReferenceUuid.display.
Local Instance no_time : TimeJson := fun _ => ""%string.
Local Instance no_pretty : JsonPretty := fun _ => ""%string.
Local Instance no_dates : ChronoText := {| to_rfc3339 := fun _ => ""%string; parse_from_rfc3339 := fun _ => None; minus_seconds := fun t n => Some (t - n) |}.

Definition tool_request (name : string) (args : Json) : Json :=
  JObj [("id", JInt 1); ("method", JStr "tools/call"); ("params", JObj [("name", JStr name); ("arguments", args)])]%string.

(** A date that ends inside a character stops the handler. *)
Example mcp_search_panics :
  fst (mcp_handle 7%N (tool_request "search_artifacts" (JObj [("since", JStr "7é")]%string)) ReferenceServer.empty) = Panic.
Proof. vm_compute. reflexivity. Qed.

Example mcp_unknown_tool :
  fst (mcp_handle 7%N (tool_request "delete" (JObj [])) ReferenceServer.empty) = Ret (rpc_error (JInt 1) (-32602) ("unknown tool " +:+ debug_str "delete")).
Proof. vm_compute. reflexivity. Qed.
End examples.
