(* ===== verification/Isolation.v ===== *)
(** * Isolation: what one tenant's request leaves of the others
    ([docs/invariants.md], invariant 5)

    The server keeps every tenant in the same tables and the same object store.
    This file states that an operation acting for a tenant changes no row of
    another, and proves it statement by statement over the handlers of the other
    files: an [INSERT] carries the tenant, an [UPDATE] or [DELETE] is guarded by it
    or by an identifier that only the tenant's rows carry. *)

From S2P Require Import Prelude Machine Text Hash Cas Schema Scan Rules Triggers Hunts Fuzzy SimModel Features Functions Variants Lifecycle.
From S2P Require Import Ingest Access Merlin Intel.
From Stdlib Require Import Strings.Byte Strings.Ascii.

Open Scope Z_scope.

(** The tenant a row belongs to (the memberships of bundles have none). *)
Definition row_tenant (t : table) : row t -> option Uuid :=
  match t with
  | TTenant => fun r => Some (tn_id r) | TArtifact => fun r => Some (art_tenant r) | TSession => fun r => Some (us_tenant r)
  | TOccurrence => fun r => Some (oc_tenant r) | TAttempt => fun r => Some (ca_tenant r) | TRule => fun r => Some (ru_tenant r)
  | TBundle => fun r => Some (rb_tenant r) | TBundleRule => fun _ => None | THunt => fun r => Some (hu_tenant r)
  | TMatch => fun r => Some (hm_tenant r) | TJob => fun r => Some (hj_tenant r) | TCache => fun r => Some (sc_tenant r)
  | TAgent => fun r => Some (ag_tenant r) | TToken => fun r => Some (et_tenant r) | TFeature => fun r => Some (sf_tenant r)
  | TEdge => fun r => Some (se_tenant r) | TGroup => fun r => Some (vg_tenant r) | TMember => fun r => Some (vm_tenant r)
  | TFunction => fun r => Some (fn_tenant r) | TLsh => fun r => Some (lb_tenant r) | TFband => fun r => Some (fb_tenant r)
  | TReceipt => fun r => Some (ar_tenant r) | TCleanup => fun r => Some (cl_tenant r) | TOpinion => fun r => Some (op_tenant r)
  | TTrigger => fun r => Some (tr_tenant r) | TOutbox => fun r => Some (ob_tenant r) | TDetection => fun r => Some (de_tenant r)
  | TAudit => fun r => Some (ae_tenant r) | TIndicator => fun r => Some (ii_tenant r) | TRun => fun r => Some (an_run_tenant r)
  | TFinding => fun r => Some (fi_tenant r) | TReanalysis => fun r => Some (re_tenant r) | TSegment => fun r => Some (ms_tenant r)
  | TObservation => fun r => Some (mo_tenant r)
  end.

(** The identifier by which a statement without a tenant guard finds a row. *)
Definition row_id (t : table) : row t -> option Uuid :=
  match t with
  | TSession => fun r => Some (us_id r) | TRule => fun r => Some (ru_id r) | TBundle => fun r => Some (rb_id r)
  | THunt => fun r => Some (hu_id r) | TJob => fun r => Some (hj_hunt_id r) | TAgent => fun r => Some (ag_id r)
  | TSegment => fun r => Some (ms_id r) | _ => fun _ => None
  end.

(** A row of another tenant than [tenant]. *)
Definition foreign (tenant : Uuid) (t : table) (r : row t) : bool :=
  match row_tenant t r with Some u => negb (bool_decide (u = tenant)) | None => false end.

(** The rows of the other tenants. *)
Definition others (tenant : Uuid) (t : table) (s : Srv) : list (row t) := List.filter (foreign tenant t) (rows t s).

(** Identifiers are global: no row of the tenant, and no identifier still to be
    drawn, carries one of another tenant's. *)
Record Homed (tenant : Uuid) (s : Srv) : Prop := {
  hm_rows : forall t t' (x : row t) (y : row t') id,
    In x (rows t s) -> foreign tenant t x = false -> row_id t x = Some id -> In y (others tenant t' s) -> row_id t' y <> Some id;
  hm_supply : forall n t (y : row t), (srv_uuid_next s <= n)%nat -> In y (others tenant t s) -> row_id t y <> Some (srv_uuids s n) }.

Section isolation.
  Context {SHA : Sha256} {HEX : HexCodec} {UD : UuidDisplay}.
  Context (tenant : Uuid) (s0 : Srv).

(** What may become of another tenant's row: nothing, but for a receipt whose
    identifier, a digest, a receipt of this tenant collides with. *)
Definition kept (t : table) : row t -> row t -> Prop :=
  match t with
  | TReceipt => fun y y' => y' = y \/ exists r, rc_tenant r = tenant /\ receipt_id r = ar_id y /\ ar_id y' = ar_id y /\ ar_tenant y' = ar_tenant y
  | _ => fun y y' => y' = y
  end.

(** No row of another tenant carries the identifier. *)
Definition clear (id : Uuid) : Prop := forall t (y : row t), In y (others tenant t s0) -> row_id t y <> Some id.

Record isolated (s : Srv) : Prop := {
  iso_rows : forall t, Forall2 (kept t) (others tenant t s0) (others tenant t s);
  iso_ids : forall t (x : row t) id, In x (rows t s) -> foreign tenant t x = false -> row_id t x = Some id -> clear id;
  iso_supply : forall n, (srv_uuid_next s <= n)%nat -> clear (srv_uuids s n) }.

Lemma kept_refl t y : kept t y y.
Proof. destruct t; cbn; by try left. Qed.

Lemma kept_row_id t y y' : kept t y y' -> row_id t y' = row_id t y.
Proof. destruct t; cbn; by try intros ->. Qed.

Lemma homed_isolated : Homed tenant s0 -> isolated s0.
Proof.
  intros [Hr Hs]. split.
  - intros t. induction (others tenant t s0); constructor; [apply kept_refl|done].
  - intros t x id Hx Hf Hid t' y Hy. by eapply Hr.
  - intros n Hn t y Hy. by apply Hs.
Qed.

(** A row that a statement may change: not another tenant's. *)
Definition touchable (t : table) (x : row t) : Prop := foreign tenant t x = false \/ exists id, row_id t x = Some id /\ clear id.

Lemma forall2_in_r {A B} (P : A -> B -> Prop) l k y : Forall2 P l k -> In y k -> exists x, In x l /\ P x y.
Proof. induction 1 as [|a b l k Hab _ IH]; [done|]. intros [<-|Hin]; [exists a; split; [by left|done]|]. destruct (IH Hin) as (x & Hx & HP). exists x. split; [by right|done]. Qed.

Lemma touchable_local s t x : isolated s -> In x (rows t s) -> touchable t x -> foreign tenant t x = false.
Proof.
  intros Hs Hx [Hf|(id & Hid & Hc)]; [done|]. destruct (foreign tenant t x) eqn:Ef; [|done]. exfalso.
  destruct (forall2_in_r _ _ _ x (iso_rows _ Hs t)) as (y & Hy & Hk); [by apply filter_In|].
  apply (Hc t y Hy). by rewrite <- (kept_row_id t y x Hk).
Qed.

(** A new row: the tenant's, under an identifier of its own. *)
Definition insertable (t : table) (r : row t) : Prop := foreign tenant t r = false /\ forall id, row_id t r = Some id -> clear id.

(** *** Statements *)

Lemma others_set_rows_ne t t' l s : t <> t' -> others tenant t' (set_rows t l s) = others tenant t' s.
Proof. intros H. unfold others. by rewrite rows_set_rows_ne. Qed.

(** A statement on [t] that replaces its rows by [l]. *)
Lemma isolated_set_rows t l s :
  isolated s -> Forall2 (kept t) (others tenant t s0) (List.filter (foreign tenant t) l) ->
  (forall x id, In x l -> foreign tenant t x = false -> row_id t x = Some id -> clear id) -> isolated (set_rows t l s).
Proof.
  intros Hs Hl Hid. split.
  - intros t'. unfold others at 2. destruct (decide (t = t')) as [<-|Hne]; [by rewrite rows_set_rows_eq|].
    rewrite rows_set_rows_ne by done. apply (iso_rows _ Hs).
  - intros t' x id. destruct (decide (t = t')) as [<-|Hne]; [rewrite rows_set_rows_eq; apply Hid|].
    rewrite rows_set_rows_ne by done. apply (iso_ids _ Hs).
  - intros n Hn. by apply (iso_supply _ Hs).
Qed.

Lemma isolated_append t r s : insertable t r -> isolated s -> isolated (set_rows t (rows t s ++ [r]) s).
Proof.
  intros [Hf Hc] Hs. apply isolated_set_rows; [done|..].
  - rewrite List.filter_app. cbn. rewrite Hf, app_nil_r. apply (iso_rows _ Hs).
  - intros x id [Hx|[<-|[]]]%in_app_iff Hxf Hxid; [by eapply (iso_ids _ Hs)|by apply Hc].
Qed.

Lemma filter_map_local {A} (p g : A -> bool) (f : A -> A) l :
  (forall x, In x l -> p x = true -> g x = false /\ g (f x) = false) ->
  List.filter g (map (fun x => if p x then f x else x) l) = List.filter g l.
Proof.
  induction l as [|x l IH]; [done|]. intros H. cbn. rewrite IH by (intros y Hy; apply H; by right).
  destruct (p x) eqn:Ep; [|done]. destruct (H x) as [H1 H2]; [by left|done|]. by rewrite H1, H2.
Qed.

(** The rows a statement changes stay the tenant's, under their identifier. *)
Definition keeps_home (t : table) (f : row t -> row t) : Prop :=
  forall x, foreign tenant t x = false -> foreign tenant t (f x) = false /\ row_id t (f x) = row_id t x.

Lemma isolated_map t p f s :
  (forall x, p x = true -> touchable t x) -> keeps_home t f -> isolated s ->
  isolated (set_rows t (map (fun x => if p x then f x else x) (rows t s)) s).
Proof.
  intros Hp Hf Hs. assert (Hl : forall x, In x (rows t s) -> p x = true -> foreign tenant t x = false).
  { intros x Hx Hpx. eapply touchable_local; [done..|]. by apply Hp. }
  apply isolated_set_rows; [done|..].
  - rewrite filter_map_local; [apply (iso_rows _ Hs)|]. intros x Hx Hpx. split; [by apply Hl|]. apply Hf. by apply Hl.
  - intros x' id (x & <- & Hx)%in_map_iff Hxf Hid. destruct (p x) eqn:Ep; [|by eapply (iso_ids _ Hs)].
    destruct (Hf x (Hl x Hx Ep)) as [_ Hi]. rewrite Hi in Hid. eapply (iso_ids _ Hs); [exact Hx|by apply Hl|done].
Qed.

Lemma iso_insert_row t r : insertable t r -> keeps isolated (insert_row t r).
Proof. intros Hr s Hs. by apply isolated_append. Qed.

Lemma iso_insert_on_conflict {K} `{EqDecision K} t (key : row t -> K) r : insertable t r -> keeps isolated (insert_on_conflict t key r).
Proof. intros Hr s Hs. unfold insert_on_conflict. destruct (existsb _ _); [done|]. by apply isolated_append. Qed.

Lemma iso_insert_unique {K} `{EqDecision K} t (key : row t -> K) r : insertable t r -> keeps isolated (insert_unique t key r).
Proof. intros Hr. apply keeps_insert_unique. by apply iso_insert_on_conflict. Qed.

Lemma iso_update_rows t p f : (forall x, p x = true -> touchable t x) -> keeps_home t f -> keeps isolated (update_rows t p f).
Proof. intros Hp Hf s Hs. by apply isolated_map. Qed.

Lemma iso_upsert {K} `{EqDecision K} t (key : row t -> K) r f :
  insertable t r -> (forall x, key x = key r -> touchable t x) -> keeps_home t f -> keeps isolated (upsert t key r f).
Proof.
  intros Hr Hk Hf s Hs. unfold upsert. destruct (existsb _ _); [|by apply isolated_append].
  apply isolated_map; [|done|done]. intros x Hx%bool_decide_eq_true. by apply Hk.
Qed.

Lemma iso_delete_rows t p : (forall x, p x = true -> touchable t x) -> keeps isolated (delete_rows t p).
Proof.
  intros Hp s Hs. apply isolated_set_rows; [done|..].
  - assert (E : List.filter (foreign tenant t) (List.filter (fun x => negb (p x)) (rows t s)) = others tenant t s); [|rewrite E; apply (iso_rows _ Hs)].
    unfold others. assert (Hl : forall x, In x (rows t s) -> p x = true -> foreign tenant t x = false).
    { intros x Hx Hpx. eapply touchable_local; [done..|]. by apply Hp. }
    induction (rows t s) as [|x l IH]; [done|]. cbn. rewrite <- IH by (intros y Hy; apply Hl; by right).
    destruct (p x) eqn:Ep; cbn; [|done]. rewrite Hl; [done|by left|done].
  - intros x id (Hx & _)%filter_In. by apply (iso_ids _ Hs).
Qed.

Lemma iso_db_transaction {A} (m : Op Srv A) : keeps isolated m -> keeps isolated (db_transaction m).
Proof.
  apply keeps_db_transaction. intros old new Ho Hn. split; [exact (iso_rows _ Ho)|exact (iso_ids _ Ho)|exact (iso_supply _ Hn)].
Qed.

Lemma isolated_same s s' : srv_db s' = srv_db s -> srv_uuids s' = srv_uuids s -> (srv_uuid_next s <= srv_uuid_next s')%nat -> isolated s -> isolated s'.
Proof.
  intros Hd Hu Hn [H1 H2 H3]. split.
  - intros t. unfold others, rows. rewrite Hd. apply H1.
  - intros t x id. unfold rows. rewrite Hd. apply H2.
  - intros n Hle. rewrite Hu. apply H3. lia.
Qed.

Lemma iso_cas {A} (m : Op FsCas A) : keeps isolated (with_cas m).
Proof. intros s. unfold with_cas. destruct (m (srv_cas s)). by apply isolated_same. Qed.

Lemma iso_now : keeps isolated now.
Proof. intros s. by apply isolated_same. Qed.

Lemma iso_nextval : keeps isolated nextval.
Proof. intros s. by apply isolated_same. Qed.

(** An identifier just drawn is nobody else's. *)
Lemma iso_new_v4 : yields isolated clear new_v4.
Proof.
  intros s Hs. split; [|intros a [= <-]; by apply (iso_supply _ Hs)]. revert Hs. apply isolated_same; cbn; [done|done|lia].
Qed.

(** A row found by a guarded query, and its identifier. *)
Lemma iso_found t p : (forall x, p x = true -> foreign tenant t x = false) ->
  yields isolated (fun o => forall x, o = Some x -> p x = true /\ forall id, row_id t x = Some id -> clear id) (select_optional t p).
Proof.
  intros Hp s Hs. split; [done|]. intros o [= <-] x Hx. apply head_filter_in in Hx as [Hx Hpx]. split; [done|].
  intros id Hid. eapply (iso_ids _ Hs); [exact Hx|by apply Hp|done].
Qed.

Lemma iso_selected t p : (forall x, p x = true -> foreign tenant t x = false) ->
  yields isolated (Forall (fun x => p x = true /\ forall id, row_id t x = Some id -> clear id)) (select t p).
Proof.
  intros Hp s Hs. split; [done|]. intros l [= <-]. apply Forall_forall. intros x Hx%list_elem_of_In. apply filter_In in Hx as [Hx Hpx].
  split; [done|]. intros id Hid. eapply (iso_ids _ Hs); [exact Hx|by apply Hp|done].
Qed.
End isolation.

(** *** Automation *)

Create HintDb tenancy.
#[export] Hint Unfold fires hunt_is is_current in_group group_is member_is feature_of function_of fband_of_artifact touches
  Fuzzy.band_of receipt_of in_scope store_feature feature_key member_key edge_key function_key fband_key lsh_key indicator_key : tenancy.

(** A guard that names the tenant. *)
Ltac iso_guard :=
  let x := fresh in let Hx := fresh in intros x Hx;
  lazymatch goal with |- touchable _ _ _ _ => left | _ => idtac end;
  autounfold with tenancy in *; unfold foreign; cbn in *;
  repeat match goal with H : _ && _ = true |- _ => apply andb_true_iff in H as [? ?] end;
  repeat match goal with H : bool_decide _ = true |- _ => apply bool_decide_eq_true in H end;
  repeat match goal with H : (_, _) = (_, _) |- _ => injection H; clear H; intros end;
  rewrite bool_decide_true; [reflexivity|congruence].

Ltac iso_row := split;
  [unfold foreign; cbn; try reflexivity; rewrite bool_decide_true; reflexivity
  |cbn; let id := fresh in let E := fresh in intros id E; first [discriminate E | injection E as <-; assumption]].

Ltac iso_home := let x := fresh in let Hx := fresh in intros x Hx; split; [exact Hx|reflexivity].

Create HintDb iso.
#[export] Hint Resolve iso_now iso_nextval iso_cas keeps_mret keeps_throw keeps_panic keeps_gets keeps_lift keeps_or_throw
  keeps_select keeps_select_optional keeps_select_count : iso.
#[export] Hint Extern 1 (keeps _ new_v4) => (eapply yields_keeps; apply iso_new_v4) : iso.

Ltac iso_step :=
  lazymatch goal with
  | |- keeps _ (mbind _ new_v4) => eapply keeps_bind_yields; [apply iso_new_v4|intros ? ?]
  | |- keeps _ (db_transaction _) => apply iso_db_transaction
  | |- keeps _ (insert_row _ _) => apply iso_insert_row; iso_row
  | |- keeps _ (insert_on_conflict _ _ _) => apply iso_insert_on_conflict; iso_row
  | |- keeps _ (insert_unique _ _ _) => apply iso_insert_unique; iso_row
  | |- keeps _ (upsert _ _ _ _) => apply iso_upsert; [iso_row|iso_guard|iso_home]
  | |- keeps _ (update_rows _ _ _) => apply iso_update_rows; [iso_guard|iso_home]
  | |- keeps _ (delete_rows _ _) => apply iso_delete_rows; iso_guard
  | |- _ => keeps_step
  end.
Ltac iso_tac := repeat first [ solve [ eauto 2 with iso nocore ] | iso_step ].

(** ** The handlers, one by one *)

Section handlers.
  Context {YX : YaraX} {SH : ScannerHost} {SHA : Sha256} {HEX : HexCodec} {UD : UuidDisplay} {GOB : Goblin} {LOG : Log2}
          {DEC : X86Decoder} {HO : HashOrder}.
  Context (tenant : Uuid) (s0 : Srv).
  Abbreviation isolates := (keeps (isolated tenant s0)).

Lemma iso_fire c e : isolates (fire tenant c e).
Proof. unfold fire. iso_tac. Qed.
#[local] Hint Resolve iso_fire : iso.

Lemma iso_record_detection artifact i : isolates (record_detection tenant artifact i).
Proof. unfold record_detection. iso_tac. Qed.
#[local] Hint Resolve iso_record_detection : iso.

Lemma iso_set_opinion artifact o a r : isolates (set_opinion tenant artifact o a r).
Proof. unfold set_opinion, set_opinion_tx, current_opinion. iso_tac. Qed.

Lemma iso_create_trigger n c u k : isolates (create_trigger tenant n c u k).
Proof. unfold create_trigger. iso_tac. Qed.

Lemma iso_commit_match hunt artifact rule j : isolates (commit_match tenant hunt artifact rule j).
Proof. unfold commit_match. iso_tac. Qed.

Lemma iso_update_hunt hunt f : (forall h, hu_tenant (f h) = hu_tenant h /\ hu_id (f h) = hu_id h) -> isolates (update_hunt tenant hunt f).
Proof.
  intros Hf. unfold update_hunt. apply keeps_bind; [|intros; apply keeps_mret]. apply iso_update_rows; [iso_guard|].
  intros h Hh. destruct (Hf h) as [H1 H2]. unfold foreign in *. cbn in *. by rewrite H1, H2.
Qed.

Lemma iso_commit_cache sha digest st ids d e : isolates (commit_cache_entry (cache_key tenant sha digest) st ids d e).
Proof. unfold commit_cache_entry. iso_tac. Qed.

Lemma iso_fire_hunt_match hunt artifact rule : isolates (fire_hunt_match tenant hunt artifact rule).
Proof. unfold fire_hunt_match. iso_tac. Qed.
#[local] Hint Resolve iso_commit_match iso_commit_cache iso_fire_hunt_match : iso.
#[local] Hint Extern 1 (keeps _ (update_hunt _ _ _)) => (apply iso_update_hunt; intros ?; split; reflexivity) : iso.

Lemma iso_create_hunt digest : isolates (create_hunt tenant digest).
Proof. unfold create_hunt, get_bundle. iso_tac. Qed.

Lemma iso_execute_artifact tier sources compiled hunt digest c a : isolates (execute_artifact tier sources compiled tenant hunt digest c a).
Proof. unfold execute_artifact, execute_cached, execute_scanned, cache_lookup. iso_tac. Qed.

Lemma iso_forward_scan artifact sha b key : isolates (forward_scan tenant artifact sha b key).
Proof. unfold forward_scan, forward_bundle, cache_lookup, bundle_sources. iso_tac. Qed.
#[local] Hint Resolve iso_create_hunt iso_forward_scan : iso.

(** A receipt replaces one of its own identifier only. *)
Lemma iso_persist r : rc_tenant r = tenant -> isolates (persist r).
Proof.
  intros Hr s Hs. unfold persist, upsert. destruct (existsb _ _); cbn [snd].
  2: { apply isolated_append; [|done]. split; [unfold foreign; cbn; by rewrite bool_decide_true|done]. }
  apply isolated_set_rows; [done| |intros x id _ _ Hid; discriminate Hid].
  pose proof (iso_rows _ _ _ Hs TReceipt) as H0. unfold others at 2 in H0. revert H0. generalize (others tenant TReceipt s0).
  induction (rows TReceipt s) as [|x l IH]; intros k; cbn [map List.filter]; [done|]. destruct (bool_decide (ar_id x = ar_id (receipt_row r))) eqn:Ek.
  - apply bool_decide_eq_true in Ek. set (g := mkAnalysisReceiptRow _ _ _ _ _ _ _ _ _ _). assert (foreign tenant TReceipt g = foreign tenant TReceipt x) as -> by done.
    destruct (foreign tenant TReceipt x); [|apply IH]. intros H0. apply Forall2_cons_inv_r in H0 as (y & k' & Hy & Hk & ->). constructor; [|by apply IH]. right. exists r.
    destruct Hy as [->|(r' & _ & _ & E1 & E2)]; [by repeat split|]. split; [done|]. split; [by rewrite <- E1|]. by split.
  - destruct (foreign tenant TReceipt x); [|apply IH]. intros H0. apply Forall2_cons_inv_r in H0 as (y & k' & Hy & Hk & ->). constructor; [done|by apply IH].
Qed.
#[local] Hint Extern 1 (keeps _ (persist _)) => (apply iso_persist; reflexivity) : iso.

Lemma iso_union_groups a b : isolates (union_groups tenant a b).
Proof. unfold union_groups, group_of, add_member, fire_variant_join, move_member. iso_tac. Qed.
#[local] Hint Resolve iso_union_groups : iso.

Lemma iso_insert_edge a b e x v : isolates (insert_edge tenant a b e x v).
Proof. unfold insert_edge. iso_tac. Qed.
#[local] Hint Resolve iso_insert_edge : iso.

Lemma iso_store_features artifact f : isolates (store_features tenant artifact f).
Proof. unfold store_features, store_feature. iso_tac. Qed.

Lemma iso_store_bands artifact d : isolates (Fuzzy.store_bands tenant artifact d).
Proof. unfold Fuzzy.store_bands. iso_tac. Qed.

Lemma iso_store_function_bands artifact fs v : isolates (store_function_bands tenant artifact fs v).
Proof. unfold store_function_bands. iso_tac. Qed.
#[local] Hint Resolve iso_store_features iso_store_bands iso_store_function_bands : iso.

Lemma iso_extract_and_store artifact format b : isolates (extract_and_store tenant artifact format b).
Proof. unfold extract_and_store, store_limitation, store_feature, store_function. iso_tac. Qed.
#[local] Hint Resolve iso_extract_and_store : iso.

Lemma iso_analyze_and_link artifact class b : isolates (analyze_and_link tenant artifact class b).
Proof.
  unfold analyze_and_link, link_one, semantic_candidates, same_class, load_functions, full_scan, func_index_populated, func_candidates, store_feature.
  iso_tac.
Qed.
#[local] Hint Resolve iso_analyze_and_link : iso.

Lemma iso_analyze_artifact artifact class b : isolates (analyze_artifact tenant artifact class b).
Proof.
  unfold analyze_artifact, normalized_edges, normalized_edge, byte_edge, provenance_edge, fuzzy_candidates, lsh_populated, lsh_candidates, op_concat,
    lsh_row, class_scan_row, feature_matches, same_class. iso_tac.
Qed.
#[local] Hint Resolve iso_analyze_artifact : iso.

Lemma iso_backfill : isolates (backfill tenant).
Proof. unfold backfill. iso_tac. Qed.

Lemma iso_cleanup_artifact artifact dry : isolates (cleanup_artifact tenant artifact dry).
Proof. unfold cleanup_artifact, legal_hold, count_derived, group_of, delete_derived, repair_group. iso_tac. Qed.

Lemma iso_supersede_edges artifact o n dry : isolates (supersede_edges tenant artifact o n dry).
Proof. unfold supersede_edges, annotate. iso_tac. Qed.
#[local] Hint Resolve iso_cleanup_artifact iso_supersede_edges iso_backfill : iso.

(** *** Statements guarded by an identifier *)

(** What follows a query for a row of the tenant's. *)
Lemma iso_bind_found {A} t p (f : row t -> Op Srv A) e :
  (forall x, p x = true -> foreign tenant t x = false) ->
  (forall x, p x = true -> (forall id, row_id t x = Some id -> clear tenant s0 id) -> isolates (f x)) ->
  isolates (o ← select_optional t p; x ← or_throw e o; f x).
Proof.
  intros Hp Hf. eapply keeps_bind_yields; [by apply iso_found|]. intros [x|] Ho; [|by intros s Hs]. destruct (Ho x eq_refl) as [Hx Hid]. by apply (Hf x).
Qed.

Lemma iso_set_session_state id st : clear tenant s0 id -> isolates (set_session_state id st).
Proof.
  intros Hc. unfold set_session_state. apply keeps_bind; [|intros; apply keeps_mret].
  apply iso_update_rows; [|iso_home]. intros u Hu%bool_decide_eq_true. right. exists (us_id u). split; [done|by rewrite Hu].
Qed.
#[local] Hint Extern 1 (keeps _ (set_session_state _ _)) => (apply iso_set_session_state; assumption) : iso.

Lemma iso_announce req : isolates (announce tenant req).
Proof. unfold announce, record_occurrence, insert_occurrence, attempt_meta, insert_capture_attempt. iso_tac. Qed.

Lemma iso_stage_upload id b : isolates (stage_upload tenant id b).
Proof. unfold stage_upload. iso_tac. Qed.

Lemma iso_commit_rows req sha class scope key prov :
  clear tenant s0 (fq_upload_id req) -> isolates (commit_rows tenant req sha class scope key prov).
Proof. intros Hc. unfold commit_rows, record_occurrence, insert_occurrence, attempt_meta, insert_capture_attempt. iso_tac. Qed.
#[local] Hint Extern 1 (keeps _ (commit_rows _ _ _ _ _ _ _)) => (apply iso_commit_rows; assumption) : iso.

Lemma iso_finalize req : isolates (finalize tenant req).
Proof.
  unfold finalize. apply (iso_bind_found TSession (session_is tenant (fq_upload_id req))); [unfold session_is; iso_guard|]. intros u Hu Hid.
  assert (Hc : clear tenant s0 (fq_upload_id req)).
  { apply Hid. cbn. unfold session_is in Hu. apply andb_true_iff in Hu as [Hu _]. apply bool_decide_eq_true in Hu. by rewrite Hu. }
  unfold promote, after_commit, mark_session_failed, record_mismatch, attempt_meta, insert_capture_attempt, analyze_new_artifact. iso_tac.
Qed.

Lemma iso_create_enrollment_token label ttl : isolates (create_enrollment_token tenant label ttl).
Proof. unfold create_enrollment_token, require_tenant. iso_tac. Qed.

(** The tokens of this digest are the tenant's. *)
Definition token_home (h : bytes) (s : Srv) : Prop := forall x, In x (rows TToken s) -> et_token_sha256 x = h -> et_tenant x = tenant.
Definition iso_token (h : bytes) (s : Srv) : Prop := isolated tenant s0 s /\ token_home h s.

Lemma iso_token_frame {A} h (m : Op Srv A) : isolates m -> frames (rows TToken) m -> keeps (iso_token h) m.
Proof. intros Hm Hf s [Hs Ht]. split; [by apply Hm|]. intros x. rewrite Hf. apply Ht. Qed.

Lemma iso_token_update h p f : (forall x, p x = true -> et_token_sha256 x = h) ->
  (forall x, et_tenant (f x) = et_tenant x /\ et_token_sha256 (f x) = et_token_sha256 x) -> keeps (iso_token h) (update_rows TToken p f).
Proof.
  intros Hp Hf s [Hs Ht]. assert (Hl : forall x, In x (rows TToken s) -> p x = true -> foreign tenant TToken x = false).
  { intros x Hx Hpx. unfold foreign. cbn. by rewrite (Ht x Hx (Hp x Hpx)), bool_decide_true. }
  split.
  - apply isolated_set_rows; [done| |done]. rewrite filter_map_local; [apply (iso_rows _ _ _ Hs)|].
    intros x Hx Hpx. split; [by apply Hl|]. pose proof (Hl x Hx Hpx) as H. unfold foreign in *. cbn in *. by rewrite (proj1 (Hf x)).
  - intros y. cbn [update_rows snd]. rewrite rows_set_rows_eq. intros (x & <- & Hx)%in_map_iff Hy.
    destruct (p x); [|by apply Ht]. destruct (Hf x) as [E1 E2]. rewrite E1. apply Ht; [done|congruence].
Qed.

(** Taking a token of the tenant's acts for the tenant. *)
Lemma iso_take_token h : yields (iso_token h) (fun t => t = tenant) (Access.take_token h).
Proof.
  unfold Access.take_token. apply (yields_bind _ (fun _ => True)); [intros s Hs; split; [|done]; by apply (iso_token_frame h now); [apply iso_now|intros ?|]|].
  intros t _ s Hs. unfold select_optional, gets. erewrite bind_run; [|reflexivity].
  pose proof (iso_token_update h (usable h t) (consume t)) as Hu.
  assert (Hk : iso_token h (snd (update_rows TToken (usable h t) (consume t) s))).
  { apply Hu; [|done|done]. unfold usable. intros x H. apply andb_true_iff in H as [H _]. apply andb_true_iff in H as [H _]. by apply bool_decide_eq_true in H. }
  erewrite bind_run; [|reflexivity]. destruct (head _) as [r|] eqn:Eh; [|by split].
  split; [exact Hk|]. intros a [= <-]. apply head_filter_in in Eh as [Hr Hus]. destruct Hs as [_ Ht]. apply Ht; [done|].
  unfold usable in Hus. apply andb_true_iff in Hus as [H _]. apply andb_true_iff in H as [H _]. by apply bool_decide_eq_true in H.
Qed.

Lemma iso_enroll ca token host version : keeps (iso_token (hash_token token)) (enroll ca token host version).
Proof.
  unfold enroll. eapply keeps_bind_yields; [apply iso_take_token|]. intros t ->.
  apply keeps_bind; [apply iso_token_frame; [unfold get_tenant; iso_tac|unfold get_tenant; frames_tac]|intros tn].
  destruct (negb _); [apply keeps_throw|].
  apply (keeps_bind_yields _ (clear tenant s0)).
  { intros s [Hs Ht]. destruct (iso_new_v4 tenant s0 s Hs) as [H1 H2]. split; [by split|exact H2]. }
  intros agent_id Hc. apply keeps_bind; [apply iso_token_frame; [iso_tac|by intros ?]|intros u]. cbv zeta.
  apply keeps_bind; [apply iso_token_frame; [iso_tac|by intros ?]|intros t].
  apply keeps_bind; [apply iso_token_frame; [unfold new_agent; iso_tac|frames_tac]|intros _].
  apply keeps_bind; [|intros _; apply keeps_bind; [apply keeps_lift|intros; apply keeps_mret]].
  unfold consumed_by. apply keeps_bind; [|intros; apply keeps_mret].
  apply iso_token_update; [|done]. by intros x H%bool_decide_eq_true.
Qed.

Lemma iso_record_gaps_scoped host agent gaps : isolates (record_gaps_scoped tenant host agent gaps).
Proof. unfold record_gaps_scoped, record_gap_event. iso_tac. Qed.

Lemma iso_heartbeat ident hb : clear tenant s0 (id_agent_id ident) -> isolates (heartbeat ident hb).
Proof.
  intros Hc. unfold heartbeat. apply keeps_bind; [apply iso_now|intros t]. apply keeps_bind; [|intros; apply keeps_mret].
  apply iso_update_rows; [|iso_home]. intros r Hr%bool_decide_eq_true. right. exists (ag_id r). split; [done|by rewrite Hr].
Qed.

Lemma iso_segment_for t req sha : yields (isolated tenant s0) (clear tenant s0) (segment_for tenant t req sha).
Proof.
  unfold segment_for, find_segment. eapply yields_bind; [apply (iso_found tenant s0 TSegment); intros x Hx%bool_decide_eq_true; unfold foreign; cbn; unfold segment_key in Hx; injection Hx as -> _ _; by rewrite bool_decide_true|]. intros [r|] Ho.
  - destruct (Ho r eq_refl) as [_ Hid]. destruct (negb _); [apply yields_throw|]. apply yields_mret. by apply Hid.
  - eapply yields_bind; [apply iso_new_v4|]. intros id Hc. eapply yields_bind; [apply keeps_yields; apply iso_insert_unique; iso_row|].
    intros _ _. by apply yields_mret.
Qed.

Lemma iso_ingest_segment `{JsonText} `{Chrono} req : isolates (ingest_segment tenant req).
Proof.
  unfold ingest_segment. apply keeps_bind; [apply keeps_lift|intros _]. cbv zeta. apply keeps_bind; [|intros [id n]; apply keeps_mret].
  apply iso_db_transaction, keeps_bind; [apply iso_now|intros t]. eapply keeps_bind_yields; [apply iso_segment_for|]. intros id Hc.
  apply keeps_bind; [unfold store_event; iso_tac|intros n]. apply keeps_bind; [|intros; apply keeps_mret]. unfold recount.
  apply keeps_bind; [apply keeps_select_count|intros k]. apply keeps_bind; [|intros; apply keeps_mret].
  apply iso_update_rows; [|iso_home]. intros r Hr%bool_decide_eq_true. right. exists (ms_id r). split; [done|by rewrite Hr].
Qed.

Lemma iso_create_rule source : isolates (create_rule tenant source).
Proof. unfold create_rule, get_rule_by_stable_id. iso_tac. Qed.

Lemma iso_publish_member id : yields (isolated tenant s0) (fun r => clear tenant s0 (ru_id r)) (publish_member tenant id).
Proof.
  unfold publish_member. eapply yields_bind; [apply (iso_found tenant s0 TRule); intros x [Hx%bool_decide_eq_true _]%andb_true_iff; unfold foreign; cbn; by rewrite bool_decide_true|]. intros [r|] Ho; cbn [or_throw].
  - destruct (Ho r eq_refl) as [_ Hid]. eapply yields_bind; [by apply yields_mret with (Q := fun x => x = r)|]. intros _ ->.
    destruct (String.eqb _ _); [apply yields_throw|]. apply yields_mret. by apply Hid.
  - intros s Hs. by split.
Qed.

Lemma iso_publish_tx members digest activate :
  Forall (fun r => clear tenant s0 (ru_id r)) members -> isolates (publish_tx tenant members digest activate).
Proof.
  intros Hm. unfold publish_tx. eapply keeps_bind_yields; [apply (iso_found tenant s0 TBundle); unfold bundle_is; intros x [Hx%bool_decide_eq_true _]%andb_true_iff; unfold foreign; cbn; by rewrite bool_decide_true|]. intros b Hb.
  apply keeps_bind.
  - destruct b as [b|]; [|iso_tac]. destruct (Hb b eq_refl) as [_ Hid]. apply keeps_bind; [|intros; apply keeps_mret].
    destruct activate; [|apply keeps_mret]. apply keeps_bind; [|intros; apply keeps_mret]. unfold activate_bundle.
    apply iso_update_rows; [|iso_home]. intros x Hx%bool_decide_eq_true. right. exists (rb_id x). split; [done|]. rewrite Hx. by apply Hid.
  - intros id. apply keeps_bind; [|unfold forward_hunt_is; intros; iso_tac]. apply keeps_for. intros r Hr. apply keeps_bind; [apply iso_now|intros t].
    apply keeps_bind; [|intros; apply keeps_mret]. unfold activate_rule. apply iso_update_rows; [|iso_home].
    intros x [Hx%bool_decide_eq_true _]%andb_true_iff. right. exists (ru_id x). split; [done|]. rewrite Hx.
    rewrite Forall_forall in Hm. by apply Hm, list_elem_of_In.
Qed.

(** The hunt a job is about is the tenant's. *)
Lemma iso_bind_hunt {A} id (f : Hunt -> Op Srv A) :
  (forall h, clear tenant s0 id -> isolates (f h)) -> isolates (h ← get_hunt tenant id; f h).
Proof.
  intros Hf s Hs. unfold get_hunt. rewrite bind_assoc_run.
  apply (iso_bind_found THunt (hunt_is tenant id)); [iso_guard| |done]. intros h Hh Hid. apply Hf, Hid. cbn.
  unfold hunt_is in Hh. apply andb_true_iff in Hh as [_ Hh]. apply bool_decide_eq_true in Hh. by rewrite Hh.
Qed.

Lemma iso_get_hunt id : isolates (get_hunt tenant id).
Proof. unfold get_hunt. iso_tac. Qed.

Lemma iso_job_update id f : clear tenant s0 id -> keeps_home tenant TJob f -> isolates (update_rows TJob (fun j => bool_decide (hj_hunt_id j = id)) f).
Proof.
  intros Hc Hf. apply iso_update_rows; [|done]. intros j Hj%bool_decide_eq_true. right. exists (hj_hunt_id j). split; [done|by rewrite Hj].
Qed.
#[local] Hint Resolve iso_get_hunt iso_execute_artifact : iso.
#[local] Hint Extern 1 (keeps _ (update_rows TJob _ _)) => (apply iso_job_update; [assumption|iso_home]) : iso.

Lemma iso_job_upsert id t f : clear tenant s0 id -> keeps_home tenant TJob f -> isolates (upsert TJob hj_hunt_id (mkHuntJob id tenant t None None None None) f).
Proof.
  intros Hc Hf. apply iso_upsert; [iso_row| |done]. intros j Hj. right. exists (hj_hunt_id j). split; [done|by rewrite Hj].
Qed.
#[local] Hint Extern 1 (keeps _ (upsert TJob _ _ _)) => (apply iso_job_upsert; [assumption|iso_home]) : iso.

Lemma iso_enqueue_hunt id : isolates (enqueue_hunt tenant id).
Proof. unfold enqueue_hunt, fail_hunt, bundle_sources, set_state. apply iso_bind_hunt. intros h Hc. iso_tac. Qed.

Lemma iso_execute_hunt id : isolates (execute_hunt tenant id).
Proof. unfold execute_hunt, fail_hunt, bundle_sources. apply iso_bind_hunt. intros h Hc. iso_tac. Qed.
#[local] Hint Resolve iso_enqueue_hunt iso_execute_hunt : iso.

Lemma iso_run_hunt id : isolates (run_hunt tenant id).
Proof. unfold run_hunt. iso_tac. Qed.

Lemma iso_publish_bundle ids activate : isolates (publish_bundle tenant ids activate).
Proof.
  unfold publish_bundle. destruct ids as [|i ids]; [apply keeps_throw|].
  eapply (keeps_bind_yields _ (Forall (fun r => clear tenant s0 (ru_id r)))).
  - assert (H : forall l acc, Forall (fun r => clear tenant s0 (ru_id r)) acc -> yields (isolated tenant s0) (Forall (fun r => clear tenant s0 (ru_id r)))
      (op_fold l acc (fun acc id => r ← publish_member tenant id; mret (acc ++ [r])))).
    { induction l as [|x l IH]; intros acc Ha; cbn [op_fold]; [by apply yields_mret|].
      eapply yields_bind; [|intros acc'; apply IH]. eapply yields_bind; [apply iso_publish_member|]. intros r Hr. apply yields_mret.
      apply Forall_app. split; [done|by constructor]. }
    by apply H.
  - intros found Hf. cbv zeta. destruct (compile_bundle _); [apply keeps_throw|].
    apply keeps_bind; [|intros _; unfold get_bundle; iso_tac]. apply iso_db_transaction, iso_publish_tx.
    apply Forall_forall. intros r Hr%list_elem_of_In%sort_by_in. rewrite Forall_forall in Hf. by apply Hf, list_elem_of_In.
Qed.

Lemma iso_on_bundle_activated auto digest : isolates (on_bundle_activated auto tenant digest).
Proof. unfold on_bundle_activated, insert_record. iso_tac. Qed.

Lemma iso_upsert_indicators source l : isolates (upsert_indicators tenant source l).
Proof. unfold upsert_indicators, upsert_indicator, seen_again. iso_tac. Qed.

Lemma iso_on_hash_indicators auto source l : isolates (on_hash_indicators auto tenant source l).
Proof. unfold on_hash_indicators, hash_hunt, report_hit, insert_record. iso_tac. Qed.
End handlers.
