(* ===== verification/Routes.v ===== *)
(** * Routes: the server's HTTP surface ([corpus-server/src/main.rs], [mtls.rs])

    The routing table, the admin gate in front of it, the authentication of
    ingestion, the handlers of the routes, and the agents' listener behind client
    certificates. *)

From S2P Require Import Prelude Machine Text Hash Cas Schema Scan Rules Triggers Hunts Fuzzy SimModel Features Functions Variants Lifecycle.
From S2P Require Import Ingest Access Merlin Neighborhood Intel Detonate Report Export Mcp Isolation.
From Stdlib Require Import Strings.Byte Strings.Ascii.

Open Scope Z_scope.

(** ** Requests *)

(** A header's value: visible ASCII, or what [to_str] refuses. *)
Inductive HeaderValue : Type := Visible (s : string) | Opaque.

Definition to_str (v : HeaderValue) : option string := match v with Visible s => Some s | Opaque => None end.

Record Headers := mkHeaders { hd_authorization : option HeaderValue; hd_tenant : option HeaderValue }.

(** [headers.get("authorization").and_then(|v| v.to_str().ok())] *)
Definition authorization (h : Headers) : option string := v ← hd_authorization h; to_str v.

(** A request that a route's extractors accepted, with its parameters. *)
Inductive Call : Type :=
  | Health
  | CreateTenant (slug name : string)
  | ListTenants
  | GetTenant (id_or_slug : string)
  | Announce (req : AnnounceRequest)
  | Upload (upload_id : Uuid) (body : bytes)
  | Finalize (req : FinalizeRequest)
  | CreateRule (source : string)
  | ListRules
  | PublishBundle (rule_ids : list Uuid) (activate : bool)
  | ListBundles
  | CreateHunt (bundle_digest : string)
  | ListHunts
  | GetHunt (hunt_id : Uuid)
  | RunHunt (hunt_id : Uuid) (sync : option string)
  | Similar (sha256 : string)
  | VariantsOf (sha256 : string)
  | Backfill
  | NeighborhoodOf (q : NeighborhoodParams)
  | SemanticEvidence (a b : Uuid) (max_pairs max_tokens : option Z)
  | Cleanup (artifact_id : Uuid) (dry_run : option bool)
  | ListAnalyzers
  | Receipts (artifact_id : Uuid)
  | CreateEnrollmentToken (label : option string) (ttl_secs : option Z)
  | Enroll (token host_name agent_version : string)
  | Heartbeat (hb : HeartbeatRequest)
  | ReportGaps (gaps : list GapEvent)
  | IngestMerlin (req : MerlinSegmentRequest)
  | ListMerlin (host : option string) (limit : option Z)
  | ListAgents
  | AgentStatus (agent_id : Uuid)
  | CoverageGaps (outcome : option string) (limit : option Z)
  | UpsertIndicators (source : string) (indicators : list (string * string * option Json))
  | HashHunt (hashes : list string)
  | DetonateArtifact (sha256 : string)
  | SetOpinion (sha256 opinion : string) (actor : option string) (reason : string)
  | GetOpinion (sha256 : string)
  | OpinionHistory (sha256 : string)
  | CreateTrigger (name condition webhook_url : string) (secret : option string)
  | ListTriggers
  | TestTrigger (trigger_id : Uuid)
  | ListDetections
  | ListContinuous
  | BlastRadius (hunt_id : option Uuid) (sha256 : option string) (expand_variants : option bool)
  | ExportGraph (p : ExportParams)
  | PrevalenceOf (sha256 : string)
  | Search (max_hosts : option Z) (since opinion : option string) (limit : option Z)
  | Droppers (sha256 : string) (max_hosts window_hours : option Z)
  | Investigate (sha256 : option string) (hunt_id : option Uuid)
  | Metrics
  | OpenApi
  | McpRequest (req : Json)
with NeighborhoodParams : Type :=
  | mkNeighborhoodParams (seed sha256 edge_types model_version : option string) (min_score : option f64)
      (max_depth max_nodes max_edges offset limit : option Z) (include_weak : option bool)
with ExportParams : Type :=
  | mkExportParams (seed sha256 : option string) (group_id : option Uuid) (format edge_types model_version : option string)
      (min_score : option f64) (max_depth max_nodes max_edges : option Z) (include_weak : option bool).

Inductive Reply : Type :=
  | NoContent
  | RHealth
  | RTenant (t : Tenant)
  | RTenants (l : list Tenant)
  | RAnnounce (r : AnnounceResponse)
  | RFinalize (r : FinalizeResponse)
  | RRule (r : RuleResponse)
  | RRules (l : list RuleResponse)
  | RBundle (b : BundleResponse) (continuous_retro_hunt_id : option Uuid)
  | RBundles (l : list BundleResponse)
  | RHunt (h : Hunt)
  | RHunts (l : list Hunt)
  | RSimilar (v : Uuid * string * list (Uuid * string * SimEdge))
  | RVariants (v : Uuid * string * option Uuid * list (Uuid * string * string * Time))
  | RAnalyzed (n : Z)
  | RNeighborhood (r : NeighborhoodResponse)
  | RJson (j : Json)
  | RReceipts (l : list Json)
  | RCleanup (r : CleanupReport)
  | RAnalyzers (l : list AnalyzerInfo)
  | RToken (token : string) (expires_at : option Time)
  | REnroll (r : EnrollResponse)
  | RRenew (cert key ca : string)
  | RSegment (r : MerlinSegmentResponse)
  | RObservations (l : list MerlinObservation)
  | RAgents (l : list Agent)
  | RAgent (a : Agent)
  | RGaps (l : list CaptureAttempt)
  | RIndicators (upserted : Z) (continuous : HashIntelResult)
  | RHits (l : list HashHuntHit)
  | RDetonation (r : DetonationResult)
  | ROpinion (o : option Opinion)
  | ROpinions (l : list Opinion)
  | RTrigger (r : TriggerRule) (hmac_secret : string)
  | RTriggers (l : list TriggerRule)
  | RDetections (l : list Detection)
  | RContinuous (l : list Reanalysis)
  | RBlastRadius (r : BlastRadiusReport)
  | RExport (e : GraphExport)
  | RPrevalence (p : Prevalence)
  | RSearch (l : list RarityHit)
  | RDroppers (l : list DropperCandidate)
  | RInvestigation (r : InvestigationReport)
  | RMetrics (m : PlatformMetrics)
  | ROpenApi.

(** [AppError::into_response]: the status of an error. *)
Definition status_of (e : Error) : Z :=
  match e with
  | NotFound _ => 404
  | Conflict _ => 409
  | Unauthorized _ => 401
  | BadRequest _ | RuleParse _ => 400
  | Forbidden _ => 403
  | RuleCompile _ | HashMismatch _ _ => 422
  | Db _ | Io _ | Migrate _ => 500
  end.

(** ** The routing table *)

Inductive Seg : Type := Lit (s : string) | Par.

Definition api (l : list Seg) : list Seg := Lit "api" :: Lit "v1" :: l.

Definition pattern (c : Call) : list Seg :=
  match c with
  | Health => api [Lit "health"]
  | CreateTenant _ _ | ListTenants => api [Lit "tenants"]
  | GetTenant _ => api [Lit "tenants"; Par]
  | Announce _ => api [Lit "artifacts"; Lit "announce"]
  | Upload _ _ => api [Lit "artifacts"; Lit "uploads"; Par]
  | Finalize _ => api [Lit "artifacts"; Lit "finalize"]
  | CreateRule _ | ListRules => api [Lit "rules"]
  | PublishBundle _ _ | ListBundles => api [Lit "bundles"]
  | CreateHunt _ | ListHunts => api [Lit "hunts"]
  | GetHunt _ => api [Lit "hunts"; Par]
  | RunHunt _ _ => api [Lit "hunts"; Par; Lit "run"]
  | Similar _ => api [Lit "artifacts"; Par; Lit "similar"]
  | VariantsOf _ => api [Lit "artifacts"; Par; Lit "variants"]
  | Backfill => api [Lit "similarity"; Lit "backfill"]
  | NeighborhoodOf _ => api [Lit "similarity"; Lit "neighborhood"]
  | SemanticEvidence _ _ _ _ => api [Lit "similarity"; Lit "evidence"; Par; Par]
  | Cleanup _ _ => api [Lit "artifacts"; Par; Lit "similarity-cleanup"]
  | ListAnalyzers => api [Lit "similarity"; Lit "analyzers"]
  | Receipts _ => api [Lit "artifacts"; Par; Lit "receipts"]
  | CreateEnrollmentToken _ _ => api [Lit "enrollment-tokens"]
  | Enroll _ _ _ => api [Lit "agents"; Lit "enroll"]
  | Heartbeat _ => api [Lit "agents"; Lit "heartbeat"]
  | ReportGaps _ => api [Lit "agents"; Lit "gaps"]
  | IngestMerlin _ => api [Lit "integrations"; Lit "merlin"; Lit "segments"]
  | ListMerlin _ _ => api [Lit "integrations"; Lit "merlin"; Lit "observations"]
  | ListAgents => api [Lit "agents"]
  | AgentStatus _ => api [Lit "agents"; Par]
  | CoverageGaps _ _ => api [Lit "coverage"; Lit "gaps"]
  | UpsertIndicators _ _ => api [Lit "intel"; Lit "indicators"]
  | HashHunt _ => api [Lit "intel"; Lit "hash-hunt"]
  | DetonateArtifact _ => api [Lit "artifacts"; Par; Lit "detonate"]
  | SetOpinion _ _ _ _ | GetOpinion _ => api [Lit "artifacts"; Par; Lit "opinion"]
  | OpinionHistory _ => api [Lit "artifacts"; Par; Lit "opinion"; Lit "history"]
  | CreateTrigger _ _ _ _ | ListTriggers => api [Lit "triggers"]
  | TestTrigger _ => api [Lit "triggers"; Par; Lit "test"]
  | ListDetections => api [Lit "detections"]
  | ListContinuous => api [Lit "continuous"]
  | BlastRadius _ _ _ => api [Lit "reports"; Lit "blast-radius"]
  | ExportGraph _ => api [Lit "similarity"; Lit "export"]
  | PrevalenceOf _ => api [Lit "artifacts"; Par; Lit "prevalence"]
  | Search _ _ _ _ => api [Lit "search"]
  | Droppers _ _ _ => api [Lit "hunts"; Lit "droppers"]
  | Investigate _ _ => api [Lit "investigate"]
  | Metrics => api [Lit "metrics"]
  | OpenApi => api [Lit "openapi.json"]
  | McpRequest _ => [Lit "mcp"]
  end.

(** The paths [main] registers, in its order. *)
Definition routes : list (list Seg) :=
  map api
  [ [Lit "health"]; [Lit "tenants"]; [Lit "tenants"; Par]; [Lit "artifacts"; Lit "announce"]; [Lit "artifacts"; Lit "uploads"; Par];
    [Lit "artifacts"; Lit "finalize"]; [Lit "rules"]; [Lit "bundles"]; [Lit "hunts"]; [Lit "hunts"; Par]; [Lit "hunts"; Par; Lit "run"];
    [Lit "reports"; Lit "blast-radius"]; [Lit "artifacts"; Par; Lit "similar"]; [Lit "artifacts"; Par; Lit "variants"];
    [Lit "similarity"; Lit "backfill"]; [Lit "similarity"; Lit "neighborhood"]; [Lit "similarity"; Lit "export"];
    [Lit "similarity"; Lit "analyzers"]; [Lit "similarity"; Lit "evidence"; Par; Par]; [Lit "artifacts"; Par; Lit "receipts"];
    [Lit "artifacts"; Par; Lit "similarity-cleanup"]; [Lit "enrollment-tokens"]; [Lit "agents"; Lit "enroll"];
    [Lit "agents"; Lit "heartbeat"]; [Lit "agents"; Lit "gaps"]; [Lit "integrations"; Lit "merlin"; Lit "segments"];
    [Lit "integrations"; Lit "merlin"; Lit "observations"]; [Lit "agents"]; [Lit "agents"; Par]; [Lit "coverage"; Lit "gaps"];
    [Lit "intel"; Lit "indicators"]; [Lit "intel"; Lit "hash-hunt"]; [Lit "artifacts"; Par; Lit "prevalence"];
    [Lit "artifacts"; Par; Lit "opinion"]; [Lit "artifacts"; Par; Lit "opinion"; Lit "history"]; [Lit "search"];
    [Lit "hunts"; Lit "droppers"]; [Lit "triggers"]; [Lit "triggers"; Par; Lit "test"]; [Lit "artifacts"; Par; Lit "detonate"];
    [Lit "openapi.json"]; [Lit "investigate"]; [Lit "detections"]; [Lit "continuous"]; [Lit "metrics"] ]%string ++
  [[Lit "mcp"]]%string.

(** The value of a parameter. *)
Inductive Arg : Type := ArgText (s : string) | ArgId (u : Uuid).

Definition call_args (c : Call) : list Arg :=
  match c with
  | GetTenant s | Similar s | VariantsOf s | DetonateArtifact s | SetOpinion s _ _ _ | GetOpinion s | OpinionHistory s | PrevalenceOf s => [ArgText s]
  | Upload u _ | GetHunt u | RunHunt u _ | Cleanup u _ | Receipts u | AgentStatus u | TestTrigger u => [ArgId u]
  | SemanticEvidence a b _ _ => [ArgId a; ArgId b]
  | _ => []
  end.

(** What a path parameter's text stands for: percent-decoding (axum). *)
Class PathDecode : Type := path_decode : string -> option string.

Fixpoint path_matches (p : list Seg) (segs : list string) : bool :=
  match p, segs with
  | [], [] => true
  | Lit l :: p', s :: segs' => String.eqb l s && path_matches p' segs'
  | Par :: p', s :: segs' => negb (String.eqb s "") && path_matches p' segs'
  | _, _ => false
  end.

(** The texts of the parameters. *)
Fixpoint parameters (p : list Seg) (segs : list string) : list string :=
  match p, segs with
  | Lit _ :: p', _ :: segs' => parameters p' segs'
  | Par :: p', s :: segs' => s :: parameters p' segs'
  | _, _ => []
  end.

(** A literal where the other route has a parameter goes first. *)
Fixpoint more_specific (p q : list Seg) : bool :=
  match p, q with
  | Lit a :: p', Lit b :: q' => String.eqb a b && more_specific p' q'
  | Lit _ :: _, Par :: _ => true
  | Par :: p', Par :: q' => more_specific p' q'
  | _, _ => false
  end.

Definition no_slash (s : string) : bool := str_all (fun c => negb (Ascii.eqb c "/")) s.

Section routing.
  Context {UP : UuidParse} {PD : PathDecode}.

Definition arg_is (a : Arg) (text : string) : Prop :=
  match a with
  | ArgText s => path_decode text = Some s
  | ArgId u => exists d, path_decode text = Some d /\ uuid_parse d = Some u
  end.

(** What the router (matchit) guarantees of a call it dispatches: the path's
    segments match the call's route with these arguments, and no route of the
    table that goes first matches. *)
Record routed (segs : list string) (c : Call) : Prop := {
  ro_match : path_matches (pattern c) segs = true;
  ro_args : Forall2 arg_is (call_args c) (parameters (pattern c) segs);
  ro_first : forall p, In p routes -> path_matches p segs = true -> more_specific p (pattern c) = false;
  ro_plain : Forall (fun s => no_slash s = true) segs }.
End routing.

Definition path_text (segs : list string) : string := String.concat "" (map (fun s => "/" +:+ s) segs).

(** ** The state behind the handlers *)

(** A detonation [set_opinion] spawned. *)
Record Task := mkTask {
  tk_tenant : Uuid; tk_artifact : Uuid; tk_sha : string; tk_bytes : bytes; tk_provider : CapeProvider; tk_cfg : DetonationConfig;
  tk_actor : string }.

Record World := mkWorld { wd_srv : Srv; wd_net : Net; wd_tasks : list Task }.

Definition core {A} (m : Op Srv A) : Op World A := fun w =>
  let '(o, s) := m (wd_srv w) in (o, mkWorld s (wd_net w) (wd_tasks w)).

Definition outside {A} (m : Op (Srv * Net) A) : Op World A := fun w =>
  let '(o, (s, n)) := m (wd_srv w, wd_net w) in (o, mkWorld s n (wd_tasks w)).

Definition spawn (t : Task) : Op World unit := fun w => (Ret tt, mkWorld (wd_srv w) (wd_net w) (wd_tasks w ++ [t])).

(** The process environment, as far as the handlers read it. *)
Definition Env : Type := string -> option string.

Definition bearer (h : Headers) : option string := s ← authorization h; strip_prefix "Bearer " s.

(** [AgentIdentity] of an agent, or the tenant of the CLI path. *)
Inductive IngestAuth : Type := AgentAuth (ident : AgentIdentity) | DevAuth (tenant : Uuid).

Definition auth_tenant (a : IngestAuth) : Uuid := match a with AgentAuth i => id_tenant_id i | DevAuth t => t end.

Definition apply_agent_identity (ident : AgentIdentity) (occ : option OccurrenceInfo) : option OccurrenceInfo :=
  o ← occ;
  Some (mkOccurrenceInfo (id_host_name ident) (id_agent_id ident) (oi_boot_id o) (oi_agent_sequence o) (oi_capture_reason o)
    (oi_observed_at o) (oi_path o) (oi_file_size o) (oi_file_mtime o)).

Definition as_agent (a : IngestAuth) (occ : option OccurrenceInfo) : option OccurrenceInfo :=
  match a with AgentAuth i => apply_agent_identity i occ | DevAuth _ => occ end.

(** Lists of names separated by commas. *)
Definition comma_list (s : string) : list string :=
  List.filter (fun x => negb (String.eqb x "")) (map str_trim (split_tokens (fun c => Ascii.eqb c ",") s "")).

Definition neighborhood_query (p : NeighborhoodParams) : outcome NeighborhoodQuery :=
  let '(mkNeighborhoodParams seed sha256 edge_types model min_score depth nodes edges offset limit weak) := p in
  match (match seed with Some s => Some s | None => sha256 end) with
  | None => Fail (BadRequest "seed or sha256 required")
  | Some seed =>
      Ret (mkNeighborhoodQuery seed (default [] (comma_list <$> edge_types)) model (default (f64_of_Z 0) min_score) (default 1 depth)
        (default 64 nodes) (default 128 edges) (default 0 offset) (default 50 limit) (default true weak))
  end.

(** The neighborhood an export asks for: one page with every edge. *)
Definition export_query (p : ExportParams) : outcome NeighborhoodQuery :=
  let '(mkExportParams seed sha256 _ _ edge_types model min_score depth nodes edges weak) := p in
  match (match seed with Some s => Some s | None => sha256 end) with
  | None => Fail (BadRequest "seed, sha256, or group_id required")
  | Some seed =>
      Ret (mkNeighborhoodQuery seed (default [] (comma_list <$> edge_types)) model (default (f64_of_Z 0) min_score) (default 1 depth)
        (default 64 nodes) (default 128 edges) 0 (default 128 edges) (default true weak))
  end.

Definition sync_requested (env : Env) (sync : option string) : bool :=
  (if sync is Some s then String.eqb s "1" || eq_ignore_case s "true" else false) || is_set (env "CORPUS_HUNT_SYNC"%string).

Section handlers.
  Context {YX : YaraX} {SH : ScannerHost} {SHA : Sha256} {HEX : HexCodec} {UD : UuidDisplay} {UP : UuidParse} {GOB : Goblin} {LOG : Log2}
          {DEC : X86Decoder} {HO : HashOrder} {JT : JsonText} {CH : Chrono} {ST : StatusText}
          {CT : ChronoText} {TJ : TimeJson} {JP : JsonPretty}.
  Context (env : Env) (c : AuthConfig) (ca : DeploymentCa).

Definition resolve_tenant (h : Headers) : Op Srv Uuid :=
  match hd_tenant h with
  | Some v => raw ← or_throw (BadRequest "invalid tenant header encoding") (to_str v); resolve_active_tenant (Some raw)
  | None => resolve_active_tenant None
  end.

Definition legacy_bearer : bool := is_set (env "CORPUS_AGENT_LEGACY_BEARER"%string).

Definition ingest_auth (h : Headers) : Op Srv IngestAuth :=
  if is_set (hd_authorization h) then
    tok ← or_throw (Unauthorized "malformed authorization header") (bearer h);
    if admin_matches c tok then t ← resolve_tenant h; mret (DevAuth t)
    else ident ← authenticate legacy_bearer tok; mret (AgentAuth ident)
  else if negb (au_allow_dev_ingest c) then throw (Unauthorized "ingest requires agent or admin bearer (dev path disabled)")
  else t ← resolve_tenant h; mret (DevAuth t).

Definition bearer_token (h : Headers) : Op Srv string := or_throw (BadRequest "missing bearer token") (bearer h).

(** *** Ingestion *)

Definition announce_route (h : Headers) (req : AnnounceRequest) : Op Srv Reply :=
  a ← ingest_auth h;
  r ← Ingest.announce (auth_tenant a) (mkAnnounceRequest (an_sha256 req) (an_size_bytes req) (as_agent a (an_occurrence req)));
  mret (RAnnounce r).

Definition upload (h : Headers) (upload_id : Uuid) (body : bytes) : Op Srv Reply :=
  a ← ingest_auth h;
  stage_upload (auth_tenant a) upload_id body ;;
  mret NoContent.

Definition finalize_route (h : Headers) (req : FinalizeRequest) : Op Srv Reply :=
  a ← ingest_auth h;
  r ← Ingest.finalize (auth_tenant a)
    (mkFinalizeRequest (fq_upload_id req) (fq_sha256 req) (fq_size_bytes req) (as_agent a (fq_occurrence req)) (fq_scope req) (fq_provenance req));
  mret (RFinalize r).

(** *** Rules and hunts *)

Definition publish_bundle_route (h : Headers) (rule_ids : list Uuid) (activate : bool) : Op Srv Reply :=
  t ← resolve_tenant h;
  bundle ← Rules.publish_bundle t rule_ids activate;
  hunt ← (if activate then on_bundle_activated (env_flag_default_on (env "CORPUS_AUTO_RETRO_ON_ACTIVATE"%string)) t (br_digest bundle)
          else mret None);
  mret (RBundle bundle (hu_id <$> hunt)).

Definition run_hunt_route (h : Headers) (hunt_id : Uuid) (sync : option string) : Op Srv Reply :=
  t ← resolve_tenant h;
  hunt ← (if sync_requested env sync then Hunts.run_hunt t hunt_id else enqueue_hunt t hunt_id);
  mret (RHunt hunt).

(** *** Similarity *)

Definition artifact_not_found (sha256 : string) : Error := NotFound ("artifact " +:+ sha256).

Definition similar (h : Headers) (sha256 : string) : Op Srv Reply :=
  t ← resolve_tenant h;
  v ← similar_view t sha256;
  v ← or_throw (artifact_not_found sha256) v;
  mret (RSimilar v).

Definition variants (h : Headers) (sha256 : string) : Op Srv Reply :=
  t ← resolve_tenant h;
  v ← variants_view t sha256;
  v ← or_throw (artifact_not_found sha256) v;
  mret (RVariants v).

Definition similarity_neighborhood (h : Headers) (p : NeighborhoodParams) : Op Srv Reply :=
  t ← resolve_tenant h;
  q ← lift_outcome (neighborhood_query p);
  r ← Neighborhood.query t q;
  mret (RNeighborhood r).

(** *** Agents *)

Definition create_enrollment_token_route (h : Headers) (label : option string) (ttl_secs : option Z) : Op Srv Reply :=
  t ← resolve_tenant h;
  r ← Access.create_enrollment_token t (default ""%string label) ttl_secs;
  mret (RToken (fst r) (snd r)).

Definition agent_heartbeat (h : Headers) (hb : HeartbeatRequest) : Op Srv Reply :=
  tok ← bearer_token h;
  ident ← authenticate legacy_bearer tok;
  Access.heartbeat ident hb ;;
  mret NoContent.

Definition report_gaps (h : Headers) (gaps : list GapEvent) : Op Srv Reply :=
  if is_set (hd_authorization h) then
    tok ← bearer_token h;
    ident ← authenticate legacy_bearer tok;
    record_gaps ident gaps ;;
    mret NoContent
  else
    t ← resolve_tenant h;
    record_gaps_dev t gaps ;;
    mret NoContent.

Definition ingest_merlin_segment (h : Headers) (req : MerlinSegmentRequest) : Op Srv Reply :=
  lift_outcome (check_merlin_ingest c (authorization h)) ;;
  t ← resolve_tenant h;
  r ← Merlin.ingest_segment t req;
  mret (RSegment r).

Definition list_merlin_observations (h : Headers) (host : option string) (limit : option Z) : Op Srv Reply :=
  lift_outcome (check_merlin_ingest c (authorization h)) ;;
  t ← resolve_tenant h;
  l ← Merlin.list_observations t host (default 100 limit);
  mret (RObservations l).

(** *** Intelligence and analysts *)

Definition upsert_indicators_route (h : Headers) (source : string) (indicators : list (string * string * option Json)) : Op Srv Reply :=
  t ← resolve_tenant h;
  let indicators := map (fun '(ty, v, raw) => mkIndicator ty v (default (JObj []) raw)) indicators in
  upserted ← Intel.upsert_indicators t source indicators;
  let sha_hashes := map in_value (List.filter (fun i => eq_ignore_case (in_ioc_type i) "sha256") indicators) in
  continuous ← on_hash_indicators (env_flag_default_on (env "CORPUS_AUTO_HASH_INTEL"%string)) t source sha_hashes;
  mret (RIndicators upserted continuous).

(** [storage_state = 'committed'] *)
Definition committed_artifact (tenant : Uuid) (p : Artifact -> bool) (a : Artifact) : bool :=
  bool_decide (art_tenant a = tenant) && p a && String.eqb (art_storage_state a) "committed".

Definition not_configured : Error :=
  BadRequest "no detonation provider configured (set CORPUS_CAPE_URL and CORPUS_DETONATION_ENABLED=1)".

Definition detonate_artifact (h : Headers) (sha256 : string) : Op World Reply :=
  t ← core (resolve_tenant h);
  raw ← or_throw (BadRequest "invalid sha256 hex") (hex_to_raw sha256);
  row ← core (select_optional TArtifact (committed_artifact t (fun a => bool_decide (art_sha256 a = raw))));
  a ← or_throw (artifact_not_found sha256) row;
  b ← core (with_cas (read (art_object_key a)));
  let cfg := Detonate.from_env env in
  lift_outcome (Detonate.validate env cfg) ;;
  if negb (dc_enabled cfg) then throw (BadRequest "detonation disabled; set CORPUS_DETONATION_ENABLED=1")
  else
    url ← or_throw not_configured (dc_cape_url cfg);
    r ← outside (detonate (DP := cape (new url (dc_cape_token cfg))) t (art_id a) sha256 b cfg "corpusctl");
    mret (RDetonation r).

Definition artifact_id_for (tenant : Uuid) (sha256 : string) : Op Srv Uuid :=
  a ← artifact_for_sha tenant sha256;
  or_throw (artifact_not_found sha256) a.

(** The policy that submits what an analyst finds bad, off by default. *)
Definition auto_submit (tenant artifact : Uuid) (sha256 opinion : string) : Op World unit :=
  if (String.eqb opinion "malicious" || String.eqb opinion "suspicious") && is_set (env "CORPUS_DETONATION_AUTO"%string) then
    let cfg := Detonate.from_env env in
    if dc_enabled cfg then
      match dc_cape_url cfg with
      | Some url =>
          row ← core (select_optional TArtifact (committed_artifact tenant (fun a => bool_decide (art_id a = artifact))));
          match row with
          | Some a =>
              b ← attempt (core (with_cas (read (art_object_key a))));
              match b with
              | inr b => spawn (mkTask tenant artifact sha256 b (new url (dc_cape_token cfg)) cfg "auto-policy")
              | inl _ => mret tt
              end
          | None => mret tt
          end
      | None => mret tt
      end
    else mret tt
  else mret tt.

Definition set_opinion_route (h : Headers) (sha256 opinion : string) (actor : option string) (reason : string) : Op World Reply :=
  t ← core (resolve_tenant h);
  id ← core (artifact_id_for t sha256);
  core (Triggers.set_opinion t id opinion (default "corpusctl"%string actor) reason) ;;
  auto_submit t id sha256 opinion ;;
  current ← core (current_opinion t id);
  o ← or_throw (NotFound "opinion") current;
  mret (ROpinion (Some o)).

Definition get_opinion (h : Headers) (sha256 : string) : Op Srv Reply :=
  t ← resolve_tenant h;
  id ← artifact_id_for t sha256;
  o ← current_opinion t id;
  mret (ROpinion o).

Definition opinion_history_route (h : Headers) (sha256 : string) : Op Srv Reply :=
  t ← resolve_tenant h;
  id ← artifact_id_for t sha256;
  l ← Triggers.opinion_history t id;
  mret (ROpinions l).

Definition test_trigger (h : Headers) (trigger_id : Uuid) : Op Srv Reply :=
  t ← resolve_tenant h;
  row ← select_optional TTrigger (fun r => bool_decide (tr_tenant r = t) && bool_decide (tr_id r = trigger_id));
  r ← or_throw (NotFound ("trigger " +:+ uuid_to_string trigger_id)) row;
  fire t (tr_condition r)
    (JObj [("type", JStr "test"); ("trigger_id", JStr (uuid_to_string trigger_id)); ("condition", JStr (tr_condition r))]%string) ;;
  mret NoContent.

(** A handler that resolves the tenant and calls one operation. *)
Definition scoped {A} (h : Headers) (m : Uuid -> Op Srv A) (reply : A -> Reply) : Op World Reply :=
  core (t ← resolve_tenant h; a ← m t; mret (reply a)).

Definition health : Op World Reply := mret RHealth.

Definition create_tenant_route (slug name : string) : Op World Reply := core (t ← Access.create_tenant slug name; mret (RTenant t)).

Definition list_tenants_route : Op World Reply := core (l ← Access.list_tenants; mret (RTenants l)).

Definition get_tenant_route (id_or_slug : string) : Op World Reply :=
  core (t ← match uuid_parse id_or_slug with
            | Some id => Access.get_tenant id
            | None => get_tenant_by_slug (str_lower id_or_slug)
            end;
        mret (RTenant t)).

Definition create_rule_route (h : Headers) (source : string) : Op World Reply := scoped h (fun t => Rules.create_rule t source) RRule.

Definition list_rules_route (h : Headers) : Op World Reply := scoped h Rules.list_rules RRules.

Definition list_bundles_route (h : Headers) : Op World Reply := scoped h Rules.list_bundles RBundles.

Definition create_hunt_route (h : Headers) (digest : string) : Op World Reply := scoped h (fun t => Hunts.create_hunt t digest) RHunt.

Definition list_hunts_route (h : Headers) : Op World Reply := scoped h Hunts.list_hunts RHunts.

Definition get_hunt_route (h : Headers) (id : Uuid) : Op World Reply := scoped h (fun t => Hunts.get_hunt t id) RHunt.

Definition similarity_backfill (h : Headers) : Op World Reply := scoped h Variants.backfill RAnalyzed.

Definition semantic_evidence (h : Headers) (a b : Uuid) (max_pairs max_tokens : option Z) : Op World Reply :=
  scoped h (fun t => function_pair_evidence t a b (default 32 max_pairs) (default 32 max_tokens)) RJson.

Definition similarity_cleanup (h : Headers) (artifact_id : Uuid) (dry_run : option bool) : Op World Reply :=
  scoped h (fun t => cleanup_artifact t artifact_id (default true dry_run)) RCleanup.

Definition list_analyzers_route : Op World Reply := mret (RAnalyzers (SimModel.list_analyzers built_in_registry)).

Definition artifact_receipts (h : Headers) (artifact_id : Uuid) : Op World Reply :=
  scoped h (fun t => receipts_for_artifact t artifact_id) RReceipts.

Definition enroll_route (token host version : string) : Op World Reply := core (r ← Access.enroll ca token host version; mret (REnroll r)).

Definition list_agents_route (h : Headers) : Op World Reply := scoped h Access.list_agents RAgents.

Definition agent_status_route (h : Headers) (id : Uuid) : Op World Reply := scoped h (fun t => Access.agent_status t id) RAgent.

Definition coverage_gaps_route (h : Headers) (outcome : option string) (limit : option Z) : Op World Reply :=
  scoped h (fun t => Access.coverage_gaps t outcome (default 100 limit)) RGaps.

Definition hash_hunt_route (h : Headers) (hashes : list string) : Op World Reply := scoped h (fun t => Intel.hash_hunt t hashes) RHits.

Definition create_trigger_route (h : Headers) (name cond url : string) (secret : option string) : Op World Reply :=
  scoped h (fun t => Triggers.create_trigger t name cond url secret) (fun r => RTrigger (fst r) (snd r)).

Definition list_triggers_route (h : Headers) : Op World Reply := scoped h Triggers.list_triggers RTriggers.

Definition list_detections (h : Headers) : Op World Reply := scoped h (fun t => detections_recent t 100) RDetections.

Definition list_continuous (h : Headers) : Op World Reply := scoped h (fun t => list_recent t 50) RContinuous.

(** *** Reports *)

Definition blast_radius_route (h : Headers) (hunt_id : option Uuid) (sha256 : option string) (expand_variants : option bool) : Op Srv Reply :=
  t ← resolve_tenant h;
  let expand := default false expand_variants in
  match hunt_id, sha256 with
  | Some id, None => r ← Report.by_hunt t id expand; mret (RBlastRadius r)
  | None, Some sha => r ← Report.by_sha256 t sha expand; mret (RBlastRadius r)
  | _, _ => throw (BadRequest "provide exactly one of hunt_id or sha256")
  end.

Definition similarity_export (h : Headers) (p : ExportParams) : Op Srv Reply :=
  t ← resolve_tenant h;
  let '(mkExportParams _ _ group_id format _ _ _ _ _ _ _) := p in
  f ← lift_outcome (parse_format (default "json"%string format));
  match group_id with
  | Some g => e ← Export.export_group t g f; mret (RExport e)
  | None => q ← lift_outcome (export_query p); e ← Export.export_neighborhood t q f; mret (RExport e)
  end.

Definition prevalence_route (h : Headers) (sha256 : string) : Op Srv Reply :=
  t ← resolve_tenant h;
  id ← artifact_id_for t sha256;
  p ← Report.prevalence_for t id;
  mret (RPrevalence p).

Definition rarity_search_route (h : Headers) (max_hosts : option Z) (since opinion : option string) (limit : option Z) : Op Srv Reply :=
  t ← resolve_tenant h;
  since ← (match since with Some s => Report.parse_since s | None => Mcp.thirty_days_ago end);
  hits ← Report.rarity_search t (default 5 max_hosts) since opinion (default 100 limit);
  mret (RSearch hits).

Definition dropper_hunt (h : Headers) (sha256 : string) (max_hosts window_hours : option Z) : Op World Reply :=
  scoped h (fun t => Report.dropper_candidates t sha256 (default 3 max_hosts) (default 24 window_hours) 100) RDroppers.

Definition investigate_route (h : Headers) (sha256 : option string) (hunt_id : option Uuid) : Op Srv Reply :=
  t ← resolve_tenant h;
  match sha256, hunt_id with
  | Some sha, None => r ← Report.investigate_sha256 t sha; mret (RInvestigation r)
  | None, Some id => r ← Report.investigate_hunt t id; mret (RInvestigation r)
  | _, _ => throw (BadRequest "provide exactly one of sha256 or hunt_id")
  end.

Definition platform_metrics_route (h : Headers) : Op World Reply := scoped h (fun t => Report.platform_metrics (Some t)) RMetrics.

(** The document built into the server. *)
Definition openapi_spec : Op World Reply := mret ROpenApi.

Definition mcp_endpoint (h : Headers) (req : Json) : Op Srv Reply :=
  if negb (mcp_matches c (default ""%string (bearer h))) then throw (Unauthorized "invalid MCP token")
  else
    t ← resolve_tenant h;
    r ← Mcp.mcp_handle t req;
    mret (RJson r).

(** The handler [main] registers for each route. *)
Definition dispatch (h : Headers) (call : Call) : Op World Reply :=
  match call with
  | Health => health
  | CreateTenant slug name => create_tenant_route slug name
  | ListTenants => list_tenants_route
  | GetTenant s => get_tenant_route s
  | Announce req => core (announce_route h req)
  | Upload id b => core (upload h id b)
  | Finalize req => core (finalize_route h req)
  | CreateRule source => create_rule_route h source
  | ListRules => list_rules_route h
  | PublishBundle ids activate => core (publish_bundle_route h ids activate)
  | ListBundles => list_bundles_route h
  | CreateHunt digest => create_hunt_route h digest
  | ListHunts => list_hunts_route h
  | GetHunt id => get_hunt_route h id
  | RunHunt id sync => core (run_hunt_route h id sync)
  | Similar sha => core (similar h sha)
  | VariantsOf sha => core (variants h sha)
  | Backfill => similarity_backfill h
  | NeighborhoodOf p => core (similarity_neighborhood h p)
  | SemanticEvidence a b pairs tokens => semantic_evidence h a b pairs tokens
  | Cleanup a dry => similarity_cleanup h a dry
  | ListAnalyzers => list_analyzers_route
  | Receipts a => artifact_receipts h a
  | CreateEnrollmentToken label ttl => core (create_enrollment_token_route h label ttl)
  | Enroll token host version => enroll_route token host version
  | Heartbeat hb => core (agent_heartbeat h hb)
  | ReportGaps gaps => core (report_gaps h gaps)
  | IngestMerlin req => core (ingest_merlin_segment h req)
  | ListMerlin host limit => core (list_merlin_observations h host limit)
  | ListAgents => list_agents_route h
  | AgentStatus id => agent_status_route h id
  | CoverageGaps o limit => coverage_gaps_route h o limit
  | UpsertIndicators source l => core (upsert_indicators_route h source l)
  | HashHunt l => hash_hunt_route h l
  | DetonateArtifact sha => detonate_artifact h sha
  | SetOpinion sha o actor reason => set_opinion_route h sha o actor reason
  | GetOpinion sha => core (get_opinion h sha)
  | OpinionHistory sha => core (opinion_history_route h sha)
  | CreateTrigger name cond url secret => create_trigger_route h name cond url secret
  | ListTriggers => list_triggers_route h
  | TestTrigger id => core (test_trigger h id)
  | ListDetections => list_detections h
  | ListContinuous => list_continuous h
  | BlastRadius id sha expand => core (blast_radius_route h id sha expand)
  | ExportGraph p => core (similarity_export h p)
  | PrevalenceOf sha => core (prevalence_route h sha)
  | Search n since o limit => core (rarity_search_route h n since o limit)
  | Droppers sha n hours => dropper_hunt h sha n hours
  | Investigate sha id => core (investigate_route h sha id)
  | Metrics => platform_metrics_route h
  | OpenApi => openapi_spec
  | McpRequest req => core (mcp_endpoint h req)
  end.

(** ** The admin gate *)

Definition public_path (path : string) : bool :=
  String.eqb path "/api/v1/health" || String.eqb path "/api/v1/agents/enroll" || String.eqb path "/api/v1/artifacts/announce" ||
  String.eqb path "/api/v1/artifacts/finalize" || str_starts_with "/api/v1/artifacts/uploads/" path ||
  String.eqb path "/api/v1/agents/heartbeat" || String.eqb path "/api/v1/agents/gaps".

Definition merlin_passes (path : string) (auth : option string) : bool :=
  str_starts_with "/api/v1/integrations/merlin/" path && match (v ← auth; strip_prefix "Bearer " v) with Some tok => merlin_matches c tok | None => false end.

(** [next.run(req)] is [next]. *)
Definition admin_gate {S} (path : string) (h : Headers) (next : Op S Reply) : Op S Reply :=
  if negb (au_require_admin c) then next
  else if public_path path then next
  else if merlin_passes path (authorization h) then next
  else lift_outcome (check_admin c (authorization h)) ;; next.

Definition serve (segs : list string) (h : Headers) (call : Call) : Op World Reply := admin_gate (path_text segs) h (dispatch h call).

(** ** Spawned detonations *)

(** The error of a spawned detonation is only logged. *)
Definition run_task : Op World unit := fun w =>
  match wd_tasks w with
  | [] => (Ret tt, w)
  | t :: rest =>
      (_ ← attempt (outside (detonate (DP := cape (tk_provider t)) (tk_tenant t) (tk_artifact t) (tk_sha t) (tk_bytes t) (tk_cfg t) (tk_actor t)));
       mret tt) (mkWorld (wd_srv w) (wd_net w) rest)
  end.

(** ** The agents' listener *)

(** The subject common names of a certificate, or why it does not parse
    (x509-parser); a name that is no text is [None]. *)
Class X509 : Type := common_names : bytes -> string + list (option string).

Definition agent_id_from_cert_der `{X509} (der : bytes) : outcome Uuid :=
  match common_names der with
  | inl e => Fail (Unauthorized ("peer cert parse: " +:+ e))
  | inr names => or_fail (Unauthorized "peer cert has no agent UUID CN") (head (omap (fun cn => s ← cn; uuid_parse s) names))
  end.

(** The certificate of the connection, if any. *)
Definition peer_identity `{X509} (peer : option bytes) : Op Srv AgentIdentity :=
  der ← or_throw (Unauthorized "client certificate required") peer;
  agent_id ← lift_outcome (agent_id_from_cert_der der);
  authenticate_cert agent_id.

Inductive AgentCall : Type :=
  | AHeartbeat (hb : HeartbeatRequest)
  | AGaps (gaps : list GapEvent)
  | ARenew
  | AAnnounce (req : AnnounceRequest)
  | AUpload (upload_id : Uuid) (body : bytes)
  | AFinalize (req : FinalizeRequest).

Definition agent_heartbeat_mtls (ident : AgentIdentity) (hb : HeartbeatRequest) : Op Srv Reply := Access.heartbeat ident hb ;; mret NoContent.

Definition report_gaps_mtls (ident : AgentIdentity) (gaps : list GapEvent) : Op Srv Reply := record_gaps ident gaps ;; mret NoContent.

Definition renew_cert_mtls (ident : AgentIdentity) : Op Srv Reply :=
  r ← lift_outcome (renew_cert ca (id_agent_id ident));
  let '(cert, key, ca_cert) := r in mret (RRenew cert key ca_cert).

Definition announce_mtls (ident : AgentIdentity) (req : AnnounceRequest) : Op Srv Reply :=
  r ← Ingest.announce (id_tenant_id ident)
    (mkAnnounceRequest (an_sha256 req) (an_size_bytes req) (apply_agent_identity ident (an_occurrence req)));
  mret (RAnnounce r).

Definition upload_mtls (ident : AgentIdentity) (upload_id : Uuid) (body : bytes) : Op Srv Reply :=
  stage_upload (id_tenant_id ident) upload_id body ;;
  mret NoContent.

Definition finalize_mtls (ident : AgentIdentity) (req : FinalizeRequest) : Op Srv Reply :=
  r ← Ingest.finalize (id_tenant_id ident)
    (mkFinalizeRequest (fq_upload_id req) (fq_sha256 req) (fq_size_bytes req) (apply_agent_identity ident (fq_occurrence req)) (fq_scope req)
      (fq_provenance req));
  mret (RFinalize r).

Definition serve_agent `{X509} (peer : option bytes) (call : AgentCall) : Op Srv Reply :=
  ident ← peer_identity peer;
  match call with
  | AHeartbeat hb => agent_heartbeat_mtls ident hb
  | AGaps gaps => report_gaps_mtls ident gaps
  | ARenew => renew_cert_mtls ident
  | AAnnounce req => announce_mtls ident req
  | AUpload id b => upload_mtls ident id b
  | AFinalize req => finalize_mtls ident req
  end.
End handlers.

(** ** The gate and the routing table *)

Lemma slash_eqb c : negb (Ascii.eqb c "/") = true -> Ascii.eqb c "/" = false.
Proof. by destruct (Ascii.eqb c "/"). Qed.

Lemma no_slash_cons c s : no_slash (String c s) = true <-> Ascii.eqb c "/" = false /\ no_slash s = true.
Proof. unfold no_slash. cbn [str_all]. rewrite andb_true_iff, negb_true_iff. done. Qed.

Lemma no_slash_join w p rest : no_slash w = true -> String.eqb w (p +:+ String "/" rest) = false.
Proof.
  revert p. induction w as [|x w IH]; intros p Hw; [by destruct p|]. apply no_slash_cons in Hw as [Hx Hw].
  destruct p as [|y p]; cbn [String.append String.eqb]; [by rewrite Hx|]. destruct (Ascii.eqb x y); [|done]. by apply IH.
Qed.

(** A slash ends the first segment. *)
Lemma starts_with_segment w p rest :
  no_slash w = true -> no_slash p = true -> str_starts_with (w +:+ "/") (p +:+ String "/" rest) = true -> p = w.
Proof.
  revert p. induction w as [|x w IH]; intros p Hw Hp.
  - destruct p as [|y p]; [done|]. apply no_slash_cons in Hp as [Hp _]. cbn [String.append str_starts_with].
    rewrite Ascii.eqb_sym, Hp. done.
  - apply no_slash_cons in Hw as [Hx Hw]. destruct p as [|y p]; cbn [String.append str_starts_with]; [by rewrite Hx|].
    apply no_slash_cons in Hp as [_ Hp]. intros [H1%Ascii.eqb_eq H2]%andb_true_iff. subst y. f_equal. by apply IH.
Qed.

(** The calls the gate lets through unauthenticated. *)
Definition public_call (call : Call) : bool :=
  match call with
  | Health | Enroll _ _ _ | Announce _ | Finalize _ | Upload _ _ | Heartbeat _ | ReportGaps _ => true
  | _ => false
  end.

Ltac path_step :=
  match goal with
  | H : path_matches _ ?segs = true |- _ => is_var segs; destruct segs as [|? segs]; cbn [path_matches] in H
  | H : match ?segs with [] => _ | _ :: _ => _ end = true |- _ => is_var segs; destruct segs as [|? segs]; cbn beta iota in H
  | H : false = true |- _ => discriminate H
  | H : (_ && _) = true |- _ => apply andb_true_iff in H as [? H]
  | H : String.eqb _ _ = true |- _ => apply String.eqb_eq in H; subst
  end.

Section gate.
  Context {UP : UuidParse} {PD : PathDecode}.

Lemma public_artifact_path p x rest :
  no_slash p = true -> public_path (path_text ("api" :: "v1" :: "artifacts" :: p :: x :: rest)%string) = true -> p = "uploads"%string.
Proof.
  intros Hp H. assert (E : exists tl, path_text ("api" :: "v1" :: "artifacts" :: p :: x :: rest)%string = "/api/v1/artifacts/" +:+ (p +:+ String "/" tl)).
  { unfold path_text. destruct rest; cbn [map String.concat String.append]; eexists; reflexivity. }
  destruct E as [tl E]. rewrite E in H. clear E. unfold public_path in H.
  change (str_starts_with "/api/v1/artifacts/uploads/" ("/api/v1/artifacts/" +:+ (p +:+ String "/" tl))) with
    (str_starts_with ("uploads" +:+ "/") (p +:+ String "/" tl)) in H.
  repeat match type of H with context [String.eqb ("/api/v1/artifacts/" +:+ ?r) ?w] => first
    [ change (String.eqb ("/api/v1/artifacts/" +:+ r) w) with false in H
    | change (String.eqb ("/api/v1/artifacts/" +:+ r) w) with (String.eqb r "announce") in H; rewrite String.eqb_sym, (no_slash_join "announce") in H by reflexivity
    | change (String.eqb ("/api/v1/artifacts/" +:+ r) w) with (String.eqb r "finalize") in H; rewrite String.eqb_sym, (no_slash_join "finalize") in H by reflexivity ] end.
  cbn [orb] in H. rewrite !orb_false_r in H. by apply (starts_with_segment "uploads" p tl).
Qed.

Lemma public_agent_path p : public_path (path_text ["api"; "v1"; "agents"; p]%string) = true -> In p ["enroll"; "heartbeat"; "gaps"]%string.
Proof.
  change (path_text ["api"; "v1"; "agents"; p]%string) with ("/api/v1/agents/" +:+ p). unfold public_path.
  repeat match goal with |- context [String.eqb ("/api/v1/agents/" +:+ ?r) ?w] => first
    [ change (String.eqb ("/api/v1/agents/" +:+ r) w) with false
    | change (String.eqb ("/api/v1/agents/" +:+ r) w) with (String.eqb r "enroll")
    | change (String.eqb ("/api/v1/agents/" +:+ r) w) with (String.eqb r "heartbeat")
    | change (String.eqb ("/api/v1/agents/" +:+ r) w) with (String.eqb r "gaps") ] end.
  change (str_starts_with "/api/v1/artifacts/uploads/" ("/api/v1/agents/" +:+ p)) with false.
  cbn [orb].
  rewrite !orb_false_r, !orb_true_iff, !String.eqb_eq. intros [[-> | ->] | ->]; cbn; tauto.
Qed.

(** A route that goes first and matches is the one dispatched. *)
Lemma routed_not segs call p : routed segs call -> In p routes -> path_matches p segs = true -> more_specific p (pattern call) = true -> False.
Proof. intros [_ _ Hf _] Hin Hm Hs. rewrite (Hf p Hin Hm) in Hs. discriminate Hs. Qed.

(** Past the gate unauthenticated: a public call, or the history of the opinions
    on an artifact called "uploads". *)
Lemma public_routes segs call : routed segs call -> public_path (path_text segs) = true ->
  public_call call = true \/ exists sha, call = OpinionHistory sha /\ path_decode "uploads" = Some sha.
Proof.
  intros Hr Hpub. pose proof Hr as [Hm Ha _ Hp]. destruct call; try (by left); right; unfold pattern, api in Hm; repeat path_step;
    try (vm_compute in Hpub; discriminate Hpub).
  all: lazymatch type of Hr with
    | routed ["api"; "v1"; "agents"; ?p]%string _ =>
        exfalso; apply public_agent_path in Hpub; destruct Hpub as [<-|[<-|[<-|[]]]];
        [ eapply (routed_not _ _ (api [Lit "agents"; Lit "enroll"]%string) Hr)
        | eapply (routed_not _ _ (api [Lit "agents"; Lit "heartbeat"]%string) Hr)
        | eapply (routed_not _ _ (api [Lit "agents"; Lit "gaps"]%string) Hr) ]; solve [reflexivity|cbn; tauto]
    | routed ("api" :: "v1" :: "artifacts" :: ?p :: ?x :: ?r)%string _ =>
        assert (p = "uploads"%string) as -> by (apply (public_artifact_path p x r); [by apply (Forall_inv (Forall_inv_tail (Forall_inv_tail (Forall_inv_tail Hp))))|done])
    end.
  all: try (exfalso; eapply (routed_not _ _ (api [Lit "artifacts"; Lit "uploads"; Par]%string) Hr); solve [reflexivity|cbn; tauto]).
  inversion Ha as [|? ? ? ? Harg]; subst. by eexists.
Qed.
End gate.

Section closed.
  Context {YX : YaraX} {SH : ScannerHost} {SHA : Sha256} {HEX : HexCodec} {UD : UuidDisplay} {UP : UuidParse} {GOB : Goblin} {LOG : Log2}
          {DEC : X86Decoder} {HO : HashOrder} {JT : JsonText} {CH : Chrono} {ST : StatusText}
          {CT : ChronoText} {TJ : TimeJson} {JP : JsonPretty} {PD : PathDecode}.
  Context (env : Env) (c : AuthConfig) (ca : DeploymentCa).

(** [refuses m]: an error, and nothing changed. *)
Definition refuses {S A} (m : Op S A) (s : S) : Prop := exists e, m s = (Fail e, s).

(** [reads m]: nothing changes, and nothing panics. *)
Definition reads {S A} (m : Op S A) : Prop := forall s, snd (m s) = s /\ fst (m s) <> Panic.

Lemma reads_bind {S A B} (m : Op S A) (f : A -> Op S B) : reads m -> (forall a, reads (f a)) -> reads (m ≫= f).
Proof.
  intros Hm Hf s. destruct (Hm s) as [H1 H2]. unfold mbind, op_mbind. destruct (m s) as [[a|e|] s1]; cbn in *; subst; [apply Hf|done|done].
Qed.

Lemma reads_gets {S A} (f : S -> A) : reads (gets f).
Proof. by intros s. Qed.

Lemma reads_or_throw {S A} e (o : option A) : reads (or_throw e o : Op S A).
Proof. intros s. by destruct o. Qed.

Lemma reads_get_tenant id : reads (get_tenant id).
Proof. apply reads_bind; [apply reads_gets|]. intros. apply reads_or_throw. Qed.

Lemma reads_resolve_tenant h : reads (resolve_tenant h).
Proof.
  assert (Hr : forall raw, reads (resolve_active_tenant raw)).
  { intros raw. apply reads_bind; [|intros t; by destruct (negb _)]. destruct raw as [raw|]; [|apply reads_get_tenant].
    destruct (String.eqb raw ""); [apply reads_get_tenant|]. cbv zeta. destruct (uuid_parse _); [apply reads_get_tenant|].
    apply reads_bind; [apply reads_gets|]. intros. apply reads_or_throw. }
  unfold resolve_tenant. destruct (hd_tenant h); [|done]. apply reads_bind; [apply reads_or_throw|done].
Qed.

Lemma refuses_bind {S A B} (m : Op S A) (f : A -> Op S B) s : refuses m s -> refuses (m ≫= f) s.
Proof. intros [e He]. exists e. unfold mbind, op_mbind. by rewrite He. Qed.

Lemma refuses_reads {S A B} (m : Op S A) (f : A -> Op S B) s : reads m -> (forall a, refuses (f a) s) -> refuses (m ≫= f) s.
Proof.
  intros Hm Hf. destruct (Hm s) as [H1 H2]. unfold refuses, mbind, op_mbind. destruct (m s) as [[a|e|] s1]; cbn in *; subst; [apply Hf|by exists e|done].
Qed.

Lemma refuses_core {A} (m : Op Srv A) w : refuses m (wd_srv w) -> refuses (core m) w.
Proof. intros [e He]. exists e. unfold core. rewrite He. by destruct w. Qed.

(** No credential: no token of the admin's or the bridge's, no agent's. *)
Record stranger (h : Headers) (s : Srv) : Prop := {
  sg_admin : forall tok, bearer h = Some tok -> admin_matches c tok = false;
  sg_merlin : forall tok, bearer h = Some tok -> merlin_matches c tok = false;
  sg_agent : forall tok r, legacy_bearer env = true -> bearer h = Some tok -> In r (rows TAgent s) -> ag_token_sha256 r <> hash_token tok }.

Lemma stranger_authenticate h s tok : stranger h s -> bearer h = Some tok -> refuses (authenticate (legacy_bearer env) tok) s.
Proof.
  intros [_ _ Hs] Hb. unfold authenticate. destruct (legacy_bearer env) eqn:El; cbn [negb]; [|by eexists]. eexists.
  unfold select_optional, gets, mbind, op_mbind. destruct (head _) as [r|] eqn:Eh; [|reflexivity]. exfalso.
  apply head_filter_in in Eh as [Hin Hr%bool_decide_eq_true]. by eapply Hs.
Qed.

Lemma stranger_bearer h s e : stranger h s -> refuses (tok ← or_throw e (bearer h); authenticate (legacy_bearer env) tok) s.
Proof. intros Hs. destruct (bearer h) as [tok|] eqn:Eb; cbn [or_throw]; [|by eexists]. by apply (stranger_authenticate h). Qed.

Lemma stranger_ingest h s : stranger h s -> au_allow_dev_ingest c = false -> refuses (ingest_auth env c h) s.
Proof.
  intros Hs Hd. unfold ingest_auth. rewrite Hd. cbn [negb]. destruct (is_set _); [|by eexists].
  destruct (bearer h) as [tok|] eqn:Eb; [|by eexists].
  assert (E : (tok ← or_throw (Unauthorized "malformed authorization header") (Some tok);
    if admin_matches c tok then t ← resolve_tenant h; mret (DevAuth t) else ident ← authenticate (legacy_bearer env) tok; mret (AgentAuth ident)) s =
    (if admin_matches c tok then t ← resolve_tenant h; mret (DevAuth t) else ident ← authenticate (legacy_bearer env) tok; mret (AgentAuth ident)) s)
    by reflexivity.
  unfold refuses. rewrite E. rewrite (sg_admin _ _ Hs tok Eb). apply refuses_bind. by apply (stranger_authenticate h).
Qed.

Lemma strip_bearer h : (v ← authorization h; strip_prefix "Bearer " v) = bearer h.
Proof. done. Qed.

Lemma stranger_gate h s S (next : Op S Reply) (w : S) path :
  stranger h s -> au_require_admin c = true -> public_path path = false -> refuses (admin_gate c path h next) w.
Proof.
  intros Hs Hreq Hp. unfold admin_gate. rewrite Hreq, Hp. cbn [negb]. unfold merlin_passes. rewrite strip_bearer.
  unfold check_admin. rewrite Hreq. cbn [negb]. change (bearer_from_authorization (authorization h)) with (bearer h).
  destruct (bearer h) as [tok|] eqn:Eb; [|rewrite andb_false_r; by eexists].
  rewrite (sg_merlin _ _ Hs tok Eb), (sg_admin _ _ Hs tok Eb), andb_false_r. by eexists.
Qed.

Definition unchanged_rows (s s' : Srv) : Prop := forall t, rows t s' = rows t s.

Lemma public_anyway h next (w : World) path : public_path path = true -> admin_gate c path h next w = next w.
Proof. intros Hp. unfold admin_gate. rewrite Hp. by destruct (negb _). Qed.

(** A public route without parameters has one path. *)
Ltac public_tac Hr := pose proof Hr as [Hm _ _ _]; unfold pattern, api in Hm; repeat path_step; reflexivity.

(** Whatever a request without a credential asks for. *)
Lemma stranger_refused segs h call w :
  au_require_admin c = true -> stranger h (wd_srv w) -> routed segs call ->
  path_decode "uploads" = Some "uploads"%string -> hex_decode "uploads" = None ->
  match call with
  | Health => serve env c ca segs h call w = (Ret RHealth, w)
  | Enroll token _ _ => (forall k, In k (rows TToken (wd_srv w)) -> et_token_sha256 k <> hash_token token) ->
      (exists e, fst (serve env c ca segs h call w) = Fail e) /\ unchanged_rows (wd_srv w) (wd_srv (snd (serve env c ca segs h call w)))
  | ReportGaps _ => is_set (hd_authorization h) = true -> refuses (serve env c ca segs h call) w
  | Announce _ | Upload _ _ | Finalize _ => au_allow_dev_ingest c = false -> refuses (serve env c ca segs h call) w
  | _ => refuses (serve env c ca segs h call) w
  end.
Proof.
  intros Hreq Hs Hr Hdec Hhex.
  assert (Hpub : public_call call = false -> refuses (serve env c ca segs h call) w).
  { intros Hcall. unfold serve. destruct (public_path (path_text segs)) eqn:Ep; [|by apply (stranger_gate h (wd_srv w))].
    destruct (public_routes segs call Hr Ep) as [Hc|(sha & -> & Hsha)]; [congruence|]. rewrite Hdec in Hsha. injection Hsha as <-.
    unfold admin_gate. rewrite Hreq, Ep. cbn [negb dispatch]. apply refuses_core. apply refuses_reads; [apply reads_resolve_tenant|].
    intros t. apply refuses_bind. unfold artifact_id_for, artifact_for_sha, hex_to_raw. rewrite Hhex. by eexists. }
  assert (Hany : forall m : Op Srv Reply, dispatch env c ca h call = core m -> refuses m (wd_srv w) -> refuses (serve env c ca segs h call) w).
  { intros m Em Hm. unfold serve. destruct (public_path (path_text segs)) eqn:Ep; [|by apply (stranger_gate h (wd_srv w))].
    unfold admin_gate. rewrite Hreq, Ep, Em. by apply refuses_core. }
  destruct call; try (by apply Hpub).
  - assert (Hp : public_path (path_text segs) = true) by public_tac Hr. unfold serve. by rewrite (public_anyway _ _ _ _ Hp).
  - intros Hdev. eapply Hany; [reflexivity|]. apply refuses_bind. by apply stranger_ingest.
  - intros Hdev. eapply Hany; [reflexivity|]. apply refuses_bind. by apply stranger_ingest.
  - intros Hdev. eapply Hany; [reflexivity|]. apply refuses_bind. by apply stranger_ingest.
  - intros Hk. assert (Hp : public_path (path_text segs) = true) by public_tac Hr. unfold serve. rewrite (public_anyway _ _ _ _ Hp).
    cbn [dispatch]. unfold enroll_route, core. destruct (enroll_refused ca token host_name agent_version (wd_srv w) Hk) as (s' & E & Hrows).
    unfold mbind, op_mbind. rewrite E. cbn. split; [by eexists|exact Hrows].
  - eapply Hany; [reflexivity|]. unfold agent_heartbeat. unfold refuses. rewrite <- bind_assoc_run. apply refuses_bind. by apply stranger_bearer.
  - intros Hauth. eapply Hany; [reflexivity|]. unfold report_gaps. rewrite Hauth. unfold refuses. rewrite <- bind_assoc_run.
    apply refuses_bind. by apply stranger_bearer.
Qed.

(** C6. With admin authentication on, a stranger changes nothing but what is open to
    all.  A request without the admin's token, the bridge's or an agent's is
    refused and leaves the server as it was, on every route but: the health check,
    which answers; enrollment, which fails and changes no row unless its body holds a
    token that was issued; the gap report of a request without an authorization
    header; and, where CORPUS_ALLOW_DEV_INGEST is set, announcing, uploading and
    finalizing.  The prefix the gate exempts for uploads reaches one other
    route, the history of an artifact named "uploads", which answers an error: a
    path segment "uploads" decodes to itself, and it is no hexadecimal. *)
Theorem strangers_refused segs h call w :
  au_require_admin c = true -> stranger h (wd_srv w) -> routed segs call ->
  path_decode "uploads" = Some "uploads"%string -> hex_decode "uploads" = None ->
  match call with
  | Health => serve env c ca segs h call w = (Ret RHealth, w)
  | Enroll token _ _ => (forall k, In k (rows TToken (wd_srv w)) -> et_token_sha256 k <> hash_token token) ->
      (exists e, fst (serve env c ca segs h call w) = Fail e) /\ unchanged_rows (wd_srv w) (wd_srv (snd (serve env c ca segs h call w)))
  | ReportGaps _ => is_set (hd_authorization h) = true -> refuses (serve env c ca segs h call) w
  | Announce _ | Upload _ _ | Finalize _ => au_allow_dev_ingest c = false -> refuses (serve env c ca segs h call) w
  | _ => refuses (serve env c ca segs h call) w
  end.
Proof. apply stranger_refused. Qed.

(** The gap report asks for no credential.  Whatever the configuration, a
    report without an authorization header is recorded, under the tenant its own
    header names and the host its own body names. *)
Theorem gaps_need_no_credential segs gaps tenant raw w :
  routed segs (ReportGaps gaps) -> fst (resolve_active_tenant (Some raw) (wd_srv w)) = Ret tenant ->
  let run := serve env c ca segs (mkHeaders None (Some (Visible raw))) (ReportGaps gaps) w in
  let recorded := record_gaps_dev tenant gaps (wd_srv w) in
  wd_srv (snd run) = snd recorded /\ (is_ret (fst run) = is_ret (fst recorded)).
Proof.
  intros [Hm _ _ _] Ht run recorded.
  assert (Hp : public_path (path_text segs) = true) by (unfold pattern, api in Hm; repeat path_step; reflexivity).
  assert (E : run = dispatch env c ca (mkHeaders None (Some (Visible raw))) (ReportGaps gaps) w)
    by (subst run; unfold serve, admin_gate; rewrite Hp; by destruct (au_require_admin c)).
  rewrite E. unfold dispatch, core, report_gaps. cbn [hd_authorization is_set]. unfold mbind, op_mbind.
  destruct (reads_resolve_tenant (mkHeaders None (Some (Visible raw))) (wd_srv w)) as [Hs _].
  change (resolve_tenant (mkHeaders None (Some (Visible raw)))) with (resolve_active_tenant (Some raw)) in *.
  destruct (resolve_active_tenant (Some raw) (wd_srv w)) as [o s]. cbn [fst snd] in *. subst o s.
  fold recorded. destruct recorded as [[n|e|] s]; by split.
Qed.

(** With admin authentication on, the MCP endpoint answers nobody.  Its path
    is not exempt from the gate, and both read the one authorization header: a
    token is refused by the one or by the other unless the two tokens are equal. *)
Theorem mcp_unreachable segs h req w admin :
  au_require_admin c = true -> au_admin_token c = Some admin -> admin <> au_mcp_token c -> routed segs (McpRequest req) ->
  exists m, serve env c ca segs h (McpRequest req) w = (Fail (Unauthorized m), w).
Proof.
  intros Hreq Hadm Hne [Hm _ _ _]. unfold pattern in Hm. repeat path_step. clear Hm.
  unfold serve, admin_gate. rewrite Hreq. cbn [negb]. change (path_text ["mcp"]%string) with "/mcp"%string.
  change (public_path "/mcp") with false. unfold merlin_passes. change (str_starts_with "/api/v1/integrations/merlin/" "/mcp") with false.
  cbn [andb]. unfold check_admin. rewrite Hreq. cbn [negb]. change (bearer_from_authorization (authorization h)) with (bearer h).
  destruct (bearer h) as [tok|] eqn:Eb; [|by eexists]. destruct (admin_matches c tok) eqn:Ea; cbn [negb]; [|by eexists].
  unfold admin_matches in Ea. rewrite Hadm in Ea. apply token_eq_spec in Ea. subst tok.
  assert (Em : mcp_matches c admin = false).
  { destruct (mcp_matches c admin) eqn:Em; [|done]. unfold mcp_matches in Em. apply token_eq_spec in Em. congruence. }
  exists "invalid MCP token"%string. destruct w as [s n l].
  change (core (mcp_endpoint c h req) (mkWorld s n l) = (Fail (Unauthorized "invalid MCP token"), mkWorld s n l)). unfold core, mcp_endpoint.
  rewrite Eb. change (default ""%string (Some admin)) with admin. rewrite Em. reflexivity.
Qed.
End closed.

(** ** One tenant's request *)

Section confined.
  Context {YX : YaraX} {SH : ScannerHost} {SHA : Sha256} {HEX : HexCodec} {UD : UuidDisplay} {UP : UuidParse} {GOB : Goblin} {LOG : Log2}
          {DEC : X86Decoder} {HO : HashOrder} {JT : JsonText} {CH : Chrono} {ST : StatusText}
          {CT : ChronoText} {TJ : TimeJson} {JP : JsonPretty}.
  Context (env : Env) (c : AuthConfig) (ca : DeploymentCa).

(** The tenant a request acts for: the agent's for an agent's credential, the
    one its header names otherwise; none for the tenants' own routes. *)
Definition acting_tenant (h : Headers) (call : Call) : Op Srv (option Uuid) :=
  match call with
  | Health | ListAnalyzers | OpenApi | CreateTenant _ _ | ListTenants | GetTenant _ | Enroll _ _ _ => mret None
  | Announce _ | Upload _ _ | Finalize _ => a ← ingest_auth env c h; mret (Some (auth_tenant a))
  | Heartbeat _ => i ← authenticate (legacy_bearer env) (default ""%string (bearer h)); mret (Some (id_tenant_id i))
  | ReportGaps _ =>
      if is_set (hd_authorization h) then i ← authenticate (legacy_bearer env) (default ""%string (bearer h)); mret (Some (id_tenant_id i))
      else t ← resolve_tenant h; mret (Some t)
  | _ => t ← resolve_tenant h; mret (Some t)
  end.

Lemma reads_authenticate legacy tok : reads (authenticate legacy tok).
Proof. unfold authenticate. destruct (negb legacy); [done|]. apply reads_bind; [apply reads_gets|]. intros o. apply reads_bind; [apply reads_or_throw|done]. Qed.

Lemma reads_ingest_auth h : reads (ingest_auth env c h).
Proof.
  unfold ingest_auth. destruct (is_set _).
  - apply reads_bind; [apply reads_or_throw|]. intros tok. destruct (admin_matches c tok); (apply reads_bind; [|done]); [apply reads_resolve_tenant|apply reads_authenticate].
  - destruct (negb _); [done|]. apply reads_bind; [apply reads_resolve_tenant|done].
Qed.

(** [confines m o]: when [o] answers a tenant, [m] changes no row of another;
    when it answers an error, [m] changes nothing. *)
Definition confines (s : Srv) (w' : World) (o : outcome (option Uuid)) : Prop :=
  match o with
  | Ret (Some t) => Homed t s -> isolated t s (wd_srv w')
  | Ret None => True
  | _ => wd_srv w' = s
  end.

Lemma core_run {A} (m : Op Srv A) w : core m w = (fst (m (wd_srv w)), mkWorld (snd (m (wd_srv w))) (wd_net w) (wd_tasks w)).
Proof. unfold core. by destruct (m (wd_srv w)). Qed.

Definition isolatedW (tenant : Uuid) (s0 : Srv) (w : World) : Prop := isolated tenant s0 (wd_srv w).

Lemma iso_core {A} tenant s0 (m : Op Srv A) : keeps (isolated tenant s0) m -> keeps (isolatedW tenant s0) (core m).
Proof. intros Hm w Hw. rewrite core_run. by apply Hm. Qed.

Lemma iso_spawn tenant s0 t : keeps (isolatedW tenant s0) (spawn t).
Proof. by intros w Hw. Qed.

(** A detonation writes the tenant's rows only. *)
Lemma iso_detonate {N} {DP : DetonationProvider N} tenant s0 artifact sha b cfg actor :
  keeps (fun p : Srv * N => isolated tenant s0 (fst p)) (detonate tenant artifact sha b cfg actor).
Proof.
  assert (Hsrv : forall A (m : Op Srv A), keeps (isolated tenant s0) m -> keeps (fun p : Srv * N => isolated tenant s0 (fst p)) (on_srv m)).
  { intros A m Hm [s n] Hs. rewrite on_srv_run. by apply Hm. }
  assert (Hnet : forall A (m : Op N A), keeps (fun p : Srv * N => isolated tenant s0 (fst p)) (on_net m)).
  { intros A m [s n] Hs. by rewrite on_net_run. }
  unfold detonate. destruct (negb _); [apply keeps_throw|]. destruct (negb _); [apply keeps_throw|].
  apply keeps_bind; [apply Hsrv; unfold audit_submit; iso_tac|intros _]. apply keeps_bind; [apply Hnet|intros job].
  apply keeps_bind; [apply Hnet|intros report]. apply keeps_bind; [apply keeps_or_throw|intros r].
  apply Hsrv. unfold record_report, insert_run, store_finding. iso_tac.
Qed.

Lemma iso_outside {A} tenant s0 (m : Op (Srv * Net) A) : keeps (fun p => isolated tenant s0 (fst p)) m -> keeps (isolatedW tenant s0) (outside m).
Proof. intros Hm w Hw. unfold outside. specialize (Hm (wd_srv w, wd_net w) Hw). by destruct (m _) as [o [s n]]. Qed.

(** A handler that reads the tenant first. *)
Lemma confines_after {A} (a : Op Srv A) (f : A -> Op World Reply) (tenant : A -> Uuid) w :
  reads a -> (forall x s0, keeps (isolatedW (tenant x) s0) (f x)) ->
  confines (wd_srv w) (snd ((x ← core a; f x) w)) (fst ((x ← a; mret (Some (tenant x))) (wd_srv w))).
Proof.
  intros Ha Hf. destruct (Ha (wd_srv w)) as [H1 H2]. unfold mbind, op_mbind. rewrite core_run.
  destruct (a (wd_srv w)) as [[x|e|] s]; cbn in *; subst s; [|done|done]. intros Hh.
  specialize (Hf x (wd_srv w) (mkWorld (wd_srv w) (wd_net w) (wd_tasks w))). by apply Hf, homed_isolated.
Qed.

Lemma core_bind {A B} (a : Op Srv A) (f : A -> Op Srv B) w : core (a ≫= f) w = (x ← core a; core (f x)) w.
Proof. unfold mbind, op_mbind. rewrite !core_run. destruct (a (wd_srv w)) as [[x|e|] s]; cbn; [by rewrite core_run|done|done]. Qed.

(** The same for a handler over the server alone. *)
Lemma confines_core {A} (a : Op Srv A) (f : A -> Op Srv Reply) (tenant : A -> Uuid) w :
  reads a -> (forall x s0, keeps (isolated (tenant x) s0) (f x)) ->
  confines (wd_srv w) (snd (core (a ≫= f) w)) (fst ((x ← a; mret (Some (tenant x))) (wd_srv w))).
Proof. intros Ha Hf. rewrite core_bind. apply confines_after; [done|]. intros x s0. apply iso_core, Hf. Qed.

Lemma confines_scoped {A} h (m : Uuid -> Op Srv A) (reply : A -> Reply) w :
  (forall t s0, keeps (isolated t s0) (m t)) ->
  confines (wd_srv w) (snd (scoped h m reply w)) (fst ((t ← resolve_tenant h; mret (Some t)) (wd_srv w))).
Proof.
  intros Hm. unfold scoped. apply (confines_core (resolve_tenant h) _ (fun t => t)); [apply reads_resolve_tenant|].
  intros t s0. apply keeps_bind; [apply Hm|]. intros. apply keeps_mret.
Qed.

Lemma confines_same s w o : wd_srv w = s -> confines s w o.
Proof. intros <-. destruct o as [[t|]|e|]; cbn; try done. by apply homed_isolated. Qed.

Lemma authenticate_known legacy tok s i : fst (authenticate legacy tok s) = Ret i -> exists r, In r (rows TAgent s) /\ i = identity_of r.
Proof.
  unfold authenticate. destruct (negb legacy); [done|]. unfold select_optional, gets, mbind, op_mbind.
  destruct (head _) as [r|] eqn:Eh; [|done]. cbn. intros [= <-]. exists r. split; [|done]. by apply head_filter_in in Eh as [Hin _].
Qed.

(** An agent's own identifier is no other tenant's. *)
Lemma agent_clear r s : In r (rows TAgent s) -> Homed (ag_tenant r) s -> clear (ag_tenant r) s (ag_id r).
Proof.
  intros Hr Hh t y Hy. eapply (hm_rows _ _ Hh TAgent t r y); [done| |done|done]. unfold foreign. cbn. by rewrite bool_decide_true.
Qed.

Lemma confines_heartbeat h hb w : confines (wd_srv w) (snd (core (agent_heartbeat env h hb) w)) (fst (acting_tenant h (Heartbeat hb) (wd_srv w))).
Proof.
  unfold agent_heartbeat, bearer_token, acting_tenant. destruct (bearer h) as [tok|]; cbn [or_throw];
    [|apply confines_same; by rewrite core_run].
  change (default ""%string (Some tok)) with tok. rewrite core_run. cbn [snd].
  destruct (reads_authenticate (legacy_bearer env) tok (wd_srv w)) as [H1 H2]. pose proof (authenticate_known (legacy_bearer env) tok (wd_srv w)) as Hk.
  assert (E : (tok ← mret tok; ident ← authenticate (legacy_bearer env) tok; Access.heartbeat ident hb ;; mret NoContent) (wd_srv w) =
    (ident ← authenticate (legacy_bearer env) tok; Access.heartbeat ident hb ;; mret NoContent) (wd_srv w)) by done.
  rewrite E. clear E. unfold mbind at 1, op_mbind at 1. unfold mbind at 2, op_mbind at 2.
  destruct (authenticate (legacy_bearer env) tok (wd_srv w)) as [[i|e|] s]; cbn in H1, H2, Hk; subst s; [|done|done].
  destruct (Hk i eq_refl) as (r & Hr & ->). cbn. intros Hh.
  apply (keeps_bind (isolated (ag_tenant r) (wd_srv w)) (Access.heartbeat (identity_of r) hb)); [apply iso_heartbeat; by apply agent_clear|intros; apply keeps_mret|].
  by apply homed_isolated.
Qed.

Lemma confines_gaps h gaps w : confines (wd_srv w) (snd (core (report_gaps env h gaps) w)) (fst (acting_tenant h (ReportGaps gaps) (wd_srv w))).
Proof.
  unfold report_gaps, acting_tenant. destruct (is_set (hd_authorization h)).
  - unfold bearer_token. destruct (bearer h) as [tok|]; cbn [or_throw]; [|apply confines_same; by rewrite core_run].
    change (default ""%string (Some tok)) with tok.
    apply (confines_core (authenticate (legacy_bearer env) tok) (fun i => record_gaps i gaps ;; mret NoContent) id_tenant_id); [apply reads_authenticate|].
    intros i s0. apply keeps_bind; [apply iso_record_gaps_scoped|intros; apply keeps_mret].
  - apply (confines_core (resolve_tenant h) (fun t => record_gaps_dev t gaps ;; mret NoContent) (fun t => t)); [apply reads_resolve_tenant|].
    intros t s0. apply keeps_bind; [apply iso_record_gaps_scoped|intros; apply keeps_mret].
Qed.

Lemma confines_merlin {A} h (m : Uuid -> Op Srv A) (reply : A -> Reply) w :
  (forall t s0, keeps (isolated t s0) (m t)) ->
  confines (wd_srv w) (snd (core (lift_outcome (check_merlin_ingest c (authorization h)) ;; t ← resolve_tenant h; r ← m t; mret (reply r)) w))
    (fst ((t ← resolve_tenant h; mret (Some t)) (wd_srv w))).
Proof.
  intros Hm. destruct (check_merlin_ingest c (authorization h)) as [[]|e|]; [|by apply confines_same; rewrite core_run..].
  apply (confines_core (resolve_tenant h) _ (fun t => t)); [apply reads_resolve_tenant|].
  intros t s0. apply keeps_bind; [apply Hm|]. intros. apply keeps_mret.
Qed.

Lemma confines_ingest {A} h (m : IngestAuth -> Op Srv A) (reply : A -> Reply) w :
  (forall a s0, keeps (isolated (auth_tenant a) s0) (m a)) ->
  confines (wd_srv w) (snd (core (a ← ingest_auth env c h; r ← m a; mret (reply r)) w))
    (fst ((a ← ingest_auth env c h; mret (Some (auth_tenant a))) (wd_srv w))).
Proof.
  intros Hm. apply (confines_core (ingest_auth env c h) _ auth_tenant); [apply reads_ingest_auth|].
  intros t s0. apply keeps_bind; [apply Hm|]. intros. apply keeps_mret.
Qed.

Lemma iso_auto_submit tenant s0 t a sha o : keeps (isolatedW tenant s0) (auto_submit env t a sha o).
Proof.
  unfold auto_submit. destruct (_ && _); [|apply keeps_mret]. cbv zeta. destruct (dc_enabled _); [|apply keeps_mret].
  destruct (dc_cape_url _); [|apply keeps_mret]. apply keeps_bind; [apply iso_core; intros ? Hsel; exact Hsel|intros [x|]]; [|apply keeps_mret].
  apply keeps_bind; [apply keeps_attempt, iso_core, iso_cas|intros [e|b]]; [apply keeps_mret|apply iso_spawn].
Qed.

Lemma iso_detonate_artifact tenant s0 sha :
  keeps (isolatedW tenant s0)
    (raw ← or_throw (BadRequest "invalid sha256 hex") (hex_to_raw sha);
     row ← core (select_optional TArtifact (committed_artifact tenant (fun a => bool_decide (art_sha256 a = raw))));
     a ← or_throw (artifact_not_found sha) row;
     b ← core (with_cas (read (art_object_key a)));
     let cfg := Detonate.from_env env in
     lift_outcome (Detonate.validate env cfg) ;;
     if negb (dc_enabled cfg) then throw (BadRequest "detonation disabled; set CORPUS_DETONATION_ENABLED=1")
     else
       url ← or_throw not_configured (dc_cape_url cfg);
       r ← outside (detonate (DP := cape (new url (dc_cape_token cfg))) tenant (art_id a) sha b cfg "corpusctl");
       mret (RDetonation r)).
Proof.
  apply keeps_bind; [apply keeps_or_throw|intros raw]. apply keeps_bind; [apply iso_core; intros ? Hsel; exact Hsel|intros row].
  apply keeps_bind; [apply keeps_or_throw|intros a]. apply keeps_bind; [apply iso_core, iso_cas|intros b]. cbv zeta.
  apply keeps_bind; [apply keeps_lift|intros _]. destruct (negb _); [apply keeps_throw|]. apply keeps_bind; [apply keeps_or_throw|intros url].
  apply keeps_bind; [apply iso_outside, iso_detonate|intros; apply keeps_mret].
Qed.
(** The queries behind the reading routes. *)
Ltac query_tac := unfold Rules.list_rules, Rules.list_bundles, Hunts.list_hunts, function_pair_evidence, load_functions, receipts_for_artifact,
  Access.list_agents, Access.agent_status, Access.coverage_gaps, Intel.hash_hunt, list_triggers, detections_recent, list_recent,
  Merlin.list_observations, similar_view, variants_view, edges_for, group_members, group_of, op_concat, query, resolve_seed, artifact_id_for,
  artifact_for_sha, current_opinion, Triggers.opinion_history; iso_tac.

Ltac scoped_tac lem :=
  unfold create_rule_route, list_rules_route, list_bundles_route, create_hunt_route, list_hunts_route, get_hunt_route, similarity_backfill,
    semantic_evidence, similarity_cleanup, artifact_receipts, list_agents_route, agent_status_route, coverage_gaps_route, hash_hunt_route,
    create_trigger_route, list_triggers_route, list_detections, list_continuous;
  apply confines_scoped; intros; first [apply lem | solve [query_tac]].

Lemma confines_bundle h ids activate w :
  confines (wd_srv w) (snd (core (publish_bundle_route env h ids activate) w)) (fst ((t ← resolve_tenant h; mret (Some t)) (wd_srv w))).
Proof.
  apply (confines_core (resolve_tenant h) _ (fun t => t)); [apply reads_resolve_tenant|]. intros t s0.
  apply keeps_bind; [apply iso_publish_bundle|intros b]. apply keeps_bind; [|intros; apply keeps_mret].
  destruct activate; [apply iso_on_bundle_activated|apply keeps_mret].
Qed.

Lemma confines_run_hunt h id sync w :
  confines (wd_srv w) (snd (core (run_hunt_route env h id sync) w)) (fst ((t ← resolve_tenant h; mret (Some t)) (wd_srv w))).
Proof.
  apply (confines_core (resolve_tenant h) _ (fun t => t)); [apply reads_resolve_tenant|]. intros t s0.
  apply keeps_bind; [|intros; apply keeps_mret]. destruct (sync_requested _ _); [apply iso_run_hunt|apply iso_enqueue_hunt].
Qed.

Lemma confines_indicators h source l w :
  confines (wd_srv w) (snd (core (upsert_indicators_route env h source l) w)) (fst ((t ← resolve_tenant h; mret (Some t)) (wd_srv w))).
Proof.
  apply (confines_core (resolve_tenant h) _ (fun t => t)); [apply reads_resolve_tenant|]. intros t s0. cbv zeta.
  apply keeps_bind; [apply iso_upsert_indicators|intros n]. apply keeps_bind; [apply iso_on_hash_indicators|intros; apply keeps_mret].
Qed.

(** The handlers that query under the tenant and answer. *)
Lemma confines_query h (m : Uuid -> Op Srv Reply) w :
  (forall t s0, keeps (isolated t s0) (m t)) ->
  confines (wd_srv w) (snd (core (t ← resolve_tenant h; m t) w)) (fst ((t ← resolve_tenant h; mret (Some t)) (wd_srv w))).
Proof. intros Hm. by apply (confines_core (resolve_tenant h) m (fun t => t)); [apply reads_resolve_tenant|]. Qed.

Lemma confines_opinion h sha o actor reason w :
  confines (wd_srv w) (snd (set_opinion_route env h sha o actor reason w)) (fst ((t ← resolve_tenant h; mret (Some t)) (wd_srv w))).
Proof.
  unfold set_opinion_route.
  apply (confines_after (resolve_tenant h) _ (fun t => t)); [apply reads_resolve_tenant|]. intros t s0.
  apply keeps_bind; [apply iso_core; query_tac|intros id]. apply keeps_bind; [apply iso_core, iso_set_opinion|intros _].
  apply keeps_bind; [apply iso_auto_submit|intros _]. apply keeps_bind; [apply iso_core; query_tac|intros cur].
  apply keeps_bind; [apply keeps_or_throw|intros; apply keeps_mret].
Qed.

Lemma confines_detonation h sha w :
  confines (wd_srv w) (snd (detonate_artifact env h sha w)) (fst ((t ← resolve_tenant h; mret (Some t)) (wd_srv w))).
Proof.
  unfold detonate_artifact. apply (confines_after (resolve_tenant h) _ (fun t => t)); [apply reads_resolve_tenant|]. intros t s0. apply iso_detonate_artifact.
Qed.

Lemma untouched_isolated t s0 s s' : untouched s s' -> isolated t s0 s -> isolated t s0 s'.
Proof.
  intros (Hdb & _ & _ & Hu & Hn & _) [H1 H2 H3].
  assert (Hr : forall tb, rows tb s' = rows tb s) by (intros tb; unfold rows; by rewrite Hdb). split.
  - intros tb. unfold others at 2. rewrite Hr. apply H1.
  - intros tb x id. rewrite Hr. apply H2.
  - intros n. rewrite Hu, Hn. apply H3.
Qed.

(** What only reads changes no tenant's rows. *)
Lemma iso_reading {A} t s0 (m : Op Srv A) : (forall s, keeps (untouched s) m) -> keeps (isolated t s0) m.
Proof. intros Hm s Hs. apply (untouched_isolated t s0 s); [by apply Hm|done]. Qed.

Lemma reading_thirty_days s0 : keeps (untouched s0) thirty_days_ago.
Proof. unfold thirty_days_ago. reading_tac. Qed.
#[local] Hint Resolve reading_thirty_days reading_prevalence reading_artifact_for_sha reading_rarity reading_parse_since reading_droppers reading_by_hunt
  reading_by_sha256 reading_investigate_sha256 reading_investigate_hunt reading_metrics reading_export_neighborhood reading_export_group
  reading_mcp_handle : reading.

Ltac report_tac := apply iso_reading; intros; unfold artifact_id_for; reading_tac.

Lemma confines_mcp h req w : confines (wd_srv w) (snd (core (mcp_endpoint c h req) w)) (fst ((t ← resolve_tenant h; mret (Some t)) (wd_srv w))).
Proof.
  unfold mcp_endpoint. destruct (negb _); [apply confines_same; by rewrite core_run|]. apply confines_query. intros. report_tac.
Qed.

Lemma dispatch_confines h call w : confines (wd_srv w) (snd (dispatch env c ca h call w)) (fst (acting_tenant h call (wd_srv w))).
Proof.
  destruct call; unfold dispatch, acting_tenant; try exact I.
  - unfold announce_route. apply confines_ingest. intros a s0. apply iso_announce.
  - unfold upload. apply (confines_ingest h (fun a => stage_upload (auth_tenant a) upload_id body) (fun _ => NoContent)). intros a s0. apply iso_stage_upload.
  - unfold finalize_route. apply confines_ingest. intros a s0. apply iso_finalize.
  - scoped_tac iso_create_rule.
  - scoped_tac iso_create_rule.
  - apply confines_bundle.
  - scoped_tac iso_create_rule.
  - scoped_tac iso_create_hunt.
  - scoped_tac iso_create_hunt.
  - scoped_tac iso_get_hunt.
  - apply confines_run_hunt.
  - apply confines_query. intros. query_tac.
  - apply confines_query. intros. query_tac.
  - scoped_tac iso_backfill.
  - apply confines_query. intros. query_tac.
  - scoped_tac iso_backfill.
  - scoped_tac iso_cleanup_artifact.
  - scoped_tac iso_backfill.
  - apply confines_query. intros. apply keeps_bind; [apply iso_create_enrollment_token|intros; apply keeps_mret].
  - apply confines_heartbeat.
  - apply confines_gaps.
  - apply confines_merlin. intros. apply iso_ingest_segment.
  - apply confines_merlin. intros. query_tac.
  - scoped_tac iso_backfill.
  - scoped_tac iso_backfill.
  - scoped_tac iso_backfill.
  - apply confines_indicators.
  - scoped_tac iso_backfill.
  - apply confines_detonation.
  - apply confines_opinion.
  - apply confines_query. intros. query_tac.
  - apply confines_query. intros. query_tac.
  - scoped_tac iso_create_trigger.
  - scoped_tac iso_backfill.
  - apply confines_query. intros. apply keeps_bind; [apply keeps_gets|intros r]. apply keeps_bind; [apply keeps_or_throw|intros x].
    apply keeps_bind; [apply iso_fire|intros; apply keeps_mret].
  - scoped_tac iso_backfill.
  - scoped_tac iso_backfill.
  - apply confines_query. intros. report_tac.
  - apply confines_query. intros. destruct p. report_tac.
  - apply confines_query. intros. report_tac.
  - apply confines_query. intros. report_tac.
  - apply confines_scoped. intros. report_tac.
  - apply confines_query. intros. report_tac.
  - apply confines_scoped. intros. report_tac.
  - apply confines_mcp.
Qed.

(** What a request that acts for no tenant does: it changes nothing, but for the
    creation of a tenant, which adds one row under an identifier just drawn, and
    enrollment, which changes no row or acts for the tenant of its token. *)
Definition tenantless (call : Call) (s s' : Srv) : Prop :=
  match call with
  | CreateTenant _ _ => (forall t, t <> TTenant -> rows t s' = rows t s) /\
      (rows TTenant s' = rows TTenant s \/ exists r, rows TTenant s' = rows TTenant s ++ [r] /\ tn_id r = srv_uuids s (srv_uuid_next s) /\
         ~ In (tn_id r) (map tn_id (rows TTenant s)))
  | Enroll token _ _ => unchanged_rows s s' \/ exists k, In k (rows TToken s) /\ et_token_sha256 k = hash_token token /\
      (unique_key TToken et_token_sha256 s -> Homed (et_tenant k) s -> isolated (et_tenant k) s s')
  | _ => s' = s
  end.

Lemma tenantless_same call s : tenantless call s s.
Proof. destruct call; try done; cbn; [split; [done|by left]|by left]. Qed.

Lemma insert_tenant_run r e s : exists o, insert_tenant r e s = (o, s) \/
  (insert_tenant r e s = (o, set_rows TTenant (rows TTenant s ++ [r]) s) /\ ~ In (tn_id r) (map tn_id (rows TTenant s))).
Proof.
  unfold insert_tenant. erewrite bind_run; [|reflexivity].
  destruct (existsb (fun x => bool_decide (tn_id x = tn_id r)) (rows TTenant s)) eqn:Ex; cbn [negb]; [by eexists; left|].
  unfold mbind, op_mbind, insert_on_conflict. destruct (existsb _ (rows TTenant s)) eqn:Es; [by eexists; left|]. eexists. right. split; [reflexivity|].
  intros (x & E & Hx)%in_map_iff. assert (existsb (fun x => bool_decide (tn_id x = tn_id r)) (rows TTenant s) = true); [|congruence].
  apply existsb_exists. exists x. split; [done|by apply bool_decide_eq_true].
Qed.

Lemma create_tenant_tenantless slug name s : tenantless (CreateTenant slug name) s (snd (Access.create_tenant slug name s)).
Proof.
  unfold Access.create_tenant. destruct (validate_slug _) as [[]|e|]; [|apply (tenantless_same (CreateTenant slug name))..].
  erewrite bind_run; [|reflexivity]. cbv zeta. destruct (String.eqb _ ""); [apply (tenantless_same (CreateTenant slug name))|].
  destruct (200 <? _); [apply (tenantless_same (CreateTenant slug name))|].
  erewrite bind_run; [|reflexivity]. erewrite bind_run; [|reflexivity]. set (r := mkTenant _ _ _ _ _).
  unfold mbind, op_mbind. match goal with |- context [insert_tenant r ?e ?s2] => set (s1 := s2); destruct (insert_tenant_run r e s1) as [o [E|[E Hn]]] end; rewrite E.
  - destruct o as [[]|e|]; (split; [done|by left]).
  - assert (H : tenantless (CreateTenant slug name) s (set_rows TTenant (rows TTenant s1 ++ [r]) s1)); [|by destruct o as [[]|e|]].
    split; [intros t Ht; by rewrite rows_set_rows_ne by (by apply not_eq_sym)|]. right. exists r. rewrite rows_set_rows_eq. by split.
Qed.

Lemma enroll_tenantless token host version s : tenantless (Enroll token host version) s (snd (Access.enroll ca token host version s)).
Proof.
  destruct (List.find (fun k => bool_decide (et_token_sha256 k = hash_token token)) (rows TToken s)) as [k|] eqn:E.
  - apply List.find_some in E as [Hk Hh%bool_decide_eq_true]. right. exists k. split; [done|]. split; [done|]. intros Hu Hh'.
    apply iso_enroll. split; [by apply homed_isolated|]. intros x Hx Hxh.
    by rewrite (nodup_map_inj et_token_sha256 _ x k Hu Hx Hk) by congruence.
  - left. destruct (enroll_refused ca token host version s) as (s' & -> & Hr); [|exact Hr].
    intros k Hk Hh. pose proof (List.find_none _ _ E k Hk) as Hn. cbn in Hn. by rewrite bool_decide_true in Hn.
Qed.

Lemma bind_some_ret {A} (m : Op Srv A) (f : A -> Uuid) s : fst ((x ← m; mret (Some (f x))) s) <> Ret None.
Proof. unfold mbind, op_mbind. by destruct (m s) as [[a|e|] s']. Qed.

(** The calls of no tenant. *)
Lemma dispatch_tenantless h call w : fst (acting_tenant h call (wd_srv w)) = Ret None ->
  tenantless call (wd_srv w) (wd_srv (snd (dispatch env c ca h call w))).
Proof.
  destruct call; unfold acting_tenant; try (intros H; exfalso; first [by apply bind_some_ret in H | destruct (is_set _); by apply bind_some_ret in H]); intros _;
    cbn [dispatch].
  - done.
  - unfold create_tenant_route. rewrite core_run. cbn [snd wd_srv]. unfold mbind, op_mbind. pose proof (create_tenant_tenantless slug name (wd_srv w)) as H.
    by destruct (Access.create_tenant slug name (wd_srv w)) as [[a|e|] s'].
  - done.
  - unfold get_tenant_route. rewrite core_run. cbn [snd wd_srv].
    assert (Hr : reads (t ← match uuid_parse id_or_slug with Some id => Access.get_tenant id | None => get_tenant_by_slug (str_lower id_or_slug) end; mret (RTenant t))).
    { apply reads_bind; [|done]. destruct (uuid_parse _); [apply reads_get_tenant|]. apply reads_bind; [apply reads_gets|]. intros. apply reads_or_throw. }
    apply Hr.
  - done.
  - unfold enroll_route. rewrite core_run. cbn [snd wd_srv]. unfold mbind, op_mbind. pose proof (enroll_tenantless token host_name agent_version (wd_srv w)) as H.
    by destruct (Access.enroll ca token host_name agent_version (wd_srv w)) as [[a|e|] s'].
  - done.
Qed.

(** C4. A request changes its own tenant's rows only.  Whatever the route, its
    parameters and body, and whether it succeeds, fails half way or is refused,
    every row of another tenant, in every table, is afterwards as it was, the
    receipts whose digests collide apart.  The tenant is the agent's for an
    agent's credential, whatever the tenant header says, the token's for an
    enrollment, and the header's otherwise; without one that resolves, nothing
    changes at all.  Of the requests for no tenant, the creation of one adds at most
    its own row, and the others change nothing.  The identifiers are global: the
    acting tenant is [Homed], none of its rows' identifiers and none still to be
    drawn being another tenant's, and a token's digest is its row's key. *)
Theorem requests_isolated segs h call w :
  let w' := snd (serve env c ca segs h call w) in
  match fst (acting_tenant h call (wd_srv w)) with
  | Ret (Some t) => Homed t (wd_srv w) -> isolated t (wd_srv w) (wd_srv w')
  | Ret None => tenantless call (wd_srv w) (wd_srv w')
  | _ => wd_srv w' = wd_srv w
  end.
Proof.
  cbv zeta. unfold serve. pose proof (dispatch_tenantless h call w) as Ht.
  assert (Hg : wd_srv (snd (admin_gate c (path_text segs) h (dispatch env c ca h call) w)) = wd_srv w \/
    admin_gate c (path_text segs) h (dispatch env c ca h call) w = dispatch env c ca h call w).
  { unfold admin_gate. destruct (negb _); [by right|]. destruct (public_path _); [by right|]. destruct (merlin_passes _ _ _); [by right|].
    unfold lift_outcome, mbind, op_mbind. destruct (check_admin _ _); [by right|by left|by left]. }
  pose proof (dispatch_confines h call w) as Hc. destruct Hg as [E|E].
  - rewrite E. destruct (fst _) as [[t|]|e|]; [apply homed_isolated|apply tenantless_same|done|done].
  - rewrite E. destruct (fst _) as [[t|]|e|]; [exact Hc|by apply Ht|exact Hc|exact Hc].
Qed.

Lemma reads_lift {S A} (o : outcome A) : o <> Panic -> reads (lift_outcome o : Op S A).
Proof. by intros Ho s. Qed.

Lemma cert_no_panic `{X509} der : agent_id_from_cert_der der <> Panic.
Proof. unfold agent_id_from_cert_der. destruct (common_names der); [done|]. by destruct (head _). Qed.

Lemma reads_peer_identity `{X509} peer : reads (peer_identity peer).
Proof.
  apply reads_bind; [apply reads_or_throw|intros der]. apply reads_bind; [apply reads_lift, cert_no_panic|intros id].
  apply reads_bind; [apply reads_gets|intros o]. apply reads_bind; [apply reads_or_throw|done].
Qed.

Lemma peer_known `{X509} peer s i : fst (peer_identity peer s) = Ret i -> exists r, In r (rows TAgent s) /\ i = identity_of r.
Proof.
  unfold peer_identity. destruct peer as [der|]; [|done]. cbn [or_throw].
  change ((der ← mret der; agent_id ← lift_outcome (agent_id_from_cert_der der); authenticate_cert agent_id) s)
    with ((agent_id ← lift_outcome (agent_id_from_cert_der der); authenticate_cert agent_id) s).
  destruct (agent_id_from_cert_der der) as [id|e|]; [|done|done].
  change ((agent_id ← lift_outcome (Ret id); authenticate_cert agent_id) s) with (authenticate_cert id s).
  unfold authenticate_cert, select_optional, gets, mbind, op_mbind.
  destruct (head _) as [r|] eqn:Eh; [|done]. cbn. intros [= <-]. exists r. split; [|done]. by apply head_filter_in in Eh as [Hin _].
Qed.

(** An agent acts for itself.  Behind a client certificate every call
    changes rows of one tenant only, that of the agent the certificate names; a
    connection whose certificate names no agent changes nothing. *)
Theorem agents_isolated `{X509} peer call s :
  let s' := snd (serve_agent ca peer call s) in
  match fst (peer_identity peer s) with
  | Ret i => Homed (id_tenant_id i) s -> isolated (id_tenant_id i) s s'
  | _ => s' = s
  end.
Proof.
  cbv zeta. unfold serve_agent. destruct (reads_peer_identity peer s) as [H1 H2]. pose proof (peer_known peer s) as Hk.
  match goal with |- context [(peer_identity peer ≫= ?g) s] => set (f := g) end.
  unfold mbind, op_mbind. destruct (peer_identity peer s) as [[i|e|] s1]; cbn in H1; subst s1; [|reflexivity|by destruct (H2 eq_refl)].
  destruct (Hk i eq_refl) as (r & Hr & ->). change (id_tenant_id (identity_of r)) with (ag_tenant r). intros Hh.
  assert (Hi : isolated (ag_tenant r) s s) by (by apply homed_isolated). revert Hi.
  cbn beta iota. enough (Hm : keeps (isolated (ag_tenant r) s) (f (identity_of r))) by exact (Hm s). subst f. cbn beta.
  destruct call; (apply keeps_bind; [|intros; first [apply keeps_mret | match goal with |- keeps _ (match ?x with _ => _ end) => destruct x as [[? ?] ?]; apply keeps_mret end]]).
  - apply iso_heartbeat. by apply agent_clear.
  - apply iso_record_gaps_scoped.
  - apply keeps_lift.
  - apply iso_announce.
  - apply iso_stage_upload.
  - apply iso_finalize.
Qed.

(** A spawned detonation changes rows of the tenant it was spawned for only. *)
Lemma task_isolated w t rest :
  wd_tasks w = t :: rest -> Homed (tk_tenant t) (wd_srv w) -> isolated (tk_tenant t) (wd_srv w) (wd_srv (snd (run_task w))).
Proof.
  intros Et Hh. unfold run_task. rewrite Et.
  apply (keeps_bind (isolatedW (tk_tenant t) (wd_srv w)) (attempt _)); [apply keeps_attempt, iso_outside, iso_detonate|intros; apply keeps_mret|].
  by apply homed_isolated.
Qed.
End confined.

(** ** Witnesses *)

Section witnesses.
Local Existing Instance ReferenceYara.engine.
Local Existing Instance ReferenceYara.host.
Local Existing Instance ReferenceHash.sha.
Local Existing Instance ReferenceHash.hex.
Local Existing Instance ReferenceUuid.display.
Local Existing Instance ReferenceAnalysis.goblin.
Local Existing Instance ReferenceAnalysis.log2.
Local Existing Instance ReferenceAnalysis.decoder.
Local Existing Instance ReferenceAnalysis.order.
Local Existing Instance ReferenceCape.status.
Local Existing Instance ReferenceCape.json.
Local Instance no_uuid : UuidParse := fun _ => None.
Local Instance plain_path : PathDecode := Some.
Local Instance whole : Chrono := fun secs _ => Some secs.
Local Instance no_dates : ChronoText := {| to_rfc3339 := fun _ => ""%string; parse_from_rfc3339 := fun _ => None; minus_seconds := fun t n => Some (t - n) |}.
Local Instance no_time : TimeJson := fun _ => ""%string.
Local Instance no_pretty : JsonPretty := fun _ => ""%string.

Definition no_env : Env := fun _ => None.
Definition closed_auth : AuthConfig := mkAuthConfig (Some "admin"%string) true false "mcp" None true.
Definition anonymous : Headers := mkHeaders None (Some (Visible "acme")).
Definition acme : World := mkWorld with_tenant (mkNet [] ReferenceCape.answers) [].

(** [ro_first], decided. *)
Lemma first_checked segs call :
  forallb (fun p => implb (path_matches p segs) (negb (more_specific p (pattern call)))) routes = true ->
  forall p, In p routes -> path_matches p segs = true -> more_specific p (pattern call) = false.
Proof. intros H p Hp Hm. rewrite forallb_forall in H. specialize (H p Hp). rewrite Hm in H. by apply negb_true_iff in H. Qed.

Lemma strangers_refused_witness :
  refuses (serve no_env closed_auth a_ca ["api"; "v1"; "agents"]%string anonymous ListAgents) acme.
Proof.
  apply (strangers_refused no_env closed_auth a_ca ["api"; "v1"; "agents"]%string anonymous ListAgents acme); try reflexivity.
  - split; intros; discriminate.
  - constructor; [reflexivity|constructor|apply first_checked; vm_compute; reflexivity|repeat constructor].
Defined.

Definition a_gap : GapEvent := mkGapEvent 9 "usn_poll" "terminal" None (Some "C:\x"%string) (Some "read_failed"%string) None (Some "host"%string).

Lemma gaps_need_no_credential_witness :
  let run := serve no_env closed_auth a_ca ["api"; "v1"; "agents"; "gaps"]%string anonymous (ReportGaps [a_gap]) acme in
  is_ret (fst run) = true /\ length (rows TAttempt (wd_srv (snd run))) = 1%nat.
Proof.
  cbv zeta.
  destruct (gaps_need_no_credential no_env closed_auth a_ca ["api"; "v1"; "agents"; "gaps"]%string [a_gap] 5%N "acme" acme) as [Hs Hr].
  - constructor; [reflexivity|constructor|apply first_checked; vm_compute; reflexivity|repeat constructor].
  - vm_compute. reflexivity.
  - unfold anonymous. rewrite Hs, Hr. split; vm_compute; reflexivity.
Defined.

Lemma mcp_unreachable_witness :
  exists m, serve no_env closed_auth a_ca ["mcp"]%string (mkHeaders (Some (Visible "Bearer mcp")) None) (McpRequest JNull) acme = (Fail (Unauthorized m), acme).
Proof.
  apply (mcp_unreachable no_env closed_auth a_ca ["mcp"]%string (mkHeaders (Some (Visible "Bearer mcp")) None) JNull acme "admin"%string); try reflexivity.
  - discriminate.
  - constructor; [reflexivity|constructor|apply first_checked; vm_compute; reflexivity|repeat constructor].
Defined.

(** Two tenants, the second with an agent. *)
Definition their_agent : Agent := mkAgent 50%N 6%N "other" [] "1.0" 0 None None None None None None None None None (JObj []) None.
Definition two_tenants : Srv :=
  set_rows TAgent [their_agent] (set_rows TTenant [a_tenant; mkTenant 6%N "other" "Other" "active" 0] ReferenceServer.empty).

Lemma two_tenants_homed : Homed 5%N two_tenants.
Proof.
  split.
  - intros t t' x y id Hx Hf Hi Hy. destruct t; try (destruct Hx; fail); cbn in Hi; [discriminate Hi|].
    destruct Hx as [<-|[]]. discriminate Hf.
  - intros n t y Hn Hy. destruct t; try (destruct Hy; fail); [done|]. destruct Hy as [<-|[]]. cbn. intros [= E]. lia.
Qed.

Lemma requests_isolated_witness :
  isolated 5%N two_tenants (wd_srv (snd (serve no_env closed_auth a_ca ["api"; "v1"; "agents"; "gaps"]%string anonymous (ReportGaps [a_gap])
    (mkWorld two_tenants (mkNet [] ReferenceCape.answers) [])))).
Proof.
  exact (requests_isolated no_env closed_auth a_ca ["api"; "v1"; "agents"; "gaps"]%string anonymous (ReportGaps [a_gap])
    (mkWorld two_tenants (mkNet [] ReferenceCape.answers) []) two_tenants_homed).
Defined.
End witnesses.
