(* ===== verification/Reading.v ===== *)
(** * Reading: what a tenant is told
    ([docs/invariants.md], invariant 5)

    The other half of the isolation of tenants.  Each query route answers what it
    would answer if the tables held the tenant's rows alone: no count, order, page
    or error depends on what the others store. *)

From S2P Require Import Prelude Machine Text Decimal Hash Cas Schema Scan Rules Triggers Hunts Fuzzy SimModel Features Functions Variants Lifecycle.
From S2P Require Import Ingest Access Merlin Neighborhood Intel Detonate Report Export Mcp Isolation Routes.
From Stdlib Require Import Strings.Byte Strings.Ascii.

Open Scope Z_scope.

(** ** A tenant's slice of the server *)

Section slice.
  Context (tenant : Uuid).

(** The tenant's rows; the memberships of its bundles; and the list of tenants,
    from which the tenant header is resolved. *)
Definition visible (db : Database) (t : table) : row t -> bool :=
  match t with
  | TTenant => fun _ => true
  | TBundleRule => fun m => existsb (fun b => bool_decide (rb_tenant b = tenant) && bool_decide (rb_id b = rbr_bundle_id m)) (db TBundle)
  | t => fun r => bool_decide (row_tenant t r = Some tenant)
  end.

Definition slice_db (db : Database) : Database := fun t => List.filter (visible db t) (db t).
Definition slice (s : Srv) : Srv := set_db (slice_db (srv_db s)) s.

Lemma rows_slice t s : rows t (slice s) = List.filter (visible (srv_db s) t) (rows t s).
Proof. reflexivity. Qed.

(** The jobs of the tenant's hunts are the tenant's. *)
Definition coherent (s : Srv) : Prop :=
  forall j h, In j (rows TJob s) -> In h (rows THunt s) -> hu_tenant h = tenant -> hu_id h = hj_hunt_id j -> hj_tenant j = tenant.

Lemma homed_coherent s : Homed tenant s -> coherent s.
Proof.
  intros Hh j h Hj Hin Ht Eid. destruct (decide (hj_tenant j = tenant)) as [|Hne]; [done|]. exfalso.
  apply (hm_rows _ _ Hh THunt TJob h j (hu_id h)); [done| |done| |cbn; by rewrite Eid].
  - unfold foreign. cbn. by rewrite bool_decide_true.
  - apply filter_In. split; [done|]. unfold foreign. cbn. by rewrite bool_decide_false.
Qed.

(** [m] answers the same on the slice, and changes no table. *)
Definition sees {A} (m : Op Srv A) : Prop :=
  forall s, coherent s -> srv_db (snd (m s)) = srv_db s /\ m (slice s) = (fst (m s), slice (snd (m s))).

Lemma coherent_db s s' : srv_db s' = srv_db s -> coherent s -> coherent s'.
Proof. intros E H j h. unfold rows. rewrite E. apply H. Qed.

(** *** Structure *)

Lemma sees_mret {A} (a : A) : sees (mret a).
Proof. by intros s. Qed.
Lemma sees_throw {A} e : sees (throw e : Op Srv A).
Proof. by intros s. Qed.
Lemma sees_lift {A} (o : outcome A) : sees (lift_outcome o).
Proof. by intros s. Qed.
Lemma sees_or_throw {A} e (o : option A) : sees (or_throw e o).
Proof. by destruct o. Qed.
Lemma sees_now : sees now.
Proof. by intros s. Qed.

Lemma sees_bind {A B} (m : Op Srv A) (f : A -> Op Srv B) : sees m -> (forall a, sees (f a)) -> sees (m ≫= f).
Proof.
  intros Hm Hf s Hs. destruct (Hm s Hs) as [Hdb Hr]. unfold mbind, op_mbind. rewrite Hr. destruct (m s) as [[a|e|] s1]; cbn [fst snd] in *; [|done..].
  destruct (Hf a s1 (coherent_db _ _ Hdb Hs)) as [Hdb1 Hr1]. split; [congruence|done].
Qed.

Lemma sees_attempt {A} (m : Op Srv A) : sees m -> sees (attempt m).
Proof. intros Hm s Hs. destruct (Hm s Hs) as [Hdb Hr]. unfold attempt. rewrite Hr. by destruct (m s) as [[a|e|] s1]. Qed.

Lemma sees_fold {A B} (l : list A) (f : B -> A -> Op Srv B) acc : (forall b x, sees (f b x)) -> sees (op_fold l acc f).
Proof. intros Hf. revert acc. induction l as [|x l IH]; intros acc; [apply sees_mret|]. by apply sees_bind. Qed.

Lemma sees_concat {A B} (l : list A) (f : A -> Op Srv (list B)) : (forall x, sees (f x)) -> sees (op_concat l f).
Proof. intros Hf. apply sees_fold. intros b x. apply sees_bind; [done|]. intros. apply sees_mret. Qed.

Lemma sees_gets {A} (f : Srv -> A) : (forall s, coherent s -> f (slice s) = f s) -> sees (gets f).
Proof. intros Hf s Hs. split; [done|]. unfold gets. by rewrite Hf. Qed.

(** A value that is read whole and then looked at through [g] only. *)
Lemma sees_gets_mret {A B} (f : Srv -> A) (g : A -> B) : (forall s, coherent s -> g (f (slice s)) = g (f s)) -> sees (x ← gets f; mret (g x)).
Proof. intros Hf s Hs. split; [done|]. unfold gets, mbind, op_mbind. cbn. by rewrite Hf. Qed.

(** *** Queries *)

(** A condition that only the tenant's rows meet. *)
Definition scoped_to (t : table) (p : row t -> bool) : Prop := forall r, p r = true -> row_tenant t r = Some tenant.

Lemma filter_narrow {A} (p q : A -> bool) l : (forall x, In x l -> p x = true -> q x = true) -> List.filter p (List.filter q l) = List.filter p l.
Proof.
  induction l as [|x l IH]; intros H; [done|]. assert (IH' := IH (fun y Hy => H y (or_intror Hy))). specialize (H x (or_introl eq_refl)).
  cbn. destruct (q x) eqn:Eq; cbn; rewrite IH'; [done|]. destruct (p x); [|done]. by specialize (H eq_refl).
Qed.

Lemma filter_slice t p s : t <> TTenant -> t <> TBundleRule -> scoped_to t p -> List.filter p (rows t (slice s)) = List.filter p (rows t s).
Proof.
  intros H1 H2 Hp. rewrite rows_slice. apply filter_narrow. intros r _ Hr%Hp. by destruct t; try done; apply bool_decide_eq_true.
Qed.

Lemma sees_select t p : t <> TTenant -> t <> TBundleRule -> scoped_to t p -> sees (select t p).
Proof. intros. apply sees_gets. intros s _. by rewrite filter_slice. Qed.
Lemma sees_select_optional t p : t <> TTenant -> t <> TBundleRule -> scoped_to t p -> sees (select_optional t p).
Proof. intros. apply sees_gets. intros s _. by rewrite filter_slice. Qed.
Lemma sees_select_count t p : t <> TTenant -> t <> TBundleRule -> scoped_to t p -> sees (select_count t p).
Proof. intros. apply sees_gets. intros s _. by rewrite filter_slice. Qed.

(** The tenants themselves are not hidden. *)
Lemma sees_tenants p : sees (select_optional TTenant p).
Proof. apply sees_gets. intros s _. rewrite rows_slice. by rewrite (list_filter_all (visible (srv_db s) TTenant)). Qed.
End slice.

Ltac scope_tac :=
  let r := fresh in let H := fresh in
  intros r H; cbn in r |- *;
  unfold occurrence_of, endpoint_committed, is_current, touches, in_group, artifact_by_sha, artifact_is, hunt_is, member_is, within, is_gap, on_endpoint,
    artifact_row, edge_row, seed_occurrence, candidate_occurrence in H;
  repeat match type of H with
    | (_ && _) = true => let H' := fresh in apply andb_true_iff in H as [H H']
    | bool_decide _ = true => apply bool_decide_eq_true in H
    end; by rewrite <- H || f_equal.

Ltac sees_tac :=
  repeat first
    [ solve [eauto 2 with sees nocore]
    | progress cbv zeta
    | match goal with
      | |- sees _ (mbind _ _) => apply sees_bind; [|intros ?]
      | |- sees _ (mret _) => apply sees_mret
      | |- sees _ (throw _) => apply sees_throw
      | |- sees _ (lift_outcome _) => apply sees_lift
      | |- sees _ (or_throw _ _) => apply sees_or_throw
      | |- sees _ now => apply sees_now
      | |- sees _ (attempt _) => apply sees_attempt
      | |- sees _ (op_concat _ _) => apply sees_concat; intros ?
      | |- sees _ (op_fold _ _ _) => apply sees_fold; intros ? ?
      | |- sees ?u (select ?tb ?p) => apply (sees_select u tb p); [done|done|scope_tac]
      | |- sees ?u (select_optional TTenant ?p) => apply (sees_tenants u p)
      | |- sees ?u (select_optional ?tb ?p) => apply (sees_select_optional u tb p); [done|done|scope_tac]
      | |- sees ?u (select_count ?tb ?p) => apply (sees_select_count u tb p); [done|done|scope_tac]
      | |- sees _ (match ?x with _ => _ end) => destruct x
      | |- sees _ (if ?x then _ else _) => destruct x
      end ].
Create HintDb sees.

Section queries.
  Context {HEX : HexCodec} {UD : UuidDisplay} {UP : UuidParse} {CT : ChronoText} (t : Uuid).

Lemma sees_prevalence a : sees t (prevalence_for t a).
Proof. unfold prevalence_for. sees_tac. Qed.
Lemma sees_current_opinion a : sees t (current_opinion t a).
Proof. unfold current_opinion. sees_tac. Qed.
Lemma sees_artifact_for_sha sha : sees t (artifact_for_sha t sha).
Proof. unfold artifact_for_sha. sees_tac. Qed.
Lemma sees_detections a n : sees t (detections_for_artifact t a n).
Proof. unfold detections_for_artifact. sees_tac. Qed.
Lemma sees_edges_for a : sees t (edges_for t a).
Proof. unfold edges_for. sees_tac. Qed.
Lemma sees_group_members a : sees t (group_members t a).
Proof. unfold group_members, group_of. sees_tac. Qed.
#[local] Hint Resolve sees_prevalence sees_current_opinion sees_artifact_for_sha sees_detections sees_edges_for sees_group_members : sees.
Lemma sees_similar_view sha : sees t (similar_view t sha).
Proof. unfold similar_view. sees_tac. Qed.
Lemma sees_variants_view sha : sees t (variants_view t sha).
Proof. unfold variants_view. sees_tac. Qed.
Lemma sees_get_hunt id : sees t (get_hunt t id).
Proof. unfold get_hunt. sees_tac. Qed.
Lemma sees_list_hunts : sees t (list_hunts t).
Proof. unfold list_hunts. sees_tac. Qed.
Lemma sees_list_rules : sees t (Rules.list_rules t).
Proof. unfold Rules.list_rules. sees_tac. Qed.
Lemma sees_evidence `{Sha256} `{JsonText} a b n k : sees t (function_pair_evidence t a b n k).
Proof. unfold function_pair_evidence, load_functions. sees_tac. Qed.
Lemma sees_receipts a : sees t (receipts_for_artifact t a).
Proof. unfold receipts_for_artifact. sees_tac. Qed.
Lemma sees_agent_status id : sees t (Access.agent_status t id).
Proof. unfold Access.agent_status. sees_tac. Qed.
Lemma sees_list_triggers : sees t (list_triggers t).
Proof. unfold list_triggers. sees_tac. Qed.
Lemma sees_opinion_history a : sees t (opinion_history t a).
Proof. unfold opinion_history. sees_tac. Qed.
Lemma sees_detections_recent n : sees t (detections_recent t n).
Proof. unfold detections_recent. sees_tac. Qed.
Lemma sees_list_observations h n : sees t (list_observations t h n).
Proof. unfold list_observations. sees_tac. Qed.
Lemma sees_parse_since s : sees t (parse_since s).
Proof. unfold parse_since. sees_tac. Qed.
Lemma sees_thirty_days : sees t thirty_days_ago.
Proof. unfold thirty_days_ago. sees_tac. Qed.

(** *** Queries over whole tables *)

Ltac narrow := rewrite filter_slice by (done || scope_tac).

Lemma sees_list_agents : sees t (Access.list_agents t).
Proof. apply sees_gets. intros s _. by rewrite (filter_slice t TAgent) by (done || scope_tac). Qed.

Lemma sees_coverage_gaps o n : sees t (Access.coverage_gaps t o n).
Proof. unfold Access.coverage_gaps. destruct (_ <? _); [apply sees_throw|]. apply sees_gets. intros s _. by rewrite (filter_slice t TAttempt) by (done || scope_tac). Qed.

Lemma sees_list_recent n : sees t (Intel.list_recent t n).
Proof. unfold Intel.list_recent. destruct (_ <? _); [apply sees_throw|]. apply sees_gets. intros s _. by rewrite (filter_slice t TReanalysis) by (done || scope_tac). Qed.

Lemma sees_hash_hunt l : sees t (Intel.hash_hunt t l).
Proof.
  unfold Intel.hash_hunt. apply sees_fold. intros hits h. apply sees_bind; [apply sees_or_throw|intros raw].
  apply (sees_gets_mret t (rows TArtifact) (fun arts => hits ++ hits_of t arts h raw)). intros s _. unfold hits_of.
  by rewrite (filter_slice t TArtifact) by (done || scope_tac).
Qed.

(** The memberships of the tenant's bundles are all visible. *)
Lemma sees_list_bundles : sees t (Rules.list_bundles t).
Proof.
  intros s _. split; [done|]. unfold Rules.list_bundles, select, gets, mbind, op_mbind, mret, op_mret. cbn [fst snd]. f_equal. f_equal.
  rewrite (filter_slice t TBundle) by (done || scope_tac). apply map_ext_in. intros b [Hb Ht]%sort_by_in%filter_In.
  unfold bundle_response. do 2 f_equal. rewrite rows_slice. apply filter_narrow. intros m _ Em%bool_decide_eq_true. cbn [visible].
  apply existsb_exists. exists b. split; [done|]. by rewrite Ht, bool_decide_true.
Qed.

Lemma omap_narrow {A B} (f : A -> option B) (q : A -> bool) (l : list A) : (forall x b, f x = Some b -> q x = true) -> omap f (List.filter q l) = omap f l.
Proof.
  intros H. induction l as [|x l IH]; [done|]. cbn. destruct (q x) eqn:Eq; cbn; [by rewrite IH|]. destruct (f x) eqn:Ef; [|done].
  by rewrite (H x b Ef) in Eq.
Qed.

Lemma omap_ext_all {A B} (f g : A -> option B) (l : list A) : (forall x, f x = g x) -> omap f l = omap g l.
Proof. intros H. induction l as [|x l IH]; [done|]. cbn. by rewrite H, IH. Qed.

Lemma sees_rarity n since o limit : sees t (Report.rarity_search t n since o limit).
Proof.
  unfold Report.rarity_search. destruct (_ <? _); [apply sees_throw|]. apply sees_gets. intros s _. do 2 f_equal.
  transitivity (omap (rarity_hit t n since o (rows TOccurrence s) (rows TOpinion s)) (rows TArtifact (slice t s))).
  - apply omap_ext_all. intros a. unfold rarity_hit, last_opinion. cbv zeta.
    by rewrite (filter_slice t TOccurrence), (filter_slice t TOpinion) by (done || scope_tac).
  - rewrite rows_slice. apply omap_narrow. intros a h. unfold rarity_hit, endpoint_committed. cbn [visible row_tenant].
    destruct (bool_decide (art_tenant a = t)) eqn:E; [|done]. intros _. apply bool_decide_eq_true in E. apply bool_decide_eq_true. by f_equal.
Qed.

Lemma existsb_narrow {A} (p q : A -> bool) l : (forall x, p x = true -> q x = true) -> existsb p (List.filter q l) = existsb p l.
Proof.
  intros H. induction l as [|x l IH]; [done|]. cbn. destruct (q x) eqn:Eq; cbn; rewrite IH; [done|]. destruct (p x) eqn:Ep; [|done].
  by rewrite (H x Ep) in Eq.
Qed.

Lemma dropper_rows_slice seeds window s : dropper_rows t seeds window (slice t s) = dropper_rows t seeds window s.
Proof.
  unfold dropper_rows. cbv zeta. f_equal.
  rewrite (filter_slice t TOccurrence (seed_occurrence t seeds)) by (done || scope_tac).
  assert (Ec : List.filter (candidate_occurrence t seeds (rows TArtifact (slice t s))) (rows TOccurrence (slice t s)) =
               List.filter (candidate_occurrence t seeds (rows TArtifact s)) (rows TOccurrence s)).
  { transitivity (List.filter (candidate_occurrence t seeds (rows TArtifact s)) (rows TOccurrence (slice t s))).
    - apply filter_ext. intros o. unfold candidate_occurrence. f_equal. destruct (oc_artifact_id o); [|done]. f_equal.
      rewrite rows_slice. apply existsb_narrow. intros a [[Ha _]%andb_true_iff _]%andb_true_iff. cbn. apply bool_decide_eq_true in Ha.
      apply bool_decide_eq_true. by f_equal.
    - apply (filter_slice t TOccurrence); [done|done|scope_tac]. }
  rewrite Ec. apply omap_ext_all. intros f. unfold dropper_row. destruct (oc_artifact_id f) as [id|]; [|done]. cbn [mbind option_bind].
  by rewrite (filter_slice t TArtifact), (filter_slice t TOccurrence (occurrence_of t id)) by (done || scope_tac).
Qed.

Lemma sees_droppers seed n h limit : sees t (Report.dropper_candidates t seed n h limit).
Proof.
  unfold Report.dropper_candidates. sees_tac. apply sees_gets. intros s _. by rewrite dropper_rows_slice.
Qed.
End queries.

Section reports.
  Context {SHA : Sha256} {HEX : HexCodec} {UD : UuidDisplay} {UP : UuidParse} {CT : ChronoText} {TJ : TimeJson} {JP : JsonPretty} {JT : JsonText} (t : Uuid).

#[local] Hint Resolve sees_prevalence sees_current_opinion sees_artifact_for_sha sees_detections sees_edges_for sees_group_members sees_similar_view
  sees_variants_view sees_get_hunt sees_parse_since sees_thirty_days sees_rarity : sees.

Lemma sees_artifacts_of ids : sees t (artifacts_of t ids).
Proof. unfold artifacts_of. sees_tac. Qed.
Lemma sees_occurrences_of ids : sees t (occurrences_of t ids).
Proof. unfold occurrences_of. sees_tac. Qed.
#[local] Hint Resolve sees_artifacts_of sees_occurrences_of : sees.
Lemma sees_build_report q h ids m x : sees t (build_report t q h ids m x).
Proof.
  unfold build_report, attestation_for, expand_variants_for, group_ids_of, leads_of, artifact_view, findings_of. sees_tac.
Qed.
#[local] Hint Resolve sees_build_report : sees.
Lemma sees_by_hunt id x : sees t (Report.by_hunt t id x).
Proof. unfold Report.by_hunt. sees_tac. Qed.
Lemma sees_by_sha256 sha x : sees t (Report.by_sha256 t sha x).
Proof. unfold Report.by_sha256. sees_tac. Qed.
#[local] Hint Resolve sees_by_hunt sees_by_sha256 : sees.
Lemma sees_investigate_sha256 sha : sees t (investigate_sha256 t sha).
Proof. unfold investigate_sha256. sees_tac. Qed.
#[local] Hint Resolve sees_investigate_sha256 : sees.
Lemma sees_investigate_hunt id : sees t (investigate_hunt t id).
Proof. unfold investigate_hunt, no_matches. sees_tac. Qed.

Lemma filter_slice_jobs s : coherent t s ->
  List.filter (job_pending (Some t) (rows THunt (slice t s))) (rows TJob (slice t s)) = List.filter (job_pending (Some t) (rows THunt s)) (rows TJob s).
Proof.
  intros Hs. transitivity (List.filter (job_pending (Some t) (rows THunt s)) (rows TJob (slice t s))).
  - apply filter_ext. intros j. unfold job_pending. f_equal. rewrite rows_slice. apply existsb_narrow.
    intros h [_ Hh]%andb_true_iff. cbn. apply bool_decide_eq_true in Hh. apply bool_decide_eq_true. by f_equal.
  - rewrite rows_slice. apply filter_narrow. intros j Hj [_ (h & Hh & [E1%bool_decide_eq_true E2%bool_decide_eq_true]%andb_true_iff)%existsb_exists]%andb_true_iff.
    apply bool_decide_eq_true. cbn. f_equal. by eapply Hs.
Qed.

Lemma sees_metrics : sees t (platform_metrics (Some t)).
Proof.
  intros s Hs. split; [done|]. unfold platform_metrics, select_count, gets, mbind, op_mbind, mret, op_mret. cbn [fst snd].
  change (row TJob) with HuntJob. rewrite (filter_slice_jobs s Hs). unfold in_scope.
  rewrite (filter_slice t TArtifact), (filter_slice t TOccurrence), !(filter_slice t THunt), (filter_slice t TDetection), (filter_slice t TBundle),
    (filter_slice t TAgent), (filter_slice t TReanalysis) by (done || scope_tac). done.
Qed.

Lemma sees_query q : sees t (Neighborhood.query t q).
Proof.
  assert (Hsame : forall s, snd (Neighborhood.query t q s) = s).
  { intros s. unfold Neighborhood.query. cbv zeta. pose proof (resolve_seed_reads t (nq_seed q) s) as Hr. unfold mbind at 1, op_mbind at 1.
    destruct (resolve_seed t (nq_seed q) s) as [[[[id sha] class]|e|] s1]; cbn [snd] in *; subst s1; [|done..].
    unfold mbind, op_mbind, gets, lift_outcome. destruct (or_panic _); [|done..]. destruct (page_of _ _ _); [|done..]. by destruct (_ <? _). }
  intros s _. rewrite Hsame. split; [done|]. rewrite (surjective_pairing (Neighborhood.query t q (slice t s))), Hsame. f_equal.
  apply query_tenant_scoped; unfold tenant_artifacts, tenant_edges; [apply (filter_slice t TArtifact)|apply (filter_slice t TEdge)]; done || scope_tac.
Qed.
#[local] Hint Resolve sees_query : sees.

Lemma sees_render g f : sees t (render t g f).
Proof. unfold render. sees_tac. Qed.
#[local] Hint Resolve sees_render : sees.
Lemma sees_export_neighborhood q f : sees t (export_neighborhood t q f).
Proof. unfold export_neighborhood. sees_tac. Qed.
Lemma sees_export_group g f : sees t (export_group t g f).
Proof. unfold export_group, members_of. sees_tac. Qed.

Lemma sees_sha_tool name sha : sees t (sha_tool t name sha).
Proof. unfold sha_tool. sees_tac. Qed.
#[local] Hint Resolve sees_sha_tool : sees.
Lemma sees_mcp_handle req : sees t (mcp_handle t req).
Proof. unfold mcp_handle, mcp_call, search_artifacts. sees_tac. Qed.
End reports.

(** ** The query routes *)

(** The routes that only read, on behalf of one tenant. *)
Definition query_call (call : Call) : bool :=
  match call with
  | ListRules | ListBundles | ListHunts | GetHunt _ | Similar _ | VariantsOf _ | NeighborhoodOf _ | SemanticEvidence _ _ _ _ | ListAnalyzers
  | Receipts _ | ListMerlin _ _ | ListAgents | AgentStatus _ | CoverageGaps _ _ | HashHunt _ | GetOpinion _ | OpinionHistory _ | ListTriggers
  | ListDetections | ListContinuous | BlastRadius _ _ _ | ExportGraph _ | PrevalenceOf _ | Search _ _ _ _ | Droppers _ _ _ | Investigate _ _
  | Metrics | McpRequest _ => true
  | _ => false
  end.

(** The world without the other tenants' rows. *)
Definition alone (tenant : Uuid) (w : World) : World := mkWorld (slice tenant (wd_srv w)) (wd_net w) (wd_tasks w).

Section told.
  Context {YX : YaraX} {SH : ScannerHost} {SHA : Sha256} {HEX : HexCodec} {UD : UuidDisplay} {UP : UuidParse} {GOB : Goblin} {LOG : Log2}
          {DEC : X86Decoder} {HO : HashOrder} {JT : JsonText} {CH : Chrono} {ST : StatusText}
          {CT : ChronoText} {TJ : TimeJson} {JP : JsonPretty}.
  Context (env : Env) (c : AuthConfig) (ca : DeploymentCa) (t : Uuid).

#[local] Hint Resolve sees_prevalence sees_current_opinion sees_artifact_for_sha sees_similar_view sees_variants_view sees_get_hunt sees_list_hunts
  sees_list_rules sees_list_bundles sees_evidence sees_receipts sees_agent_status sees_list_agents sees_coverage_gaps sees_list_recent sees_hash_hunt
  sees_list_triggers sees_opinion_history sees_detections_recent sees_list_observations sees_parse_since sees_thirty_days sees_rarity sees_droppers
  sees_by_hunt sees_by_sha256 sees_investigate_sha256 sees_investigate_hunt sees_metrics sees_query sees_export_neighborhood sees_export_group
  sees_mcp_handle : sees.

Lemma sees_resolve_tenant h : sees t (resolve_tenant h).
Proof. unfold resolve_tenant, resolve_active_tenant, get_tenant, get_tenant_by_slug. sees_tac. Qed.

(** What is answered alone is what is answered. *)
Definition told (m : Op World Reply) (w : World) : Prop := fst (m (alone t w)) = fst (m w).

Lemma told_after h (m : Uuid -> Op Srv Reply) w :
  fst (resolve_tenant h (wd_srv w)) = Ret t -> coherent t (wd_srv w) -> sees t (m t) -> told (core (x ← resolve_tenant h; m x)) w.
Proof.
  intros Hr Hc Hm. unfold told. rewrite !core_run. cbn [fst wd_srv alone]. destruct (sees_resolve_tenant h (wd_srv w) Hc) as [Hdb Hs].
  unfold mbind, op_mbind. rewrite Hs. destruct (resolve_tenant h (wd_srv w)) as [o s1]. cbn [fst snd] in *. subst o.
  by destruct (Hm s1 (coherent_db _ _ _ Hdb Hc)) as [_ ->].
Qed.

Lemma told_scoped {A} h (m : Uuid -> Op Srv A) reply w :
  fst (resolve_tenant h (wd_srv w)) = Ret t -> coherent t (wd_srv w) -> sees t (m t) -> told (scoped h m reply) w.
Proof. intros. apply told_after; [done..|]. apply sees_bind; [done|]. intros. apply sees_mret. Qed.

Lemma told_refused (e : Error) w : told (core (throw e)) w.
Proof. unfold told. by rewrite !core_run. Qed.

Ltac told_tac :=
  unfold list_rules_route, list_bundles_route, list_hunts_route, get_hunt_route, semantic_evidence, artifact_receipts, list_agents_route,
    agent_status_route, coverage_gaps_route, hash_hunt_route, list_triggers_route, list_detections, list_continuous, dropper_hunt,
    platform_metrics_route;
  first [ apply told_scoped | apply told_after ]; [assumption|assumption|unfold artifact_id_for; sees_tac].

Lemma dispatch_told h call w :
  query_call call = true -> fst (resolve_tenant h (wd_srv w)) = Ret t -> coherent t (wd_srv w) -> told (dispatch env c ca h call) w.
Proof.
  intros Hq Hr Hc. destruct call; try discriminate Hq; unfold dispatch; try (by told_tac); try done.
  - unfold list_merlin_observations. destruct (check_merlin_ingest c (authorization h)) as [[]|e|]; [|apply told_refused|unfold told; by rewrite !core_run].
    apply (told_after h (fun x => l ← Merlin.list_observations x host (default 100 limit); mret (RObservations l))); [done..|]. sees_tac.
  - unfold mcp_endpoint. destruct (negb _); [apply told_refused|]. told_tac.
Qed.

(** C5. What a tenant is told depends on its own rows.  On every query route, the
    MCP tools included, the answer is the one the server would give if no other
    tenant had a row in any table: errors, counts, orders and pages alike. *)
Theorem answers_own_rows segs h call w :
  query_call call = true -> fst (resolve_tenant h (wd_srv w)) = Ret t -> Homed t (wd_srv w) ->
  fst (serve env c ca segs h call w) = fst (serve env c ca segs h call (alone t w)).
Proof.
  intros Hq Hr Hh%homed_coherent. unfold serve, admin_gate.
  assert (E : fst (dispatch env c ca h call w) = fst (dispatch env c ca h call (alone t w))) by (symmetry; by apply dispatch_told).
  destruct (negb _); [done|]. destruct (public_path _); [done|]. destruct (merlin_passes _ _ _); [done|].
  unfold lift_outcome. unfold mbind, op_mbind. by destruct (check_admin _ _).
Qed.
End told.

(** ** Witnesses *)

Section witnesses.
Local Existing Instance ReferenceYara.engine.
Local Existing Instance ReferenceYara.host.
Local Existing Instance ReferenceHash.sha.
Local Existing Instance ReferenceHash.hex.
Local Existing Instance ReferenceUuid.display.
Local Existing Instance ReferenceAnalysis.goblin.
Local Existing Instance ReferenceAnalysis.log2.
Local Existing Instance ReferenceAnalysis.decoder.
Local Existing Instance ReferenceAnalysis.order.
Local Existing Instance ReferenceCape.status.
Local Existing Instance ReferenceCape.json.
Local Instance no_uuid : UuidParse := fun _ => None.
Local Instance whole : Chrono := fun secs _ => Some secs.
Local Instance no_dates : ChronoText := {| to_rfc3339 := fun _ => ""%string; parse_from_rfc3339 := fun _ => None; minus_seconds := fun t n => Some (t - n) |}.
Local Instance no_time : TimeJson := fun _ => ""%string.
Local Instance no_pretty : JsonPretty := fun _ => ""%string.

Definition open_auth : AuthConfig := mkAuthConfig None false true "mcp" None true.
Definition our_agent : Agent := mkAgent 51%N 5%N "ours" [] "1.0" 0 None None None None None None None None None (JObj []) None.
Definition two_fleets : Srv := set_rows TAgent [their_agent; our_agent] two_tenants.

Lemma two_fleets_homed : Homed 5%N two_fleets.
Proof.
  split.
  - intros t t' x y id Hx Hf Hi Hy. destruct t; try (destruct Hx; fail); [discriminate Hi|]. cbn in Hi.
    assert (id = 51%N) as -> by (destruct Hx as [<-|[<-|[]]]; [discriminate Hf|by injection Hi]).
    destruct t'; try (destruct Hy; fail); [done|]. destruct Hy as [<-|[]]. done.
  - intros n t y Hn Hy. destruct t; try (destruct Hy; fail); [done|]. destruct Hy as [<-|[]]. cbn. intros [= E]. lia.
Qed.

Lemma answers_own_rows_witness :
  let w := mkWorld two_fleets (mkNet [] ReferenceCape.answers) [] in
  let ask w := fst (serve no_env open_auth a_ca ["api"; "v1"; "agents"]%string anonymous ListAgents w) in
  ask w = ask (alone 5%N w) /\ ask w = Ret (RAgents [our_agent]) /\ rows TAgent (wd_srv (alone 5%N w)) = [our_agent].
Proof.
  intros w ask. split; [|split; vm_compute; reflexivity].
  apply (answers_own_rows no_env open_auth a_ca 5%N ["api"; "v1"; "agents"]%string anonymous ListAgents w);
    [reflexivity|vm_compute; reflexivity|exact two_fleets_homed].
Defined.
End witnesses.
