(* ===== verification/AgentLoop.v ===== *)
(** * The agent's process ([corpus-agent/src/main.rs], [heartbeat.rs],
    [sensors/fanotify.rs])

    What runs around the capture workers: enrollment and the boot identity, the
    loop that reports coverage gaps, the heartbeat, and the fanotify sensor.  The
    server is an interface ([ControlPlane]), discharged at the end with the
    handlers of the agents' listener ([Routes.v]) over a lossy network. *)

From S2P Require Import Prelude Machine Text Decimal Hash Classify Cas Schema Scan Features Functions Variants Merlin Access Report Detonate Export Mcp Routes Ingest AgentState Spool Sensors Capture Delivery Progress.
From Stdlib Require Import Strings.Byte Strings.Ascii Sorting.Permutation Sorting.Sorted.

Open Scope Z_scope.

(** ** The server, as these loops see it ([uploader.rs]) *)

Class ControlPlane (R : Type) : Type := {
  cp_enroll : string -> string -> string -> Op R EnrollResponse;
  cp_heartbeat : HeartbeatRequest -> Op R unit;
  cp_report_gaps : list GapEvent -> Op R unit }.

(** [serde_json::from_str] *)
Class JsonRead : Type := json_from_str : string -> option Json.

(** ** Boot identity and enrollment *)

(** Whether the boot identifier changed. *)
Definition refresh_boot_identity (current : string) : Op StateDb bool :=
  stored ← get_identity "boot_id";
  if bool_decide (stored = Some current) then mret false
  else
    set_identity_many [("boot_id", current); (agent_sequence, "0")]%string ;;
    mret (is_set stored).

(** What the configuration says of the server and the host. *)
Record AgentConfig := mkAgentConfig {
  ac_server_url : string; ac_agent_url : option string; ac_enrollment_token : option string; ac_host_name : option string }.

(** [trim_start_matches(prefix)]: as often as it matches. *)
Fixpoint trim_start_matches (fuel : nat) (prefix s : string) : string :=
  match fuel with
  | O => s
  | S fuel' => match strip_front (str_bytes prefix) (str_bytes s) with
               | Some rest => trim_start_matches fuel' prefix (bytes_str rest)
               | None => s end
  end.

(** [split(':').next()] is never [None]. *)
Definition before_colon (s : string) : string := match split_once ":" s with Some (a, _) => a | None => s end.

Definition derive_agent_url (server_url : string) : string :=
  let rest := trim_start_matches (String.length server_url) "http://" server_url in
  let without_scheme := trim_start_matches (String.length rest) "https://" rest in
  "https://" +:+ (before_colon without_scheme +:+ ":8443").

Section process.
  Context {R : Type} {CP : ControlPlane R} {UD : UuidDisplay} {UP : UuidParse} {CT : ChronoText} {JR : JsonRead}.

Definition bad_uuid : Error := BadRequest "invalid agent_id".
Definition no_token : Error := BadRequest "no identity in state db and no enrollment_token in config".

(** [hostname]: the name of the machine; [version]: that of the crate. *)
Definition ensure_identity (cfg : AgentConfig) (hostname version : string) : Op (Agent R) (Uuid * string) :=
  agent_id ← with_db (get_identity "agent_id");
  agent_token ← with_db (get_identity "agent_token");
  match agent_id, agent_token with
  | Some id, Some token => id ← or_throw bad_uuid (uuid_parse id); mret (id, token)
  | _, _ =>
      token ← or_throw no_token (ac_enrollment_token cfg);
      resp ← with_remote (cp_enroll token (default hostname (ac_host_name cfg)) version);
      with_db (set_identity_many [("agent_id", uuid_to_string (er_agent_id resp)); ("agent_token", er_agent_token resp);
        ("ca_cert_pem", er_ca_cert_pem resp); ("client_cert_pem", er_client_cert_pem resp);
        ("client_key_pem", er_client_key_pem resp)]%string) ;;
      mret (er_agent_id resp, er_agent_token resp)
  end.

(** The listener's address and the material of the client certificate. *)
Definition mtls_uploader (cfg : AgentConfig) : Op (Agent R) (string * (string * string * string)) :=
  ca ← with_db (get_identity "ca_cert_pem");
  cert ← with_db (get_identity "client_cert_pem");
  key ← with_db (get_identity "client_key_pem");
  match ca, cert, key with
  | Some ca, Some cert, Some key => mret (default (derive_agent_url (ac_server_url cfg)) (ac_agent_url cfg), (ca, cert, key))
  | _, _, _ => throw (BadRequest "missing mTLS client cert material; delete state and re-enroll")
  end.

(** ** Reporting gaps *)

(** The event a pending gap is reported as, if its time stamp parses. *)
Definition gap_event (g : PendingGap) : option GapEvent :=
  observed_at ← parse_from_rfc3339 (Report.to_rfc3339 (pg_observed_at g));
  Some (mkGapEvent observed_at (pg_capture_reason g) (pg_terminal_outcome g) (pg_artifact_sha256 g) (pg_path g) (pg_detail_code g)
          (json_from_str (pg_detail g)) None).

(** The events of a batch, with the identifiers of their rows. *)
Definition deliverable (gaps : list PendingGap) : list (Z * GapEvent) :=
  omap (fun g => e ← gap_event g; Some (pg_id g, e)) gaps.

(** A turn of the loop, and the seconds it then sleeps.  [meanwhile] is what the
    other threads do while the request is under way. *)
Definition gap_flusher (meanwhile : Op (Agent R) unit) : Op (Agent R) Z :=
  gaps ← attempt (with_db (pending_gaps 100));
  match gaps with
  | inr ((_ :: _) as gaps) =>
      match deliverable gaps with
      | [] => mret 30
      | batch =>
          sent ← attempt (with_remote (cp_report_gaps (map snd batch)));
          meanwhile ;;
          match sent with
          | inr _ => _ ← attempt (with_db (delete_gaps (map fst batch))); mret 5
          | inl _ => mret 5
          end
      end
  | _ => mret 5
  end.

(** ** The heartbeat *)

Definition counts_json (l : list (string * Z)) : Json := JObj (map (fun kv => (fst kv, JInt (snd kv))) l).

(** The report of one moment. *)
Definition heartbeat_request (version policy_digest : string) : Op (Agent R) HeartbeatRequest :=
  state ← with_db (get_identity "baseline_state");
  let baseline_state := default "unknown"%string state in
  let baseline_percent := f64_of_Z (if String.eqb baseline_state "complete" then 100 else 0) in
  counts ← with_db read_counters;
  last ← with_db (get_identity "last_upload_at");
  sensor ← with_db (get_identity "sensor");
  depth ← with_db queue_depth;
  used ← with_spool (gets spool_used_bytes);
  oldest ← with_db oldest_pending_secs;
  mret (mkHeartbeatRequest version policy_digest baseline_state baseline_percent depth used oldest (default "unknown"%string sensor)
          (counts_json counts) (s ← last; parse_from_rfc3339 s) None).

Definition send_once (version policy_digest : string) (meanwhile : Op (Agent R) unit) : Op (Agent R) unit :=
  req ← heartbeat_request version policy_digest;
  sent ← attempt (with_remote (cp_heartbeat req));
  meanwhile ;;
  match sent with
  | inr _ => with_db clear_counters
  | inl e => throw e
  end.
End process.

(** ** fanotify.rs *)

(** The bits of [mask] the sensor looks at (libc). *)
Definition FAN_MOVED_TO : Z := 0x80.
Definition FAN_OPEN_EXEC : Z := 0x1000.
Definition FAN_Q_OVERFLOW : Z := 0x4000.
Definition FAN_ONDIR : Z := 0x40000000.

Definition METADATA_LEN : Z := 24.

Inductive SensorEventKind : Type :=
  | SensorFile (path : string) (prio : Z) (reason : string)
  | SensorOverflow.

Definition has_bit (mask bit : Z) : bool := negb (Z.land mask bit =? 0).

(** What an event sends to the queue, if anything, and whether its descriptor is
    closed; [read_link fd] is the path behind it. *)
Definition sensor_event (read_link : Z -> option string) (mask fd : Z) : list SensorEventKind * list Z :=
  if has_bit mask FAN_Q_OVERFLOW then ([SensorOverflow], [])
  else if 0 <=? fd then
    (match read_link fd with
     | Some path =>
         if has_bit mask FAN_ONDIR then []
         else if has_bit mask FAN_OPEN_EXEC then [SensorFile path priority.EXEC_TARGET "exec_open"]
         else if has_bit mask FAN_MOVED_TO then [SensorFile path priority.WRITTEN_OR_RENAMED "moved_to"]
         else [SensorFile path priority.WRITTEN_OR_RENAMED "close_write"]
     | None => []
     end, [fd])
  else ([], []).

Definition le_i32 (buf : bytes) (i : Z) : outcome Z := b ← or_panic (slice buf i (i + 4)); mret (signed 32 (from_le b)).

(** The events of one [read]; a turn that goes on consumes at least 24 bytes. *)
Fixpoint drain_loop (fuel : nat) (read_link : Z -> option string) (buf : bytes) (offset : Z) (sent : list SensorEventKind) (closed : list Z) :
    outcome (list SensorEventKind * list Z) :=
  match fuel with
  | O => Panic
  | S fuel' =>
      if offset + METADATA_LEN <=? len buf then
        event_len ← le_u buf offset (offset + 4);
        mask ← le_u buf (offset + 8) (offset + 16);
        fd ← le_i32 buf (offset + 16);
        if (event_len <? METADATA_LEN) || (len buf <? offset + event_len) then mret (sent, closed)
        else
          let '(e, c) := sensor_event read_link mask fd in
          drain_loop fuel' read_link buf (offset + event_len) (sent ++ e) (closed ++ c)
      else mret (sent, closed)
  end.

Definition drain_fd (read_link : Z -> option string) (buf : bytes) : outcome (list SensorEventKind * list Z) :=
  drain_loop (S (length buf)) read_link buf 0 [] [].

Definition OUTCOME_SENSOR_OVERFLOW : string := "SENSOR_OVERFLOW".

(** What the sensor does with one event; errors are logged. *)
Definition sensor_run (debounce_ms : Z) (exclusions : list string) (e : SensorEventKind) : Op StateDb unit :=
  match e with
  | SensorFile path prio reason =>
      if matches_exclusion exclusions path then mret tt
      else _ ← attempt (enqueue path prio reason debounce_ms); mret tt
  | SensorOverflow =>
      _ ← attempt (record_gap "fanotify" OUTCOME_SENSOR_OVERFLOW None None (Some "QUEUE_OVERFLOW"%string) "{}"); mret tt
  end.

Definition sensor_loop (debounce_ms : Z) (exclusions : list string) (l : list SensorEventKind) : Op StateDb unit :=
  op_for l (sensor_run debounce_ms exclusions).

(** ** Occurrence keys *)

(** A life of the process under one boot: it refreshes the identity, then its
    threads make their calls; each number drawn is used with the boot. *)
Record Life := mkLife { lf_boot : string; lf_calls : list QueueOp }.

Definition draw (boot : string) (keys : list (string * Z)) (op : QueueOp) : Op StateDb (list (string * Z)) :=
  match op with
  | NextSequence => r ← attempt next_sequence; mret (match r with inr v => keys ++ [(boot, v)] | inl _ => keys end)
  | op => run_op op ;; mret keys
  end.

Definition run_life (keys : list (string * Z)) (l : Life) : Op StateDb (list (string * Z)) :=
  refresh_boot_identity (lf_boot l) ;;
  op_fold (lf_calls l) keys (draw (lf_boot l)).

#[global] Instance queue_op_eq_dec : EqDecision QueueOp.
Proof. solve_decision. Defined.

Definition boot_text (s : StateDb) : option string := db_identity s !! "boot_id"%string.

(** A call that overwrites neither the counter nor the boot. *)
Definition leaves_identity (op : QueueOp) : bool :=
  match op with SetIdentity key _ => negb (String.eqb key agent_sequence || String.eqb key "boot_id") | _ => true end.

Lemma boot_frame op : leaves_identity op = true -> frames boot_text (run_op op).
Proof.
  intros Hop. destruct op; unfold run_op; (apply frames_bind; [apply frames_attempt|by intros ? ?]);
    try (unfold enqueue, transition, set_retry, defer, renew_lease, set_hashed, finish_gap, lease_next_due, lease_row, record_gap, increment_counter;
         seq_frame; done).
  - intros s. unfold boot_text, set_identity, modify. cbn [snd db_identity set_identity_map]. apply lookup_insert_ne. intros ->.
    cbn [leaves_identity] in Hop. by rewrite orb_true_r in Hop.
  - unfold next_sequence. apply frames_bind; [intros s; unfold boot_text, modify; cbn [snd db_identity set_identity_map]; by rewrite lookup_partial_alter_ne|].
    intros _. apply frames_bind; [intros s; unfold boot_text, modify; cbn [snd db_identity set_identity_map]; by rewrite lookup_alter_ne|].
    intros _. seq_frame.
Qed.

(** The keys drawn so far under the boots [seen], of which [b] is the last. *)
Record drawn (seen : list string) (b : string) (v : Z) (keys : list (string * Z)) (s : StateDb) : Prop := {
  dr_boot : boot_text s = Some b;
  dr_seq : seq_text s = Some (show_Z v);
  dr_seen : In b seen /\ forall k, In k keys -> In (fst k) seen;
  dr_below : forall n, In (b, n) keys -> n <= v;
  dr_nodup : NoDup keys }.

Lemma draw_step seen b v keys op s keys' s' : drawn seen b v keys s -> 0 <= v < I64_MAX -> leaves_identity op = true ->
  draw b keys op s = (Ret keys', s') -> exists v', drawn seen b v' keys' s' /\ v <= v' <= v + 1.
Proof.
  intros [H1 H2 [H3 H3'] H4 H5] Hv Hop E. destruct (decide (op = NextSequence)) as [->|Hne].
  - cbn [draw] in E. destruct (next_sequence_advances s v H2) as (s1 & E1 & Ht); [lia|].
    assert (E2 : attempt next_sequence s = (Ret (inr (v + 1)), s1)) by (unfold attempt; by rewrite E1).
    rewrite (bind_run _ _ _ _ _ E2) in E. injection E as <- <-. exists (v + 1). split; [|lia]. constructor.
    + pose proof (boot_frame NextSequence eq_refl s) as Hf. cbn [run_op] in Hf. rewrite (bind_run _ _ _ _ _ E2) in Hf. cbn in Hf. congruence.
    + done.
    + split; [done|]. intros k [Hk|[<-|[]]]%in_app_or; [by apply H3'|done].
    + intros n [Hn|[[= <-]|[]]]%in_app_or; [specialize (H4 n Hn)|]; lia.
    + apply NoDup_app. split; [done|]. split; [|apply NoDup_singleton]. intros k Hk%list_elem_of_In Hin.
      apply list_elem_of_singleton in Hin as ->. specialize (H4 _ Hk). lia.
  - assert (E' : (run_op op ;; mret keys) s = (Ret keys', s')) by (destruct op; [exact E..|by destruct Hne|exact E]).
    apply bind_ret in E' as ([] & s1 & E1 & E2). injection E2 as <- <-.
    destruct (run_op_sequence op s v H2) as (v' & Hs & Hr); [lia| |].
    { destruct op; try done. cbn in *. by destruct (String.eqb key agent_sequence). }
    rewrite E1 in Hs. cbn [snd] in Hs. exists v'. split; [|done]. constructor; [|done..| |done].
    + pose proof (boot_frame op Hop s) as Hf. rewrite E1 in Hf. cbn [snd] in Hf. congruence.
    + intros n Hn. specialize (H4 n Hn). lia.
Qed.

Lemma len_cons {A} (x : A) l : len (x :: l) = 1 + len l.
Proof. unfold len. cbn [length]. lia. Qed.

Lemma draws_step calls : forall seen b v keys s keys' s', drawn seen b v keys s -> 0 <= v -> v + len calls < I64_MAX ->
  Forall (fun op => leaves_identity op = true) calls -> op_fold calls keys (draw b) s = (Ret keys', s') ->
  exists v', drawn seen b v' keys' s' /\ v <= v' <= v + len calls.
Proof.
  induction calls as [|op calls IH]; intros seen b v keys s keys' s' Hd Hv Hb Hc E.
  - injection E as <- <-. exists v. split; [done|]. unfold len. cbn. lia.
  - apply List.Forall_cons_iff in Hc as [Hop Hc]. pose proof (len_nonneg calls). rewrite len_cons in Hb.
    cbn [op_fold] in E. apply bind_ret in E as (k1 & s1 & E1 & E2).
    destruct (draw_step _ _ _ _ _ _ _ _ Hd ltac:(lia) Hop E1) as (v1 & Hd1 & Hr1).
    destruct (IH _ _ _ _ _ _ _ Hd1 ltac:(lia) ltac:(lia) Hc E2) as (v' & Hd' & Hr'). exists v'. split; [done|]. rewrite len_cons. lia.
Qed.

Lemma refresh_same s b : boot_text s = Some b -> refresh_boot_identity b s = (Ret false, s).
Proof. intros H. unfold refresh_boot_identity. erewrite bind_run; [|reflexivity]. change (db_identity s !! _) with (boot_text s). rewrite H. by rewrite bool_decide_eq_true_2. Qed.

Lemma refresh_new s b : boot_text s <> Some b ->
  exists s', refresh_boot_identity b s = (Ret (is_set (boot_text s)), s') /\ boot_text s' = Some b /\ seq_text s' = Some "0"%string.
Proof.
  intros H. unfold refresh_boot_identity. erewrite bind_run; [|reflexivity]. change (db_identity s !! _) with (boot_text s).
  rewrite bool_decide_eq_false_2 by done. eexists. split; [reflexivity|]. split.
  - unfold boot_text. cbn. rewrite lookup_insert_ne by done. apply lookup_insert_eq.
  - unfold seq_text. cbn. apply lookup_insert_eq.
Qed.

Definition calls_of (lives : list Life) : Z := foldr (fun l n => len (lf_calls l) + n) 0 lives.

Lemma calls_of_cons l lives : calls_of (l :: lives) = len (lf_calls l) + calls_of lives.
Proof. done. Qed.

Lemma calls_of_nonneg lives : 0 <= calls_of lives.
Proof. unfold calls_of. induction lives as [|l lives IH]; cbn; [done|]. pose proof (len_nonneg (lf_calls l)). lia. Qed.

Lemma lives_step lives : forall seen b v keys s keys' s', drawn seen b v keys s -> 0 <= v -> v + calls_of lives < I64_MAX ->
  Forall (fun l => Forall (fun op => leaves_identity op = true) (lf_calls l)) lives ->
  NoDup (dedup (b :: map lf_boot lives)) -> (forall c, In c (map lf_boot lives) -> In c seen -> c = b) ->
  op_fold lives keys run_life s = (Ret keys', s') -> NoDup keys'.
Proof.
  induction lives as [|[c calls] lives IH]; intros seen b v keys s keys' s' Hd Hv Hb Hc Hn Hseen E.
  { injection E as <- <-. apply Hd. }
  apply List.Forall_cons_iff in Hc as [Hc1 Hc2]. cbn [op_fold] in E. apply bind_ret in E as (k1 & s1 & E1 & E2).
  unfold run_life in E1. rewrite calls_of_cons in Hb. cbn [lf_boot lf_calls map] in *.
  pose proof (calls_of_nonneg lives). pose proof (len_nonneg calls). apply bind_ret in E1 as (f & s0 & Er & E1).
  destruct (decide (c = b)) as [->|Hne].
  - rewrite (refresh_same s b) in Er by apply Hd. injection Er as <- <-.
    destruct (draws_step calls _ _ _ _ _ _ _ Hd Hv ltac:(lia) Hc1 E1) as (v1 & Hd1 & Hr1).
    apply (IH _ _ _ _ _ _ s' Hd1 ltac:(lia) ltac:(lia) Hc2); [|by intros; apply Hseen; [right|]|exact E2].
    cbn [dedup] in Hn. destruct (dedup (b :: map lf_boot lives)) as [|y r] eqn:Ed; [constructor|].
    cbn [dedup] in Ed. rewrite Ed in Hn. by destruct (decide (b = y)) as [<-|]; [|apply NoDup_cons in Hn as [_ Hn]].
  - destruct (refresh_new s c) as (s2 & Er' & Hb2 & Hs2); [rewrite (dr_boot _ _ _ _ _ Hd); by intros [= <-]|].
    rewrite Er' in Er. injection Er as <- <-.
    assert (Hcs : ~ In c seen) by (intros Hin; apply Hne; apply Hseen; [by left|done]).
    assert (Hd2 : drawn (c :: seen) c 0 keys s2).
    { destruct Hd as [H1 H2 [H3 H3'] H4 H5]. constructor; [done..| | |done].
      - split; [by left|]. intros k Hk. right. by apply H3'.
      - intros n Hin. by destruct Hcs; apply (H3' _ Hin). }
    destruct (draws_step calls _ _ _ _ _ _ _ Hd2 ltac:(lia) ltac:(unfold I64_MAX in *; lia) Hc1 E1) as (v1 & Hd1 & Hr1).
    assert (Hn' : NoDup (dedup (c :: map lf_boot lives)) /\ ~ In b (dedup (c :: map lf_boot lives))).
    { change (dedup (b :: c :: map lf_boot lives)) with
        (match dedup (c :: map lf_boot lives) with y :: r => if decide (b = y) then y :: r else b :: y :: r | [] => [b] end) in Hn.
      destruct (dedup (c :: map lf_boot lives)) as [|y r] eqn:Ed; [split; [constructor|intros []]|].
      assert (y = c) as ->.
      { cbn [dedup] in Ed. destruct (dedup (map lf_boot lives)) as [|z q]; [by injection Ed|].
        destruct (decide (c = z)) as [<-|]; by injection Ed. }
      rewrite decide_False in Hn by congruence. apply NoDup_cons in Hn as [Hn1 Hn2]. split; [done|]. by rewrite <- list_elem_of_In. }
    apply (IH _ _ _ _ _ _ s' Hd1 ltac:(lia) ltac:(lia) Hc2); [apply Hn'| |exact E2].
    intros d Hin [<-|Hd']; [done|]. exfalso. pose proof (Hseen d (or_intror Hin) Hd') as ->.
    apply (proj2 Hn'). apply dedup_in. by right.
Qed.

(** Occurrence keys never repeat.  Over any number of starts of the agent, each
    under some boot and cut short anywhere, and whatever its threads call, the
    pairs of boot identifier and sequence number it draws are distinct: the
    sequence starts over exactly when the boot changes, in one transaction.  A
    boot's identifier is assumed not to come back after another one's. *)
Theorem occurrence_keys_unique lives clock keys s' :
  NoDup (dedup (map lf_boot lives)) -> calls_of lives < I64_MAX ->
  Forall (fun l => Forall (fun op => leaves_identity op = true) (lf_calls l)) lives ->
  op_fold lives [] run_life (open_db clock) = (Ret keys, s') -> NoDup keys.
Proof.
  intros Hn Hb Hc E. destruct lives as [|[c calls] lives]; [injection E as <- _; constructor|].
  apply List.Forall_cons_iff in Hc as [Hc1 Hc2]. cbn [op_fold] in E. apply bind_ret in E as (k1 & s1 & E1 & E2).
  unfold run_life in E1. rewrite calls_of_cons in Hb. cbn [lf_boot lf_calls map] in *.
  pose proof (calls_of_nonneg lives). apply bind_ret in E1 as (f & s0 & Er & E1).
  destruct (refresh_new (open_db clock) c) as (s2 & Er' & Hb2 & Hs2); [done|]. rewrite Er' in Er. injection Er as _ <-.
  assert (Hd : drawn [c] c 0 [] s2) by (constructor; [done..|split; [by left|by intros k []]|by intros n []|constructor]).
  destruct (draws_step calls _ _ _ _ _ _ _ Hd ltac:(lia) ltac:(lia) Hc1 E1) as (v1 & Hd1 & Hr1).
  apply (lives_step lives _ _ _ _ _ _ s' Hd1 ltac:(lia) ltac:(lia) Hc2 Hn); [|exact E2]. by intros d _ [<-|[]].
Qed.

(** ** The table of pending gaps *)

Definition gap_table (s : StateDb) : list PendingGap * Z := (db_gaps s, db_gap_seq s).

(** Identifiers grow in the order of the rows and stay below the counter. *)
Record gaps_wf (s : StateDb) : Prop := {
  gw_sorted : StronglySorted (fun a b => pg_id a < pg_id b) (db_gaps s);
  gw_below : forall g, In g (db_gaps s) -> pg_id g <= db_gap_seq s }.

Lemma gaps_wf_open clock : gaps_wf (open_db clock).
Proof. constructor; [constructor|by intros g []]. Qed.

Definition records_gap (op : QueueOp) : bool := match op with RecordGap _ _ _ _ _ _ => true | _ => false end.

Lemma gap_frame op : records_gap op = false -> frames gap_table (run_op op).
Proof.
  intros Hop. destruct op; try discriminate Hop; unfold run_op; (apply frames_bind; [apply frames_attempt|by intros ? ?]);
    unfold enqueue, transition, set_retry, defer, renew_lease, set_hashed, finish_gap, lease_next_due, lease_row, next_sequence, get_identity;
    seq_frame; done.
Qed.

(** A call leaves the table alone, or adds a row of a new identifier at its end. *)
Lemma run_op_gaps op s : gap_table (snd (run_op op s)) = gap_table s \/
  exists g, pg_id g = db_gap_seq s + 1 /\ gap_table (snd (run_op op s)) = (db_gaps s ++ [g], db_gap_seq s + 1).
Proof.
  destruct (records_gap op) eqn:Hop; [|left; by apply gap_frame]. right. destruct op; try discriminate Hop.
  eexists (mkPendingGap _ _ _ _ _ _ _ _). split; [|reflexivity]. reflexivity.
Qed.

Lemma gaps_wf_table s s' : gap_table s' = gap_table s -> gaps_wf s -> gaps_wf s'.
Proof. intros [= E1 E2] [H1 H2]. constructor; by rewrite E1, ?E2. Qed.

Lemma sorted_app_last {A} (lt : A -> A -> Prop) l x : StronglySorted lt l -> (forall y, In y l -> lt y x) -> StronglySorted lt (l ++ [x]).
Proof.
  induction 1 as [|y l Hl IH Hy]; intros Hx; cbn; [repeat constructor|]. constructor; [apply IH; auto with datatypes|].
  apply List.Forall_app. split; [done|]. constructor; [|constructor]. apply Hx. by left.
Qed.

Lemma keeps_gaps_wf op : keeps gaps_wf (run_op op).
Proof.
  intros s Hs. destruct (run_op_gaps op s) as [E|(g & Hg & E)]; [by apply (gaps_wf_table s)|].
  injection E as E1 E2. destruct Hs as [H1 H2]. constructor; rewrite E1, ?E2.
  - apply sorted_app_last; [done|]. intros y Hy%H2. lia.
  - intros y [Hy%H2|[<-|[]]]%in_app_or; lia.
Qed.

Lemma keeps_gap_row g op : keeps (fun s => In g (db_gaps s)) (run_op op).
Proof.
  intros s Hs. destruct (run_op_gaps op s) as [[= E _]|(x & _ & E)]; [by rewrite E|]. injection E as -> _. apply in_or_app. by left.
Qed.

(** A batch is the first rows; deleting it leaves the others. *)
Definition undelivered (ids : list Z) (g : PendingGap) : bool := negb (existsb (Z.eqb (pg_id g)) ids).

Lemma pending_gaps_run n s : gaps_wf s -> 0 <= n -> pending_gaps n s = (Ret (take (Z.to_nat n) (db_gaps s)), s).
Proof.
  intros [H1 _] Hn. unfold pending_gaps, gets, sql_limit. rewrite (proj2 (Z.ltb_ge _ _)) by lia.
  rewrite sort_by_id; [done|]. unfold gap_le. clear Hn. induction H1 as [|x l Hl IH Hx]; constructor; [done|].
  eapply List.Forall_impl; [|exact Hx]. intros y Hy. cbn in Hy. lia.
Qed.

Lemma delete_gaps_run ids : forall s, delete_gaps ids s = (Ret tt, set_gaps (List.filter (undelivered ids) (db_gaps s)) (db_gap_seq s) s).
Proof.
  unfold delete_gaps. induction ids as [|i ids IH]; intros s; cbn [op_for].
  - unfold mret, op_mret. f_equal. rewrite list_filter_all by done. by destruct s.
  - erewrite bind_run; [|reflexivity]. rewrite IH. f_equal. cbn [db_gaps set_gaps db_gap_seq].
    assert (E : List.filter (undelivered ids) (List.filter (fun g => negb (pg_id g =? i)) (db_gaps s)) = List.filter (undelivered (i :: ids)) (db_gaps s)).
    { induction (db_gaps s) as [|g l IHl]; [done|]. cbn [List.filter]. unfold undelivered at 2. cbn [existsb]. rewrite negb_orb. fold (undelivered ids g).
      destruct (pg_id g =? i); cbn [negb andb List.filter]; [done|]. destruct (undelivered ids g); by rewrite IHl. }
    rewrite E. by destruct s.
Qed.

Lemma keeps_delete_wf ids : keeps gaps_wf (delete_gaps ids).
Proof.
  intros s [H1 H2]. rewrite delete_gaps_run. constructor; cbn [snd db_gaps set_gaps db_gap_seq].
  - by apply sorted_filter.
  - by intros g [Hg%H2 _]%filter_In.
Qed.

Lemma gap_id_inj s g h : gaps_wf s -> In g (db_gaps s) -> In h (db_gaps s) -> pg_id g = pg_id h -> g = h.
Proof.
  intros [H1 _] Hg Hh E. induction H1 as [|x l Hl IH Hx]; [done|]. rewrite List.Forall_forall in Hx.
  destruct Hg as [->|Hg], Hh as [->|Hh]; [done| | |by apply IH].
  - specialize (Hx h Hh). lia.
  - specialize (Hx g Hg). lia.
Qed.

(** ** What the loops rely on the server for *)

(** [cp_recorded e r]: the server durably holds the gap. *)
Class GapView (R : Type) : Type := { cp_inv : R -> Prop; cp_recorded : GapEvent -> R -> Prop }.

Definition cp_gentle `{GapView R} {A} (m : Op R A) : Prop := keeps cp_inv m /\ forall e r, cp_inv r -> cp_recorded e r -> cp_recorded e (snd (m r)).

(** A report that is accepted is recorded, and no call forgets one. *)
Class GapLaws (R : Type) `{ControlPlane R, GapView R} : Prop := {
  cp_report_records : forall l r r', cp_inv r -> cp_report_gaps l r = (Ret tt, r') -> forall e, In e l -> cp_recorded e r';
  cp_report_gentle : forall l, cp_gentle (cp_report_gaps l);
  cp_heartbeat_gentle : forall hb, cp_gentle (cp_heartbeat hb) }.

Section gaps.
  Context {R : Type} {CP : ControlPlane R} {GV : GapView R} {GL : GapLaws R}.
  Context {UD : UuidDisplay} {UP : UuidParse} {CT : ChronoText} {JR : JsonRead}.

(** What runs next: a call of some thread, a turn of either loop during which the
    others call and which may be killed after some steps, or what others do to
    the server. *)
Inductive Task : Type :=
  | DbCall (op : QueueOp)
  | Flush (meanwhile : list QueueOp) (steps : nat)
  | Beat (version policy_digest : string) (meanwhile : list QueueOp) (steps : nat)
  | Elsewhere (call : Op R unit).

Definition others (ops : list QueueOp) : Op (Agent R) unit := op_for ops (fun op => with_db (run_op op)).

Definition run_task (t : Task) : Op (Agent R) unit := fun s =>
  let after n := mkAgent (ag_db s) (ag_spool s) (ag_remote s) n in
  match t with
  | DbCall op => (Ret tt, mkAgent (snd (run_op op (ag_db s))) (ag_spool s) (ag_remote s) (ag_steps s))
  | Flush ops n => (Ret tt, snd (gap_flusher (others ops) (after n)))
  | Beat version digest ops n => (Ret tt, snd (send_once version digest (others ops) (after n)))
  | Elsewhere call => (Ret tt, mkAgent (ag_db s) (ag_spool s) (snd (call (ag_remote s))) (ag_steps s))
  end.

Definition task_ok (t : Task) : Prop := match t with Elsewhere call => cp_gentle call | _ => True end.

(** The gap is pending or the server has it. *)
Definition recorded (g : PendingGap) (r : R) : Prop := exists e, gap_event g = Some e /\ cp_recorded e r.

Record accounted (g : PendingGap) (s : Agent R) : Prop := {
  at_wf : gaps_wf (ag_db s);
  at_inv : cp_inv (ag_remote s);
  at_gap : In g (db_gaps (ag_db s)) \/ recorded g (ag_remote s) }.

(** As [accounted], and no row of the batch is the gap's unless it is recorded. *)
Definition settled (g : PendingGap) (ids : list Z) (s : Agent R) : Prop :=
  accounted g s /\ (recorded g (ag_remote s) \/ ~ In (pg_id g) ids).

Lemma recorded_gentle {A} g (m : Op R A) r : cp_gentle m -> cp_inv r -> recorded g r -> recorded g (snd (m r)).
Proof. intros [_ Hm] Hi (e & He & Hr). exists e. split; [done|]. by apply Hm. Qed.

(** A step of the process on its database, its spool or the server. *)
Lemma keeps_with_db {A} (I : Agent R -> Prop) (m : Op StateDb A) :
  (forall s n, I s -> I (mkAgent (snd (m (ag_db s))) (ag_spool s) (ag_remote s) n)) -> keeps I (with_db m).
Proof. intros H s Hs. unfold with_db. destruct (ag_steps s) as [|n]; [done|]. specialize (H s n Hs). by destruct (m (ag_db s)). Qed.

Lemma accounted_read {A} g (m : Op StateDb A) : frames gap_table m -> keeps (accounted g) (with_db m).
Proof.
  intros Hm. apply keeps_with_db. intros s n [H1 H2 H3]. specialize (Hm (ag_db s)). constructor; [by apply (gaps_wf_table (ag_db s))|done|].
  destruct H3 as [H3|H3]; [left|by right]. cbn [ag_db]. by injection Hm as -> _.
Qed.

Lemma accounted_call g op : keeps (accounted g) (with_db (run_op op)).
Proof.
  apply keeps_with_db. intros s n [H1 H2 H3]. constructor; [by apply keeps_gaps_wf|done|].
  destruct H3 as [H3|H3]; [left|by right]. by apply keeps_gap_row.
Qed.

Lemma accounted_others g ops : keeps (accounted g) (others ops).
Proof. apply keeps_for. intros op _. apply accounted_call. Qed.

Lemma settled_others g ids ops : keeps (settled g ids) (others ops).
Proof.
  apply keeps_for. intros op _. apply keeps_with_db. intros s n [H1 H2]. split; [|done].
  destruct H1 as [H1 H4 H3]. constructor; [by apply keeps_gaps_wf|done|].
  destruct H3 as [H3|H3]; [left|by right]. by apply keeps_gap_row.
Qed.

Lemma accounted_remote {A} g (m : Op R A) : cp_gentle m -> keeps (accounted g) (with_remote m).
Proof.
  intros Hm s [H1 H2 H3]. unfold with_remote. destruct (ag_steps s) as [|n]; [by constructor|].
  pose proof (proj1 Hm _ H2) as Hi. pose proof (recorded_gentle g m (ag_remote s) Hm H2) as Hr. destruct (m (ag_remote s)) as [o r].
  constructor; [done|done|]. destruct H3 as [H3|H3]; [by left|right; by apply Hr].
Qed.

(** Once the batch is deleted the gap is still accounted for. *)
Lemma settled_delete g ids s : settled g ids s -> accounted g (snd (with_db (delete_gaps ids) s)).
Proof.
  intros [[H1 H2 H3] H4]. unfold with_db. destruct (ag_steps s) as [|n]; [by constructor|]. pose proof (keeps_delete_wf ids (ag_db s) H1) as Hw.
  rewrite delete_gaps_run in *. cbn [snd] in *. constructor; [exact Hw|done|]. cbn [ag_db ag_remote db_gaps set_gaps].
  destruct H4 as [H4|H4]; [by right|]. destruct H3 as [H3|H3]; [left|by right]. apply filter_In. split; [done|].
  unfold undelivered. apply negb_true_iff, existsb_false_forall. intros i Hi. apply Z.eqb_neq. congruence.
Qed.

Lemma deliverable_in gaps i e : In (i, e) (deliverable gaps) <-> exists g, In g gaps /\ pg_id g = i /\ gap_event g = Some e.
Proof.
  unfold deliverable. rewrite <- list_elem_of_In, list_elem_of_omap. split.
  - intros (g & Hg & E). destruct (gap_event g) as [e'|] eqn:Eg; [|done]. injection E as <- <-. exists g. by rewrite <- list_elem_of_In.
  - intros (g & Hg & <- & E). exists g. rewrite list_elem_of_In. split; [done|]. by rewrite E.
Qed.

(** The request: if the server accepts the batch, it is settled. *)
Lemma report_settles g s gaps batch o s' : accounted g s -> pending_gaps 100 (ag_db s) = (Ret gaps, ag_db s) -> batch = deliverable gaps ->
  attempt (with_remote (cp_report_gaps (map snd batch))) s = (Ret (inr o), s') -> settled g (map fst batch) s'.
Proof.
  intros Ha Eg -> E. assert (Ha' : accounted g s').
  { pose proof (keeps_attempt _ _ (accounted_remote g _ (cp_report_gentle (map snd (deliverable gaps)))) s Ha) as Hk. by rewrite E in Hk. }
  split; [done|]. unfold attempt, with_remote in E. destruct (ag_steps s) as [|n]; [discriminate E|].
  destruct (cp_report_gaps _ (ag_remote s)) as [[[]|e|] r] eqn:Er; [|discriminate E|discriminate E]. injection E as _ <-. cbn [ag_remote].
  pose proof (cp_report_records _ _ _ (at_inv _ _ Ha) Er) as Hrec.
  pose proof (proj2 (cp_report_gentle (map snd (deliverable gaps)))) as Hkeep. specialize (Hkeep) with (r := ag_remote s). rewrite Er in Hkeep. cbn [snd] in Hkeep.
  destruct (at_gap _ _ Ha) as [Hg|(e & He & Hr)]; [|left; exists e; split; [done|by apply Hkeep, Hr; apply Ha]].
  destruct (in_dec Z.eq_dec (pg_id g) (map fst (deliverable gaps))) as [Hin|Hout]; [left|by right].
  apply in_map_iff in Hin as ([i e] & Hi & Hin). pose proof Hin as (h & Hh & Hid & He)%deliverable_in. cbn [fst] in Hi.
  rewrite (pending_gaps_run 100 _ (at_wf _ _ Ha)) in Eg by lia. injection Eg as <-. assert (g = h) as ->.
  { apply (gap_id_inj (ag_db s)); [apply Ha|done| |congruence]. rewrite <- (take_drop (Z.to_nat 100) (db_gaps (ag_db s))). apply in_or_app. by left. }
  exists e. split; [done|]. apply Hrec. apply in_map_iff. by exists (i, e).
Qed.

Lemma leads_settled {A} g ids (m : Op (Agent R) A) : keeps (settled g ids) m -> leads (settled g ids) (accounted g) m.
Proof. apply leads_of_keeps. by intros s [H _]. Qed.

Lemma accounted_flush g ops : keeps (accounted g) (gap_flusher (others ops)).
Proof.
  intros s Hs. unfold gap_flusher. unfold mbind at 1, op_mbind at 1, attempt at 1, with_db at 1.
  destruct (ag_steps s) as [|n] eqn:En; [done|]. rewrite (pending_gaps_run 100 _ (at_wf _ _ Hs)) by lia.
  set (gaps := take _ _). set (s1 := mkAgent (ag_db s) (ag_spool s) (ag_remote s) n).
  assert (Hs1 : accounted g s1) by (destruct Hs; by constructor).
  destruct gaps as [|h gaps'] eqn:Eg; [done|]. destruct (deliverable (h :: gaps')) as [|b batch] eqn:Eb; [done|].
  unfold mbind at 1, op_mbind at 1. destruct (attempt _ s1) as [[[e|o]|e|] s2] eqn:E2.
  - pose proof (keeps_attempt _ _ (accounted_remote g _ (cp_report_gentle (map snd (b :: batch)))) s1 Hs1) as Hk. rewrite E2 in Hk. revert Hk.
    apply keeps_bind; [apply accounted_others|intros _; apply keeps_mret].
  - assert (Hs2 : settled g (map fst (b :: batch)) s2).
    { apply (report_settles g s1 (h :: gaps') (b :: batch) o); [done| |done|exact E2].
      rewrite (pending_gaps_run 100) by (done || apply Hs1). by rewrite <- Eg. }
    revert Hs2. generalize s2. change (leads (settled g (map fst (b :: batch))) (accounted g)
      (others ops ;; (_ ← attempt (with_db (delete_gaps (map fst (b :: batch)))); mret 5))).
    apply leads_keeps; [by intros x [H _]|apply settled_others|]. intros _ x Hx. apply settled_delete in Hx.
    unfold mbind, op_mbind, attempt. by destruct (with_db _ x) as [[u|e|] x'].
  - pose proof (keeps_attempt _ _ (accounted_remote g _ (cp_report_gentle (map snd (b :: batch)))) s1 Hs1) as Hk. by rewrite E2 in Hk.
  - pose proof (keeps_attempt _ _ (accounted_remote g _ (cp_report_gentle (map snd (b :: batch)))) s1 Hs1) as Hk. by rewrite E2 in Hk.
Qed.

Lemma accounted_spool {A} g (m : Op Spool A) : keeps (accounted g) (with_spool m).
Proof. intros s [H1 H2 H3]. unfold with_spool. destruct (ag_steps s) as [|n]; [by constructor|]. destruct (m (ag_spool s)). by constructor. Qed.

Lemma accounted_beat g version digest ops : keeps (accounted g) (send_once version digest (others ops)).
Proof.
  unfold send_once, heartbeat_request. apply keeps_bind.
  { repeat (apply keeps_bind; [first [apply accounted_spool|apply accounted_read; unfold oldest_pending_secs; seq_frame]|intros ?]). apply keeps_mret. }
  intros req. apply keeps_bind; [apply keeps_attempt, accounted_remote, cp_heartbeat_gentle|]. intros sent.
  apply keeps_bind; [apply accounted_others|]. intros _. destruct sent; [apply keeps_throw|by apply accounted_read].
Qed.

Lemma accounted_task g t : task_ok t -> keeps (accounted g) (run_task t).
Proof.
  intros Ht s Hs. assert (Hn : forall n, accounted g (mkAgent (ag_db s) (ag_spool s) (ag_remote s) n)) by (destruct Hs; by constructor).
  destruct t as [op|ops n|version digest ops n|call]; cbn [run_task snd task_ok] in *.
  - destruct Hs as [H1 H2 H3]. constructor; [by apply keeps_gaps_wf|done|]. destruct H3 as [H3|H3]; [left|by right]. by apply keeps_gap_row.
  - by apply accounted_flush.
  - by apply accounted_beat.
  - destruct Hs as [H1 H2 H3]. constructor; [done|by apply Ht|]. destruct H3 as [H3|H3]; [by left|right]. by apply recorded_gentle.
Qed.

(** No coverage gap is lost: whatever the threads call, wherever the reporting
    loop and the heartbeat are killed, and whatever becomes of their requests, a
    gap that was recorded is pending still or the server has it. *)
Theorem gaps_accounted tasks s s' g : gaps_wf (ag_db s) -> cp_inv (ag_remote s) -> Forall task_ok tasks ->
  op_for tasks run_task s = (Ret tt, s') -> In g (db_gaps (ag_db s)) -> In g (db_gaps (ag_db s')) \/ recorded g (ag_remote s').
Proof.
  intros Hw Hi Ht E Hg. assert (H : accounted g s') by
    (replace s' with (snd (op_for tasks run_task s)) by (by rewrite E); apply keeps_for;
     [intros t Hin; apply accounted_task; rewrite List.Forall_forall in Ht; by apply Ht|constructor; [done..|by left]]).
  apply H.
Qed.
End gaps.

(** ** The agents' listener behind these loops *)

Section server.
  Context {YX : YaraX} {SH : ScannerHost} {SHA : Sha256} {HEX : HexCodec} {UD : UuidDisplay} {UP : UuidParse} {GOB : Goblin} {LOG : Log2}
          {DEC : X86Decoder} {HO : HashOrder} {X5 : X509} {CT : ChronoText} {JR : JsonRead}.
  Context (ca : DeploymentCa) (der : bytes) (server_error : Error -> Error).

Definition listener (call : AgentCall) : Op Remote unit := exchange server_error (serve_agent ca (Some der) call ;; mret tt).

#[local] Instance listener_plane : ControlPlane Remote := {|
  cp_enroll token host version := exchange server_error (Access.enroll ca token host version);
  cp_heartbeat hb := listener (AHeartbeat hb);
  cp_report_gaps l := listener (AGaps l) |}.

(** The row a gap is recorded as, under the identity of the certificate. *)
Definition recorded_as (ident : AgentIdentity) (e : GapEvent) (row : CaptureAttempt) : Prop :=
  reports (id_tenant_id ident) (id_host_name ident) (id_agent_id ident) e row.

#[local] Instance listener_view : GapView Remote := {|
  cp_inv _ := True;
  cp_recorded e r := exists ident row, agent_id_from_cert_der der = Ret (id_agent_id ident) /\ In row (rows TAttempt (rm_srv r)) /\ recorded_as ident e row |}.

(** The identity is read from the agent's row. *)
Lemma peer_identity_spec s : exists o, peer_identity (Some der) s = (o, s) /\
  match o with
  | Ret ident => agent_id_from_cert_der der = Ret (id_agent_id ident) /\ exists a, In a (rows TAgent s) /\ ident = identity_of a
  | _ => True
  end.
Proof.
  unfold peer_identity. erewrite bind_run; [|reflexivity]. destruct (agent_id_from_cert_der der) as [id|e|] eqn:Ed; [|by eexists..].
  erewrite bind_run; [|reflexivity]. unfold authenticate_cert. erewrite bind_run; [|reflexivity].
  destruct (head _) as [a|] eqn:Eh; [|by eexists]. eexists. split; [reflexivity|]. cbn.
  apply head_filter_in in Eh as [Hin Hid%bool_decide_eq_true_1]. split; [by rewrite Hid|by exists a].
Qed.

(** A report over the listener, on every branch. *)
Lemma report_run l s :
  match (serve_agent ca (Some der) (AGaps l) ;; mret tt) s with
  | (Ret _, s') => exists ident new, agent_id_from_cert_der der = Ret (id_agent_id ident) /\
      rows TAttempt s' = rows TAttempt s ++ new /\ Forall2 (recorded_as ident) l new
  | (_, s') => rows TAttempt s' = rows TAttempt s
  end.
Proof.
  unfold serve_agent. rewrite bind_assoc_run. destruct (peer_identity_spec s) as (o & E & Ho). unfold mbind at 1, op_mbind at 1. rewrite E.
  destruct o as [ident|e|]; [|done..]. destruct Ho as [Hid _]. unfold report_gaps_mtls, record_gaps. rewrite bind_assoc_run.
  pose proof (record_gaps_atomic (id_tenant_id ident) (id_host_name ident) (id_agent_id ident) l s) as [_ H]. cbv zeta in H.
  unfold mbind at 1, op_mbind at 1. destruct (record_gaps_scoped _ _ _ l s) as [[n|e|] s']; cbn [fst snd] in H; [|by destruct H as [? _]|done].
  destruct H as (_ & new & Hnew & Hall). exists ident, new. done.
Qed.

Lemma heartbeat_attempts hb : frames (rows TAttempt) (serve_agent ca (Some der) (AHeartbeat hb) ;; mret tt).
Proof.
  unfold serve_agent. apply frames_bind; [|by intros ? ?]. apply frames_bind; [intros s; by destruct (peer_identity_spec s) as (o & -> & _)|].
  intros ident. unfold agent_heartbeat_mtls, heartbeat. frames_tac.
Qed.

Lemma exchange_keeps_rows (m : Op Srv unit) r :
  (exists new, rows TAttempt (snd (m (rm_srv r))) = rows TAttempt (rm_srv r) ++ new) ->
  exists new, rows TAttempt (rm_srv (snd (exchange server_error m r))) = rows TAttempt (rm_srv r) ++ new.
Proof.
  intros H. unfold exchange. destruct (rm_link r (rm_calls r)); [|by exists []; rewrite app_nil_r|]; destruct (m (rm_srv r)); exact H.
Qed.

Lemma listener_appends call : match call with AGaps _ | AHeartbeat _ => True | _ => False end ->
  forall r, exists new, rows TAttempt (rm_srv (snd (listener call r))) = rows TAttempt (rm_srv r) ++ new.
Proof.
  intros Hc r. apply exchange_keeps_rows. destruct call as [hb|l| | | |]; try done.
  - exists []. rewrite app_nil_r. apply heartbeat_attempts.
  - pose proof (report_run l (rm_srv r)) as H. destruct ((serve_agent ca (Some der) (AGaps l) ;; mret tt) (rm_srv r)) as [[u|e|] s']; cbn [snd].
    + destruct H as (ident & new & _ & H & _). by exists new.
    + exists []. by rewrite app_nil_r.
    + exists []. by rewrite app_nil_r.
Qed.

Lemma listener_gentle call : match call with AGaps _ | AHeartbeat _ => True | _ => False end -> cp_gentle (listener call).
Proof.
  intros Hc. split; [by intros r _|]. intros e r _ (ident & row & Hid & Hin & Hr). exists ident, row. split; [done|]. split; [|done].
  destruct (listener_appends call Hc r) as (new & ->). apply in_or_app. by left.
Qed.

#[local] Instance listener_laws : GapLaws Remote.
Proof.
  constructor; [|by intros; apply listener_gentle..].
  intros l r r' _ E e He. change (listener (AGaps l) r = (Ret tt, r')) in E. apply exchange_ret in E. pose proof (report_run l (rm_srv r)) as H. rewrite E in H.
  destruct H as (ident & new & Hid & Hn & Hall). exists ident.
  apply list_elem_of_In, list_elem_of_lookup in He as (i & He). destruct (Forall2_lookup_l _ _ _ _ _ Hall He) as (row & Hrow & Hrec).
  exists row. split; [done|]. split; [|done]. rewrite Hn. apply in_or_app. right. apply list_elem_of_In. by eapply list_elem_of_lookup_2.
Qed.

(** ** The queue of gaps is delivered *)

(** Identifiers still to be drawn are new and distinct. *)
Record ids_fresh (s : Srv) : Prop := {
  if_new : attempts_fresh s;
  if_inj : forall i j, (srv_uuid_next s <= i)%nat -> (srv_uuid_next s <= j)%nat -> srv_uuids s i = srv_uuids s j -> i = j }.

Definition digest_ok (sha : option string) : bool := match sha with Some h => is_set (hex_to_raw h) | None => true end.

Lemma gap_sha_ok e : digest_ok (ge_artifact_sha256 e) = true -> exists sha, gap_sha e = Ret sha.
Proof. unfold gap_sha, digest_ok. destruct (ge_artifact_sha256 e) as [h|]; [|by eexists]. destruct (hex_to_raw h); [by eexists|done]. Qed.

Lemma record_event_ok tenant host agent e s : ids_fresh s -> digest_ok (ge_artifact_sha256 e) = true ->
  exists row s', record_gap_event tenant host agent e s = (Ret tt, s') /\ rows TAttempt s' = rows TAttempt s ++ [row] /\ reports tenant host agent e row /\
    ids_fresh s' /\ rows TAgent s' = rows TAgent s.
Proof.
  intros [Hf Hi] He. destruct (gap_sha_ok e He) as (sha & Es). unfold record_gap_event. rewrite Es.
  erewrite bind_run; [|reflexivity]. erewrite bind_run; [|reflexivity]. set (s0 := snd (new_v4 s)).
  set (row := mkCaptureAttempt _ _ _ _ _ _ _ _ _ _ _).
  assert (Hn : ca_id row ∉ map ca_id (rows TAttempt s0)) by (apply (Hf (srv_uuid_next s)); lia).
  pose proof (insert_on_conflict_new TAttempt ca_id row s0 Hn) as E. exists row, (set_rows TAttempt (rows TAttempt s0 ++ [row]) s0).
  unfold insert_unique. rewrite (bind_run _ _ _ _ _ E). split; [done|]. split; [exact (rows_set_rows_eq TAttempt _ s0)|].
  split; [by eexists _, sha|]. split; [|exact (rows_set_rows_ne TAttempt TAgent _ s0 ltac:(discriminate))]. constructor.
  - intros n Hle. change (S (srv_uuid_next s) <= n)%nat in Hle. rewrite rows_set_rows_eq, map_app. intros [H|H%list_elem_of_singleton]%elem_of_app.
    + revert H. apply Hf. lia.
    + assert (n = srv_uuid_next s) as ->; [|lia]. apply Hi; [lia..|exact H].
  - intros i j H1 H2. change (S (srv_uuid_next s) <= i)%nat in H1. change (S (srv_uuid_next s) <= j)%nat in H2. apply Hi; lia.
Qed.

Lemma record_events_ok tenant host agent l : forall s, ids_fresh s -> Forall (fun e => digest_ok (ge_artifact_sha256 e) = true) l ->
  exists new s', op_for l (record_gap_event tenant host agent) s = (Ret tt, s') /\ rows TAttempt s' = rows TAttempt s ++ new /\
    Forall2 (reports tenant host agent) l new /\ ids_fresh s' /\ rows TAgent s' = rows TAgent s.
Proof.
  induction l as [|e l IH]; intros s Hs Hl; [exists [], s; by rewrite app_nil_r|].
  apply List.Forall_cons_iff in Hl as [He Hl]. destruct (record_event_ok tenant host agent e s Hs He) as (row & s1 & E & Hr & Hrep & H1 & Ha).
  destruct (IH s1 H1 Hl) as (new & s2 & E2 & Hn & Hall & H2 & Ha2). exists (row :: new), s2. cbn [op_for]. rewrite (bind_run _ _ _ _ _ E), E2.
  rewrite Hn, Hr, <- app_assoc. do 2 (split; [done|]). split; [by constructor|]. split; [done|congruence].
Qed.

(** The server knows the agent, its identifiers are fresh and the line is up. *)
Record reachable (aid : Uuid) (ident : AgentIdentity) (r : Remote) : Prop := {
  rc_cert : agent_id_from_cert_der der = Ret aid;
  rc_agent : identity_of <$> head (List.filter (fun a : row TAgent => bool_decide (ag_id a = aid)) (rows TAgent (rm_srv r))) = Some ident;
  rc_ids : ids_fresh (rm_srv r);
  rc_up : forall n, rm_link r n = LinkUp }.

Lemma report_delivers aid ident l r : reachable aid ident r -> Forall (fun e => digest_ok (ge_artifact_sha256 e) = true) l ->
  exists new r', listener (AGaps l) r = (Ret tt, r') /\ rows TAttempt (rm_srv r') = rows TAttempt (rm_srv r) ++ new /\
    Forall2 (recorded_as ident) l new /\ reachable aid ident r'.
Proof.
  intros [H1 H2 H3 H4] Hl. destruct (head _) as [a|] eqn:Eh in H2; [|done]. injection H2 as Ea.
  destruct (record_events_ok (id_tenant_id ident) (id_host_name ident) (id_agent_id ident) l (rm_srv r) H3 Hl) as (new & s' & E & Hn & Hall & Hf & Ha).
  exists new, (mkRemote s' (rm_link r) (S (rm_calls r))). split; [|split; [done|split; [done|]]].
  - assert (Ep : peer_identity (Some der) (rm_srv r) = (Ret ident, rm_srv r)).
    { unfold peer_identity. erewrite bind_run; [|reflexivity]. rewrite H1. erewrite bind_run; [|reflexivity]. unfold authenticate_cert.
      erewrite bind_run; [|reflexivity]. rewrite Eh. by rewrite <- Ea. }
    unfold listener, exchange. rewrite H4. unfold serve_agent. rewrite bind_assoc_run, (bind_run _ _ _ _ _ Ep).
    unfold report_gaps_mtls, record_gaps, record_gaps_scoped. rewrite !bind_assoc_run.
    assert (Et : db_transaction (op_for l (record_gap_event (id_tenant_id ident) (id_host_name ident) (id_agent_id ident))) (rm_srv r) = (Ret tt, s'))
      by (unfold db_transaction, transaction; by rewrite E).
    rewrite (bind_run _ _ _ _ _ Et). reflexivity.
  - constructor; [done| |done|done]. cbn [rm_srv]. rewrite Ha, Eh. by rewrite <- Ea.
Qed.
End server.

(** ** Delivery of the queue *)

(** chrono reads back the time stamps it writes. *)
Class ChronoLaws `{ChronoText} : Prop := rfc3339_roundtrip : forall t, parse_from_rfc3339 (Report.to_rfc3339 t) = Some t.

Section drains.
  Context {YX : YaraX} {SH : ScannerHost} {SHA : Sha256} {HEX : HexCodec} {UD : UuidDisplay} {UP : UuidParse} {GOB : Goblin} {LOG : Log2}
          {DEC : X86Decoder} {HO : HashOrder} {X5 : X509} {CT : ChronoText} {CL : ChronoLaws} {JR : JsonRead}.
  Context (ca : DeploymentCa) (der : bytes) (server_error : Error -> Error) (aid : Uuid) (ident : AgentIdentity).

#[local] Instance plane : ControlPlane Remote := listener_plane ca der server_error.

Definition sound_gap (g : PendingGap) : Prop := digest_ok (pg_artifact_sha256 g) = true.

Lemma gap_event_some g : exists e, gap_event g = Some e /\ ge_artifact_sha256 e = pg_artifact_sha256 g.
Proof. unfold gap_event. rewrite rfc3339_roundtrip. by eexists. Qed.

Lemma deliverable_all l : exists es, deliverable l = zip (map pg_id l) es /\ length es = length l /\
  Forall2 (fun g e => gap_event g = Some e /\ ge_artifact_sha256 e = pg_artifact_sha256 g) l es.
Proof.
  induction l as [|g l (es & E & Hn & Hall)]; [by exists []|]. destruct (gap_event_some g) as (e & He & Hs). exists (e :: es).
  split; [|split; [cbn; lia|by constructor]]. unfold deliverable in *. cbn [omap list_omap map zip zip_with]. rewrite He. cbn. by rewrite E.
Qed.

(** A call that records only well-formed digests. *)
Definition call_ok (op : QueueOp) : bool := match op with RecordGap _ _ sha _ _ _ => digest_ok sha | _ => true end.

Lemma attempted {S A} (m : Op S A) s : never_panics m -> (attempt m ;; mret tt) s = (Ret tt, snd (m s)).
Proof. intros Hm. specialize (Hm s). unfold mbind, op_mbind, attempt. by destruct (m s) as [[a|e|] s']. Qed.

Lemma run_op_returns op s : run_op op s = (Ret tt, snd (run_op op s)).
Proof.
  destruct op; unfold run_op; rewrite !attempted; try done;
    unfold enqueue, renew_lease, lease_next_due, lease_row, set_identity; calm.
Qed.

(** The other threads' calls return, and only add sound gaps at the end. *)
Lemma others_run ops : forall s : Agent Remote, gaps_wf (ag_db s) -> Forall (fun op => call_ok op = true) ops -> (length ops <= ag_steps s)%nat ->
  exists new s', others ops s = (Ret tt, s') /\ ag_remote s' = ag_remote s /\ (ag_steps s = ag_steps s' + length ops)%nat /\
    gaps_wf (ag_db s') /\ db_gaps (ag_db s') = db_gaps (ag_db s) ++ new /\ Forall sound_gap new.
Proof.
  induction ops as [|op ops IH]; intros s Hw Hc Hn.
  { exists [], s. rewrite app_nil_r. do 2 (split; [done|]). split; [cbn; lia|]. done. }
  apply List.Forall_cons_iff in Hc as [Hop Hc]. cbn [length] in Hn. destruct (ag_steps s) as [|n] eqn:En; [lia|].
  set (s1 := mkAgent (snd (run_op op (ag_db s))) (ag_spool s) (ag_remote s) n).
  assert (E1 : with_db (run_op op) s = (Ret tt, s1)) by (unfold with_db; by rewrite En, run_op_returns).
  destruct (IH s1) as (new & s' & E & Hr & Hs & Hw' & Hg & Hnew); [by apply keeps_gaps_wf|done|cbn; lia|].
  assert (Hg1 : exists l, db_gaps (ag_db s1) = db_gaps (ag_db s) ++ l /\ Forall sound_gap l).
  { destruct (records_gap op) eqn:Eop.
    - destruct op; try discriminate Eop. eexists [_]. split; [reflexivity|]. constructor; [exact Hop|constructor].
    - exists []. rewrite app_nil_r. split; [|constructor]. by injection (gap_frame op Eop (ag_db s)). }
  destruct Hg1 as (l & Hl & Hsl). exists (l ++ new), s'. unfold others. cbn [op_for]. rewrite (bind_run _ _ _ _ _ E1).
  split; [exact E|]. split; [done|]. split; [cbn in *; lia|]. split; [done|]. split; [by rewrite Hg, Hl, <- app_assoc|].
  by apply List.Forall_app.
Qed.

(** Deleting the first rows leaves the others, and those added since. *)
Lemma undelivered_rest l new k : StronglySorted (fun a b => pg_id a < pg_id b) (l ++ new) ->
  List.filter (undelivered (map pg_id (take k l))) (l ++ new) = drop k l ++ new.
Proof.
  intros Hs. rewrite <- (take_drop k l) at 2. rewrite <- app_assoc, List.filter_app. rewrite <- (take_drop k l), <- app_assoc in Hs.
  rewrite (filter_nil_forall _ (take k l)), app_nil_l.
  - apply list_filter_all. intros g Hg. unfold undelivered. apply negb_true_iff, existsb_false_forall. intros i (h & <- & Hh)%in_map_iff.
    apply Z.eqb_neq. enough (pg_id h < pg_id g) by lia. revert Hs Hh Hg. generalize (take k l) (drop k l ++ new). clear. intros a b.
    induction a as [|x a IH]; cbn; [done|]. intros Hs Hh Hg. inversion Hs as [|? ? Ha Hx]; subst. destruct Hh as [->|Hh]; [|by apply IH].
    rewrite List.Forall_forall in Hx. apply Hx. apply in_or_app. by right.
  - intros g Hg. unfold undelivered. apply negb_false_iff, existsb_exists. exists (pg_id g). split; [by apply in_map|apply Z.eqb_refl].
Qed.

(** The rows of the report of a batch, in order. *)
Definition delivered_as (g : PendingGap) (row : CaptureAttempt) : Prop := exists e, gap_event g = Some e /\ recorded_as ident e row.

(** What a task does: rows are added at the end, rows leave at the front, each
    recorded once. *)
Record delivers (s s' : Agent Remote) (count : nat) : Prop := {
  dl_wf : gaps_wf (ag_db s');
  dl_sound : Forall sound_gap (db_gaps (ag_db s'));
  dl_reach : reachable der aid ident (ag_remote s');
  dl_queue : exists added delivered rest, db_gaps (ag_db s) ++ added = delivered ++ db_gaps (ag_db s') /\
    rows TAttempt (rm_srv (ag_remote s')) = rows TAttempt (rm_srv (ag_remote s)) ++ rest /\
    Forall2 delivered_as delivered rest /\ (Nat.min count (length (db_gaps (ag_db s))) <= length delivered)%nat }.

Definition steady (t : Task (R := Remote)) : Prop :=
  match t with
  | DbCall op => call_ok op = true
  | Flush ops n => Forall (fun op => call_ok op = true) ops /\ (3 + length ops <= n)%nat
  | _ => False
  end.

Definition batches (t : Task (R := Remote)) : nat := match t with Flush _ _ => 100 | _ => 0 end.

Lemma flush_delivers ops n s : gaps_wf (ag_db s) -> Forall sound_gap (db_gaps (ag_db s)) -> reachable der aid ident (ag_remote s) ->
  Forall (fun op => call_ok op = true) ops -> (3 + length ops <= n)%nat ->
  delivers s (snd (run_task (Flush ops n) s)) 100.
Proof.
  intros Hw Hg Hr Hops Hn. destruct n as [|[|n]]; [lia..|]. cbn [run_task snd]. unfold gap_flusher. unfold mbind at 1, op_mbind at 1, attempt at 1, with_db at 1.
  cbn [ag_steps ag_db]. rewrite (pending_gaps_run 100) by (done || lia). change (Z.to_nat 100) with 100%nat.
  set (s1 := mkAgent _ _ _ _).
  destruct (take 100 (db_gaps (ag_db s))) as [|h gaps'] eqn:Eg.
  { constructor; [done..|]. exists [], [], []. rewrite !app_nil_r. do 2 (split; [done|]). split; [constructor|].
    destruct (db_gaps (ag_db s)); [cbn; lia|discriminate Eg]. }
  rewrite <- Eg. destruct (deliverable_all (take 100 (db_gaps (ag_db s)))) as (es & Ed & Hlen & Hall). rewrite Ed.
  assert (Hfst : map fst (zip (map pg_id (take 100 (db_gaps (ag_db s)))) es) = map pg_id (take 100 (db_gaps (ag_db s)))).
  { change (map fst) with (fmap (M := list) (@fst Z GapEvent)). apply fst_zip. rewrite length_map. lia. }
  assert (Hsnd : map snd (zip (map pg_id (take 100 (db_gaps (ag_db s)))) es) = es).
  { change (map snd) with (fmap (M := list) (@snd Z GapEvent)). apply snd_zip. rewrite length_map. lia. }
  destruct (zip _ es) as [|b batch] eqn:Ez.
  { rewrite Eg in Ez, Hlen. destruct es; [discriminate Hlen|discriminate Ez]. }
  rewrite <- Ez in Hfst, Hsnd |- *. rewrite Hsnd, Hfst.
  assert (Hdig : Forall (fun e => digest_ok (ge_artifact_sha256 e) = true) es).
  { apply Forall_take with (n := 100%nat) in Hg. clear -Hall Hg. induction Hall as [|g e l k [_ Hs] H IH]; [constructor|].
    apply List.Forall_cons_iff in Hg as [Hg1 Hg2]. constructor; [by rewrite Hs|by apply IH]. }
  destruct (report_delivers ca der server_error aid ident es (ag_remote s) Hr Hdig) as (new & r' & Er & Hnew & Hrec & Hr').
  set (s2 := mkAgent (ag_db s) (ag_spool s) r' n).
  assert (E2 : attempt (with_remote (cp_report_gaps es)) s1 = (Ret (inr tt), s2)) by
    (change (cp_report_gaps es) with (listener ca der server_error (AGaps es)); unfold attempt, with_remote; cbn [ag_steps ag_remote s1]; by rewrite Er).
  rewrite (bind_run _ _ _ _ _ E2).
  destruct (others_run ops s2 Hw Hops) as (added & s3 & E3 & Hr3 & Hs3 & Hw3 & Hg3 & Hs3'); [cbn; lia|].
  rewrite (bind_run _ _ _ _ _ E3). cbn [ag_steps s2] in Hs3. destruct (ag_steps s3) as [|m] eqn:Em; [lia|].
  set (s4 := mkAgent (snd (delete_gaps (map pg_id (take 100 (db_gaps (ag_db s)))) (ag_db s3))) (ag_spool s3) (ag_remote s3) m).
  assert (E4 : attempt (with_db (delete_gaps (map pg_id (take 100 (db_gaps (ag_db s)))))) s3 = (Ret (inr tt), s4)).
  { unfold attempt, with_db. rewrite Em. unfold s4. by rewrite delete_gaps_run. }
  rewrite (bind_run _ _ _ _ _ E4). cbn [snd mret op_mret].
  assert (Hg4 : db_gaps (ag_db s4) = drop 100 (db_gaps (ag_db s)) ++ added).
  { unfold s4. cbn [ag_db]. rewrite delete_gaps_run. cbn [snd db_gaps set_gaps]. rewrite Hg3. cbn [ag_db s2]. apply undelivered_rest.
    pose proof (gw_sorted _ Hw3) as Hsort. by rewrite Hg3 in Hsort. }
  constructor.
  - by apply keeps_delete_wf.
  - rewrite Hg4. apply List.Forall_app. split; [by apply Forall_drop|done].
  - cbn [ag_remote s4]. by rewrite Hr3.
  - exists added, (take 100 (db_gaps (ag_db s))), new. rewrite Hg4, app_assoc, take_drop. split; [done|].
    split; [cbn [ag_remote s4]; by rewrite Hr3|]. split; [|by rewrite length_take].
    clear -Hall Hrec. revert new Hrec. induction Hall as [|g e l k [He _] H IH]; intros new Hrec; inversion Hrec; subst; [constructor|].
    constructor; [by exists e|by apply IH].
Qed.

Lemma steady_delivers t s : gaps_wf (ag_db s) -> Forall sound_gap (db_gaps (ag_db s)) -> reachable der aid ident (ag_remote s) ->
  steady t -> delivers s (snd (run_task t s)) (batches t).
Proof.
  intros Hw Hg Hr Ht. destruct t as [op|ops n| |]; cbn [steady batches] in *; try done; [|by destruct Ht; apply flush_delivers].
  cbn [run_task snd]. assert (H : exists l, db_gaps (snd (run_op op (ag_db s))) = db_gaps (ag_db s) ++ l /\ Forall sound_gap l).
  { destruct (records_gap op) eqn:Eop.
    - destruct op; try discriminate Eop. eexists [_]. split; [reflexivity|]. constructor; [exact Ht|constructor].
    - exists []. rewrite app_nil_r. split; [|constructor]. by injection (gap_frame op Eop (ag_db s)). }
  destruct H as (l & El & Hl). constructor; [by apply keeps_gaps_wf|cbn [ag_db]; rewrite El; by apply List.Forall_app|done|].
  exists l, [], []. rewrite app_nil_r. cbn [ag_db ag_remote]. by rewrite El.
Qed.

Definition flushes (tasks : list (Task (R := Remote))) : nat := foldr (fun t n => batches t + n)%nat 0%nat tasks.

(** C31. Coverage gaps arrive.  While the server knows the agent and answers, a run of
    the reporting loop delivers the queue of gaps in order, each exactly once,
    a hundred at a turn or all there are, whatever the other threads record meanwhile: the
    rows added to the server's table are those of the gaps that left the queue. *)
Theorem gaps_delivered tasks : forall s, gaps_wf (ag_db s) -> Forall sound_gap (db_gaps (ag_db s)) -> reachable der aid ident (ag_remote s) ->
  Forall steady tasks -> delivers s (snd (op_for tasks run_task s)) (flushes tasks).
Proof.
  induction tasks as [|t tasks IH]; intros s Hw Hg Hr Ht.
  { constructor; [done..|]. exists [], [], []. rewrite !app_nil_r. do 2 (split; [done|]). split; [constructor|cbn; lia]. }
  apply List.Forall_cons_iff in Ht as [Ht Hts]. cbn [op_for]. set (s1 := snd (run_task t s)).
  assert (E : run_task t s = (Ret tt, s1)) by (unfold s1; by destruct t). rewrite (bind_run _ _ _ _ _ E).
  destruct (steady_delivers t s Hw Hg Hr Ht) as [H1 H2 H3 (a1 & d1 & r1 & Hq1 & Ha1 & Hf1 & Hn1)].
  destruct (IH s1 H1 H2 H3 Hts) as [H4 H5 H6 (a2 & d2 & r2 & Hq2 & Ha2 & Hf2 & Hn2)]. constructor; [done..|].
  exists (a1 ++ a2), (d1 ++ d2), (r1 ++ r2). rewrite Ha2. fold s1 in Hq1, Ha1. rewrite Ha1, <- !app_assoc, <- Hq2.
  split; [by rewrite app_assoc, Hq1, <- app_assoc|]. split; [done|]. split; [by apply Forall2_app|].
  apply (f_equal length) in Hq1. rewrite !length_app in *. cbn [flushes foldr]. fold (flushes tasks). lia.
Qed.
End drains.

Section lossy.
  Context {YX : YaraX} {SH : ScannerHost} {SHA : Sha256} {HEX : HexCodec} {UD : UuidDisplay} {UP : UuidParse} {GOB : Goblin} {LOG : Log2}
          {DEC : X86Decoder} {HO : HashOrder} {X5 : X509} {CT : ChronoText} {JR : JsonRead}.
  Context (ca : DeploymentCa) (der : bytes) (server_error : Error -> Error).

#[local] Instance lossy_plane : ControlPlane Remote := listener_plane ca der server_error.
#[local] Instance lossy_view : GapView Remote := listener_view der.
#[local] Instance lossy_laws : GapLaws Remote := listener_laws ca der server_error.

(** C30. No coverage gap is lost.  Whatever the agent's threads call, wherever the
    reporting loop and the heartbeat are killed, and whatever requests and answers
    the network loses, a gap that was recorded is still pending or the server has
    a row of it, under the identity of the agent's certificate. *)
Theorem gaps_never_lost tasks s g : gaps_wf (ag_db s) -> Forall task_ok tasks -> In g (db_gaps (ag_db s)) ->
  let s' := snd (op_for tasks run_task s) in
  In g (db_gaps (ag_db s')) \/
  exists e ident row, gap_event g = Some e /\ agent_id_from_cert_der der = Ret (id_agent_id ident) /\
    In row (rows TAttempt (rm_srv (ag_remote s'))) /\ recorded_as ident e row.
Proof.
  intros Hw Ht Hg s'. destruct (gaps_accounted tasks s s' g) as [H|(e & He & ident & row & H)]; [done|done|done| |done|by left|].
  - unfold s'. clear Hw Hg Ht s'. revert s. induction tasks as [|t tasks IH]; intros s; [done|]. cbn [op_for].
    assert (E : run_task t s = (Ret tt, snd (run_task t s))) by (by destruct t). rewrite (bind_run _ _ _ _ _ E). apply IH.
  - right. by exists e, ident, row.
Qed.
End lossy.

(** ** The fanotify sensor *)

(** What the kernel writes for an event: the fields the sensor reads, those it
    skips, and what follows the metadata. *)
Record FanEvent := mkFanEvent { fe_mask : Z; fe_fd : Z; fe_mid : bytes; fe_pid : Z; fe_info : bytes }.

Definition fan_len (e : FanEvent) : Z := METADATA_LEN + len (fe_info e).

Definition encode_fan (e : FanEvent) : bytes :=
  to_le 4 (fan_len e) ++ fe_mid e ++ to_le 8 (fe_mask e) ++ to_le 4 (fe_fd e) ++ to_le 4 (fe_pid e) ++ fe_info e.

Record fan_ok (e : FanEvent) : Prop := {
  fo_mask : 0 <= fe_mask e < 2 ^ 64;
  fo_fd : - 2 ^ 31 <= fe_fd e < 2 ^ 31;
  fo_mid : len (fe_mid e) = 4;
  fo_len : fan_len e < 2 ^ 32 }.

Lemma signed_wrap32 z : - 2 ^ 31 <= z < 2 ^ 31 -> signed 32 (z mod 2 ^ 32) = z.
Proof.
  intros H. unfold signed. destruct (Z.neg_nonneg_cases z) as [Hz|Hz].
  - replace (z mod 2 ^ 32) with (z + 2 ^ 32); [case_match; lia|]. rewrite <- (Z_mod_plus_full z 1), Z.mod_small; lia.
  - rewrite Z.mod_small by lia. case_match; lia.
Qed.

Lemma le_i32_skip a l i : len a <= i -> le_i32 (a ++ l) i = le_i32 l (i - len a).
Proof. intros H. unfold le_i32. rewrite slice_skip by done. by replace (i + 4 - len a) with (i - len a + 4) by lia. Qed.

Lemma le_i32_here z l : - 2 ^ 31 <= z < 2 ^ 31 -> le_i32 (to_le 4 z ++ l) 0 = Ret z.
Proof.
  intros Hz. unfold le_i32. rewrite slice_here by (by rewrite len_to_le). cbn [or_panic mbind outcome_mbind mret outcome_mret].
  rewrite from_to_le. change (256 ^ Z.of_nat 4) with (2 ^ 32). by rewrite signed_wrap32.
Qed.

Lemma encode_fan_len e : fan_ok e -> len (encode_fan e) = fan_len e.
Proof. intros [? ? Hm ?]. unfold encode_fan, fan_len, METADATA_LEN. rewrite !len_app, !len_to_le, Hm. lia. Qed.

Lemma fan_fields e rest pre : fan_ok e ->
  le_u (pre ++ encode_fan e ++ rest) (len pre) (len pre + 4) = Ret (fan_len e) /\
  le_u (pre ++ encode_fan e ++ rest) (len pre + 8) (len pre + 16) = Ret (fe_mask e) /\
  le_i32 (pre ++ encode_fan e ++ rest) (len pre + 16) = Ret (fe_fd e).
Proof.
  intros [? ? Hm Hl]. pose proof (len_nonneg (fe_info e)). unfold encode_fan. rewrite <- !app_assoc. split; [|split].
  - unfold fan_len, METADATA_LEN in *. wire_field Hm. done.
  - wire_field Hm. done.
  - repeat (rewrite ?le_i32_skip by (rewrite ?len_to_le; lia)). rewrite ?len_to_le, ?Hm.
    replace (_ - _) with 0 by lia. by apply le_i32_here.
Qed.

Definition fan_sent (rl : Z -> option string) (e : FanEvent) : list SensorEventKind := fst (sensor_event rl (fe_mask e) (fe_fd e)).
Definition fan_closed (rl : Z -> option string) (e : FanEvent) : list Z := snd (sensor_event rl (fe_mask e) (fe_fd e)).

Lemma drain_loop_events rl es tail : forall pre sent closed fuel, Forall fan_ok es -> len tail < METADATA_LEN -> (length es < fuel)%nat ->
  drain_loop fuel rl (pre ++ flat_map encode_fan es ++ tail) (len pre) sent closed =
    Ret (sent ++ flat_map (fan_sent rl) es, closed ++ flat_map (fan_closed rl) es).
Proof.
  induction es as [|e es IH]; intros pre sent closed [|fuel] He Ht Hf; [cbn in Hf; lia| |cbn in Hf; lia|]; cbn [drain_loop flat_map].
  - rewrite app_nil_l, len_app. rewrite (proj2 (Z.leb_gt _ _)) by lia. by rewrite !app_nil_r.
  - apply List.Forall_cons_iff in He as [He Hes]. pose proof (encode_fan_len e He) as Hl. rewrite <- app_assoc.
    destruct (fan_fields e (flat_map encode_fan es ++ tail) pre He) as (H1 & H2 & H3).
    pose proof (len_nonneg (fe_info e)). pose proof (len_nonneg (flat_map encode_fan es ++ tail)).
    assert (METADATA_LEN <= fan_len e) by (unfold fan_len; lia).
    rewrite (proj2 (Z.leb_le _ _)) by (rewrite !(len_app pre), (len_app (encode_fan e)); lia).
    rewrite H1, H2, H3. cbn [mbind outcome_mbind]. rewrite (proj2 (Z.ltb_ge _ _)) by lia.
    rewrite (proj2 (Z.ltb_ge _ _)) by (rewrite !(len_app pre), (len_app (encode_fan e)); lia). cbn [orb].
    unfold fan_sent at 1, fan_closed at 1. destruct (sensor_event rl (fe_mask e) (fe_fd e)) as [x c]. cbn [fst snd].
    rewrite app_assoc, <- Hl, <- len_app. rewrite IH; [|done|done|cbn in Hf; lia]. by rewrite <- !app_assoc.
Qed.

(** The events of a read come out in order; a tail shorter than the metadata is
    ignored. *)
Lemma drain_fd_events rl es tail : Forall fan_ok es -> len tail < METADATA_LEN ->
  drain_fd rl (flat_map encode_fan es ++ tail) = Ret (flat_map (fan_sent rl) es, flat_map (fan_closed rl) es).
Proof.
  intros He Ht. unfold drain_fd. apply (drain_loop_events rl es tail [] [] []); [done..|].
  rewrite length_app. assert (length es <= length (flat_map encode_fan es))%nat; [|lia].
  clear Ht. induction He as [|e es He Hes IH]; [done|]. cbn [flat_map length]. rewrite length_app.
  pose proof (encode_fan_len e He) as Hl. pose proof (len_nonneg (fe_info e)). unfold fan_len, METADATA_LEN, len in *. lia.
Qed.

(** A file event of a known path, not of a directory, and not excluded. *)
Definition observed (rl : Z -> option string) (exclusions : list string) (e : FanEvent) (path : string) : Prop :=
  has_bit (fe_mask e) FAN_Q_OVERFLOW = false /\ 0 <= fe_fd e /\ rl (fe_fd e) = Some path /\ has_bit (fe_mask e) FAN_ONDIR = false /\
  matches_exclusion exclusions path = false.

Definition overflowed (e : FanEvent) : bool := has_bit (fe_mask e) FAN_Q_OVERFLOW.

Lemma sensor_run_ret debounce exclusions e s : exists s', sensor_run debounce exclusions e s = (Ret tt, s') /\
  (forall path, has_active path s -> has_active path s') /\
  match e with
  | SensorFile path _ _ => gap_table s' = gap_table s /\ (matches_exclusion exclusions path = false -> has_active path s')
  | SensorOverflow => exists g, db_gaps s' = db_gaps s ++ [g] /\ pg_capture_reason g = "fanotify"%string /\ pg_terminal_outcome g = OUTCOME_SENSOR_OVERFLOW
  end.
Proof.
  destruct e as [path prio reason|]; cbn [sensor_run].
  - destruct (matches_exclusion exclusions path); [by exists s|].
    pose proof (run_op_returns (Enqueue path prio reason debounce) s) as E. exists (snd (run_op (Enqueue path prio reason debounce) s)).
    split; [exact E|]. split; [intros p; apply has_active_run_enqueue|]. split; [by apply gap_frame|]. intros _.
    destruct (enqueue_run path prio reason debounce s) as (o & s' & E' & Hr & _). cbn [run_op]. unfold mbind, op_mbind, attempt. by rewrite E'.
  - eexists. split; [reflexivity|]. split; [by intros path|]. eexists. split; [reflexivity|]. done.
Qed.

Lemma sensor_loop_run debounce exclusions l : forall s, exists s' new, sensor_loop debounce exclusions l s = (Ret tt, s') /\
  (forall path, has_active path s -> has_active path s') /\
  (forall path prio reason, In (SensorFile path prio reason) l -> matches_exclusion exclusions path = false -> has_active path s') /\
  db_gaps s' = db_gaps s ++ new /\ length new = length (List.filter (fun e => match e with SensorOverflow => true | _ => false end) l) /\
  Forall (fun g => pg_capture_reason g = "fanotify"%string /\ pg_terminal_outcome g = OUTCOME_SENSOR_OVERFLOW) new.
Proof.
  induction l as [|e l IH]; intros s; [exists s, []; by rewrite app_nil_r|].
  destruct (sensor_run_ret debounce exclusions e s) as (s1 & E1 & Hk & He). destruct (IH s1) as (s' & new & E & Hk' & Hp & Hg & Hn & Hf).
  unfold sensor_loop in *. cbn [op_for]. rewrite (bind_run _ _ _ _ _ E1). destruct e as [path prio reason|].
  - destruct He as [[= Hgt _] He]. exists s', new. split; [exact E|]. split; [auto|]. split; [|by rewrite <- Hgt].
    intros p q r [[= <- _ _]|Hin] Hx; [by apply Hk', He|by eapply Hp].
  - destruct He as (g & Hg1 & Hr1 & Ho1). exists s', (g :: new). split; [exact E|]. split; [auto|]. split; [intros p q r [[=]|Hin]; by eapply Hp|].
    split; [by rewrite Hg, Hg1, <- app_assoc|]. split; [cbn; lia|by constructor].
Qed.

Lemma flat_map_overflow rl es : length (List.filter (fun e => match e with SensorOverflow => true | _ => false end) (flat_map (fan_sent rl) es)) =
  length (List.filter overflowed es).
Proof.
  induction es as [|e es IH]; [done|]. cbn [flat_map List.filter]. rewrite List.filter_app, length_app, IH. unfold overflowed at 2, fan_sent at 1, sensor_event.
  destruct (has_bit (fe_mask e) FAN_Q_OVERFLOW); [done|]. destruct (0 <=? fe_fd e); [|done]. destruct (rl (fe_fd e)); [|done]. repeat (case_match; try done).
Qed.

(** C37. The fanotify sensor observes what the kernel tells it.  Of any events in one
    read, whatever the fields it skips: the path of every file event not excluded
    has an active candidate afterwards, one that is neither complete nor given up,
    whatever rows of the path were there before; no path loses its own; every overflow of the kernel's queue becomes a coverage gap,
    and the descriptor of every other event is closed, once. *)
Theorem fanotify_observes rl es tail debounce exclusions s : Forall fan_ok es -> len tail < METADATA_LEN ->
  exists sent closed s' gaps, drain_fd rl (flat_map encode_fan es ++ tail) = Ret (sent, closed) /\
    sensor_loop debounce exclusions sent s = (Ret tt, s') /\
    (forall e path, In e es -> observed rl exclusions e path -> has_active path s') /\ (forall path, has_active path s -> has_active path s') /\
    db_gaps s' = db_gaps s ++ gaps /\ length gaps = length (List.filter overflowed es) /\
    Forall (fun g => pg_capture_reason g = "fanotify"%string /\ pg_terminal_outcome g = OUTCOME_SENSOR_OVERFLOW) gaps /\
    closed = map fe_fd (List.filter (fun e => negb (overflowed e) && (0 <=? fe_fd e)) es).
Proof.
  intros He Ht. exists (flat_map (fan_sent rl) es), (flat_map (fan_closed rl) es).
  destruct (sensor_loop_run debounce exclusions (flat_map (fan_sent rl) es) s) as (s' & gaps & E & Hk & Hp & Hg & Hn & Hf). exists s', gaps.
  split; [by apply drain_fd_events|]. split; [exact E|]. split; [|split; [exact Hk|split; [exact Hg|split; [by rewrite Hn, flat_map_overflow|split; [exact Hf|]]]]].
  - intros e path Hin (H1 & H2 & H3 & H4 & H5).
    enough (exists prio reason, In (SensorFile path prio reason) (fan_sent rl e)) as (prio & reason & Hi).
    { apply (Hp path prio reason); [|done]. apply in_flat_map. by exists e. }
    unfold fan_sent, sensor_event. rewrite H1, (proj2 (Z.leb_le _ _)) by lia. rewrite H3, H4. cbn [fst].
    repeat case_match; eexists _, _; by left.
  - clear. induction es as [|e es IH]; [done|]. cbn [flat_map List.filter]. rewrite IH. unfold fan_closed at 1, sensor_event, overflowed at 2.
    destruct (has_bit (fe_mask e) FAN_Q_OVERFLOW); [done|]. by destruct (0 <=? fe_fd e).
Qed.

(** ** Enrollment *)

Section enrollment.
  Context {R : Type} {CP : ControlPlane R} {UD : UuidDisplay} {UP : UuidParse}.

Definition identity_keys : list string := ["agent_id"; "agent_token"; "ca_cert_pem"; "client_cert_pem"; "client_key_pem"]%string.

(** All of the enrollment is stored, or none of it. *)
Definition whole (s : StateDb) : Prop :=
  (forall k, In k identity_keys -> db_identity s !! k = None) \/ (forall k, In k identity_keys -> exists v, db_identity s !! k = Some v).

(** Wherever the process dies, the enrollment is stored whole or not at all. *)
Theorem enrollment_atomic cfg hostname version : keeps (fun s : Agent R => whole (ag_db s)) (ensure_identity cfg hostname version).
Proof.
  unfold ensure_identity. do 2 (apply keeps_bind; [by apply keeps_with_db|intros ?]).
  assert (H : keeps (fun s : Agent R => whole (ag_db s))
    (token ← or_throw no_token (ac_enrollment_token cfg);
     resp ← with_remote (cp_enroll token (default hostname (ac_host_name cfg)) version);
     with_db (set_identity_many [("agent_id", uuid_to_string (er_agent_id resp)); ("agent_token", er_agent_token resp);
        ("ca_cert_pem", er_ca_cert_pem resp); ("client_cert_pem", er_client_cert_pem resp);
        ("client_key_pem", er_client_key_pem resp)]%string) ;;
     mret (er_agent_id resp, er_agent_token resp))).
  { apply keeps_bind; [apply keeps_or_throw|intros token].
    apply keeps_bind; [intros s Hs; unfold with_remote; destruct (ag_steps s); [done|]; by destruct (cp_enroll _ _ _ _)|intros resp].
    apply keeps_bind; [|intros _; apply keeps_mret]. apply keeps_with_db. intros s n _. right. intros k Hk.
    cbn [ag_db set_identity_many modify snd db_identity set_identity_map foldl fst snd].
    repeat (destruct Hk as [<-|Hk]; [simplify_map_eq; by eexists|]). done. }
  destruct a as [id|]; [destruct a0 as [token|]|]; [|exact H..].
  apply keeps_bind; [apply keeps_or_throw|intros ?; apply keeps_mret].
Qed.

(** An enrolled agent asks for nothing: it answers what is stored. *)
Theorem enrolled_once cfg hostname version text id token s : (2 <= ag_steps s)%nat -> uuid_parse text = Some id ->
  db_identity (ag_db s) !! "agent_id"%string = Some text -> db_identity (ag_db s) !! "agent_token"%string = Some token ->
  exists s', ensure_identity cfg hostname version s = (Ret (id, token), s') /\ ag_remote s' = ag_remote s /\ ag_db s' = ag_db s.
Proof.
  intros Hn Hp Hi Ht. destruct s as [db sp r [|[|n]]]; [cbn in Hn; lia..|]. exists (mkAgent db sp r n). cbn [ag_db] in *.
  unfold ensure_identity, mbind, op_mbind, with_db, get_identity, gets. cbn -[lookup]. rewrite Hi, Ht. cbn. by rewrite Hp.
Qed.
End enrollment.

(** ** The heartbeat *)

Section heartbeats.
  Context {R : Type} {CP : ControlPlane R} {CT : ChronoText}.

Lemma step_db {A B} (m : Op StateDb A) (f : A -> Op (Agent R) B) db sp r n a db' : m db = (Ret a, db') ->
  (with_db m ≫= f) (mkAgent db sp r (S n)) = f a (mkAgent db' sp r n).
Proof. intros E. unfold mbind, op_mbind, with_db. cbn [ag_steps ag_db]. by rewrite E. Qed.

Lemma step_spool {A B} (m : Op Spool A) (f : A -> Op (Agent R) B) db sp r n a sp' : m sp = (Ret a, sp') ->
  (with_spool m ≫= f) (mkAgent db sp r (S n)) = f a (mkAgent db sp' r n).
Proof. intros E. unfold mbind, op_mbind, with_spool. cbn [ag_steps ag_spool]. by rewrite E. Qed.

Lemma oldest_pending_run db : exists o db', oldest_pending_secs db = (Ret o, db') /\ db_counters db' = db_counters db.
Proof.
  unfold oldest_pending_secs. erewrite bind_run; [|reflexivity]. cbn beta. destruct (minimum _); [|by do 2 eexists].
  erewrite bind_run; [|reflexivity]. by do 2 eexists.
Qed.

Lemma heartbeat_request_run version digest (s : Agent R) : (7 <= ag_steps s)%nat ->
  exists req s', heartbeat_request version digest s = (Ret req, s') /\ ag_remote s' = ag_remote s /\ (ag_steps s = 7 + ag_steps s')%nat /\
    db_counters (ag_db s') = db_counters (ag_db s) /\ hb_outcome_counts req = counts_json (sort_by counter_le (map_to_list (db_counters (ag_db s)))).
Proof.
  intros Hn. destruct s as [db sp r n]. cbn [ag_steps] in Hn. do 7 (destruct n as [|n]; [lia|]).
  destruct (oldest_pending_run db) as (o & db' & Eo & Ec). unfold heartbeat_request.
  erewrite step_db; [|reflexivity]. cbv zeta. do 4 (erewrite step_db; [|reflexivity]).
  erewrite step_spool; [|reflexivity]. erewrite step_db; [|exact Eo]. by do 2 eexists.
Qed.

(** The other threads' calls, on the database. *)
Lemma others_db ops : forall s : Agent R, (length ops <= ag_steps s)%nat ->
  exists n, others ops s = (Ret tt, mkAgent (snd (op_for ops run_op (ag_db s))) (ag_spool s) (ag_remote s) n) /\ (ag_steps s = n + length ops)%nat.
Proof.
  induction ops as [|op ops IH]; intros s Hn; [exists (ag_steps s); destruct s; split; [done|cbn; lia]|].
  cbn [length] in *. destruct (ag_steps s) as [|n] eqn:En; [lia|]. set (s1 := mkAgent (snd (run_op op (ag_db s))) (ag_spool s) (ag_remote s) n).
  assert (E1 : with_db (run_op op) s = (Ret tt, s1)) by (unfold with_db; by rewrite En, run_op_returns).
  destruct (IH s1) as (m & E & Hm); [cbn; lia|]. exists m. unfold others in *. cbn [op_for]. rewrite (bind_run _ _ _ _ _ E1), E.
  rewrite (bind_run _ _ _ _ _ (run_op_returns op (ag_db s))). split; [done|cbn in Hm; lia].
Qed.

(** A heartbeat that is accepted reports the counters as they were when it was
    made, and then removes them: what was counted while the request was under way
    is lost.  One that is not accepted keeps them all. *)
Theorem heartbeat_counts version digest meanwhile (s : Agent R) : (10 + length meanwhile <= ag_steps s)%nat ->
  exists req, hb_outcome_counts req = counts_json (sort_by counter_le (map_to_list (db_counters (ag_db s)))) /\
  let (o, s') := send_once version digest (others meanwhile) s in
  match fst (cp_heartbeat req (ag_remote s)) with
  | Ret _ => o = Ret tt /\ db_counters (ag_db s') = ∅
  | Fail e => o = Fail e /\ exists db, db_counters db = db_counters (ag_db s) /\ ag_db s' = snd (op_for meanwhile run_op db)
  | Panic => o = Panic
  end.
Proof.
  intros Hn. destruct (heartbeat_request_run version digest s) as (req & s1 & E & Hr & Hs & Hc & Ho); [lia|]. exists req. split; [exact Ho|].
  unfold send_once. rewrite (bind_run _ _ _ _ _ E). unfold mbind at 1, op_mbind at 1, attempt, with_remote. destruct (ag_steps s1) as [|n] eqn:En; [lia|].
  rewrite Hr. destruct (cp_heartbeat req (ag_remote s)) as [[u|e|] r]; cbn [fst]; [| |done].
  - destruct (others_db meanwhile (mkAgent (ag_db s1) (ag_spool s1) r n)) as (m & Em & Hm); [cbn; lia|]. rewrite (bind_run _ _ _ _ _ Em).
    cbn [ag_steps] in Hm. destruct m as [|m]; [lia|]. done.
  - destruct (others_db meanwhile (mkAgent (ag_db s1) (ag_spool s1) r n)) as (m & Em & Hm); [cbn; lia|]. rewrite (bind_run _ _ _ _ _ Em).
    split; [done|]. by exists (ag_db s1).
Qed.
End heartbeats.

(** ** Witnesses and examples *)

(** A chrono for evaluation: a sign and as many strokes. *)
Module ReferenceTime.
Definition strokes (n : nat) : string := String.string_of_list_ascii (repeat "x"%char n).
Definition text : ChronoText := {|
  Report.to_rfc3339 t := String (if t <? 0 then "-"%char else "+"%char) (strokes (Z.to_nat (Z.abs t)));
  parse_from_rfc3339 s := match s with
    | EmptyString => None
    | String c r => Some ((if Ascii.eqb c "-" then -1 else 1) * str_len r) end;
  minus_seconds t n := Some (t - n) |}.

Lemma strokes_len n : str_len (strokes n) = Z.of_nat n.
Proof. unfold str_len, strokes. induction n as [|n IH]; [done|]. cbn [repeat String.string_of_list_ascii String.length]. lia. Qed.

Lemma chrono_laws : @ChronoLaws text.
Proof. intros t. cbn. rewrite strokes_len. destruct (Z.ltb_spec t 0); cbn; f_equal; lia. Qed.
End ReferenceTime.

(** A reader of JSON texts without numbers but integers and without escapes. *)
Module ReferenceJson.
Fixpoint digits (s : string) (acc : Z) : Z * string :=
  match s with
  | String c r => if is_ascii_digit c then digits r (10 * acc + (ascii_Z c - 48)) else (acc, s)
  | EmptyString => (acc, s)
  end.
Fixpoint text (s : string) : option (string * string) :=
  match s with
  | String c r => if Ascii.eqb c "034" then Some (""%string, r) else '(a, b) ← text r; Some (String c a, b)
  | EmptyString => None
  end.
Definition literal (s : string) : option (Json * string) :=
  match strip_front (str_bytes "true") (str_bytes s), strip_front (str_bytes "false") (str_bytes s), strip_front (str_bytes "null") (str_bytes s) with
  | Some r, _, _ => Some (JBool true, bytes_str r)
  | _, Some r, _ => Some (JBool false, bytes_str r)
  | _, _, Some r => Some (JNull, bytes_str r)
  | _, _, _ => None
  end.
Fixpoint value (fuel : nat) (s : string) : option (Json * string) :=
  match fuel with
  | O => None
  | S fuel' =>
      match s with
      | String "{" (String "}" r) => Some (JObj [], r)
      | String "{" r => members fuel' r []
      | String "034" r => '(t, r) ← text r; Some (JStr t, r)
      | String c _ => if is_ascii_digit c then let '(n, r) := digits s 0 in Some (JInt n, r) else literal s
      | EmptyString => None
      end
  end
with members (fuel : nat) (s : string) (acc : list (string * Json)) : option (Json * string) :=
  match fuel with
  | O => None
  | S fuel' =>
      match s with
      | String "034" r =>
          '(k, r) ← text r;
          match r with
          | String ":" r =>
              '(v, r) ← value fuel' r;
              match r with
              | String "," r => members fuel' r (acc ++ [(k, v)])
              | String "}" r => Some (JObj (acc ++ [(k, v)]), r)
              | _ => None
              end
          | _ => None
          end
      | _ => None
      end
  end.
Definition read : JsonRead := fun s => match value (S (String.length s)) s with Some (j, EmptyString) => Some j | _ => None end.
End ReferenceJson.

Section witnesses.
Local Existing Instance ReferenceYara.engine.
Local Existing Instance ReferenceYara.host.
Local Existing Instance ReferenceHash.sha.
Local Existing Instance ReferenceHash.hex.
Local Existing Instance ReferenceUuid.display.
Local Existing Instance ReferenceAnalysis.goblin.
Local Existing Instance ReferenceAnalysis.log2.
Local Existing Instance ReferenceAnalysis.decoder.
Local Existing Instance ReferenceAnalysis.order.
Local Existing Instance ReferenceTime.text.
Local Existing Instance ReferenceTime.chrono_laws.
Local Existing Instance ReferenceJson.read.
Local Instance seven : UuidParse := fun s => if String.eqb s "7" then Some 7%N else None.
Local Instance named_seven : X509 := fun _ => inr [Some "7"%string].

Definition two_lives : list Life :=
  [mkLife "boot-a" [NextSequence; Enqueue "/bin/a" 5 "baseline" 0; NextSequence]; mkLife "boot-a" [NextSequence]; mkLife "boot-b" [NextSequence]].

Lemma occurrence_keys_unique_witness :
  exists s', op_fold two_lives [] run_life (open_db sample_clock) = (Ret [("boot-a", 1); ("boot-a", 2); ("boot-a", 3); ("boot-b", 1)]%string, s') /\
    NoDup [("boot-a", 1); ("boot-a", 2); ("boot-a", 3); ("boot-b", 1)]%string.
Proof.
  assert (E : exists s', op_fold two_lives [] run_life (open_db sample_clock) = (Ret [("boot-a", 1); ("boot-a", 2); ("boot-a", 3); ("boot-b", 1)]%string, s'))
    by (eexists; vm_compute; reflexivity).
  destruct E as (s' & E). exists s'. split; [exact E|]. apply (occurrence_keys_unique two_lives sample_clock _ s'); [|reflexivity| |exact E].
  - apply (bool_decide_unpack _). vm_compute. exact I.
  - repeat constructor.
Defined.

(** When a boot's identifier comes back after another's, the keys do repeat: on
    Windows it is the hour of the boot, computed at each start to the second. *)
Example returning_boot_repeats_keys :
  fst (op_fold (map (fun b => mkLife b [NextSequence]) ["boot-a"; "boot-b"; "boot-a"]%string) [] run_life (open_db sample_clock)) =
    Ret [("boot-a", 1); ("boot-b", 1); ("boot-a", 1)]%string.
Proof. vm_compute. reflexivity. Qed.

(** A server that knows agent 7, and an agent with two gaps to report. *)
Definition agent_seven : Schema.Agent := Access.new_agent 7%N 5%N "host" [] "1.0" 0.
Definition knows_seven : Srv := set_rows TAgent [agent_seven] with_tenant.
Definition seven_ident : AgentIdentity := mkAgentIdentity 7%N 5%N "host".
Definition two_gaps : StateDb :=
  snd ((record_gap "baseline" "TOO_LARGE" None (Some "/big"%string) None (error_detail (TooLarge 5000)) ;;
        record_gap "baseline" "CHANGED_DURING_READ" None (Some "/log"%string) None (error_detail ChangedDuringRead)) (open_db sample_clock)).
Definition reporting (link : nat -> Link) : Agent Remote := mkAgent two_gaps sample_spool (mkRemote knows_seven link 0) 0.

Lemma two_gaps_wf : gaps_wf two_gaps.
Proof. constructor; [repeat constructor|]. intros g [<-|[<-|[]]]; vm_compute; discriminate. Qed.

(** The answer to the first report is lost, the second turn is killed. *)
Definition a_night : list (Task (R := Remote)) := [Flush [] 3; Flush [RecordGap "x" "Y" None None None ""] 2; Flush [] 3].
Definition night_link (n : nat) : Link := if (n =? 0)%nat then ResponseLost else LinkUp.

Lemma gaps_never_lost_witness :
  exists g, In g (db_gaps two_gaps) /\
    exists row, In row (rows TAttempt (rm_srv (ag_remote (snd (op_for a_night (run_task (CP := listener_plane a_ca [] to_error)) (reporting night_link)))))) /\
      ca_path row = pg_path g.
Proof.
  eexists. split; [by left|].
  destruct (gaps_never_lost a_ca [] to_error a_night (reporting night_link) _ two_gaps_wf ltac:(repeat constructor) (or_introl eq_refl))
    as [H|(e & ident & row & He & _ & Hin & (id & sha & _ & ->))].
  - exfalso. revert H. vm_compute. intuition discriminate.
  - exists (mkCaptureAttempt id (id_tenant_id ident) (id_host_name ident) (id_agent_id ident) (ge_observed_at e) (ge_capture_reason e)
      (ge_terminal_outcome e) sha (ge_path e) (ge_detail_code e) (default (JObj []) (ge_detail e))). split; [exact Hin|].
    vm_compute in He. injection He as <-. reflexivity.
Defined.

Lemma seven_reachable : reachable [] 7%N seven_ident (mkRemote knows_seven (fun _ => LinkUp) 0).
Proof.
  constructor; try done. constructor.
  - intros n _. apply not_elem_of_nil.
  - intros i j _ _ H. assert (N.of_nat i + 100 = N.of_nat j + 100)%N by exact H. lia.
Qed.

Lemma gaps_delivered_witness : delivers [] 7%N seven_ident (reporting (fun _ => LinkUp))
  (snd (op_for [DbCall (RecordGap "x" "Y" None None None "")%string; Flush [] 3] (run_task (CP := listener_plane a_ca [] to_error)) (reporting (fun _ => LinkUp)))) 100.
Proof.
  apply (gaps_delivered a_ca [] to_error 7%N seven_ident [DbCall (RecordGap "x" "Y" None None None "")%string; Flush [] 3] (reporting (fun _ => LinkUp))).
  - exact two_gaps_wf.
  - repeat constructor.
  - exact seven_reachable.
  - repeat constructor.
Defined.

Definition a_close_write : FanEvent := mkFanEvent 8 5 [x03; x00; x18; x00] 42 [].
Definition an_overflow : FanEvent := mkFanEvent FAN_Q_OVERFLOW (-1) [x03; x00; x18; x00] 0 [].
Definition links (fd : Z) : option string := if fd =? 5 then Some "/bin/new"%string else None.

Lemma fanotify_observes_witness :
  exists s', has_active "/bin/new" s' /\ length (db_gaps s') = 1%nat.
Proof.
  destruct (fanotify_observes links [a_close_write; an_overflow] [x00] 0 ["*.tmp"%string] (open_db sample_clock))
    as (sent & closed & s' & gaps & _ & _ & Hr & _ & Hg & Hn & _).
  - apply List.Forall_cons; [|apply List.Forall_cons; [|apply List.Forall_nil]]; constructor; cbn; unfold FAN_Q_OVERFLOW, fan_len, METADATA_LEN, len; cbn; lia.
  - reflexivity.
  - exists s'. split; [|rewrite Hg; exact Hn]. apply (Hr a_close_write "/bin/new"%string); [by left|]. repeat split; vm_compute; congruence.
Defined.

(** The detail of a gap is text the server's side of the loop reads as JSON; of
    the errors only the size of a file too large is. *)
Example gap_detail_dropped :
  (ge_detail <$> (g ← head (db_gaps two_gaps); gap_event g)) = Some (Some (JObj [("size_bytes"%string, JInt 5000)])) /\
  (ge_detail <$> (g ← last (db_gaps two_gaps); gap_event g)) = Some None.
Proof. vm_compute. done. Qed.

(** A capture counted while the heartbeat is under way is never reported. *)
Example heartbeat_loses_counts :
  let plane : ControlPlane (list Json) := {| cp_enroll _ _ _ := throw no_token; cp_report_gaps _ := mret tt;
    cp_heartbeat hb := modify (fun l => l ++ [hb_outcome_counts hb]) |} in
  let beat ops := fun s => snd (send_once (CP := plane) "1.0" "" (others ops) (mkAgent (ag_db s) (ag_spool s) (ag_remote s) 20)) in
  ag_remote (beat [] (beat [RecordGap "x" "LATE" None None None "{}"] (mkAgent two_gaps sample_spool [] 0)))%string =
    [JObj [("CHANGED_DURING_READ", JInt 1); ("TOO_LARGE", JInt 1)]; JObj []]%string.
Proof. vm_compute. reflexivity. Qed.

(** An address with brackets is cut inside them. *)
Example agent_url_ipv6 : derive_agent_url "http://[::1]:8080" = "https://[:8443"%string /\ derive_agent_url "http://host:8080" = "https://host:8443"%string.
Proof. vm_compute. done. Qed.
End witnesses.
