(* ===== verification/Client.v ===== *)
(** * The command line client ([corpusctl/src/main.rs])

    Imports of directories, snapshots, container images and malware feeds, rule
    names, and the wait for a hunt, as programs over the server's interface
    ([Api]) and the web ([Feeds.v]).  At the end the interface is discharged with
    the routes of [Routes.v] behind a lossy link, with other clients in between. *)

From S2P Require Import Prelude Machine Text Hash Classify Cas Schema Scan Rules Hunts Features Functions Variants Ingest Access Merlin Intel Detonate Report Export Mcp Delivery Feeds Routes.
From Stdlib Require Import Strings.Byte Strings.Ascii Sorting.Permutation Sorting.Sorted.

Open Scope Z_scope.

(** ** The server, as the client sees it *)

(** An answer: decoded, or an error status. *)
Inductive Answer : Type := Answered (r : Reply) | Refused (status : Z) (e : Error).

(** A request; it fails when the connection does. *)
Class Api (R : Type) : Type := api : Headers -> Call -> Op R Answer.

(** [Uuid::new_v5(&Uuid::NAMESPACE_DNS, name)] *)
Class UuidV5 : Type := uuid_v5_dns : string -> Uuid.

(** What a command prints. *)
Inductive Line : Type :=
  | ReadFailed (path : string)
  | Present (sha path class : string)
  | UploadFailed (sha path : string) (status : Z)
  | Captured (sha path class : string) (forward_matches : list string)
  | OtherDisposition (d : AnnounceDisposition) (sha path : string)
  | TooLarge (path : string) (size : Z) (layer_digest : string)
  | Outcome (outcome sha path : string)
  | ImportComplete (captured already_present failed : Z)
  | Resolved (image_ref digest : string) (layers : Z)
  | OciComplete (captured dedup too_large skipped : Z)
  | BazaarComplete (imported : Z).

(** The state of a command: the server, the web, the clock, fresh identifiers, the
    instants the monotonic clock will show (milliseconds), and its output. *)
Record Ctl (R : Type) := mkCtl {
  ct_remote : R; ct_web : Web; ct_clock : nat -> Time; ct_clock_next : nat; ct_uuids : nat -> Uuid; ct_uuid_next : nat;
  ct_instants : nat -> Z; ct_instant_next : nat; ct_out : list Line }.
Arguments mkCtl {R}. Arguments ct_remote {R}. Arguments ct_web {R}. Arguments ct_clock {R}. Arguments ct_clock_next {R}.
Arguments ct_uuids {R}. Arguments ct_uuid_next {R}. Arguments ct_instants {R}. Arguments ct_instant_next {R}. Arguments ct_out {R}.

Section state.
  Context {R : Type}.

Definition remotely {A} (m : Op R A) : Op (Ctl R) A := fun s =>
  let '(o, r) := m (ct_remote s) in
  (o, mkCtl r (ct_web s) (ct_clock s) (ct_clock_next s) (ct_uuids s) (ct_uuid_next s) (ct_instants s) (ct_instant_next s) (ct_out s)).

Definition webly {A} (m : Op Web A) : Op (Ctl R) A := fun s =>
  let '(o, w) := m (ct_web s) in
  (o, mkCtl (ct_remote s) w (ct_clock s) (ct_clock_next s) (ct_uuids s) (ct_uuid_next s) (ct_instants s) (ct_instant_next s) (ct_out s)).

Definition utc_now : Op (Ctl R) Time := fun s =>
  (Ret (ct_clock s (ct_clock_next s)),
   mkCtl (ct_remote s) (ct_web s) (ct_clock s) (S (ct_clock_next s)) (ct_uuids s) (ct_uuid_next s) (ct_instants s) (ct_instant_next s) (ct_out s)).

Definition fresh_uuid : Op (Ctl R) Uuid := fun s =>
  (Ret (ct_uuids s (ct_uuid_next s)),
   mkCtl (ct_remote s) (ct_web s) (ct_clock s) (ct_clock_next s) (ct_uuids s) (S (ct_uuid_next s)) (ct_instants s) (ct_instant_next s) (ct_out s)).

(** [Instant::now()] *)
Definition instant : Op (Ctl R) Z := fun s =>
  (Ret (ct_instants s (ct_instant_next s)),
   mkCtl (ct_remote s) (ct_web s) (ct_clock s) (ct_clock_next s) (ct_uuids s) (ct_uuid_next s) (ct_instants s) (S (ct_instant_next s)) (ct_out s)).

Definition print (l : Line) : Op (Ctl R) unit := fun s =>
  (Ret tt, mkCtl (ct_remote s) (ct_web s) (ct_clock s) (ct_clock_next s) (ct_uuids s) (ct_uuid_next s) (ct_instants s) (ct_instant_next s) (ct_out s ++ [l])).
End state.

(** ** Requests *)

Record Client := mkClient { cl_tenant : option string; cl_admin_token : option string }.

(** What [HeaderValue] accepts (http): no control characters but the tab; only
    visible ASCII is text to the server. *)
Definition header_byte (c : ascii) : bool := ((32 <=? ascii_Z c) && negb (ascii_Z c =? 127)) || (ascii_Z c =? 9).
Definition visible_byte (c : ascii) : bool := in_range 32 126 c || (ascii_Z c =? 9).

Definition header_value (s : string) : option HeaderValue :=
  if negb (str_all header_byte s) then None else if str_all visible_byte s then Some (Visible s) else Some Opaque.

Definition builder_error : Error := BadRequest "builder error: failed to parse header value".

Definition optional_header (v : option string) : outcome (option HeaderValue) :=
  match v with None => Ret None | Some s => h ← or_fail builder_error (header_value s); Ret (Some h) end.

Definition req (c : Client) : outcome Headers :=
  tenant ← optional_header (cl_tenant c);
  authorization ← optional_header (t ← cl_admin_token c; Some ("Bearer " +:+ t));
  Ret (mkHeaders authorization tenant).

Section client.
  Context {R : Type} {AP : Api R} {SHA : Sha256} {HEX : HexCodec} {UD : UuidDisplay} {UP : UuidParse} {V5 : UuidV5}
          {JB : JsonBytes} {ST : StatusText} {JT : JsonText} {CT : ChronoText} {TR : TarReader} {ZR : ZipReader}.
  Context (c : Client).

Definition request (call : Call) : Op (Ctl R) Answer :=
  h ← lift_outcome (req c);
  remotely (api h call).

(** [anyhow]'s errors. *)
Definition server_returned (status : Z) : Error := BadRequest ("server returned " +:+ status_text status).
Definition undecodable : Error := BadRequest "decoding response".
Definition no_upload_id : Error := BadRequest "no upload_id in response".

Definition send {T} (decode : Reply -> option T) (call : Call) : Op (Ctl R) T :=
  a ← request call;
  match a with
  | Refused status _ => throw (server_returned status)
  | Answered r => or_throw undecodable (decode r)
  end.

Definition announce_reply (r : Reply) : option AnnounceResponse := match r with RAnnounce a => Some a | _ => None end.
Definition finalize_reply (r : Reply) : option FinalizeResponse := match r with RFinalize a => Some a | _ => None end.
Definition rules_reply (r : Reply) : option (list RuleResponse) := match r with RRules l => Some l | _ => None end.
Definition bundle_reply (r : Reply) : option (BundleResponse * option Uuid) := match r with RBundle b h => Some (b, h) | _ => None end.
Definition hunt_reply (r : Reply) : option Hunt := match r with RHunt h => Some h | _ => None end.
Definition indicators_reply (r : Reply) : option Z := match r with RIndicators n _ => Some n | _ => None end.
Definition hits_reply (r : Reply) : option (list HashHuntHit) := match r with RHits l => Some l | _ => None end.

(** [format!("{d:?}")] *)
Definition disposition_debug (d : AnnounceDisposition) : string :=
  match d with
  | AlreadyPresent => "AlreadyPresent" | UploadRequired => "UploadRequired" | MetadataOnlyAccepted => "MetadataOnlyAccepted"
  | RejectedPolicy => "RejectedPolicy" | RejectedQuota => "RejectedQuota" | RetryLater => "RetryLater"
  end.

(** *** One file *)

Definition commit_bytes (b : bytes) (occ : option OccurrenceInfo) (scope : option string) (provenance : option Json) : Op (Ctl R) (string * string) :=
  let sha := sha256_hex b in
  ann ← send announce_reply (Announce (mkAnnounceRequest sha (Functions.as_i64 (len b)) occ));
  match ap_disposition ann with
  | AlreadyPresent => mret (sha, "already_present"%string)
  | UploadRequired =>
      upload_id ← or_throw no_upload_id (ap_upload_id ann);
      up ← request (Upload upload_id b);
      match up with
      | Refused status _ => throw (BadRequest ("upload failed: " +:+ status_text status))
      | Answered _ =>
          _ ← send finalize_reply (Finalize (mkFinalizeRequest upload_id sha (Functions.as_i64 (len b)) occ scope provenance));
          mret (sha, "captured"%string)
      end
  | other => mret (sha, disposition_debug other)
  end.

(** The answer's status is not looked at. *)
Definition report_gap (host reason outcome path : string) (detail : Json) : Op (Ctl R) unit :=
  t ← utc_now;
  _ ← request (ReportGaps [mkGapEvent t reason outcome None (Some path) None (Some detail) (Some host)]);
  mret tt.

Definition agent_of (host : string) : Uuid := uuid_v5_dns ("corpusctl:" +:+ host).

(** *** Directories *)

(** A regular file under the directory: what reading it and its time of
    modification answer. *)
Record LocalFile := mkLocalFile { lf_path : string; lf_bytes : string + bytes; lf_mtime : option Time }.

Record ImportOptions := mkImportOptions { io_capture_reason : string; io_host : option string; io_observed_at : option Time }.

Record Tally := mkTally { ta_captured : Z; ta_present : Z; ta_failed : Z }.

Definition import_file (host : string) (boot_id : Uuid) (opts : ImportOptions) (t : Tally) (i : nat * LocalFile) : Op (Ctl R) Tally :=
  let '(idx, f) := i in
  let seq := Z.of_nat idx + 1 in
  match lf_bytes f with
  | inl _ => print (ReadFailed (lf_path f)) ;; mret (mkTally (ta_captured t) (ta_present t) (ta_failed t + 1))
  | inr b =>
      class ← lift_outcome (classify b);
      let sha := sha256_hex b in
      observed_at ← (match io_observed_at opts with Some o => mret o | None => utc_now end);
      let occ := mkOccurrenceInfo host (agent_of host) boot_id seq (io_capture_reason opts) observed_at (lf_path f) (Functions.as_i64 (len b)) (lf_mtime f) in
      announce ← send announce_reply (Announce (mkAnnounceRequest sha (Functions.as_i64 (len b)) (Some occ)));
      match ap_disposition announce with
      | AlreadyPresent => print (Present sha (lf_path f) (class_str class)) ;; mret (mkTally (ta_captured t) (ta_present t + 1) (ta_failed t))
      | UploadRequired =>
          upload_id ← or_throw no_upload_id (ap_upload_id announce);
          up ← request (Upload upload_id b);
          match up with
          | Refused status _ => print (UploadFailed sha (lf_path f) status) ;; mret (mkTally (ta_captured t) (ta_present t) (ta_failed t + 1))
          | Answered _ =>
              fin ← send finalize_reply (Finalize (mkFinalizeRequest upload_id sha (Functions.as_i64 (len b)) (Some occ) None None));
              print (Captured sha (lf_path f) (class_str class) (fp_forward_matches fin)) ;;
              mret (mkTally (ta_captured t + 1) (ta_present t) (ta_failed t))
          end
      | other => print (OtherDisposition other sha (lf_path f)) ;; mret t
      end
  end.

(** [files]: the regular files under the directory, in the order of their paths;
    [hostname]: the name of this machine. *)
Definition import_dir (hostname : string) (files : list LocalFile) (opts : ImportOptions) : Op (Ctl R) unit :=
  let host := default hostname (io_host opts) in
  boot_id ← fresh_uuid;
  t ← op_fold (enumerate files) (mkTally 0 0 0) (import_file host boot_id opts);
  print (ImportComplete (ta_captured t) (ta_present t) (ta_failed t)).

Definition cmd_import (hostname : string) (files : list LocalFile) (capture_reason : string) : Op (Ctl R) unit :=
  import_dir hostname files (mkImportOptions capture_reason None None).

(** *** Container images *)

Record OciJob := mkOciJob {
  oj_label : string; oj_image_digest : string; oj_created : option Time; oj_layers : list (string * list LayerEntry) }.

(** [read] is the file at [tar_path], or why it cannot be read. *)
Definition saved_image (tar_path : string) (read : string + bytes) (max_artifact_bytes : Z) : outcome OciJob :=
  b ← (match read with inl e => Fail (Io ("reading " +:+ (tar_path +:+ (": " +:+ e)))) | inr b => Ret b end);
  r ← walk_docker_save b;
  let '(tags, layers) := r in
  entries ← map_outcome (fun layer => files ← walk_layer layer false max_artifact_bytes; Ret ("sha256:" +:+ sha256_hex layer, files)) layers;
  Ret (mkOciJob (default tar_path (head tags)) "docker-save" None entries).

Fixpoint pull_layers (reg : RegistryClient) (iref : ImageRef) (max_artifact_bytes : Z) (l : list string) : Op Web (list (string * list LayerEntry)) :=
  match l with
  | [] => mret []
  | digest :: l' =>
      layer ← layer_bytes reg iref digest;
      files ← lift_outcome (walk_layer layer true max_artifact_bytes);
      entries ← pull_layers reg iref max_artifact_bytes l';
      mret ((digest, files) :: entries)
  end.

(** [creds]: the user name and password of the environment, if both are set. *)
Definition pulled_image (image_ref : string) (creds : option (string * string)) (max_artifact_bytes : Z) : Op (Ctl R) OciJob :=
  iref ← lift_outcome (parse_image_ref image_ref);
  reg ← webly (connect iref creds);
  resolved ← webly (resolve reg iref);
  print (Resolved image_ref (rm_image_digest resolved) (len (rm_layers resolved))) ;;
  entries ← webly (pull_layers reg iref max_artifact_bytes (rm_layers resolved));
  mret (mkOciJob image_ref (rm_image_digest resolved) (rm_created resolved) entries).

Record OciTally := mkOciTally { ot_seq : Z; ot_captured : Z; ot_dedup : Z; ot_too_large : Z; ot_skipped : Z }.

Definition import_entry (agent_id boot_id : Uuid) (job : OciJob) (t : OciTally) (i : string * LayerEntry) : Op (Ctl R) OciTally :=
  let '(layer_digest, f) := i in
  let seq := ot_seq t + 1 in
  match le_bytes f with
  | None =>
      report_gap (oj_label job) "oci_image" "TOO_LARGE" (le_path f)
        (JObj [("size_bytes", JInt (le_size f)); ("layer_digest", JStr layer_digest)]%string) ;;
      print (TooLarge (le_path f) (le_size f) layer_digest) ;;
      mret (mkOciTally seq (ot_captured t) (ot_dedup t) (ot_too_large t + 1) (ot_skipped t))
  | Some b =>
      class ← lift_outcome (classify b);
      if bool_decide (class = Unknown) then mret (mkOciTally seq (ot_captured t) (ot_dedup t) (ot_too_large t) (ot_skipped t + 1))
      else
        observed_at ← (match oj_created job with Some o => mret o | None => utc_now end);
        let occ := mkOccurrenceInfo (oj_label job) agent_id boot_id seq "oci_image" observed_at (le_path f) (Functions.as_i64 (len b)) None in
        let prov := file_provenance (oj_label job) (oj_image_digest job) layer_digest (le_path f) in
        r ← commit_bytes b (Some occ) None (Some prov);
        print (Outcome (snd r) (fst r) (le_path f)) ;;
        mret (if String.eqb (snd r) "captured" then mkOciTally seq (ot_captured t + 1) (ot_dedup t) (ot_too_large t) (ot_skipped t)
              else mkOciTally seq (ot_captured t) (ot_dedup t + 1) (ot_too_large t) (ot_skipped t))
  end.

Definition import_job (agent_id boot_id : Uuid) (job : OciJob) : Op (Ctl R) unit :=
  t ← op_fold (flat_map (fun layer => map (fun f => (fst layer, f)) (snd layer)) (oj_layers job)) (mkOciTally 0 0 0 0 0) (import_entry agent_id boot_id job);
  print (OciComplete (ot_captured t) (ot_dedup t) (ot_too_large t) (ot_skipped t)).

Definition one_of_both : Error := BadRequest "provide exactly one of <image-ref> or --from-tar <path>".

Definition cmd_import_oci (hostname : string) (image_ref from_tar : option string) (read : string + bytes) (creds : option (string * string))
    (max_artifact_bytes : Z) : Op (Ctl R) unit :=
  let agent_id := agent_of hostname in
  boot_id ← fresh_uuid;
  job ← (match image_ref, from_tar with
         | None, Some tar_path => lift_outcome (saved_image tar_path read max_artifact_bytes)
         | Some image_ref, None => pulled_image image_ref creds max_artifact_bytes
         | _, _ => throw one_of_both
         end);
  import_job agent_id boot_id job.

(** *** Feeds *)

Definition bazaar_sample (sha : string) (imported : Z) (f : string * bytes) : Op (Ctl R) Z :=
  let prov := JObj [("source", JStr "malwarebazaar"); ("sample_sha256", JStr sha); ("name", JStr (fst f))]%string in
  r ← commit_bytes (snd f) None (Some "intel"%string) (Some prov);
  print (Outcome (snd r) (fst r) (fst f)) ;;
  mret (imported + 1).

Definition intel_malwarebazaar (limit : Z) (url : option string) : Op (Ctl R) unit :=
  let api_url := default MB_API_URL url in
  hashes ← webly (mb_recent_hashes api_url limit);
  imported ← op_fold hashes 0 (fun imported sha =>
    zip ← webly (mb_fetch_zip api_url sha);
    files ← lift_outcome (mb_unzip zip);
    op_fold files imported (bazaar_sample sha));
  print (BazaarComplete imported).

Definition is_sha256 (i : Indicator) : bool := String.eqb (in_ioc_type i) "sha256".

(** The indicators stored and the hits of the hunt, if one was asked for. *)
Definition intel_taxii (url collection : string) (api_key : option string) (auto_hunt : bool) : Op (Ctl R) (Z * option (list HashHuntHit)) :=
  bundle ← webly (fetch_taxii_indicators url collection api_key);
  let iocs := extract_hash_iocs bundle in
  let source := "taxii:" +:+ (url +:+ ("/" +:+ collection)) in
  upserted ← send indicators_reply (UpsertIndicators source (map (fun i => (in_ioc_type i, in_value i, Some (in_raw i))) iocs));
  if auto_hunt then
    hits ← send hits_reply (HashHunt (map in_value (List.filter is_sha256 iocs)));
    mret (upserted, Some hits)
  else mret (upserted, None).

(** *** Snapshots *)

Definition is_char_start (b : byte) : bool := negb ((128 <=? u8 b) && (u8 b <? 192)).

(** [line.rsplit_once(char::is_whitespace)] *)
Fixpoint rsplit_space (b : bytes) : option (bytes * bytes) :=
  match b with
  | [] => None
  | x :: b' =>
      match rsplit_space b' with
      | Some (u, v) => Some (x :: u, v)
      | None => if is_char_start x then match strip_space white_space b with Some rest => Some ([], rest) | None => None end else None
      end
  end.

Definition expected_entry (lineno : nat) : Error := BadRequest ("line " +:+ (show_Z (Z.of_nat lineno) +:+ ": expected '<dir> <rfc3339>'")).
Definition bad_rfc3339 (lineno : nat) (ts : string) : Error := BadRequest ("line " +:+ (show_Z (Z.of_nat lineno) +:+ (": bad rfc3339 " +:+ debug_str ts))).

(** The entry of a line, if it is not blank or a comment. *)
Definition snapshot_line (i : nat * string) : outcome (option (Time * string)) :=
  let line := str_trim (snd i) in
  if String.eqb line "" || str_starts_with "#" line then Ret None
  else
    r ← or_fail (expected_entry (S (fst i))) (rsplit_space (str_bytes line));
    let '(dir, ts) := (bytes_str (fst r), bytes_str (snd r)) in
    t ← or_fail (bad_rfc3339 (S (fst i)) ts) (parse_from_rfc3339 ts);
    Ret (Some (t, str_trim dir)).

(** [text.lines()] *)
Definition strip_cr (line : string) : string := default line (strip_suffix_char "013" line).
Fixpoint str_lines (s acc : string) : list string :=
  match s with
  | EmptyString => if String.eqb acc "" then [] else [acc]
  | String ch s' => if Ascii.eqb ch "010" then strip_cr acc :: str_lines s' "" else str_lines s' (acc +:+ String ch "")
  end.

(** The snapshots of the file, oldest first. *)
Definition snapshot_times (text : string) : outcome (list (Time * string)) :=
  l ← map_outcome snapshot_line (enumerate (str_lines text ""));
  Ret (sort_by (fun a b => fst a <=? fst b) (omap (fun x => x) l)).

(** [walk dir]: the regular files under a directory. *)
Definition backfill_dir (host : string) (walk : string -> list LocalFile) (e : Time * string) : Op (Ctl R) unit :=
  import_dir host (walk (snd e)) (mkImportOptions "historical_backfill" (Some host) (Some (fst e))).

Definition either_backfill : Error := BadRequest "use either --root <dir> --observed-at <ts> or --snapshot-times-file <file>".

Definition backfill (root : option string) (observed_at : option Time) (host : string) (snapshot_times_file : option string)
    (read_to_string : string -> string + string) (walk : string -> list LocalFile) : Op (Ctl R) unit :=
  match root, observed_at, snapshot_times_file with
  | Some root, Some ts, None => backfill_dir host walk (ts, root)
  | None, None, Some file =>
      text ← (match read_to_string file with inl e => throw (Io ("reading " +:+ (file +:+ (": " +:+ e)))) | inr t => mret t end);
      entries ← lift_outcome (snapshot_times text);
      op_for entries (backfill_dir host walk)
  | _, _, _ => throw either_backfill
  end.

(** *** Rules, bundles and hunts *)

Definition unknown_rule (spec : string) (rules : list RuleResponse) : Error :=
  BadRequest ("unknown rule " +:+ (debug_str spec +:+ (" (known: " +:+ (str_join ", " (map rr_stable_id rules) +:+ ")")))).

Definition resolve_rule (rules : list RuleResponse) (spec : string) : outcome Uuid :=
  match (id ← uuid_parse spec; if existsb (fun r => bool_decide (rr_id r = id)) rules then Some id else None) with
  | Some id => Ret id
  | None => or_fail (unknown_rule spec rules) (rr_id <$> head (List.filter (fun r => String.eqb (rr_stable_id r) spec) rules))
  end.

Definition resolve_rule_ids (specs : list string) : Op (Ctl R) (list Uuid) :=
  rules ← send rules_reply ListRules;
  lift_outcome (map_outcome (resolve_rule rules) specs).

Definition bundles_publish (rules : list string) (activate : bool) : Op (Ctl R) (BundleResponse * option Uuid) :=
  rule_ids ← resolve_rule_ids rules;
  send bundle_reply (PublishBundle rule_ids activate).

Definition terminal_hunt (h : Hunt) : bool := existsb (String.eqb (hu_state h)) ["COMPLETED"; "COMPLETED_PARTIAL"; "FAILED"]%string.

Definition still_running (h : Hunt) (wait_secs : Z) : Error :=
  BadRequest ("hunt " +:+ (uuid_to_string (hu_id h) +:+ (" still " +:+ (hu_state h +:+ (" after " +:+ (show_Z wait_secs +:+ "s")))))).

(** The loop sleeps 250 ms between two polls. *)
Fixpoint watch_hunt (fuel : nat) (hunt_id : Uuid) (wait_secs deadline : Z) (hunt : Hunt) : Op (Ctl R) Hunt :=
  match fuel with
  | O => panic
  | S fuel' =>
      if terminal_hunt hunt then mret hunt
      else
        t ← instant;
        if deadline <? t then throw (still_running hunt wait_secs)
        else
          hunt ← send hunt_reply (GetHunt hunt_id);
          watch_hunt fuel' hunt_id wait_secs deadline hunt
  end.

(** At most four polls a second; adding a longer wait to an instant panics. *)
Definition watch_fuel (wait_secs : Z) : nat := Z.to_nat (4 * wait_secs + 2).

Definition hunts_run (hunt_id : Uuid) (no_wait : bool) (wait_secs : Z) : Op (Ctl R) Hunt :=
  hunt ← send hunt_reply (RunHunt hunt_id None);
  if no_wait then mret hunt
  else
    start ← instant;
    if 2 ^ 63 <=? start / 1000 + wait_secs then panic
    else watch_hunt (watch_fuel wait_secs) hunt_id wait_secs (start + 1000 * wait_secs) hunt.
End client.

(** ** What imports rely on the server for *)

(** The digest's bytes are stored; the occurrence is recorded with it; nothing is
    recorded under the boot past a number. *)
Class ApiView (R : Type) : Type := {
  ap_inv : R -> Prop;
  ap_stored : string -> R -> Prop;
  ap_recorded : OccurrenceInfo -> string -> R -> Prop;
  ap_free : Uuid -> Z -> R -> Prop }.

Section contract.
  Context {R : Type} {AV : ApiView R}.

Record grows (r r' : R) : Prop := {
  gr_inv : ap_inv r -> ap_inv r';
  gr_stored : forall sha, ap_stored sha r -> ap_stored sha r';
  gr_recorded : forall occ sha, ap_recorded occ sha r -> ap_recorded occ sha r' }.

Lemma api_grows_refl r : grows r r.
Proof. by constructor. Qed.
Lemma api_grows_trans r r1 r2 : grows r r1 -> grows r1 r2 -> grows r r2.
Proof. intros [? ? ?] [? ? ?]. constructor; auto. Qed.

(** The occurrence is of the boot, past the number [n]. *)
Definition fits (b : Uuid) (n : Z) (occ : option OccurrenceInfo) : Prop :=
  match occ with Some o => oi_boot_id o = b /\ n < oi_agent_sequence o | None => True end.
Definition past (n : Z) (occ : option OccurrenceInfo) : Z := match occ with Some o => oi_agent_sequence o | None => n end.
Definition noted (occ : option OccurrenceInfo) (sha : string) (r : R) : Prop := match occ with Some o => ap_recorded o sha r | None => True end.

(** The file is in the corpus, with its occurrence. *)
Record kept (b : Uuid) (n : Z) (occ : option OccurrenceInfo) (sha : string) (r : R) : Prop := {
  kp_stored : ap_stored sha r; kp_noted : noted occ sha r; kp_free : ap_free b (past n occ) r }.
End contract.

Definition import_call (call : Call) : bool :=
  match call with Announce _ | Upload _ _ | Finalize _ | ReportGaps _ => true | _ => false end.

Class ApiLaws (R : Type) `{Api R, ApiView R} (h : Headers) : Prop := {
  al_free_mono : forall b n m r, n <= m -> ap_free b n r -> ap_free b m r;
  al_grows : forall call r, import_call call = true -> ap_inv r -> grows r (snd (api h call r));
  al_upload : forall u b0 b n r, ap_inv r -> ap_free b n r -> ap_free b n (snd (api h (Upload u b0) r));
  al_gaps : forall l b n r, ap_inv r -> ap_free b n r -> ap_free b n (snd (api h (ReportGaps l) r));
  al_announce : forall a r resp r' b n, ap_inv r -> ap_free b n r -> fits b n (an_occurrence a) ->
    api h (Announce a) r = (Ret (Answered (RAnnounce resp)), r') ->
    match ap_disposition resp with AlreadyPresent => kept b n (an_occurrence a) (an_sha256 a) r' | _ => ap_free b n r' end;
  al_finalize : forall f r resp r' b n, ap_inv r -> ap_free b n r -> fits b n (fq_occurrence f) ->
    api h (Finalize f) r = (Ret (Answered (RFinalize resp)), r') -> kept b n (fq_occurrence f) (fq_sha256 f) r' }.

Section imports.
  Context {R : Type} {AP : Api R} {AV : ApiView R} {SHA : Sha256} {HEX : HexCodec} {UD : UuidDisplay} {UP : UuidParse} {V5 : UuidV5}
          {JB : JsonBytes} {ST : StatusText} {JT : JsonText} {CT : ChronoText} {TR : TarReader} {ZR : ZipReader}.
  Context (c : Client) (h : Headers) (Hh : req c = Ret h) {AL : ApiLaws R h}.

Definition set_remote (r : R) (s : Ctl R) : Ctl R :=
  mkCtl r (ct_web s) (ct_clock s) (ct_clock_next s) (ct_uuids s) (ct_uuid_next s) (ct_instants s) (ct_instant_next s) (ct_out s).

Lemma request_run call s : request c call s = (fst (api h call (ct_remote s)), set_remote (snd (api h call (ct_remote s))) s).
Proof. unfold request. rewrite Hh. erewrite bind_run; [|reflexivity]. unfold remotely. by destruct (api h call (ct_remote s)). Qed.

(** A request that succeeds was answered. *)
Lemma send_ret {T} (decode : Reply -> option T) call s a s' : send c decode call s = (Ret a, s') ->
  exists reply r', api h call (ct_remote s) = (Ret (Answered reply), r') /\ decode reply = Some a /\ s' = set_remote r' s.
Proof.
  unfold send. intros E. apply bind_ret in E as (ans & s1 & E1 & E). rewrite request_run in E1. destruct (api h call (ct_remote s)) as [o r'] eqn:Ea.
  cbn [fst snd] in E1. injection E1 as -> <-. destruct ans as [reply|status e]; [|discriminate E]. unfold or_throw in E.
  destruct (decode reply) as [x|] eqn:Ed; [|discriminate E]. injection E as -> <-. by exists reply, r'.
Qed.

Lemma send_out {T} (decode : Reply -> option T) call s a s' : send c decode call s = (Ret a, s') -> ct_out s' = ct_out s.
Proof. by intros (reply & r' & _ & _ & ->)%send_ret. Qed.

(** Whatever its answer, a request of an import keeps what was there. *)
Definition quiet {A} (m : Op (Ctl R) A) : Prop := forall s, ap_inv (ct_remote s) ->
  grows (ct_remote s) (ct_remote (snd (m s))) /\ ct_out (snd (m s)) = ct_out s.

Lemma quiet_bind {A B} (m : Op (Ctl R) A) (f : A -> Op (Ctl R) B) : quiet m -> (forall a, quiet (f a)) -> quiet (m ≫= f).
Proof.
  intros Hm Hf s Hs. destruct (Hm s Hs) as [H1 H2]. unfold mbind, op_mbind. destruct (m s) as [[a|e|] s1]; cbn [snd] in *; [|done..].
  destruct (Hf a s1) as [H3 H4]; [by apply H1|]. split; [by eapply api_grows_trans|congruence].
Qed.

Lemma quiet_stay {A} (m : Op (Ctl R) A) : (forall s, ct_remote (snd (m s)) = ct_remote s) -> (forall s, ct_out (snd (m s)) = ct_out s) -> quiet m.
Proof. intros H1 H2 s _. rewrite H1, H2. split; [apply api_grows_refl|done]. Qed.

Lemma quiet_request call : import_call call = true -> quiet (request c call).
Proof. intros Hc s Hs. rewrite request_run. split; [by apply al_grows|done]. Qed.

Lemma quiet_or_throw {A} e (o : option A) : quiet (or_throw e o).
Proof. destruct o; by apply quiet_stay. Qed.

Lemma quiet_send {T} (decode : Reply -> option T) call : import_call call = true -> quiet (send c decode call).
Proof.
  intros Hc. apply quiet_bind; [by apply quiet_request|]. intros [r|status e]; [apply quiet_or_throw|by apply quiet_stay].
Qed.

Ltac quiet_tac := repeat first
  [ lazymatch goal with
    | |- quiet (mbind _ _) => apply quiet_bind; [|intros ?]
    | |- quiet (send _ _ _) => apply quiet_send; reflexivity
    | |- quiet (request _ _) => apply quiet_request; reflexivity
    | |- quiet (or_throw _ _) => apply quiet_or_throw
    | |- quiet (match ?x with _ => _ end) => destruct x
    | |- quiet _ => apply quiet_stay; intros ?; reflexivity
    end ].

Lemma commit_bytes_quiet b occ scope prov : quiet (commit_bytes c b occ scope prov).
Proof. unfold commit_bytes. cbv zeta. quiet_tac. Qed.

Lemma report_gap_quiet host reason outcome path detail : quiet (report_gap c host reason outcome path detail).
Proof. unfold report_gap. quiet_tac. Qed.

(** The same of an operation that may print when it returns. *)
Definition prudent {A} (m : Op (Ctl R) A) : Prop := forall s, ap_inv (ct_remote s) ->
  grows (ct_remote s) (ct_remote (snd (m s))) /\ (is_ret (fst (m s)) = false -> ct_out (snd (m s)) = ct_out s).

Lemma prudent_print {A} l (a : A) : prudent (print l ;; mret a).
Proof. intros s _. cbn. split; [apply api_grows_refl|done]. Qed.

Lemma prudent_quiet {A} (m : Op (Ctl R) A) : quiet m -> prudent m.
Proof. intros Hm s Hs. destruct (Hm s Hs) as [H1 H2]. by split. Qed.

Lemma prudent_bind {A B} (m : Op (Ctl R) A) (f : A -> Op (Ctl R) B) : quiet m -> (forall a, prudent (f a)) -> prudent (m ≫= f).
Proof.
  intros Hm Hf s Hs. destruct (Hm s Hs) as [H1 H2]. unfold mbind, op_mbind. destruct (m s) as [[a|e|] s1]; cbn [fst snd is_ret] in *; [|done..].
  destruct (Hf a s1) as [H3 H4]; [by apply H1|]. split; [by eapply api_grows_trans|]. intros Hr. by rewrite H4.
Qed.

(** *** Committing a file *)

Lemma announce_kept sha size occ s ann s' b n : ap_inv (ct_remote s) -> ap_free b n (ct_remote s) -> fits b n occ ->
  send c announce_reply (Announce (mkAnnounceRequest sha size occ)) s = (Ret ann, s') ->
  ap_inv (ct_remote s') /\ match ap_disposition ann with AlreadyPresent => kept b n occ sha (ct_remote s') | _ => ap_free b n (ct_remote s') end.
Proof.
  intros Hi Hf Ho E. pose proof (quiet_send announce_reply (Announce (mkAnnounceRequest sha size occ)) eq_refl s Hi) as [Hg _].
  rewrite E in Hg. split; [by apply Hg|]. apply send_ret in E as (reply & r' & Ea & Ed & ->). destruct reply; try discriminate Ed.
  injection Ed as ->. apply (al_announce (mkAnnounceRequest sha size occ) (ct_remote s)); [done..|exact Ea].
Qed.

Lemma upload_free u b0 s a s' b n : ap_inv (ct_remote s) -> ap_free b n (ct_remote s) -> request c (Upload u b0) s = (Ret a, s') ->
  ap_inv (ct_remote s') /\ ap_free b n (ct_remote s').
Proof.
  intros Hi Hf E. pose proof (quiet_request (Upload u b0) eq_refl s Hi) as [Hg _]. rewrite E in Hg. split; [by apply Hg|].
  rewrite request_run in E. injection E as _ <-. by apply al_upload.
Qed.

Lemma finalize_kept f s fin s' b n : ap_inv (ct_remote s) -> ap_free b n (ct_remote s) -> fits b n (fq_occurrence f) ->
  send c finalize_reply (Finalize f) s = (Ret fin, s') -> ap_inv (ct_remote s') /\ kept b n (fq_occurrence f) (fq_sha256 f) (ct_remote s').
Proof.
  intros Hi Hf Ho E. pose proof (quiet_send finalize_reply (Finalize f) eq_refl s Hi) as [Hg _].
  rewrite E in Hg. split; [by apply Hg|]. apply send_ret in E as (reply & r' & Ea & Ed & ->). destruct reply; try discriminate Ed.
  injection Ed as ->. by apply (al_finalize f (ct_remote s) fin r').
Qed.

(** The two words that say the file is in the corpus. *)
Definition in_corpus (outcome : string) : bool := String.eqb outcome "already_present" || String.eqb outcome "captured".

Lemma past_free b n occ r : fits b n occ -> ap_free b n r -> ap_free b (past n occ) r.
Proof. intros Hf H. destruct occ as [o|]; [|done]. destruct Hf as [_ Hf]. apply (al_free_mono (h := h) b n); [cbn; lia|done]. Qed.

Lemma commit_bytes_kept b0 occ scope prov s sha outcome s' b n :
  ap_inv (ct_remote s) -> ap_free b n (ct_remote s) -> fits b n occ ->
  commit_bytes c b0 occ scope prov s = (Ret (sha, outcome), s') ->
  sha = sha256_hex b0 /\ ap_free b (past n occ) (ct_remote s') /\ (in_corpus outcome = true -> kept b n occ sha (ct_remote s')).
Proof.
  intros Hi Hf Ho. unfold commit_bytes. cbv zeta. intros E. apply bind_ret in E as (ann & s1 & E1 & E).
  destruct (announce_kept _ _ _ _ _ _ b n Hi Hf Ho E1) as [Hi1 H1].
  assert (Hother : ap_free b n (ct_remote s1) -> s' = s1 -> ap_free b (past n occ) (ct_remote s')).
  { intros Hfree ->. by apply past_free. }
  destruct (ap_disposition ann) eqn:Ed; try (injection E as <- <- <-; split; [done|]; split; [by apply Hother|discriminate]).
  - injection E as <- <- <-. split; [done|]. split; [apply H1|done].
  - apply bind_ret in E as (u & s2 & E2 & E). assert (s2 = s1) as -> by (by destruct (ap_upload_id ann); [injection E2|]).
    apply bind_ret in E as (up & s3 & E3 & E). destruct (upload_free _ _ _ _ _ b n Hi1 H1 E3) as [Hi3 Hf3].
    destruct up as [reply|status e]; [|discriminate E]. apply bind_ret in E as (fin & s4 & E4 & E).
    destruct (finalize_kept (mkFinalizeRequest u (sha256_hex b0) (Functions.as_i64 (len b0)) occ scope prov) _ _ _ b n Hi3 Hf3 Ho E4) as [_ H4]. injection E as <- <- <-. split; [done|]. split; [apply H4|done].
Qed.

(** *** Directories *)

(** The occurrence an import makes of its [i]th file. *)
Record occurrence_of (host : string) (boot : Uuid) (opts : ImportOptions) (i : nat) (f : LocalFile) (b : bytes) (o : OccurrenceInfo) : Prop := {
  of_host : oi_host_name o = host;
  of_agent : oi_agent_id o = agent_of host;
  of_boot : oi_boot_id o = boot;
  of_seq : oi_agent_sequence o = Z.of_nat i + 1;
  of_reason : oi_capture_reason o = io_capture_reason opts;
  of_path : oi_path o = lf_path f;
  of_size : oi_file_size o = Functions.as_i64 (len b);
  of_mtime : oi_file_mtime o = lf_mtime f;
  of_observed : forall t, io_observed_at opts = Some t -> oi_observed_at o = t }.

(** What the line printed for a file says of it and of the server. *)
Definition line_of (host : string) (boot : Uuid) (opts : ImportOptions) (r : R) (i : nat) (f : LocalFile) (l : Line) : Prop :=
  match l with
  | ReadFailed p => p = lf_path f /\ exists e, lf_bytes f = inl e
  | Present sha p _ | Captured sha p _ _ =>
      p = lf_path f /\ exists b o, lf_bytes f = inr b /\ sha = sha256_hex b /\ occurrence_of host boot opts i f b o /\
        ap_stored sha r /\ ap_recorded o sha r
  | UploadFailed sha p status => p = lf_path f /\ exists b, lf_bytes f = inr b /\ sha = sha256_hex b
  | OtherDisposition d sha p => p = lf_path f /\ exists b, lf_bytes f = inr b /\ sha = sha256_hex b
  | _ => False
  end.

Definition tally_line (t : Tally) (l : Line) : Tally :=
  match l with
  | ReadFailed _ | UploadFailed _ _ _ => mkTally (ta_captured t) (ta_present t) (ta_failed t + 1)
  | Present _ _ _ => mkTally (ta_captured t) (ta_present t + 1) (ta_failed t)
  | Captured _ _ _ _ => mkTally (ta_captured t + 1) (ta_present t) (ta_failed t)
  | _ => t
  end.

Lemma line_of_grows host boot opts r r' i f l : grows r r' -> line_of host boot opts r i f l -> line_of host boot opts r' i f l.
Proof.
  intros [_ H1 H2]. destruct l; cbn; try done.
  - intros (-> & b & o & E & -> & Ho & Hs & Hr). split; [done|]. exists b, o. auto 6.
  - intros (-> & b & o & E & -> & Ho & Hs & Hr). split; [done|]. exists b, o. auto 6.
Qed.

Lemma import_file_prudent host boot opts t i : prudent (import_file c host boot opts t i).
Proof.
  destruct i as [i f]. unfold import_file. destruct (lf_bytes f) as [e|b]; [apply prudent_print|]. apply prudent_bind; [by apply quiet_stay|intros class].
  cbv zeta. apply prudent_bind; [destruct (io_observed_at opts); by apply quiet_stay|intros obs].
  apply prudent_bind; [by apply quiet_send|intros ann]. destruct (ap_disposition ann); try apply prudent_print.
  apply prudent_bind; [apply quiet_or_throw|intros u]. apply prudent_bind; [by apply quiet_request|intros up]. destruct up; [|apply prudent_print].
  apply prudent_bind; [by apply quiet_send|intros fin]. apply prudent_print.
Qed.

Lemma import_file_ret host boot opts t i f s t' s' : ap_inv (ct_remote s) -> ap_free boot (Z.of_nat i) (ct_remote s) ->
  import_file c host boot opts t (i, f) s = (Ret t', s') ->
  exists l, ct_out s' = ct_out s ++ [l] /\ line_of host boot opts (ct_remote s') i f l /\ t' = tally_line t l /\ ap_free boot (Z.of_nat (S i)) (ct_remote s').
Proof.
  intros Hi Hf. replace (Z.of_nat (S i)) with (Z.of_nat i + 1) by lia. unfold import_file. destruct (lf_bytes f) as [e|b] eqn:Eb.
  { intros [= <- <-]. eexists. cbn [ct_out ct_remote]. split; [reflexivity|]. split; [split; [done|by exists e]|]. split; [done|].
    apply (al_free_mono (h := h) boot (Z.of_nat i)); [lia|done]. }
  intros E. apply bind_ret in E as (class & s1 & E1 & E). cbv zeta in E. apply bind_ret in E as (obs & s2 & E2 & E).
  assert (H1 : s1 = s) by (by unfold lift_outcome in E1; injection E1). subst s1.
  assert (H2 : ct_remote s2 = ct_remote s /\ ct_out s2 = ct_out s /\ forall x, io_observed_at opts = Some x -> obs = x).
  { destruct (io_observed_at opts); injection E2 as <- <-; (split; [done|split; [done|]]); [by intros ? [= ->]|done]. }
  destruct H2 as (R2 & O2 & Hobs). set (occ := mkOccurrenceInfo _ _ _ _ _ _ _ _ _) in E.
  assert (Hocc : occurrence_of host boot opts i f b occ) by (constructor; try done; intros x Hx; by apply Hobs).
  assert (Hfit : fits boot (Z.of_nat i) (Some occ)) by (split; [done|cbn; lia]). rewrite <- R2 in Hi, Hf. rewrite <- O2. clear E1 E2 R2 O2 s.
  apply bind_ret in E as (ann & s & E1' & E). pose proof (send_out _ _ _ _ _ E1') as O1.
  destruct (announce_kept _ _ _ _ _ _ boot (Z.of_nat i) Hi Hf Hfit E1') as [Hi1 H1]. clear E1' Hi Hf.
  assert (Hup : forall r, ap_free boot (Z.of_nat i) r -> ap_free boot (Z.of_nat i + 1) r) by (intros r; apply (al_free_mono (h := h)); lia).
  assert (Hkept : forall r, kept boot (Z.of_nat i) (Some occ) (sha256_hex b) r -> ap_free boot (Z.of_nat i + 1) r /\
    exists b' o, lf_bytes f = inr b' /\ sha256_hex b = sha256_hex b' /\ occurrence_of host boot opts i f b' o /\ ap_stored (sha256_hex b) r /\ ap_recorded o (sha256_hex b) r).
  { intros r [K1 K2 K3]. split; [exact K3|]. by exists b, occ. }
  destruct (ap_disposition ann); try (injection E as <- <-; rewrite <- O1; eexists; cbn [ct_out ct_remote line_of]; split; [reflexivity|];
    split; [split; [done|by exists b]|]; split; [done|by apply Hup]).
  - injection E as <- <-. rewrite <- O1. apply Hkept in H1 as [K1 K2]. eexists. cbn [ct_out ct_remote]. by split.
  - apply bind_ret in E as (u & s3 & E3 & E). assert (s3 = s) as -> by (by destruct (ap_upload_id ann); [injection E3|]).
    apply bind_ret in E as (up & s3' & E4 & E). destruct (upload_free _ _ _ _ _ boot (Z.of_nat i) Hi1 H1 E4) as [Hi3 Hf3].
    assert (O3 : ct_out s3' = ct_out s) by (rewrite request_run in E4; by injection E4 as _ <-). rewrite <- O1, <- O3. destruct up as [reply|status e].
    + apply bind_ret in E as (fin & s4 & E5 & E). pose proof (send_out _ _ _ _ _ E5) as O4.
      destruct (finalize_kept (mkFinalizeRequest u (sha256_hex b) (Functions.as_i64 (len b)) (Some occ) None None) _ _ _ boot (Z.of_nat i) Hi3 Hf3 Hfit E5) as [_ H4].
      rewrite <- O4. injection E as <- <-. apply Hkept in H4 as [K1 K2].
      eexists. cbn [ct_out ct_remote]. by split.
    + injection E as <- <-. eexists. cbn [ct_out ct_remote line_of]. split; [reflexivity|]. split; [split; [done|by exists b]|].
      split; [done|by apply Hup].
Qed.

Lemma enumerate_at {A} (l : list A) i a : enumerate l !! i = Some a -> fst a = i /\ l !! i = Some (snd a).
Proof. destruct a as [j x]. unfold enumerate. intros [H1 H2]%lookup_zip_Some. apply lookup_seq in H1 as [-> _]. by split. Qed.

(** *** Loops *)

Section loop.
  Context {A T X : Type} (f : T -> A -> Op (Ctl R) T) (boot : Uuid).
  (** What a turn leaves behind, what it prints, and how it changes the tally. *)
  Context (P : R -> nat -> A -> X -> Prop) (out : X -> list Line) (upd : T -> X -> T) (J : nat -> T -> Prop) (Q : nat -> A -> Prop).
  Hypothesis Hprudent : forall t a, prudent (f t a).
  Hypothesis Hgrows : forall r r' k a x, grows r r' -> P r k a x -> P r' k a x.
  Hypothesis Hstep : forall k t a s t' s', ap_inv (ct_remote s) -> ap_free boot (Z.of_nat k) (ct_remote s) -> J k t -> Q k a -> f t a s = (Ret t', s') ->
    exists x, ct_out s' = ct_out s ++ out x /\ P (ct_remote s') k a x /\ t' = upd t x /\ J (S k) t' /\ ap_free boot (Z.of_nat (S k)) (ct_remote s').

(** A record for each turn that returned, still true when the loop stops. *)
Lemma loop_records l : forall k t s, ap_inv (ct_remote s) -> ap_free boot (Z.of_nat k) (ct_remote s) -> J k t ->
  (forall i a, l !! i = Some a -> Q (k + i)%nat a) ->
  exists xs, ct_out (snd (op_fold l t f s)) = ct_out s ++ flat_map out xs /\ (length xs <= length l)%nat /\
    (forall i x, xs !! i = Some x -> exists a, l !! i = Some a /\ P (ct_remote (snd (op_fold l t f s))) (k + i) a x) /\
    grows (ct_remote s) (ct_remote (snd (op_fold l t f s))) /\
    (forall t', fst (op_fold l t f s) = Ret t' -> length xs = length l /\ t' = foldl upd t xs /\ J (k + length l) t').
Proof.
  induction l as [|a l IH]; intros k t s Hi Hf Hj Hq; cbn [op_fold].
  { exists []. cbn. rewrite app_nil_r. do 3 (split; [done|]). split; [apply api_grows_refl|]. intros t' [= <-]. by rewrite Nat.add_0_r. }
  unfold mbind, op_mbind. pose proof (Hprudent t a s Hi) as [Hg Hout]. destruct (f t a s) as [o s1] eqn:E1. cbn [fst snd] in *.
  assert (Hstop : forall o' : outcome T, o' <> Ret t -> is_ret o' = false -> ct_out s1 = ct_out s -> exists xs : list X,
    ct_out s1 = ct_out s ++ flat_map out xs /\ (length xs <= length (a :: l))%nat /\
    (forall i x, xs !! i = Some x -> exists b, (a :: l) !! i = Some b /\ P (ct_remote s1) (k + i) b x) /\ grows (ct_remote s) (ct_remote s1) /\
    (forall t', o' = Ret t' -> length xs = length (a :: l) /\ t' = foldl upd t xs /\ J (k + length (a :: l)) t')).
  { intros o' _ Hr Ho. exists []. cbn. rewrite app_nil_r. split; [done|]. split; [lia|]. split; [by intros i x|]. split; [done|]. by intros t' ->. }
  destruct o as [t1|e|]; cbn [fst snd].
  - destruct (Hstep k t a s t1 s1 Hi Hf Hj) as (x & Ox & Hx & Ht & Hj1 & Hf1); [by rewrite <- (Nat.add_0_r k); apply Hq|exact E1|]. clear Hout Hstop.
    destruct (IH (S k) t1 s1) as (xs & Oxs & Hlen & Hxs & Hg2 & Ho); [by apply Hg|done|done|intros i b Hb; rewrite Nat.add_succ_comm; by apply Hq|]. exists (x :: xs). cbn [flat_map length].
    split; [rewrite Oxs, Ox, <- app_assoc; done|]. split; [lia|]. split; [|split; [by eapply api_grows_trans|]].
    + intros [|i] y Hy; [injection Hy as <-; exists a; rewrite Nat.add_0_r; split; [done|by eapply Hgrows]|]. rewrite Nat.add_succ_r. by apply Hxs.
    + intros t' Et. destruct (Ho t' Et) as (Hn & -> & Hj'). rewrite Nat.add_succ_r. split; [lia|]. split; [by rewrite Ht|done].
  - apply Hstop; [done|done|by apply Hout].
  - apply Hstop; [done|done|by apply Hout].
Qed.
End loop.

Lemma import_dir_lines hostname files opts s : let boot := ct_uuids s (ct_uuid_next s) in let host := default hostname (io_host opts) in
  ap_inv (ct_remote s) -> ap_free boot 0 (ct_remote s) ->
  exists lines, let s' := snd (import_dir c hostname files opts s) in
    (forall i l, lines !! i = Some l -> exists f, files !! i = Some f /\ line_of host boot opts (ct_remote s') i f l) /\ grows (ct_remote s) (ct_remote s') /\
    match fst (import_dir c hostname files opts s) with
    | Ret _ => length lines = length files /\ let t := foldl tally_line (mkTally 0 0 0) lines in
               ct_out s' = ct_out s ++ lines ++ [ImportComplete (ta_captured t) (ta_present t) (ta_failed t)]
    | _ => (length lines <= length files)%nat /\ ct_out s' = ct_out s ++ lines
    end.
Proof.
  intros boot host Hi Hf. unfold import_dir. fold host. set (s1 := snd (fresh_uuid s)). rewrite (bind_run fresh_uuid _ s boot s1) by done.
  destruct (loop_records (X := Line) (import_file c host boot opts) boot (fun r k a x => line_of host boot opts r k (snd a) x) (fun x => [x]) tally_line
     (fun k t => True) (fun k a => fst a = k)) with (l := enumerate files) (k := 0%nat) (t := mkTally 0 0 0) (s := s1) as (lines & Ho & Hlen & Hl & Hg & Hr).
  - intros t a. apply import_file_prudent.
  - intros r r' k a x Hg H. by eapply line_of_grows.
  - intros k t [i f] s0 t' s' Hi0 Hf0 _ <- E. destruct (import_file_ret host boot opts t i f s0 t' s' Hi0 Hf0 E) as (l & H1 & H2 & H3 & H4). by exists l.
  - exact Hi.
  - exact Hf.
  - done.
  - intros i a Ha. by apply enumerate_at in Ha as [-> _].
  - assert (El : flat_map (fun x => [x]) lines = lines) by (clear; induction lines as [|x l IH]; [done|by cbn; rewrite IH]).
    assert (Hn : length (enumerate files) = length files) by (unfold enumerate; rewrite length_zip, length_seq; lia).
    rewrite El in Ho. rewrite Hn in *. exists lines. cbv zeta. unfold mbind, op_mbind.
    destruct (op_fold (enumerate files) (mkTally 0 0 0) (import_file c host boot opts) s1) as [[t'|e|] s'] eqn:E; cbn [fst snd] in *.
    + destruct (Hr t' eq_refl) as (Hk & -> & _). cbn. split; [|split; [exact Hg|split; [done|by rewrite Ho, <- app_assoc]]]. intros i l Hil.
      destruct (Hl i l Hil) as (a & [_ Ha]%enumerate_at & H). by exists (snd a).
    + split; [|by split]. intros i l Hil. destruct (Hl i l Hil) as (a & [_ Ha]%enumerate_at & H). by exists (snd a).
    + split; [|by split]. intros i l Hil. destruct (Hl i l Hil) as (a & [_ Ha]%enumerate_at & H). by exists (snd a).
Qed.

(** *** Container images *)

(** The occurrence an image's [k]th entry gets. *)
Record occurs_in (job : OciJob) (agent boot : Uuid) (k : nat) (f : LayerEntry) (o : OccurrenceInfo) : Prop := {
  ei_host : oi_host_name o = oj_label job;
  ei_agent : oi_agent_id o = agent;
  ei_boot : oi_boot_id o = boot;
  ei_seq : oi_agent_sequence o = Z.of_nat k + 1;
  ei_reason : oi_capture_reason o = "oci_image"%string;
  ei_path : oi_path o = le_path f;
  ei_created : forall t, oj_created job = Some t -> oi_observed_at o = t }.

(** What is printed for an entry, if anything, says this of it and of the server. *)
Definition entry_line (job : OciJob) (agent boot : Uuid) (r : R) (k : nat) (e : string * LayerEntry) (x : option Line) : Prop :=
  match le_bytes (snd e), x with
  | None, Some l => l = TooLarge (le_path (snd e)) (le_size (snd e)) (fst e)
  | Some b, None => classify b = Ret Unknown
  | Some b, Some (Outcome word sha p) =>
      classify b <> Ret Unknown /\ p = le_path (snd e) /\ sha = sha256_hex b /\
      (in_corpus word = true -> ap_stored sha r /\ exists o, occurs_in job agent boot k (snd e) o /\ ap_recorded o sha r)
  | _, _ => False
  end.

Definition oci_line (t : OciTally) (x : option Line) : OciTally :=
  match x with
  | None => mkOciTally (ot_seq t + 1) (ot_captured t) (ot_dedup t) (ot_too_large t) (ot_skipped t + 1)
  | Some (Outcome word _ _) =>
      if String.eqb word "captured" then mkOciTally (ot_seq t + 1) (ot_captured t + 1) (ot_dedup t) (ot_too_large t) (ot_skipped t)
      else mkOciTally (ot_seq t + 1) (ot_captured t) (ot_dedup t + 1) (ot_too_large t) (ot_skipped t)
  | Some _ => mkOciTally (ot_seq t + 1) (ot_captured t) (ot_dedup t) (ot_too_large t + 1) (ot_skipped t)
  end.

Definition printed (x : option Line) : list Line := match x with Some l => [l] | None => [] end.

Lemma entry_line_grows job agent boot r r' k e x : grows r r' -> entry_line job agent boot r k e x -> entry_line job agent boot r' k e x.
Proof.
  intros [_ H1 H2]. unfold entry_line. destruct (le_bytes (snd e)) as [b|], x as [[]|]; try done. intros (H3 & -> & -> & H). do 3 (split; [done|]).
  intros Hw. destruct (H Hw) as (H4 & o & H5 & H6). split; [auto|]. exists o. auto.
Qed.

Lemma import_entry_prudent agent boot job t e : prudent (import_entry c agent boot job t e).
Proof.
  destruct e as [d f]. unfold import_entry. destruct (le_bytes f) as [b|].
  - apply prudent_bind; [by apply quiet_stay|intros class]. destruct (bool_decide _); [by apply prudent_quiet, quiet_stay|].
    apply prudent_bind; [destruct (oj_created job); by apply quiet_stay|intros obs]. cbv zeta.
    apply prudent_bind; [apply commit_bytes_quiet|intros r]. apply prudent_print.
  - apply prudent_bind; [apply report_gap_quiet|intros _]. apply prudent_print.
Qed.

Lemma report_gap_free host reason outcome path detail s s' b n : ap_inv (ct_remote s) -> ap_free b n (ct_remote s) ->
  report_gap c host reason outcome path detail s = (Ret tt, s') -> ap_free b n (ct_remote s') /\ ct_out s' = ct_out s.
Proof.
  intros Hi Hf E. unfold report_gap in E. apply bind_ret in E as (t & s1 & E1 & E). injection E1 as _ <-.
  apply bind_ret in E as (a & s2 & E2 & E). injection E as <-. rewrite request_run in E2. injection E2 as _ <-. split; [by apply al_gaps|done].
Qed.

Lemma import_entry_ret agent boot job t k e s t' s' : ap_inv (ct_remote s) -> ap_free boot (Z.of_nat k) (ct_remote s) -> ot_seq t = Z.of_nat k ->
  import_entry c agent boot job t e s = (Ret t', s') ->
  exists x, ct_out s' = ct_out s ++ printed x /\ entry_line job agent boot (ct_remote s') k e x /\ t' = oci_line t x /\
    ot_seq t' = Z.of_nat (S k) /\ ap_free boot (Z.of_nat (S k)) (ct_remote s').
Proof.
  intros Hi Hf Hk. assert (Hup : forall r, ap_free boot (Z.of_nat k) r -> ap_free boot (Z.of_nat (S k)) r) by (intros r; apply (al_free_mono (h := h)); lia).
  destruct e as [d f]. unfold import_entry, entry_line. cbn [fst snd]. destruct (le_bytes f) as [b|] eqn:Eb; intros E.
  - apply bind_ret in E as (class & s1 & E1 & E). unfold lift_outcome in E1. injection E1 as Ec ->.
    destruct (decide (class = Unknown)) as [->|Hne].
    { rewrite bool_decide_eq_true_2 in E by done. injection E as <- <-. exists None. rewrite app_nil_r. split; [done|]. split; [done|]. split; [done|]. cbn [ot_seq]. split; [lia|by apply Hup]. }
    rewrite bool_decide_eq_false_2 in E by done. apply bind_ret in E as (obs & s2 & E2 & E).
    assert (H2 : ct_remote s2 = ct_remote s1 /\ ct_out s2 = ct_out s1 /\ forall x, oj_created job = Some x -> obs = x).
    { destruct (oj_created job); injection E2 as <- <-; (split; [done|split; [done|]]); [by intros ? [= ->]|done]. }
    destruct H2 as (R2 & O2 & Hobs). set (o := mkOccurrenceInfo _ _ _ _ _ _ _ _ _) in E. set (prov := file_provenance _ _ _ _) in E.
    apply bind_ret in E as ([sha word] & s3 & E3 & E). cbn [fst snd] in E.
    destruct (commit_bytes_kept b (Some o) None (Some prov) s2 sha word s3 boot (Z.of_nat k)) as (-> & Hfree & Hin); [by rewrite R2|by rewrite R2| |exact E3|].
    { split; [done|]. cbn [oi_agent_sequence o]. lia. }
    pose proof (commit_bytes_quiet b (Some o) None (Some prov) s2) as [_ O3]; [by rewrite R2|].
    rewrite E3 in O3. cbn [snd] in O3. change (past _ _) with (ot_seq t + 1) in Hfree. replace (ot_seq t + 1) with (Z.of_nat (S k)) in Hfree by lia.
    exists (Some (Outcome word (sha256_hex b) (le_path f))). apply bind_ret in E as ([] & s4 & E4 & E). injection E4 as <-. injection E as <- <-.
    cbn [ct_out ct_remote printed]. split; [by rewrite O3, O2|]. split.
    { split; [by rewrite Ec; intros [= ->]|]. split; [done|]. split; [done|]. intros Hw. destruct (Hin Hw) as [K1 K2 _]. split; [done|]. exists o.
      split; [|done]. constructor; try done. cbn. lia. }
    split; [done|]. split; [destruct (String.eqb word "captured"); cbn; lia|exact Hfree].
  - apply bind_ret in E as ([] & s1 & E1 & E). destruct (report_gap_free _ _ _ _ _ _ _ boot (Z.of_nat k) Hi Hf E1) as [Hf1 O1].
    injection E as <- <-. exists (Some (TooLarge (le_path f) (le_size f) d)). cbn [ct_out ct_remote printed]. rewrite O1.
    split; [done|]. split; [done|]. split; [done|]. cbn [ot_seq]. split; [lia|by apply Hup].
Qed.

Definition entries_of (job : OciJob) : list (string * LayerEntry) := flat_map (fun layer => map (fun f => (fst layer, f)) (snd layer)) (oj_layers job).

Lemma import_job_lines agent boot job s : ap_inv (ct_remote s) -> ap_free boot 0 (ct_remote s) ->
  exists xs, let s' := snd (import_job c agent boot job s) in
    (forall k x, xs !! k = Some x -> exists e, entries_of job !! k = Some e /\ entry_line job agent boot (ct_remote s') k e x) /\ grows (ct_remote s) (ct_remote s') /\
    match fst (import_job c agent boot job s) with
    | Ret _ => length xs = length (entries_of job) /\ let t := foldl oci_line (mkOciTally 0 0 0 0 0) xs in
               ct_out s' = ct_out s ++ flat_map printed xs ++ [OciComplete (ot_captured t) (ot_dedup t) (ot_too_large t) (ot_skipped t)]
    | _ => (length xs <= length (entries_of job))%nat /\ ct_out s' = ct_out s ++ flat_map printed xs
    end.
Proof.
  intros Hi Hf. unfold import_job. fold (entries_of job).
  destruct (loop_records (X := option Line) (import_entry c agent boot job) boot (entry_line job agent boot) printed oci_line
     (fun k t => ot_seq t = Z.of_nat k) (fun _ _ => True)) with (l := entries_of job) (k := 0%nat) (t := mkOciTally 0 0 0 0 0) (s := s) as (xs & Ho & Hlen & Hl & Hg & Hr).
  - intros t a. apply import_entry_prudent.
  - intros r r' k a x. apply entry_line_grows.
  - intros k t a s0 t' s' Hi0 Hf0 Hj _ E. by apply (import_entry_ret agent boot job t k a s0 t' s').
  - exact Hi.
  - exact Hf.
  - done.
  - done.
  - exists xs. cbv zeta. unfold mbind, op_mbind.
    destruct (op_fold (entries_of job) (mkOciTally 0 0 0 0 0) (import_entry c agent boot job) s) as [[t'|e|] s'] eqn:E; cbn [fst snd] in *.
    + destruct (Hr t' eq_refl) as (Hk & -> & _). cbn. split; [exact Hl|]. split; [exact Hg|]. split; [done|]. by rewrite Ho, <- app_assoc.
    + by split.
    + by split.
Qed.

(** The totals: how many lines there are of each kind. *)
Definition count (p : option Line -> bool) (xs : list (option Line)) : Z := len (List.filter p xs).
Definition is_captured (x : option Line) : bool := match x with Some (Outcome word _ _) => String.eqb word "captured" | _ => false end.
Definition is_present (x : option Line) : bool := match x with Some (Outcome word _ _) => negb (String.eqb word "captured") | _ => false end.
Definition is_too_large (x : option Line) : bool := match x with Some (Outcome _ _ _) | None => false | _ => true end.
Definition is_skipped (x : option Line) : bool := match x with None => true | _ => false end.

Lemma oci_tally_counts xs t : foldl oci_line t xs =
  mkOciTally (ot_seq t + len xs) (ot_captured t + count is_captured xs) (ot_dedup t + count is_present xs)
    (ot_too_large t + count is_too_large xs) (ot_skipped t + count is_skipped xs).
Proof.
  unfold count, len. revert t. induction xs as [|x xs IH]; intros t; cbn [foldl].
  - cbn. rewrite !Z.add_0_r. by destruct t.
  - rewrite IH. destruct x as [[]|]; cbn [oci_line is_captured is_present is_too_large is_skipped List.filter length];
      repeat match goal with |- context [String.eqb ?a ?b] => destruct (String.eqb a b) end;
      cbn [negb length ot_seq ot_captured ot_dedup ot_too_large ot_skipped]; f_equal; lia.
Qed.
End imports.

(** ** The server behind the client *)

(** *** What ingestion does to the tables of occurrences and tenants *)

(** The row an occurrence is recorded as. *)
Record recorded_row (tenant : Uuid) (o : OccurrenceInfo) (sha : bytes) (row : Occurrence) : Prop := {
  rw_tenant : oc_tenant row = tenant;
  rw_host : oc_host_name row = oi_host_name o;
  rw_agent : oc_agent_id row = oi_agent_id o;
  rw_boot : oc_boot_id row = oi_boot_id o;
  rw_seq : oc_agent_sequence row = oi_agent_sequence o;
  rw_sha : oc_artifact_sha256 row = Some sha;
  rw_reason : oc_capture_reason row = oi_capture_reason o;
  rw_observed : oc_observed_at row = oi_observed_at o;
  rw_path : oc_path row = Some (oi_path o) }.

(** The occurrence, if any, was added. *)
Definition entered (tenant : Uuid) (occ : option OccurrenceInfo) (sha : bytes) (l l' : list Occurrence) : Prop :=
  match occ with None => l' = l | Some o => exists row, l' = l ++ [row] /\ recorded_row tenant o sha row end.

(** No occurrence of that number under that boot. *)
Definition unheard (occ : option OccurrenceInfo) (l : list Occurrence) : Prop :=
  match occ with
  | None => True
  | Some o => forall row, In row l -> oc_boot_id row = oi_boot_id o -> oc_agent_sequence row <> oi_agent_sequence o
  end.

Definition appended (l l' : list Occurrence) : Prop := exists new, l' = l ++ new.
Lemma appended_refl l : appended l l.
Proof. exists []. by rewrite app_nil_r. Qed.

Section tables.
  Context {YX : YaraX} {SH : ScannerHost} {SHA : Sha256} {HEX : HexCodec} {UD : UuidDisplay} {UP : UuidParse} {GOB : Goblin} {LOG : Log2}
          {DEC : X86Decoder} {HO : HashOrder}.
  Context (tenant : Uuid).

Lemma entered_appended occ sha l l' : entered tenant occ sha l l' -> appended l l'.
Proof. destruct occ as [o|]; [intros (row & -> & _); by exists [row]|intros ->; apply appended_refl]. Qed.

Lemma record_occurrence_rows aid sha occ s : let s1 := snd (record_occurrence tenant aid sha occ s) in
  fst (record_occurrence tenant aid sha occ s) = Ret tt /\
  (rows TOccurrence s1 = rows TOccurrence s \/ entered tenant occ sha (rows TOccurrence s) (rows TOccurrence s1)) /\
  (unheard occ (rows TOccurrence s) -> entered tenant occ sha (rows TOccurrence s) (rows TOccurrence s1)).
Proof.
  destruct occ as [o|]; [|by repeat split; try left]. unfold record_occurrence, insert_occurrence. cbv zeta.
  erewrite bind_run; [|reflexivity]. erewrite bind_run; [|reflexivity]. set (row := mkOccurrence _ _ _ _ _ _ _ _ _ _ _ _ _ _ _ _).
  set (s0 := snd (now (snd (new_v4 s)))). change (snd (now _)) with s0.
  destruct (decide (occurrence_key row ∈ map occurrence_key (rows TOccurrence s0))) as [Hin|Hnew].
  - rewrite (bind_run _ _ _ _ _ (insert_on_conflict_old TOccurrence occurrence_key row s0 Hin)). split; [done|]. split; [by left|].
    intros Hu. exfalso. apply list_elem_of_In, in_map_iff in Hin as (r & [= H1 H2 H3 H4] & Hr). by apply (Hu r Hr).
  - rewrite (bind_run _ _ _ _ _ (insert_on_conflict_new TOccurrence occurrence_key row s0 Hnew)). cbn [fst snd mret op_mret].
    rewrite (rows_set_rows_eq TOccurrence). assert (He : entered tenant (Some o) sha (rows TOccurrence s) (rows TOccurrence s0 ++ [row])) by (by exists row).
    split; [done|]. split; [by right|done].
Qed.
End tables.

Section book.
  Context {YX : YaraX} {SH : ScannerHost} {SHA : Sha256} {HEX : HexCodec} {UD : UuidDisplay} {UP : UuidParse} {GOB : Goblin} {LOG : Log2}
          {DEC : X86Decoder} {HO : HashOrder}.
  Context (tenant : Uuid).

(** [booked m]: [m] changes no tenant and only adds occurrences. *)
Definition booked {A} (m : Op Srv A) : Prop := forall s, rows TTenant (snd (m s)) = rows TTenant s /\
  appended (rows TOccurrence s) (rows TOccurrence (snd (m s))).

Definition apart {A} (m : Op Srv A) : Prop := forall s, rows TTenant (snd (m s)) = rows TTenant s /\ rows TOccurrence (snd (m s)) = rows TOccurrence s.

Lemma apart_booked {A} (m : Op Srv A) : apart m -> booked m.
Proof. intros Hm s. destruct (Hm s) as [H1 H2]. split; [done|]. rewrite H2. apply appended_refl. Qed.

Lemma booked_bind {A B} (m : Op Srv A) (f : A -> Op Srv B) : booked m -> (forall a, booked (f a)) -> booked (m ≫= f).
Proof.
  intros Hm Hf s. unfold mbind, op_mbind. specialize (Hm s). destruct (m s) as [[a|e|] s1]; [|done..]. destruct Hm as [H1 (l1 & H2)].
  destruct (Hf a s1) as [H3 (l2 & H4)]. cbn [snd] in *. split; [by rewrite H3|]. exists (l1 ++ l2). by rewrite H4, H2, app_assoc.
Qed.

Lemma booked_transaction {A} (m : Op Srv A) : booked m -> booked (db_transaction m).
Proof. intros Hm s. specialize (Hm s). unfold db_transaction, transaction. destruct (m s) as [[a|e|] s1]; [done|split; [done|apply appended_refl]..]. Qed.

Lemma apart_transaction {A} (m : Op Srv A) : apart m -> apart (db_transaction m).
Proof. intros Hm s. specialize (Hm s). unfold db_transaction, transaction. by destruct (m s) as [[a|e|] s1]. Qed.

Lemma apart_bind {A B} (m : Op Srv A) (f : A -> Op Srv B) : apart m -> (forall a, apart (f a)) -> apart (m ≫= f).
Proof.
  intros Hm Hf s. unfold mbind, op_mbind. specialize (Hm s). destruct (m s) as [[a|e|] s1]; [|done..]. destruct Hm as [H1 H2].
  destruct (Hf a s1) as [H3 H4]. cbn [snd] in *. split; congruence.
Qed.

Lemma apart_frames {A} (m : Op Srv A) : frames (rows TTenant) m -> frames (rows TOccurrence) m -> apart m.
Proof. intros H1 H2 s. split; [apply H1|apply H2]. Qed.

Lemma apart_aside {A} (m : Op Srv A) : aside ingest_table m -> apart m.
Proof. intros Hm s. destruct (Hm s) as [_ H]. split; by apply H. Qed.

Lemma apart_cas {A} (m : Op FsCas A) : apart (with_cas m).
Proof. intros s. unfold with_cas. by destruct (m (srv_cas s)). Qed.

Ltac apart_tac := apply apart_frames; frames_tac.

Lemma apart_meta occ prov : apart (attempt_meta occ prov).
Proof. unfold attempt_meta. apart_tac. Qed.
Lemma apart_attempt_row meta oc sha code detail : apart (insert_capture_attempt tenant meta oc sha code detail).
Proof. destruct meta as [[[[? ?] ?] ?] ?]. unfold insert_capture_attempt. apart_tac. Qed.
Lemma apart_session id st : apart (set_session_state id st).
Proof. unfold set_session_state. apart_tac. Qed.

Lemma record_booked aid sha occ : booked (record_occurrence tenant aid sha occ).
Proof.
  intros s. split.
  - assert (Hf : frames (rows TTenant) (record_occurrence tenant aid sha occ)) by (unfold record_occurrence, insert_occurrence; frames_tac). apply Hf.
  - destruct (record_occurrence_rows tenant aid sha occ s) as (_ & [H|H] & _); [rewrite H; apply appended_refl|by eapply entered_appended].
Qed.

(** What follows the occurrence in a transaction leaves it there. *)
Lemma record_then {A} aid sha occ (rest : Op Srv A) s a s' : apart rest -> (record_occurrence tenant aid sha occ ;; rest) s = (Ret a, s') ->
  unheard occ (rows TOccurrence s) -> entered tenant occ sha (rows TOccurrence s) (rows TOccurrence s').
Proof.
  intros Hr E Hu. apply bind_ret in E as (u & s1 & E1 & E). destruct (record_occurrence_rows tenant aid sha occ s) as (_ & _ & H).
  rewrite E1 in H. specialize (Hr s1). rewrite E in Hr. destruct Hr as [_ Hr]. cbn [snd] in *. rewrite Hr. by apply H.
Qed.

Lemma announce_rest occ sha : apart (meta ← attempt_meta occ None; insert_capture_attempt tenant meta OUTCOME_ALREADY_PRESENT (Some sha) None (JObj [])).
Proof. apply apart_bind; [apply apart_meta|intros meta; apply apart_attempt_row]. Qed.

Lemma announce_booked areq : booked (announce tenant areq).
Proof.
  unfold announce. apply booked_bind; [by destruct (hex_to_raw _)|intros sha]. apply booked_bind; [by apply apart_booked|intros [a|]].
  - apply booked_bind; [|by intros ?]. apply booked_transaction, booked_bind; [apply record_booked|intros _; apply apart_booked, announce_rest].
  - apply apart_booked. apart_tac.
Qed.

Lemma announce_occurrence areq s resp s' : announce tenant areq s = (Ret resp, s') ->
  match ap_disposition resp with
  | AlreadyPresent => forall sha, hex_to_raw (an_sha256 areq) = Some sha -> unheard (an_occurrence areq) (rows TOccurrence s) ->
      entered tenant (an_occurrence areq) sha (rows TOccurrence s) (rows TOccurrence s')
  | _ => rows TOccurrence s' = rows TOccurrence s
  end.
Proof.
  unfold announce. intros E. apply bind_ret in E as (sha & s1 & E1 & E). destruct (hex_to_raw _) as [x|]; [|discriminate E1]. injection E1 as -> ->.
  apply bind_ret in E as (existing & s2 & E2 & E). injection E2 as _ <-. destruct existing as [a|].
  - apply bind_ret in E as (u & s3 & E3 & E). injection E as <- <-. cbn [ap_disposition]. intros sha' [= <-] Hu.
    unfold db_transaction, transaction in E3. destruct ((record_occurrence tenant (art_id a) sha (an_occurrence areq) ;; _) s1) as [[v|e|] s4] eqn:E4; [|discriminate E3..].
    injection E3 as _ <-. by eapply record_then; [apply announce_rest|exact E4|].
  - apply bind_ret in E as (u & s3 & E3 & E). apply bind_ret in E as (t & s4 & E4 & E). apply bind_ret in E as (v & s5 & E5 & E).
    injection E as <- <-. cbn [ap_disposition]. assert (Hf : frames (rows TOccurrence) (insert_unique TSession us_id (mkUploadSession u tenant sha (an_size_bytes areq) (uuid_to_string u) "open" t))) by frames_tac.
    specialize (Hf s4). rewrite E5 in Hf. cbn [snd] in Hf. rewrite Hf. injection E4 as _ <-. by injection E3 as _ <-.
Qed.

Lemma stage_apart id b : apart (stage_upload tenant id b).
Proof. unfold stage_upload. apply apart_bind; [by intros s|]. intros [u|]; [|by intros s]. destruct (String.eqb _ _); [apply apart_cas|by intros s]. Qed.

Lemma commit_rest id req sha class prov : apart (meta ← attempt_meta (fq_occurrence req) prov;
    insert_capture_attempt tenant meta OUTCOME_CAPTURED (Some sha) None (JObj [("artifact_class"%string, JStr class)]) ;;
    set_session_state (fq_upload_id req) "committed" ;; mret (id : Uuid)).
Proof.
  apply apart_bind; [apply apart_meta|intros meta]. apply apart_bind; [apply apart_attempt_row|intros _]. by apply apart_bind; [apply apart_session|intros _].
Qed.

Lemma commit_booked req sha class scope key prov : booked (commit_rows tenant req sha class scope key prov).
Proof.
  unfold commit_rows. apply booked_transaction. do 3 (apply booked_bind; [by apply apart_booked|intros ?]).
  apply booked_bind; [apply apart_booked; apart_tac|intros ins]. apply booked_bind; [apply apart_booked; apart_tac|intros id].
  apply booked_bind; [apply record_booked|intros _]. apply apart_booked, commit_rest.
Qed.

Lemma commit_occurrence req sha class scope key prov s id s' : commit_rows tenant req sha class scope key prov s = (Ret id, s') ->
  unheard (fq_occurrence req) (rows TOccurrence s) -> entered tenant (fq_occurrence req) sha (rows TOccurrence s) (rows TOccurrence s').
Proof.
  unfold commit_rows, db_transaction, transaction. set (m := mbind _ new_v4). destruct (m s) as [[i|e|] s1] eqn:E; [|discriminate..].
  intros [= -> <-] Hu. unfold m in E. clear m.
  apply bind_ret in E as (u & s2 & E2 & E). apply bind_ret in E as (t & s3 & E3 & E). apply bind_ret in E as (q & s4 & E4 & E).
  injection E2 as _ <-. injection E3 as _ <-. injection E4 as _ <-.
  match type of E with ?m ?x = _ => set (s4 := x) in E end.
  apply bind_ret in E as (ins & s5 & E5 & E). apply bind_ret in E as (id' & s6 & E6 & E).
  assert (H5 : rows TOccurrence s5 = rows TOccurrence s).
  { match type of E5 with ?m ?x = _ => assert (Hf : frames (rows TOccurrence) m) by frames_tac; specialize (Hf x) end. rewrite E5 in Hf. exact Hf. }
  assert (H6 : rows TOccurrence s6 = rows TOccurrence s5).
  { match type of E6 with ?m ?x = _ => assert (Hf : frames (rows TOccurrence) m) by frames_tac; specialize (Hf x) end. rewrite E6 in Hf. exact Hf. }
  rewrite <- H5, <- H6 in *. by eapply record_then; [apply commit_rest|exact E|].
Qed.

Lemma mismatch_apart req r : apart (record_mismatch tenant req r).
Proof.
  unfold record_mismatch. apply apart_bind; [apply apart_meta|intros meta]. apply apart_transaction.
  apply apart_bind; [apply apart_attempt_row|intros _; apply apart_session].
Qed.

Lemma finalize_booked req : booked (finalize tenant req).
Proof.
  unfold finalize. apply booked_bind; [by apply apart_booked|intros session]. apply booked_bind; [apply apart_booked; by destruct session|intros u].
  destruct (negb _); [by apply apart_booked|]. cbv zeta. apply booked_bind; [apply apart_booked, apart_cas|intros b]. destruct (negb _).
  { apply apart_booked. apply apart_bind; [apply apart_cas|intros _]. by apply apart_bind; [apply apart_session|intros _]. }
  destruct (verify_upload _ _) as [sha|[]|]; try (by apply apart_booked).
  - unfold promote. apply booked_bind; [by apply apart_booked|intros class]. destruct (negb _).
    { apply apart_booked. by apply apart_bind; [apply apart_cas|intros _]. }
    cbv zeta. apply booked_bind; [apply apart_booked, apart_cas|intros _]. apply booked_bind; [apply commit_booked|intros id].
    apply apart_booked, apart_aside, aside_after_commit.
  - apply apart_booked. apply apart_bind; [apply mismatch_apart|intros _]. by apply apart_bind; [apply apart_cas|intros _].
Qed.

Lemma finalize_occurrence `{!HexLaws} req s resp s' : finalize tenant req s = (Ret resp, s') -> exists sha, hex_to_raw (fq_sha256 req) = Some sha /\
  (unheard (fq_occurrence req) (rows TOccurrence s) -> entered tenant (fq_occurrence req) sha (rows TOccurrence s) (rows TOccurrence s')).
Proof.
  unfold finalize. intros E. apply bind_ret in E as (session & s1 & E1 & E). injection E1 as _ <-. apply bind_ret in E as (u & s2 & E2 & E).
  assert (s2 = s) as -> by (by destruct session; [injection E2|discriminate E2]).
  destruct (negb _); [discriminate E|]. cbv zeta in E. apply bind_ret in E as (b & s3 & E3 & E). destruct (negb _).
  { apply bind_ret in E as (? & ? & _ & E). apply bind_ret in E as (? & ? & _ & E). discriminate E. }
  unfold verify_upload in E. destruct (eq_ignore_case _ _) eqn:Eq.
  2: { apply bind_ret in E as (? & ? & _ & E). apply bind_ret in E as (? & ? & _ & E). discriminate E. }
  exists (sha256_raw b). split.
  { unfold hex_to_raw. rewrite <- (eq_ignore_case_decode _ _ Eq). apply hex_to_raw_sha256_hex. }
  intros Hu. unfold promote in E. apply bind_ret in E as (class & s4 & E4 & E). injection E4 as _ <-. destruct (negb _).
  { apply bind_ret in E as (? & ? & _ & E). discriminate E. }
  cbv zeta in E. apply bind_ret in E as (v & s5 & E5 & E). apply bind_ret in E as (id & s6 & Ec & E).
  pose proof (apart_cas (read ("staging/" +:+ us_staging_key u)) s) as [_ H3]. rewrite E3 in H3. cbn [snd] in H3.
  match type of E5 with with_cas ?m ?x = _ => pose proof (apart_cas m x) as [_ H5] end. rewrite E5 in H5. cbn [snd] in H5.
  rewrite <- H3, <- H5 in *. pose proof (commit_occurrence _ _ _ _ _ _ _ _ _ Ec Hu) as He.
  match type of E with ?m ?x = _ => assert (Ha : apart m) by (apply apart_aside, aside_after_commit); destruct (Ha x) as [_ H6] end.
  rewrite E in H6. cbn [snd] in H6. by rewrite H6.
Qed.
End book.

(** *** The routes over a lossy link, with others' requests in between *)

(** [si_others n] is what other clients have done before the [n]th request. *)
Record Site := mkSite { si_world : World; si_others : nat -> World -> World; si_link : nat -> Link; si_calls : nat }.

Fixpoint fill (p : list Seg) (args : list string) : list string :=
  match p with
  | [] => []
  | Lit s :: p' => s :: fill p' args
  | Par :: p' => match args with a :: args' => a :: fill p' args' | [] => ""%string :: fill p' [] end
  end.

Section site.
  Context {YX : YaraX} {SH : ScannerHost} {SHA : Sha256} {HEX : HexCodec} {UD : UuidDisplay} {UP : UuidParse} {GOB : Goblin} {LOG : Log2}
          {DEC : X86Decoder} {HO : HashOrder} {JT : JsonText} {CH : Chrono} {ST : StatusText}
          {CT : ChronoText} {TJ : TimeJson} {JP : JsonPretty} {HEXL : HexLaws} {UDL : UuidLaws}.
  Context (env : Env) (cfg : AuthConfig) (ca : DeploymentCa) (h : Headers) (tenant boot : Uuid).

Definition arg_text (a : Arg) : string := match a with ArgText s => s | ArgId u => uuid_to_string u end.

(** The path the client writes. *)
Definition client_path (call : Call) : list string := fill (pattern call) (map arg_text (call_args call)).

Definition site_answer (l : Link) (o : outcome Reply) : outcome Answer :=
  match l, o with
  | LinkUp, Ret r => Ret (Answered r)
  | LinkUp, Fail e => Ret (Refused (status_of e) e)
  | _, _ => Fail connection_lost
  end.

#[local] Instance site_api : Api Site := fun hd call st =>
  let w := si_others st (si_calls st) (si_world st) in
  match si_link st (si_calls st) with
  | RequestLost => (Fail connection_lost, mkSite w (si_others st) (si_link st) (S (si_calls st)))
  | l => let '(o, w') := serve env cfg ca (client_path call) hd call w in
         (site_answer l o, mkSite w' (si_others st) (si_link st) (S (si_calls st)))
  end.

Definition srv_of (st : Site) : Srv := wd_srv (si_world st).

(** The server takes the client for a command line client of the tenant. *)
Definition dev_client (s : Srv) : Prop := fst (ingest_auth env cfg h s) = Ret (DevAuth tenant).

(** Others keep the store's invariant, remove no artifact or occurrence, do not
    change for which tenant this client acts, and make no occurrence under this
    run's boot. *)
Record others_ok (f : World -> World) : Prop := {
  ok_wf : forall w, store_wf (wd_srv w) -> store_wf (wd_srv (f w));
  ok_artifacts : forall w a, In a (rows TArtifact (wd_srv w)) -> In a (rows TArtifact (wd_srv (f w)));
  ok_client : forall w, dev_client (wd_srv w) -> dev_client (wd_srv (f w));
  ok_occurrences : forall w o, In o (rows TOccurrence (wd_srv w)) -> In o (rows TOccurrence (wd_srv (f w)));
  ok_boot : forall w o, In o (rows TOccurrence (wd_srv (f w))) -> In o (rows TOccurrence (wd_srv w)) \/ oc_boot_id o <> boot }.

#[local] Instance site_view : ApiView Site := {|
  ap_inv st := store_wf (srv_of st) /\ dev_client (srv_of st) /\ forall n, others_ok (si_others st n);
  ap_stored sha st := exists raw, hex_to_raw sha = Some raw /\ has_artifact tenant raw (srv_of st);
  ap_recorded o sha st := exists raw row, hex_to_raw sha = Some raw /\ In row (rows TOccurrence (srv_of st)) /\ recorded_row tenant o raw row;
  ap_free b n st := b = boot /\ forall row, In row (rows TOccurrence (srv_of st)) -> oc_boot_id row = boot -> oc_agent_sequence row <= n |}.

Lemma resolve_same s s' : rows TTenant s' = rows TTenant s -> fst (resolve_tenant h s') = fst (resolve_tenant h s).
Proof.
  intros E. assert (Hg : forall id, fst (get_tenant id s') = fst (get_tenant id s)).
  { intros id. unfold get_tenant, select_optional, gets, mbind, op_mbind. rewrite E. by destruct (head _). }
  assert (Hs : forall slug, fst (get_tenant_by_slug slug s') = fst (get_tenant_by_slug slug s)).
  { intros slug. unfold get_tenant_by_slug, select_optional, gets, mbind, op_mbind. rewrite E. by destruct (head _). }
  assert (Hr : forall raw, fst (resolve_active_tenant raw s') = fst (resolve_active_tenant raw s)).
  { assert (Hb : forall (m : Op Srv Tenant) (f : Tenant -> Op Srv Uuid), fst (m s') = fst (m s) -> (forall t x y, fst (f t x) = fst (f t y)) -> fst ((m ≫= f) s') = fst ((m ≫= f) s)).
    { intros m f Hm Hf. unfold mbind, op_mbind. destruct (m s') as [o1 s1], (m s) as [o2 s2]. cbn in Hm. subst o2. destruct o1; [apply Hf|done|done]. }
    intros raw. apply Hb; [|intros t x y; by destruct (negb _)]. destruct raw as [raw|]; [|apply Hg]. destruct (String.eqb raw ""); [apply Hg|]. cbv zeta.
    destruct (uuid_parse _); [apply Hg|apply Hs]. }
  unfold resolve_tenant. destruct (hd_tenant h) as [v|]; [|apply Hr]. unfold mbind, op_mbind. by destruct (to_str v); [apply Hr|].
Qed.

Lemma dev_client_same s s' : rows TTenant s' = rows TTenant s -> dev_client s -> dev_client s'.
Proof.
  intros E. unfold dev_client, ingest_auth.
  assert (Hd : forall x, fst ((t ← resolve_tenant h; mret (DevAuth t)) x) = match fst (resolve_tenant h x) with Ret t => Ret (DevAuth t) | Fail e => Fail e | Panic => Panic end).
  { intros x. unfold mbind, op_mbind. by destruct (resolve_tenant h x) as [[t|e|] y]. }
  destruct (is_set (hd_authorization h)).
  - destruct (bearer h) as [tok|]; [|done]. erewrite (bind_run _ _ s); [|reflexivity]. erewrite (bind_run _ _ s'); [|reflexivity].
    destruct (admin_matches cfg tok).
    + by rewrite !Hd, (resolve_same s s' E).
    + intros H. exfalso. revert H. unfold mret, op_mret, mbind, op_mbind. by destruct (authenticate _ _ s) as [[i|e|] y].
  - destruct (negb _); [done|]. by rewrite !Hd, (resolve_same s s' E).
Qed.

Lemma ingest_auth_run s : dev_client s -> ingest_auth env cfg h s = (Ret (DevAuth tenant), s).
Proof. intros H. destruct (reads_ingest_auth env cfg h s) as [Hs _]. unfold dev_client in H. destruct (ingest_auth env cfg h s). cbn in *. by subst. Qed.

(** What a request of an import does to the server. *)
Definition handled (call : Call) (s s' : Srv) (o : outcome Reply) : Prop :=
  match call with
  | Announce req => exists a, announce tenant req s = (a, s') /\ forall r, o = Ret r -> exists resp, a = Ret resp /\ r = RAnnounce resp
  | Upload u b => s' = snd (stage_upload tenant u b s)
  | Finalize req => exists a, finalize tenant req s = (a, s') /\ forall r, o = Ret r -> exists resp, a = Ret resp /\ r = RFinalize resp
  | ReportGaps l => s' = snd (report_gaps env h l s)
  | _ => True
  end.

Lemma dispatch_handled call w : import_call call = true -> dev_client (wd_srv w) ->
  handled call (wd_srv w) (wd_srv (snd (dispatch env cfg ca h call w))) (fst (dispatch env cfg ca h call w)).
Proof.
  intros Hc Hd. pose proof (ingest_auth_run _ Hd) as Ha. destruct call; try discriminate Hc; cbn [dispatch handled]; unfold core.
  - unfold announce_route. rewrite (bind_run _ _ _ _ _ Ha). cbn [auth_tenant as_agent]. match goal with |- context [mkAnnounceRequest (an_sha256 ?x) (an_size_bytes ?x) (an_occurrence ?x)] =>
      replace (mkAnnounceRequest (an_sha256 x) (an_size_bytes x) (an_occurrence x)) with x by (by destruct x); rename x into rq end.
    unfold mbind, op_mbind. destruct (announce tenant rq (wd_srv w)) as [[r|e|] s'] eqn:E; cbn; eexists; (split; [reflexivity|]); try done. intros r0 [= <-]. by exists r.
  - unfold upload. rewrite (bind_run _ _ _ _ _ Ha). cbn [auth_tenant]. unfold mbind, op_mbind. by destruct (stage_upload tenant upload_id body (wd_srv w)) as [[r|e|] s'].
  - unfold finalize_route. rewrite (bind_run _ _ _ _ _ Ha). cbn [auth_tenant as_agent]. match goal with |- context [mkFinalizeRequest (fq_upload_id ?x) ?a ?b ?d ?e ?f] => replace (mkFinalizeRequest (fq_upload_id x) a b d e f) with x by (by destruct x); rename x into rq end.
    unfold mbind, op_mbind. destruct (finalize tenant rq (wd_srv w)) as [[r|e|] s'] eqn:E; cbn; eexists; (split; [reflexivity|]); try done. intros r0 [= <-]. by exists r.
  - by destruct (report_gaps env h gaps (wd_srv w)).
Qed.

Lemma serve_handled call w : import_call call = true -> dev_client (wd_srv w) ->
  let run := serve env cfg ca (client_path call) h call w in
  (wd_srv (snd run) = wd_srv w /\ is_ret (fst run) = false) \/ handled call (wd_srv w) (wd_srv (snd run)) (fst run).
Proof.
  intros Hc Hd. cbv zeta. pose proof (dispatch_handled call w Hc Hd) as H. unfold serve, admin_gate.
  destruct (negb (au_require_admin cfg)); [by right|]. destruct (public_path _); [by right|]. destruct (merlin_passes _ _ _); [by right|].
  unfold mbind, op_mbind, lift_outcome. destruct (check_admin cfg (authorization h)) as [[]|e|]; [by right|by left..].
Qed.

(** A request: what the others did, then its handler, unless it was lost. *)
Lemma site_run call st : import_call call = true -> dev_client (srv_of st) -> (forall n, others_ok (si_others st n)) ->
  let w := si_others st (si_calls st) (si_world st) in let run := api h call st in
  si_others (snd run) = si_others st /\
  ((srv_of (snd run) = wd_srv w /\ forall r, fst run <> Ret (Answered r)) \/
   exists o, handled call (wd_srv w) (srv_of (snd run)) o /\ forall r, fst run = Ret (Answered r) -> o = Ret r).
Proof.
  intros Hc Hd Ho w run. assert (Hd' : dev_client (wd_srv w)) by (by apply (ok_client _ (Ho (si_calls st)))).
  pose proof (serve_handled call w Hc Hd') as H. cbv zeta in H. subst run. unfold api, site_api. fold w.
  destruct (si_link st (si_calls st)); [|by split; [|left]|]; destruct (serve env cfg ca (client_path call) h call w) as [o w'] eqn:E; cbn [fst snd] in *; (split; [done|]).
  - destruct H as [[H1 H2]|H]; [left; split; [done|]; intros r; by destruct o|right]. exists o. split; [done|]. intros r. destruct o; try done. by intros [= ->].
  - destruct H as [[H1 H2]|H]; [by left|right]. by exists o.
Qed.

(** *** The contract *)

Lemma gaps_aside l : aside (fun t => match t with TAttempt => false | _ => true end) (report_gaps env h l).
Proof.
  unfold report_gaps, bearer_token, authenticate, record_gaps, record_gaps_dev, record_gaps_scoped, record_gap_event, resolve_tenant, resolve_active_tenant,
    get_tenant, get_tenant_by_slug. aside_tac.
Qed.

Record only_adds (s s' : Srv) : Prop := {
  oa_wf : store_wf s -> store_wf s';
  oa_artifacts : forall a, In a (rows TArtifact s) -> In a (rows TArtifact s');
  oa_tenants : rows TTenant s' = rows TTenant s;
  oa_occurrences : appended (rows TOccurrence s) (rows TOccurrence s') }.

Lemma handled_adds call s s' o : import_call call = true -> handled call s s' o -> only_adds s s'.
Proof.
  intros Hc H. assert (Hk : forall A (m : Op Srv A), ingest_keeps m -> booked m -> only_adds s (snd (m s))).
  { intros A m [H1 H2] Hb. destruct (Hb s) as [H3 H4]. constructor; [apply H1|intros a; apply H2|done|done]. }
  destruct call; try discriminate Hc; cbn [handled] in H.
  - destruct H as (a & E & _). change s' with (snd (a, s')). rewrite <- E. apply Hk; [apply announce_keeps|apply announce_booked].
  - rewrite H. apply Hk; [apply stage_keeps|apply apart_booked, stage_apart].
  - destruct H as (a & E & _). change s' with (snd (a, s')). rewrite <- E. apply Hk; [by apply finalize_keeps|apply finalize_booked].
  - rewrite H. apply Hk.
    + split; [apply store_wf_aside|intros a; apply artifact_aside]; (eapply aside_weaken; [|apply gaps_aside]); by intros [].
    + apply apart_booked. intros x. destruct (gaps_aside gaps x) as [_ Hx]. split; by apply Hx.
Qed.

(** The requests that cannot make an occurrence. *)
Lemma handled_quiet call s s' o : match call with Upload _ _ | ReportGaps _ => True | _ => False end -> handled call s s' o -> rows TOccurrence s' = rows TOccurrence s.
Proof.
  intros Hc H. destruct call; try done; cbn [handled] in H; rewrite H; [apply stage_apart|].
  destruct (gaps_aside gaps s) as [_ Hx]. by apply Hx.
Qed.

Lemma others_free f n w : others_ok f -> (forall row, In row (rows TOccurrence (wd_srv w)) -> oc_boot_id row = boot -> oc_agent_sequence row <= n) ->
  forall row, In row (rows TOccurrence (wd_srv (f w))) -> oc_boot_id row = boot -> oc_agent_sequence row <= n.
Proof. intros Hf H row Hin Hb. destruct (ok_boot _ Hf _ _ Hin) as [Hin'|Hn]; [by apply H|done]. Qed.

Lemma entered_free occ sha l l' n : fits boot n occ -> entered tenant occ sha l l' ->
  (forall row, In row l -> oc_boot_id row = boot -> oc_agent_sequence row <= n) ->
  forall row, In row l' -> oc_boot_id row = boot -> oc_agent_sequence row <= past n occ.
Proof.
  destruct occ as [o|]; cbn [fits entered past]; [|by intros _ ->]. intros [_ Hn] (r & -> & Hr) H row [Hin|[<-|[]]]%in_app_or Hb.
  - specialize (H row Hin Hb). lia.
  - rewrite (rw_seq _ _ _ _ Hr). lia.
Qed.

Lemma unheard_free occ l n : fits boot n occ -> (forall row, In row l -> oc_boot_id row = boot -> oc_agent_sequence row <= n) -> unheard occ l.
Proof. destruct occ as [o|]; [|done]. intros [Hb Hn] H row Hin Hr Hs. rewrite Hb in Hr. specialize (H row Hin Hr). lia. Qed.

Lemma entered_noted occ sha s st : hex_to_raw sha = Some s -> forall l, entered tenant occ s l (rows TOccurrence (srv_of st)) -> noted occ sha st.
Proof.
  intros Hx l. destruct occ as [o|]; [|done]. intros (row & E & Hr). exists s, row. split; [done|]. split; [rewrite E; apply in_or_app; right; by left|done].
Qed.

#[local] Instance site_laws : ApiLaws Site h.
Proof.
  constructor.
  - intros b n m st Hnm [Hb Hf]. split; [done|]. intros row Hin Hr. specialize (Hf row Hin Hr). lia.
  - intros call st Hc (Hw & Hd & Ho). destruct (site_run call st Hc Hd Ho) as [Hoth H]. set (w := si_others st (si_calls st) (si_world st)) in *.
    assert (Hadd : only_adds (wd_srv w) (srv_of (snd (api h call st)))).
    { destruct H as [[-> _]|(o & Hh & _)]; [by constructor; try apply appended_refl|by eapply handled_adds]. }
    pose proof (Ho (si_calls st)) as Hk. constructor.
    + intros _. split; [apply Hadd; apply (ok_wf _ Hk), Hw|]. split; [|by rewrite Hoth].
      eapply dev_client_same; [apply (oa_tenants _ _ Hadd)|]. by apply (ok_client _ Hk).
    + intros sha (raw & Hx & a & Ha & Hia). exists raw. split; [done|]. exists a. split; [|done]. apply (oa_artifacts _ _ Hadd), (ok_artifacts _ Hk), Ha.
    + intros o sha (raw & row & Hx & Hin & Hr). exists raw, row. split; [done|]. split; [|done]. destruct (oa_occurrences _ _ Hadd) as (new & ->).
      apply in_or_app. left. by apply (ok_occurrences _ Hk).
  - intros u b0 b n st (Hw & Hd & Ho) [Hb Hf]. destruct (site_run (Upload u b0) st eq_refl Hd Ho) as [_ H]. split; [done|].
    pose proof (others_free _ n _ (Ho (si_calls st)) Hf) as Hf'. destruct H as [[-> _]|(o & Hh & _)]; [exact Hf'|]. rewrite (handled_quiet (Upload u b0) _ _ _ I Hh). exact Hf'.
  - intros l b n st (Hw & Hd & Ho) [Hb Hf]. destruct (site_run (ReportGaps l) st eq_refl Hd Ho) as [_ H]. split; [done|].
    pose proof (others_free _ n _ (Ho (si_calls st)) Hf) as Hf'. destruct H as [[-> _]|(o & Hh & _)]; [exact Hf'|]. rewrite (handled_quiet (ReportGaps l) _ _ _ I Hh). exact Hf'.
  - intros a st resp st' b n (Hw & Hd & Ho) [-> Hf] Hfit E. destruct (site_run (Announce a) st eq_refl Hd Ho) as [_ H]. rewrite E in H. cbn [fst snd] in H.
    pose proof (others_free _ n _ (Ho (si_calls st)) Hf) as Hf'. destruct H as [[_ H]|(o & (x & Ex & Hx) & H)]; [by destruct (H (RAnnounce resp))|].
    specialize (H _ eq_refl). destruct (Hx _ H) as (resp' & -> & [= <-]). pose proof (announce_occurrence tenant a _ _ _ Ex) as Hocc.
    destruct (ap_disposition resp) eqn:Ed; try (split; [done|]; rewrite Hocc; exact Hf').
    destruct (announce_present_stored tenant a _ _ _ Ex Ed) as (sha & Hsha & Hart). specialize (Hocc sha Hsha (unheard_free _ _ n Hfit Hf')).
    constructor; [by exists sha|by eapply entered_noted|]. split; [done|]. by eapply entered_free.
  - intros f st resp st' b n (Hw & Hd & Ho) [-> Hf] Hfit E. destruct (site_run (Finalize f) st eq_refl Hd Ho) as [_ H]. rewrite E in H. cbn [fst snd] in H.
    pose proof (others_free _ n _ (Ho (si_calls st)) Hf) as Hf'. destruct H as [[_ H]|(o & (x & Ex & Hx) & H)]; [by destruct (H (RFinalize resp))|].
    specialize (H _ eq_refl). destruct (Hx _ H) as (resp' & -> & [= <-]).
    destruct (finalize_stores tenant f _ _ _ Ex) as (sha & Hsha & Hart). destruct (finalize_occurrence tenant f _ _ _ Ex) as (sha' & Hsha' & Hocc).
    assert (sha' = sha) as -> by congruence. specialize (Hocc (unheard_free _ _ n Hfit Hf')).
    constructor; [by exists sha|by eapply entered_noted|]. split; [done|]. by eapply entered_free.
Qed.
End site.

(** ** Imports into the server *)

Section delivered.
  Context {YX : YaraX} {SH : ScannerHost} {SHA : Sha256} {HEX : HexCodec} {UD : UuidDisplay} {UP : UuidParse} {GOB : Goblin} {LOG : Log2}
          {DEC : X86Decoder} {HO : HashOrder} {JT : JsonText} {CH : Chrono} {ST : StatusText}
          {CT : ChronoText} {TJ : TimeJson} {JP : JsonPretty} {V5 : UuidV5} {JB : JsonBytes} {TR : TarReader} {HEXL : HexLaws} {UDL : UuidLaws}.
  Context (env : Env) (cfg : AuthConfig) (ca : DeploymentCa) (h : Headers) (tenant boot : Uuid).
  Context (c : Client) (Hc : req c = Ret h).

#[local] Instance routes_api : Api Site := site_api env cfg ca.
#[local] Instance routes_view : ApiView Site := site_view env cfg h tenant boot.
#[local] Instance routes_laws : ApiLaws Site h := site_laws env cfg ca h tenant boot.

(** The bytes are in the tenant's store, and an occurrence of them is recorded. *)
Record held (o : OccurrenceInfo) (b : bytes) (s : Srv) : Prop := {
  he_artifact : exists a, In a (rows TArtifact s) /\ is_artifact tenant (sha256_raw b) a;
  he_object : exists b', fs_files (srv_cas s) !! object_key tenant (sha256_hex b) = Some b' /\ sha256_raw b' = sha256_raw b;
  he_row : exists row, In row (rows TOccurrence s) /\ recorded_row tenant o (sha256_raw b) row }.

(** What a printed line says of its file and of the server. *)
Definition told (host : string) (opts : ImportOptions) (s : Srv) (i : nat) (f : LocalFile) (l : Line) : Prop :=
  match l with
  | ReadFailed p => p = lf_path f /\ exists e, lf_bytes f = inl e
  | Present sha p _ | Captured sha p _ _ =>
      p = lf_path f /\ exists b o, lf_bytes f = inr b /\ sha = sha256_hex b /\ occurrence_of host boot opts i f b o /\ held o b s
  | UploadFailed sha p _ | OtherDisposition _ sha p => p = lf_path f /\ exists b, lf_bytes f = inr b /\ sha = sha256_hex b
  | _ => False
  end.

(** A fresh run of a client the server takes for the tenant's. *)
Record fresh_run (s : Ctl Site) : Prop := {
  re_wf : store_wf (srv_of (ct_remote s));
  re_client : dev_client env cfg h tenant (srv_of (ct_remote s));
  re_others : forall n, others_ok env cfg h tenant boot (si_others (ct_remote s) n);
  re_boot : ct_uuids s (ct_uuid_next s) = boot;
  re_fresh : forall row, In row (rows TOccurrence (srv_of (ct_remote s))) -> oc_boot_id row <> boot }.

Lemma fresh_inv s : fresh_run s -> ap_inv (ct_remote s) /\ ap_free boot 0 (ct_remote s).
Proof. intros [H1 H2 H3 _ H5]. split; [done|]. split; [done|]. intros row Hin Hb. by destruct (H5 row Hin). Qed.

Lemma stored_held o b r : store_wf (srv_of r) -> ap_stored (sha256_hex b) r -> ap_recorded o (sha256_hex b) r -> held o b (srv_of r).
Proof.
  intros Hw (raw & Hx & a & Ha & Hia) (raw' & row & Hx' & Hrow & Hr). rewrite hex_to_raw_sha256_hex in Hx, Hx'. injection Hx as <-. injection Hx' as <-.
  constructor; [by exists a| |by exists row]. destruct (so_rows _ _ Hw a Ha) as [Hk (b' & Hb & Hd)]. destruct Hia as [Hi1 Hi2].
  exists b'. rewrite Hk, Hi1, Hi2 in Hb. split; [exact Hb|congruence].
Qed.

Lemma line_told host opts r i f l : store_wf (srv_of r) -> line_of host boot opts r i f l -> told host opts (srv_of r) i f l.
Proof.
  intros Hw. destruct l; cbn [line_of told]; try done.
  - intros (-> & b & o & E & -> & Ho & H1 & H2). split; [done|]. exists b, o. do 3 (split; [done|]). by apply stored_held.
  - intros (-> & b & o & E & -> & Ho & H1 & H2). split; [done|]. exists b, o. do 3 (split; [done|]). by apply stored_held.
Qed.

(** C25. Importing a directory over the routes.  The link may lose requests and
    answers, and other clients may act in between, as long as they remove nothing and
    keep the store's invariant.  Whatever the outcome, one line is printed per file
    handled, in the order of the files, and at the end of the run every file printed
    as captured or already present is in the tenant's store under the digest of its
    bytes, with an occurrence of this run numbered by its place.  A run that returns
    has a line for each file and prints how many of each kind there were. *)
Theorem imports_recorded hostname files opts s : fresh_run s ->
  let run := import_dir c hostname files opts s in
  exists lines,
    (forall i l, lines !! i = Some l -> exists f, files !! i = Some f /\ told (default hostname (io_host opts)) opts (srv_of (ct_remote (snd run))) i f l) /\
    match fst run with
    | Ret _ => length lines = length files /\
        let t := foldl tally_line (mkTally 0 0 0) lines in
        ct_out (snd run) = ct_out s ++ lines ++ [ImportComplete (ta_captured t) (ta_present t) (ta_failed t)]
    | _ => (length lines <= length files)%nat /\ ct_out (snd run) = ct_out s ++ lines
    end.
Proof.
  intros Hr run. destruct (fresh_inv s Hr) as [Hi Hf].
  pose proof (import_dir_lines c h Hc hostname files opts s) as H. cbv zeta in H. rewrite (re_boot s Hr) in H.
  destruct (H Hi Hf) as (lines & H1 & Hg & H2). exists lines. split; [|exact H2].
  intros i l Hl. destruct (H1 i l Hl) as (f & Ef & Hlf). exists f. split; [exact Ef|].
  apply line_told; [apply (gr_inv _ _ Hg), Hi|exact Hlf].
Qed.

(** The files of a saved image, layer after layer, with their layer's digest. *)
Definition image_members (layers : list (bytes * list TarEntry)) : list (string * TarEntry) :=
  flat_map (fun l => map (fun e => ("sha256:" +:+ sha256_hex (fst l), e)) (List.filter te_is_file (snd l))) layers.

(** The occurrence of the [k]-th file. *)
Record image_occurrence (label : string) (agent : Uuid) (k : nat) (path : string) (o : OccurrenceInfo) : Prop := {
  io_label : oi_host_name o = label;
  io_agent : oi_agent_id o = agent;
  io_boot : oi_boot_id o = boot;
  io_seq : oi_agent_sequence o = Z.of_nat k + 1;
  io_reason : oi_capture_reason o = "oci_image"%string;
  io_path : oi_path o = path }.

(** What a file printed, if anything, says of it and of the server. *)
Definition member_told (label : string) (agent : Uuid) (max : Z) (s : Srv) (k : nat) (m : string * TarEntry) (x : option Line) : Prop :=
  exists path, te_path (snd m) = inr path /\
  let size := default 0 (te_size (snd m)) in
  if max <? size then x = Some (TooLarge path size (fst m))
  else exists b, te_data (snd m) = inr b /\
    match x with
    | None => classify b = Ret Unknown
    | Some (Outcome word sha p) =>
        classify b <> Ret Unknown /\ p = path /\ sha = sha256_hex b /\
        (word = "captured" \/ word = "already_present" -> exists o, image_occurrence label agent k path o /\ held o b s)%string
    | _ => False
    end.

Lemma map_outcome_ret {A B} (f : A -> outcome B) l out : map_outcome f l = Ret out -> Forall2 (fun x y => f x = Ret y) l out.
Proof.
  revert out. induction l as [|x l IH]; intros out; cbn [map_outcome]; [by intros [= <-]|].
  destruct (f x) as [y| |] eqn:Ex; [|done..]. cbn [mbind outcome_mbind]. destruct (map_outcome f l) as [ys| |]; [|done..]. intros [= <-].
  constructor; [done|by apply IH].
Qed.

(** The entries of a saved image's job are its files. *)
Lemma saved_image_entries tar_path archive tags layers max job : saved_as archive tags layers -> saved_image tar_path (inr archive) max = Ret job ->
  oj_label job = default tar_path (head tags) /\ oj_created job = None /\
  Forall2 (fun m e => fst m = fst e /\ entry_read max (snd m) (snd e)) (image_members layers) (entries_of job).
Proof.
  intros Hs E. unfold saved_image in E. cbn [mbind outcome_mbind] in E. destruct (walk_docker_save archive) as [out| |] eqn:Ew; [|done..].
  apply (walk_docker_save_layers _ _ _ _ Hs) in Ew as ->. cbn [mbind outcome_mbind] in E.
  destruct (map_outcome _ (map fst layers)) as [files| |] eqn:Em; [|done..]. injection E as <-. split; [done|]. split; [done|].
  destruct Hs as (? & ? & ? & ? & ? & _ & _ & _ & _ & _ & _ & _ & _ & Hl). apply map_outcome_ret in Em.
  unfold image_members, entries_of. cbn [oj_layers]. revert files Em. induction Hl as [|l layers Hl _ IH]; intros files Em; inversion Em as [|? f ? files' Hf Hfs]; subst; [constructor|].
  cbn [flat_map]. apply Forall2_app; [|by apply IH]. destruct (walk_layer (fst l) false max) as [es| |] eqn:Ee; [|done..]. cbn [mbind outcome_mbind] in Hf. injection Hf as <-.
  apply walk_layer_spec in Ee as (es' & Ee & He). rewrite Hl in Ee. injection Ee as Ee. apply (inj (map inr)) in Ee as ->. cbn [fst snd].
  clear -He. induction He as [|e x es os He _ IH]; [constructor|]. cbn [map]. by constructor.
Qed.

Lemma member_line job agent tar_path tags max s r k m e x : oj_label job = default tar_path (head tags) ->
  fst m = fst e -> entry_read max (snd m) (snd e) -> store_wf (srv_of r) -> s = srv_of r -> entry_line job agent boot r k e x ->
  member_told (default tar_path (head tags)) agent max s k m x.
Proof.
  intros El Ed (Ep & Ez & Er) Hw -> Hx. exists (le_path (snd e)). split; [exact Ep|]. cbv zeta. rewrite <- Ez, Ed. unfold entry_line in Hx.
  destruct (max <? le_size (snd e)).
  - rewrite Er in Hx. by destruct x; [rewrite Hx|].
  - destruct Er as (_ & b & Eb & Er). exists b. split; [exact Eb|]. rewrite Er in Hx. destruct x as [[]|]; try done.
    destruct Hx as (H1 & -> & -> & H2). do 3 (split; [done|]). intros Hword. destruct H2 as (H2 & o & H3 & H4); [by destruct Hword as [-> | ->]|].
    exists o. split; [|by apply stored_held]. destruct H3. constructor; congruence.
Qed.

(** C26. Importing a container image saved to an archive, over the same routes and
    beside the same other clients.  Let the archive hold an image as [docker save]
    writes it.  A run that returns accounts for every regular file of every layer, in
    order: one over the size limit is printed as too large, with its size and its
    layer's digest; one whose bytes are not executable content is left out without a
    line; every other is announced, and when it is printed as captured or already
    present its bytes are in the tenant's store, with an occurrence of this run under
    the image's tag, numbered by its place.  The last line gives the number of files
    captured, announced with another outcome, too large and left out. *)
Theorem oci_import_accounts hostname tar_path archive creds max tags layers s : fresh_run s -> saved_as archive tags layers ->
  let run := cmd_import_oci c hostname None (Some tar_path) (inr archive) creds max s in
  fst run = Ret tt ->
  let s' := snd run in
  exists xs, length xs = length (image_members layers) /\
    (forall k x, xs !! k = Some x -> exists m, image_members layers !! k = Some m /\
      member_told (default tar_path (head tags)) (agent_of hostname) max (srv_of (ct_remote s')) k m x) /\
    ct_out s' = ct_out s ++ flat_map printed xs ++
      [OciComplete (count is_captured xs) (count is_present xs) (count is_too_large xs) (count is_skipped xs)].
Proof.
  intros Hr Hs run Er s'. assert (E : cmd_import_oci c hostname None (Some tar_path) (inr archive) creds max s = (Ret tt, s')) by (subst s' run; by rewrite <- Er, <- surjective_pairing).
  clearbody s'. clear Er run. destruct (fresh_inv s Hr) as [Hi Hf]. unfold cmd_import_oci in E.
  rewrite (bind_run fresh_uuid _ s boot (snd (fresh_uuid s))) in E by (unfold fresh_uuid; by rewrite (re_boot s Hr)).
  apply bind_ret in E as (job & s1 & E1 & E). unfold lift_outcome in E1. injection E1 as Ej Es1.
  assert (R1 : ct_remote s1 = ct_remote s) by (by rewrite <- Es1). assert (O1 : ct_out s1 = ct_out s) by (by rewrite <- Es1). clear Es1.
  rewrite <- R1 in Hi, Hf.
  destruct (saved_image_entries _ _ _ _ _ _ Hs Ej) as (Hl & _ & Hm).
  pose proof (import_job_lines c h Hc (agent_of hostname) boot job s1 Hi Hf) as H. cbv zeta in H. rewrite E in H. cbn [fst snd] in H.
  destruct H as (xs & H1 & Hg & Hn & Ho). exists xs. split; [by rewrite Hn, (Forall2_length _ _ _ Hm)|].
  split; [|by rewrite Ho, O1, oci_tally_counts].
  intros k x Hx. destruct (H1 k x Hx) as (e & Ee & He). destruct (Forall2_lookup_r _ _ _ _ _ Hm Ee) as (m & Em & Hfst & Hread).
  exists m. split; [exact Em|]. eapply member_line; [exact Hl|exact Hfst|exact Hread| |reflexivity|exact He]. apply (gr_inv _ _ Hg), Hi.
Qed.
End delivered.

(** ** Witnesses *)

Section witnesses.
Local Existing Instance ReferenceYara.engine.
Local Existing Instance ReferenceYara.host.
Local Existing Instance ReferenceHash.sha.
Local Existing Instance ReferenceHash.hex.
Local Existing Instance ReferenceHash.hex_laws.
Local Existing Instance ReferenceUuid.display.
Local Existing Instance ReferenceUuid.laws.
Local Existing Instance ReferenceAnalysis.goblin.
Local Existing Instance ReferenceAnalysis.log2.
Local Existing Instance ReferenceAnalysis.decoder.
Local Existing Instance ReferenceAnalysis.order.
Local Existing Instance ReferenceCape.status.
Local Existing Instance ReferenceCape.json.
Local Existing Instance no_uuid.
Local Existing Instance whole.
Local Existing Instance no_dates.
Local Existing Instance no_time.
Local Existing Instance no_pretty.
Local Instance one_agent : UuidV5 := fun _ => 77%N.

(** An archive of one layer: a script, a text, and a file past the limit. *)
Definition saved_manifest : Json := JArr [JObj [("RepoTags", JArr [JStr "tools:1"]); ("Layers", JArr [JStr "l0.tar"])]%string].
Local Instance the_manifest : JsonBytes := fun _ => inr saved_manifest.
Local Instance two_archives : TarReader := fun _ b => match b with
  | [x02] => inr [inr (mkTarEntry true (inr "manifest.json"%string) (Some 1) (inr [x6a])); inr (mkTarEntry true (inr "l0.tar"%string) (Some 1) (inr [x01]))]
  | _ => inr [inr (mkTarEntry true (inr "bin/run"%string) (Some 3) (inr script_bytes)); inr (mkTarEntry false (inr "etc"%string) (Some 0) (inr []));
              inr (mkTarEntry true (inr "etc/motd"%string) (Some 2) (inr [x68; x69])); inr (mkTarEntry true (inr "data/big"%string) (Some 4096) (inr [x00]))]
  end.

Definition ctl_client : Client := mkClient (Some "acme"%string) (Some "admin"%string).
Definition ctl_headers : Headers := mkHeaders (Some (Visible "Bearer admin")) (Some (Visible "acme")).

(** Before the second request another client stages other bytes under the upload's
    session. *)
Definition meddler (n : nat) (w : World) : World :=
  if (n =? 1)%nat then mkWorld (snd (stage_upload 5%N 100%N other_bytes (wd_srv w))) (wd_net w) (wd_tasks w) else w.

Lemma meddler_ok n : others_ok no_env closed_auth ctl_headers 5%N 1000%N (meddler n).
Proof.
  unfold meddler. destruct (n =? 1)%nat; [|by constructor; auto].
  constructor; cbn [wd_srv]; intros w; pose proof (stage_apart 5%N 100%N other_bytes (wd_srv w)) as [H1 H2].
  - apply keeps_stage_upload.
  - intros a. by apply stage_keeps.
  - by apply dev_client_same.
  - intros o. by rewrite H2.
  - intros o. rewrite H2. by left.
Qed.

Definition ctl_start : Ctl Site :=
  mkCtl (mkSite acme meddler (fun _ => LinkUp) 0) (mkWeb [] (fun _ _ => inl "offline"%string)) (fun n => Z.of_nat n) 0 (fun n => (1000 + N.of_nat n)%N) 0
        (fun n => 250 * Z.of_nat n) 0 [].

Lemma with_tenant_wf : store_wf with_tenant.
Proof. exact store_wf_empty. Qed.

Lemma ctl_fresh : fresh_run no_env closed_auth ctl_headers 5%N 1000%N ctl_start.
Proof. constructor; [exact with_tenant_wf|by vm_compute|exact meddler_ok|done|by intros row []]. Qed.

Definition three_files : list LocalFile :=
  [mkLocalFile "/srv/a.sh" (inr script_bytes) None; mkLocalFile "/srv/b.sh" (inl "denied"%string) None; mkLocalFile "/srv/c.sh" (inr script_bytes) (Some 9)].
Definition manual : ImportOptions := mkImportOptions "manual" None None.
Definition ctl_run : outcome unit * Ctl Site :=
  import_dir (AP := routes_api no_env closed_auth a_ca) ctl_client "laptop" three_files manual ctl_start.

(** The script is stored once, with two occurrences; the other file is counted. *)
Lemma imports_recorded_witness : fst ctl_run = Ret tt /\
  exists lines, length lines = 3%nat /\ ct_out (snd ctl_run) = lines ++ [ImportComplete 1 1 1] /\
    forall i l, lines !! i = Some l -> exists f, three_files !! i = Some f /\ told 5%N 1000%N "laptop" manual (srv_of (ct_remote (snd ctl_run))) i f l.
Proof.
  assert (Er : fst ctl_run = Ret tt) by (vm_compute; reflexivity). split; [exact Er|].
  destruct (imports_recorded no_env closed_auth a_ca ctl_headers 5%N 1000%N ctl_client eq_refl "laptop" three_files manual ctl_start ctl_fresh) as (lines & H1 & H2).
  fold ctl_run in H1, H2. rewrite Er in H2. destruct H2 as [Hn Ho]. exists lines. split; [exact Hn|]. split; [|exact H1].
  assert (Ht : exists l, ct_out (snd ctl_run) = l ++ [ImportComplete 1 1 1]).
  { exists (take 3 (ct_out (snd ctl_run))). vm_compute. reflexivity. }
  destruct Ht as [l Ht]. rewrite Ht in Ho. cbn [app ct_out ctl_start] in Ho. rewrite Ht.
  apply app_inj_2 in Ho as [-> _]; [reflexivity|reflexivity].
Defined.

Definition image_run : outcome unit * Ctl Site :=
  cmd_import_oci (AP := routes_api no_env closed_auth a_ca) ctl_client "laptop" None (Some "img.tar"%string) (inr [x02]) None 1024 ctl_start.

Definition layer_files : list TarEntry :=
  [mkTarEntry true (inr "bin/run"%string) (Some 3) (inr script_bytes); mkTarEntry false (inr "etc"%string) (Some 0) (inr []);
   mkTarEntry true (inr "etc/motd"%string) (Some 2) (inr [x68; x69]); mkTarEntry true (inr "data/big"%string) (Some 4096) (inr [x00])].

Lemma tools_saved : saved_as [x02] ["tools:1"%string] [([x01], layer_files)].
Proof.
  set (man := mkTarEntry true (inr "manifest.json"%string) (Some 1) (inr [x6a])). set (lay := mkTarEntry true (inr "l0.tar"%string) (Some 1) (inr [x01])).
  exists [man; lay], [x6a], (JObj [("RepoTags", JArr [JStr "tools:1"]); ("Layers", JArr [JStr "l0.tar"])]%string), [], ["l0.tar"%string].
  split; [done|]. split; [by exists [], man, [lay]; repeat constructor|]. do 3 (split; [done|]). split; [apply NoDup_singleton|].
  split; [by repeat constructor|]. split; [|by repeat constructor]. constructor; [|constructor]. by exists [man], lay, [].
Qed.

Lemma oci_import_accounts_witness : exists xs, length xs = 3%nat /\
  (forall k x, xs !! k = Some x -> exists m, image_members [([x01], layer_files)] !! k = Some m /\
    member_told 5%N 1000%N "tools:1" (agent_of "laptop") 1024 (srv_of (ct_remote (snd image_run))) k m x) /\
  ct_out (snd image_run) = flat_map printed xs ++ [OciComplete (count is_captured xs) (count is_present xs) (count is_too_large xs) (count is_skipped xs)].
Proof.
  assert (Er : fst image_run = Ret tt) by (vm_compute; reflexivity).
  pose proof (oci_import_accounts no_env closed_auth a_ca ctl_headers 5%N 1000%N ctl_client eq_refl "laptop" "img.tar" [x02] None 1024
    ["tools:1"%string] [([x01], layer_files)] ctl_start ctl_fresh tools_saved) as H. cbv zeta in H. fold image_run in H.
  destruct (H Er) as (xs & H1 & H2 & H3). exists xs. split; [exact H1|]. split; [exact H2|exact H3].
Defined.

(** The script is captured, the text is skipped; the large file's gap is refused,
    and counted all the same. *)
Example image_lines : (ct_out (snd image_run), length (rows TAttempt (srv_of (ct_remote (snd image_run))))) =
  ([Outcome "captured" (sha256_hex script_bytes) "bin/run"; TooLarge "data/big" 4096 ("sha256:" +:+ sha256_hex [x01]); OciComplete 1 0 1 1], 1%nat).
Proof. vm_compute. reflexivity. Qed.
End witnesses.
