(* ===== verification/Command.v ===== *)
(** * Command: the commands of [corpusctl] and the requests they become
    ([corpusctl/src/main.rs])

    Every subcommand, the request it writes (method, path, query, body) and [main];
    and, for the other side, how the server's extractors read such a request
    ([corpus-server/src/main.rs], [dto.rs]).  The theorem: what the server reads is
    what the command meant. *)

From S2P Require Import Prelude Machine Text Decimal Hash Cas Schema Scan Rules Triggers Hunts Report Intel Detonate Export Access Ingest Mcp Delivery Feeds Routes Client.
From Stdlib Require Import Strings.Byte Strings.Ascii.

Open Scope Z_scope.

(** ** Commands *)

Inductive TenantsCmd : Type := TenantsCreate (slug name : string) | TenantsList | TenantsGet (id_or_slug : string).
Inductive RulesCmd : Type := RulesAdd (file : string) | RulesList.
Inductive BundlesCmd : Type := BundlesPublish (rules : list string) (activate : bool) | BundlesList.
Inductive HuntsCmd : Type :=
  | HuntsCreate (bundle : string) | HuntsRun (hunt_id : Uuid) (no_wait : bool) (wait_secs : Z) | HuntsStatus (hunt_id : Uuid) | HuntsList.
Inductive ReportCmd : Type := ReportBlastRadius (hunt : option Uuid) (sha256 : option string) (expand_variants : bool).
Inductive OpinionCmd : Type :=
  | OpinionSet (sha256 level reason : string) (actor : option string) | OpinionGet (sha256 : string) | OpinionHistoryOf (sha256 : string).
Inductive TriggersCmd : Type :=
  | TriggersCreate (name condition webhook_url : string) (secret : option string) | TriggersList | TriggersTest (trigger_id : Uuid).
Inductive HuntCmd : Type := HuntDroppers (sha256 : string) (max_hosts window_hours : Z).
Inductive IntelCmd : Type := IntelMalwarebazaar (limit : Z) (url : option string) | IntelTaxii (url collection : string) (auto_hunt : bool).
Inductive SimilarityCmd : Type :=
  | SimilarityBackfill
  | SimilarityNeighborhood (seed : string) (edge_types model_version : option string) (min_score : f64) (max_depth max_nodes max_edges : Z) (no_weak : bool)
  | SimilarityExport (seed : option string) (group_id : option Uuid) (format : string) (max_depth max_nodes : Z)
  | SimilarityEvidence (artifact_a artifact_b : Uuid) (max_pairs : Z)
  | SimilarityAnalyzers
  | SimilarityCleanup (artifact_id : Uuid) (dry_run execute : bool).
Inductive CaCmd : Type := CaInit.
Inductive EnrollTokenCmd : Type := EnrollTokenCreate (label : string) (ttl_secs : option Z).
Inductive AgentsCmd : Type := AgentsList | AgentsStatus (agent_id : Uuid).
Inductive CoverageCmd : Type := CoverageGapsCmd (outcome : option string) (limit : Z).

Inductive Cmd : Type :=
  | CTenants (cmd : TenantsCmd)
  | CImport (dir capture_reason : string)
  | CBackfill (root : option string) (observed_at : option Time) (host : string) (snapshot_times_file : option string)
  | CRules (cmd : RulesCmd)
  | CBundles (cmd : BundlesCmd)
  | CHunts (cmd : HuntsCmd)
  | CReport (cmd : ReportCmd)
  | CInvestigate (sha256 : option string) (hunt : option Uuid)
  | CDetections
  | CContinuous
  | CMetrics
  | CEnrollToken (cmd : EnrollTokenCmd)
  | CCa (cmd : CaCmd)
  | CAgents (cmd : AgentsCmd)
  | CCoverage (cmd : CoverageCmd)
  | CImportOci (image_ref from_tar : option string) (max_artifact_bytes : Z)
  | CIntel (cmd : IntelCmd)
  | CSimilar (sha256 : string)
  | CVariants (sha256 : string)
  | CSimilarity (cmd : SimilarityCmd)
  | CPrevalence (sha256 : string)
  | CDetonate (sha256 : string)
  | CSearch (max_hosts : Z) (since opinion : option string) (limit : Z)
  | COpinion (cmd : OpinionCmd)
  | CTriggers (cmd : TriggersCmd)
  | CHunt (cmd : HuntCmd).

(** [Cli]: the options before the subcommand. *)
Record Cli := mkCli { cli_server : string; cli_tenant : option string; cli_admin_token : option string; cli_cmd : Cmd }.

(** ** Requests as they are written *)

(** [rq_query]: the pairs in the order they are appended; the text is
    [path?k=v&k=v]. *)
Record Request := mkRequest { rq_method : string; rq_path : string; rq_query : list (string * string); rq_body : option Json }.

Definition pair_text (kv : string * string) : string := fst kv +:+ ("=" +:+ snd kv).
Definition query_text (q : list (string * string)) : string := str_join "&" (map pair_text q).

Definition GET (path : string) (query : list (string * string)) : Request := mkRequest "GET" path query None.
Definition POST (path : string) (query : list (string * string)) (body : option Json) : Request := mkRequest "POST" path query body.

Definition bool_text (b : bool) : string := if b then "true" else "false".
Definition opt_json (o : option string) : Json := match o with Some s => JStr s | None => JNull end.
Definition opt_int (o : option Z) : Json := match o with Some z => JInt z | None => JNull end.
Definition when {A} (k : string) (o : option A) (show : A -> string) : list (string * string) := match o with Some a => [(k, show a)] | None => [] end.
Arguments when {A} k%_string o show.
Definition id_text (s : string) : string := s.

Definition one_of_hunt : Error := BadRequest "provide exactly one of --hunt or --sha256".
Definition one_of_sha256 : Error := BadRequest "provide exactly one of --sha256 or --hunt".

Section requests.
  Context {UD : UuidDisplay}.

Definition artifact_path (sha256 what : string) : string := "/api/v1/artifacts/" +:+ (sha256 +:+ ("/" +:+ what)).

Definition tenants_request (cmd : TenantsCmd) : Request :=
  match cmd with
  | TenantsCreate slug name => POST "/api/v1/tenants" [] (Some (JObj [("slug", JStr slug); ("name", JStr name)]%string))
  | TenantsList => GET "/api/v1/tenants" []
  | TenantsGet id_or_slug => GET ("/api/v1/tenants/" +:+ id_or_slug) []
  end.

Definition report_request (cmd : ReportCmd) : outcome Request :=
  let '(ReportBlastRadius hunt sha256 expand_variants) := cmd in
  match hunt, sha256 with
  | Some id, None => Ret (GET "/api/v1/reports/blast-radius" [("hunt_id", uuid_to_string id); ("expand_variants", bool_text expand_variants)]%string)
  | None, Some sha => Ret (GET "/api/v1/reports/blast-radius" [("sha256", sha); ("expand_variants", bool_text expand_variants)]%string)
  | _, _ => Fail one_of_hunt
  end.

Definition investigate_request (sha256 : option string) (hunt : option Uuid) : outcome Request :=
  match sha256, hunt with
  | Some sha, None => Ret (GET "/api/v1/investigate" [("sha256", sha)]%string)
  | None, Some id => Ret (GET "/api/v1/investigate" [("hunt_id", uuid_to_string id)]%string)
  | _, _ => Fail one_of_sha256
  end.

Definition similarity_request (cmd : SimilarityCmd) : Request :=
  match cmd with
  | SimilarityBackfill => POST "/api/v1/similarity/backfill" [] None
  | SimilarityNeighborhood seed edge_types model_version min_score max_depth max_nodes max_edges no_weak =>
      GET "/api/v1/similarity/neighborhood"
        ([("seed", seed); ("min_score", show_f64 min_score); ("max_depth", show_Z max_depth); ("max_nodes", show_Z max_nodes);
          ("max_edges", show_Z max_edges); ("include_weak", bool_text (negb no_weak))]%string ++
         when "edge_types" edge_types id_text ++ when "model_version" model_version id_text)
  | SimilarityExport seed group_id format max_depth max_nodes =>
      GET "/api/v1/similarity/export"
        ([("format", format); ("max_depth", show_Z max_depth); ("max_nodes", show_Z max_nodes)]%string ++
         when "seed" seed id_text ++ when "group_id" group_id uuid_to_string)
  | SimilarityEvidence artifact_a artifact_b max_pairs =>
      GET ("/api/v1/similarity/evidence/" +:+ (uuid_to_string artifact_a +:+ ("/" +:+ uuid_to_string artifact_b))) [("max_pairs", show_Z max_pairs)]%string
  | SimilarityAnalyzers => GET "/api/v1/similarity/analyzers" []
  | SimilarityCleanup artifact_id dry_run execute =>
      let dry := if execute then false else dry_run in
      POST (artifact_path (uuid_to_string artifact_id) "similarity-cleanup") [("dry_run", bool_text dry)]%string None
  end.

Definition search_request (max_hosts : Z) (since opinion : option string) (limit : Z) : Request :=
  GET "/api/v1/search" ([("max_hosts", show_Z max_hosts); ("limit", show_Z limit)]%string ++ when "since" since id_text ++ when "opinion" opinion id_text).

Definition opinion_request (cmd : OpinionCmd) : Request :=
  match cmd with
  | OpinionSet sha256 level reason actor =>
      POST (artifact_path sha256 "opinion") [] (Some (JObj [("opinion", JStr level); ("reason", JStr reason); ("actor", opt_json actor)]%string))
  | OpinionGet sha256 => GET (artifact_path sha256 "opinion") []
  | OpinionHistoryOf sha256 => GET (artifact_path sha256 "opinion/history") []
  end.

Definition triggers_request (cmd : TriggersCmd) : Request :=
  match cmd with
  | TriggersCreate name condition webhook_url secret =>
      POST "/api/v1/triggers" []
        (Some (JObj [("name", JStr name); ("condition", JStr condition); ("webhook_url", JStr webhook_url); ("secret", opt_json secret)]%string))
  | TriggersList => GET "/api/v1/triggers" []
  | TriggersTest trigger_id => POST ("/api/v1/triggers/" +:+ (uuid_to_string trigger_id +:+ "/test")) [] None
  end.

Definition droppers_request (cmd : HuntCmd) : Request :=
  let '(HuntDroppers sha256 max_hosts window_hours) := cmd in
  POST "/api/v1/hunts/droppers" [] (Some (JObj [("sha256", JStr sha256); ("max_hosts", JInt max_hosts); ("window_hours", JInt window_hours)]%string)).

Definition token_request (cmd : EnrollTokenCmd) : Request :=
  let '(EnrollTokenCreate label ttl_secs) := cmd in
  POST "/api/v1/enrollment-tokens" [] (Some (JObj [("label", JStr label); ("ttl_secs", opt_int ttl_secs)]%string)).

Definition agents_request (cmd : AgentsCmd) : Request :=
  match cmd with AgentsList => GET "/api/v1/agents" [] | AgentsStatus agent_id => GET ("/api/v1/agents/" +:+ uuid_to_string agent_id) [] end.

Definition coverage_request (cmd : CoverageCmd) : Request :=
  let '(CoverageGapsCmd outcome limit) := cmd in
  GET "/api/v1/coverage/gaps" ([("limit", show_Z limit)]%string ++ when "outcome" outcome id_text).

(** The requests of the commands that send one and print its answer. *)
Definition request_of (cmd : Cmd) : option (outcome Request) :=
  match cmd with
  | CTenants cmd => Some (Ret (tenants_request cmd))
  | CRules RulesList => Some (Ret (GET "/api/v1/rules" []))
  | CBundles BundlesList => Some (Ret (GET "/api/v1/bundles" []))
  | CHunts (HuntsCreate bundle) => Some (Ret (POST "/api/v1/hunts" [] (Some (JObj [("bundle_digest", JStr bundle)]%string))))
  | CHunts (HuntsStatus hunt_id) => Some (Ret (GET ("/api/v1/hunts/" +:+ uuid_to_string hunt_id) []))
  | CHunts HuntsList => Some (Ret (GET "/api/v1/hunts" []))
  | CReport cmd => Some (report_request cmd)
  | CInvestigate sha256 hunt => Some (investigate_request sha256 hunt)
  | CDetections => Some (Ret (GET "/api/v1/detections" []))
  | CContinuous => Some (Ret (GET "/api/v1/continuous" []))
  | CMetrics => Some (Ret (GET "/api/v1/metrics" []))
  | CEnrollToken cmd => Some (Ret (token_request cmd))
  | CAgents cmd => Some (Ret (agents_request cmd))
  | CCoverage cmd => Some (Ret (coverage_request cmd))
  | CSimilar sha256 => Some (Ret (GET (artifact_path sha256 "similar") []))
  | CVariants sha256 => Some (Ret (GET (artifact_path sha256 "variants") []))
  | CSimilarity cmd => Some (Ret (similarity_request cmd))
  | CPrevalence sha256 => Some (Ret (GET (artifact_path sha256 "prevalence") []))
  | CDetonate sha256 => Some (Ret (POST (artifact_path sha256 "detonate") [] None))
  | CSearch max_hosts since opinion limit => Some (Ret (search_request max_hosts since opinion limit))
  | COpinion cmd => Some (Ret (opinion_request cmd))
  | CTriggers cmd => Some (Ret (triggers_request cmd))
  | CHunt cmd => Some (Ret (droppers_request cmd))
  | _ => None
  end.

(** The call a command's request is made for. *)
Definition called (cmd : Cmd) : option Call :=
  match cmd with
  | CTenants (TenantsCreate slug name) => Some (CreateTenant slug name)
  | CTenants TenantsList => Some ListTenants
  | CTenants (TenantsGet id_or_slug) => Some (GetTenant id_or_slug)
  | CRules RulesList => Some ListRules
  | CBundles BundlesList => Some ListBundles
  | CHunts (HuntsCreate bundle) => Some (CreateHunt bundle)
  | CHunts (HuntsStatus hunt_id) => Some (GetHunt hunt_id)
  | CHunts HuntsList => Some ListHunts
  | CReport (ReportBlastRadius (Some id) None expand) => Some (BlastRadius (Some id) None (Some expand))
  | CReport (ReportBlastRadius None (Some sha) expand) => Some (BlastRadius None (Some sha) (Some expand))
  | CInvestigate (Some sha) None => Some (Investigate (Some sha) None)
  | CInvestigate None (Some id) => Some (Investigate None (Some id))
  | CDetections => Some ListDetections
  | CContinuous => Some ListContinuous
  | CMetrics => Some Metrics
  | CEnrollToken (EnrollTokenCreate label ttl_secs) => Some (CreateEnrollmentToken (Some label) ttl_secs)
  | CAgents AgentsList => Some ListAgents
  | CAgents (AgentsStatus agent_id) => Some (AgentStatus agent_id)
  | CCoverage (CoverageGapsCmd outcome limit) => Some (CoverageGaps outcome (Some limit))
  | CSimilar sha256 => Some (Similar sha256)
  | CVariants sha256 => Some (VariantsOf sha256)
  | CSimilarity SimilarityBackfill => Some Backfill
  | CSimilarity (SimilarityNeighborhood seed edge_types model_version min_score max_depth max_nodes max_edges no_weak) =>
      Some (NeighborhoodOf (mkNeighborhoodParams (Some seed) None edge_types model_version (Some min_score) (Some max_depth) (Some max_nodes) (Some max_edges)
        None None (Some (negb no_weak))))
  | CSimilarity (SimilarityExport seed group_id format max_depth max_nodes) =>
      Some (ExportGraph (mkExportParams seed None group_id (Some format) None None None (Some max_depth) (Some max_nodes) None None))
  | CSimilarity (SimilarityEvidence a b max_pairs) => Some (SemanticEvidence a b (Some max_pairs) None)
  | CSimilarity SimilarityAnalyzers => Some ListAnalyzers
  | CSimilarity (SimilarityCleanup artifact_id dry_run execute) => Some (Cleanup artifact_id (Some (if execute then false else dry_run)))
  | CPrevalence sha256 => Some (PrevalenceOf sha256)
  | CDetonate sha256 => Some (DetonateArtifact sha256)
  | CSearch max_hosts since opinion limit => Some (Search (Some max_hosts) since opinion (Some limit))
  | COpinion (OpinionSet sha256 level reason actor) => Some (SetOpinion sha256 level actor reason)
  | COpinion (OpinionGet sha256) => Some (GetOpinion sha256)
  | COpinion (OpinionHistoryOf sha256) => Some (OpinionHistory sha256)
  | CTriggers (TriggersCreate name condition webhook_url secret) => Some (CreateTrigger name condition webhook_url secret)
  | CTriggers TriggersList => Some ListTriggers
  | CTriggers (TriggersTest trigger_id) => Some (TestTrigger trigger_id)
  | CHunt (HuntDroppers sha256 max_hosts window_hours) => Some (Droppers sha256 (Some max_hosts) (Some window_hours))
  | _ => None
  end.
End requests.

(** ** Requests as the server reads them *)

(** [form_urlencoded::parse], as axum's [Query] uses it. *)
Class QueryDecode : Type := query_decode : string -> list (string * string).
(** [f64::from_str] *)
Class FloatParse : Type := parse_f64 : string -> option f64.

(** An optional field of a query: rejected when it is there twice or unreadable. *)
Definition field {A} (k : string) (parse : string -> option A) (q : list (string * string)) : option (option A) :=
  match List.filter (fun kv => String.eqb (fst kv) k) q with
  | [] => Some None
  | [(_, v)] => a ← parse v; Some (Some a)
  | _ => None
  end.

(** An optional member of a body. *)
Definition member {A} (k : string) (read : Json -> option A) (j : Json) : option (option A) :=
  match json_get k j with None | Some JNull => Some None | Some v => a ← read v; Some (Some a) end.

(** A member with a default. *)
Definition member_or {A} (k : string) (read : Json -> option A) (d : A) (j : Json) : option A :=
  match json_get k j with None => Some d | Some v => read v end.

Definition parse_bool (s : string) : option bool := if String.eqb s "true" then Some true else if String.eqb s "false" then Some false else None.
Definition parse_u32_field : string -> option Z := parse_int 0 (2 ^ 32 - 1).

Definition one_text (f : string -> Call) (args : list string) : option Call := match args with [s] => Some (f s) | _ => None end.

(** What a handler's extractors make of the path arguments, the query and the body. *)
Definition Reader : Type := list string -> list (string * string) -> option Json -> option Call.

Section server.
  Context {UP : UuidParse} {PD : PathDecode} {QD : QueryDecode} {FP : FloatParse}.

Definition one_id (f : Uuid -> Call) (args : list string) : option Call := match args with [s] => u ← uuid_parse s; Some (f u) | _ => None end.

(** The handlers' extractors. *)
Definition read_neighborhood (q : list (string * string)) : option Call :=
  seed ← field "seed" Some q; sha256 ← field "sha256" Some q; edge_types ← field "edge_types" Some q; model_version ← field "model_version" Some q;
  min_score ← field "min_score" parse_f64 q; max_depth ← field "max_depth" parse_u32_field q; max_nodes ← field "max_nodes" parse_u64 q;
  max_edges ← field "max_edges" parse_u64 q; offset ← field "offset" parse_u64 q; limit ← field "limit" parse_u64 q;
  include_weak ← field "include_weak" parse_bool q;
  Some (NeighborhoodOf (mkNeighborhoodParams seed sha256 edge_types model_version min_score max_depth max_nodes max_edges offset limit include_weak)).

Definition read_export (q : list (string * string)) : option Call :=
  seed ← field "seed" Some q; sha256 ← field "sha256" Some q; group_id ← field "group_id" uuid_parse q; format ← field "format" Some q;
  edge_types ← field "edge_types" Some q; model_version ← field "model_version" Some q; min_score ← field "min_score" parse_f64 q;
  max_depth ← field "max_depth" parse_u32_field q; max_nodes ← field "max_nodes" parse_u64 q; max_edges ← field "max_edges" parse_u64 q;
  include_weak ← field "include_weak" parse_bool q;
  Some (ExportGraph (mkExportParams seed sha256 group_id format edge_types model_version min_score max_depth max_nodes max_edges include_weak)).

Definition read_blast_radius (q : list (string * string)) : option Call :=
  hunt_id ← field "hunt_id" uuid_parse q; sha256 ← field "sha256" Some q; expand_variants ← field "expand_variants" parse_bool q;
  Some (BlastRadius hunt_id sha256 expand_variants).

Definition read_investigate (q : list (string * string)) : option Call :=
  sha256 ← field "sha256" Some q; hunt_id ← field "hunt_id" uuid_parse q; Some (Investigate sha256 hunt_id).

Definition read_evidence (args : list string) (q : list (string * string)) : option Call :=
  match args with
  | [a; b] => a ← uuid_parse a; b ← uuid_parse b; max_pairs ← field "max_pairs" parse_u64 q; max_tokens ← field "max_tokens" parse_u64 q;
              Some (SemanticEvidence a b max_pairs max_tokens)
  | _ => None
  end.

Definition read_cleanup (args : list string) (q : list (string * string)) : option Call :=
  dry_run ← field "dry_run" parse_bool q; one_id (fun u => Cleanup u dry_run) args.

Definition read_coverage (q : list (string * string)) : option Call :=
  outcome ← field "outcome" Some q; limit ← field "limit" parse_i64 q; Some (CoverageGaps outcome limit).

Definition read_search (q : list (string * string)) : option Call :=
  max_hosts ← field "max_hosts" parse_i64 q; since ← field "since" Some q; opinion ← field "opinion" Some q; limit ← field "limit" parse_i64 q;
  Some (Search max_hosts since opinion limit).

Definition read_run (args : list string) (q : list (string * string)) : option Call := sync ← field "sync" Some q; one_id (fun u => RunHunt u sync) args.

Definition read_tenant (j : Json) : option Call := slug ← json_get_str "slug" j; name ← json_get_str "name" j; Some (CreateTenant slug name).
Definition read_rule (j : Json) : option Call := source ← json_get_str "source" j; Some (CreateRule source).
Definition read_publish (j : Json) : option Call :=
  l ← json_get "rule_ids" j; l ← json_arr l; ids ← mapM (fun v => s ← json_str v; uuid_parse s) l; activate ← json_get "activate" j;
  activate ← json_bool activate; Some (PublishBundle ids activate).
Definition read_hunt (j : Json) : option Call := bundle_digest ← json_get_str "bundle_digest" j; Some (CreateHunt bundle_digest).
Definition read_token (j : Json) : option Call :=
  label ← member "label" json_str j; ttl_secs ← member "ttl_secs" json_int j; Some (CreateEnrollmentToken label ttl_secs).
Definition read_opinion (args : list string) (j : Json) : option Call :=
  opinion ← json_get_str "opinion" j; reason ← member_or "reason" json_str "" j; actor ← member "actor" json_str j;
  one_text (fun s => SetOpinion s opinion actor reason) args.
Definition read_trigger (j : Json) : option Call :=
  name ← json_get_str "name" j; condition ← json_get_str "condition" j; webhook_url ← json_get_str "webhook_url" j; secret ← member "secret" json_str j;
  Some (CreateTrigger name condition webhook_url secret).
Definition read_droppers (j : Json) : option Call :=
  sha256 ← json_get_str "sha256" j; max_hosts ← member "max_hosts" json_int j; window_hours ← member "window_hours" json_int j;
  Some (Droppers sha256 max_hosts window_hours).

Definition constant (c : Call) : Reader := fun _ _ _ => Some c.
Definition of_args (f : list string -> option Call) : Reader := fun args _ _ => f args.
Definition of_query (f : list (string * string) -> option Call) : Reader := fun _ q _ => f q.
Definition of_body (f : Json -> option Call) : Reader := fun _ _ body => body ≫= f.

(** The methods and extractors of the routes the commands use. *)
Definition readers : list (string * list Seg * Reader) :=
  let g := "GET"%string in let p := "POST"%string in
  let art what := Routes.api [Lit "artifacts"; Par; Lit what] in
  [ (p, Routes.api [Lit "tenants"], of_body read_tenant); (g, Routes.api [Lit "tenants"], constant ListTenants); (g, Routes.api [Lit "tenants"; Par], of_args (one_text GetTenant));
    (p, Routes.api [Lit "rules"], of_body read_rule); (g, Routes.api [Lit "rules"], constant ListRules);
    (p, Routes.api [Lit "bundles"], of_body read_publish); (g, Routes.api [Lit "bundles"], constant ListBundles);
    (p, Routes.api [Lit "hunts"], of_body read_hunt); (g, Routes.api [Lit "hunts"], constant ListHunts); (g, Routes.api [Lit "hunts"; Par], of_args (one_id GetHunt));
    (p, Routes.api [Lit "hunts"; Par; Lit "run"], fun args q _ => read_run args q);
    (g, Routes.api [Lit "reports"; Lit "blast-radius"], of_query read_blast_radius); (g, art "similar", of_args (one_text Similar));
    (g, art "variants", of_args (one_text VariantsOf)); (p, Routes.api [Lit "similarity"; Lit "backfill"], constant Backfill);
    (g, Routes.api [Lit "similarity"; Lit "neighborhood"], of_query read_neighborhood); (g, Routes.api [Lit "similarity"; Lit "export"], of_query read_export);
    (g, Routes.api [Lit "similarity"; Lit "analyzers"], constant ListAnalyzers); (g, Routes.api [Lit "similarity"; Lit "evidence"; Par; Par], fun args q _ => read_evidence args q);
    (p, art "similarity-cleanup", fun args q _ => read_cleanup args q); (p, Routes.api [Lit "enrollment-tokens"], of_body read_token);
    (g, Routes.api [Lit "agents"], constant ListAgents); (g, Routes.api [Lit "agents"; Par], of_args (one_id AgentStatus));
    (g, Routes.api [Lit "coverage"; Lit "gaps"], of_query read_coverage); (g, art "prevalence", of_args (one_text PrevalenceOf));
    (p, art "opinion", fun args _ body => body ≫= read_opinion args); (g, art "opinion", of_args (one_text GetOpinion));
    (g, Routes.api [Lit "artifacts"; Par; Lit "opinion"; Lit "history"], of_args (one_text OpinionHistory)); (g, Routes.api [Lit "search"], of_query read_search);
    (p, Routes.api [Lit "hunts"; Lit "droppers"], of_body read_droppers); (p, Routes.api [Lit "triggers"], of_body read_trigger);
    (g, Routes.api [Lit "triggers"], constant ListTriggers); (p, Routes.api [Lit "triggers"; Par; Lit "test"], of_args (one_id TestTrigger));
    (p, art "detonate", of_args (one_text DetonateArtifact)); (g, Routes.api [Lit "investigate"], of_query read_investigate);
    (g, Routes.api [Lit "detections"], constant ListDetections); (g, Routes.api [Lit "continuous"], constant ListContinuous);
    (g, Routes.api [Lit "metrics"], constant Metrics) ]%string.

(** The route that goes first among those that match. *)
Definition winner (segs : list string) : option (list Seg) :=
  find (fun p => path_matches p segs && forallb (fun p' => negb (path_matches p' segs && more_specific p' p)) routes) routes.

Definition seg_eqb (a b : Seg) : bool := match a, b with Lit s, Lit t => String.eqb s t | Par, Par => true | _, _ => false end.
Fixpoint route_eqb (p q : list Seg) : bool :=
  match p, q with [], [] => true | a :: p', b :: q' => seg_eqb a b && route_eqb p' q' | _, _ => false end.

Definition reader_of (method : string) (p : list Seg) : option Reader :=
  snd <$> find (fun r => String.eqb (fst (fst r)) method && route_eqb (snd (fst r)) p) readers.

(** The segments of an absolute path. *)
Fixpoint slash_split (s acc : string) : list string :=
  match s with
  | EmptyString => [acc]
  | String c s' => if Ascii.eqb c "/" then acc :: slash_split s' "" else slash_split s' (acc +:+ String c "")
  end.

(** The call a request line and body are taken for. *)
Definition server_reads (method url : string) (body : option Json) : option Call :=
  let '(path, q) := match split_once "?" url with Some (path, q) => (path, query_decode q) | None => (url, []) end in
  let segs := tail (slash_split path "") in
  p ← winner segs;
  args ← mapM path_decode (parameters p segs);
  read ← reader_of method p;
  read args q body.
End server.

Definition url_text (r : Request) : string := match rq_query r with [] => rq_path r | q => rq_path r +:+ String "?" (query_text q) end.

(** ** Plain texts *)

(** What neither the URL nor the form encoding gives a meaning. *)
Definition plain_char (c : ascii) : bool := is_ascii_alphanumeric c || existsb (Ascii.eqb c) ["-"; "."; "_"; "~"; ":"; ","]%char.
Definition plain (s : string) : bool := str_all plain_char s.
Definition plain_opt (o : option string) : bool := match o with Some s => plain s | None => true end.

(** The words of the routing table. *)
Definition route_words : list string := flat_map (fun p => omap (fun s => match s with Lit l => Some l | Par => None end) p) routes.

(** A segment that no other route claims and the URL keeps. *)
Definition path_arg (s : string) : bool := plain s && negb (existsb (String.eqb s) ([""; "."; ".."]%string ++ route_words)).

Class DecodeLaws `{PathDecode, QueryDecode} : Prop := {
  path_decode_plain : forall s, plain s = true -> path_decode s = Some s;
  query_decode_plain : forall q, q <> [] -> Forall (fun kv => plain (fst kv) = true /\ plain (snd kv) = true) q -> query_decode (query_text q) = q }.

(** An identifier is written in hexadecimal digits and dashes, and read back. *)
Definition uuid_char (c : ascii) : bool := is_ascii_hexdigit c || Ascii.eqb c "-".
Class UuidTextLaws `{UuidDisplay, UuidParse} : Prop := {
  uuid_text_chars : forall u, uuid_to_string u <> ""%string /\ str_all uuid_char (uuid_to_string u) = true;
  uuid_text_reads : forall u, uuid_parse (uuid_to_string u) = Some u }.

Lemma ascii_cases (f g : ascii -> bool) : forallb (fun n => implb (f (ascii_of_nat n)) (g (ascii_of_nat n))) (seq 0 256) = true -> forall c, f c = true -> g c = true.
Proof.
  intros H c Hf. rewrite forallb_forall in H. specialize (H (nat_of_ascii c)). rewrite ascii_nat_embedding in H.
  rewrite Hf in H. apply H. apply in_seq. split; [lia|]. apply nat_ascii_bounded.
Qed.

Lemma uuid_plain_char c : uuid_char c = true -> plain_char c = true.
Proof. apply ascii_cases. vm_compute. reflexivity. Qed.
Lemma float_plain_char c : float_char c = true -> plain_char c = true.
Proof. apply ascii_cases. vm_compute. reflexivity. Qed.
Lemma plain_no_slash s : plain s = true -> no_slash s = true.
Proof. apply str_all_impl. apply ascii_cases. vm_compute. reflexivity. Qed.
Lemma plain_no_query s : plain s = true -> lacks "?" s = true.
Proof. apply str_all_impl. apply ascii_cases. vm_compute. reflexivity. Qed.

Lemma show_Z_plain z : plain (show_Z z) = true.
Proof. eapply str_all_impl; [apply float_plain_char|apply show_Z_float]. Qed.
Lemma show_f64_plain x : plain (show_f64 x) = true.
Proof. eapply str_all_impl; [apply float_plain_char|apply show_f64_float]. Qed.
Lemma bool_text_plain b : plain (bool_text b) = true.
Proof. by destruct b. Qed.

Lemma uuid_plain `{UuidTextLaws} u : plain (uuid_to_string u) = true.
Proof. eapply str_all_impl; [apply uuid_plain_char|apply uuid_text_chars]. Qed.

(** No word of the table could be an identifier. *)
Lemma uuid_path_arg `{UuidTextLaws} u : path_arg (uuid_to_string u) = true.
Proof.
  unfold path_arg. rewrite uuid_plain. apply andb_true_iff. split; [done|]. apply negb_true_iff. apply not_true_is_false. intros (w & Hw & E)%existsb_exists.
  apply String.eqb_eq in E as <-. destruct (uuid_text_chars u) as [Hne Hc]. cbn [app] in Hw. destruct Hw as [Hw|Hw]; [by rewrite <- Hw in Hne|].
  assert (Hall : forallb (fun w => negb (str_all uuid_char w)) ("." :: ".." :: route_words)%string = true) by (vm_compute; reflexivity).
  rewrite forallb_forall in Hall. specialize (Hall _ Hw). by rewrite Hc in Hall.
Qed.

(** ** Routing a written path *)

Fixpoint pars (p : list Seg) : nat := match p with [] => 0 | Lit _ :: p' => pars p' | Par :: p' => S (pars p') end.

Lemma fill_matches p args : length args = pars p -> Forall (fun s => s <> ""%string) args -> path_matches p (fill p args) = true.
Proof.
  revert args. induction p as [|[l|] p IH]; intros args Hn Ha; [done| |].
  - cbn [fill path_matches]. by rewrite String.eqb_refl, IH.
  - destruct args as [|a args]; [done|]. inversion Ha as [|? ? H1 H2]; subst. cbn [fill path_matches]. apply String.eqb_neq in H1. rewrite H1. apply IH; [by injection Hn|done].
Qed.

Lemma fill_parameters p args : length args = pars p -> parameters p (fill p args) = args.
Proof.
  revert args. induction p as [|[l|] p IH]; intros args Hn; [by destruct args|by apply IH|].
  destruct args as [|a args]; [done|]. cbn [fill parameters]. by rewrite IH by (by injection Hn).
Qed.

(** A route that goes first on a path claims one of its arguments as a word. *)
Lemma fill_first p q args : length args = pars q -> more_specific p q = true -> path_matches p (fill q args) = true ->
  exists l, In (Lit l) p /\ In l args.
Proof.
  revert q args. induction p as [|[l|] p IH]; intros [|[m|] q] args Hn; cbn [more_specific fill]; try done.
  - intros [_ Hs]%andb_true_iff [_ Hm]%andb_true_iff. destruct (IH q args Hn Hs Hm) as (w & H1 & H2). exists w. split; [by right|done].
  - destruct args as [|a args]; [done|]. cbn [path_matches]. intros _ [E _]%andb_true_iff. apply String.eqb_eq in E as ->. exists a. by split; left.
  - destruct args as [|a args]; [done|]. cbn [path_matches]. intros Hs [_ Hm]%andb_true_iff. injection Hn as Hn. destruct (IH q args Hn Hs Hm) as (w & H1 & H2).
    exists w. by split; right.
Qed.

(** Of two routes that match a path one goes first. *)
Lemma specific_total p q segs : path_matches p segs = true -> path_matches q segs = true -> p = q \/ more_specific p q = true \/ more_specific q p = true.
Proof.
  revert q segs. induction p as [|[l|] p IH]; intros [|[m|] q] [|s segs]; cbn [path_matches more_specific]; try done; try (by left); try (by destruct l); auto.
  - intros [E1 H1]%andb_true_iff [E2 H2]%andb_true_iff. apply String.eqb_eq in E1 as ->, E2 as ->. rewrite !String.eqb_refl. cbn [andb].
    destruct (IH q segs H1 H2) as [->|[H|H]]; auto.
  - intros [E1 H1]%andb_true_iff [E2 H2]%andb_true_iff. destruct (IH q segs H1 H2) as [->|[H|H]]; auto.
Qed.

Lemma pattern_routes c : In (pattern c) routes.
Proof.
  assert (H : existsb (route_eqb (pattern c)) routes = true) by (destruct c; vm_compute; reflexivity).
  apply existsb_exists in H as (p & Hp & E). replace (pattern c) with p; [done|]. clear Hp. revert p E. generalize (pattern c).
  induction l as [|a l IH]; intros [|b p]; cbn; try done. intros [E1 E2]%andb_true_iff. rewrite (IH _ E2). f_equal.
  destruct a, b; try done. cbn in E1. by apply String.eqb_eq in E1 as ->.
Qed.

Lemma pattern_pars c : length (call_args c) = pars (pattern c).
Proof. by destruct c. Qed.

Lemma word_in l p : In p routes -> In (Lit l) p -> In l route_words.
Proof.
  intros Hp Hl. apply in_flat_map. exists p. split; [done|]. clear Hp. induction p as [|x p IH]; [done|]. cbn [omap list_omap].
  destruct Hl as [-> | Hl]; [by left|]. destruct x; [right|]; auto.
Qed.

Section written.
  Context {UD : UuidDisplay} {UP : UuidParse} {PD : PathDecode} {QD : QueryDecode} {FP : FloatParse} {DL : DecodeLaws} {UL : UuidTextLaws}.

Definition arg_texts (c : Call) : list string := map arg_text (call_args c).

Lemma path_arg_spec s : path_arg s = true -> plain s = true /\ s <> ""%string /\ ~ In s route_words.
Proof.
  unfold path_arg. intros [Hp Hn]%andb_true_iff. apply negb_true_iff in Hn. split; [done|].
  assert (Hno : forall w, In w ([""; "."; ".."]%string ++ route_words) -> s <> w).
  { intros w Hw ->. assert (existsb (String.eqb w) ([""; "."; ".."]%string ++ route_words) = true); [|congruence].
    apply existsb_exists. exists w. split; [done|apply String.eqb_refl]. }
  split; [apply Hno; by left|]. intros Hw. apply (Hno s); [by do 3 right|done].
Qed.

Lemma winner_path c : Forall (fun s => path_arg s = true) (arg_texts c) -> winner (client_path c) = Some (pattern c).
Proof.
  intros Ha. assert (Hn : length (arg_texts c) = pars (pattern c)) by (unfold arg_texts; rewrite length_map; apply pattern_pars).
  assert (Hm : path_matches (pattern c) (client_path c) = true).
  { apply fill_matches; [done|]. eapply List.Forall_impl; [|exact Ha]. intros s Hs. by apply path_arg_spec. }
  assert (Hf : forall p, In p routes -> path_matches p (client_path c) = true -> more_specific p (pattern c) = false).
  { intros p Hp Hpm. apply not_true_is_false. intros Hs. destruct (fill_first p _ _ Hn Hs Hpm) as (l & Hl & Hin).
    rewrite List.Forall_forall in Ha. destruct (path_arg_spec l (Ha l Hin)) as (_ & _ & Hno). apply Hno. by eapply word_in. }
  unfold winner. set (test := fun p => path_matches p (client_path c) && _). assert (Ht : test (pattern c) = true).
  { unfold test. rewrite Hm. cbn [andb]. apply forallb_forall. intros p Hp. apply negb_true_iff. destruct (path_matches p (client_path c)) eqn:E; [|done]. cbn [andb]. by apply Hf. }
  destruct (find test routes) as [q|] eqn:Eq.
  - apply find_some in Eq as [Hq Htq]. unfold test in Htq. apply andb_true_iff in Htq as [Hqm Hqf]. f_equal.
    destruct (specific_total q (pattern c) _ Hqm Hm) as [E|[E|E]]; [done|by rewrite (Hf q Hq Hqm) in E|].
    rewrite forallb_forall in Hqf. specialize (Hqf _ (pattern_routes c)). by rewrite Hm, E in Hqf.
  - by rewrite (find_none _ _ Eq _ (pattern_routes c)) in Ht.
Qed.

Lemma path_text_cons s segs : path_text (s :: segs) = String "/" (s +:+ path_text segs).
Proof. unfold path_text. cbn [map]. destruct segs as [|t segs]; cbn [map String.concat String.append]; [by rewrite string_app_nil_r|done]. Qed.

Lemma split_segment s : forall acc rest, no_slash s = true -> slash_split (s +:+ rest) acc = slash_split rest (acc +:+ s).
Proof.
  induction s as [|c s IH]; intros acc rest H; [by rewrite string_app_nil_r|]. apply no_slash_cons in H as [Hc Hs].
  change (slash_split (String c s +:+ rest) acc) with (if Ascii.eqb c "/" then acc :: slash_split (s +:+ rest) "" else slash_split (s +:+ rest) (acc +:+ String c "")).
  rewrite Hc, IH by done. by rewrite string_app_assoc.
Qed.

Lemma split_path_text segs acc : Forall (fun s => no_slash s = true) segs -> slash_split (path_text segs) acc = acc :: segs.
Proof.
  revert acc. induction segs as [|s segs IH]; intros acc H; [done|]. inversion H; subst. rewrite path_text_cons.
  change (slash_split (String "/" ?r) acc) with (acc :: slash_split r ""). rewrite split_segment by done. by rewrite IH.
Qed.

Lemma client_path_plain c : Forall (fun s => path_arg s = true) (arg_texts c) -> Forall (fun s => plain s = true) (client_path c).
Proof.
  intros Ha. assert (Hl : forallb (fun s => match s with Lit l => plain l | Par => true end) (pattern c) = true) by (destruct c; vm_compute; reflexivity).
  unfold client_path. fold (arg_texts c). assert (Ha' : Forall (fun s => plain s = true) (arg_texts c)) by (eapply List.Forall_impl; [|exact Ha]; intros s Hs; by apply path_arg_spec).
  clear Ha. revert Hl. generalize (pattern c), (arg_texts c), Ha'. intros p. induction p as [|[l|] p IH]; intros args Ha; [constructor| |]; cbn [fill forallb].
  - intros [H1 H2]%andb_true_iff. constructor; [done|by apply IH].
  - intros H. destruct args as [|a args]; [constructor; [done|by apply IH]|]. inversion Ha; subst. constructor; [done|by apply IH].
Qed.

Lemma plain_path_no_query segs : Forall (fun s => plain s = true) segs -> lacks "?" (path_text segs) = true.
Proof.
  induction segs as [|s segs IH]; intros H; [done|]. inversion H; subst. rewrite path_text_cons.
  change (lacks "?" (String "/" ?r)) with (lacks "?" r). by rewrite lacks_app, plain_no_query, IH.
Qed.

(** A request line for a call, with the call's arguments in its path and a plain
    query, is read by the extractors of the call's own route. *)
Lemma server_reads_written method c q body read : Forall (fun s => path_arg s = true) (arg_texts c) ->
  Forall (fun kv => plain (fst kv) = true /\ plain (snd kv) = true) q -> reader_of method (pattern c) = Some read ->
  read (arg_texts c) q body = Some c -> server_reads method (url_text (mkRequest method (path_text (client_path c)) q body)) body = Some c.
Proof.
  intros Ha Hq Hr E. pose proof (client_path_plain c Ha) as Hp. pose proof (plain_path_no_query _ Hp) as Hl.
  assert (Hs : slash_split (path_text (client_path c)) "" = ""%string :: client_path c).
  { apply split_path_text. eapply List.Forall_impl; [|exact Hp]. intros s. apply plain_no_slash. }
  assert (Hargs : mapM path_decode (parameters (pattern c) (client_path c)) = Some (arg_texts c)).
  { unfold client_path. rewrite fill_parameters by (rewrite length_map; apply pattern_pars). fold (arg_texts c). clear -Ha DL.
    induction (arg_texts c) as [|s l IH]; [done|]. inversion Ha; subst. unfold mapM in *. rewrite path_decode_plain by (by apply path_arg_spec). cbn. by rewrite IH. }
  unfold server_reads, url_text. cbn [rq_query rq_path]. destruct q as [|kv q].
  - rewrite (proj2 (split_once_none _ _) Hl), Hs. cbn [tail]. rewrite winner_path by done. cbn [mbind option_bind]. rewrite Hargs. cbn [mbind option_bind]. by rewrite Hr.
  - rewrite (proj2 (split_once_some _ _ (path_text (client_path c)) (query_text (kv :: q))) (conj eq_refl Hl)). rewrite query_decode_plain by done.
    rewrite Hs. cbn [tail]. rewrite winner_path by done. cbn [mbind option_bind]. rewrite Hargs. cbn [mbind option_bind]. by rewrite Hr.
Qed.
End written.

(** ** What the server reads is what the command meant *)

Section understood.
  Context {UD : UuidDisplay} {UP : UuidParse} {PD : PathDecode} {QD : QueryDecode} {FP : FloatParse} {DL : DecodeLaws} {UL : UuidTextLaws}.

Definition in_i64 (z : Z) : Prop := - 2 ^ 63 <= z <= I64_MAX.
Definition in_usize (z : Z) : Prop := 0 <= z <= 2 ^ 64 - 1.
Definition in_u32 (z : Z) : Prop := 0 <= z <= 2 ^ 32 - 1.

(** The numbers have their types, and the texts that go into the URL are plain. *)
Definition sound_cmd (cmd : Cmd) : Prop :=
  match cmd with
  | CTenants (TenantsGet s) | CSimilar s | CVariants s | CPrevalence s | CDetonate s
  | COpinion (OpinionSet s _ _ _) | COpinion (OpinionGet s) | COpinion (OpinionHistoryOf s) => path_arg s = true
  | CReport (ReportBlastRadius _ sha256 _) | CInvestigate sha256 _ => plain_opt sha256 = true
  | CCoverage (CoverageGapsCmd outcome limit) => plain_opt outcome = true /\ in_i64 limit
  | CSearch max_hosts since opinion limit => in_i64 max_hosts /\ plain_opt since = true /\ plain_opt opinion = true /\ in_i64 limit
  | CSimilarity (SimilarityNeighborhood seed edge_types model_version min_score max_depth max_nodes max_edges _) =>
      plain seed = true /\ plain_opt edge_types = true /\ plain_opt model_version = true /\ parse_f64 (show_f64 min_score) = Some min_score /\
      in_u32 max_depth /\ in_usize max_nodes /\ in_usize max_edges
  | CSimilarity (SimilarityExport seed _ format max_depth max_nodes) =>
      plain_opt seed = true /\ plain format = true /\ in_u32 max_depth /\ in_usize max_nodes
  | CSimilarity (SimilarityEvidence _ _ max_pairs) => in_usize max_pairs
  | _ => True
  end.

Lemma parse_i64_show z : in_i64 z -> parse_i64 (show_Z z) = Some z.
Proof. apply parse_int_show. Qed.
Lemma parse_u64_show z : in_usize z -> Decimal.parse_u64 (show_Z z) = Some z.
Proof. apply parse_int_show. Qed.
Lemma parse_u32_field_show z : in_u32 z -> parse_u32_field (show_Z z) = Some z.
Proof. apply parse_int_show. Qed.
Lemma parse_bool_text b : parse_bool (bool_text b) = Some b.
Proof. by destruct b. Qed.

Lemma uuid_args_plain (l : list Uuid) : Forall (fun s => path_arg s = true) (map uuid_to_string l).
Proof. induction l; constructor; [apply uuid_path_arg|done]. Qed.

Lemma when_plain k o : plain k = true -> plain_opt o = true -> Forall (fun kv : string * string => plain (fst kv) = true /\ plain (snd kv) = true) (when k o id_text).
Proof. intros Hk Ho. destruct o; [constructor; [by split|constructor]|constructor]. Qed.
Lemma when_uuid_plain k o : plain k = true -> Forall (fun kv : string * string => plain (fst kv) = true /\ plain (snd kv) = true) (when k o uuid_to_string).
Proof. intros Hk. destruct o; [constructor; [split; [done|apply uuid_plain]|constructor]|constructor]. Qed.

Ltac plain_text :=
  lazymatch goal with
  | |- plain (show_Z _) = _ => apply show_Z_plain
  | |- plain (show_f64 _) = _ => apply show_f64_plain
  | |- plain (bool_text _) = _ => apply bool_text_plain
  | |- plain (uuid_to_string _) = _ => apply uuid_plain
  | |- _ => first [assumption | reflexivity]
  end.

Ltac plain_tac :=
  repeat first
  [ apply List.Forall_nil
  | apply List.Forall_cons; [split; cbn [fst snd]; plain_text|]
  | apply Forall_app; split
  | apply when_plain; [reflexivity|assumption]
  | apply when_uuid_plain; reflexivity ].

(** The commands that send one request, with what they mean. *)
Ltac commands E Em :=
  match type of Em with called ?cmd = _ =>
    destruct cmd as [[]| | |[]|[]|[]|[[] [] ?]|[] []| | | |[]|[]|[]|[]| |[]| | |[]| | | |[]|[]|[]] end;
  try discriminate E; try discriminate Em; injection E as <-; injection Em as <-.

Lemma meant_some cmd r : request_of cmd = Some (Ret r) -> exists call, called cmd = Some call.
Proof. intros E. destruct cmd as [[]| | |[]|[]|[]|[[] [] ?]|[] []| | | |[]|[]|[]|[]| |[]| | |[]| | | |[]|[]|[]]; try discriminate E; by eexists. Qed.

Lemma path_written cmd r call : request_of cmd = Some (Ret r) -> called cmd = Some call -> rq_path r = path_text (client_path call).
Proof. intros E Em. commands E Em; reflexivity. Qed.

Lemma args_sound cmd call : called cmd = Some call -> sound_cmd cmd -> Forall (fun s => path_arg s = true) (arg_texts call).
Proof.
  intros Em Hs. destruct cmd as [[]| | |[]|[]|[]|[[] [] ?]|[] []| | | |[]|[]|[]|[]| |[]| | |[]| | | |[]|[]|[]]; try discriminate Em; injection Em as <-;
    repeat constructor; first [exact Hs | apply uuid_path_arg].
Qed.

Lemma query_plain cmd r call : request_of cmd = Some (Ret r) -> called cmd = Some call -> sound_cmd cmd ->
  Forall (fun kv => plain (fst kv) = true /\ plain (snd kv) = true) (rq_query r).
Proof.
  intros E Em Hs. commands E Em; cbn [rq_query GET POST tenants_request similarity_request opinion_request triggers_request agents_request droppers_request token_request coverage_request search_request]; cbn [sound_cmd plain_opt] in Hs; destruct_and?; plain_tac.
Qed.

(** The method and the extractors of a call's route. *)
Definition route_reader (c : Call) : string * Reader :=
  match c with
  | CreateTenant _ _ => ("POST", of_body read_tenant)
  | ListTenants | ListRules | ListBundles | ListHunts | ListAnalyzers | ListAgents | ListTriggers | ListDetections | ListContinuous | Metrics => ("GET", constant c)
  | GetTenant _ => ("GET", of_args (one_text GetTenant))
  | CreateHunt _ => ("POST", of_body read_hunt)
  | GetHunt _ => ("GET", of_args (one_id GetHunt))
  | BlastRadius _ _ _ => ("GET", of_query read_blast_radius)
  | Investigate _ _ => ("GET", of_query read_investigate)
  | CreateEnrollmentToken _ _ => ("POST", of_body read_token)
  | AgentStatus _ => ("GET", of_args (one_id AgentStatus))
  | CoverageGaps _ _ => ("GET", of_query read_coverage)
  | Similar _ => ("GET", of_args (one_text Similar))
  | VariantsOf _ => ("GET", of_args (one_text VariantsOf))
  | Backfill => ("POST", constant Backfill)
  | NeighborhoodOf _ => ("GET", of_query read_neighborhood)
  | ExportGraph _ => ("GET", of_query read_export)
  | SemanticEvidence _ _ _ _ => ("GET", fun args q _ => read_evidence args q)
  | Cleanup _ _ => ("POST", fun args q _ => read_cleanup args q)
  | PrevalenceOf _ => ("GET", of_args (one_text PrevalenceOf))
  | DetonateArtifact _ => ("POST", of_args (one_text DetonateArtifact))
  | Search _ _ _ _ => ("GET", of_query read_search)
  | SetOpinion _ _ _ _ => ("POST", fun args _ body => body ≫= read_opinion args)
  | GetOpinion _ => ("GET", of_args (one_text GetOpinion))
  | OpinionHistory _ => ("GET", of_args (one_text OpinionHistory))
  | CreateTrigger _ _ _ _ => ("POST", of_body read_trigger)
  | TestTrigger _ => ("POST", of_args (one_id TestTrigger))
  | Droppers _ _ _ => ("POST", of_body read_droppers)
  | _ => ("", fun _ _ _ => None)
  end%string.

Lemma method_written cmd r call : request_of cmd = Some (Ret r) -> called cmd = Some call ->
  rq_method r = fst (route_reader call) /\ reader_of (rq_method r) (pattern call) = Some (snd (route_reader call)).
Proof. intros E Em. commands E Em; split; reflexivity. Qed.

#[local] Arguments parse_int : simpl never.
#[local] Arguments parse_i64 : simpl never.
#[local] Arguments Decimal.parse_u64 : simpl never.
#[local] Arguments parse_u32_field : simpl never.
#[local] Arguments parse_bool : simpl never.
#[local] Arguments show_Z : simpl never.
#[local] Arguments show_f64 : simpl never.

Ltac reads :=
  repeat first [ rewrite uuid_text_reads | rewrite parse_bool_text | rewrite parse_i64_show by assumption | rewrite parse_u64_show by assumption
               | rewrite parse_u32_field_show by assumption | match goal with H : parse_f64 _ = _ |- _ => rewrite H end
               | progress cbn [mbind option_bind] ].

Lemma extracted cmd r call : request_of cmd = Some (Ret r) -> called cmd = Some call -> sound_cmd cmd ->
  snd (route_reader call) (arg_texts call) (rq_query r) (rq_body r) = Some call.
Proof.
  intros E Em Hs. commands E Em; cbn [sound_cmd] in Hs; destruct_and?; try reflexivity.
  all: repeat match goal with o : option _ |- _ => destruct o end; cbn; reads; try reflexivity.
Qed.

(** What a command means, by its own help: an artifact's derived rows are deleted
    with both [--execute] and [--dry-run=false], and otherwise only counted. *)
Definition meant (cmd : Cmd) : option Call :=
  match cmd with
  | CSimilarity (SimilarityCleanup artifact_id dry_run execute) => Some (Cleanup artifact_id (Some (negb (execute && negb dry_run))))
  | _ => called cmd
  end.

(** The two options of the cleanup contradict each other. *)
Definition contradictory (cmd : Cmd) : option Uuid :=
  match cmd with
  | CSimilarity (SimilarityCleanup artifact_id dry_run execute) => if Bool.eqb execute dry_run then Some artifact_id else None
  | _ => None
  end.

Lemma called_meant cmd call : called cmd = Some call -> match contradictory cmd with
  | Some id => meant cmd = Some (Cleanup id (Some true)) /\ call = Cleanup id (Some false)
  | None => meant cmd = Some call
  end.
Proof.
  destruct cmd; try done. match goal with x : SimilarityCmd |- _ => destruct x end; try done. by destruct dry_run, execute; intros [= <-].
Qed.

(** C29. What the server reads is what the command meant.  For every command that
    sends one request: unless it is refused for naming both a hunt and a digest or
    neither, the method, path, query and body it writes are read by the server's
    routing table and extractors as the call the command's help promises, with
    every argument in its place; provided numbers have their types, texts put into
    the URL hold only characters the URL leaves alone, and a path argument is no word
    of the routing table.  One case goes against the help: a cleanup with one of
    [--execute] and [--dry-run=false] but not the other promises to delete nothing,
    and the server reads the deletion. *)
Theorem commands_understood cmd r : request_of cmd = Some (Ret r) -> sound_cmd cmd ->
  exists call, meant cmd = Some call /\
    server_reads (rq_method r) (url_text r) (rq_body r) =
      Some match contradictory cmd with Some id => Cleanup id (Some false) | None => call end.
Proof.
  intros E Hs. destruct (meant_some cmd r E) as [call Em].
  assert (Hread : server_reads (rq_method r) (url_text r) (rq_body r) = Some call).
  { destruct (method_written cmd r call E Em) as [_ Hr]. pose proof (extracted cmd r call E Em Hs) as Hx.
    pose proof (query_plain cmd r call E Em Hs) as Hq. pose proof (args_sound cmd call Em Hs) as Ha. pose proof (path_written cmd r call E Em) as Hp.
    destruct r as [m p q b]. cbn [rq_method rq_path rq_query rq_body] in *. subst p. by eapply server_reads_written. }
  pose proof (called_meant cmd call Em) as Hm. destruct (contradictory cmd) as [id|]; [|by exists call].
  destruct Hm as [Hm ->]. exists (Cleanup id (Some true)). by split.
Qed.
End understood.

(** ** [main] *)

(** What a command reads of the machine it runs on: its name, the files under a
    directory, files and text files, the registry's user and password, the TAXII
    key, and the deployment CA ([mtls.rs]). *)
Record Machine := mkMachine {
  mc_hostname : string; mc_walk : string -> list LocalFile; mc_read : string -> string + bytes; mc_text : string -> string + string;
  mc_registry_user : option (string * string); mc_taxii_key : option string; mc_ca : outcome (string * string) }.

(** What is shown at the end. *)
Inductive Shown : Type :=
  | ShownNothing
  | ShownReply (r : Reply)
  | ShownHunt (h : Hunt)
  | ShownIndicators (upserted : Z) (hits : option (list HashHuntHit))
  | ShownQueued (trigger_id : Uuid)
  | ShownCa (dir fingerprint : string).

Section main.
  Context {R : Type} {AP : Api R} {SHA : Sha256} {HEX : HexCodec} {UD : UuidDisplay} {UP : UuidParse} {V5 : UuidV5}
          {JB : JsonBytes} {ST : StatusText} {JT : JsonText} {CT : ChronoText} {TR : TarReader} {ZR : ZipReader}.

(** The commands on tenants leave the tenant's header out. *)
Definition bare (c : Client) : Client := mkClient None (cl_admin_token c).
Definition client_for (c : Client) (cmd : Cmd) : Client := match cmd with CTenants _ => bare c | _ => c end.

(** The reply of the right kind. *)
Definition reply_for (call : Call) (r : Reply) : option Reply :=
  match call, r with
  | (CreateTenant _ _ | GetTenant _), RTenant _ | ListTenants, RTenants _ | CreateRule _, RRule _ | ListRules, RRules _ | ListBundles, RBundles _
  | (CreateHunt _ | GetHunt _), RHunt _ | ListHunts, RHunts _ | BlastRadius _ _ _, RBlastRadius _ | Investigate _ _, RInvestigation _
  | ListDetections, RDetections _ | ListContinuous, RContinuous _ | Metrics, RMetrics _ | CreateEnrollmentToken _ _, RToken _ _
  | ListAgents, RAgents _ | AgentStatus _, RAgent _ | CoverageGaps _ _, RGaps _ | Similar _, RSimilar _ | VariantsOf _, RVariants _
  | Backfill, RAnalyzed _ | NeighborhoodOf _, RNeighborhood _ | ExportGraph _, RExport _ | SemanticEvidence _ _ _ _, RJson _
  | ListAnalyzers, RAnalyzers _ | Cleanup _ _, RCleanup _ | PrevalenceOf _, RPrevalence _ | DetonateArtifact _, RDetonation _
  | Routes.Search _ _ _ _, RSearch _ | SetOpinion _ _ _ _, ROpinion _ | GetOpinion _, ROpinion _ | OpinionHistory _, ROpinions _
  | CreateTrigger _ _ _ _, RTrigger _ _ | ListTriggers, RTriggers _ | Droppers _ _ _, RDroppers _ => Some r
  | _, _ => None
  end.

(** A test event's answer is not looked at. *)
Definition send_one (c : Client) (cmd : Cmd) : Op (Ctl R) Shown :=
  match request_of cmd, called cmd with
  | Some (Fail e), _ => throw e
  | _, Some (TestTrigger id) => _ ← request c (TestTrigger id); mret (ShownQueued id)
  | _, Some call => r ← send c (reply_for call) call; mret (ShownReply r)
  | _, None => panic
  end.

Definition reading (file : string) {A} (r : string + A) : outcome A :=
  match r with inl e => Fail (Io ("reading " +:+ (file +:+ (": " +:+ e)))) | inr a => Ret a end.

Definition main (m : Machine) (cli : Cli) : Op (Ctl R) Shown :=
  let c := mkClient (cli_tenant cli) (cli_admin_token cli) in
  match cli_cmd cli with
  | CImport dir capture_reason => cmd_import c (mc_hostname m) (mc_walk m dir) capture_reason ;; mret ShownNothing
  | CImportOci image_ref from_tar max_artifact_bytes =>
      cmd_import_oci c (mc_hostname m) image_ref from_tar (match from_tar with Some p => mc_read m p | None => inl ""%string end) (mc_registry_user m) max_artifact_bytes ;;
      mret ShownNothing
  | CIntel (IntelMalwarebazaar limit url) => intel_malwarebazaar c limit url ;; mret ShownNothing
  | CIntel (IntelTaxii url collection auto_hunt) =>
      r ← intel_taxii c url collection (mc_taxii_key m) auto_hunt; mret (ShownIndicators (fst r) (snd r))
  | CBackfill root observed_at host snapshot_times_file => backfill c root observed_at host snapshot_times_file (mc_text m) (mc_walk m) ;; mret ShownNothing
  | CRules (RulesAdd file) =>
      source ← lift_outcome (reading file (mc_text m file));
      r ← send c (reply_for (CreateRule source)) (CreateRule source);
      mret (ShownReply r)
  | CBundles (BundlesPublish rules activate) => r ← bundles_publish c rules activate; mret (ShownReply (RBundle (fst r) (snd r)))
  | CHunts (HuntsRun hunt_id no_wait wait_secs) => h ← hunts_run c hunt_id no_wait wait_secs; mret (ShownHunt h)
  | CCa CaInit =>
      ca ← lift_outcome (mc_ca m);
      mret (ShownCa (fst ca) (sha256_hex (str_bytes (snd ca))))
  | cmd => send_one (client_for c cmd) cmd
  end.
End main.

(** ** Witness *)

Section witnesses.
Local Existing Instance ReferenceUuid.display.
Local Instance plain_path : PathDecode := Some.

(** Pairs are cut at [&] and the first [=]. *)
Fixpoint cut_pairs (s acc : string) : list string :=
  match s with
  | EmptyString => [acc]
  | String c s' => if Ascii.eqb c "&" then acc :: cut_pairs s' "" else cut_pairs s' (acc +:+ String c "")
  end.
Local Instance cut_query : QueryDecode := fun s => map (fun p => default (p, ""%string) (split_once "=" p)) (cut_pairs s "").
Local Instance decimal_ids : UuidParse := fun s => z ← nonempty_digits s; Some (Z.to_N z).
Local Instance zero_only : FloatParse := fun s => if String.eqb s "0" then Some (f64_of_Z 0) else None.

Lemma cut_segment s : forall acc rest, lacks "&" s = true -> cut_pairs (s +:+ rest) acc = cut_pairs rest (acc +:+ s).
Proof.
  induction s as [|c s IH]; intros acc rest; [by rewrite string_app_nil_r|]. unfold lacks. cbn [str_all]. intros [Hc Hs]%andb_true_iff. apply negb_true_iff in Hc.
  change (cut_pairs (String c s +:+ rest) acc) with (if Ascii.eqb c "&" then acc :: cut_pairs (s +:+ rest) "" else cut_pairs (s +:+ rest) (acc +:+ String c "")).
  rewrite Ascii.eqb_sym, Hc, IH by done. by rewrite string_app_assoc.
Qed.

Lemma plain_lacks s c : plain_char c = false -> plain s = true -> lacks c s = true.
Proof. intros Hc. apply str_all_impl. intros d Hd. apply negb_true_iff, Ascii.eqb_neq. by intros <-; rewrite Hc in Hd. Qed.

Lemma cut_query_text q : Forall (fun kv => plain (fst kv) = true /\ plain (snd kv) = true) q -> q <> [] -> cut_pairs (query_text q) "" = map pair_text q.
Proof.
  intros H Hne. assert (Hp : Forall (fun p => lacks "&" p = true) (map pair_text q)).
  { clear Hne. induction H as [|[k v] q [Hk Hv] H IH]; constructor; [|done]. unfold pair_text. cbn [fst snd] in *.
    by rewrite !lacks_app, (plain_lacks k "&"), (plain_lacks v "&"). }
  assert (Hn : map pair_text q <> []) by (by destruct q). unfold query_text, str_join. revert Hp Hn. generalize (map pair_text q). clear.
  induction l as [|p l IH]; intros Hp Hn; [done|]. inversion Hp; subst. destruct l as [|p2 l].
  - cbn [String.concat]. rewrite <- (string_app_nil_r p) at 1. by rewrite cut_segment.
  - change (String.concat "&" (p :: p2 :: l)) with (p +:+ String "&" (String.concat "&" (p2 :: l))). rewrite cut_segment by done.
    change (cut_pairs (String "&" ?r) ?acc) with (acc :: cut_pairs r ""). by rewrite IH.
Qed.

Lemma cut_laws : DecodeLaws.
Proof.
  constructor; [done|]. intros q Hne H. unfold query_decode, cut_query. rewrite cut_query_text by done. clear Hne.
  induction H as [|[k v] q [Hk Hv] H IH]; [done|]. cbn [map]. rewrite IH. f_equal.
  change (pair_text (k, v)) with (k +:+ String "=" v). by rewrite (proj2 (split_once_some "=" _ k v) (conj eq_refl (plain_lacks _ "=" eq_refl Hk))).
Qed.
Local Existing Instance cut_laws.

Lemma digits_uuid_chars s : ReferenceUuid.digits_only s = true -> str_all uuid_char s = true.
Proof.
  induction s as [|c s IH]; [done|]. cbn. intros [Hc Hs]%andb_true_iff. rewrite IH by done. apply andb_true_iff. split; [|done].
  revert c Hc. apply ascii_cases. vm_compute. reflexivity.
Qed.

Lemma decimal_laws : UuidTextLaws.
Proof.
  assert (Hz : forall u : N, uuid_to_string u = show_Z (Z.of_N u)) by (by intros []).
  constructor; intros u.
  - split; [|apply digits_uuid_chars, ReferenceUuid.pretty_digits].
    rewrite Hz. destruct (show_Z_digits (Z.of_N u)) as (c & s & _ & _ & E). rewrite E. by destruct (_ <? _).
  - rewrite Hz. destruct (show_Z_digits (Z.of_N u)) as (c & s & _ & Hv & E). rewrite E. rewrite (proj2 (Z.ltb_ge _ _)) by lia.
    unfold uuid_parse, decimal_ids. rewrite nonempty_digits_cons, Hv. cbn. by rewrite Z.abs_eq, N2Z.id by lia.
Qed.
Local Existing Instance decimal_laws.

Definition a_search : Cmd := CSearch 3 (Some "7d"%string) (Some "malicious"%string) 50.

Example a_search_url : request_of a_search = Some (Ret (GET "/api/v1/search" [("max_hosts", "3"); ("limit", "50"); ("since", "7d"); ("opinion", "malicious")]%string)) /\
  url_text (GET "/api/v1/search" [("max_hosts", "3"); ("limit", "50")]%string) = "/api/v1/search?max_hosts=3&limit=50"%string.
Proof. split; reflexivity. Qed.

(** Texts are put into the URL as they are: one that holds an ampersand adds a
    parameter, and the server is asked something else. *)
Example search_injection : let cmd := CSearch 3 (Some "7d&opinion=trusted"%string) None 50 in
  exists r, request_of cmd = Some (Ret r) /\ server_reads "GET" (url_text r) None = Some (Routes.Search (Some 3) (Some "7d"%string) (Some "trusted"%string) (Some 50)).
Proof. eexists. split; reflexivity. Qed.

Lemma commands_understood_witness : exists call, meant a_search = Some call /\
  server_reads "GET" "/api/v1/search?max_hosts=3&limit=50&since=7d&opinion=malicious" None = Some call.
Proof.
  exact (commands_understood a_search (GET "/api/v1/search" [("max_hosts", "3"); ("limit", "50"); ("since", "7d"); ("opinion", "malicious")]%string) eq_refl
    (conj (conj (proj1 (Z.leb_le (- 2 ^ 63) 3) eq_refl) (proj1 (Z.leb_le 3 I64_MAX) eq_refl)) (conj eq_refl (conj eq_refl
      (conj (proj1 (Z.leb_le (- 2 ^ 63) 50) eq_refl) (proj1 (Z.leb_le 50 I64_MAX) eq_refl)))))).
Defined.
End witnesses.
