(* ===== verification/Sources.v ===== *)
(** * What the agent's sensors read ([corpus-agent/src/fileid.rs],
    [sensors/{ads,fanotify,rdcw,usn,poll}.rs])

    The operating system's side of the sensors: file identities, alternate
    streams, the choice of the mounts to mark, one answer of
    [ReadDirectoryChangesW], the pages of the USN journal.  What a system call
    answers is an argument; the parsers of these answers are in [Sensors] and
    [AgentLoop]. *)

From S2P Require Import Prelude Machine Text Decimal Hash Cas Schema Report AgentState Spool Sensors Capture AgentLoop.
From Stdlib Require Import Strings.Byte Strings.Ascii Sorting.Permutation Sorting.Sorted.
From stdpp Require Import pretty.

Open Scope Z_scope.

(** ** fileid.rs *)

(** [std::fs::Metadata] on Unix, by its accessors. *)
Record Metadata := mkMetadata {
  md_dev : Z; md_ino : Z; md_size : Z; md_mtime : Z; md_mtime_nsec : Z; md_ctime : Z; md_ctime_nsec : Z }.

Definition file_key (md : Metadata) : FileKey :=
  mkFileKey (md_dev md) (md_ino md) (md_size md) (md_mtime md * 1000000000 + md_mtime_nsec md) (md_ctime md * 1000000000 + md_ctime_nsec md).

(** The 32-bit words of [BY_HANDLE_FILE_INFORMATION] the code reads. *)
Record HandleInfo := mkHandleInfo { hi_volume_serial : Z; hi_index_high : Z; hi_index_low : Z }.

(** [len] and [modified] (nanoseconds, [None] when there is none after the
    epoch) are the file's metadata. *)
Definition key_for_file (info : option HandleInfo) (metadata : option (Z * option Z)) : option FileKey :=
  info ← info;
  let index := Z.lor (Z.shiftl (hi_index_high info) 32) (hi_index_low info) in
  '(len, modified) ← metadata;
  Some (mkFileKey (hi_volume_serial info) index len (default 0 modified) 0).

(** [scan_key], outside Unix; on Unix it is [file_key]. *)
Definition scan_key (len : Z) (modified : option Z) : FileKey := mkFileKey 0 0 len (default 0 modified) 0.

Lemma index_words high low : 0 <= high -> 0 <= low < 2 ^ 32 -> Z.lor (Z.shiftl high 32) low = high * 2 ^ 32 + low.
Proof.
  intros Hh Hl. rewrite Z.shiftl_mul_pow2 by lia. rewrite <- Z.lxor_lor, <- Z.add_nocarry_lxor; [done| |].
  all: apply Z.bits_inj'; intros n Hn; rewrite Z.land_spec, Z.bits_0; destruct (Z.ltb_spec n 32).
  1,3: by rewrite Z.mul_pow2_bits_low.
  all: assert (Hz : Z.testbit low n = false) by
    (destruct (Z.eq_dec low 0) as [->|]; [apply Z.bits_0|apply Z.bits_above_log2; [lia|]; assert (Z.log2 low < 32) by (apply Z.log2_lt_pow2; lia); lia]);
    rewrite Hz; apply andb_false_r.
Qed.

(** Two open files have one index exactly when both halves agree. *)
Lemma key_index_inj i j a b ka kb :
  key_for_file (Some i) a = Some ka -> key_for_file (Some j) b = Some kb ->
  0 <= hi_index_high i -> 0 <= hi_index_high j -> 0 <= hi_index_low i < 2 ^ 32 -> 0 <= hi_index_low j < 2 ^ 32 ->
  fk_index ka = fk_index kb -> hi_index_high i = hi_index_high j /\ hi_index_low i = hi_index_low j.
Proof.
  unfold key_for_file. cbn [mbind option_bind]. destruct a as [[la ma]|]; [|done]. destruct b as [[lb mb]|]; [|done].
  cbn [mbind option_bind]. intros [= <-] [= <-] H1 H2 H3 H4. cbn [fk_index]. rewrite !index_words by done. lia.
Qed.

(** ** ads.rs *)

(** [position(|c| *c == 0)]: the units of the name up to the first zero. *)
Fixpoint until_zero (units : list Z) : list Z :=
  match units with [] => [] | u :: r => if u =? 0 then [] else u :: until_zero r end.

Definition is_default_stream (name : string) : bool := String.eqb name "" || str_starts_with "::$DATA" name.

(** [found] is what [FindFirstStreamW] and [FindNextStreamW] fill in, one
    [cStreamName] each; [None] is a handle that does not open. *)
Definition list_ads (found : option (list (list Z))) : list string :=
  match found with
  | None => []
  | Some streams => List.filter (fun n => negb (is_default_stream n)) (map (fun raw => from_utf16_lossy (until_zero raw)) streams)
  end.

(** The provenance a capture gets from it ([capture.rs], on Windows). *)
Definition ads_provenance (found : option (list (list Z))) : option Json :=
  match list_ads found with
  | [] => None
  | ads => Some (JObj [("ads"%string, JArr (map JStr ads))])
  end.

(** ** fanotify.rs: the mounts to mark *)

(** [Path::components] on Unix. *)
Inductive Component : Type := RootDir | CurDir | Named (s : string).

Global Instance component_eq_dec : EqDecision Component.
Proof. solve_decision. Defined.

Definition is_slash (c : ascii) : bool := Ascii.eqb c "/".

(** Repeated separators and inner dots are left out; a leading dot is kept. *)
Definition components (p : string) : list Component :=
  let names := split_tokens is_slash p "" in
  if str_starts_with "/" p then RootDir :: map Named (List.filter (fun s => negb (String.eqb s ".")) names)
  else
    match names with
    | [] => []
    | first :: rest =>
        (if String.eqb first "." then CurDir else Named first) :: map Named (List.filter (fun s => negb (String.eqb s ".")) rest)
    end.

(** [a.starts_with(b)] for paths. *)
Definition path_starts_with (a b : string) : bool :=
  let cb := components b in bool_decide (take (length cb) (components a) = cb).

(** [split_whitespace] *)
Fixpoint ws_fields (fuel : nat) (b acc : bytes) : list bytes :=
  let flush := match acc with [] => [] | _ => [acc] end in
  match fuel with
  | O => flush
  | S fuel' =>
      match b with
      | [] => flush
      | x :: b' =>
          match strip_space white_space b with
          | Some rest => flush ++ ws_fields fuel' rest []
          | None => ws_fields fuel' b' (acc ++ [x])
          end
      end
  end.

Definition split_whitespace (s : string) : list string := map bytes_str (ws_fields (S (length (str_bytes s))) (str_bytes s) []).

(** [s.replace(from, to)], for a nonempty [from]. *)
Fixpoint replace_all (fuel : nat) (from to s : string) : string :=
  match fuel with
  | O => s
  | S fuel' =>
      match strip_front (str_bytes from) (str_bytes s) with
      | Some rest => to +:+ replace_all fuel' from to (bytes_str rest)
      | None => match s with String c r => String c (replace_all fuel' from to r) | EmptyString => EmptyString end
      end
  end.

Definition is_newline (c : ascii) : bool := Ascii.eqb c "010".

(** The mount points of [/proc/self/mountinfo], the longest first. *)
Definition mount_points (info : string) : list string :=
  sort_by (fun a b => str_len b <=? str_len a)
    (omap (fun line => m ← split_whitespace line !! 4%nat; Some (replace_all (String.length m) "\040" " " m)) (split_tokens is_newline info "")).

Definition mounts_loop (canonicalize : string -> option string) (mounts : list string) (out : list string) (p : string) : list string :=
  let canon := default p (canonicalize p) in
  match List.find (path_starts_with canon) mounts with
  | Some m => if bool_decide (m ∈ out) then out else out ++ [m]
  | None => out ++ [canon]
  end.

Definition reading_mountinfo : Error := Io "reading mountinfo".

(** [info]: the text of [/proc/self/mountinfo], when it can be read. *)
Definition mounts_for (info : option string) (canonicalize : string -> option string) (paths : list string) : outcome (list string) :=
  info ← or_fail reading_mountinfo info;
  Ret (foldl (mounts_loop canonicalize (mount_points info)) [] paths).

(** *** The marks *)

Definition FAN_CLOSE_WRITE : Z := 0x8.
Definition mark_tiers : list Z := [Z.lor FAN_CLOSE_WRITE FAN_OPEN_EXEC; FAN_CLOSE_WRITE].

Definition has_nul (s : string) : bool := str_contains (String "000" "") s.

(** The first tier the kernel accepts for a mount; [mark] is [fanotify_mark]. *)
Definition mark_mount (mark : string -> Z -> bool) (m : string) : option Z := List.find (mark m) mark_tiers.

Definition no_interior_nul : Error := BadRequest "nul byte found in provided data".

Fixpoint mark_mounts (mark : string -> Z -> bool) (mounts : list string) : outcome (list (string * Z)) :=
  match mounts with
  | [] => Ret []
  | m :: rest =>
      if has_nul m then Fail no_interior_nul
      else
        marked ← mark_mounts mark rest;
        Ret (match mark_mount mark m with Some mask => (m, mask) :: marked | None => marked end)
  end.

(** [opened]: whether [fanotify_init] gives a descriptor. *)
Definition init_fanotify (opened : bool) (mark : string -> Z -> bool) (mounts : list string) : outcome (list (string * Z)) :=
  if negb opened then Fail (Io "fanotify_init failed")
  else
    marks ← mark_mounts mark mounts;
    match marks with [] => Fail (Io "fanotify: no watch path could be marked") | _ => Ret marks end.

Definition fanotify_start (info : option string) (canonicalize : string -> option string) (opened : bool) (mark : string -> Z -> bool)
    (paths : list string) : outcome (list (string * Z)) :=
  mounts ← mounts_for info canonicalize paths;
  init_fanotify opened mark mounts.

(** *** The text the kernel writes

    [/proc/self/mountinfo], as [proc(5)] and [show_mountinfo] have it: per mount
    its identifiers, the device, the root of the mount and the mount point, then
    the options, the optional fields and the file system, each field before them
    followed by a blank.  In the two paths a blank, a tab, a newline and a
    backslash are written as octal escapes. *)
Definition kernel_char (c : ascii) : string :=
  if Ascii.eqb c " " then "\040" else if Ascii.eqb c "009" then "\011" else if Ascii.eqb c "010" then "\012"
  else if Ascii.eqb c "\" then "\134" else String c "".

Fixpoint kernel_escape (s : string) : string :=
  match s with EmptyString => EmptyString | String c s' => kernel_char c +:+ kernel_escape s' end.

Record MountEntry := mkMountEntry {
  me_id : N; me_parent : N; me_major : N; me_minor : N; me_root : string; me_point : string;
  me_rest : string }.

Definition mount_fields (e : MountEntry) : list string :=
  [pretty (me_id e); pretty (me_parent e); pretty (me_major e) +:+ (":" +:+ pretty (me_minor e)); kernel_escape (me_root e);
   kernel_escape (me_point e)].

Definition blank_join (fields : list string) (rest : string) : string := foldr (fun t acc => t +:+ String " " acc) rest fields.

Definition mount_line (e : MountEntry) : string := blank_join (mount_fields e) (me_rest e).

Fixpoint mountinfo (l : list MountEntry) : string :=
  match l with [] => "" | e :: l' => mount_line e +:+ String "010" (mountinfo l') end.

(** Printable ASCII without a backslash, blanks allowed. *)
Definition plain_char (c : ascii) : bool := in_range 32 126 c && negb (Ascii.eqb c "\").
Definition plain_path (s : string) : bool := negb (String.eqb s "") && str_all plain_char s.

(** The two paths are plain, and the rest of the line is one line. *)
Definition plain_entry (e : MountEntry) : bool :=
  plain_path (me_root e) && plain_path (me_point e) && str_all (fun c => negb (is_newline c)) (me_rest e).

(** *** Reading it back *)

Definition visible_char (c : ascii) : bool := in_range 33 126 c.

Lemma str_bytes_app s t : str_bytes (s +:+ t) = str_bytes s ++ str_bytes t.
Proof. induction s as [|c s IH]; [done|].
  change (byte_of_ascii c :: str_bytes (s +:+ t) = byte_of_ascii c :: (str_bytes s ++ str_bytes t)). by rewrite IH.
Qed.

Lemma bytes_str_bytes s : bytes_str (str_bytes s) = s.
Proof. apply String.string_of_list_byte_of_string. Qed.

Lemma strip_space_visible c b : visible_char c = true -> strip_space white_space (byte_of_ascii c :: b) = None.
Proof. destruct c as [[] [] [] [] [] [] [] []]; intros H; try discriminate H; reflexivity. Qed.

Lemma strip_space_blank b : strip_space white_space (byte_of_ascii " " :: b) = Some b.
Proof. reflexivity. Qed.

Lemma ws_fields_token t : forall f acc rest, str_all visible_char t = true ->
  ws_fields (String.length t + f) (str_bytes t ++ rest) acc = ws_fields f rest (acc ++ str_bytes t).
Proof.
  induction t as [|c t IH]; intros f acc rest Ht; [by rewrite app_nil_r|]. cbn [str_all] in Ht. apply andb_true_iff in Ht as [Hc Ht].
  change (str_bytes (String c t)) with (byte_of_ascii c :: str_bytes t). cbn [String.length Nat.add app ws_fields].
  rewrite strip_space_visible by done. rewrite IH by done. by rewrite <- app_assoc.
Qed.

(** Fields each followed by a blank are split off one by one. *)
Lemma ws_fields_blanks fields rest : Forall (fun t => t <> ""%string /\ str_all visible_char t = true) fields ->
  ws_fields (S (length (str_bytes (blank_join fields rest)))) (str_bytes (blank_join fields rest)) [] =
    map str_bytes fields ++ ws_fields (S (length (str_bytes rest))) (str_bytes rest) [].
Proof.
  induction 1 as [|t fields [Hne Ht] _ IH]; [done|]. unfold blank_join in *. cbn [foldr map].
  rewrite str_bytes_app. set (tail := foldr _ rest fields) in *.
  change (str_bytes (String " " tail)) with (byte_of_ascii " " :: str_bytes tail). rewrite length_app. cbn [length].
  assert (El : length (str_bytes t) = String.length t) by (clear; induction t as [|c t IH]; [done|]; cbn [String.length]; by rewrite <- IH).
  replace (S (length (str_bytes t) + S (length (str_bytes tail))))%nat with (String.length t + S (S (length (str_bytes tail))))%nat by lia.
  rewrite ws_fields_token by done. rewrite app_nil_l.
  remember (S (length (str_bytes tail))) as f eqn:Ef. cbn [ws_fields]. rewrite strip_space_blank.
  destruct t as [|c t]; [done|]. rewrite IH. done.
Qed.

Lemma kernel_escape_visible s : str_all plain_char s = true -> str_all visible_char (kernel_escape s) = true.
Proof.
  induction s as [|c s IH]; [done|]. cbn [str_all kernel_escape]. intros [Hc Hs]%andb_true_iff. specialize (IH Hs).
  destruct c as [[] [] [] [] [] [] [] []]; try discriminate Hc; cbn; exact IH.
Qed.

Lemma kernel_escape_nonempty s : s <> ""%string -> kernel_escape s <> ""%string.
Proof. destruct s as [|c s]; [done|]. intros _. cbn [kernel_escape]. destruct c as [[] [] [] [] [] [] [] []]; done. Qed.

(** Decoding the blanks gives the path back, where no other escape is in it. *)
Lemma replace_escape s : forall fuel, str_all plain_char s = true -> (String.length (kernel_escape s) <= fuel)%nat ->
  replace_all fuel "\040" " " (kernel_escape s) = s.
Proof.
  induction s as [|c s IH]; intros [|fuel] Hs Hf; try done.
  - exfalso. assert (H := kernel_escape_nonempty (String c s) ltac:(done)). destruct (kernel_escape (String c s)); [done|]. cbn in Hf. lia.
  - cbn [str_all] in Hs. apply andb_true_iff in Hs as [Hc Hs]. cbn [kernel_escape] in *. unfold kernel_char in *.
    destruct (Ascii.eqb c " ") eqn:E1.
    + apply Ascii.eqb_eq in E1 as ->. cbn [replace_all].
      change (strip_front (str_bytes "\040") (str_bytes ("\040" +:+ kernel_escape s))) with (Some (str_bytes (kernel_escape s))).
      cbv beta iota. rewrite bytes_str_bytes, IH; [done|done|]. rewrite string_app_length in Hf. cbn in Hf. lia.
    + assert (Ec : (if Ascii.eqb c "009" then "\011" else if Ascii.eqb c "010" then "\012" else if Ascii.eqb c "\" then "\134" else String c "")%string = String c "").
      { destruct c as [[] [] [] [] [] [] [] []]; try discriminate Hc; reflexivity. }
      rewrite Ec in *. change (String c "" +:+ kernel_escape s) with (String c (kernel_escape s)) in *. cbn [replace_all].
      assert (En : strip_front (str_bytes "\040") (str_bytes (String c (kernel_escape s))) = None).
      { change (str_bytes (String c (kernel_escape s))) with (byte_of_ascii c :: str_bytes (kernel_escape s)).
        destruct c as [[] [] [] [] [] [] [] []]; try discriminate Hc; reflexivity. }
      rewrite En, IH; [done|done|]. cbn in Hf. lia.
Qed.

Lemma digits_visible s : ReferenceUuid.digits_only s = true -> str_all visible_char s = true.
Proof.
  induction s as [|c s IH]; [done|]. cbn. intros [Hc Hs]%andb_true_iff. rewrite IH by done. rewrite andb_true_r.
  destruct c as [[] [] [] [] [] [] [] []]; try discriminate Hc; reflexivity.
Qed.

Lemma pretty_visible (n : N) : pretty n <> ""%string /\ str_all visible_char (pretty n) = true.
Proof.
  split; [|apply digits_visible, ReferenceUuid.pretty_digits]. intros E. assert (H : pretty n = pretty n) by done.
  unfold pretty, pretty_N in E. case_decide as Hn; [done|]. revert E. rewrite pretty_N_go_step by lia.
  assert (Hg : forall m s, s <> ""%string -> pretty_N_go m s <> ""%string).
  { intros m. induction (N.lt_wf_0 m) as [m _ IH]. intros s Hs. destruct (decide (0 < m)%N) as [Hm|Hm].
    - rewrite pretty_N_go_step by done. apply IH; [apply N.div_lt; lia|done].
    - replace m with 0%N by lia. by rewrite pretty_N_go_0. }
  by apply Hg.
Qed.

Lemma mount_fields_visible e : plain_entry e = true -> Forall (fun t => t <> ""%string /\ str_all visible_char t = true) (mount_fields e).
Proof.
  unfold plain_entry, plain_path. intros H. rewrite !andb_true_iff, !negb_true_iff, !String.eqb_neq in H. destruct H as [[[R1 R2] [P1 P2]] _].
  repeat apply List.Forall_cons; [apply pretty_visible|apply pretty_visible| | | |by apply List.Forall_nil].
  - destruct (pretty_visible (me_major e)) as [H1 H2], (pretty_visible (me_minor e)) as [_ H4]. split; [by destruct (pretty (me_major e))|].
    rewrite !str_all_app, H2, H4. done.
  - split; [by apply kernel_escape_nonempty|by apply kernel_escape_visible].
  - split; [by apply kernel_escape_nonempty|by apply kernel_escape_visible].
Qed.

(** The fifth field of a line, decoded, is the mount point. *)
Lemma mount_line_point e : plain_entry e = true ->
  (m ← split_whitespace (mount_line e) !! 4%nat; Some (replace_all (String.length m) "\040" " " m)) = Some (me_point e).
Proof.
  intros He. unfold split_whitespace, mount_line. rewrite ws_fields_blanks by by apply mount_fields_visible.
  unfold mount_fields. cbn [map app lookup list_lookup]. rewrite bytes_str_bytes. cbn [mbind option_bind]. f_equal.
  unfold plain_entry, plain_path in He. rewrite !andb_true_iff in He. apply replace_escape; [tauto|lia].
Qed.

Lemma visible_no_newline s : str_all visible_char s = true -> str_all (fun c => negb (is_newline c)) s = true.
Proof.
  induction s as [|c s IH]; [done|]. cbn [str_all]. intros [Hc Hs]%andb_true_iff. rewrite IH by done. rewrite andb_true_r.
  destruct c as [[] [] [] [] [] [] [] []]; try discriminate Hc; reflexivity.
Qed.

Lemma mount_line_one e : plain_entry e = true -> mount_line e <> ""%string /\ str_all (fun c => negb (is_newline c)) (mount_line e) = true.
Proof.
  intros He. pose proof (mount_fields_visible e He) as Hf. split.
  - unfold mount_line, blank_join, mount_fields. cbn [foldr]. destruct (pretty_visible (me_id e)) as [Hne _]. by destruct (pretty (me_id e)).
  - unfold plain_entry in He. apply andb_true_iff in He as [_ Hr]. unfold mount_line, blank_join.
    induction Hf as [|t fields [_ Ht] _ IH]; [done|]. cbn [foldr]. rewrite str_all_app, (visible_no_newline _ Ht). exact IH.
Qed.

Lemma split_tokens_line p s : forall acc rest, str_all (fun c => negb (p c)) s = true -> p "010"%char = true ->
  split_tokens p (s +:+ String "010" rest) acc = (if String.eqb (acc +:+ s) "" then [] else [acc +:+ s]) ++ split_tokens p rest "".
Proof.
  induction s as [|c s IH]; intros acc rest Hs Hp.
  - change ("" +:+ String "010" rest) with (String "010" rest). cbn [split_tokens]. rewrite Hp. by rewrite string_app_nil_r.
  - cbn [str_all] in Hs. apply andb_true_iff in Hs as [Hc Hs]. apply negb_true_iff in Hc.
    change (String c s +:+ String "010" rest) with (String c (s +:+ String "010" rest)). cbn [split_tokens]. rewrite Hc, IH by done.
    by rewrite !string_app_assoc.
Qed.

(** Of the kernel's text, the mount points are those of the mounts. *)
Lemma mount_points_of entries : Forall (fun e => plain_entry e = true) entries ->
  mount_points (mountinfo entries) = sort_by (fun a b => str_len b <=? str_len a) (map me_point entries).
Proof.
  intros H. unfold mount_points. f_equal. induction H as [|e entries He _ IH]; [done|]. cbn [mountinfo map].
  destruct (mount_line_one e He) as [Hne Hl]. rewrite split_tokens_line by done. change ("" +:+ mount_line e) with (mount_line e).
  rewrite (proj2 (String.eqb_neq _ _) Hne). cbn [app omap list_omap]. rewrite mount_line_point by done. by f_equal.
Qed.

(** *** Every watched path is on a marked mount *)

Lemma path_starts_refl a : path_starts_with a a = true.
Proof. unfold path_starts_with. apply bool_decide_eq_true. by rewrite firstn_all. Qed.

Lemma sort_len_total : le_total (fun a b : string => str_len b <=? str_len a).
Proof. intros a b. rewrite !Z.leb_le. lia. Qed.

Lemma sort_len_trans : le_trans (fun a b : string => str_len b <=? str_len a).
Proof. intros a b c. rewrite !Z.leb_le. lia. Qed.

(** In a list sorted from the longest, the first match is the longest. *)
Lemma find_longest (p : string -> bool) l m : StronglySorted (fun a b => (str_len b <=? str_len a) = true) l -> List.find p l = Some m ->
  In m l /\ p m = true /\ forall x, In x l -> p x = true -> str_len x <= str_len m.
Proof.
  induction 1 as [|y l Hs IH Hy]; intros H; [done|]. cbn [List.find] in H. destruct (p y) eqn:Ey.
  - injection H as <-. split; [by left|]. split; [done|]. intros x [<-|Hx] _; [lia|]. rewrite List.Forall_forall in Hy. by apply Z.leb_le, Hy.
  - destruct (IH H) as (H1 & H2 & H3). split; [by right|]. split; [done|]. intros x [<-|Hx] Hp; [congruence|]. by apply H3.
Qed.

Lemma mounts_loop_grows canonicalize mounts paths : forall out m, In m out -> In m (foldl (mounts_loop canonicalize mounts) out paths).
Proof.
  induction paths as [|p paths IH]; intros out m Hm; [done|]. cbn [foldl]. apply IH. unfold mounts_loop.
  destruct (List.find _ _); [case_bool_decide; [done|]|]; apply in_app_iff; by left.
Qed.

(** What a path is watched through: the longest mount point above it, or itself
    when it is on none. *)
Definition watched_through (mounts : list string) (canon m : string) : Prop :=
  path_starts_with canon m = true /\
  (m = canon \/ In m mounts) /\
  forall m', In m' mounts -> path_starts_with canon m' = true -> In m mounts /\ str_len m' <= str_len m.

Lemma mounts_loop_covers canonicalize mounts paths : StronglySorted (fun a b => (str_len b <=? str_len a) = true) mounts ->
  forall out p, In p paths ->
  exists m, In m (foldl (mounts_loop canonicalize mounts) out paths) /\ watched_through mounts (default p (canonicalize p)) m.
Proof.
  intros Hs. induction paths as [|q paths IH]; intros out p Hp; [done|]. cbn [foldl]. destruct Hp as [->|Hp]; [|by apply IH].
  destruct (List.find (path_starts_with (default p (canonicalize p))) mounts) as [m|] eqn:E.
  - exists m. split.
    + apply mounts_loop_grows. unfold mounts_loop. rewrite E. case_bool_decide as Hin; [by apply list_elem_of_In|apply in_app_iff; right; by left].
    + apply (find_longest _ _ _ Hs) in E as (H1 & H2 & H3). split; [done|]. split; [by right|]. intros m' Hm' Hs'. split; [done|by apply H3].
  - exists (default p (canonicalize p)). split.
    + apply mounts_loop_grows. unfold mounts_loop. rewrite E. apply in_app_iff. right. by left.
    + split; [apply path_starts_refl|]. split; [by left|]. intros m' Hm' Hs'. exfalso. pose proof (List.find_none _ _ E m' Hm'). congruence.
Qed.

(** The order of the mount points does not matter. *)
Lemma watched_through_perm mounts mounts' canon m : Permutation mounts mounts' -> watched_through mounts canon m -> watched_through mounts' canon m.
Proof.
  intros Hp (H1 & H2 & H3). assert (Hi : forall x, In x mounts <-> In x mounts') by (intros x; split; apply Permutation_in; [done|by symmetry]).
  split; [done|]. split; [by rewrite <- Hi|]. intros m' Hm'. rewrite <- Hi. apply H3. by apply Hi.
Qed.

Lemma mark_mounts_all mark mounts marks : mark_mounts mark mounts = Ret marks ->
  forall m mask, In (m, mask) marks <-> In m mounts /\ mark_mount mark m = Some mask.
Proof.
  revert marks. induction mounts as [|x mounts IH]; intros marks H m mask; cbn [mark_mounts] in H; [injection H as <-; cbn; tauto|].
  destruct (has_nul x); [done|]. destruct (mark_mounts mark mounts) as [l|e|] eqn:E; [|done..]. cbn [mbind outcome_mbind] in H. injection H as <-.
  specialize (IH l eq_refl m mask). destruct (mark_mount mark x) as [k|] eqn:Ek; cbn [In].
  - rewrite IH. split; [intros [[= <- <-]|[H1 H2]]; by auto|]. intros [[->|H1] H2]; [left; congruence|by right].
  - rewrite IH. split; [tauto|]. intros [[->|H1] H2]; [congruence|done].
Qed.

Lemma mark_mount_close_write mark m : mark m FAN_CLOSE_WRITE = true -> exists mask, mark_mount mark m = Some mask /\ has_bit mask FAN_CLOSE_WRITE = true.
Proof.
  intros H. unfold mark_mount, mark_tiers. cbn [List.find]. rewrite H. generalize (mark m (Z.lor FAN_CLOSE_WRITE FAN_OPEN_EXEC)). intros []; eexists; split; reflexivity.
Qed.

(** C38. When the fanotify sensor starts, every watched path is covered: the longest
    mount point above its canonical form, or the path itself when it is on none,
    carries a mark for files closed after writing, provided the kernel accepts that
    mark where it is asked to.  Only paths above a watched path are marked.  The mounts
    are the kernel's, as records, and the sensor reads the text the kernel makes of
    them, blanks in a path escaped; the mount points and the roots of the mounts
    are of printable ASCII without a backslash: of the other escapes the sensor decodes
    none. *)
Theorem watched_paths_marked entries canonicalize opened mark paths marks :
  Forall (fun e => plain_entry e = true) entries ->
  fanotify_start (Some (mountinfo entries)) canonicalize opened mark paths = Ret marks ->
  (forall p m, In p paths -> watched_through (map me_point entries) (default p (canonicalize p)) m -> mark m FAN_CLOSE_WRITE = true) ->
  (forall p, In p paths -> exists m mask, In (m, mask) marks /\ has_bit mask FAN_CLOSE_WRITE = true /\
     watched_through (map me_point entries) (default p (canonicalize p)) m) /\
  (forall m mask, In (m, mask) marks -> exists p, In p paths /\ path_starts_with (default p (canonicalize p)) m = true).
Proof.
  intros He. unfold fanotify_start, mounts_for. cbn [or_fail mbind outcome_mbind]. rewrite (mount_points_of entries He). set (mounts := sort_by _ _).
  assert (Hs : StronglySorted (fun a b => (str_len b <=? str_len a) = true) mounts)
    by (apply sort_by_sorted; [apply sort_len_total|apply sort_len_trans]).
  assert (Hperm : Permutation mounts (map me_point entries)) by (unfold mounts; apply sort_by_perm).
  unfold init_fanotify. intros H Hk. destruct opened; [|done]. cbn [negb] in H.
  destruct (mark_mounts _ _) as [l|e|] eqn:E; [|done..]. cbn [mbind outcome_mbind] in H. assert (l = marks) as -> by (by destruct l; [|injection H]). clear H.
  pose proof (mark_mounts_all _ _ _ E) as Hm. split.
  - intros p Hp. destruct (mounts_loop_covers canonicalize mounts paths Hs [] p Hp) as (m & Hin & Hw).
    apply (watched_through_perm _ _ _ _ Hperm) in Hw.
    destruct (mark_mount_close_write mark m (Hk p m Hp Hw)) as (mask & Ek & Hb). exists m, mask. split; [by apply Hm|done].
  - intros m mask [Hin _]%Hm. revert Hin. clearbody mounts. clear.
    assert (H : forall paths out, In m (foldl (mounts_loop canonicalize mounts) out paths) ->
      In m out \/ exists p, In p paths /\ path_starts_with (default p (canonicalize p)) m = true).
    { clear paths. induction paths as [|q paths IH]; intros out Hin; [by left|]. cbn [foldl] in Hin. apply IH in Hin as [Hin|(p & Hp & Hs)];
        [|right; exists p; split; [by right|done]]. unfold mounts_loop in Hin.
      destruct (List.find _ _) as [x|] eqn:Ef.
      - apply List.find_some in Ef as [_ Hx]. case_bool_decide; [by left|]. apply in_app_or in Hin as [Hin|[<-|[]]]; [by left|].
        right. exists q. split; [by left|done].
      - apply in_app_or in Hin as [Hin|[<-|[]]]; [by left|]. right. exists q. split; [by left|apply path_starts_refl]. }
    intros Hin. by apply H in Hin as [[]|Hin].
Qed.

Definition two_mounts : list MountEntry :=
  [mkMountEntry 22 1 8 1 "/" "/" "rw - ext4 /dev/sda1 rw"; mkMountEntry 41 22 8 17 "/" "/srv/my data" "rw shared:9 - ext4 /dev/sdb1 rw"]%string.

Example two_mounts_text : mountinfo two_mounts =
  "22 1 8:1 / / rw - ext4 /dev/sda1 rw" +:+ String "010" ("41 22 8:17 / /srv/my\040data rw shared:9 - ext4 /dev/sdb1 rw" +:+ String "010" "").
Proof. vm_compute. reflexivity. Qed.

(** A mount point with a tab is not found: its files are marked on the mount above. *)
Example escaped_tab_missed :
  mount_points (mountinfo [mkMountEntry 41 22 8 17 "/" (String "/" (String "a" (String "009" "b"))) "rw - ext4 /dev/sdb1 rw"]) = ["/a\011b"]%string.
Proof. vm_compute. reflexivity. Qed.

Lemma watched_paths_marked_witness :
  fanotify_start (Some (mountinfo two_mounts)) Some true (fun _ mask => mask =? FAN_CLOSE_WRITE) ["/srv/my data/in"; "/opt/./tools//"]%string =
    Ret [("/srv/my data", FAN_CLOSE_WRITE); ("/", FAN_CLOSE_WRITE)]%string /\
  exists m mask, In (m, mask) [("/srv/my data", FAN_CLOSE_WRITE); ("/", FAN_CLOSE_WRITE)]%string /\ has_bit mask FAN_CLOSE_WRITE = true /\
    watched_through ["/"; "/srv/my data"]%string "/opt/./tools//" m.
Proof.
  assert (E : fanotify_start (Some (mountinfo two_mounts)) Some true (fun _ mask => mask =? FAN_CLOSE_WRITE) ["/srv/my data/in"; "/opt/./tools//"]%string =
    Ret [("/srv/my data", FAN_CLOSE_WRITE); ("/", FAN_CLOSE_WRITE)]%string) by (vm_compute; reflexivity).
  assert (He : Forall (fun e => plain_entry e = true) two_mounts) by (repeat constructor).
  split; [exact E|]. destruct (watched_paths_marked _ _ _ _ _ _ He E) as [H _]; [done|]. by apply (H "/opt/./tools//"%string); right; left.
Defined.

(** A file outside the watched paths, on a mount marked for their sake, gets a
    candidate: the consumer compares events with the exclusions only. *)
Example unwatched_file_enqueued :
  let s := snd (sensor_run 2000 [] (SensorFile "/var/lib/corpus/spool/spool-1" priority.WRITTEN_OR_RENAMED "close_write") sample_db) in
  existsb (fun r : CandidateRow => String.eqb (cd_path r) "/var/lib/corpus/spool/spool-1") (db_candidates s) = true.
Proof. vm_compute. reflexivity. Qed.

(** ** rdcw.rs *)

(** Paths on Windows, by the standard library: joining a name to a directory, and
    the first component of a path. *)
Class WindowsPath : Type := { path_join : string -> string -> string; first_component : string -> option string }.

Definition ACTION_NAMES : list (Z * string) :=
  [(0x1, "added"); (0x2, "removed"); (0x3, "modified"); (0x4, "renamed_old"); (0x5, "renamed_new")]%string.

Definition action_name (action : Z) : string :=
  match List.find (fun '(a, _) => a =? action) ACTION_NAMES with Some (_, n) => n | None => "unknown"%string end.

(** One answer of [ReadDirectoryChangesW]: the text of the error, or the bytes
    it reports to have written. *)
Inductive ChangeRead : Type :=
  | ReadFailed (err : string)
  | ReadDone (buf : bytes).

Section windows.
  Context {WP : WindowsPath}.

(** The path of a record, when it is to be captured. *)
Definition change_path (root : string) (exclusions : list string) (rec : NotifyRecord) : option string :=
  let s := path_join root (nr_file_name rec) in
  if negb (nr_action rec =? 0x2) && negb (matches_exclusion exclusions s) then Some s else None.

Definition watch_record (root : string) (exclusions : list string) (debounce_ms : Z) (rec : NotifyRecord) : Op StateDb unit :=
  match change_path root exclusions rec with
  | Some s => _ ← attempt (enqueue s priority.WRITTEN_OR_RENAMED (action_name (nr_action rec)) debounce_ms); mret tt
  | None => mret tt
  end.

(** The text of an error, inserted as it is. *)
Definition overflow_detail (err : string) : string := "{" +:+ quote +:+ "error" +:+ quote +:+ ":" +:+ quote +:+ err +:+ quote +:+ "}".

(** A turn of [watch_root]: the seconds it then sleeps. *)
Definition watch_turn (root : string) (exclusions : list string) (debounce_ms : Z) (r : ChangeRead) : Op StateDb Z :=
  match r with
  | ReadFailed err =>
      _ ← attempt (AgentState.record_gap "rdcw" "SENSOR_OVERFLOW" None None (Some "NOTIFY_ENUM_DIR"%string) (overflow_detail err));
      _ ← attempt (increment_counter "SENSOR_OVERFLOW");
      mret 1
  | ReadDone [] => mret 0
  | ReadDone buf =>
      records ← lift_outcome (parse_notify_records buf);
      op_for records (watch_record root exclusions debounce_ms) ;;
      mret 0
  end.

(** One watcher per root; a root that does not open is left to the poll sensor. *)
Definition watch_root (opened : bool) (root : string) (exclusions : list string) (debounce_ms : Z) (reads : list ChangeRead) : Op StateDb unit :=
  if negb opened then mret tt else op_for reads (fun r => _ ← watch_turn root exclusions debounce_ms r; mret tt).

Definition rdcw_start (roots : list (string * bool * list ChangeRead)) (exclusions : list string) (debounce_ms : Z) : Op StateDb unit :=
  op_for roots (fun '(root, opened, reads) => watch_root opened root exclusions debounce_ms reads).

(** ** usn.rs: reading the journal *)

(** [trim_end_matches(':')] of the first component. *)
Definition volume_letter (root : string) : string :=
  match first_component root with Some c => trim_end (Ascii.eqb ":") c | None => "C" end.

(** [ioctl] is what [FSCTL_QUERY_USN_JOURNAL] wrote, if the volume opened and the
    call succeeded. *)
Definition query_journal (ioctl : option bytes) : outcome (option JournalInfo) :=
  match ioctl with Some out => parse_journal_data out | None => Ret None end.

Definition MAX_PAGES : nat := 32.

(** [read_page id usn]: what [FSCTL_READ_JOURNAL] wrote for that start. *)
Fixpoint read_pages (pages : nat) (read_page : Z -> Z -> option bytes) (journal_id next_usn : Z) (records : list UsnRecord) :
    outcome (option (Z * list UsnRecord)) :=
  match pages with
  | O => Ret (Some (next_usn, records))
  | S pages' =>
      match read_page journal_id next_usn with
      | None => Ret None
      | Some out =>
          if len out <=? 8 then Ret (Some (next_usn, records))
          else
            next ← le_i64 out 0;
            rest ← or_panic (slice out 8 (len out));
            page ← parse_usn_records rest;
            match page with
            | [] => Ret (Some (next, records))
            | _ => read_pages pages' read_page journal_id next (records ++ page)
            end
      end
  end.

Definition read_journal (opened : bool) (read_page : Z -> Z -> option bytes) (journal_id start_usn : Z) : outcome (option (Z * list UsnRecord)) :=
  if negb opened then Ret None else read_pages MAX_PAGES read_page journal_id start_usn [].

(** What the volume of a root answers: [None] is a volume that does not open. *)
Record Volume := mkVolume { vo_query : option bytes; vo_read : Z -> Z -> option bytes }.

Definition downtime (volumes : string -> option Volume) (root : string) : Op StateDb DowntimeStatus :=
  let letter := volume_letter root in
  info ← lift_outcome (query_journal (v ← volumes letter; vo_query v));
  check_downtime_changes letter info (fun id usn =>
    match read_journal (bool_decide (is_Some (volumes letter))) (match volumes letter with Some v => vo_read v | None => fun _ _ => None end) id usn with
    | Ret r => r
    | _ => None
    end).
End windows.

(** ** poll.rs and heartbeat.rs: the loops *)

(** A turn and the seconds slept after it; the first turn comes after one such
    sleep. *)
Definition poll_turn (entries : list WalkEntry) (exclusions : list string) (debounce_ms poll_interval_secs : Z) : Op StateDb Z :=
  _ ← attempt (reconcile_scan entries exclusions debounce_ms);
  mret (Z.max poll_interval_secs 1).

Definition heartbeat_turn {R} {CP : ControlPlane R} {CT : ChronoText} (version policy_digest : string) (meanwhile : Op (Agent R) unit)
    (heartbeat_interval_secs : Z) : Op (Agent R) Z :=
  _ ← attempt (send_once version policy_digest meanwhile);
  mret (Z.max heartbeat_interval_secs 2).

(** *** The journal is read a page at a time *)


(** A journal that answers from [start]: pages of records, each with where the
    next begins, and then only where it stands. *)
Definition page_bytes (next : Z) (ws : list Wire) : bytes := to_le 8 next ++ flat_map encode_wire ws.

Fixpoint serves (read_page : Z -> Z -> option bytes) (journal_id start : Z) (pages : list (Z * list Wire)) : Prop :=
  match pages with
  | [] => exists out, read_page journal_id start = Some out /\ len out <= 8
  | (next, ws) :: rest =>
      read_page journal_id start = Some (page_bytes next ws) /\ - 2 ^ 63 <= next < 2 ^ 63 /\ ws <> [] /\ Forall wire_ok ws /\
      serves read_page journal_id next rest
  end.

Definition stands_at (start : Z) (pages : list (Z * list Wire)) : Z := foldl (fun _ p => fst p) start pages.

Definition records_of (pages : list (Z * list Wire)) : list UsnRecord := flat_map (fun p => map wire_record (snd p)) pages.

Lemma page_len next ws : len (page_bytes next ws) = 8 + len (flat_map encode_wire ws).
Proof. unfold page_bytes. rewrite len_app. f_equal. Qed.

Lemma parse_wires ws : Forall wire_ok ws -> parse_usn_records (flat_map encode_wire ws) = Ret (map wire_record ws).
Proof. intros Hw. pose proof (parse_usn_roundtrip ws [] Hw ltac:(done)) as H. by rewrite app_nil_r in H. Qed.

Lemma read_pages_serves read_page id : forall pages n start records, serves read_page id start pages ->
  read_pages n read_page id start records = Ret (Some (stands_at start (take n pages), records ++ records_of (take n pages))).
Proof.
  induction pages as [|[next ws] pages IH]; intros n start records H.
  - rewrite take_nil. cbn [stands_at foldl records_of flat_map]. rewrite app_nil_r. destruct n as [|n]; [done|]. destruct H as (out & E & Hl).
    cbn [read_pages]. rewrite E. by rewrite (proj2 (Z.leb_le _ _)).
  - destruct n as [|n]; [cbn; by rewrite app_nil_r|]. destruct H as (E & Hn & Hne & Hw & Hrest). cbn [read_pages]. rewrite E.
    assert (Hp : 0 < len (flat_map encode_wire ws)).
    { destruct ws as [|w ws]; [done|]. inversion Hw as [|? ? Hw1 _]; subst. cbn [flat_map]. rewrite len_app, encode_wire_len by done.
      pose proof (len_nonneg (flat_map encode_wire ws)). pose proof (len_nonneg (w_units w)). pose proof (len_nonneg (w_pad w)). unfold wire_len. lia. }
    rewrite page_len, (proj2 (Z.leb_gt _ _)) by lia. unfold page_bytes. rewrite le_i64_here by done. cbn [mbind outcome_mbind].
    assert (Hs : slice (to_le 8 next ++ flat_map encode_wire ws) 8 (8 + len (flat_map encode_wire ws)) = Some (flat_map encode_wire ws)).
    { rewrite slice_skip by done. change (len (to_le 8 next)) with 8. replace (8 + _ - 8) with (len (flat_map encode_wire ws)) by lia.
      rewrite <- (app_nil_r (flat_map encode_wire ws)) at 1. by apply slice_here. }
    rewrite Hs. cbn [or_panic mbind outcome_mbind]. rewrite parse_wires by done. cbn [mbind outcome_mbind].
    destruct (map wire_record ws) as [|r rs] eqn:Em; [by destruct ws|]. rewrite <- Em. rewrite (IH n next) by done.
    cbn [take stands_at foldl records_of flat_map fst snd]. by rewrite app_assoc.
Qed.

Lemma serves_drop read_page id pages n : forall start, serves read_page id start pages -> serves read_page id (stands_at start (take n pages)) (drop n pages).
Proof.
  revert n. induction pages as [|[next ws] pages IH]; intros n start H; [by destruct n|]. destruct n as [|n]; [done|].
  destruct H as (_ & _ & _ & _ & H). cbn [take drop stands_at foldl fst]. by apply IH.
Qed.

(** Reading never panics, whatever the pages hold. *)
Lemma read_pages_total n read_page id : forall start records, exists r, read_pages n read_page id start records = Ret r.
Proof.
  induction n as [|n IH]; intros start records; [by eexists|]. cbn [read_pages]. destruct (read_page id start) as [out|]; [|by eexists].
  destruct (Z.leb_spec (len out) 8); [by eexists|]. destruct (le_i64_ret out 0) as (z & ->); [lia..|]. cbn [mbind outcome_mbind].
  destruct (slice_is_some out 8 (len out)) as (k & -> & _); [lia..|]. cbn [or_panic mbind outcome_mbind].
  destruct (parse_usn_total k) as (r & -> & _). cbn [mbind outcome_mbind]. destruct r; [by eexists|apply IH].
Qed.

(** What changed on a volume while the agent was down is read in order, none of
    it twice and none of it skipped: one reading gives the records of the first 32
    pages after the cursor and leaves the cursor where the next page begins, and a
    later reading from that cursor gives the pages that follow.  A buffer of any
    content is read without a panic. *)
Theorem journal_read_in_order read_page id start pages :
  serves read_page id start pages ->
  let first := take MAX_PAGES pages in
  let cursor := stands_at start first in
  read_journal true read_page id start = Ret (Some (cursor, records_of first)) /\
  read_journal true read_page id cursor = Ret (Some (stands_at cursor (take MAX_PAGES (drop MAX_PAGES pages)), records_of (take MAX_PAGES (drop MAX_PAGES pages)))) /\
  (records_of first = [] <-> pages = []) /\
  forall any start', exists r, read_journal true any id start' = Ret r.
Proof.
  intros H first cursor. unfold read_journal. cbn [negb]. rewrite (read_pages_serves read_page id pages MAX_PAGES start [] H).
  rewrite (read_pages_serves read_page id _ MAX_PAGES cursor [] (serves_drop _ _ _ _ _ H)). split; [done|]. split; [done|].
  split; [|intros any start'; apply read_pages_total]. split; [|by intros ->]. subst first. destruct pages as [|[next ws] pages]; [done|].
  destruct H as (_ & _ & Hne & _). cbn. by destruct ws.
Qed.

(** Two pages of one record, then the head. *)
Definition two_pages (id usn : Z) : option bytes :=
  if usn =? 100 then Some (page_bytes 200 [sample_wire]) else if usn =? 200 then Some (page_bytes 300 [sample_wire]) else Some (to_le 8 300).

Lemma journal_read_in_order_witness :
  serves two_pages 7 100 [(200, [sample_wire]); (300, [sample_wire])] /\
  read_journal true two_pages 7 100 = Ret (Some (300, [wire_record sample_wire; wire_record sample_wire])) /\
  read_journal true two_pages 7 300 = Ret (Some (300, [])).
Proof.
  assert (H : serves two_pages 7 100 [(200, [sample_wire]); (300, [sample_wire])]).
  { assert (Hw : Forall wire_ok [sample_wire]) by (constructor; [exact sample_wire_ok|constructor]).
    split; [reflexivity|]. split; [split; vm_compute; congruence|]. split; [done|]. split; [exact Hw|].
    split; [reflexivity|]. split; [split; vm_compute; congruence|]. split; [done|]. split; [exact Hw|]. exists (to_le 8 300). split; [reflexivity|vm_compute; congruence]. }
  split; [exact H|]. destruct (journal_read_in_order two_pages 7 100 _ H) as (H1 & H2 & _). split; [exact H1|exact H2].
Defined.

(** *** The records of one answer *)

Section changes.
  Context {WP : WindowsPath}.

Lemma watch_records_run root exclusions ms l : forall s, exists s', op_for l (watch_record root exclusions ms) s = (Ret tt, s') /\
  (forall path, has_active path s -> has_active path s') /\
  (forall rec path, In rec l -> change_path root exclusions rec = Some path -> has_active path s').
Proof.
  induction l as [|rec l IH]; intros s; [by exists s|].
  assert (H : exists s1, watch_record root exclusions ms rec s = (Ret tt, s1) /\ (forall path, has_active path s -> has_active path s1) /\
    (forall path, change_path root exclusions rec = Some path -> has_active path s1)).
  { unfold watch_record. destruct (change_path root exclusions rec) as [p|]; [|exists s; by split; [|split]].
    destruct (enqueue_run p priority.WRITTEN_OR_RENAMED (action_name (nr_action rec)) ms s) as (o & s1 & E & Hr & _). exists s1.
    split; [unfold mbind, op_mbind, attempt; by rewrite E|]. split; [|by intros path [= <-]].
    intros path Hp. pose proof (has_active_enqueue path p priority.WRITTEN_OR_RENAMED (action_name (nr_action rec)) ms s Hp) as Hk. by rewrite E in Hk. }
  destruct H as (s1 & E1 & Hk1 & Hp1). destruct (IH s1) as (s' & E & Hk & Hp). exists s'. cbn [op_for]. rewrite (bind_run _ _ _ _ _ E1).
  split; [exact E|]. split; [auto|]. intros r path [<-|Hin] Hr; [by apply Hk, Hp1|by eapply Hp].
Qed.

(** What a full answer of the kernel does: the path of every change that is not a
    removal and not excluded has a candidate. *)
Lemma watch_turn_observes root exclusions ms buf s : exists records s', parse_notify_records buf = Ret records /\
  watch_turn root exclusions ms (ReadDone buf) s = (Ret 0, s') /\
  (forall rec path, In rec records -> change_path root exclusions rec = Some path -> has_active path s').
Proof.
  destruct (parse_notify_total buf) as (records & E & _). destruct (watch_records_run root exclusions ms records s) as (s' & E' & _ & Hp).
  exists records. destruct buf as [|b buf]; [exists s; by injection E as <-|]. exists s'. split; [done|]. split; [|exact Hp].
  cbn [watch_turn]. rewrite (bind_run (lift_outcome _) _ s records s) by (unfold lift_outcome; by rewrite E). by rewrite (bind_run _ _ _ _ _ E').
Qed.

(** The kernel reports an overflow of its buffer as a successful call that wrote
    nothing: no gap, no counter, no sign of it. *)
Lemma overflow_unseen root exclusions ms s : watch_turn root exclusions ms (ReadDone []) s = (Ret 0, s).
Proof. done. Qed.
End changes.
