(* ===== verification/AgentStart.v ===== *)
(** * Start-up of the agent ([corpus-agent/src/main.rs], [config.rs],
    [spool_crypto.rs], [win32_dpapi.rs])

    The configuration file, the key of the spool, the identity of the boot, and
    [run]: enrollment, the choice of the sensors, and the loops it starts. *)

From S2P Require Import Prelude Machine Text Decimal Hash Cas Schema Scan Access Report AgentState Spool Sensors Capture AgentLoop Startup Sources.
From Stdlib Require Import Strings.Byte Strings.Ascii.

Open Scope Z_scope.

(** ** config.rs *)

(** serde_yaml: a document or why it does not parse; a mapping's entries; a
    scalar read as a text, an unsigned integer of 64 bits or a truth value; whether
    it is null; a sequence's items; and the text of the two parts of the
    configuration that are written back. *)
Record WatchConfig := mkWatchConfig { wc_paths : list string; wc_poll_interval_secs : Z; wc_debounce_ms : Z; wc_exclusions : list string }.

Record LimitsConfig := mkLimitsConfig {
  lc_max_artifact_bytes : Z; lc_max_spool_bytes : Z; lc_max_concurrent_reads : Z; lc_stable_read_retries : Z; lc_max_attempts : Z }.

Class Yaml : Type := {
  Node : Type;
  yaml_parse : string -> string + Node;
  yaml_entries : Node -> option (list (string * Node));
  yaml_text : Node -> option string;
  yaml_u64 : Node -> option Z;
  yaml_bool : Node -> option bool;
  yaml_null : Node -> bool;
  yaml_items : Node -> option (list Node);
  yaml_limits : LimitsConfig -> option string;
  yaml_watch : WatchConfig -> option string }.

Record Config := mkConfig {
  cf_agent : AgentConfig; cf_state_dir : string; cf_spool_dir : string; cf_watch : WatchConfig; cf_baseline_enabled : bool;
  cf_limits : LimitsConfig; cf_heartbeat_interval_secs : Z }.

Definition default_heartbeat_interval : Z := 30.
Definition default_poll_interval : Z := 60.
Definition default_debounce_ms : Z := 2000.
Definition default_true : bool := true.
Definition default_max_artifact_bytes : Z := 268435456.
Definition default_max_spool_bytes : Z := 4294967296.
Definition default_max_concurrent_reads : Z := 2.
Definition default_stable_read_retries : Z := 3.
Definition default_max_attempts : Z := 8.

Definition default_watch : WatchConfig := mkWatchConfig [] default_poll_interval default_debounce_ms [].
Definition default_limits : LimitsConfig :=
  mkLimitsConfig default_max_artifact_bytes default_max_spool_bytes default_max_concurrent_reads default_stable_read_retries default_max_attempts.

Section config.
  Context {YM : Yaml} {SHA : Sha256} {HEX : HexCodec}.

(** The value of a field, if it is given; given twice it is an error. *)
Definition field (k : string) (l : list (string * Node)) : option (option Node) :=
  match List.filter (fun kv => String.eqb (fst kv) k) l with
  | [] => Some None
  | [(_, v)] => Some (Some v)
  | _ => None
  end.

Definition required {A} (read : Node -> option A) (k : string) (l : list (string * Node)) : option A := f ← field k l; v ← f; read v.

(** [#[serde(default)]] *)
Definition defaulted {A} (read : Node -> option A) (d : A) (k : string) (l : list (string * Node)) : option A :=
  f ← field k l;
  match f with None => Some d | Some v => read v end.

Definition read_option {A} (read : Node -> option A) (v : Node) : option (option A) := if yaml_null v then Some None else Some <$> read v.

Definition read_list {A} (read : Node -> option A) (v : Node) : option (list A) := items ← yaml_items v; mapM read items.

Definition read_u32 (v : Node) : option Z := z ← yaml_u64 v; if z <? 2 ^ 32 then Some z else None.

Definition read_watch (v : Node) : option WatchConfig :=
  l ← yaml_entries v;
  paths ← defaulted (read_list yaml_text) [] "paths" l;
  poll ← defaulted yaml_u64 default_poll_interval "poll_interval_secs" l;
  debounce ← defaulted yaml_u64 default_debounce_ms "debounce_ms" l;
  exclusions ← defaulted (read_list yaml_text) [] "exclusions" l;
  Some (mkWatchConfig paths poll debounce exclusions).

Definition read_baseline (v : Node) : option bool := l ← yaml_entries v; defaulted yaml_bool default_true "enabled" l.

Definition read_limits (v : Node) : option LimitsConfig :=
  l ← yaml_entries v;
  artifact ← defaulted yaml_u64 default_max_artifact_bytes "max_artifact_bytes" l;
  spool ← defaulted yaml_u64 default_max_spool_bytes "max_spool_bytes" l;
  reads ← defaulted yaml_u64 default_max_concurrent_reads "max_concurrent_reads" l;
  retries ← defaulted read_u32 default_stable_read_retries "stable_read_retries" l;
  attempts ← defaulted read_u32 default_max_attempts "max_attempts" l;
  Some (mkLimitsConfig artifact spool reads retries attempts).

Definition read_config (v : Node) : option Config :=
  l ← yaml_entries v;
  server_url ← required yaml_text "server_url" l;
  agent_url ← defaulted (read_option yaml_text) None "agent_url" l;
  token ← defaulted (read_option yaml_text) None "enrollment_token" l;
  host ← defaulted (read_option yaml_text) None "host_name" l;
  state_dir ← required yaml_text "state_dir" l;
  spool_dir ← required yaml_text "spool_dir" l;
  watch ← defaulted read_watch default_watch "watch" l;
  baseline ← defaulted read_baseline default_true "baseline" l;
  limits ← defaulted read_limits default_limits "limits" l;
  heartbeat ← defaulted yaml_u64 default_heartbeat_interval "heartbeat_interval_secs" l;
  Some (mkConfig (mkAgentConfig server_url agent_url token host) state_dir spool_dir watch baseline limits heartbeat).

(** [text]: the content of the file, when it can be read. *)
Definition load (path : string) (text : option string) : outcome Config :=
  text ← or_fail (Io ("reading " +:+ path)) text;
  match yaml_parse text with
  | inl e => Fail (BadRequest ("parsing " +:+ path))
  | inr v => or_fail (BadRequest ("parsing " +:+ path)) (read_config v)
  end.

Definition policy_digest (cfg : Config) : string :=
  let canonical := default ""%string (yaml_limits (cf_limits cfg)) +:+ default ""%string (yaml_watch (cf_watch cfg)) in
  sha256_hex (str_bytes canonical).

(** The names a configuration may use. *)
Definition known_fields : list string :=
  ["server_url"; "agent_url"; "enrollment_token"; "host_name"; "state_dir"; "spool_dir"; "watch"; "baseline"; "limits"; "heartbeat_interval_secs"]%string.

Lemma field_unknown k x v l : k <> x -> field k ((x, v) :: l) = field k l.
Proof. intros H. unfold field. cbn [List.filter fst]. by rewrite (proj2 (String.eqb_neq x k)) by congruence. Qed.

(** A name it does not know is passed over, as if the line were not there. *)
Lemma unknown_field_ignored v v' x y l : yaml_entries v = Some ((x, y) :: l) -> yaml_entries v' = Some l -> ~ In x known_fields ->
  read_config v = read_config v'.
Proof.
  intros H H' Hx. unfold read_config. rewrite H, H'. cbn [mbind option_bind]. unfold required, defaulted.
  assert (Hf : forall k, In k known_fields -> field k ((x, y) :: l) = field k l) by (intros k Hk; apply field_unknown; intros ->; done).
  rewrite !Hf by (cbn; tauto). done.
Qed.

(** A configuration of the three required lines has the default policy. *)
Lemma minimal_config v server state spool : yaml_entries v = Some [("server_url", server); ("state_dir", state); ("spool_dir", spool)]%string ->
  read_config v = (u ← yaml_text server; st ← yaml_text state; sp ← yaml_text spool;
    Some (mkConfig (mkAgentConfig u None None None) st sp default_watch true default_limits 30)).
Proof.
  intros H. unfold read_config. rewrite H. cbn [mbind option_bind]. unfold required, defaulted, field.
  cbn -[default_watch default_limits]. done.
Qed.
End config.

(** ** The key of the spool ([spool_crypto.rs], [win32_dpapi.rs]) *)

Inductive Platform : Type := Linux | MacOS | Windows.

Global Instance platform_eq_dec : EqDecision Platform.
Proof. solve_decision. Defined.

(** What becomes of a write. *)
Inductive Written : Type := Whole | Nothing | Torn (n : nat).

(** Where the key rests: a file (wrapped by the system on Windows) or a keychain's
    item, whether it can be read now, what becomes of the next write, and the
    random keys drawn. *)
Record KeyHost := mkKeyHost { kh_stored : option bytes; kh_readable : bool; kh_write : Written; kh_random : nat -> bytes; kh_drawn : nat }.

(** [CryptProtectData] and [CryptUnprotectData]. *)
Class Dpapi : Type := { protect : bytes -> option bytes; unprotect : bytes -> option bytes }.

Definition draw_key : Op KeyHost bytes := fun h =>
  (Ret (kh_random h (kh_drawn h)), mkKeyHost (kh_stored h) (kh_readable h) (kh_write h) (kh_random h) (S (kh_drawn h))).

Definition store_key (b : bytes) : Op KeyHost unit := fun h =>
  match kh_write h with
  | Whole => (Ret tt, mkKeyHost (Some b) (kh_readable h) (kh_write h) (kh_random h) (kh_drawn h))
  | Nothing => (Fail (Io "storing spool key"), h)
  | Torn n => (Fail (Io "storing spool key"), mkKeyHost (Some (take n b)) (kh_readable h) (kh_write h) (kh_random h) (kh_drawn h))
  end.

(** The stored bytes; a read that fails is like no key at all. *)
Definition stored_key : Op KeyHost (option bytes) := gets (fun h => if kh_readable h then kh_stored h else None).

Definition corrupt_key : Error := BadRequest "corrupt spool key".

(** [try_into] an array of 32 bytes. *)
Definition key_array (b : bytes) : outcome bytes := if len b =? 32 then Ret b else Fail corrupt_key.

Section key.
  Context {DP : Dpapi}.

Definition load_or_create_key_bytes (p : Platform) : Op KeyHost bytes :=
  existing ← stored_key;
  match existing with
  | Some b =>
      if decide (p = Windows) then
        raw ← or_throw (BadRequest "unwrapping spool key") (unprotect b);
        lift_outcome (key_array raw)
      else lift_outcome (key_array b)
  | None =>
      key ← draw_key;
      if decide (p = Windows) then
        blob ← or_throw (BadRequest "CryptProtectData failed") (protect key);
        store_key blob ;;
        mret key
      else store_key key ;; mret key
  end.
End key.

(** The cipher of a key: chacha20poly1305. *)
Class ChaCha : Type := cipher_of : bytes -> SpoolCipher.

Definition load_or_create {DP : Dpapi} {CC : ChaCha} (p : Platform) : Op KeyHost SpoolCipher :=
  key ← load_or_create_key_bytes p;
  mret (cipher_of key).

(** ** The identity of the boot *)

(** [Uuid::new_v5] in the namespace of object identifiers. *)
Class UuidV5Oid : Type := uuid_v5_oid : string -> Uuid.

(** What the system says of its boot: the text of [/proc/sys/kernel/random/boot_id],
    the seconds and microseconds of [kern.boottime], or the milliseconds now and
    since the boot. *)
Inductive BootSource : Type :=
  | LinuxBoot (boot_id : option string)
  | MacBoot (boottime : option (Z * Z))
  | WindowsBoot (now_ms uptime_ms : Z).

(** [fresh]: a random identifier. *)
Definition os_boot_id {UD : UuidDisplay} {V5 : UuidV5Oid} (b : BootSource) (fresh : Uuid) : string :=
  match b with
  | LinuxBoot (Some s) => str_trim s
  | LinuxBoot None => uuid_to_string fresh
  | MacBoot (Some (sec, usec)) => uuid_to_string (uuid_v5_oid ("corpus-boot:" +:+ show_Z sec +:+ ":" +:+ show_Z usec))
  | MacBoot None => uuid_to_string fresh
  | WindowsBoot now_ms uptime_ms => uuid_to_string (uuid_v5_oid ("corpus-boot:" +:+ show_Z (Z.quot (now_ms - uptime_ms) 1000)))
  end.

(** [hostname()]: the system's name when it is text. *)
Definition hostname (name : option string) : string := default "unknown-host"%string name.

(** ** run *)

(** What [run] leaves running. *)
Inductive Task : Type :=
  | FanotifyReader (marks : list (string * Z))
  | DirectoryWatchers (roots : list string)
  | DowntimeReconcile
  | Baseline
  | Heartbeats
  | GapFlusher
  | PollSensor
  | Workers.

(** The process: its database, spool and server, the key's place, and the tasks
    started. *)
Record Process (R : Type) := mkProcess { pr_agent : Agent R; pr_key : KeyHost; pr_tasks : list Task }.
Arguments mkProcess {R}. Arguments pr_agent {R}. Arguments pr_key {R}. Arguments pr_tasks {R}.

Section run.
  Context {R : Type} {CP : ControlPlane R} {UD : UuidDisplay} {UP : UuidParse} {V5 : UuidV5Oid} {DP : Dpapi} {CC : ChaCha} {WP : WindowsPath}.

Definition in_agent {A} (m : Op (Agent R) A) : Op (Process R) A := fun p =>
  let '(o, a) := m (pr_agent p) in (o, mkProcess a (pr_key p) (pr_tasks p)).
Definition in_key {A} (m : Op KeyHost A) : Op (Process R) A := fun p =>
  let '(o, k) := m (pr_key p) in (o, mkProcess (pr_agent p) k (pr_tasks p)).
Definition spawn (t : Task) : Op (Process R) unit := modify (fun p => mkProcess (pr_agent p) (pr_key p) (pr_tasks p ++ [t])).

(** What the system gives the process when it starts. *)
Record Machine := mkMachine {
  mc_platform : Platform; mc_host_name : option string; mc_boot : BootSource; mc_fresh_boot : Uuid; mc_fresh_id : Uuid;
  mc_dirs : outcome unit;  (** the directories of state and spool *)
  mc_fanotify : outcome (list (string * Z));  (** [FanotifySensor::start] *)
  mc_volumes : string -> option Volume }.

(** [AgentRuntime], with the address and material of its uploader. *)
Record Runtime := mkRuntime {
  ru_uploader : string * (string * string * string); ru_agent_id : Uuid; ru_boot_id : Uuid; ru_host_name : string; ru_cipher : SpoolCipher }.

Definition needs_reconcile (st : DowntimeStatus) : bool := match st with Changes | ReconcileRequired => true | NoChanges | Unavailable => false end.

Definition start_sensors (mc : Machine) (cfg : Config) : Op (Process R) unit :=
  match mc_platform mc with
  | Linux =>
      match mc_fanotify mc with
      | Ret marks => spawn (FanotifyReader marks) ;; in_agent (with_db (set_identity "sensor" "fanotify"))
      | _ => in_agent (with_db (set_identity "sensor" "poll_reconcile"))
      end
  | MacOS => in_agent (with_db (set_identity "sensor" "poll_reconcile"))
  | Windows =>
      spawn (DirectoryWatchers (wc_paths (cf_watch cfg))) ;;
      in_agent (with_db (set_identity "sensor" "rdcw_user_mode")) ;;
      needed ← op_fold (wc_paths (cf_watch cfg)) false (fun needed root =>
        st ← in_agent (with_db (downtime (mc_volumes mc) root));
        mret (needed || needs_reconcile st));
      if (needed : bool) then spawn DowntimeReconcile else mret tt
  end.

Definition agent_run (mc : Machine) (version : string) (cfg : Config) : Op (Process R) Runtime :=
  lift_outcome (mc_dirs mc) ;;
  identity ← in_agent (ensure_identity (cf_agent cfg) (hostname (mc_host_name mc)) version);
  let host_name := default (hostname (mc_host_name mc)) (ac_host_name (cf_agent cfg)) in
  let boot_id_str := os_boot_id (mc_boot mc) (mc_fresh_boot mc) in
  _ ← in_agent (with_db (refresh_boot_identity boot_id_str));
  let boot_id := default (mc_fresh_id mc) (uuid_parse boot_id_str) in
  uploader ← in_agent (mtls_uploader (cf_agent cfg));
  cipher ← in_key (load_or_create (mc_platform mc));
  start_sensors mc cfg ;;
  (if cf_baseline_enabled cfg then in_agent (with_db (set_identity "baseline_state" "running")) ;; spawn Baseline else mret tt) ;;
  spawn Heartbeats ;;
  spawn GapFlusher ;;
  spawn PollSensor ;;
  spawn Workers ;;
  mret (mkRuntime uploader (fst identity) boot_id host_name cipher).

(** *** status *)

Definition status : Op StateDb (list (string * string)) :=
  agent_id ← get_identity "agent_id";
  sensor ← get_identity "sensor";
  baseline ← get_identity "baseline_state";
  depth ← queue_depth;
  gaps ← pending_gaps 1000;
  sequence ← get_identity agent_sequence;
  mret [("agent_id", default "not enrolled" agent_id); ("sensor", default "unknown" sensor); ("baseline_state", default "unknown" baseline);
        ("queue_depth", show_Z depth); ("pending_gaps", show_Z (len gaps)); ("sequence", default "0" sequence)]%string.
End run.
Arguments Machine : clear implicits.

(** *** The key stays the same *)

Class DpapiLaws `{Dpapi} : Prop := unprotect_protect : forall b c, protect b = Some c -> unprotect c = Some b.

(** The random generator gives 32 bytes. *)
Definition random_keys (h : KeyHost) : Prop := forall n, len (kh_random h n) = 32.

Section key_laws.
  Context {DP : Dpapi} {DL : DpapiLaws}.

(** What is stored reads as this key. *)
Definition key_at (p : Platform) (stored : option bytes) (key : bytes) : Prop :=
  exists b, stored = Some b /\ len key = 32 /\ (if decide (p = Windows) then unprotect b = Some key else b = key).

Lemma load_key_at p h key : key_at p (kh_stored h) key -> kh_readable h = true -> load_or_create_key_bytes p h = (Ret key, h).
Proof.
  intros (b & Hb & Hl & Hk) Hr. unfold load_or_create_key_bytes. erewrite bind_run; [|reflexivity]. cbn beta. rewrite Hr, Hb.
  destruct (decide (p = Windows)).
  - rewrite Hk. cbn [or_throw]. erewrite bind_run; [|reflexivity]. unfold lift_outcome, key_array. by rewrite (proj2 (Z.eqb_eq _ _)).
  - subst b. unfold lift_outcome, key_array. by rewrite (proj2 (Z.eqb_eq _ _)).
Qed.

Lemma load_key_ret p h key h' : random_keys h -> load_or_create_key_bytes p h = (Ret key, h') -> key_at p (kh_stored h') key.
Proof.
  intros Hrand. unfold load_or_create_key_bytes. intros (o & h0 & [= <- <-] & E)%bind_ret.
  destruct (if kh_readable h then kh_stored h else None) as [b|] eqn:Es.
  - assert (Hs : kh_stored h = Some b) by (by destruct (kh_readable h)). exists b. destruct (decide (p = Windows)).
    + apply bind_ret in E as (raw & h1 & E1 & E). unfold or_throw in E1. destruct (unprotect b) as [r|] eqn:Eu; [|discriminate E1].
      injection E1 as <- <-. unfold lift_outcome, key_array in E. destruct (Z.eqb_spec (len r) 32); [|discriminate E]. by injection E as <- <-.
    + unfold lift_outcome, key_array in E. destruct (Z.eqb_spec (len b) 32); [|discriminate E]. by injection E as <- <-.
  - apply bind_ret in E as (k & h1 & [= <- <-] & E). destruct (decide (p = Windows)) as [->|Hp].
    + apply bind_ret in E as (blob & h2 & E2 & E). unfold or_throw in E2. destruct (protect _) as [c|] eqn:Ep; [|discriminate E2]. injection E2 as <- <-.
      apply bind_ret in E as ([] & h3 & E3 & [= <- <-]). unfold store_key in E3. cbn [kh_write] in E3. destruct (kh_write h); [|discriminate E3..].
      injection E3 as <-. exists c. split; [done|]. split; [apply Hrand|]. rewrite decide_True by done. by apply unprotect_protect in Ep.
    + apply bind_ret in E as ([] & h3 & E3 & [= <- <-]). unfold store_key in E3. cbn [kh_write] in E3. destruct (kh_write h); [|discriminate E3..].
      injection E3 as <-. eexists. split; [reflexivity|]. split; [apply Hrand|]. by rewrite decide_False.
Qed.
End key_laws.

(** A write cut short leaves a key that is refused ever after, and a key that cannot
    be read is written over. *)
Example torn_key_refused {DP : Dpapi} (random : nat -> bytes) :
  (forall n, len (random n) = 32) ->
  let torn := snd (load_or_create_key_bytes Linux (mkKeyHost None true (Torn 7) random 0)) in
  fst (load_or_create_key_bytes Linux torn) = Fail corrupt_key.
Proof.
  intros Hr. cbn. unfold load_or_create_key_bytes. erewrite bind_run; [|reflexivity]. cbn [kh_readable kh_stored]. 
  change (fst (lift_outcome (key_array (take 7 (random 0%nat))) (mkKeyHost (Some (take 7 (random 0%nat))) true (Torn 7) random 1)) = Fail corrupt_key).
  unfold lift_outcome, key_array. specialize (Hr 0%nat). unfold len in *. rewrite length_take. rewrite (proj2 (Z.eqb_neq _ _)) by lia. done.
Qed.

Example unreadable_key_replaced {DP : Dpapi} (random : nat -> bytes) (old : bytes) :
  load_or_create_key_bytes Linux (mkKeyHost (Some old) false Whole random 0) =
  (Ret (random 0%nat), mkKeyHost (Some (random 0%nat)) false Whole random 1).
Proof. reflexivity. Qed.

(** *** The identity stays the same *)

(** A name that is not in a list of literal names. *)
Ltac not_named := let H := fresh in intros H; by repeat (destruct H as [H|H]; [discriminate H|]).

Definition kept_keys : list string := identity_keys ++ ["boot_id"%string; agent_sequence].

Definition kept (db : StateDb) : list (option string) := map (fun k => db_identity db !! k) kept_keys.
Definition material (db : StateDb) : list (option string) := map (fun k => db_identity db !! k) identity_keys.

Lemma kept_insert key v m : ~ In key kept_keys -> map (fun k => <[key := v]> m !! k) kept_keys = map (fun k => (m : gmap string string) !! k) kept_keys.
Proof. intros H. apply map_ext_in. intros k Hk. apply lookup_insert_ne. by intros ->. Qed.

Lemma kept_set_identity key v : ~ In key kept_keys -> frames kept (set_identity key v).
Proof. intros H s. unfold kept, set_identity, modify. cbn [snd db_identity set_identity_map]. by apply kept_insert. Qed.

Lemma usn_not_kept volume : ~ In (usn_id_key volume) kept_keys /\ ~ In (usn_next_key volume) kept_keys.
Proof. split; not_named. Qed.

Lemma kept_with_cursor volume j n s : kept (with_cursor volume j n s) = kept s.
Proof.
  destruct (usn_not_kept volume) as [H1 H2]. unfold kept, with_cursor, set_usn_cursor, set_identity_many, modify.
  cbn [snd db_identity set_identity_map foldl fst]. by rewrite !kept_insert.
Qed.

Lemma journal_data_total buf : exists r, parse_journal_data buf = Ret r.
Proof.
  unfold parse_journal_data. destruct (Z.ltb_spec (len buf) 24); [by eexists|].
  destruct (le_u_ret buf 0 8) as (a & -> & _); [lia..|]. destruct (le_i64_ret buf 8) as (b & ->); [lia..|].
  destruct (le_i64_ret buf 16) as (c & ->); [lia..|]. by eexists.
Qed.

Lemma downtime_run {WP : WindowsPath} volumes root s : exists st s', downtime volumes root s = (Ret st, s') /\ kept s' = kept s.
Proof.
  unfold downtime. cbv zeta.
  assert (Hq : exists r, query_journal (v ← volumes (volume_letter root); vo_query v) = Ret r).
  { unfold query_journal. destruct (v ← volumes (volume_letter root); vo_query v); [apply journal_data_total|by eexists]. }
  destruct Hq as [r Hq]. rewrite (bind_run (lift_outcome _) _ s r s) by (unfold lift_outcome; by rewrite Hq). destruct r as [info|]; [|by do 2 eexists].
  rewrite check_downtime_run. destruct (plan_resume _ info) as [j n|j u|j n].
  - do 2 eexists. split; [reflexivity|apply kept_with_cursor].
  - destruct (_ <=? u); [by do 2 eexists|]. match goal with |- context [match ?x with Some _ => _ | None => (Ret Unavailable, _) end] => destruct x as [[n recs]|] end;
      [|by do 2 eexists]. do 2 eexists. split; [reflexivity|apply kept_with_cursor].
  - do 2 eexists. split; [reflexivity|apply kept_with_cursor].
Qed.

Section restart.
  Context {R : Type} {CP : ControlPlane R} {UD : UuidDisplay} {UP : UuidParse} {V5 : UuidV5Oid} {DP : Dpapi} {CC : ChaCha} {WP : WindowsPath}.
  Context {DL : DpapiLaws} (uuid_reads : forall u, uuid_parse (uuid_to_string u) = Some u).

Definition db_of (p : Process R) : StateDb := ag_db (pr_agent p).

(** The process with another database, after [n] more of its steps. *)
Definition moved (db : StateDb) (n : nat) (p : Process R) : Process R :=
  mkProcess (mkAgent db (ag_spool (pr_agent p)) (ag_remote (pr_agent p)) n) (pr_key p) (pr_tasks p).

Lemma db_step {A B} (m : Op StateDb A) (f : A -> Op (Process R) B) p a db' n : ag_steps (pr_agent p) = S n -> m (db_of p) = (Ret a, db') ->
  (in_agent (with_db m) ≫= f) p = f a (moved db' n p).
Proof.
  intros Hn E. unfold mbind, op_mbind, in_agent, with_db. rewrite Hn. unfold db_of in E. by rewrite E.
Qed.

(** The journal is asked for every root; that moves cursors only. *)
Lemma downtimes_run mc roots : forall b q, (length roots <= ag_steps (pr_agent q))%nat -> exists b' q', op_fold roots b (fun needed root =>
    st ← in_agent (with_db (downtime (mc_volumes mc) root)); mret (needed || needs_reconcile st)) q = (Ret b', q') /\
  kept (db_of q') = kept (db_of q) /\ ag_remote (pr_agent q') = ag_remote (pr_agent q) /\ pr_key q' = pr_key q /\ pr_tasks q' = pr_tasks q /\
  (ag_steps (pr_agent q) = ag_steps (pr_agent q') + length roots)%nat.
Proof.
  induction roots as [|root roots IH]; intros b q Hl; [exists b, q; split; [done|]; repeat (split; [done|]); cbn; lia|].
  cbn [length] in Hl. destruct (ag_steps (pr_agent q)) as [|n] eqn:En; [lia|].
  destruct (downtime_run (mc_volumes mc) root (db_of q)) as (st & s' & Ed & Hk). cbn [op_fold].
  destruct (IH (b || needs_reconcile st) (moved s' n q)) as (b' & q' & E & H1 & H2 & H3 & H4 & H5); [cbn; lia|].
  exists b', q'. split; [|split; [by rewrite H1|split; [done|split; [done|split; [done|cbn in H5; cbn [length]; lia]]]]].
  assert (Es : (st ← in_agent (with_db (downtime (mc_volumes mc) root)); mret (b || needs_reconcile st)) q = (Ret (b || needs_reconcile st), moved s' n q))
    by (by rewrite (db_step _ _ _ _ _ n En Ed)).
  by rewrite (bind_run _ _ _ _ _ Es).
Qed.

(** What the sensors' choice starts, and that it touches nothing kept. *)
Lemma start_sensors_run mc cfg p : (1 + length (wc_paths (cf_watch cfg)) <= ag_steps (pr_agent p))%nat ->
  exists p', start_sensors mc cfg p = (Ret tt, p') /\ kept (db_of p') = kept (db_of p) /\ ag_remote (pr_agent p') = ag_remote (pr_agent p) /\
    pr_key p' = pr_key p /\ (exists new, pr_tasks p' = pr_tasks p ++ new) /\
    (ag_steps (pr_agent p) <= ag_steps (pr_agent p') + 1 + length (wc_paths (cf_watch cfg)))%nat.
Proof.
  intros Hn. destruct (ag_steps (pr_agent p)) as [|n] eqn:En; [lia|].
  assert (Hset : forall v q, ag_steps (pr_agent q) = S n -> exists q', in_agent (with_db (set_identity "sensor" v)) q = (Ret tt, q') /\
    q' = moved (snd (set_identity "sensor" v (db_of q))) n q /\ kept (db_of q') = kept (db_of q)).
  { intros v q Hq. eexists. split; [|split; [reflexivity|]].
    - unfold in_agent, with_db. rewrite Hq. reflexivity.
    - apply (kept_set_identity "sensor" v). not_named. }
  unfold start_sensors. destruct (mc_platform mc).
  - destruct (mc_fanotify mc) as [marks|e|].
    + set (q := mkProcess (pr_agent p) (pr_key p) (pr_tasks p ++ [FanotifyReader marks])). destruct (Hset "fanotify"%string q En) as (q' & E & -> & Hk).
      eexists. split; [rewrite (bind_run _ _ p tt q) by reflexivity; exact E|]. split; [exact Hk|]. split; [done|]. split; [done|]. split; [by eexists|cbn; lia].
    + destruct (Hset "poll_reconcile"%string p En) as (q' & E & -> & Hk). eexists. split; [exact E|]. split; [exact Hk|]. split; [done|]. split; [done|].
      split; [exists []; by rewrite app_nil_r|cbn; lia].
    + destruct (Hset "poll_reconcile"%string p En) as (q' & E & -> & Hk). eexists. split; [exact E|]. split; [exact Hk|]. split; [done|]. split; [done|].
      split; [exists []; by rewrite app_nil_r|cbn; lia].
  - destruct (Hset "poll_reconcile"%string p En) as (q' & E & -> & Hk). eexists. split; [exact E|]. split; [exact Hk|]. split; [done|]. split; [done|].
    split; [exists []; by rewrite app_nil_r|cbn; lia].
  - set (q := mkProcess (pr_agent p) (pr_key p) (pr_tasks p ++ [DirectoryWatchers (wc_paths (cf_watch cfg))])).
    destruct (Hset "rdcw_user_mode"%string q En) as (q1 & E1 & Hq1 & Hk1).
    destruct (downtimes_run mc (wc_paths (cf_watch cfg)) false q1) as (b & q2 & E2 & H1 & H2 & H3 & H4 & H5); [subst q1; cbn; lia|].
    exists (if b then mkProcess (pr_agent q2) (pr_key q2) (pr_tasks q2 ++ [DowntimeReconcile]) else q2).
    split; [rewrite (bind_run _ _ p tt q) by reflexivity; rewrite (bind_run _ _ _ _ _ E1), (bind_run _ _ _ _ _ E2); by destruct b|].
    assert (Ht : pr_tasks q2 = pr_tasks p ++ [DirectoryWatchers (wc_paths (cf_watch cfg))]) by (rewrite H4, Hq1; reflexivity).
    assert (Hr : ag_remote (pr_agent q2) = ag_remote (pr_agent p)) by (rewrite H2, Hq1; reflexivity).
    assert (Hk : pr_key q2 = pr_key p) by (rewrite H3, Hq1; reflexivity).
    assert (Hst : ag_steps (pr_agent q1) = n) by (rewrite Hq1; reflexivity).
    destruct b; (split; [change (kept (db_of q2) = kept (db_of q)); congruence|]); (split; [exact Hr|]); (split; [exact Hk|]);
      (split; [|cbn [pr_agent]; lia]); [exists [DirectoryWatchers (wc_paths (cf_watch cfg)); DowntimeReconcile]|exists [DirectoryWatchers (wc_paths (cf_watch cfg))]];
      cbn [pr_tasks]; rewrite Ht; [by rewrite <- app_assoc|done].
Qed.

(** The enrollment that is stored. *)
Record enrolled_as (db : StateDb) (id : Uuid) (ca cert key : string) : Prop := {
  en_id : exists text, db_identity db !! "agent_id"%string = Some text /\ uuid_parse text = Some id;
  en_token : exists token, db_identity db !! "agent_token"%string = Some token;
  en_ca : db_identity db !! "ca_cert_pem"%string = Some ca;
  en_cert : db_identity db !! "client_cert_pem"%string = Some cert;
  en_key : db_identity db !! "client_key_pem"%string = Some key }.

(** The boot's identity is stored; the sequence starts over when it is another. *)
Lemma refresh_run boot db : exists b db1, refresh_boot_identity boot db = (Ret b, db1) /\ material db1 = material db /\
  db_identity db1 !! "boot_id"%string = Some boot /\
  db_identity db1 !! agent_sequence = (if bool_decide (db_identity db !! "boot_id"%string = Some boot) then db_identity db !! agent_sequence else Some "0"%string).
Proof.
  case_bool_decide as Hb; [exists false, db; by rewrite (refresh_same db boot Hb)|]. unfold refresh_boot_identity. do 2 eexists. split.
  { erewrite bind_run; [|reflexivity]. rewrite bool_decide_eq_false_2 by done. reflexivity. }
  unfold material. cbn -[lookup identity_keys]. split; [|split; [by rewrite lookup_insert_ne, lookup_insert_eq by done|by rewrite lookup_insert_eq]].
  apply map_ext_in. intros k' Hk'. rewrite !lookup_insert_ne; [done|..]; intros <-; repeat (destruct Hk' as [Hk'|Hk']; [discriminate Hk'|]); done.
Qed.

(** The uploader of a stored enrollment. *)
Lemma uploader_run cfg db sp (rem : R) n ca cert key : db_identity db !! "ca_cert_pem"%string = Some ca ->
  db_identity db !! "client_cert_pem"%string = Some cert -> db_identity db !! "client_key_pem"%string = Some key ->
  mtls_uploader cfg (mkAgent db sp rem (S (S (S n)))) =
  (Ret (default (derive_agent_url (ac_server_url cfg)) (ac_agent_url cfg), (ca, cert, key)), mkAgent db sp rem n).
Proof.
  intros H1 H2 H3. unfold mtls_uploader, mbind, op_mbind, with_db, get_identity, gets. cbn -[lookup derive_agent_url]. by rewrite H1, H2, H3.
Qed.

(** The tasks every start leaves running. *)
Definition always_running : list Task := [Heartbeats; GapFlusher; PollSensor; Workers].

(** A start of an enrolled agent. *)
Lemma enrolled_run mc version cfg p id ca cert key k : enrolled_as (db_of p) id ca cert key -> key_at (mc_platform mc) (kh_stored (pr_key p)) k ->
  kh_readable (pr_key p) = true -> mc_dirs mc = Ret tt -> (8 + length (wc_paths (cf_watch cfg)) <= ag_steps (pr_agent p))%nat ->
  let boot := os_boot_id (mc_boot mc) (mc_fresh_boot mc) in
  exists rt p', agent_run mc version cfg p = (Ret rt, p') /\
    ru_agent_id rt = id /\ snd (ru_uploader rt) = (ca, cert, key) /\ ru_cipher rt = cipher_of k /\
    ag_remote (pr_agent p') = ag_remote (pr_agent p) /\ material (db_of p') = material (db_of p) /\ pr_key p' = pr_key p /\
    db_identity (db_of p') !! "boot_id"%string = Some boot /\
    db_identity (db_of p') !! agent_sequence =
      (if bool_decide (db_identity (db_of p) !! "boot_id"%string = Some boot) then db_identity (db_of p) !! agent_sequence else Some "0"%string) /\
    (exists new, pr_tasks p' = pr_tasks p ++ new /\ forall t, In t always_running -> In t new).
Proof.
  intros [(text & Hid & Hp) (token & Ht) Hca Hcert Hkey] Hk Hr Hd Hn boot. destruct p as [[db sp rem n] kh ts]. cbn [pr_agent pr_key pr_tasks ag_steps db_of ag_db] in *.
  do 6 (destruct n as [|n]; [cbn [length] in Hn; lia|]). unfold agent_run. rewrite (bind_run (lift_outcome (mc_dirs mc)) _ _ tt (mkProcess (mkAgent db sp rem (S (S (S (S (S (S n))))))) kh ts))
    by (unfold lift_outcome; by rewrite Hd).
  destruct (enrolled_once (cf_agent cfg) (hostname (mc_host_name mc)) version text id token (mkAgent db sp rem (S (S (S (S (S (S n)))))))) as (s' & E & _ & _);
    [cbn; lia|done..|].
  assert (Es : s' = mkAgent db sp rem (S (S (S (S n))))).
  { revert E. unfold ensure_identity, mbind, op_mbind, with_db, get_identity, gets. cbn -[lookup]. rewrite Hid, Ht. cbn. rewrite Hp. by intros [= <-]. }
  subst s'. rewrite (bind_run (in_agent _) _ _ (id, token) (mkProcess (mkAgent db sp rem (S (S (S (S n))))) kh ts)) by (unfold in_agent; cbn [pr_agent]; by rewrite E).
  cbv zeta. fold boot.
  destruct (refresh_run boot db) as (b & db1 & E1 & Hm1 & Hb1 & Hq1). erewrite db_step; [|reflexivity|exact E1].
  assert (Hl : forall k', In k' identity_keys -> db_identity db1 !! k' = db_identity db !! k').
  { intros k' Hk'. unfold material in Hm1. by apply (ext_in_map Hm1). }
  pose proof (uploader_run (cf_agent cfg) db1 sp rem n ca cert key) as Hu. rewrite !Hl in Hu by (cbn; tauto). specialize (Hu Hca Hcert Hkey).
  erewrite (bind_run (in_agent (mtls_uploader _))); [|unfold in_agent, moved; cbn [pr_agent ag_spool ag_remote pr_key pr_tasks]; rewrite Hu; reflexivity].
  erewrite (bind_run (in_key _)); [|unfold in_key, load_or_create; cbn [pr_key pr_agent pr_tasks]; rewrite (bind_run _ _ _ _ _ (load_key_at _ _ _ Hk Hr)); reflexivity].
  destruct (start_sensors_run mc cfg (mkProcess (mkAgent db1 sp rem n) kh ts)) as (p2 & E2 & Hk2 & Hr2 & Hkh2 & (new & Ht2) & Hs2); [cbn [pr_agent ag_steps]; lia|].
  rewrite (bind_run _ _ _ _ _ E2). cbn [pr_agent ag_steps ag_remote pr_key pr_tasks db_of ag_db] in *.
  assert (Hbase : exists p3, (if cf_baseline_enabled cfg then in_agent (with_db (set_identity "baseline_state" "running")) ;; spawn Baseline else mret tt) p2 = (Ret tt, p3) /\
    kept (db_of p3) = kept (db_of p2) /\ ag_remote (pr_agent p3) = ag_remote (pr_agent p2) /\ pr_key p3 = pr_key p2 /\ exists more, pr_tasks p3 = pr_tasks p2 ++ more).
  { destruct (cf_baseline_enabled cfg); [|exists p2; do 4 (split; [done|]); exists []; by rewrite app_nil_r].
    destruct (ag_steps (pr_agent p2)) as [|n2] eqn:En2; [lia|]. eexists. split; [by erewrite db_step; [|exact En2|reflexivity]|].
    split; [apply (kept_set_identity "baseline_state" "running"); not_named|].
    split; [done|]. split; [done|]. by eexists. }
  destruct Hbase as (p3 & E3 & Hk3 & Hr3 & Hkh3 & (more & Ht3)). rewrite (bind_run _ _ _ _ _ E3).
  assert (Hkept : forall k', In k' kept_keys -> db_identity (db_of p3) !! k' = db_identity db1 !! k').
  { intros k' Hk'. unfold kept in Hk2, Hk3. rewrite (ext_in_map Hk3 k' Hk'). by rewrite (ext_in_map Hk2 k' Hk'). }
  do 2 eexists. split; [reflexivity|]. cbn [ru_agent_id ru_uploader ru_cipher snd fst pr_agent pr_key pr_tasks].
  split; [done|]. split; [done|]. split; [done|]. split; [congruence|]. split.
  { rewrite <- Hm1. unfold material. apply map_ext_in. intros k' Hk'. apply Hkept. unfold kept_keys. apply in_app_iff. by left. }
  split; [congruence|]. split; [rewrite <- Hb1; apply Hkept; cbn; tauto|]. split; [rewrite <- Hq1; apply Hkept; cbn; tauto|].
  exists (new ++ more ++ always_running). split; [rewrite Ht3, Ht2; by rewrite <- !app_assoc|]. intros t Hin. rewrite !in_app_iff. tauto.
Qed.

(** What a start leaves stored. *)
Lemma in_agent_ret {A} (m : Op (Agent R) A) p a p' : in_agent m p = (Ret a, p') ->
  m (pr_agent p) = (Ret a, pr_agent p') /\ pr_key p' = pr_key p /\ pr_tasks p' = pr_tasks p.
Proof. unfold in_agent. destruct (m (pr_agent p)) as [o s]. by intros [= -> <-]. Qed.

Lemma in_key_ret {A} (m : Op KeyHost A) (p : Process R) a p' : in_key m p = (Ret a, p') -> m (pr_key p) = (Ret a, pr_key p') /\ pr_agent p' = pr_agent p.
Proof. unfold in_key. destruct (m (pr_key p)) as [o s]. by intros [= -> <-]. Qed.

Lemma with_db_ret {A} (m : Op StateDb A) (s : Agent R) a s' : with_db m s = (Ret a, s') -> m (ag_db s) = (Ret a, ag_db s').
Proof. unfold with_db. destruct (ag_steps s); [done|]. destruct (m (ag_db s)) as [o db]. by intros [= -> <-]. Qed.

Lemma get_ret k (s : Agent R) o s' : with_db (get_identity k) s = (Ret o, s') -> o = db_identity (ag_db s) !! k /\ ag_db s' = ag_db s.
Proof. intros H%with_db_ret. by injection H as <- <-. Qed.

Lemma ensure_ret cfg host version (s : Agent R) id token s' : ensure_identity cfg host version s = (Ret (id, token), s') ->
  (exists text, db_identity (ag_db s') !! "agent_id"%string = Some text /\ uuid_parse text = Some id) /\
  (exists token, db_identity (ag_db s') !! "agent_token"%string = Some token).
Proof.
  assert (Hnew : forall (s : Agent R) s', (token ← or_throw no_token (ac_enrollment_token cfg);
     resp ← with_remote (cp_enroll token (default host (ac_host_name cfg)) version);
     with_db (set_identity_many [("agent_id", uuid_to_string (er_agent_id resp)); ("agent_token", er_agent_token resp);
        ("ca_cert_pem", er_ca_cert_pem resp); ("client_cert_pem", er_client_cert_pem resp);
        ("client_key_pem", er_client_key_pem resp)]%string) ;;
     mret (er_agent_id resp, er_agent_token resp)) s = (Ret (id, token), s') ->
    (exists text, db_identity (ag_db s') !! "agent_id"%string = Some text /\ uuid_parse text = Some id) /\
    (exists token, db_identity (ag_db s') !! "agent_token"%string = Some token)).
  { clear s s'. intros s s' E. apply bind_ret in E as (tk & s1 & _ & E). apply bind_ret in E as (resp & s2 & _ & E).
    apply bind_ret in E as ([] & s3 & E3 & E). injection E as <- _ <-. apply with_db_ret in E3. injection E3 as <-.
    split; [exists (uuid_to_string (er_agent_id resp)); split; [|apply uuid_reads]|exists (er_agent_token resp)]; cbn -[lookup]; by simplify_map_eq. }
  unfold ensure_identity. intros (a & s1 & [Ha Hd]%get_ret & (b & s2 & [Hb Hd']%get_ret & E)%bind_ret)%bind_ret. rewrite Hd in Hb, Hd'.
  destruct a as [x|]; [destruct b as [y|]|]; [|by apply (Hnew s2)..].
  apply bind_ret in E as (u & s3 & E3 & [= <- _ <-]). unfold or_throw in E3. destruct (uuid_parse x) as [v|] eqn:Ev; [|discriminate E3]. injection E3 as <- <-.
  rewrite Hd'. split; [by exists x|by exists y].
Qed.

Definition stored_of (p : Process R) : list (option string) * option bytes := (material (db_of p), kh_stored (pr_key p)).

Lemma kept_material a b : kept a = kept b -> material a = material b.
Proof. unfold kept, kept_keys. rewrite !map_app. intros H. by apply (f_equal (take 5)) in H. Qed.

Lemma stored_frame {A} (m : Op StateDb A) : frames kept m -> frames stored_of (in_agent (with_db m)).
Proof.
  intros H p. unfold stored_of, db_of, in_agent, with_db. destruct (ag_steps (pr_agent p)); [done|]. specialize (H (ag_db (pr_agent p))).
  destruct (m (ag_db (pr_agent p))) as [o db]. cbn [snd pr_agent pr_key ag_db] in *. by rewrite (kept_material _ _ H).
Qed.

Lemma stored_spawn t : frames stored_of (spawn t).
Proof. by intros p. Qed.

Lemma downtime_kept volumes root : frames kept (downtime volumes root).
Proof. intros s. by destruct (downtime_run volumes root s) as (st & s' & -> & Hk). Qed.

Lemma start_sensors_stored mc cfg : frames stored_of (start_sensors mc cfg).
Proof.
  assert (Hset : forall v, frames stored_of (in_agent (with_db (set_identity "sensor" v)))).
  { intros v. apply stored_frame, kept_set_identity. not_named. }
  unfold start_sensors. destruct (mc_platform mc); [destruct (mc_fanotify mc); [apply frames_bind; [apply stored_spawn|intros _]|..]; apply Hset|apply Hset|].
  apply frames_bind; [apply stored_spawn|intros _]. apply frames_bind; [apply Hset|intros _]. apply frames_bind; [|intros b; destruct b; by intros p].
  apply frames_fold. intros acc root. apply frames_bind; [apply stored_frame, downtime_kept|by intros st p].
Qed.

Lemma enrolled_material db db' id ca cert key : material db' = material db -> enrolled_as db id ca cert key -> enrolled_as db' id ca cert key.
Proof.
  intros Hm [(x & H1 & H2) (y & H3) H4 H5 H6]. assert (Hl : forall k, In k identity_keys -> db_identity db' !! k = db_identity db !! k)
    by (intros k Hk; by apply (ext_in_map Hm)).
  constructor; [exists x; split; [|done]|exists y|..]; rewrite Hl by (cbn; tauto); done.
Qed.

(** The uploader's material is what is stored. *)
Lemma uploader_ret cfg (s : Agent R) u s' : mtls_uploader cfg s = (Ret u, s') -> ag_db s' = ag_db s /\
  exists ca cert key, snd u = (ca, cert, key) /\ db_identity (ag_db s) !! "ca_cert_pem"%string = Some ca /\
    db_identity (ag_db s) !! "client_cert_pem"%string = Some cert /\ db_identity (ag_db s) !! "client_key_pem"%string = Some key.
Proof.
  unfold mtls_uploader. intros (a & s1 & [Ha Hd1]%get_ret & (b & s2 & [Hb Hd2]%get_ret & (c & s3 & [Hc Hd3]%get_ret & E)%bind_ret)%bind_ret)%bind_ret.
  rewrite Hd1 in Hb, Hd2. rewrite Hd2 in Hc, Hd3. destruct a as [a|]; [|discriminate E]. destruct b as [b|]; [|discriminate E]. destruct c as [c|]; [|discriminate E].
  injection E as <- <-. split; [done|]. by exists a, b, c.
Qed.

Lemma agent_run_stores mc version cfg p rt p' : random_keys (pr_key p) -> agent_run mc version cfg p = (Ret rt, p') ->
  exists ca cert key k, snd (ru_uploader rt) = (ca, cert, key) /\ enrolled_as (db_of p') (ru_agent_id rt) ca cert key /\
    key_at (mc_platform mc) (kh_stored (pr_key p')) k /\ ru_cipher rt = cipher_of k.
Proof.
  intros Hrand. unfold agent_run. intros ([] & p0 & E0 & E)%bind_ret. unfold lift_outcome in E0. injection E0 as _ <-.
  apply bind_ret in E as ([id token] & p1 & [E1 [Hk1 _]]%in_agent_ret & E). apply ensure_ret in E1 as [Hid Htok]. cbv zeta in E.
  apply bind_ret in E as (b & p2 & [E2%with_db_ret [Hk2 _]]%in_agent_ret & E).
  destruct (refresh_run (os_boot_id (mc_boot mc) (mc_fresh_boot mc)) (db_of p1)) as (b' & db1 & Er & Hm & _). unfold db_of in Er. rewrite Er in E2. injection E2 as -> E2.
  apply bind_ret in E as (u & p3 & [E3 [Hk3 _]]%in_agent_ret & E). apply uploader_ret in E3 as (Hd3 & ca & cert & key & Hu & Hca & Hcert & Hkey).
  apply bind_ret in E as (c & p4 & E4 & E). assert (Hkey4 : exists k, key_at (mc_platform mc) (kh_stored (pr_key p4)) k /\ c = cipher_of k /\ pr_agent p4 = pr_agent p3).
  { apply in_key_ret in E4 as [Eo Ha]. unfold load_or_create in Eo. apply bind_ret in Eo as (k & kh' & Ek & Eo). injection Eo as <- <-.
    exists k. split; [|done]. apply (load_key_ret (mc_platform mc) (pr_key p3)); [by rewrite Hk3, Hk2, Hk1|exact Ek]. }
  destruct Hkey4 as (k & Hka & -> & Ha4).
  assert (Hrest : stored_of p' = stored_of p4 /\ rt = mkRuntime u id (default (mc_fresh_id mc) (uuid_parse (os_boot_id (mc_boot mc) (mc_fresh_boot mc))))
    (default (hostname (mc_host_name mc)) (ac_host_name (cf_agent cfg))) (cipher_of k)).
  { apply bind_ret in E as ([] & p5 & E5 & E). pose proof (start_sensors_stored mc cfg p4) as Hs5. rewrite E5 in Hs5. cbn [snd] in Hs5.
    apply bind_ret in E as ([] & p6 & E6 & E).
    assert (Hs6 : stored_of p6 = stored_of p5).
    { assert (Hf : frames stored_of (if cf_baseline_enabled cfg then in_agent (with_db (set_identity "baseline_state" "running")) ;; spawn Baseline else mret tt)).
      { destruct (cf_baseline_enabled cfg); [|by intros q]. apply frames_bind; [|intros _; apply stored_spawn]. apply stored_frame, kept_set_identity.
        not_named. }
      specialize (Hf p5). by rewrite E6 in Hf. }
    unfold spawn, modify, mbind, op_mbind in E. injection E as <- <-. split; [|done]. rewrite <- Hs5, <- Hs6. done. }
  destruct Hrest as [Hst ->]. cbn [ru_uploader ru_agent_id ru_cipher]. exists ca, cert, key, k. split; [exact Hu|].
  pose proof (f_equal fst Hst) as Hm'. pose proof (f_equal snd Hst) as Hkh'. unfold stored_of, fst, snd in Hm', Hkh'. rewrite Hkh'. split; [|by split].
  apply (enrolled_material (db_of p3)); [rewrite Hm'; unfold db_of; by rewrite Ha4|]. unfold db_of in *. rewrite Hd3.
  assert (Hl : forall x, In x identity_keys -> db_identity (ag_db (pr_agent p2)) !! x = db_identity (ag_db (pr_agent p1)) !! x)
    by (intros x Hx; rewrite <- E2; by apply (ext_in_map Hm)).
  destruct Hid as (text & Hx & Hp), Htok as (tk & Hy).
  constructor; [exists text; by rewrite Hl by (cbn; tauto)|exists tk; by rewrite Hl by (cbn; tauto)|done..].
Qed.

(** C14. Once a start of the agent has got through, every later start of it on the
    same machine runs as the same agent, with the same client certificate and the
    same spool key, and asks the server for nothing: whatever the configuration
    now says, and whatever the process did to its queue in between.  It only needs
    its state, its directories and a readable key.  Whichever sensors it finds, the
    heartbeat, the gap reports, the poll sensor and the workers run; the sequence of
    the occurrences goes on in the same boot and starts over in another.  (Nor does
    it ever ask for a new certificate, which the server signs for thirty days.) *)
Theorem restarts_as_itself mc version cfg p rt p1 mc' version' cfg' p2 :
  random_keys (pr_key p) -> agent_run mc version cfg p = (Ret rt, p1) ->
  material (db_of p2) = material (db_of p1) -> kh_stored (pr_key p2) = kh_stored (pr_key p1) -> kh_readable (pr_key p2) = true ->
  mc_platform mc' = mc_platform mc -> mc_dirs mc' = Ret tt -> (8 + length (wc_paths (cf_watch cfg')) <= ag_steps (pr_agent p2))%nat ->
  let boot := os_boot_id (mc_boot mc') (mc_fresh_boot mc') in
  exists rt' p3, agent_run mc' version' cfg' p2 = (Ret rt', p3) /\
    ru_agent_id rt' = ru_agent_id rt /\ snd (ru_uploader rt') = snd (ru_uploader rt) /\ ru_cipher rt' = ru_cipher rt /\
    ag_remote (pr_agent p3) = ag_remote (pr_agent p2) /\ material (db_of p3) = material (db_of p1) /\
    (exists new, pr_tasks p3 = pr_tasks p2 ++ new /\ forall t, In t always_running -> In t new) /\
    db_identity (db_of p3) !! "boot_id"%string = Some boot /\
    db_identity (db_of p3) !! agent_sequence =
      (if bool_decide (db_identity (db_of p2) !! "boot_id"%string = Some boot) then db_identity (db_of p2) !! agent_sequence else Some "0"%string).
Proof.
  intros Hrand E Hm Hkh Hr Hpl Hd Hn boot. destruct (agent_run_stores mc version cfg p rt p1 Hrand E) as (ca & cert & key & k & Hu & Hen & Hk & Hc).
  destruct (enrolled_run mc' version' cfg' p2 (ru_agent_id rt) ca cert key k) as (rt' & p3 & E' & Hid & Hu' & Hc' & Hrem & Hm' & _ & Hb & Hs & Ht);
    [by apply (enrolled_material (db_of p1))|by rewrite Hkh, Hpl|done..|].
  exists rt', p3. split; [exact E'|]. split; [exact Hid|]. split; [congruence|]. split; [congruence|]. split; [exact Hrem|]. split; [congruence|].
  by split.
Qed.
End restart.

(** A machine that boots twice: the agent enrolls, and then starts without a token,
    without fanotify, and with another configuration. *)
Section witnesses.
Local Existing Instance ReferenceUuid.display.
Local Existing Instance Startup.decimal_ids.

(** A server that gives a new identity to everyone who asks. *)
Local Instance counting_plane : ControlPlane nat := {|
  cp_enroll := fun token _ _ n => (Ret (mkEnrollResponse (N.of_nat (40 + n)) token 5%N "ca" ("cert " +:+ show_Z (Z.of_nat n)) "key"), S n);
  cp_heartbeat := fun _ n => (Ret tt, n);
  cp_report_gaps := fun _ n => (Ret tt, n) |}.
Local Instance no_oid : UuidV5Oid := fun _ => 0%N.
Local Instance clear_keys : Dpapi := {| protect := Some; unprotect := Some |}.
Local Instance one_cipher : ChaCha := fun _ => ReferenceCipher.cipher.
Local Instance slashes : WindowsPath := {| path_join := fun a b => (a +:+ "\" +:+ b)%string; first_component := Some |}.

Lemma clear_laws : DpapiLaws.
Proof. by intros b c [= ->]. Qed.

Definition first_boot : Machine := mkMachine Linux (Some "h1"%string) (LinuxBoot (Some "b1"%string)) 0%N 0%N (Ret tt) (Ret []) (fun _ => None).
Definition second_boot : Machine := mkMachine Linux (Some "h2"%string) (LinuxBoot (Some "b2"%string)) 0%N 0%N (Ret tt) (Fail (Io "EPERM")) (fun _ => None).
Definition an_agent (token : option string) (host : string) : Config :=
  mkConfig (mkAgentConfig "https://hub:8080" None token (Some host)) "/s" "/q" default_watch true default_limits 30.
Definition installed : Process nat :=
  mkProcess (mkAgent (open_db (fun n => Z.of_nat n)) sample_spool 0%nat 40) (mkKeyHost None true Whole (fun n => repeat x01 32) 0) [].
Definition first_run := agent_run first_boot "1.0" (an_agent (Some "invite"%string) "h1") installed.
Definition first_runtime : Runtime := match fst first_run with Ret rt => rt | _ => mkRuntime ("", ("", "", ""))%string 0%N 0%N "" ReferenceCipher.cipher end.

Lemma restarts_as_itself_witness :
  ru_agent_id first_runtime = 40%N /\ ag_remote (pr_agent (snd first_run)) = 1%nat /\
  exists rt p, agent_run second_boot "1.1" (an_agent None "h2") (snd first_run) = (Ret rt, p) /\
    ru_agent_id rt = 40%N /\ ag_remote (pr_agent p) = 1%nat /\ snd (ru_uploader rt) = ("ca", "cert 0", "key")%string.
Proof.
  split; [vm_compute; reflexivity|]. split; [vm_compute; reflexivity|].
  assert (Hr : random_keys (pr_key installed)) by (intros n; reflexivity).
  assert (E : first_run = (Ret first_runtime, snd first_run)) by (vm_compute; reflexivity).
  assert (Hk : kh_readable (pr_key (snd first_run)) = true) by (vm_compute; reflexivity).
  assert (Hn : (8 + length (wc_paths (cf_watch (an_agent None "h2"))) <= ag_steps (pr_agent (snd first_run)))%nat)
    by (apply Nat.leb_le; vm_compute; reflexivity).
  assert (Hu : snd (ru_uploader first_runtime) = ("ca", "cert 0", "key")%string) by (vm_compute; reflexivity).
  destruct (restarts_as_itself (DL := clear_laws) Startup.decimal_reads first_boot "1.0" (an_agent (Some "invite"%string) "h1") installed first_runtime
    (snd first_run) second_boot "1.1" (an_agent None "h2") (snd first_run) Hr E eq_refl eq_refl Hk eq_refl eq_refl Hn)
    as (rt & p & E' & Hid & Hup & _ & Hrem & _).
  exists rt, p. split; [exact E'|]. split; [rewrite Hid; vm_compute; reflexivity|]. split; [rewrite Hrem; vm_compute; reflexivity|]. by rewrite Hup.
Defined.
End witnesses.
